(* ===== verification/_CoqProject ===== *)
-Q . S2P
Prelude.v
PyStr.v
PyDict.v
PyTime.v
Scope.v
Models.v
Registry.v
Enforce.v
CoreAudit.v
AuditJson.v
Sha256.v
Pop.v
Ratelimit.v
Infer.v
ServiceModels.v
Repositories.v
AuditWriter.v
World.v
V1Enforce.v
Simulate.v
Grants.v
GrantRequests.v
SubjectTokens.v
AutoApproval.v
AuditQuery.v
Service.v
Json.v
AuditChain.v
PolicyInfer.v
Http.v
PyUrl.v
V1Http.v
BoundaryHttp.v
GrantHttp.v
RequestHttp.v
AuditHttp.v
IdemCrypto.v
McpClient.v
McpTools.v
McpServer.v
IdemStorage.v
IdemRows.v
IdemLock.v
TenantHttp.v
SqlTxn.v
SqlRows.v
SqlStore.v
StorageOps.v
IdemHttp.v
Oidc.v
Metrics.v
Readiness.v
ReadinessSafe.v
ReadinessLive.v
HttpServer.v
McpReport.v
SqlPool.v
SqlPoolSafe.v
SqlPoolLive.v
ServerGate.v
ServerIdem.v
IdemSqlite.v
IdemLifecycle.v
SqlRefine.v
SqlAudit.v
SqlQuery.v
ControlPlane.v
ControlRefine.v
SqlWithin.v
IdemRuns.v
IdemOnce.v
IdemChanges.v
IdemReplay.v
IdemLedger.v
IdemRetire.v
Keys.v
KeyOps.v
PolicyFiles.v
PolicyApply.v
PolicyRollback.v
