(* ===== verification/Prelude.v ===== *)
(** * Vinctor core: a verification development

    Vinctor decides whether an agent may perform an action on a resource.  An
    agent holds _grants_ (scopes such as [read:repo/docs/*] with an expiry);
    the service checks each request against a grant, records every decision in
    an audit trail, and lets the operators of a workspace issue, request,
    delegate and revoke grants.  This library models the program under
    [src/src/] (file names below are relative to it) and proves what makes it
    correct.

    ** 1. How the parts interact

    A request arrives at [vinctor_service/local_http.py] ([HttpServer.v]): it is
    counted by the rate limiter, routed, its body read, its key resolved to an
    identity, and handed to a handler of an [*_http.py] module ([Http.v],
    [V1Http.v], [BoundaryHttp.v], [GrantHttp.v], [RequestHttp.v],
    [AuditHttp.v]).  A handler calls the service through a class ([V1Service],
    [GrantLifecycleService], ...).  [vinctor_service/in_memory.py] is the
    instance of all of them ([World.v], [Service.v]); it runs the contracts of
    [v1_enforce.py], [grants.py], [grant_requests.py], [subject_tokens.py],
    [auto_approval.py], [simulations.py] and [observations.py], which decide
    with the pure core ([vinctor_core/scope.py], [enforce.py], [policy.py]) and
    write to an audit store.  The durable repositories of
    [vinctor_service/sqlite.py] implement the same interfaces over tables, with
    the transactions of [sqlite_txn.py], the hash chain of [audit_chain.py], the
    control-plane events of [control_audit.py], the keys of [keys.py] and the
    policies of [policy_files.py].  A mutation sent with an [Idempotency-Key]
    runs under [idempotency_*.py], in one transaction with its sealed response.

    ** 2. Which file models what

    Shared: [Prelude.v] (results, the state-and-error monad [M], the logic
    [keeps], hints, lemmas on lists and options), [PyStr.v], [PyDict.v],
    [PyTime.v], [Json.v], [Sha256.v] (what the source uses of
    Python and its standard library, executable).

    The core: [Scope.v] (scope.py), [Models.v] (models.py), [Registry.v]
    (registry.py), [Enforce.v] (enforce.py, policy.py, authorize.py),
    [CoreAudit.v] (audit.py), [Infer.v] (infer.py).

    The service in memory: [ServiceModels.v], [Repositories.v], [AuditWriter.v]
    (audit.py), [Pop.v], [Ratelimit.v], [V1Enforce.v], [Simulate.v], [Grants.v],
    [GrantRequests.v], [SubjectTokens.v], [AutoApproval.v], [AuditQuery.v],
    [World.v] and [Service.v] (in_memory.py), [Oidc.v], [Metrics.v].

    HTTP: the files named above, [TenantHttp.v] (what a workspace key can reach),
    [ServerGate.v] and [ServerIdem.v] (theorems about the server), [Readiness.v]
    (health_checks.py), [ReadinessSafe.v] and [ReadinessLive.v] (what the probes
    guarantee).

    SQLite: [SqlTxn.v] (sqlite_txn.py and the write scopes), [SqlRows.v] (rows
    and their encodings), [SqlStore.v] (the repositories), [AuditChain.v] and
    [SqlAudit.v] (the audit table), [SqlQuery.v] (the audit queries),
    [SqlRefine.v] and [ControlRefine.v] (refinement of the in-memory
    repositories), [ControlPlane.v], [Keys.v] and [KeyOps.v], [PolicyFiles.v],
    [PolicyApply.v], [PolicyRollback.v], [SqlWithin.v], [SqlPool.v]
    (sqlite_pool*.py), [SqlPoolSafe.v] and [SqlPoolLive.v] (what it guarantees),
    [StorageOps.v] (storage_ops.py: whole databases, and what a crash leaves).

    Idempotency: [IdemCrypto.v], [IdemStorage.v], [IdemRows.v], [IdemSqlite.v],
    [IdemHttp.v] (the code), [IdemLock.v] and [IdemLifecycle.v] (the lifecycle of
    sealing keys), [IdemRuns.v] and [IdemChanges.v] (what operations do to the
    tables), [IdemOnce.v], [IdemReplay.v], [IdemLedger.v], [IdemRetire.v] (what is
    guaranteed).

    Beside the service: [PolicyInfer.v] (policy_infer.py, scopes proposed from
    the audit trail); the MCP server ([vinctor_mcp_server/]), which reaches the
    service over HTTP: [PyUrl.v] (what it uses of urllib), [McpClient.v]
    (output_policy.py, config.py, service_client.py), [McpTools.v] (the tools
    that read, tools.py), [McpServer.v] (the tools that write, and server.py),
    [McpReport.v] (a report, against the endpoint of [AuditHttp.v]).

    A definition carries the name of the function it translates; a method of a
    class carries the name of the method, prefixed where several classes share
    it ([grants_insert], [sql_revoke_token]).  A dataclass is a record with a
    prefix per field.  A method that mutates is an operation of [M S A], which
    is [S -> result A * S]: what an operation raises is a [pyexc], and the state
    it leaves when it raises is part of its result.

    ** 3. What the theorems show

    - Decisions: [Enforce.evaluate_enforce_permit_iff] characterises a permit;
      [V1Http.http_permit_sound] and [V1Http.http_delegated_confined] carry it to
      the endpoints; [V1Enforce.enforce_decision_recorded] says each decision is
      in the audit trail; [Service.revocation_final] that no later call undoes a
      revocation.
    - Confinement: issuance, approval and minting stay within bounds
      ([issue_grant_within_bounds], [approve_request_sound],
      [http_mint_bounded]); a workspace key neither changes nor shows anything of
      another workspace ([TenantHttp.http_tenant_isolation]); refusals do not
      tell which grants exist ([http_no_grant_oracle],
      [delegated_token_errors_uniform]).
    - The audit trail: tampering is detected ([chain_tamper_evident],
      [anchored_history_fixed]); what is written verifies and reads back
      ([log_verifies_and_reads_back]); a report gathers
      every event of its snapshot once, page by page, over HTTP
      ([mcp_report_complete]); no control change goes unrecorded
      ([control_change_audited]).
    - Beside the service: an MCP server without writing enabled only reads, and
      shows only the fields of its output mode ([mcp_reads_only]); a scope is
      proposed on the evidence it cites, of permitted uses alone
      ([inferred_policy_justified]).
    - Storage: the SQLite repositories refine the in-memory ones, whatever
      transaction is open and whenever a COMMIT fails ([sql_requests_refine],
      [sql_tokens_refine]); a policy is applied whole or not at all
      ([apply_policy_transactional]) and rolled back to what it was
      ([policy_rollback_restores]); a database is replaced by another without a
      moment at which a crash would leave neither
      ([StorageOps.replacement_survives]).
    - Idempotency: a mutation runs at most once and with its stored answer, also
      when the acknowledgement of its COMMIT is lost ([execute_once]), a retry is answered with it ([idempotent_replay]), a
      reused key is a conflict ([idempotency_conflict]), nonces are never reused
      ([idem_ledger_exact]); a key disabled for writing seals nothing more
      ([disabled_key_fenced]), is drained only when no service writes under it
      ([drain_waits_for_writers]), and once retired is needed by nothing
      ([retired_keys_removable]); and what a route gives the executor under a key
      is what it does without one ([keyed_runs_direct]).
    - The server: [gate_protects_service], [metrics_labels_fixed],
      [body_read_bounded], [rate_limit_readmits]; the readiness probes never
      leave more workers behind than their cap, never answer with a stale result,
      and recover without those that are wedged ([probe_workers_bounded],
      [probe_answer_sound], [probe_recovers]).
    - The connection pool: a lease has a context of its own, clean and of the
      current generation ([pool_lease_sound]); no request is stranded
      ([pool_does_not_stall]); a closed pool keeps open what an error kept it from
      closing, and nothing else ([pool_shutdown_sound]); an audit endpoint answers over the table what it
      answers over the list ([audit_endpoint_same_on_sqlite]).

    ** 4. Bounds and fuel

    Recursion that is not structural carries fuel: the JSON readers and
    [floats_as_objects] are called with the length of their input (every step
    consumes a character), the keyring reader likewise, a walk over audit pages
    with one step per page, for any fuel beyond the number of events
    ([mcp_report_complete] proves that the walk ends before the fuel does).  Integers are unbounded as in Python; where the program
    meets a fixed width the bound is written out: 64-bit columns ([bind_int]),
    32-bit and 64-bit length prefixes ([length_prefixed], [_int64]), SHA-256
    words, the 2^24 slots of a sealing key, the 64 KiB of a body.

    ** 5. Parameters

    What the source takes from elsewhere is a parameter of the section that uses
    it: IP address parsing, AES-GCM ([AesGcm], of which [AesGcmOk] states that
    decryption inverts encryption and how long the tag is), token decoding by
    the JWT library, YAML, key resolvers, the connection of an HTTP client
    ([Transport]), a host in brackets, [repr], Unicode normalisation, what [int], [str.lower] and
    [str.isdigit] give on non-ASCII text, the order in which a set iterates.
    Random names come from an entropy source; [names_fresh] (a drawn id is not
    one already in use) is a hypothesis where it matters.

    ** 6. Not modelled

    - The command line, start-up and signals ([cli.py], [local_launcher.py],
      [service_runtime.py], [storage_runtime.py], [runtime_signals.py],
      [local_admin.py]): argument parsing, process control
      and printing around the operations modelled here.
    - Schema migrations.
    - Of the disk ([StorageOps.v]): what a crash in the middle of one SQLite
      checkpoint leaves (SQLite recovers from it), and failures of a flush of the
      directory, which the code ignores: directories can be flushed or not.
    - PostgreSQL ([postgres*.py], [idempotency_*postgres*.py]): the same
      contracts through another driver, whose SQL and locks run in the server.
    - The MCP library, the command line of the MCP server and the warning it
      prints at start-up; a response of the service that holds a float is
      refused, and an endpoint is ASCII.
    - [SQLiteV1Service], which wires the SQLite repositories to the contracts:
      the contracts are proved against interfaces ([GrantLifecycle],
      [AuditWriter], ...) that the SQLite repositories are shown to implement or
      to refine, but the facade itself is not composed on the store.
    - Threads: a lock's critical section is one step; the readiness probe and
      the connection pool, whose threads interleave outside their locks, are
      step relations.
    - Floats in request bodies are read as an empty object, which every parser
      refuses as it refuses a float; integers of more than 4300 digits, which
      Python refuses to read, are read.  Durations are whole nanoseconds.  A
      request's target is an absolute path.
    - [datetime.fromisoformat] is modelled on the texts [isoformat] writes, and
      [str.lower] on ASCII. *)

From stdpp Require Export base tactics list strings gmap sorting pretty.
From Stdlib Require Export ZArith Lia Ascii.

#[global] Open Scope Z_scope.

Declare Scope py_scope.
Delimit Scope py_scope with py.
#[global] Open Scope py_scope.

(** Python's [==] on [str]. *)
Infix "==" := String.eqb (at level 70, no associativity) : py_scope.
(** String concatenation: an f-string is a chain of these. *)
Notation "a ^+ b" := (String.append a b) (at level 60, right associativity) : py_scope.

(** ** Exceptions and results

    The exceptions the modelled code raises or catches.  [StorageError] stands
    for whatever exception a storage backend raises. *)
Inductive pyexc :=
  | ValueError (msg : string)
  | OverflowError (msg : string)
  | RuntimeError (msg : string)
  | KeyError (key : string)
  | TypeError (msg : string)
  | AssertionError
  | StorageError (msg : string)
  (** An exception class of the service, by its name. *)
  | ServiceError (cls : string).

#[global] Instance pyexc_eq_dec : EqDecision pyexc.
Proof. solve_decision. Defined.

Inductive result (A : Type) :=
  | Ok (a : A)
  | Raise (e : pyexc).
Arguments Ok {A} a.
Arguments Raise {A} e.

Definition is_ok {X} (r : result X) : bool := match r with Ok _ => true | Raise _ => false end.

#[global] Instance Ok_inj A : Inj (=) (=) (@Ok A).
Proof. by intros x y [= ->]. Qed.

#[global] Instance result_ret : MRet result := λ A a, Ok a.
#[global] Instance result_bind : MBind result := λ A B f m,
  match m with Ok a => f a | Raise e => Raise e end.

(** ** The state and exception monad

    A Python operation reads and writes a state and returns or raises; the
    writes made before an exception stay made. *)
Definition M (S A : Type) : Type := S → result A * S.

#[global] Instance M_ret S : MRet (M S) := λ A a s, (Ok a, s).
#[global] Instance M_bind S : MBind (M S) := λ A B f m s,
  match m s with
  | (Ok a, s') => f a s'
  | (Raise e, s') => (Raise e, s')
  end.

Section monad.
Context {S : Type}.

Definition raise {A} (e : pyexc) : M S A := λ s, (Raise e, s).
Definition gets {A} (f : S → A) : M S A := λ s, (Ok (f s), s).
Definition modify (f : S → S) : M S unit := λ s, (Ok tt, f s).
(** [try: m  except Exception as e: h e] *)
Definition try_except {A} (m : M S A) (h : pyexc → M S A) : M S A := λ s,
  match m s with
  | (Ok a, s') => (Ok a, s')
  | (Raise e, s') => h e s'
  end.
(** [with contextlib.suppress(Exception): m] *)
Definition suppress {A} (m : M S A) : M S unit :=
  try_except (m ≫= λ _, mret tt) (λ _, mret tt).
(** [for x in l: f x] *)
Fixpoint for_each {A} (f : A → M S unit) (l : list A) : M S unit :=
  match l with
  | [] => mret tt
  | x :: l' => _ ← f x; for_each f l'
  end.
(** Lift a pure fallible computation. *)
Definition lift {A} (r : result A) : M S A := λ s, (r, s).
(** How [m] ends, as a value. *)
Definition outcome {A} (m : M S A) : M S (result A) := λ s, (Ok (m s).1, (m s).2).
(** [try: m  finally: f] *)
Definition try_finally {A} (m : M S A) (f : M S unit) : M S A := r ← outcome m; _ ← f; lift r.

Lemma bind_Ok_inv {A B} (m : M S A) (f : A → M S B) s b s' :
  (m ≫= f) s = (Ok b, s') ↔
  ∃ a s1, m s = (Ok a, s1) ∧ f a s1 = (Ok b, s').
Proof.
  unfold mbind, M_bind. destruct (m s) as [[a|e] s1]; split.
  - eauto.
  - intros (?&?&?&?). by simplify_eq.
  - done.
  - by intros (?&?&?&?).
Qed.
Lemma bind_Raise_inv {A B} (m : M S A) (f : A → M S B) s e s' :
  (m ≫= f) s = (Raise e, s') ↔
  m s = (Raise e, s') ∨ ∃ a s1, m s = (Ok a, s1) ∧ f a s1 = (Raise e, s').
Proof.
  unfold mbind, M_bind. destruct (m s) as [[a|e'] s1]; split.
  - intros ?. right. eauto.
  - intros [?|(?&?&?&?)]; by simplify_eq.
  - intros ?. left. by simplify_eq.
  - intros [?|(?&?&?&?)]; by simplify_eq.
Qed.
Lemma lift_run {A} (o : result A) s x s' : lift o s = (Ok x, s') → o = Ok x ∧ s' = s.
Proof. unfold lift. by intros [= -> <-]. Qed.
Lemma lift_Ok_bind {A B} (a : A) (f : A → M S B) s : (lift (Ok a) ≫= f) s = f a s.
Proof. done. Qed.
Lemma result_bind_inv {A B} (r : result A) (f : A → result B) b :
  r ≫= f = Ok b → ∃ a, r = Ok a ∧ f a = Ok b.
Proof. destruct r as [a|]; [|done]. intros Hf. by exists a. Qed.
Lemma mapM_post {A B} (Q : B → Prop) (f : A → M S B) l s k s' :
  (∀ x s y s', f x s = (Ok y, s') → Q y) → mapM f l s = (Ok k, s') → Forall Q k.
Proof.
  intros Hf. revert s k. induction l as [|x l IH]; intros s k; cbn [mapM]; [by intros [= <- _]|].
  rewrite bind_Ok_inv. intros (y & s1 & Hx & Hr). apply bind_Ok_inv in Hr as (k' & s2 & Hl & Hret).
  injection Hret as <- <-. constructor; [by eapply Hf|by eapply IH].
Qed.
Lemma bind_run {A B} (m : M S A) (f : A → M S B) s a s1 :
  m s = (Ok a, s1) → (m ≫= f) s = f a s1.
Proof. unfold mbind, M_bind. by intros ->. Qed.

(** ** Two-state invariants of operations

    [keeps R m]: whatever [m] returns or raises, the states before and after
    are related by [R]. *)
Definition keeps (R : S → S → Prop) {A} (m : M S A) : Prop :=
  ∀ s, R s (m s).2.

Section keeps.
Context (R : S → S → Prop) `{!PreOrder R}.

Lemma keeps_ret {A} (a : A) : keeps R (mret a).
Proof. intros s. reflexivity. Qed.
Lemma keeps_raise {A} e : keeps R (raise (A:=A) e).
Proof. intros s. reflexivity. Qed.
Lemma keeps_gets {A} (f : S → A) : keeps R (gets f).
Proof. intros s. reflexivity. Qed.
Lemma keeps_lift {A} (r : result A) : keeps R (lift r).
Proof. intros s. reflexivity. Qed.
Lemma keeps_bind {A B} (m : M S A) (f : A → M S B) :
  keeps R m → (∀ a, keeps R (f a)) → keeps R (m ≫= f).
Proof.
  intros Hm Hf s. specialize (Hm s). unfold mbind, M_bind.
  destruct (m s) as [[a|e] s']; simpl in *; [|done].
  etrans; [exact Hm|apply Hf].
Qed.
Lemma keeps_lift_bind {A B} (r : result A) (f : A → M S B) :
  (∀ a, r = Ok a → keeps R (f a)) → keeps R (lift r ≫= f).
Proof.
  intros Hf s. unfold lift, mbind, M_bind. destruct r as [a|e]; [by apply Hf|]. reflexivity.
Qed.
Lemma keeps_try {A} (m : M S A) h :
  keeps R m → (∀ e, keeps R (h e)) → keeps R (try_except m h).
Proof.
  intros Hm Hh s. specialize (Hm s). unfold try_except.
  destruct (m s) as [[a|e] s']; simpl in *; [done|].
  etrans; [exact Hm|apply Hh].
Qed.
Lemma keeps_suppress {A} (m : M S A) : keeps R m → keeps R (suppress m).
Proof.
  intros Hm. unfold suppress. apply keeps_try.
  - apply keeps_bind; [done|]. intros. apply keeps_ret.
  - intros. apply keeps_ret.
Qed.
Lemma keeps_modify f : (∀ s, R s (f s)) → keeps R (modify f).
Proof. intros H s. apply H. Qed.
Lemma keeps_if {A} (b : bool) (m1 m2 : M S A) :
  keeps R m1 → keeps R m2 → keeps R (if b then m1 else m2).
Proof. by destruct b. Qed.
Lemma keeps_for_each {A} (f : A → M S unit) l :
  (∀ x, x ∈ l → keeps R (f x)) → keeps R (for_each f l).
Proof.
  induction l as [|x l IH]; intros Hf; cbn [for_each]; [apply keeps_ret|].
  apply keeps_bind; [apply Hf; left|]. intros _. apply IH. intros y Hy. apply Hf. by right.
Qed.
Lemma keeps_mapM {A B} (f : A → M S B) l :
  (∀ x, x ∈ l → keeps R (f x)) → keeps R (mapM f l).
Proof.
  induction l as [|x l IH]; intros Hf; cbn [mapM]; [apply keeps_ret|].
  apply keeps_bind; [apply Hf; left|]. intros y. apply keeps_bind; [|intros; apply keeps_ret].
  apply IH. intros z Hz. apply Hf. by right.
Qed.
(** What the first operation returns may be used in the second. *)
Lemma keeps_bind_post {A B} (Q : A → Prop) (m : M S A) (f : A → M S B) :
  keeps R m → (∀ s a s', m s = (Ok a, s') → Q a) → (∀ a, Q a → keeps R (f a)) →
  keeps R (m ≫= f).
Proof.
  intros Hm HQ Hf s. specialize (Hm s). unfold mbind, M_bind.
  destruct (m s) as [[a|e] s'] eqn:Hrun; simpl in *; [|done].
  etrans; [exact Hm|]. by apply (Hf a (HQ _ _ _ Hrun)).
Qed.
Lemma keeps_option {A B} (o : option B) (f : B → M S A) (m : M S A) :
  (∀ b, o = Some b → keeps R (f b)) → keeps R m →
  keeps R (match o with Some b => f b | None => m end).
Proof. destruct o; auto. Qed.
End keeps.
End monad.

#[global] Arguments keeps {S} R {A} m : simpl never.

Create HintDb keeps discriminated.
#[export] Hint Resolve keeps_ret keeps_raise keeps_gets keeps_lift keeps_bind
  keeps_try keeps_suppress keeps_if keeps_for_each keeps_mapM : keeps.
#[export] Hint Extern 1 (PreOrder _) => typeclasses eauto : keeps.

(** ** Tactics *)

(** Split boolean guards of a hypothesis or goal into propositions. *)
Ltac bool_prop :=
  repeat match goal with
  | H : (_ && _)%bool = true |- _ => apply andb_true_iff in H; destruct H
  | H : (_ || _)%bool = false |- _ => apply orb_false_iff in H; destruct H
  | H : negb _ = true |- _ => apply negb_true_iff in H
  | H : negb _ = false |- _ => apply negb_false_iff in H
  | H : String.eqb _ _ = true |- _ => apply String.eqb_eq in H
  | H : String.eqb _ _ = false |- _ => apply String.eqb_neq in H
  | H : Z.leb _ _ = true |- _ => apply Z.leb_le in H
  | H : Z.leb _ _ = false |- _ => apply Z.leb_gt in H
  | H : Z.ltb _ _ = true |- _ => apply Z.ltb_lt in H
  | H : Z.ltb _ _ = false |- _ => apply Z.ltb_ge in H
  | H : Z.eqb _ _ = true |- _ => apply Z.eqb_eq in H
  | H : Z.eqb _ _ = false |- _ => apply Z.eqb_neq in H
  end.

(** Invert the successful or failing run of a monadic bind. *)
Ltac run_inv :=
  repeat match goal with
  | H : (_ ≫= _) _ = (Ok _, _) |- _ =>
      apply bind_Ok_inv in H; destruct H as (? & ? & ? & ?)
  | H : mret _ _ = (_, _) |- _ => unfold mret, M_ret in H; simplify_eq
  | H : gets _ _ = (_, _) |- _ => unfold gets in H; simplify_eq
  | H : raise _ _ = (_, _) |- _ => unfold raise in H; simplify_eq
  | H : modify _ _ = (_, _) |- _ => unfold modify in H; simplify_eq
  | H : lift _ _ = (_, _) |- _ => unfold lift in H; simplify_eq
  end.

(** ** Triples of operations

    From a state that satisfies [P], [m] returns with [Q] or raises with [R]. *)
Section triples.
Context {S : Type}.
Definition triple {X} (P : S → Prop) (m : M S X) (Q : X → S → Prop) (R : S → Prop) : Prop :=
  ∀ s, P s → match m s with (Ok x, s') => Q x s' | (Raise _, s') => R s' end.
Implicit Types P R : S → Prop.
Lemma triple_ret {X} (x : X) P Q R : (∀ s, P s → Q x s) → triple P (mret x) Q R.
Proof. intros HQ s Hs. by apply HQ. Qed.
Lemma triple_raise {X} e P (Q : X → S → Prop) R : (∀ s, P s → R s) → triple P (raise e) Q R.
Proof. intros HR s Hs. by apply HR. Qed.
Lemma triple_gets {X} (f : S → X) P R : triple P (gets f) (λ x s, P s ∧ x = f s) R.
Proof. by intros s Hs. Qed.
Lemma triple_modify f P Q R : (∀ s, P s → Q (f s)) → triple P (modify f) (λ _, Q) R.
Proof. intros HQ s Hs. by apply HQ. Qed.
Lemma triple_bind {X Y} P (m : M S X) Q (f : X → M S Y) Q' R :
  triple P m Q R → (∀ x, triple (Q x) (f x) Q' R) → triple P (m ≫= f) Q' R.
Proof.
  intros Hm Hf s Hs. specialize (Hm s Hs). unfold mbind, M_bind. destruct (m s) as [[x|e] s1]; [|done].
  by apply Hf.
Qed.
Lemma triple_try {X} P (m : M S X) h Q R R' :
  triple P m Q R → (∀ e, triple R (h e) Q R') → triple P (try_except m h) Q R'.
Proof.
  intros Hm Hh s Hs. specialize (Hm s Hs). unfold try_except. destruct (m s) as [[x|e] s1]; [done|].
  by apply Hh.
Qed.
Lemma triple_outcome {X} P (m : M S X) Q R R' : triple P m Q R →
  triple P (outcome m) (λ r s, match r with Ok x => Q x s | Raise _ => R s end) R'.
Proof.
  intros Hm s Hs. specialize (Hm s Hs). unfold outcome. by destruct (m s) as [[x|e] s1].
Qed.
Lemma triple_weaken {X} P P' (m : M S X) Q Q' R R' : triple P' m Q' R' → (∀ s, P s → P' s) →
  (∀ x s, Q' x s → Q x s) → (∀ s, R' s → R s) → triple P m Q R.
Proof.
  intros Hm HP HQ HR s Hs. specialize (Hm s (HP s Hs)). destruct (m s) as [[x|e] s1]; auto.
Qed.
Lemma triple_if {X} (b : bool) P (m m' : M S X) Q R :
  triple P m Q R → triple P m' Q R → triple P (if b then m else m') Q R.
Proof. by destruct b. Qed.
Lemma triple_lift {X} (r : result X) P (Q : X → S → Prop) R :
  (∀ x s, r = Ok x → P s → Q x s) → (∀ s, P s → R s) → triple P (lift r) Q R.
Proof. intros HQ HR s Hs. unfold lift. destruct r; auto. Qed.
Lemma triple_pure {X} (φ : Prop) P (m : M S X) Q R : (φ → triple P m Q R) → triple (λ s, P s ∧ φ) m Q R.
Proof. intros Hm s [Hs Hφ]. by apply Hm. Qed.
Lemma triple_finally {X} P (m : M S X) f Q R Q' R' :
  triple P m Q R → (∀ x, triple (Q x) f (λ _, Q' x) R') → triple R f (λ _, R') R' →
  triple P (try_finally m f) Q' R'.
Proof.
  intros Hm Hf Hf' s Hs. specialize (Hm s Hs). unfold try_finally, outcome, mbind, M_bind. cbn.
  destruct (m s) as [[x|e] s1]; cbn in *.
  - specialize (Hf x s1 Hm). by destruct (f s1) as [[[]|e'] s2].
  - specialize (Hf' s1 Hm). by destruct (f s1) as [[[]|e'] s2].
Qed.
End triples.

(** ** Python's [or] *)

(** [a or b] on optional strings: [None] and the empty string are falsy. *)
Definition str_or (a b : option string) : option string :=
  match a with
  | Some x => if x == "" then b else Some x
  | None => b
  end.
(** [a or b] where [b] is a string. *)
Definition str_or_else (a : option string) (b : string) : string :=
  match a with
  | Some x => if x == "" then b else x
  | None => b
  end.
(** [a or b] on values that are never falsy (a datetime, a dataclass). *)
Definition obj_or {A} (a : option A) (b : A) : A := default b a.

(** ** Generic lemmas *)

Lemma existsb_exists_elem {A} (f : A → bool) l :
  existsb f l = true ↔ ∃ x, x ∈ l ∧ f x = true.
Proof.
  rewrite existsb_exists. split; intros (x & ? & ?); exists x;
    by rewrite ?list_elem_of_In in *.
Qed.

Lemma existsb_false_elem {A} (f : A → bool) l :
  existsb f l = false ↔ ∀ x, x ∈ l → f x = false.
Proof.
  rewrite <-not_true_iff_false, existsb_exists_elem. split.
  - intros H x Hx. destruct (f x) eqn:E; [|done]. exfalso; eauto.
  - intros H (x & Hx & E). rewrite H in E; done.
Qed.

Lemma forallb_elem {A} (f : A → bool) l :
  forallb f l = true ↔ ∀ x, x ∈ l → f x = true.
Proof.
  rewrite forallb_forall. split; intros H x Hx; apply H;
    by rewrite ?list_elem_of_In in *.
Qed.
