(* ===== verification/PyStr.v ===== *)
(** * Python strings

    A Python [str] is modelled by its UTF-8 encoding, as a Rocq [string].
    Equality, prefix and suffix tests, splitting on an ASCII separator and the
    order of strings agree between code points and UTF-8 bytes, so the
    functions below are the ones the source calls ([startswith], [partition],
    [split], [join], [strip], [sorted], ...).  Lone surrogates, which UTF-8
    cannot encode, are outside the model. *)
From S2P Require Import Prelude.

(** ** Characters *)

Definition char_leb (a b : ascii) : bool := (N_of_ascii a <=? N_of_ascii b)%N.
Definition char_between (lo hi c : ascii) : bool := char_leb lo c && char_leb c hi.

Fixpoint contains (c : ascii) (s : string) : bool :=
  match s with
  | EmptyString => false
  | String a s' => Ascii.eqb a c || contains c s'
  end.

Fixpoint all_chars (p : ascii → bool) (s : string) : bool :=
  match s with
  | EmptyString => true
  | String a s' => p a && all_chars p s'
  end.

(** [str.isascii] *)
Definition isascii (s : string) : bool := all_chars (λ c, (N_of_ascii c <? 128)%N) s.

(** ** Prefixes and suffixes *)

(** [s.startswith(p)] *)
Fixpoint startswith (s p : string) {struct p} : bool :=
  match p, s with
  | EmptyString, _ => true
  | String a p', String b s' => Ascii.eqb a b && startswith s' p'
  | String _ _, EmptyString => false
  end.

(** [s.endswith(suf)] *)
Fixpoint endswith (s suf : string) : bool :=
  (s == suf) ||
  match s with
  | EmptyString => false
  | String _ s' => endswith s' suf
  end.

(** [s.removesuffix(suf)] *)
Fixpoint removesuffix (s suf : string) : string :=
  if s == suf then ""
  else match s with
       | EmptyString => ""
       | String c s' => String c (removesuffix s' suf)
       end.

(** [s.removeprefix(p)] *)
Fixpoint drop_prefix (p s : string) : string :=
  match p, s with
  | String _ p', String _ s' => drop_prefix p' s'
  | _, _ => s
  end.
Definition removeprefix (s p : string) : string :=
  if startswith s p then drop_prefix p s else s.

(** ** Splitting and joining *)

(** [s.partition(c)] *)
Fixpoint partition (c : ascii) (s : string) : string * string * string :=
  match s with
  | EmptyString => ("", "", "")
  | String a s' =>
      if Ascii.eqb a c then ("", String c "", s')
      else let '(h, sep, t) := partition c s' in (String a h, sep, t)
  end.

(** [s.split(c)] *)
Fixpoint split (c : ascii) (s : string) : list string :=
  match s with
  | EmptyString => [""]
  | String a s' =>
      if Ascii.eqb a c then "" :: split c s'
      else match split c s' with
           | h :: t => String a h :: t
           | [] => [String a ""]
           end
  end.

(** [s.rsplit(c, 1)[0]] *)
Fixpoint rsplit_head (c : ascii) (s : string) : string :=
  match s with
  | EmptyString => ""
  | String a s' =>
      if Ascii.eqb a c && negb (contains c s') then ""
      else String a (rsplit_head c s')
  end.

(** [sep.join(l)] *)
Fixpoint join (sep : string) (l : list string) : string :=
  match l with
  | [] => ""
  | [x] => x
  | x :: l' => x ^+ sep ^+ join sep l'
  end.

(** ** White space: [s.strip() == ""]

    The white space characters of [str.isspace], by their UTF-8 encodings. *)
Definition space1 (a : ascii) : bool :=
  let n := N_of_ascii a in
  ((9 <=? n) && (n <=? 13) || (28 <=? n) && (n <=? 32))%N.
Definition space2 (a b : ascii) : bool :=
  ((N_of_ascii a =? 194) && ((N_of_ascii b =? 133) || (N_of_ascii b =? 160)))%N.
Definition space3 (a b c : ascii) : bool :=
  let '(x, y, z) := (N_of_ascii a, N_of_ascii b, N_of_ascii c) in
  ((x =? 225) && (y =? 154) && (z =? 128)
   || (x =? 226) && (y =? 128)
        && ((128 <=? z) && (z <=? 138) || (z =? 168) || (z =? 169) || (z =? 175))
   || (x =? 226) && (y =? 129) && (z =? 159)
   || (x =? 227) && (y =? 128) && (z =? 128))%N.

Fixpoint is_blank (s : string) : bool :=
  match s with
  | EmptyString => true
  | String a s1 =>
      if space1 a then is_blank s1
      else match s1 with
           | EmptyString => false
           | String b s2 =>
               if space2 a b then is_blank s2
               else match s2 with
                    | EmptyString => false
                    | String c s3 => space3 a b c && is_blank s3
                    end
           end
  end.

(** ** [sorted]: a stable sort by a key *)
Section sorted.
Context {A : Type} (leb : A → A → bool).

Fixpoint insert_sorted (x : A) (l : list A) : list A :=
  match l with
  | [] => [x]
  | y :: l' => if leb x y then x :: y :: l' else y :: insert_sorted x l'
  end.
Definition py_sorted (l : list A) : list A := foldr insert_sorted [] l.

Lemma insert_sorted_perm x l : insert_sorted x l ≡ₚ x :: l.
Proof.
  induction l as [|y l IH]; simpl; [done|]. destruct (leb x y); [done|].
  rewrite IH. apply Permutation_swap.
Qed.
Lemma py_sorted_perm l : py_sorted l ≡ₚ l.
Proof.
  induction l as [|x l IH]; simpl; [done|]. by rewrite insert_sorted_perm, IH.
Qed.

(** Sorting a sorted list changes nothing. *)
Lemma py_sorted_id l : Sorted (λ a b, leb a b = true) l → py_sorted l = l.
Proof.
  induction 1 as [|x l _ IH Hhd]; simpl; [done|]. rewrite IH.
  destruct Hhd as [|y l Hxy]; simpl; [done|]. by rewrite Hxy.
Qed.

Hypothesis leb_total : ∀ x y, leb x y = true ∨ leb y x = true.
Lemma insert_sorted_sorted x l :
  Sorted (λ a b, leb a b = true) l → Sorted (λ a b, leb a b = true) (insert_sorted x l).
Proof.
  induction l as [|y l IH]; intros Hl; simpl; [by repeat constructor|].
  destruct (leb x y) eqn:E; [constructor; [done|by constructor]|].
  destruct (leb_total x y) as [?|Hyx]; [congruence|].
  apply Sorted_inv in Hl as [Hl Hhd]. constructor; [by apply IH|].
  destruct l as [|z l]; simpl; [by constructor|].
  apply HdRel_inv in Hhd. destruct (leb x z); by constructor.
Qed.
Lemma py_sorted_sorted l : Sorted (λ a b, leb a b = true) (py_sorted l).
Proof. induction l; simpl; [constructor|by apply insert_sorted_sorted]. Qed.
End sorted.

(** ** Lemmas *)

Lemma app_cons a s t : String a s ^+ t = String a (s ^+ t).
Proof. done. Qed.
Lemma app_empty_l s : "" ^+ s = s.
Proof. done. Qed.
Lemma app_empty_r s : s ^+ "" = s.
Proof. induction s; [done|]. by rewrite app_cons, IHs. Qed.
Lemma app_assoc_str s t u : (s ^+ t) ^+ u = s ^+ (t ^+ u).
Proof. induction s; [done|]. by rewrite !app_cons, IHs. Qed.
Lemma app_inj_l s t u : s ^+ t = s ^+ u → t = u.
Proof. induction s; [done|]. rewrite !app_cons. intros [=]; auto. Qed.
Lemma length_app_str s t : String.length (s ^+ t) = (String.length s + String.length t)%nat.
Proof. induction s; [done|]. rewrite app_cons. simpl. by rewrite IHs. Qed.
Lemma app_inj_r s t u : s ^+ u = t ^+ u → s = t.
Proof.
  revert t. induction s as [|a s IH]; intros [|b t] H; [done|..].
  - apply (f_equal String.length) in H. rewrite !length_app_str in H. simpl in H. lia.
  - apply (f_equal String.length) in H. rewrite !length_app_str in H. simpl in H. lia.
  - rewrite !app_cons in H. simplify_eq. f_equal; auto.
Qed.
Lemma app_eq_empty s t : s ^+ t = "" → s = "" ∧ t = "".
Proof. destruct s; [done|]. by rewrite app_cons. Qed.

Lemma eqb_refl s : (s == s) = true.
Proof. apply String.eqb_refl. Qed.

Lemma contains_app c s t : contains c (s ^+ t) = contains c s || contains c t.
Proof.
  induction s; [done|]. rewrite app_cons. simpl. rewrite IHs. by rewrite orb_assoc.
Qed.
Lemma all_chars_app p s t : all_chars p (s ^+ t) = all_chars p s && all_chars p t.
Proof.
  induction s; [done|]. rewrite app_cons. simpl. rewrite IHs. by rewrite andb_assoc.
Qed.

(** A common prefix that stops at the first separator is determined. *)
Lemma app_sep_inj c h1 h2 t1 t2 :
  contains c h1 = false → contains c h2 = false →
  h1 ^+ String c t1 = h2 ^+ String c t2 → h1 = h2 ∧ t1 = t2.
Proof.
  revert h2. induction h1 as [|a h1 IH]; intros [|b h2] H1 H2 Heq;
    rewrite ?app_cons, ?app_empty_l in Heq; simpl in *; simplify_eq; bool_prop.
  - done.
  - by rewrite Ascii.eqb_refl in *.
  - by rewrite Ascii.eqb_refl in *.
  - destruct (IH h2) as [-> ->]; auto.
Qed.

Lemma startswith_iff s p : startswith s p = true ↔ ∃ t, s = p ^+ t.
Proof.
  revert s. induction p as [|a p IH]; intros s; simpl.
  - split; [intros _; by exists s|done].
  - destruct s as [|b s].
    + split; [done|]. intros [t Ht]. by rewrite app_cons in Ht.
    + rewrite andb_true_iff, Ascii.eqb_eq, IH. split.
      * intros [-> [t ->]]. exists t. by rewrite app_cons.
      * intros [t Ht]. rewrite app_cons in Ht. simplify_eq. eauto.
Qed.
Lemma startswith_app p t : startswith (p ^+ t) p = true.
Proof. apply startswith_iff. eauto. Qed.
Lemma startswith_refl s : startswith s s = true.
Proof. apply startswith_iff. exists "". by rewrite app_empty_r. Qed.
Lemma startswith_trans s p q :
  startswith s p = true → startswith p q = true → startswith s q = true.
Proof.
  rewrite !startswith_iff. intros [t ->] [u ->]. exists (u ^+ t). by rewrite app_assoc_str.
Qed.

Lemma endswith_iff s suf : endswith s suf = true ↔ ∃ p, s = p ^+ suf.
Proof.
  induction s as [|a s IH]; cbn [endswith].
  - rewrite orb_false_r, String.eqb_eq. split.
    + intros <-. by exists "".
    + intros [p Hp]. symmetry in Hp. by apply app_eq_empty in Hp as [_ ->].
  - rewrite orb_true_iff, IH, String.eqb_eq. split.
    + intros [<-|[p ->]]; [by exists ""|]. exists (String a p). by rewrite app_cons.
    + intros [[|b p] Hp]; [left; by rewrite Hp|right].
      rewrite app_cons in Hp. simplify_eq. eauto.
Qed.

Lemma app_eq_self p s : p ^+ s = s → p = "".
Proof.
  intros H. apply (f_equal String.length) in H. rewrite length_app_str in H.
  destruct p; [done|]. simpl in H. lia.
Qed.

Lemma removesuffix_app p suf : removesuffix (p ^+ suf) suf = p.
Proof.
  induction p as [|a p IH].
  - rewrite app_empty_l. destruct suf; simpl; [done|].
    by rewrite Ascii.eqb_refl, eqb_refl.
  - rewrite app_cons. cbn [removesuffix].
    destruct (String.eqb_spec (String a (p ^+ suf)) suf) as [H|H].
    + rewrite <-app_cons in H. by apply app_eq_self in H.
    + by rewrite IH.
Qed.

Lemma partition_found c h t :
  contains c h = false → partition c (h ^+ String c t) = (h, String c "", t).
Proof.
  induction h as [|a h IH]; intros H.
  - rewrite app_empty_l. simpl. by rewrite Ascii.eqb_refl.
  - simpl in H. bool_prop. rewrite app_cons. simpl. by rewrite H, IH.
Qed.
Lemma partition_missing c s : contains c s = false → partition c s = (s, "", "").
Proof.
  induction s as [|a s IH]; simpl; intros H; [done|]. bool_prop.
  by rewrite H, IH.
Qed.
Lemma partition_inv c s h sep t :
  partition c s = (h, sep, t) →
  (sep = String c "" ∧ s = h ^+ String c t ∧ contains c h = false) ∨
  (sep = "" ∧ s = h ∧ t = "" ∧ contains c s = false).
Proof.
  revert h sep t. induction s as [|a s IH]; simpl; intros h sep t H.
  - right. by simplify_eq.
  - destruct (Ascii.eqb_spec a c) as [->|Hac].
    + simplify_eq. by left.
    + destruct (partition c s) as [[h' sep'] t'] eqn:E. simplify_eq.
      apply Ascii.eqb_neq in Hac.
      destruct (IH _ _ _ eq_refl) as [(->&->&Hh)|(->&->&->&Hs)]; [left|right].
      * split_and!; [done|by rewrite app_cons|]. simpl. by rewrite Hh, Hac.
      * split_and!; [done..|]. by rewrite Hs.
Qed.

Lemma split_not_nil c s : split c s ≠ [].
Proof. destruct s as [|a s]; simpl; [done|]. case_match; [done|]. by case_match. Qed.

Lemma split_cons_sep c h t :
  contains c h = false → split c (h ^+ String c t) = h :: split c t.
Proof.
  induction h as [|a h IH]; intros H.
  - rewrite app_empty_l. simpl. by rewrite Ascii.eqb_refl.
  - simpl in H. bool_prop. rewrite app_cons. simpl. by rewrite H, IH.
Qed.
Lemma split_no_sep c s : contains c s = false → split c s = [s].
Proof.
  induction s as [|a s IH]; simpl; intros H; [done|]. bool_prop. by rewrite H, IH.
Qed.

Lemma join_cons sep x l : l ≠ [] → join sep (x :: l) = x ^+ sep ^+ join sep l.
Proof. by destruct l. Qed.

(** [split] and [join] on one separator are inverse to each other. *)
Lemma join_split c s : join (String c "") (split c s) = s.
Proof.
  induction s as [|a s IH]; simpl; [done|]. pose proof (split_not_nil c s).
  destruct (Ascii.eqb_spec a c) as [->|Hac].
  - rewrite join_cons by done. by rewrite IH.
  - destruct (split c s) as [|h t]; [done|]. destruct t as [|h' t].
    + simpl in *. by rewrite IH.
    + rewrite join_cons in IH by done. rewrite join_cons by done.
      by rewrite app_cons, IH.
Qed.
Lemma split_join c l :
  l ≠ [] → Forall (λ s, contains c s = false) l → split c (join (String c "") l) = l.
Proof.
  induction l as [|x l IH]; intros Hne Hl; [done|].
  apply Forall_cons in Hl as [Hx Hl]. destruct l as [|y l].
  - simpl. by apply split_no_sep.
  - rewrite join_cons by done. change (String c "" ^+ ?r) with (String c r).
    rewrite split_cons_sep by done. by rewrite IH.
Qed.
Lemma split_chars c s : Forall (λ x, contains c x = false) (split c s).
Proof.
  induction s as [|a s IH]; simpl; [by repeat constructor|].
  destruct (Ascii.eqb a c) eqn:E; [by constructor|].
  destruct (split c s) as [|h t].
  - constructor; [|done]. simpl. by rewrite E.
  - apply Forall_cons in IH as [Hh Ht]. constructor; [|done]. simpl. by rewrite E.
Qed.

Lemma join_app sep l1 l2 :
  l1 ≠ [] → l2 ≠ [] → join sep (l1 ++ l2) = join sep l1 ^+ sep ^+ join sep l2.
Proof.
  induction l1 as [|x l1 IH]; intros H1 H2; [done|]. destruct l1 as [|y l1].
  - change ([x] ++ l2) with (x :: l2). by rewrite join_cons.
  - change ((x :: y :: l1) ++ l2) with (x :: (y :: l1) ++ l2).
    rewrite (join_cons _ _ (y :: l1)) by done.
    rewrite join_cons by done. rewrite IH by done. by rewrite !app_assoc_str.
Qed.

Lemma rsplit_head_app c h t :
  contains c t = false → rsplit_head c (h ^+ String c t) = h.
Proof.
  intros Ht. induction h as [|a h IH].
  - rewrite app_empty_l. simpl. by rewrite Ascii.eqb_refl, Ht.
  - rewrite app_cons. simpl. rewrite contains_app. simpl.
    rewrite Ascii.eqb_refl, orb_true_r, andb_false_r. simpl. by rewrite IH.
Qed.

(** The order of strings, as a boolean. *)
Lemma leb_total s t : String.leb s t = true ∨ String.leb t s = true.
Proof. destruct (String.leb_total s t) as [->| ->]; auto. Qed.

Lemma all_chars_contains p c s : all_chars p s = true → p c = false → contains c s = false.
Proof.
  intros Hs Hc. induction s as [|a s IH]; simpl in *; [done|]. bool_prop.
  rewrite IH, orb_false_r by done. apply Ascii.eqb_neq. congruence.
Qed.
Lemma contains_join c d l :
  c ≠ d →
  contains c (join (String d "") l) = false ↔ Forall (λ s, contains c s = false) l.
Proof.
  intros Hcd. induction l as [|x l IH]; [done|]. destruct l as [|y l].
  - simpl. by rewrite Forall_singleton.
  - rewrite join_cons by done. rewrite Forall_cons, <-IH, !contains_app.
    simpl. apply not_eq_sym, Ascii.eqb_neq in Hcd. rewrite Hcd.
    rewrite orb_false_r, orb_false_l. by rewrite orb_false_iff.
Qed.
Lemma split_snoc_sep c p : split c (p ^+ String c "") = split c p ++ [""].
Proof.
  induction p as [|a p IH]; [simpl; by rewrite Ascii.eqb_refl|].
  rewrite app_cons. simpl. destruct (Ascii.eqb a c); [by rewrite IH|].
  rewrite IH. pose proof (split_not_nil c p). by destruct (split c p).
Qed.
Lemma length_split_sep c s : contains c s = true → (2 ≤ length (split c s))%nat.
Proof.
  induction s as [|a s IH]; simpl; [done|]. pose proof (split_not_nil c s) as Hn.
  destruct (Ascii.eqb a c); simpl.
  - destruct (split c s); [done|simpl; lia].
  - intros Hs. specialize (IH Hs). by destruct (split c s).
Qed.
Lemma split_app_sep c h t : split c (h ^+ String c t) = split c h ++ split c t.
Proof.
  induction h as [|a h IH]; [simpl; by rewrite Ascii.eqb_refl|].
  rewrite app_cons. simpl. destruct (Ascii.eqb a c); [by rewrite IH|].
  rewrite IH. pose proof (split_not_nil c h). by destruct (split c h).
Qed.
