(* ===== verification/PyDict.v ===== *)
(** * Python dictionaries

    A [dict] keeps its keys in insertion order; assigning to a present key
    keeps its position.  It is an association list whose keys are pairwise
    distinct ([dict_wf]); [dict_map] is the finite map it denotes. *)
From S2P Require Import Prelude.

Definition dict (K V : Type) : Type := list (K * V).

Section dict.
Context {K V : Type} `{!EqDecision K}.
Implicit Types (d : dict K V) (k : K) (v : V).

(** [d.get(k)] *)
Fixpoint dget k d : option V :=
  match d with
  | [] => None
  | (k', v) :: d' => if decide (k' = k) then Some v else dget k d'
  end.
(** [k in d] *)
Definition din k d : bool := bool_decide (is_Some (dget k d)).
(** [d[k] = v] *)
Fixpoint dset k v d : dict K V :=
  match d with
  | [] => [(k, v)]
  | (k', v') :: d' => if decide (k' = k) then (k, v) :: d' else (k', v') :: dset k v d'
  end.
(** [d.keys()], [d.values()] *)
Definition dkeys d : list K := fst <$> d.
Definition dvalues d : list V := snd <$> d.
(** [for key in [k for k, v in d.items() if p(k, v)]: del d[key]] *)
Definition dpurge (p : K → V → bool) d : dict K V :=
  List.filter (λ kv, negb (p kv.1 kv.2)) d.

Definition dict_wf d : Prop := NoDup (dkeys d).

Lemma dget_dset_eq k v d : dget k (dset k v d) = Some v.
Proof.
  induction d as [|[k' v'] d IH]; simpl; [by rewrite decide_True|].
  case_decide; simpl; [by rewrite decide_True|by rewrite decide_False].
Qed.
Lemma dget_dset_ne k k' v d : k ≠ k' → dget k' (dset k v d) = dget k' d.
Proof.
  intros Hne. induction d as [|[k1 v1] d IH]; simpl; [by rewrite decide_False|].
  repeat (case_decide; simplify_eq/=; try done).
Qed.
Lemma dget_dset k k' v d :
  dget k' (dset k v d) = if decide (k = k') then Some v else dget k' d.
Proof. case_decide as H; [subst; apply dget_dset_eq|by apply dget_dset_ne]. Qed.

Lemma dget_None k d : dget k d = None ↔ k ∉ dkeys d.
Proof.
  induction d as [|[k' v] d IH]; simpl; [split; [intros _; apply not_elem_of_nil|done]|].
  rewrite not_elem_of_cons. case_decide; naive_solver.
Qed.
Lemma din_true k d : din k d = true ↔ is_Some (dget k d).
Proof. apply bool_decide_eq_true. Qed.
Lemma din_false k d : din k d = false ↔ dget k d = None.
Proof. unfold din. rewrite bool_decide_eq_false. symmetry. apply eq_None_not_Some. Qed.

Lemma dget_elem k v d : dget k d = Some v → (k, v) ∈ d.
Proof.
  induction d as [|[k' v'] d IH]; simpl; [done|]. case_decide; intros Hd; simplify_eq.
  - left.
  - right. auto.
Qed.
Lemma dget_elem_iff k v d : dict_wf d → dget k d = Some v ↔ (k, v) ∈ d.
Proof.
  intros Hwf. split; [apply dget_elem|]. induction d as [|[k' v'] d IH]; intros Hin.
  - by apply elem_of_nil in Hin.
  - apply NoDup_cons in Hwf as [Hk' Hwf]. simpl. apply elem_of_cons in Hin as [Hin|Hin].
    + simplify_eq. by rewrite decide_True.
    + rewrite decide_False; [auto|]. intros ->. apply Hk'.
      apply list_elem_of_fmap. by exists (k, v).
Qed.

Lemma dkeys_dset k v d :
  dkeys (dset k v d) = if decide (k ∈ dkeys d) then dkeys d else dkeys d ++ [k].
Proof.
  induction d as [|[k' v'] d IH]; simpl; [done|].
  destruct (decide (k' = k)) as [->|Hk]; simpl.
  - by rewrite decide_True by set_solver.
  - rewrite IH. repeat case_decide; try done; exfalso; set_solver.
Qed.
Lemma dset_wf k v d : dict_wf d → dict_wf (dset k v d).
Proof.
  unfold dict_wf. intros H. rewrite dkeys_dset. case_decide as Hk; [done|].
  apply NoDup_app. split_and!; [done| |by apply NoDup_singleton].
  intros x Hx. set_solver.
Qed.
Lemma length_dset k v d :
  length (dset k v d) = if decide (k ∈ dkeys d) then length d else S (length d).
Proof.
  rewrite <-(length_fmap fst (dset k v d)). change (fst <$> dset k v d) with (dkeys (dset k v d)).
  rewrite dkeys_dset. unfold dkeys. case_decide; rewrite ?length_app, length_fmap; simpl; lia.
Qed.
Lemma dset_elem k v d kv : kv ∈ dset k v d → kv = (k, v) ∨ kv ∈ d.
Proof.
  induction d as [|[k' v'] d IH]; simpl; [set_solver|]. case_decide; set_solver.
Qed.
Lemma dset_fresh k v d : dget k d = None → dset k v d = d ++ [(k, v)].
Proof.
  induction d as [|[k' v'] d IH]; simpl; [done|]. case_decide; [done|].
  intros ?. by rewrite IH.
Qed.

Lemma dset_same k v d : dget k d = Some v → dset k v d = d.
Proof.
  induction d as [|[k' v'] d IH]; simpl; [done|]. case_decide; [naive_solver|].
  intros ?. by rewrite IH.
Qed.
Lemma dset_dset k v v' d : dset k v' (dset k v d) = dset k v' d.
Proof.
  induction d as [|[k1 v1] d IH]; simpl; [by rewrite decide_True|].
  case_decide; simpl; [by rewrite decide_True|]. rewrite decide_False by done. by rewrite IH.
Qed.

Lemma dpurge_sublist p d : dpurge p d `sublist_of` d.
Proof.
  unfold dpurge. induction d as [|kv d IH]; simpl; [constructor|].
  destruct (negb _); by constructor.
Qed.
Lemma dpurge_wf p d : dict_wf d → dict_wf (dpurge p d).
Proof.
  unfold dict_wf. intros Hd. eapply sublist_NoDup; [exact Hd|]. apply fmap_sublist, dpurge_sublist.
Qed.
Lemma dpurge_elem p d k v : (k, v) ∈ dpurge p d ↔ (k, v) ∈ d ∧ p k v = false.
Proof.
  unfold dpurge. rewrite !list_elem_of_In, filter_In. simpl.
  by rewrite negb_true_iff.
Qed.
Lemma dget_dpurge p d k :
  dict_wf d →
  dget k (dpurge p d) =
    match dget k d with Some v => if p k v then None else Some v | None => None end.
Proof.
  intros Hwf. pose proof (dpurge_wf p _ Hwf) as Hwf'.
  destruct (dget k (dpurge p d)) as [v|] eqn:E.
  - apply dget_elem_iff in E; [|done]. apply dpurge_elem in E as [E Hp].
    apply dget_elem_iff in E; [|done]. by rewrite E, Hp.
  - destruct (dget k d) as [v|] eqn:E'; [|done]. destruct (p k v) eqn:Hp; [done|].
    apply dget_elem_iff in E'; [|done].
    assert ((k, v) ∈ dpurge p d) as H by by apply dpurge_elem.
    apply dget_elem_iff in H; [congruence|done].
Qed.
End dict.

(** The finite map a dictionary denotes. *)
Definition dict_map {K V} `{Countable K} (d : dict K V) : gmap K V := list_to_map d.

Lemma dict_map_lookup {K V} `{Countable K} (d : dict K V) k : dict_map d !! k = dget k d.
Proof.
  induction d as [|[k' v] d IH]; [done|]. simpl. unfold dict_map in *. simpl.
  case_decide; simplify_map_eq; done.
Qed.
(** Assigning to a dictionary inserts into the map it denotes. *)
Lemma dict_map_dset {K V} `{Countable K} (d : dict K V) k v :
  dict_map (dset k v d) = <[k:=v]> (dict_map d).
Proof.
  apply map_eq. intros k'. rewrite dict_map_lookup, dget_dset.
  case_decide; simplify_map_eq; [done|]. symmetry. apply dict_map_lookup.
Qed.

Create HintDb pydict discriminated.
#[export] Hint Resolve dset_wf dpurge_wf : pydict.
