(* ===== verification/PyTime.v ===== *)
(** * Python datetimes

    An aware [datetime] is modelled by the microseconds of its UTC instant
    since the Unix epoch; a naive one, which the source reads as UTC, by the
    same number.  [timedelta(seconds=n)] is [seconds n]. *)
From S2P Require Import Prelude PyStr.

Definition seconds (n : Z) : Z := n * 1000000.

(** The last instant of year 9999: adding beyond it raises [OverflowError]. *)
Definition DATETIME_MAX : Z := 253402300799999999.
Definition DATETIME_MIN : Z := -62135596800000000.

(** [now + timedelta(seconds=n)] *)
Definition datetime_add (now n : Z) : result Z :=
  let t := now + seconds n in
  if (t <=? DATETIME_MAX) && (DATETIME_MIN <=? t) then Ok t
  else Raise (OverflowError "date value out of range").

(** [int(now.timestamp())]: truncation towards zero.  The float that
    [timestamp()] returns is exact to the microsecond until the year 2242, so
    no rounding to the next second happens before then. *)
Definition int_timestamp (now : Z) : Z := Z.quot now 1000000.

(** The civil date of a day number (days since 1970-01-01, proleptic Gregorian
    calendar): year, month and day. *)
Definition civil_from_days (days : Z) : Z * Z * Z :=
  let z := days + 719468 in
  let era := z / 146097 in
  let doe := z mod 146097 in
  let yoe := (doe - doe / 1460 + doe / 36524 - doe / 146096) / 365 in
  let doy := doe - (365 * yoe + yoe / 4 - yoe / 100) in
  let mp := (5 * doy + 2) / 153 in
  let d := doy - (153 * mp + 2) / 5 + 1 in
  let m := if mp <? 10 then mp + 3 else mp - 9 in
  let y := yoe + era * 400 in
  ((if m <=? 2 then y + 1 else y), m, d).

(** A number written on [w] decimal digits. *)
Fixpoint digits (w : nat) (n : Z) : string :=
  match w with
  | O => ""
  | S w' => digits w' (n / 10) ^+ String (ascii_of_N (Z.to_N (48 + n mod 10))) ""
  end.

(** [now.astimezone(UTC).isoformat()] *)
Definition isoformat (t : Z) : string :=
  let us := t mod 1000000 in
  let s := t / 1000000 in
  let '(y, m, d) := civil_from_days (s / 86400) in
  let sod := s mod 86400 in
  digits 4 y ^+ "-" ^+ digits 2 m ^+ "-" ^+ digits 2 d ^+ "T"
  ^+ digits 2 (sod / 3600) ^+ ":" ^+ digits 2 (sod / 60 mod 60) ^+ ":" ^+ digits 2 (sod mod 60)
  ^+ (if us =? 0 then "" else "." ^+ digits 6 us) ^+ "+00:00".

Example isoformat_1 : isoformat 1782043200000000 = "2026-06-21T12:00:00+00:00".
Proof. vm_compute. reflexivity. Qed.
Example isoformat_2 : isoformat 951782400000001 = "2000-02-29T00:00:00.000001+00:00".
Proof. vm_compute. reflexivity. Qed.

(** ** Reading a timestamp back

    [datetime.fromisoformat] on the strings [isoformat] prints; any other
    string is refused here (Python accepts more layouts than it prints). *)
Definition days_from_civil (y m d : Z) : Z :=
  let y' := if m <=? 2 then y - 1 else y in
  let era := y' / 400 in
  let yoe := y' mod 400 in
  let mp := if m <=? 2 then m + 9 else m - 3 in
  let doy := (153 * mp + 2) / 5 + d - 1 in
  let doe := yoe * 365 + yoe / 4 - yoe / 100 + doy in
  era * 146097 + doe - 719468.

Fixpoint read_digits (w : nat) (acc : Z) (s : string) : option (Z * string) :=
  match w with
  | O => Some (acc, s)
  | S w' =>
      match s with
      | EmptyString => None
      | String c s' =>
          if char_between "0" "9" c
          then read_digits w' (acc * 10 + (Z.of_N (N_of_ascii c) - 48)) s'
          else None
      end
  end.
Definition expect (p s : string) : option string :=
  if startswith s p then Some (drop_prefix p s) else None.

Definition read_iso (s : string) : option (Z * Z * Z * Z * Z * Z * Z) :=
  '(y, s) ← read_digits 4 0 s; s ← expect "-" s;
  '(m, s) ← read_digits 2 0 s; s ← expect "-" s;
  '(d, s) ← read_digits 2 0 s; s ← expect "T" s;
  '(hh, s) ← read_digits 2 0 s; s ← expect ":" s;
  '(mm, s) ← read_digits 2 0 s; s ← expect ":" s;
  '(ss, s) ← read_digits 2 0 s;
  '(us, s) ← match expect "." s with
             | Some s => read_digits 6 0 s
             | None => Some (0, s)
             end;
  if s == "+00:00" then Some (y, m, d, hh, mm, ss, us) else None.

Definition fromisoformat (s : string) : result Z :=
  match read_iso s with
  | Some (y, m, d, hh, mm, ss, us) =>
      let days := days_from_civil y m d in
      if bool_decide (civil_from_days days = (y, m, d)) && (1 <=? y)
         && (hh <? 24) && (mm <? 60) && (ss <? 60)
      then Ok ((days * 86400 + hh * 3600 + mm * 60 + ss) * 1000000 + us)
      else Raise (ValueError "Invalid isoformat string")
  | None => Raise (ValueError "Invalid isoformat string")
  end.

(** *** Calendar arithmetic *)
Lemma year_of_era_ok doe :
  0 ≤ doe < 146097 →
  let yoe := (doe - doe / 1460 + doe / 36524 - doe / 146096) / 365 in
  let doy := doe - (365 * yoe + yoe / 4 - yoe / 100) in
  0 ≤ yoe < 400 ∧ 0 ≤ doy ≤ 365.
Proof.
  intros H. cbv zeta.
  assert (doe / 36524 = 0 ∨ doe / 36524 = 1 ∨ doe / 36524 = 2 ∨ doe / 36524 = 3
          ∨ doe / 36524 = 4) as Hq by (Z.to_euclidean_division_equations; lia).
  assert (doe / 146096 = 0 ∨ doe / 146096 = 1) as Hr
    by (Z.to_euclidean_division_equations; lia).
  assert (0 ≤ (doe - doe / 1460 + doe / 36524 - doe / 146096) / 365 < 400) as Hy
    by (Z.to_euclidean_division_equations; lia).
  split; [exact Hy|].
  assert (∀ y, 0 ≤ y < 400 → y / 100 = 0 ∨ y / 100 = 1 ∨ y / 100 = 2 ∨ y / 100 = 3) as Hc
    by (intros; Z.to_euclidean_division_equations; lia).
  specialize (Hc _ Hy).
  destruct Hr as [Hr|Hr], Hq as [Hq|[Hq|[Hq|[Hq|Hq]]]]; rewrite ?Hr, ?Hq in *;
    destruct Hc as [Hc|[Hc|[Hc|Hc]]]; rewrite ?Hc in *;
    Z.to_euclidean_division_equations; lia.
Qed.

Lemma month_of_year_ok doy :
  0 ≤ doy ≤ 365 →
  let mp := (5 * doy + 2) / 153 in
  let d := doy - (153 * mp + 2) / 5 + 1 in
  0 ≤ mp ≤ 11 ∧ 1 ≤ d ≤ 31 ∧ (306 ≤ doy ↔ 10 ≤ mp).
Proof.
  intros H. cbv zeta. remember ((5 * doy + 2) / 153) as mp eqn:E.
  assert (0 ≤ 5 * doy + 2 - 153 * mp < 153)
    by (subst; Z.to_euclidean_division_equations; lia).
  clear E. repeat split; Z.to_euclidean_division_equations; lia.
Qed.

Lemma civil_round_trip days y m d :
  civil_from_days days = (y, m, d) →
  days_from_civil y m d = days ∧ 1 ≤ m ≤ 12 ∧ 1 ≤ d ≤ 31 ∧
  (-719162 ≤ days ≤ 2932896 → 1 ≤ y ≤ 9999).
Proof.
  unfold civil_from_days, days_from_civil. intros E.
  pose proof (Z.div_mod (days + 719468) 146097 ltac:(lia)) as Hdm.
  pose proof (Z.mod_pos_bound (days + 719468) 146097 ltac:(lia)) as Hb.
  revert E Hdm Hb. generalize ((days + 719468) / 146097) as era.
  generalize ((days + 719468) mod 146097) as doe. intros doe era E Hdm Hb.
  destruct (year_of_era_ok doe Hb) as [Hyoe Hdoy]. revert E Hyoe Hdoy.
  generalize ((doe - doe / 1460 + doe / 36524 - doe / 146096) / 365) as yoe.
  intros yoe E Hyoe Hdoy. remember (doe - (365 * yoe + yoe / 4 - yoe / 100)) as doy eqn:Edoy.
  destruct (month_of_year_ok doy Hdoy) as (Hmp & Hd & Hm). revert E Hmp Hd Hm.
  generalize ((5 * doy + 2) / 153) as mp. intros mp [= <- <- <-] Hmp Hd Hm.
  assert (Hyd : (yoe + era * 400) / 400 = era ∧ (yoe + era * 400) mod 400 = yoe).
  { split.
    - rewrite Z.div_add by lia. rewrite Z.div_small by lia. lia.
    - rewrite Z.mod_add by lia. rewrite Z.mod_small by lia. lia. }
  destruct Hyd as [Hyd Hym].
  destruct (Z.ltb_spec mp 10) as [Hlt|Hge].
  - rewrite (proj2 (Z.leb_gt (mp + 3) 2)) by lia.
    rewrite Hyd, Hym. replace (mp + 3 - 3) with mp by lia.
    assert (doy < 306) by lia. repeat split; try lia.
    all: assert (0 ≤ era ≤ 24) by lia; Z.to_euclidean_division_equations; lia.
  - rewrite (proj2 (Z.leb_le (mp - 9) 2)) by lia.
    rewrite Z.add_simpl_r, Hyd, Hym. replace (mp - 9 + 9) with mp by lia.
    assert (306 ≤ doy) by lia. repeat split; try lia.
    all: assert (0 ≤ era ≤ 24) by lia; Z.to_euclidean_division_equations; lia.
Qed.

(** *** Reading the printed digits *)
Lemma read_digits_snoc w acc s :
  read_digits (S w) acc s = '(v, s') ← read_digits w acc s; read_digits 1 v s'.
Proof.
  revert acc s. induction w as [|w IH]; intros acc s; [done|].
  change (read_digits (S (S w)) acc s) with
    (match s with
     | EmptyString => None
     | String c s' =>
         if char_between "0" "9" c
         then read_digits (S w) (acc * 10 + (Z.of_N (N_of_ascii c) - 48)) s'
         else None
     end).
  destruct s as [|c s']; [done|]. cbn [read_digits].
  destruct (char_between "0" "9" c); [apply IH|done].
Qed.

Lemma digit_char n :
  0 ≤ n < 10 →
  char_between "0" "9" (ascii_of_N (Z.to_N (48 + n))) = true ∧
  Z.of_N (N_of_ascii (ascii_of_N (Z.to_N (48 + n)))) - 48 = n.
Proof.
  intros H. unfold char_between, char_leb.
  rewrite N_ascii_embedding by lia.
  change (N_of_ascii "0") with 48%N. change (N_of_ascii "9") with 57%N.
  split; [|lia]. apply andb_true_iff; split; apply N.leb_le; lia.
Qed.

Lemma read_digits_digits w n acc rest :
  0 ≤ n < 10 ^ Z.of_nat w →
  read_digits w acc (digits w n ^+ rest) = Some (acc * 10 ^ Z.of_nat w + n, rest).
Proof.
  revert n acc rest. induction w as [|w IH]; intros n acc rest H.
  - simpl. f_equal. f_equal. change (10 ^ Z.of_nat 0) with 1 in H. lia.
  - rewrite Nat2Z.inj_succ, Z.pow_succ_r in H |- * by lia.
    rewrite read_digits_snoc. cbn [digits]. rewrite app_assoc_str, IH.
    2: { Z.to_euclidean_division_equations; nia. }
    cbn [mbind option_bind]. rewrite app_cons. cbn [read_digits].
    destruct (digit_char (n mod 10)) as [-> ->]; [apply Z.mod_pos_bound; lia|].
    rewrite app_empty_l. f_equal. f_equal. Z.to_euclidean_division_equations; lia.
Qed.

Lemma expect_app p s : expect p (p ^+ s) = Some s.
Proof.
  unfold expect. rewrite startswith_app. f_equal.
  induction p as [|c p IH]; [done|]. apply IH.
Qed.

Lemma read_iso_print y m d hh mm ss us :
  0 ≤ y < 10000 → 0 ≤ m < 100 → 0 ≤ d < 100 → 0 ≤ hh < 100 → 0 ≤ mm < 100 →
  0 ≤ ss < 100 → 0 ≤ us < 1000000 →
  read_iso (digits 4 y ^+ "-" ^+ digits 2 m ^+ "-" ^+ digits 2 d ^+ "T"
    ^+ digits 2 hh ^+ ":" ^+ digits 2 mm ^+ ":" ^+ digits 2 ss
    ^+ (if us =? 0 then "" else "." ^+ digits 6 us) ^+ "+00:00")
  = Some (y, m, d, hh, mm, ss, us).
Proof.
  intros. unfold read_iso.
  do 6 (rewrite read_digits_digits by (simpl; lia); cbn [mbind option_bind];
        rewrite ?expect_app; cbn [mbind option_bind]).
  destruct (Z.eqb_spec us 0) as [->|Hus].
  - reflexivity.
  - rewrite app_assoc_str, expect_app, read_digits_digits by (simpl; lia).
    cbn [mbind option_bind]. rewrite eqb_refl. reflexivity.
Qed.

(** Reading a printed timestamp gives the instant back. *)
Lemma fromisoformat_isoformat t :
  DATETIME_MIN ≤ t ≤ DATETIME_MAX → fromisoformat (isoformat t) = Ok t.
Proof.
  unfold DATETIME_MIN, DATETIME_MAX, isoformat, fromisoformat. intros H.
  remember (t / 1000000) as s eqn:Es. remember (t mod 1000000) as us eqn:Eus.
  assert (Ht : t = s * 1000000 + us ∧ 0 ≤ us < 1000000)
    by (subst; Z.to_euclidean_division_equations; lia).
  clear Es Eus. destruct Ht as [-> Hus].
  remember (s / 86400) as day eqn:Ed. remember (s mod 86400) as sod eqn:Esod.
  assert (Hs : s = day * 86400 + sod ∧ 0 ≤ sod < 86400)
    by (subst; Z.to_euclidean_division_equations; lia).
  clear Ed Esod. destruct Hs as [-> Hsod].
  destruct (civil_from_days day) as [[y m] d] eqn:E.
  destruct (civil_round_trip day y m d E) as (Hinv & Hm & Hd & Hy).
  specialize (Hy ltac:(lia)).
  assert (0 ≤ sod / 3600 < 24 ∧ 0 ≤ sod / 60 mod 60 < 60 ∧ 0 ≤ sod mod 60 < 60
          ∧ sod / 3600 * 3600 + sod / 60 mod 60 * 60 + sod mod 60 = sod) as (Hh & Hmm & Hss & Hsum)
    by (Z.to_euclidean_division_equations; lia).
  rewrite read_iso_print by lia. cbv zeta. rewrite Hinv.
  rewrite bool_decide_true by done.
  rewrite !(proj2 (Z.ltb_lt _ _)), (proj2 (Z.leb_le _ _)) by lia.
  cbn [andb]. f_equal. lia.
Qed.
