(* ===== verification/Scope.v ===== *)
(** * Scopes ([src/vinctor_core/scope.py])

    The grammar of grant scopes and requested resources, the matching of a
    request against a grant's scopes, and the subsumption order between scopes.

    The theorems give the validators their grammar ([wf_resource]), show that
    [match_scope] returns the first covering scope, and that [scope_subsumes]
    is exactly inclusion of coverage on valid scopes. *)
From S2P Require Import Prelude PyStr.

(** ** Definitions *)

Definition ALLOWED_ACTIONS : list string :=
  ["read"; "write"; "execute"; "deploy"; "delete"; "send"].

(** The character class of [_RESOURCE_SEGMENT_RE]. *)
Definition resource_segment_char (c : ascii) : bool :=
  char_between "A" "Z" c || char_between "a" "z" c || char_between "0" "9" c
  || Ascii.eqb c "." || Ascii.eqb c "_" || Ascii.eqb c "-".

(** [_RESOURCE_SEGMENT_RE.fullmatch(segment) is not None] *)
Definition RESOURCE_SEGMENT_RE (segment : string) : bool :=
  negb (segment == "") && all_chars resource_segment_char segment.

Definition attempted_scope (action resource : string) : string :=
  action ^+ ":" ^+ resource.

Definition is_valid_requested_action (action : string) : bool :=
  existsb (String.eqb action) ALLOWED_ACTIONS.

(** The indices of the segments that contain a star. *)
Definition wildcard_segments (segments : list string) : list nat :=
  fst <$> List.filter (λ p, contains "*" p.2) (zip (seq 0 (length segments)) segments).

Definition is_valid_resource (resource : string) (allow_terminal_wildcard : bool) : bool :=
  if resource == "" then false
  else if contains "000" resource || contains "\" resource || contains ":" resource then false
  else if startswith resource "/" || endswith resource "/" then false
  else
    let segments := split "/" resource in
    if (length segments <? 2)%nat then false
    else if existsb (λ segment, segment == "") segments then false
    else if existsb (λ segment, (segment == ".") || (segment == "..")) segments then false
    else
      match wildcard_segments segments with
      | [] => forallb RESOURCE_SEGMENT_RE segments
      | (i :: _) as indices =>
          allow_terminal_wildcard
          && (length indices =? 1)%nat
          && (i =? length segments - 1)%nat
          && (List.last segments "" == "*")
          && (3 <=? length segments)%nat
      end.

Definition is_valid_requested_resource (resource : string) : bool :=
  is_valid_resource resource false.

Definition is_valid_grant_scope (scope : string) : bool :=
  match split ":" scope with
  | [action; resource] =>
      is_valid_requested_action action && is_valid_resource resource true
  | _ => false
  end.

Definition matches_terminal_resource_wildcard (scope action resource : string) : bool :=
  let '(scope_action, separator, scope_resource) := partition ":" scope in
  if negb (separator == ":") || negb (scope_action == action) then false
  else if negb (endswith scope_resource "/*") then false
  else
    let prefix := removesuffix scope_resource "*" in
    startswith resource prefix.

Fixpoint match_scope (scopes : list string) (action resource : string) : option string :=
  match scopes with
  | [] => None
  | scope :: scopes' =>
      if scope == attempted_scope action resource then Some scope
      else if matches_terminal_resource_wildcard scope action resource then Some scope
      else match_scope scopes' action resource
  end.

Definition scope_subsumes (broad_scope narrow_scope : string) : bool :=
  if broad_scope == narrow_scope then true
  else if negb (is_valid_grant_scope broad_scope) || negb (is_valid_grant_scope narrow_scope)
  then false
  else
    let '(broad_action, _, broad_resource) := partition ":" broad_scope in
    let '(narrow_action, _, narrow_resource) := partition ":" narrow_scope in
    if negb (broad_action == narrow_action) || negb (endswith broad_resource "/*") then false
    else
      let prefix := removesuffix broad_resource "*" in
      startswith narrow_resource prefix.

(** ** Specification *)

(** One scope covers a request. *)
Definition scope_covers (scope action resource : string) : bool :=
  (scope == attempted_scope action resource)
  || matches_terminal_resource_wildcard scope action resource.

(** A segment that can be requested. *)
Definition concrete_segment (s : string) : Prop :=
  RESOURCE_SEGMENT_RE s = true ∧ s ≠ "." ∧ s ≠ "..".

(** A segment that may precede the terminal wildcard of a grant scope: the
    character class is not applied to it. *)
Definition parent_segment (s : string) : Prop :=
  s ≠ "" ∧ s ≠ "." ∧ s ≠ ".." ∧
  ∀ c, c ∈ ["/"; "*"; "000"; "\"; ":"]%char → contains c s = false.

(** The grammar of resources; the flag allows the terminal wildcard. *)
Inductive wf_resource : bool → list string → Prop :=
  | wf_concrete allow segs :
      (2 ≤ length segs)%nat → Forall concrete_segment segs → wf_resource allow segs
  | wf_wildcard segs :
      (2 ≤ length segs)%nat → Forall parent_segment segs → wf_resource true (segs ++ ["*"]).

(** ** Grammar *)

Fixpoint stars_from (k : nat) (segments : list string) : list nat :=
  match segments with
  | [] => []
  | s :: l => if contains "*" s then k :: stars_from (S k) l else stars_from (S k) l
  end.

Lemma wildcard_segments_from segments : wildcard_segments segments = stars_from 0 segments.
Proof.
  unfold wildcard_segments. generalize 0%nat as k. induction segments as [|s l IH]; intros k.
  - done.
  - simpl. destruct (contains "*" s); simpl; by rewrite IH.
Qed.
Lemma stars_from_nil k segments :
  stars_from k segments = [] ↔ Forall (λ s, contains "*" s = false) segments.
Proof.
  revert k. induction segments as [|s l IH]; intros k; simpl; [done|].
  rewrite Forall_cons, <-(IH (S k)). destruct (contains "*" s); naive_solver.
Qed.
Lemma stars_from_app k l1 l2 :
  stars_from k (l1 ++ l2) = stars_from k l1 ++ stars_from (k + length l1) l2.
Proof.
  revert k. induction l1 as [|s l1 IH]; intros k; simpl.
  - by rewrite Nat.add_0_r.
  - rewrite IH, Nat.add_succ_r. by destruct (contains "*" s).
Qed.

Lemma existsb_eqb_in a l : existsb (λ s, s == a) l = false ↔ Forall (λ s, s ≠ a) l.
Proof.
  rewrite existsb_false_elem, Forall_forall. by setoid_rewrite String.eqb_neq.
Qed.
Lemma existsb_dots l :
  existsb (λ s, (s == ".") || (s == "..")) l = false ↔ Forall (λ s, s ≠ "." ∧ s ≠ "..") l.
Proof.
  rewrite existsb_false_elem, Forall_forall.
  setoid_rewrite orb_false_iff. by setoid_rewrite String.eqb_neq.
Qed.

Lemma concrete_parent s : concrete_segment s → parent_segment s.
Proof.
  intros (H & ? & ?). unfold RESOURCE_SEGMENT_RE in H. bool_prop.
  split_and!; [done..|]. intros c Hc. eapply all_chars_contains; [done|].
  by repeat (apply elem_of_cons in Hc as [->|Hc]; [done|]); apply elem_of_nil in Hc.
Qed.

(** What the checks before the wildcard test establish of the segments. *)
Definition base_segments (segs : list string) : Prop :=
  (2 ≤ length segs)%nat ∧
  Forall (λ s, s ≠ "" ∧ s ≠ "." ∧ s ≠ ".." ∧
    ∀ c, c ∈ ["/"; "000"; "\"; ":"]%char → contains c s = false) segs.

Lemma base_segments_valid segs allow :
  base_segments segs →
  is_valid_resource (join "/" segs) allow =
    match stars_from 0 segs with
    | [] => forallb RESOURCE_SEGMENT_RE segs
    | (i :: _) as indices =>
        allow && (length indices =? 1)%nat && (i =? length segs - 1)%nat
        && (List.last segs "" == "*") && (3 <=? length segs)%nat
    end.
Proof.
  intros [Hlen Hsegs]. unfold is_valid_resource.
  assert (Hchar : ∀ c, c ∈ ["/"; "000"; "\"; ":"]%char →
    Forall (λ s, contains c s = false) segs).
  { intros c Hc. eapply Forall_impl; [done|]. naive_solver. }
  assert (Hsplit : split "/" (join "/" segs) = segs).
  { apply split_join; [by destruct segs; simpl in *; [lia|]|]. apply Hchar. set_solver. }
  assert (Hne : Forall (λ s, s ≠ "") segs) by (eapply Forall_impl; [exact Hsegs|naive_solver]).
  destruct (String.eqb_spec (join "/" segs) "") as [E|_].
  { rewrite E in Hsplit. simpl in Hsplit. subst segs. simpl in Hlen. lia. }
  rewrite !(λ c H, proj2 (contains_join c "/" segs H)) by (done || apply Hchar; set_solver).
  cbn [orb].
  destruct (startswith (join "/" segs) "/") eqn:E.
  { apply startswith_iff in E as [t E]. rewrite E in Hsplit.
    change ("/" ^+ t) with (String "/" t) in Hsplit. simpl in Hsplit. subst segs.
    by apply Forall_cons in Hne as [? _]. }
  destruct (endswith (join "/" segs) "/") eqn:E'.
  { apply endswith_iff in E' as [p E']. rewrite E', split_snoc_sep in Hsplit. subst segs.
    apply Forall_app in Hne as [_ Hne]. rewrite Forall_singleton in Hne. by destruct Hne. }
  cbn [orb]. cbn iota zeta. rewrite Hsplit.
  destruct (Nat.ltb_spec (length segs) 2) as [?|_]; [lia|].
  rewrite (proj2 (existsb_eqb_in _ _)) by done.
  rewrite (proj2 (existsb_dots _)) by (eapply Forall_impl; [exact Hsegs|naive_solver]).
  by rewrite wildcard_segments_from.
Qed.

Lemma valid_resource_base r allow :
  is_valid_resource r allow = true → base_segments (split "/" r).
Proof.
  unfold is_valid_resource. intros H.
  destruct (r == ""); [done|].
  destruct (contains "000" r || contains "\" r || contains ":" r) eqn:Ec; [done|].
  destruct (startswith r "/" || endswith r "/"); [done|]. cbn zeta in H.
  destruct (length (split "/" r) <? 2)%nat eqn:El; [done|].
  destruct (existsb (λ s, s == "") _) eqn:E1; [done|].
  destruct (existsb (λ s, (s == ".") || (s == "..")) _) eqn:E2; [done|]. clear H.
  apply Nat.ltb_ge in El. apply existsb_eqb_in in E1. apply existsb_dots in E2.
  bool_prop. split; [done|]. apply Forall_forall. intros s Hs.
  rewrite !Forall_forall in *.
  assert (Hc : ∀ c, c ≠ "/"%char → contains c r = false → contains c s = false).
  { intros c Hne Hr. rewrite <-(join_split "/" r) in Hr.
    apply contains_join in Hr; [|done]. rewrite Forall_forall in Hr. auto. }
  destruct (E2 s Hs) as [? ?]. split_and!; [by apply E1|done|done|].
  intros c Hin. apply elem_of_cons in Hin as [->|Hin].
  { pose proof (split_chars "/" r) as Hs'. rewrite Forall_forall in Hs'. auto. }
  repeat (apply elem_of_cons in Hin as [->|Hin]; [by apply Hc|]).
  by apply elem_of_nil in Hin.
Qed.

Lemma parent_base segs :
  (2 ≤ length segs)%nat → Forall parent_segment segs → base_segments segs.
Proof.
  intros Hlen Hsegs. split; [done|]. eapply Forall_impl; [exact Hsegs|].
  intros s (?&?&?&Hc). split_and!; [done..|]. intros c Hin. apply Hc. set_solver.
Qed.
Lemma wild_base segs :
  (2 ≤ length segs)%nat → Forall parent_segment segs → base_segments (segs ++ ["*"]).
Proof.
  intros Hlen Hsegs. destruct (parent_base segs) as [_ Hb]; [done..|].
  split; [rewrite length_app; simpl; lia|]. apply Forall_app. split; [done|].
  constructor; [|done]. split_and!; [done..|]. intros c Hin.
  by repeat (apply elem_of_cons in Hin as [->|Hin]; [done|]); apply elem_of_nil in Hin.
Qed.
Lemma parent_no_star segs :
  Forall parent_segment segs → Forall (λ s, contains "*" s = false) segs.
Proof.
  intros H. eapply Forall_impl; [exact H|]. intros s (_&_&_&Hc). apply Hc. set_solver.
Qed.

Lemma wf_resource_valid allow segs :
  wf_resource allow segs → is_valid_resource (join "/" segs) allow = true.
Proof.
  intros H. destruct H as [allow segs Hlen Hsegs|segs Hlen Hsegs].
  - assert (Hp : Forall parent_segment segs)
      by (eapply Forall_impl; [exact Hsegs|apply concrete_parent]).
    rewrite base_segments_valid by by apply parent_base.
    rewrite (proj2 (stars_from_nil 0 segs)) by by apply parent_no_star.
    apply forallb_elem. rewrite Forall_forall in Hsegs. intros s Hs. by apply Hsegs.
  - rewrite base_segments_valid by by apply wild_base.
    rewrite stars_from_app, (proj2 (stars_from_nil 0 segs)) by by apply parent_no_star.
    change (stars_from (0 + length segs) ["*"]) with [(0 + length segs)%nat].
    cbn [app length]. rewrite length_app, List.last_last. cbn [length].
    rewrite !andb_true_iff, !Nat.eqb_eq, Nat.leb_le. split_and!; lia || done.
Qed.

Lemma valid_wf_resource r allow :
  is_valid_resource r allow = true → wf_resource allow (split "/" r).
Proof.
  intros H. pose proof (valid_resource_base _ _ H) as Hb.
  rewrite <-(join_split "/" r), base_segments_valid in H by done.
  destruct Hb as [Hlen Hsegs].
  destruct (stars_from 0 (split "/" r)) as [|i l] eqn:Es.
  - apply wf_concrete; [done|]. rewrite forallb_elem in H.
    rewrite Forall_forall in *. intros s Hs. destruct (Hsegs s Hs) as (?&?&?&_).
    split; [by apply H|done].
  - bool_prop.
    destruct (exists_last (split_not_nil "/" r)) as (init & x & Hsplit).
    rewrite Hsplit in *. rewrite List.last_last, length_app in *.
    subst. rewrite stars_from_app in Es.
    change (stars_from ?k ["*"]) with [k] in Es.
    assert (Hnil : stars_from 0 init = []).
    { apply (f_equal length) in Es. rewrite length_app in Es.
      apply Nat.eqb_eq in H3. cbn [length] in *. apply length_zero_iff_nil. lia. }
    apply stars_from_nil in Hnil. apply Nat.leb_le in H0. simpl in H0.
    apply Forall_app in Hsegs as [Hsegs _]. apply wf_wildcard; [lia|].
    rewrite !Forall_forall in *. intros s Hs. destruct (Hsegs s Hs) as (?&?&?&Hc).
    split_and!; [done..|]. intros c Hin.
    destruct (decide (c = "*"%char)) as [->|]; [by apply Hnil|]. apply Hc. set_solver.
Qed.

Lemma resource_grammar_iff r allow :
  is_valid_resource r allow = true ↔
  ∃ segs, r = join "/" segs ∧ wf_resource allow segs.
Proof.
  split.
  - intros H. exists (split "/" r). rewrite join_split. eauto using valid_wf_resource.
  - intros (segs & -> & H). by apply wf_resource_valid.
Qed.

(** The validator accepts exactly the grammar. *)
Theorem is_valid_resource_grammar r allow :
  is_valid_resource r allow = true ↔
  ∃ segs, r = join "/" segs ∧ wf_resource allow segs.
Proof. apply resource_grammar_iff. Qed.

(** ** Valid grant scopes *)

Lemma actions_no_colon a : is_valid_requested_action a = true → contains ":" a = false.
Proof.
  unfold is_valid_requested_action. rewrite existsb_exists_elem.
  intros (x & Hx & ->%String.eqb_eq).
  by repeat (apply elem_of_cons in Hx as [->|Hx]; [done|]); apply elem_of_nil in Hx.
Qed.
Lemma resource_no_colon r allow : is_valid_resource r allow = true → contains ":" r = false.
Proof.
  unfold is_valid_resource. destruct (r == ""); [done|].
  destruct (contains "000" r || contains "\" r || contains ":" r) eqn:E; [done|].
  by bool_prop.
Qed.

Lemma split_attempted a r :
  contains ":" a = false → contains ":" r = false → split ":" (attempted_scope a r) = [a; r].
Proof.
  intros Ha Hr. unfold attempted_scope. change (":" ^+ r) with (String ":" r).
  by rewrite split_cons_sep, split_no_sep.
Qed.
Lemma partition_attempted a r :
  contains ":" a = false → partition ":" (attempted_scope a r) = (a, ":", r).
Proof. intros Ha. by apply partition_found. Qed.

(** A valid grant scope is an action and a resource around one colon. *)
Lemma valid_scope_iff s :
  is_valid_grant_scope s = true ↔
  ∃ a r, s = attempted_scope a r ∧ is_valid_requested_action a = true ∧
         is_valid_resource r true = true.
Proof.
  unfold is_valid_grant_scope. split.
  - intros H. pose proof (join_split ":" s) as Hs.
    destruct (split ":" s) as [|a [|r []]]; try done. bool_prop. by exists a, r.
  - intros (a & r & -> & Ha & Hr).
    rewrite split_attempted by eauto using actions_no_colon, resource_no_colon.
    by rewrite Ha, Hr.
Qed.

(** What a well-formed scope covers. *)
Lemma covers_attempted a R action resource :
  contains ":" a = false → contains ":" R = false →
  scope_covers (attempted_scope a R) action resource = true ↔
  action = a ∧ (resource = R ∨ ∃ P x, R = P ^+ "/*" ∧ resource = P ^+ "/" ^+ x).
Proof.
  intros Ha HR. unfold scope_covers, matches_terminal_resource_wildcard.
  rewrite partition_attempted by done. simpl negb. cbn [orb].
  rewrite orb_true_iff, String.eqb_eq.
  assert (Heq : attempted_scope a R = attempted_scope action resource ↔ action = a ∧ resource = R).
  { split; [|by intros [-> ->]]. intros H.
    pose proof (partition_attempted a R Ha) as Hp. rewrite H in Hp.
    apply partition_inv in Hp as [(_&H'&_)|(?&_)]; [|done].
    destruct (contains ":" action) eqn:Hc.
    - exfalso. apply (f_equal (λ s, length (split ":" s))) in H.
      rewrite split_attempted in H by done. unfold attempted_scope in H.
      change (":" ^+ resource) with (String ":" resource) in H.
      rewrite split_app_sep, length_app in H. apply length_split_sep in Hc.
      pose proof (split_not_nil ":" resource). destruct (split ":" resource); [done|].
      simpl in H. lia.
    - apply app_sep_inj in H as [-> ->]; done. }
  rewrite Heq. destruct (String.eqb_spec a action) as [->|Hne]; simpl negb; cbn [negb].
  - destruct (endswith R "/*") eqn:E; cbn [negb].
    + apply endswith_iff in E as [P ->].
      change "/*" with ("/" ^+ "*"). rewrite <-app_assoc_str, removesuffix_app, startswith_iff.
      split.
      * intros [[_ ->]|[t ->]]; [auto|]. split; [done|]. right. exists P, t.
        by rewrite !app_assoc_str.
      * intros [_ [->|(P' & x & HP & ->)]]; [auto|]. right. exists x.
        rewrite app_assoc_str in HP. change ("/" ^+ "*") with "/*" in HP.
        apply app_inj_r in HP as ->. by rewrite app_assoc_str.
    + split; [naive_solver|]. intros [_ [->|(P & x & -> & _)]]; [auto|].
      assert (endswith (P ^+ "/*") "/*" = true) by (apply endswith_iff; eauto). congruence.
  - split; [naive_solver|]. by intros [-> _].
Qed.

Lemma match_scope_find scopes action resource :
  match_scope scopes action resource = List.find (λ s, scope_covers s action resource) scopes.
Proof.
  induction scopes as [|s l IH]; simpl; [done|]. rewrite IH. unfold scope_covers.
  destruct (s == attempted_scope action resource); simpl; [done|].
  by destruct (matches_terminal_resource_wildcard s action resource).
Qed.

(** [match_scope] returns the first of the scopes that covers the request,
    and returns [None] exactly when no scope covers it. *)
Theorem match_scope_first scopes action resource :
  match match_scope scopes action resource with
  | Some s => ∃ before after, scopes = before ++ s :: after ∧
      scope_covers s action resource = true ∧
      Forall (λ t, scope_covers t action resource = false) before
  | None => Forall (λ t, scope_covers t action resource = false) scopes
  end.
Proof.
  rewrite match_scope_find. induction scopes as [|s l IH]; simpl; [done|].
  destruct (scope_covers s action resource) eqn:E.
  - by exists [], l.
  - destruct (List.find _ l) as [t|].
    + destruct IH as (before & after & -> & Ht & Hb). exists (s :: before), after. auto.
    + by constructor.
Qed.

Lemma match_scope_Some scopes action resource s :
  match_scope scopes action resource = Some s →
  s ∈ scopes ∧ scope_covers s action resource = true.
Proof.
  rewrite match_scope_find. intros H. apply find_some in H as [H ?].
  by rewrite list_elem_of_In.
Qed.
Lemma match_scope_is_Some scopes action resource :
  is_Some (match_scope scopes action resource) ↔
  ∃ s, s ∈ scopes ∧ scope_covers s action resource = true.
Proof.
  split.
  - intros [s Hs]. eauto using match_scope_Some.
  - intros (s & Hs & Hc). rewrite match_scope_find.
    destruct (List.find _ _) eqn:E; [done|].
    apply list_elem_of_In in Hs. apply (find_none _ _ E) in Hs. congruence.
Qed.

(** A string that ends in slash star and starts with [P/] continues with a star
    or with a longer parent. *)
Lemma parent_prefix P Q x :
  Q ^+ "/*" = P ^+ "/" ^+ x → Q = P ∨ ∃ y, Q = P ^+ "/" ^+ y.
Proof.
  revert P. induction Q as [|a Q IH]; intros P H.
  - destruct P as [|b P]; [by left|]. exfalso.
    rewrite app_cons in H. change ("" ^+ "/*") with (String "/" "*") in H.
    injection H as <- H. destruct P as [|c P]; [discriminate|].
    rewrite app_cons in H. injection H as <- H.
    apply (f_equal String.length) in H. rewrite !length_app_str in H. simpl in H. lia.
  - destruct P as [|b P]; rewrite ?app_cons, ?app_empty_l in H; simplify_eq.
    + right. exists Q. done.
    + destruct (IH P) as [->|[y ->]]; [done|by left|right]. exists y. by rewrite app_cons.
Qed.

Lemma subsumes_attempted a R b N :
  is_valid_grant_scope (attempted_scope a R) = true →
  is_valid_grant_scope (attempted_scope b N) = true →
  contains ":" a = false → contains ":" b = false →
  scope_subsumes (attempted_scope a R) (attempted_scope b N) = true ↔
  attempted_scope a R = attempted_scope b N ∨
  a = b ∧ ∃ P x, R = P ^+ "/*" ∧ N = P ^+ "/" ^+ x.
Proof.
  intros H1 H2 Ha Hb. unfold scope_subsumes. rewrite H1, H2, !partition_attempted by done.
  destruct (String.eqb_spec (attempted_scope a R) (attempted_scope b N)) as [E|E]; [tauto|].
  cbn [negb orb]. destruct (String.eqb_spec a b) as [->|Hab]; cbn [negb orb];
    [|by split; [|intros [?|[??]]]].
  destruct (endswith R "/*") eqn:Er; cbn [negb].
  - apply endswith_iff in Er as [P ->].
    change "/*" with ("/" ^+ "*"). rewrite <-app_assoc_str, removesuffix_app, startswith_iff.
    split.
    + intros [x ->]. right. split; [done|]. exists P, x. by rewrite !app_assoc_str.
    + rewrite app_assoc_str. intros [?|(_ & P' & x & HP & ->)]; [done|]. exists x.
      apply app_inj_r in HP as ->. by rewrite app_assoc_str.
  - split; [done|]. intros [?|(_ & P & x & -> & _)]; [done|].
    assert (endswith (P ^+ "/*") "/*" = true) by (apply endswith_iff; eauto). congruence.
Qed.

Lemma subsumes_iff broad narrow :
  is_valid_grant_scope broad = true → is_valid_grant_scope narrow = true →
  scope_subsumes broad narrow = true ↔
  ∀ action resource, scope_covers narrow action resource = true →
                     scope_covers broad action resource = true.
Proof.
  intros Hb Hn.
  pose proof Hb as (a & R & -> & Ha & HR)%valid_scope_iff.
  pose proof Hn as (b & N & -> & Hb' & HN)%valid_scope_iff.
  pose proof (actions_no_colon _ Ha) as Hac. pose proof (actions_no_colon _ Hb') as Hbc.
  pose proof (resource_no_colon _ _ HR) as HRc. pose proof (resource_no_colon _ _ HN) as HNc.
  rewrite subsumes_attempted by done. setoid_rewrite covers_attempted; [|done..]. split.
  - intros [E|(-> & P & x & -> & ->)] action resource [-> Hr].
    + apply covers_attempted; [done..|]. rewrite E. by apply covers_attempted.
    + split; [done|]. right. exists P.
      destruct Hr as [->|(P' & y & HP & ->)]; [by exists x|].
      symmetry in HP. apply parent_prefix in HP as [->|[z ->]]; [by exists y|].
      exists (z ^+ "/" ^+ y). by rewrite !app_assoc_str.
  - intros H. destruct (H b N) as [-> [->|(P & x & -> & ->)]]; [by auto|by left|].
    right. eauto 6.
Qed.

Lemma subsumes_covers broad narrow action resource :
  is_valid_grant_scope broad = true → is_valid_grant_scope narrow = true →
  scope_subsumes broad narrow = true → scope_covers narrow action resource = true →
  scope_covers broad action resource = true.
Proof. intros Hb Hn Hs. by apply subsumes_iff. Qed.

(** C37: On valid scopes [scope_subsumes] is exactly inclusion of coverage: the
    broad scope subsumes the narrow one if and only if it covers every request
    the narrow one covers. *)
Theorem scope_subsumes_coverage broad narrow :
  is_valid_grant_scope broad = true → is_valid_grant_scope narrow = true →
  scope_subsumes broad narrow = true ↔
  ∀ action resource, scope_covers narrow action resource = true →
                     scope_covers broad action resource = true.
Proof. apply subsumes_iff. Qed.

Lemma scope_subsumes_coverage_witness :
  is_valid_grant_scope "write:repo/project/*" = true ∧
  is_valid_grant_scope "write:repo/project/a/*" = true ∧
  (scope_subsumes "write:repo/project/*" "write:repo/project/a/*" = true ↔
   ∀ action resource, scope_covers "write:repo/project/a/*" action resource = true →
                      scope_covers "write:repo/project/*" action resource = true).
Proof.
  split; [vm_compute; reflexivity|]. split; [vm_compute; reflexivity|].
  apply scope_subsumes_coverage; vm_compute; reflexivity.
Defined.

Lemma scope_subsumes_refl s : scope_subsumes s s = true.
Proof. unfold scope_subsumes. by rewrite eqb_refl. Qed.

Lemma valid_request_scope action resource :
  is_valid_requested_action action = true → is_valid_requested_resource resource = true →
  is_valid_grant_scope (attempted_scope action resource) = true.
Proof.
  intros Ha (segs & -> & Hr)%resource_grammar_iff. apply valid_scope_iff.
  exists action, (join "/" segs). split_and!; [done..|].
  apply wf_resource_valid. inversion Hr; subst. by constructor.
Qed.

Lemma join_snoc_star segs : segs ≠ [] → join "/" (segs ++ ["*"]) = join "/" segs ^+ "/*".
Proof. intros H. by rewrite join_app. Qed.

Lemma split_parents segs :
  segs ≠ [] → Forall parent_segment segs → split "/" (join "/" segs) = segs.
Proof.
  intros Hne Hsegs. apply split_join; [done|].
  eapply Forall_impl; [exact Hsegs|]. intros s (_&_&_&Hc). apply Hc. set_solver.
Qed.

(** A wildcard scope covers a valid request segment by segment: the
    requested path consists of the scope's parent segments followed by at least
    one more concrete segment (never [.] or [..]), so the match cannot stop in
    the middle of a segment or climb out of the parent. *)
Theorem wildcard_covers_segmentwise a segs action resource :
  contains ":" a = false → (2 ≤ length segs)%nat → Forall parent_segment segs →
  is_valid_requested_resource resource = true →
  scope_covers (attempted_scope a (join "/" (segs ++ ["*"]))) action resource = true ↔
  action = a ∧ ∃ rest, split "/" resource = segs ++ rest ∧ rest ≠ [] ∧
                       Forall concrete_segment rest.
Proof.
  intros Ha Hlen Hsegs Hr.
  assert (Hne : segs ≠ []) by (by destruct segs; simpl in *; [lia|]).
  pose proof (wf_wildcard segs Hlen Hsegs) as Hwf%wf_resource_valid.
  rewrite covers_attempted by eauto using resource_no_colon.
  pose proof (valid_wf_resource _ _ Hr) as Hwr. apply and_iff_compat_l. split.
  - intros [->|(P & x & HP & ->)].
    + exfalso. unfold is_valid_requested_resource in Hr.
      apply valid_wf_resource in Hr. inversion Hr as [? s Hl Hs|]; subst.
      rewrite split_join in Hs; [|by destruct segs|].
      * apply Forall_app in Hs as [_ Hs]. rewrite Forall_singleton in Hs. by destruct Hs.
      * apply Forall_app. split; [|by constructor].
        eapply Forall_impl; [exact Hsegs|]. intros s (_&_&_&Hc). apply Hc. set_solver.
    + rewrite join_snoc_star in HP by done. apply app_inj_r in HP as <-.
      change ("/" ^+ x) with (String "/" x) in *. rewrite split_app_sep in *.
      rewrite split_parents in * by done.
      inversion Hwr as [? s Hl Hs|]; subst. apply Forall_app in Hs as [_ Hs].
      eauto using split_not_nil.
  - intros (rest & Hsp & Hrest & Hc). right. exists (join "/" segs), (join "/" rest).
    split; [by apply join_snoc_star|].
    rewrite <-(join_split "/" resource), Hsp. by apply join_app.
Qed.
Lemma wildcard_covers_segmentwise_witness :
  contains ":" "write" = false ∧ Forall parent_segment ["repo"; "feature"] ∧
  (scope_covers "write:repo/feature/*" "write" "repo/feature/a/b" = true ↔
   "write" = "write" ∧ ∃ rest, split "/" "repo/feature/a/b" = ["repo"; "feature"] ++ rest ∧
     rest ≠ [] ∧ Forall concrete_segment rest).
Proof.
  assert (H : Forall parent_segment ["repo"; "feature"]).
  { repeat constructor; try discriminate;
      apply concrete_parent; (split; [reflexivity|split; discriminate]). }
  split; [reflexivity|]. split; [exact H|].
  apply (wildcard_covers_segmentwise "write" ["repo"; "feature"]);
    [reflexivity|simpl; lia|exact H|vm_compute; reflexivity].
Defined.
