(* ===== verification/Models.v ===== *)
(** * Data model of the core ([src/vinctor_core/models.py])

    One record per dataclass; field names carry a prefix per record ([g_] for
    [Grant], [b_] for [Boundary], ...).  Statuses and modes stay strings, since
    the code compares strings and does not enforce its [Literal] types. *)
From S2P Require Import Prelude PyStr PyDict PyTime.

Inductive Decision := permit | deny.
#[global] Instance Decision_eq_dec : EqDecision Decision.
Proof. solve_decision. Defined.

Definition decision_str (d : Decision) : string :=
  match d with permit => "permit" | deny => "deny" end.
Definition is_permit (d : Decision) : bool :=
  match d with permit => true | deny => false end.

Record Grant := mkGrant {
  g_grant_id : string;
  g_grant_ref : string;
  g_workspace_id : string;
  g_agent_id : string;
  g_scopes : list string;
  g_status : string;
  g_expires_at : option Z
}.

Record Boundary := mkBoundary {
  b_boundary_id : string;
  b_workspace_id : string;
  b_name : string;
  b_runtime : string;
  b_boundary_type : string;
  b_mode : string;
  b_status : string;
  b_created_at : Z;
  b_updated_at : Z
}.

(** [Boundary.with_status] *)
Definition with_status (b : Boundary) (status : string) (updated_at : Z) : Boundary :=
  {| b_boundary_id := b_boundary_id b;
     b_workspace_id := b_workspace_id b;
     b_name := b_name b;
     b_runtime := b_runtime b;
     b_boundary_type := b_boundary_type b;
     b_mode := b_mode b;
     b_status := status;
     b_created_at := b_created_at b;
     b_updated_at := updated_at |}.

Record BoundaryRegistrationInput := mkBoundaryRegistrationInput {
  br_workspace_id : string;
  br_name : string;
  br_runtime : string;
  br_boundary_type : string;
  br_mode : string;
  br_status : string
}.

(** The [BoundaryLookup] protocol. *)
Record BoundaryLookup := mkBoundaryLookup {
  boundary_get : string → option Boundary
}.

Record EnforceInput := mkEnforceInput {
  ei_grant : Grant;
  ei_action : string;
  ei_resource : string;
  ei_now : Z;
  ei_boundary_id : option string;
  ei_boundary_registry : option BoundaryLookup;
  ei_require_boundary : bool
}.

Record DecisionResult := mkDecisionResult {
  d_decision : Decision;
  d_reason : string;
  d_grant_id : string;
  d_grant_ref : string;
  d_workspace_id : string;
  d_agent_id : string;
  d_action : string;
  d_resource : string;
  d_scope_attempted : string;
  d_scope_matched : option string;
  d_boundary : option Boundary;
  d_attempted_boundary_id : option string
}.

Record PolicyInput := mkPolicyInput {
  pi_workspace_id : string;
  pi_agent_id : string;
  pi_grants : list Grant;
  pi_action : string;
  pi_resource : string;
  pi_now : Z;
  pi_boundary_id : option string;
  pi_boundary_registry : option BoundaryLookup
}.

Record PolicyResult := mkPolicyResult {
  pr_decision : Decision;
  pr_reason : string;
  pr_workspace_id : string;
  pr_agent_id : string;
  pr_action : string;
  pr_resource : string;
  pr_scope_attempted : string;
  pr_scope_matched : option string;
  pr_grant_id : option string;
  pr_grant_ref : option string;
  pr_enforce_result : option DecisionResult
}.

Record AuditEvent := mkAuditEvent {
  e_event_id : string;
  e_event_type : string;
  e_decision : Decision;
  e_reason : string;
  e_workspace_id : string;
  e_agent_id : string;
  e_grant_id : string;
  e_grant_ref : string;
  e_action : string;
  e_resource : string;
  e_scope_attempted : string;
  e_scope_matched : option string;
  e_boundary_id : option string;
  e_runtime : option string;
  e_boundary_type : option string;
  e_created_at : Z;
  e_enforcing_principal : option string;
  e_reason_code : option string;
  e_occurrence_count : option Z;
  e_first_seen_at : option Z;
  e_last_seen_at : option Z;
  e_subject_token_verified : bool;
  e_token_id : option string;
  e_event_class : string
}.

#[global] Instance Grant_eq_dec : EqDecision Grant.
Proof. solve_decision. Defined.
#[global] Instance Boundary_eq_dec : EqDecision Boundary.
Proof. solve_decision. Defined.
#[global] Instance DecisionResult_eq_dec : EqDecision DecisionResult.
Proof. solve_decision. Defined.
#[global] Instance AuditEvent_eq_dec : EqDecision AuditEvent.
Proof. solve_decision. Defined.

(** ** [AuditEvent.to_dict]

    The values of the dictionary an event is rendered to. *)
Inductive pyval := VStr (s : string) | VInt (z : Z) | VBool (b : bool) | VNone.

Definition opt_str (o : option string) : pyval :=
  match o with Some s => VStr s | None => VNone end.

(** [if o is not None: event[key] = f(o)] *)
Definition set_some {A} (key : string) (f : A → pyval) (o : option A)
    (event : dict string pyval) : dict string pyval :=
  match o with Some a => dset key (f a) event | None => event end.

Definition to_dict (e : AuditEvent) : dict string pyval :=
  let event :=
    [("event_id", VStr (e_event_id e));
     ("event_type", VStr (e_event_type e));
     ("decision", VStr (decision_str (e_decision e)));
     ("reason", VStr (e_reason e));
     ("workspace_id", VStr (e_workspace_id e));
     ("agent_id", VStr (e_agent_id e));
     ("grant_id", VStr (e_grant_id e));
     ("grant_ref", VStr (e_grant_ref e));
     ("action", VStr (e_action e));
     ("resource", VStr (e_resource e));
     ("scope_attempted", VStr (e_scope_attempted e));
     ("scope_matched", opt_str (e_scope_matched e));
     ("boundary_id", opt_str (e_boundary_id e));
     ("runtime", opt_str (e_runtime e));
     ("boundary_type", opt_str (e_boundary_type e));
     ("created_at", VStr (isoformat (e_created_at e)))] in
  let event := set_some "enforcing_principal" VStr (e_enforcing_principal e) event in
  let event := set_some "reason_code" VStr (e_reason_code e) event in
  let event := set_some "occurrence_count" VInt (e_occurrence_count e) event in
  let event := set_some "first_seen_at" (λ t, VStr (isoformat t)) (e_first_seen_at e) event in
  let event := set_some "last_seen_at" (λ t, VStr (isoformat t)) (e_last_seen_at e) event in
  let event :=
    if e_subject_token_verified e then dset "subject_token_verified" (VBool true) event
    else event in
  let event := set_some "token_id" VStr (e_token_id e) event in
  if negb (e_event_class e == "decision")
  then dset "event_class" (VStr (e_event_class e)) event
  else event.
