(* ===== verification/Registry.v ===== *)
(** * Boundary registry ([src/vinctor_core/registry.py])

    The helpers work against any registry: [BoundaryStore] is the interface
    they call ([get], [list_for_workspace], [add], and [add_audited] where the
    registry has it), [BoundaryStoreOk] what a registry promises, in terms of
    the boundaries it holds.  [BoundaryRegistry], the in-memory dictionary, is
    an instance.  The theorems about the helpers are proved against the
    interface. *)
From S2P Require Import Prelude PyDict Models.

(** ** The interface *)

Class BoundaryStore (S : Type) := {
  bs_get : string → M S (option Boundary);
  bs_list_for_workspace : string → M S (list Boundary);
  bs_add : Boundary → M S Boundary;
  (** [getattr(registry, "add_audited", None)]: boundary, operation, principal. *)
  bs_add_audited : option (Boundary → string → option string → M S Boundary)
}.

(** A write stores the boundary under its id, or raises and stores nothing. *)
Definition stores {S} (wf : S → Prop) (view : S → gmap string Boundary) (b : Boundary)
    (m : M S Boundary) : Prop :=
  ∀ s r s', wf s → m s = (r, s') →
    wf s' ∧
    match r with
    | Ok b' => b' = b ∧ view s' = <[b_boundary_id b := b]> (view s)
    | Raise _ => view s' = view s
    end.

Class BoundaryStoreOk (S : Type) `{BoundaryStore S} := {
  bs_wf : S → Prop;
  bs_view : S → gmap string Boundary;
  bs_get_ok id s : bs_wf s → bs_get id s = (Ok (bs_view s !! id), s);
  bs_list_ok ws s : bs_wf s → ∃ l, bs_list_for_workspace ws s = (Ok l, s) ∧
    ∀ b, b ∈ l ↔ b_workspace_id b = ws ∧ ∃ id, bs_view s !! id = Some b;
  bs_add_ok b : stores bs_wf bs_view b (bs_add b);
  bs_add_audited_ok b op principal f :
    bs_add_audited = Some f → stores bs_wf bs_view b (f b op principal)
}.

(** ** The helpers *)
Section helpers.
Context {S : Type} `{BoundaryStore S}.

Definition dispatch_add (boundary : Boundary) (operation : string)
    (enforcing_principal : option string) : M S Boundary :=
  match bs_add_audited with
  | Some add_audited => add_audited boundary operation enforcing_principal
  | None => bs_add boundary
  end.

Definition has_boundary_name (workspace_id name : string) : M S bool :=
  boundaries ← bs_list_for_workspace workspace_id;
  mret (existsb (λ b, b_name b == name) boundaries).

(** [new_boundary_id] is the id [_new_boundary_id()] draws; [wall_clock] is
    [datetime.now(UTC)]. *)
Definition register_boundary (registration : BoundaryRegistrationInput)
    (now : option Z) (boundary_id enforcing_principal : option string)
    (wall_clock : Z) (new_boundary_id : string) : M S Boundary :=
  if negb (br_mode registration == "fail_closed")
  then raise (ValueError "boundary mode must be fail_closed")
  else if negb ((br_status registration == "active") || (br_status registration == "disabled"))
  then raise (ValueError "boundary status must be active or disabled")
  else
    taken ← has_boundary_name (br_workspace_id registration) (br_name registration);
    if (taken : bool)
    then raise (ValueError "boundary name must be unique within workspace")
    else
      let timestamp := obj_or now wall_clock in
      let boundary :=
        {| b_boundary_id := str_or_else boundary_id new_boundary_id;
           b_workspace_id := br_workspace_id registration;
           b_name := br_name registration;
           b_runtime := br_runtime registration;
           b_boundary_type := br_boundary_type registration;
           b_mode := br_mode registration;
           b_status := br_status registration;
           b_created_at := timestamp;
           b_updated_at := timestamp |} in
      dispatch_add boundary "register" enforcing_principal.

Definition get_boundary_for_workspace (boundary_id workspace_id : string) :
    M S (option Boundary) :=
  boundary ← bs_get boundary_id;
  mret match boundary with
       | None => None
       | Some b => if negb (b_workspace_id b == workspace_id) then None else Some b
       end.

Definition disable_boundary (boundary_id workspace_id : string) (now : option Z)
    (enforcing_principal : option string) (wall_clock : Z) : M S (option Boundary) :=
  boundary ← get_boundary_for_workspace boundary_id workspace_id;
  match boundary with
  | None => mret None
  | Some b =>
      let disabled := with_status b "disabled" (obj_or now wall_clock) in
      b' ← dispatch_add disabled "disable" enforcing_principal;
      mret (Some b')
  end.

Definition enable_boundary (boundary_id workspace_id : string) (now : option Z)
    (enforcing_principal : option string) (wall_clock : Z) : M S (option Boundary) :=
  boundary ← get_boundary_for_workspace boundary_id workspace_id;
  match boundary with
  | None => mret None
  | Some b =>
      if b_status b == "active" then
        b' ← dispatch_add b "enable" enforcing_principal;
        mret (Some b')
      else
        let enabled := with_status b "active" (obj_or now wall_clock) in
        b' ← dispatch_add enabled "enable" enforcing_principal;
        mret (Some b')
  end.
End helpers.

(** ** The in-memory registry *)

Record BoundaryRegistry := mkBoundaryRegistry { _boundaries : dict string Boundary }.

Definition registry_add (boundary : Boundary) : M BoundaryRegistry Boundary := λ r,
  (Ok boundary, mkBoundaryRegistry (dset (b_boundary_id boundary) boundary (_boundaries r))).
Definition registry_get (boundary_id : string) (r : BoundaryRegistry) : option Boundary :=
  dget boundary_id (_boundaries r).
Definition registry_list_for_workspace (workspace_id : string) (r : BoundaryRegistry) :
    list Boundary :=
  List.filter (λ b, b_workspace_id b == workspace_id) (dvalues (_boundaries r)).

#[export] Instance registry_store : BoundaryStore BoundaryRegistry := {|
  bs_get := λ id, gets (registry_get id);
  bs_list_for_workspace := λ ws, gets (registry_list_for_workspace ws);
  bs_add := registry_add;
  bs_add_audited := None
|}.

(** ** The registry invariant *)

(** Every boundary sits under its own id, and no two boundaries of a workspace
    have the same name. *)
Definition registry_inv (m : gmap string Boundary) : Prop :=
  (∀ id b, m !! id = Some b → b_boundary_id b = id) ∧
  (∀ id1 b1 id2 b2, m !! id1 = Some b1 → m !! id2 = Some b2 →
     b_workspace_id b1 = b_workspace_id b2 → b_name b1 = b_name b2 → id1 = id2).

Lemma registry_inv_empty : registry_inv ∅.
Proof. split; intros *; by rewrite lookup_empty. Qed.

(** Storing a boundary whose name no other boundary of its workspace has. *)
Lemma registry_inv_insert m b :
  registry_inv m →
  (∀ id b', m !! id = Some b' → b_workspace_id b' = b_workspace_id b →
            b_name b' = b_name b → id = b_boundary_id b) →
  registry_inv (<[b_boundary_id b := b]> m).
Proof.
  intros [Hid Huniq] Hfresh. split.
  - intros id b'. rewrite lookup_insert_Some. intros [[<- <-]|[_ H]]; eauto.
  - intros id1 b1 id2 b2. rewrite !lookup_insert_Some.
    intros [[<- <-]|[Hne1 H1]] [[<- <-]|[Hne2 H2]] Hw Hn; eauto.
    + symmetry. eauto.
Qed.

#[export] Instance registry_store_ok : BoundaryStoreOk BoundaryRegistry.
Proof.
  refine {| bs_wf r := dict_wf (_boundaries r); bs_view r := dict_map (_boundaries r) |}.
  - intros id s _. by rewrite dict_map_lookup.
  - intros ws s Hwf. eexists; split; [done|]. intros b. unfold registry_list_for_workspace.
    rewrite list_elem_of_In, filter_In, <-list_elem_of_In, String.eqb_eq. unfold dvalues.
    rewrite list_elem_of_fmap. setoid_rewrite dict_map_lookup. split.
    + intros [([id b'] & -> & Hin) Hw]. split; [done|]. exists id. by apply dget_elem_iff.
    + intros [Hw [id Hid]]. split; [|done]. exists (id, b).
      split; [done|]. by apply dget_elem_iff.
  - intros b s r s' Hwf [= <- <-]. split; [by apply dset_wf|]. split; [done|].
    apply dict_map_dset.
  - done.
Defined.

(** ** Theorems *)
Section theorems.
Context {S : Type} `{BoundaryStoreOk S}.
Implicit Types s : S.

Lemma dispatch_add_stores b op principal : stores bs_wf bs_view b (dispatch_add b op principal).
Proof.
  unfold dispatch_add. destruct bs_add_audited eqn:E; [|apply bs_add_ok].
  by apply bs_add_audited_ok.
Qed.

Lemma has_boundary_name_run ws name s :
  bs_wf s → ∃ taken, has_boundary_name ws name s = (Ok taken, s) ∧
    (taken = true ↔ ∃ id b, bs_view s !! id = Some b ∧ b_workspace_id b = ws ∧ b_name b = name).
Proof.
  intros Hwf. destruct (bs_list_ok ws s Hwf) as (l & Hl & Hin).
  exists (existsb (λ b, b_name b == name) l). unfold has_boundary_name.
  rewrite (bind_run _ _ _ _ _ Hl). split; [done|].
  rewrite existsb_exists_elem. setoid_rewrite Hin. setoid_rewrite String.eqb_eq. naive_solver.
Qed.

Lemma get_for_workspace_run id ws s :
  bs_wf s → get_boundary_for_workspace id ws s =
    (Ok (match bs_view s !! id with
         | Some b => if b_workspace_id b == ws then Some b else None
         | None => None
         end), s).
Proof.
  intros Hwf. unfold get_boundary_for_workspace. rewrite (bind_run _ _ _ _ _ (bs_get_ok id s Hwf)).
  unfold mret, M_ret. do 2 f_equal. destruct (bs_view s !! id) as [b|]; [|done].
  by destruct (b_workspace_id b == ws).
Qed.

(** One call of a helper. *)
Inductive registry_step : S → S → Prop :=
  | step_register reg now id principal clock new r s s' :
      register_boundary reg now id principal clock new s = (r, s') → registry_step s s'
  | step_disable id ws now principal clock r s s' :
      disable_boundary id ws now principal clock s = (r, s') → registry_step s s'
  | step_enable id ws now principal clock r s s' :
      enable_boundary id ws now principal clock s = (r, s') → registry_step s s'.

Definition registry_ok s : Prop := bs_wf s ∧ registry_inv (bs_view s).

Lemma store_keeps_ok b op principal s r s' :
  registry_ok s →
  (∀ id b', bs_view s !! id = Some b' → b_workspace_id b' = b_workspace_id b →
            b_name b' = b_name b → id = b_boundary_id b) →
  dispatch_add b op principal s = (r, s') → registry_ok s'.
Proof.
  intros [Hwf Hinv] Hfresh Hrun.
  destruct (dispatch_add_stores b op principal s r s' Hwf Hrun) as [Hwf' Hr].
  split; [done|]. destruct r as [b'|e]; [destruct Hr as [_ ->]|by rewrite Hr].
  by apply registry_inv_insert.
Qed.

(** Rewriting a stored boundary without changing its identity keeps the invariant. *)
Lemma rewrite_keeps_ok id b0 b op principal s r s' :
  registry_ok s → bs_view s !! id = Some b0 →
  b_boundary_id b = b_boundary_id b0 → b_workspace_id b = b_workspace_id b0 →
  b_name b = b_name b0 →
  dispatch_add b op principal s = (r, s') → registry_ok s'.
Proof.
  intros Hok Hget Hbid Hw Hn. apply store_keeps_ok; [done|].
  destruct Hok as [_ [Hid Huniq]]. intros id' b' Hb' Hw' Hn'.
  rewrite Hbid, (Hid _ _ Hget). eapply (Huniq _ _ _ _ Hb' Hget); congruence.
Qed.

Lemma register_boundary_ok reg now id principal clock new s r s' :
  registry_ok s → register_boundary reg now id principal clock new s = (r, s') →
  registry_ok s'.
Proof.
  intros Hok Hrun. unfold register_boundary in Hrun.
  destruct (negb _); [by unfold raise in Hrun; simplify_eq|].
  destruct (negb _); [by unfold raise in Hrun; simplify_eq|].
  destruct (has_boundary_name_run (br_workspace_id reg) (br_name reg) s) as (taken & Ht & Hiff);
    [apply Hok|].
  rewrite (bind_run _ _ _ _ _ Ht) in Hrun.
  destruct taken; [by unfold raise in Hrun; simplify_eq|].
  eapply store_keeps_ok; [exact Hok| |exact Hrun]. simpl. intros id' b' Hb' Hw Hn.
  exfalso. assert (false = true); [|done]. apply Hiff. eauto.
Qed.

Lemma disable_boundary_run id ws now principal clock s :
  bs_wf s →
  disable_boundary id ws now principal clock s =
    match bs_view s !! id with
    | Some b =>
        if b_workspace_id b == ws
        then (b' ← dispatch_add (with_status b "disabled" (obj_or now clock)) "disable" principal;
              mret (Some b')) s
        else (Ok None, s)
    | None => (Ok None, s)
    end.
Proof.
  intros Hwf. unfold disable_boundary.
  rewrite (bind_run _ _ _ _ _ (get_for_workspace_run id ws s Hwf)).
  destruct (bs_view s !! id) as [b|]; [|done]. by destruct (b_workspace_id b == ws).
Qed.
Lemma enable_boundary_run id ws now principal clock s :
  bs_wf s →
  enable_boundary id ws now principal clock s =
    match bs_view s !! id with
    | Some b =>
        if b_workspace_id b == ws
        then (b' ← dispatch_add
                (if b_status b == "active" then b
                 else with_status b "active" (obj_or now clock)) "enable" principal;
              mret (Some b')) s
        else (Ok None, s)
    | None => (Ok None, s)
    end.
Proof.
  intros Hwf. unfold enable_boundary.
  rewrite (bind_run _ _ _ _ _ (get_for_workspace_run id ws s Hwf)).
  destruct (bs_view s !! id) as [b|]; [|done]. destruct (b_workspace_id b == ws); [|done].
  by destruct (b_status b == "active").
Qed.

Lemma registry_step_ok s s' : registry_ok s → registry_step s s' → registry_ok s'.
Proof.
  intros Hok Hstep. destruct Hstep as [reg now id principal clock new r s s' Hrun
    |id ws now principal clock r s s' Hrun|id ws now principal clock r s s' Hrun].
  - by eapply register_boundary_ok.
  - rewrite disable_boundary_run in Hrun by apply Hok.
    destruct (bs_view s !! id) as [b|] eqn:Hb; [|by simplify_eq].
    destruct (_ == ws); [|by simplify_eq].
    unfold mbind, M_bind in Hrun. destruct (dispatch_add _ _ _ s) as [r1 s1] eqn:E.
    assert (s' = s1) as -> by (destruct r1; unfold mret, M_ret in Hrun; by simplify_eq).
    by eapply rewrite_keeps_ok; [exact Hok|exact Hb|..|exact E].
  - rewrite enable_boundary_run in Hrun by apply Hok.
    destruct (bs_view s !! id) as [b|] eqn:Hb; [|by simplify_eq].
    destruct (_ == ws); [|by simplify_eq].
    unfold mbind, M_bind in Hrun. destruct (dispatch_add _ _ _ s) as [r1 s1] eqn:E.
    assert (s' = s1) as -> by (destruct r1; unfold mret, M_ret in Hrun; by simplify_eq).
    eapply rewrite_keeps_ok; [exact Hok|exact Hb|..|exact E]; by destruct (b_status b == "active").
Qed.

(** C40: In every state reachable by registering, disabling and enabling
    boundaries, on any registry that keeps its interface's promises, each
    boundary is stored under its own id and boundary names are unique within
    a workspace; failed calls included. *)
Theorem registry_reachable_ok s s' :
  registry_ok s → rtc registry_step s s' → registry_ok s'.
Proof. intros Hok Hsteps. induction Hsteps; eauto using registry_step_ok. Qed.

(** Disabling a boundary answers [None] and changes nothing unless the
    boundary exists in the caller's workspace; then either the registry holds
    the same boundary with status [disabled] and every other boundary is
    untouched, or the write raised and nothing changed. *)
Theorem disable_boundary_spec id ws now principal clock s r s' :
  registry_ok s → disable_boundary id ws now principal clock s = (r, s') →
  match bs_view s !! id with
  | Some b =>
      if b_workspace_id b == ws then
        match r with
        | Ok b' => b' = Some (with_status b "disabled" (obj_or now clock)) ∧
            bs_view s' = <[id := with_status b "disabled" (obj_or now clock)]> (bs_view s)
        | Raise _ => bs_view s' = bs_view s
        end
      else r = Ok None ∧ s' = s
  | None => r = Ok None ∧ s' = s
  end.
Proof.
  intros Hok Hrun. rewrite disable_boundary_run in Hrun by apply Hok.
  destruct (bs_view s !! id) as [b|] eqn:Hb; [|by simplify_eq].
  destruct (b_workspace_id b == ws); [|by simplify_eq].
  destruct Hok as [Hwf [Hid _]]. pose proof (Hid _ _ Hb) as Hbid.
  unfold mbind, M_bind, mret, M_ret in Hrun.
  destruct (dispatch_add _ _ _ s) as [r1 s1] eqn:E.
  destruct (dispatch_add_stores _ _ _ _ _ _ Hwf E) as [_ Hr].
  destruct r1 as [b'|e]; simplify_eq; [|done]. destruct Hr as [-> ->].
  done.
Qed.
End theorems.

Definition sample_boundary : Boundary :=
  mkBoundary "bnd_1" "ws" "fw" "claude" "hook" "fail_closed" "active" 0 0.
Definition sample_registry : BoundaryRegistry :=
  mkBoundaryRegistry [("bnd_1", sample_boundary)].

Lemma sample_registry_ok : registry_ok sample_registry.
Proof.
  split; [apply NoDup_singleton|]. change (bs_view sample_registry) with
    (<["bnd_1" := sample_boundary]> (∅ : gmap string Boundary)).
  apply (registry_inv_insert ∅ sample_boundary registry_inv_empty).
  intros *. by rewrite lookup_empty.
Qed.

Lemma registry_reachable_ok_witness :
  registry_ok sample_registry ∧
  ∃ s', rtc registry_step sample_registry s' ∧ registry_ok s' ∧ registry_get "bnd_2" s' ≠ None.
Proof.
  split; [exact sample_registry_ok|].
  set (run := register_boundary (mkBoundaryRegistrationInput "ws" "other" "codex" "hook"
    "fail_closed" "active") (Some 5) (Some "bnd_2") None 0 "" sample_registry).
  assert (Hstep : rtc registry_step sample_registry (snd run)).
  { eapply rtc_l; [|apply rtc_refl]. eapply step_register. apply surjective_pairing. }
  exists (snd run). split; [exact Hstep|]. split; [|vm_compute; discriminate].
  exact (registry_reachable_ok sample_registry (snd run) sample_registry_ok Hstep).
Defined.

Lemma disable_boundary_spec_witness :
  registry_ok sample_registry ∧
  bs_view (disable_boundary "bnd_1" "ws" (Some 9) None 0 sample_registry).2 =
    <["bnd_1" := with_status sample_boundary "disabled" 9]> (bs_view sample_registry).
Proof.
  split; [exact sample_registry_ok|].
  exact (proj2 (disable_boundary_spec "bnd_1" "ws" (Some 9) None 0 sample_registry _ _
    sample_registry_ok (surjective_pairing _))).
Defined.
