(* ===== verification/Enforce.v ===== *)
(** * Enforcement and policy evaluation
    ([src/vinctor_core/enforce.py], [src/vinctor_core/policy.py],
    [src/vinctor_service/authorize.py])

    [evaluate_enforce] decides one request against one grant,
    [evaluate_policy] against a list of grants, [authorize_action] wraps the
    latter.  [verdict] is the declarative decision table the theorems refine
    the code to. *)
From S2P Require Import Prelude PyStr PyDict Scope Models.

(** ** [enforce.py] *)

Definition enforce_deny (i : EnforceInput) (reason scope_attempted : string)
    (boundary : option Boundary) (attempted_boundary_id : option string) : DecisionResult :=
  let grant := ei_grant i in
  {| d_decision := deny;
     d_reason := reason;
     d_grant_id := g_grant_id grant;
     d_grant_ref := g_grant_ref grant;
     d_workspace_id := g_workspace_id grant;
     d_agent_id := g_agent_id grant;
     d_action := ei_action i;
     d_resource := ei_resource i;
     d_scope_attempted := scope_attempted;
     d_scope_matched := None;
     d_boundary := boundary;
     d_attempted_boundary_id := str_or attempted_boundary_id (ei_boundary_id i) |}.

(** [_resolve_boundary]: a denial ([inl]) or the boundary, if any ([inr]). *)
Definition resolve_boundary (i : EnforceInput) : DecisionResult + option Boundary :=
  match ei_boundary_id i with
  | None =>
      if ei_require_boundary i
      then inl (enforce_deny i "boundary_required"
                  (attempted_scope (ei_action i) (ei_resource i)) None None)
      else inr None
  | Some boundary_id =>
      let boundary :=
        match ei_boundary_registry i with
        | Some registry => boundary_get registry boundary_id
        | None => None
        end in
      let scope_attempted := attempted_scope (ei_action i) (ei_resource i) in
      match boundary with
      | None => inl (enforce_deny i "boundary_not_found" scope_attempted None (Some boundary_id))
      | Some b =>
          if negb (b_workspace_id b == g_workspace_id (ei_grant i))
          then inl (enforce_deny i "boundary_wrong_workspace" scope_attempted None (Some boundary_id))
          else if negb (b_status b == "active")
          then inl (enforce_deny i "boundary_inactive" scope_attempted (Some b) (Some boundary_id))
          else inr (Some b)
      end
  end.

Definition evaluate_enforce (i : EnforceInput) : DecisionResult :=
  let grant := ei_grant i in
  let scope_attempted := attempted_scope (ei_action i) (ei_resource i) in
  match resolve_boundary i with
  | inl result => result
  | inr boundary =>
      let deny_with reason := enforce_deny i reason scope_attempted boundary None in
      if negb (is_valid_requested_action (ei_action i)) then deny_with "invalid_action"
      else if negb (is_valid_requested_resource (ei_resource i)) then deny_with "invalid_resource"
      else if g_status grant == "revoked" then deny_with "grant_revoked"
      else if g_status grant == "expired" then deny_with "grant_expired"
      else if negb (g_status grant == "active") then deny_with "grant_not_active"
      else if match g_expires_at grant with Some t => t <=? ei_now i | None => false end
      then deny_with "grant_expired"
      else if existsb (λ s, negb (is_valid_grant_scope s)) (g_scopes grant)
      then deny_with "invalid_grant_scope"
      else
        match match_scope (g_scopes grant) (ei_action i) (ei_resource i) with
        | None => deny_with "action_denied"
        | Some matched =>
            {| d_decision := permit;
               d_reason := "permitted";
               d_grant_id := g_grant_id grant;
               d_grant_ref := g_grant_ref grant;
               d_workspace_id := g_workspace_id grant;
               d_agent_id := g_agent_id grant;
               d_action := ei_action i;
               d_resource := ei_resource i;
               d_scope_attempted := scope_attempted;
               d_scope_matched := Some matched;
               d_boundary := boundary;
               d_attempted_boundary_id := ei_boundary_id i |}
        end
  end.

(** ** [policy.py] *)

Definition candidate_grants (p : PolicyInput) : list Grant :=
  List.filter (λ g, (g_workspace_id g == pi_workspace_id p) && (g_agent_id g == pi_agent_id p))
    (pi_grants p).

Definition policy_from_enforce (p : PolicyInput) (r : DecisionResult) : PolicyResult :=
  {| pr_decision := d_decision r;
     pr_reason := d_reason r;
     pr_workspace_id := pi_workspace_id p;
     pr_agent_id := pi_agent_id p;
     pr_action := pi_action p;
     pr_resource := pi_resource p;
     pr_scope_attempted := d_scope_attempted r;
     pr_scope_matched := d_scope_matched r;
     pr_grant_id := Some (d_grant_id r);
     pr_grant_ref := Some (d_grant_ref r);
     pr_enforce_result := Some r |}.

Definition policy_deny (p : PolicyInput) (reason scope_attempted : string) : PolicyResult :=
  {| pr_decision := deny;
     pr_reason := reason;
     pr_workspace_id := pi_workspace_id p;
     pr_agent_id := pi_agent_id p;
     pr_action := pi_action p;
     pr_resource := pi_resource p;
     pr_scope_attempted := scope_attempted;
     pr_scope_matched := None;
     pr_grant_id := None;
     pr_grant_ref := None;
     pr_enforce_result := None |}.

(** The [EnforceInput] the loop builds for a candidate grant. *)
Definition policy_enforce_input (p : PolicyInput) (g : Grant) : EnforceInput :=
  {| ei_grant := g;
     ei_action := pi_action p;
     ei_resource := pi_resource p;
     ei_now := pi_now p;
     ei_boundary_id := pi_boundary_id p;
     ei_boundary_registry := pi_boundary_registry p;
     ei_require_boundary := false |}.

(** The tests that end the loop with the grant's own result. *)
Definition policy_stops (r : DecisionResult) : bool :=
  is_permit (d_decision r)
  || startswith (d_reason r) "boundary_"
  || existsb (String.eqb (d_reason r)) ["invalid_action"; "invalid_resource"; "invalid_grant_scope"].

Fixpoint policy_loop (p : PolicyInput) (grants : list Grant) : option PolicyResult :=
  match grants with
  | [] => None
  | g :: grants' =>
      let result := evaluate_enforce (policy_enforce_input p g) in
      if is_permit (d_decision result) then Some (policy_from_enforce p result)
      else if startswith (d_reason result) "boundary_" then Some (policy_from_enforce p result)
      else if existsb (String.eqb (d_reason result))
                ["invalid_action"; "invalid_resource"; "invalid_grant_scope"]
      then Some (policy_from_enforce p result)
      else policy_loop p grants'
  end.

Definition evaluate_policy (p : PolicyInput) : PolicyResult :=
  let scope_attempted := attempted_scope (pi_action p) (pi_resource p) in
  if negb (is_valid_requested_action (pi_action p))
  then policy_deny p "invalid_action" scope_attempted
  else if negb (is_valid_requested_resource (pi_resource p))
  then policy_deny p "invalid_resource" scope_attempted
  else
    match policy_loop p (candidate_grants p) with
    | Some result => result
    | None => policy_deny p "no_applicable_grant" scope_attempted
    end.

(** ** [authorize.py] *)

Record AuthorizationRequest := mkAuthorizationRequest {
  ar_workspace_id : string;
  ar_agent_id : string;
  ar_action : string;
  ar_resource : string;
  ar_boundary_id : option string
}.

Record AuthorizationResponse := mkAuthorizationResponse {
  as_decision : Decision;
  as_reason : string;
  as_workspace_id : string;
  as_agent_id : string;
  as_action : string;
  as_resource : string;
  as_scope_attempted : string;
  as_scope_matched : option string;
  as_grant_id : option string;
  as_grant_ref : option string;
  as_boundary_id : option string
}.

Definition response_from_policy_result (request : AuthorizationRequest) (r : PolicyResult) :
    AuthorizationResponse :=
  {| as_decision := pr_decision r;
     as_reason := pr_reason r;
     as_workspace_id := pr_workspace_id r;
     as_agent_id := pr_agent_id r;
     as_action := pr_action r;
     as_resource := pr_resource r;
     as_scope_attempted := pr_scope_attempted r;
     as_scope_matched := pr_scope_matched r;
     as_grant_id := pr_grant_id r;
     as_grant_ref := pr_grant_ref r;
     as_boundary_id := ar_boundary_id request |}.

Definition authorize_action (request : AuthorizationRequest) (grants : list Grant) (now : Z)
    (boundary_registry : option BoundaryLookup) : AuthorizationResponse :=
  response_from_policy_result request
    (evaluate_policy
       {| pi_workspace_id := ar_workspace_id request;
          pi_agent_id := ar_agent_id request;
          pi_grants := grants;
          pi_action := ar_action request;
          pi_resource := ar_resource request;
          pi_now := now;
          pi_boundary_id := ar_boundary_id request;
          pi_boundary_registry := boundary_registry |}).

(** ** Specification *)

(** The registry's answer for a boundary id; no registry knows no boundary. *)
Definition lookup_boundary (i : EnforceInput) (id : string) : option Boundary :=
  match ei_boundary_registry i with Some r => boundary_get r id | None => None end.

(** The boundary conditions under which a request is evaluated at all. *)
Definition boundary_admissible (i : EnforceInput) (b : option Boundary) : Prop :=
  match ei_boundary_id i with
  | None => ei_require_boundary i = false ∧ b = None
  | Some id => ∃ bd, b = Some bd ∧ lookup_boundary i id = Some bd ∧
      b_workspace_id bd = g_workspace_id (ei_grant i) ∧ b_status bd = "active"
  end.

Definition request_valid (i : EnforceInput) : Prop :=
  is_valid_requested_action (ei_action i) = true ∧
  is_valid_requested_resource (ei_resource i) = true.

Definition unexpired (i : EnforceInput) : Prop :=
  ∀ t, g_expires_at (ei_grant i) = Some t → ei_now i < t.

Definition scopes_valid (g : Grant) : Prop :=
  Forall (λ s, is_valid_grant_scope s = true) (g_scopes g).

(** The decision table, most specific boundary failure first. *)
Inductive verdict (i : EnforceInput) : Decision → string → Prop :=
  | v_boundary_required :
      ei_boundary_id i = None → ei_require_boundary i = true →
      verdict i deny "boundary_required"
  | v_boundary_not_found id :
      ei_boundary_id i = Some id → lookup_boundary i id = None →
      verdict i deny "boundary_not_found"
  | v_boundary_wrong_workspace id b :
      ei_boundary_id i = Some id → lookup_boundary i id = Some b →
      b_workspace_id b ≠ g_workspace_id (ei_grant i) →
      verdict i deny "boundary_wrong_workspace"
  | v_boundary_inactive id b :
      ei_boundary_id i = Some id → lookup_boundary i id = Some b →
      b_workspace_id b = g_workspace_id (ei_grant i) → b_status b ≠ "active" →
      verdict i deny "boundary_inactive"
  | v_invalid_action b :
      boundary_admissible i b → is_valid_requested_action (ei_action i) = false →
      verdict i deny "invalid_action"
  | v_invalid_resource b :
      boundary_admissible i b → is_valid_requested_action (ei_action i) = true →
      is_valid_requested_resource (ei_resource i) = false →
      verdict i deny "invalid_resource"
  | v_revoked b :
      boundary_admissible i b → request_valid i → g_status (ei_grant i) = "revoked" →
      verdict i deny "grant_revoked"
  | v_status_expired b :
      boundary_admissible i b → request_valid i → g_status (ei_grant i) = "expired" →
      verdict i deny "grant_expired"
  | v_not_active b :
      boundary_admissible i b → request_valid i →
      g_status (ei_grant i) ∉ ["revoked"; "expired"; "active"] →
      verdict i deny "grant_not_active"
  | v_past_expiry b t :
      boundary_admissible i b → request_valid i → g_status (ei_grant i) = "active" →
      g_expires_at (ei_grant i) = Some t → t ≤ ei_now i →
      verdict i deny "grant_expired"
  | v_invalid_scope b s :
      boundary_admissible i b → request_valid i → g_status (ei_grant i) = "active" →
      unexpired i → s ∈ g_scopes (ei_grant i) → is_valid_grant_scope s = false →
      verdict i deny "invalid_grant_scope"
  | v_action_denied b :
      boundary_admissible i b → request_valid i → g_status (ei_grant i) = "active" →
      unexpired i → scopes_valid (ei_grant i) →
      (∀ s, s ∈ g_scopes (ei_grant i) → scope_covers s (ei_action i) (ei_resource i) = false) →
      verdict i deny "action_denied"
  | v_permit b s :
      boundary_admissible i b → request_valid i → g_status (ei_grant i) = "active" →
      unexpired i → scopes_valid (ei_grant i) →
      s ∈ g_scopes (ei_grant i) → scope_covers s (ei_action i) (ei_resource i) = true →
      verdict i permit "permitted".

(** ** [evaluate_enforce] refines the table *)

Lemma resolve_boundary_inr i b : resolve_boundary i = inr b ↔ boundary_admissible i b.
Proof.
  unfold resolve_boundary, boundary_admissible, lookup_boundary.
  destruct (ei_boundary_id i) as [id|].
  - destruct (match ei_boundary_registry i with Some r => boundary_get r id | None => None end)
      as [bd|].
    + destruct (String.eqb_spec (b_workspace_id bd) (g_workspace_id (ei_grant i)));
        cbn [negb]; [destruct (String.eqb_spec (b_status bd) "active"); cbn [negb]|].
      * split; [intros [= <-]; eauto|]. by intros (? & -> & [= ->] & _).
      * split; [done|]. intros (? & _ & [= ->] & _ & ?). done.
      * split; [done|]. intros (? & _ & [= ->] & ? & _). done.
    + split; [done|]. by intros (? & _ & ? & _).
  - destruct (ei_require_boundary i).
    + split; [done|]. by intros [? _].
    + split; [by intros [= <-]|]. by intros [_ ->].
Qed.

Lemma resolve_boundary_inl i res :
  resolve_boundary i = inl res → verdict i deny (d_reason res) ∧ d_decision res = deny.
Proof.
  unfold resolve_boundary. destruct (ei_boundary_id i) as [id|] eqn:Hid.
  - destruct (match ei_boundary_registry i with Some r => boundary_get r id | None => None end)
      as [bd|] eqn:Hb.
    + destruct (String.eqb_spec (b_workspace_id bd) (g_workspace_id (ei_grant i)));
        cbn [negb]; [destruct (String.eqb_spec (b_status bd) "active"); cbn [negb]; [done|]|];
        intros [= <-]; (split; [|done]).
      * by eapply v_boundary_inactive.
      * by eapply v_boundary_wrong_workspace.
    + intros [= <-]. split; [|done]. by eapply v_boundary_not_found.
  - destruct (ei_require_boundary i) eqn:Hr; [|done].
    intros [= <-]. split; [|done]. by apply v_boundary_required.
Qed.

Lemma scopes_valid_existsb g :
  existsb (λ s, negb (is_valid_grant_scope s)) (g_scopes g) = false ↔ scopes_valid g.
Proof.
  rewrite existsb_false_elem. unfold scopes_valid. rewrite Forall_forall.
  by setoid_rewrite negb_false_iff.
Qed.

Lemma evaluate_enforce_verdict i :
  verdict i (d_decision (evaluate_enforce i)) (d_reason (evaluate_enforce i)).
Proof.
  unfold evaluate_enforce. destruct (resolve_boundary i) as [res|b] eqn:Hb.
  { apply resolve_boundary_inl in Hb as [? ->]. done. }
  apply resolve_boundary_inr in Hb.
  destruct (is_valid_requested_action _) eqn:Ha; cbn [negb]; [|by eapply v_invalid_action].
  destruct (is_valid_requested_resource _) eqn:Hr; cbn [negb]; [|by eapply v_invalid_resource].
  assert (request_valid i) by done.
  destruct (String.eqb_spec (g_status (ei_grant i)) "revoked"); [by eapply v_revoked|].
  destruct (String.eqb_spec (g_status (ei_grant i)) "expired"); [by eapply v_status_expired|].
  destruct (String.eqb_spec (g_status (ei_grant i)) "active"); cbn [negb];
    [|eapply v_not_active; [done|done|]; set_solver].
  destruct (match g_expires_at (ei_grant i) with Some t => t <=? ei_now i | None => false end)
    eqn:He.
  { destruct (g_expires_at (ei_grant i)) eqn:Ht; [|done].
    apply Z.leb_le in He. by eapply v_past_expiry. }
  assert (Hu : unexpired i).
  { intros t Ht. rewrite Ht in He. by apply Z.leb_gt in He. }
  destruct (existsb _ _) eqn:Hs.
  { apply existsb_exists_elem in Hs as (s & Hs & Hv%negb_true_iff). by eapply v_invalid_scope. }
  apply scopes_valid_existsb in Hs.
  destruct (match_scope _ _ _) as [s|] eqn:Hm; simpl.
  - apply match_scope_Some in Hm as [? ?]. by eapply v_permit.
  - eapply v_action_denied; try done. intros s Hin.
    destruct (scope_covers s _ _) eqn:Hc; [|done].
    assert (is_Some (match_scope (g_scopes (ei_grant i)) (ei_action i) (ei_resource i)))
      as [? ?] by (apply match_scope_is_Some; eauto). congruence.
Qed.

Lemma unexpired_test i :
  unexpired i →
  match g_expires_at (ei_grant i) with Some t => t <=? ei_now i | None => false end = false.
Proof.
  intros Hu. destruct (g_expires_at (ei_grant i)) eqn:E; [|done]. apply Z.leb_gt. by apply Hu.
Qed.

(** Evaluate [evaluate_enforce] under the premises of a rule. *)
Ltac enforce_rule :=
  unfold evaluate_enforce;
  repeat match goal with
  | H : boundary_admissible _ _ |- _ => apply resolve_boundary_inr in H; rewrite H; clear H
  | H : request_valid _ |- _ => destruct H as [-> ->]
  | H : unexpired _ |- _ => apply unexpired_test in H
  | H : scopes_valid _ |- _ => apply scopes_valid_existsb in H
  | H : is_valid_requested_action _ = _ |- _ => rewrite H; clear H
  | H : is_valid_requested_resource _ = _ |- _ => rewrite H; clear H
  | H : g_status _ = _ |- _ => rewrite H; clear H
  | H : _ = false |- context [if ?b then _ else _] => rewrite H
  end.

Lemma verdict_evaluate_enforce i d r :
  verdict i d r → d_decision (evaluate_enforce i) = d ∧ d_reason (evaluate_enforce i) = r.
Proof.
  destruct 1 as [Hid Hr|id Hid Hl|id b Hid Hl Hw|id b Hid Hl Hw Hs|
    |  |  |  | b Hb Hv Hst | b t Hb Hv Hst Ht Hle | b s Hb Hv Hst Hu Hin Hs
    | b Hb Hv Hst Hu Hs Hc | b s Hb Hv Hst Hu Hs Hin Hc].
  1-4: unfold evaluate_enforce, resolve_boundary, lookup_boundary in *; rewrite Hid.
  - by rewrite Hr.
  - by rewrite Hl.
  - rewrite Hl. by apply String.eqb_neq in Hw as ->.
  - rewrite Hl, Hw, eqb_refl. by apply String.eqb_neq in Hs as ->.
  - by enforce_rule.
  - by enforce_rule.
  - by enforce_rule.
  - by enforce_rule.
  - enforce_rule. rewrite !not_elem_of_cons in Hst. destruct Hst as (H1&H2&H3&_).
    apply String.eqb_neq in H1, H2, H3. by rewrite H1, H2, H3.
  - enforce_rule. rewrite Ht. by apply Z.leb_le in Hle as ->.
  - enforce_rule.
    assert (existsb (λ s, negb (is_valid_grant_scope s)) (g_scopes (ei_grant i)) = true) as ->; [|done].
    apply existsb_exists_elem. exists s. by rewrite Hs.
  - enforce_rule. destruct (match_scope _ _ _) eqn:Hm; [|done].
    apply match_scope_Some in Hm as [Hin Hcov]. rewrite Hc in Hcov; done.
  - enforce_rule. assert (is_Some (match_scope (g_scopes (ei_grant i)) (ei_action i) (ei_resource i)))
      as [s' ->] by (apply match_scope_is_Some; eauto). done.
Qed.

(** [evaluate_enforce] is the decision table: it answers with a decision
    and a reason exactly when the table assigns them, so the table is total and
    functional and every reason code means its row. *)
Theorem evaluate_enforce_table i d r :
  (d_decision (evaluate_enforce i) = d ∧ d_reason (evaluate_enforce i) = r) ↔ verdict i d r.
Proof.
  split; [|apply verdict_evaluate_enforce]. intros [<- <-]. apply evaluate_enforce_verdict.
Qed.

Lemma permit_iff i :
  d_decision (evaluate_enforce i) = permit ↔
  (∃ b, boundary_admissible i b) ∧ request_valid i ∧
  g_status (ei_grant i) = "active" ∧ unexpired i ∧ scopes_valid (ei_grant i) ∧
  ∃ s, s ∈ g_scopes (ei_grant i) ∧ scope_covers s (ei_action i) (ei_resource i) = true.
Proof.
  split.
  - intros H. pose proof (evaluate_enforce_verdict i) as Hv. rewrite H in Hv.
    inversion Hv; subst. eauto 10.
  - intros ([b Hb] & Hr & Hs & Hu & Hsc & s & Hin & Hc).
    apply (verdict_evaluate_enforce i permit "permitted"). by eapply v_permit.
Qed.

(** C14: a request is permitted if and only if its boundary (when named or
    required) is an active boundary of the grant's workspace, action and
    resource are valid, the grant is active and unexpired, all its scopes are
    well formed and one of them covers the request. *)
Theorem evaluate_enforce_permit_iff i :
  d_decision (evaluate_enforce i) = permit ↔
  (∃ b, boundary_admissible i b) ∧ request_valid i ∧
  g_status (ei_grant i) = "active" ∧ unexpired i ∧ scopes_valid (ei_grant i) ∧
  ∃ s, s ∈ g_scopes (ei_grant i) ∧ scope_covers s (ei_action i) (ei_resource i) = true.
Proof. apply permit_iff. Qed.

(** Whatever the verdict, a result names the grant and the request it was
    asked about, reports a matched scope only on permits (then one of the
    grant's scopes, covering the request), and carries a boundary only if it is
    a boundary of the grant's own workspace. *)
Theorem evaluate_enforce_discloses i :
  let r := evaluate_enforce i in
  d_grant_ref r = g_grant_ref (ei_grant i) ∧ d_agent_id r = g_agent_id (ei_grant i) ∧
  d_workspace_id r = g_workspace_id (ei_grant i) ∧
  d_action r = ei_action i ∧ d_resource r = ei_resource i ∧
  (d_decision r = deny → d_scope_matched r = None) ∧
  (∀ s, d_scope_matched r = Some s →
     s ∈ g_scopes (ei_grant i) ∧ scope_covers s (ei_action i) (ei_resource i) = true) ∧
  (∀ b, d_boundary r = Some b → b_workspace_id b = g_workspace_id (ei_grant i)).
Proof.
  cbv zeta. unfold evaluate_enforce. destruct (resolve_boundary i) as [res|ob] eqn:Hb.
  - unfold resolve_boundary in Hb. repeat (case_match; simplify_eq); simpl;
      split_and!; intros; simplify_eq; try done;
      by bool_prop.
  - apply resolve_boundary_inr in Hb.
    assert (Hw : ∀ b, ob = Some b → b_workspace_id b = g_workspace_id (ei_grant i)).
    { intros b ->. unfold boundary_admissible in Hb. destruct (ei_boundary_id i).
      - by destruct Hb as (? & [= <-] & _ & ? & _).
      - by destruct Hb. }
    destruct (negb (is_valid_requested_action _)); [by split_and!|].
    destruct (negb (is_valid_requested_resource _)); [by split_and!|].
    repeat (match goal with |- context [if ?c then _ else _] => destruct c end;
      [by split_and!|]).
    destruct (match_scope _ _ _) as [s|] eqn:Hm; [|by split_and!].
    apply match_scope_Some in Hm. split_and!; simpl; try done. intros s' [= <-]. done.
Qed.

(** ** Widening *)

(** Every scope of the narrow list is subsumed by one of the broad list. *)
Definition within (narrow broad : list string) : Prop :=
  ∀ n, n ∈ narrow → ∃ b, b ∈ broad ∧ scope_subsumes b n = true.

Lemma within_covers narrow broad action resource :
  Forall (λ s, is_valid_grant_scope s = true) narrow →
  Forall (λ s, is_valid_grant_scope s = true) broad →
  within narrow broad →
  (∃ s, s ∈ narrow ∧ scope_covers s action resource = true) →
  ∃ s, s ∈ broad ∧ scope_covers s action resource = true.
Proof.
  rewrite !Forall_forall. intros Hn Hb Hw (s & Hs & Hc).
  destruct (Hw s Hs) as (b & Hin & Hsub). exists b. split; [done|].
  by apply (proj1 (subsumes_iff b s (Hb _ Hin) (Hn _ Hs)) Hsub).
Qed.

(** The same request, clock and boundary against another grant. *)
Definition with_grant (i : EnforceInput) (g : Grant) : EnforceInput :=
  {| ei_grant := g; ei_action := ei_action i; ei_resource := ei_resource i;
     ei_now := ei_now i; ei_boundary_id := ei_boundary_id i;
     ei_boundary_registry := ei_boundary_registry i;
     ei_require_boundary := ei_require_boundary i |}.

(** Delegation is monotone: a grant that is live in the same workspace and
    whose valid scopes subsume another grant's permits everything that grant
    permits. *)
Theorem permit_monotone_subsumption i g :
  d_decision (evaluate_enforce i) = permit →
  g_workspace_id g = g_workspace_id (ei_grant i) → g_status g = "active" →
  unexpired (with_grant i g) → scopes_valid g →
  within (g_scopes (ei_grant i)) (g_scopes g) →
  d_decision (evaluate_enforce (with_grant i g)) = permit.
Proof.
  rewrite !permit_iff.
  intros ([b Hb] & Hr & Hs & Hu & Hsc & Hcov) Hw Hact Hu' Hsc' Hwithin.
  split; [|split; [exact Hr|split; [done|split; [done|split; [done|]]]]].
  - exists b. unfold boundary_admissible, lookup_boundary in *. simpl. by rewrite Hw.
  - exact (within_covers _ _ _ _ Hsc Hsc' Hwithin Hcov).
Qed.

Definition sample_grant : Grant :=
  mkGrant "grnt_1" "grt_1" "ws" "agent" ["read:repo/docs/a"] "active" (Some 100).
Definition wide_grant : Grant :=
  mkGrant "grnt_2" "grt_2" "ws" "agent" ["read:repo/docs/*"] "active" None.
Definition sample_input : EnforceInput :=
  mkEnforceInput sample_grant "read" "repo/docs/a" 5 None None false.

Lemma permit_monotone_subsumption_witness :
  d_decision (evaluate_enforce sample_input) = permit ∧
  d_decision (evaluate_enforce (with_grant sample_input wide_grant)) = permit.
Proof.
  split; [vm_compute; reflexivity|].
  apply (permit_monotone_subsumption sample_input wide_grant);
    [vm_compute; reflexivity|reflexivity|reflexivity|intros t; discriminate| |].
  - apply Forall_singleton. vm_compute. reflexivity.
  - intros n Hn. exists "read:repo/docs/*". split; [apply list_elem_of_singleton; reflexivity|].
    apply list_elem_of_singleton in Hn. subst n. vm_compute. reflexivity.
Defined.

(** ** Policy evaluation *)

Lemma policy_loop_step p g l :
  policy_loop p (g :: l) =
    let r := evaluate_enforce (policy_enforce_input p g) in
    if policy_stops r then Some (policy_from_enforce p r) else policy_loop p l.
Proof.
  cbn [policy_loop]. cbv zeta. unfold policy_stops.
  destruct (is_permit _); [done|]. destruct (startswith _ _); [done|]. simpl.
  by case_match.
Qed.

Lemma policy_loop_first p l :
  match policy_loop p l with
  | Some r => ∃ before g after, l = before ++ g :: after ∧
      Forall (λ g', policy_stops (evaluate_enforce (policy_enforce_input p g')) = false) before ∧
      policy_stops (evaluate_enforce (policy_enforce_input p g)) = true ∧
      r = policy_from_enforce p (evaluate_enforce (policy_enforce_input p g))
  | None => Forall (λ g', policy_stops (evaluate_enforce (policy_enforce_input p g')) = false) l
  end.
Proof.
  induction l as [|g l IH]; [by constructor|]. rewrite policy_loop_step. cbv zeta.
  destruct (policy_stops _) eqn:E.
  - exists [], g, l. split_and!; done || constructor.
  - destruct (policy_loop p l) as [r|].
    + destruct IH as (before & g' & after & -> & Hb & Hg & ->).
      exists (g :: before), g', after. split_and!; [done|by constructor|done|done].
    + by constructor.
Qed.

Lemma candidate_elem p g :
  g ∈ candidate_grants p ↔
  g ∈ pi_grants p ∧ g_workspace_id g = pi_workspace_id p ∧ g_agent_id g = pi_agent_id p.
Proof.
  unfold candidate_grants. rewrite !list_elem_of_In, filter_In, andb_true_iff, !String.eqb_eq. tauto.
Qed.

(** [evaluate_policy] rejects malformed requests first, then answers with
    the result of the first candidate grant (same workspace and agent, in input
    order) whose evaluation permits, fails on the boundary or meets a malformed
    scope; it answers [no_applicable_grant] exactly when no candidate stops the
    scan. *)
Theorem evaluate_policy_first_stop p :
  let result := evaluate_policy p in
  let attempted := attempted_scope (pi_action p) (pi_resource p) in
  if negb (is_valid_requested_action (pi_action p))
  then result = policy_deny p "invalid_action" attempted
  else if negb (is_valid_requested_resource (pi_resource p))
  then result = policy_deny p "invalid_resource" attempted
  else
    (∃ before g after, candidate_grants p = before ++ g :: after ∧
       Forall (λ g', policy_stops (evaluate_enforce (policy_enforce_input p g')) = false) before ∧
       policy_stops (evaluate_enforce (policy_enforce_input p g)) = true ∧
       result = policy_from_enforce p (evaluate_enforce (policy_enforce_input p g))) ∨
    (Forall (λ g', policy_stops (evaluate_enforce (policy_enforce_input p g')) = false)
       (candidate_grants p) ∧
     result = policy_deny p "no_applicable_grant" attempted).
Proof.
  cbv zeta. unfold evaluate_policy.
  destruct (negb (is_valid_requested_action _)); [done|].
  destruct (negb (is_valid_requested_resource _)); [done|].
  pose proof (policy_loop_first p (candidate_grants p)) as H.
  destruct (policy_loop p (candidate_grants p)); [by left|by right].
Qed.

(** A policy permit is always backed by an enforce permit on one of the
    caller's grants: same workspace, same agent, and the result names that
    grant. *)
Theorem evaluate_policy_permit_sound p :
  pr_decision (evaluate_policy p) = permit →
  ∃ g, g ∈ pi_grants p ∧ g_workspace_id g = pi_workspace_id p ∧
       g_agent_id g = pi_agent_id p ∧
       d_decision (evaluate_enforce (policy_enforce_input p g)) = permit ∧
       pr_grant_ref (evaluate_policy p) = Some (g_grant_ref g).
Proof.
  intros H. pose proof (evaluate_policy_first_stop p) as Hf. cbv zeta in Hf.
  destruct (negb (is_valid_requested_action _)); [by rewrite Hf in H|].
  destruct (negb (is_valid_requested_resource _)); [by rewrite Hf in H|].
  destruct Hf as [(before & g & after & Hc & _ & _ & Hf)|[_ Hf]]; [|by rewrite Hf in H].
  rewrite Hf in *. assert (Hg : g ∈ candidate_grants p) by (rewrite Hc; set_solver).
  apply candidate_elem in Hg as (?&?&?). exists g. split_and!; [done..|].
  simpl. by rewrite (proj1 (evaluate_enforce_discloses _)).
Qed.

(** Without a named boundary and with well-formed grant scopes, only a permit
    stops the scan. *)
Lemma policy_stops_permit p g :
  pi_boundary_id p = None → scopes_valid g →
  is_valid_requested_action (pi_action p) = true →
  is_valid_requested_resource (pi_resource p) = true →
  policy_stops (evaluate_enforce (policy_enforce_input p g)) =
  is_permit (d_decision (evaluate_enforce (policy_enforce_input p g))).
Proof.
  intros Hb Hs Ha Hr. pose proof (evaluate_enforce_verdict (policy_enforce_input p g)) as Hv.
  unfold policy_stops. inversion Hv as [| | | | | | | | | | ??? ??? Hin Hbad| |]; simpl in *;
    try done; try congruence.
  exfalso. unfold scopes_valid in Hs. rewrite Forall_forall in Hs. rewrite Hs in Hbad; done.
Qed.

(** For a valid request that names no boundary, over candidate grants whose
    scopes are all well formed, the scan is complete: the policy permits if and
    only if some candidate grant permits. *)
Theorem evaluate_policy_complete p :
  pi_boundary_id p = None → Forall scopes_valid (candidate_grants p) →
  is_valid_requested_action (pi_action p) = true →
  is_valid_requested_resource (pi_resource p) = true →
  pr_decision (evaluate_policy p) = permit ↔
  ∃ g, g ∈ candidate_grants p ∧
       d_decision (evaluate_enforce (policy_enforce_input p g)) = permit.
Proof.
  intros Hb Hs Ha Hr. pose proof (evaluate_policy_first_stop p) as Hf. cbv zeta in Hf.
  rewrite Ha, Hr in Hf. cbn [negb] in Hf. rewrite Forall_forall in Hs.
  assert (Hstop : ∀ g, g ∈ candidate_grants p →
    policy_stops (evaluate_enforce (policy_enforce_input p g)) = true ↔
    d_decision (evaluate_enforce (policy_enforce_input p g)) = permit).
  { intros g Hg. rewrite policy_stops_permit by auto. by destruct (d_decision _). }
  destruct Hf as [(before & g & after & Hc & _ & Hst & ->)|[Hnone ->]].
  - assert (Hg : g ∈ candidate_grants p) by (rewrite Hc; set_solver).
    simpl. apply Hstop in Hst; [|done]. rewrite Hst. split; [|done]. intros _. eauto.
  - split; [done|]. intros (g & Hg & Hp). rewrite Forall_forall in Hnone.
    apply Hstop in Hp; [|done]. rewrite Hnone in Hp; done.
Qed.

Definition sample_policy : PolicyInput :=
  mkPolicyInput "ws" "agent" [sample_grant; wide_grant] "read" "repo/docs/b" 5 None None.

Lemma evaluate_policy_permit_sound_witness :
  pr_decision (evaluate_policy sample_policy) = permit ∧
  ∃ g, g ∈ pi_grants sample_policy ∧ g_agent_id g = "agent" ∧
       pr_grant_ref (evaluate_policy sample_policy) = Some (g_grant_ref g).
Proof.
  split; [vm_compute; reflexivity|].
  destruct (evaluate_policy_permit_sound sample_policy) as (g & H1 & _ & H2 & _ & H3);
    [vm_compute; reflexivity|]. exists g. split; [exact H1|]. split; [exact H2|exact H3].
Defined.
Lemma evaluate_policy_complete_witness :
  Forall scopes_valid (candidate_grants sample_policy) ∧
  (pr_decision (evaluate_policy sample_policy) = permit ↔
   ∃ g, g ∈ candidate_grants sample_policy ∧
        d_decision (evaluate_enforce (policy_enforce_input sample_policy g)) = permit).
Proof.
  assert (H : Forall scopes_valid (candidate_grants sample_policy)).
  { repeat constructor. }
  split; [exact H|].
  apply evaluate_policy_complete; [reflexivity|exact H|vm_compute; reflexivity|vm_compute; reflexivity].
Defined.

(** A candidate grant with a malformed scope ends the scan: the request is
    denied although a later candidate grant permits it. *)
Theorem evaluate_policy_malformed_scope_blocks :
  ∃ p g, g ∈ candidate_grants p ∧
    d_decision (evaluate_enforce (policy_enforce_input p g)) = permit ∧
    pr_decision (evaluate_policy p) = deny ∧
    pr_reason (evaluate_policy p) = "invalid_grant_scope".
Proof.
  exists (mkPolicyInput "ws" "agent"
    [mkGrant "grnt_0" "grt_0" "ws" "agent" ["read:repo"] "active" None; wide_grant]
    "read" "repo/docs/b" 5 None None), wide_grant.
  split; [|by vm_compute]. by right; left.
Qed.
