(* ===== verification/CoreAudit.v ===== *)
(** * Audit event construction ([src/vinctor_core/audit.py])

    Building the three kinds of audit events (decision, rejection, control),
    the coarsening of deny reasons for agent-facing responses, and the rendering
    of an event as JSON-ready data.  [fresh_id] is the id [_new_event_id()]
    draws when the caller names none, [wall_clock] the [datetime.now(UTC)] used
    when the caller gives no time. *)
From S2P Require Import Prelude PyStr PyDict PyTime Scope Models Enforce.

Record AuditEventInput := mkAuditEventInput {
  ai_decision : DecisionResult;
  ai_event_id : option string;
  ai_created_at : option Z;
  ai_enforcing_principal : option string;
  ai_subject_token_verified : bool;
  ai_token_id : option string
}.

Definition build_audit_event (i : AuditEventInput) (fresh_id : string) (wall_clock : Z) :
    AuditEvent :=
  let decision := ai_decision i in
  let boundary := d_boundary decision in
  {| e_event_id := str_or_else (ai_event_id i) fresh_id;
     e_event_type := if is_permit (d_decision decision) then "action_permitted" else "action_denied";
     e_decision := d_decision decision;
     e_reason := d_reason decision;
     e_workspace_id := d_workspace_id decision;
     e_agent_id := d_agent_id decision;
     e_grant_id := d_grant_id decision;
     e_grant_ref := d_grant_ref decision;
     e_action := d_action decision;
     e_resource := d_resource decision;
     e_scope_attempted := d_scope_attempted decision;
     e_scope_matched := d_scope_matched decision;
     e_boundary_id :=
       match boundary with
       | Some b => Some (b_boundary_id b)
       | None => d_attempted_boundary_id decision
       end;
     e_runtime := b_runtime <$> boundary;
     e_boundary_type := b_boundary_type <$> boundary;
     e_created_at := obj_or (ai_created_at i) wall_clock;
     e_enforcing_principal := ai_enforcing_principal i;
     e_reason_code := None;
     e_occurrence_count := None;
     e_first_seen_at := None;
     e_last_seen_at := None;
     e_subject_token_verified := ai_subject_token_verified i;
     e_token_id := ai_token_id i;
     e_event_class := "decision" |}.

(** ** Event types and reason codes *)

Definition EVENT_ACCESS_REJECTED := "access_rejected".
Definition EVENT_AUTH_FAILED := "auth_failed".
Definition EVENT_GRANT_ISSUE_REJECTED := "grant_issue_rejected".
Definition EVENT_SUBJECT_TOKEN_MINTED := "subject_token_minted".

Definition REASON_AGENT_GRANT_MISMATCH := "agent_grant_mismatch".
Definition REASON_AUTH_FAILED := "auth_failed".
Definition REASON_SCOPE_OUTSIDE_ISSUABLE_BOUNDS := "scope_outside_issuable_bounds".
Definition REASON_ISSUABLE_BOUNDS_NOT_FOUND := "issuable_bounds_not_found".
Definition REASON_TTL_EXCEEDS_ISSUABLE_MAX := "ttl_exceeds_issuable_max".
Definition REASON_SUBJECT_TOKEN_REQUIRED := "subject_token_required".
Definition REASON_POP_REQUIRED := "pop_required".
Definition REASON_SUBJECT_TOKEN_NOT_FOUND := "subject_token_not_found".
Definition REASON_SUBJECT_TOKEN_REVOKED := "subject_token_revoked".
Definition REASON_SUBJECT_TOKEN_EXPIRED := "subject_token_expired".
Definition REASON_SUBJECT_TOKEN_MISMATCH := "subject_token_mismatch".
Definition REASON_POP_PROOF_INVALID := "pop_proof_invalid".
Definition REASON_BOUNDARY_UNAVAILABLE := "boundary_unavailable".
Definition BOUNDARY_EXISTENCE_REASONS : list string :=
  ["boundary_not_found"; "boundary_wrong_workspace"; "boundary_inactive"].

Definition agent_facing_reason (reason : string) : string :=
  if existsb (String.eqb reason) BOUNDARY_EXISTENCE_REASONS then REASON_BOUNDARY_UNAVAILABLE
  else reason.

(** The keyword arguments of [build_rejection_audit_event]. *)
Record RejectionInput := mkRejectionInput {
  rj_reason_code : string;
  rj_workspace_id : string;
  rj_agent_id : string;
  rj_created_at : Z;
  rj_event_type : string;
  rj_action : string;
  rj_resource : string;
  rj_scope_attempted : option string;
  rj_boundary_id : option string;
  rj_enforcing_principal : option string;
  rj_event_id : option string;
  rj_occurrence_count : option Z;
  rj_first_seen_at : option Z;
  rj_last_seen_at : option Z
}.

Definition build_rejection_audit_event (r : RejectionInput) (fresh_id : string) : AuditEvent :=
  {| e_event_id := str_or_else (rj_event_id r) fresh_id;
     e_event_type := rj_event_type r;
     e_decision := deny;
     e_reason := rj_reason_code r;
     e_workspace_id := rj_workspace_id r;
     e_agent_id := rj_agent_id r;
     e_grant_id := "";
     e_grant_ref := "";
     e_action := rj_action r;
     e_resource := rj_resource r;
     e_scope_attempted :=
       match rj_scope_attempted r with
       | Some s => s
       | None => rj_action r ^+ ":" ^+ rj_resource r
       end;
     e_scope_matched := None;
     e_boundary_id := rj_boundary_id r;
     e_runtime := None;
     e_boundary_type := None;
     e_created_at := rj_created_at r;
     e_enforcing_principal := rj_enforcing_principal r;
     e_reason_code := Some (rj_reason_code r);
     e_occurrence_count := rj_occurrence_count r;
     e_first_seen_at := rj_first_seen_at r;
     e_last_seen_at := rj_last_seen_at r;
     e_subject_token_verified := false;
     e_token_id := None;
     e_event_class := "decision" |}.

(** ** Control events *)

Definition EVENT_CLASS_CONTROL := "control".
Definition EVENT_CLASS_DECISION := "decision".
Definition AUDIT_EVENT_CLASSES : list string := [EVENT_CLASS_CONTROL; EVENT_CLASS_DECISION].

Definition validate_audit_event_class (event_class : option string) : result unit :=
  match event_class with
  | Some c =>
      if existsb (String.eqb c) AUDIT_EVENT_CLASSES then Ok tt
      else Raise (ValueError ("event_class must be one of: " ^+ join ", " AUDIT_EVENT_CLASSES))
  | None => Ok tt
  end.

(** The keyword arguments of [build_control_audit_event]. *)
Record ControlInput := mkControlInput {
  ci_event_type : string;
  ci_workspace_id : string;
  ci_action : string;
  ci_resource : string;
  ci_reason : string;
  ci_created_at : Z;
  ci_agent_id : string;
  ci_scope_attempted : string;
  ci_boundary_id : option string;
  ci_enforcing_principal : option string;
  ci_event_id : option string
}.

Definition build_control_audit_event (c : ControlInput) (fresh_id : string) : AuditEvent :=
  {| e_event_id := str_or_else (ci_event_id c) fresh_id;
     e_event_type := ci_event_type c;
     e_decision := permit;
     e_reason := ci_reason c;
     e_workspace_id := ci_workspace_id c;
     e_agent_id := ci_agent_id c;
     e_grant_id := "";
     e_grant_ref := "";
     e_action := ci_action c;
     e_resource := ci_resource c;
     e_scope_attempted := ci_scope_attempted c;
     e_scope_matched := None;
     e_boundary_id := ci_boundary_id c;
     e_runtime := None;
     e_boundary_type := None;
     e_created_at := ci_created_at c;
     e_enforcing_principal := ci_enforcing_principal c;
     e_reason_code := None;
     e_occurrence_count := None;
     e_first_seen_at := None;
     e_last_seen_at := None;
     e_subject_token_verified := false;
     e_token_id := None;
     e_event_class := EVENT_CLASS_CONTROL |}.

(** ** Theorems *)

(** What an agent-facing response discloses about a boundary: whether a reason
    belongs to the boundary-existence family. *)
Lemma agent_facing_boundary reason :
  reason ∈ BOUNDARY_EXISTENCE_REASONS → agent_facing_reason reason = REASON_BOUNDARY_UNAVAILABLE.
Proof.
  intros H. unfold agent_facing_reason.
  assert (existsb (String.eqb reason) BOUNDARY_EXISTENCE_REASONS = true) as ->; [|done].
  apply existsb_exists_elem. exists reason. by rewrite eqb_refl.
Qed.

(** The same request evaluated against another boundary registry. *)
Definition with_registry (i : EnforceInput) (r : option BoundaryLookup) : EnforceInput :=
  {| ei_grant := ei_grant i; ei_action := ei_action i; ei_resource := ei_resource i;
     ei_now := ei_now i; ei_boundary_id := ei_boundary_id i;
     ei_boundary_registry := r; ei_require_boundary := ei_require_boundary i |}.

(** No boundary oracle: a request that names a boundary which is absent,
    foreign or disabled gets the same agent-facing decision and reason, whatever
    the registry holds under that id. *)
Theorem boundary_denials_uniform i r1 r2 id :
  ei_boundary_id i = Some id →
  (∀ b, ¬ boundary_admissible (with_registry i r1) b) →
  (∀ b, ¬ boundary_admissible (with_registry i r2) b) →
  d_decision (evaluate_enforce (with_registry i r1)) = deny ∧
  d_decision (evaluate_enforce (with_registry i r2)) = deny ∧
  agent_facing_reason (d_reason (evaluate_enforce (with_registry i r1))) =
  agent_facing_reason (d_reason (evaluate_enforce (with_registry i r2))).
Proof.
  intros Hid.
  assert (H : ∀ r, (∀ b, ¬ boundary_admissible (with_registry i r) b) →
    d_decision (evaluate_enforce (with_registry i r)) = deny ∧
    agent_facing_reason (d_reason (evaluate_enforce (with_registry i r)))
      = REASON_BOUNDARY_UNAVAILABLE).
  { intros r Hno. pose proof (evaluate_enforce_verdict (with_registry i r)) as Hv.
    inversion Hv as [Hid'| | | |b Hb|b Hb|b Hb|b Hb|b Hb|b ? Hb|b ? Hb|b Hb|b ? Hb];
      try (by destruct (Hno b Hb)); simpl in *;
      [congruence|..]; (split; [done|by apply agent_facing_boundary; set_solver]). }
  intros H1 H2. destruct (H r1 H1) as [? ->], (H r2 H2) as [? ->]. done.
Qed.

Definition absent_registry : BoundaryLookup := mkBoundaryLookup (λ _, None).
Definition foreign_registry : BoundaryLookup := mkBoundaryLookup (λ id,
  Some (mkBoundary id "victim" "fw" "codex" "hook" "fail_closed" "active" 0 0)).
Definition probe_input : EnforceInput :=
  mkEnforceInput sample_grant "read" "repo/docs/a" 5 (Some "bnd_7") None false.

Lemma boundary_denials_uniform_witness :
  agent_facing_reason (d_reason (evaluate_enforce (with_registry probe_input (Some absent_registry))))
  = agent_facing_reason (d_reason (evaluate_enforce (with_registry probe_input (Some foreign_registry)))).
Proof.
  refine (proj2 (proj2 (boundary_denials_uniform probe_input (Some absent_registry)
    (Some foreign_registry) "bnd_7" eq_refl _ _))).
  - intros b (bd & _ & H & _). discriminate H.
  - intros b (bd & _ & H & Hw & _). injection H as <-. discriminate Hw.
Defined.

(** ** [to_dict] *)

Lemma dget_cons_eqb {V} key (v : V) d k :
  dget k ((key, v) :: d) = if key == k then Some v else dget k d.
Proof. simpl. case_decide; destruct (String.eqb_spec key k); done. Qed.
Lemma dget_set_some {A} key (f : A → pyval) o d k :
  dget k (set_some key f o d) =
    if key == k then match o with Some a => Some (f a) | None => dget k d end
    else dget k d.
Proof.
  destruct o as [a|]; simpl; [|by destruct (key == k)].
  rewrite dget_dset. case_decide; destruct (String.eqb_spec key k); done.
Qed.
Lemma dget_dset_if (b : bool) key v (d : dict string pyval) k :
  dget k (if b then dset key v d else d) =
    if key == k then (if b then Some v else dget k d) else dget k d.
Proof.
  destruct b; [|by destruct (key == k)].
  rewrite dget_dset. case_decide; destruct (String.eqb_spec key k); done.
Qed.

(** Read one key of a rendered event: peel the assignments from the last one,
    deciding each key comparison by computation. *)
Ltac eval_eqb :=
  match goal with |- context [String.eqb ?a ?b] =>
    let x := eval vm_compute in (String.eqb a b) in
    lazymatch x with true => idtac | false => idtac end;
    change (String.eqb a b) with x
  end; cbn iota.
Ltac dict_key :=
  unfold to_dict; cbv zeta; rewrite dget_dset_if; eval_eqb;
  repeat first
    [ rewrite dget_set_some; eval_eqb
    | rewrite dget_dset_if; eval_eqb
    | rewrite dget_cons_eqb; eval_eqb ];
  try reflexivity.

Lemma to_dict_fields e :
  dget "event_id" (to_dict e) = Some (VStr (e_event_id e)) ∧
  dget "event_type" (to_dict e) = Some (VStr (e_event_type e)) ∧
  dget "decision" (to_dict e) = Some (VStr (decision_str (e_decision e))) ∧
  dget "reason" (to_dict e) = Some (VStr (e_reason e)) ∧
  dget "workspace_id" (to_dict e) = Some (VStr (e_workspace_id e)) ∧
  dget "agent_id" (to_dict e) = Some (VStr (e_agent_id e)) ∧
  dget "grant_id" (to_dict e) = Some (VStr (e_grant_id e)) ∧
  dget "grant_ref" (to_dict e) = Some (VStr (e_grant_ref e)) ∧
  dget "action" (to_dict e) = Some (VStr (e_action e)) ∧
  dget "resource" (to_dict e) = Some (VStr (e_resource e)) ∧
  dget "scope_attempted" (to_dict e) = Some (VStr (e_scope_attempted e)) ∧
  dget "scope_matched" (to_dict e) = Some (opt_str (e_scope_matched e)) ∧
  dget "boundary_id" (to_dict e) = Some (opt_str (e_boundary_id e)) ∧
  dget "runtime" (to_dict e) = Some (opt_str (e_runtime e)) ∧
  dget "boundary_type" (to_dict e) = Some (opt_str (e_boundary_type e)) ∧
  dget "created_at" (to_dict e) = Some (VStr (isoformat (e_created_at e))).
Proof. split_and!; dict_key. Qed.

Lemma to_dict_optional_fields e :
  dget "enforcing_principal" (to_dict e) = VStr <$> e_enforcing_principal e ∧
  dget "reason_code" (to_dict e) = VStr <$> e_reason_code e ∧
  dget "occurrence_count" (to_dict e) = VInt <$> e_occurrence_count e ∧
  dget "first_seen_at" (to_dict e) = (λ t, VStr (isoformat t)) <$> e_first_seen_at e ∧
  dget "last_seen_at" (to_dict e) = (λ t, VStr (isoformat t)) <$> e_last_seen_at e ∧
  dget "subject_token_verified" (to_dict e) =
    (if e_subject_token_verified e then Some (VBool true) else None) ∧
  dget "token_id" (to_dict e) = VStr <$> e_token_id e ∧
  dget "event_class" (to_dict e) =
    (if e_event_class e == "decision" then None else Some (VStr (e_event_class e))).
Proof.
  split_and!; dict_key. by destruct (e_event_class e == "decision").
Qed.
