(* ===== verification/AuditJson.v ===== *)
(** * Reading stored audit events ([src/vinctor_service/sqlite.py],
      [src/vinctor_service/postgres.py], [src/vinctor_service/audit_chain.py])

    A stored row keeps an event as the JSON object [AuditEvent.to_dict] gives;
    [audit_event_from_json] rebuilds the event from the parsed object.  The
    object is the dictionary of its scalar values (the text of the JSON is not
    modelled); a field of another type than the writer's is a [TypeError] here,
    where Python would carry the value along. *)
From S2P Require Import Prelude PyStr PyDict PyTime Scope Models Enforce CoreAudit.

Definition LEGACY_SUBJECT_TOKEN_VERIFIED_FIELD := "identity_proven".

(** Python's [bool(value)]; [data.get(field)] is [None] on a missing field. *)
Definition truthy (v : pyval) : bool :=
  match v with
  | VStr s => negb (s == "")
  | VInt z => negb (z =? 0)
  | VBool b => b
  | VNone => false
  end.

Definition event_json_value (data : dict string pyval) (field : string) : pyval :=
  if (field == "subject_token_verified") && negb (din field data)
  then default VNone (dget LEGACY_SUBJECT_TOKEN_VERIFIED_FIELD data)
  else default VNone (dget field data).

Definition subject_token_verified_from_json (data : dict string pyval) : bool :=
  truthy (event_json_value data "subject_token_verified").

(** [data[field]] and [data.get(field)] at the types the writer stores. *)
Definition as_str (field : string) (v : pyval) : result string :=
  match v with VStr s => Ok s | _ => Raise (TypeError field) end.
Definition as_opt_str (field : string) (v : pyval) : result (option string) :=
  match v with VStr s => Ok (Some s) | VNone => Ok None | _ => Raise (TypeError field) end.
Definition as_opt_int (field : string) (v : pyval) : result (option Z) :=
  match v with VInt z => Ok (Some z) | VNone => Ok None | _ => Raise (TypeError field) end.
Definition item (data : dict string pyval) (field : string) : result pyval :=
  match dget field data with Some v => Ok v | None => Raise (KeyError field) end.
Definition str_item data field := v ← item data field; as_str field v.
Definition opt_item data field := v ← item data field; as_opt_str field v.
Definition get_opt data field := as_opt_str field (default VNone (dget field data)).

Definition decision_of_str (s : string) : result Decision :=
  if s == "permit" then Ok permit
  else if s == "deny" then Ok deny
  else Raise (TypeError "decision").

Definition _optional_datetime (value : option string) : result (option Z) :=
  match value with
  | Some v => t ← fromisoformat v; Ok (Some t)
  | None => Ok None
  end.

Definition _audit_event_from_json (data : dict string pyval) : result AuditEvent :=
  event_id ← str_item data "event_id";
  event_type ← str_item data "event_type";
  decision ← str_item data "decision" ≫= decision_of_str;
  reason ← str_item data "reason";
  workspace_id ← str_item data "workspace_id";
  agent_id ← str_item data "agent_id";
  grant_id ← str_item data "grant_id";
  grant_ref ← str_item data "grant_ref";
  action ← str_item data "action";
  resource ← str_item data "resource";
  scope_attempted ← str_item data "scope_attempted";
  scope_matched ← opt_item data "scope_matched";
  boundary_id ← opt_item data "boundary_id";
  runtime ← opt_item data "runtime";
  boundary_type ← opt_item data "boundary_type";
  created_at ← str_item data "created_at" ≫= fromisoformat;
  enforcing_principal ← get_opt data "enforcing_principal";
  reason_code ← get_opt data "reason_code";
  occurrence_count ←
    as_opt_int "occurrence_count" (default VNone (dget "occurrence_count" data));
  first_seen_at ← get_opt data "first_seen_at" ≫= _optional_datetime;
  last_seen_at ← get_opt data "last_seen_at" ≫= _optional_datetime;
  token_id ← get_opt data "token_id";
  event_class ← as_str "event_class" (default (VStr "decision") (dget "event_class" data));
  Ok {| e_event_id := event_id; e_event_type := event_type; e_decision := decision;
        e_reason := reason; e_workspace_id := workspace_id; e_agent_id := agent_id;
        e_grant_id := grant_id; e_grant_ref := grant_ref; e_action := action;
        e_resource := resource; e_scope_attempted := scope_attempted;
        e_scope_matched := scope_matched; e_boundary_id := boundary_id;
        e_runtime := runtime; e_boundary_type := boundary_type;
        e_created_at := created_at; e_enforcing_principal := enforcing_principal;
        e_reason_code := reason_code; e_occurrence_count := occurrence_count;
        e_first_seen_at := first_seen_at; e_last_seen_at := last_seen_at;
        e_subject_token_verified := subject_token_verified_from_json data;
        e_token_id := token_id; e_event_class := event_class |}.

(** ** Round trip *)

Definition time_ok (t : Z) : Prop := DATETIME_MIN ≤ t ≤ DATETIME_MAX.
(** The timestamps of an event are Python datetimes. *)
Definition event_times_ok (e : AuditEvent) : Prop :=
  time_ok (e_created_at e) ∧
  (∀ t, e_first_seen_at e = Some t → time_ok t) ∧
  (∀ t, e_last_seen_at e = Some t → time_ok t).

Lemma str_item_Some data field s : dget field data = Some (VStr s) → str_item data field = Ok s.
Proof. unfold str_item, item. by intros ->. Qed.
Lemma opt_item_Some data field o : dget field data = Some (opt_str o) → opt_item data field = Ok o.
Proof. unfold opt_item, item. intros ->. by destruct o. Qed.
Lemma get_opt_eq data field o : dget field data = VStr <$> o → get_opt data field = Ok o.
Proof. unfold get_opt. intros ->. by destruct o. Qed.
Lemma get_opt_time data field o :
  dget field data = (λ t, VStr (isoformat t)) <$> o → (∀ t, o = Some t → time_ok t) →
  get_opt data field ≫= _optional_datetime = Ok o.
Proof.
  unfold get_opt. intros -> H. destruct o as [t|]; [|done].
  simpl. by rewrite fromisoformat_isoformat by (by apply H).
Qed.
Lemma decision_of_str_spec d : decision_of_str (decision_str d) = Ok d.
Proof. by destruct d. Qed.

Section lookups.
Context (e : AuditEvent) (data : dict string pyval).
Context (Hdata : ∀ k, dget k data = dget k (to_dict e)).

Lemma subject_token_verified_read :
  subject_token_verified_from_json data = e_subject_token_verified e.
Proof.
  pose proof (to_dict_optional_fields e) as (_ & _ & _ & _ & _ & Hv & _).
  assert (Hl : dget LEGACY_SUBJECT_TOKEN_VERIFIED_FIELD data = None)
    by (rewrite Hdata; unfold LEGACY_SUBJECT_TOKEN_VERIFIED_FIELD; dict_key).
  unfold subject_token_verified_from_json, event_json_value, din. rewrite !Hdata, Hv.
  destruct (e_subject_token_verified e); [done|]. cbn [negb andb String.eqb].
  rewrite <- Hdata, Hl. done.
Qed.

(** Reading depends on the object's fields only, not on their order. *)
Lemma audit_event_from_fields : event_times_ok e → _audit_event_from_json data = Ok e.
Proof.
  intros (Hc & Hf & Hl).
  pose proof (to_dict_fields e) as
    (H1&H2&H3&H4&H5&H6&H7&H8&H9&H10&H11&H12&H13&H14&H15&H16).
  pose proof (to_dict_optional_fields e) as (O1&O2&O3&O4&O5&_&O6&O7).
  rewrite <- Hdata in * |-.
  unfold _audit_event_from_json.
  rewrite (str_item_Some _ _ _ H1), (str_item_Some _ _ _ H2), (str_item_Some _ _ _ H3),
    (str_item_Some _ _ _ H4), (str_item_Some _ _ _ H5), (str_item_Some _ _ _ H6),
    (str_item_Some _ _ _ H7), (str_item_Some _ _ _ H8), (str_item_Some _ _ _ H9),
    (str_item_Some _ _ _ H10), (str_item_Some _ _ _ H11), (opt_item_Some _ _ _ H12),
    (opt_item_Some _ _ _ H13), (opt_item_Some _ _ _ H14), (opt_item_Some _ _ _ H15),
    (str_item_Some _ _ _ H16), (get_opt_eq _ _ _ O1), (get_opt_eq _ _ _ O2),
    (get_opt_time _ _ _ O4 Hf), (get_opt_time _ _ _ O5 Hl), (get_opt_eq _ _ _ O6).
  rewrite O3, O7, subject_token_verified_read. unfold mbind, result_bind.
  rewrite decision_of_str_spec, fromisoformat_isoformat by done.
  destruct e as [? ? ? ? ? ? ? ? ? ? ? ? ? ? ? ? ? ? occ ? ? ? ? cls]; cbn.
  destruct occ; cbn; destruct (String.eqb_spec cls "decision") as [->|]; reflexivity.
Qed.
End lookups.

(** Reading a stored event gives back the event that was written: every
    field, the optional ones and the three timestamps included. *)
Theorem audit_event_json_round_trip e :
  event_times_ok e → _audit_event_from_json (to_dict e) = Ok e.
Proof. by apply audit_event_from_fields. Qed.

Definition sample_event : AuditEvent :=
  {| e_event_id := "evt_1"; e_event_type := "auth_failed"; e_decision := deny;
     e_reason := "auth_failed"; e_workspace_id := ""; e_agent_id := ""; e_grant_id := "";
     e_grant_ref := ""; e_action := ""; e_resource := ""; e_scope_attempted := ":";
     e_scope_matched := None; e_boundary_id := Some "bnd_1"; e_runtime := None;
     e_boundary_type := None; e_created_at := 1782043200000001;
     e_enforcing_principal := Some "default"; e_reason_code := Some "auth_failed";
     e_occurrence_count := Some 3; e_first_seen_at := Some 1782043200000000;
     e_last_seen_at := Some 1782043201000000; e_subject_token_verified := true;
     e_token_id := None; e_event_class := "control" |}.

Lemma audit_event_json_round_trip_witness :
  _audit_event_from_json (to_dict sample_event) = Ok sample_event.
Proof.
  apply audit_event_json_round_trip.
  unfold event_times_ok, time_ok, DATETIME_MIN, DATETIME_MAX.
  split_and!; try (intros t E; injection E as <-); cbn; lia.
Defined.
