(* ===== verification/Sha256.v ===== *)
(** * SHA-256, HMAC and base64url

    The parts of Python's [hashlib], [hmac] and [base64] the source calls, on
    byte strings (a Python [str] is its UTF-8 bytes here). *)
From S2P Require Import Prelude PyStr.

Definition mask32 (x : Z) : Z := Z.land x 4294967295.
Definition add32 (x y : Z) : Z := mask32 (x + y).
Definition rotr (x n : Z) : Z := Z.lor (Z.shiftr x n) (mask32 (Z.shiftl x (32 - n))).
Definition big_sigma0 (x : Z) : Z := Z.lxor (rotr x 2) (Z.lxor (rotr x 13) (rotr x 22)).
Definition big_sigma1 (x : Z) : Z := Z.lxor (rotr x 6) (Z.lxor (rotr x 11) (rotr x 25)).
Definition small_sigma0 (x : Z) : Z := Z.lxor (rotr x 7) (Z.lxor (rotr x 18) (Z.shiftr x 3)).
Definition small_sigma1 (x : Z) : Z := Z.lxor (rotr x 17) (Z.lxor (rotr x 19) (Z.shiftr x 10)).
Definition choose (x y z : Z) : Z := Z.lxor (Z.land x y) (Z.land (Z.lxor x 4294967295) z).
Definition majority (x y z : Z) : Z :=
  Z.lxor (Z.land x y) (Z.lxor (Z.land x z) (Z.land y z)).

Definition round_constants : list Z :=
  [
    1116352408; 1899447441; 3049323471; 3921009573; 961987163; 1508970993; 2453635748;
    2870763221; 3624381080; 310598401; 607225278; 1426881987; 1925078388; 2162078206;
    2614888103; 3248222580; 3835390401; 4022224774; 264347078; 604807628; 770255983;
    1249150122; 1555081692; 1996064986; 2554220882; 2821834349; 2952996808; 3210313671;
    3336571891; 3584528711; 113926993; 338241895; 666307205; 773529912; 1294757372;
    1396182291; 1695183700; 1986661051; 2177026350; 2456956037; 2730485921; 2820302411;
    3259730800; 3345764771; 3516065817; 3600352804; 4094571909; 275423344; 430227734;
    506948616; 659060556; 883997877; 958139571; 1322822218; 1537002063; 1747873779;
    1955562222; 2024104815; 2227730452; 2361852424; 2428436474; 2756734187; 3204031479;
    3329325298].

Record digest_state := mkDigest { da : Z; db : Z; dc : Z; dd : Z; de : Z; df : Z; dg : Z; dh : Z }.
Definition initial_digest : digest_state :=
  mkDigest 1779033703 3144134277 1013904242 2773480762 1359893119 2600822924 528734635 1541459225.

(** The 64 rounds of one block; [window] holds the next 16 schedule words. *)
Fixpoint rounds (ks window : list Z) (s : digest_state) : digest_state :=
  match ks with
  | [] => s
  | k :: ks' =>
      let w := nth 0 window 0 in
      let t1 := add32 (dh s + big_sigma1 (de s)) (choose (de s) (df s) (dg s) + k + w) in
      let t2 := big_sigma0 (da s) + majority (da s) (db s) (dc s) in
      let w' := add32 (small_sigma1 (nth 14 window 0) + nth 9 window 0)
                      (small_sigma0 (nth 1 window 0) + w) in
      rounds ks' (tl window ++ [w'])
        (mkDigest (add32 t1 t2) (da s) (db s) (dc s) (add32 (dd s) t1) (de s) (df s) (dg s))
  end.
Definition compress (s : digest_state) (block : list Z) : digest_state :=
  let r := rounds round_constants block s in
  mkDigest (add32 (da s) (da r)) (add32 (db s) (db r)) (add32 (dc s) (dc r))
    (add32 (dd s) (dd r)) (add32 (de s) (de r)) (add32 (df s) (df r))
    (add32 (dg s) (dg r)) (add32 (dh s) (dh r)).

(** ** Bytes *)
Definition byte_of (c : ascii) : Z := Z.of_N (N_of_ascii c).
Definition char_of (b : Z) : ascii := ascii_of_N (Z.to_N b).
Fixpoint bytes_of (s : string) : list Z :=
  match s with EmptyString => [] | String c s' => byte_of c :: bytes_of s' end.
Fixpoint string_of (l : list Z) : string :=
  match l with [] => "" | b :: l' => String (char_of b) (string_of l') end.

(** The [w] big-endian bytes of a number ([int.to_bytes] below [256^w]). *)
Fixpoint be_bytes (w : nat) (n : Z) : list Z :=
  match w with O => [] | S w' => be_bytes w' (n / 256) ++ [n mod 256] end.

Fixpoint words_of (l : list Z) : list Z :=
  match l with
  | a :: b :: c :: d :: l' => (((a * 256 + b) * 256 + c) * 256 + d) :: words_of l'
  | _ => []
  end.
Fixpoint compress_all (n : nat) (s : digest_state) (words : list Z) : digest_state :=
  match n with
  | O => s
  | S n' => compress_all n' (compress s (take 16 words)) (drop 16 words)
  end.

Definition sha256 (msg : string) : list Z :=
  let bytes := bytes_of msg in
  let len := Z.of_nat (length bytes) in
  let zeros := Z.to_nat ((55 - len) mod 64) in
  let padded := bytes ++ [128] ++ repeat 0 zeros ++ be_bytes 8 (len * 8) in
  let s := compress_all (Nat.div (length padded) 64) initial_digest (words_of padded) in
  be_bytes 4 (da s) ++ be_bytes 4 (db s) ++ be_bytes 4 (dc s) ++ be_bytes 4 (dd s)
  ++ be_bytes 4 (de s) ++ be_bytes 4 (df s) ++ be_bytes 4 (dg s) ++ be_bytes 4 (dh s).

Definition hex_char (n : Z) : ascii := char_of (if n <? 10 then 48 + n else 87 + n).
Fixpoint hex (l : list Z) : string :=
  match l with
  | [] => ""
  | b :: l' => String (hex_char (b / 16)) (String (hex_char (b mod 16)) (hex l'))
  end.
(** [hashlib.sha256(data).hexdigest()] *)
Definition sha256_hex (data : string) : string := hex (sha256 data).

(** [hmac.new(key, msg, hashlib.sha256).digest()] *)
Definition hmac_sha256 (key msg : string) : list Z :=
  let k := if 64 <? Z.of_nat (String.length key) then sha256 key else bytes_of key in
  let k := k ++ repeat 0 (64 - length k) in
  let inner := sha256 (string_of (map (Z.lxor 54) k) ^+ msg) in
  sha256 (string_of (map (Z.lxor 92) k ++ inner)).

Definition base64url_char (n : Z) : ascii :=
  char_of (if n <? 26 then 65 + n else if n <? 52 then 71 + n else if n <? 62 then n - 4
           else if n =? 62 then 45 else 95).
(** [base64.urlsafe_b64encode(data).rstrip(b"=")] *)
Fixpoint base64url (l : list Z) : string :=
  match l with
  | a :: b :: c :: l' =>
      String (base64url_char (a / 4)) (String (base64url_char (a mod 4 * 16 + b / 16))
        (String (base64url_char (b mod 16 * 4 + c / 64))
          (String (base64url_char (c mod 64)) (base64url l'))))
  | [a; b] =>
      String (base64url_char (a / 4)) (String (base64url_char (a mod 4 * 16 + b / 16))
        (String (base64url_char (b mod 16 * 4)) ""))
  | [a] => String (base64url_char (a / 4)) (String (base64url_char (a mod 4 * 16)) "")
  | [] => ""
  end.

Lemma length_be_bytes w n : length (be_bytes w n) = w.
Proof.
  revert n. induction w as [|w IH]; intros n; simpl; [done|].
  rewrite length_app, IH. simpl. lia.
Qed.

Example sha256_abc : sha256_hex "abc" = "ba7816bf8f01cfea414140de5dae2223b00361a396177a9cb410ff61f20015ad".
Proof. vm_compute. reflexivity. Qed.
Example sha256_two_blocks : sha256_hex "The quick brown fox jumps over the lazy dog, twice: the quick brown fox jumps over the lazy dog."
  = "87f8e63fb18f2cdf168ba05e0aa491a63e00aca362c9b2cf85e5d8ff405bec63".
Proof. vm_compute. reflexivity. Qed.
Example hmac_example : base64url (hmac_sha256 "key" "The quick brown fox jumps over the lazy dog, twice: the quick brown fox jumps over the lazy dog.")
  = "K0zIMD2oFcUThCOmuGtFgU6ni2kVFaDqoRxFTMGvbBE".
Proof. vm_compute. reflexivity. Qed.
