(* ===== verification/Pop.v ===== *)
(** * Proof of possession ([src/vinctor_service/pop.py])

    The canonical bytes a proof signs, its MAC, the per-process replay cache and
    the verification of a presented proof.  The cache's lock makes
    [check_and_record] one atomic step.  [int_unicode] is what Python's [int]
    gives on a string with non-ASCII characters, left open. *)
From S2P Require Import Prelude PyStr PyDict PyTime Sha256.

(** ** [int(text)] *)

Definition ascii_space (c : ascii) : bool :=
  let n := N_of_ascii c in ((9 <=? n) && (n <=? 13) || (n =? 32))%N.
Fixpoint lstrip_ascii (s : string) : string :=
  match s with
  | EmptyString => ""
  | String c s' => if ascii_space c then lstrip_ascii s' else s
  end.
Fixpoint rstrip_ascii (s : string) : string :=
  match s with
  | EmptyString => ""
  | String c s' =>
      match rstrip_ascii s' with
      | EmptyString => if ascii_space c then "" else String c ""
      | t => String c t
      end
  end.
Definition is_digit (c : ascii) : bool := char_between "0" "9" c.
(** Digits, with single underscores between them; [n] counts the digits. *)
Fixpoint int_digits (after_digit : bool) (acc n : Z) (s : string) : option (Z * Z) :=
  match s with
  | EmptyString => if after_digit then Some (acc, n) else None
  | String c s' =>
      if is_digit c then int_digits true (acc * 10 + (byte_of c - 48)) (n + 1) s'
      else if after_digit && Ascii.eqb c "_" then int_digits false acc n s'
      else None
  end.
(** More than 4300 digits are refused, as [sys.set_int_max_str_digits] has it. *)
Definition int_unsigned (s : string) : option Z :=
  '(v, n) ← int_digits false 0 0 s; if n <=? 4300 then Some v else None.
Definition int_ascii (s : string) : result Z :=
  let s := rstrip_ascii (lstrip_ascii s) in
  let r := match s with
           | String c s' =>
               if Ascii.eqb c "-" then Z.opp <$> int_unsigned s'
               else if Ascii.eqb c "+" then int_unsigned s'
               else int_unsigned s
           | EmptyString => None
           end in
  match r with
  | Some v => Ok v
  | None => Raise (ValueError "invalid literal for int()")
  end.
Definition py_int (int_unicode : string → result Z) (s : string) : result Z :=
  if isascii s then int_ascii s else int_unicode s.

(** ** Canonical form and MAC *)

(** [len(b).to_bytes(4, "big") + b] *)
Definition length_prefixed (b : string) : result string :=
  let n := Z.of_nat (String.length b) in
  if n <? 4294967296 then Ok (string_of (be_bytes 4 n) ^+ b)
  else Raise (OverflowError "int too big to convert").
Fixpoint canonical_parts (parts : list string) : result string :=
  match parts with
  | [] => Ok ""
  | p :: parts' => b ← length_prefixed p; out ← canonical_parts parts'; Ok (b ^+ out)
  end.
Definition pop_canonical (action resource : string) (ts : Z) (nonce token_id : string) :
    result string :=
  canonical_parts [action; resource; pretty ts; nonce; token_id].

Definition pop_mac (pop_secret canonical : string) : string :=
  base64url (hmac_sha256 pop_secret canonical).

(** ** The replay cache *)

Record PopReplayCache := mkPopReplayCache {
  pc_seen : dict (string * string) Z;
  pc_max : Z;
  pc_max_per_token : Z
}.

Definition count_token (token_id : string) (seen : dict (string * string) Z) : Z :=
  Z.of_nat (length (List.filter (λ kv, kv.1.1 == token_id) seen)).

Definition check_and_record (token_id nonce : string) (ts now_unix skew : Z) :
    M PopReplayCache bool := λ c,
  let cutoff := now_unix - skew in
  let seen := dpurge (λ _ t, t <? cutoff) (pc_seen c) in
  let purged := mkPopReplayCache seen (pc_max c) (pc_max_per_token c) in
  let key := (token_id, nonce) in
  if din key seen then (Ok false, purged)
  else if pc_max_per_token c <=? count_token token_id seen then (Ok false, purged)
  else if pc_max c <=? Z.of_nat (length seen) then (Ok false, purged)
  else (Ok true, mkPopReplayCache (dset key ts seen) (pc_max c) (pc_max_per_token c)).

(** ** Verification *)
Definition verify_pop (int_unicode : string → result Z) (proof : option string)
    (pop_secret token_id action resource : string) (now skew : Z) : M PopReplayCache bool :=
  match proof with
  | None => mret false
  | Some proof =>
      if is_blank proof then mret false
      else match split "." proof with
           | [ts_raw; nonce; mac] =>
               match py_int int_unicode ts_raw with
               | Raise (ValueError _) => mret false
               | Raise e => raise e
               | Ok ts =>
                   if (nonce == "") || (mac == "") then mret false
                   else if negb (isascii mac) then mret false
                   else
                     let now_unix := int_timestamp now in
                     if skew <? Z.abs (now_unix - ts) then mret false
                     else
                       canonical ← lift (pop_canonical action resource ts nonce token_id);
                       if negb (pop_mac pop_secret canonical == mac) then mret false
                       else check_and_record token_id nonce ts now_unix skew
               end
           | _ => mret false
           end
  end.

(** ** The canonical form is injective *)

Fixpoint from_be (l : list Z) : Z :=
  match l with [] => 0 | b :: l' => b * 256 ^ Z.of_nat (length l') + from_be l' end.

Lemma from_be_snoc l b : from_be (l ++ [b]) = from_be l * 256 + b.
Proof.
  induction l as [|a l IH]; simpl; [lia|].
  rewrite IH, length_app. simpl. rewrite Nat2Z.inj_add, Z.pow_add_r by lia. lia.
Qed.
Lemma be_bytes_from_be w n : 0 ≤ n < 256 ^ Z.of_nat w → from_be (be_bytes w n) = n.
Proof.
  revert n. induction w as [|w IH]; intros n H; [simpl in *; lia|].
  rewrite Nat2Z.inj_succ, Z.pow_succ_r in H by lia. simpl.
  rewrite from_be_snoc, IH by (Z.to_euclidean_division_equations; nia).
  Z.to_euclidean_division_equations; lia.
Qed.
Lemma be_bytes_range w n : Forall (λ b, 0 ≤ b < 256) (be_bytes w n).
Proof.
  revert n. induction w as [|w IH]; intros n; simpl; [constructor|].
  apply Forall_app. split; [done|]. constructor; [apply Z.mod_pos_bound; lia|constructor].
Qed.
Lemma bytes_string_of l : Forall (λ b, 0 ≤ b < 256) l → bytes_of (string_of l) = l.
Proof.
  induction 1 as [|b l Hb _ IH]; simpl; [done|].
  unfold byte_of, char_of. rewrite IH, N_ascii_embedding by lia. f_equal. lia.
Qed.
Lemma length_string_of l : String.length (string_of l) = length l.
Proof. induction l; simpl; auto. Qed.

Lemma app_len_inj a b c d :
  a ^+ b = c ^+ d → String.length a = String.length c → a = c ∧ b = d.
Proof.
  revert c. induction a as [|x a IH]; intros [|y c] H Hl; simpl in *; try lia; [done|].
  injection H as -> H. destruct (IH c H ltac:(lia)) as [-> ->]. done.
Qed.

Lemma length_prefixed_inj b b' o r r' :
  length_prefixed b = Ok o → ∀ o', length_prefixed b' = Ok o' →
  o ^+ r = o' ^+ r' → b = b' ∧ r = r'.
Proof.
  unfold length_prefixed. intros H o' H' E.
  destruct (Z.ltb_spec (Z.of_nat (String.length b)) 4294967296) as [Hb|]; [|done].
  destruct (Z.ltb_spec (Z.of_nat (String.length b')) 4294967296) as [Hb'|]; [|done].
  apply (inj Ok) in H, H'. subst o o'. rewrite !app_assoc_str in E.
  apply app_len_inj in E as [Hpre E]; [|by rewrite !length_string_of, !length_be_bytes].
  apply (f_equal bytes_of) in Hpre.
  rewrite !bytes_string_of in Hpre by apply be_bytes_range.
  apply (f_equal from_be) in Hpre. rewrite !be_bytes_from_be in Hpre by (simpl; lia).
  apply app_len_inj in E as [-> ->]; [done|lia].
Qed.

Lemma length_prefixed_not_nil b o : length_prefixed b = Ok o → o ≠ "".
Proof.
  unfold length_prefixed. destruct (_ <? _); [|done]. intros Ho H.
  apply (inj Ok) in Ho. subst o. apply app_eq_empty in H as [H _]. apply (f_equal String.length) in H.
  rewrite length_string_of, length_be_bytes in H. done.
Qed.

Lemma canonical_parts_cons p l o :
  canonical_parts (p :: l) = Ok o ↔
  ∃ b r, length_prefixed p = Ok b ∧ canonical_parts l = Ok r ∧ o = b ^+ r.
Proof.
  simpl. unfold mbind, result_bind.
  destruct (length_prefixed p); [destruct (canonical_parts l)|]; naive_solver.
Qed.

Lemma canonical_parts_inj l l' o :
  canonical_parts l = Ok o → canonical_parts l' = Ok o → l = l'.
Proof.
  revert l' o. induction l as [|p l IH]; intros [|p' l'] o H H'; [done| | |].
  - injection H as <-. apply canonical_parts_cons in H' as (b & r & Hb & _ & E).
    symmetry in E. apply app_eq_empty in E as [-> _]. by apply length_prefixed_not_nil in Hb.
  - injection H' as <-. apply canonical_parts_cons in H as (b & r & Hb & _ & E).
    symmetry in E. apply app_eq_empty in E as [-> _]. by apply length_prefixed_not_nil in Hb.
  - apply canonical_parts_cons in H as (b & r & Hb & Hr & ->).
    apply canonical_parts_cons in H' as (b' & r' & Hb' & Hr' & E).
    destruct (length_prefixed_inj _ _ _ _ _ Hb _ Hb' E) as [-> ->].
    f_equal. by eapply IH.
Qed.

(** The canonical bytes lock the field boundaries: two requests with the
    same canonical bytes agree on action, resource, timestamp, nonce and token,
    whatever bytes the fields hold. *)
Theorem pop_canonical_injective a r ts n t a' r' ts' n' t' c :
  pop_canonical a r ts n t = Ok c → pop_canonical a' r' ts' n' t' = Ok c →
  a = a' ∧ r = r' ∧ ts = ts' ∧ n = n' ∧ t = t'.
Proof.
  unfold pop_canonical. intros H H'. pose proof (canonical_parts_inj _ _ _ H H') as E.
  injection E as -> -> Ets -> ->. apply (inj pretty) in Ets. done.
Qed.
Lemma pop_canonical_injective_witness :
  pop_canonical "read" "a/b" (-3) "n.1" "vtk_1" =
    Ok (string_of [0; 0; 0; 4] ^+ "read" ^+ string_of [0; 0; 0; 3] ^+ "a/b"
        ^+ string_of [0; 0; 0; 2] ^+ "-3" ^+ string_of [0; 0; 0; 3] ^+ "n.1"
        ^+ string_of [0; 0; 0; 5] ^+ "vtk_1") ∧ "vtk_1" = "vtk_1".
Proof.
  split; [vm_compute; reflexivity|].
  exact (proj2 (proj2 (proj2 (proj2 (pop_canonical_injective "read" "a/b" (-3) "n.1" "vtk_1"
    "read" "a/b" (-3) "n.1" "vtk_1" _ eq_refl eq_refl))))).
Defined.

(** ** What a MAC looks like *)

Lemma base64url_char_ascii n : 0 ≤ n < 64 → (N_of_ascii (base64url_char n) <? 128)%N = true.
Proof.
  intros H. unfold base64url_char, char_of.
  destruct (Z.ltb_spec n 26), (Z.ltb_spec n 52), (Z.ltb_spec n 62), (Z.eqb_spec n 62);
    rewrite N_ascii_embedding by lia; apply N.ltb_lt; lia.
Qed.
Lemma base64url_ascii_at k l :
  (length l < k)%nat → Forall (λ b, 0 ≤ b < 256) l → isascii (base64url l) = true.
Proof.
  revert l. induction k as [|k IH]; [lia|].
  intros [|a [|b [|c l]]] Hl Hr; [done|..]; decompose_Forall_hyps;
    unfold isascii; cbn [base64url all_chars];
    rewrite ?base64url_char_ascii by (Z.to_euclidean_division_equations; lia); try done.
  apply IH; [simpl in Hl; lia|done].
Qed.
Lemma sha256_range m : Forall (λ b, 0 ≤ b < 256) (sha256 m).
Proof. unfold sha256. rewrite !Forall_app. split_and!; apply be_bytes_range. Qed.
Lemma sha256_length m : length (sha256 m) = 32%nat.
Proof. unfold sha256. by rewrite !length_app, !length_be_bytes. Qed.
Lemma pop_mac_ascii s c : isascii (pop_mac s c) = true.
Proof. eapply base64url_ascii_at; [apply Nat.lt_succ_diag_r|apply sha256_range]. Qed.
Lemma pop_mac_not_empty s c : pop_mac s c ≠ "".
Proof.
  assert (H : ∀ m, base64url (sha256 m) ≠ ""); [|apply H].
  intros m. pose proof (sha256_length m) as Hl. by destruct (sha256 m) as [|? [|? [|? ?]]].
Qed.

Lemma space_dot a b c :
  (space1 a = true → a ≠ "."%char) ∧ (space2 a b = true → a ≠ "."%char ∧ b ≠ "."%char) ∧
  (space3 a b c = true → a ≠ "."%char ∧ b ≠ "."%char ∧ c ≠ "."%char).
Proof.
  unfold space1, space2, space3. split_and!; intros H; split_and?; intros ->; revert H;
    change (N_of_ascii ".") with 46%N; cbn; rewrite ?andb_false_r; done.
Qed.
Lemma contains_dot_cons a s : a ≠ "."%char → contains "." (String a s) = contains "." s.
Proof. intros H. cbn [contains]. by rewrite (proj2 (Ascii.eqb_neq _ _) H). Qed.
Lemma blank_no_dot s : is_blank s = true → contains "." s = false.
Proof.
  remember (String.length s) as k eqn:Hk. revert s Hk.
  induction k as [k IH] using (well_founded_induction lt_wf). intros s -> H.
  assert (Hrec : ∀ t, (String.length t < String.length s)%nat → is_blank t = true →
    contains "." t = false) by (intros; by eapply IH).
  clear IH. destruct s as [|a s1]; [done|]. cbn [is_blank] in H.
  destruct (space1 a) eqn:E1.
  { rewrite contains_dot_cons by (destruct (space_dot a a a) as (?&?&?); naive_solver). apply Hrec; [simpl; lia|done]. }
  destruct s1 as [|b s2]; [done|]. destruct (space2 a b) eqn:E2.
  { rewrite !contains_dot_cons by (destruct (space_dot a b b) as (?&?&?); naive_solver). apply Hrec; [simpl; lia|done]. }
  destruct s2 as [|c s3]; [done|]. apply andb_true_iff in H as [E3 H].
  rewrite !contains_dot_cons by (destruct (space_dot a b c) as (?&?&?); naive_solver). apply Hrec; [simpl; lia|done].
Qed.

(** ** Acceptance *)

(** The cache as it is once the entries older than the window are dropped. *)
Definition live_entries (c : PopReplayCache) (now_unix skew : Z) : dict (string * string) Z :=
  dpurge (λ _ t, t <? now_unix - skew) (pc_seen c).
(** The cache has room for the nonce of a token, and has not seen it. *)
Definition admits (c : PopReplayCache) (token_id nonce : string) (now_unix skew : Z) : Prop :=
  dget (token_id, nonce) (live_entries c now_unix skew) = None ∧
  count_token token_id (live_entries c now_unix skew) < pc_max_per_token c ∧
  Z.of_nat (length (live_entries c now_unix skew)) < pc_max c.
Definition recorded (c : PopReplayCache) (token_id nonce : string) (ts now_unix skew : Z) :
    PopReplayCache :=
  mkPopReplayCache (dset (token_id, nonce) ts (live_entries c now_unix skew))
    (pc_max c) (pc_max_per_token c).

Lemma check_and_record_true token_id nonce ts now_unix skew c c' :
  check_and_record token_id nonce ts now_unix skew c = (Ok true, c') ↔
  admits c token_id nonce now_unix skew ∧ c' = recorded c token_id nonce ts now_unix skew.
Proof.
  unfold check_and_record, admits, recorded. fold (live_entries c now_unix skew).
  destruct (din _ _) eqn:Ed.
  { apply din_true in Ed as [? Ed]. split; [done|]. intros ((? & _) & _). congruence. }
  apply din_false in Ed.
  destruct (Z.leb_spec (pc_max_per_token c) (count_token token_id (live_entries c now_unix skew))).
  { split; [done|]. intros ((_ & ? & _) & _). lia. }
  destruct (Z.leb_spec (pc_max c) (Z.of_nat (length (live_entries c now_unix skew)))).
  { split; [done|]. intros ((_ & _ & ?) & _). lia. }
  split; [intros [= <-]; repeat split; done|by intros (_ & ->)].
Qed.

(** Any other outcome only drops expired entries. *)
Lemma check_and_record_run token_id nonce ts now_unix skew c :
  check_and_record token_id nonce ts now_unix skew c =
    (Ok true, recorded c token_id nonce ts now_unix skew) ∧
      admits c token_id nonce now_unix skew ∨
  check_and_record token_id nonce ts now_unix skew c =
    (Ok false, mkPopReplayCache (live_entries c now_unix skew) (pc_max c) (pc_max_per_token c)).
Proof.
  destruct (check_and_record token_id nonce ts now_unix skew c) as [[[]|e] c'] eqn:E.
  - apply check_and_record_true in E as [? ->]. by left.
  - right. revert E. unfold check_and_record, live_entries.
    repeat case_match; congruence.
  - revert E. unfold check_and_record. repeat case_match; congruence.
Qed.

Section verification.
Context (int_unicode : string → result Z).

Lemma verify_pop_iff proof pop_secret token_id action resource now skew c c' :
  verify_pop int_unicode proof pop_secret token_id action resource now skew c = (Ok true, c') ↔
  ∃ p ts_raw nonce ts canonical,
    proof = Some p ∧ split "." p = [ts_raw; nonce; pop_mac pop_secret canonical] ∧
    py_int int_unicode ts_raw = Ok ts ∧ nonce ≠ "" ∧
    Z.abs (int_timestamp now - ts) ≤ skew ∧
    pop_canonical action resource ts nonce token_id = Ok canonical ∧
    admits c token_id nonce (int_timestamp now) skew ∧
    c' = recorded c token_id nonce ts (int_timestamp now) skew.
Proof.
  split.
  - unfold verify_pop. destruct proof as [p|]; [|done].
    destruct (is_blank p) eqn:Hb; [done|].
    destruct (split "." p) as [|ts_raw [|nonce [|mac [|? ?]]]] eqn:Hs; try done.
    destruct (py_int int_unicode ts_raw) as [ts|e] eqn:Hts; [|by destruct e].
    destruct ((nonce == "") || (mac == "")) eqn:Hne; [done|].
    destruct (negb (isascii mac)); [done|]. cbv zeta.
    destruct (Z.ltb_spec skew (Z.abs (int_timestamp now - ts))) as [|Hsk]; [done|].
    intros H. apply bind_Ok_inv in H as (canonical & c1 & Hc & H).
    unfold lift in Hc. injection Hc as Hc <-.
    destruct (pop_mac pop_secret canonical == mac) eqn:Hm; [|done]. cbn [negb] in H.
    apply String.eqb_eq in Hm as <-. apply check_and_record_true in H as [? ->].
    bool_prop. eauto 15.
  - intros (p & ts_raw & nonce & ts & canonical & -> & Hs & Hts & Hne & Hskew & Hc & Had & ->).
    unfold verify_pop.
    assert (Hb : is_blank p = false).
    { destruct (is_blank p) eqn:E; [|done]. apply blank_no_dot in E.
      rewrite split_no_sep in Hs by done. done. }
    rewrite Hb, Hs, Hts, pop_mac_ascii. cbv zeta.
    rewrite (proj2 (String.eqb_neq nonce "") Hne),
      (proj2 (String.eqb_neq (pop_mac pop_secret canonical) "") (pop_mac_not_empty pop_secret canonical)).
    cbn [orb negb]. rewrite (proj2 (Z.ltb_ge _ _)) by done.
    rewrite (bind_run _ _ c canonical c) by (unfold lift; by rewrite Hc).
    rewrite eqb_refl. cbn [negb]. by apply check_and_record_true.
Qed.

(** A proof is accepted exactly when it is three dot-separated parts [ts],
    [nonce], [mac] with a non-empty nonce, [ts] within the clock skew, the MAC
    of this very (action, resource, ts, nonce, token) under the token's secret,
    and a nonce that the replay cache has room for and has not seen; the nonce
    is then recorded. *)
Theorem verify_pop_accepts_iff proof pop_secret token_id action resource now skew c c' :
  verify_pop int_unicode proof pop_secret token_id action resource now skew c = (Ok true, c') ↔
  ∃ p ts_raw nonce ts canonical,
    proof = Some p ∧ split "." p = [ts_raw; nonce; pop_mac pop_secret canonical] ∧
    py_int int_unicode ts_raw = Ok ts ∧ nonce ≠ "" ∧
    Z.abs (int_timestamp now - ts) ≤ skew ∧
    pop_canonical action resource ts nonce token_id = Ok canonical ∧
    admits c token_id nonce (int_timestamp now) skew ∧
    c' = recorded c token_id nonce ts (int_timestamp now) skew.
Proof. apply verify_pop_iff. Qed.

(** One call of [verify_pop] on the shared cache; the lock serialises calls. *)
Record PopCall := mkPopCall {
  call_proof : option string;
  call_secret : string;
  call_token_id : string;
  call_action : string;
  call_resource : string;
  call_now : Z;
  call_skew : Z
}.
Definition run_call (x : PopCall) : M PopReplayCache bool :=
  verify_pop int_unicode (call_proof x) (call_secret x) (call_token_id x) (call_action x)
    (call_resource x) (call_now x) (call_skew x).
Definition after_calls (xs : list PopCall) (c : PopReplayCache) : PopReplayCache :=
  foldl (λ c x, (run_call x c).2) c xs.
Definition call_cutoff (x : PopCall) : Z := int_timestamp (call_now x) - call_skew x.

(** A call leaves the cache alone, drops expired entries, or records a nonce. *)
Lemma run_call_state x c :
  (run_call x c).2 = c ∨
  (run_call x c).2 = mkPopReplayCache
    (live_entries c (int_timestamp (call_now x)) (call_skew x)) (pc_max c) (pc_max_per_token c) ∨
  ∃ nonce ts, admits c (call_token_id x) nonce (int_timestamp (call_now x)) (call_skew x) ∧
    (run_call x c).2 =
      recorded c (call_token_id x) nonce ts (int_timestamp (call_now x)) (call_skew x).
Proof.
  unfold run_call, verify_pop. destruct (call_proof x) as [p|]; [|by left].
  destruct (is_blank p); [by left|].
  destruct (split "." p) as [|ts_raw [|nonce [|mac [|? ?]]]]; try by left.
  destruct (py_int int_unicode ts_raw) as [ts|e]; [|by destruct e; left].
  destruct ((nonce == "") || (mac == "")); [by left|].
  destruct (negb (isascii mac)); [by left|]. cbv zeta.
  destruct (call_skew x <? _); [by left|].
  destruct (pop_canonical _ _ _ _ _) as [canonical|e]; [|by left].
  rewrite (bind_run _ _ c canonical c) by done.
  destruct (negb _); [by left|].
  destruct (check_and_record_run (call_token_id x) nonce ts (int_timestamp (call_now x))
    (call_skew x) c) as [[-> ?]| ->]; cbn [snd]; [right; right; eauto|by right; left].
Qed.

(** *** The cache stays within its caps *)
Definition cache_ok (c : PopReplayCache) : Prop :=
  dict_wf (pc_seen c) ∧ Z.of_nat (length (pc_seen c)) ≤ Z.max 0 (pc_max c) ∧
  ∀ token_id, count_token token_id (pc_seen c) ≤ Z.max 0 (pc_max_per_token c).

Lemma count_token_sublist t d d' : d `sublist_of` d' → count_token t d ≤ count_token t d'.
Proof.
  unfold count_token. induction 1 as [|kv d d' _ IH|kv d d' _ IH]; simpl; [lia|..];
    destruct (kv.1.1 == t); simpl; lia.
Qed.
Lemma live_entries_ok c now skew :
  cache_ok c →
  cache_ok (mkPopReplayCache (live_entries c now skew) (pc_max c) (pc_max_per_token c)).
Proof.
  intros (Hwf & Hlen & Hcount).
  assert (Hsub : live_entries c now skew `sublist_of` pc_seen c) by apply dpurge_sublist.
  split_and!; simpl; [by apply dpurge_wf| |].
  - apply sublist_length in Hsub. lia.
  - intros t. pose proof (count_token_sublist t _ _ Hsub). specialize (Hcount t). lia.
Qed.
Lemma recorded_ok c token_id nonce ts now skew :
  cache_ok c → admits c token_id nonce now skew →
  cache_ok (recorded c token_id nonce ts now skew).
Proof.
  intros Hok (Hnew & Htok & Hmax). apply (live_entries_ok c now skew) in Hok as (Hwf & Hlen & Hcount).
  simpl in *. split_and!; simpl.
  - by apply dset_wf.
  - rewrite dset_fresh, length_app by done. simpl. lia.
  - intros t. rewrite dset_fresh by done. unfold count_token in *.
    rewrite List.filter_app, length_app. simpl.
    destruct (String.eqb_spec token_id t) as [<-|]; simpl; [lia|]. specialize (Hcount t). lia.
Qed.
Lemma run_call_ok x c : cache_ok c → cache_ok (run_call x c).2.
Proof.
  intros H. destruct (run_call_state x c) as [->|[->|(nonce & ts & Had & ->)]];
    [done|by apply live_entries_ok|by apply recorded_ok].
Qed.

(** Whatever calls are made, the cache never holds more nonces than its
    cap, nor more of one token than the per-token cap: a flood on one token
    cannot exhaust the room of the others beyond its own share. *)
Theorem pop_cache_bounded xs max_entries max_per_token :
  let c := after_calls xs (mkPopReplayCache [] max_entries max_per_token) in
  dict_wf (pc_seen c) ∧ Z.of_nat (length (pc_seen c)) ≤ Z.max 0 max_entries ∧
  ∀ token_id, count_token token_id (pc_seen c) ≤ Z.max 0 max_per_token.
Proof.
  assert (H : ∀ c, cache_ok c → cache_ok (after_calls xs c)).
  { induction xs as [|x xs IH]; intros c Hc; [done|]. simpl. by apply IH, run_call_ok. }
  assert (Hcaps : ∀ c, pc_max (after_calls xs c) = pc_max c ∧
    pc_max_per_token (after_calls xs c) = pc_max_per_token c).
  { clear H. induction xs as [|x xs IH]; intros c; [done|]. simpl.
    destruct (IH (run_call x c).2) as [-> ->].
    by destruct (run_call_state x c) as [->|[->|(? & ? & ? & ->)]]. }
  cbv zeta. specialize (H (mkPopReplayCache [] max_entries max_per_token)).
  destruct (Hcaps (mkPopReplayCache [] max_entries max_per_token)) as [E1 E2].
  unfold cache_ok in H. rewrite E1, E2 in H. simpl in H. apply H.
  split_and!; [constructor|lia|intros; unfold count_token; simpl; lia].
Qed.

(** *** No replay *)
Lemma cons3_inj {A} (a b c a' b' c' : A) : [a; b; c] = [a'; b'; c'] → a = a' ∧ b = b'.
Proof. by intros [= -> ->]. Qed.

(** A recorded nonce is still known, or its timestamp is before the cutoff. *)
Definition remembers (key : string * string) (ts cutoff : Z) (c : PopReplayCache) : Prop :=
  dict_wf (pc_seen c) ∧ (dget key (pc_seen c) = Some ts ∨ ts < cutoff).

Lemma live_entries_remember key ts now skew cutoff c :
  now - skew ≤ cutoff → remembers key ts cutoff c →
  dict_wf (live_entries c now skew) ∧
  (dget key (live_entries c now skew) = Some ts ∨ ts < cutoff).
Proof.
  intros Hle [Hwf Hk]. split; [by apply dpurge_wf|].
  destruct Hk as [Hk|]; [|by right]. unfold live_entries.
  rewrite dget_dpurge, Hk by done. destruct (Z.ltb_spec ts (now - skew)); [right; lia|by left].
Qed.
Lemma run_call_remembers key ts cutoff x c :
  call_cutoff x ≤ cutoff → remembers key ts cutoff c → remembers key ts cutoff (run_call x c).2.
Proof.
  unfold call_cutoff. intros Hle H.
  destruct (live_entries_remember _ _ _ _ _ _ Hle H) as [Hwf Hlive].
  destruct (run_call_state x c) as [->|[->|(nonce & t & (Hnew & _) & ->)]]; [done|done|].
  split; simpl; [by apply dset_wf|]. destruct Hlive as [Hk|]; [|by right].
  left. rewrite dget_dset. case_decide; [congruence|done].
Qed.
Lemma after_calls_remember key ts cutoff xs c :
  Forall (λ x, call_cutoff x ≤ cutoff) xs → remembers key ts cutoff c →
  remembers key ts cutoff (after_calls xs c).
Proof.
  intros Hxs. revert c. induction Hxs as [|x xs Hx _ IH]; intros c H; [done|].
  simpl. by apply IH, run_call_remembers.
Qed.

(** C30: No replay: once a proof has been accepted, presenting it again for the
    same token is refused, whatever calls happen in between, as long as none of
    them runs on a later expiry cutoff than the second presentation (one clock
    and one skew).  Raising the second call's clock never helps either: the
    proof is then stale. *)
Theorem pop_no_replay first second between c c1 :
  dict_wf (pc_seen c) →
  run_call first c = (Ok true, c1) →
  Forall (λ x, call_cutoff x ≤ call_cutoff second) between →
  call_proof second = call_proof first → call_token_id second = call_token_id first →
  (run_call second (after_calls between c1)).1 ≠ Ok true.
Proof.
  intros Hwf H1 Hbetween Hproof Htoken H2.
  destruct (run_call second (after_calls between c1)) as [r c2] eqn:E. simpl in H2. subst r.
  apply verify_pop_iff in H1 as (p & ts_raw & nonce & ts & can & Hp & Hs & Hts & _ & _ & _ & _ & ->).
  apply verify_pop_iff in E as
    (p' & ts_raw' & nonce' & ts' & can' & Hp' & Hs' & Hts' & _ & Hskew & _ & (Hnew & _) & _).
  rewrite Hproof, Hp in Hp'. injection Hp' as <-. rewrite Hs in Hs'.
  apply cons3_inj in Hs' as [<- <-].
  rewrite Hts in Hts'. injection Hts' as <-. rewrite Htoken in Hnew.
  destruct (after_calls_remember (call_token_id first, nonce) ts (call_cutoff second) between
    (recorded c (call_token_id first) nonce ts (int_timestamp (call_now first)) (call_skew first)))
    as [Hwf' Hk]; [done|split; simpl; [by apply dset_wf, dpurge_wf|left; apply dget_dset_eq]|].
  unfold call_cutoff in *. destruct Hk as [Hk|Hlt]; [|lia].
  unfold live_entries in Hnew. rewrite dget_dpurge, Hk in Hnew by done.
  destruct (Z.ltb_spec ts (int_timestamp (call_now second) - call_skew second)); [lia|done].
Qed.
End verification.

(** A client's proof, and two presentations of it three seconds apart. *)
Definition no_unicode_int (s : string) : result Z := Raise (ValueError "invalid literal for int()").
Definition sample_proof : string :=
  "1782043200.nonce-1." ^+
  match pop_canonical "read" "repo/docs" 1782043200 "nonce-1" "vtk_1" with
  | Ok canonical => pop_mac "secret" canonical
  | Raise _ => ""
  end.
Definition sample_call (now : Z) : PopCall :=
  mkPopCall (Some sample_proof) "secret" "vtk_1" "read" "repo/docs" now 30.
Definition empty_cache : PopReplayCache := mkPopReplayCache [] 100 10.

Definition recorded_cache : PopReplayCache :=
  mkPopReplayCache [(("vtk_1", "nonce-1"), 1782043200)] 100 10.

Lemma pop_no_replay_witness :
  run_call no_unicode_int (sample_call 1782043200000000) empty_cache = (Ok true, recorded_cache) ∧
  (run_call no_unicode_int (sample_call 1782043203000000)
    (after_calls no_unicode_int [] recorded_cache)).1 ≠ Ok true.
Proof.
  assert (H : run_call no_unicode_int (sample_call 1782043200000000) empty_cache
    = (Ok true, recorded_cache)) by (vm_compute; reflexivity).
  split; [exact H|].
  apply (pop_no_replay no_unicode_int (sample_call 1782043200000000)
    (sample_call 1782043203000000) [] empty_cache recorded_cache);
    [constructor|exact H|constructor|reflexivity|reflexivity].
Defined.
