(* ===== verification/Ratelimit.v ===== *)
(** * Rate limiting ([src/vinctor_service/ratelimit.py])

    The fixed-window limiter, and the choice of the source a request is counted
    against.  Times are numbers of one clock unit, the window's length in the
    same unit.  IP address parsing and network membership ([ipaddress]) are
    operations of the section: [ip_address text] is [None] where Python raises
    [ValueError]. *)
From S2P Require Import Prelude PyStr PyDict.

(** ** The source of a request *)

Definition MAX_X_FORWARDED_FOR_LENGTH : nat := 4096.

Section source.
Context {Address Network : Type}.
Context (ip_address : string → option Address) (str_address : Address → string)
  (member : Address → Network → bool) (strip : string → string)
  (ip_network : string → option Network) (len : string → nat).

Definition parse_trusted_proxy_cidrs (raw : option string) : result (list Network) :=
  match raw with
  | None => Ok []
  | Some raw =>
      if strip raw == "" then Ok []
      else
        let entries := map strip (split "," raw) in
        if existsb (String.eqb "") entries
        then Raise (ValueError "trusted proxy CIDRs must not contain empty entries")
        else match mapM ip_network entries with
             | Some networks => Ok networks
             | None => Raise (ValueError "not a network")
             end
  end.

Definition _is_trusted (address : Address) (networks : list Network) : bool :=
  existsb (member address) networks.

(** The walk over the hops, from the last to the first. *)
Fixpoint walk_hops (peer : string) (trusted_proxies : list Network) (hops : list string) : string :=
  match hops with
  | [] => peer
  | entry :: hops' =>
      match ip_address (strip entry) with
      | None => peer
      | Some candidate =>
          if negb (_is_trusted candidate trusted_proxies) then str_address candidate
          else walk_hops peer trusted_proxies hops'
      end
  end.

Definition resolve_rate_limit_source (peer : string) (forwarded_for : option string)
    (trusted_proxies : list Network) : result string :=
  match trusted_proxies with
  | [] => Ok peer
  | _ =>
      match ip_address peer with
      | None => Raise (ValueError "does not appear to be an IPv4 or IPv6 address")
      | Some peer_address =>
          if negb (_is_trusted peer_address trusted_proxies) then Ok peer
          else match forwarded_for with
               | None => Ok peer
               | Some forwarded_for =>
                   if (MAX_X_FORWARDED_FOR_LENGTH <? len forwarded_for)%nat then Ok peer
                   else Ok (walk_hops peer trusted_proxies (reverse (split "," forwarded_for)))
               end
      end
  end.

(** A hop of the header that parses and belongs to no trusted network, every
    hop after it being a trusted proxy. *)
Definition client_hop (trusted_proxies : list Network) (forwarded_for : string) (a : Address) :
    Prop :=
  ∃ before hop after, split "," forwarded_for = before ++ hop :: after ∧
    ip_address (strip hop) = Some a ∧ _is_trusted a trusted_proxies = false ∧
    Forall (λ h, ∃ b, ip_address (strip h) = Some b ∧ _is_trusted b trusted_proxies = true) after.

Lemma walk_hops_spec peer nets hops :
  walk_hops peer nets (reverse hops) = peer ∨
  ∃ before hop after a, hops = before ++ hop :: after ∧ ip_address (strip hop) = Some a ∧
    _is_trusted a nets = false ∧ walk_hops peer nets (reverse hops) = str_address a ∧
    Forall (λ h, ∃ b, ip_address (strip h) = Some b ∧ _is_trusted b nets = true) after.
Proof.
  induction hops as [|hop hops IH] using rev_ind; [by left|].
  rewrite reverse_snoc. simpl. destruct (ip_address (strip hop)) as [a|] eqn:E; [|by left].
  destruct (_is_trusted a nets) eqn:Ht; simpl.
  - destruct IH as [->|(before & h & after & b & -> & Hb & Hn & -> & Hafter)]; [by left|].
    right. exists before, h, (after ++ [hop]), b. rewrite <-app_assoc. split_and!; try done.
    apply Forall_app. split; [done|]. constructor; [by exists a|constructor].
  - right. by exists hops, hop, [], a.
Qed.

(** The source a request is counted against is its socket peer, unless that
    peer is a trusted proxy and the forwarding header has a client hop: then it
    is that hop.  A caller that reaches the service directly cannot choose its
    own bucket. *)
Theorem rate_limit_source_trusted peer forwarded_for nets source :
  resolve_rate_limit_source peer forwarded_for nets = Ok source → source ≠ peer →
  ∃ p ff a, ip_address peer = Some p ∧ _is_trusted p nets = true ∧
    forwarded_for = Some ff ∧ (len ff ≤ MAX_X_FORWARDED_FOR_LENGTH)%nat ∧
    client_hop nets ff a ∧ source = str_address a.
Proof.
  unfold resolve_rate_limit_source. destruct nets as [|n nets]; [by intros [= ->]|].
  destruct (ip_address peer) as [p|] eqn:Ep; [|done].
  destruct (_is_trusted p (n :: nets)) eqn:Et; cbn [negb]; [|by intros [= ->]].
  destruct forwarded_for as [ff|]; [|by intros [= ->]].
  destruct (Nat.ltb_spec MAX_X_FORWARDED_FOR_LENGTH (len ff)) as [|Hl]; [by intros [= ->]|].
  intros H Hne. apply (inj Ok) in H. subst source.
  destruct (walk_hops_spec peer (n :: nets) (split "," ff))
    as [|(before & hop & after & a & Hs & Ha & Hn & -> & Hafter)]; [done|].
  exists p, ff, a. split_and!; try done. by exists before, hop, after.
Qed.
End source.

(** Addresses as numbers, one trusted network. *)
Lemma rate_limit_source_trusted_witness :
  client_hop (λ s, if s == "proxy" then Some 1 else if s == "client" then Some 7 else None)
    Z.eqb (λ s, s) [1] "junk,client,proxy" 7.
Proof.
  destruct (rate_limit_source_trusted
    (λ s, if s == "proxy" then Some 1 else if s == "client" then Some 7 else None)
    (λ z, if z =? 7 then "client" else "proxy") Z.eqb (λ s, s) String.length
    "proxy" (Some "junk,client,proxy") [1] "client" ltac:(vm_compute; reflexivity)
    ltac:(discriminate)) as (p & ff & a & _ & _ & [= <-] & _ & Hc & Ha).
  destruct Hc as (before & hop & after & Hs & Hhop & Ht & Hafter).
  assert (a = 7) as ->.
  { destruct (String.eqb_spec hop "proxy") as [->|]; [vm_compute in Hhop; by injection Hhop as <-|].
    destruct (String.eqb_spec hop "client") as [->|]; [by injection Hhop as <-|done]. }
  by exists before, hop, after.
Defined.

(** ** The limiter *)

Record FixedWindowRateLimiter := mkLimiter {
  rl_max_requests : Z;
  rl_window_seconds : Z;
  rl_max_sources : Z;
  rl_windows : dict string (Z * Z)
}.

Definition new_limiter (max_requests window_seconds max_sources : Z) :
    result FixedWindowRateLimiter :=
  if max_requests <=? 0 then Raise (ValueError "max_requests must be positive")
  else Ok (mkLimiter max_requests window_seconds max_sources []).

Definition with_windows (l : FixedWindowRateLimiter) (w : dict string (Z * Z)) :
    FixedWindowRateLimiter :=
  mkLimiter (rl_max_requests l) (rl_window_seconds l) (rl_max_sources l) w.

Definition allow (source : string) (now : Z) : M FixedWindowRateLimiter bool := λ l,
  let windows := dpurge (λ _ e, rl_window_seconds l <=? now - e.1) (rl_windows l) in
  match dget source windows with
  | None =>
      if rl_max_sources l <=? Z.of_nat (length windows)
      then (Ok true, with_windows l windows)
      else (Ok true, with_windows l (dset source (now, 1) windows))
  | Some (start, count) =>
      if count <? rl_max_requests l
      then (Ok true, with_windows l (dset source (start, count + 1) windows))
      else (Ok false, with_windows l windows)
  end.

(** The table's invariant. *)
Definition limiter_ok (l : FixedWindowRateLimiter) : Prop :=
  dict_wf (rl_windows l) ∧ 0 < rl_max_requests l ∧
  Z.of_nat (length (rl_windows l)) ≤ Z.max 0 (rl_max_sources l) ∧
  ∀ source start count, dget source (rl_windows l) = Some (start, count) →
    1 ≤ count ≤ rl_max_requests l.

Lemma allow_ok source now l : limiter_ok l → limiter_ok (allow source now l).2.
Proof.
  intros (Hwf & Hmax & Hlen & Hcount). unfold allow.
  set (w := dpurge _ _).
  assert (Hwf' : dict_wf w) by by apply dpurge_wf.
  assert (Hlen' : Z.of_nat (length w) ≤ Z.max 0 (rl_max_sources l))
    by (pose proof (sublist_length _ _ (dpurge_sublist
          (λ _ e, rl_window_seconds l <=? now - e.1) (rl_windows l))); unfold w; lia).
  assert (Hcount' : ∀ s st c, dget s w = Some (st, c) → 1 ≤ c ≤ rl_max_requests l).
  { intros s st c E. unfold w in E. rewrite dget_dpurge in E by done.
    destruct (dget s (rl_windows l)) as [e|] eqn:E'; [|done].
    destruct (_ <=? _); simplify_eq. by apply (Hcount s st c). }
  clearbody w. destruct (dget source w) as [[start count]|] eqn:E; [|].
  - destruct (Z.ltb_spec count (rl_max_requests l)); simpl; [|by split_and!].
    split_and!; simpl; [by apply dset_wf|done| |].
    + rewrite length_dset, decide_True; [done|]. apply dec_stable. intros Hn.
      apply dget_None in Hn. congruence.
    + intros s st c. rewrite dget_dset. case_decide as Hs; [|apply Hcount'].
      intros [= <- <-]. specialize (Hcount' _ _ _ E). lia.
  - destruct (Z.leb_spec (rl_max_sources l) (Z.of_nat (length w))); simpl; [by split_and!|].
    split_and!; simpl; [by apply dset_wf|done| |].
    + rewrite dset_fresh, length_app by done. simpl. lia.
    + intros s st c. rewrite dget_dset. case_decide; [|apply Hcount'].
      intros [= <- <-]. lia.
Qed.

(** One call per source and time; the answers given along a run. *)
Fixpoint answers (calls : list (string * Z)) (l : FixedWindowRateLimiter) : list (string * bool) :=
  match calls with
  | [] => []
  | (source, now) :: calls' =>
      let '(r, l') := allow source now l in
      (source, match r with Ok b => b | Raise _ => false end) :: answers calls' l'
  end.
Definition allowed_of (source : string) (l : list (string * bool)) : Z :=
  Z.of_nat (length (List.filter (λ a, (a.1 == source) && a.2) l)).
Definition calls_of (source : string) (l : list (string * Z)) : Z :=
  Z.of_nat (length (List.filter (λ a, a.1 == source) l)).

Lemma allow_other source other now l start count :
  limiter_ok l → source ≠ other → dget source (rl_windows l) = Some (start, count) →
  now - start < rl_window_seconds l →
  dget source (rl_windows (allow other now l).2) = Some (start, count).
Proof.
  intros (Hwf & _) Hne E Hlive. unfold allow. set (w := dpurge _ _).
  assert (Ew : dget source w = Some (start, count)).
  { unfold w. rewrite dget_dpurge, E by done. simpl.
    destruct (Z.leb_spec (rl_window_seconds l) (now - start)); [lia|done]. }
  destruct (dget other w) as [[st c]|].
  - destruct (c <? rl_max_requests l); simpl; [|done]. by rewrite dget_dset_ne.
  - destruct (rl_max_sources l <=? _); simpl; [done|]. by rewrite dget_dset_ne.
Qed.
Lemma allow_same source now l start count :
  limiter_ok l → dget source (rl_windows l) = Some (start, count) →
  now - start < rl_window_seconds l →
  (allow source now l).1 = Ok (count <? rl_max_requests l) ∧
  dget source (rl_windows (allow source now l).2) =
    Some (start, if count <? rl_max_requests l then count + 1 else count).
Proof.
  intros (Hwf & _) E Hlive. unfold allow. set (w := dpurge _ _).
  assert (Ew : dget source w = Some (start, count)).
  { unfold w. rewrite dget_dpurge, E by done. simpl.
    destruct (Z.leb_spec (rl_window_seconds l) (now - start)); [lia|done]. }
  rewrite Ew. destruct (count <? rl_max_requests l); simpl; [|done].
  by rewrite dget_dset_eq.
Qed.
Lemma allow_params source now l :
  rl_max_requests (allow source now l).2 = rl_max_requests l ∧
  rl_window_seconds (allow source now l).2 = rl_window_seconds l.
Proof. unfold allow. repeat case_match; done. Qed.

(** The budget of a window: a source whose window opened at [start] with
    [count] requests counted is let through exactly as often as it calls, up to
    [max_requests - count] more times, whatever the other sources do. *)
Theorem rate_limit_budget source start count calls l :
  limiter_ok l → dget source (rl_windows l) = Some (start, count) →
  Forall (λ c, c.2 - start < rl_window_seconds l) calls →
  allowed_of source (answers calls l) = Z.min (calls_of source calls) (rl_max_requests l - count).
Proof.
  intros Hok E Hcalls. revert l count Hok E Hcalls.
  induction calls as [|[s now] calls IH]; intros l count Hok E Hcalls.
  { destruct Hok as (_ & _ & _ & Hc). specialize (Hc _ _ _ E). unfold allowed_of, calls_of.
    simpl. lia. }
  apply Forall_cons in Hcalls as [Hnow Hcalls]. simpl in Hnow.
  pose proof (allow_ok s now l Hok) as Hok'. destruct (allow_params s now l) as [Hm Hw].
  cbn [answers]. unfold allowed_of, calls_of in *.
  destruct (String.eqb_spec s source) as [->|Hne].
  - destruct (allow_same source now l start count Hok E Hnow) as [Hr E'].
    destruct (allow source now l) as [r l']. simpl in *. subst r.
    destruct (Hok) as (_ & _ & _ & Hc). specialize (Hc _ _ _ E).
    rewrite eqb_refl. cbn [andb].
    destruct (Z.ltb_spec count (rl_max_requests l)); simpl;
      specialize (IH l' _ Hok' E' ltac:(by rewrite Hw)); rewrite Hm in IH; lia.
  - pose proof (allow_other source s now l start count Hok ltac:(done) E Hnow) as E'.
    destruct (allow s now l) as [r l']. simpl in *.
    rewrite (proj2 (String.eqb_neq s source) Hne). cbn [andb].
    specialize (IH l' count Hok' E' ltac:(by rewrite Hw)). rewrite Hm in IH. exact IH.
Qed.

Definition sample_limiter : FixedWindowRateLimiter := mkLimiter 2 60 100 [("10.0.0.1", (0, 1))].
Lemma rate_limit_budget_witness :
  allowed_of "10.0.0.1" (answers [("10.0.0.1", 1); ("10.0.0.9", 2); ("10.0.0.1", 3);
    ("10.0.0.1", 4)] sample_limiter) = 1.
Proof.
  refine (rate_limit_budget "10.0.0.1" 0 1 _ sample_limiter _ eq_refl _).
  - split_and!; [repeat constructor; set_solver|done|done|].
    intros s st c H. simpl in H. destruct (decide _); by simplify_eq.
  - repeat constructor; simpl; lia.
Defined.

(** A source no live window of which is counted is let through. *)
Lemma allow_expired source now l :
  dict_wf (rl_windows l) →
  (∀ start count, dget source (rl_windows l) = Some (start, count) → rl_window_seconds l ≤ now - start) →
  (allow source now l).1 = Ok true.
Proof.
  intros Hwf Hexp. unfold allow. rewrite dget_dpurge by done.
  destruct (dget source (rl_windows l)) as [[st c]|]; [|by case_match].
  specialize (Hexp st c eq_refl). simpl.
  destruct (Z.leb_spec (rl_window_seconds l) (now - st)); [by case_match|lia].
Qed.
(** Whatever is called, a window a source is not let through in is not moved. *)
Lemma allow_keeps_start source other now l start count :
  limiter_ok l → dget source (rl_windows (allow other now l).2) = Some (start, count) →
  (other = source ∧ (allow other now l).1 = Ok true) ∨
  dget source (rl_windows l) = Some (start, count).
Proof.
  intros (Hwf & _). unfold allow. set (w := dpurge _ _).
  assert (Hw : dget source w = Some (start, count) → dget source (rl_windows l) = Some (start, count)).
  { unfold w. rewrite dget_dpurge by done. destruct (dget source (rl_windows l)); [|done]. by case_match. }
  destruct (dget other w) as [[st c]|]; [destruct (c <? rl_max_requests l)|destruct (rl_max_sources l <=? _)];
    cbn; try (intros E; right; by apply Hw).
  all: destruct (decide (other = source)) as [|Hne]; [by left|]; rewrite dget_dset_ne by done;
    intros E; right; by apply Hw.
Qed.

(** No source starves.  From any state of the limiter in which a source's
    window, if it has one, opened by [t0], and whatever calls the others and the
    source make in between: when the source calls at or after the end of a
    window opened at [t0], it is let through then, or was let through before. *)
Theorem rate_limit_readmits source t0 t calls l :
  limiter_ok l → (∀ start count, dget source (rl_windows l) = Some (start, count) → start ≤ t0) →
  t0 + rl_window_seconds l ≤ t →
  (source, true) ∈ answers (calls ++ [(source, t)]) l.
Proof.
  revert l. induction calls as [|[s now] calls IH]; intros l Hok Hstart Ht; cbn [app answers].
  - pose proof (allow_expired source t l (proj1 Hok)) as Hr. destruct (allow source t l) as [r l'].
    cbn in Hr. rewrite Hr; [by left|]. intros st c E. specialize (Hstart st c E). lia.
  - pose proof (allow_ok s now l Hok) as Hok'. destruct (allow_params s now l) as [_ Hw].
    pose proof (λ st c, allow_keeps_start source s now l st c Hok) as Hkeep.
    destruct (allow s now l) as [r l']. cbn [fst snd] in *.
    assert (Hd : (s = source ∧ r = Ok true) ∨ ¬ (s = source ∧ r = Ok true))
      by (destruct (decide (s = source)), r as [[]|]; naive_solver).
    destruct Hd as [[-> ->]|Hn].
    + by left.
    + right. apply IH; [done| |by rewrite Hw]. intros st c E. by destruct (Hkeep st c E) as [|E']; [|eapply Hstart].
Qed.
Lemma rate_limit_readmits_witness :
  ("10.0.0.1", true) ∈ answers [("10.0.0.1", 1); ("10.0.0.1", 2); ("10.0.0.1", 60)]
    (mkLimiter 2 60 100 [("10.0.0.1", (0, 2))]).
Proof.
  refine (rate_limit_readmits "10.0.0.1" 0 60 [("10.0.0.1", 1); ("10.0.0.1", 2)] _ _ _ _); [| |done].
  - split_and!; [repeat constructor; set_solver|done|done|].
    intros s st c E. simpl in E. destruct (decide _); by simplify_eq.
  - intros st c E. vm_compute in E. by injection E as <- <-.
Defined.

(** Bounded memory, open failure: the table never exceeds [max_sources]
    entries, no count exceeds [max_requests], and a source without a live
    window is always let through, table full or not. *)
Theorem rate_limit_table_bounded max_requests window max_sources l0 calls :
  new_limiter max_requests window max_sources = Ok l0 →
  let l := foldl (λ l c, (allow c.1 c.2 l).2) l0 calls in
  limiter_ok l ∧
  ∀ source now,
    (∀ start count, dget source (rl_windows l) = Some (start, count) →
       rl_window_seconds l ≤ now - start) →
    (allow source now l).1 = Ok true.
Proof.
  unfold new_limiter. destruct (Z.leb_spec max_requests 0); [done|]. intros H'.
  apply (inj Ok) in H'. subst l0.
  assert (H0 : limiter_ok (mkLimiter max_requests window max_sources [])).
  { split_and!; simpl; [constructor|done|lia|done]. }
  revert H0. generalize (mkLimiter max_requests window max_sources []). cbv zeta.
  induction calls as [|c calls IH]; intros l Hl; simpl.
  - split; [done|]. intros source now. apply allow_expired, Hl.
  - by apply IH, allow_ok.
Qed.
Lemma rate_limit_table_bounded_witness :
  limiter_ok (foldl (λ l c, (allow c.1 c.2 l).2) (mkLimiter 2 60 1 [])
    [("a", 0); ("b", 1); ("a", 2)]).
Proof. exact (proj1 (rate_limit_table_bounded 2 60 1 (mkLimiter 2 60 1 []) _ eq_refl)). Defined.
