(* ===== verification/Infer.v ===== *)
(** * Scope inference ([src/vinctor_core/infer.py])

    Proposing grant scopes that cover observed accesses, exactly or with a
    terminal wildcard over sibling resources.  The theorems bound the proposals
    from both sides: every frequent observation is covered, and every proposal
    is a valid scope whose stated coverage was observed. *)
From S2P Require Import Prelude PyStr PyDict Scope.

(** ** Definitions *)

Record Observation := mkObservation {
  ob_action : string;
  ob_resource : string;
  ob_count : Z;
  ob_last_seen : option string
}.

Record ScopeProposal := mkScopeProposal {
  sp_scope : string;
  sp_count : Z;
  sp_last_seen : option string;
  sp_generalized : bool;
  sp_covers : list string
}.

Definition latest (a b : option string) : option string :=
  match a, b with
  | None, _ => b
  | _, None => a
  | Some x, Some y => Some (if String.leb y x then x else y)
  end.

(** The value kept per (action, resource): a count and the latest sighting. *)
Definition sighting : Type := Z * option string.

Definition observe (agg : dict (string * string) sighting) (obs : Observation) :
    dict (string * string) sighting :=
  if negb (is_valid_requested_action (ob_action obs)) then agg
  else if negb (is_valid_requested_resource (ob_resource obs)) then agg
  else
    let key := (ob_action obs, ob_resource obs) in
    let '(count, last_seen) := default (0, None) (dget key agg) in
    dset key (count + ob_count obs, latest last_seen (ob_last_seen obs)) agg.
Definition aggregate (observations : list Observation) : dict (string * string) sighting :=
  foldl observe [] observations.
Definition frequent (min_count : Z) (agg : dict (string * string) sighting) :
    dict (string * string) sighting :=
  List.filter (λ kv, min_count <=? kv.2.1) agg.

Definition _exact (action resource : string) (count : Z) (last_seen : option string) :
    ScopeProposal :=
  let scope := attempted_scope action resource in
  mkScopeProposal scope count last_seen false [scope].

(** A resource with its sighting, in the group of its action and parent. *)
Definition member : Type := string * Z * option string.
Definition group_of (item : (string * string) * sighting) : string * string :=
  (item.1.1, rsplit_head "/" item.1.2).
Definition member_of (item : (string * string) * sighting) : member :=
  (item.1.2, item.2.1, item.2.2).
Definition add_to_group (groups : dict (string * string) (list member))
    (item : (string * string) * sighting) : dict (string * string) (list member) :=
  dset (group_of item) (default [] (dget (group_of item) groups) ++ [member_of item]) groups.

Definition propose_group (group : (string * string) * list member) : list ScopeProposal :=
  let '((action, parent), members) := group in
  let wildcard := action ^+ ":" ^+ parent ^+ "/*" in
  let deep_enough := (2 <=? length (split "/" parent))%nat in
  if (2 <=? length members)%nat && deep_enough && is_valid_grant_scope wildcard then
    [mkScopeProposal wildcard
       (foldl (λ total m, total + m.1.2) 0 members)
       (foldl (λ last m, latest last m.2) None members)
       true
       (py_sorted String.leb (map (λ m, attempted_scope action m.1.1) members))]
  else map (λ m, _exact action m.1.1 m.1.2 m.2) members.

Definition scope_leb (p q : ScopeProposal) : bool := String.leb (sp_scope p) (sp_scope q).

Definition propose_scopes (observations : list Observation) (generalize : bool) (min_count : Z) :
    result (list ScopeProposal) :=
  if min_count <? 1 then Raise (ValueError "min_count must be positive")
  else
    let agg := frequent min_count (aggregate observations) in
    if negb generalize then
      Ok (py_sorted scope_leb (map (λ i, _exact i.1.1 i.1.2 i.2.1 i.2.2) agg))
    else
      let groups := foldl add_to_group [] agg in
      Ok (py_sorted scope_leb (concat (map propose_group groups))).

(** ** Specification *)

(** How often a pair was observed. *)
Definition total (observations : list Observation) (action resource : string) : Z :=
  foldl (λ n o, if (ob_action o == action) && (ob_resource o == resource) then n + ob_count o else n)
    0 observations.
Definition requestable (action resource : string) : Prop :=
  is_valid_requested_action action = true ∧ is_valid_requested_resource resource = true.
Definition observed (observations : list Observation) (action resource : string) : Prop :=
  ∃ o, o ∈ observations ∧ ob_action o = action ∧ ob_resource o = resource.

(** ** Aggregation *)

Lemma aggregate_snoc obs o : aggregate (obs ++ [o]) = observe (aggregate obs) o.
Proof. unfold aggregate. by rewrite foldl_app. Qed.
Lemma total_snoc obs o a r :
  total (obs ++ [o]) a r =
    if (ob_action o == a) && (ob_resource o == r) then total obs a r + ob_count o else total obs a r.
Proof. unfold total. by rewrite foldl_app. Qed.

Lemma aggregate_spec obs :
  dict_wf (aggregate obs) ∧
  (∀ a r n l, dget (a, r) (aggregate obs) = Some (n, l) →
     requestable a r ∧ observed obs a r ∧ n = total obs a r) ∧
  (∀ a r, dget (a, r) (aggregate obs) = None → requestable a r →
     ¬ observed obs a r ∧ total obs a r = 0).
Proof.
  induction obs as [|o obs (Hwf & Hsome & Hnone)] using rev_ind.
  { split_and!; [constructor|done|]. intros a r _ _. split; [|done]. intros (? & H & _). set_solver. }
  rewrite aggregate_snoc. unfold observe.
  assert (Hold : ∀ a r, ¬ (ob_action o = a ∧ ob_resource o = r) →
    total (obs ++ [o]) a r = total obs a r ∧ (observed (obs ++ [o]) a r ↔ observed obs a r)).
  { intros a r Hne. rewrite total_snoc. split.
    - destruct (String.eqb_spec (ob_action o) a), (String.eqb_spec (ob_resource o) r); naive_solver.
    - split; intros (x & Hx & ? & ?); exists x; [|set_solver].
      apply elem_of_app in Hx as [?|Hx]; [done|]. set_solver. }
  assert (Hkeep : ¬ requestable (ob_action o) (ob_resource o) →
    dict_wf (aggregate obs) ∧
    (∀ a r n l, dget (a, r) (aggregate obs) = Some (n, l) →
       requestable a r ∧ observed (obs ++ [o]) a r ∧ n = total (obs ++ [o]) a r) ∧
    (∀ a r, dget (a, r) (aggregate obs) = None → requestable a r →
       ¬ observed (obs ++ [o]) a r ∧ total (obs ++ [o]) a r = 0)).
  { intros Hbad. split_and!; [done| |].
    - intros a r n l E. destruct (Hsome _ _ _ _ E) as (Hr & Ho & Hn).
      destruct (Hold a r) as [-> Ho']; [intros [<- <-]; done|]. by rewrite Ho'.
    - intros a r E Hr. destruct (Hold a r) as [-> Ho']; [intros [<- <-]; done|].
      rewrite Ho'. by apply Hnone. }
  destruct (is_valid_requested_action (ob_action o)) eqn:Ea; [|apply Hkeep; intros [? _]; congruence].
  destruct (is_valid_requested_resource (ob_resource o)) eqn:Er;
    [|apply Hkeep; intros [_ ?]; congruence].
  cbn [negb]. clear Hkeep.
  assert (Hcur : (default (0, None) (dget (ob_action o, ob_resource o) (aggregate obs))).1
    = total obs (ob_action o) (ob_resource o)).
  { destruct (dget (ob_action o, ob_resource o) (aggregate obs)) as [[n l]|] eqn:E; simpl.
    - by apply Hsome in E as (_ & _ & ->).
    - by apply Hnone in E as [_ ->]. }
  destruct (default (0, None) _) as [count last]. simpl in Hcur. subst count.
  split_and!; [by apply dset_wf| |].
  - intros a r n l. rewrite dget_dset. case_decide as Hk.
    + injection Hk as <- <-. intros [= <- _]. rewrite total_snoc, !eqb_refl.
      split_and!; [done| |done]. exists o. set_solver.
    + intros E. destruct (Hsome _ _ _ _ E) as (Hr & Ho & Hn).
      destruct (Hold a r) as [-> Ho']; [intros [? ?]; congruence|]. by rewrite Ho'.
  - intros a r. rewrite dget_dset. case_decide as Hk; [done|]. intros E Hr.
    destruct (Hold a r) as [-> Ho']; [intros [? ?]; congruence|]. rewrite Ho'. by apply Hnone.
Qed.

(** The pairs the proposals are made from. *)
Lemma frequent_elem obs min_count a r n l :
  1 ≤ min_count →
  ((a, r), (n, l)) ∈ frequent min_count (aggregate obs) →
  requestable a r ∧ observed obs a r ∧ n = total obs a r ∧ min_count ≤ n.
Proof.
  intros Hmin H. unfold frequent in H. rewrite list_elem_of_In, filter_In, <-list_elem_of_In in H.
  destruct H as [H Hn]. apply Z.leb_le in Hn. simpl in Hn.
  destruct (aggregate_spec obs) as (Hwf & Hsome & _).
  apply dget_elem_iff in H; [|done]. by apply Hsome in H as (? & ? & ?).
Qed.
Lemma frequent_complete obs min_count a r :
  1 ≤ min_count → requestable a r → min_count ≤ total obs a r →
  ∃ l, ((a, r), (total obs a r, l)) ∈ frequent min_count (aggregate obs).
Proof.
  intros Hmin Hr Htot. destruct (aggregate_spec obs) as (Hwf & Hsome & Hnone).
  destruct (dget (a, r) (aggregate obs)) as [[n l]|] eqn:E.
  - exists l. destruct (Hsome _ _ _ _ E) as (_ & _ & ->). unfold frequent.
    rewrite list_elem_of_In, filter_In, <-list_elem_of_In. split; [by apply dget_elem_iff in E|].
    by apply Z.leb_le.
  - destruct (Hnone _ _ E Hr) as [_ H0]. lia.
Qed.

(** ** Grouping *)

Definition item : Type := (string * string) * sighting.
Definition in_group (g : string * string) (items : list item) : list member :=
  map member_of (List.filter (λ i, bool_decide (group_of i = g)) items).

Lemma groups_snoc items i :
  foldl add_to_group [] (items ++ [i]) = add_to_group (foldl add_to_group [] items) i.
Proof. by rewrite foldl_app. Qed.
Lemma in_group_snoc g items i :
  in_group g (items ++ [i]) =
    in_group g items ++ (if decide (group_of i = g) then [member_of i] else []).
Proof.
  unfold in_group. rewrite List.filter_app, map_app. simpl.
  destruct (decide (group_of i = g)); [by rewrite bool_decide_true|by rewrite bool_decide_false].
Qed.

Lemma groups_spec items :
  let groups := foldl add_to_group [] items in
  dict_wf groups ∧
  (∀ g ms, (g, ms) ∈ groups → ms = in_group g items ∧ ms ≠ []) ∧
  (∀ i, i ∈ items → (group_of i, in_group (group_of i) items) ∈ groups).
Proof.
  cbv zeta. induction items as [|i items (Hwf & Hin & Hall)] using rev_ind.
  { split_and!; [constructor|set_solver|set_solver]. }
  assert (Hdefault : ∀ g, default [] (dget g (foldl add_to_group [] items)) = in_group g items).
  { intros g. destruct (dget g _) as [ms|] eqn:E; simpl.
    - apply dget_elem_iff in E; [|done]. by apply Hin in E as [-> _].
    - unfold in_group. assert (List.filter (λ i, bool_decide (group_of i = g)) items = []) as ->;
        [|done].
      destruct (List.filter _ items) as [|x l] eqn:Ef; [done|].
      assert (Hx : x ∈ x :: l) by set_solver.
      rewrite <-Ef, list_elem_of_In, filter_In, <-list_elem_of_In, bool_decide_eq_true in Hx.
      destruct Hx as [Hx <-]. apply Hall in Hx. apply dget_elem_iff in Hx; [congruence|done]. }
  assert (Hstep : foldl add_to_group [] (items ++ [i]) =
    dset (group_of i) (in_group (group_of i) items ++ [member_of i])
      (foldl add_to_group [] items))
    by (rewrite groups_snoc; unfold add_to_group at 1; by rewrite Hdefault).
  rewrite Hstep. clear Hstep.
  assert (Hwf' : dict_wf (dset (group_of i) (in_group (group_of i) items ++ [member_of i])
    (foldl add_to_group [] items))) by by apply dset_wf.
  assert (Hget : ∀ g, dget g (dset (group_of i) (in_group (group_of i) items ++ [member_of i])
    (foldl add_to_group [] items)) =
    if decide (group_of i = g) then Some (in_group g (items ++ [i]))
    else dget g (foldl add_to_group [] items)).
  { intros g. rewrite dget_dset, in_group_snoc. destruct (decide (group_of i = g)) as [->|]; done. }
  split_and!; [done| |].
  - intros g ms E. apply dget_elem_iff in E; [|done]. rewrite Hget in E. case_decide as Hg.
    + injection E as <-. split; [done|]. rewrite in_group_snoc, decide_True by done.
      by destruct (in_group g items).
    + apply dget_elem_iff in E; [|done]. rewrite in_group_snoc, decide_False, app_nil_r by done.
      by apply Hin.
  - intros x Hx. apply dget_elem_iff; [done|]. rewrite Hget. case_decide as Hg; [done|].
    rewrite in_group_snoc, decide_False, app_nil_r by done.
    apply dget_elem_iff; [done|]. apply Hall. apply elem_of_app in Hx as [?|Hx]; [done|].
    set_solver.
Qed.

Lemma in_group_elem g items m :
  m ∈ in_group g items ↔ ∃ i, i ∈ items ∧ group_of i = g ∧ m = member_of i.
Proof.
  unfold in_group. rewrite list_elem_of_In, in_map_iff. setoid_rewrite filter_In.
  setoid_rewrite <-list_elem_of_In. setoid_rewrite bool_decide_eq_true. naive_solver.
Qed.

Lemma rsplit_head_split c s :
  contains c s = true → ∃ t, s = rsplit_head c s ^+ String c t ∧ contains c t = false.
Proof.
  induction s as [|a s IH]; [done|]. cbn [contains rsplit_head]. intros H.
  destruct (Ascii.eqb_spec a c) as [->|Hne]; cbn [orb andb] in *.
  - destruct (contains c s) eqn:E; cbn [negb].
    + destruct (IH eq_refl) as (t & Hs & Ht). exists t. split; [|done]. by rewrite app_cons, <-Hs.
    + by exists s.
  - destruct (IH H) as (t & Hs & Ht). exists t. split; [|done]. by rewrite app_cons, <-Hs.
Qed.
Lemma rsplit_head_missing c s : contains c s = false → rsplit_head c s = s.
Proof.
  induction s as [|a s IH]; [done|]. cbn [contains rsplit_head]. intros H. bool_prop.
  rewrite H. cbn [andb]. by rewrite IH.
Qed.

(** A requested resource is a direct child of its parent. *)
Lemma deep_parent_child parent r :
  rsplit_head "/" r = parent → (2 ≤ length (split "/" parent))%nat →
  ∃ child, r = parent ^+ "/" ^+ child ∧ contains "/" child = false.
Proof.
  intros <- Hdeep. destruct (contains "/" r) eqn:E; [apply rsplit_head_split in E; naive_solver|].
  rewrite rsplit_head_missing, split_no_sep in Hdeep by done. simpl in Hdeep. lia.
Qed.

(** ** The proposals *)

(** What a proposal of the run may say: it stands for pairs that were observed
    often enough, counts them all, and covers each of them; a generalised one
    stands for at least two direct children of a parent of two segments. *)
Record proposal_sound (obs : list Observation) (generalize : bool) (min_count : Z)
    (p : ScopeProposal) (pairs : list (string * string)) : Prop := {
  ps_valid : is_valid_grant_scope (sp_scope p) = true;
  ps_covers : sp_covers p ≡ₚ (λ ar, attempted_scope ar.1 ar.2) <$> pairs;
  ps_count : sp_count p = foldr (λ ar n, total obs ar.1 ar.2 + n) 0 pairs;
  ps_pairs : ∀ a r, (a, r) ∈ pairs →
    requestable a r ∧ observed obs a r ∧ min_count ≤ total obs a r ∧
    scope_covers (sp_scope p) a r = true;
  ps_exact : sp_generalized p = false → ∃ a r, pairs = [(a, r)] ∧ sp_scope p = attempted_scope a r;
  ps_wide : sp_generalized p = true →
    generalize = true ∧ (2 ≤ length pairs)%nat ∧ NoDup pairs ∧
    ∃ a parent, sp_scope p = a ^+ ":" ^+ parent ^+ "/*" ∧
      (2 ≤ length (split "/" parent))%nat ∧
      ∀ a' r, (a', r) ∈ pairs →
        a' = a ∧ ∃ child, r = parent ^+ "/" ^+ child ∧ contains "/" child = false
}.

Lemma exact_covers a r : scope_covers (attempted_scope a r) a r = true.
Proof. unfold scope_covers. by rewrite eqb_refl. Qed.

Lemma exact_sound obs generalize min_count a r n l :
  1 ≤ min_count → ((a, r), (n, l)) ∈ frequent min_count (aggregate obs) →
  proposal_sound obs generalize min_count (_exact a r n l) [(a, r)].
Proof.
  intros Hmin H. apply frequent_elem in H as (Hr & Ho & -> & Hle); [|done].
  constructor; simpl; try done.
  - apply valid_request_scope; apply Hr.
  - lia.
  - intros a' r' E. apply list_elem_of_singleton in E. injection E as -> ->.
    split_and!; [done..|apply exact_covers].
  - by exists a, r.
Qed.

Lemma foldl_sum {A} (f : A → Z) l n : foldl (λ s x, s + f x) n l = n + foldr (λ x s, f x + s) 0 l.
Proof. revert n. induction l as [|x l IH]; intros n; simpl; [lia|]. rewrite IH. lia. Qed.

Lemma member_count_sum obs min_count items :
  1 ≤ min_count → (∀ i, i ∈ items → i ∈ frequent min_count (aggregate obs)) →
  foldl (λ t m, t + m.1.2) 0 (map member_of items) =
  foldr (λ ar n, total obs ar.1 ar.2 + n) 0 (fst <$> items).
Proof.
  intros Hmin H. rewrite (foldl_sum (λ m : member, m.1.2)), Z.add_0_l.
  induction items as [|[[a r] [n l]] items IH]; [done|]. simpl.
  destruct (frequent_elem obs min_count a r n l Hmin) as (_ & _ & -> & _); [apply H; set_solver|].
  f_equal. apply IH. intros i Hi. apply H. set_solver.
Qed.

Lemma filter_NoDup_keys (f : item → bool) (d : dict (string * string) sighting) :
  dict_wf d → NoDup (fst <$> List.filter f d).
Proof.
  unfold dict_wf. intros H. induction d as [|i d IH]; simpl in *; [constructor|].
  apply NoDup_cons in H as [Hi H]. destruct (f i); [|by apply IH]. simpl.
  apply NoDup_cons. split; [|by apply IH]. intros Hin. apply Hi.
  apply list_elem_of_fmap in Hin as (x & -> & Hx). rewrite list_elem_of_In, filter_In in Hx.
  apply list_elem_of_fmap. exists x. split; [done|]. rewrite list_elem_of_In. apply Hx.
Qed.

Lemma wildcard_covers_child a parent child :
  contains ":" a = false → is_valid_grant_scope (a ^+ ":" ^+ parent ^+ "/*") = true →
  scope_covers (a ^+ ":" ^+ parent ^+ "/*") a (parent ^+ "/" ^+ child) = true.
Proof.
  intros Ha Hv. change (scope_covers (attempted_scope a (parent ^+ "/*")) a (parent ^+ "/" ^+ child)
    = true).
  apply valid_scope_iff in Hv as (a' & r' & E & Ha' & Hr').
  apply app_sep_inj in E as [<- E]; [|done|by apply actions_no_colon].
  apply covers_attempted; [done|rewrite E; by eapply resource_no_colon|].
  split; [done|]. right. by exists parent, child.
Qed.

Lemma members_attempted (a : string) (items : list item) :
  (∀ i, i ∈ items → i.1.1 = a) →
  map (λ m, attempted_scope a m.1.1) (map member_of items)
  = (λ ar, attempted_scope ar.1 ar.2) <$> (fst <$> items).
Proof.
  intros H. induction items as [|[[a' r] s] items IH]; [done|]. simpl.
  assert (a' = a) as -> by (apply (H (a', r, s)); set_solver).
  f_equal. apply IH. intros i Hi. apply H. set_solver.
Qed.

Section group.
Context (obs : list Observation) (min_count : Z) (min_pos : 1 ≤ min_count).
Let agg := frequent min_count (aggregate obs).

(** One group's proposals are sound, and each member is covered by one. *)
Lemma propose_group_sound a parent p :
  p ∈ propose_group ((a, parent), in_group (a, parent) agg) →
  ∃ pairs, proposal_sound obs true min_count p pairs.
Proof.
  set (sel := List.filter (λ i, bool_decide (group_of i = (a, parent))) agg).
  assert (Hsel : ∀ i, i ∈ sel → i ∈ agg ∧ group_of i = (a, parent)).
  { intros i Hi. unfold sel in Hi. rewrite list_elem_of_In, filter_In, <-list_elem_of_In in Hi.
    destruct Hi as [? Hi]. by apply bool_decide_eq_true in Hi. }
  change (in_group (a, parent) agg) with (map member_of sel). unfold propose_group.
  destruct ((2 <=? length (map member_of sel))%nat && (2 <=? length (split "/" parent))%nat
    && is_valid_grant_scope (a ^+ ":" ^+ parent ^+ "/*")) eqn:E.
  - intros Hp. apply list_elem_of_singleton in Hp as ->. apply andb_true_iff in E as [E Hv].
    apply andb_true_iff in E as [Hlen%Nat.leb_le Hdeep%Nat.leb_le].
    exists (fst <$> sel).
    assert (Hpairs : ∀ a' r, (a', r) ∈ (fst <$> sel : list (string * string)) →
      a' = a ∧ rsplit_head "/" r = parent ∧ requestable a' r ∧ observed obs a' r ∧
      min_count ≤ total obs a' r).
    { intros a' r Hin. apply list_elem_of_fmap in Hin as ([[a1 r1] [n l]] & E & Hin).
      simpl in E. injection E as -> ->. apply Hsel in Hin as [Hin Hg].
      unfold group_of in Hg. simpl in Hg. injection Hg as -> Hr.
      by apply frequent_elem in Hin as (? & ? & -> & ?). }
    constructor; simpl; try done.
    + rewrite py_sorted_perm, members_attempted; [done|].
      intros i Hi. apply Hsel in Hi as [_ Hg]. by injection Hg.
    + eapply member_count_sum; [done|]. intros i Hi. by apply Hsel.
    + intros a' r Hin. destruct (Hpairs _ _ Hin) as (-> & Hr & Hreq & Hobs & Hle).
      split_and!; [done..|]. destruct (deep_parent_child _ _ Hr Hdeep) as (child & -> & _).
      apply wildcard_covers_child; [|done]. apply actions_no_colon, Hreq.
    + intros _. split_and!; [done| | |].
      * by rewrite length_map in Hlen; rewrite length_fmap.
      * apply filter_NoDup_keys. unfold agg, frequent, dict_wf.
        apply filter_NoDup_keys, aggregate_spec.
      * exists a, parent. split_and!; [done..|]. intros a' r Hin.
        destruct (Hpairs _ _ Hin) as (-> & Hr & _). split; [done|].
        by apply deep_parent_child.
  - intros Hp. rewrite map_map in Hp. rewrite list_elem_of_In, in_map_iff in Hp.
    destruct Hp as ([[a1 r] [n l]] & <- & Hi). rewrite <-list_elem_of_In in Hi.
    apply Hsel in Hi as [Hi Hg]. unfold group_of in Hg. simpl in Hg. injection Hg as -> _.
    exists [(a, r)]. by apply exact_sound.
Qed.

Lemma propose_group_covers a parent r n l :
  ((a, r), (n, l)) ∈ agg → rsplit_head "/" r = parent →
  ∃ p, p ∈ propose_group ((a, parent), in_group (a, parent) agg) ∧
       scope_covers (sp_scope p) a r = true ∧ attempted_scope a r ∈ sp_covers p.
Proof.
  intros Hin Hr.
  assert (Hm : (r, n, l) ∈ in_group (a, parent) agg).
  { apply in_group_elem. exists ((a, r), (n, l)). unfold group_of. simpl. by rewrite Hr. }
  unfold propose_group.
  destruct ((2 <=? length (in_group (a, parent) agg))%nat && (2 <=? length (split "/" parent))%nat
    && is_valid_grant_scope (a ^+ ":" ^+ parent ^+ "/*")) eqn:E.
  - eexists. split; [by apply list_elem_of_singleton|].
    apply andb_true_iff in E as [E Hv]. apply andb_true_iff in E as [_ Hdeep%Nat.leb_le].
    apply frequent_elem in Hin as ((Ha & _) & _); [|done]. simpl. split.
    + destruct (deep_parent_child _ _ Hr Hdeep) as (child & -> & _).
      apply wildcard_covers_child; [|done]. by apply actions_no_colon.
    + rewrite py_sorted_perm. rewrite list_elem_of_In, in_map_iff. exists (r, n, l).
      split; [done|]. by rewrite <-list_elem_of_In.
  - exists (_exact a r n l). split_and!; [|apply exact_covers|simpl; set_solver].
    rewrite list_elem_of_In, in_map_iff. exists (r, n, l). split; [done|].
    by rewrite <-list_elem_of_In.
Qed.
End group.

Lemma proposals_elem obs generalize min_count ps p :
  1 ≤ min_count → propose_scopes obs generalize min_count = Ok ps → p ∈ ps ↔
  if generalize then
    ∃ g, g ∈ foldl add_to_group [] (frequent min_count (aggregate obs)) ∧ p ∈ propose_group g
  else ∃ a r n l, ((a, r), (n, l)) ∈ frequent min_count (aggregate obs) ∧ p = _exact a r n l.
Proof.
  intros Hmin. unfold propose_scopes. rewrite (proj2 (Z.ltb_ge _ _) Hmin).
  destruct generalize; cbn [negb]; intros H; apply (inj Ok) in H; subst ps; rewrite py_sorted_perm.
  - rewrite list_elem_of_In, in_concat. setoid_rewrite in_map_iff.
    setoid_rewrite <-list_elem_of_In. naive_solver.
  - rewrite list_elem_of_In, in_map_iff. setoid_rewrite <-list_elem_of_In. split.
    + intros ([[a r] [n l]] & <- & ?). eauto 8.
    + intros (a & r & n & l & ? & ->). eexists. split; [|done]. done.
Qed.

(** Nothing frequent is lost: with or without generalisation, every
    requestable pair observed at least [min_count] times in all is covered by a
    proposed scope and listed among the scopes that proposal covers. *)
Theorem propose_scopes_covers obs generalize min_count ps a r :
  propose_scopes obs generalize min_count = Ok ps →
  requestable a r → min_count ≤ total obs a r →
  ∃ p, p ∈ ps ∧ scope_covers (sp_scope p) a r = true ∧ attempted_scope a r ∈ sp_covers p.
Proof.
  intros H Hr Htot.
  assert (Hmin : 1 ≤ min_count)
    by (unfold propose_scopes in H; destruct (Z.ltb_spec min_count 1); [done|lia]).
  destruct (frequent_complete obs min_count a r Hmin Hr Htot) as [l Hin].
  setoid_rewrite (proposals_elem _ _ _ _ _ Hmin H). destruct generalize.
  - destruct (propose_group_covers obs min_count Hmin a (rsplit_head "/" r) r _ _ Hin eq_refl)
      as (p & Hp & Hc). exists p. split; [|done]. eexists. split; [|exact Hp].
    destruct (groups_spec (frequent min_count (aggregate obs))) as (_ & _ & Hall).
    by apply Hall in Hin.
  - exists (_exact a r (total obs a r) l). split_and!; [eauto 8|apply exact_covers|simpl; set_solver].
Qed.

(** Nothing is invented: proposals come sorted by scope; each is a valid
    grant scope that stands for pairs observed at least [min_count] times,
    counts exactly those observations, and is exact or, when generalisation was
    asked for, one wildcard over two or more observed direct children of a
    parent of at least two segments. *)
Theorem propose_scopes_sound obs generalize min_count ps :
  propose_scopes obs generalize min_count = Ok ps →
  Sorted (λ p q, scope_leb p q = true) ps ∧
  ∀ p, p ∈ ps → ∃ pairs, proposal_sound obs generalize min_count p pairs.
Proof.
  intros H. assert (Hmin : 1 ≤ min_count)
    by (unfold propose_scopes in H; destruct (Z.ltb_spec min_count 1); [done|lia]).
  split.
  - unfold propose_scopes in H. rewrite (proj2 (Z.ltb_ge _ _) Hmin) in H.
    destruct generalize; cbn [negb] in H; apply (inj Ok) in H; subst ps;
      apply py_sorted_sorted; intros; apply leb_total.
  - intros p Hp. apply (proposals_elem _ _ _ _ _ Hmin H) in Hp. destruct generalize.
    + destruct Hp as ([[a parent] ms] & Hg & Hp).
      destruct (groups_spec (frequent min_count (aggregate obs))) as (_ & Hin & _).
      apply Hin in Hg as [-> _]. by eapply propose_group_sound.
    + destruct Hp as (a & r & n & l & Hin & ->). exists [(a, r)]. by apply exact_sound.
Qed.

Definition sample_observations : list Observation :=
  [mkObservation "read" "repo/docs/a" 2 (Some "2026-06-21T12:00:00+00:00");
   mkObservation "read" "repo/docs/b" 1 None;
   mkObservation "read" "repo/docs/a" 1 None;
   mkObservation "peek" "repo/docs/a" 9 None].
Definition sample_proposal : ScopeProposal :=
  mkScopeProposal "read:repo/docs/*" 4 (Some "2026-06-21T12:00:00+00:00") true
    ["read:repo/docs/a"; "read:repo/docs/b"].

Lemma propose_scopes_covers_witness :
  ∃ p, p ∈ [sample_proposal] ∧ scope_covers (sp_scope p) "read" "repo/docs/b" = true ∧
       attempted_scope "read" "repo/docs/b" ∈ sp_covers p.
Proof.
  apply (propose_scopes_covers sample_observations true 1); [reflexivity|by split|].
  vm_compute. discriminate.
Defined.
Lemma propose_scopes_sound_witness :
  ∃ pairs, proposal_sound sample_observations true 1 sample_proposal pairs.
Proof.
  apply (proj2 (propose_scopes_sound sample_observations true 1 [sample_proposal] eq_refl)).
  by apply list_elem_of_singleton.
Defined.
