(* ===== verification/ServiceModels.v ===== *)
(** * Service data models ([src/vinctor_service/models.py])

    The requests, responses and stored entities of the service layer.  The
    [Literal] types of the source (statuses, classifications) are strings, as
    they are at run time. *)
From S2P Require Import Prelude PyStr PyDict PyTime Scope Models.

Record V1EnforceRequest := mkV1EnforceRequest {
  v1_workspace_id : string;
  v1_agent_id : string;
  v1_grant_ref : string;
  v1_action : string;
  v1_resource : string;
  v1_boundary_id : option string
}.

Record V1DelegatedEnforceRequest := mkV1DelegatedEnforceRequest {
  dv_pep_id : string;
  dv_workspace_id : string;
  dv_agent_id : string;
  dv_grant_ref : string;
  dv_action : string;
  dv_resource : string;
  dv_boundary_id : option string;
  dv_subject_token : option string;
  dv_subject_token_proof : option string
}.

Record V1EnforceResponse := mkV1EnforceResponse {
  rs_status_code : Z;
  rs_decision : option Decision;
  rs_error : option string;
  rs_reason : option string;
  rs_audit_event_id : option string
}.

Record V1ObserveRequest := mkV1ObserveRequest {
  vo_workspace_id : string;
  vo_agent_id : string;
  vo_classification : string;
  vo_action : option string;
  vo_resource : option string;
  vo_boundary_id : option string;
  vo_outcome : option string
}.

Record V1ObserveResponse := mkV1ObserveResponse {
  vor_status_code : Z;
  vor_audit_event_id : option string;
  vor_error : option string;
  vor_reason : option string
}.

Record V1SimulateRequest := mkV1SimulateRequest {
  vs_workspace_id : string;
  vs_agent_id : string;
  vs_grant_ref : string;
  vs_action : string;
  vs_resource : string;
  vs_boundary_id : option string
}.

Record V1SimulateResponse := mkV1SimulateResponse {
  vsr_status_code : Z;
  vsr_would_decision : option Decision;
  vsr_error : option string;
  vsr_reason : option string;
  vsr_audit_event_id : option string
}.

Record GrantIssueRequest := mkGrantIssueRequest {
  gi_workspace_id : string;
  gi_target_agent_id : string;
  gi_requested_scopes : list string;
  gi_ttl_seconds : Z;
  gi_grant_id : option string;
  gi_grant_ref : option string
}.

Record GrantIssueResult := mkGrantIssueResult {
  gir_status : string;
  gir_reason : string;
  gir_grant : option Grant;
  gir_audit_event_id : option string;
  gir_detail : option string
}.

Record AgentIssuableBounds := mkAgentIssuableBounds {
  ab_scopes : list string;
  ab_max_ttl_seconds : option Z
}.

Record GrantRequest := mkGrantRequest {
  gq_request_id : string;
  gq_workspace_id : string;
  gq_requester_agent_id : string;
  gq_target_agent_id : string;
  gq_requested_scopes : list string;
  gq_requested_ttl_seconds : Z;
  gq_reason : string;
  gq_status : string;
  gq_created_at : Z;
  gq_decided_at : option Z;
  gq_decided_by : option string;
  gq_decision_reason : option string;
  gq_issued_grant_ref : option string;
  gq_task_id : option string;
  gq_session_id : option string;
  gq_boundary_id : option string;
  gq_requester_runtime : option string;
  gq_repo : option string;
  gq_worktree : option string
}.

Record GrantRequestCreateRequest := mkGrantRequestCreateRequest {
  gc_workspace_id : string;
  gc_requester_agent_id : string;
  gc_requested_scopes : list string;
  gc_requested_ttl_seconds : Z;
  gc_reason : string;
  gc_target_agent_id : option string;
  gc_request_id : option string;
  gc_task_id : option string;
  gc_session_id : option string;
  gc_boundary_id : option string;
  gc_requester_runtime : option string;
  gc_repo : option string;
  gc_worktree : option string
}.

Record GrantRequestCreateResult := mkGrantRequestCreateResult {
  gcr_status : string;
  gcr_reason : string;
  gcr_request : option GrantRequest;
  gcr_audit_event_id : option string
}.

Record GrantRequestDecisionResult := mkGrantRequestDecisionResult {
  gdr_status : string;
  gdr_reason : string;
  gdr_request : option GrantRequest;
  gdr_grant : option Grant;
  gdr_audit_event_id : option string;
  gdr_auto_approval_rule_id : option string
}.

Record AutoApprovalRule := mkAutoApprovalRule {
  aar_rule_id : string;
  aar_workspace_id : string;
  aar_name : string;
  aar_target_agent_id : string;
  aar_allowed_scopes : list string;
  aar_max_ttl_seconds : Z;
  aar_status : string;
  aar_created_by : string;
  aar_created_at : Z;
  aar_updated_by : option string;
  aar_updated_at : option Z
}.

Record AutoApprovalEvaluationResult := mkAutoApprovalEvaluationResult {
  aer_decision : string;
  aer_reason : string;
  aer_request : GrantRequest;
  aer_rule : option AutoApprovalRule
}.

Record SubjectToken := mkSubjectToken {
  st_token_id : string;
  st_token_hash : string;
  st_workspace_id : string;
  st_agent_id : string;
  st_grant_ref : string;
  st_audience : string;
  st_issued_at : Z;
  st_expires_at : Z;
  st_created_by : string;
  st_revoked_at : option Z;
  st_bound_action : option string;
  st_bound_resource : option string;
  st_pop_secret : option string
}.

#[global] Instance V1EnforceResponse_eq_dec : EqDecision V1EnforceResponse.
Proof. solve_decision. Defined.
#[global] Instance GrantRequest_eq_dec : EqDecision GrantRequest.
Proof. solve_decision. Defined.
#[global] Instance SubjectToken_eq_dec : EqDecision SubjectToken.
Proof. solve_decision. Defined.
#[global] Instance AutoApprovalRule_eq_dec : EqDecision AutoApprovalRule.
Proof. solve_decision. Defined.

(** [replace(request, status=..., decided_at=..., ...)] *)
Definition gq_decide (r : GrantRequest) (status : string) (now : Z) (decided_by : string)
    (decision_reason issued_grant_ref : option string) : GrantRequest :=
  {| gq_request_id := gq_request_id r; gq_workspace_id := gq_workspace_id r;
     gq_requester_agent_id := gq_requester_agent_id r;
     gq_target_agent_id := gq_target_agent_id r;
     gq_requested_scopes := gq_requested_scopes r;
     gq_requested_ttl_seconds := gq_requested_ttl_seconds r;
     gq_reason := gq_reason r; gq_status := status; gq_created_at := gq_created_at r;
     gq_decided_at := Some now; gq_decided_by := Some decided_by;
     gq_decision_reason := decision_reason; gq_issued_grant_ref := issued_grant_ref;
     gq_task_id := gq_task_id r; gq_session_id := gq_session_id r;
     gq_boundary_id := gq_boundary_id r; gq_requester_runtime := gq_requester_runtime r;
     gq_repo := gq_repo r; gq_worktree := gq_worktree r |}.

(** [replace(token, revoked_at=now)] *)
Definition st_revoke (t : SubjectToken) (now : Z) : SubjectToken :=
  {| st_token_id := st_token_id t; st_token_hash := st_token_hash t;
     st_workspace_id := st_workspace_id t; st_agent_id := st_agent_id t;
     st_grant_ref := st_grant_ref t; st_audience := st_audience t;
     st_issued_at := st_issued_at t; st_expires_at := st_expires_at t;
     st_created_by := st_created_by t; st_revoked_at := Some now;
     st_bound_action := st_bound_action t; st_bound_resource := st_bound_resource t;
     st_pop_secret := st_pop_secret t |}.

(** [replace(rule, status="disabled", updated_by=..., updated_at=now)] *)
Definition aar_disable (r : AutoApprovalRule) (disabled_by : string) (now : Z) : AutoApprovalRule :=
  {| aar_rule_id := aar_rule_id r; aar_workspace_id := aar_workspace_id r;
     aar_name := aar_name r; aar_target_agent_id := aar_target_agent_id r;
     aar_allowed_scopes := aar_allowed_scopes r; aar_max_ttl_seconds := aar_max_ttl_seconds r;
     aar_status := "disabled"; aar_created_by := aar_created_by r;
     aar_created_at := aar_created_at r; aar_updated_by := Some disabled_by;
     aar_updated_at := Some now |}.
