(* ===== verification/Repositories.v ===== *)
(** * Repositories ([src/vinctor_service/repositories.py], [grants.py])

    [GrantLifecycle] is the interface the service uses for grants, with what it
    promises in terms of the grants it holds; the in-memory dictionary is an
    instance.  The other in-memory repositories (grant requests, auto-approval
    rules, subject tokens, enforcement settings, issuable bounds) are modelled
    as they are: a dictionary each, and one function per method. *)
From S2P Require Import Prelude PyStr PyDict PyTime Models ServiceModels.

(** ** Grants *)

Class GrantLifecycle (G : Type) := {
  gr_get_by_ref : string → M G (option Grant);
  gr_list_grants_for_workspace : string → option string → option string → M G (list Grant);
  gr_insert : Grant → M G unit;
  gr_revoke : string → string → M G (option Grant)
}.

Definition revoked (g : Grant) : Grant :=
  mkGrant (g_grant_id g) (g_grant_ref g) (g_workspace_id g) (g_agent_id g) (g_scopes g)
    "revoked" (g_expires_at g).

(** What an operation does to a well-formed repository. *)
Definition grants_spec {G A} (wf : G → Prop) (m : M G A) (post : G → result A → G → Prop) : Prop :=
  ∀ g r g', wf g → m g = (r, g') → wf g' ∧ post g r g'.

(** Every operation either raises, and the grants are what they were, or does
    what its name says; a second grant under a known reference is refused with
    [ValueError]. *)
Class GrantLifecycleOk (G : Type) `{GrantLifecycle G} := {
  gr_wf : G → Prop;
  gr_view : G → gmap string Grant;
  gr_keyed g ref x : gr_wf g → gr_view g !! ref = Some x → g_grant_ref x = ref;
  gr_get_ok ref : grants_spec gr_wf (gr_get_by_ref ref) (λ g r g',
    gr_view g' = gr_view g ∧ ∀ o, r = Ok o → o = gr_view g !! ref);
  gr_list_ok ws agent status : grants_spec gr_wf (gr_list_grants_for_workspace ws agent status)
    (λ g r g', gr_view g' = gr_view g ∧ ∀ l, r = Ok l → ∀ x, x ∈ l ↔
      (∃ ref, gr_view g !! ref = Some x) ∧ g_workspace_id x = ws ∧
      (∀ a, agent = Some a → g_agent_id x = a) ∧ (∀ s, status = Some s → g_status x = s));
  gr_insert_ok x : grants_spec gr_wf (gr_insert x) (λ g r g',
    match r with
    | Ok _ => gr_view g !! g_grant_ref x = None ∧ gr_view g' = <[g_grant_ref x := x]> (gr_view g)
    | Raise _ => gr_view g' = gr_view g
    end ∧
    (is_Some (gr_view g !! g_grant_ref x) → ∃ msg, r = Raise (ValueError msg)));
  gr_revoke_ok ref ws : grants_spec gr_wf (gr_revoke ref ws) (λ g r g',
    match r with
    | Ok (Some x) => ∃ x0, gr_view g !! ref = Some x0 ∧ g_workspace_id x0 = ws ∧
        x = revoked x0 ∧ gr_view g' = <[ref := x]> (gr_view g)
    | Ok None => gr_view g' = gr_view g ∧
        ∀ x, gr_view g !! ref = Some x → g_workspace_id x ≠ ws
    | Raise _ => gr_view g' = gr_view g
    end)
}.

Record InMemoryGrantRepository := mkInMemoryGrantRepository {
  _grants_by_ref : dict string Grant
}.

Fixpoint grants_by_ref (grants : list Grant) (d : dict string Grant) : result (dict string Grant) :=
  match grants with
  | [] => Ok d
  | grant :: grants' =>
      if din (g_grant_ref grant) d
      then Raise (ValueError ("duplicate grant_ref: " ^+ g_grant_ref grant))
      else grants_by_ref grants' (dset (g_grant_ref grant) grant d)
  end.
Definition grants_init (grants : list Grant) : result InMemoryGrantRepository :=
  d ← grants_by_ref grants []; Ok (mkInMemoryGrantRepository d).

Definition grants_get_by_ref (grant_ref : string) (r : InMemoryGrantRepository) : option Grant :=
  dget grant_ref (_grants_by_ref r).
Definition grants_list_for_workspace (workspace_id : string) (agent_id status : option string)
    (r : InMemoryGrantRepository) : list Grant :=
  List.filter (λ grant,
      (g_workspace_id grant == workspace_id)
      && match agent_id with Some a => g_agent_id grant == a | None => true end
      && match status with Some s => g_status grant == s | None => true end)
    (py_sorted (λ x y, String.leb (g_grant_id x) (g_grant_id y)) (dvalues (_grants_by_ref r))).
Definition grants_insert (grant : Grant) : M InMemoryGrantRepository unit := λ r,
  if din (g_grant_ref grant) (_grants_by_ref r)
  then (Raise (ValueError ("duplicate grant_ref: " ^+ g_grant_ref grant)), r)
  else (Ok tt, mkInMemoryGrantRepository (dset (g_grant_ref grant) grant (_grants_by_ref r))).
(** [grant.status = "revoked"] writes the object the dictionary holds. *)
Definition grants_revoke (grant_ref workspace_id : string) :
    M InMemoryGrantRepository (option Grant) := λ r,
  match dget grant_ref (_grants_by_ref r) with
  | None => (Ok None, r)
  | Some grant =>
      if negb (g_workspace_id grant == workspace_id) then (Ok None, r)
      else (Ok (Some (revoked grant)),
            mkInMemoryGrantRepository (dset grant_ref (revoked grant) (_grants_by_ref r)))
  end.

#[export] Instance grants_lifecycle : GrantLifecycle InMemoryGrantRepository := {|
  gr_get_by_ref := λ ref, gets (grants_get_by_ref ref);
  gr_list_grants_for_workspace := λ ws agent status, gets (grants_list_for_workspace ws agent status);
  gr_insert := grants_insert;
  gr_revoke := grants_revoke
|}.

(** ** Grant requests *)

Record InMemoryGrantRequestRepository := mkRequests { _requests_by_id : dict string GrantRequest }.

Definition insert_request (request : GrantRequest) : M InMemoryGrantRequestRepository unit := λ r,
  if din (gq_request_id request) (_requests_by_id r)
  then (Raise (ValueError ("duplicate grant request_id: " ^+ gq_request_id request)), r)
  else (Ok tt, mkRequests (dset (gq_request_id request) request (_requests_by_id r))).
Definition get_request (request_id : string) (r : InMemoryGrantRequestRepository) :
    option GrantRequest := dget request_id (_requests_by_id r).
Definition list_requests_for_workspace (workspace_id : string)
    (r : InMemoryGrantRequestRepository) : list GrantRequest :=
  List.filter (λ q, gq_workspace_id q == workspace_id) (dvalues (_requests_by_id r)).
Definition update_request (request : GrantRequest) : M InMemoryGrantRequestRepository unit := λ r,
  if negb (din (gq_request_id request) (_requests_by_id r))
  then (Raise (ValueError ("unknown grant request_id: " ^+ gq_request_id request)), r)
  else (Ok tt, mkRequests (dset (gq_request_id request) request (_requests_by_id r))).
(** The lock makes the test and the write one step. *)
Definition decide_request (request : GrantRequest) : M InMemoryGrantRequestRepository bool := λ r,
  match dget (gq_request_id request) (_requests_by_id r) with
  | None => (Ok false, r)
  | Some current =>
      if negb (gq_status current == "pending") then (Ok false, r)
      else (Ok true, mkRequests (dset (gq_request_id request) request (_requests_by_id r)))
  end.

(** ** Auto-approval rules *)

Record InMemoryAutoApprovalRuleRepository := mkRules { _rules_by_id : dict string AutoApprovalRule }.

Definition add_rule (rule : AutoApprovalRule) : M InMemoryAutoApprovalRuleRepository unit := λ r,
  if din (aar_rule_id rule) (_rules_by_id r)
  then (Raise (ValueError ("duplicate auto-approval rule_id: " ^+ aar_rule_id rule)), r)
  else (Ok tt, mkRules (dset (aar_rule_id rule) rule (_rules_by_id r))).
Definition get_rule (rule_id : string) (r : InMemoryAutoApprovalRuleRepository) :
    option AutoApprovalRule := dget rule_id (_rules_by_id r).
Definition list_rules_for_workspace (workspace_id : string)
    (r : InMemoryAutoApprovalRuleRepository) : list AutoApprovalRule :=
  List.filter (λ x, aar_workspace_id x == workspace_id) (dvalues (_rules_by_id r)).
Definition update_rule (rule : AutoApprovalRule) : M InMemoryAutoApprovalRuleRepository unit := λ r,
  if negb (din (aar_rule_id rule) (_rules_by_id r))
  then (Raise (ValueError ("unknown auto-approval rule_id: " ^+ aar_rule_id rule)), r)
  else (Ok tt, mkRules (dset (aar_rule_id rule) rule (_rules_by_id r))).

(** ** Subject tokens *)

Record InMemorySubjectTokenRepository := mkTokens { _tokens_by_hash : dict string SubjectToken }.

Definition tokens_insert (token : SubjectToken) : M InMemorySubjectTokenRepository unit := λ r,
  if din (st_token_hash token) (_tokens_by_hash r)
  then (Raise (ValueError ("duplicate subject token_hash: " ^+ st_token_hash token)), r)
  else (Ok tt, mkTokens (dset (st_token_hash token) token (_tokens_by_hash r))).
Definition tokens_get_by_hash (token_hash : string) (r : InMemorySubjectTokenRepository) :
    option SubjectToken := dget token_hash (_tokens_by_hash r).
Definition tokens_get_by_id (token_id : string) (r : InMemorySubjectTokenRepository) :
    option SubjectToken := List.find (λ t, st_token_id t == token_id) (dvalues (_tokens_by_hash r)).
(** The first entry with this id is replaced by its revoked copy. *)
Fixpoint revoke_first (token_id : string) (now : Z) (d : dict string SubjectToken) :
    option (dict string SubjectToken) :=
  match d with
  | [] => None
  | (h, t) :: d' =>
      if st_token_id t == token_id then Some ((h, st_revoke t now) :: d')
      else cons (h, t) <$> revoke_first token_id now d'
  end.
Definition tokens_revoke (token_id : string) (now : Z) : M InMemorySubjectTokenRepository bool := λ r,
  match revoke_first token_id now (_tokens_by_hash r) with
  | Some d => (Ok true, mkTokens d)
  | None => (Ok false, r)
  end.
Definition list_subject_tokens (workspace_id : string) (r : InMemorySubjectTokenRepository) :
    list SubjectToken :=
  py_sorted (λ x y, st_issued_at x <=? st_issued_at y)
    (List.filter (λ t, st_workspace_id t == workspace_id) (dvalues (_tokens_by_hash r))).

(** ** Enforcement settings *)

Record InMemoryAgentEnforcementSettingsRepository := mkSettings {
  _require_boundary : dict (string * string) bool;
  _require_subject_token : dict (string * string) bool;
  _require_pop : dict (string * string) bool
}.

(** The agent's own setting, else the workspace's, else off. *)
Definition effective_setting (d : dict (string * string) bool) (workspace_id agent_id : string) :
    bool :=
  match dget (workspace_id, agent_id) d with
  | Some agent => agent
  | None => default false (dget (workspace_id, "") d)
  end.
Definition is_boundary_required (workspace_id agent_id : string)
    (r : InMemoryAgentEnforcementSettingsRepository) : bool :=
  effective_setting (_require_boundary r) workspace_id agent_id.
Definition get_require_boundary (workspace_id agent_id : string)
    (r : InMemoryAgentEnforcementSettingsRepository) : bool :=
  is_boundary_required workspace_id agent_id r.
Definition get_require_boundary_setting (workspace_id agent_id : string)
    (r : InMemoryAgentEnforcementSettingsRepository) : option bool :=
  dget (workspace_id, agent_id) (_require_boundary r).
(** Tuples sort by agent, then by value. *)
Definition list_require_boundary (workspace_id : string)
    (r : InMemoryAgentEnforcementSettingsRepository) : list (string * bool) :=
  py_sorted (λ x y, if x.1 == y.1 then implb x.2 y.2 else String.leb x.1 y.1)
    (map (λ kv, (kv.1.2, kv.2))
      (List.filter (λ kv, kv.1.1 == workspace_id) (_require_boundary r))).
Definition set_require_boundary (workspace_id agent_id : string) (value : bool) :
    M InMemoryAgentEnforcementSettingsRepository unit := modify (λ r,
  mkSettings (dset (workspace_id, agent_id) value (_require_boundary r))
    (_require_subject_token r) (_require_pop r)).
Definition is_subject_token_required (workspace_id agent_id : string)
    (r : InMemoryAgentEnforcementSettingsRepository) : bool :=
  effective_setting (_require_subject_token r) workspace_id agent_id.
Definition get_require_subject_token_setting (workspace_id agent_id : string)
    (r : InMemoryAgentEnforcementSettingsRepository) : option bool :=
  dget (workspace_id, agent_id) (_require_subject_token r).
Definition set_require_subject_token (workspace_id agent_id : string) (value : bool) :
    M InMemoryAgentEnforcementSettingsRepository unit := modify (λ r,
  mkSettings (_require_boundary r)
    (dset (workspace_id, agent_id) value (_require_subject_token r)) (_require_pop r)).
Definition is_pop_required (workspace_id agent_id : string)
    (r : InMemoryAgentEnforcementSettingsRepository) : bool :=
  effective_setting (_require_pop r) workspace_id agent_id.
Definition get_require_pop_setting (workspace_id agent_id : string)
    (r : InMemoryAgentEnforcementSettingsRepository) : option bool :=
  dget (workspace_id, agent_id) (_require_pop r).
Definition set_require_pop (workspace_id agent_id : string) (value : bool) :
    M InMemoryAgentEnforcementSettingsRepository unit := modify (λ r,
  mkSettings (_require_boundary r) (_require_subject_token r)
    (dset (workspace_id, agent_id) value (_require_pop r))).

(** ** The in-memory grants keep their promise *)

Definition grants_repo_wf (r : InMemoryGrantRepository) : Prop :=
  dict_wf (_grants_by_ref r) ∧
  ∀ ref x, dget ref (_grants_by_ref r) = Some x → g_grant_ref x = ref.

Lemma grants_list_elem ws agent status r x :
  dict_wf (_grants_by_ref r) →
  x ∈ grants_list_for_workspace ws agent status r ↔
    (∃ ref, dict_map (_grants_by_ref r) !! ref = Some x) ∧ g_workspace_id x = ws ∧
    (∀ a, agent = Some a → g_agent_id x = a) ∧ (∀ s, status = Some s → g_status x = s).
Proof.
  intros Hwf. unfold grants_list_for_workspace.
  rewrite list_elem_of_In, filter_In, <-list_elem_of_In, py_sorted_perm.
  unfold dvalues. rewrite list_elem_of_fmap, !andb_true_iff, String.eqb_eq.
  assert (Hin : (∃ y, x = y.2 ∧ y ∈ _grants_by_ref r)
    ↔ ∃ ref, dict_map (_grants_by_ref r) !! ref = Some x).
  { split.
    - intros ([ref y] & -> & Hy). exists ref. rewrite dict_map_lookup. by apply dget_elem_iff.
    - intros (ref & Hy). rewrite dict_map_lookup in Hy. exists (ref, x).
      split; [done|]. by apply dget_elem_iff. }
  rewrite Hin.
  assert (Ha : match agent with Some a => g_agent_id x == a | None => true end = true
    ↔ ∀ a, agent = Some a → g_agent_id x = a).
  { destruct agent as [a|]; [rewrite String.eqb_eq|]; naive_solver. }
  assert (Hs : match status with Some s => g_status x == s | None => true end = true
    ↔ ∀ s, status = Some s → g_status x = s).
  { destruct status as [s|]; [rewrite String.eqb_eq|]; naive_solver. }
  rewrite Ha, Hs. tauto.
Qed.

Lemma grants_set_wf r ref x :
  grants_repo_wf r → g_grant_ref x = ref →
  grants_repo_wf (mkInMemoryGrantRepository (dset ref x (_grants_by_ref r))).
Proof.
  intros [Hwf Hkey] Href. split; simpl; [by apply dset_wf|].
  intros k y. rewrite dget_dset. case_decide; [naive_solver|apply Hkey].
Qed.

#[export] Program Instance grants_lifecycle_ok : GrantLifecycleOk InMemoryGrantRepository := {|
  gr_wf := grants_repo_wf;
  gr_view := λ r, dict_map (_grants_by_ref r)
|}.
Next Obligation. intros g ref x [_ Hkey]. rewrite dict_map_lookup. apply Hkey. Qed.
Next Obligation.
  intros ref g r g' Hwf [= <- <-]. split_and!; [done|done|]. intros o [= <-].
  by rewrite dict_map_lookup.
Qed.
Next Obligation.
  intros ws agent status g r g' Hwf [= <- <-]. split_and!; [done|done|]. intros l [= <-] x.
  apply grants_list_elem, Hwf.
Qed.
Next Obligation.
  intros x g r g' Hwf. simpl. unfold grants_insert, din.
  rewrite dict_map_lookup. case_bool_decide as Hd; intros [= <- <-].
  - split_and!; [done|done|]. intros _. eauto.
  - split_and!; [by apply grants_set_wf| |apply dict_map_dset|done].
    by apply eq_None_not_Some.
Qed.
Next Obligation.
  intros ref ws g r g' Hwf. simpl. unfold grants_revoke.
  destruct (dget ref (_grants_by_ref g)) as [x|] eqn:E.
  - destruct (String.eqb_spec (g_workspace_id x) ws) as [Hw|Hw]; simpl; intros [= <- <-].
    + split; [apply grants_set_wf; [done|exact (proj2 Hwf ref x E)]|].
      exists x. rewrite dict_map_lookup. split_and!; [done..|apply dict_map_dset].
    + split_and!; [done|done|]. intros y. rewrite dict_map_lookup. congruence.
  - intros [= <- <-]. split_and!; [done|done|]. intros y. rewrite dict_map_lookup. congruence.
Qed.

