(* ===== verification/AuditWriter.v ===== *)
(** * Writing audit events ([src/vinctor_service/audit.py])

    [AuditWriter] is the interface of an audit store; [AuditWriterOk] says what
    any store promises in terms of the log it holds: a write that returns has
    appended the event, a write that raises has appended nothing.  The in-memory
    writer is an instance.  The throttle aggregates authentication failures. *)
From S2P Require Import Prelude PyStr PyDict PyTime Models Enforce CoreAudit.

Definition AUTH_FAILURE_WINDOW_SECONDS : Z := 60.

(** ** The interface *)

Class AuditWriter (A : Type) := {
  aw_write : AuditEvent → M A unit;
  (** [isinstance(writer, BestEffortAuditWriter)]: its [write_best_effort]. *)
  aw_write_best_effort : option (AuditEvent → M A bool)
}.

Class AuditWriterOk (A : Type) `{AuditWriter A} := {
  aw_log : A → list AuditEvent;
  aw_write_ok e a r a' : aw_write e a = (r, a') →
    aw_log a' = match r with Ok _ => aw_log a ++ [e] | Raise _ => aw_log a end;
  aw_best_effort_ok f e a r a' : aw_write_best_effort = Some f → f e a = (r, a') →
    aw_log a' = match r with Ok true => aw_log a ++ [e] | _ => aw_log a end
}.

Record InMemoryAuditWriter := mkAuditWriter { events : list AuditEvent }.

Definition audit_write (event : AuditEvent) : M InMemoryAuditWriter unit :=
  modify (λ w, mkAuditWriter (events w ++ [event])).
Definition audit_write_best_effort (event : AuditEvent) : M InMemoryAuditWriter bool := λ w,
  (Ok true, mkAuditWriter (events w ++ [event])).

#[export] Instance in_memory_writer : AuditWriter InMemoryAuditWriter := {|
  aw_write := audit_write;
  aw_write_best_effort := Some audit_write_best_effort
|}.
#[export] Program Instance in_memory_writer_ok : AuditWriterOk InMemoryAuditWriter := {|
  aw_log := events
|}.
Next Obligation. by intros e a r a' [= <- <-]. Qed.
Next Obligation. by intros f e a r a' [= <-] [= <- <-]. Qed.

(** A writer whose store refuses the next [failures] writes. *)
Record FailingAuditWriter := mkFailingWriter { fw_events : list AuditEvent; fw_failures : nat }.
Definition failing_write (event : AuditEvent) : M FailingAuditWriter unit := λ w,
  match fw_failures w with
  | O => (Ok tt, mkFailingWriter (fw_events w ++ [event]) 0)
  | S n => (Raise (StorageError "audit store unavailable"), mkFailingWriter (fw_events w) n)
  end.
#[export] Instance failing_writer : AuditWriter FailingAuditWriter := {|
  aw_write := failing_write;
  aw_write_best_effort := None
|}.
#[export] Program Instance failing_writer_ok : AuditWriterOk FailingAuditWriter := {|
  aw_log := fw_events
|}.
Next Obligation.
  intros e [l n] r a' Hw. unfold aw_write in Hw. simpl in Hw. unfold failing_write in Hw.
  destruct n; simpl in Hw; by injection Hw as <- <-.
Qed.
Next Obligation. done. Qed.

(** ** [record_rejection] *)
Section rejection.
Context {A : Type} `{AuditWriterOk A}.

Definition record_rejection (event : AuditEvent) : M A bool :=
  match aw_write_best_effort with
  | Some write_best_effort => try_except (write_best_effort event) (λ _, mret false)
  | None => try_except (_ ← aw_write event; mret true) (λ _, mret false)
  end.

(** It never raises, and answers whether the event was appended. *)
Lemma record_rejection_run e a :
  ∃ b a', record_rejection e a = (Ok b, a') ∧
    aw_log a' = if b then aw_log a ++ [e] else aw_log a.
Proof.
  unfold record_rejection. destruct aw_write_best_effort as [f|] eqn:Ef.
  - unfold try_except. destruct (f e a) as [[b|x] a'] eqn:E;
      pose proof (aw_best_effort_ok _ _ _ _ _ Ef E) as Hlog.
    + exists b, a'. split; [done|]. by destruct b.
    + by exists false, a'.
  - unfold try_except, mbind, M_bind. destruct (aw_write e a) as [[u|x] a'] eqn:E;
      pose proof (aw_write_ok _ _ _ _ E) as Hlog; [by exists true, a'|by exists false, a'].
Qed.
End rejection.

(** ** [AuthFailureAuditThrottle] *)

Record AuthFailureWindow := mkWindow { win_start : Z; win_last_seen : Z; win_count : Z }.
Record AuthFailureAuditThrottle := mkThrottle {
  th_window : Z;
  th_windows : dict string AuthFailureWindow
}.

(** [_emit]'s event, with the id it draws. *)
Definition auth_failed_event (surface : string) (created_at occurrence_count first_seen_at
    last_seen_at : Z) (fresh_id : string) : AuditEvent :=
  build_rejection_audit_event
    {| rj_reason_code := REASON_AUTH_FAILED; rj_workspace_id := ""; rj_agent_id := "";
       rj_created_at := created_at; rj_event_type := EVENT_AUTH_FAILED;
       rj_action := surface; rj_resource := ""; rj_scope_attempted := Some "";
       rj_boundary_id := None; rj_enforcing_principal := None; rj_event_id := None;
       rj_occurrence_count := Some occurrence_count;
       rj_first_seen_at := Some first_seen_at; rj_last_seen_at := Some last_seen_at |} fresh_id.

(** The transition made under the lock: [None] when the failure is only
    counted, else the window it closed, if it saw more than one failure. *)
Definition throttle_step (surface : string) (now : Z) :
    M AuthFailureAuditThrottle (option (option AuthFailureWindow)) := λ t,
  let roll (closed : option AuthFailureWindow) :=
    (Ok (Some closed),
     mkThrottle (th_window t) (dset surface (mkWindow now now 1) (th_windows t))) in
  match dget surface (th_windows t) with
  | Some window =>
      if now - win_start window <? th_window t then
        (Ok None,
         mkThrottle (th_window t)
           (dset surface (mkWindow (win_start window) now (win_count window + 1)) (th_windows t)))
      else roll (if 1 <? win_count window then Some window else None)
  | None => roll None
  end.

(** The events a transition emits, in order; [id] numbers the ids drawn. *)
Definition emissions (surface : string) (now : Z) (step : option (option AuthFailureWindow))
    (ids : nat → string) : list AuditEvent :=
  match step with
  | None => []
  | Some closed =>
      match closed with
      | Some w => [auth_failed_event surface (win_last_seen w) (win_count w) (win_start w)
                     (win_last_seen w) (ids 0%nat)]
      | None => []
      end ++
      [auth_failed_event surface now 1 now now
         (ids (match closed with Some _ => 1%nat | None => 0%nat end))]
  end.

(** The failures an event accounts for beyond the first of its window, and
    whether it opened a window. *)
Definition occurrences (e : AuditEvent) : Z := default 0 (e_occurrence_count e).
Definition is_summary (e : AuditEvent) : bool := 1 <? occurrences e.
Definition opened (l : list AuditEvent) : Z :=
  Z.of_nat (length (List.filter (λ e, negb (is_summary e)) l)).
Definition repeats (l : list AuditEvent) : Z :=
  foldr (λ e n, (occurrences e - 1) + n) 0 l.

(** The events a run of failures on one surface emits. *)
Fixpoint emitted (surface : string) (times : list Z) (ids : nat → nat → string)
    (t : AuthFailureAuditThrottle) : list AuditEvent * AuthFailureAuditThrottle :=
  match times with
  | [] => ([], t)
  | now :: times' =>
      match throttle_step surface now t with
      | (Ok step, t') =>
          let '(l, t'') := emitted surface times' (λ n, ids (S n)) t' in
          (emissions surface now step (ids 0%nat) ++ l, t'')
      | (Raise _, t') => ([], t')
      end
  end.
Definition pending (surface : string) (t : AuthFailureAuditThrottle) : Z :=
  match dget surface (th_windows t) with Some w => win_count w - 1 | None => 0 end.

Lemma opened_app l1 l2 : opened (l1 ++ l2) = opened l1 + opened l2.
Proof. unfold opened. rewrite List.filter_app, length_app. lia. Qed.
Lemma repeats_app l1 l2 : repeats (l1 ++ l2) = repeats l1 + repeats l2.
Proof. unfold repeats. induction l1 as [|e l1 IH]; simpl; lia. Qed.

Lemma throttle_step_accounts surface now t step t' ids :
  throttle_step surface now t = (Ok step, t') → 0 ≤ pending surface t →
  pending surface t + 1 =
    opened (emissions surface now step ids) + repeats (emissions surface now step ids)
    + pending surface t' ∧
  0 ≤ pending surface t'.
Proof.
  unfold throttle_step, pending. destruct (dget surface (th_windows t)) as [w|] eqn:E.
  - destruct (now - win_start w <? th_window t).
    + intros [= <- <-] H. simpl. rewrite dget_dset_eq. unfold opened, repeats. simpl. lia.
    + destruct (Z.ltb_spec 1 (win_count w)) as [Hc|Hc]; intros [= <- <-] H; simpl;
        rewrite dget_dset_eq; unfold opened, repeats, is_summary, occurrences; simpl; [|lia].
      rewrite (proj2 (Z.ltb_lt _ _) Hc). simpl. lia.
  - intros [= <- <-] H. simpl. rewrite dget_dset_eq. unfold opened, repeats, is_summary, occurrences. simpl. lia.
Qed.

(** No failure is lost and none is counted twice: after any run of
    failures on a surface, their number is the number of windows opened (one
    timely event each), plus the repeats the summaries report, plus the repeats
    still pending in the open window. *)
Theorem throttle_accounts_failures surface times ids window :
  let '(l, t) := emitted surface times ids (mkThrottle window []) in
  Z.of_nat (length times) = opened l + repeats l + pending surface t ∧ 0 ≤ pending surface t.
Proof.
  assert (H : ∀ t, 0 ≤ pending surface t →
    let '(l, t') := emitted surface times ids t in
    pending surface t + Z.of_nat (length times) = opened l + repeats l + pending surface t' ∧
    0 ≤ pending surface t').
  { revert ids. induction times as [|now times IH]; intros ids t Ht.
    - unfold opened, repeats. simpl. lia.
    - cbn [emitted]. destruct (throttle_step surface now t) as [[step|x] t'] eqn:E.
      + destruct (throttle_step_accounts _ _ _ _ _ (ids 0%nat) E Ht) as [Hs Ht'].
        specialize (IH (λ n, ids (S n)) t' Ht').
        destruct (emitted surface times _ t') as [l t'']. destruct IH as [IH ?].
        rewrite opened_app, repeats_app. simpl length. lia.
      + exfalso. revert E. unfold throttle_step. repeat case_match; congruence. }
  specialize (H (mkThrottle window [])). unfold pending at 1 2 in H. simpl in H.
  specialize (H ltac:(lia)). destruct (emitted _ _ _ _) as [l t]. lia.
Qed.

(** A flood of failures within one window emits nothing at all. *)
Theorem throttle_window_silent surface times ids t w :
  dget surface (th_windows t) = Some w →
  Forall (λ now, now - win_start w < th_window t) times →
  (emitted surface times ids t).1 = [] ∧
  pending surface (emitted surface times ids t).2 = win_count w - 1 + Z.of_nat (length times).
Proof.
  revert ids t w. induction times as [|now times IH]; intros ids t w E Hin.
  - unfold pending. simpl. rewrite E. split; [done|lia].
  - apply Forall_cons in Hin as [Hnow Hin]. cbn [emitted]. unfold throttle_step.
    rewrite E, (proj2 (Z.ltb_lt _ _) Hnow).
    destruct (IH (λ n, ids (S n)) (mkThrottle (th_window t)
      (dset surface (mkWindow (win_start w) now (win_count w + 1)) (th_windows t)))
      (mkWindow (win_start w) now (win_count w + 1))) as [H1 H2];
      [apply dget_dset_eq|done|].
    destruct (emitted surface times _ _) as [l t']. simpl in *. rewrite H1, H2.
    split; [done|lia].
Qed.
Lemma throttle_window_silent_witness :
  (emitted "v1" [5; 9; 20] (λ _ _, "evt") (mkThrottle 60 [("v1", mkWindow 0 0 1)])).1 = [].
Proof.
  refine (proj1 (throttle_window_silent "v1" [5; 9; 20] (λ _ _, "evt")
    (mkThrottle 60 [("v1", mkWindow 0 0 1)]) (mkWindow 0 0 1) eq_refl _)).
  repeat constructor; simpl; lia.
Defined.
