(* ===== verification/World.v ===== *)
(** * The state of a service

    One record holds what the service's parts keep between requests: the grants
    (any [GrantLifecycle]), the other repositories, the boundary registry, the
    replay cache, the throttle, the audit writer (any [AuditWriter]) and the
    source of random names.  [zoom] runs an operation of one part on the whole;
    what the other parts hold is then untouched by construction. *)
From S2P Require Import Prelude PyStr PyDict PyTime Models Registry Enforce CoreAudit Sha256 Pop.
From S2P Require Import ServiceModels Repositories AuditWriter.

(** ** Random names

    [secrets.token_urlsafe(n)]: the [k]-th draw of the run, of [n] bytes. *)
Record Entropy := mkEntropy { en_source : nat → nat → string; en_drawn : nat }.
Definition token_urlsafe (nbytes : nat) : M Entropy string := λ e,
  (Ok (en_source e nbytes (en_drawn e)), mkEntropy (en_source e) (S (en_drawn e))).

Record World (G A : Type) := mkWorld {
  w_grants : G;
  w_bounds : dict (string * string) AgentIssuableBounds;
  w_requests : InMemoryGrantRequestRepository;
  w_rules : InMemoryAutoApprovalRuleRepository;
  w_tokens : InMemorySubjectTokenRepository;
  w_settings : InMemoryAgentEnforcementSettingsRepository;
  w_registry : BoundaryRegistry;
  w_pop : option PopReplayCache;
  w_throttle : AuthFailureAuditThrottle;
  w_audit : A;
  w_entropy : Entropy
}.
Arguments mkWorld {G A}.
Arguments w_grants {G A}. Arguments w_bounds {G A}. Arguments w_requests {G A}.
Arguments w_rules {G A}. Arguments w_tokens {G A}. Arguments w_settings {G A}.
Arguments w_registry {G A}. Arguments w_pop {G A}. Arguments w_throttle {G A}.
Arguments w_audit {G A}. Arguments w_entropy {G A}.

Definition zoom {S T A} (get : S → T) (set : T → S → S) (m : M T A) : M S A := λ s,
  let '(r, t) := m (get s) in (r, set t s).

Section world.
Context {G A : Type}.
Abbreviation W := (World G A).

Definition set_grants (x : G) (w : W) : W :=
  mkWorld x (w_bounds w) (w_requests w) (w_rules w) (w_tokens w) (w_settings w) (w_registry w)
    (w_pop w) (w_throttle w) (w_audit w) (w_entropy w).
Definition set_bounds_store x (w : W) : W :=
  mkWorld (w_grants w) x (w_requests w) (w_rules w) (w_tokens w) (w_settings w) (w_registry w)
    (w_pop w) (w_throttle w) (w_audit w) (w_entropy w).
Definition set_requests x (w : W) : W :=
  mkWorld (w_grants w) (w_bounds w) x (w_rules w) (w_tokens w) (w_settings w) (w_registry w)
    (w_pop w) (w_throttle w) (w_audit w) (w_entropy w).
Definition set_rules x (w : W) : W :=
  mkWorld (w_grants w) (w_bounds w) (w_requests w) x (w_tokens w) (w_settings w) (w_registry w)
    (w_pop w) (w_throttle w) (w_audit w) (w_entropy w).
Definition set_tokens x (w : W) : W :=
  mkWorld (w_grants w) (w_bounds w) (w_requests w) (w_rules w) x (w_settings w) (w_registry w)
    (w_pop w) (w_throttle w) (w_audit w) (w_entropy w).
Definition set_settings x (w : W) : W :=
  mkWorld (w_grants w) (w_bounds w) (w_requests w) (w_rules w) (w_tokens w) x (w_registry w)
    (w_pop w) (w_throttle w) (w_audit w) (w_entropy w).
Definition set_registry x (w : W) : W :=
  mkWorld (w_grants w) (w_bounds w) (w_requests w) (w_rules w) (w_tokens w) (w_settings w) x
    (w_pop w) (w_throttle w) (w_audit w) (w_entropy w).
Definition set_pop x (w : W) : W :=
  mkWorld (w_grants w) (w_bounds w) (w_requests w) (w_rules w) (w_tokens w) (w_settings w)
    (w_registry w) x (w_throttle w) (w_audit w) (w_entropy w).
Definition set_throttle x (w : W) : W :=
  mkWorld (w_grants w) (w_bounds w) (w_requests w) (w_rules w) (w_tokens w) (w_settings w)
    (w_registry w) (w_pop w) x (w_audit w) (w_entropy w).
Definition set_audit (x : A) (w : W) : W :=
  mkWorld (w_grants w) (w_bounds w) (w_requests w) (w_rules w) (w_tokens w) (w_settings w)
    (w_registry w) (w_pop w) (w_throttle w) x (w_entropy w).
Definition set_entropy x (w : W) : W :=
  mkWorld (w_grants w) (w_bounds w) (w_requests w) (w_rules w) (w_tokens w) (w_settings w)
    (w_registry w) (w_pop w) (w_throttle w) (w_audit w) x.

Definition on_grants {X} (m : M G X) : M W X := zoom w_grants set_grants m.
Definition on_requests {X} (m : M _ X) : M W X := zoom w_requests set_requests m.
Definition on_rules {X} (m : M _ X) : M W X := zoom w_rules set_rules m.
Definition on_tokens {X} (m : M _ X) : M W X := zoom w_tokens set_tokens m.
Definition on_registry {X} (m : M _ X) : M W X := zoom w_registry set_registry m.
Definition on_throttle {X} (m : M _ X) : M W X := zoom w_throttle set_throttle m.
Definition on_audit {X} (m : M A X) : M W X := zoom w_audit set_audit m.
Definition on_entropy {X} (m : M _ X) : M W X := zoom w_entropy set_entropy m.

(** The cache an operation runs on, when one is wired. *)
Definition on_pop_cache {X} (m : M PopReplayCache X) (absent : X) : M W X := λ w,
  match w_pop w with
  | Some c => let '(r, c') := m c in (r, set_pop (Some c') w)
  | None => (Ok absent, w)
  end.

(** [_new_event_id()], [_new_id(prefix)] and [_new_key(prefix)]. *)
Definition new_event_id : M W string :=
  t ← on_entropy (token_urlsafe 12); mret ("evt_" ^+ t).
Definition _new_id (prefix : string) : M W string :=
  t ← on_entropy (token_urlsafe 16); mret (prefix ^+ "_" ^+ t).
Definition _new_key (prefix : string) : M W string :=
  t ← on_entropy (token_urlsafe 24); mret (prefix ^+ t).
(** [given or _new_id(prefix)] *)
Definition given_or_new (given : option string) (prefix : string) : M W string :=
  match given with
  | Some x => if x == "" then _new_id prefix else mret x
  | None => _new_id prefix
  end.
End world.

(** [hashlib.sha256(raw_key).hexdigest()] *)
Definition _hash_key (raw_key : string) : string := sha256_hex raw_key.

(** ** The throttle's [record] *)
Section record.
Context {G A : Type} `{AuditWriter A}.

Definition _emit (surface : string) (created_at occurrence_count first_seen_at last_seen_at : Z) :
    M (World G A) unit :=
  event_id ← new_event_id;
  _ ← on_audit (record_rejection
    (auth_failed_event surface created_at occurrence_count first_seen_at last_seen_at event_id));
  mret tt.

Definition record_auth_failure (surface : string) (now : Z) : M (World G A) unit :=
  step ← on_throttle (throttle_step surface now);
  match step with
  | None => mret tt
  | Some closed =>
      _ ← match closed with
          | Some w => _emit surface (win_last_seen w) (win_count w) (win_start w) (win_last_seen w)
          | None => mret tt
          end;
      _emit surface now 1 now now
  end.
End record.

(** ** Inverting runs *)

Lemma zoom_inv {S T A} (get : S → T) set (m : M T A) s r s' :
  zoom get set m s = (r, s') → ∃ t, m (get s) = (r, t) ∧ s' = set t s.
Proof. unfold zoom. destruct (m (get s)) as [r1 t]. intros [= <- <-]. eauto. Qed.
Lemma zoom_run {S T A} (get : S → T) set (m : M T A) s r t :
  m (get s) = (r, t) → zoom get set m s = (r, set t s).
Proof. unfold zoom. by intros ->. Qed.

Lemma set_grants_id {G A} (w : World G A) : set_grants (w_grants w) w = w.
Proof. by destruct w. Qed.
Lemma set_audit_id {G A} (w : World G A) : set_audit (w_audit w) w = w.
Proof. by destruct w. Qed.

(** The [i]-th event id a world draws next. *)
Definition next_id {G A} (w : World G A) (nbytes : nat) : string :=
  en_source (w_entropy w) nbytes (en_drawn (w_entropy w)).
Definition drew {G A} (w : World G A) : World G A :=
  set_entropy (mkEntropy (en_source (w_entropy w)) (S (en_drawn (w_entropy w)))) w.
Lemma new_event_id_run {G A} (w : World G A) :
  new_event_id w = (Ok ("evt_" ^+ next_id w 12), drew w).
Proof. done. Qed.
Lemma _new_id_run {G A} prefix (w : World G A) :
  _new_id prefix w = (Ok (prefix ^+ "_" ^+ next_id w 16), drew w).
Proof. done. Qed.
Lemma _new_key_run {G A} prefix (w : World G A) :
  _new_key prefix w = (Ok (prefix ^+ next_id w 24), drew w).
Proof. done. Qed.
Lemma given_or_new_run {G A} given prefix (w : World G A) :
  ∃ id w', given_or_new given prefix w = (Ok id, w') ∧ (w' = w ∨ w' = drew w) ∧
    (∀ x, given = Some x → x ≠ "" → id = x).
Proof.
  unfold given_or_new. destruct given as [x|].
  - destruct (String.eqb_spec x "") as [->|Hx].
    + eexists _, _. split; [apply _new_id_run|]. split; [by right|]. naive_solver.
    + exists x, w. split; [done|]. split; [by left|]. naive_solver.
  - eexists _, _. split; [apply _new_id_run|]. split; [by right|]. naive_solver.
Qed.
