(* ===== verification/V1Enforce.v ===== *)
(** * The enforce contracts ([src/vinctor_service/v1_enforce.py])

    Direct enforcement (an agent asks about its own grant) and delegated
    enforcement (a policy enforcement point asks on behalf of a subject, which
    may prove its identity with a token).  The optional parameters of the source
    are options here: the boundary registry and the settings repository are read
    through lookups, which may raise; the token repository is a lookup too.

    Every operation runs on a [World]; the theorems of this file are stated for
    any grant repository and any audit writer that keep their promises. *)
From S2P Require Import Prelude PyStr PyDict PyTime Sha256 Pop Scope Models Registry Enforce.
From S2P Require Import CoreAudit ServiceModels Repositories AuditWriter World.

(** [AgentEnforcementSettingsRepository], as the contracts read it. *)
Record SettingsLookup := mkSettingsLookup {
  sl_is_boundary_required : string → string → result bool;
  sl_is_subject_token_required : string → string → result bool;
  sl_is_pop_required : string → string → result bool
}.
(** [SubjectTokenRepository.get_by_hash] *)
Definition TokenLookup : Type := string → result (option SubjectToken).

Definition _GRANT_FORBIDDEN_MESSAGE := "grant is not accessible for this request".
Definition TOKEN_INVALID_MESSAGE := "subject token is not valid".

Definition _pre_audit_error (status_code : Z) (error reason : string) : V1EnforceResponse :=
  mkV1EnforceResponse status_code None (Some error) (Some reason) None.

Definition _response_from_decision (decision : DecisionResult) (audit_event : AuditEvent) :
    V1EnforceResponse :=
  if is_permit (d_decision decision) then
    mkV1EnforceResponse 200 (Some permit) None None (Some (e_event_id audit_event))
  else
    let agent_reason := agent_facing_reason (d_reason decision) in
    mkV1EnforceResponse 403 (Some deny) (Some agent_reason) (Some agent_reason)
      (Some (e_event_id audit_event)).

Definition _invalid_action_reason (action : string) : string :=
  if action == "push" then
    "action 'push' is not a recognized v1 action verb; use 'write' for git push operations"
  else "action '" ^+ action ^+ "' is not a recognized v1 action verb".

Section contracts.
Context {G A : Type} `{GrantLifecycle G} `{AuditWriter A}.

(** The rejection event, with [event_id] the id drawn for it. *)
Definition rejection_event (reason_code workspace_id agent_id action resource : string)
    (boundary_id : option string) (now : Z) (enforcing_principal : option string)
    (event_id : string) : AuditEvent :=
  build_rejection_audit_event
    {| rj_reason_code := reason_code; rj_workspace_id := workspace_id; rj_agent_id := agent_id;
       rj_created_at := now; rj_event_type := EVENT_ACCESS_REJECTED;
       rj_action := action; rj_resource := resource; rj_scope_attempted := None;
       rj_boundary_id := boundary_id; rj_enforcing_principal := enforcing_principal;
       rj_event_id := None; rj_occurrence_count := None; rj_first_seen_at := None;
       rj_last_seen_at := None |} event_id.

Definition _record_rejection (reason_code workspace_id agent_id action resource : string)
    (boundary_id : option string) (now : Z) (enforcing_principal : option string) :
    M (World G A) unit :=
  suppress (
    event_id ← new_event_id;
    on_audit (aw_write (rejection_event reason_code workspace_id agent_id action resource
      boundary_id now enforcing_principal event_id))).

Definition _evaluate_and_record (grant : Grant) (action resource : string)
    (boundary_id : option string) (now : Z) (boundary_registry : option BoundaryLookup)
    (enforcing_principal : option string) (subject_token_verified : bool)
    (token_id : option string) (require_boundary : bool) : M (World G A) V1EnforceResponse :=
  if negb (is_valid_requested_action action) then
    mret (_pre_audit_error 400 "scope_invalid" (_invalid_action_reason action))
  else if negb (is_valid_requested_resource resource) then
    mret (_pre_audit_error 400 "scope_invalid"
            ("resource '" ^+ resource ^+ "' is not a valid v1 resource path"))
  else
    let decision := evaluate_enforce
      {| ei_grant := grant; ei_action := action; ei_resource := resource; ei_now := now;
         ei_boundary_id := boundary_id; ei_boundary_registry := boundary_registry;
         ei_require_boundary := require_boundary |} in
    event_id ← new_event_id;
    let audit_event := build_audit_event
      {| ai_decision := decision; ai_event_id := None; ai_created_at := Some now;
         ai_enforcing_principal := enforcing_principal;
         ai_subject_token_verified := subject_token_verified;
         ai_token_id := token_id |} event_id now in
    try_except
      (_ ← on_audit (aw_write audit_event);
       mret (_response_from_decision decision audit_event))
      (λ _, mret (_pre_audit_error 503 "service_unavailable"
                    "audit write failed; no decision was recorded")).

(** [grant_repository.get_by_ref(ref)] inside its [try]. *)
Definition lookup_or_error (grant_ref : string) : M (World G A) (option (option Grant)) :=
  try_except (g ← on_grants (gr_get_by_ref grant_ref); mret (Some g)) (λ _, mret None).

Definition grant_lookup_failed : V1EnforceResponse :=
  _pre_audit_error 503 "service_unavailable" "grant lookup failed; no decision was recorded".

Definition setting (get : SettingsLookup → string → string → result bool)
    (settings : option SettingsLookup) (workspace_id agent_id : string) : M (World G A) bool :=
  match settings with
  | Some s => lift (get s workspace_id agent_id)
  | None => mret false
  end.

Definition enforce_v1_contract (request : V1EnforceRequest) (now : Z)
    (boundary_registry : option BoundaryLookup) (settings : option SettingsLookup) :
    M (World G A) V1EnforceResponse :=
  found ← lookup_or_error (v1_grant_ref request);
  match found with
  | None => mret grant_lookup_failed
  | Some found =>
      let foreign :=
        match found with
        | None => true
        | Some grant => negb (g_workspace_id grant == v1_workspace_id request)
                        || negb (g_agent_id grant == v1_agent_id request)
        end in
      match found, foreign with
      | Some grant, false =>
          require_boundary ←
            setting sl_is_boundary_required settings (v1_workspace_id request) (v1_agent_id request);
          _evaluate_and_record grant (v1_action request) (v1_resource request)
            (v1_boundary_id request) now boundary_registry None false None require_boundary
      | _, _ =>
          _ ← _record_rejection REASON_AGENT_GRANT_MISMATCH (v1_workspace_id request)
                (v1_agent_id request) (v1_action request) (v1_resource request)
                (v1_boundary_id request) now None;
          mret (_pre_audit_error 403 "forbidden" _GRANT_FORBIDDEN_MESSAGE)
      end
  end.

(** ** Delegated enforcement *)

(** The audience, identity and binding clauses of a token. *)
Definition token_mismatch (token : SubjectToken) (request : V1DelegatedEnforceRequest)
    (trusted_ws : string) (grant : Grant) : bool :=
  negb (st_audience token == dv_pep_id request)
  || negb (st_workspace_id token == trusted_ws)
  || negb (st_agent_id token == dv_agent_id request)
  || negb (st_workspace_id token == dv_workspace_id request)
  || negb (st_grant_ref token == dv_grant_ref request)
  || negb (st_agent_id token == g_agent_id grant)
  || negb (st_workspace_id token == g_workspace_id grant)
  || negb (st_grant_ref token == g_grant_ref grant)
  || match st_bound_action token with Some a => negb (a == dv_action request) | None => false end
  || match st_bound_resource token with Some r => negb (r == dv_resource request) | None => false end.

Context (int_unicode : string → result Z).

(** The proof-of-possession test of a token that has a secret. *)
Definition proof_ok (request : V1DelegatedEnforceRequest) (token : SubjectToken)
    (pop_secret : string) (now pop_skew_seconds : Z) : M (World G A) bool :=
  try_except
    (on_pop_cache
       (verify_pop int_unicode (dv_subject_token_proof request) pop_secret (st_token_id token)
          (dv_action request) (dv_resource request) now pop_skew_seconds) false)
    (λ _, mret false).

(** The token block: the reason code of the rejection, or the proven token. *)
Definition check_subject_token (request : V1DelegatedEnforceRequest) (subject_token trusted_ws : string)
    (grant : Grant) (now : Z) (tokens : option TokenLookup) (is_pop_required : bool)
    (pop_skew_seconds : Z) : M (World G A) (string + option SubjectToken) :=
  token ← try_except
    (match tokens with
     | Some get_by_hash => lift (get_by_hash (_hash_key subject_token))
     | None => mret None
     end) (λ _, mret None);
  match token with
  | None => mret (inl REASON_SUBJECT_TOKEN_NOT_FOUND)
  | Some token =>
      if bool_decide (is_Some (st_revoked_at token)) then mret (inl REASON_SUBJECT_TOKEN_REVOKED)
      else if st_expires_at token <=? now then mret (inl REASON_SUBJECT_TOKEN_EXPIRED)
      else if token_mismatch token request trusted_ws grant
      then mret (inl REASON_SUBJECT_TOKEN_MISMATCH)
      else
        match st_pop_secret token with
        | Some pop_secret =>
            ok ← proof_ok request token pop_secret now pop_skew_seconds;
            if negb ok then mret (inl REASON_POP_PROOF_INVALID) else mret (inr (Some token))
        | None =>
            if is_pop_required then mret (inl REASON_POP_REQUIRED) else mret (inr (Some token))
        end
  end.

(** A rejection of a delegated request, audited in the trusted workspace. *)
Definition delegated_reject (request : V1DelegatedEnforceRequest) (trusted_ws reason_code : string)
    (now : Z) (message : string) : M (World G A) V1EnforceResponse :=
  _ ← _record_rejection reason_code trusted_ws (dv_agent_id request) (dv_action request)
        (dv_resource request) (dv_boundary_id request) now (Some (dv_pep_id request));
  mret (_pre_audit_error 403 "forbidden" message).

Definition delegated_enforce_v1_contract (request : V1DelegatedEnforceRequest) (now : Z)
    (boundary_registry : option BoundaryLookup) (pep_workspace_id : option string)
    (tokens : option TokenLookup) (settings : option SettingsLookup) (pop_skew_seconds : Z) :
    M (World G A) V1EnforceResponse :=
  match str_or pep_workspace_id None with
  | None =>
      mret (_pre_audit_error 403 "forbidden"
              "delegated enforce requires a trusted PEP workspace identity")
  | Some trusted_ws =>
      if negb (dv_workspace_id request == "") && negb (dv_workspace_id request == trusted_ws)
      then delegated_reject request trusted_ws REASON_AGENT_GRANT_MISMATCH now
             _GRANT_FORBIDDEN_MESSAGE
      else
        found ← lookup_or_error (dv_grant_ref request);
        match found with
        | None => mret grant_lookup_failed
        | Some None =>
            delegated_reject request trusted_ws REASON_AGENT_GRANT_MISMATCH now
              _GRANT_FORBIDDEN_MESSAGE
        | Some (Some grant) =>
            if negb (g_workspace_id grant == trusted_ws)
               || negb (g_agent_id grant == dv_agent_id request)
            then delegated_reject request trusted_ws REASON_AGENT_GRANT_MISMATCH now
                   _GRANT_FORBIDDEN_MESSAGE
            else
              require_subject_token ←
                setting sl_is_subject_token_required settings trusted_ws (dv_agent_id request);
              is_pop_required ←
                setting sl_is_pop_required settings trusted_ws (dv_agent_id request);
              if (require_subject_token || is_pop_required)
                 && match dv_subject_token request with Some t => is_blank t | None => true end
              then
                delegated_reject request trusted_ws
                  (if require_subject_token then REASON_SUBJECT_TOKEN_REQUIRED
                   else REASON_POP_REQUIRED) now "a subject token is required"
              else
                proven ← match dv_subject_token request with
                  | None => mret (inr None)
                  | Some subject_token =>
                      check_subject_token request subject_token trusted_ws grant now tokens
                        is_pop_required pop_skew_seconds
                  end;
                match proven with
                | inl reason_code =>
                    delegated_reject request trusted_ws reason_code now TOKEN_INVALID_MESSAGE
                | inr token =>
                    require_boundary ←
                      setting sl_is_boundary_required settings trusted_ws (dv_agent_id request);
                    _evaluate_and_record grant (dv_action request) (dv_resource request)
                      (dv_boundary_id request) now boundary_registry (Some (dv_pep_id request))
                      (bool_decide (is_Some token)) (st_token_id <$> token) require_boundary
                end
        end
  end.
End contracts.

(** ** Specification *)
Section facts.
Context {G A : Type} `{HG : GrantLifecycleOk G} `{HA : AuditWriterOk A}.
Abbreviation W := (World G A).
Implicit Types (w : W).

Definition log w : list AuditEvent := aw_log (w_audit w).
Definition grants w : gmap string Grant := gr_view (w_grants w).
Definition wf w : Prop := gr_wf (w_grants w).

(** What an enforce request may change: the audit log, the replay cache and the
    names drawn. *)
Definition untouched w w' : Prop :=
  wf w → wf w' ∧ grants w' = grants w ∧ w_bounds w' = w_bounds w ∧
  w_requests w' = w_requests w ∧ w_rules w' = w_rules w ∧ w_tokens w' = w_tokens w ∧
  w_settings w' = w_settings w ∧ w_registry w' = w_registry w ∧ w_throttle w' = w_throttle w.

#[export] Instance untouched_preorder : PreOrder untouched.
Proof.
  split.
  - intros w Hw. by split_and!.
  - intros w1 w2 w3 H12 H23 Hw. destruct (H12 Hw) as (Hw2&?&?&?&?&?&?&?&?).
    destruct (H23 Hw2) as (Hw3&?&?&?&?&?&?&?&?). split_and!; [done|congruence..].
Qed.
(** A response without a decision, and what it may have written: nothing, or
    one rejection of the caller's own workspace. *)
Definition undecided (workspace_id : string) w w' (resp : V1EnforceResponse) : Prop :=
  rs_decision resp = None ∧ rs_audit_event_id resp = None ∧
  (log w' = log w ∨
   ∃ e, log w' = log w ++ [e] ∧ e_event_type e = EVENT_ACCESS_REJECTED ∧
        e_decision e = deny ∧ e_workspace_id e = workspace_id).

(** A response that carries a decision: the decision is [evaluate_enforce]'s on
    a valid request, exactly one event was written, and the response names it. *)
Definition decided (i : EnforceInput) (principal : option string) (token : option SubjectToken)
    w w' (resp : V1EnforceResponse) : Prop :=
  request_valid i ∧
  ∃ event_id,
    let event := build_audit_event
      (mkAuditEventInput (evaluate_enforce i) None (Some (ei_now i)) principal
         (bool_decide (is_Some token)) (st_token_id <$> token)) event_id (ei_now i) in
    log w' = log w ++ [event] ∧
    resp = _response_from_decision (evaluate_enforce i) event.

(** ** Runs of the building blocks *)

Lemma record_rejection_v1 code ws agent action resource b now p w :
  ∃ a (ok : bool), _record_rejection code ws agent action resource b now p w
      = (Ok tt, set_audit a (drew w)) ∧
    aw_log a = if ok
      then log w ++ [rejection_event code ws agent action resource b now p ("evt_" ^+ next_id w 12)]
      else log w.
Proof.
  unfold _record_rejection, suppress, try_except, mbind, M_bind.
  rewrite new_event_id_run. unfold on_audit, zoom.
  destruct (aw_write _ (w_audit (drew w))) as [[u|e] a] eqn:E;
    pose proof (aw_write_ok _ _ _ _ E) as Hlog; [by exists a, true|by exists a, false].
Qed.

Lemma evaluate_and_record_run grant action resource b now br p (token : option SubjectToken) rb w :
  let i := mkEnforceInput grant action resource now b br rb in
  ∃ resp w', _evaluate_and_record grant action resource b now br p
      (bool_decide (is_Some token)) (st_token_id <$> token) rb w = (Ok resp, w') ∧
    ((rs_decision resp = None ∧ rs_audit_event_id resp = None ∧ log w' = log w) ∨
     decided i p token w w' resp).
Proof.
  cbv zeta. unfold _evaluate_and_record.
  destruct (is_valid_requested_action action) eqn:Ea; cbn [negb];
    [|eexists _, w; split; [done|by left]].
  destruct (is_valid_requested_resource resource) eqn:Er; cbn [negb];
    [|eexists _, w; split; [done|by left]].
  rewrite (bind_run _ _ _ _ _ (new_event_id_run w)).
  unfold try_except, mbind, M_bind, on_audit, zoom.
  destruct (aw_write _ (w_audit (drew w))) as [[u|e] a] eqn:E;
    pose proof (aw_write_ok _ _ _ _ E) as Hlog.
  - eexists _, _. split; [reflexivity|]. right. split; [done|]. eexists. split; [exact Hlog|done].
  - eexists _, _. split; [reflexivity|]. left. split_and!; [done|done|exact Hlog].
Qed.

Lemma lookup_or_error_run ref w :
  wf w → ∃ g', gr_wf g' ∧ gr_view g' = grants w ∧
    (lookup_or_error ref w = (Ok (Some (grants w !! ref)), set_grants g' w) ∨
     lookup_or_error ref w = (Ok None, set_grants g' w)).
Proof.
  intros Hw. unfold lookup_or_error, try_except, mbind, M_bind, on_grants, zoom.
  destruct (gr_get_by_ref ref (w_grants w)) as [r g'] eqn:E.
  destruct (gr_get_ok ref _ _ _ Hw E) as (Hwf & Hview & Hr). exists g'.
  split; [done|]. split; [done|]. destruct r as [o|e]; [|by right].
  left. by rewrite (Hr o eq_refl).
Qed.

(** The mandate of a setting; no settings repository mandates nothing. *)
Definition mandated (get : SettingsLookup → string → string → result bool)
    (settings : option SettingsLookup) (ws agent : string) : Prop :=
  ∃ s, settings = Some s ∧ get s ws agent = Ok true.

Lemma setting_run get settings ws agent w :
  ∃ r, setting (G := G) (A := A) get settings ws agent w = (r, w) ∧
    ∀ b, r = Ok b → (mandated get settings ws agent ↔ b = true).
Proof.
  unfold setting, mandated, lift, mret, M_ret. destruct settings as [s|].
  - exists (get s ws agent). split; [done|]. intros b Hb.
    split; [intros (s' & [= <-] & E); congruence|intros ->; eauto].
  - exists (Ok false). split; [done|]. intros b [= <-]. naive_solver.
Qed.

(** ** Direct enforcement *)

(** The caller may use the grant its request names. *)
Definition own_grant (request : V1EnforceRequest) (g : Grant) : Prop :=
  g_workspace_id g = v1_workspace_id request ∧ g_agent_id g = v1_agent_id request.
Definition v1_input (request : V1EnforceRequest) (g : Grant) (now : Z)
    (br : option BoundaryLookup) (require_boundary : bool) : EnforceInput :=
  mkEnforceInput g (v1_action request) (v1_resource request) now (v1_boundary_id request) br
    require_boundary.

Lemma enforce_v1_outcome request now br settings w resp w' :
  wf w → enforce_v1_contract request now br settings w = (Ok resp, w') →
  undecided (v1_workspace_id request) w w' resp ∨
  ∃ g rb, grants w !! v1_grant_ref request = Some g ∧ own_grant request g ∧
    (mandated sl_is_boundary_required settings (v1_workspace_id request) (v1_agent_id request) ↔
     rb = true) ∧
    decided (v1_input request g now br rb) None None w w' resp.
Proof.
  intros Hw. unfold enforce_v1_contract.
  destruct (lookup_or_error_run (v1_grant_ref request) w Hw) as (g' & Hg' & Hview & [E|E]);
    rewrite (bind_run _ _ _ _ _ E).
  2: { intros [= <- <-]. left. split_and!; [done|done|by left]. }
  assert (Hreject : ∀ m : M W V1EnforceResponse,
    m = (_ ← _record_rejection REASON_AGENT_GRANT_MISMATCH (v1_workspace_id request)
           (v1_agent_id request) (v1_action request) (v1_resource request)
           (v1_boundary_id request) now None;
         mret (_pre_audit_error 403 "forbidden" _GRANT_FORBIDDEN_MESSAGE)) →
    m (set_grants g' w) = (Ok resp, w') → undecided (v1_workspace_id request) w w' resp).
  { intros m -> Hm. destruct (record_rejection_v1 REASON_AGENT_GRANT_MISMATCH
      (v1_workspace_id request) (v1_agent_id request) (v1_action request) (v1_resource request)
      (v1_boundary_id request) now None (set_grants g' w)) as (a & ok & Hr & Hlog).
    rewrite (bind_run _ _ _ _ _ Hr) in Hm. injection Hm as <- <-.
    split_and!; [done|done|]. destruct ok; [right; eexists; split; [exact Hlog|done]|by left]. }
  destruct (grants w !! v1_grant_ref request) as [g|] eqn:Eg;
    [|intros Hm; left; by eapply Hreject].
  destruct (String.eqb_spec (g_workspace_id g) (v1_workspace_id request)) as [Hws|];
    [|intros Hm; left; by eapply Hreject].
  destruct (String.eqb_spec (g_agent_id g) (v1_agent_id request)) as [Hag|];
    [|intros Hm; left; by eapply Hreject].
  cbn [negb orb]. intros Hm.
  destruct (setting_run sl_is_boundary_required settings (v1_workspace_id request)
    (v1_agent_id request) (set_grants g' w)) as (r & E' & Hmand).
  destruct r as [rb|e]; [|unfold mbind, M_bind in Hm; rewrite E' in Hm; done].
  rewrite (bind_run _ _ _ _ _ E') in Hm. specialize (Hmand _ eq_refl).
  destruct (evaluate_and_record_run g (v1_action request) (v1_resource request)
    (v1_boundary_id request) now br None None rb (set_grants g' w))
    as (resp' & w'' & Hrun & Hout).
  change (bool_decide (is_Some (None : option SubjectToken))) with false in Hrun.
  change (st_token_id <$> None) with (@None string) in Hrun. rewrite Hrun in Hm. injection Hm as <- <-.
  destruct Hout as [(? & ? & Hlog)|Hdec]; [left; split_and!; [done|done|by left]|].
  right. exists g, rb. by split_and!.
Qed.

(** ** Delegated enforcement: the token block *)
Section token.
Context (int_unicode : string → result Z).

(** The presented token proves the subject's identity for this request: it is
    stored under the hash of what was presented, neither revoked nor expired,
    minted for this enforcement point, workspace, agent and grant, its binding
    (if any) is this action and resource, and a token with a secret comes with
    a proof that the replay cache accepts; when proofs are mandated, it has
    one. *)
Record token_proven (request : V1DelegatedEnforceRequest) (raw ws : string) (g : Grant) (now : Z)
    (tokens : option TokenLookup) (pop_required : bool) (skew : Z) w (t : SubjectToken) : Prop := {
  tp_stored : ∃ get, tokens = Some get ∧ get (_hash_key raw) = Ok (Some t);
  tp_live : st_revoked_at t = None ∧ now < st_expires_at t;
  tp_audience : st_audience t = dv_pep_id request;
  tp_workspace : st_workspace_id t = ws ∧ dv_workspace_id request = ws ∧ g_workspace_id g = ws;
  tp_agent : st_agent_id t = dv_agent_id request ∧ g_agent_id g = dv_agent_id request;
  tp_grant : st_grant_ref t = dv_grant_ref request ∧ g_grant_ref g = dv_grant_ref request;
  tp_binding : (∀ a, st_bound_action t = Some a → a = dv_action request) ∧
               (∀ r, st_bound_resource t = Some r → r = dv_resource request);
  tp_proof : ∀ secret, st_pop_secret t = Some secret → ∃ c c', w_pop w = Some c ∧
    verify_pop int_unicode (dv_subject_token_proof request) secret (st_token_id t)
      (dv_action request) (dv_resource request) now skew c = (Ok true, c');
  tp_mandate : pop_required = true → is_Some (st_pop_secret t)
}.

Lemma token_mismatch_false t request ws g :
  token_mismatch t request ws g = false ↔
  st_audience t = dv_pep_id request ∧
  (st_workspace_id t = ws ∧ dv_workspace_id request = ws ∧ g_workspace_id g = ws) ∧
  (st_agent_id t = dv_agent_id request ∧ g_agent_id g = dv_agent_id request) ∧
  (st_grant_ref t = dv_grant_ref request ∧ g_grant_ref g = dv_grant_ref request) ∧
  (∀ a, st_bound_action t = Some a → a = dv_action request) ∧
  (∀ r, st_bound_resource t = Some r → r = dv_resource request).
Proof.
  unfold token_mismatch. rewrite !orb_false_iff, !negb_false_iff, !String.eqb_eq.
  assert (Ho : ∀ (o : option string) x,
    match o with Some a => negb (a == x) | None => false end = false ↔ ∀ a, o = Some a → a = x).
  { intros [a|] x; [rewrite negb_false_iff, String.eqb_eq|]; naive_solver. }
  rewrite !Ho. naive_solver congruence.
Qed.

Lemma proof_ok_run request t secret now skew w :
  ∃ ok p, proof_ok int_unicode request t secret now skew w = (Ok ok, set_pop p w) ∧
    (ok = true ↔ ∃ c c', w_pop w = Some c ∧
       verify_pop int_unicode (dv_subject_token_proof request) secret (st_token_id t)
         (dv_action request) (dv_resource request) now skew c = (Ok true, c')).
Proof.
  unfold proof_ok, try_except, on_pop_cache. destruct (w_pop w) as [c|] eqn:Ec.
  - destruct (verify_pop _ _ _ _ _ _ _ _ c) as [[ok|e] c'] eqn:E.
    + exists ok, (Some c'). split; [done|]. split; [intros ->; eauto|].
      intros (c0 & c1 & [= <-] & E'). congruence.
    + exists false, (Some c'). split; [done|]. split; [done|].
      intros (c0 & c1 & [= <-] & E'). congruence.
  - exists false, None. split; [|split; [done|naive_solver]].
    destruct w; simpl in *. by subst.
Qed.

Lemma check_subject_token_run request raw ws g now tokens pop_required skew w :
  ∃ r p, check_subject_token int_unicode request raw ws g now tokens pop_required skew w
           = (Ok r, set_pop p w) ∧
    match r with
    | inr (Some t) => token_proven request raw ws g now tokens pop_required skew w t
    | inr None => False
    | inl _ => ∀ t, ¬ token_proven request raw ws g now tokens pop_required skew w t
    end.
Proof.
  assert (Hid : w = set_pop (w_pop w) w) by by destruct w.
  unfold check_subject_token.
  set (m := try_except _ _).
  assert (Hm : ∃ o, m w = (Ok o, w) ∧ ∀ t, o = Some t ↔
    ∃ get, tokens = Some get ∧ get (_hash_key raw) = Ok (Some t)).
  { unfold m, try_except, lift, mret, M_ret. destruct tokens as [get|]; [|exists None; naive_solver].
    destruct (get (_hash_key raw)) as [o|e] eqn:E; [exists o|exists None]; (split; [done|]);
      intros t; split.
    - intros ->. by exists get.
    - intros (? & [= <-] & E'). congruence.
    - done.
    - intros (? & [= <-] & E'). congruence. }
  destruct Hm as (o & Hm & Ho). rewrite (bind_run _ _ _ _ _ Hm). clearbody m.
  destruct o as [t|].
  2: { eexists (inl _), _. rewrite Hid at 1. split; [done|]. intros t [Hs]. by apply Ho in Hs. }
  assert (Hthe : ∀ t', token_proven request raw ws g now tokens pop_required skew w t' → t' = t).
  { intros t' [Hs]. apply Ho in Hs. congruence. }
  assert (Hno : ∀ code : string,
    ¬ token_proven request raw ws g now tokens pop_required skew w t →
    ∃ r p, (mret (inl code) : M W (string + option SubjectToken)) w = (Ok r, set_pop p w) ∧
    match r with
    | inr (Some t) => token_proven request raw ws g now tokens pop_required skew w t
    | inr None => False
    | inl _ => ∀ t, ¬ token_proven request raw ws g now tokens pop_required skew w t
    end).
  { intros code Hn. eexists (inl code), _. rewrite Hid at 1. split; [done|].
    intros t' Ht. by rewrite (Hthe t' Ht) in Ht. }
  case_bool_decide as Hrev.
  { apply Hno. intros [_ [Hr _]]. rewrite Hr in Hrev. by destruct Hrev. }
  destruct (Z.leb_spec (st_expires_at t) now) as [Hexp|Hexp].
  { apply Hno. intros [_ [_ ?]]. lia. }
  destruct (token_mismatch t request ws g) eqn:Emis.
  { apply Hno. intros [_ _ ? ? ? ? ? _ _]. apply not_false_iff_true in Emis.
    apply Emis, token_mismatch_false. split_and!; naive_solver. }
  apply token_mismatch_false in Emis as (Haud & Hws & Hag & Hgr & Hba & Hbr).
  assert (Hrev' : st_revoked_at t = None) by (by apply eq_None_not_Some).
  destruct (st_pop_secret t) as [secret|] eqn:Esec.
  - destruct (proof_ok_run request t secret now skew w) as (ok & p & Hrun & Hok).
    rewrite (bind_run _ _ _ _ _ Hrun). destruct ok; cbn [negb].
    + exists (inr (Some t)), p. split; [done|]. constructor; try done.
      * by apply Ho.
      * intros s' [= <-]%(eq_trans (eq_sym Esec)). by apply Hok.
    + exists (inl REASON_POP_PROOF_INVALID), p. split; [done|]. intros t' Ht.
      pose proof (Hthe t' Ht) as ->. destruct Ht as [_ _ _ _ _ _ _ Hp _].
      by apply Hp, Hok in Esec.
  - destruct pop_required.
    + apply Hno. intros [_ _ _ _ _ _ _ _ Hm']. destruct (Hm' eq_refl). congruence.
    + eexists (inr (Some t)), _. rewrite Hid at 1. split; [done|].
      constructor; try done; [by apply Ho|congruence].
Qed.

(** ** Delegated enforcement: outcomes *)

Definition dv_input (request : V1DelegatedEnforceRequest) (g : Grant) (now : Z)
    (br : option BoundaryLookup) (require_boundary : bool) : EnforceInput :=
  mkEnforceInput g (dv_action request) (dv_resource request) now (dv_boundary_id request) br
    require_boundary.

(** What a decision on a delegated request rests on. *)
Record delegated_basis (request : V1DelegatedEnforceRequest) (now : Z)
    (pep_workspace_id : option string) (tokens : option TokenLookup)
    (settings : option SettingsLookup) (skew : Z) w (ws : string) (g : Grant)
    (token : option SubjectToken) : Prop := {
  db_trusted : pep_workspace_id = Some ws ∧ ws ≠ "";
  db_asserted : dv_workspace_id request = "" ∨ dv_workspace_id request = ws;
  db_grant : grants w !! dv_grant_ref request = Some g;
  db_owned : g_workspace_id g = ws ∧ g_agent_id g = dv_agent_id request;
  db_token : match token with
    | Some t => ∃ raw pop_required, dv_subject_token request = Some raw ∧
        (mandated sl_is_pop_required settings ws (dv_agent_id request) → pop_required = true) ∧
        token_proven request raw ws g now tokens pop_required skew w t
    | None => dv_subject_token request = None
    end;
  db_token_mandate : mandated sl_is_subject_token_required settings ws (dv_agent_id request) →
    is_Some token;
  db_pop_mandate : mandated sl_is_pop_required settings ws (dv_agent_id request) →
    ∃ t, token = Some t ∧ is_Some (st_pop_secret t)
}.

Lemma delegated_reject_run request ws code now message w :
  ∃ a, delegated_reject request ws code now message w
      = (Ok (_pre_audit_error 403 "forbidden" message), set_audit a (drew w)) ∧
    undecided ws w (set_audit a (drew w)) (_pre_audit_error 403 "forbidden" message).
Proof.
  unfold delegated_reject.
  destruct (record_rejection_v1 code ws (dv_agent_id request) (dv_action request)
    (dv_resource request) (dv_boundary_id request) now (Some (dv_pep_id request)) w)
    as (a & ok & Hr & Hlog).
  rewrite (bind_run _ _ _ _ _ Hr). exists a. split; [done|]. split_and!; [done|done|].
  destruct ok; [right; eexists; split; [exact Hlog|done]|by left].
Qed.

Lemma undecided_log ws w1 w2 w' resp :
  log w1 = log w2 → undecided ws w1 w' resp → undecided ws w2 w' resp.
Proof. unfold undecided. by intros ->. Qed.
Lemma decided_log i p t w1 w2 w' resp :
  log w1 = log w2 → decided i p t w1 w' resp → decided i p t w2 w' resp.
Proof. unfold decided. by intros ->. Qed.

(** The end of a delegated request: the token block has passed. *)
Lemma delegated_finish request now br ws tokens settings skew w g w1 token resp w' :
  ws ≠ "" → dv_workspace_id request = "" ∨ dv_workspace_id request = ws →
  grants w !! dv_grant_ref request = Some g →
  g_workspace_id g = ws ∧ g_agent_id g = dv_agent_id request →
  log w1 = log w →
  match token with
  | Some t => ∃ raw pop_required, dv_subject_token request = Some raw ∧
      (mandated sl_is_pop_required settings ws (dv_agent_id request) → pop_required = true) ∧
      token_proven request raw ws g now tokens pop_required skew w t
  | None => dv_subject_token request = None
  end →
  (mandated sl_is_subject_token_required settings ws (dv_agent_id request) ∨
   mandated sl_is_pop_required settings ws (dv_agent_id request) →
   is_Some (dv_subject_token request)) →
  (rb ← setting sl_is_boundary_required settings ws (dv_agent_id request);
   _evaluate_and_record g (dv_action request) (dv_resource request) (dv_boundary_id request) now
     br (Some (dv_pep_id request)) (bool_decide (is_Some token)) (st_token_id <$> token) rb) w1
    = (Ok resp, w') →
  (∃ ws0, (Some ws = Some ws0 ∨ w' = w) ∧ undecided ws0 w w' resp) ∨
  ∃ ws0 g0 token rb,
    delegated_basis request now (Some ws) tokens settings skew w ws0 g0 token ∧
    (mandated sl_is_boundary_required settings ws0 (dv_agent_id request) ↔ rb = true) ∧
    decided (dv_input request g0 now br rb) (Some (dv_pep_id request)) token w w' resp.
Proof.
  intros Hne Hassert Eg Hown Hlog Htoken Hmand Hm.
  destruct (setting_run sl_is_boundary_required settings ws (dv_agent_id request) w1)
    as (r3 & E3 & Hm3).
  destruct r3 as [rb|e3]; [|unfold mbind, M_bind in Hm; rewrite E3 in Hm; done].
  rewrite (bind_run _ _ _ _ _ E3) in Hm. specialize (Hm3 _ eq_refl).
  destruct (evaluate_and_record_run g (dv_action request) (dv_resource request)
    (dv_boundary_id request) now br (Some (dv_pep_id request)) token rb w1)
    as (resp' & w'' & Hrun & Hout).
  rewrite Hrun in Hm. injection Hm as <- <-.
  destruct Hout as [(? & ? & Hq)|Hdec].
  { left. exists ws. split; [by left|]. split_and!; [done|done|left; congruence]. }
  right. exists ws, g, token, rb. split; [|split; [done|by eapply decided_log]].
  constructor; try done.
  - intros Ht. destruct token; [done|]. rewrite Htoken in Hmand.
    destruct Hmand as [? ?]; [by left|done].
  - intros Hp. destruct token as [t|].
    + destruct Htoken as (raw & pr & _ & Hpr & [_ _ _ _ _ _ _ _ Hmd]). eauto.
    + rewrite Htoken in Hmand. destruct Hmand as [? ?]; [by right|done].
Qed.

Lemma delegated_outcome request now br pep_ws tokens settings skew w resp w' :
  wf w →
  delegated_enforce_v1_contract int_unicode request now br pep_ws tokens settings skew w
    = (Ok resp, w') →
  (∃ ws, (pep_ws = Some ws ∨ w' = w) ∧ undecided ws w w' resp) ∨
  ∃ ws g token rb,
    delegated_basis request now pep_ws tokens settings skew w ws g token ∧
    (mandated sl_is_boundary_required settings ws (dv_agent_id request) ↔ rb = true) ∧
    decided (dv_input request g now br rb) (Some (dv_pep_id request)) token w w' resp.
Proof.
  intros Hw. unfold delegated_enforce_v1_contract.
  destruct (str_or pep_ws None) as [ws|] eqn:Ews.
  2: { intros [= <- <-]. left. exists "". split; [by right|]. split_and!; [done|done|by left]. }
  assert (Hws : pep_ws = Some ws ∧ ws ≠ "").
  { unfold str_or in Ews. destruct pep_ws as [x|]; [|done].
    destruct (String.eqb_spec x ""); naive_solver. }
  clear Ews. destruct Hws as [-> Hne].
  assert (Hrej : ∀ code message w1, log w1 = log w →
    delegated_reject request ws code now message w1 = (Ok resp, w') →
    ∃ ws0, (Some ws = Some ws0 ∨ w' = w) ∧ undecided ws0 w w' resp).
  { intros code message w1 Hlog Hm. exists ws. split; [by left|].
    destruct (delegated_reject_run request ws code now message w1) as (a & Hr & Hu).
    rewrite Hr in Hm. injection Hm as <- <-. by eapply undecided_log. }
  destruct (negb (dv_workspace_id request == "") && negb (dv_workspace_id request == ws)) eqn:Eas.
  { intros Hm. left. eapply Hrej; [|exact Hm]; done. }
  assert (Hassert : dv_workspace_id request = "" ∨ dv_workspace_id request = ws).
  { destruct (String.eqb_spec (dv_workspace_id request) ""); [by left|].
    destruct (String.eqb_spec (dv_workspace_id request) ws); [by right|done]. }
  clear Eas.
  destruct (lookup_or_error_run (dv_grant_ref request) w Hw) as (g' & Hg' & Hview & [E|E]);
    rewrite (bind_run _ _ _ _ _ E); clear E.
  2: { intros [= <- <-]. left. exists ws. split; [by left|]. split_and!; [done|done|by left]. }
  destruct (grants w !! dv_grant_ref request) as [g|] eqn:Eg;
    [|intros Hm; left; eapply Hrej; [|exact Hm]; done].
  destruct (String.eqb_spec (g_workspace_id g) ws) as [Hgws|]; cbn [negb orb];
    [|intros Hm; left; eapply Hrej; [|exact Hm]; done].
  destruct (String.eqb_spec (g_agent_id g) (dv_agent_id request)) as [Hgag|]; cbn [negb];
    [|intros Hm; left; eapply Hrej; [|exact Hm]; done].
  destruct (setting_run sl_is_subject_token_required settings ws (dv_agent_id request)
    (set_grants g' w)) as (r1 & E1 & Hm1).
  destruct r1 as [req_tok|e1]; [|unfold mbind, M_bind; rewrite E1; done].
  rewrite (bind_run _ _ _ _ _ E1). specialize (Hm1 _ eq_refl).
  destruct (setting_run sl_is_pop_required settings ws (dv_agent_id request)
    (set_grants g' w)) as (r2 & E2 & Hm2).
  destruct r2 as [req_pop|e2]; [|unfold mbind, M_bind; rewrite E2; done].
  rewrite (bind_run _ _ _ _ _ E2). specialize (Hm2 _ eq_refl).
  destruct ((req_tok || req_pop) && _) eqn:Emand; [intros Hm; left; eapply Hrej; [|exact Hm]; done|].
  assert (Hmand : mandated sl_is_subject_token_required settings ws (dv_agent_id request) ∨
    mandated sl_is_pop_required settings ws (dv_agent_id request) →
    is_Some (dv_subject_token request)).
  { rewrite Hm1, Hm2. intros Hor. destruct (dv_subject_token request); [done|].
    destruct Hor as [Hor|Hor]; rewrite Hor, ?orb_true_r in Emand; done. }
  destruct (dv_subject_token request) as [raw|] eqn:Eraw; rewrite ?Eraw.
  - destruct (check_subject_token_run request raw ws g now tokens req_pop skew (set_grants g' w))
      as (r & p & Hrun & Hr). 
    rewrite (bind_run _ _ _ _ _ Hrun). destruct r as [code|[t|]]; [| |done].
    + intros Hm. left. eapply Hrej; [|exact Hm]. done.
    + intros Hm. eapply (delegated_finish request now br ws tokens settings skew w g
        (set_pop p (set_grants g' w)) (Some t)); [done..| |by rewrite Eraw|exact Hm].
      exists raw, req_pop. split_and!; [done|by intros ?%Hm2|]. by destruct Hr; constructor.
  - intros Hm. eapply (delegated_finish request now br ws tokens settings skew w g
      (set_grants g' w) None); [done..|by rewrite Eraw|exact Hm].
Qed.
End token.

(** ** What a request may change *)

Lemma keeps_getting ref : keeps untouched (on_grants (A := A) (gr_get_by_ref ref)).
Proof.
  intros w Hw. unfold on_grants, zoom. destruct (gr_get_by_ref ref (w_grants w)) as [r g'] eqn:E.
  destruct (gr_get_ok ref _ _ _ Hw E) as (Hwf & Hview & _). by split_and!.
Qed.
Lemma keeps_audit {X} (m : M A X) : keeps untouched (on_audit (G := G) m).
Proof. intros w Hw. unfold on_audit, zoom. destruct (m (w_audit w)). by split_and!. Qed.
Lemma keeps_entropy {X} (m : M Entropy X) : keeps untouched (on_entropy (G := G) (A := A) m).
Proof. intros w Hw. unfold on_entropy, zoom. destruct (m (w_entropy w)). by split_and!. Qed.
Lemma keeps_pop {X} (m : M PopReplayCache X) x : keeps untouched (on_pop_cache (G := G) (A := A) m x).
Proof.
  intros w Hw. unfold on_pop_cache. destruct (w_pop w); [destruct (m _)|]; by split_and!.
Qed.
End facts.

(** Peel a contract into its elementary operations. *)
Ltac keeps_tac :=
  repeat match goal with
  | |- keeps _ (_ ≫= _) => apply keeps_bind; [typeclasses eauto| |intros ?]
  | |- keeps _ (try_except _ _) => apply keeps_try; [typeclasses eauto| |intros ?]
  | |- keeps _ (suppress _) => apply keeps_suppress; [typeclasses eauto|]
  | |- keeps _ (mret _) => apply keeps_ret; typeclasses eauto
  | |- keeps _ (lift _) => apply keeps_lift; typeclasses eauto
  | |- keeps _ (on_grants (gr_get_by_ref _)) => apply keeps_getting
  | |- keeps _ (on_audit _) => apply keeps_audit
  | |- keeps _ (on_entropy _) => apply keeps_entropy
  | |- keeps _ (on_pop_cache _ _) => apply keeps_pop
  | |- keeps _ (if ?b then _ else _) => destruct b
  | |- keeps _ (match ?x with _ => _ end) => destruct x
  end.

Section theorems.
Context {G A : Type} `{HG : GrantLifecycleOk G} `{HA : AuditWriterOk A}.
Implicit Types (w : World G A).

Lemma keeps_reject code ws agent action resource b now p :
  keeps untouched (_record_rejection (G := G) (A := A) code ws agent action resource b now p).
Proof. unfold _record_rejection, new_event_id. keeps_tac. Qed.
Lemma keeps_record g action resource b now br p v t rb :
  keeps untouched (_evaluate_and_record (G := G) (A := A) g action resource b now br p v t rb).
Proof. unfold _evaluate_and_record, new_event_id. keeps_tac. Qed.
Lemma keeps_untouched_direct request now br settings :
  keeps untouched (enforce_v1_contract (G := G) (A := A) request now br settings).
Proof.
  unfold enforce_v1_contract, lookup_or_error, setting.
  keeps_tac; first [apply keeps_reject | apply keeps_record].
Qed.
Lemma keeps_untouched_delegated int_unicode request now br pep_ws tokens settings skew :
  keeps untouched (delegated_enforce_v1_contract (G := G) (A := A) int_unicode request now br
    pep_ws tokens settings skew).
Proof.
  unfold delegated_enforce_v1_contract, lookup_or_error, setting, delegated_reject,
    check_subject_token, proof_ok.
  keeps_tac; first [apply keeps_reject | apply keeps_record].
Qed.

(** An enforce request, direct or delegated, allowed or denied, whatever
    fails on the way, changes nothing of the service but the audit log, the
    replay cache and the names drawn: no grant, request, rule, token, setting,
    bound or boundary. *)
Theorem enforce_changes_nothing_else int_unicode request drequest now br pep_ws tokens settings
    skew w :
  untouched w (enforce_v1_contract request now br settings w).2 ∧
  untouched w (delegated_enforce_v1_contract int_unicode drequest now br pep_ws tokens settings
                 skew w).2.
Proof.
  split.
  - apply (keeps_untouched_direct request now br settings w).
  - apply (keeps_untouched_delegated int_unicode drequest now br pep_ws tokens settings skew w).
Qed.

(** *** Direct enforcement *)

Lemma permit_sound request now br settings w resp w' :
  wf w → enforce_v1_contract request now br settings w = (Ok resp, w') →
  rs_decision resp = Some permit →
  ∃ g rb, let i := v1_input request g now br rb in
    grants w !! v1_grant_ref request = Some g ∧ own_grant request g ∧
    g_status g = "active" ∧ unexpired i ∧ scopes_valid g ∧ request_valid i ∧
    (∃ s, s ∈ g_scopes g ∧
       scope_covers s (v1_action request) (v1_resource request) = true) ∧
    (∃ b, boundary_admissible i b) ∧
    (mandated sl_is_boundary_required settings (v1_workspace_id request) (v1_agent_id request) →
     is_Some (v1_boundary_id request)).
Proof.
  intros Hw E Hp. destruct (enforce_v1_outcome _ _ _ _ _ _ _ Hw E) as [[Hu _]|Hd]; [congruence|].
  destruct Hd as (g & rb & Hg & Hown & Hmand & (Hval & id & Hlog & ->)).
  unfold _response_from_decision in Hp.
  destruct (d_decision (evaluate_enforce (v1_input request g now br rb))) eqn:Ed; [|done].
  apply permit_iff in Ed as ((b & Hb) & Hr & Hst & Hu & Hs & Hc).
  exists g, rb. split_and!; try done; [by exists b|].
  intros Hm. apply Hmand in Hm. unfold boundary_admissible in Hb. simpl in Hb.
  destruct (v1_boundary_id request); [done|]. destruct Hb. congruence.
Qed.

(** Soundness of a permit: it rests on a stored grant of the caller's own
    workspace and agent that is active, not past its expiry and well-formed,
    one of whose scopes covers the valid request; a boundary the request names
    (one must be named where the settings mandate it) is active and belongs to
    the grant's workspace. *)
Theorem enforce_permit_sound request now br settings w resp w' :
  wf w → enforce_v1_contract request now br settings w = (Ok resp, w') →
  rs_decision resp = Some permit →
  ∃ g rb, let i := v1_input request g now br rb in
    grants w !! v1_grant_ref request = Some g ∧ own_grant request g ∧
    g_status g = "active" ∧ unexpired i ∧ scopes_valid g ∧ request_valid i ∧
    (∃ s, s ∈ g_scopes g ∧
       scope_covers s (v1_action request) (v1_resource request) = true) ∧
    (∃ b, boundary_admissible i b) ∧
    (mandated sl_is_boundary_required settings (v1_workspace_id request) (v1_agent_id request) →
     is_Some (v1_boundary_id request)).
Proof. apply permit_sound. Qed.

(** The response to a request whose grant is not the caller's. *)
Definition grant_forbidden : V1EnforceResponse :=
  _pre_audit_error 403 "forbidden" _GRANT_FORBIDDEN_MESSAGE.

Lemma enforce_foreign_run request now br settings w :
  wf w → (∀ g, grants w !! v1_grant_ref request = Some g → ¬ own_grant request g) →
  enforce_v1_contract request now br settings w =
    (Ok grant_lookup_failed, (lookup_or_error (v1_grant_ref request) w).2) ∨
  ∃ g' a,
    enforce_v1_contract request now br settings w = (Ok grant_forbidden, set_audit a (drew (set_grants g' w))) ∧
    ∃ r, aw_write (rejection_event REASON_AGENT_GRANT_MISMATCH (v1_workspace_id request)
      (v1_agent_id request) (v1_action request) (v1_resource request) (v1_boundary_id request) now
      None ("evt_" ^+ next_id w 12)) (w_audit w) = (r, a).
Proof.
  intros Hw Hno. unfold enforce_v1_contract.
  destruct (lookup_or_error_run (v1_grant_ref request) w Hw) as (g' & Hg' & Hview & [E|E]);
    rewrite (bind_run _ _ _ _ _ E); [|left; by rewrite E]. clear E. right. exists g'.
  assert (Hr : ∃ a, (_ ← _record_rejection REASON_AGENT_GRANT_MISMATCH (v1_workspace_id request)
      (v1_agent_id request) (v1_action request) (v1_resource request) (v1_boundary_id request) now
      None; mret grant_forbidden) (set_grants g' w)
      = (Ok grant_forbidden, set_audit a (drew (set_grants g' w))) ∧
    ∃ r, aw_write (rejection_event REASON_AGENT_GRANT_MISMATCH (v1_workspace_id request)
      (v1_agent_id request) (v1_action request) (v1_resource request) (v1_boundary_id request) now
      None ("evt_" ^+ next_id w 12)) (w_audit w) = (r, a)).
  { unfold _record_rejection, suppress, try_except, mbind, M_bind.
    rewrite new_event_id_run. unfold on_audit, zoom.
    destruct (aw_write _ (w_audit (drew (set_grants g' w)))) as [[u|e] a] eqn:E; exists a;
      (split; [done|]); eexists; exact E. }
  destruct Hr as (a & Hrun & Hwr). exists a. split; [|exact Hwr].
  destruct (grants w !! v1_grant_ref request) as [g|] eqn:Eg; [|exact Hrun].
  destruct (String.eqb_spec (g_workspace_id g) (v1_workspace_id request)); [|exact Hrun].
  destruct (String.eqb_spec (g_agent_id g) (v1_agent_id request)); [|exact Hrun].
  exfalso. by apply (Hno g eq_refl).
Qed.

(** No grant oracle: an unknown reference and one that exists but belongs to
    somebody else are indistinguishable. From two services with the same audit
    store and name source, whose grants differ in any way but neither of which
    gives the caller a grant of its own under the reference, the response and
    everything written are the same, whether or not the store accepts the
    rejection. *)
Theorem enforce_no_grant_oracle request now br1 br2 settings1 settings2 w1 w2 resp1 resp2 w1' w2' :
  wf w1 → wf w2 → w_audit w1 = w_audit w2 → w_entropy w1 = w_entropy w2 →
  (∀ g, grants w1 !! v1_grant_ref request = Some g → ¬ own_grant request g) →
  (∀ g, grants w2 !! v1_grant_ref request = Some g → ¬ own_grant request g) →
  enforce_v1_contract request now br1 settings1 w1 = (Ok resp1, w1') →
  enforce_v1_contract request now br2 settings2 w2 = (Ok resp2, w2') →
  resp1 ≠ grant_lookup_failed → resp2 ≠ grant_lookup_failed →
  resp1 = resp2 ∧ resp1 = grant_forbidden ∧
  w_audit w1' = w_audit w2' ∧ w_entropy w1' = w_entropy w2'.
Proof.
  intros Hw1 Hw2 Ha He Hno1 Hno2 E1 E2 Hn1 Hn2.
  destruct (enforce_foreign_run request now br1 settings1 w1 Hw1 Hno1)
    as [Er|(g1 & a1 & Er1 & r1 & Hr1)]; [congruence|].
  destruct (enforce_foreign_run request now br2 settings2 w2 Hw2 Hno2)
    as [Er|(g2 & a2 & Er2 & r2 & Hr2)]; [congruence|].
  rewrite Er1 in E1. injection E1 as <- <-. rewrite Er2 in E2. injection E2 as <- <-.
  unfold next_id in Hr1, Hr2. rewrite He, Ha in Hr1. rewrite Hr2 in Hr1.
  split_and!; [done|done| |]; simpl; congruence.
Qed.

(** *** Delegated enforcement *)
Section delegated.
Context (int_unicode : string → result Z).

(** Tenant isolation: a decision is made only for a trusted (non-empty,
    key-derived) workspace that the request does not contradict, on a grant of
    that workspace and of the asserted agent; and whatever happens, at most one
    event is written, and only into the trusted workspace's trail. *)
Theorem delegated_tenant_isolation request now br pep_ws tokens settings skew w resp w' :
  wf w →
  delegated_enforce_v1_contract int_unicode request now br pep_ws tokens settings skew w
    = (Ok resp, w') →
  (∀ d, rs_decision resp = Some d → ∃ ws g, pep_ws = Some ws ∧ ws ≠ "" ∧
     (dv_workspace_id request = "" ∨ dv_workspace_id request = ws) ∧
     grants w !! dv_grant_ref request = Some g ∧
     g_workspace_id g = ws ∧ g_agent_id g = dv_agent_id request) ∧
  ∃ l, log w' = log w ++ l ∧ (length l ≤ 1)%nat ∧
       Forall (λ e, pep_ws = Some (e_workspace_id e)) l.
Proof.
  intros Hw E. destruct (delegated_outcome int_unicode _ _ _ _ _ _ _ _ _ _ Hw E)
    as [(ws & Hws & Hnone & _ & Hlog)|(ws & g & t & rb & Hb & _ & (_ & id & Hlog & ->))].
  - split; [congruence|]. destruct Hlog as [Hlog|(e & Hlog & _ & _ & He)].
    + exists []. rewrite app_nil_r. split_and!; [done|simpl; lia|constructor].
    + exists [e]. split_and!; [done|simpl; lia|]. constructor; [|constructor].
      destruct Hws as [-> | ->]; [congruence|].
      exfalso. apply (f_equal length) in Hlog. rewrite length_app in Hlog. simpl in Hlog. lia.
  - destruct Hb as [[-> Hne] Has Hg [Hgw Hga] _ _ _]. split; [by eauto 10|].
    eexists [_]. split_and!; [exact Hlog|simpl; lia|]. constructor; [|constructor].
    destruct (evaluate_enforce_discloses (dv_input request g now br rb)) as (_&_&Hwk&_).
    simpl in *. congruence.
Qed.

(** C13: Proven identity: every decision on a request that presents a token was
    made with that token proven (stored under the hash of what was presented,
    live, minted for this very point, workspace, agent, grant and action, with
    an accepted proof of possession if it has a secret), and its audit row says
    so and names the token; a decision without a token is recorded as
    unverified. *)
Theorem delegated_identity_proven request now br pep_ws tokens settings skew w resp w' d :
  wf w →
  delegated_enforce_v1_contract int_unicode request now br pep_ws tokens settings skew w
    = (Ok resp, w') →
  rs_decision resp = Some d →
  ∃ ws g event, grants w !! dv_grant_ref request = Some g ∧ log w' = log w ++ [event] ∧
    e_enforcing_principal event = Some (dv_pep_id request) ∧
    match dv_subject_token request with
    | Some raw => ∃ t pop_required,
        token_proven int_unicode request raw ws g now tokens pop_required skew w t ∧
        e_subject_token_verified event = true ∧ e_token_id event = Some (st_token_id t)
    | None => e_subject_token_verified event = false ∧ e_token_id event = None
    end.
Proof.
  intros Hw E Hd. destruct (delegated_outcome int_unicode _ _ _ _ _ _ _ _ _ _ Hw E)
    as [(ws & _ & Hnone & _)|(ws & g & t & rb & Hb & _ & (_ & id & Hlog & ->))]; [congruence|].
  destruct Hb as [_ _ Hg _ Ht _ _]. exists ws, g. eexists. split; [exact Hg|].
  split; [exact Hlog|]. split; [done|]. destruct t as [t|].
  - destruct Ht as (raw & pr & -> & _ & Ht). exists t, pr. split_and!; [done|done|done].
  - by rewrite Ht.
Qed.

(** The mandates hold: where the settings require a subject token no
    decision is made without one, where they require proof of possession none
    without a token that has a secret, and where they require a boundary no
    permit without naming one. *)
Theorem delegated_mandates request now br ws tokens settings skew w resp w' d :
  wf w →
  delegated_enforce_v1_contract int_unicode request now br (Some ws) tokens settings skew w
    = (Ok resp, w') →
  rs_decision resp = Some d →
  (mandated sl_is_subject_token_required settings ws (dv_agent_id request) →
   is_Some (dv_subject_token request)) ∧
  (mandated sl_is_pop_required settings ws (dv_agent_id request) →
   ∃ raw get t secret c c', dv_subject_token request = Some raw ∧ tokens = Some get ∧
     get (_hash_key raw) = Ok (Some t) ∧ st_pop_secret t = Some secret ∧ w_pop w = Some c ∧
     verify_pop int_unicode (dv_subject_token_proof request) secret (st_token_id t)
       (dv_action request) (dv_resource request) now skew c = (Ok true, c')) ∧
  (mandated sl_is_boundary_required settings ws (dv_agent_id request) → d = permit →
   is_Some (dv_boundary_id request)).
Proof.
  intros Hw E Hd. destruct (delegated_outcome int_unicode _ _ _ _ _ _ _ _ _ _ Hw E)
    as [(ws0 & _ & Hnone & _)|(ws0 & g & t & rb & Hb & Hrb & (_ & id & Hlog & ->))]; [congruence|].
  destruct Hb as [[[= <-] _] _ _ _ Ht Hmt Hmp]. split_and!.
  - intros Hm. destruct (Hmt Hm) as [t' ->]. destruct Ht as (raw & _ & -> & _). eauto.
  - intros Hm. destruct (Hmp Hm) as (t' & -> & [secret Hs]).
    destruct Ht as (raw & pr & Hraw & _ & [(get & Hget & Hst) _ _ _ _ _ _ Hproof _]).
    destruct (Hproof _ Hs) as (c & c' & Hc & Hv). by exists raw, get, t', secret, c, c'.
  - intros Hm ->. apply Hrb in Hm. unfold _response_from_decision in Hd.
    destruct (d_decision (evaluate_enforce (dv_input request g now br rb))) eqn:Ed; [|done].
    apply permit_iff in Ed as ((b & Hb) & _).
    unfold boundary_admissible in Hb. simpl in Hb.
    destruct (dv_boundary_id request); [done|]. destruct Hb. congruence.
Qed.

(** The one response to every way a presented token can fail. *)
Definition token_invalid : V1EnforceResponse :=
  _pre_audit_error 403 "forbidden" TOKEN_INVALID_MESSAGE.

(** No token oracle: a request on an owned grant that presents a token which
    is not proven gets one and the same response, be the token unknown, revoked,
    expired, minted for something else, without the mandated secret or without
    a valid proof (an unreachable grant store aside). *)
Theorem delegated_token_errors_uniform request raw now br ws g tokens settings skew w :
  wf w → ws ≠ "" → (dv_workspace_id request = "" ∨ dv_workspace_id request = ws) →
  grants w !! dv_grant_ref request = Some g →
  g_workspace_id g = ws → g_agent_id g = dv_agent_id request →
  dv_subject_token request = Some raw → is_blank raw = false →
  (∀ s, settings = Some s →
     (∃ b, sl_is_subject_token_required s ws (dv_agent_id request) = Ok b) ∧
     (∃ b, sl_is_pop_required s ws (dv_agent_id request) = Ok b)) →
  (∀ t pop_required,
     (mandated sl_is_pop_required settings ws (dv_agent_id request) ↔ pop_required = true) →
     ¬ token_proven int_unicode request raw ws g now tokens pop_required skew w t) →
  let r := (delegated_enforce_v1_contract int_unicode request now br (Some ws) tokens settings
              skew w).1 in
  r = Ok token_invalid ∨ r = Ok grant_lookup_failed.
Proof.
  intros Hw Hne Has Hg Hgw Hga Hraw Hblank Hset Hno. cbv zeta. unfold delegated_enforce_v1_contract.
  assert (str_or (Some ws) None = Some ws) as ->
    by (unfold str_or; by rewrite (proj2 (String.eqb_neq _ _) Hne)).
  assert (negb (dv_workspace_id request == "") && negb (dv_workspace_id request == ws) = false) as ->.
  { destruct Has as [-> | ->]; rewrite eqb_refl; [done|]. by rewrite andb_false_r. }
  destruct (lookup_or_error_run (dv_grant_ref request) w Hw) as (g' & Hg' & Hview & [E|E]);
    rewrite (bind_run _ _ _ _ _ E); [|by right]. left.
  rewrite Hg, Hgw, Hga, !eqb_refl. cbn [negb orb].
  assert (Hread : ∀ get, (∀ s, settings = Some s → ∃ b, get s ws (dv_agent_id request) = Ok b) →
    ∃ b, setting get settings ws (dv_agent_id request) (set_grants g' w) = (Ok b, set_grants g' w) ∧
      (mandated get settings ws (dv_agent_id request) ↔ b = true)).
  { intros get Hs. destruct (setting_run get settings ws (dv_agent_id request) (set_grants g' w))
      as (r & Er & Hr). destruct r as [b|e]; [by exists b; auto|]. exfalso.
    unfold setting, lift, mret, M_ret in Er. destruct settings as [s|]; [|done].
    destruct (Hs s eq_refl). congruence. }
  destruct (Hread sl_is_subject_token_required) as (b1 & E1 & _); [intros s Hs; by apply Hset|].
  destruct (Hread sl_is_pop_required) as (b2 & E2 & Hb2); [intros s Hs; by apply Hset|].
  rewrite (bind_run _ _ _ _ _ E1), (bind_run _ _ _ _ _ E2), Hraw, Hblank, andb_false_r.
  destruct (check_subject_token_run int_unicode request raw ws g now tokens b2 skew
    (set_grants g' w)) as (r & p & Hrun & Hr).
  rewrite (bind_run _ _ _ _ _ Hrun). destruct r as [code|[t|]]; [| |done].
  - destruct (delegated_reject_run request ws code now TOKEN_INVALID_MESSAGE
      (set_pop p (set_grants g' w))) as (a & -> & _). done.
  - exfalso. apply (Hno t b2 Hb2). by destruct Hr; constructor.
Qed.
(** What a decision leaves and answers. *)
Definition recorded (i : EnforceInput) w w' (resp : V1EnforceResponse) (d : Decision) : Prop :=
  d = d_decision (evaluate_enforce i) ∧ ∃ event,
    log w' = log w ++ [event] ∧ e_decision event = d ∧ e_created_at event = ei_now i ∧
    e_workspace_id event = g_workspace_id (ei_grant i) ∧ e_agent_id event = g_agent_id (ei_grant i) ∧
    e_action event = ei_action i ∧ e_resource event = ei_resource i ∧
    rs_audit_event_id resp = Some (e_event_id event).
Lemma decided_recorded i principal token w w' resp : decided i principal token w w' resp →
  ∃ d, rs_decision resp = Some d ∧ recorded i w w' resp d.
Proof.
  intros (_ & id & Hlog & ->). exists (d_decision (evaluate_enforce i)).
  destruct (evaluate_enforce_discloses i) as (_ & Ha & Hw & Hact & Hres & _).
  unfold _response_from_decision, recorded.
  destruct (d_decision (evaluate_enforce i)) eqn:Ed; cbn;
    (split; [done|]; split; [done|]; eexists; split; [exact Hlog|]; split_and!; done).
Qed.
(** C31: No decision without its audit row, and no row without a cause, on either
    endpoint: a response that carries a decision was computed by [evaluate_enforce]
    on the caller's own grant (for a delegated request, on a grant of the PEP's
    workspace and the agent it names), exactly one event was written, with that
    decision, for that workspace, agent, action and resource, and the response names
    it; any other response names no event and has written at most one rejection, in
    the caller's own workspace. *)
Theorem enforce_decision_recorded w resp w' : wf w →
  (∀ request now br settings, enforce_v1_contract request now br settings w = (Ok resp, w') →
     match rs_decision resp with
     | Some d => ∃ g rb, grants w !! v1_grant_ref request = Some g ∧ own_grant request g ∧
         recorded (v1_input request g now br rb) w w' resp d
     | None => undecided (v1_workspace_id request) w w' resp
     end) ∧
  (∀ request now br pep_ws tokens settings skew,
     delegated_enforce_v1_contract int_unicode request now br pep_ws tokens settings skew w = (Ok resp, w') →
     match rs_decision resp with
     | Some d => ∃ ws g rb, pep_ws = Some ws ∧ grants w !! dv_grant_ref request = Some g ∧
         g_workspace_id g = ws ∧ g_agent_id g = dv_agent_id request ∧
         recorded (dv_input request g now br rb) w w' resp d
     | None => ∃ ws, (pep_ws = Some ws ∨ w' = w) ∧ undecided ws w w' resp
     end).
Proof.
  intros Hw. split.
  - intros request now br settings E. destruct (enforce_v1_outcome _ _ _ _ _ _ _ Hw E) as [Hu|Hd].
    { pose proof Hu as (Hnone & _). by rewrite Hnone. }
    destruct Hd as (g & rb & Hg & Hown & _ & Hd). destruct (decided_recorded _ _ _ _ _ _ Hd) as (d & -> & Hr).
    by exists g, rb.
  - intros request now br pep_ws tokens settings skew E.
    destruct (delegated_outcome int_unicode _ _ _ _ _ _ _ _ _ _ Hw E)
      as [(ws & Hws & Hu)|(ws & g & t & rb & Hb & _ & Hd)].
    { pose proof Hu as (Hnone & _). rewrite Hnone. by exists ws. }
    destruct (decided_recorded _ _ _ _ _ _ Hd) as (d & -> & Hr).
    destruct Hb as [[-> _] _ Hg [Hgw Hga] _ _ _]. by exists ws, g, rb.
Qed.
End delegated.
End theorems.

(** ** Witnesses *)

(** A service with some grants and tokens, an in-memory log and names "n0",
    "n1", ... *)
Definition sample_world (l : list (string * Grant)) (ts : dict string SubjectToken) :
    World InMemoryGrantRepository InMemoryAuditWriter :=
  mkWorld (mkInMemoryGrantRepository l) [] (mkRequests []) (mkRules []) (mkTokens ts)
    (mkSettings [] [] []) (mkBoundaryRegistry []) (Some empty_cache) (mkThrottle 60 [])
    (mkAuditWriter []) (mkEntropy (λ _ n, "n" ^+ pretty n) 0).
Definition own_world := sample_world [("grt_1", sample_grant)] [].
Lemma own_world_wf ts : wf (sample_world [("grt_1", sample_grant)] ts).
Proof.
  split; [repeat constructor; set_solver|]. intros ref x. simpl. case_decide; naive_solver.
Qed.
Lemma empty_world_wf : wf (sample_world [] []).
Proof. split; [constructor|done]. Qed.

Definition sample_request (agent : string) : V1EnforceRequest :=
  mkV1EnforceRequest "ws" agent "grt_1" "read" "repo/docs/a" None.
Definition sample_response : V1EnforceResponse :=
  mkV1EnforceResponse 200 (Some permit) None None (Some "evt_n0").
Definition sample_run (agent : string) (w : World InMemoryGrantRepository InMemoryAuditWriter) :=
  enforce_v1_contract (sample_request agent) 5 None None w.

Lemma enforce_permit_sound_witness :
  ∃ g rb, let i := v1_input (sample_request "agent") g 5 None rb in
    grants own_world !! "grt_1" = Some g ∧ own_grant (sample_request "agent") g ∧
    g_status g = "active" ∧ unexpired i ∧ scopes_valid g ∧ request_valid i ∧
    (∃ s, s ∈ g_scopes g ∧ scope_covers s "read" "repo/docs/a" = true) ∧
    (∃ b, boundary_admissible i b) ∧
    (mandated sl_is_boundary_required None "ws" "agent" → is_Some (@None string)).
Proof.
  apply (enforce_permit_sound (sample_request "agent") 5 None None own_world sample_response
    (sample_run "agent" own_world).2);
    [apply own_world_wf|vm_compute; reflexivity|reflexivity].
Defined.

(** The caller "mallory" asks about an absent grant, and about agent's. *)
Lemma enforce_no_grant_oracle_witness :
  w_audit (sample_run "mallory" (sample_world [] [])).2 =
    w_audit (sample_run "mallory" own_world).2.
Proof.
  refine (proj1 (proj2 (proj2 (enforce_no_grant_oracle (sample_request "mallory") 5 None None
    None None (sample_world [] []) own_world grant_forbidden grant_forbidden
    (sample_run "mallory" (sample_world [] [])).2 (sample_run "mallory" own_world).2
    empty_world_wf (own_world_wf []) eq_refl eq_refl _ _ _ _ _ _)))).
  - intros g Hg. vm_compute in Hg. discriminate Hg.
  - intros g Hg [_ Ha]. vm_compute in Hg. injection Hg as <-. discriminate Ha.
  - vm_compute. reflexivity.
  - vm_compute. reflexivity.
  - discriminate.
  - discriminate.
Defined.

(** A delegated request for "agent" by the point "pep_1", with a token. *)
Definition sample_token (audience : string) : SubjectToken :=
  mkSubjectToken "vtk_1" (_hash_key "vat_raw") "ws" "agent" "grt_1" audience 0 50 "agent" None None
    None None.
Definition sample_lookup (audience : string) : TokenLookup := λ h,
  Ok (if h == _hash_key "vat_raw" then Some (sample_token audience) else None).
Definition sample_drequest : V1DelegatedEnforceRequest :=
  mkV1DelegatedEnforceRequest "pep_1" "ws" "agent" "grt_1" "read" "repo/docs/a" None
    (Some "vat_raw") None.
Definition token_settings : SettingsLookup :=
  mkSettingsLookup (λ _ _, Ok false) (λ _ _, Ok true) (λ _ _, Ok false).
Definition sample_drun (audience : string) :=
  delegated_enforce_v1_contract no_unicode_int sample_drequest 5 None (Some "ws")
    (Some (sample_lookup audience)) (Some token_settings) 30 own_world.
Lemma sample_drun_eq : sample_drun "pep_1" = (Ok sample_response, (sample_drun "pep_1").2).
Proof. vm_compute. reflexivity. Qed.

Lemma delegated_tenant_isolation_witness :
  ∃ l, log (sample_drun "pep_1").2 = log own_world ++ l ∧ (length l ≤ 1)%nat ∧
       Forall (λ e, Some "ws" = Some (e_workspace_id e)) l.
Proof.
  exact (proj2 (delegated_tenant_isolation no_unicode_int _ _ _ _ _ _ _ _ _ _ (own_world_wf [])
    sample_drun_eq)).
Defined.
Lemma delegated_identity_proven_witness :
  ∃ ws g event, grants own_world !! "grt_1" = Some g ∧
    log (sample_drun "pep_1").2 = log own_world ++ [event] ∧
    e_enforcing_principal event = Some "pep_1" ∧ ∃ t pop_required,
      token_proven no_unicode_int sample_drequest "vat_raw" ws g 5 (Some (sample_lookup "pep_1"))
        pop_required 30 own_world t ∧
      e_subject_token_verified event = true ∧ e_token_id event = Some (st_token_id t).
Proof.
  exact (delegated_identity_proven no_unicode_int _ _ _ _ _ _ _ _ _ _ permit (own_world_wf [])
    sample_drun_eq eq_refl).
Defined.
(** The same answer from either endpoint, each with its event. *)
Lemma enforce_decision_recorded_witness :
  (∃ g rb, grants own_world !! "grt_1" = Some g ∧ own_grant (sample_request "agent") g ∧
     recorded (v1_input (sample_request "agent") g 5 None rb) own_world (sample_run "agent" own_world).2
       sample_response permit) ∧
  (∃ ws g rb, Some "ws" = Some ws ∧ grants own_world !! "grt_1" = Some g ∧ g_workspace_id g = ws ∧
     g_agent_id g = "agent" ∧
     recorded (dv_input sample_drequest g 5 None rb) own_world (sample_drun "pep_1").2 sample_response permit).
Proof.
  split.
  - refine (proj1 (enforce_decision_recorded no_unicode_int own_world sample_response _ (own_world_wf []))
      (sample_request "agent") 5 None None _). vm_compute. reflexivity.
  - exact (proj2 (enforce_decision_recorded no_unicode_int own_world sample_response _ (own_world_wf []))
      sample_drequest 5 None _ _ _ _ sample_drun_eq).
Defined.
Lemma delegated_mandates_witness :
  mandated sl_is_subject_token_required (Some token_settings) "ws" "agent" ∧
  is_Some (dv_subject_token sample_drequest).
Proof.
  assert (Hm : mandated sl_is_subject_token_required (Some token_settings) "ws" "agent")
    by (exists token_settings; split; reflexivity).
  split; [exact Hm|].
  exact (proj1 (delegated_mandates no_unicode_int _ _ _ _ _ _ _ _ _ _ permit (own_world_wf [])
    sample_drun_eq eq_refl) Hm).
Defined.
(** The token was minted for another enforcement point. *)
Lemma delegated_token_errors_uniform_witness :
  (sample_drun "pep_9").1 = Ok token_invalid ∨ (sample_drun "pep_9").1 = Ok grant_lookup_failed.
Proof.
  apply (delegated_token_errors_uniform no_unicode_int sample_drequest "vat_raw" 5 None "ws"
    sample_grant (Some (sample_lookup "pep_9")) (Some token_settings) 30 own_world);
    [apply own_world_wf|done|by right|done|done|done|done|done| |].
  - intros s [= <-]. split; by eexists.
  - intros t pr _ [(get & [= <-] & Hst) _ Haud _ _ _ _ _ _]. unfold sample_lookup in Hst.
    rewrite eqb_refl in Hst. injection Hst as <-. discriminate Haud.
Defined.
