(* ===== verification/Simulate.v ===== *)
(** * Simulation and observation ([src/vinctor_service/simulations.py],
      [src/vinctor_service/observations.py])

    [simulate_v1_contract] calculates and audits what [enforce_v1_contract]
    would decide; [record_observation] records what an agent reports to have
    done.  Neither gates anything. *)
From S2P Require Import Prelude PyStr PyDict PyTime Scope Models Registry Enforce CoreAudit Pop.
From S2P Require Import ServiceModels Repositories AuditWriter World V1Enforce.

(** [replace(event, event_type=...)] *)
Definition with_event_type (e : AuditEvent) (event_type : string) : AuditEvent :=
  {| e_event_id := e_event_id e; e_event_type := event_type; e_decision := e_decision e;
     e_reason := e_reason e; e_workspace_id := e_workspace_id e; e_agent_id := e_agent_id e;
     e_grant_id := e_grant_id e; e_grant_ref := e_grant_ref e; e_action := e_action e;
     e_resource := e_resource e; e_scope_attempted := e_scope_attempted e;
     e_scope_matched := e_scope_matched e; e_boundary_id := e_boundary_id e;
     e_runtime := e_runtime e; e_boundary_type := e_boundary_type e;
     e_created_at := e_created_at e; e_enforcing_principal := e_enforcing_principal e;
     e_reason_code := e_reason_code e; e_occurrence_count := e_occurrence_count e;
     e_first_seen_at := e_first_seen_at e; e_last_seen_at := e_last_seen_at e;
     e_subject_token_verified := e_subject_token_verified e; e_token_id := e_token_id e;
     e_event_class := e_event_class e |}.

Definition _error (status_code : Z) (error reason : string) : V1SimulateResponse :=
  mkV1SimulateResponse status_code None (Some error) (Some reason) None.
Definition simulation_not_recorded : V1SimulateResponse :=
  _error 503 "service_unavailable" "audit write failed; no simulation was recorded".

(** The event of a simulation on a grant that is not the caller's. *)
Definition would_deny_event (request : V1SimulateRequest) (now : Z) (event_id : string) :
    AuditEvent :=
  build_rejection_audit_event
    {| rj_reason_code := REASON_AGENT_GRANT_MISMATCH;
       rj_workspace_id := vs_workspace_id request; rj_agent_id := vs_agent_id request;
       rj_created_at := now; rj_event_type := "action_would_deny";
       rj_action := vs_action request; rj_resource := vs_resource request;
       rj_scope_attempted := None; rj_boundary_id := vs_boundary_id request;
       rj_enforcing_principal := None; rj_event_id := None; rj_occurrence_count := None;
       rj_first_seen_at := None; rj_last_seen_at := None |} event_id.

Section contracts.
Context {G A : Type} `{GrantLifecycle G} `{AuditWriter A}.

Definition _write (event : AuditEvent) : M (World G A) bool :=
  try_except (_ ← on_audit (aw_write event); mret true) (λ _, mret false).

Definition simulate_v1_contract (request : V1SimulateRequest) (now : Z)
    (boundary_registry : option BoundaryLookup) (settings : option SettingsLookup) :
    M (World G A) V1SimulateResponse :=
  found ← lookup_or_error (vs_grant_ref request);
  match found with
  | None =>
      mret (_error 503 "service_unavailable" "grant lookup failed; no simulation was recorded")
  | Some found =>
      let foreign :=
        match found with
        | None => true
        | Some grant => negb (g_workspace_id grant == vs_workspace_id request)
                        || negb (g_agent_id grant == vs_agent_id request)
        end in
      match found, foreign with
      | Some grant, false =>
          if negb (is_valid_requested_action (vs_action request)) then
            mret (_error 400 "scope_invalid" ("action '" ^+ vs_action request ^+ "' is not valid"))
          else if negb (is_valid_requested_resource (vs_resource request)) then
            mret (_error 400 "scope_invalid"
                    ("resource '" ^+ vs_resource request ^+ "' is not valid"))
          else
            require_boundary ←
              setting sl_is_boundary_required settings (vs_workspace_id request)
                (vs_agent_id request);
            let decision := evaluate_enforce
              {| ei_grant := grant; ei_action := vs_action request;
                 ei_resource := vs_resource request; ei_now := now;
                 ei_boundary_id := vs_boundary_id request;
                 ei_boundary_registry := boundary_registry;
                 ei_require_boundary := require_boundary |} in
            event_id ← new_event_id;
            let event := with_event_type
              (build_audit_event (mkAuditEventInput decision None (Some now) None false None)
                 event_id now)
              (if is_permit (d_decision decision) then "action_would_permit"
               else "action_would_deny") in
            written ← _write event;
            if negb written then mret simulation_not_recorded
            else
              let agent_reason :=
                if is_permit (d_decision decision) then None
                else Some (agent_facing_reason (d_reason decision)) in
              mret (mkV1SimulateResponse 200 (Some (d_decision decision)) agent_reason agent_reason
                      (Some (e_event_id event)))
      | _, _ =>
          event_id ← new_event_id;
          let event := would_deny_event request now event_id in
          written ← _write event;
          if negb written then mret simulation_not_recorded
          else mret (mkV1SimulateResponse 200 (Some deny) (Some "forbidden")
                       (Some _GRANT_FORBIDDEN_MESSAGE) (Some (e_event_id event)))
      end
  end.

(** ** Observations *)

Definition _invalid (reason : string) : V1ObserveResponse :=
  mkV1ObserveResponse 400 None (Some "invalid_request") (Some reason).

(** The event type, action, resource and scope of a well-formed report. *)
Definition classify (request : V1ObserveRequest) :
    V1ObserveResponse + (string * string * string * string) :=
  let blocked := bool_decide (vo_outcome request = Some "blocked_unmapped") in
  if negb (bool_decide (vo_outcome request = None) || blocked)
  then inl (_invalid "outcome must be blocked_unmapped")
  else if blocked && negb (vo_classification request == "unmapped")
  then inl (_invalid "blocked_unmapped outcome requires unmapped classification")
  else if vo_classification request == "mapped" then
    match vo_action request with
    | Some action =>
        if negb (is_valid_requested_action action)
        then inl (_invalid "action must be a valid Vinctor action")
        else match vo_resource request with
             | Some resource =>
                 if negb (is_valid_requested_resource resource)
                 then inl (_invalid "resource must be a valid Vinctor resource")
                 else inr ("action_observed", action, resource, attempted_scope action resource)
             | None => inl (_invalid "resource must be a valid Vinctor resource")
             end
    | None => inl (_invalid "action must be a valid Vinctor action")
    end
  else if vo_classification request == "unmapped" then
    if bool_decide (is_Some (vo_action request)) || bool_decide (is_Some (vo_resource request))
    then inl (_invalid "unmapped observations must not include action or resource")
    else inr (if blocked then "action_blocked_unmapped" else "action_unmapped", "", "", "")
  else inl (_invalid "classification must be mapped or unmapped").

Definition record_observation (request : V1ObserveRequest) (now : Z)
    (boundary_registry : option BoundaryLookup) : M (World G A) V1ObserveResponse :=
  match classify request with
  | inl response => mret response
  | inr (event_type, action, resource, scope) =>
      let blocked := bool_decide (vo_outcome request = Some "blocked_unmapped") in
      let boundary :=
        match boundary_registry, vo_boundary_id request with
        | Some r, Some id =>
            match boundary_get r id with
            | Some b => if negb (b_workspace_id b == vo_workspace_id request) then None else Some b
            | None => None
            end
        | _, _ => None
        end in
      event_id ← new_event_id;
      let event :=
        {| e_event_id := event_id; e_event_type := event_type;
           e_decision := if blocked then deny else permit;
           e_reason := if blocked then "blocked_unmapped" else "observe_mode";
           e_workspace_id := vo_workspace_id request; e_agent_id := vo_agent_id request;
           e_grant_id := ""; e_grant_ref := ""; e_action := action; e_resource := resource;
           e_scope_attempted := scope; e_scope_matched := None;
           e_boundary_id := vo_boundary_id request;
           e_runtime := b_runtime <$> boundary; e_boundary_type := b_boundary_type <$> boundary;
           e_created_at := now; e_enforcing_principal := None; e_reason_code := None;
           e_occurrence_count := None; e_first_seen_at := None; e_last_seen_at := None;
           e_subject_token_verified := false; e_token_id := None; e_event_class := "decision" |} in
      try_except
        (_ ← on_audit (aw_write event);
         mret (mkV1ObserveResponse 200 (Some (e_event_id event)) None None))
        (λ _, mret (mkV1ObserveResponse 503 None (Some "service_unavailable")
                      (Some "audit write failed; observation was not recorded")))
  end.
End contracts.

(** ** Theorems *)
Section facts.
Context {G A : Type} `{HG : GrantLifecycleOk G} `{HA : AuditWriterOk A}.
Implicit Types (w : World G A).

Lemma write_run e w :
  ∃ b a, _write e w = (Ok b, set_audit a w) ∧ aw_log a = if b : bool then log w ++ [e] else log w.
Proof.
  unfold _write, try_except, mbind, M_bind, on_audit, zoom.
  destruct (aw_write e (w_audit w)) as [[u|x] a] eqn:E;
    pose proof (aw_write_ok _ _ _ _ E) as Hlog; [by exists true, a|by exists false, a].
Qed.

(** The enforce request that asks the same. *)
Definition as_enforce (r : V1SimulateRequest) : V1EnforceRequest :=
  mkV1EnforceRequest (vs_workspace_id r) (vs_agent_id r) (vs_grant_ref r) (vs_action r)
    (vs_resource r) (vs_boundary_id r).

#[export] Instance own_grant_dec r g : stdpp.base.Decision (own_grant r g).
Proof. unfold own_grant. apply _. Defined.

(** The branch of a simulation on a grant that is not the caller's. *)
Definition simulate_foreign_response request now (ok : bool) w : V1SimulateResponse :=
  if ok then mkV1SimulateResponse 200 (Some deny) (Some "forbidden")
    (Some _GRANT_FORBIDDEN_MESSAGE)
    (Some (e_event_id (would_deny_event request now ("evt_" ^+ next_id w 12))))
  else simulation_not_recorded.
Lemma simulate_foreign_run request now w :
  ∃ a (ok : bool),
    (event_id ← new_event_id;
     written ← _write (would_deny_event request now event_id);
     if negb written then mret simulation_not_recorded
     else mret (mkV1SimulateResponse 200 (Some deny) (Some "forbidden")
       (Some _GRANT_FORBIDDEN_MESSAGE) (Some (e_event_id (would_deny_event request now event_id)))))
      w = (Ok (simulate_foreign_response request now ok w), set_audit a (drew w)) ∧
    aw_log a = if ok then log w ++ [would_deny_event request now ("evt_" ^+ next_id w 12)]
               else log w.
Proof.
  rewrite (bind_run _ _ _ _ _ (new_event_id_run _)).
  destruct (write_run (would_deny_event request now ("evt_" ^+ next_id w 12)) (drew w))
    as (b & a & Hr & Hlog).
  rewrite (bind_run _ _ _ _ _ Hr). exists a, b. by destruct b.
Qed.

(** What a simulation comes to. *)
Lemma simulate_outcome request now br settings w resp w' :
  wf w → simulate_v1_contract request now br settings w = (Ok resp, w') →
  (vsr_would_decision resp = None ∧ vsr_audit_event_id resp = None ∧ log w' = log w) ∨
  (∃ event, log w' = log w ++ [event] ∧ e_event_type event = "action_would_deny" ∧
     (∀ g, grants w !! vs_grant_ref request = Some g → ¬ own_grant (as_enforce request) g) ∧
     resp = mkV1SimulateResponse 200 (Some deny) (Some "forbidden")
              (Some _GRANT_FORBIDDEN_MESSAGE) (Some (e_event_id event))) ∨
  ∃ g rb event, let i := v1_input (as_enforce request) g now br rb in
    grants w !! vs_grant_ref request = Some g ∧ own_grant (as_enforce request) g ∧
    (mandated sl_is_boundary_required settings (vs_workspace_id request) (vs_agent_id request) ↔
     rb = true) ∧
    request_valid i ∧ log w' = log w ++ [event] ∧
    e_decision event = d_decision (evaluate_enforce i) ∧
    e_event_type event =
      (if is_permit (d_decision (evaluate_enforce i)) then "action_would_permit"
       else "action_would_deny") ∧
    let reason := if is_permit (d_decision (evaluate_enforce i)) then None
                  else Some (agent_facing_reason (d_reason (evaluate_enforce i))) in
    resp = mkV1SimulateResponse 200 (Some (d_decision (evaluate_enforce i))) reason reason
             (Some (e_event_id event)).
Proof.
  intros Hw. unfold simulate_v1_contract.
  destruct (lookup_or_error_run (vs_grant_ref request) w Hw) as (g' & Hg' & Hview & [E|E]);
    rewrite (bind_run _ _ _ _ _ E); clear E; [|intros [= <- <-]; by left].
  destruct (simulate_foreign_run request now (set_grants g' w)) as (a0 & ok & Hf & Hflog).
  assert (Hforeign : (∀ g, grants w !! vs_grant_ref request = Some g →
      ¬ own_grant (as_enforce request) g) →
    (Ok (simulate_foreign_response request now ok (set_grants g' w)),
      set_audit a0 (drew (set_grants g' w))) = (Ok resp, w') →
    (vsr_would_decision resp = None ∧ vsr_audit_event_id resp = None ∧ log w' = log w) ∨
    (∃ event, log w' = log w ++ [event] ∧ e_event_type event = "action_would_deny" ∧
     (∀ g, grants w !! vs_grant_ref request = Some g → ¬ own_grant (as_enforce request) g) ∧
     resp = mkV1SimulateResponse 200 (Some deny) (Some "forbidden")
              (Some _GRANT_FORBIDDEN_MESSAGE) (Some (e_event_id event)))).
  { intros Hno [= <- <-]. destruct ok; [right|by left]. eexists.
    split_and!; [exact Hflog|done|exact Hno|done]. }
  destruct (grants w !! vs_grant_ref request) as [g|] eqn:Eg.
  2: { rewrite Hf. intros Hm. destruct (Hforeign ltac:(done) Hm); [by left|by right; left]. }
  destruct (decide (own_grant (as_enforce request) g)) as [[Hws Hag]|Hno].
  2: { assert (negb (g_workspace_id g == vs_workspace_id request)
      || negb (g_agent_id g == vs_agent_id request) = true) as ->.
    { destruct (String.eqb_spec (g_workspace_id g) (vs_workspace_id request)); [|done].
      destruct (String.eqb_spec (g_agent_id g) (vs_agent_id request)); [|done]. by destruct Hno. }
    rewrite Hf. intros Hm.
    destruct (Hforeign ltac:(by intros ? [= <-]) Hm); [by left|by right; left]. }
  simpl in Hws, Hag. rewrite Hws, Hag, !eqb_refl. clear Hforeign Hf Hflog. cbn [negb orb].
  destruct (is_valid_requested_action (vs_action request)) eqn:Ea; cbn [negb];
    [|intros [= <- <-]; by left].
  destruct (is_valid_requested_resource (vs_resource request)) eqn:Er; cbn [negb];
    [|intros [= <- <-]; by left].
  destruct (setting_run sl_is_boundary_required settings (vs_workspace_id request)
    (vs_agent_id request) (set_grants g' w)) as (r & E' & Hmand).
  destruct r as [rb|e]; [|unfold mbind at 1, M_bind at 1; rewrite E'; done].
  rewrite (bind_run _ _ _ _ _ E'), (bind_run _ _ _ _ _ (new_event_id_run _)).
  specialize (Hmand _ eq_refl).
  match goal with |- context [_write ?e] => destruct (write_run e (drew (set_grants g' w)))
    as (b & a & Hr & Hlog) end.
  rewrite (bind_run _ _ _ _ _ Hr). destruct b; cbn [negb]; intros [= <- <-]; [|by left].
  right. right. exists g, rb. eexists. cbv zeta. split_and!; try exact Hlog; done.
Qed.

(** A simulation tells the truth: when, from the same state, simulation and
    enforcement of the same request both come to a decision, it is the same
    decision with the same agent-facing reason; and what a simulation writes is
    one event of a simulated type, never a real permit or denial. *)
Theorem simulate_matches_enforce request now br settings w sr w1 er w2 d d' :
  wf w →
  simulate_v1_contract request now br settings w = (Ok sr, w1) →
  enforce_v1_contract (as_enforce request) now br settings w = (Ok er, w2) →
  vsr_would_decision sr = Some d → rs_decision er = Some d' →
  d = d' ∧ vsr_error sr = rs_error er ∧ vsr_reason sr = rs_reason er ∧
  ∃ event, log w1 = log w ++ [event] ∧ e_decision event = d ∧
    vsr_audit_event_id sr = Some (e_event_id event) ∧
    e_event_type event = if is_permit d then "action_would_permit" else "action_would_deny".
Proof.
  intros Hw Es Ee Hd Hd'.
  destruct (enforce_v1_outcome _ _ _ _ _ _ _ Hw Ee) as [[Hn _]|He]; [congruence|].
  destruct He as (g & rb & Hg & Hown & Hmand & (_ & id & _ & Her)).
  destruct (simulate_outcome _ _ _ _ _ _ _ Hw Es)
    as [(Hn & _)|[(event & _ & _ & Hno & _)|(g2 & rb2 & event & Hg2 & _ & Hmand2 & _ & Hlog & Hdec & Hty & ->)]];
    [congruence|by destruct (Hno g)|].
  simpl in Hg, Hmand. assert (g2 = g) as -> by congruence.
  assert (rb2 = rb) as -> by (destruct rb, rb2; naive_solver).
  simpl in Hd. injection Hd as <-. subst er. unfold _response_from_decision in *.
  destruct (d_decision (evaluate_enforce (v1_input (as_enforce request) g now br rb))) eqn:Ed;
    simpl in *; injection Hd' as <-; split_and!; try done; by exists event.
Qed.

(** An observation is only recorded: a malformed report is refused and
    writes nothing; a well-formed one writes exactly one event, of an observed
    type, under the reporter's own workspace and agent, naming no grant, with a
    valid action and resource unless it is unmapped, and with boundary details
    only of a boundary of the reporter's workspace. *)
Theorem record_observation_spec request now br w :
  match classify request with
  | inl response => record_observation request now br w = (Ok response, w)
  | inr _ => ∃ response a event,
      record_observation request now br w = (Ok response, set_audit a (drew w)) ∧
      ((vor_status_code response = 200 ∧ aw_log a = log w ++ [event] ∧
        vor_audit_event_id response = Some (e_event_id event)) ∨
       (vor_status_code response = 503 ∧ aw_log a = log w)) ∧
      e_event_type event ∈ ["action_observed"; "action_unmapped"; "action_blocked_unmapped"] ∧
      (e_event_type event = "action_observed" →
         is_valid_requested_action (e_action event) = true ∧
         is_valid_requested_resource (e_resource event) = true ∧
         e_scope_attempted event = attempted_scope (e_action event) (e_resource event)) ∧
      (e_event_type event ≠ "action_observed" →
         e_action event = "" ∧ e_resource event = "" ∧ e_scope_attempted event = "") ∧
      (e_decision event = deny ↔ e_event_type event = "action_blocked_unmapped") ∧
      e_workspace_id event = vo_workspace_id request ∧ e_agent_id event = vo_agent_id request ∧
      e_grant_ref event = "" ∧
      (∀ r, e_runtime event = Some r → ∃ reg id b, br = Some reg ∧
         vo_boundary_id request = Some id ∧ boundary_get reg id = Some b ∧
         b_workspace_id b = vo_workspace_id request ∧ b_runtime b = r)
  end.
Proof.
  unfold record_observation. destruct (classify request) as [response|[[[ty ac] re] sc]] eqn:Ec; [done|].
  assert (Hc : ty ∈ ["action_observed"; "action_unmapped"; "action_blocked_unmapped"] ∧
    (ty = "action_observed" → is_valid_requested_action ac = true ∧
       is_valid_requested_resource re = true ∧ sc = attempted_scope ac re) ∧
    (ty ≠ "action_observed" → ac = "" ∧ re = "" ∧ sc = "") ∧
    (bool_decide (vo_outcome request = Some "blocked_unmapped") = true ↔
     ty = "action_blocked_unmapped")).
  { unfold classify in Ec.
    destruct (bool_decide (vo_outcome request = Some "blocked_unmapped")) eqn:Eb; cbn [orb andb negb] in Ec.
    - rewrite orb_true_r in Ec. cbn [negb] in Ec.
      destruct (String.eqb_spec (vo_classification request) "unmapped") as [Hu|]; cbn [negb] in Ec; [|done].
      rewrite Hu in Ec. cbn [String.eqb] in Ec.
      repeat (case_match; simplify_eq); split_and!; try done; set_solver.
    - repeat (case_match; simplify_eq); bool_prop; split_and!; try done; set_solver. }
  destruct Hc as (Hty & Hobs & Hun & Hbl).
  rewrite (bind_run _ _ _ _ _ (new_event_id_run _)).
  unfold try_except, mbind, M_bind, on_audit, zoom.
  match goal with |- context [aw_write ?e _] =>
    destruct (aw_write e (w_audit (drew w))) as [[u|x] a] eqn:E; pose proof (aw_write_ok _ _ _ _ E) as Hlog;
    eexists _, a, e; (split; [reflexivity|]) end;
    (split; [first [left; split_and!; [done|exact Hlog|done] | right; split_and!; [done|exact Hlog]]|]);
    cbn [e_event_type e_action e_resource e_scope_attempted e_decision e_workspace_id e_agent_id
         e_grant_ref e_runtime]; split_and!; try done.
  - rewrite <-Hbl. by destruct (bool_decide _).
  - intros r Hr. destruct br as [reg|], (vo_boundary_id request) as [bid|]; try done.
    destruct (boundary_get reg bid) as [b|] eqn:Eg; [|done].
    destruct (String.eqb_spec (b_workspace_id b) (vo_workspace_id request)); [|done].
    cbn in Hr. injection Hr as <-. by exists reg, bid, b.
  - rewrite <-Hbl. by destruct (bool_decide _).
  - intros r Hr. destruct br as [reg|], (vo_boundary_id request) as [bid|]; try done.
    destruct (boundary_get reg bid) as [b|] eqn:Eg; [|done].
    destruct (String.eqb_spec (b_workspace_id b) (vo_workspace_id request)); [|done].
    cbn in Hr. injection Hr as <-. by exists reg, bid, b.
Qed.
End facts.

Definition sample_simulate : V1SimulateRequest :=
  mkV1SimulateRequest "ws" "agent" "grt_1" "read" "repo/docs/a" None.
Lemma simulate_matches_enforce_witness :
  permit = permit ∧ ∃ event,
    log (simulate_v1_contract sample_simulate 5 None None own_world).2 = [event] ∧
    e_event_type event = "action_would_permit".
Proof.
  destruct (simulate_matches_enforce sample_simulate 5 None None own_world
    (mkV1SimulateResponse 200 (Some permit) None None (Some "evt_n0"))
    (simulate_v1_contract sample_simulate 5 None None own_world).2 sample_response
    (sample_run "agent" own_world).2 permit permit (own_world_wf []))
    as (H & _ & _ & event & Hlog & _ & _ & Hty);
    [vm_compute; reflexivity|vm_compute; reflexivity|reflexivity|reflexivity|].
  split; [exact H|]. exists event. split; [exact Hlog|exact Hty].
Defined.
