(* ===== verification/Grants.v ===== *)
(** * Grant issuance and lifecycle ([src/vinctor_service/grants.py])

    Issuing a grant within an agent's issuable bounds, looking grants up,
    revoking them, and setting the bounds.  The bounds repository is the
    in-memory one: one entry per (workspace, agent), read and written whole. *)
From S2P Require Import Prelude PyStr PyDict PyTime Scope Models Registry Enforce CoreAudit Pop.
From S2P Require Import ServiceModels Repositories AuditWriter World V1Enforce.

Definition DEFAULT_TTL_SECONDS : Z := 1800.
Definition MAX_TTL_SECONDS_CEILING : Z := 30 * 24 * 3600.

(** ** The bounds repository *)

Definition BoundsStore : Type := dict (string * string) AgentIssuableBounds.

Definition bounds_init (bounds : dict (string * string) (list string)) : BoundsStore :=
  map (λ kv, (kv.1, mkAgentIssuableBounds kv.2 None)) bounds.
Definition get_bounds (workspace_id agent_id : string) (b : BoundsStore) : option (list string) :=
  ab_scopes <$> dget (workspace_id, agent_id) b.
Definition get_max_ttl_seconds (workspace_id agent_id : string) (b : BoundsStore) : option Z :=
  dget (workspace_id, agent_id) b ≫= ab_max_ttl_seconds.
Definition get_bounds_with_max_ttl (workspace_id agent_id : string) (b : BoundsStore) :
    option AgentIssuableBounds := dget (workspace_id, agent_id) b.

(** Keys sort as tuples; they are distinct, so values are never compared. *)
Definition list_bounds_for_workspace (workspace_id : string) (b : BoundsStore) :
    list (string * list string) :=
  map (λ kv, (kv.1.2, ab_scopes kv.2))
    (List.filter (λ kv, kv.1.1 == workspace_id)
      (py_sorted (λ x y, if x.1.1 == y.1.1 then String.leb x.1.2 y.1.2
                         else String.leb x.1.1 y.1.1) b)).

Definition validate_issuable_scope_bounds (scopes : list string) (max_ttl_seconds : option Z) :
    result unit :=
  match scopes with
  | [] => Raise (ValueError "at least one issuable scope bound is required")
  | _ =>
      match List.filter (λ s, negb (is_valid_grant_scope s)) scopes with
      | bad :: _ => Raise (ValueError ("invalid issuable scope bound: " ^+ bad))
      | [] =>
          match max_ttl_seconds with
          | Some ttl =>
              if (ttl <=? 0) || (MAX_TTL_SECONDS_CEILING <? ttl)
              then Raise (ValueError "max_ttl_seconds must be a positive integer within the TTL ceiling")
              else Ok tt
          | None => Ok tt
          end
      end
  end.
Definition validate_clear_max_ttl (max_ttl_seconds : option Z) (clear_max_ttl : bool) :
    result unit :=
  if clear_max_ttl && bool_decide (is_Some max_ttl_seconds)
  then Raise (ValueError "clear_max_ttl requires max_ttl_seconds to be None") else Ok tt.

Definition set_bounds (workspace_id agent_id : string) (scopes : list string)
    (max_ttl_seconds : option Z) (clear_max_ttl : bool) : M BoundsStore unit :=
  _ ← lift (validate_issuable_scope_bounds scopes max_ttl_seconds);
  _ ← lift (validate_clear_max_ttl max_ttl_seconds clear_max_ttl);
  existing ← gets (dget (workspace_id, agent_id));
  let max_ttl_seconds :=
    if bool_decide (max_ttl_seconds = None) && negb clear_max_ttl
    then existing ≫= ab_max_ttl_seconds
    else max_ttl_seconds in
  modify (dset (workspace_id, agent_id) (mkAgentIssuableBounds scopes max_ttl_seconds)).

Definition set_bounds_audit_reason (max_ttl_seconds : option Z) (clear_max_ttl : bool) : string :=
  if clear_max_ttl then "max_ttl_seconds=cleared"
  else match max_ttl_seconds with
       | None => "max_ttl_seconds=preserved"
       | Some ttl => "max_ttl_seconds=" ^+ pretty ttl
       end.

(** ** Issuance *)

Definition _validate_issue_request (request : GrantIssueRequest) (applied_ttl_seconds : Z) :
    option string :=
  if gi_workspace_id request == "" then Some "invalid_workspace_id"
  else if gi_target_agent_id request == "" then Some "invalid_agent_id"
  else if gi_ttl_seconds request <? 0 then Some "invalid_ttl"
  else if MAX_TTL_SECONDS_CEILING <? applied_ttl_seconds then Some "ttl_exceeds_max"
  else if bool_decide (gi_requested_scopes request = []) then Some "missing_requested_scopes"
  else if existsb (λ s, negb (is_valid_grant_scope s)) (gi_requested_scopes request)
  then Some "invalid_requested_scope"
  else None.

Definition _scopes_outside_bounds (requested_scopes bounds : list string) : list string :=
  List.filter (λ requested, negb (existsb (λ bound, scope_subsumes bound requested) bounds))
    requested_scopes.

Definition _grant_lifecycle_event (event_type : string) (decision : Decision) (reason : string)
    (grant : Grant) (action resource scope_attempted : string) (now : Z) (event_id : string) :
    AuditEvent :=
  {| e_event_id := event_id; e_event_type := event_type; e_decision := decision;
     e_reason := reason; e_workspace_id := g_workspace_id grant; e_agent_id := g_agent_id grant;
     e_grant_id := g_grant_id grant; e_grant_ref := g_grant_ref grant; e_action := action;
     e_resource := resource; e_scope_attempted := scope_attempted; e_scope_matched := None;
     e_boundary_id := None; e_runtime := None; e_boundary_type := None; e_created_at := now;
     e_enforcing_principal := None; e_reason_code := None; e_occurrence_count := None;
     e_first_seen_at := None; e_last_seen_at := None; e_subject_token_verified := false;
     e_token_id := None; e_event_class := "decision" |}.

Definition issue_rejected (reason : string) (detail : option string) : GrantIssueResult :=
  mkGrantIssueResult "rejected" reason None None detail.
Definition applied_ttl (request : GrantIssueRequest) : Z :=
  if 0 <? gi_ttl_seconds request then gi_ttl_seconds request else DEFAULT_TTL_SECONDS.

Section issuance.
Context {G A : Type} `{GrantLifecycle G} `{AuditWriter A}.

Definition _record_issue_rejection (request : GrantIssueRequest) (reason_code : string) (now : Z) :
    M (World G A) unit :=
  event_id ← new_event_id;
  _ ← on_audit (record_rejection (build_rejection_audit_event
    {| rj_reason_code := reason_code; rj_workspace_id := gi_workspace_id request;
       rj_agent_id := gi_target_agent_id request; rj_created_at := now;
       rj_event_type := EVENT_GRANT_ISSUE_REJECTED; rj_action := "issue_grant";
       rj_resource := "agent/" ^+ gi_target_agent_id request;
       rj_scope_attempted := Some (join "," (gi_requested_scopes request));
       rj_boundary_id := None; rj_enforcing_principal := None; rj_event_id := None;
       rj_occurrence_count := None; rj_first_seen_at := None; rj_last_seen_at := None |} event_id));
  mret tt.

(** The grant is built, stored and audited. *)
Definition issue_accepted (request : GrantIssueRequest) (applied_ttl_seconds now : Z) :
    M (World G A) GrantIssueResult :=
  grant_id ← given_or_new (gi_grant_id request) "grnt";
  grant_ref ← given_or_new (gi_grant_ref request) "grt";
  expires_at ← lift (datetime_add now applied_ttl_seconds);
  let grant := mkGrant grant_id grant_ref (gi_workspace_id request) (gi_target_agent_id request)
                 (gi_requested_scopes request) "active" (Some expires_at) in
  inserted ← try_except (_ ← on_grants (gr_insert grant); mret true)
    (λ e, match e with ValueError _ => mret false | _ => raise e end);
  if negb inserted then mret (issue_rejected "duplicate_grant_ref" None)
  else
    event_id ← _new_id "evt";
    let audit_event := _grant_lifecycle_event "grant_issued" permit "grant_issued" grant
      "issue_grant" ("agent/" ^+ g_agent_id grant) (join "," (g_scopes grant)) now event_id in
    _ ← on_audit (aw_write audit_event);
    mret (mkGrantIssueResult "issued" "grant_issued" (Some grant)
            (Some (e_event_id audit_event)) None).

Definition issue_grant (request : GrantIssueRequest) (now : Z) : M (World G A) GrantIssueResult :=
  let applied_ttl_seconds := applied_ttl request in
  match _validate_issue_request request applied_ttl_seconds with
  | Some invalid_reason => mret (issue_rejected invalid_reason None)
  | None =>
      issuable ← gets (λ w, get_bounds_with_max_ttl (gi_workspace_id request)
                              (gi_target_agent_id request) (w_bounds w));
      match issuable with
      | None =>
          _ ← _record_issue_rejection request REASON_ISSUABLE_BOUNDS_NOT_FOUND now;
          mret (issue_rejected "issuable_bounds_not_found"
            (Some ("no issuable scope bounds are configured for agent '"
                   ^+ gi_target_agent_id request ^+ "'")))
      | Some issuable =>
          let bounds := ab_scopes issuable in
          if existsb (λ s, negb (is_valid_grant_scope s)) bounds
          then mret (issue_rejected "invalid_issuable_scope_bound" None)
          else
            let outside := _scopes_outside_bounds (gi_requested_scopes request) bounds in
            if negb (bool_decide (outside = [])) then
              _ ← _record_issue_rejection request REASON_SCOPE_OUTSIDE_ISSUABLE_BOUNDS now;
              mret (issue_rejected "scope_outside_issuable_bounds"
                (Some ("requested scope(s) " ^+ join ", " outside ^+ " are outside agent '"
                       ^+ gi_target_agent_id request ^+ "' issuable bounds ("
                       ^+ join ", " bounds ^+ ")")))
            else
              match ab_max_ttl_seconds issuable with
              | Some max_ttl_seconds =>
                  if max_ttl_seconds <? applied_ttl_seconds then
                    _ ← _record_issue_rejection request REASON_TTL_EXCEEDS_ISSUABLE_MAX now;
                    mret (issue_rejected "ttl_exceeds_issuable_max"
                      (Some ("requested TTL " ^+ pretty applied_ttl_seconds
                             ^+ "s exceeds the max issuable TTL " ^+ pretty max_ttl_seconds
                             ^+ "s for agent '" ^+ gi_target_agent_id request ^+ "'")))
                  else issue_accepted request applied_ttl_seconds now
              | None => issue_accepted request applied_ttl_seconds now
              end
      end
  end.

(** ** Lookup and revocation *)

Definition lookup_grant (grant_ref workspace_id : string) : M (World G A) (option Grant) :=
  grant ← on_grants (gr_get_by_ref grant_ref);
  mret (match grant with
        | Some g => if negb (g_workspace_id g == workspace_id) then None else Some g
        | None => None
        end).
Definition list_grants (workspace_id : string) (agent_id status : option string) :
    M (World G A) (list Grant) :=
  on_grants (gr_list_grants_for_workspace workspace_id agent_id status).
Definition revoke_grant (grant_ref workspace_id : string) (now : Z) :
    M (World G A) (option (Grant * string)) :=
  grant ← on_grants (gr_revoke grant_ref workspace_id);
  match grant with
  | None => mret None
  | Some grant =>
      event_id ← _new_id "evt";
      let audit_event := _grant_lifecycle_event "grant_revoked" deny "grant_revoked" grant
        "revoke_grant" ("grant/" ^+ g_grant_ref grant) (join "," (g_scopes grant)) now event_id in
      _ ← on_audit (aw_write audit_event);
      mret (Some (grant, e_event_id audit_event))
  end.
End issuance.

(** ** Specification *)

Lemma outside_nil requested bounds :
  _scopes_outside_bounds requested bounds = [] ↔
  ∀ s, s ∈ requested → ∃ b, b ∈ bounds ∧ scope_subsumes b s = true.
Proof.
  unfold _scopes_outside_bounds. split.
  - intros H s Hs. destruct (existsb (λ b, scope_subsumes b s) bounds) eqn:E.
    + by apply existsb_exists_elem in E.
    + exfalso. assert (Hin : s ∈ List.filter (λ r, negb (existsb (λ b, scope_subsumes b r) bounds)) requested).
      { rewrite list_elem_of_In, filter_In, <-list_elem_of_In, E. done. }
      rewrite H in Hin. by apply elem_of_nil in Hin.
  - intros H. destruct (List.filter _ requested) as [|s l] eqn:E; [done|]. exfalso.
    assert (Hin : s ∈ s :: l) by set_solver.
    rewrite <-E, list_elem_of_In, filter_In, <-list_elem_of_In in Hin. destruct Hin as [Hs Hn].
    apply negb_true_iff in Hn. rewrite existsb_false_elem in Hn.
    destruct (H s Hs) as (b & Hb & Hsub). by rewrite Hn in Hsub.
Qed.

Lemma invalid_none_valid l :
  existsb (λ s, negb (is_valid_grant_scope s)) l = false →
  ∀ s, s ∈ l → is_valid_grant_scope s = true.
Proof. rewrite existsb_false_elem. intros H s Hs. apply H in Hs. by apply negb_false_iff in Hs. Qed.

Section facts.
Context {G A : Type} `{HG : GrantLifecycleOk G} `{HA : AuditWriterOk A}.
Implicit Types (w : World G A).

(** The parts of the service that issuing and revoking leave alone. *)
Definition same_rest w w' : Prop :=
  w_bounds w' = w_bounds w ∧ w_requests w' = w_requests w ∧ w_rules w' = w_rules w ∧
  w_tokens w' = w_tokens w ∧ w_settings w' = w_settings w ∧ w_registry w' = w_registry w ∧
  w_pop w' = w_pop w ∧ w_throttle w' = w_throttle w.

(** A grant issued for a request, under the bounds [b]. *)
Record issued_ok (request : GrantIssueRequest) (now : Z) (b : AgentIssuableBounds) w w'
    (g : Grant) : Prop := {
  io_fresh : grants w !! g_grant_ref g = None;
  io_view : grants w' = <[g_grant_ref g := g]> (grants w);
  io_rest : wf w' ∧ same_rest w w';
  io_who : g_workspace_id g = gi_workspace_id request ∧
    g_agent_id g = gi_target_agent_id request ∧ g_scopes g = gi_requested_scopes request ∧
    g_status g = "active";
  io_ref : ∀ ref, gi_grant_ref request = Some ref → ref ≠ "" → g_grant_ref g = ref;
  io_bounds : dget (gi_workspace_id request, gi_target_agent_id request) (w_bounds w) = Some b;
  io_within : g_scopes g ≠ [] ∧ ∀ s, s ∈ g_scopes g → is_valid_grant_scope s = true ∧
    ∃ bound, bound ∈ ab_scopes b ∧ is_valid_grant_scope bound = true ∧
      scope_subsumes bound s = true;
  io_expiry : g_expires_at g = Some (now + seconds (applied_ttl request));
  io_ttl : 0 < applied_ttl request ≤ MAX_TTL_SECONDS_CEILING ∧
    ∀ m, ab_max_ttl_seconds b = Some m → applied_ttl request ≤ m;
  io_log : ∃ e, log w' = log w ++ [e] ∧ e_event_type e = "grant_issued" ∧
    e_grant_ref e = g_grant_ref g ∧ e_workspace_id e = g_workspace_id g
}.

(** A refusal: the grants are what they were, and at most one rejection was
    recorded. *)
Definition issue_refused (workspace_id : string) w w' (res : GrantIssueResult) : Prop :=
  gir_status res = "rejected" ∧ gir_grant res = None ∧ wf w' ∧ grants w' = grants w ∧
  same_rest w w' ∧
  (log w' = log w ∨ ∃ e, log w' = log w ++ [e] ∧
     e_event_type e = EVENT_GRANT_ISSUE_REJECTED ∧ e_workspace_id e = workspace_id).

Lemma record_issue_rejection_run request code now w :
  ∃ a e (ok : bool), _record_issue_rejection request code now w = (Ok tt, set_audit a (drew w)) ∧
    aw_log a = (if ok then log w ++ [e] else log w) ∧
    e_event_type e = EVENT_GRANT_ISSUE_REJECTED ∧ e_workspace_id e = gi_workspace_id request.
Proof.
  unfold _record_issue_rejection. rewrite (bind_run _ _ _ _ _ (new_event_id_run w)).
  match goal with |- context [record_rejection ?e] =>
    destruct (record_rejection_run e (w_audit (drew w))) as (ok & a & Hr & Hlog) end.
  rewrite (bind_run _ _ _ _ _ (zoom_run w_audit set_audit _ _ _ _ Hr)).
  eexists _, _, ok. split; [done|]. split; [exact Hlog|done].
Qed.

(** A refusal that records a rejection first. *)
Lemma refuse_recorded request code now reason detail w res w' :
  wf w →
  (_ ← _record_issue_rejection request code now; mret (issue_rejected reason detail)) w
    = (Ok res, w') →
  issue_refused (gi_workspace_id request) w w' res.
Proof.
  intros Hw. destruct (record_issue_rejection_run request code now w)
    as (a & e & ok & Hr & Hlog & Hty & Hws).
  rewrite (bind_run _ _ _ _ _ Hr). intros [= <- <-]. split_and!; try done.
  destruct ok; [right; by exists e|by left].
Qed.
Lemma refuse_silent reason detail w : wf w → ∀ ws,
  issue_refused ws w w (issue_rejected reason detail).
Proof. intros Hw ws. split_and!; try done. by left. Qed.

(** Drawing names changes nothing else. *)
Lemma given_or_new_frame given prefix w :
  ∃ id w1, given_or_new given prefix w = (Ok id, w1) ∧ (wf w → wf w1) ∧ grants w1 = grants w ∧
    log w1 = log w ∧ same_rest w w1 ∧ (∀ x, given = Some x → x ≠ "" → id = x).
Proof.
  destruct (given_or_new_run given prefix w) as (id & w1 & E & [-> | ->] & Hid); eexists id, _;
    (split; [exact E|done]).
Qed.

Lemma same_rest_trans w1 w2 w3 : same_rest w1 w2 → same_rest w2 w3 → same_rest w1 w3.
Proof. intros (?&?&?&?&?&?&?&?) (?&?&?&?&?&?&?&?). split_and!; congruence. Qed.

(** Storing a grant, as issuance calls it. *)
Lemma insert_grant_run g w :
  wf w → ∃ r g', try_except (_ ← on_grants (gr_insert g); mret true)
      (λ e, match e with ValueError _ => mret false | _ => raise e end) w = (r, set_grants g' w) ∧
    gr_wf g' ∧
    match r with
    | Ok true => grants w !! g_grant_ref g = None ∧
        gr_view g' = <[g_grant_ref g := g]> (grants w)
    | _ => gr_view g' = grants w
    end.
Proof.
  intros Hw. unfold try_except, mbind, M_bind, on_grants, zoom.
  destruct (gr_insert g (w_grants w)) as [[u|e] g'] eqn:Eg;
    destruct (gr_insert_ok g _ _ _ Hw Eg) as (Hwf & Hins & _); [by exists (Ok true), g'|].
  destruct e; first [by exists (Ok false), g' | by eexists (Raise _), g'].
Qed.
Lemma write_audit_run e w :
  ∃ r a, on_audit (aw_write e) w = (r, set_audit a w) ∧
    aw_log a = match r with Ok _ => log w ++ [e] | Raise _ => log w end.
Proof.
  unfold on_audit, zoom. destruct (aw_write e (w_audit w)) as [r a] eqn:E.
  exists r, a. split; [done|]. by apply (aw_write_ok _ _ _ _ E).
Qed.

Lemma issue_accepted_outcome request b now w res w' :
  wf w →
  dget (gi_workspace_id request, gi_target_agent_id request) (w_bounds w) = Some b →
  gi_requested_scopes request ≠ [] →
  (∀ s, s ∈ gi_requested_scopes request → is_valid_grant_scope s = true ∧
    ∃ bound, bound ∈ ab_scopes b ∧ is_valid_grant_scope bound = true ∧
      scope_subsumes bound s = true) →
  0 < applied_ttl request ≤ MAX_TTL_SECONDS_CEILING →
  (∀ m, ab_max_ttl_seconds b = Some m → applied_ttl request ≤ m) →
  issue_accepted request (applied_ttl request) now w = (Ok res, w') →
  (gir_status res = "issued" ∧ ∃ g, gir_grant res = Some g ∧ issued_ok request now b w w' g) ∨
  issue_refused (gi_workspace_id request) w w' res.
Proof.
  intros Hw Hb Hne Hin Httl Hmax. unfold issue_accepted.
  destruct (given_or_new_frame (gi_grant_id request) "grnt" w)
    as (gid & w1 & E1 & Hw1 & Hg1 & Hl1 & Hr1 & _).
  rewrite (bind_run _ _ _ _ _ E1).
  destruct (given_or_new_frame (gi_grant_ref request) "grt" w1)
    as (gref & w2 & E2 & Hw2 & Hg2 & Hl2 & Hr2 & Href).
  rewrite (bind_run _ _ _ _ _ E2).
  pose proof (same_rest_trans _ _ _ Hr1 Hr2) as Hr. specialize (Hw2 (Hw1 Hw)).
  rewrite Hg1 in Hg2. rewrite Hl1 in Hl2. clear E1 E2 Hw1 Hg1 Hl1 Hr1 Hr2.
  unfold datetime_add.
  destruct ((now + seconds (applied_ttl request) <=? DATETIME_MAX) && _); [|done].
  rewrite (bind_run _ _ w2 (now + seconds (applied_ttl request)) w2) by done.
  set (g := mkGrant gid gref _ _ _ _ _).
  destruct (insert_grant_run g w2 Hw2) as (r & g' & Hi & Hwf & Hpost).
  unfold mbind at 1, M_bind at 1. rewrite Hi. destruct r as [[]|e]; [| |done].
  - destruct Hpost as [Hfresh Hview]. cbn [negb].
    rewrite (bind_run _ _ _ _ _ (_new_id_run "evt" (set_grants g' w2))).
    match goal with |- context [aw_write ?e] =>
      destruct (write_audit_run e (drew (set_grants g' w2))) as (r & a & Hwr & Hlog) end.
    unfold mbind, M_bind. rewrite Hwr. destruct r as [u|e]; [|done]. intros [= <- <-].
    left. split; [done|]. exists g. split; [done|]. simpl in Hfresh, Hview.
    constructor; try done; simpl.
    + by rewrite <-Hg2.
    + by rewrite <-Hg2.
    + eexists. rewrite <-Hl2. split; [exact Hlog|done].
  - cbn [negb]. intros [= <- <-]. right. split_and!; try done; [by rewrite <-Hg2|left; exact Hl2].
Qed.

Lemma issue_grant_outcome request now w res w' :
  wf w → issue_grant request now w = (Ok res, w') →
  (gir_status res = "issued" ∧ ∃ g b, gir_grant res = Some g ∧ issued_ok request now b w w' g) ∨
  issue_refused (gi_workspace_id request) w w' res.
Proof.
  intros Hw. unfold issue_grant.
  destruct (_validate_issue_request request (applied_ttl request)) as [reason|] eqn:Ev.
  { intros [= <- <-]. right. by apply refuse_silent. }
  assert (Hval : gi_requested_scopes request ≠ [] ∧
    (∀ s, s ∈ gi_requested_scopes request → is_valid_grant_scope s = true) ∧
    0 < applied_ttl request ≤ MAX_TTL_SECONDS_CEILING).
  { revert Ev. unfold _validate_issue_request, applied_ttl, DEFAULT_TTL_SECONDS.
    repeat case_match; try done; intros _; bool_prop; case_bool_decide; try done;
      (split_and!; [done|by apply invalid_none_valid|lia..]). }
  clear Ev. destruct Hval as (Hne & Hvalid & Httl).
  rewrite (bind_run _ _ w (get_bounds_with_max_ttl (gi_workspace_id request)
    (gi_target_agent_id request) (w_bounds w)) w) by done.
  destruct (get_bounds_with_max_ttl _ _ (w_bounds w)) as [b|] eqn:Eb;
    [|intros Hm; right; by eapply refuse_recorded].
  destruct (existsb _ (ab_scopes b)) eqn:Einv.
  { intros [= <- <-]. right. by apply refuse_silent. }
  pose proof (invalid_none_valid _ Einv) as Hbv.
  case_bool_decide as Eout; cbn [negb]; [|intros Hm; right; by eapply refuse_recorded].
  rewrite outside_nil in Eout.
  assert (Hin : ∀ s, s ∈ gi_requested_scopes request → is_valid_grant_scope s = true ∧
    ∃ bound, bound ∈ ab_scopes b ∧ is_valid_grant_scope bound = true ∧
      scope_subsumes bound s = true).
  { intros s Hs. split; [by apply Hvalid|]. destruct (Eout s Hs) as (bd & Hbd & Hsub). eauto. }
  destruct (ab_max_ttl_seconds b) as [m|] eqn:Em.
  - destruct (Z.ltb_spec m (applied_ttl request)); [intros Hm; right; by eapply refuse_recorded|].
    intros Hm. destruct (issue_accepted_outcome request b now w res w') as [(?&g&?)|?];
      [done..|intros m' [= <-]%(eq_trans (eq_sym Em)); lia|done|left; eauto|by right].
  - intros Hm. destruct (issue_accepted_outcome request b now w res w') as [(?&g&?)|?];
      [done..|congruence|done|left; eauto|by right].
Qed.

(** *** The theorems *)

(** A grant is only ever issued inside its bounds: it is new, active, for
    the requested workspace, agent and scopes; every scope is valid and whatever
    a scope covers some issuable bound of that agent covers too; its lifetime is
    the applied TTL, which exceeds neither the bound's maximum nor the global
    ceiling; and exactly one [grant_issued] event was written for it. *)
Theorem issue_grant_within_bounds request now w res w' :
  wf w → issue_grant request now w = (Ok res, w') → gir_status res = "issued" →
  ∃ g b, gir_grant res = Some g ∧ issued_ok request now b w w' g ∧
    ∀ s action resource, s ∈ g_scopes g → scope_covers s action resource = true →
      ∃ bound, bound ∈ ab_scopes b ∧ scope_covers bound action resource = true.
Proof.
  intros Hw E Hs. destruct (issue_grant_outcome _ _ _ _ _ Hw E)
    as [(_ & g & b & Hg & Hok)|[Hr _]]; [|congruence].
  exists g, b. split_and!; [done|done|]. intros s action resource Hin Hcov.
  destruct (io_within _ _ _ _ _ _ Hok) as [_ Hw']. destruct (Hw' s Hin) as (Hv & bd & Hbd & Hbv & Hsub).
  exists bd. split; [done|]. by apply (proj1 (subsumes_iff bd s Hbv Hv) Hsub).
Qed.

(** A refused issuance is harmless: no grant is stored or changed, nothing
    else of the service moves, and the only possible trace is one
    [grant_issue_rejected] event in the requester's workspace, whether or not
    the audit store accepted it. *)
Theorem issue_grant_refusal_harmless request now w res w' :
  wf w → issue_grant request now w = (Ok res, w') → gir_status res ≠ "issued" →
  issue_refused (gi_workspace_id request) w w' res.
Proof.
  intros Hw E Hs. by destruct (issue_grant_outcome _ _ _ _ _ Hw E) as [(? & _)|?].
Qed.

Lemma revoke_grant_run ref ws now w :
  wf w → ∃ r w', revoke_grant ref ws now w = (r, w') ∧ wf w' ∧ same_rest w w' ∧
    match r with
    | Ok (Some (g, event_id)) => ∃ g0 e, grants w !! ref = Some g0 ∧ g_workspace_id g0 = ws ∧
        g = revoked g0 ∧ grants w' = <[ref := g]> (grants w) ∧
        log w' = log w ++ [e] ∧ e_event_id e = event_id ∧ e_event_type e = "grant_revoked" ∧
        e_workspace_id e = ws
    | Ok None => grants w' = grants w ∧ log w' = log w ∧
        ∀ x, grants w !! ref = Some x → g_workspace_id x ≠ ws
    | Raise _ => log w' = log w ∧ (grants w' = grants w ∨
        ∃ g0, grants w !! ref = Some g0 ∧ grants w' = <[ref := revoked g0]> (grants w))
    end.
Proof.
  intros Hw. unfold revoke_grant, mbind at 1, M_bind at 1, on_grants, zoom.
  destruct (gr_revoke ref ws (w_grants w)) as [r g'] eqn:E.
  destruct (gr_revoke_ok ref ws _ _ _ Hw E) as [Hwf Hpost].
  destruct r as [[g|]|e].
  - destruct Hpost as (g0 & H0' & Hws & -> & Hview).
    rewrite (bind_run _ _ _ _ _ (_new_id_run "evt" (set_grants g' w))).
    match goal with |- context [aw_write ?e] =>
      destruct (write_audit_run e (drew (set_grants g' w))) as (r & a & Hwr & Hlog) end.
    unfold mbind, M_bind. rewrite Hwr. destruct r as [u|e].
    + eexists _, _. split; [reflexivity|]. split_and!; try done. exists g0. eexists.
      split_and!; try done.
    + eexists _, _. split; [reflexivity|]. split_and!; try done. right. by exists g0.
  - destruct Hpost as [Hview Hno]. eexists _, _. split; [reflexivity|]. by split_and!.
  - eexists _, _. split; [reflexivity|]. split_and!; try done. by left.
Qed.

(** Revocation takes effect: once [revoke_grant] has returned the grant, it
    is marked revoked and no enforce request on that reference is permitted in
    any later state in which the reference still stands for what the revocation
    left there. *)
Theorem revoke_then_no_permit ref ws now w g event_id w' request now' br settings w2 resp w3 :
  wf w → revoke_grant ref ws now w = (Ok (Some (g, event_id)), w') →
  wf w2 → grants w2 !! ref = grants w' !! ref →
  v1_grant_ref request = ref →
  enforce_v1_contract request now' br settings w2 = (Ok resp, w3) →
  g_status g = "revoked" ∧ rs_decision resp ≠ Some permit.
Proof.
  intros Hw E Hw2 Hsame Href Ee.
  destruct (revoke_grant_run ref ws now w Hw) as (r & w1 & E' & Hw1 & _ & Hpost).
  rewrite E in E'. injection E' as <- <-.
  destruct Hpost as (g0 & e & Hg0 & Hws & -> & Hview & _). split; [done|]. intros Hp.
  destruct (permit_sound _ _ _ _ _ _ _ Hw2 Ee Hp) as (g & rb & Hg & _ & Hst & _).
  rewrite Href, Hsame, Hview, lookup_insert_eq in Hg. injection Hg as <-. discriminate Hst.
Qed.
End facts.

(** ** Setting bounds *)

(** Bounds are replaced whole or not at all: an invalid request raises
    [ValueError] and changes nothing; otherwise the agent's entry (and no other)
    has the given, valid, non-empty scopes, and a maximum TTL that is the given
    one, none if it was explicitly cleared, and the stored one if undeclared. *)
Theorem set_bounds_spec ws agent scopes ttl clear b r b' :
  set_bounds ws agent scopes ttl clear b = (r, b') →
  match r with
  | Raise e => b' = b ∧ ∃ msg, e = ValueError msg
  | Ok _ =>
      scopes ≠ [] ∧ (∀ s, s ∈ scopes → is_valid_grant_scope s = true) ∧
      (∀ m, ttl = Some m → 0 < m ≤ MAX_TTL_SECONDS_CEILING ∧ clear = false) ∧
      get_bounds_with_max_ttl ws agent b' = Some (mkAgentIssuableBounds scopes
        match ttl with
        | Some m => Some m
        | None => if clear then None else get_max_ttl_seconds ws agent b
        end) ∧
      ∀ ws' agent', (ws', agent') ≠ (ws, agent) →
        get_bounds_with_max_ttl ws' agent' b' = get_bounds_with_max_ttl ws' agent' b
  end.
Proof.
  unfold set_bounds, lift, mbind at 1, M_bind at 1.
  destruct (validate_issuable_scope_bounds scopes ttl) as [u|e] eqn:Ev.
  2: { intros [= <- <-]. split; [done|]. revert Ev. unfold validate_issuable_scope_bounds.
       repeat case_match; intros [= <-]; eauto. }
  assert (Hv : scopes ≠ [] ∧ (∀ s, s ∈ scopes → is_valid_grant_scope s = true) ∧
    (∀ m, ttl = Some m → 0 < m ≤ MAX_TTL_SECONDS_CEILING)).
  { revert Ev. unfold validate_issuable_scope_bounds. destruct scopes as [|s l]; [done|].
    destruct (List.filter _ (s :: l)) as [|bad rest] eqn:Ef; [|done]. intros Ev.
    split; [done|]. split.
    - intros x Hx. destruct (is_valid_grant_scope x) eqn:E; [done|]. exfalso.
      assert (Hin : x ∈ List.filter (λ s, negb (is_valid_grant_scope s)) (s :: l))
        by (rewrite list_elem_of_In, filter_In, <-list_elem_of_In, E; done).
      rewrite Ef in Hin. by apply elem_of_nil in Hin.
    - intros m ->. destruct ((m <=? 0) || _) eqn:Em; [done|]. bool_prop. lia. }
  clear Ev. unfold mbind at 1, M_bind at 1, validate_clear_max_ttl.
  destruct (clear && bool_decide (is_Some ttl)) eqn:Ec;
    [intros [= <- <-]; split; [done|]; eauto|].
  rewrite (bind_run _ _ b (dget (ws, agent) b) b) by done. intros [= <- <-].
  destruct Hv as (Hne & Hval & Httl). split_and!; [done|done| | |].
  - intros m ->. split; [by apply Httl|]. destruct clear; [|done]. by rewrite bool_decide_true in Ec.
  - unfold get_bounds_with_max_ttl. rewrite dget_dset_eq. do 2 f_equal.
    destruct ttl as [m|]; [by rewrite bool_decide_false|]. rewrite bool_decide_true by done.
    by destruct clear.
  - intros ws' agent' Hne'. unfold get_bounds_with_max_ttl. by rewrite dget_dset_ne.
Qed.

(** ** Witnesses *)

Definition bounded_world : World InMemoryGrantRepository InMemoryAuditWriter :=
  set_bounds_store [(("ws", "agent"), mkAgentIssuableBounds ["read:repo/docs/*"] (Some 3600))]
    own_world.
Definition sample_issue (scope : string) : GrantIssueRequest :=
  mkGrantIssueRequest "ws" "agent" [scope] 600 None None.
Definition sample_issued : Grant :=
  mkGrant "grnt_n0" "grt_n1" "ws" "agent" ["read:repo/docs/b"] "active" (Some 600000005).
Lemma bounded_world_wf : wf bounded_world.
Proof. exact (own_world_wf []). Qed.

Lemma issue_grant_within_bounds_witness :
  ∃ g b, Some sample_issued = Some g ∧
    issued_ok (sample_issue "read:repo/docs/b") 5 b bounded_world
      (issue_grant (sample_issue "read:repo/docs/b") 5 bounded_world).2 g ∧
    ∀ s action resource, s ∈ g_scopes g → scope_covers s action resource = true →
      ∃ bound, bound ∈ ab_scopes b ∧ scope_covers bound action resource = true.
Proof.
  apply (issue_grant_within_bounds (sample_issue "read:repo/docs/b") 5 bounded_world
    (mkGrantIssueResult "issued" "grant_issued" (Some sample_issued) (Some "evt_n2") None));
    [exact bounded_world_wf|vm_compute; reflexivity|reflexivity].
Defined.
Lemma issue_grant_refusal_harmless_witness :
  issue_refused "ws" bounded_world (issue_grant (sample_issue "write:repo/docs/b") 5 bounded_world).2
    (issue_rejected "scope_outside_issuable_bounds" (Some
      "requested scope(s) write:repo/docs/b are outside agent 'agent' issuable bounds (read:repo/docs/*)")).
Proof.
  apply (issue_grant_refusal_harmless (sample_issue "write:repo/docs/b") 5 bounded_world);
    [exact bounded_world_wf|vm_compute; reflexivity|discriminate].
Defined.
Lemma revoke_then_no_permit_witness :
  rs_decision sample_response = Some permit ∧
  Some deny ≠ Some permit ∧ g_status (revoked sample_grant) = "revoked".
Proof.
  set (w' := (revoke_grant "grt_1" "ws" 3 own_world).2).
  assert (Hw' : wf w').
  { destruct (revoke_grant_run "grt_1" "ws" 3 own_world (own_world_wf [])) as (r & w1 & E & H & _).
    unfold w'. by rewrite E. }
  destruct (revoke_then_no_permit "grt_1" "ws" 3 own_world (revoked sample_grant) "evt_n0" w'
    (sample_request "agent") 5 None None w'
    (mkV1EnforceResponse 403 (Some deny) (Some "grant_revoked") (Some "grant_revoked")
       (Some "evt_n1")) (sample_run "agent" w').2 (own_world_wf []))
    as [Hst Hne]; [vm_compute; reflexivity|exact Hw'|reflexivity|reflexivity
      |vm_compute; reflexivity|].
  split; [reflexivity|]. split; [exact Hne|exact Hst].
Defined.
Lemma set_bounds_spec_witness :
  get_bounds_with_max_ttl "ws" "agent"
    [(("ws", "agent"), mkAgentIssuableBounds ["write:repo/a/*"] (Some 3600))]
  = Some (mkAgentIssuableBounds ["write:repo/a/*"] (Some 3600)).
Proof.
  destruct (set_bounds_spec "ws" "agent" ["write:repo/a/*"] None false (w_bounds bounded_world)
    (Ok tt) [(("ws", "agent"), mkAgentIssuableBounds ["write:repo/a/*"] (Some 3600))])
    as (_ & _ & _ & H & _); [vm_compute; reflexivity|]. exact H.
Defined.
