(* ===== verification/GrantRequests.v ===== *)
(** * Grant requests ([src/vinctor_service/grant_requests.py])

    An agent asks for a grant; an operator (or a rule) approves or rejects the
    request.  A decision is claimed by a compare-and-set on the stored status
    before anything is issued, and released if issuance is refused. *)
From S2P Require Import Prelude PyStr PyDict PyTime Scope Models Registry Enforce CoreAudit Pop.
From S2P Require Import ServiceModels Repositories AuditWriter World V1Enforce Grants.

Definition create_rejected (reason : string) : GrantRequestCreateResult :=
  mkGrantRequestCreateResult "rejected" reason None None.
Definition decision_failed (reason : string) : GrantRequestDecisionResult :=
  mkGrantRequestDecisionResult "failed" reason None None None None.

Definition _validate_create_request (request : GrantRequestCreateRequest) : option string :=
  if gc_workspace_id request == "" then Some "invalid_workspace_id"
  else if gc_requester_agent_id request == "" then Some "invalid_requester_agent_id"
  else if bool_decide (gc_target_agent_id request = Some "") then Some "invalid_target_agent_id"
  else if gc_requested_ttl_seconds request <=? 0 then Some "invalid_ttl"
  else if bool_decide (gc_requested_scopes request = []) then Some "missing_requested_scopes"
  else if existsb (λ s, negb (is_valid_grant_scope s)) (gc_requested_scopes request)
  then Some "invalid_requested_scope"
  else if gc_reason request == "" then Some "missing_reason"
  else None.

Definition _request_lifecycle_event (event_type : string) (decision : Decision) (reason : string)
    (request : GrantRequest) (action resource : string) (now : Z) (event_id : string) : AuditEvent :=
  {| e_event_id := event_id; e_event_type := event_type; e_decision := decision;
     e_reason := reason; e_workspace_id := gq_workspace_id request;
     e_agent_id := gq_requester_agent_id request; e_grant_id := gq_request_id request;
     e_grant_ref := gq_request_id request; e_action := action; e_resource := resource;
     e_scope_attempted := join "," (gq_requested_scopes request); e_scope_matched := None;
     e_boundary_id := gq_boundary_id request; e_runtime := gq_requester_runtime request;
     e_boundary_type := None; e_created_at := now; e_enforcing_principal := None;
     e_reason_code := None; e_occurrence_count := None; e_first_seen_at := None;
     e_last_seen_at := None; e_subject_token_verified := false; e_token_id := None;
     e_event_class := "decision" |}.

Definition _request_decision_event (event_type reason : string) (request : GrantRequest)
    (grant : Grant) (action : string) (now : Z) (event_id : string) : AuditEvent :=
  {| e_event_id := event_id; e_event_type := event_type; e_decision := permit;
     e_reason := reason; e_workspace_id := gq_workspace_id request;
     e_agent_id := gq_target_agent_id request; e_grant_id := g_grant_id grant;
     e_grant_ref := g_grant_ref grant; e_action := action;
     e_resource := "grant_request/" ^+ gq_request_id request;
     e_scope_attempted := join "," (gq_requested_scopes request); e_scope_matched := None;
     e_boundary_id := gq_boundary_id request; e_runtime := gq_requester_runtime request;
     e_boundary_type := None; e_created_at := now; e_enforcing_principal := None;
     e_reason_code := None; e_occurrence_count := None; e_first_seen_at := None;
     e_last_seen_at := None; e_subject_token_verified := false; e_token_id := None;
     e_event_class := "decision" |}.

(** The pending request a creation stores. *)
Definition new_grant_request (request : GrantRequestCreateRequest)
    (request_id target_agent_id : string) (now : Z) : GrantRequest :=
  {| gq_request_id := request_id; gq_workspace_id := gc_workspace_id request;
     gq_requester_agent_id := gc_requester_agent_id request;
     gq_target_agent_id := target_agent_id;
     gq_requested_scopes := gc_requested_scopes request;
     gq_requested_ttl_seconds := gc_requested_ttl_seconds request;
     gq_reason := gc_reason request; gq_status := "pending"; gq_created_at := now;
     gq_decided_at := None; gq_decided_by := None; gq_decision_reason := None;
     gq_issued_grant_ref := None; gq_task_id := gc_task_id request;
     gq_session_id := gc_session_id request; gq_boundary_id := gc_boundary_id request;
     gq_requester_runtime := gc_requester_runtime request; gq_repo := gc_repo request;
     gq_worktree := gc_worktree request |}.

Section requests.
Context {G A : Type} `{GrantLifecycle G} `{AuditWriter A}.

Definition create_grant_request (request : GrantRequestCreateRequest) (now : Z) :
    M (World G A) GrantRequestCreateResult :=
  match _validate_create_request request with
  | Some invalid_reason => mret (create_rejected invalid_reason)
  | None =>
      let target_agent_id :=
        str_or_else (gc_target_agent_id request) (gc_requester_agent_id request) in
      request_id ← given_or_new (gc_request_id request) "grq";
      let grant_request := new_grant_request request request_id target_agent_id now in
      inserted ← try_except (_ ← on_requests (insert_request grant_request); mret true)
        (λ e, match e with ValueError _ => mret false | _ => raise e end);
      if negb inserted then mret (create_rejected "duplicate_request_id")
      else
        event_id ← _new_id "evt";
        let audit_event := _request_lifecycle_event "grant_requested" permit "grant_requested"
          grant_request "request_grant" ("agent/" ^+ target_agent_id) now event_id in
        _ ← on_audit (aw_write audit_event);
        mret (mkGrantRequestCreateResult "created" "grant_requested" (Some grant_request)
                (Some (e_event_id audit_event)))
  end.

Definition lookup_grant_request (request_id workspace_id : string) (w : World G A) :
    option GrantRequest :=
  match get_request request_id (w_requests w) with
  | Some request => if negb (gq_workspace_id request == workspace_id) then None else Some request
  | None => None
  end.
Definition list_grant_requests (workspace_id : string) (w : World G A) : list GrantRequest :=
  list_requests_for_workspace workspace_id (w_requests w).
Definition _get_pending_workspace_request (request_id workspace_id : string) (w : World G A) :
    option GrantRequest := lookup_grant_request request_id workspace_id w.

Definition approve_grant_request (request_id workspace_id decided_by : string)
    (decision_reason : option string) (now : Z)
    (audit_event_type audit_reason audit_action : string) :
    M (World G A) GrantRequestDecisionResult :=
  found ← gets (_get_pending_workspace_request request_id workspace_id);
  match found with
  | None => mret (decision_failed "grant_request_not_found")
  | Some grant_request =>
      if negb (gq_status grant_request == "pending")
      then mret (decision_failed "grant_request_not_pending")
      else
        issued_grant_ref ← _new_id "grt";
        let updated := gq_decide grant_request "approved" now decided_by decision_reason
                         (Some issued_grant_ref) in
        claimed ← on_requests (decide_request updated);
        if negb claimed then mret (decision_failed "grant_request_not_pending")
        else
          issued ← issue_grant
            {| gi_workspace_id := gq_workspace_id grant_request;
               gi_target_agent_id := gq_target_agent_id grant_request;
               gi_requested_scopes := gq_requested_scopes grant_request;
               gi_ttl_seconds := gq_requested_ttl_seconds grant_request;
               gi_grant_id := None; gi_grant_ref := Some issued_grant_ref |} now;
          match gir_grant issued with
          | Some grant =>
              if gir_status issued == "rejected"
              then _ ← on_requests (update_request grant_request);
                   mret (decision_failed (gir_reason issued))
              else
                event_id ← _new_id "evt";
                let audit_event := _request_decision_event audit_event_type audit_reason updated
                  grant audit_action now event_id in
                _ ← on_audit (aw_write audit_event);
                mret (mkGrantRequestDecisionResult "approved" audit_reason (Some updated)
                        (Some grant) (Some (e_event_id audit_event)) None)
          | None =>
              _ ← on_requests (update_request grant_request);
              mret (decision_failed (gir_reason issued))
          end
  end.

Definition reject_grant_request (request_id workspace_id decided_by : string)
    (decision_reason : option string) (now : Z) : M (World G A) GrantRequestDecisionResult :=
  found ← gets (_get_pending_workspace_request request_id workspace_id);
  match found with
  | None => mret (decision_failed "grant_request_not_found")
  | Some grant_request =>
      if negb (gq_status grant_request == "pending")
      then mret (decision_failed "grant_request_not_pending")
      else
        let updated := gq_decide grant_request "rejected" now decided_by decision_reason
                         (gq_issued_grant_ref grant_request) in
        claimed ← on_requests (decide_request updated);
        if negb claimed then mret (decision_failed "grant_request_not_pending")
        else
          event_id ← _new_id "evt";
          let audit_event := _request_lifecycle_event "grant_request_rejected" deny
            "grant_request_rejected" updated "reject_grant_request"
            ("grant_request/" ^+ gq_request_id updated) now event_id in
          _ ← on_audit (aw_write audit_event);
          mret (mkGrantRequestDecisionResult "rejected" "grant_request_rejected" (Some updated)
                  None (Some (e_event_id audit_event)) None)
  end.
End requests.

(** ** The compare-and-set *)

Definition requests_wf (r : InMemoryGrantRequestRepository) : Prop :=
  dict_wf (_requests_by_id r) ∧
  ∀ id q, get_request id r = Some q → gq_request_id q = id ∧ 0 < gq_requested_ttl_seconds q.

Lemma requests_set_wf r q :
  requests_wf r → 0 < gq_requested_ttl_seconds q →
  requests_wf (mkRequests (dset (gq_request_id q) q (_requests_by_id r))).
Proof.
  intros [Hwf Hk] Httl. split; simpl; [by apply dset_wf|]. intros id x. unfold get_request. simpl.
  rewrite dget_dset. case_decide; [naive_solver|apply Hk].
Qed.
Lemma decide_request_run q r :
  decide_request q r =
    match get_request (gq_request_id q) r with
    | Some cur => if gq_status cur == "pending"
        then (Ok true, mkRequests (dset (gq_request_id q) q (_requests_by_id r)))
        else (Ok false, r)
    | None => (Ok false, r)
    end.
Proof.
  unfold decide_request, get_request. destruct (dget _ _) as [cur|]; [|done].
  by destruct (gq_status cur == "pending").
Qed.

(** The deciders of one request, in the order the lock serialises them; each
    carries the decision it computed from whatever copy it had read. *)
Fixpoint decide_all (deciders : list GrantRequest) (r : InMemoryGrantRequestRepository) :
    list bool * InMemoryGrantRequestRepository :=
  match deciders with
  | [] => ([], r)
  | q :: deciders' =>
      match decide_request q r with
      | (Ok b, r') => let '(bs, r'') := decide_all deciders' r' in (b :: bs, r'')
      | (Raise _, r') => ([], r')
      end
  end.

Lemma decide_all_lost deciders r id cur :
  get_request id r = Some cur → gq_status cur ≠ "pending" →
  Forall (λ q, gq_request_id q = id) deciders →
  decide_all deciders r = (map (λ _, false) deciders, r).
Proof.
  intros Hcur Hst. induction 1 as [|q deciders Hq _ IH]; [done|]. cbn [decide_all map].
  rewrite decide_request_run, Hq, Hcur, (proj2 (String.eqb_neq _ _) Hst). by rewrite IH.
Qed.

(** A request is decided once: whatever deciders race on a pending request,
    in whatever order and with however stale a copy, exactly the first to reach
    the compare-and-set wins, its decision is the one stored, and every other
    is told so. *)
Theorem decide_request_once first others r id cur :
  get_request id r = Some cur → gq_status cur = "pending" →
  Forall (λ q, gq_request_id q = id ∧ gq_status q ≠ "pending") (first :: others) →
  let '(answers, r') := decide_all (first :: others) r in
  answers = true :: map (λ _, false) others ∧ get_request id r' = Some first ∧
  ∀ id', id' ≠ id → get_request id' r' = get_request id' r.
Proof.
  intros Hcur Hst Hall. apply Forall_cons in Hall as [[Hid Hdec] Hothers]. cbn [decide_all].
  rewrite decide_request_run, Hid, Hcur, Hst, eqb_refl.
  rewrite (decide_all_lost others _ id first); [|unfold get_request; simpl|done|].
  - split_and!; [done|unfold get_request; simpl; apply dget_dset_eq|].
    intros id' Hne. unfold get_request. simpl. by rewrite dget_dset_ne.
  - apply dget_dset_eq.
  - eapply Forall_impl; [exact Hothers|]. by intros q [? _].
Qed.

Section facts.
Context {G A : Type} `{HG : GrantLifecycleOk G} `{HA : AuditWriterOk A}.
Implicit Types (w : World G A).

Definition request_of w (id : string) : option GrantRequest := get_request id (w_requests w).

Lemma lookup_grant_request_Some id ws w q :
  lookup_grant_request id ws w = Some q ↔ request_of w id = Some q ∧ gq_workspace_id q = ws.
Proof.
  unfold lookup_grant_request, request_of. destruct (get_request id (w_requests w)) as [x|]; [|naive_solver].
  destruct (String.eqb_spec (gq_workspace_id x) ws); naive_solver.
Qed.

(** A decision that is not taken leaves everything to the caller of the store:
    the grants and the requests are what they were. *)
Definition not_decided w w' (res : GrantRequestDecisionResult) : Prop :=
  gdr_status res = "failed" ∧ gdr_grant res = None ∧ wf w' ∧ grants w' = grants w ∧
  w_requests w' = w_requests w.

(** An approval: the request was pending and is now approved, naming the grant
    that was issued for it inside the target's bounds; two events were written. *)
Record approved_ok (id ws by_ : string) (reason : option string) (now : Z)
    (event_type : string) w w' (res : GrantRequestDecisionResult) (q : GrantRequest) (g : Grant)
    (b : AgentIssuableBounds) : Prop := {
  ao_pending : request_of w id = Some q ∧ gq_status q = "pending" ∧ gq_workspace_id q = ws;
  ao_result : gdr_status res = "approved" ∧ gdr_grant res = Some g;
  ao_stored : request_of w' id =
    Some (gq_decide q "approved" now by_ reason (Some (g_grant_ref g)));
  ao_others : ∀ id', id' ≠ id → request_of w' id' = request_of w id';
  ao_fresh : grants w !! g_grant_ref g = None;
  ao_grants : wf w' ∧ grants w' = <[g_grant_ref g := g]> (grants w);
  ao_grant : g_workspace_id g = ws ∧ g_agent_id g = gq_target_agent_id q ∧
    g_scopes g = gq_requested_scopes q ∧ g_status g = "active" ∧
    g_expires_at g = Some (now + seconds (gq_requested_ttl_seconds q));
  ao_bounds : dget (ws, gq_target_agent_id q) (w_bounds w) = Some b;
  ao_within : ∀ s, s ∈ g_scopes g → is_valid_grant_scope s = true ∧
    ∃ bound, bound ∈ ab_scopes b ∧ is_valid_grant_scope bound = true ∧
      scope_subsumes bound s = true;
  ao_log : ∃ e1 e2, log w' = log w ++ [e1; e2] ∧ e_event_type e1 = "grant_issued" ∧
    e_event_type e2 = event_type ∧ e_grant_ref e2 = g_grant_ref g ∧ e_workspace_id e2 = ws
}.

Lemma on_requests_run {X} (m : M InMemoryGrantRequestRepository X) w r t :
  m (w_requests w) = (r, t) → on_requests m w = (r, set_requests t w).
Proof. apply zoom_run. Qed.

Lemma approve_outcome id ws by_ reason now et ar aa w res w' :
  wf w → requests_wf (w_requests w) →
  approve_grant_request id ws by_ reason now et ar aa w = (Ok res, w') →
  not_decided w w' res ∨ ∃ q g b, approved_ok id ws by_ reason now et w w' res q g b.
Proof.
  intros Hw [Hrwf Hkey]. unfold approve_grant_request.
  rewrite (bind_run _ _ w (lookup_grant_request id ws w) w) by done.
  destruct (lookup_grant_request id ws w) as [q|] eqn:Eq; [|intros [= <- <-]; by left].
  apply lookup_grant_request_Some in Eq as [Hq Hws].
  destruct (String.eqb_spec (gq_status q) "pending") as [Hst|]; cbn [negb];
    [|intros [= <- <-]; by left].
  rewrite (bind_run _ _ _ _ _ (_new_id_run "grt" w)). cbv zeta.
  set (ref := "grt" ^+ "_" ^+ next_id w 16).
  set (upd := gq_decide q "approved" now by_ reason (Some ref)).
  destruct (Hkey _ _ Hq) as [Hid Httl].
  assert (Hdec : decide_request upd (w_requests (drew w)) =
    (Ok true, mkRequests (dset id upd (_requests_by_id (w_requests w))))).
  { rewrite decide_request_run. simpl. rewrite Hid. fold (request_of w id).
    unfold request_of in Hq |- *. rewrite Hq, Hst. by rewrite eqb_refl. }
  rewrite (bind_run _ _ _ _ _ (on_requests_run _ _ _ _ Hdec)). cbn [negb].
  set (w1 := set_requests _ (drew w)).
  match goal with |- context [issue_grant ?r now] => set (ir := r) end.
  destruct (issue_grant ir now w1) as [[issued|e] w2] eqn:Ei;
    [|unfold mbind, M_bind; rewrite Ei; done].
  rewrite (bind_run _ _ _ _ _ Ei). assert (Hw1 : wf w1) by exact Hw.
  destruct (issue_grant_outcome _ _ _ _ _ Hw1 Ei) as [(Hs & g & b & Hg & Hok)|Hrefused].
  - rewrite Hg, Hs. change (("issued" == "rejected")) with false. cbv iota.
    rewrite (bind_run _ _ _ _ _ (_new_id_run "evt" w2)).
    match goal with |- context [aw_write ?e] =>
      destruct (write_audit_run e (drew w2)) as (r & a & Hwr & Hlog) end.
    unfold mbind, M_bind. rewrite Hwr. destruct r as [u|e]; [|done]. intros [= <- <-].
    right. exists q, g, b. destruct Hok as [Hf Hv [Hwf2 Hrest] Hwho Href Hb [_ Hin] Hexp _ Hl].
    assert (Hgr : g_grant_ref g = ref) by (apply (Href ref eq_refl); done).
    destruct Hl as (e1 & Hl & Ht1 & _). simpl in Hwho, Hb.
    assert (Hreq : w_requests w2 = w_requests w1) by apply Hrest.
    constructor; try done; simpl.
    + unfold request_of. simpl. rewrite Hreq. unfold get_request. simpl.
      rewrite dget_dset_eq. unfold upd. by rewrite Hgr.
    + intros id' Hne. unfold request_of. simpl. rewrite Hreq. unfold get_request. simpl.
      by rewrite dget_dset_ne.
    + rewrite <-Hws, Hexp. destruct Hwho as (?&?&?&?). split_and!; try done.
      unfold applied_ttl. simpl. by rewrite (proj2 (Z.ltb_lt _ _) Httl).
    + by rewrite <-Hws.
    + exists e1. eexists. change (log w1) with (log w) in Hl. unfold log at 1. simpl.
      change (log (drew w2)) with (log w2) in Hlog. rewrite Hlog, Hl, <-app_assoc.
      split_and!; try done.
  - destruct Hrefused as (Hs & Hn & Hwf2 & Hv & Hrest & _). rewrite Hn.
    assert (Hreq : w_requests w2 = w_requests w1) by apply Hrest.
    assert (Hup : update_request q (w_requests w2) = (Ok tt, w_requests w)).
    { unfold update_request. rewrite Hreq. simpl. rewrite Hid. unfold din.
      rewrite bool_decide_true by (rewrite dget_dset_eq; done). cbn [negb]. f_equal.
      rewrite dset_dset, dset_same by exact Hq. by destruct (w_requests w). }
    rewrite (bind_run _ _ _ _ _ (on_requests_run _ _ _ _ Hup)). intros [= <- <-].
    left. by split_and!.
Qed.

(** A request that is no longer pending. *)
Definition decided w (id : string) : Prop :=
  ∃ q, request_of w id = Some q ∧ gq_status q ≠ "pending".

Lemma decided_refused id ws by_ reason now et ar aa w :
  decided w id → ∃ res, gdr_status res = "failed" ∧ gdr_grant res = None ∧
    approve_grant_request id ws by_ reason now et ar aa w = (Ok res, w) ∧
    reject_grant_request id ws by_ reason now w = (Ok res, w).
Proof.
  intros (q & Hq & Hst). unfold approve_grant_request, reject_grant_request.
  rewrite !(bind_run _ _ w (lookup_grant_request id ws w) w) by done.
  unfold lookup_grant_request. unfold request_of in Hq. rewrite Hq.
  destruct (gq_workspace_id q == ws); cbn [negb].
  - rewrite (proj2 (String.eqb_neq _ _) Hst). cbn [negb].
    exists (decision_failed "grant_request_not_pending"). by split_and!.
  - exists (decision_failed "grant_request_not_found"). by split_and!.
Qed.

(** C29: An approval is sound and final: the request was pending in the caller's
    workspace; a fresh, active grant for exactly its target agent and scopes,
    every one inside the target's issuable bounds, is stored and named by the
    now-approved request; no other request moved; one issuance and one decision
    event were written; and any further decision on the request, in the state
    reached, fails and changes nothing. *)
Theorem approve_request_sound id ws by_ reason now et ar aa w res w' :
  wf w → requests_wf (w_requests w) →
  approve_grant_request id ws by_ reason now et ar aa w = (Ok res, w') →
  gdr_status res = "approved" →
  (∃ q g b, approved_ok id ws by_ reason now et w w' res q g b) ∧
  ∀ ws' by' reason' now', ∃ res', gdr_status res' = "failed" ∧
    approve_grant_request id ws' by' reason' now' et ar aa w' = (Ok res', w') ∧
    reject_grant_request id ws' by' reason' now' w' = (Ok res', w').
Proof.
  intros Hw Hr E Hs. destruct (approve_outcome _ _ _ _ _ _ _ _ _ _ _ Hw Hr E)
    as [[Hf _]|(q & g & b & Hok)]; [congruence|].
  split; [by eauto|]. intros ws' by' reason' now'.
  destruct (decided_refused id ws' by' reason' now' et ar aa w') as (res' & Hs' & _ & Ha & Hj).
  { eexists. split; [apply Hok|]. done. }
  by exists res'.
Qed.

(** A refused approval releases its claim: when issuance refuses the grant,
    or the request is missing or already decided, the requests are exactly what
    they were (a pending request is still pending, not half-approved) and no
    grant exists that did not exist before. *)
Theorem approve_refusal_releases id ws by_ reason now et ar aa w res w' :
  wf w → requests_wf (w_requests w) →
  approve_grant_request id ws by_ reason now et ar aa w = (Ok res, w') →
  gdr_status res ≠ "approved" →
  not_decided w w' res.
Proof.
  intros Hw Hr E Hs. destruct (approve_outcome _ _ _ _ _ _ _ _ _ _ _ Hw Hr E)
    as [?|(q & g & b & Hok)]; [done|]. destruct Hok as [_ [Hst _] _ _ _ _ _ _ _ _]. congruence.
Qed.

(** Rejecting issues nothing. *)
Lemma reject_outcome id ws by_ reason now w res w' :
  wf w → requests_wf (w_requests w) →
  reject_grant_request id ws by_ reason now w = (Ok res, w') →
  gdr_grant res = None ∧ wf w' ∧ grants w' = grants w ∧
  ((gdr_status res = "failed" ∧ w' = w) ∨
   (gdr_status res = "rejected" ∧ decided w' id ∧
    (∃ q, request_of w id = Some q ∧ gq_status q = "pending" ∧ gq_workspace_id q = ws ∧
      request_of w' id = Some (gq_decide q "rejected" now by_ reason (gq_issued_grant_ref q))) ∧
    (∀ id', id' ≠ id → request_of w' id' = request_of w id') ∧
    ∃ e, log w' = log w ++ [e] ∧ e_event_type e = "grant_request_rejected")).
Proof.
  intros Hw [Hrwf Hkey]. unfold reject_grant_request.
  rewrite (bind_run _ _ w (lookup_grant_request id ws w) w) by done.
  destruct (lookup_grant_request id ws w) as [q|] eqn:Eq;
    [|intros [= <- <-]; split_and!; try done; by left].
  apply lookup_grant_request_Some in Eq as [Hq Hws].
  destruct (String.eqb_spec (gq_status q) "pending") as [Hst|]; cbn [negb];
    [|intros [= <- <-]; split_and!; try done; by left].
  cbv zeta. set (upd := gq_decide q _ _ _ _ _).
  destruct (Hkey _ _ Hq) as [Hid Httl].
  assert (Hdec : decide_request upd (w_requests w) =
    (Ok true, mkRequests (dset id upd (_requests_by_id (w_requests w))))).
  { rewrite decide_request_run. simpl. rewrite Hid. unfold request_of in Hq.
    rewrite Hq, Hst. by rewrite eqb_refl. }
  rewrite (bind_run _ _ _ _ _ (on_requests_run _ _ _ _ Hdec)). cbn [negb].
  rewrite (bind_run _ _ _ _ _ (_new_id_run "evt" _)). set (w1 := drew _).
  match goal with |- context [aw_write ?e] =>
    destruct (write_audit_run e w1) as (r & a & Hwr & Hlog) end.
  unfold mbind, M_bind. rewrite Hwr. destruct r as [u|e]; [|done]. intros [= <- <-].
  assert (Hreq : request_of (set_audit a w1) id = Some upd).
  { unfold request_of, get_request. simpl. apply dget_dset_eq. }
  split_and!; try done. right. split_and!; [done| | | |].
  - by exists upd.
  - by exists q.
  - intros id' Hne. unfold request_of, get_request. simpl. by rewrite dget_dset_ne.
  - eexists. split; [exact Hlog|done].
Qed.

Lemma insert_request_run q w :
  try_except (_ ← on_requests (insert_request q); mret true)
    (λ e, match e with ValueError _ => mret false | _ => raise e end) w =
  if din (gq_request_id q) (_requests_by_id (w_requests w)) then (Ok false, w)
  else (Ok true,
    set_requests (mkRequests (dset (gq_request_id q) q (_requests_by_id (w_requests w)))) w).
Proof.
  unfold try_except, mbind, M_bind, on_requests, zoom, insert_request.
  destruct (din _ _); [|done]. by destruct w.
Qed.

(** Creating a request stores exactly one new, valid, pending request and
    one event, or nothing: a refused creation leaves every request and the log
    as they were, an accepted one keeps the stored requests well-formed, and
    neither touches a grant; an invalid or duplicate creation is never accepted. *)
Theorem create_grant_request_spec request now w res w' :
  wf w → requests_wf (w_requests w) →
  create_grant_request request now w = (Ok res, w') →
  wf w' ∧ requests_wf (w_requests w') ∧ grants w' = grants w ∧
  match gcr_request res with
  | None => gcr_status res = "rejected" ∧ w_requests w' = w_requests w ∧ log w' = log w
  | Some q => gcr_status res = "created" ∧
      q = new_grant_request request (gq_request_id q)
            (str_or_else (gc_target_agent_id request) (gc_requester_agent_id request)) now ∧
      (∀ id, gc_request_id request = Some id → id ≠ "" → gq_request_id q = id) ∧
      _validate_create_request request = None ∧
      gc_requested_scopes request ≠ [] ∧
      (∀ s, s ∈ gc_requested_scopes request → is_valid_grant_scope s = true) ∧
      request_of w (gq_request_id q) = None ∧ request_of w' (gq_request_id q) = Some q ∧
      (∀ id, id ≠ gq_request_id q → request_of w' id = request_of w id) ∧
      ∃ e, log w' = log w ++ [e] ∧ e_event_type e = "grant_requested" ∧
        gcr_audit_event_id res = Some (e_event_id e)
  end.
Proof.
  intros Hw Hr. unfold create_grant_request.
  destruct (_validate_create_request request) as [reason|] eqn:Ev; [by intros [= <- <-]|].
  destruct (given_or_new_frame (gc_request_id request) "grq" w)
    as (id & w1 & E1 & Hw1 & Hg1 & Hl1 & Hr1 & Hid).
  rewrite (bind_run _ _ _ _ _ E1). cbv zeta. set (q := new_grant_request _ _ _ _).
  assert (Hreq : w_requests w1 = w_requests w) by apply Hr1.
  pose proof (insert_request_run q w1) as Hins. rewrite Hreq in Hins.
  destruct (din _ _) eqn:Ed; rewrite (bind_run _ _ _ _ _ Hins); cbn [negb].
  - intros [= <- <-]. split_and!; [by apply Hw1|by rewrite Hreq|done|]. by split_and!.
  - set (w2 := set_requests _ w1). rewrite (bind_run _ _ _ _ _ (_new_id_run "evt" w2)).
    match goal with |- context [aw_write ?e] =>
      destruct (write_audit_run e (drew w2)) as (r & a & Hwr & Hlog) end.
    unfold mbind, M_bind. rewrite Hwr. destruct r as [u|e]; [|done]. intros [= <- <-].
    assert (Hval : 0 < gc_requested_ttl_seconds request ∧ gc_requested_scopes request ≠ [] ∧
      ∀ s, s ∈ gc_requested_scopes request → is_valid_grant_scope s = true).
    { revert Ev. unfold _validate_create_request.
      repeat case_match; try done; intros _; bool_prop; repeat case_bool_decide; try done;
        (split_and!; [lia|done|by apply invalid_none_valid]). }
    destruct Hval as (Httl & Hne & Hval).
    split_and!; [by apply Hw1|by apply (requests_set_wf _ q)|done|]. simpl.
    split_and!; try done.
    + by apply din_false in Ed.
    + unfold request_of, get_request. simpl. apply dget_dset_eq.
    + intros id' Hne'. unfold request_of, get_request. simpl. by rewrite dget_dset_ne.
    + eexists. rewrite <-Hl1. split; [exact Hlog|by split].
Qed.
End facts.

(** ** Witnesses *)

Definition sample_grant_request (scope : string) : GrantRequest :=
  new_grant_request
    (mkGrantRequestCreateRequest "ws" "agent" [scope] 600 "docs" None None None None None None None
       None) "grq_1" "agent" 1.
Definition asking_world (scope : string) : World InMemoryGrantRepository InMemoryAuditWriter :=
  set_requests (mkRequests [("grq_1", sample_grant_request scope)]) bounded_world.
Lemma asking_world_wf scope :
  wf (asking_world scope) ∧ requests_wf (w_requests (asking_world scope)).
Proof.
  split; [exact (own_world_wf [])|]. split; [apply NoDup_singleton|].
  intros id q. unfold get_request. simpl. case_decide as Hd; [|done].
  intros [= <-]. by split.
Qed.

Definition alice_approves : GrantRequest :=
  gq_decide (sample_grant_request "read:a/b") "approved" 2 "alice" None (Some "grt_9").
Definition bob_rejects : GrantRequest :=
  gq_decide (sample_grant_request "read:a/b") "rejected" 2 "bob" None None.
Lemma decide_request_once_witness :
  let '(answers, r') := decide_all [alice_approves; bob_rejects] (w_requests (asking_world "read:a/b")) in
  answers = [true; false] ∧ get_request "grq_1" r' = Some alice_approves ∧
  ∀ id', id' ≠ "grq_1" →
    get_request id' r' = get_request id' (w_requests (asking_world "read:a/b")).
Proof.
  apply (decide_request_once alice_approves [bob_rejects]
    (w_requests (asking_world "read:a/b")) "grq_1" (sample_grant_request "read:a/b"));
    [reflexivity|reflexivity|]. repeat constructor; discriminate.
Defined.

Definition sample_approval (scope : string) :=
  approve_grant_request "grq_1" "ws" "op" None 5 "grant_request_approved"
    "grant_request_approved" "approve_grant_request" (asking_world scope).
Definition result_or {X} (d : X) (r : result X) : X := match r with Ok x => x | Raise _ => d end.
Definition sample_decision (scope : string) : GrantRequestDecisionResult :=
  result_or (decision_failed "") (sample_approval scope).1.

Lemma approve_request_sound_witness :
  gdr_status (sample_decision "read:repo/docs/b") = "approved" ∧
  ∃ q g b, approved_ok "grq_1" "ws" "op" None 5 "grant_request_approved"
    (asking_world "read:repo/docs/b") (sample_approval "read:repo/docs/b").2
    (sample_decision "read:repo/docs/b") q g b.
Proof.
  split; [vm_compute; reflexivity|].
  apply (approve_request_sound "grq_1" "ws" "op" None 5 "grant_request_approved"
    "grant_request_approved" "approve_grant_request" (asking_world "read:repo/docs/b")
    (sample_decision "read:repo/docs/b") (sample_approval "read:repo/docs/b").2);
    [apply asking_world_wf|apply asking_world_wf|vm_compute; reflexivity|vm_compute; reflexivity].
Defined.
Lemma approve_refusal_releases_witness :
  gdr_reason (sample_decision "write:repo/docs/b") = "scope_outside_issuable_bounds" ∧
  not_decided (asking_world "write:repo/docs/b") (sample_approval "write:repo/docs/b").2
    (sample_decision "write:repo/docs/b").
Proof.
  split; [vm_compute; reflexivity|].
  apply (approve_refusal_releases "grq_1" "ws" "op" None 5 "grant_request_approved"
    "grant_request_approved" "approve_grant_request" (asking_world "write:repo/docs/b"));
    [apply asking_world_wf|apply asking_world_wf|vm_compute; reflexivity|vm_compute; discriminate].
Defined.

Definition sample_create : GrantRequestCreateRequest :=
  mkGrantRequestCreateRequest "ws" "agent" ["read:repo/docs/b"] 600 "docs" None None None None None
    None None None.
Definition sample_creation := create_grant_request sample_create 1 bounded_world.
Definition sample_created : GrantRequestCreateResult :=
  mkGrantRequestCreateResult "created" "grant_requested"
    (Some (new_grant_request sample_create "grq_n0" "agent" 1)) (Some "evt_n1").
Lemma create_grant_request_spec_witness :
  requests_wf (w_requests sample_creation.2) ∧ grants sample_creation.2 = grants bounded_world.
Proof.
  destruct (create_grant_request_spec sample_create 1 bounded_world sample_created
    sample_creation.2) as (_ & Hr & Hg & _).
  - exact bounded_world_wf.
  - split; [apply NoDup_nil_2|done].
  - vm_compute. reflexivity.
  - by split.
Defined.
