(* ===== verification/SubjectTokens.v ===== *)
(** * Subject tokens ([src/vinctor_service/subject_tokens.py])

    An agent mints, for one of its own live grants, a short-lived token that a
    named enforcement point accepts as proof of the agent's identity.  Only the
    hash of the token is kept. *)
From S2P Require Import Prelude PyStr PyDict PyTime Scope Models Registry Enforce CoreAudit.
From S2P Require Import Sha256 Pop ServiceModels Repositories AuditWriter World V1Enforce Grants.

Record SubjectTokenMintResult := mkSubjectTokenMintResult {
  mt_status : string;
  mt_token : option string;
  mt_token_id : option string;
  mt_expires_at : option Z;
  mt_pop_secret : option string
}.
Definition mint_forbidden : SubjectTokenMintResult :=
  mkSubjectTokenMintResult "forbidden" None None None None.

Definition _grant_is_valid (grant : Grant) (now : Z) : bool :=
  if (g_status grant == "revoked") || (g_status grant == "expired")
     || negb (g_status grant == "active")
  then false
  else negb match g_expires_at grant with Some e => e <=? now | None => false end.

Definition _subject_token_minted_event (token : SubjectToken) (now : Z) (event_id : string) :
    AuditEvent :=
  {| e_event_id := event_id; e_event_type := EVENT_SUBJECT_TOKEN_MINTED; e_decision := permit;
     e_reason := EVENT_SUBJECT_TOKEN_MINTED; e_workspace_id := st_workspace_id token;
     e_agent_id := st_agent_id token; e_grant_id := ""; e_grant_ref := st_grant_ref token;
     e_action := ""; e_resource := ""; e_scope_attempted := ""; e_scope_matched := None;
     e_boundary_id := None; e_runtime := None; e_boundary_type := None; e_created_at := now;
     e_enforcing_principal := None; e_reason_code := None; e_occurrence_count := None;
     e_first_seen_at := None; e_last_seen_at := None; e_subject_token_verified := false;
     e_token_id := Some (st_token_id token); e_event_class := "decision" |}.

(** What a caller asks for. *)
Record MintRequest := mkMintRequest {
  mi_workspace_id : string;
  mi_agent_id : string;
  mi_grant_ref : string;
  mi_audience : string;
  mi_ttl_seconds : Z;
  mi_bound_action : option string;
  mi_bound_resource : option string;
  mi_pop : bool
}.

Definition mint_rejection_event (request : MintRequest) (now : Z) (event_id : string) : AuditEvent :=
  build_rejection_audit_event
    {| rj_reason_code := REASON_AGENT_GRANT_MISMATCH; rj_workspace_id := mi_workspace_id request;
       rj_agent_id := mi_agent_id request; rj_created_at := now;
       rj_event_type := EVENT_ACCESS_REJECTED; rj_action := "mint_subject_token";
       rj_resource := "audience/" ^+ mi_audience request;
       rj_scope_attempted := Some match mi_bound_action request with
         | Some a => a ^+ ":" ^+ default "None" (mi_bound_resource request)
         | None => "" end;
       rj_boundary_id := None; rj_enforcing_principal := None; rj_event_id := None;
       rj_occurrence_count := None; rj_first_seen_at := None; rj_last_seen_at := None |} event_id.

(** The grant is the caller's and still in force. *)
Definition mintable (request : MintRequest) (grant : option Grant) (now : Z) : option Grant :=
  match grant with
  | None => None
  | Some g =>
      if negb (g_agent_id g == mi_agent_id request)
         || negb (g_workspace_id g == mi_workspace_id request)
         || negb (_grant_is_valid g now)
      then None else Some g
  end.

(** [min(now + ttl, grant.expires_at)] *)
Definition token_expiry (grant : Grant) (requested : Z) : Z :=
  match g_expires_at grant with
  | Some e => if e <? requested then e else requested
  | None => requested
  end.

Section mint.
Context {G A : Type} `{GrantLifecycle G} `{AuditWriter A}.

(** [nullcontext()], and a transaction: an exception undoes what was written
    (the names drawn stay drawn). *)
Definition nullcontext (m : M (World G A) unit) : M (World G A) unit := m.
Definition transaction (m : M (World G A) unit) : M (World G A) unit := λ w,
  match m w with
  | (Ok x, w') => (Ok x, w')
  | (Raise e, w') => (Raise e, set_entropy (w_entropy w') w)
  end.

Definition mint_subject_token (request : MintRequest) (now : Z)
    (atomic : M (World G A) unit → M (World G A) unit) :
    M (World G A) SubjectTokenMintResult :=
  if negb (Bool.eqb (bool_decide (mi_bound_action request = None))
                    (bool_decide (mi_bound_resource request = None)))
  then raise (ValueError "bound_action and bound_resource must be set together")
  else
    grant ← on_grants (gr_get_by_ref (mi_grant_ref request));
    match mintable request grant now with
    | None =>
        event_id ← new_event_id;
        _ ← on_audit (record_rejection (mint_rejection_event request now event_id));
        mret mint_forbidden
    | Some grant =>
        requested ← lift (datetime_add now (mi_ttl_seconds request));
        let expires_at := token_expiry grant requested in
        raw_token ← _new_key "vat_";
        token_id ← _new_key "vtk_";
        pop_secret ← (if mi_pop request
                      then secret ← on_entropy (token_urlsafe 32); mret (Some secret)
                      else mret None);
        let token := mkSubjectToken token_id (_hash_key raw_token) (mi_workspace_id request)
          (mi_agent_id request) (mi_grant_ref request) (mi_audience request) now expires_at
          (mi_agent_id request) None (mi_bound_action request) (mi_bound_resource request)
          pop_secret in
        _ ← atomic (_ ← on_tokens (tokens_insert token);
                    event_id ← _new_id "evt";
                    on_audit (aw_write (_subject_token_minted_event token now event_id)));
        mret (mkSubjectTokenMintResult "minted" (Some raw_token) (Some token_id)
                (Some expires_at) pop_secret)
    end.
End mint.

(** ** Specification *)
Section facts.
Context {G A : Type} `{HG : GrantLifecycleOk G} `{HA : AuditWriterOk A}.
Implicit Types (w : World G A).

(** What a transaction scope may do: run its body, or fail and undo it. *)
Definition scoped (atomic : M (World G A) unit → M (World G A) unit) : Prop :=
  ∀ m w, atomic m w = m w ∨ ∃ e s, atomic m w = (Raise e, set_entropy s w).
Lemma nullcontext_scoped : scoped nullcontext.
Proof. intros m w. by left. Qed.
Lemma transaction_scoped : scoped transaction.
Proof. intros m w. unfold transaction. destruct (m w) as [[x|e] w']; [by left|right; eauto]. Qed.

(** The grant is the requester's and in force. *)
Definition in_force (request : MintRequest) (g : Grant) (now : Z) : Prop :=
  g_agent_id g = mi_agent_id request ∧ g_workspace_id g = mi_workspace_id request ∧
  g_status g = "active" ∧ ∀ e, g_expires_at g = Some e → now < e.

Lemma mintable_Some request grant now g :
  mintable request grant now = Some g ↔ grant = Some g ∧ in_force request g now.
Proof.
  unfold mintable, in_force, _grant_is_valid. destruct grant as [x|]; [|naive_solver].
  destruct (String.eqb_spec (g_agent_id x) (mi_agent_id request)) as [Ha|]; [|naive_solver].
  destruct (String.eqb_spec (g_workspace_id x) (mi_workspace_id request)) as [Hw|]; [|naive_solver].
  destruct (String.eqb_spec (g_status x) "active") as [Ea|Ea]; cbn [negb orb].
  - rewrite Ea. change ("active" == "revoked") with false. change ("active" == "expired") with false.
    cbn [negb orb]. destruct (g_expires_at x) as [e|] eqn:Ee.
    + destruct (Z.leb_spec e now); cbn [negb]; split; try done.
      * intros [[= <-] (_&_&_&Hx)]. specialize (Hx e Ee). lia.
      * intros [= <-]. split_and!; [done..|]. intros e' He. assert (e' = e) as -> by congruence. lia.
      * by intros [[= <-] _].
    + cbn [negb]. naive_solver congruence.
  - rewrite orb_true_r. naive_solver.
Qed.

(** A minted token: new, stored under the hash of the string handed out, for
    the requester's grant that is in force, never outliving it. *)
Record minted_ok (request : MintRequest) (now : Z) w w' (res : SubjectTokenMintResult)
    (g : Grant) (raw : string) (t : SubjectToken) : Prop := {
  mo_grant : grants w !! mi_grant_ref request = Some g ∧ in_force request g now;
  mo_result : res = mkSubjectTokenMintResult "minted" (Some raw) (Some (st_token_id t))
                      (Some (st_expires_at t)) (st_pop_secret t);
  mo_fresh : tokens_get_by_hash (_hash_key raw) (w_tokens w) = None;
  mo_stored : w_tokens w' = mkTokens (dset (_hash_key raw) t (_tokens_by_hash (w_tokens w)));
  mo_token : st_workspace_id t = mi_workspace_id request ∧ st_agent_id t = mi_agent_id request ∧
    st_grant_ref t = mi_grant_ref request ∧ st_audience t = mi_audience request ∧
    st_issued_at t = now ∧ st_revoked_at t = None ∧ st_token_hash t = _hash_key raw;
  mo_binding : st_bound_action t = mi_bound_action request ∧
    st_bound_resource t = mi_bound_resource request ∧
    (is_Some (st_bound_action t) ↔ is_Some (st_bound_resource t)) ∧
    (is_Some (st_pop_secret t) ↔ mi_pop request = true);
  mo_expiry : st_expires_at t ≤ now + seconds (mi_ttl_seconds request) ∧
    ∀ e, g_expires_at g = Some e → st_expires_at t ≤ e;
  mo_grants : wf w' ∧ grants w' = grants w;
  mo_log : ∃ e, log w' = log w ++ [e] ∧ e_event_type e = EVENT_SUBJECT_TOKEN_MINTED ∧
    e_token_id e = Some (st_token_id t) ∧ e_agent_id e = mi_agent_id request
}.

Lemma token_expiry_le g t :
  token_expiry g t ≤ t ∧ ∀ e, g_expires_at g = Some e → token_expiry g t ≤ e.
Proof.
  unfold token_expiry. destruct (g_expires_at g) as [x|]; [|naive_solver lia].
  destruct (Z.ltb_spec x t); (split; [lia|]); intros e [= <-]; lia.
Qed.

(** Drawing the secret changes only the source of names. *)
Lemma draw_secret_run (pop : bool) w :
  ∃ secret s, (if pop then secret ← on_entropy (token_urlsafe 32); mret (Some secret)
               else mret None) w = (Ok secret, set_entropy s w) ∧ (is_Some secret ↔ pop = true).
Proof.
  destruct pop.
  - eexists (Some _), _. split; [reflexivity|]. naive_solver.
  - exists None, (w_entropy w). split; [by destruct w|]. split; [by intros []|done].
Qed.

(** Storing the token and its audit row. *)
Lemma store_token_run (t : SubjectToken) now w :
  ∃ r w', (_ ← on_tokens (tokens_insert t); event_id ← _new_id "evt";
           on_audit (aw_write (_subject_token_minted_event t now event_id))) w = (r, w') ∧
    w_grants w' = w_grants w ∧
    match r with
    | Ok _ => tokens_get_by_hash (st_token_hash t) (w_tokens w) = None ∧
        w_tokens w' = mkTokens (dset (st_token_hash t) t (_tokens_by_hash (w_tokens w))) ∧
        ∃ id, log w' = log w ++ [_subject_token_minted_event t now id]
    | Raise _ => True
    end.
Proof.
  unfold on_tokens. destruct (din (st_token_hash t) (_tokens_by_hash (w_tokens w))) eqn:Ed.
  - eexists (Raise _), w. split; [|done].
    unfold mbind, M_bind, zoom at 1, tokens_insert. rewrite Ed. by destruct w.
  - set (w1 := set_tokens (mkTokens (dset (st_token_hash t) t (_tokens_by_hash (w_tokens w)))) w).
    assert (Hrun : zoom w_tokens set_tokens (tokens_insert t) w = (Ok tt, w1)).
    { unfold zoom, tokens_insert. by rewrite Ed. }
    rewrite (bind_run _ _ _ _ _ Hrun), (bind_run _ _ _ _ _ (_new_id_run "evt" w1)).
    match goal with |- context [aw_write ?e] =>
      destruct (write_audit_run e (drew w1)) as (r & a & Hwr & Hlog) end.
    eexists r, _. split; [exact Hwr|]. split; [done|]. destruct r as [u|e]; [|done].
    split; [by apply din_false|]. split; [done|]. eexists. exact Hlog.
Qed.

Lemma mint_outcome request now atomic w res w' :
  wf w → scoped atomic → mint_subject_token request now atomic w = (Ok res, w') →
  (∃ g raw t, minted_ok request now w w' res g raw t) ∨
  (res = mint_forbidden ∧ wf w' ∧ grants w' = grants w ∧ w_tokens w' = w_tokens w ∧
   ∀ g, grants w !! mi_grant_ref request = Some g → ¬ in_force request g now).
Proof.
  intros Hw Hat. unfold mint_subject_token.
  destruct (Bool.eqb _ _) eqn:Eb; cbn [negb]; [|done]. apply Bool.eqb_prop in Eb.
  unfold mbind at 1, M_bind at 1, on_grants, zoom.
  destruct (gr_get_by_ref (mi_grant_ref request) (w_grants w)) as [[og|e] g'] eqn:Eg; [|done].
  destruct (gr_get_ok _ _ _ _ Hw Eg) as (Hwf & Hview & Ho). specialize (Ho og eq_refl).
  destruct (mintable request og now) as [g|] eqn:Em.
  - apply mintable_Some in Em as [Hg Hin]. rewrite Ho in Hg. clear Ho.
    unfold datetime_add.
    destruct ((now + seconds (mi_ttl_seconds request) <=? DATETIME_MAX) && _); [|done].
    set (exp := now + seconds (mi_ttl_seconds request)).
    set (w1 := set_grants g' w). rewrite (bind_run _ _ w1 exp w1) by done.
    rewrite (bind_run _ _ _ _ _ (_new_key_run "vat_" w1)).
    rewrite (bind_run _ _ _ _ _ (_new_key_run "vtk_" (drew w1))).
    destruct (draw_secret_run (mi_pop request) (drew (drew w1))) as (secret & s & Hsec & Hpop).
    rewrite (bind_run _ _ _ _ _ Hsec). clear Hsec.
    set (raw := "vat_" ^+ _). set (t := mkSubjectToken _ _ _ _ _ _ _ _ _ _ _ _ _).
    set (w2 := set_entropy s (drew (drew w1))).
    destruct (store_token_run t now w2) as (r & w3 & Hrun & Hg3 & Hpost).
    unfold mbind at 1, M_bind at 1.
    match goal with |- context [atomic ?m w2] => destruct (Hat m w2) as [->|(e & s' & ->)] end;
      [|done].
    rewrite Hrun. destruct r as [u|e]; [|done]. intros [= <- <-].
    destruct Hpost as (Hfresh & Hstored & id & Hlog). left. exists g, raw, t.
    constructor; try done.
    + split_and!; [done|done| |done]. split; [intros [a Ha]|intros [a Ha]]; simpl in Ha |- *.
      * rewrite Ha, bool_decide_false in Eb by done.
        apply eq_sym, bool_decide_eq_false in Eb. by apply not_eq_None_Some.
      * rewrite Ha, (bool_decide_false (Some a = None)) in Eb by done.
        apply bool_decide_eq_false in Eb. by apply not_eq_None_Some.
    + apply token_expiry_le.
    + unfold wf, grants. by rewrite Hg3.
    + eexists. split; [exact Hlog|done].
  - rewrite (bind_run _ _ _ _ _ (new_event_id_run _)).
    match goal with |- context [record_rejection ?e] =>
      destruct (record_rejection_run e (w_audit (drew (set_grants g' w)))) as (b & a & Hr & _) end.
    rewrite (bind_run _ _ _ _ _ (zoom_run w_audit set_audit _ _ _ _ Hr)).
    intros [= <- <-]. right. split_and!; try done. intros g Hg Hin.
    assert (mintable request og now = Some g) by (apply mintable_Some; by rewrite Ho).
    congruence.
Qed.

(** A minted token is bounded by its grant: it is minted only for a grant of
    the requester that is in force, it is new, filed under the hash of the
    string handed out with exactly the requested audience and binding (both
    halves or none), it expires no later than asked and no later than the grant,
    and one event naming it was written; the grants and the other tokens are
    untouched. *)
Theorem mint_bounded_by_grant request now atomic w res w' :
  wf w → scoped atomic → mint_subject_token request now atomic w = (Ok res, w') →
  mt_status res = "minted" →
  ∃ g raw t, minted_ok request now w w' res g raw t ∧
    ∀ h, h ≠ _hash_key raw →
      tokens_get_by_hash h (w_tokens w') = tokens_get_by_hash h (w_tokens w).
Proof.
  intros Hw Hat E Hs. destruct (mint_outcome _ _ _ _ _ _ Hw Hat E)
    as [(g & raw & t & Hok)|(-> & _)]; [|discriminate Hs].
  exists g, raw, t. split; [done|]. intros h Hh. destruct Hok as [_ _ _ Hst _ _ _ _ _].
  rewrite Hst. unfold tokens_get_by_hash. simpl. by rewrite dget_dset_ne.
Qed.

(** A mint that is refused: what it does depends on the request alone. *)
Lemma mint_foreign_run request now atomic w :
  wf w → (∀ g, grants w !! mi_grant_ref request = Some g → ¬ in_force request g now) →
  (mi_bound_action request = None ↔ mi_bound_resource request = None) →
  (∃ e w', mint_subject_token request now atomic w = (Raise e, w') ∧ w_audit w' = w_audit w) ∨
  ∃ g' r a, mint_subject_token request now atomic w =
      (Ok mint_forbidden, set_audit a (drew (set_grants g' w))) ∧
    record_rejection (mint_rejection_event request now ("evt_" ^+ next_id w 12)) (w_audit w)
      = (Ok r, a).
Proof.
  intros Hw Hno Hb. destruct (mint_subject_token request now atomic w) as [r w'] eqn:E.
  revert E. unfold mint_subject_token.
  rewrite (bool_decide_ext _ _ Hb), Bool.eqb_reflx. cbn [negb].
  unfold mbind at 1, M_bind at 1, on_grants, zoom.
  destruct (gr_get_by_ref (mi_grant_ref request) (w_grants w)) as [[og|e] g'] eqn:Eg;
    [|intros [= <- <-]; left; by eexists _, _].
  destruct (gr_get_ok _ _ _ _ Hw Eg) as (_ & _ & Ho). specialize (Ho og eq_refl).
  destruct (mintable request og now) as [g|] eqn:Em.
  { apply mintable_Some in Em as [Hg Hin]. rewrite Ho in Hg. by destruct (Hno g). }
  rewrite (bind_run _ _ _ _ _ (new_event_id_run _)).
  match goal with |- context [record_rejection ?e] =>
    destruct (record_rejection_run e (w_audit w)) as (b & a & Hr & _) end.
  rewrite (bind_run _ _ _ _ _ (zoom_run w_audit set_audit _ (drew (set_grants g' w)) _ _ Hr)).
  intros [= <- <-]. right. exists g', b, a. by split.
Qed.

(** No grant oracle in minting: an unknown grant, somebody else's and one
    that is revoked or expired are refused alike. From two services with the
    same audit store and name source, neither of which holds a grant in force of
    the requester under the reference, the answer is the same "forbidden", and
    so is everything written, whether or not the store takes it. *)
Theorem mint_no_grant_oracle request now atomic1 atomic2 w1 w2 res1 res2 w1' w2' :
  wf w1 → wf w2 → w_audit w1 = w_audit w2 → w_entropy w1 = w_entropy w2 →
  (∀ g, grants w1 !! mi_grant_ref request = Some g → ¬ in_force request g now) →
  (∀ g, grants w2 !! mi_grant_ref request = Some g → ¬ in_force request g now) →
  (mi_bound_action request = None ↔ mi_bound_resource request = None) →
  mint_subject_token request now atomic1 w1 = (Ok res1, w1') →
  mint_subject_token request now atomic2 w2 = (Ok res2, w2') →
  res1 = mint_forbidden ∧ res2 = mint_forbidden ∧
  w_audit w1' = w_audit w2' ∧ w_entropy w1' = w_entropy w2'.
Proof.
  intros Hw1 Hw2 Ha He Hno1 Hno2 Hb E1 E2.
  destruct (mint_foreign_run request now atomic1 w1 Hw1 Hno1 Hb)
    as [(e & w & Er & _)|(g1 & r1 & a1 & Er1 & Hr1)]; [congruence|].
  destruct (mint_foreign_run request now atomic2 w2 Hw2 Hno2 Hb)
    as [(e & w & Er & _)|(g2 & r2 & a2 & Er2 & Hr2)]; [congruence|].
  rewrite Er1 in E1. injection E1 as <- <-. rewrite Er2 in E2. injection E2 as <- <-.
  unfold next_id in Hr1, Hr2. rewrite Ha, He, Hr2 in Hr1. split_and!; simpl; congruence.
Qed.

(** ** Revoking a token *)

Definition ids_distinct (r : InMemorySubjectTokenRepository) : Prop :=
  ∀ h1 h2 t1 t2, tokens_get_by_hash h1 r = Some t1 → tokens_get_by_hash h2 r = Some t2 →
    st_token_id t1 = st_token_id t2 → h1 = h2.

Lemma revoke_first_dget id now d d' h :
  revoke_first id now d = Some d' →
  dget h d' = dget h d ∨ ∃ t, dget h d = Some t ∧ st_token_id t = id ∧
    dget h d' = Some (st_revoke t now).
Proof.
  revert d'. induction d as [|[h0 t0] d IH]; intros d'; simpl; [done|].
  destruct (String.eqb_spec (st_token_id t0) id) as [Hid|Hid].
  - intros [= <-]. simpl. case_decide; [right; by exists t0|by left].
  - destruct (revoke_first id now d) as [d1|]; [|done]. intros [= <-]. simpl.
    case_decide; [by left|]. by apply IH.
Qed.
Lemma revoke_first_some id now d d' :
  dict_wf d → revoke_first id now d = Some d' →
  ∃ h t, dget h d = Some t ∧ st_token_id t = id ∧ dget h d' = Some (st_revoke t now).
Proof.
  revert d'. induction d as [|[h0 t0] d IH]; intros d' Hwf; simpl; [done|].
  apply NoDup_cons in Hwf as [Hh0 Hwf]. destruct (String.eqb_spec (st_token_id t0) id) as [Hid|Hid].
  - intros [= <-]. exists h0, t0. simpl. by rewrite !decide_True.
  - destruct (revoke_first id now d) as [d1|]; [|done]. intros [= <-].
    destruct (IH d1 Hwf eq_refl) as (h & t & Hd & Ht & Hd1). exists h, t.
    assert (h0 ≠ h). { intros ->. apply Hh0. by apply dget_elem, (list_elem_of_fmap_2 fst) in Hd. }
    simpl. by rewrite !decide_False.
Qed.
Lemma revoke_first_none id now d :
  revoke_first id now d = None ↔ ∀ t, t ∈ dvalues d → st_token_id t ≠ id.
Proof.
  unfold dvalues. induction d as [|[h t] d IH]; simpl.
  - split; [|done]. intros _ t Ht. by apply elem_of_nil in Ht.
  - destruct (String.eqb_spec (st_token_id t) id) as [Hid|Hid].
    + split; [done|]. intros Hall. destruct (Hall t); [|done]. left.
    + rewrite fmap_None, IH. split.
      * intros Hall x [->|Hx]%elem_of_cons; [done|auto].
      * intros Hall x Hx. apply Hall. by right.
Qed.

(** Revoking a token is exact: it answers whether a token with that id is
    stored; if so precisely that token becomes its revoked copy, and every other
    token, and what is filed under every hash, stays. *)
Theorem token_revocation_exact id now r b r' :
  dict_wf (_tokens_by_hash r) → ids_distinct r → tokens_revoke id now r = (Ok b, r') →
  (b = false → r' = r ∧ tokens_get_by_id id r = None) ∧
  (b = true → ∃ h t, tokens_get_by_hash h r = Some t ∧ st_token_id t = id ∧
     tokens_get_by_hash h r' = Some (st_revoke t now) ∧
     ∀ h', h' ≠ h → tokens_get_by_hash h' r' = tokens_get_by_hash h' r).
Proof.
  intros Hwf Hids. unfold tokens_revoke.
  destruct (revoke_first id now (_tokens_by_hash r)) as [d|] eqn:E; intros [= <- <-];
    (split; [|]; try done).
  - intros _. destruct (revoke_first_some id now _ _ Hwf E) as (h & t & Ht & Hid & Hd).
    exists h, t. split_and!; [done..|]. intros h' Hne. unfold tokens_get_by_hash. simpl.
    destruct (revoke_first_dget id now _ _ h' E) as [?|(t' & Ht' & Hid' & _)]; [done|].
    exfalso. apply Hne. apply (Hids h' h t' t); [done|done|congruence].
  - intros _. split; [done|]. rewrite revoke_first_none in E.
    unfold tokens_get_by_id. destruct (List.find _ _) as [t|] eqn:Ef; [|done].
    apply find_some in Ef as [Hin Heq%String.eqb_eq]. apply list_elem_of_In in Hin.
    by destruct (E t Hin).
Qed.

(** ** From minting to enforcement *)

(** The delegated contract, wired to the service's own tokens. *)
Definition store_lookup w : TokenLookup := λ h, Ok (tokens_get_by_hash h (w_tokens w)).

(** A minted token is confined to what it was minted for: in any later state
    that still files it under its hash, every decision on a request presenting
    it is made at the audience, for the workspace, agent, grant and (if bound)
    action and resource of the mint, before both the token's and the grant's
    expiry, with an accepted proof if a secret was issued; and once it is
    revoked there is no decision at all. *)
Theorem minted_token_confined int_unicode mint now atomic w res w' raw
    request now' br pep_ws settings skew w2 resp w3 d :
  wf w → scoped atomic → mint_subject_token mint now atomic w = (Ok res, w') →
  mt_token res = Some raw →
  wf w2 → (∃ t, tokens_get_by_hash (_hash_key raw) (w_tokens w') = Some t ∧
    (tokens_get_by_hash (_hash_key raw) (w_tokens w2) = Some t ∨
     ∃ at_, tokens_get_by_hash (_hash_key raw) (w_tokens w2) = Some (st_revoke t at_))) →
  dv_subject_token request = Some raw →
  delegated_enforce_v1_contract int_unicode request now' br pep_ws (Some (store_lookup w2))
    settings skew w2 = (Ok resp, w3) →
  rs_decision resp = Some d →
  tokens_get_by_hash (_hash_key raw) (w_tokens w2) =
    tokens_get_by_hash (_hash_key raw) (w_tokens w') ∧
  dv_pep_id request = mi_audience mint ∧ dv_workspace_id request = mi_workspace_id mint ∧
  dv_agent_id request = mi_agent_id mint ∧ dv_grant_ref request = mi_grant_ref mint ∧
  (∀ a, mi_bound_action mint = Some a → a = dv_action request) ∧
  (∀ r, mi_bound_resource mint = Some r → r = dv_resource request) ∧
  now' < now + seconds (mi_ttl_seconds mint) ∧
  (∃ g, grants w !! mi_grant_ref mint = Some g ∧ ∀ e, g_expires_at g = Some e → now' < e) ∧
  (mi_pop mint = true → ∃ c c' secret id, w_pop w2 = Some c ∧ mt_pop_secret res = Some secret ∧
     mt_token_id res = Some id ∧
     verify_pop int_unicode (dv_subject_token_proof request) secret id (dv_action request)
       (dv_resource request) now' skew c = (Ok true, c')).
Proof.
  intros Hw Hat Em Hraw Hw2 (t & Ht & Hlater) Hpres Ed Hd.
  destruct (mint_outcome _ _ _ _ _ _ Hw Hat Em) as [(g & raw' & t' & Hok)|(-> & _)]; [|done].
  destruct Hok as [[Hg (_ & _ & _ & Hlive)] -> _ Hst (Htw & Hta & Htg & Htaud & _ & Hrev & _)
    (Hba & Hbr & _ & Hpop) [Hexp Hexpg] _ _].
  simpl in Hraw. injection Hraw as ->.
  assert (t = t') as ->.
  { rewrite Hst in Ht. unfold tokens_get_by_hash in Ht. simpl in Ht.
    rewrite dget_dset_eq in Ht. congruence. }
  destruct (delegated_outcome int_unicode _ _ _ _ _ _ _ _ _ _ Hw2 Ed)
    as [(ws & _ & Hnone & _)|(ws & g2 & o & rb & [_ _ _ _ Hp _ _] & _)]; [congruence|].
  assert (∃ pr t2, token_proven int_unicode request raw ws g2 now' (Some (store_lookup w2)) pr
    skew w2 t2) as (pr & t2 & [Hs Hl Hau Hws Hag Hgr Hbi Hpf _]).
  { destruct o as [t2|]; [|congruence]. destruct Hp as (raw2 & pr & Hr & _ & Hp). exists pr, t2.
    rewrite Hpres in Hr. by injection Hr as <-. }
  destruct Hs as (get & Hget & Hs). injection Hget as <-. unfold store_lookup in Hs.
  injection Hs as Hs. assert (t2 = t') as ->.
  { destruct Hlater as [Hl2|(at_ & Hl2)]; rewrite Hs in Hl2; injection Hl2 as ->; [done|].
    by destruct Hl as [Hl _]. }
  split_and!.
  - by rewrite Hs, Ht.
  - by rewrite <-Hau.
  - by rewrite <-Htw, (proj1 Hws), (proj1 (proj2 Hws)).
  - by rewrite <-Hta, (proj1 Hag).
  - by rewrite <-Htg, (proj1 Hgr).
  - rewrite <-Hba. apply Hbi.
  - rewrite <-Hbr. apply Hbi.
  - destruct Hl. lia.
  - exists g. split; [done|]. intros e He. specialize (Hexpg e He). destruct Hl. lia.
  - intros Hm. apply Hpop in Hm as [secret Hsec]. destruct (Hpf secret Hsec) as (c & c' & Hc & Hv).
    exists c, c', secret, (st_token_id t'). by split_and!.
Qed.
End facts.

(** ** Witnesses *)

Definition sample_mint (pop : bool) : MintRequest :=
  mkMintRequest "ws" "agent" "grt_1" "pep_1" 60 None None pop.
Definition sample_minting (w : World InMemoryGrantRepository InMemoryAuditWriter) :=
  mint_subject_token (sample_mint false) 5 nullcontext w.
Definition sample_minted : SubjectTokenMintResult :=
  mkSubjectTokenMintResult "minted" (Some "vat_n0") (Some "vtk_n1") (Some 100) None.
Lemma sample_minting_eq :
  sample_minting own_world = (Ok sample_minted, (sample_minting own_world).2).
Proof. vm_compute. reflexivity. Qed.

Lemma mint_bounded_by_grant_witness :
  ∃ g raw t, minted_ok (sample_mint false) 5 own_world (sample_minting own_world).2 sample_minted
      g raw t ∧
    ∀ h, h ≠ _hash_key raw →
      tokens_get_by_hash h (w_tokens (sample_minting own_world).2) =
      tokens_get_by_hash h (w_tokens own_world).
Proof.
  exact (mint_bounded_by_grant (sample_mint false) 5 nullcontext own_world _ _ (own_world_wf [])
    nullcontext_scoped sample_minting_eq eq_refl).
Defined.

(** The grant is revoked in the one service, absent in the other. *)
Definition revoked_world := sample_world [("grt_1", revoked sample_grant)] [].
Lemma mint_no_grant_oracle_witness :
  w_audit (sample_minting (sample_world [] [])).2 = w_audit (sample_minting revoked_world).2.
Proof.
  refine (proj1 (proj2 (proj2 (mint_no_grant_oracle (sample_mint false) 5 nullcontext nullcontext
    (sample_world [] []) revoked_world mint_forbidden mint_forbidden _ _ empty_world_wf _
    eq_refl eq_refl _ _ _ _ _)))).
  - split; [repeat constructor; set_solver|]. intros ref x. simpl. case_decide; naive_solver.
  - intros g Hg. vm_compute in Hg. discriminate Hg.
  - intros g Hg (_ & _ & Hst & _). vm_compute in Hg. injection Hg as <-. discriminate Hst.
  - done.
  - vm_compute. reflexivity.
  - vm_compute. reflexivity.
Defined.

Lemma token_revocation_exact_witness :
  ∃ h t, tokens_get_by_hash h (mkTokens [("h1", sample_token "pep_1")]) = Some t ∧
    st_token_id t = "vtk_1" ∧
    tokens_get_by_hash h (mkTokens [("h1", st_revoke (sample_token "pep_1") 9)])
      = Some (st_revoke t 9).
Proof.
  destruct (token_revocation_exact "vtk_1" 9 (mkTokens [("h1", sample_token "pep_1")]) true
    (mkTokens [("h1", st_revoke (sample_token "pep_1") 9)])) as [_ Hyes].
  - apply NoDup_singleton.
  - intros h1 h2 t1 t2. unfold tokens_get_by_hash. simpl. repeat case_decide; congruence.
  - reflexivity.
  - destruct (Hyes eq_refl) as (h & t & H1 & H2 & H3 & _). by exists h, t.
Defined.

(** Minted, then presented by the point it was minted for. *)
Definition mint_request : V1DelegatedEnforceRequest :=
  mkV1DelegatedEnforceRequest "pep_1" "ws" "agent" "grt_1" "read" "repo/docs/a" None
    (Some "vat_n0") None.
Definition minted_world := (sample_minting own_world).2.
Lemma minted_world_wf : wf minted_world.
Proof.
  destruct (mint_outcome (sample_mint false) 5 nullcontext own_world _ _ (own_world_wf [])
    nullcontext_scoped sample_minting_eq) as [(g & raw & t & Hok)|(_ & Hwf & _)];
    [apply Hok|exact Hwf].
Qed.
Definition present_minted := delegated_enforce_v1_contract no_unicode_int mint_request 7 None
  (Some "ws") (Some (store_lookup minted_world)) None 30 minted_world.
Lemma minted_token_confined_witness :
  dv_pep_id mint_request = mi_audience (sample_mint false) ∧ 7 < 5 + seconds 60.
Proof.
  destruct (minted_token_confined no_unicode_int (sample_mint false) 5 nullcontext own_world
    sample_minted minted_world "vat_n0" mint_request 7 None (Some "ws") None 30 minted_world
    (mkV1EnforceResponse 200 (Some permit) None None (Some "evt_n3")) present_minted.2 permit)
    as (_ & Ha & _ & _ & _ & _ & _ & Hx & _); [..|by split].
  - exact (own_world_wf []).
  - exact nullcontext_scoped.
  - exact sample_minting_eq.
  - reflexivity.
  - exact minted_world_wf.
  - eexists. split; [vm_compute; reflexivity|left; vm_compute; reflexivity].
  - reflexivity.
  - vm_compute. reflexivity.
  - reflexivity.
Defined.
