(* ===== verification/AutoApproval.v ===== *)
(** * Auto-approval rules ([src/vinctor_service/auto_approval.py])

    An operator's rule approves, without a human, the pending requests for one
    agent that stay within the rule's scopes and TTL.  The issuable bounds still
    apply: a rule decides a request, it does not issue past the bounds. *)
From S2P Require Import Prelude PyStr PyDict PyTime Scope Models Registry Enforce CoreAudit Pop.
From S2P Require Import ServiceModels Repositories AuditWriter World V1Enforce Grants.
From S2P Require Import GrantRequests.

Definition EVENT_AUTO_APPROVAL_RULE_DISABLED := "auto_approval_rule_disabled".
Definition EVENT_AUTO_APPROVAL_RULE_UPDATED := "auto_approval_rule_updated".

Record RuleUpdateControlEvent := mkRuleUpdateControlEvent {
  ru_event_type : string;
  ru_action : string;
  ru_reason : string;
  ru_scope_attempted : string
}.

(** [_AUDITED_RULE_FIELDS], each with its comparison of [getattr]s. *)
Definition _AUDITED_RULE_FIELDS :
    list (string * (AutoApprovalRule → AutoApprovalRule → bool)) :=
  [("name", λ a b, aar_name a == aar_name b);
   ("target_agent_id", λ a b, aar_target_agent_id a == aar_target_agent_id b);
   ("allowed_scopes", λ a b, bool_decide (aar_allowed_scopes a = aar_allowed_scopes b));
   ("max_ttl_seconds", λ a b, aar_max_ttl_seconds a =? aar_max_ttl_seconds b);
   ("status", λ a b, aar_status a == aar_status b)].

Definition _changed_rule_fields (prior rule : AutoApprovalRule) : list string :=
  map fst (List.filter (λ f, negb (f.2 prior rule)) _AUDITED_RULE_FIELDS).

Definition auto_approval_update_control_event (prior rule : AutoApprovalRule) :
    RuleUpdateControlEvent :=
  let changed := _changed_rule_fields prior rule in
  if (aar_status prior == "active") && (aar_status rule == "disabled") then
    let other := List.filter (λ field, negb (field == "status")) changed in
    let reason := "status=disabled" in
    let reason := if bool_decide (other = []) then reason
                  else reason ^+ " changed=" ^+ join "," other in
    mkRuleUpdateControlEvent EVENT_AUTO_APPROVAL_RULE_DISABLED "disable_auto_approval_rule" reason ""
  else
    mkRuleUpdateControlEvent EVENT_AUTO_APPROVAL_RULE_UPDATED "update_auto_approval_rule"
      ("status=" ^+ aar_status rule ^+ " changed="
       ^+ (if bool_decide (changed = []) then "none" else join "," changed)) "".

Definition _validate_rule (rule : AutoApprovalRule) : result unit :=
  if aar_workspace_id rule == "" then Raise (ValueError "workspace_id must be non-empty")
  else if aar_rule_id rule == "" then Raise (ValueError "rule_id must be non-empty")
  else if aar_name rule == "" then Raise (ValueError "name must be non-empty")
  else if aar_target_agent_id rule == "" then Raise (ValueError "target_agent_id must be non-empty")
  else if aar_max_ttl_seconds rule <=? 0 then Raise (ValueError "max_ttl_seconds must be positive")
  else if negb ((aar_status rule == "active") || (aar_status rule == "disabled"))
  then Raise (ValueError ("invalid rule status: " ^+ aar_status rule))
  else if bool_decide (aar_allowed_scopes rule = [])
  then Raise (ValueError "at least one allowed scope is required")
  else match List.filter (λ s, negb (is_valid_grant_scope s)) (aar_allowed_scopes rule) with
       | bad :: _ => Raise (ValueError ("invalid allowed scope: " ^+ bad))
       | [] =>
           if aar_created_by rule == "" then Raise (ValueError "created_by must be non-empty")
           else Ok tt
       end.

Definition _scopes_within_rule (requested_scopes allowed_scopes : list string) : bool :=
  forallb (λ requested, existsb (λ allowed, scope_subsumes allowed requested) allowed_scopes)
    requested_scopes.

(** ** Managing rules *)

Definition create_auto_approval_rule (rule : AutoApprovalRule) :
    M InMemoryAutoApprovalRuleRepository AutoApprovalRule :=
  _ ← lift (_validate_rule rule);
  _ ← add_rule rule;
  mret rule.

Definition upsert_auto_approval_rule (rule : AutoApprovalRule) :
    M InMemoryAutoApprovalRuleRepository string :=
  _ ← lift (_validate_rule rule);
  existing ← gets (get_rule (aar_rule_id rule));
  match existing with
  | None => _ ← add_rule rule; mret "created"
  | Some existing =>
      if negb (aar_workspace_id existing == aar_workspace_id rule)
      then raise (ValueError "auto-approval rule_id belongs to another workspace")
      else _ ← update_rule rule; mret "updated"
  end.

Definition disable_auto_approval_rule (rule_id workspace_id disabled_by : string) (now : Z) :
    M InMemoryAutoApprovalRuleRepository (option AutoApprovalRule) :=
  rule ← gets (get_rule rule_id);
  match rule with
  | None => mret None
  | Some rule =>
      if negb (aar_workspace_id rule == workspace_id) then mret None
      else
        let disabled := aar_disable rule disabled_by now in
        _ ← update_rule disabled;
        mret (Some disabled)
  end.

Definition list_auto_approval_rules (workspace_id : string)
    (r : InMemoryAutoApprovalRuleRepository) : list AutoApprovalRule :=
  list_rules_for_workspace workspace_id r.

(** ** Evaluation *)

Definition would_not_approve (reason : string) (request : GrantRequest) :
    AutoApprovalEvaluationResult :=
  mkAutoApprovalEvaluationResult "would_not_approve" reason request None.

(** The loop over the workspace's rules, with its two flags. *)
Fixpoint evaluate_rules (request : GrantRequest) (rules : list AutoApprovalRule)
    (saw_scope_candidate saw_ttl_candidate : bool) : AutoApprovalEvaluationResult :=
  match rules with
  | [] =>
      if saw_ttl_candidate then would_not_approve "ttl_exceeds_rule" request
      else would_not_approve
             (if saw_scope_candidate then "scope_outside_rule" else "no_matching_rule") request
  | rule :: rules' =>
      if negb (aar_status rule == "active")
         || negb (aar_target_agent_id rule == gq_target_agent_id request)
      then evaluate_rules request rules' saw_scope_candidate saw_ttl_candidate
      else if negb (_scopes_within_rule (gq_requested_scopes request) (aar_allowed_scopes rule))
      then evaluate_rules request rules' true saw_ttl_candidate
      else if aar_max_ttl_seconds rule <? gq_requested_ttl_seconds request
      then evaluate_rules request rules' saw_scope_candidate true
      else mkAutoApprovalEvaluationResult "would_approve" "auto_approval_match" request (Some rule)
  end.

Definition evaluate_auto_approval (request : GrantRequest)
    (rules : InMemoryAutoApprovalRuleRepository) : AutoApprovalEvaluationResult :=
  if negb (gq_status request == "pending")
  then would_not_approve "grant_request_not_pending" request
  else evaluate_rules request (list_rules_for_workspace (gq_workspace_id request) rules) false false.

Definition auto_approve_grant_request {G A : Type} `{GrantLifecycle G} `{AuditWriter A}
    (request_id workspace_id decided_by : string) (now : Z) :
    M (World G A) GrantRequestDecisionResult :=
  found ← gets (lookup_grant_request request_id workspace_id);
  match found with
  | None => mret (decision_failed "grant_request_not_found")
  | Some request =>
      evaluation ← gets (λ w : World G A, evaluate_auto_approval request (w_rules w));
      let failed := mkGrantRequestDecisionResult "failed" (aer_reason evaluation)
                      (Some (aer_request evaluation)) None None None in
      if negb (aer_decision evaluation == "would_approve") then mret failed
      else
        match aer_rule evaluation with
        | None => mret failed
        | Some rule =>
            approved ← approve_grant_request (gq_request_id request) (gq_workspace_id request)
              decided_by (Some ("auto_approval_rule:" ^+ aar_rule_id rule)) now
              "grant_request_auto_approved" "grant_request_auto_approved"
              "auto_approve_grant_request";
            mret (mkGrantRequestDecisionResult (gdr_status approved) (gdr_reason approved)
              (match gdr_request approved with Some r => Some r | None => Some request end)
              (gdr_grant approved) (gdr_audit_event_id approved)
              (if gdr_status approved == "approved" then Some (aar_rule_id rule) else None))
        end
  end.

(** ** Specification *)

(** The rule speaks of this request's target; it allows the scopes; and the TTL. *)
Definition rule_applies (request : GrantRequest) (rule : AutoApprovalRule) : Prop :=
  aar_status rule = "active" ∧ aar_target_agent_id rule = gq_target_agent_id request.
Definition rule_covers (request : GrantRequest) (rule : AutoApprovalRule) : Prop :=
  ∀ s, s ∈ gq_requested_scopes request →
    ∃ allowed, allowed ∈ aar_allowed_scopes rule ∧ scope_subsumes allowed s = true.
Definition rule_matches (request : GrantRequest) (rule : AutoApprovalRule) : Prop :=
  rule_applies request rule ∧ rule_covers request rule ∧
  gq_requested_ttl_seconds request ≤ aar_max_ttl_seconds rule.

Lemma scopes_within_rule_true requested allowed :
  _scopes_within_rule requested allowed = true ↔
  ∀ s, s ∈ requested → ∃ a, a ∈ allowed ∧ scope_subsumes a s = true.
Proof.
  unfold _scopes_within_rule. rewrite forallb_forall. split.
  - intros Hall s Hs. apply list_elem_of_In, Hall, existsb_exists_elem in Hs. done.
  - intros Hall s Hs. apply existsb_exists_elem, Hall, list_elem_of_In, Hs.
Qed.
Lemma scopes_within_rule_false request rule :
  _scopes_within_rule (gq_requested_scopes request) (aar_allowed_scopes rule) = false ↔
  ¬ rule_covers request rule.
Proof. unfold rule_covers. by rewrite <-scopes_within_rule_true, not_true_iff_false. Qed.

(** What the loop answers after rules none of which matched. *)
Definition no_match (request : GrantRequest) (rules : list AutoApprovalRule)
    (saw_scope saw_ttl : bool) (res : AutoApprovalEvaluationResult) : Prop :=
  Forall (λ r, ¬ rule_matches request r) rules ∧ ∃ reason, res = would_not_approve reason request ∧
  (reason = "ttl_exceeds_rule" ↔
     saw_ttl = true ∨ ∃ r, r ∈ rules ∧ rule_applies request r ∧ rule_covers request r) ∧
  (reason = "no_matching_rule" ↔
     saw_ttl = false ∧ saw_scope = false ∧ Forall (λ r, ¬ rule_applies request r) rules) ∧
  (reason = "ttl_exceeds_rule" ∨ reason = "no_matching_rule" ∨ reason = "scope_outside_rule").

(** One rule that does not match moves into the flags. *)
Lemma no_match_cons request rule rules saw_scope saw_ttl saw_scope' saw_ttl' res :
  ¬ rule_matches request rule →
  (saw_ttl' = true ↔ saw_ttl = true ∨ rule_applies request rule ∧ rule_covers request rule) →
  (saw_ttl' = false ∧ saw_scope' = false ↔
     saw_ttl = false ∧ saw_scope = false ∧ ¬ rule_applies request rule) →
  no_match request rules saw_scope' saw_ttl' res →
  no_match request (rule :: rules) saw_scope saw_ttl res.
Proof.
  intros Hn Httl Hnone (Hall & reason & -> & H1 & H2 & H3). split; [by constructor|].
  exists reason. split; [done|]. split; [|split; [|done]].
  - rewrite H1, Httl. split.
    + intros [[?|[??]]|(r & Hr & ?)]; [by left|right; exists rule|right; exists r];
        (split; [|done]); [left|by right].
    + intros [?|(r & [-> | Hr]%elem_of_cons & ?)]; [by left; left|by left; right|right; eauto].
  - rewrite H2, Forall_cons. tauto.
Qed.

Lemma evaluate_rules_spec request rules saw_scope saw_ttl :
  (∃ pre rule post, rules = pre ++ rule :: post ∧ Forall (λ r, ¬ rule_matches request r) pre ∧
     rule_matches request rule ∧ evaluate_rules request rules saw_scope saw_ttl =
       mkAutoApprovalEvaluationResult "would_approve" "auto_approval_match" request (Some rule)) ∨
  no_match request rules saw_scope saw_ttl (evaluate_rules request rules saw_scope saw_ttl).
Proof.
  revert saw_scope saw_ttl. induction rules as [|rule rules IH]; intros saw_scope saw_ttl; simpl.
  { right. split; [constructor|]. setoid_rewrite elem_of_nil.
    destruct saw_ttl, saw_scope; (eexists; split; [reflexivity|]); split_and!; naive_solver. }
  assert (Hgo : ∀ ss st, ¬ rule_matches request rule →
    (st = true ↔ saw_ttl = true ∨ rule_applies request rule ∧ rule_covers request rule) →
    (st = false ∧ ss = false ↔ saw_ttl = false ∧ saw_scope = false ∧ ¬ rule_applies request rule) →
    (∃ pre r post, rule :: rules = pre ++ r :: post ∧ Forall (λ r, ¬ rule_matches request r) pre ∧
       rule_matches request r ∧ evaluate_rules request rules ss st =
         mkAutoApprovalEvaluationResult "would_approve" "auto_approval_match" request (Some r)) ∨
    no_match request (rule :: rules) saw_scope saw_ttl (evaluate_rules request rules ss st)).
  { intros ss st Hn Hst Hss. destruct (IH ss st) as [(pre & r & post & -> & Hpre & Hm & ->)|Hno].
    - left. exists (rule :: pre), r, post. split_and!; [done|by constructor|done|done].
    - right. by apply (no_match_cons _ _ _ _ _ ss st). }
  destruct (negb (aar_status rule == "active") || _) eqn:Ea.
  { assert (¬ rule_applies request rule).
    { intros [Hs Ht]. by rewrite Hs, Ht, !eqb_refl in Ea. }
    apply Hgo; [intros [? _]; done|naive_solver|naive_solver]. }
  assert (Happ : rule_applies request rule).
  { apply orb_false_iff in Ea as [E1%negb_false_iff%String.eqb_eq E2%negb_false_iff%String.eqb_eq].
    by split. }
  destruct (_scopes_within_rule _ _) eqn:Ew; cbn [negb].
  - pose proof (proj1 (scopes_within_rule_true _ _) Ew) as Hcov.
    destruct (Z.ltb_spec (aar_max_ttl_seconds rule) (gq_requested_ttl_seconds request)).
    + apply Hgo; [intros (_ & _ & ?); lia|naive_solver|naive_solver].
    + left. exists [], rule, rules. by split_and!.
  - apply scopes_within_rule_false in Ew.
    apply Hgo; [intros (_ & ? & _); done|naive_solver|naive_solver].
Qed.

(** A rule decides by first match: a pending request would be approved
    exactly by the first of its workspace's rules, in insertion order, that is
    active, speaks of its target, covers every requested scope and allows the
    TTL; failing that the reason is the closest miss (a TTL too long before a
    scope too wide before no rule at all), and a request that is not pending is
    never approved. *)
Theorem evaluate_auto_approval_first_match request rules :
  let res := evaluate_auto_approval request rules in
  let candidates := list_rules_for_workspace (gq_workspace_id request) rules in
  (gq_status request ≠ "pending" ∧ res = would_not_approve "grant_request_not_pending" request) ∨
  (gq_status request = "pending" ∧
   ((∃ pre rule post, candidates = pre ++ rule :: post ∧
       Forall (λ r, ¬ rule_matches request r) pre ∧ rule_matches request rule ∧
       res = mkAutoApprovalEvaluationResult "would_approve" "auto_approval_match" request
               (Some rule)) ∨
    no_match request candidates false false res)).
Proof.
  intros res candidates. unfold res, evaluate_auto_approval.
  destruct (String.eqb_spec (gq_status request) "pending"); cbn [negb]; [right|by left].
  split; [done|]. apply evaluate_rules_spec.
Qed.

(** *** The stored rules *)

Definition rules_wf (r : InMemoryAutoApprovalRuleRepository) : Prop :=
  dict_wf (_rules_by_id r) ∧
  ∀ id x, get_rule id r = Some x → aar_rule_id x = id ∧ _validate_rule x = Ok tt.

Lemma rules_set_wf r x :
  rules_wf r → _validate_rule x = Ok tt →
  rules_wf (mkRules (dset (aar_rule_id x) x (_rules_by_id r))).
Proof.
  intros [Hwf Hk] Hv. split; simpl; [by apply dset_wf|]. intros id y. unfold get_rule. simpl.
  rewrite dget_dset. case_decide; [naive_solver|apply Hk].
Qed.
Lemma validate_rule_disabled x by_ now :
  _validate_rule x = Ok tt → _validate_rule (aar_disable x by_ now) = Ok tt.
Proof.
  unfold _validate_rule. cbn [aar_disable aar_workspace_id aar_rule_id aar_name
    aar_target_agent_id aar_max_ttl_seconds aar_status aar_allowed_scopes aar_created_by].
  repeat case_match; try done.
Qed.
Lemma valid_rule_scopes x :
  _validate_rule x = Ok tt → ∀ s, s ∈ aar_allowed_scopes x → is_valid_grant_scope s = true.
Proof.
  unfold _validate_rule. intros Hv s Hs. destruct (is_valid_grant_scope s) eqn:E; [done|]. exfalso.
  assert (Hin : s ∈ List.filter (λ s, negb (is_valid_grant_scope s)) (aar_allowed_scopes x))
    by (rewrite list_elem_of_In, filter_In, <-list_elem_of_In, E; done).
  destruct (List.filter _ _) as [|bad rest]; [by apply elem_of_nil in Hin|].
  revert Hv. by repeat case_match.
Qed.

Inductive RuleOp :=
  | CreateRule (rule : AutoApprovalRule)
  | UpsertRule (rule : AutoApprovalRule)
  | DisableRule (rule_id workspace_id disabled_by : string) (now : Z).
(** One call, whatever it answers. *)
Definition run_rule_op (op : RuleOp) (r : InMemoryAutoApprovalRuleRepository) :
    InMemoryAutoApprovalRuleRepository :=
  match op with
  | CreateRule rule => (create_auto_approval_rule rule r).2
  | UpsertRule rule => (upsert_auto_approval_rule rule r).2
  | DisableRule id ws by_ now => (disable_auto_approval_rule id ws by_ now r).2
  end.

(** A call changes nothing, or files one valid rule under its id, in the
    workspace the id already belonged to. *)
Lemma run_rule_op_spec op r :
  rules_wf r →
  run_rule_op op r = r ∨
  ∃ x, run_rule_op op r = mkRules (dset (aar_rule_id x) x (_rules_by_id r)) ∧
    _validate_rule x = Ok tt ∧
    ∀ y, get_rule (aar_rule_id x) r = Some y → aar_workspace_id y = aar_workspace_id x.
Proof.
  intros [Hwf Hk]. destruct op as [rule|rule|id ws by_ now]; simpl.
  - destruct (create_auto_approval_rule rule r) as [res r'] eqn:E. revert E.
    unfold create_auto_approval_rule, lift, mbind at 1, M_bind at 1.
    destruct (_validate_rule rule) as [[]|e] eqn:Ev; [|intros [= <- <-]; by left].
    unfold mbind, M_bind, add_rule. destruct (din _ _) eqn:Ed; intros [= <- <-]; [by left|].
    right. exists rule. split_and!; [done|done|]. intros y Hy. apply din_false in Ed.
    unfold get_rule in Hy. congruence.
  - destruct (upsert_auto_approval_rule rule r) as [res r'] eqn:E. revert E.
    unfold upsert_auto_approval_rule, lift, mbind at 1, M_bind at 1.
    destruct (_validate_rule rule) as [[]|e] eqn:Ev; [|intros [= <- <-]; by left].
    rewrite (bind_run _ _ r (get_rule (aar_rule_id rule) r) r) by done.
    destruct (get_rule (aar_rule_id rule) r) as [x|] eqn:Ex; unfold get_rule in Ex.
    + destruct (String.eqb_spec (aar_workspace_id x) (aar_workspace_id rule)) as [Hws|];
        cbn [negb]; [|intros [= <- <-]; by left].
      unfold mbind, M_bind, update_rule, din. rewrite Ex, bool_decide_true by done.
      intros [= <- <-]. right. exists rule. split_and!; [done|done|].
      unfold get_rule. rewrite Ex. by intros y [= <-].
    + unfold mbind, M_bind, add_rule.
      destruct (din _ _) eqn:Ed; intros [= <- <-]; [by left|]. right. exists rule.
      split_and!; [done|done|]. unfold get_rule. by rewrite Ex.
  - destruct (disable_auto_approval_rule id ws by_ now r) as [res r'] eqn:E. revert E.
    unfold disable_auto_approval_rule.
    rewrite (bind_run _ _ r (get_rule id r) r) by done.
    destruct (get_rule id r) as [x|] eqn:Ex; [|intros [= <- <-]; by left].
    destruct (Hk id x Ex) as [Hid Hv]. unfold get_rule in Ex.
    destruct (_ == ws); cbn [negb]; [|intros [= <- <-]; by left].
    unfold mbind, M_bind, update_rule, din. cbn [aar_disable aar_rule_id].
    rewrite Hid, Ex, bool_decide_true by done. intros [= <- <-].
    right. exists (aar_disable x by_ now). cbn [aar_disable aar_rule_id aar_workspace_id].
    rewrite Hid. split_and!; [done| |].
    + by apply (validate_rule_disabled x by_ now).
    + unfold get_rule. rewrite Ex. by intros y [= <-].
Qed.

(** Stored rules stay valid and stay put: after any sequence of creations,
    upserts and disablings, refused ones included, every stored rule is valid
    and filed under its own id, and an id never moves to another workspace and
    never disappears. *)
Theorem rules_reachable_valid ops r :
  rules_wf r →
  let r' := foldl (λ r op, run_rule_op op r) r ops in
  rules_wf r' ∧
  ∀ id x, get_rule id r = Some x →
    ∃ y, get_rule id r' = Some y ∧ aar_workspace_id y = aar_workspace_id x.
Proof.
  revert r. induction ops as [|op ops IH]; intros r Hr; simpl; [by eauto|].
  destruct (run_rule_op_spec op r Hr) as [->|(x & -> & Hv & Hws)]; [by apply IH|].
  destruct (IH _ (rules_set_wf r x Hr Hv)) as [Hwf Hkeep]. split; [done|]. intros id z Hz.
  destruct (decide (aar_rule_id x = id)) as [<-|Hne].
  - destruct (Hkeep (aar_rule_id x) x) as (y & Hy & He); [unfold get_rule; apply dget_dset_eq|].
    exists y. split; [done|]. rewrite He. symmetry. by apply Hws.
  - apply Hkeep. unfold get_rule. simpl. by rewrite dget_dset_ne.
Qed.

(** *** Automatic approval *)

Lemma list_rules_elem ws r x :
  rules_wf r → x ∈ list_rules_for_workspace ws r →
  get_rule (aar_rule_id x) r = Some x ∧ aar_workspace_id x = ws ∧ _validate_rule x = Ok tt.
Proof.
  intros [Hwf Hk] Hx. unfold list_rules_for_workspace in Hx.
  rewrite list_elem_of_In, filter_In, <-list_elem_of_In in Hx.
  destruct Hx as [Hx Hws%String.eqb_eq]. unfold dvalues in Hx.
  apply list_elem_of_fmap in Hx as ([id x'] & -> & Hx).
  assert (Hg : get_rule id r = Some x') by (by apply dget_elem_iff).
  destruct (Hk id x' Hg) as [Hid Hv]. simpl in *. by rewrite Hid.
Qed.

Lemma would_approve_rule q r rule :
  rules_wf r → aer_rule (evaluate_auto_approval q r) = Some rule →
  gq_status q = "pending" ∧ get_rule (aar_rule_id rule) r = Some rule ∧
  aar_workspace_id rule = gq_workspace_id q ∧ _validate_rule rule = Ok tt ∧ rule_matches q rule.
Proof.
  intros Hwf. unfold evaluate_auto_approval.
  destruct (String.eqb_spec (gq_status q) "pending"); cbn [negb]; [|done].
  destruct (evaluate_rules_spec q (list_rules_for_workspace (gq_workspace_id q) r) false false)
    as [(pre & x & post & Hl & _ & Hm & ->)|(_ & reason & -> & _)]; [|done].
  simpl. intros [= <-].
  destruct (list_rules_elem (gq_workspace_id q) r x Hwf) as (Hg & Hws & Hv);
    [rewrite Hl; set_solver|]. by split_and!.
Qed.

Section facts.
Context {G A : Type} `{HG : GrantLifecycleOk G} `{HA : AuditWriterOk A}.
Implicit Types (w : World G A).

Lemma auto_approve_outcome id ws by_ now w res w' :
  wf w → requests_wf (w_requests w) → rules_wf (w_rules w) →
  auto_approve_grant_request id ws by_ now w = (Ok res, w') →
  not_decided w w' res ∨
  ∃ q g b rule, approved_ok id ws by_ (Some ("auto_approval_rule:" ^+ aar_rule_id rule)) now
      "grant_request_auto_approved" w w' res q g b ∧
    gdr_auto_approval_rule_id res = Some (aar_rule_id rule) ∧
    aer_rule (evaluate_auto_approval q (w_rules w)) = Some rule.
Proof.
  intros Hw Hr Hru. unfold auto_approve_grant_request.
  rewrite (bind_run _ _ w (lookup_grant_request id ws w) w) by done.
  destruct (lookup_grant_request id ws w) as [q|] eqn:Eq; [|intros [= <- <-]; by left].
  apply lookup_grant_request_Some in Eq as [Hq Hws].
  destruct (proj2 Hr id q Hq) as [Hid _].
  rewrite (bind_run _ _ w (evaluate_auto_approval q (w_rules w)) w) by done. cbv zeta.
  destruct (aer_decision _ == _) eqn:Edec; cbn [negb]; [|intros [= <- <-]; by left].
  destruct (aer_rule (evaluate_auto_approval q (w_rules w))) as [rule|] eqn:Erule;
    [|intros [= <- <-]; by left].
  rewrite Hid, Hws.
  destruct (approve_grant_request id ws by_ (Some ("auto_approval_rule:" ^+ aar_rule_id rule)) now
    "grant_request_auto_approved" "grant_request_auto_approved" "auto_approve_grant_request" w)
    as [[res0|e] w0] eqn:E; [|unfold mbind, M_bind; rewrite E; done].
  rewrite (bind_run _ _ _ _ _ E). intros [= <- <-].
  destruct (approve_outcome _ _ _ _ _ _ _ _ _ _ _ Hw Hr E)
    as [(?&?&?&?&?)|(q' & g & b & Hok)]; [left; by split_and!|].
  right. destruct Hok as [Hp [Hst Hg] Hsto Hoth Hfr Hgr Hgw Hb Hin Hl].
  assert (q' = q) as -> by (destruct Hp; congruence).
  exists q, g, b, rule. split; [|by rewrite Hst]. by constructor.
Qed.

(** A rule approves only within itself and within the bounds: an automatic
    approval rests on a stored, valid, active rule of the caller's workspace for
    the request's target; every access a granted scope allows, one of the rule's
    scopes allows too (and, as for any issuance, an issuable bound does); the
    grant expires within the rule's TTL; and the request names the rule as its
    reason. Anything else leaves requests and grants as they were. *)
Theorem auto_approve_within_rule id ws by_ now w res w' :
  wf w → requests_wf (w_requests w) → rules_wf (w_rules w) →
  auto_approve_grant_request id ws by_ now w = (Ok res, w') →
  not_decided w w' res ∨
  ∃ q g b rule, approved_ok id ws by_ (Some ("auto_approval_rule:" ^+ aar_rule_id rule)) now
      "grant_request_auto_approved" w w' res q g b ∧
    gdr_auto_approval_rule_id res = Some (aar_rule_id rule) ∧
    get_rule (aar_rule_id rule) (w_rules w) = Some rule ∧ aar_workspace_id rule = ws ∧
    aar_status rule = "active" ∧ aar_target_agent_id rule = g_agent_id g ∧
    (∀ s action resource, s ∈ g_scopes g → scope_covers s action resource = true →
       (∃ allowed, allowed ∈ aar_allowed_scopes rule ∧ scope_covers allowed action resource = true) ∧
       ∃ bound, bound ∈ ab_scopes b ∧ scope_covers bound action resource = true) ∧
    (∃ e, g_expires_at g = Some e ∧ e ≤ now + seconds (aar_max_ttl_seconds rule)).
Proof.
  intros Hw Hr Hru E.
  destruct (auto_approve_outcome _ _ _ _ _ _ _ Hw Hr Hru E)
    as [?|(q & g & b & rule & Hok & Hid & He)]; [by left|right].
  destruct (would_approve_rule _ _ _ Hru He) as (_ & Hget & Hrws & Hval & (Hact & Htgt) & Hcov & Httl).
  exists q, g, b, rule. split; [done|].
  destruct Hok as [(_ & _ & Hws) _ _ _ _ _ (_ & Hag & Hsc & _ & Hexp) _ Hin _].
  split_and!; [done|done|congruence|done|congruence| |].
  - intros s action resource Hs Hc. destruct (Hin s Hs) as (Hv & bd & Hbd & Hbv & Hsub).
    rewrite Hsc in Hs. destruct (Hcov s Hs) as (al & Hal & Has). split.
    + exists al. split; [done|]. apply (subsumes_covers al s); try done.
      by apply (valid_rule_scopes rule).
    + exists bd. split; [done|]. by apply (subsumes_covers bd s).
  - eexists. split; [exact Hexp|]. unfold seconds. lia.
Qed.
End facts.

(** ** Witnesses *)

Definition sample_rule (ttl : Z) : AutoApprovalRule :=
  mkAutoApprovalRule "rule_1" "ws" "docs" "agent" ["read:repo/docs/*"] ttl "active" "op" 0 None None.
Definition ruled_world (ttl : Z) : World InMemoryGrantRepository InMemoryAuditWriter :=
  set_rules (mkRules [("rule_1", sample_rule ttl)]) (asking_world "read:repo/docs/b").
Lemma ruled_world_wf ttl : 0 < ttl →
  wf (ruled_world ttl) ∧ requests_wf (w_requests (ruled_world ttl)) ∧
  rules_wf (w_rules (ruled_world ttl)).
Proof.
  intros Httl. destruct (asking_world_wf "read:repo/docs/b") as [Hw Hr]. split_and!; [done|done|].
  split; [apply NoDup_singleton|]. intros id x. unfold get_rule. simpl. case_decide; [|done].
  intros [= <-]. split; [done|]. unfold _validate_rule. simpl.
  by rewrite (proj2 (Z.leb_gt _ _) Httl).
Qed.

Lemma rules_reachable_valid_witness :
  rules_wf (foldl (λ r op, run_rule_op op r) (mkRules [("rule_1", sample_rule 600)])
    [UpsertRule (sample_rule 900); DisableRule "rule_1" "ws" "op" 5; CreateRule (sample_rule 9)]).
Proof. apply rules_reachable_valid. by apply (ruled_world_wf 600). Defined.

Definition auto_result := auto_approve_grant_request "grq_1" "ws" "op" 5 (ruled_world 600).
Lemma auto_approve_within_rule_witness :
  gdr_status (result_or (decision_failed "") auto_result.1) = "approved" ∧
  ∃ g, gdr_grant (result_or (decision_failed "") auto_result.1) = Some g ∧
    ∃ e, g_expires_at g = Some e ∧ e ≤ 5 + seconds 600.
Proof.
  assert (Hs : gdr_status (result_or (decision_failed "") auto_result.1) = "approved")
    by (vm_compute; reflexivity).
  split; [exact Hs|]. destruct (ruled_world_wf 600 eq_refl) as (Hw & Hr & Hru).
  destruct (auto_approve_within_rule "grq_1" "ws" "op" 5 (ruled_world 600)
    (result_or (decision_failed "") auto_result.1) auto_result.2 Hw Hr Hru)
    as [[Hf _]|(q & g & b & rule & Hok & Hid & Hget & _ & _ & _ & _ & Hexp)].
  - vm_compute. reflexivity.
  - rewrite Hs in Hf. discriminate Hf.
  - exists g. split; [apply Hok|].
    assert (rule = sample_rule 600) as ->; [|exact Hexp].
    revert Hget. unfold get_rule. simpl. case_decide; congruence.
Defined.
