(* ===== verification/AuditQuery.v ===== *)
(** * Reading the audit trail ([src/vinctor_service/in_memory.py], [audit_http.py])

    The workspace-scoped audit filter, the reference implementation that the
    SQL backends push down, and the pages the HTTP handler cuts from it: a
    snapshot event fixes what a walk reads and a "before" event where it is. *)
From S2P Require Import Prelude PyStr PyDict PyTime Models Enforce CoreAudit.

(** [enumerate(l, start)] *)
Fixpoint enumerate {A} (start : Z) (l : list A) : list (Z * A) :=
  match l with
  | [] => []
  | x :: l' => (start, x) :: enumerate (start + 1) l'
  end.
(** [l[i:]], where a negative [i] counts from the end. *)
Definition slice_from {A} (i : Z) (l : list A) : list A :=
  if i <? 0 then drop (Z.to_nat (Z.max 0 (Z.of_nat (length l) + i))) l else drop (Z.to_nat i) l.

(** [InvalidAuditCursorError], a [ValueError]. *)
Definition InvalidAuditCursorError : pyexc := ValueError "invalid cursor".

Record AuditFilter := mkAuditFilter {
  af_event_class : option string;
  af_event_type : option string;
  af_grant_ref : option string;
  af_boundary_id : option string;
  af_agent_id : option string;
  af_request_id : option string;
  af_reason_code : option string;
  af_enforcing_principal : option string;
  af_subject_token_verified : option bool
}.

(** [wanted is not None and actual != wanted] *)
Definition rejects {A} `{EqDecision A} (wanted : option A) (actual : A) : bool :=
  match wanted with Some x => negb (bool_decide (actual = x)) | None => false end.
(** The same where the event's field may itself be [None]. *)
Definition rejects_opt (wanted actual : option string) : bool :=
  match wanted with Some x => negb (bool_decide (actual = Some x)) | None => false end.

Definition _audit_event_matches (event : AuditEvent) (f : AuditFilter) : bool :=
  if rejects (af_event_class f) (e_event_class event) then false
  else if rejects (af_agent_id f) (e_agent_id event) then false
  else if rejects (af_event_type f) (e_event_type event) then false
  else if rejects (af_grant_ref f) (e_grant_ref event) then false
  else if rejects_opt (af_boundary_id f) (e_boundary_id event) then false
  else if rejects_opt (af_reason_code f) (e_reason_code event) then false
  else if rejects_opt (af_enforcing_principal f) (e_enforcing_principal event) then false
  else if rejects (af_subject_token_verified f) (e_subject_token_verified event) then false
  else match af_request_id f with
       | None => true
       | Some request_id =>
           (e_resource event == "grant_request/" ^+ request_id) || (e_grant_ref event == request_id)
       end.

Definition get_audit_event (event_id : string) (events : list AuditEvent) : option AuditEvent :=
  List.find (λ event, e_event_id event == event_id) events.

Definition audit_event_sequences (workspace_id : string) (event_ids : list string)
    (events : list AuditEvent) : dict string Z :=
  foldl (λ d se,
    if (e_workspace_id se.2 == workspace_id) && existsb (String.eqb (e_event_id se.2)) event_ids
    then dset (e_event_id se.2) se.1 d else d) [] (enumerate 1 events).

(** The position of an event of the workspace, from 1. *)
Definition position_of (workspace_id event_id : string) (events : list AuditEvent) : option Z :=
  fst <$> List.find (λ pe, (e_event_id pe.2 == event_id) && (e_workspace_id pe.2 == workspace_id))
    (enumerate 1 events).
(** A cursor that names no event of the workspace is refused. *)
Definition cursor_position (workspace_id : string) (event_id : option string)
    (events : list AuditEvent) : result (option Z) :=
  match event_id with
  | None => Ok None
  | Some id =>
      match position_of workspace_id id events with
      | None => Raise InvalidAuditCursorError
      | Some position => Ok (Some position)
      end
  end.

Definition list_filtered (workspace_id : string) (f : AuditFilter)
    (snapshot_event_id before_event_id : option string) (limit : option Z)
    (events : list AuditEvent) : result (list AuditEvent) :=
  _ ← validate_audit_event_class (af_event_class f);
  if bool_decide (is_Some before_event_id) && bool_decide (snapshot_event_id = None)
  then Raise InvalidAuditCursorError
  else
    snapshot_position ← cursor_position workspace_id snapshot_event_id events;
    before_position ← cursor_position workspace_id before_event_id events;
    if match snapshot_position, before_position with
       | Some s, Some b => s <? b
       | _, _ => false
       end
    then Raise InvalidAuditCursorError
    else
      let snapshot_bound := default (Z.of_nat (length events)) snapshot_position in
      let before_bound := default (Z.of_nat (length events) + 1) before_position in
      let matched := map snd (List.filter (λ pe,
        (pe.1 <=? snapshot_bound) && (pe.1 <? before_bound)
        && (e_workspace_id pe.2 == workspace_id) && _audit_event_matches pe.2 f)
        (enumerate 1 events)) in
      Ok match limit with
         | Some limit => slice_from (- limit) matched
         | None => matched
         end.

(** ** Pages ([handle_v1_audit_events_http] with [page=true]) *)

Record AuditPage := mkAuditPage {
  pg_events : list (AuditEvent * Z);
  pg_snapshot_event_id : option string;
  pg_next_before_event_id : option string
}.

(** What a page shows of the [limit + 1] events that were read. *)
Definition page_has_more (limit : Z) (found : list AuditEvent) : bool :=
  limit <? Z.of_nat (length found).
Definition page_events (limit : Z) (found : list AuditEvent) : list AuditEvent :=
  if page_has_more limit found then slice_from (- limit) found else found.
Definition with_sequence (sequences : dict string Z) (event : AuditEvent) : result (AuditEvent * Z) :=
  match dget (e_event_id event) sequences with
  | Some sequence => Ok (event, sequence)
  | None => Raise (KeyError (e_event_id event))
  end.
Definition page_of (limit : Z) (snapshot_event_id : option string) (found : list AuditEvent)
    (sequences : dict string Z) : result AuditPage :=
  let events := page_events limit found in
  bodies ← mapM (with_sequence sequences) events;
  Ok (mkAuditPage bodies
        match snapshot_event_id with Some s => Some s | None => e_event_id <$> last events end
        (if page_has_more limit found then e_event_id <$> head events else None)).
Definition audit_page (workspace_id : string) (f : AuditFilter)
    (snapshot_event_id before_event_id : option string) (limit : Z) (events : list AuditEvent) :
    result AuditPage :=
  found ← list_filtered workspace_id f snapshot_event_id before_event_id (Some (limit + 1)) events;
  page_of limit snapshot_event_id found
    (audit_event_sequences workspace_id (map e_event_id (page_events limit found)) events).

(** ** Specification *)

(** The workspace's events that the filter selects. *)
Definition selects (workspace_id : string) (f : AuditFilter) (e : AuditEvent) : bool :=
  (e_workspace_id e == workspace_id) && _audit_event_matches e f.
Definition selected (workspace_id : string) (f : AuditFilter) (events : list AuditEvent) :
    list AuditEvent := List.filter (selects workspace_id f) events.
Definition ids_unique (events : list AuditEvent) : Prop := NoDup (e_event_id <$> events).

Lemma selected_app ws f l1 l2 : selected ws f (l1 ++ l2) = selected ws f l1 ++ selected ws f l2.
Proof. apply List.filter_app. Qed.

Lemma filter_below {A} (p : A → bool) (bound start : Z) (l : list A) :
  map snd (List.filter (λ pe, (pe.1 <=? bound) && p pe.2) (enumerate start l)) =
  List.filter p (take (Z.to_nat (bound - start + 1)) l).
Proof.
  revert start. induction l as [|x l IH]; intros start; simpl; [by rewrite take_nil|].
  destruct (Z.leb_spec start bound) as [Hle|Hgt]; simpl.
  - replace (Z.to_nat (bound - start + 1)) with (S (Z.to_nat (bound - (start + 1) + 1))) by lia.
    simpl. destruct (p x); simpl; by rewrite IH.
  - rewrite IH. replace (Z.to_nat (bound - (start + 1) + 1)) with 0%nat by lia.
    by replace (Z.to_nat (bound - start + 1)) with 0%nat by lia.
Qed.

Lemma find_enumerate {A} (p : A → bool) start (pre post : list A) x :
  existsb p pre = false → p x = true →
  List.find (λ pe, p pe.2) (enumerate start (pre ++ x :: post)) =
    Some (start + Z.of_nat (length pre), x).
Proof.
  revert start. induction pre as [|y pre IH]; intros start Hpre Hx; simpl in *.
  - rewrite Hx, Z.add_0_r. done.
  - apply orb_false_iff in Hpre as [-> Hpre]. rewrite IH by done. do 2 f_equal. lia.
Qed.

(** The position of an event, when ids are unique. *)
Lemma position_of_split ws pre e post :
  ids_unique (pre ++ e :: post) → e_workspace_id e = ws →
  position_of ws (e_event_id e) (pre ++ e :: post) = Some (Z.of_nat (length pre) + 1).
Proof.
  intros Hu Hws. unfold position_of.
  rewrite (find_enumerate (λ x, (e_event_id x == e_event_id e) && (e_workspace_id x == ws))).
  - simpl. f_equal. lia.
  - apply not_true_iff_false. intros (x & Hx & Heq)%existsb_exists_elem. bool_prop.
    unfold ids_unique in Hu. rewrite fmap_app, fmap_cons in Hu.
    apply NoDup_app in Hu as (_ & Hdis & _). apply (Hdis (e_event_id x)).
    + apply list_elem_of_fmap. eauto.
    + rewrite elem_of_cons. by left.
  - by rewrite Hws, !eqb_refl.
Qed.

(** What the filter answers, in terms of prefixes of the log. *)
Definition last_n {A} (limit : option Z) (l : list A) : list A :=
  match limit with Some n => slice_from (- n) l | None => l end.

Lemma bounds_min (events : list AuditEvent) ws f (s b : Z) :
  map snd (List.filter (λ pe, (pe.1 <=? s) && (pe.1 <? b) && (e_workspace_id pe.2 == ws)
      && _audit_event_matches pe.2 f) (enumerate 1 events)) =
  selected ws f (take (Z.to_nat (Z.min s (b - 1))) events).
Proof.
  unfold selected. rewrite <-(Z.add_simpl_r (Z.min s (b - 1)) 1) at 1.
  replace (Z.to_nat (Z.min s (b - 1) + 1 - 1)) with (Z.to_nat (Z.min s (b - 1) - 1 + 1)) by lia.
  rewrite <-filter_below. f_equal. apply filter_ext. intros [i x]. simpl. unfold selects.
  rewrite !andb_assoc. do 2 f_equal.
  destruct (Z.leb_spec i s), (Z.ltb_spec i b), (Z.leb_spec i (Z.min s (b - 1))); try done; lia.
Qed.

(** *** Sequence numbers *)

Definition sequence_step (ws : string) (ids : list string) (d : dict string Z)
    (se : Z * AuditEvent) : dict string Z :=
  if (e_workspace_id se.2 == ws) && existsb (String.eqb (e_event_id se.2)) ids
  then dset (e_event_id se.2) se.1 d else d.

Lemma sequences_absent ws ids k start d events :
  k ∉ (e_event_id <$> events) →
  dget k (foldl (sequence_step ws ids) d (enumerate start events)) = dget k d.
Proof.
  revert start d. induction events as [|e events IH]; intros start d Hk; simpl; [done|].
  rewrite fmap_cons, not_elem_of_cons in Hk. destruct Hk as [Hne Hk]. rewrite IH by done.
  unfold sequence_step. simpl. destruct (_ && _); [by rewrite dget_dset_ne|done].
Qed.
Lemma sequences_present ws ids start d pre e post :
  ids_unique (pre ++ e :: post) → e_workspace_id e = ws → e_event_id e ∈ ids →
  dget (e_event_id e) (foldl (sequence_step ws ids) d (enumerate start (pre ++ e :: post))) =
    Some (start + Z.of_nat (length pre)).
Proof.
  revert start d. induction pre as [|x pre IH]; intros start d Hu Hws Hin; simpl.
  - rewrite sequences_absent by by apply NoDup_cons in Hu as [? _]. unfold sequence_step. simpl.
    rewrite Hws, eqb_refl. assert (existsb (String.eqb (e_event_id e)) ids = true) as ->.
    { apply existsb_exists_elem. exists (e_event_id e). by rewrite eqb_refl. }
    cbn [andb]. rewrite dget_dset_eq. f_equal. lia.
  - apply NoDup_cons in Hu as [_ Hu]. rewrite IH by done. f_equal. lia.
Qed.

(** Every event of the workspace that is asked for is numbered by its place in
    the log. *)
Lemma sequences_numbered ws (page : list AuditEvent) events :
  ids_unique events → (∀ e, e ∈ page → e ∈ events ∧ e_workspace_id e = ws) →
  ∃ bodies, mapM (with_sequence (audit_event_sequences ws (map e_event_id page) events)) page
      = Ok bodies ∧ map fst bodies = page ∧
    Forall (λ en, events !! Z.to_nat (en.2 - 1) = Some en.1 ∧ 1 ≤ en.2) bodies.
Proof.
  intros Hu Hpage. set (d := audit_event_sequences ws _ events).
  assert (Hd : ∀ e, e ∈ page → ∃ n : Z, dget (e_event_id e) d = Some n ∧
    events !! Z.to_nat (n - 1) = Some e ∧ 1 ≤ n).
  { intros e He. destruct (Hpage e He) as [Hin Hws].
    apply list_elem_of_split in Hin as (pre & post & Hl). exists (1 + Z.of_nat (length pre)).
    split; [|split; [|lia]].
    - unfold d, audit_event_sequences. fold (sequence_step ws (map e_event_id page)).
      rewrite Hl in Hu |- *. apply sequences_present; [done|done|].
      change (map e_event_id page) with (e_event_id <$> page). by apply list_elem_of_fmap_2.
    - rewrite Hl. replace (Z.to_nat _) with (length pre) by lia. by rewrite list_lookup_middle. }
  clearbody d. clear Hpage. induction page as [|e page IH].
  - exists []. by split_and!.
  - destruct (Hd e) as (n & Hn & Hat & Hpos); [left|].
    destruct IH as (bodies & Hm & Hfst & Hall); [intros x Hx; apply Hd; by right|].
    exists ((e, n) :: bodies). split_and!; [|simpl; by f_equal|by constructor].
    assert (Hseq : with_sequence d e = Ok (e, n)) by (unfold with_sequence; by rewrite Hn).
    cbn [mapM]. rewrite Hseq. unfold mbind, result_bind in *. by rewrite Hm.
Qed.

(** *** Pages *)

Lemma slice_from_neg {A} (n : Z) (l : list A) :
  0 < n → slice_from (- n) l = drop (length l - Z.to_nat n) l.
Proof.
  intros Hn. unfold slice_from. rewrite (proj2 (Z.ltb_lt _ _)) by lia. f_equal. lia.
Qed.

Lemma last_drop_lt {A} (k : nat) (l : list A) : (k < length l)%nat → last (drop k l) = last l.
Proof.
  intros Hk. rewrite <-(take_drop k l) at 2. rewrite last_app.
  destruct (last (drop k l)) eqn:E; [done|].
  apply last_None, (f_equal length) in E. rewrite length_drop in E. simpl in E. lia.
Qed.

Section reads.
Context (ws : string) (f : AuditFilter).
Context (Hclass : validate_audit_event_class (af_event_class f) = Ok tt).

Lemma list_filtered_first limit events :
  list_filtered ws f None None limit events = Ok (last_n limit (selected ws f events)).
Proof.
  unfold list_filtered. rewrite Hclass. simpl. unfold mbind, result_bind. simpl.
  rewrite bounds_min, firstn_all2 by lia. by destruct limit.
Qed.

Lemma list_filtered_next limit pre b post s :
  ids_unique (pre ++ b :: post) → e_workspace_id b = ws → e_workspace_id s = ws →
  s ∈ b :: post →
  list_filtered ws f (Some (e_event_id s)) (Some (e_event_id b)) limit (pre ++ b :: post) =
    Ok (last_n limit (selected ws f pre)).
Proof.
  intros Hu Hb Hs Hin. unfold list_filtered. rewrite Hclass. simpl. unfold mbind, result_bind.
  rewrite position_of_split by done.
  assert (∃ n : Z, position_of ws (e_event_id s) (pre ++ b :: post) = Some n ∧
    Z.of_nat (length pre) + 1 ≤ n) as (n & -> & Hn).
  { apply list_elem_of_split in Hin as (q & r & Hl). rewrite Hl, app_assoc in Hu |- *.
    eexists. split; [by apply position_of_split|]. rewrite length_app. lia. }
  simpl. rewrite (proj2 (Z.ltb_ge _ _)) by lia.
  rewrite bounds_min. replace (Z.to_nat _) with (length pre) by lia.
  rewrite take_app_length. by destruct limit.
Qed.

(** One page of what is left to read: all of it, or its last [limit] events and
    where to continue. *)
Lemma audit_page_spec snapshot before limit events rem :
  0 < limit → ids_unique events → (∀ e, e ∈ rem → e ∈ events ∧ e_workspace_id e = ws) →
  list_filtered ws f snapshot before (Some (limit + 1)) events =
    Ok (last_n (Some (limit + 1)) rem) →
  ∃ bodies sn next, audit_page ws f snapshot before limit events = Ok (mkAuditPage bodies sn next) ∧
    Forall (λ en, events !! Z.to_nat (en.2 - 1) = Some en.1 ∧ 1 ≤ en.2) bodies ∧
    sn = match snapshot with Some s => Some s | None => e_event_id <$> last rem end ∧
    ((next = None ∧ map fst bodies = rem) ∨
     ∃ rem' b tl, rem = rem' ++ b :: tl ∧ map fst bodies = b :: tl ∧ next = Some (e_event_id b) ∧
       (0 < length rem' < length rem)%nat).
Proof.
  intros Hl Hu Hin Hf. unfold audit_page. rewrite Hf. unfold mbind at 1, result_bind at 1.
  unfold last_n. rewrite slice_from_neg by lia.
  set (found := drop _ rem). unfold page_of, page_has_more. set (page := page_events limit found).
  assert (Hpage : page = drop (length rem - Z.to_nat limit) rem).
  { unfold page, found, page_events, page_has_more. rewrite length_drop. destruct (Z.ltb_spec limit
      (Z.of_nat (length rem - (length rem - Z.to_nat (limit + 1))))).
    - rewrite slice_from_neg, length_drop, drop_drop by lia. f_equal. lia.
    - f_equal. lia. }
  destruct (sequences_numbered ws page events Hu) as (bodies & Hm & Hfst & Hall).
  { intros e He. apply Hin. rewrite Hpage in He.
    rewrite <-(take_drop (length rem - Z.to_nat limit) rem). apply elem_of_app. by right. }
  clearbody page. cbv zeta. rewrite Hm. unfold mbind, result_bind.
  eexists _, _, _. split; [reflexivity|]. split; [done|]. split.
  - destruct snapshot; [done|]. f_equal. subst page.
    destruct rem as [|x rem]; [by rewrite drop_nil|]. apply last_drop_lt. simpl. lia.
  - unfold found. rewrite length_drop. destruct (Z.ltb_spec limit
      (Z.of_nat (length rem - (length rem - Z.to_nat (limit + 1))))) as [Hmore|Hall'].
    + right. rewrite Hfst. destruct page as [|b tl].
      { symmetry in Hpage. apply (f_equal length) in Hpage. rewrite length_drop in Hpage.
        simpl in Hpage. lia. }
      exists (take (length rem - Z.to_nat limit) rem), b, tl.
      split_and!; [by rewrite Hpage, take_drop|done|done|..]; rewrite length_take; lia.
    + left. split; [done|]. rewrite Hfst, Hpage.
      replace (length rem - Z.to_nat limit)%nat with 0%nat by lia. done.
Qed.

(** *** The pages of a growing log *)

Lemma selected_split events rem' b tl :
  selected ws f events = rem' ++ b :: tl →
  ∃ pre post, events = pre ++ b :: post ∧ selected ws f pre = rem' ∧
    selected ws f post = tl ∧ e_workspace_id b = ws.
Proof.
  revert rem'. induction events as [|e events IH]; intros rem'; simpl.
  { intros Hl. by destruct rem'. }
  unfold selected in *. simpl. destruct (selects ws f e) eqn:Es.
  - destruct rem' as [|x rem']; intros [= -> Hl].
    + exists [], events. split_and!; [done|done|done|].
      unfold selects in Es. by bool_prop.
    + destruct (IH rem' Hl) as (pre & post & -> & Hpre & Hpost & Hb). exists (x :: pre), post.
      split_and!; [done| |done|done]. simpl. by rewrite Es, Hpre.
  - intros Hl. destruct (IH rem' Hl) as (pre & post & -> & Hpre & Hpost & Hb).
    exists (e :: pre), post. split_and!; [done| |done|done]. simpl. by rewrite Es, Hpre.
Qed.
Lemma selected_elem e events : e ∈ selected ws f events → e ∈ events ∧ e_workspace_id e = ws.
Proof.
  unfold selected, selects. rewrite list_elem_of_In, filter_In, <-list_elem_of_In.
  intros [? ?]. by bool_prop.
Qed.

(** An event of the old log keeps its number in the grown one. *)
Lemma number_stable (old extra : list AuditEvent) i e :
  ids_unique (old ++ extra) → e ∈ old → (old ++ extra) !! i = Some e → old !! i = Some e.
Proof.
  intros Hu He Hi. apply list_elem_of_lookup_1 in He as [j Hj].
  assert ((e_event_id <$> old ++ extra) !! i = (e_event_id <$> old ++ extra) !! j) as Hij.
  { rewrite !list_lookup_fmap, Hi, lookup_app_l by by eapply lookup_lt_Some. by rewrite Hj. }
  assert (i = j) as ->; [|done]. eapply NoDup_lookup; [exact Hu| |rewrite <-Hij];
    rewrite list_lookup_fmap, Hi; done.
Qed.

Context (limit : Z) (Hlimit : 0 < limit) (logs : nat → list AuditEvent).
Context (Hgrow : ∀ k, logs k `prefix_of` logs (S k)) (Huniq : ∀ k, ids_unique (logs k)).

Lemma logs_grow k : logs 0%nat `prefix_of` logs k.
Proof. induction k as [|k IH]; [done|]. by etrans. Qed.

(** The numbered events of a page that belong to the log the walk started from. *)
Lemma bodies_stable k bodies :
  (∀ e, e ∈ map fst bodies → e ∈ logs 0%nat) →
  Forall (λ en, logs k !! Z.to_nat (en.2 - 1) = Some en.1 ∧ 1 ≤ en.2) bodies →
  Forall (λ en, logs 0%nat !! Z.to_nat (en.2 - 1) = Some en.1 ∧ 1 ≤ en.2) bodies.
Proof.
  intros Hin Hall. destruct (logs_grow k) as [extra Hk]. rewrite Forall_forall in Hall |- *.
  intros [e n] Hen. destruct (Hall _ Hen) as [Hat Hn]. split; [|done]. simpl in *.
  rewrite Hk in Hat. apply (number_stable _ extra); [rewrite <-Hk; apply Huniq| |done].
  apply Hin. change (map fst bodies) with (fst <$> bodies). by apply (list_elem_of_fmap_2 fst) in Hen.
Qed.
End reads.

(** The audit filter never crosses tenants and never invents: every answer
    is a run of the log, in order, of events of the asked workspace that match
    the filter; a positive limit bounds it and keeps the newest matches; a limit
    of zero bounds nothing (the slice [-0:] is everything), so it answers like
    no limit at all. *)
Theorem list_filtered_scoped ws f snapshot before limit events l :
  list_filtered ws f snapshot before limit events = Ok l →
  (∃ n, l = last_n limit (selected ws f (take n events))) ∧
  l `sublist_of` events ∧
  (∀ e, e ∈ l → e_workspace_id e = ws ∧ _audit_event_matches e f = true) ∧
  (∀ n, limit = Some n → 0 < n → Z.of_nat (length l) ≤ n) ∧
  (limit = Some 0 → list_filtered ws f snapshot before None events = Ok l).
Proof.
  assert (Hrun : list_filtered ws f snapshot before limit events = Ok l → ∃ n,
    l = last_n limit (selected ws f (take n events)) ∧
    list_filtered ws f snapshot before None events = Ok (selected ws f (take n events))).
  { unfold list_filtered. destruct (validate_audit_event_class _); [|done]. simpl.
    unfold mbind, result_bind. destruct (_ && bool_decide (snapshot = None)); [done|].
    destruct (cursor_position ws snapshot events) as [sp|]; [|done].
    destruct (cursor_position ws before events) as [bp|]; [|done].
    destruct (match sp with Some _ => _ | None => _ end); [done|].
    rewrite !bounds_min. intros [= <-]. eexists. split; [|reflexivity]. by destruct limit. }
  intros E. destruct (Hrun E) as (n & -> & Hall). clear Hrun E.
  assert (Hdrop : ∃ k, last_n limit (selected ws f (take n events)) =
      drop k (selected ws f (take n events)) ∧
    (∀ m, limit = Some m → 0 < m → k = (length (selected ws f (take n events)) - Z.to_nat m)%nat) ∧
    (limit = Some 0 → k = 0%nat)).
  { destruct limit as [m|]; [|exists 0%nat; by split_and!]. unfold last_n, slice_from.
    destruct (Z.ltb_spec (- m) 0); eexists; (split_and!; [reflexivity| |]).
    - intros m' [= <-] _. lia.
    - intros [= ->]. lia.
    - intros m' [= <-] ?. lia.
    - by intros [= ->]. }
  destruct Hdrop as (k & Hk & Hpos & Hzero). split_and!.
  - by exists n.
  - rewrite Hk. etrans; [apply sublist_drop|]. unfold selected.
    etrans; [|apply (sublist_take events n)].
    generalize (take n events). induction l as [|e l IH]; simpl; [done|].
    destruct (selects ws f e); by constructor.
  - intros e He. rewrite Hk in He. assert (e ∈ selected ws f (take n events)) as Hs.
    { rewrite <-(take_drop k (selected _ _ _)). apply elem_of_app. by right. }
    unfold selected, selects in Hs.
    rewrite list_elem_of_In, filter_In in Hs. destruct Hs as [_ Hs]. by bool_prop.
  - intros m -> Hm. rewrite Hk, (Hpos m eq_refl Hm), length_drop. lia.
  - intros ->. rewrite Hall, Hk, (Hzero eq_refl). done.
Qed.

(** ** Witnesses *)

Definition sample_event (id ws : string) : AuditEvent :=
  build_rejection_audit_event
    (mkRejectionInput "r" ws "agent" 1 EVENT_ACCESS_REJECTED "read" "a/b" None None None None None
       None None) id.
Definition any_event : AuditFilter := mkAuditFilter None None None None None None None None None.
Definition sample_log (k : nat) : list AuditEvent :=
  [sample_event "e1" "ws"; sample_event "e2" "other"; sample_event "e3" "ws"; sample_event "e4" "ws"]
  ++ match k with O => [] | _ => [sample_event "e5" "ws"] end.

Lemma list_filtered_scoped_witness :
  list_filtered "ws" any_event None None None (sample_log 0) =
    Ok [sample_event "e1" "ws"; sample_event "e3" "ws"; sample_event "e4" "ws"].
Proof.
  apply (list_filtered_scoped "ws" any_event None None (Some 0) (sample_log 0)); reflexivity.
Defined.
