(* ===== verification/Service.v ===== *)
(** * The service ([src/vinctor_service/in_memory.py])

    [InMemoryV1Service]: each method runs one of the components on the state the
    service holds, wired to the service's own registry, settings and tokens.
    The service is a state machine whose steps are the method calls; what holds
    of every reachable state, and what no sequence of calls can undo, is proved
    here for any grant repository and audit writer that keep their promises. *)
From S2P Require Import Prelude PyStr PyDict PyTime Scope Models Registry Enforce CoreAudit.
From S2P Require Import Sha256 Pop ServiceModels Repositories AuditWriter World V1Enforce.
From S2P Require Import Simulate Grants GrantRequests AutoApproval SubjectTokens.

Definition DEFAULT_SUBJECT_TOKEN_POP_SKEW_SECONDS : Z := 30.

(** [__post_init__]; duplicate references among the given grants raise.  The
    replay cache's caps are those the environment sets ([load_pop_replay_caps]). *)
Definition service_init (given_grants : list Grant) (registry : BoundaryRegistry)
    (audit_writer : InMemoryAuditWriter)
    (initial_bounds : dict (string * string) (list string)) (pop_replay_caps : Z * Z) (entropy : Entropy) :
    result (World InMemoryGrantRepository InMemoryAuditWriter) :=
  grant_repository ← grants_init given_grants;
  Ok {| w_grants := grant_repository; w_bounds := bounds_init initial_bounds;
        w_requests := mkRequests []; w_rules := mkRules []; w_tokens := mkTokens [];
        w_settings := mkSettings [] [] []; w_registry := registry;
        w_pop := Some (mkPopReplayCache [] pop_replay_caps.1 pop_replay_caps.2);
        w_throttle := mkThrottle AUTH_FAILURE_WINDOW_SECONDS [];
        w_audit := audit_writer; w_entropy := entropy |}.

Section service.
Context {G A : Type} `{GrantLifecycle G} `{AuditWriter A}.
Context (int_unicode : string → result Z).
Abbreviation W := (World G A).

(** What the contracts read of the service. *)
Definition own_registry (w : W) : BoundaryLookup :=
  mkBoundaryLookup (λ id, registry_get id (w_registry w)).
Definition own_settings (w : W) : SettingsLookup :=
  {| sl_is_boundary_required := λ ws agent, Ok (is_boundary_required ws agent (w_settings w));
     sl_is_subject_token_required := λ ws agent,
       Ok (is_subject_token_required ws agent (w_settings w));
     sl_is_pop_required := λ ws agent, Ok (is_pop_required ws agent (w_settings w)) |}.

Definition svc_enforce (request : V1EnforceRequest) (now : Z) : M W V1EnforceResponse := λ w,
  enforce_v1_contract request now (Some (own_registry w)) (Some (own_settings w)) w.
Definition svc_observe (request : V1ObserveRequest) (now : Z) : M W V1ObserveResponse := λ w,
  record_observation request now (Some (own_registry w)) w.
Definition svc_simulate (request : V1SimulateRequest) (now : Z) : M W V1SimulateResponse := λ w,
  simulate_v1_contract request now (Some (own_registry w)) (Some (own_settings w)) w.
Definition svc_delegated_enforce (request : V1DelegatedEnforceRequest) (now : Z)
    (pep_workspace_id : option string) (pop_skew_seconds : Z) : M W V1EnforceResponse := λ w,
  delegated_enforce_v1_contract int_unicode request now (Some (own_registry w)) pep_workspace_id
    (Some (store_lookup w)) (Some (own_settings w)) pop_skew_seconds w.
Definition svc_set_agent_issuable_scope_bounds (workspace_id agent_id : string)
    (scopes : list string) (max_ttl_seconds : option Z) (clear_max_ttl : bool) : M W unit :=
  zoom w_bounds set_bounds_store
    (set_bounds workspace_id agent_id scopes max_ttl_seconds clear_max_ttl).
Definition svc_approve_grant_request (request_id workspace_id decided_by : string)
    (decision_reason : option string) (now : Z) : M W GrantRequestDecisionResult :=
  approve_grant_request request_id workspace_id decided_by decision_reason now
    "grant_request_approved" "grant_request_approved" "approve_grant_request".

(** The methods that may change the service. *)
Inductive SvcOp :=
  | RecordAuthFailure (surface : string) (now : Z)
  | RegisterBoundary (registration : BoundaryRegistrationInput) (now : option Z)
      (boundary_id principal : option string) (clock : Z) (new_id : string)
  | DisableBoundary (boundary_id workspace_id : string) (now : option Z)
      (principal : option string) (clock : Z)
  | EnableBoundary (boundary_id workspace_id : string) (now : option Z)
      (principal : option string) (clock : Z)
  | SetAgentIssuableScopeBounds (workspace_id agent_id : string) (scopes : list string)
      (max_ttl_seconds : option Z) (clear_max_ttl : bool)
  | IssueGrant (request : GrantIssueRequest) (now : Z)
  | LookupGrant (grant_ref workspace_id : string)
  | ListGrants (workspace_id : string) (agent_id status : option string)
  | RevokeGrant (grant_ref workspace_id : string) (now : Z)
  | CreateGrantRequest (request : GrantRequestCreateRequest) (now : Z)
  | MintSubjectToken (request : MintRequest) (now : Z)
  | ApproveGrantRequest (request_id workspace_id decided_by : string)
      (decision_reason : option string) (now : Z)
  | RejectGrantRequest (request_id workspace_id decided_by : string)
      (decision_reason : option string) (now : Z)
  | CreateAutoApprovalRule (rule : AutoApprovalRule)
  | DisableAutoApprovalRule (rule_id workspace_id disabled_by : string) (now : Z)
  | AutoApproveGrantRequest (request_id workspace_id decided_by : string) (now : Z)
  | EnforceOp (request : V1EnforceRequest) (now : Z)
  | ObserveOp (request : V1ObserveRequest) (now : Z)
  | SimulateOp (request : V1SimulateRequest) (now : Z)
  | DelegatedEnforceOp (request : V1DelegatedEnforceRequest) (now : Z)
      (pep_workspace_id : option string) (pop_skew_seconds : Z).

(** The state after one call, whether it returned or raised. *)
Definition run_op (op : SvcOp) (w : W) : W :=
  match op with
  | RecordAuthFailure surface now => (record_auth_failure surface now w).2
  | RegisterBoundary registration now id principal clock new_id =>
      (on_registry (register_boundary registration now id principal clock new_id) w).2
  | DisableBoundary id ws now principal clock =>
      (on_registry (disable_boundary id ws now principal clock) w).2
  | EnableBoundary id ws now principal clock =>
      (on_registry (enable_boundary id ws now principal clock) w).2
  | SetAgentIssuableScopeBounds ws agent scopes ttl clear =>
      (svc_set_agent_issuable_scope_bounds ws agent scopes ttl clear w).2
  | IssueGrant request now => (issue_grant request now w).2
  | LookupGrant ref ws => (lookup_grant ref ws w).2
  | ListGrants ws agent status => (list_grants ws agent status w).2
  | RevokeGrant ref ws now => (revoke_grant ref ws now w).2
  | CreateGrantRequest request now => (create_grant_request request now w).2
  | MintSubjectToken request now => (mint_subject_token request now nullcontext w).2
  | ApproveGrantRequest id ws by_ reason now => (svc_approve_grant_request id ws by_ reason now w).2
  | RejectGrantRequest id ws by_ reason now => (reject_grant_request id ws by_ reason now w).2
  | CreateAutoApprovalRule rule => (on_rules (create_auto_approval_rule rule) w).2
  | DisableAutoApprovalRule id ws by_ now =>
      (on_rules (disable_auto_approval_rule id ws by_ now) w).2
  | AutoApproveGrantRequest id ws by_ now => (auto_approve_grant_request id ws by_ now w).2
  | EnforceOp request now => (svc_enforce request now w).2
  | ObserveOp request now => (svc_observe request now w).2
  | SimulateOp request now => (svc_simulate request now w).2
  | DelegatedEnforceOp request now pep_ws skew =>
      (svc_delegated_enforce request now pep_ws skew w).2
  end.

(** One call of some method. *)
Inductive svc_step : W → W → Prop :=
  | svc_call op w : svc_step w (run_op op w).
End service.

(** ** What every call preserves *)
Section facts.
Context {G A : Type} `{HG : GrantLifecycleOk G} `{HA : AuditWriterOk A}.
Implicit Types (w : World G A).

(** Every part is well-formed. *)
Record svc_wf w : Prop := {
  sw_grants : wf w;
  sw_requests : requests_wf (w_requests w);
  sw_rules : rules_wf (w_rules w);
  sw_tokens : dict_wf (_tokens_by_hash (w_tokens w));
  sw_registry : registry_ok (w_registry w)
}.

(** What the past fixes: events are only appended; a grant never disappears and
    never changes but to be revoked; a request never disappears and changes only
    by being decided, once; a rule never leaves its workspace; a token is what it
    was minted as. *)
Record evolves w w' : Prop := {
  ev_log : log w `prefix_of` log w';
  ev_grants ref g : grants w !! ref = Some g →
    grants w' !! ref = Some g ∨ grants w' !! ref = Some (revoked g);
  ev_requests id q : request_of w id = Some q →
    ∃ q', request_of w' id = Some q' ∧
      (q' = q ∨ gq_status q = "pending" ∧ gq_status q' ≠ "pending");
  ev_rules id x : get_rule id (w_rules w) = Some x →
    ∃ y, get_rule id (w_rules w') = Some y ∧ aar_workspace_id y = aar_workspace_id x;
  ev_tokens h t : tokens_get_by_hash h (w_tokens w) = Some t →
    tokens_get_by_hash h (w_tokens w') = Some t
}.

Definition advances w w' : Prop := svc_wf w → svc_wf w' ∧ evolves w w'.

Lemma revoked_twice g : revoked (revoked g) = revoked g.
Proof. done. Qed.

Lemma evolves_trans w1 w2 w3 : evolves w1 w2 → evolves w2 w3 → evolves w1 w3.
Proof.
  intros [L1 G1 Q1 R1 T1] [L2 G2 Q2 R2 T2]. split.
  - by etrans.
  - intros ref g Hg. destruct (G1 ref g Hg) as [Hg1|Hg1];
      destruct (G2 ref _ Hg1) as [Hg2|Hg2]; auto.
  - intros id q Hq. destruct (Q1 id q Hq) as (q1 & Hq1 & Hc1).
    destruct (Q2 id q1 Hq1) as (q2 & Hq2 & Hc2). exists q2. split; [done|].
    destruct Hc1 as [->|[Hp Hn]]; [done|]. destruct Hc2 as [->|[Hp2 _]]; [by right|done].
  - intros id x Hx. destruct (R1 id x Hx) as (y & Hy & Ey). destruct (R2 id y Hy) as (z & Hz & Ez).
    exists z. split; [done|congruence].
  - eauto.
Qed.
Lemma evolves_refl w : evolves w w.
Proof. split; [done|by left|eauto..]. Qed.

#[export] Instance advances_preorder : PreOrder advances.
Proof.
  split.
  - intros w Hw. split; [done|apply evolves_refl].
  - intros w1 w2 w3 H12 H23 Hw1. destruct (H12 Hw1) as [Hw2 E12]. destruct (H23 Hw2) as [Hw3 E23].
    split; [done|by eapply evolves_trans].
Qed.

Lemma advances_refl w : advances w w.
Proof. reflexivity. Qed.
Lemma advances_trans w1 w2 w3 : advances w1 w2 → advances w2 w3 → advances w1 w3.
Proof. apply transitivity. Qed.

(** A step that moves only the grants and the log. *)
Lemma advances_frame w w' :
  w_requests w' = w_requests w → w_rules w' = w_rules w → w_tokens w' = w_tokens w →
  w_registry w' = w_registry w → log w `prefix_of` log w' →
  (wf w → wf w' ∧ ∀ ref g, grants w !! ref = Some g →
    grants w' !! ref = Some g ∨ grants w' !! ref = Some (revoked g)) →
  advances w w'.
Proof.
  intros Hq Hr Ht Hb Hl Hg [Hw1 Hw2 Hw3 Hw4 Hw5]. destruct (Hg Hw1) as [Hwf Hgr]. split.
  - constructor; by rewrite ?Hq, ?Hr, ?Ht, ?Hb.
  - constructor; [done|done| | |]; unfold request_of; rewrite ?Hq, ?Hr, ?Ht; eauto.
Qed.
Lemma advances_same w w' :
  w_grants w' = w_grants w → w_requests w' = w_requests w → w_rules w' = w_rules w →
  w_tokens w' = w_tokens w → w_registry w' = w_registry w → log w `prefix_of` log w' →
  advances w w'.
Proof.
  intros Hg. intros. apply advances_frame; [done..|]. intros Hw. unfold wf, grants in *.
  rewrite Hg. auto.
Qed.

(** *** The elementary operations *)

Lemma advances_entropy {X} (m : M Entropy X) : keeps advances (on_entropy (G := G) (A := A) m).
Proof. intros w. unfold on_entropy, zoom. destruct (m _). by apply advances_same. Qed.
Lemma advances_throttle {X} (m : M _ X) : keeps advances (on_throttle (G := G) (A := A) m).
Proof. intros w. unfold on_throttle, zoom. destruct (m _). by apply advances_same. Qed.
Lemma advances_bounds {X} (m : M _ X) :
  keeps advances (zoom w_bounds (set_bounds_store (G := G) (A := A)) m).
Proof. intros w. unfold zoom. destruct (m _). by apply advances_same. Qed.
Lemma advances_pop {X} (m : M PopReplayCache X) x :
  keeps advances (on_pop_cache (G := G) (A := A) m x).
Proof.
  intros w. unfold on_pop_cache. destruct (w_pop w) as [c|]; [destruct (m c)|]; by apply advances_same.
Qed.
Lemma advances_write e : keeps advances (on_audit (G := G) (aw_write e)).
Proof.
  intros w. destruct (write_audit_run e w) as (r & a & E & Hl). rewrite E. apply advances_same; try done.
  unfold log at 2. simpl. rewrite Hl. destruct r; [by eexists|done].
Qed.
Lemma advances_rejection e : keeps advances (on_audit (G := G) (record_rejection e)).
Proof.
  intros w. destruct (record_rejection_run e (w_audit w)) as (b & a & E & Hl).
  unfold on_audit, zoom. rewrite E. apply advances_same; try done.
  unfold log at 2. simpl. rewrite Hl. destruct b; [by eexists|done].
Qed.
Lemma advances_get ref : keeps advances (on_grants (A := A) (gr_get_by_ref ref)).
Proof.
  intros w. unfold on_grants, zoom. destruct (gr_get_by_ref ref (w_grants w)) as [r g'] eqn:E.
  apply advances_frame; try done. intros Hw. destruct (gr_get_ok ref _ _ _ Hw E) as (Hwf & Hv & _).
  split; [exact Hwf|]. intros ref' g Hg. left. unfold grants. simpl. by rewrite Hv.
Qed.
Lemma advances_list ws agent status :
  keeps advances (on_grants (A := A) (gr_list_grants_for_workspace ws agent status)).
Proof.
  intros w. unfold on_grants, zoom.
  destruct (gr_list_grants_for_workspace ws agent status (w_grants w)) as [r g'] eqn:E.
  apply advances_frame; try done. intros Hw.
  destruct (gr_list_ok ws agent status _ _ _ Hw E) as (Hwf & Hv & _).
  split; [exact Hwf|]. intros ref' g Hg. left. unfold grants. simpl. by rewrite Hv.
Qed.
Lemma advances_insert x : keeps advances (on_grants (A := A) (gr_insert x)).
Proof.
  intros w. unfold on_grants, zoom. destruct (gr_insert x (w_grants w)) as [r g'] eqn:E.
  apply advances_frame; try done. intros Hw. destruct (gr_insert_ok x _ _ _ Hw E) as (Hwf & Hv & _).
  split; [exact Hwf|]. intros ref' g Hg. left. unfold grants in *. simpl.
  destruct r as [u|e]; [|by rewrite Hv]. destruct Hv as [Hn ->].
  rewrite lookup_insert_ne; [done|]. intros <-. congruence.
Qed.
Lemma advances_revoke ref ws : keeps advances (on_grants (A := A) (gr_revoke ref ws)).
Proof.
  intros w. unfold on_grants, zoom. destruct (gr_revoke ref ws (w_grants w)) as [r g'] eqn:E.
  apply advances_frame; try done. intros Hw. destruct (gr_revoke_ok ref ws _ _ _ Hw E) as (Hwf & Hv).
  split; [exact Hwf|]. intros ref' g Hg. unfold grants in *. simpl.
  destruct r as [[x|]|e]; [|left; by rewrite (proj1 Hv)|left; by rewrite Hv].
  destruct Hv as (x0 & Hx0 & _ & -> & ->). destruct (decide (ref = ref')) as [<-|Hne].
  - right. rewrite lookup_insert_eq. congruence.
  - left. by rewrite lookup_insert_ne.
Qed.
Lemma advances_token t : keeps advances (on_tokens (G := G) (A := A) (tokens_insert t)).
Proof.
  intros w [Hw1 Hw2 Hw3 Hw4 Hw5]. unfold on_tokens, zoom, tokens_insert.
  destruct (din _ _) eqn:Ed; simpl; [by split; [|split; [|left|..]; eauto]|].
  split; [constructor; try done; by apply dset_wf|].
  constructor; [done|by left|eauto|eauto|]. intros h t' Ht. apply din_false in Ed.
  unfold tokens_get_by_hash in *. simpl. rewrite dget_dset_ne; [done|]. intros <-. congruence.
Qed.
Lemma advances_registry {X} (m : M BoundaryRegistry X) :
  (∀ r, registry_ok r → registry_ok (m r).2) →
  keeps advances (on_registry (G := G) (A := A) m).
Proof.
  intros Hm w [Hw1 Hw2 Hw3 Hw4 Hw5]. unfold on_registry, zoom. specialize (Hm _ Hw5).
  destruct (m (w_registry w)) as [r b]. split; [by constructor|].
  constructor; [done|by left|eauto..].
Qed.
Lemma advances_rules {X} (m : M InMemoryAutoApprovalRuleRepository X) :
  (∀ r, rules_wf r → rules_wf (m r).2 ∧ ∀ id x, get_rule id r = Some x →
     ∃ y, get_rule id (m r).2 = Some y ∧ aar_workspace_id y = aar_workspace_id x) →
  keeps advances (on_rules (G := G) (A := A) m).
Proof.
  intros Hm w [Hw1 Hw2 Hw3 Hw4 Hw5]. unfold on_rules, zoom. destruct (Hm _ Hw3) as [Hwf Hk].
  destruct (m (w_rules w)) as [r b]. split; [by constructor|].
  constructor; [done|by left|eauto|exact Hk|eauto].
Qed.
Lemma run_rule_op_kept op r :
  rules_wf r → rules_wf (run_rule_op op r) ∧ ∀ id x, get_rule id r = Some x →
    ∃ y, get_rule id (run_rule_op op r) = Some y ∧ aar_workspace_id y = aar_workspace_id x.
Proof.
  intros Hr. destruct (run_rule_op_spec op r Hr) as [->|(x & -> & Hv & Hws)]; [by eauto|].
  split; [by apply rules_set_wf|]. intros id z Hz. unfold get_rule. simpl. rewrite dget_dset.
  case_decide as Hid; [subst; exists x; by rewrite (Hws z Hz)|by exists z].
Qed.
End facts.

(** Peel an operation into its elementary operations. *)
Ltac advance_tac :=
  repeat match goal with
  | |- keeps _ (_ ≫= _) => apply keeps_bind; [typeclasses eauto| |intros ?]
  | |- keeps _ (try_except _ _) => apply keeps_try; [typeclasses eauto| |intros ?]
  | |- keeps _ (suppress _) => apply keeps_suppress; [typeclasses eauto|]
  | |- keeps _ (mret _) => apply keeps_ret; typeclasses eauto
  | |- keeps _ (lift _) => apply keeps_lift; typeclasses eauto
  | |- keeps _ (raise _) => apply keeps_raise; typeclasses eauto
  | |- keeps _ (gets _) => apply keeps_gets; typeclasses eauto
  | |- keeps _ (on_grants (gr_get_by_ref _)) => apply advances_get
  | |- keeps _ (on_grants (gr_list_grants_for_workspace _ _ _)) => apply advances_list
  | |- keeps _ (on_grants (gr_insert _)) => apply advances_insert
  | |- keeps _ (on_grants (gr_revoke _ _)) => apply advances_revoke
  | |- keeps _ (on_audit (aw_write _)) => apply advances_write
  | |- keeps _ (on_audit (record_rejection _)) => apply advances_rejection
  | |- keeps _ (on_entropy _) => apply advances_entropy
  | |- keeps _ (on_throttle _) => apply advances_throttle
  | |- keeps _ (on_tokens (tokens_insert _)) => apply advances_token
  | |- keeps _ (on_pop_cache _ _) => apply advances_pop
  | |- keeps _ (if ?b then _ else _) => destruct b
  | |- keeps _ (match ?x with _ => _ end) => destruct x
  end.

Section calls.
Context {G A : Type} `{HG : GrantLifecycleOk G} `{HA : AuditWriterOk A}.
Implicit Types (w : World G A).

Lemma advances_enforce request now br settings :
  keeps advances (enforce_v1_contract (G := G) (A := A) request now br settings).
Proof.
  unfold enforce_v1_contract, lookup_or_error, setting, _evaluate_and_record, _record_rejection,
    new_event_id. advance_tac.
Qed.
Lemma advances_delegated int_unicode request now br pep_ws tokens settings skew :
  keeps advances (delegated_enforce_v1_contract (G := G) (A := A) int_unicode request now br pep_ws
    tokens settings skew).
Proof.
  unfold delegated_enforce_v1_contract, lookup_or_error, setting, delegated_reject,
    check_subject_token, proof_ok, _evaluate_and_record, _record_rejection, new_event_id.
  advance_tac.
Qed.
Lemma advances_simulate request now br settings :
  keeps advances (simulate_v1_contract (G := G) (A := A) request now br settings).
Proof.
  unfold simulate_v1_contract, lookup_or_error, setting, _write, new_event_id. advance_tac.
Qed.
Lemma advances_observe request now br :
  keeps advances (record_observation (G := G) (A := A) request now br).
Proof. unfold record_observation, new_event_id. cbv zeta. advance_tac. Qed.
Lemma advances_auth_failure surface now :
  keeps advances (record_auth_failure (G := G) (A := A) surface now).
Proof. unfold record_auth_failure, _emit, new_event_id. advance_tac. Qed.
Lemma advances_given_or_new given prefix :
  keeps advances (given_or_new (G := G) (A := A) given prefix).
Proof. unfold given_or_new, _new_id. advance_tac. Qed.
Lemma advances_issue request now :
  keeps advances (issue_grant (G := G) (A := A) request now).
Proof.
  unfold issue_grant, issue_accepted, _record_issue_rejection, new_event_id, _new_id. cbv zeta.
  advance_tac; apply advances_given_or_new.
Qed.
Lemma advances_revoke_grant ref ws now :
  keeps advances (revoke_grant (G := G) (A := A) ref ws now).
Proof. unfold revoke_grant, _new_id. cbv zeta. advance_tac. Qed.
Lemma advances_mint request now :
  keeps advances (mint_subject_token (G := G) (A := A) request now nullcontext).
Proof.
  unfold mint_subject_token, nullcontext, _new_key, new_event_id, _new_id. cbv zeta. advance_tac.
Qed.

(** *** Requests *)

Lemma advances_request w q :
  0 < gq_requested_ttl_seconds q →
  (∀ q0, request_of w (gq_request_id q) = Some q0 →
     gq_status q0 = "pending" ∧ gq_status q ≠ "pending") →
  advances w (set_requests (mkRequests (dset (gq_request_id q) q (_requests_by_id (w_requests w)))) w).
Proof.
  intros Httl Hold [Hw1 Hw2 Hw3 Hw4 Hw5]. split; [constructor; try done; by apply requests_set_wf|].
  constructor; [done|by left| |eauto|eauto]. intros id q0 Hq0. unfold request_of, get_request. simpl.
  rewrite dget_dset. case_decide as Hid; [|exists q0; split; [done|by left]].
  subst id. exists q. split; [done|]. right. by apply Hold.
Qed.

Lemma advances_create request now :
  keeps advances (create_grant_request (G := G) (A := A) request now).
Proof.
  unfold create_grant_request.
  destruct (_validate_create_request request) as [reason|] eqn:Ev; [advance_tac|].
  assert (Httl : 0 < gc_requested_ttl_seconds request).
  { revert Ev. unfold _validate_create_request. repeat (case_match; try done). intros _.
    bool_prop. lia. }
  cbv zeta. apply keeps_bind; [apply _|apply advances_given_or_new|]. intros id.
  apply keeps_bind; [apply _| |intros []; unfold _new_id; advance_tac].
  intros w. rewrite insert_request_run. destruct (din _ _) eqn:Ed; simpl; [done|].
  apply (advances_request w (new_grant_request request id _ now)); [done|]. intros q0 Hq0.
  apply din_false in Ed. unfold request_of, get_request in Hq0. simpl in Hq0, Ed. congruence.
Qed.

(** What the rest of an approval does not touch. *)
Definition requests_kept w w' : Prop := w_requests w' = w_requests w.
#[local] Instance requests_kept_preorder : PreOrder requests_kept.
Proof. split; [by intros w|]. intros w1 w2 w3 H12 H23. unfold requests_kept in *. congruence. Qed.
Lemma issue_keeps_requests request now :
  keeps requests_kept (issue_grant (G := G) (A := A) request now).
Proof.
  assert (Hg : ∀ X (m : M G X), keeps requests_kept (on_grants (A := A) m)).
  { intros X m w. unfold on_grants, zoom. by destruct (m _). }
  assert (Ha : ∀ X (m : M A X), keeps requests_kept (on_audit (G := G) m)).
  { intros X m w. unfold on_audit, zoom. by destruct (m _). }
  assert (He : ∀ X (m : M Entropy X), keeps requests_kept (on_entropy (G := G) (A := A) m)).
  { intros X m w. unfold on_entropy, zoom. by destruct (m _). }
  unfold issue_grant, issue_accepted, _record_issue_rejection, new_event_id, given_or_new, _new_id.
  cbv zeta. repeat (advance_tac; first [apply Hg|apply Ha|apply He|idtac]).
Qed.

(** Giving the requests back as they were before a claim. *)
Lemma advances_release w w' : advances w w' → svc_wf w → advances w (set_requests (w_requests w) w').
Proof.
  intros Hadv Hw _. destruct (Hadv Hw) as [[] []]. split; [by constructor; try done; apply Hw|].
  constructor; try done. intros id q Hq. exists q. split; [exact Hq|by left].
Qed.

Lemma advances_decide w id ws q status now by_ reason ref :
  svc_wf w → lookup_grant_request id ws w = Some q → gq_status q = "pending" →
  status ≠ "pending" →
  let upd := gq_decide q status now by_ reason ref in
  ∃ w1, on_requests (decide_request upd) w = (Ok true, w1) ∧ advances w w1 ∧
    w_requests w1 = mkRequests (dset id upd (_requests_by_id (w_requests w))) ∧
    gq_request_id q = id ∧ request_of w id = Some q.
Proof.
  intros Hw [Hq _]%lookup_grant_request_Some Hst Hne upd.
  destruct (proj2 (sw_requests _ Hw) id q Hq) as [Hid Httl].
  assert (Hdec : decide_request upd (w_requests w) =
    (Ok true, mkRequests (dset id upd (_requests_by_id (w_requests w))))).
  { rewrite decide_request_run. simpl. rewrite Hid. unfold request_of in Hq.
    rewrite Hq, Hst. by rewrite eqb_refl. }
  eexists. split; [by apply on_requests_run|]. split; [|done].
  rewrite <-Hid. apply (advances_request w upd); [done|]. simpl. rewrite Hid, Hq.
  by intros q0 [= <-].
Qed.

Lemma advances_reject id ws by_ reason now :
  keeps advances (reject_grant_request (G := G) (A := A) id ws by_ reason now).
Proof.
  intros w Hw. cut (advances w (reject_grant_request id ws by_ reason now w).2);
    [intros Hadv; exact (Hadv Hw)|]. unfold reject_grant_request.
  rewrite (bind_run _ _ w (lookup_grant_request id ws w) w) by done.
  destruct (lookup_grant_request id ws w) as [q|] eqn:Eq; [|apply advances_refl].
  destruct (String.eqb_spec (gq_status q) "pending") as [Hst|]; cbn [negb];
    [|apply advances_refl].
  cbv zeta.
  destruct (advances_decide w id ws q "rejected" now by_ reason (gq_issued_grant_ref q) Hw Eq Hst)
    as (w1 & Hd & Hadv & _); [done|]. rewrite (bind_run _ _ _ _ _ Hd). cbn [negb].
  assert (Htail : ∀ (m : M (World G A) GrantRequestDecisionResult),
    keeps advances m → advances w (m w1).2) by (intros m Hm; etrans; [exact Hadv|apply Hm]).
  apply Htail. unfold _new_id. advance_tac.
Qed.

Lemma advances_approve id ws by_ reason now et ar aa :
  keeps advances (approve_grant_request (G := G) (A := A) id ws by_ reason now et ar aa).
Proof.
  intros w Hw. cut (advances w (approve_grant_request id ws by_ reason now et ar aa w).2);
    [intros Hadv; exact (Hadv Hw)|]. unfold approve_grant_request.
  rewrite (bind_run _ _ w (lookup_grant_request id ws w) w) by done.
  destruct (lookup_grant_request id ws w) as [q|] eqn:Eq; [|apply advances_refl].
  destruct (String.eqb_spec (gq_status q) "pending") as [Hst|]; cbn [negb];
    [|apply advances_refl].
  rewrite (bind_run _ _ _ _ _ (_new_id_run "grt" w)). cbv zeta.
  set (ref := "grt" ^+ _). assert (H0' : advances w (drew w)) by (by apply advances_same).
  destruct (advances_decide (drew w) id ws q "approved" now by_ reason (Some ref)) as
    (w1 & Hd & Hadv & Hreq & Hid & Hq); [by apply H0'|exact Eq|done|done|].
  rewrite (bind_run _ _ _ _ _ Hd). cbn [negb].
  assert (Hw1 : advances w w1) by (by etrans). clear Hd Hadv H0'.
  match goal with |- context [issue_grant ?r now] => set (ir := r) end.
  pose proof (advances_issue ir now w1) as Hi. pose proof (issue_keeps_requests ir now w1) as Hk.
  unfold mbind at 1, M_bind at 1.
  destruct (issue_grant ir now w1) as [[issued|e] w2]; simpl in Hi, Hk;
    [|by apply (advances_trans _ _ _ Hw1 Hi)].
  assert (Hw2 : advances w w2) by (by etrans). unfold requests_kept in Hk. rewrite Hreq in Hk.
  assert (Hback : ∀ res : GrantRequestDecisionResult,
    advances w ((_ ← on_requests (update_request q); mret res) w2).2).
  { intros res. assert (Hup : update_request q (w_requests w2) = (Ok tt, w_requests w)).
    { unfold update_request. rewrite Hk. simpl. rewrite Hid. unfold din.
      rewrite bool_decide_true by (rewrite dget_dset_eq; done). cbn [negb]. f_equal.
      rewrite dset_dset. change (w_requests (drew w)) with (w_requests w).
      rewrite dset_same by exact Hq. by destruct (w_requests w). }
    rewrite (bind_run _ _ _ _ _ (on_requests_run _ _ _ _ Hup)).
    by apply (advances_release w w2). }
  assert (Htail : ∀ (m : M (World G A) GrantRequestDecisionResult),
    keeps advances m → advances w (m w2).2)
    by (intros m Hm; by apply (advances_trans _ _ _ Hw2 (Hm w2))).
  destruct (gir_grant issued) as [g|]; [|apply Hback]. destruct (gir_status issued == "rejected");
    [apply Hback|]. apply Htail. unfold _new_id. advance_tac.
Qed.

Lemma advances_auto_approve id ws by_ now :
  keeps advances (auto_approve_grant_request (G := G) (A := A) id ws by_ now).
Proof. unfold auto_approve_grant_request. cbv zeta. advance_tac; apply advances_approve. Qed.

(** *** The service as a state machine *)

Lemma run_op_advances int_unicode op w : advances w (run_op int_unicode op w).
Proof.
  destruct op; simpl.
  - apply advances_auth_failure.
  - apply advances_registry. intros r Hr. destruct (register_boundary _ _ _ _ _ _ r) eqn:E.
    eapply registry_step_ok; [exact Hr|]. by eapply step_register.
  - apply advances_registry. intros r Hr. destruct (disable_boundary _ _ _ _ _ r) eqn:E.
    eapply registry_step_ok; [exact Hr|]. by eapply step_disable.
  - apply advances_registry. intros r Hr. destruct (enable_boundary _ _ _ _ _ r) eqn:E.
    eapply registry_step_ok; [exact Hr|]. by eapply step_enable.
  - apply advances_bounds.
  - apply advances_issue.
  - unfold lookup_grant. revert w. change (keeps advances (lookup_grant (G:=G) (A:=A) grant_ref workspace_id)).
    unfold lookup_grant. advance_tac.
  - apply advances_list.
  - apply advances_revoke_grant.
  - apply advances_create.
  - apply advances_mint.
  - apply advances_approve.
  - apply advances_reject.
  - apply advances_rules. apply (run_rule_op_kept (CreateRule rule)).
  - apply advances_rules. apply (run_rule_op_kept (DisableRule rule_id workspace_id disabled_by now)).
  - apply advances_auto_approve.
  - apply advances_enforce.
  - apply advances_observe.
  - apply advances_simulate.
  - apply advances_delegated.
Qed.

Lemma steps_advance int_unicode w w' : rtc (svc_step int_unicode) w w' → advances w w'.
Proof.
  induction 1 as [w|w1 w2 w3 Hstep _ IH]; [reflexivity|]. etrans; [|exact IH].
  destruct Hstep. apply run_op_advances.
Qed.

(** C4: The service is a monotone state machine: from any well-formed state, any
    sequence of method calls, with whatever arguments and whatever they raise,
    reaches a well-formed state (every part keeps its invariant), with the audit
    log only appended to, no grant gone or changed but by revocation, no decided
    request redecided, no rule moved to another workspace and no token altered. *)
Theorem service_reachable_advances int_unicode w w' :
  svc_wf w → rtc (svc_step int_unicode) w w' → svc_wf w' ∧ evolves w w'.
Proof.
  intros Hw Hsteps. by apply (steps_advance int_unicode).
Qed.

(** C12: Revocation is final: once a grant is revoked, no sequence of method calls
    brings it back: in every state reached later the reference still stands for
    the revoked grant, and no enforce request on it, direct or delegated, is
    permitted. *)
Theorem revocation_final int_unicode ref g w w' request drequest now pep_ws skew :
  svc_wf w → grants w !! ref = Some g → g_status g = "revoked" →
  rtc (svc_step int_unicode) w w' →
  v1_grant_ref request = ref → dv_grant_ref drequest = ref →
  grants w' !! ref = Some g ∧
  (∀ resp w2, svc_enforce request now w' = (Ok resp, w2) → rs_decision resp ≠ Some permit) ∧
  (∀ resp w2, svc_delegated_enforce int_unicode drequest now pep_ws skew w' = (Ok resp, w2) →
     rs_decision resp ≠ Some permit).
Proof.
  intros Hw Hg Hst Hsteps Href Hdref.
  destruct (steps_advance int_unicode _ _ Hsteps Hw) as [Hw' [_ Hgr _ _ _]].
  assert (Hg' : grants w' !! ref = Some g).
  { destruct (Hgr ref g Hg) as [?|Hr]; [done|]. rewrite Hr. f_equal. destruct g. simpl in Hst.
    by rewrite Hst. }
  split; [done|]. split.
  - intros resp w2 E Hp.
    destruct (permit_sound _ _ _ _ _ _ _ (sw_grants _ Hw') E Hp) as (g2 & rb & Hg2 & _ & Ha & _).
    rewrite Href, Hg' in Hg2. congruence.
  - intros resp w2 E Hp. destruct (delegated_outcome int_unicode _ _ _ _ _ _ _ _ _ _
      (sw_grants _ Hw') E) as [(ws & _ & Hnone & _)|(ws & g2 & o & rb & Hb & _ & Hdec)];
      [congruence|]. destruct Hb as [_ _ Hg2 _ _ _ _]. rewrite Hdref, Hg' in Hg2.
    destruct Hdec as (_ & id & _ & ->). unfold _response_from_decision in Hp.
    destruct (d_decision (evaluate_enforce _)) eqn:Ed; [|done].
    apply permit_iff in Ed as (_ & _ & Ha & _). simpl in Ha. congruence.
Qed.
End calls.

(** ** The initial state *)

Lemma grants_by_ref_wf l d d' :
  grants_repo_wf (mkInMemoryGrantRepository d) → grants_by_ref l d = Ok d' →
  grants_repo_wf (mkInMemoryGrantRepository d').
Proof.
  revert d. induction l as [|g l IH]; intros d Hwf; simpl; [by intros [= <-]|].
  destruct (din _ _); [done|]. apply IH. by apply (grants_set_wf (mkInMemoryGrantRepository d)).
Qed.
Lemma grants_by_ref_spec l d :
  grants_by_ref l d = Ok (d ++ ((λ g, (g_grant_ref g, g)) <$> l)) ∨
  ∃ msg, grants_by_ref l d = Raise (ValueError msg).
Proof.
  revert d. induction l as [|g l IH]; intros d; simpl; [left; by rewrite app_nil_r|].
  destruct (din _ _) eqn:Ed; [right; eauto|]. apply din_false in Ed. rewrite dset_fresh by done.
  destruct (IH (d ++ [(g_grant_ref g, g)])) as [->|?]; [|by right]. left. by rewrite <-app_assoc.
Qed.

(** A service starts well-formed: construction either raises [ValueError],
    for two given grants under one reference, or yields a well-formed state that
    holds exactly the given grants, in order, and nothing else. *)
Theorem service_init_wf given registry audit bounds caps entropy :
  registry_ok registry →
  match service_init given registry audit bounds caps entropy with
  | Ok w => svc_wf w ∧ dvalues (_grants_by_ref (w_grants w)) = given ∧
      NoDup (g_grant_ref <$> given) ∧ log w = events audit ∧
      ∀ id, request_of w id = None
  | Raise e => ∃ msg, e = ValueError msg
  end.
Proof.
  intros Hreg. unfold service_init, grants_init.
  destruct (grants_by_ref_spec given []) as [E|(msg & E)]; rewrite E; simpl; [|by exists msg].
  assert (Hwf : grants_repo_wf (mkInMemoryGrantRepository ((λ g, (g_grant_ref g, g)) <$> given))).
  { eapply (grants_by_ref_wf given []); [|exact E]. split; [constructor|done]. }
  split_and!; [|unfold dvalues; simpl; rewrite <-list_fmap_compose; apply list_fmap_id| |done|done].
  - constructor; simpl; [exact Hwf|split; [constructor|done]|split; [constructor|done]|constructor
      |exact Hreg].
  - destruct Hwf as [Hnd _]. unfold dict_wf, dkeys in Hnd. simpl in Hnd.
    by rewrite <-list_fmap_compose in Hnd.
Qed.

(** ** Witnesses *)

Definition empty_registry := mkBoundaryRegistry [].
Lemma empty_registry_ok : registry_ok empty_registry.
Proof. split; [constructor|]. exact registry_inv_empty. Qed.
Lemma service_init_wf_witness :
  ∃ w, service_init [sample_grant] empty_registry (mkAuditWriter []) [] (100, 10)
         (mkEntropy (λ _ n, "n" ^+ pretty n) 0) = Ok w ∧ svc_wf w.
Proof.
  eexists. split; [reflexivity|].
  exact (proj1 (service_init_wf [sample_grant] empty_registry (mkAuditWriter []) [] (100, 10)
    (mkEntropy (λ _ n, "n" ^+ pretty n) 0) empty_registry_ok)).
Defined.

Definition run_ops (ops : list SvcOp) (w : World InMemoryGrantRepository InMemoryAuditWriter) :=
  foldl (λ w op, run_op no_unicode_int op w) w ops.
Lemma run_ops_steps ops w : rtc (svc_step no_unicode_int) w (run_ops ops w).
Proof.
  revert w. induction ops as [|op ops IH]; intros w; simpl; [done|].
  eapply rtc_l; [apply svc_call|apply IH].
Qed.
Lemma asking_svc_wf scope : svc_wf (asking_world scope).
Proof.
  destruct (asking_world_wf scope) as [Hw Hr]. constructor; [done|done| | |exact empty_registry_ok].
  - split; [constructor|done].
  - constructor.
Qed.
Definition sample_ops : list SvcOp :=
  [ApproveGrantRequest "grq_1" "ws" "op" None 5; RevokeGrant "grt_1" "ws" 6;
   RejectGrantRequest "grq_1" "ws" "op" None 7; MintSubjectToken (sample_mint false) 8].
Lemma service_reachable_advances_witness :
  svc_wf (run_ops sample_ops (asking_world "read:repo/docs/b")) ∧
  evolves (asking_world "read:repo/docs/b") (run_ops sample_ops (asking_world "read:repo/docs/b")).
Proof.
  apply (service_reachable_advances no_unicode_int);
    [apply asking_svc_wf|apply run_ops_steps].
Defined.
Lemma revoked_svc_wf : svc_wf revoked_world.
Proof.
  constructor; [|split; [constructor|done]|split; [constructor|done]|constructor
    |exact empty_registry_ok].
  split; [repeat constructor; set_solver|]. intros ref x. simpl. case_decide; naive_solver.
Qed.
Lemma revocation_final_witness :
  grants (run_ops [IssueGrant (sample_issue "read:a/b") 5] revoked_world) !! "grt_1" =
    Some (revoked sample_grant).
Proof.
  apply (revocation_final no_unicode_int "grt_1" (revoked sample_grant) revoked_world
    (run_ops [IssueGrant (sample_issue "read:a/b") 5] revoked_world) (sample_request "agent")
    sample_drequest 9 (Some "ws") 30);
    [exact revoked_svc_wf|reflexivity|reflexivity|apply run_ops_steps|reflexivity|reflexivity].
Defined.
