(* ===== verification/Json.v ===== *)
(** * JSON text ([json.dumps(..., sort_keys=True)] and [json.loads])

    What the source uses of the standard [json] module: writing a flat object of
    strings, integers, booleans and nulls with [ensure_ascii] and sorted keys,
    and reading one back.  [json_loads] follows the module's grammar for such
    objects; a nested value, a float or a lone surrogate, which the writer never
    produces, is refused here with the [ValueError] of malformed text. *)
From S2P Require Import Prelude PyStr PyDict Models Sha256.

(** ** UTF-8 *)

Definition utf8_encode1 (cp : Z) : string :=
  string_of
    (if cp <? 128 then [cp]
     else if cp <? 2048 then [192 + cp / 64; 128 + cp mod 64]
     else if cp <? 65536 then [224 + cp / 4096; 128 + cp / 64 mod 64; 128 + cp mod 64]
     else [240 + cp / 262144; 128 + cp / 4096 mod 64; 128 + cp / 64 mod 64; 128 + cp mod 64]).
Fixpoint utf8_encode (cps : list Z) : string :=
  match cps with [] => "" | cp :: cps' => utf8_encode1 cp ^+ utf8_encode cps' end.

(** The code points of a string (meaningful on UTF-8). *)
Fixpoint utf8_decode (s : string) : list Z :=
  match s with
  | EmptyString => []
  | String a s1 =>
      let x := byte_of a in
      if x <? 128 then x :: utf8_decode s1
      else match s1 with
      | EmptyString => []
      | String b s2 =>
          let y := byte_of b - 128 in
          if x <? 224 then ((x - 192) * 64 + y) :: utf8_decode s2
          else match s2 with
          | EmptyString => []
          | String c s3 =>
              let z := byte_of c - 128 in
              if x <? 240 then ((x - 224) * 4096 + y * 64 + z) :: utf8_decode s3
              else match s3 with
              | EmptyString => []
              | String d s4 =>
                  ((x - 240) * 262144 + y * 4096 + z * 64 + (byte_of d - 128)) :: utf8_decode s4
              end
          end
      end
  end.

(** A Unicode scalar value; a string is a sequence of them. *)
Definition scalar (cp : Z) : Prop := 0 ≤ cp < 55296 ∨ 57344 ≤ cp < 1114112.
Definition is_text (s : string) : Prop := ∃ cps, Forall scalar cps ∧ s = utf8_encode cps.

(** ** Writing *)

Definition dquote : ascii := "034"%char.
Definition backslash : ascii := "092"%char.
Definition hex4 (n : Z) : string :=
  String (hex_char (n / 4096)) (String (hex_char (n / 256 mod 16))
    (String (hex_char (n / 16 mod 16)) (String (hex_char (n mod 16)) ""))).
Definition u_escape (n : Z) : string := String backslash (String "u" (hex4 n)).
Definition short_escape (c : ascii) : string := String backslash (String c "").

(** [ESCAPE_DCT] and the [\uXXXX] forms of [ensure_ascii]. *)
Definition escape1 (cp : Z) : string :=
  if cp =? 34 then short_escape dquote
  else if cp =? 92 then short_escape backslash
  else if cp =? 10 then short_escape "n"
  else if cp =? 13 then short_escape "r"
  else if cp =? 9 then short_escape "t"
  else if cp =? 12 then short_escape "f"
  else if cp =? 8 then short_escape "b"
  else if (32 <=? cp) && (cp <=? 126) then String (char_of cp) ""
  else if cp <? 65536 then u_escape cp
  else u_escape (55296 + (cp - 65536) / 1024) ^+ u_escape (56320 + (cp - 65536) mod 1024).
Fixpoint escape (cps : list Z) : string :=
  match cps with [] => "" | cp :: cps' => escape1 cp ^+ escape cps' end.
Definition json_string (s : string) : string :=
  String dquote (escape (utf8_decode s) ^+ String dquote "").

Definition json_value (v : pyval) : string :=
  match v with
  | VStr s => json_string s
  | VInt z => pretty z
  | VBool true => "true"
  | VBool false => "false"
  | VNone => "null"
  end.
Definition key_leb (x y : string * pyval) : bool := String.leb x.1 y.1.
Definition json_member (kv : string * pyval) : string :=
  json_string kv.1 ^+ ": " ^+ json_value kv.2.
Definition json_dumps (d : dict string pyval) : string :=
  "{" ^+ join ", " (map json_member (py_sorted key_leb d)) ^+ "}".

(** ** Reading *)

Fixpoint skip_ws (s : string) : string :=
  match s with
  | String c s' =>
      if existsb (Ascii.eqb c) [" "; "009"; "010"; "013"]%char then skip_ws s' else s
  | EmptyString => ""
  end.
Definition hex_digit (c : ascii) : option Z :=
  let x := byte_of c in
  if (48 <=? x) && (x <=? 57) then Some (x - 48)
  else if (97 <=? x) && (x <=? 102) then Some (x - 87)
  else if (65 <=? x) && (x <=? 70) then Some (x - 55)
  else None.
Definition read_hex4 (a b c d : ascii) : option Z :=
  a ← hex_digit a; b ← hex_digit b; c ← hex_digit c; d ← hex_digit d;
  Some (a * 4096 + b * 256 + c * 16 + d).
Definition unescape (c : ascii) : option ascii :=
  if Ascii.eqb c dquote then Some dquote
  else if Ascii.eqb c backslash then Some backslash
  else if Ascii.eqb c "/" then Some "/"%char
  else if Ascii.eqb c "n" then Some "010"%char
  else if Ascii.eqb c "r" then Some "013"%char
  else if Ascii.eqb c "t" then Some "009"%char
  else if Ascii.eqb c "f" then Some "012"%char
  else if Ascii.eqb c "b" then Some "008"%char
  else None.

(** The rest of a string literal, after the opening quote. *)
Fixpoint scan_string (s : string) : option (string * string) :=
  match s with
  | EmptyString => None
  | String c s1 =>
      if Ascii.eqb c dquote then Some ("", s1)
      else if Ascii.eqb c backslash then
        match s1 with
        | EmptyString => None
        | String e s2 =>
            if Ascii.eqb e "u" then
              match s2 with
              | String h1 (String h2 (String h3 (String h4 s3))) =>
                  n ← read_hex4 h1 h2 h3 h4;
                  if (55296 <=? n) && (n <? 56320) then
                    match s3 with
                    | String b (String u (String g1 (String g2 (String g3 (String g4 s4))))) =>
                        if Ascii.eqb b backslash && Ascii.eqb u "u" then
                          m ← read_hex4 g1 g2 g3 g4;
                          if (56320 <=? m) && (m <? 57344) then
                            '(r, rest) ← scan_string s4;
                            Some (utf8_encode1 (65536 + (n - 55296) * 1024 + (m - 56320)) ^+ r, rest)
                          else None
                        else None
                    | _ => None
                    end
                  else if (56320 <=? n) && (n <? 57344) then None
                  else '(r, rest) ← scan_string s3; Some (utf8_encode1 n ^+ r, rest)
              | _ => None
              end
            else
              x ← unescape e; '(r, rest) ← scan_string s2; Some (String x r, rest)
        end
      else if byte_of c <? 32 then None
      else '(r, rest) ← scan_string s1; Some (String c r, rest)
  end.

Definition digit_of (c : ascii) : option Z :=
  let x := byte_of c in if (48 <=? x) && (x <=? 57) then Some (x - 48) else None.
Fixpoint read_digits_from (acc : Z) (s : string) : Z * string :=
  match s with
  | String c s' =>
      match digit_of c with
      | Some d => read_digits_from (acc * 10 + d) s'
      | None => (acc, s)
      end
  | EmptyString => (acc, "")
  end.
(** A decimal number without leading zeros, fraction or exponent. *)
Definition read_natural (s : string) : option (Z * string) :=
  match s with
  | String c s' =>
      d ← digit_of c;
      let '(n, rest) := if d =? 0 then (0, s') else read_digits_from d s' in
      match rest with
      | String x _ => if existsb (Ascii.eqb x) ["."; "e"; "E"]%char then None else Some (n, rest)
      | EmptyString => Some (n, "")
      end
  | EmptyString => None
  end.
Definition read_int (s : string) : option (Z * string) :=
  match s with
  | String c s' =>
      if Ascii.eqb c "-" then '(n, rest) ← read_natural s'; Some (- n, rest) else read_natural s
  | EmptyString => None
  end.

Definition read_value (s : string) : option (pyval * string) :=
  match s with
  | EmptyString => None
  | String c s' =>
      if Ascii.eqb c dquote then '(r, rest) ← scan_string s'; Some (VStr r, rest)
      else if startswith s "null" then Some (VNone, removeprefix s "null")
      else if startswith s "true" then Some (VBool true, removeprefix s "true")
      else if startswith s "false" then Some (VBool false, removeprefix s "false")
      else '(n, rest) ← read_int s; Some (VInt n, rest)
  end.

(** The members of an object, up to its closing brace. *)
Fixpoint read_members (fuel : nat) (acc : dict string pyval) (s : string) :
    option (dict string pyval * string) :=
  match fuel, s with
  | S fuel', String q s1 =>
      if Ascii.eqb q dquote then
        '(key, s2) ← scan_string s1;
        match skip_ws s2 with
        | String colon s3 =>
            if Ascii.eqb colon ":" then
              '(v, s4) ← read_value (skip_ws s3);
              match skip_ws s4 with
              | String e s5 =>
                  if Ascii.eqb e "}" then Some (dset key v acc, s5)
                  else if Ascii.eqb e "," then read_members fuel' (dset key v acc) (skip_ws s5)
                  else None
              | EmptyString => None
              end
            else None
        | EmptyString => None
        end
      else None
  | _, _ => None
  end.

Definition read_object (s : string) : option (dict string pyval * string) :=
  match skip_ws s with
  | String b s1 =>
      if Ascii.eqb b "{" then
        match skip_ws s1 with
        | String e s2 =>
            if Ascii.eqb e "}" then Some ([], s2)
            else read_members (String.length s) [] (String e s2)
        | EmptyString => None
        end
      else None
  | EmptyString => None
  end.
Definition json_loads (s : string) : result (dict string pyval) :=
  match read_object s with
  | Some (d, rest) =>
      if skip_ws rest == "" then Ok d else Raise (ValueError "Extra data")
  | None => Raise (ValueError "Expecting value")
  end.

Example json_dumps_example :
  split dquote (json_dumps [("reason", VStr "ok"); ("count", VInt (-12)); ("note", VNone);
    ("v", VBool true); ("cafe", VStr (utf8_encode [99; 233; 10; 128512]))]) =
  ["{"; "cafe"; ": "; "c\u00e9\n\ud83d\ude00"; ", "; "count"; ": -12, "; "note"; ": null, ";
   "reason"; ": "; "ok"; ", "; "v"; ": true}"].
Proof. vm_compute. reflexivity. Qed.

(** ** Round trips *)

Lemma byte_char b : 0 ≤ b < 256 → byte_of (char_of b) = b.
Proof. intros Hb. unfold byte_of, char_of. rewrite N_ascii_embedding; lia. Qed.
Lemma char_of_eqb b c :
  0 ≤ b < 256 → Ascii.eqb (char_of b) c = (b =? byte_of c).
Proof.
  intros Hb. destruct (Z.eqb_spec b (byte_of c)) as [->|Hne].
  - apply Ascii.eqb_eq. unfold byte_of, char_of. by rewrite N2Z.id, ascii_N_embedding.
  - apply Ascii.eqb_neq. intros <-. by rewrite byte_char in Hne.
Qed.

(** *** UTF-8 *)

Lemma utf8_decode_encode1 cp s :
  scalar cp → utf8_decode (utf8_encode1 cp ^+ s) = cp :: utf8_decode s.
Proof.
  intros Hcp. assert (H0 : 0 ≤ cp < 1114112) by (unfold scalar in Hcp; lia).
  unfold utf8_encode1. destruct (Z.ltb_spec cp 128); [|destruct (Z.ltb_spec cp 2048);
    [|destruct (Z.ltb_spec cp 65536)]]; cbn [string_of]; rewrite !app_cons, app_empty_l;
    cbn [utf8_decode]; rewrite !byte_char by (Z.to_euclidean_division_equations; lia);
    repeat match goal with
    | |- context [?a <? ?b] => destruct (Z.ltb_spec a b);
        [try (exfalso; Z.to_euclidean_division_equations; lia)
        |try (exfalso; Z.to_euclidean_division_equations; lia)]
    end; f_equal; Z.to_euclidean_division_equations; lia.
Qed.
Lemma utf8_decode_encode cps : Forall scalar cps → utf8_decode (utf8_encode cps) = cps.
Proof.
  induction 1 as [|cp cps Hcp _ IH]; [done|]. simpl. by rewrite utf8_decode_encode1, IH.
Qed.

(** *** String literals *)

Lemma hex_digit_char n : 0 ≤ n < 16 → hex_digit (hex_char n) = Some n.
Proof.
  intros Hn. assert (n = 0 ∨ n = 1 ∨ n = 2 ∨ n = 3 ∨ n = 4 ∨ n = 5 ∨ n = 6 ∨ n = 7 ∨ n = 8 ∨ n = 9
    ∨ n = 10 ∨ n = 11 ∨ n = 12 ∨ n = 13 ∨ n = 14 ∨ n = 15) as Hc by lia.
  by repeat destruct Hc as [->|Hc]; subst.
Qed.
Lemma read_hex4_hex n : 0 ≤ n < 65536 →
  read_hex4 (hex_char (n / 4096)) (hex_char (n / 256 mod 16)) (hex_char (n / 16 mod 16))
    (hex_char (n mod 16)) = Some n.
Proof.
  intros Hn. unfold read_hex4.
  rewrite !hex_digit_char by (Z.to_euclidean_division_equations; lia). cbn [mbind option_bind].
  f_equal. Z.to_euclidean_division_equations; lia.
Qed.

(** What scanning one more code point adds. *)
Definition scanned (piece : string) (r : option (string * string)) : option (string * string) :=
  '(s, rest) ← r; Some (piece ^+ s, rest).

Lemma scan_u_escape n s :
  0 ≤ n < 65536 → ¬ (55296 ≤ n < 57344) →
  scan_string (u_escape n ^+ s) = scanned (utf8_encode1 n) (scan_string s).
Proof.
  intros Hn Hs. unfold u_escape, hex4. rewrite !app_cons, app_empty_l. cbn [scan_string].
  change (Ascii.eqb backslash dquote) with false. change (Ascii.eqb backslash backslash) with true.
  change (Ascii.eqb "u" "u") with true. cbv iota. rewrite read_hex4_hex by done.
  cbn [mbind option_bind].
  destruct (Z.leb_spec 55296 n), (Z.ltb_spec n 56320), (Z.leb_spec 56320 n), (Z.ltb_spec n 57344);
    try lia; done.
Qed.
Lemma scan_surrogates n s :
  65536 ≤ n < 1114112 →
  scan_string ((u_escape (55296 + (n - 65536) / 1024) ^+ u_escape (56320 + (n - 65536) mod 1024)) ^+ s)
  = scanned (utf8_encode1 n) (scan_string s).
Proof.
  intros Hn. unfold u_escape, hex4. rewrite !app_cons, !app_empty_l. cbn [scan_string].
  change (Ascii.eqb backslash dquote) with false. change (Ascii.eqb backslash backslash) with true.
  change (Ascii.eqb "u" "u") with true. cbv iota.
  set (hi := 55296 + _). set (lo := 56320 + _).
  assert (Hhi : 55296 ≤ hi < 56320) by (unfold hi; Z.to_euclidean_division_equations; lia).
  assert (Hlo : 56320 ≤ lo < 57344) by (unfold lo; Z.to_euclidean_division_equations; lia).
  assert (Hcp : 65536 + (hi - 55296) * 1024 + (lo - 56320) = n)
    by (unfold hi, lo; Z.to_euclidean_division_equations; lia).
  clearbody hi lo. rewrite read_hex4_hex by lia. cbn [mbind option_bind].
  rewrite (proj2 (Z.leb_le _ _)), (proj2 (Z.ltb_lt _ _)) by lia. cbn [andb].
  rewrite !app_cons, app_empty_l. cbv iota.
  change (Ascii.eqb backslash backslash && Ascii.eqb "u" "u") with true. cbv iota.
  rewrite read_hex4_hex by lia. cbn [mbind option_bind].
  rewrite (proj2 (Z.leb_le _ _)), (proj2 (Z.ltb_lt _ _)) by lia. cbn [andb].
  by rewrite Hcp.
Qed.

Lemma scan_escape1 cp s :
  scalar cp → scan_string (escape1 cp ^+ s) = scanned (utf8_encode1 cp) (scan_string s).
Proof.
  intros Hcp. assert (Hrange : 0 ≤ cp < 1114112) by (unfold scalar in Hcp; lia). unfold escape1.
  destruct (Z.eqb_spec cp 34) as [->|]; [done|]. destruct (Z.eqb_spec cp 92) as [->|]; [done|].
  destruct (Z.eqb_spec cp 10) as [->|]; [done|]. destruct (Z.eqb_spec cp 13) as [->|]; [done|].
  destruct (Z.eqb_spec cp 9) as [->|]; [done|]. destruct (Z.eqb_spec cp 12) as [->|]; [done|].
  destruct (Z.eqb_spec cp 8) as [->|]; [done|].
  destruct ((32 <=? cp) && (cp <=? 126)) eqn:Ep; bool_prop.
  - rewrite app_cons, app_empty_l. cbn [scan_string]. rewrite !char_of_eqb by lia.
    change (byte_of dquote) with 34. change (byte_of backslash) with 92.
    rewrite !(proj2 (Z.eqb_neq _ _)) by lia. rewrite byte_char by lia.
    rewrite (proj2 (Z.ltb_ge _ _)) by lia. unfold scanned, utf8_encode1.
    rewrite (proj2 (Z.ltb_lt cp 128)) by lia. done.
  - destruct (Z.ltb_spec cp 65536).
    + apply scan_u_escape; [lia|]. unfold scalar in Hcp. lia.
    + apply scan_surrogates. lia.
Qed.

Lemma scan_json_string s rest :
  is_text s → scan_string (escape (utf8_decode s) ^+ String dquote rest) = Some (s, rest).
Proof.
  intros (cps & Hcps & ->). rewrite utf8_decode_encode by done.
  induction Hcps as [|cp cps Hcp _ IH]; [done|]. cbn [escape utf8_encode].
  by rewrite app_assoc_str, scan_escape1, IH.
Qed.
Lemma json_string_app s rest :
  json_string s ^+ rest = String dquote (escape (utf8_decode s) ^+ String dquote rest).
Proof. unfold json_string. rewrite app_cons, app_assoc_str. done. Qed.

(** *** Integers *)

Definition not_number (s : string) : Prop :=
  match s with
  | String c _ => digit_of c = None ∧ existsb (Ascii.eqb c) ["."; "e"; "E"]%char = false
  | EmptyString => True
  end.

Lemma digit_char_N d : (d < 10)%N →
  digit_of (pretty_N_char d) = Some (Z.of_N d) ∧ Ascii.eqb (pretty_N_char d) "-" = false ∧
  Ascii.eqb (pretty_N_char d) dquote = false ∧
  (∀ s, startswith (String (pretty_N_char d) s) "null" = false) ∧
  (∀ s, startswith (String (pretty_N_char d) s) "true" = false) ∧
  (∀ s, startswith (String (pretty_N_char d) s) "false" = false).
Proof.
  intros Hd. assert (d = 0 ∨ d = 1 ∨ d = 2 ∨ d = 3 ∨ d = 4 ∨ d = 5 ∨ d = 6 ∨ d = 7 ∨ d = 8 ∨
    d = 9)%N as Hc by lia.
  by repeat destruct Hc as [->|Hc]; subst.
Qed.
Lemma pretty_N_go_app x s rest : pretty_N_go x s ^+ rest = pretty_N_go x (s ^+ rest).
Proof.
  revert s. induction (N.lt_wf_0 x) as [x _ IH]. intros s.
  destruct (decide (x = 0%N)) as [->|Hx]; [by rewrite !pretty_N_go_0|].
  rewrite !(pretty_N_go_step x) by lia. rewrite IH by (apply N.div_lt; lia). done.
Qed.
Lemma read_pretty_N_go x s : (0 < x)%N →
  ∃ d t, pretty_N_go x s = String (pretty_N_char d) t ∧ (0 < d < 10)%N ∧
         read_digits_from (Z.of_N d) t = read_digits_from (Z.of_N x) s.
Proof.
  revert s. induction (N.lt_wf_0 x) as [x _ IH]. intros s Hx.
  rewrite pretty_N_go_step by done. destruct (decide (x < 10)%N) as [Hlt|Hge].
  - rewrite N.div_small, N.mod_small, pretty_N_go_0 by done. by exists x, s.
  - destruct (IH (x `div` 10)%N) with (s := String (pretty_N_char (x `mod` 10)) s)
      as (d & t & -> & Hd & Hread); [apply N.div_lt; lia|apply N.div_str_pos; lia|].
    exists d, t. split_and!; [done|lia|lia|]. rewrite Hread. cbn [read_digits_from].
    assert (Hm : (x `mod` 10 < 10)%N) by (apply N.mod_lt; lia).
    rewrite (proj1 (digit_char_N _ Hm)). f_equal. pose proof (N.div_mod x 10). lia.
Qed.
Lemma read_digits_stop acc rest : not_number rest → read_digits_from acc rest = (acc, rest).
Proof. destruct rest as [|c rest]; [done|]. by intros [Hd _]; simpl; rewrite Hd. Qed.
Lemma read_positive p rest : not_number rest →
  ∃ c t, pretty (N.pos p) ^+ rest = String c t ∧ read_natural (String c t) = Some (Z.pos p, rest) ∧
         ∃ d, (0 < d < 10)%N ∧ c = pretty_N_char d.
Proof.
  intros Hrest. unfold pretty, pretty_N. rewrite decide_False by done.
  rewrite pretty_N_go_app, app_empty_l.
  destruct (read_pretty_N_go (N.pos p) rest) as (d & t & -> & Hd & Hread); [lia|].
  eexists _, t. split; [done|]. split; [|by exists d]. unfold read_natural.
  destruct (digit_char_N d) as (-> & _); [lia|]. cbn [mbind option_bind].
  destruct (Z.eqb_spec (Z.of_N d) 0); [lia|]. rewrite Hread, read_digits_stop by done.
  destruct rest as [|c rest]; [done|]. by destruct Hrest as [_ ->].
Qed.
Lemma read_value_int z rest : not_number rest →
  read_value (pretty z ^+ rest) = Some (VInt z, rest).
Proof.
  intros Hrest. destruct z as [|p|p].
  - destruct rest as [|c rest]; [done|]. destruct Hrest as [Hd He].
    change (pretty 0 ^+ ?r) with (String "0" r).
    change (read_value (String "0" ?s)) with
      ('(n, rest) ← read_natural (String "0" s); Some (VInt n, rest)).
    unfold read_natural. change (digit_of "0") with (Some 0). cbn [mbind option_bind].
    change (0 =? 0) with true. cbv iota. by rewrite He.
  - destruct (read_positive p rest Hrest) as (c & t & Hp & Hn & d & Hd & ->).
    change (pretty (Z.pos p)) with (pretty (N.pos p)). rewrite Hp.
    destruct (digit_char_N d) as (_ & Hm & Hq & Hnull & Htrue & Hfalse); [lia|].
    unfold read_value, read_int. rewrite Hq, Hnull, Htrue, Hfalse, Hm, Hn. done.
  - destruct (read_positive p rest Hrest) as (c & t & Hp & Hn & _).
    change (pretty (Z.neg p)) with ("-" ^+ pretty (N.pos p)).
    rewrite app_cons, app_empty_l, app_cons, Hp.
    unfold read_value. cbn [Ascii.eqb]. unfold read_int. cbv iota.
    change (Ascii.eqb "-" dquote) with false. change (Ascii.eqb "-" "-") with true.
    rewrite Hn. done.
Qed.

(** *** Objects *)

Definition value_text (v : pyval) : Prop := match v with VStr s => is_text s | _ => True end.
Definition member_text (kv : string * pyval) : Prop := is_text kv.1 ∧ value_text kv.2.

Lemma read_json_value v rest : value_text v → not_number rest →
  read_value (json_value v ^+ rest) = Some (v, rest).
Proof.
  intros Hv Hrest. destruct v as [s|z|[]|]; cbn [json_value]; [|by apply read_value_int|done..].
  rewrite json_string_app. unfold read_value. change (Ascii.eqb dquote dquote) with true.
  by rewrite scan_json_string.
Qed.
Lemma json_value_head v rest : ∃ c t, json_value v ^+ rest = String c t ∧
  existsb (Ascii.eqb c) [" "; "009"; "010"; "013"]%char = false.
Proof.
  destruct v as [s|[|p|p]|[]|]; cbn [json_value]; try (by eexists _, _).
  change (pretty (Z.pos p)) with (pretty (N.pos p)). unfold pretty, pretty_N.
  rewrite decide_False by done. rewrite pretty_N_go_app.
  destruct (read_pretty_N_go (N.pos p) ("" ^+ rest)) as (d & t & -> & Hd & _); [lia|].
  eexists _, t. split; [done|]. assert (d = 1 ∨ d = 2 ∨ d = 3 ∨ d = 4 ∨ d = 5 ∨ d = 6 ∨ d = 7 ∨
    d = 8 ∨ d = 9)%N as Hc by lia. by repeat destruct Hc as [->|Hc]; subst.
Qed.
Lemma skip_json_value v rest : skip_ws (String " " (json_value v ^+ rest)) = json_value v ^+ rest.
Proof.
  destruct (json_value_head v rest) as (c & t & -> & Hc).
  change (skip_ws (String c t) = String c t). cbn [skip_ws]. by rewrite Hc.
Qed.

Lemma read_members_print l fuel acc rest :
  l ≠ [] → Forall member_text l → NoDup (dkeys (acc ++ l)) → (length l ≤ fuel)%nat →
  read_members fuel acc (join ", " (map json_member l) ^+ String "}" rest) = Some (acc ++ l, rest).
Proof.
  revert fuel acc. induction l as [|[k v] l IH]; [done|].
  intros [|fuel] acc _ Hl Hnd Hfuel; [simpl in Hfuel; lia|].
  apply Forall_cons in Hl as [[Hk Hv] Hl]. simpl in Hk, Hv.
  assert (Hfresh : dset k v acc = acc ++ [(k, v)]).
  { apply dset_fresh, dget_None. unfold dkeys in Hnd |- *. rewrite fmap_app in Hnd.
    apply NoDup_app in Hnd as (_ & Hdis & _). intros Hin. apply (Hdis _ Hin). left. }
  assert (Hmem : ∀ tail, not_number tail →
    ∃ s1, json_member (k, v) ^+ tail = String dquote s1 ∧
      scan_string s1 = Some (k, ": " ^+ json_value v ^+ tail)).
  { intros tail _. eexists. unfold json_member. cbn [fst snd].
    rewrite !app_assoc_str, json_string_app. split; [done|]. by apply scan_json_string. }
  assert (Hstep : ∀ c tail s1, not_number (String c tail) →
    scan_string s1 = Some (k, ": " ^+ json_value v ^+ String c tail) → skip_ws (String c tail) = String c tail →
    read_members (S fuel) acc (String dquote s1) =
      if Ascii.eqb c "}" then Some (acc ++ [(k, v)], tail)
      else if Ascii.eqb c "," then read_members fuel (acc ++ [(k, v)]) (skip_ws tail) else None).
  { intros c tail s1 Hnum Hscan Hskip. cbn [read_members].
    change (Ascii.eqb dquote dquote) with true. cbv iota. rewrite Hscan.
    cbn [mbind option_bind]. rewrite !app_cons, app_empty_l.
    change (skip_ws (String ":" ?s)) with (String ":" s). cbv iota.
    change (Ascii.eqb ":" ":") with true. cbv iota. rewrite skip_json_value.
    rewrite read_json_value by done. cbn [mbind option_bind]. rewrite Hskip, Hfresh. done. }
  destruct l as [|kv l].
  - cbn [map join]. destruct (Hmem (String "}" rest)) as (s1 & -> & Hscan); [done|].
    by rewrite (Hstep "}"%char rest s1).
  - rewrite map_cons, join_cons by done. rewrite !app_assoc_str.
    rewrite (app_cons "," " " _). set (tail := " " ^+ _).
    destruct (Hmem (String "," tail)) as (s1 & -> & Hscan); [done|].
    rewrite (Hstep ","%char tail s1) by done.
    change (Ascii.eqb "," "}") with false. change (Ascii.eqb "," ",") with true. cbv iota.
    subst tail. rewrite app_cons, app_empty_l.
    assert (Hskip : ∀ k' v' m r, skip_ws (String " " (join ", " (json_member (k', v') :: m) ^+ r)) =
      join ", " (json_member (k', v') :: m) ^+ r).
    { intros k' v' [|x m] r; [done|]. rewrite join_cons by done. done. }
    destruct kv as [k' v']. rewrite map_cons, Hskip, <- map_cons.
    rewrite IH; [by rewrite <- app_assoc|done|done|by rewrite <- app_assoc|simpl in *; lia].
Qed.

Lemma sorted_keys d : dict_wf d → dict_wf (py_sorted key_leb d).
Proof. unfold dict_wf, dkeys. by rewrite (py_sorted_perm key_leb d). Qed.
Lemma dget_sorted k d : dict_wf d → dget k (py_sorted key_leb d) = dget k d.
Proof.
  intros Hd. apply option_eq. intros v. rewrite !dget_elem_iff by auto using sorted_keys.
  by rewrite (py_sorted_perm key_leb d).
Qed.
Lemma join_members_length l : (length l ≤ String.length (join ", " (map json_member l)))%nat.
Proof.
  assert (Hone : ∀ kv, (1 ≤ String.length (json_member kv))%nat)
    by (intros kv; unfold json_member, json_string; rewrite app_cons; simpl; lia).
  induction l as [|kv [|kv' l] IH]; [done|exact (Hone kv)|].
  rewrite map_cons, join_cons by done. rewrite !length_app_str.
  pose proof (Hone kv). simpl in *. lia.
Qed.
Lemma json_loads_dumps d : dict_wf d → Forall member_text d →
  json_loads (json_dumps d) = Ok (py_sorted key_leb d).
Proof.
  intros Hd Htext. unfold json_dumps.
  assert (Hs : Forall member_text (py_sorted key_leb d)) by by rewrite (py_sorted_perm key_leb d).
  pose proof (sorted_keys d Hd) as Hwf. generalize dependent (py_sorted key_leb d).
  intros l Hl Hwf. destruct l as [|[k v] l]; [done|].
  unfold json_loads, read_object. rewrite app_cons, app_empty_l.
  change (skip_ws (String "{" ?s)) with (String "{" s). cbv iota.
  change (Ascii.eqb "{" "{") with true. cbv iota.
  set (body := join _ _ ^+ "}").
  assert (Hbody : ∃ t, body = String dquote t).
  { subst body. destruct l as [|kv l]; [by eexists|]. rewrite map_cons, join_cons by done.
    unfold json_member at 1, json_string. rewrite !app_cons. by eexists. }
  destruct Hbody as [t Ht]. rewrite Ht.
  change (skip_ws (String dquote t)) with (String dquote t). cbv iota.
  change (Ascii.eqb dquote "}") with false. cbv iota. rewrite <- Ht. subst body.
  change "}" with (String "}" ""). rewrite read_members_print; try done.
  cbn [String.length]. rewrite length_app_str. pose proof (join_members_length ((k, v) :: l)).
  simpl in *. lia.
Qed.

(** Reading back what [json.dumps(..., sort_keys=True)] wrote gives the
    object that was written, its keys in sorted order: every field has the value
    it had, whatever text, control characters and non-ASCII included, it holds. *)
Theorem json_round_trip d : dict_wf d → Forall member_text d →
  ∃ d', json_loads (json_dumps d) = Ok d' ∧ d' ≡ₚ d ∧ ∀ k, dget k d' = dget k d.
Proof.
  intros Hd Ht. exists (py_sorted key_leb d). split; [by apply json_loads_dumps|].
  split; [apply py_sorted_perm|]. intros k. by apply dget_sorted.
Qed.

(** *** The text is one line of printable ASCII *)

Definition printable (c : ascii) : bool := char_between " " "~" c.
Lemma printable_hex n : 0 ≤ n < 16 → printable (hex_char n) = true.
Proof.
  intros Hn. assert (n = 0 ∨ n = 1 ∨ n = 2 ∨ n = 3 ∨ n = 4 ∨ n = 5 ∨ n = 6 ∨ n = 7 ∨ n = 8 ∨ n = 9
    ∨ n = 10 ∨ n = 11 ∨ n = 12 ∨ n = 13 ∨ n = 14 ∨ n = 15) as Hc by lia.
  by repeat destruct Hc as [->|Hc]; subst.
Qed.
Lemma printable_u_escape n : 0 ≤ n < 65536 → all_chars printable (u_escape n) = true.
Proof.
  intros Hn. unfold u_escape, hex4. cbn [all_chars].
  by rewrite !printable_hex by (Z.to_euclidean_division_equations; lia).
Qed.
Lemma printable_escape1 cp : scalar cp → all_chars printable (escape1 cp) = true.
Proof.
  intros Hcp. assert (Hrange : 0 ≤ cp < 1114112) by (unfold scalar in Hcp; lia). unfold escape1.
  repeat match goal with
  | |- context [if ?a =? ?b then _ else _] => destruct (Z.eqb_spec a b); [done|]
  end.
  destruct ((32 <=? cp) && (cp <=? 126)) eqn:Ep; bool_prop.
  - cbn [all_chars]. rewrite andb_true_r. unfold printable, char_between, char_leb, char_of.
    rewrite N_ascii_embedding by lia. apply andb_true_iff. rewrite !N.leb_le. simpl. lia.
  - destruct (Z.ltb_spec cp 65536); [apply printable_u_escape; lia|].
    by rewrite all_chars_app, !printable_u_escape by (Z.to_euclidean_division_equations; lia).
Qed.
Lemma printable_json_string s : is_text s → all_chars printable (json_string s) = true.
Proof.
  intros (cps & Hcps & ->). unfold json_string. rewrite utf8_decode_encode by done.
  cbn [all_chars]. rewrite all_chars_app. apply andb_true_iff. split; [done|].
  rewrite andb_true_r. induction Hcps as [|cp cps Hcp _ IH]; [done|].
  cbn [escape]. by rewrite all_chars_app, printable_escape1.
Qed.
Lemma printable_pretty_N_go x s :
  all_chars printable s = true → all_chars printable (pretty_N_go x s) = true.
Proof.
  revert s. induction (N.lt_wf_0 x) as [x _ IH]. intros s Hs.
  destruct (decide (x = 0%N)) as [->|Hx]; [by rewrite pretty_N_go_0|].
  rewrite pretty_N_go_step by lia. apply IH; [apply N.div_lt; lia|].
  cbn [all_chars]. rewrite Hs, andb_true_r.
  assert (Hm : (x `mod` 10 < 10)%N) by (apply N.mod_lt; lia). revert Hm.
  generalize (x `mod` 10)%N. intros d Hd. assert (d = 0 ∨ d = 1 ∨ d = 2 ∨ d = 3 ∨ d = 4 ∨ d = 5 ∨
    d = 6 ∨ d = 7 ∨ d = 8 ∨ d = 9)%N as Hc by lia. by repeat destruct Hc as [->|Hc]; subst.
Qed.
Lemma printable_pretty (z : Z) : all_chars printable (pretty z) = true.
Proof.
  assert (Hpos : ∀ p, all_chars printable (pretty (N.pos p)) = true).
  { intros p. unfold pretty, pretty_N. rewrite decide_False by done.
    by apply printable_pretty_N_go. }
  destruct z as [|p|p]; [done|exact (Hpos p)|].
  change (pretty (Z.neg p)) with ("-" ^+ pretty (N.pos p)). by rewrite all_chars_app, Hpos.
Qed.
Lemma printable_json_dumps d : Forall member_text d → all_chars printable (json_dumps d) = true.
Proof.
  intros Htext. unfold json_dumps. rewrite !all_chars_app.
  assert (Hl : Forall member_text (py_sorted key_leb d)) by by rewrite (py_sorted_perm key_leb d).
  apply andb_true_iff. split; [done|]. rewrite andb_true_r.
  assert (Hmem : ∀ kv, member_text kv → all_chars printable (json_member kv) = true).
  { intros [k v] [Hk Hv]. unfold json_member. cbn [fst snd] in *.
    rewrite !all_chars_app, printable_json_string by done.
    destruct v as [s|z|[]|]; [|exact (printable_pretty z)|done..].
    exact (printable_json_string s Hv). }
  induction Hl as [|kv [|kv' l] Hkv Hl IH]; [done|by apply Hmem|].
  rewrite map_cons, join_cons by done. by rewrite !all_chars_app, Hmem, IH.
Qed.

(** The JSON text of an event holds no newline, so the newline that
    separates the parts of the hashed payload cannot occur in it. *)
Theorem json_dumps_no_newline d : Forall member_text d → contains "010" (json_dumps d) = false.
Proof.
  intros Hd. apply (all_chars_contains printable); [by apply printable_json_dumps|reflexivity].
Qed.

(** Every ASCII string is a text. *)
Lemma is_text_ascii s : isascii s = true → is_text s.
Proof.
  induction s as [|c s IH]; intros Hs; [by exists []|].
  unfold isascii in Hs. cbn [all_chars] in Hs. apply andb_true_iff in Hs as [Hc Hs].
  apply N.ltb_lt in Hc.
  destruct (IH Hs) as (cps & Hcps & ->). exists (byte_of c :: cps).
  split; [constructor; [left; unfold byte_of; lia|done]|]. cbn [utf8_encode]. unfold utf8_encode1.
  rewrite (proj2 (Z.ltb_lt _ _)) by (unfold byte_of; lia). cbn [string_of].
  rewrite app_cons, app_empty_l. f_equal. unfold byte_of, char_of.
  by rewrite N2Z.id, ascii_N_embedding.
Qed.
Definition sample_object : dict string pyval :=
  [("reason", VStr (utf8_encode [99; 233; 10; 34; 128512])); ("count", VInt (-120)); ("note", VNone);
   ("verified", VBool true)].
Lemma sample_object_ok : dict_wf sample_object ∧ Forall member_text sample_object.
Proof.
  split; [by apply (bool_decide_unpack _)|].
  repeat constructor; try (by apply is_text_ascii).
  exists [99; 233; 10; 34; 128512]. split; [|done]. repeat constructor; unfold scalar; lia.
Qed.
Lemma json_round_trip_witness :
  ∃ d', json_loads (json_dumps sample_object) = Ok d' ∧ d' ≡ₚ sample_object ∧
        ∀ k, dget k d' = dget k sample_object.
Proof. apply json_round_trip; apply sample_object_ok. Defined.
Lemma json_dumps_no_newline_witness : contains "010" (json_dumps sample_object) = false.
Proof. apply json_dumps_no_newline. apply sample_object_ok. Defined.

(** * Nested JSON ([json.dumps] and [json.loads] of whole values)

    The values the source writes as JSON columns: scope lists and policy
    snapshots.  [json] is a Python value of JSON types; floats and lone
    surrogates, which the source never writes, are not among them, and their
    texts are refused here. *)

Inductive json :=
  | JNull
  | JBool (b : bool)
  | JInt (z : Z)
  | JStr (s : string)
  | JList (l : list json)
  | JObj (members : list (string * json)).

(** A mapping, or an object, by its fields. *)
Definition mapping : Type := dict string json.
(** [mapping.get(field)] *)
Definition jget (field : string) (m : mapping) : json := default JNull (dget field m).
(** [sorted(set(mapping) - allowed)] *)
Definition extra_fields {V} (m : dict string V) (allowed : list string) : list string :=
  py_sorted String.leb (List.filter (λ k, negb (existsb (String.eqb k) allowed)) (dkeys m)).

Section json_ind.
Context (P : json → Prop).
Context (Hnull : P JNull) (Hbool : ∀ b, P (JBool b)) (Hint : ∀ z, P (JInt z)).
Context (Hstr : ∀ s, P (JStr s)) (Hlist : ∀ l, Forall P l → P (JList l)).
Context (Hobj : ∀ d, Forall (λ kv, P kv.2) d → P (JObj d)).
(** Induction with the hypothesis for every element. *)
Fixpoint json_nested_ind (v : json) : P v :=
  match v with
  | JNull => Hnull
  | JBool b => Hbool b
  | JInt z => Hint z
  | JStr s => Hstr s
  | JList l => Hlist l ((fix go l : Forall P l := match l with
      | [] => Forall_nil_2 P
      | x :: l' => Forall_cons_2 P x l' (json_nested_ind x) (go l')
      end) l)
  | JObj d => Hobj d ((fix go d : Forall (λ kv, P kv.2) d := match d with
      | [] => Forall_nil_2 (λ kv, P kv.2)
      | kv :: d' => Forall_cons_2 (λ kv, P kv.2) kv d' (json_nested_ind kv.2) (go d')
      end) d)
  end.
End json_ind.

(** ** Writing *)

Definition member_leb {A} (x y : string * A) : bool := String.leb x.1 y.1.
Definition in_key_order {A} (sort_keys : bool) (members : list (string * A)) : list (string * A) :=
  if sort_keys then py_sorted member_leb members else members.
Definition json_field (m : string * string) : string := json_string m.1 ^+ ": " ^+ m.2.
Fixpoint dumps (sort_keys : bool) (v : json) : string :=
  match v with
  | JNull => "null"
  | JBool true => "true"
  | JBool false => "false"
  | JInt z => pretty z
  | JStr s => json_string s
  | JList l => "[" ^+ join ", " (map (dumps sort_keys) l) ^+ "]"
  | JObj d =>
      let members := map (λ kv, (kv.1, dumps sort_keys kv.2)) d in
      "{" ^+ join ", " (map json_field (in_key_order sort_keys members)) ^+ "}"
  end.

(** ** Reading *)

Definition scalar_json (v : pyval) : json :=
  match v with VStr s => JStr s | VInt z => JInt z | VBool b => JBool b | VNone => JNull end.

Fixpoint read_json (fuel : nat) (s : string) {struct fuel} : option (json * string) :=
  match fuel with
  | O => None
  | S fuel =>
      match s with
      | EmptyString => None
      | String c s1 =>
          if Ascii.eqb c "[" then
            match skip_ws s1 with
            | EmptyString => None
            | String e s2 =>
                if Ascii.eqb e "]" then Some (JList [], s2)
                else read_items fuel [] (String e s2)
            end
          else if Ascii.eqb c "{" then
            match skip_ws s1 with
            | EmptyString => None
            | String e s2 =>
                if Ascii.eqb e "}" then Some (JObj [], s2)
                else read_fields fuel [] (String e s2)
            end
          else '(v, rest) ← read_value s; Some (scalar_json v, rest)
      end
  end
with read_items (fuel : nat) (acc : list json) (s : string) {struct fuel} : option (json * string) :=
  match fuel with
  | O => None
  | S fuel =>
      '(v, s1) ← read_json fuel s;
      match skip_ws s1 with
      | String e s2 =>
          if Ascii.eqb e "]" then Some (JList (acc ++ [v]), s2)
          else if Ascii.eqb e "," then read_items fuel (acc ++ [v]) (skip_ws s2)
          else None
      | EmptyString => None
      end
  end
with read_fields (fuel : nat) (acc : dict string json) (s : string) {struct fuel} :
    option (json * string) :=
  match fuel with
  | O => None
  | S fuel =>
      match s with
      | EmptyString => None
      | String q s1 =>
          if Ascii.eqb q dquote then
            '(key, s2) ← scan_string s1;
            match skip_ws s2 with
            | String colon s3 =>
                if Ascii.eqb colon ":" then
                  '(v, s4) ← read_json fuel (skip_ws s3);
                  match skip_ws s4 with
                  | String e s5 =>
                      if Ascii.eqb e "}" then Some (JObj (dset key v acc), s5)
                      else if Ascii.eqb e "," then read_fields fuel (dset key v acc) (skip_ws s5)
                      else None
                  | EmptyString => None
                  end
                else None
            | EmptyString => None
            end
          else None
      end
  end.
Definition loads (s : string) : result json :=
  match read_json (S (String.length s + String.length s)) (skip_ws s) with
  | Some (v, rest) => if skip_ws rest == "" then Ok v else Raise (ValueError "Extra data")
  | None => Raise (ValueError "Expecting value")
  end.

Example loads_example :
  loads (dumps true (JObj [("b", JList [JStr "read:x"; JInt (-3); JObj []]); ("a", JBool true)])) =
  Ok (JObj [("a", JBool true); ("b", JList [JStr "read:x"; JInt (-3); JObj []])]).
Proof. vm_compute. reflexivity. Qed.

(** ** Round trip *)

(** The value whose objects hold their members in the order they are written. *)
Fixpoint as_written (sort_keys : bool) (v : json) : json :=
  match v with
  | JList l => JList (map (as_written sort_keys) l)
  | JObj d => JObj (in_key_order sort_keys (map (λ kv, (kv.1, as_written sort_keys kv.2)) d))
  | _ => v
  end.
(** Its strings are text and no object has a key twice. *)
Fixpoint json_ok (v : json) : Prop :=
  match v with
  | JStr s => is_text s
  | JList l => foldr (λ x P, json_ok x ∧ P) True l
  | JObj d => NoDup (map fst d) ∧ foldr (λ kv P, is_text kv.1 ∧ json_ok kv.2 ∧ P) True d
  | _ => True
  end.
Fixpoint json_size (v : json) : nat :=
  match v with
  | JList l => S (foldr (λ x n, S (json_size x + n)) O l)
  | JObj d => S (foldr (λ kv n, S (json_size kv.2 + n)) O d)
  | _ => 1
  end.

Lemma insert_sorted_map {A B} (f : A → B) (leb : B → B → bool) x l :
  insert_sorted leb (f x) (map f l) = map f (insert_sorted (λ a b, leb (f a) (f b)) x l).
Proof. induction l as [|y l IH]; simpl; [done|]. destruct (leb _ _); [done|]. by rewrite IH. Qed.
Lemma in_key_order_map {A B} sort_keys (f : A → B) (l : list (string * A)) :
  in_key_order sort_keys (map (λ kv, (kv.1, f kv.2)) l) =
  map (λ kv, (kv.1, f kv.2)) (in_key_order sort_keys l).
Proof.
  destruct sort_keys; [|done]. unfold in_key_order.
  induction l as [|x l IH]; simpl; [done|]. rewrite IH.
  by rewrite (insert_sorted_map (λ kv : string * A, (kv.1, f kv.2)) member_leb x).
Qed.
Lemma in_key_order_perm {A} sort_keys (l : list (string * A)) : in_key_order sort_keys l ≡ₚ l.
Proof. destruct sort_keys; [apply py_sorted_perm|done]. Qed.

Lemma json_ok_list l : json_ok (JList l) ↔ Forall json_ok l.
Proof.
  cbn [json_ok]. induction l as [|x l IH]; simpl; [by split|]. rewrite Forall_cons. tauto.
Qed.
Lemma json_ok_obj d :
  json_ok (JObj d) ↔ NoDup (map fst d) ∧ Forall (λ kv, is_text kv.1 ∧ json_ok kv.2) d.
Proof.
  cbn [json_ok]. apply and_iff_compat_l.
  induction d as [|x d IH]; simpl; [by split|]. rewrite Forall_cons. tauto.
Qed.

(** What begins a value is no white space. *)
Definition starts_solid (s : string) : Prop := ∃ c t, s = String c t ∧
  existsb (Ascii.eqb c) [" "; "009"; "010"; "013"]%char = false.
Lemma skip_solid s : starts_solid s → skip_ws s = s.
Proof. intros (c & t & -> & Hc). cbn [skip_ws]. by rewrite Hc. Qed.
Lemma skip_space_solid s : starts_solid s → skip_ws (String " " s) = s.
Proof. intros Hs. change (skip_ws s = s). by apply skip_solid. Qed.
Lemma dumps_solid sort v rest : starts_solid (dumps sort v ^+ rest).
Proof.
  destruct v as [|[]|z|s|l|d]; cbn [dumps]; try (by eexists _, _).
  exact (json_value_head (VInt z) rest).
Qed.
Lemma dumps_head sort v rest c t : dumps sort v ^+ rest = String c t →
  Ascii.eqb c "]" = false ∧ (match v with JList _ | JObj _ => True | _ =>
    Ascii.eqb c "[" = false ∧ Ascii.eqb c "{" = false end).
Proof.
  destruct v as [|[]|z|s|l|d]; cbn [dumps]; try (intros Heq; injection Heq as <- _; done).
  destruct z as [|p|p].
  - intros Heq. injection Heq as <- _. done.
  - intros Heq. destruct (read_positive p "" I) as (c' & t' & Hp & _ & d & Hd & Hc).
    rewrite app_empty_r in Hp. change (pretty (Z.pos p)) with (pretty (N.pos p)) in Heq.
    rewrite Hp in Heq. injection Heq as <- _. subst c'.
    assert (d = 1 ∨ d = 2 ∨ d = 3 ∨ d = 4 ∨ d = 5 ∨ d = 6 ∨ d = 7 ∨ d = 8 ∨ d = 9)%N as Hcase by lia.
    by repeat destruct Hcase as [->|Hcase]; subst.
  - change (pretty (Z.neg p)) with ("-" ^+ pretty (N.pos p)).
    intros Heq. injection Heq as <- _. done.
Qed.

Section round_trip.
Context (sort_keys : bool).

(** Reading back what was written for [v], with [fuel] left. *)
Definition reads_back (v : json) : Prop := ∀ fuel rest,
  (json_size v ≤ fuel)%nat → not_number rest →
  read_json fuel (dumps sort_keys v ^+ rest) = Some (as_written sort_keys v, rest).
Definition items_size (l : list json) : nat := foldr (λ x n, S (json_size x + n)) O l.
Definition fields_size (d : list (string * json)) : nat :=
  foldr (λ kv n, S (json_size kv.2 + n)) O d.

Lemma fields_size_perm d d' : d ≡ₚ d' → fields_size d = fields_size d'.
Proof. unfold fields_size. induction 1; simpl in *; lia. Qed.

Lemma read_scalar (v : pyval) fuel rest : value_text v → (1 ≤ fuel)%nat → not_number rest →
  read_json fuel (dumps sort_keys (scalar_json v) ^+ rest) = Some (scalar_json v, rest).
Proof.
  intros Hv Hfuel Hrest. destruct fuel as [|fuel]; [lia|]. cbn [read_json].
  assert (Hread : read_value (dumps sort_keys (scalar_json v) ^+ rest) = Some (v, rest)).
  { rewrite <- (read_json_value v rest Hv Hrest). by destruct v as [|z|[]|]. }
  destruct (dumps sort_keys (scalar_json v) ^+ rest) as [|c t] eqn:Hd; [done|].
  apply dumps_head in Hd as [_ Hd].
  assert (Ascii.eqb c "[" = false ∧ Ascii.eqb c "{" = false) as [-> ->] by by destruct v.
  by rewrite Hread.
Qed.

Lemma read_items_print l acc fuel rest :
  l ≠ [] → Forall reads_back l → (items_size l ≤ fuel)%nat →
  read_items fuel acc (join ", " (map (dumps sort_keys) l) ^+ String "]" rest) =
  Some (JList (acc ++ map (as_written sort_keys) l), rest).
Proof.
  revert acc fuel. induction l as [|v l IH]; [done|].
  intros acc fuel _ [Hv Hl]%Forall_cons Hfuel. unfold items_size in Hfuel. cbn [foldr] in Hfuel.
  destruct fuel as [|fuel]; [lia|]. cbn [read_items]. destruct l as [|v' l].
  - cbn [map join]. rewrite Hv by (simpl; lia || done). done.
  - rewrite map_cons, join_cons, !app_assoc_str by done.
    rewrite Hv by (simpl; lia || done). cbn [mbind option_bind].
    rewrite (app_cons "," " " _).
    change (skip_ws (String "," ?s)) with (String "," s). cbv iota.
    change (Ascii.eqb "," "]") with false. change (Ascii.eqb "," ",") with true. cbv iota.
    rewrite app_cons, app_empty_l.
    assert (Hsolid : starts_solid (join ", " (map (dumps sort_keys) (v' :: l)) ^+ String "]" rest)).
    { destruct l as [|x l]; [apply dumps_solid|]. rewrite map_cons, join_cons by done.
      rewrite app_assoc_str. apply dumps_solid. }
    rewrite skip_space_solid by done. rewrite IH by (done || unfold items_size; lia).
    by rewrite map_cons, <- app_assoc.
Qed.

Lemma read_fields_print d acc fuel rest :
  d ≠ [] → Forall (λ kv, is_text kv.1 ∧ reads_back kv.2) d → NoDup (dkeys (acc ++ d)) →
  (fields_size d ≤ fuel)%nat →
  read_fields fuel acc
    (join ", " (map json_field (map (λ kv, (kv.1, dumps sort_keys kv.2)) d)) ^+ String "}" rest) =
  Some (JObj (acc ++ map (λ kv, (kv.1, as_written sort_keys kv.2)) d), rest).
Proof.
  revert acc fuel. induction d as [|[k v] d IH]; [done|].
  intros acc fuel _ [[Hk Hv] Hd]%Forall_cons Hnd Hfuel. cbn [fst snd] in Hk, Hv.
  unfold fields_size in Hfuel. cbn [foldr snd] in Hfuel. destruct fuel as [|fuel]; [lia|].
  assert (Hfresh : dset k (as_written sort_keys v) acc = acc ++ [(k, as_written sort_keys v)]).
  { apply dset_fresh, dget_None. unfold dkeys in Hnd |- *. rewrite fmap_app in Hnd.
    apply NoDup_app in Hnd as (_ & Hdis & _). intros Hin. apply (Hdis _ Hin). left. }
  assert (Hstep : ∀ c tail, not_number (String c tail) → skip_ws (String c tail) = String c tail →
    read_fields (S fuel) acc (json_field (k, dumps sort_keys v) ^+ String c tail) =
      if Ascii.eqb c "}" then Some (JObj (acc ++ [(k, as_written sort_keys v)]), tail)
      else if Ascii.eqb c ","
      then read_fields fuel (acc ++ [(k, as_written sort_keys v)]) (skip_ws tail) else None).
  { intros c tail Hnum Hskip. unfold json_field. cbn [fst snd].
    rewrite !app_assoc_str, json_string_app. cbn [read_fields].
    change (Ascii.eqb dquote dquote) with true. cbv iota. rewrite scan_json_string by done.
    cbn [mbind option_bind]. rewrite !app_cons, app_empty_l.
    change (skip_ws (String ":" ?s)) with (String ":" s). cbv iota.
    change (Ascii.eqb ":" ":") with true. cbv iota.
    rewrite skip_space_solid by apply dumps_solid. rewrite Hv by (done || lia).
    cbn [mbind option_bind]. rewrite Hskip, Hfresh. done. }
  destruct d as [|[k' v'] d].
  - cbn [map join fst snd]. by rewrite Hstep.
  - rewrite !map_cons, join_cons, !app_assoc_str by done. cbn [fst snd].
    rewrite (app_cons "," " " _), Hstep by done.
    change (Ascii.eqb "," "}") with false. change (Ascii.eqb "," ",") with true. cbv iota.
    rewrite app_cons, app_empty_l.
    set (tail := join ", " _ ^+ _).
    assert (Hsolid : starts_solid tail).
    { exists dquote. subst tail. unfold json_field, json_string. cbn [fst].
      destruct d as [|x d]; [cbn [map join]|rewrite map_cons, join_cons by done];
        rewrite !app_cons; by eexists. }
    rewrite skip_space_solid by done. subst tail.
    change ((k', dumps sort_keys v') :: map (λ kv, (kv.1, dumps sort_keys kv.2)) d) with
      (map (λ kv, (kv.1, dumps sort_keys kv.2)) ((k', v') :: d)).
    rewrite <- map_cons. change ((k', dumps sort_keys v') :: map ?f d) with (map f ((k', v') :: d)).
    rewrite IH.
    + by rewrite map_cons, <- app_assoc.
    + done.
    + done.
    + unfold dkeys in *. rewrite !fmap_app in *. cbn [fmap list_fmap fst] in *.
      by rewrite <- app_assoc.
    + unfold fields_size. lia.
Qed.

Lemma read_json_dumps v : json_ok v → reads_back v.
Proof.
  induction v as [|b|z|s|l IH|d IH] using json_nested_ind; intros Hok fuel rest Hfuel Hrest;
    cbn [json_size] in Hfuel.
  - by apply (read_scalar VNone).
  - by apply (read_scalar (VBool b)).
  - by apply (read_scalar (VInt z)).
  - by apply (read_scalar (VStr s)).
  - rewrite json_ok_list in Hok. fold (items_size l) in Hfuel.
    destruct fuel as [|fuel]; [lia|]. cbn [dumps as_written].
    rewrite !app_assoc_str, app_cons, app_empty_l. cbn [read_json].
    change (Ascii.eqb "[" "[") with true. cbv iota.
    change ("]" ^+ rest) with (String "]" rest). destruct l as [|v l]; [done|].
    assert (Hsolid : starts_solid
      (join ", " (map (dumps sort_keys) (v :: l)) ^+ String "]" rest)).
    { destruct l as [|x l]; [apply dumps_solid|]. rewrite map_cons, join_cons by done.
      rewrite app_assoc_str. apply dumps_solid. }
    rewrite skip_solid by done.
    destruct (join ", " (map (dumps sort_keys) (v :: l)) ^+ String "]" rest) as [|e t] eqn:Ht;
      [by destruct Hsolid as (? & ? & ? & _)|].
    assert (Ascii.eqb e "]" = false) as ->.
    { destruct l as [|x l]; [|rewrite map_cons, join_cons, !app_assoc_str in Ht by done];
        by apply dumps_head in Ht as [? _]. }
    rewrite <- Ht, read_items_print; [done|done| |lia].
    rewrite Forall_forall in IH, Hok |- *. intros x Hx. by apply IH, Hok.
  - rewrite json_ok_obj in Hok. destruct Hok as [Hnd Htext]. fold (fields_size d) in Hfuel.
    destruct fuel as [|fuel]; [lia|]. cbn [dumps as_written].
    rewrite !in_key_order_map. set (d' := in_key_order sort_keys d).
    assert (Hperm : d' ≡ₚ d) by apply in_key_order_perm.
    rewrite <- (fields_size_perm _ _ Hperm) in Hfuel.
    rewrite !app_assoc_str, app_cons, app_empty_l. cbn [read_json].
    change (Ascii.eqb "{" "[") with false. change (Ascii.eqb "{" "{") with true. cbv iota.
    change ("}" ^+ rest) with (String "}" rest).
    assert (Hfields : Forall (λ kv, is_text kv.1 ∧ reads_back kv.2) d').
    { rewrite Hperm. rewrite Forall_forall in IH, Htext |- *. intros x Hx.
      split; [by apply Htext|]. by apply IH, Htext. }
    assert (Hnd' : NoDup (dkeys ([] ++ d'))).
    { unfold dkeys. cbn [app]. rewrite Hperm. done. }
    clearbody d'. destruct d' as [|[k v] d']; [done|].
    set (body := join ", " _ ^+ _).
    assert (Hbody : ∃ t, body = String dquote t).
    { subst body. cbn [map fst snd]. unfold json_field at 1, json_string. cbn [fst].
      destruct d' as [|x d']; [cbn [map join]|rewrite map_cons, join_cons by done];
        rewrite !app_cons; by eexists. }
    destruct Hbody as [t Ht]. rewrite Ht.
    change (skip_ws (String dquote t)) with (String dquote t). cbv iota.
    change (Ascii.eqb dquote "}") with false. cbv iota. rewrite <- Ht. subst body.
    rewrite read_fields_print; [done|done|done|done|lia].
Qed.

Lemma join_pieces_length {A} (f : A → string) (size : A → nat) l :
  Forall (λ x, (size x < 2 * String.length (f x))%nat) l →
  (foldr (λ x n, S (size x + n)) O l ≤ 2 * String.length (join ", " (map f l)))%nat.
Proof.
  induction 1 as [|x l Hx Hl IH]; [done|]. destruct l as [|y l]; [simpl in *; lia|].
  rewrite map_cons, join_cons by done. rewrite !length_app_str. cbn [foldr] in *.
  simpl in IH |- *. lia.
Qed.
Lemma json_size_length v : (json_size v < 2 * String.length (dumps sort_keys v))%nat.
Proof.
  induction v as [|[]|z|s|l IH|d IH] using json_nested_ind; cbn [json_size dumps]; try (simpl; lia).
  - destruct (json_value_head (VInt z) "") as (c & t & Heq & _).
    rewrite app_empty_r in Heq. cbn [json_value] in Heq. rewrite Heq. simpl. lia.
  - apply join_pieces_length in IH. rewrite !length_app_str. simpl. lia.
  - rewrite in_key_order_map, map_map. fold (fields_size d).
    rewrite (fields_size_perm d (in_key_order sort_keys d)) by (symmetry; apply in_key_order_perm).
    assert (Hl : Forall (λ kv : string * json, (json_size kv.2 < 2 * String.length
      (json_field (kv.1, dumps sort_keys kv.2)))%nat) (in_key_order sort_keys d)).
    { rewrite in_key_order_perm. eapply Forall_impl; [exact IH|]. intros [k v] Hv. cbn in Hv |- *.
      unfold json_field. cbn [fst snd]. rewrite !length_app_str. lia. }
    apply join_pieces_length in Hl. rewrite !length_app_str. unfold fields_size. simpl. lia.
Qed.
Lemma loads_dumps v : json_ok v → loads (dumps sort_keys v) = Ok (as_written sort_keys v).
Proof.
  intros Hok. unfold loads.
  assert (Hskip : skip_ws (dumps sort_keys v) = dumps sort_keys v).
  { pose proof (dumps_solid sort_keys v "") as Hs. rewrite app_empty_r in Hs.
    by apply skip_solid. }
  rewrite Hskip. pose proof (json_size_length v) as Hsize.
  pose proof (read_json_dumps v Hok (S (String.length (dumps sort_keys v) +
    String.length (dumps sort_keys v))) "") as Hread. rewrite app_empty_r in Hread.
  rewrite Hread by (done || lia). done.
Qed.
End round_trip.

(** Without sorting, a value reads back as it is. *)
Lemma as_written_plain v : as_written false v = v.
Proof.
  induction v as [|b|z|s|l IH|d IH] using json_nested_ind; cbn [as_written in_key_order]; try done.
  - f_equal. induction IH as [|x l Hx _ IH]; [done|]. simpl. by rewrite Hx, IH.
  - f_equal. induction IH as [|[k x] l Hx _ IH]; [done|]. simpl in *. by rewrite Hx, IH.
Qed.

(** [json.loads] reads back what [json.dumps] wrote, at any nesting: the same
    value, whose objects' members come in sorted order when the writer sorted
    them. *)
Theorem json_tree_round_trip sort_keys v :
  json_ok v → loads (dumps sort_keys v) = Ok (as_written sort_keys v).
Proof. apply loads_dumps. Qed.

Lemma json_tree_round_trip_witness :
  loads (dumps true (JObj [("b", JList [JStr "read:x"; JInt (-3)]); ("a", JNull)])) =
  Ok (JObj [("a", JNull); ("b", JList [JStr "read:x"; JInt (-3)])]).
Proof.
  apply (json_tree_round_trip true). apply json_ok_obj.
  split; [by apply (bool_decide_unpack _)|].
  repeat (apply Forall_cons_2; [split; [by apply is_text_ascii|]|]); [| |by apply Forall_nil_2];
    [|done]. apply json_ok_list.
  apply Forall_cons_2; [by apply is_text_ascii|]. by apply Forall_cons_2; [|apply Forall_nil_2].
Defined.

(** *** Lists of strings ([json.dumps(list(scopes))]) *)

Definition json_strings (l : list string) : string := dumps false (JList (map JStr l)).
(** [tuple(json.loads(text))], on the texts the writers store. *)
Definition read_strings (text : string) : result (list string) :=
  v ← loads text;
  match v with
  | JList l => mapM (λ x, match x with JStr s => Ok s | _ => Raise (TypeError text) end) l
  | _ => Raise (TypeError text)
  end.
Lemma read_json_strings l : Forall is_text l → read_strings (json_strings l) = Ok l.
Proof.
  intros Hl. unfold read_strings, json_strings. rewrite loads_dumps, as_written_plain.
  - change (Ok ?x ≫= ?f) with (f x). cbv beta iota. clear Hl.
    generalize (dumps false (JList (map JStr l))). intros text.
    induction l as [|s l IH]; [done|]. cbn [map mapM]. by rewrite IH.
  - apply json_ok_list. induction Hl; simpl; by constructor.
Qed.
