(* ===== verification/AuditChain.v ===== *)
(** * The tamper-evident audit chain ([src/vinctor_service/audit_chain.py] and
      [SQLiteAuditWriter] of [src/vinctor_service/sqlite.py])

    The [audit_events] table as the list of its rows in insertion order: each
    row holds the event's JSON text, the materialized columns that mirror its
    fields, and the chain columns, which are NULL on a row written before the
    chain existed.  Anyone who can write to the database can put any row there;
    what the verifier promises is about such tables. *)
From S2P Require Import Prelude PyStr PyDict PyTime Models Enforce CoreAudit AuditJson Sha256 Json.

Definition GENESIS_PREV_HASH : string :=
  "0000000000000000000000000000000000000000000000000000000000000000".

(** An f-string prints [None] for a NULL hash. *)
Definition fmt (o : option string) : string := default "None" o.
Definition newline : string := String "010" "".
Definition chain_payload (seq : Z) (event_json prev_hash : string) : string :=
  pretty seq ^+ newline ^+ event_json ^+ newline ^+ prev_hash.
Definition row_hash (seq : Z) (event_json prev_hash : string) : string :=
  sha256_hex (chain_payload seq event_json prev_hash).

Record audit_row := mkRow {
  r_seq : option Z;
  r_prev_hash : option string;
  r_row_hash : option string;
  r_event_json : string;
  r_columns : dict string pyval
}.
Definition column (name : string) (row : audit_row) : pyval :=
  default VNone (dget name (r_columns row)).

Definition _CROSSCHECK_COLUMNS : list string :=
  ["event_id"; "event_type"; "decision"; "reason"; "workspace_id"; "agent_id";
   "grant_id"; "grant_ref"; "action"; "resource"; "scope_attempted";
   "scope_matched"; "boundary_id"; "runtime"; "boundary_type"; "created_at";
   "subject_token_verified"; "event_class"].

(** ** Comparing a column with the JSON field it mirrors *)

(** Python's [==] on these values: a bool equals the integer 0 or 1 it is. *)
Definition py_number (v : pyval) : option Z :=
  match v with VInt z => Some z | VBool b => Some (Z.b2z b) | _ => None end.
Definition py_eq (a b : pyval) : bool :=
  match a, b with
  | VStr s, VStr t => s == t
  | VNone, VNone => true
  | _, _ =>
      match py_number a, py_number b with
      | Some x, Some y => x =? y
      | _, _ => false
      end
  end.
Definition _canonical_instant (value : pyval) : pyval :=
  match value with
  | VStr s => match fromisoformat s with Ok t => VStr (isoformat t) | Raise _ => value end
  | _ => value
  end.
Definition _DATETIME_CROSSCHECK_FIELDS := ["created_at"; "first_seen_at"; "last_seen_at"].
Definition _BOOLEAN_CROSSCHECK_FIELDS := ["subject_token_verified"].
Definition crosscheck_values_match (column : string) (json_value column_value : pyval) : bool :=
  if existsb (String.eqb column) _DATETIME_CROSSCHECK_FIELDS
  then py_eq (_canonical_instant json_value) (_canonical_instant column_value)
  else if existsb (String.eqb column) _BOOLEAN_CROSSCHECK_FIELDS
  then Bool.eqb (truthy json_value) (truthy column_value)
  else if column == "event_class"
  then py_eq (match json_value with VNone => VStr "decision" | v => v end) column_value
  else py_eq json_value column_value.

(** ** Writing *)

(** [ORDER BY seq]: NULLs first. *)
Definition seq_leb (a b : audit_row) : bool :=
  match r_seq a, r_seq b with
  | None, _ => true
  | Some _, None => false
  | Some x, Some y => x <=? y
  end.
Definition by_seq (rows : list audit_row) : list audit_row := py_sorted seq_leb rows.

Definition event_columns (event : AuditEvent) : dict string pyval :=
  [("event_id", VStr (e_event_id event));
   ("event_type", VStr (e_event_type event));
   ("decision", VStr (decision_str (e_decision event)));
   ("reason", VStr (e_reason event));
   ("workspace_id", VStr (e_workspace_id event));
   ("agent_id", VStr (e_agent_id event));
   ("grant_id", VStr (e_grant_id event));
   ("grant_ref", VStr (e_grant_ref event));
   ("action", VStr (e_action event));
   ("resource", VStr (e_resource event));
   ("scope_attempted", VStr (e_scope_attempted event));
   ("scope_matched", opt_str (e_scope_matched event));
   ("boundary_id", opt_str (e_boundary_id event));
   ("runtime", opt_str (e_runtime event));
   ("boundary_type", opt_str (e_boundary_type event));
   ("created_at", VStr (isoformat (e_created_at event)));
   ("subject_token_verified", VInt (Z.b2z (e_subject_token_verified event)));
   ("event_class", VStr (e_event_class event))].

(** [INSERT INTO audit_events]: [event_id] is the primary key, [seq] is unique. *)
Definition insert_row (row : audit_row) : M (list audit_row) unit := λ rows,
  if existsb (λ r, py_eq (column "event_id" r) (column "event_id" row)) rows
  then (Raise (StorageError "UNIQUE constraint failed: audit_events.event_id"), rows)
  else if existsb (λ r, match r_seq r, r_seq row with
                        | Some x, Some y => x =? y
                        | _, _ => false
                        end) rows
  then (Raise (StorageError "UNIQUE constraint failed: audit_events.seq"), rows)
  else (Ok tt, rows ++ [row]).

Definition _write_event (event : AuditEvent) : M (list audit_row) (Z * string * string) :=
  let event_json := json_dumps (to_dict event) in
  head ← gets (λ rows, last (by_seq rows));
  prev_seq ← match head with
             | None => mret 0
             | Some row =>
                 match r_seq row with
                 | Some seq => mret seq
                 | None => raise (TypeError "unsupported operand type(s) for +")
                 end
             end;
  let prev_hash := match head with Some row => r_row_hash row | None => Some GENESIS_PREV_HASH end in
  let seq := prev_seq + 1 in
  let current_hash := row_hash seq event_json (fmt prev_hash) in
  _ ← insert_row (mkRow (Some seq) prev_hash (Some current_hash) event_json (event_columns event));
  mret (seq, current_hash, isoformat (e_created_at event)).

(** The one-time migration of rows written before the chain
    ([UPDATE ... WHERE rowid = ?] on each row whose hash is NULL). *)
Fixpoint backfill_from (seq : Z) (prev : string) (rows : list audit_row) : list audit_row :=
  match rows with
  | [] => []
  | row :: rows' =>
      match r_row_hash row with
      | Some _ => row :: backfill_from seq prev rows'
      | None =>
          let seq := seq + 1 in
          let rh := row_hash seq (r_event_json row) prev in
          mkRow (Some seq) (Some prev) (Some rh) (r_event_json row) (r_columns row)
          :: backfill_from seq rh rows'
      end
  end.
Definition chained (row : audit_row) : bool := bool_decide (is_Some (r_row_hash row)).
Definition ensure_hashchain (backfill_done : bool) (rows : list audit_row) : list audit_row :=
  if backfill_done then rows
  else
    let start := last (by_seq (List.filter chained rows)) in
    match start ≫= r_seq with
    | Some seq => backfill_from seq (str_or_else (start ≫= r_row_hash) GENESIS_PREV_HASH) rows
    | None => backfill_from 0 GENESIS_PREV_HASH rows
    end.

(** ** Reading *)

Definition load_event (event_json : string) : result AuditEvent :=
  data ← json_loads event_json; _audit_event_from_json data.
Definition get (event_id : string) (rows : list audit_row) : result (option AuditEvent) :=
  match List.find (λ r, py_eq (column "event_id" r) (VStr event_id)) rows with
  | None => Ok None
  | Some row => event ← load_event (r_event_json row); Ok (Some event)
  end.
Definition list_all (rows : list audit_row) : result (list AuditEvent) :=
  mapM (λ row, load_event (r_event_json row)) (by_seq rows).

(** ** Verifying *)

Record ChainVerification := mkChainVerification {
  cv_ok : bool;
  cv_count : nat;
  cv_head_seq : Z;
  cv_head_hash : string;
  cv_break_seq : option Z;
  cv_break_event_id : option pyval;
  cv_break_kind : option string
}.

Definition columns_agree (data : dict string pyval) (row : audit_row) : bool :=
  forallb (λ name, crosscheck_values_match name (event_json_value data name) (column name row))
    _CROSSCHECK_COLUMNS.

Fixpoint verify_from (count : nat) (prev : string) (expected_seq : Z) (rows : list audit_row) :
    result ChainVerification :=
  let head_seq := expected_seq - 1 in
  match rows with
  | [] => Ok (mkChainVerification true count head_seq prev None None None)
  | row :: rows' =>
      let broken break_seq kind :=
        Ok (mkChainVerification false count head_seq prev (Some break_seq)
              (Some (column "event_id" row)) (Some kind)) in
      if negb (bool_decide (r_seq row = Some expected_seq)) then broken expected_seq "deleted"
      else if negb (bool_decide (r_prev_hash row = Some prev)) then broken expected_seq "reordered"
      else
        let h := row_hash expected_seq (r_event_json row) prev in
        if negb (bool_decide (r_row_hash row = Some h)) then broken expected_seq "modified"
        else
          data ← json_loads (r_event_json row);
          if negb (columns_agree data row) then broken expected_seq "column_mismatch"
          else verify_from count h (expected_seq + 1) rows'
  end.
Definition verify_chain (rows : list audit_row) : result ChainVerification :=
  verify_from (length rows) GENESIS_PREV_HASH 1 (by_seq rows).

Definition chain_head (rows : list audit_row) : option Z * option string :=
  match last (by_seq rows) with
  | Some row => (r_seq row, r_row_hash row)
  | None => (Some 0, Some GENESIS_PREV_HASH)
  end.

Record AnchorRecord := mkAnchorRecord { an_seq : Z; an_row_hash : string }.
Record AnchorVerification := mkAnchorVerification {
  av_ok : bool;
  av_checked : Z;
  av_covered_max_seq : Z;
  av_head_seq : option Z;
  av_divergence_seq : option Z;
  av_divergence_kind : option string
}.

Definition row_at (seq : Z) (rows : list audit_row) : option audit_row :=
  List.find (λ r, bool_decide (r_seq r = Some seq)) rows.
(** A NULL head makes the final comparison a [TypeError]. *)
Fixpoint check_anchors (rows : list audit_row) (head_seq : option Z) (total covered : Z)
    (records : list AnchorRecord) : result AnchorVerification :=
  let failed checked seq kind :=
    Ok (mkAnchorVerification false checked covered head_seq (Some seq) (Some kind)) in
  match records with
  | [] =>
      match head_seq with
      | None => Raise (TypeError "'<' not supported between instances of 'int' and 'NoneType'")
      | Some head =>
          if covered <? head then failed total (covered + 1) "uncovered"
          else Ok (mkAnchorVerification true total covered head_seq None None)
      end
  | rec :: records' =>
      match row_at (an_seq rec) rows with
      | None => failed covered (an_seq rec) "missing"
      | Some row =>
          if negb (bool_decide (r_row_hash row = Some (an_row_hash rec)))
          then failed covered (an_seq rec) "mismatch"
          else check_anchors rows head_seq total (Z.max covered (an_seq rec)) records'
      end
  end.
Definition verify_against_anchor (records : list AnchorRecord) (rows : list audit_row) :
    result AnchorVerification :=
  check_anchors rows (chain_head rows).1 (Z.of_nat (length records)) 0 records.

(** ** Specification

    [valid_from n prev rows]: the rows are numbered from [n], each names the
    hash before it ([prev] for the first) and carries its own, and its columns
    agree with its JSON text. *)
Fixpoint valid_from (n : Z) (prev : string) (rows : list audit_row) : Prop :=
  match rows with
  | [] => True
  | row :: rows' =>
      r_seq row = Some n ∧ r_prev_hash row = Some prev ∧
      r_row_hash row = Some (row_hash n (r_event_json row) prev) ∧
      (∃ data, json_loads (r_event_json row) = Ok data ∧ columns_agree data row = true) ∧
      valid_from (n + 1) (row_hash n (r_event_json row) prev) rows'
  end.
(** The hash that ends a valid chain. *)
Fixpoint final_hash (n : Z) (prev : string) (rows : list audit_row) : string :=
  match rows with
  | [] => prev
  | row :: rows' => final_hash (n + 1) (row_hash n (r_event_json row) prev) rows'
  end.
(** The rows that writing [es] appends to a chain at [n] and [prev]. *)
Fixpoint chain_rows (n : Z) (prev : string) (es : list AuditEvent) : list audit_row :=
  match es with
  | [] => []
  | e :: es' =>
      let event_json := json_dumps (to_dict e) in
      let h := row_hash n event_json prev in
      mkRow (Some n) (Some prev) (Some h) event_json (event_columns e) :: chain_rows (n + 1) h es'
  end.
(** The table that holds exactly the log [es]. *)
Definition log_table (es : list AuditEvent) : list audit_row := chain_rows 1 GENESIS_PREV_HASH es.
Definition log_head (es : list AuditEvent) : string :=
  final_hash 1 GENESIS_PREV_HASH (log_table es).
(** The strings of an event are Unicode text. *)
Definition event_text (e : AuditEvent) : Prop := Forall member_text (to_dict e).

(** What a row's hash binds. *)
Definition row_payload (row : audit_row) : string :=
  chain_payload (default 0 (r_seq row)) (r_event_json row) (fmt (r_prev_hash row)).
Definition chain_data (row : audit_row) : option Z * option string * option string * string :=
  (r_seq row, r_prev_hash row, r_row_hash row, r_event_json row).
(** Two of the payloads hashed for these rows differ and have the same SHA-256. *)
Definition payloads_collide (rows1 rows2 : list audit_row) : Prop :=
  ∃ p1 p2, p1 ∈ map row_payload rows1 ∧ p2 ∈ map row_payload rows2 ∧ p1 ≠ p2 ∧
           sha256_hex p1 = sha256_hex p2.

(** ** The hashed payload *)

Lemma length_hex l : String.length (hex l) = (2 * length l)%nat.
Proof. induction l as [|b l IH]; simpl; [done|]. lia. Qed.
Lemma length_sha256_hex s : String.length (sha256_hex s) = 64%nat.
Proof.
  unfold sha256_hex. rewrite length_hex. unfold sha256. cbv zeta.
  rewrite !length_app, !length_be_bytes. done.
Qed.
Lemma app_inj_length s1 s2 t1 t2 :
  String.length t1 = String.length t2 → s1 ^+ t1 = s2 ^+ t2 → s1 = s2 ∧ t1 = t2.
Proof.
  revert s2. induction s1 as [|c s1 IH]; intros [|d s2] Hlen Heq;
    rewrite ?app_cons, ?app_empty_l in Heq.
  - done.
  - exfalso. subst t1. simpl in Hlen. rewrite length_app_str in Hlen. lia.
  - exfalso. subst t2. simpl in Hlen. rewrite length_app_str in Hlen. lia.
  - injection Heq as -> Heq. by destruct (IH s2 Hlen Heq) as [-> ->].
Qed.
Lemma pretty_Z_inj (m n : Z) : pretty m = pretty n → m = n.
Proof.
  intros Heq. pose proof (read_value_int m "" I) as Hm. rewrite Heq in Hm.
  rewrite (read_value_int n "" I) in Hm. congruence.
Qed.

(** The number, the text and the previous hash can be read back from the
    payload that is hashed, whatever the text is: no two different rows hash the
    same bytes. *)
Lemma chain_payload_inj m n j1 j2 p1 p2 :
  String.length p1 = String.length p2 →
  chain_payload m j1 p1 = chain_payload n j2 p2 → m = n ∧ j1 = j2 ∧ p1 = p2.
Proof.
  unfold chain_payload, newline. intros Hlen Heq. rewrite !app_cons, !app_empty_l in Heq.
  apply app_sep_inj in Heq as [Hseq Heq];
    [|by apply (all_chars_contains printable), eq_refl; apply printable_pretty..].
  apply app_inj_length in Heq as [-> Hp]; [|simpl; lia].
  split_and!; [by apply pretty_Z_inj|done|by injection Hp].
Qed.

(** ** The verifier *)

Lemma verify_from_ok count n prev rows v :
  verify_from count prev n rows = Ok v → cv_ok v = true →
  valid_from n prev rows ∧
  v = mkChainVerification true count (n + Z.of_nat (length rows) - 1) (final_hash n prev rows)
        None None None.
Proof.
  revert n prev. induction rows as [|row rows IH]; intros n prev; cbn [verify_from].
  { intros [= <-] _. simpl. split; [done|]. f_equal. lia. }
  destruct (bool_decide_reflect (r_seq row = Some n)); [|by intros [= <-]].
  destruct (bool_decide_reflect (r_prev_hash row = Some prev)); [|by intros [= <-]].
  destruct (bool_decide_reflect (r_row_hash row = Some (row_hash n (r_event_json row) prev)));
    [|by intros [= <-]]. cbn [negb].
  destruct (json_loads (r_event_json row)) as [data|ex] eqn:Hjson; [|done].
  change (Ok data ≫= ?f) with (f data). cbv beta.
  destruct (columns_agree data row) eqn:Hcols; [|by intros [= <-]].
  intros Hv Hok. apply IH in Hv as [Hvalid ->]; [|done]. cbn [valid_from final_hash length].
  split; [by eauto 10|]. f_equal. lia.
Qed.
Lemma verify_from_valid count n prev rows :
  valid_from n prev rows →
  verify_from count prev n rows =
  Ok (mkChainVerification true count (n + Z.of_nat (length rows) - 1) (final_hash n prev rows)
        None None None).
Proof.
  revert n prev. induction rows as [|row rows IH]; intros n prev; cbn [verify_from].
  { intros _. simpl. do 2 f_equal. lia. }
  intros (Hs & Hp & Hh & (data & Hjson & Hcols) & Hvalid).
  rewrite !bool_decide_true by done. rewrite Hjson. cbn [negb].
  change (Ok data ≫= ?f) with (f data). cbv beta. rewrite Hcols, IH by done.
  cbn [negb length final_hash]. do 2 f_equal. lia.
Qed.

(** The verifier accepts a table exactly when its rows, in sequence order,
    form an unbroken chain from the genesis hash whose columns agree with the
    hashed text; it then reports the number of rows and the last hash. *)
Theorem verify_chain_ok_iff rows v :
  verify_chain rows = Ok v ∧ cv_ok v = true ↔
  valid_from 1 GENESIS_PREV_HASH (by_seq rows) ∧
  v = mkChainVerification true (length rows) (Z.of_nat (length rows))
        (final_hash 1 GENESIS_PREV_HASH (by_seq rows)) None None None.
Proof.
  assert (Hlen : length (by_seq rows) = length rows)
    by apply Permutation_length, py_sorted_perm.
  unfold verify_chain. split.
  - intros [Hv Hok]. apply verify_from_ok in Hv as [Hvalid ->]; [|done].
    split; [done|]. rewrite Hlen. f_equal. lia.
  - intros [Hvalid ->]. rewrite verify_from_valid, Hlen by done.
    split; [do 2 f_equal; lia|done].
Qed.

Lemma verify_from_break count n prev rows v :
  verify_from count prev n rows = Ok v → cv_ok v = false →
  ∃ pre row post, rows = pre ++ row :: post ∧ valid_from n prev pre ∧
    let at_row := n + Z.of_nat (length pre) in
    let h := final_hash n prev pre in
    cv_head_seq v = at_row - 1 ∧ cv_head_hash v = h ∧
    cv_break_seq v = Some at_row ∧ cv_break_event_id v = Some (column "event_id" row) ∧
    ((cv_break_kind v = Some "deleted" ∧ r_seq row ≠ Some at_row) ∨
     (cv_break_kind v = Some "reordered" ∧ r_seq row = Some at_row ∧ r_prev_hash row ≠ Some h) ∨
     (cv_break_kind v = Some "modified" ∧ r_prev_hash row = Some h ∧
      r_row_hash row ≠ Some (row_hash at_row (r_event_json row) h)) ∨
     (cv_break_kind v = Some "column_mismatch" ∧
      r_row_hash row = Some (row_hash at_row (r_event_json row) h) ∧
      ∃ data, json_loads (r_event_json row) = Ok data ∧ columns_agree data row = false)).
Proof.
  revert n prev. induction rows as [|row rows IH]; intros n prev; cbn [verify_from].
  { by intros [= <-]. }
  assert (Hhere : ∀ P : list audit_row → audit_row → list audit_row → Prop,
    P [] row rows → ∃ pre r post, row :: rows = pre ++ r :: post ∧ valid_from n prev pre ∧ P pre r post).
  { intros P HP. by exists [], row, rows. }
  destruct (bool_decide_reflect (r_seq row = Some n)) as [Hs|Hs].
  2: { intros [= <-] _. apply Hhere. cbn. rewrite Z.add_0_r. split_and!; [done..|]. by left. }
  destruct (bool_decide_reflect (r_prev_hash row = Some prev)) as [Hp|Hp].
  2: { intros [= <-] _. apply Hhere. cbn. rewrite Z.add_0_r. split_and!; [done..|]. by right; left. }
  destruct (bool_decide_reflect (r_row_hash row = Some (row_hash n (r_event_json row) prev)))
    as [Hh|Hh].
  2: { intros [= <-] _. apply Hhere. cbn. rewrite Z.add_0_r. split_and!; [done..|].
       right; right; left. by split_and!. }
  cbn [negb]. destruct (json_loads (r_event_json row)) as [data|ex] eqn:Hjson; [|done].
  change (Ok data ≫= ?f) with (f data). cbv beta.
  destruct (columns_agree data row) eqn:Hcols; cbn [negb].
  2: { intros [= <-] _. apply Hhere. cbn. rewrite Z.add_0_r. split_and!; [done..|].
       right; right; right. split_and!; [done..|]. by exists data. }
  intros Hv Hok. destruct (IH _ _ Hv Hok) as (pre & r & post & -> & Hpre & Hrest).
  exists (row :: pre), r, post. split; [done|]. split; [by cbn; eauto 10|].
  cbn [length final_hash]. cbv zeta in *.
  replace (n + Z.of_nat (S (length pre))) with (n + 1 + Z.of_nat (length pre)) by lia. done.
Qed.

(** A rejected table is reported at its first break: the rows before it are
    an intact chain, and the kind says what is wrong with the row that breaks
    it, its number, its link, its hash or a column. *)
Theorem verify_chain_first_break rows v :
  verify_chain rows = Ok v → cv_ok v = false →
  ∃ pre row post, by_seq rows = pre ++ row :: post ∧ valid_from 1 GENESIS_PREV_HASH pre ∧
    let at_row := 1 + Z.of_nat (length pre) in
    let h := final_hash 1 GENESIS_PREV_HASH pre in
    cv_head_seq v = at_row - 1 ∧ cv_head_hash v = h ∧
    cv_break_seq v = Some at_row ∧ cv_break_event_id v = Some (column "event_id" row) ∧
    ((cv_break_kind v = Some "deleted" ∧ r_seq row ≠ Some at_row) ∨
     (cv_break_kind v = Some "reordered" ∧ r_seq row = Some at_row ∧ r_prev_hash row ≠ Some h) ∨
     (cv_break_kind v = Some "modified" ∧ r_prev_hash row = Some h ∧
      r_row_hash row ≠ Some (row_hash at_row (r_event_json row) h)) ∨
     (cv_break_kind v = Some "column_mismatch" ∧
      r_row_hash row = Some (row_hash at_row (r_event_json row) h) ∧
      ∃ data, json_loads (r_event_json row) = Ok data ∧ columns_agree data row = false)).
Proof. apply verify_from_break. Qed.

(** ** The table as a log *)

Lemma length_chain_rows n prev es : length (chain_rows n prev es) = length es.
Proof. revert n prev. induction es as [|e es IH]; intros; simpl; [done|]. by rewrite IH. Qed.
Lemma chain_rows_snoc n prev es e :
  chain_rows n prev (es ++ [e]) =
  chain_rows n prev es ++ chain_rows (n + Z.of_nat (length es)) (final_hash n prev (chain_rows n prev es)) [e].
Proof.
  revert n prev. induction es as [|x es IH]; intros n prev; cbn [app length].
  { cbn [chain_rows final_hash app]. by rewrite Z.add_0_r. }
  cbn [chain_rows final_hash r_event_json app]. f_equal. rewrite IH. cbn [chain_rows].
  replace (n + 1 + Z.of_nat (length es)) with (n + Z.of_nat (S (length es))) by lia. done.
Qed.
Lemma chain_rows_sorted n prev es : by_seq (chain_rows n prev es) = chain_rows n prev es.
Proof.
  apply py_sorted_id. revert n prev.
  induction es as [|e es IH]; intros n prev; cbn [chain_rows]; constructor; [apply IH|].
  destruct es as [|e' es]; cbn [chain_rows]; constructor. unfold seq_leb. simpl. lia.
Qed.
Lemma log_last es e : ∃ row, last (log_table (es ++ [e])) = Some row ∧
  r_seq row = Some (Z.of_nat (S (length es))) ∧ r_row_hash row = Some (log_head (es ++ [e])).
Proof.
  assert (Hfin : ∀ n prev rows row, final_hash n prev (rows ++ [row]) =
    row_hash (n + Z.of_nat (length rows)) (r_event_json row) (final_hash n prev rows)).
  { intros n prev rows row. revert n prev. induction rows as [|x rows IH]; intros n prev; simpl.
    - by rewrite Z.add_0_r.
    - rewrite IH. f_equal. lia. }
  unfold log_head, log_table. rewrite chain_rows_snoc. cbn [chain_rows].
  rewrite last_snoc. eexists. split; [done|]. cbn [r_seq r_row_hash].
  split; [f_equal; lia|]. rewrite Hfin, length_chain_rows. done.
Qed.
Lemma log_column es id :
  existsb (λ r, py_eq (column "event_id" r) (VStr id)) (log_table es) =
  existsb (λ e, e_event_id e == id) es.
Proof.
  unfold log_table. generalize 1, GENESIS_PREV_HASH.
  induction es as [|e es IH]; intros n prev; [done|]. cbn [chain_rows existsb]. by rewrite IH.
Qed.
Lemma log_seq_fresh n prev es m : n + Z.of_nat (length es) ≤ m →
  existsb (λ r, match r_seq r with Some x => x =? m | None => false end)
    (chain_rows n prev es) = false.
Proof.
  revert n prev. induction es as [|e es IH]; intros n prev Hm; [done|].
  cbn [chain_rows existsb r_seq length] in *. rewrite IH by lia. rewrite orb_false_r. lia.
Qed.

(** Writing an event to the table of a log appends it to the log, unless the
    log already has an event of that id: then it is refused and the table stays
    as it was. *)
Theorem write_event_appends es e :
  _write_event e (log_table es) =
  if existsb (λ x, e_event_id x == e_event_id e) es
  then (Raise (StorageError "UNIQUE constraint failed: audit_events.event_id"), log_table es)
  else (Ok (Z.of_nat (S (length es)), log_head (es ++ [e]), isoformat (e_created_at e)),
        log_table (es ++ [e])).
Proof.
  assert (Hins : ∀ n h j rh, n = Z.of_nat (S (length es)) →
    insert_row (mkRow (Some n) h rh j (event_columns e)) (log_table es) =
    if existsb (λ x, e_event_id x == e_event_id e) es
    then (Raise (StorageError "UNIQUE constraint failed: audit_events.event_id"), log_table es)
    else (Ok tt, log_table es ++ [mkRow (Some n) h rh j (event_columns e)])).
  { intros n h j rh ->. unfold insert_row. cbn [r_seq].
    change (column "event_id" (mkRow _ _ _ _ _)) with (VStr (e_event_id e)).
    rewrite log_column. destruct (existsb _ es); [done|].
    unfold log_table. by rewrite log_seq_fresh by lia. }
  assert (Hhead : log_head (es ++ [e]) =
    row_hash (Z.of_nat (S (length es))) (json_dumps (to_dict e)) (log_head es)).
  { destruct (log_last es e) as (row & Hlast & _ & Hh). unfold log_table in *.
    rewrite chain_rows_snoc in Hlast. cbn [chain_rows] in Hlast. rewrite last_snoc in Hlast.
    injection Hlast as <-. cbn [r_row_hash] in Hh. injection Hh as <-.
    unfold log_head, log_table. f_equal. lia. }
  unfold _write_event, mbind, M_bind, gets. cbv beta iota.
  assert (Hsorted : by_seq (log_table es) = log_table es) by apply chain_rows_sorted.
  rewrite Hsorted, Hhead. assert (Hsnoc : log_table (es ++ [e]) = log_table es ++
    [mkRow (Some (Z.of_nat (S (length es)))) (Some (log_head es))
       (Some (row_hash (Z.of_nat (S (length es))) (json_dumps (to_dict e)) (log_head es)))
       (json_dumps (to_dict e)) (event_columns e)]).
  { unfold log_table at 1. rewrite chain_rows_snoc. cbn [chain_rows]. unfold log_head.
    replace (1 + Z.of_nat (length es)) with (Z.of_nat (S (length es))) by lia. done. }
  destruct (decide (es = [])) as [->|Hne].
  - rewrite Hsnoc. reflexivity.
  - destruct (exists_last Hne) as (es0 & x & Hes).
    destruct (log_last es0 x) as (row & Hlast & Hseq & Hh). rewrite <- Hes in Hlast, Hh.
    assert (Hn : Z.of_nat (S (length es0)) + 1 = Z.of_nat (S (length es)))
      by (rewrite Hes, length_app; simpl; lia).
    rewrite Hlast, Hseq. unfold mret, M_ret. rewrite Hh. cbn [fmt default].
    rewrite Hins by done. rewrite Hn. destruct (existsb _ es); [done|]. by rewrite Hsnoc.
Qed.

(** *** Every log verifies and reads back *)

Lemma to_dict_wf e : dict_wf (to_dict e).
Proof.
  assert (Hset : ∀ {A} key (f : A → pyval) (o : option A) d,
    dict_wf d → dict_wf (set_some key f o d)) by (intros A key f [a|] d Hd; [by apply dset_wf|done]).
  unfold to_dict. cbv zeta. destruct (negb _); [apply dset_wf|];
    (apply Hset; destruct (e_subject_token_verified e); [apply dset_wf|]; repeat apply Hset;
     unfold dict_wf, dkeys; cbn [fmap list_fmap fst]; by apply (bool_decide_unpack _)).
Qed.
Lemma load_json e : event_text e →
  ∃ data, json_loads (json_dumps (to_dict e)) = Ok data ∧ ∀ k, dget k data = dget k (to_dict e).
Proof.
  intros Ht. exists (py_sorted key_leb (to_dict e)).
  split; [by apply json_loads_dumps; [apply to_dict_wf|]|].
  intros k. apply dget_sorted, to_dict_wf.
Qed.
Lemma py_eq_refl v : py_eq v v = true.
Proof. destruct v as [s|z|[]|]; simpl; [apply eqb_refl|lia|done..]. Qed.
Lemma to_dict_no_legacy e : dget LEGACY_SUBJECT_TOKEN_VERIFIED_FIELD (to_dict e) = None.
Proof. unfold LEGACY_SUBJECT_TOKEN_VERIFIED_FIELD. dict_key. Qed.
Lemma agree_plain name data row v :
  dget name data = Some v →
  existsb (String.eqb name) ["created_at"; "first_seen_at"; "last_seen_at"; "subject_token_verified";
    "event_class"] = false →
  column name row = v →
  crosscheck_values_match name (event_json_value data name) (column name row) = true.
Proof.
  cbn [existsb]. intros Hv Hn ->. repeat apply orb_false_elim in Hn as [? Hn].
  unfold crosscheck_values_match, event_json_value. cbn [existsb _DATETIME_CROSSCHECK_FIELDS
    _BOOLEAN_CROSSCHECK_FIELDS]. rewrite Hv.
  destruct (name == "created_at"), (name == "first_seen_at"), (name == "last_seen_at"),
    (name == "subject_token_verified"), (name == "event_class"); try done.
  apply py_eq_refl.
Qed.
Lemma event_columns_agree data e n p h j :
  (∀ k, dget k data = dget k (to_dict e)) →
  columns_agree data (mkRow n p h j (event_columns e)) = true.
Proof.
  intros Hd. pose proof (to_dict_fields e) as
    (H1&H2&H3&H4&H5&H6&H7&H8&H9&H10&H11&H12&H13&H14&H15&H16).
  pose proof (to_dict_optional_fields e) as (_&_&_&_&_&Ov&_&Oc).
  pose proof (to_dict_no_legacy e) as Hl. rewrite <- Hd in * |-.
  set (row := mkRow n p h j (event_columns e)).
  unfold columns_agree, _CROSSCHECK_COLUMNS. cbn [forallb].
  rewrite (agree_plain _ _ row _ H1 eq_refl eq_refl), (agree_plain _ _ row _ H2 eq_refl eq_refl),
    (agree_plain _ _ row _ H3 eq_refl eq_refl), (agree_plain _ _ row _ H4 eq_refl eq_refl),
    (agree_plain _ _ row _ H5 eq_refl eq_refl), (agree_plain _ _ row _ H6 eq_refl eq_refl),
    (agree_plain _ _ row _ H7 eq_refl eq_refl), (agree_plain _ _ row _ H8 eq_refl eq_refl),
    (agree_plain _ _ row _ H9 eq_refl eq_refl), (agree_plain _ _ row _ H10 eq_refl eq_refl),
    (agree_plain _ _ row _ H11 eq_refl eq_refl), (agree_plain _ _ row _ H12 eq_refl eq_refl),
    (agree_plain _ _ row _ H13 eq_refl eq_refl), (agree_plain _ _ row _ H14 eq_refl eq_refl),
    (agree_plain _ _ row _ H15 eq_refl eq_refl).
  unfold event_json_value, din. rewrite H16, Ov, Oc, Hl.
  change (column "created_at" _) with (VStr (isoformat (e_created_at e))).
  change (column "subject_token_verified" _) with (VInt (Z.b2z (e_subject_token_verified e))).
  change (column "event_class" _) with (VStr (e_event_class e)).
  unfold crosscheck_values_match. cbn [existsb String.eqb Ascii.eqb Bool.eqb orb andb default
    _DATETIME_CROSSCHECK_FIELDS _BOOLEAN_CROSSCHECK_FIELDS]. rewrite py_eq_refl.
  destruct (e_subject_token_verified e); cbn;
    destruct (String.eqb_spec (e_event_class e) "decision") as [->|]; cbn; by rewrite ?eqb_refl.
Qed.

Lemma chain_rows_valid n prev es : Forall event_text es → valid_from n prev (chain_rows n prev es).
Proof.
  intros Hes. revert n prev. induction Hes as [|e es He _ IH]; intros n prev; [done|].
  cbn [chain_rows valid_from r_seq r_prev_hash r_row_hash r_event_json]. split_and!; try done.
  destruct (load_json e He) as (data & Hdata & Hget). exists data.
  split; [done|by apply event_columns_agree].
Qed.
Lemma load_event_written e : event_text e → event_times_ok e →
  load_event (json_dumps (to_dict e)) = Ok e.
Proof.
  intros Ht Htimes. destruct (load_json e Ht) as (data & Hdata & Hget).
  unfold load_event. rewrite Hdata. change (Ok data ≫= ?f) with (f data). cbv beta.
  by apply audit_event_from_fields.
Qed.
Definition event_storable (e : AuditEvent) : Prop := event_text e ∧ event_times_ok e.
Lemma list_all_chain n prev es : Forall event_storable es →
  mapM (λ row, load_event (r_event_json row)) (chain_rows n prev es) = Ok es.
Proof.
  intros Hes. revert n prev. induction Hes as [|e es [Ht Htimes] _ IH]; intros n prev; [done|].
  cbn [chain_rows mapM r_event_json]. rewrite load_event_written, IH by done. done.
Qed.

(** C32: A log of any events, in the order they were written, verifies, with its
    length and last hash reported, and reads back event for event. *)
Theorem log_verifies_and_reads_back es : Forall event_storable es →
  verify_chain (log_table es) =
    Ok (mkChainVerification true (length es) (Z.of_nat (length es)) (log_head es) None None None) ∧
  chain_head (log_table es) = (Some (Z.of_nat (length es)), Some (log_head es)) ∧
  list_all (log_table es) = Ok es.
Proof.
  intros Hes. assert (Hvalid : valid_from 1 GENESIS_PREV_HASH (log_table es)).
  { apply chain_rows_valid. eapply Forall_impl; [exact Hes|]. by intros e [Ht _]. }
  assert (Hsorted : by_seq (log_table es) = log_table es) by apply chain_rows_sorted.
  unfold verify_chain, chain_head, list_all. rewrite Hsorted. split_and!.
  - rewrite verify_from_valid by done. unfold log_table. rewrite length_chain_rows.
    do 2 f_equal. lia.
  - destruct (decide (es = [])) as [->|Hne]; [done|].
    destruct (exists_last Hne) as (es0 & x & ->).
    destruct (log_last es0 x) as (row & -> & -> & ->). rewrite length_app. simpl.
    do 2 f_equal. lia.
  - by apply list_all_chain.
Qed.

(** ** Tamper evidence *)

Lemma valid_payloads n prev rows row : valid_from n prev rows → row ∈ rows →
  r_row_hash row = Some (sha256_hex (row_payload row)).
Proof.
  revert n prev. induction rows as [|r rows IH]; intros n prev; [by intros _ ?%elem_of_nil|].
  intros (Hs & Hp & Hh & _ & Hrest) [->|Hin]%elem_of_cons; [|by eapply IH].
  rewrite Hh. unfold row_payload, row_hash. by rewrite Hs, Hp.
Qed.
Lemma collide_cons r1 r2 rows1 rows2 :
  payloads_collide rows1 rows2 → payloads_collide (r1 :: rows1) (r2 :: rows2).
Proof.
  intros (p1 & p2 & H1 & H2 & Hrest). exists p1, p2. cbn [map].
  split; [by right|]. split; [by right|]. done.
Qed.
Lemma final_hash_determines n prev1 prev2 rows1 rows2 :
  valid_from n prev1 rows1 → valid_from n prev2 rows2 → length rows1 = length rows2 →
  String.length prev1 = String.length prev2 →
  final_hash n prev1 rows1 = final_hash n prev2 rows2 →
  (prev1 = prev2 ∧ map chain_data rows1 = map chain_data rows2) ∨ payloads_collide rows1 rows2.
Proof.
  revert n prev1 prev2 rows2. induction rows1 as [|r1 rows1 IH]; intros n prev1 prev2 [|r2 rows2];
    try done; [by left|].
  intros (Hs1 & Hp1 & Hh1 & _ & Hv1) (Hs2 & Hp2 & Hh2 & _ & Hv2) Hlen Hprev Hfin.
  cbn [final_hash] in Hfin. destruct (IH _ _ _ _ Hv1 Hv2) as [[Heq Hdata]|Hcol].
  - by injection Hlen.
  - unfold row_hash. by rewrite !length_sha256_hex.
  - done.
  - destruct (decide (row_payload r1 = row_payload r2)) as [Hpay|Hpay].
    + left. unfold row_payload in Hpay. rewrite Hs1, Hs2, Hp1, Hp2 in Hpay.
      change (chain_payload n (r_event_json r1) prev1 = chain_payload n (r_event_json r2) prev2)
        in Hpay.
      apply chain_payload_inj in Hpay as (_ & Hj & ->); [|done]. split; [done|].
      cbn [map]. rewrite Hdata. f_equal. unfold chain_data.
      by rewrite Hs1, Hs2, Hp1, Hp2, Hh1, Hh2, Hj.
    + right. exists (row_payload r1), (row_payload r2). cbn [map].
      split; [by left|]. split; [by left|]. split; [done|].
      unfold row_payload. by rewrite Hs1, Hs2, Hp1, Hp2.
  - right. by apply collide_cons.
Qed.
Lemma chain_data_loads rows1 rows2 : map chain_data rows1 = map chain_data rows2 →
  mapM (λ row, load_event (r_event_json row)) rows1 =
  mapM (λ row, load_event (r_event_json row)) rows2.
Proof.
  revert rows2. induction rows1 as [|r1 rows1 IH]; intros [|r2 rows2] Heq; try done.
  cbn [map] in Heq. injection Heq as Hs Hp Hh Hj Heq. cbn [mapM]. by rewrite Hj, (IH _ Heq).
Qed.

(** C15: Two tables that both verify with the same head number and head hash hold
    the same numbers, texts and hashes, and read as the same events, unless two
    of the payloads hashed for them are an explicit SHA-256 collision: nothing
    can be edited, dropped, inserted or reordered behind a head that is known. *)
Theorem chain_tamper_evident t1 t2 v1 v2 :
  verify_chain t1 = Ok v1 → cv_ok v1 = true → verify_chain t2 = Ok v2 → cv_ok v2 = true →
  cv_head_seq v1 = cv_head_seq v2 → cv_head_hash v1 = cv_head_hash v2 →
  (map chain_data (by_seq t1) = map chain_data (by_seq t2) ∧ list_all t1 = list_all t2) ∨
  payloads_collide (by_seq t1) (by_seq t2).
Proof.
  unfold verify_chain. intros Hv1 Hok1 Hv2 Hok2.
  apply verify_from_ok in Hv1 as [Hvalid1 ->]; [|done].
  apply verify_from_ok in Hv2 as [Hvalid2 ->]; [|done]. cbn. intros Hseq Hhash.
  destruct (final_hash_determines _ _ _ _ _ Hvalid1 Hvalid2) as [[_ Hdata]|Hcol];
    [lia|done|done| |by right].
  left. split; [done|]. by apply chain_data_loads.
Qed.

(** ** Anchors *)

Lemma seq_leb_total a b : seq_leb a b = true ∨ seq_leb b a = true.
Proof. unfold seq_leb. destruct (r_seq a), (r_seq b); rewrite ?Z.leb_le; try lia; auto. Qed.
Lemma row_at_elem n rows row : row_at n rows = Some row → row ∈ by_seq rows ∧ r_seq row = Some n.
Proof.
  intros Hr. apply find_some in Hr as [Hin Hs]. rewrite bool_decide_eq_true in Hs.
  split; [|done]. unfold by_seq. rewrite (py_sorted_perm seq_leb rows). by apply list_elem_of_In.
Qed.
(** A row of a valid chain, by its number. *)
Lemma valid_row n prev rows row k :
  valid_from n prev rows → row ∈ rows → r_seq row = Some k →
  n ≤ k < n + Z.of_nat (length rows) ∧
  r_row_hash row = Some (final_hash n prev (take (Z.to_nat (k - n + 1)) rows)).
Proof.
  revert n prev. induction rows as [|r rows IH]; intros n prev; [by intros _ ?%elem_of_nil|].
  intros (Hs & Hp & Hh & _ & Hrest) [->|Hin]%elem_of_cons Hk.
  - rewrite Hs in Hk. injection Hk as ->. split; [simpl; lia|].
    replace (Z.to_nat (k - k + 1)) with 1%nat by lia. by rewrite Hh.
  - destruct (IH _ _ Hrest Hin Hk) as [Hrange ->]. split; [simpl; lia|].
    replace (Z.to_nat (k - n + 1)) with (S (Z.to_nat (k - (n + 1) + 1))) by lia. done.
Qed.
Lemma valid_take n prev rows k : valid_from n prev rows → valid_from n prev (take k rows).
Proof.
  revert n prev k. induction rows as [|r rows IH]; intros n prev [|k]; try done.
  cbn [take valid_from]. intros (? & ? & ? & ? & Hrest). eauto 10.
Qed.
Lemma valid_last n prev rows row :
  valid_from n prev (rows ++ [row]) → r_seq row = Some (n + Z.of_nat (length rows)).
Proof.
  revert n prev. induction rows as [|x rows IH]; intros n prev; simpl.
  - intros (-> & _). f_equal. lia.
  - intros (_ & _ & _ & _ & Hr%IH). rewrite Hr. f_equal. lia.
Qed.
Lemma chain_head_valid rows : valid_from 1 GENESIS_PREV_HASH (by_seq rows) →
  (chain_head rows).1 = Some (Z.of_nat (length (by_seq rows))).
Proof.
  unfold chain_head. destruct (last (by_seq rows)) as [r|] eqn:Hlast.
  - apply last_Some in Hlast as [l ->]. intros Hvalid. cbn [fst].
    rewrite (valid_last _ _ _ _ Hvalid), length_app. simpl. f_equal. lia.
  - by apply last_None in Hlast as ->.
Qed.
Lemma check_anchors_ok rows head total covered records a :
  check_anchors rows head total covered records = Ok a → av_ok a = true →
  Forall (λ rec, ∃ row, row_at (an_seq rec) rows = Some row ∧
                        r_row_hash row = Some (an_row_hash rec)) records ∧
  ∃ h, head = Some h ∧ h ≤ av_covered_max_seq a ∧
       (av_covered_max_seq a = covered ∨ ∃ rec, rec ∈ records ∧ an_seq rec = av_covered_max_seq a).
Proof.
  revert covered. induction records as [|rec records IH]; intros covered; cbn [check_anchors].
  { destruct head as [h|]; [|done]. destruct (Z.ltb_spec covered h); intros [= <-]; [done|].
    intros _. split; [done|]. exists h. simpl. auto. }
  destruct (row_at (an_seq rec) rows) as [row|] eqn:Hrow; [|by intros [= <-]].
  destruct (bool_decide_reflect (r_row_hash row = Some (an_row_hash rec))); [|by intros [= <-]].
  intros Ha Hok. apply IH in Ha as (Hall & h & Hh & Hcov & Hmax); [|done].
  split; [constructor; [by exists row|done]|]. exists h. split_and!; [done|done|].
  destruct Hmax as [Hmax|(rec' & Hin & Hmax)]; [|right; exists rec'; by split; [right|]].
  destruct (Z.max_spec covered (an_seq rec)) as [[_ Hm]|[_ Hm]]; rewrite Hm in Hmax;
    [right; exists rec; split; [left|done]|by left].
Qed.

(** Once the head of a log was anchored, a later table that verifies and
    passes the anchor check begins with exactly that log (or the payloads contain
    an explicit SHA-256 collision): anchored history cannot be rewritten, and the
    check leaves no row above the last anchor. *)
Theorem anchored_history_fixed t0 v0 t v records a :
  verify_chain t0 = Ok v0 → cv_ok v0 = true → 0 < cv_head_seq v0 →
  mkAnchorRecord (cv_head_seq v0) (cv_head_hash v0) ∈ records →
  verify_chain t = Ok v → cv_ok v = true →
  verify_against_anchor records t = Ok a → av_ok a = true →
  (take (length t0) (map chain_data (by_seq t)) = map chain_data (by_seq t0) ∨
   payloads_collide (by_seq t0) (take (length t0) (by_seq t))) ∧
  (∃ rec, rec ∈ records ∧ an_seq rec = cv_head_seq v ∧ an_row_hash rec = cv_head_hash v).
Proof.
  assert (Hlen : ∀ t, length (by_seq t) = length t)
    by (intros; apply Permutation_length, py_sorted_perm).
  unfold verify_chain. intros Hv0 Hok0 Hpos Hrec Hv Hok Ha Hoka.
  apply verify_from_ok in Hv0 as [Hvalid0 ->]; [|done].
  apply verify_from_ok in Hv as [Hvalid ->]; [|done]. cbn [cv_head_seq cv_head_hash] in *.
  rewrite Hlen in *. apply check_anchors_ok in Ha as (Hall & h & Hhead & Hcov & Hmax); [|done].
  rewrite Forall_forall in Hall. split.
  - destruct (Hall _ Hrec) as (row & Hrow & Hhash). cbn [an_seq an_row_hash] in *.
    apply row_at_elem in Hrow as [Hin Hseq].
    destruct (valid_row _ _ _ _ _ Hvalid Hin Hseq) as [Hrange Hfin].
    rewrite Hhash in Hfin. injection Hfin as Hfin.
    replace (Z.to_nat (1 + Z.of_nat (length t0) - 1 - 1 + 1)) with (length t0) in Hfin by lia.
    destruct (final_hash_determines 1 GENESIS_PREV_HASH GENESIS_PREV_HASH (by_seq t0)
      (take (length t0) (by_seq t))) as [[_ Hdata]|Hcol]; try done.
    + by apply valid_take.
    + rewrite length_take. rewrite !Hlen in *. lia.
    + left. rewrite Hdata. apply firstn_map.
    + by right.
  - assert (Hpos' : 0 < Z.of_nat (length t)).
    { destruct (Hall _ Hrec) as (row & Hrow & _). apply row_at_elem in Hrow as [Hin _].
      rewrite <- Hlen. destruct (by_seq t); [by apply elem_of_nil in Hin|simpl; lia]. }
    rewrite (chain_head_valid _ Hvalid) in Hhead. injection Hhead as <-. rewrite Hlen in Hcov.
    destruct Hmax as [Hmax|(rec & Hin & Hmax)]; [lia|].
    destruct (Hall _ Hin) as (row & Hrow & Hhash). apply row_at_elem in Hrow as [Hin' Hseq].
    destruct (valid_row _ _ _ _ _ Hvalid Hin' Hseq) as [Hrange Hfin]. rewrite Hlen in Hrange.
    exists rec. split; [done|]. assert (an_seq rec = Z.of_nat (length t)) as Hn by lia.
    split; [lia|]. rewrite Hhash, Hn in Hfin. injection Hfin as ->.
    by rewrite take_ge by (rewrite Hlen; lia).
Qed.

(** ** The migration of old tables *)

(** A row written before the chain existed. *)
Definition legacy_row (row : audit_row) : Prop :=
  r_row_hash row = None ∧
  ∃ data, json_loads (r_event_json row) = Ok data ∧ columns_agree data row = true.
Definition row_contents (row : audit_row) : string * dict string pyval :=
  (r_event_json row, r_columns row).

Lemma valid_sorted n prev rows : valid_from n prev rows → by_seq rows = rows.
Proof.
  intros Hvalid. apply py_sorted_id. revert n prev Hvalid.
  induction rows as [|r rows IH]; intros n prev; [constructor|].
  intros (Hs & _ & _ & _ & Hrest). constructor; [by eapply IH|].
  destruct rows as [|r' rows]; constructor. destruct Hrest as (Hs' & _).
  unfold seq_leb. rewrite Hs, Hs'. lia.
Qed.
Lemma valid_chained n prev rows : valid_from n prev rows → List.filter chained rows = rows.
Proof.
  revert n prev. induction rows as [|r rows IH]; intros n prev; [done|].
  intros (_ & _ & Hh & _ & Hrest). simpl. unfold chained at 1. rewrite Hh. cbn.
  by rewrite (IH _ _ Hrest).
Qed.
Lemma valid_app n prev rows1 rows2 :
  valid_from n prev rows1 →
  valid_from (n + Z.of_nat (length rows1)) (final_hash n prev rows1) rows2 →
  valid_from n prev (rows1 ++ rows2).
Proof.
  revert n prev. induction rows1 as [|r rows1 IH]; intros n prev; simpl.
  - by rewrite Z.add_0_r.
  - intros (? & ? & ? & ? & Hrest) Hrows2. split_and!; try done. apply IH; [done|].
    by replace (n + 1 + Z.of_nat (length rows1)) with (n + Z.pos (Pos.of_succ_nat (length rows1)))
      by lia.
Qed.
Lemma backfill_chained n prev rows1 rows2 seq h :
  valid_from n prev rows1 →
  backfill_from seq h (rows1 ++ rows2) = rows1 ++ backfill_from seq h rows2.
Proof.
  revert n prev. induction rows1 as [|r rows1 IH]; intros n prev; [done|].
  intros (_ & _ & Hh & _ & Hrest). cbn [app backfill_from]. by rewrite Hh, (IH _ _ Hrest).
Qed.
Lemma backfill_legacy seq prev rows : Forall legacy_row rows →
  valid_from (seq + 1) prev (backfill_from seq prev rows) ∧
  map row_contents (backfill_from seq prev rows) = map row_contents rows.
Proof.
  intros Hl. revert seq prev. induction Hl as [|r rows (Hh & Hdata) _ IH]; intros seq prev; [done|].
  cbn [backfill_from]. rewrite Hh. cbn [valid_from r_seq r_prev_hash r_row_hash r_event_json map].
  destruct (IH (seq + 1) (row_hash (seq + 1) (r_event_json r) prev)) as [Hvalid Hmap].
  split; [by split_and!|]. by rewrite Hmap.
Qed.
Lemma filter_legacy rows : Forall legacy_row rows → List.filter chained rows = [].
Proof. induction 1 as [|r rows (Hh & _) _ IH]; [done|]. simpl. unfold chained. by rewrite Hh. Qed.
Lemma last_final n prev rows row : valid_from n prev (rows ++ [row]) →
  r_row_hash row = Some (final_hash n prev (rows ++ [row])).
Proof.
  revert n prev. induction rows as [|x rows IH]; intros n prev; simpl.
  - by intros (_ & _ & ? & _).
  - intros (_ & _ & _ & _ & Hr). by apply IH.
Qed.
Lemma str_or_else_hash s d : s ≠ "" → str_or_else (Some s) d = s.
Proof. intros Hs. unfold str_or_else. by destruct s. Qed.

(** The migration continues an interrupted one: from a chained prefix and
    rows written before the chain it makes a table that verifies, without
    touching an event's text or columns; once it is recorded, it does nothing. *)
Theorem backfill_completes_chain pre post :
  valid_from 1 GENESIS_PREV_HASH pre → Forall legacy_row post →
  let migrated := ensure_hashchain false (pre ++ post) in
  (∃ v, verify_chain migrated = Ok v ∧ cv_ok v = true ∧ cv_count v = length (pre ++ post)) ∧
  map row_contents migrated = map row_contents (pre ++ post) ∧
  ensure_hashchain true migrated = migrated.
Proof.
  intros Hpre Hpost migrated.
  assert (Hm : migrated = pre ++ backfill_from (Z.of_nat (length pre))
                                   (final_hash 1 GENESIS_PREV_HASH pre) post).
  { unfold migrated, ensure_hashchain. cbv iota zeta.
    rewrite List.filter_app, (valid_chained _ _ _ Hpre), filter_legacy, app_nil_r,
      (valid_sorted _ _ _ Hpre) by done.
    destruct (decide (pre = [])) as [->|Hne]; [done|].
    destruct (exists_last Hne) as (pre0 & x & ->). rewrite last_snoc.
    cbn [mbind option_bind]. rewrite (valid_last _ _ _ _ Hpre), (last_final _ _ _ _ Hpre).
    rewrite str_or_else_hash.
    - rewrite (backfill_chained _ _ _ _ _ _ Hpre), length_app. do 2 f_equal. simpl. lia.
    - intros Hempty. pose proof (last_final _ _ _ _ Hpre) as Hl. rewrite Hempty in Hl.
      pose proof (valid_payloads _ _ _ x Hpre) as Hx. rewrite Hl in Hx.
      assert (Hs : Some "" = Some (sha256_hex (row_payload x)))
        by (apply Hx, elem_of_app; right; left).
      injection Hs as Hs. pose proof (length_sha256_hex (row_payload x)) as Hlen.
      by rewrite <- Hs in Hlen. }
  destruct (backfill_legacy (Z.of_nat (length pre)) (final_hash 1 GENESIS_PREV_HASH pre) post Hpost)
    as [Hvalid Hmap]. rewrite Z.add_comm in Hvalid.
  pose proof (valid_app _ _ _ _ Hpre Hvalid) as Hall. rewrite <- Hm in Hall.
  assert (Hcontents : map row_contents migrated = map row_contents (pre ++ post))
    by (rewrite Hm, !map_app, Hmap; done).
  split_and!; [|done|done]. unfold verify_chain. rewrite (valid_sorted _ _ _ Hall).
  eexists. split; [by apply verify_from_valid|]. split; [done|]. cbn [cv_count].
  by rewrite <- (length_map row_contents migrated), Hcontents, length_map.
Qed.

(** A row whose hash is NULL is never accepted by the verifier. *)
Lemma unhashed_row_rejected rows v row :
  verify_chain rows = Ok v → row ∈ rows → r_row_hash row = None → cv_ok v = false.
Proof.
  unfold verify_chain. intros Hv Hin Hnone. apply not_true_is_false. intros Hok.
  apply verify_from_ok in Hv as [Hvalid _]; [|done].
  rewrite <- (py_sorted_perm seq_leb rows) in Hin.
  pose proof (valid_payloads _ _ _ _ Hvalid Hin) as Hh. congruence.
Qed.

(** ** Witnesses *)

Definition log_event (id : string) : AuditEvent :=
  {| e_event_id := id; e_event_type := "action_permitted"; e_decision := permit;
     e_reason := "scope_match"; e_workspace_id := "ws_1"; e_agent_id := "agent_1";
     e_grant_id := "grt_1"; e_grant_ref := "grant_1"; e_action := "read";
     e_resource := "docs/plan"; e_scope_attempted := "read:docs/plan";
     e_scope_matched := Some "read:docs/*"; e_boundary_id := None; e_runtime := None;
     e_boundary_type := None; e_created_at := 1782043200000000; e_enforcing_principal := None;
     e_reason_code := None; e_occurrence_count := None; e_first_seen_at := None;
     e_last_seen_at := None; e_subject_token_verified := true; e_token_id := None;
     e_event_class := "decision" |}.
Lemma log_event_storable id : isascii id = true → event_storable (log_event id).
Proof.
  intros Hid. split.
  - unfold event_text. change (to_dict (log_event id)) with
      (("event_id", VStr id) :: tail (to_dict (log_event ""))).
    apply Forall_cons_2; [by split; cbn; apply is_text_ascii|]. cbn.
    repeat (apply Forall_cons_2; [split; cbn; first [done|by apply is_text_ascii]|]).
    by apply Forall_nil_2.
  - unfold event_times_ok, time_ok, DATETIME_MIN, DATETIME_MAX.
    split_and!; try (intros t E; discriminate E); cbn; lia.
Qed.
Definition sample_log : list AuditEvent := [log_event "evt_1"; log_event "evt_2"].
Lemma sample_log_storable : Forall event_storable sample_log.
Proof. repeat (apply Forall_cons_2; [by apply log_event_storable|]). by apply Forall_nil_2. Qed.

Lemma log_verifies_and_reads_back_witness :
  verify_chain (log_table sample_log) =
    Ok (mkChainVerification true 2 2 (log_head sample_log) None None None) ∧
  chain_head (log_table sample_log) = (Some 2, Some (log_head sample_log)) ∧
  list_all (log_table sample_log) = Ok sample_log.
Proof. exact (log_verifies_and_reads_back sample_log sample_log_storable). Defined.

Definition sample_verdict : ChainVerification :=
  mkChainVerification true 2 2 (log_head sample_log) None None None.
Lemma sample_table_verdict : verify_chain (log_table sample_log) = Ok sample_verdict.
Proof. vm_compute. reflexivity. Qed.
(** The same table, its rows stored in another order. *)
Lemma shuffled_table_verdict : verify_chain (rev (log_table sample_log)) = Ok sample_verdict.
Proof. vm_compute. reflexivity. Qed.

Lemma verify_chain_first_break_witness :
  ∃ pre row post, by_seq (tail (log_table sample_log)) = pre ++ row :: post ∧
    valid_from 1 GENESIS_PREV_HASH pre ∧
    let at_row := 1 + Z.of_nat (length pre) in
    let h := final_hash 1 GENESIS_PREV_HASH pre in
    let v := mkChainVerification false 1 0 GENESIS_PREV_HASH (Some 1) (Some (VStr "evt_2"))
               (Some "deleted") in
    cv_head_seq v = at_row - 1 ∧ cv_head_hash v = h ∧
    cv_break_seq v = Some at_row ∧ cv_break_event_id v = Some (column "event_id" row) ∧
    ((cv_break_kind v = Some "deleted" ∧ r_seq row ≠ Some at_row) ∨
     (cv_break_kind v = Some "reordered" ∧ r_seq row = Some at_row ∧ r_prev_hash row ≠ Some h) ∨
     (cv_break_kind v = Some "modified" ∧ r_prev_hash row = Some h ∧
      r_row_hash row ≠ Some (row_hash at_row (r_event_json row) h)) ∨
     (cv_break_kind v = Some "column_mismatch" ∧
      r_row_hash row = Some (row_hash at_row (r_event_json row) h) ∧
      ∃ data, json_loads (r_event_json row) = Ok data ∧ columns_agree data row = false)).
Proof. apply verify_chain_first_break; [vm_compute|]; reflexivity. Defined.

Lemma chain_tamper_evident_witness :
  (map chain_data (by_seq (log_table sample_log)) =
     map chain_data (by_seq (rev (log_table sample_log))) ∧
   list_all (log_table sample_log) = list_all (rev (log_table sample_log))) ∨
  payloads_collide (by_seq (log_table sample_log)) (by_seq (rev (log_table sample_log))).
Proof.
  exact (chain_tamper_evident _ _ _ _ sample_table_verdict eq_refl shuffled_table_verdict eq_refl
           eq_refl eq_refl).
Defined.

Definition sample_anchors : list AnchorRecord := [mkAnchorRecord 2 (log_head sample_log)].
Lemma anchored_history_fixed_witness :
  (take 2 (map chain_data (by_seq (rev (log_table sample_log)))) =
     map chain_data (by_seq (log_table sample_log)) ∨
   payloads_collide (by_seq (log_table sample_log))
     (take 2 (by_seq (rev (log_table sample_log))))) ∧
  (∃ rec, rec ∈ sample_anchors ∧ an_seq rec = 2 ∧ an_row_hash rec = log_head sample_log).
Proof.
  apply (anchored_history_fixed (log_table sample_log) sample_verdict (rev (log_table sample_log))
           sample_verdict sample_anchors (mkAnchorVerification true 1 2 (Some 2) None None)).
  - exact sample_table_verdict.
  - reflexivity.
  - reflexivity.
  - left.
  - exact shuffled_table_verdict.
  - reflexivity.
  - vm_compute. reflexivity.
  - reflexivity.
Defined.

(** An interrupted migration: the first row is chained, the second is not. *)
Definition legacy_log : list audit_row :=
  [mkRow None None None (json_dumps (to_dict (log_event "evt_2"))) (event_columns (log_event "evt_2"))].
Lemma legacy_log_ok : Forall legacy_row legacy_log.
Proof.
  apply Forall_cons_2; [|by apply Forall_nil_2]. split; [done|].
  destruct (load_json (log_event "evt_2")) as (data & Hdata & Hget); [by apply log_event_storable|]. exists data. split; [done|by apply event_columns_agree].
Qed.
Lemma backfill_completes_chain_witness :
  let pre := log_table [log_event "evt_1"] in
  let migrated := ensure_hashchain false (pre ++ legacy_log) in
  (∃ v, verify_chain migrated = Ok v ∧ cv_ok v = true ∧ cv_count v = length (pre ++ legacy_log)) ∧
  map row_contents migrated = map row_contents (pre ++ legacy_log) ∧
  ensure_hashchain true migrated = migrated.
Proof.
  apply backfill_completes_chain; [|apply legacy_log_ok].
  apply chain_rows_valid, Forall_cons_2; [by apply log_event_storable|by apply Forall_nil_2].
Defined.
