(* ===== verification/PolicyInfer.v ===== *)
(** * Policy inference ([src/vinctor_service/policy_infer.py])

    Proposing scopes for an agent from the audit trail of what it did: a document
    to review, in which what the agent was denied is kept apart.  The events are
    [AuditEvent]s; times are compared as the texts [isoformat] writes. *)
From S2P Require Import Prelude PyStr PyDict PyTime Scope Models Infer Json.

(** ** Definitions *)

Definition PERMIT_EVENT_SOURCES : dict string string :=
  [("action_permitted", "enforced"); ("action_observed", "observed"); ("action_would_permit", "simulated")].
Definition DENY_EVENT_TYPES : list string := ["action_denied"; "action_would_deny"; "access_rejected"].
Definition SUMMARY_KEY : dict string string :=
  [("action_permitted", "enforced_permit"); ("action_observed", "observed_mapped");
   ("action_unmapped", "observed_unmapped"); ("action_blocked_unmapped", "blocked_unmapped");
   ("action_would_permit", "simulated_permit"); ("action_would_deny", "simulated_deny")].

Definition _iso (value : Z) : string := isoformat value.

(** [last_seen < since] and [last_seen > until] *)
Definition before_window (since : option string) (last_seen : string) : bool :=
  match since with Some s => negb (String.leb s last_seen) | None => false end.
Definition after_window (until : option string) (last_seen : string) : bool :=
  match until with Some u => negb (String.leb last_seen u) | None => false end.

Definition _observation_of (agent_id decision : string) (since until : option string)
    (event_types : list string) (event : AuditEvent) : list Observation :=
  if negb (e_agent_id event == agent_id) || negb (decision_str (e_decision event) == decision)
     || negb (existsb (String.eqb (e_event_type event)) event_types)
  then []
  else
    let last_seen := _iso (e_created_at event) in
    if before_window since last_seen then []
    else if after_window until last_seen then []
    else [mkObservation (e_action event) (e_resource event) 1 (Some last_seen)].
Definition _observations_for (events : list AuditEvent) (agent_id decision : string)
    (since until : option string) (event_types : list string) : list Observation :=
  concat (map (_observation_of agent_id decision since until event_types) events).

(** [counts[key] += n] *)
Definition add_count (key : string) (n : Z) (counts : dict string Z) : dict string Z :=
  dset key (default 0 (dget key counts) + n) counts.
Definition no_evidence : dict string Z := [("enforced", 0); ("observed", 0); ("simulated", 0)].
Definition evidence_of (evidence_by_scope : dict string (dict string Z)) (covers : list string) :
    dict string Z :=
  foldl (λ evidence covered_scope,
    foldl (λ evidence source_count, add_count source_count.1 source_count.2 evidence) evidence
      (default [] (dget covered_scope evidence_by_scope))) no_evidence covers.
Definition count_of (source : string) (evidence : dict string Z) : Z := default 0 (dget source evidence).
Definition observed_only (evidence : dict string Z) : bool :=
  (count_of "enforced" evidence =? 0) && (count_of "simulated" evidence =? 0)
  && (0 <? count_of "observed" evidence).
Definition jcounts (counts : dict string Z) : json := JObj (map (λ kv, (kv.1, JInt kv.2)) counts).
Definition _scope_entry (proposal : ScopeProposal)
    (evidence_by_scope : option (dict string (dict string Z))) : json :=
  JObj ([("scope", JStr (sp_scope proposal)); ("count", JInt (sp_count proposal));
         ("last_seen", match sp_last_seen proposal with Some t => JStr t | None => JNull end);
         ("generalized", JBool (sp_generalized proposal))]
    ++ match evidence_by_scope with
       | Some evidence_by_scope =>
           let evidence := evidence_of evidence_by_scope (sp_covers proposal) in
           [("evidence", jcounts evidence)]
           ++ (if observed_only evidence
               then [("warning", JStr "observed-only evidence; unverified agent self-report")] else [])
       | None => []
       end
    ++ (if sp_generalized proposal then [("covers", JList (map JStr (sp_covers proposal)))] else [])).

Definition _in_window (event : AuditEvent) (agent_id : string) (since until : option string) : bool :=
  if negb (e_agent_id event == agent_id) then false
  else
    let last_seen := _iso (e_created_at event) in
    if before_window since last_seen then false
    else match until with None => true | Some u => String.leb last_seen u end.

Definition no_summary : dict string Z :=
  [("enforced_permit", 0); ("observed_mapped", 0); ("observed_unmapped", 0); ("blocked_unmapped", 0);
   ("simulated_permit", 0); ("simulated_deny", 0)].
Definition scope_of (event : AuditEvent) : string := e_action event ^+ ":" ^+ e_resource event.
Definition _evidence_step (agent_id : string) (since until : option string)
    (state : dict string (dict string Z) * dict string Z) (event : AuditEvent) :
    dict string (dict string Z) * dict string Z :=
  let '(by_scope, summary) := state in
  if negb (_in_window event agent_id since until) then (by_scope, summary)
  else
    let summary := match dget (e_event_type event) SUMMARY_KEY with
                   | Some key => add_count key 1 summary
                   | None => summary
                   end in
    match dget (e_event_type event) PERMIT_EVENT_SOURCES with
    | None => (by_scope, summary)
    | Some source =>
        let scope := scope_of event in
        let counts := default no_evidence (dget scope by_scope) in
        (dset scope (add_count source 1 counts) by_scope, summary)
    end.
Definition _evidence (events : list AuditEvent) (agent_id : string) (since until : option string) :
    dict string (dict string Z) * dict string Z :=
  foldl (_evidence_step agent_id since until) ([], no_summary) events.

Definition infer_policy_document (events : list AuditEvent) (agent_id : string)
    (since until : option string) (generalize include_denied : bool) (min_observations : Z) :
    result json :=
  let permitted := _observations_for events agent_id "permit" since until (dkeys PERMIT_EVENT_SOURCES) in
  let '(evidence_by_scope, evidence_summary) := _evidence events agent_id since until in
  proposals ← propose_scopes permitted generalize min_observations;
  let proposed :=
    [("apply", JBool false); ("agent_id", JStr agent_id); ("generalized", JBool generalize);
     ("minimum_observations", JInt min_observations); ("evidence_summary", jcounts evidence_summary);
     ("scopes", JList (map (λ proposal, _scope_entry proposal (Some evidence_by_scope)) proposals))] in
  if negb include_denied then Ok (JObj [("proposed", JObj proposed)])
  else
    let denied := _observations_for events agent_id "deny" since until DENY_EVENT_TYPES in
    candidates ← propose_scopes denied generalize min_observations;
    Ok (JObj [("proposed", JObj (proposed ++
      [("candidates_from_denied", JList (map (λ proposal, _scope_entry proposal None) candidates))]))]).

(** ** Specification *)

(** How many events of a trail there are of a kind. *)
Definition seen (p : AuditEvent → bool) (events : list AuditEvent) : Z :=
  Z.of_nat (length (List.filter p events)).
(** The agent was permitted [action] on [resource], or reported it, in the window. *)
Definition permitted_use (agent_id : string) (since until : option string) (event : AuditEvent) : bool :=
  _in_window event agent_id since until && is_permit (e_decision event)
  && din (e_event_type event) PERMIT_EVENT_SOURCES.
Definition used (agent_id : string) (since until : option string) (action resource : string)
    (event : AuditEvent) : bool :=
  permitted_use agent_id since until event && (e_action event == action) && (e_resource event == resource).
(** The event speaks, through [source], for a scope among [scopes]. *)
Definition speaks (agent_id : string) (since until : option string) (source : string)
    (scope : string) (event : AuditEvent) : bool :=
  _in_window event agent_id since until
  && bool_decide (dget (e_event_type event) PERMIT_EVENT_SOURCES = Some source)
  && (scope_of event == scope).
Definition sum (f : string → Z) (l : list string) : Z := foldr (λ s n, f s + n) 0 l.
Definition scopes_of (doc : json) : option (list json) :=
  match doc with
  | JObj d => match dget "proposed" d with
              | Some (JObj proposed) => match dget "scopes" proposed with Some (JList l) => Some l | _ => None end
              | _ => None
              end
  | _ => None
  end.
Definition field_of (name : string) (v : json) : option json :=
  match v with JObj d => dget name d | _ => None end.

(** ** Counting *)

Lemma seen_snoc p events e : seen p (events ++ [e]) = seen p events + (if p e then 1 else 0).
Proof. unfold seen. rewrite List.filter_app, length_app. cbn. destruct (p e); cbn; lia. Qed.
Lemma count_bump source key n counts :
  count_of source (add_count key n counts) = count_of source counts + (if decide (key = source) then n else 0).
Proof. unfold count_of, add_count. rewrite dget_dset. case_decide as E; [subst|]; cbn; lia. Qed.
Lemma bump_wf key n counts : dict_wf counts → dict_wf (add_count key n counts).
Proof. apply dset_wf. Qed.
(** Adding one count to another, source by source. *)
Lemma count_merged source counts : dict_wf counts → ∀ evidence,
  count_of source (foldl (λ evidence kv, add_count kv.1 kv.2 evidence) evidence counts) =
    count_of source evidence + count_of source counts.
Proof.
  induction counts as [|[k n] counts IH]; intros Hwf evidence; cbn [foldl fst snd]; [unfold count_of; cbn; lia|].
  apply NoDup_cons in Hwf as [Hk Hwf]. rewrite IH, count_bump by done.
  assert (Hnone : dget k counts = None) by by apply dget_None.
  unfold count_of. cbn [dget]. case_decide as E; [subst source; rewrite Hnone|]; cbn; lia.
Qed.
Lemma count_none source : count_of source no_evidence = 0.
Proof. unfold count_of, no_evidence. cbn. by repeat case_decide. Qed.

Section window.
Context (agent_id : string) (since until : option string).
#[local] Abbreviation by_scope events := (_evidence events agent_id since until).1.
#[local] Abbreviation permitted events :=
  (_observations_for events agent_id "permit" since until (dkeys PERMIT_EVENT_SOURCES)).

Lemma evidence_snoc events e :
  _evidence (events ++ [e]) agent_id since until =
  _evidence_step agent_id since until (_evidence events agent_id since until) e.
Proof. unfold _evidence. by rewrite foldl_app. Qed.
(** What the evidence of a scope counts. *)
Lemma evidence_counts events scope source :
  dict_wf (default [] (dget scope (by_scope events))) ∧
  count_of source (default [] (dget scope (by_scope events))) =
    seen (speaks agent_id since until source scope) events.
Proof.
  induction events as [|e events [Hwf IH]] using rev_ind; [split; [constructor|done]|].
  rewrite evidence_snoc, seen_snoc, <-IH. unfold speaks. destruct (_evidence events _ _ _) as [d summary].
  cbn [fst] in *. unfold _evidence_step. destruct (_in_window e _ _ _); cbn [negb andb]; [|split; [done|by rewrite Z.add_0_r]].
  destruct (dget (e_event_type e) PERMIT_EVENT_SOURCES) as [src|]; cbn [fst];
    [|rewrite bool_decide_false by done; split; [done|by rewrite Z.add_0_r]].
  rewrite dget_dset. case_decide as E; cycle 1.
  { split; [done|]. rewrite (proj2 (String.eqb_neq _ _) E), andb_false_r. lia. }
  rewrite E, eqb_refl, andb_true_r. cbn [from_option id].
  assert (Hsame : dict_wf (default no_evidence (dget scope d)) ∧
    count_of source (default no_evidence (dget scope d)) = count_of source (default [] (dget scope d))).
  { destruct (dget scope d); [done|]. split; [|by rewrite count_none]. unfold dict_wf. by apply (bool_decide_unpack _). }
  destruct Hsame as [Hwf' Hsame]. split; [by apply bump_wf|]. rewrite count_bump, Hsame.
  destruct (decide (src = source)) as [->|Hne]; [by rewrite bool_decide_true|].
  rewrite bool_decide_false by congruence. done.
Qed.
Lemma evidence_of_counts events source covers :
  count_of source (evidence_of (by_scope events) covers) =
    sum (λ scope, seen (speaks agent_id since until source scope) events) covers.
Proof.
  unfold evidence_of. assert (Hgen : ∀ evidence,
    count_of source (foldl (λ evidence covered_scope,
      foldl (λ evidence kv, add_count kv.1 kv.2 evidence) evidence
        (default [] (dget covered_scope (by_scope events)))) evidence covers) =
    count_of source evidence + sum (λ scope, seen (speaks agent_id since until source scope) events) covers).
  { induction covers as [|c covers IH]; intros evidence; cbn [foldl sum foldr]; [lia|].
    destruct (evidence_counts events c source) as [Hwf Hc].
    rewrite IH, count_merged, Hc by done. unfold sum. lia. }
  by rewrite Hgen, count_none.
Qed.

(** An event is observed when it is a permitted use, once. *)
Lemma observation_of_permitted e :
  _observation_of agent_id "permit" since until (dkeys PERMIT_EVENT_SOURCES) e =
    if permitted_use agent_id since until e
    then [mkObservation (e_action e) (e_resource e) 1 (Some (_iso (e_created_at e)))] else [].
Proof.
  unfold _observation_of, permitted_use.
  assert (Ht : existsb (String.eqb (e_event_type e)) (dkeys PERMIT_EVENT_SOURCES) =
    din (e_event_type e) PERMIT_EVENT_SOURCES).
  { unfold din. generalize (e_event_type e). intros t. cbn. repeat case_decide; subst; try done.
    rewrite !(proj2 (String.eqb_neq _ _)) by congruence. done. }
  assert (Hd : (decision_str (e_decision e) == "permit") = is_permit (e_decision e)) by by destruct (e_decision e).
  rewrite Ht, Hd. unfold _in_window, after_window.
  destruct (e_agent_id e == agent_id); [|done]. destruct (is_permit _); [|by rewrite andb_false_r].
  destruct (din _ _); [|by rewrite andb_false_r]. cbn. rewrite !andb_true_r.
  destruct (before_window _ _); [done|]. destruct until as [u|]; [|done]. by destruct (String.leb _ u).
Qed.
Lemma total_permitted events a r :
  total (permitted events) a r = seen (used agent_id since until a r) events.
Proof.
  induction events as [|e events IH] using rev_ind; [done|].
  unfold _observations_for. rewrite map_app, concat_app, seen_snoc, <-IH. cbn [map concat].
  rewrite observation_of_permitted, app_nil_r. unfold used.
  destruct (permitted_use _ _ _ e); [|rewrite app_nil_r; cbn; unfold _observations_for; lia].
  rewrite total_snoc. cbn [ob_action ob_resource ob_count andb]. unfold _observations_for.
  destruct (_ && _); lia.
Qed.
(** Observations come from permitted uses alone. *)
Lemma permitted_only events :
  permitted events = permitted (List.filter (permitted_use agent_id since until) events).
Proof.
  induction events as [|e events IH]; [done|]. unfold _observations_for in *. cbn [map concat List.filter].
  rewrite IH, observation_of_permitted. destruct (permitted_use _ _ _ e) eqn:E; [|done].
  cbn [map concat]. by rewrite observation_of_permitted, E.
Qed.
End window.

(** ** The document *)

Lemma document_scopes events agent_id since until generalize include_denied min doc :
  infer_policy_document events agent_id since until generalize include_denied min = Ok doc →
  ∃ ps, propose_scopes (_observations_for events agent_id "permit" since until (dkeys PERMIT_EVENT_SOURCES))
          generalize min = Ok ps ∧
    scopes_of doc = Some (map (λ p, _scope_entry p (Some (_evidence events agent_id since until).1)) ps) ∧
    field_of "apply" (default JNull (field_of "proposed" doc)) = Some (JBool false).
Proof.
  unfold infer_policy_document. destruct (_evidence events _ _ _) as [by_scope summary]. intros H.
  apply result_bind_inv in H as (ps & Hps & H). exists ps. split; [done|].
  destruct include_denied; cbn [negb] in H; [apply result_bind_inv in H as (cs & _ & H)|];
    apply (inj Ok) in H; subst doc; by split.
Qed.
Lemma entry_warning p by_scope :
  is_Some (field_of "warning" (_scope_entry p (Some by_scope))) ↔
  observed_only (evidence_of by_scope (sp_covers p)) = true.
Proof.
  cbn. destruct (observed_only _); cbn; [naive_solver|].
  split; [intros [x Hx]|done]. by destruct (sp_generalized p).
Qed.

(** C28: What is proposed for an agent is justified by what it was seen to do and
    leaves none of it out.  Every scope of the document stands for pairs of an
    action and a resource the agent used, permitted or reported as its own, at
    least the asked number of times in the window, and counts exactly those uses;
    every valid pair used that often is covered.  A scope carries the warning that
    only the agent itself speaks for it exactly when no event of an enforced or
    simulated permission does and some event the agent reported does.  What the
    agent was denied, what others did and what happened outside the window change
    no proposed scope; and the document is never marked for application. *)
Theorem inferred_policy_justified events agent_id since until generalize include_denied min doc :
  infer_policy_document events agent_id since until generalize include_denied min = Ok doc →
  ∃ ps, scopes_of doc = Some (map (λ p, _scope_entry p (Some (_evidence events agent_id since until).1)) ps) ∧
    (∀ p, p ∈ ps → ∃ pairs,
      sp_covers p ≡ₚ map (λ ar, attempted_scope ar.1 ar.2) pairs ∧
      sp_count p = foldr (λ ar n, seen (used agent_id since until ar.1 ar.2) events + n) 0 pairs ∧
      (∀ a r, (a, r) ∈ pairs → scope_covers (sp_scope p) a r = true ∧ 1 ≤ min ∧
         min ≤ seen (used agent_id since until a r) events) ∧
      let spoken source := sum (λ scope, seen (speaks agent_id since until source scope) events) (sp_covers p) in
      (is_Some (field_of "warning" (_scope_entry p (Some (_evidence events agent_id since until).1))) ↔
         spoken "enforced" = 0 ∧ spoken "simulated" = 0 ∧ 0 < spoken "observed")) ∧
    (∀ a r, requestable a r → min ≤ seen (used agent_id since until a r) events →
       ∃ p, p ∈ ps ∧ scope_covers (sp_scope p) a r = true) ∧
    (∀ events', List.filter (permitted_use agent_id since until) events' =
                List.filter (permitted_use agent_id since until) events →
       propose_scopes (_observations_for events' agent_id "permit" since until (dkeys PERMIT_EVENT_SOURCES))
         generalize min = Ok ps) ∧
    field_of "apply" (default JNull (field_of "proposed" doc)) = Some (JBool false).
Proof.
  intros H. apply document_scopes in H as (ps & Hps & Hsc & Happ). exists ps.
  assert (Hmin : 1 ≤ min) by (unfold propose_scopes in Hps; destruct (Z.ltb_spec min 1); [done|lia]).
  split; [done|]. split_and!.
  - intros p Hp. destruct (Infer.propose_scopes_sound _ _ _ _ Hps) as [_ Hsound].
    destruct (Hsound p Hp) as [pairs [_ Hcov Hcount Hpairs _ _]]. exists pairs. split_and!.
    + done.
    + rewrite Hcount. clear. induction pairs as [|[a r] pairs IH]; cbn [foldr fst snd]; [done|]. by rewrite IH, total_permitted.
    + intros a r Hin. destruct (Hpairs a r Hin) as (_ & _ & Hle & Hc). by rewrite <-total_permitted.
    + cbv zeta. rewrite entry_warning. unfold observed_only. rewrite !evidence_of_counts.
      rewrite !andb_true_iff, !Z.eqb_eq, Z.ltb_lt. tauto.
  - intros a r Hr Hle. rewrite <-total_permitted in Hle.
    destruct (Infer.propose_scopes_covers _ _ _ _ _ _ Hps Hr Hle) as (p & Hp & Hc & _). by exists p.
  - intros events' E. by rewrite permitted_only, E, <-permitted_only.
  - done.
Qed.

Definition sample_use (id event_type : string) (decision : Decision) (resource : string) : AuditEvent :=
  mkAuditEvent id event_type decision "" "ws" "agent" "g" "gref" "read" resource ("read:" ^+ resource) None
    None None None 1782043200000000 None None None None None true None "decision".
Definition sample_trail : list AuditEvent :=
  [sample_use "e1" "action_permitted" permit "repo/docs/a"; sample_use "e2" "action_observed" permit "repo/docs/b";
   sample_use "e3" "action_denied" deny "repo/keys/x"; sample_use "e4" "action_observed" permit "repo/docs/b"].
Definition sample_document : result json :=
  infer_policy_document sample_trail "agent" None None false true 1.
Lemma inferred_policy_justified_witness :
  ∃ doc, sample_document = Ok doc ∧
    field_of "apply" (default JNull (field_of "proposed" doc)) = Some (JBool false) ∧
    field_of "warning" <$> default [] (scopes_of doc) =
      [None; Some (JStr "observed-only evidence; unverified agent self-report")].
Proof.
  destruct sample_document as [doc|e] eqn:E; [|by vm_compute in E].
  exists doc. split; [done|]. split; [|by vm_compute in E; injection E as <-].
  destruct (inferred_policy_justified sample_trail "agent" None None false true 1 doc E)
    as (ps & _ & _ & _ & _ & Happ). exact Happ.
Defined.
