(* ===== verification/Http.v ===== *)
(** * Requests and responses ([src/vinctor_service/v1_http.py] and its siblings)

    What the HTTP handlers share: responses, header lookup, the resolution of a
    key to an identity, the checks of a body's fields and the query string.

    A body is the JSON value of the request, [JNull] when there is none; a
    float, which [json.loads] also gives and every parser refuses wherever it
    stands, is represented by an object.  A key resolver is any operation on the
    service's state. *)
From S2P Require Import Prelude PyStr PyDict PyTime Models Sha256 Json.

(** ** Principals *)

Record WorkspaceIdentity := mkWorkspaceIdentity { wi_workspace_id : string }.
Record AgentIdentity := mkAgentIdentity { ai_workspace_id : string; ai_agent_id : string }.
Record PepIdentity := mkPepIdentity { pi_workspace_id : string; pi_pep_id : string }.

(** ** Responses *)

Record V1HttpResponse := mkV1HttpResponse {
  hr_status_code : Z;
  hr_body : dict string json
}.
Definition _error (status_code : Z) (error reason : string) : V1HttpResponse :=
  mkV1HttpResponse status_code [("error", JStr error); ("reason", JStr reason)].
(** [value] or [None] in a body; a moment is written by [isoformat]. *)
Definition jopt (o : option string) : json := match o with Some s => JStr s | None => JNull end.
Definition jtime (o : option Z) : json := match o with Some t => JStr (isoformat t) | None => JNull end.
Definition jstrs (l : list string) : json := JList (map JStr l).
(** [{**a, **b}] *)
Definition dmerge {V} (a b : dict string V) : dict string V :=
  foldl (λ d kv, dset kv.1 kv.2 d) a b.

(** The outcome of a parser: what it parsed, or the response to refuse with. *)
Definition parsed (A : Type) : Type := (V1HttpResponse + A)%type.
#[export] Instance parsed_ret : MRet parsed := λ A a, inr a.
#[export] Instance parsed_bind : MBind parsed := λ A B f p,
  match p with inl r => inl r | inr a => f a end.
Definition refuse {A} (reason : string) : parsed A := inl (_error 400 "invalid_request" reason).

(** ** Headers *)

(** [key.lower()].  Other characters than ASCII letters are left alone, but for
    the one (KELVIN SIGN) whose lower case is ASCII: keys are only compared with
    ASCII names. *)
Fixpoint lower (s : string) : string :=
  match s with
  | EmptyString => ""
  | String a s1 =>
      let rest := String (if char_between "A" "Z" a then char_of (byte_of a + 32) else a) (lower s1) in
      match s1 with
      | String b (String c s2) =>
          if (byte_of a =? 226) && (byte_of b =? 132) && (byte_of c =? 170)
          then String "k" (lower s2) else rest
      | _ => rest
      end
  end.
(** [{key.lower(): value for key, value in headers.items()}] *)
Definition normalized (headers : dict string string) : dict string string :=
  foldl (λ d kv, dset (lower kv.1) kv.2 d) [] headers.

(** ** Keys to identities *)

(** The fixed keys and the resolver a server is configured with. *)
Record Keyring (S I : Type) := mkKeyring {
  kr_identities : option (dict string I);
  kr_resolver : option (string → Z → M S (option I))
}.
Arguments mkKeyring {S I}. Arguments kr_identities {S I}. Arguments kr_resolver {S I}.

Definition resolve_identity {S I} (keys : Keyring S I) (key : string) (now : Z) : M S (option I) :=
  match kr_resolver keys with
  | Some resolver => resolver key now
  | None => mret (dget key (default [] (kr_identities keys)))
  end.
Definition header_identity {S I} (header : string) (headers : dict string string)
    (keys : Keyring S I) (now : Z) : M S (option I) :=
  match dget header (normalized headers) with
  | None => mret None
  | Some key => resolve_identity keys key now
  end.

(** ** Fields of a body *)

Definition body_object (body : json) : parsed mapping :=
  match body with
  | JObj m => inr m
  | _ => refuse "request body must be a JSON object"
  end.
(** [sorted(required - set(body))] *)
Definition missing_fields (m : mapping) (required : list string) : list string :=
  py_sorted String.leb (List.filter (λ k, negb (din k m)) required).
Definition refuse_missing (m : mapping) (required : list string) : parsed unit :=
  match missing_fields m required with
  | field :: _ => refuse ("missing required field: " ^+ field)
  | [] => inr tt
  end.
Definition refuse_extra (m : mapping) (allowed : list string) : parsed unit :=
  match extra_fields m allowed with
  | field :: _ => refuse ("unexpected field: " ^+ field)
  | [] => inr tt
  end.
(** The string of a field that must hold a non-empty one. *)
Definition as_text (v : json) : option string :=
  match v with JStr s => if s == "" then None else Some s | _ => None end.
Definition text_field (field : string) (v : json) : parsed string :=
  match as_text v with
  | Some s => inr s
  | None => refuse (field ^+ " must be a non-empty string")
  end.
(** A field that may be absent or [None]. *)
Definition optional_text (field suffix : string) (v : json) : parsed (option string) :=
  match v with
  | JNull => inr None
  | _ => match as_text v with
         | Some s => inr (Some s)
         | None => refuse (field ^+ " must be a non-empty string" ^+ suffix)
         end
  end.
Fixpoint texts (l : list json) : option (list string) :=
  match l with
  | [] => Some []
  | v :: l' => s ← as_text v; k ← texts l'; Some (s :: k)
  end.
Definition texts_field (field : string) (v : json) : parsed (list string) :=
  match v with
  | JList (x :: l) =>
      match texts (x :: l) with
      | Some k => inr k
      | None => refuse (field ^+ " must contain only non-empty strings")
      end
  | _ => refuse (field ^+ " must be a non-empty array")
  end.
(** An [int] that is no [bool]. *)
Definition positive_field (field : string) (v : json) : parsed Z :=
  match v with
  | JInt z => if z <=? 0 then refuse (field ^+ " must be a positive integer") else inr z
  | _ => refuse (field ^+ " must be a positive integer")
  end.

(** [d[key]] *)
Definition ditem {V} (d : dict string V) (key : string) : result V :=
  match dget key d with Some v => Ok v | None => Raise (KeyError key) end.

(** [parsed[field] = value], for a field that must hold text. *)
Definition text_entry (m : mapping) (field : string) : parsed (string * string) :=
  match text_field field (jget field m) with
  | inl response => inl response
  | inr s => inr (field, s)
  end.
Definition _parse_string_body (body : json) (required_fields optional_fields : list string) :
    parsed (dict string string) :=
  m ← body_object body;
  _ ← refuse_missing m required_fields;
  _ ← refuse_extra m (required_fields ++ optional_fields);
  mapM (text_entry m)
    (py_sorted String.leb (required_fields ++ List.filter (λ k, din k m) optional_fields)).

(** ** Query strings: [urllib.parse.parse_qs(qs, keep_blank_values=True)] *)

(** [bytes.decode("utf-8", errors="replace")]: every ill-formed sequence, up to
    the byte that breaks it, becomes a replacement character. *)
Definition replacement : string := string_of [239; 191; 189].
Definition byte_between (lo hi : Z) (c : ascii) : bool := (lo <=? byte_of c) && (byte_of c <=? hi).
Definition second_lo (lead : Z) : Z := if lead =? 224 then 160 else if lead =? 240 then 144 else 128.
Definition second_hi (lead : Z) : Z := if lead =? 237 then 159 else if lead =? 244 then 143 else 191.
Fixpoint decode_replace (s : string) : string :=
  match s with
  | EmptyString => ""
  | String a s1 =>
      let x := byte_of a in
      if x <? 128 then String a (decode_replace s1)
      else if (x <? 194) || (244 <? x) then replacement ^+ decode_replace s1
      else match s1 with
      | EmptyString => replacement
      | String b s2 =>
          if negb (byte_between (second_lo x) (second_hi x) b) then replacement ^+ decode_replace s1
          else if x <? 224 then String a (String b (decode_replace s2))
          else match s2 with
          | EmptyString => replacement
          | String c s3 =>
              if negb (byte_between 128 191 c) then replacement ^+ decode_replace s2
              else if x <? 240 then String a (String b (String c (decode_replace s3)))
              else match s3 with
              | EmptyString => replacement
              | String d s4 =>
                  if negb (byte_between 128 191 d) then replacement ^+ decode_replace s3
                  else String a (String b (String c (String d (decode_replace s4))))
              end
          end
      end
  end.
(** [unquote_to_bytes] *)
Fixpoint unquote_to_bytes (s : string) : string :=
  match s with
  | EmptyString => ""
  | String a s1 =>
      match s1 with
      | String b (String c s2) =>
          if Ascii.eqb a "%" then
            match hex_digit b, hex_digit c with
            | Some x, Some y => String (char_of (16 * x + y)) (unquote_to_bytes s2)
            | _, _ => String a (unquote_to_bytes s1)
            end
          else String a (unquote_to_bytes s1)
      | _ => String a (unquote_to_bytes s1)
      end
  end.
(** [unquote]: each maximal run of ASCII characters is decoded by itself. *)
Fixpoint unquote_runs (run s : string) : string :=
  match s with
  | EmptyString => decode_replace (unquote_to_bytes run)
  | String a s' =>
      if byte_of a <? 128 then unquote_runs (run ^+ String a "") s'
      else decode_replace (unquote_to_bytes run) ^+ String a (unquote_runs "" s')
  end.
Fixpoint plus_to_space (s : string) : string :=
  match s with
  | EmptyString => ""
  | String a s' => String (if Ascii.eqb a "+" then " "%char else a) (plus_to_space s')
  end.
Definition unquote_plus (s : string) : string := unquote_runs "" (plus_to_space s).
Definition parse_qs (qs : string) : dict string (list string) :=
  foldl (λ d name_value,
    if name_value == "" then d
    else let '(name, _, value) := partition "=" name_value in
         let name := unquote_plus name in
         dset name (default [] (dget name d) ++ [unquote_plus value]) d)
    [] (split "&" qs).

(** The one value of a parameter, which must not be empty. *)
Definition single_param (params : dict string (list string)) (key : string) : parsed (option string) :=
  match dget key params with
  | None => inr None
  | Some [v] => if v == "" then refuse (key ^+ " must be a single non-empty value") else inr (Some v)
  | Some _ => refuse (key ^+ " must be a single non-empty value")
  end.
(** [for key in allowed], in the order the set iterates in. *)
Definition query_params (set_order : list string → list string) (query_string : string)
    (allowed : list string) : parsed (dict string (option string)) :=
  let params := parse_qs query_string in
  _ ← match extra_fields params allowed with
      | extra :: _ => refuse ("unexpected query parameter: " ^+ extra)
      | [] => inr tt
      end;
  mapM (λ key, v ← single_param params key; inr (key, v)) (set_order allowed).

Example parse_qs_example :
  parse_qs "status=a%20b+c&x&status=%C3%A9%FF&&" =
  [("status", ["a b c"; string_of [195; 169] ^+ replacement]); ("x", [""])].
Proof. vm_compute. reflexivity. Qed.
Example lower_example : lower ("X-Agent-" ^+ string_of [226; 132; 170] ^+ "EY") = "x-agent-key".
Proof. vm_compute. reflexivity. Qed.

(** ** Specification *)

(** A key lookup that leaves the state of the service alone. *)
Definition steady {S I} (keys : Keyring S I) : Prop :=
  ∀ resolver, kr_resolver keys = Some resolver → ∀ key now s, (resolver key now s).2 = s.
Lemma header_identity_steady {S I} header headers (keys : Keyring S I) now s :
  steady keys → (header_identity header headers keys now s).2 = s.
Proof.
  intros Hk. unfold header_identity. destruct (dget header _) as [key|]; [|done].
  unfold resolve_identity. destruct (kr_resolver keys) as [f|] eqn:Ef; [by apply Hk|done].
Qed.

Lemma missing_fields_nil m required :
  missing_fields m required = [] ↔ ∀ k, k ∈ required → is_Some (dget k m).
Proof.
  unfold missing_fields. split.
  - intros Hnil k Hk. destruct (din k m) eqn:Ed; [by apply din_true|].
    assert (Hin : k ∈ py_sorted String.leb (List.filter (λ k, negb (din k m)) required)).
    { rewrite py_sorted_perm, list_elem_of_In, filter_In, Ed. split; [by apply list_elem_of_In|done]. }
    rewrite Hnil in Hin. by apply elem_of_nil in Hin.
  - intros Hall. destruct (py_sorted _ _) as [|k l] eqn:El; [done|exfalso].
    assert (Hin : k ∈ py_sorted String.leb (List.filter (λ k, negb (din k m)) required))
      by (rewrite El; by left).
    rewrite py_sorted_perm, list_elem_of_In, filter_In in Hin. destruct Hin as [Hin Hd].
    apply negb_true_iff, din_false in Hd. apply list_elem_of_In, Hall in Hin as [v Hv]. congruence.
Qed.
Lemma extra_fields_nil {V} (m : dict string V) allowed :
  extra_fields m allowed = [] ↔ ∀ k, k ∈ dkeys m → k ∈ allowed.
Proof.
  assert (Hm : ∀ k, existsb (String.eqb k) allowed = true ↔ k ∈ allowed).
  { intros k. rewrite existsb_exists_elem. setoid_rewrite String.eqb_eq. naive_solver. }
  unfold extra_fields. split.
  - intros Hnil k Hk. apply Hm. destruct (existsb _ allowed) eqn:Ed; [done|].
    assert (Hin : k ∈ py_sorted String.leb (List.filter (λ k, negb (existsb (String.eqb k) allowed)) (dkeys m))).
    { rewrite py_sorted_perm, list_elem_of_In, filter_In, Ed. split; [by apply list_elem_of_In|done]. }
    rewrite Hnil in Hin. by apply elem_of_nil in Hin.
  - intros Hall. destruct (py_sorted _ _) as [|k l] eqn:El; [done|exfalso].
    assert (Hin : k ∈ py_sorted String.leb (List.filter (λ k, negb (existsb (String.eqb k) allowed)) (dkeys m)))
      by (rewrite El; by left).
    rewrite py_sorted_perm, list_elem_of_In, filter_In in Hin. destruct Hin as [Hin Hd].
    apply negb_true_iff in Hd. apply list_elem_of_In, Hall, Hm in Hin. congruence.
Qed.

(** A body with these fields: no other than the required and optional ones, all
    of the required ones, every one a non-empty string. *)
Definition text_body (required optional : list string) (m : mapping) : Prop :=
  (∀ k, k ∈ dkeys m → k ∈ required ∨ k ∈ optional) ∧
  (∀ k, k ∈ required → is_Some (dget k m)) ∧
  (∀ k v, dget k m = Some v → is_Some (as_text v)).

Lemma text_fields_run m l p :
  mapM (text_entry m) l = inr p →
  dkeys p = l ∧ (∀ k, k ∈ l → is_Some (as_text (jget k m))) ∧
  ∀ k, dget k p = if decide (k ∈ l) then as_text (jget k m) else None.
Proof.
  revert p. induction l as [|f l IH]; intros p; cbn [mapM].
  { intros [= <-]. split_and!; [done|by intros k ?%elem_of_nil|]. intros k.
    by rewrite decide_False by apply not_elem_of_nil. }
  unfold mbind, mret, parsed_bind, parsed_ret. unfold text_entry at 1, text_field.
  destruct (as_text (jget f m)) as [s|] eqn:Ef; [|by intros [=]].
  destruct (mapM _ l) as [r|p'] eqn:El; [by intros [=]|]. intros [= <-].
  destruct (IH p' eq_refl) as (Hk & Hs & Hget). split_and!.
  - by cbn; rewrite <- Hk.
  - intros k [->|Hl]%elem_of_cons; [by rewrite Ef|by apply Hs].
  - intros k. cbn. case_decide as Hfk.
    + subst k. rewrite decide_True by by left. done.
    + rewrite Hget. destruct (decide (k ∈ l)); [rewrite decide_True by by right|
        rewrite decide_False by (rewrite not_elem_of_cons; naive_solver)]; done.
Qed.
Lemma text_fields_total m l :
  (∀ k, k ∈ l → is_Some (as_text (jget k m))) →
  ∃ p, mapM (text_entry m) l = inr p.
Proof.
  induction l as [|f l IH]; intros Hall; cbn [mapM]; [by eexists|].
  destruct (Hall f ltac:(by left)) as [s Hs].
  destruct IH as [p Hp]; [intros k Hk; apply Hall; by right|]. exists ((f, s) :: p).
  unfold mbind, mret, parsed_bind, parsed_ret in *. unfold text_entry at 1, text_field. by rewrite Hs, Hp.
Qed.
(** The response a parser refuses with. *)
Definition refusal (r : V1HttpResponse) : Prop :=
  ∃ reason, r = _error 400 "invalid_request" reason.
Lemma text_fields_refused m l r :
  mapM (text_entry m) l = inl r → refusal r.
Proof.
  induction l as [|f l IH]; cbn [mapM]; [done|].
  unfold mbind, mret, parsed_bind, parsed_ret. unfold text_entry at 1, text_field.
  destruct (as_text (jget f m)); [|intros [= <-]; by eexists].
  destruct (mapM _ l) as [r'|p']; [|by intros [=]]. intros [= <-]. by apply IH.
Qed.

Lemma string_body_spec body required optional :
  match _parse_string_body body required optional with
  | inr p => ∃ m, body = JObj m ∧ text_body required optional m ∧ ∀ k, dget k p = dget k m ≫= as_text
  | inl r => refusal r ∧ ∀ m, body = JObj m → ¬ text_body required optional m
  end.
Proof.
  unfold _parse_string_body. destruct body as [| | | | |m];
    try (split; [by eexists|by intros ? [=]]). cbn [body_object]. unfold mbind, parsed_bind.
  assert (Hsome : ∀ k, is_Some (dget k m) → ∃ v, dget k m = Some v ∧ jget k m = v).
  { intros k [v Hv]. exists v. unfold jget. by rewrite Hv. }
  destruct (missing_fields m required) as [|f l] eqn:Hmiss; unfold refuse_missing; rewrite Hmiss.
  2: { split; [by eexists|]. intros ? [= <-] (_ & Hreq & _). apply missing_fields_nil in Hreq. congruence. }
  destruct (extra_fields m (required ++ optional)) as [|f l] eqn:Hext; unfold refuse_extra; rewrite Hext.
  2: { split; [by eexists|]. intros ? [= <-] (Hall & _). assert (Hn : extra_fields m (required ++ optional) = []).
    { apply extra_fields_nil. intros k Hk. apply elem_of_app. by apply Hall. } congruence. }
  rewrite missing_fields_nil in Hmiss. rewrite extra_fields_nil in Hext.
  setoid_rewrite elem_of_app in Hext.
  set (l := py_sorted _ _).
  assert (Hl : ∀ k, k ∈ l ↔ is_Some (dget k m)).
  { intros k. unfold l. rewrite py_sorted_perm, elem_of_app, (list_elem_of_In (List.filter _ _)), filter_In,
      <- list_elem_of_In, din_true. split; [naive_solver|]. intros Hk.
    destruct (Hext k); [|by left|by right]. destruct Hk as [v Hv%dget_elem].
    apply (list_elem_of_fmap_2 fst) in Hv. exact Hv. }
  destruct (mapM _ l) as [r|p] eqn:Erun.
  - split; [by eapply text_fields_refused|]. intros ? [= <-] (_ & _ & Htext).
    destruct (text_fields_total m l) as [p Hp]; [|by pose proof (eq_trans (eq_sym Erun) Hp)].
    intros k Hk%Hl%Hsome. destruct Hk as (v & Hv & ->). by eapply Htext.
  - exists m. destruct (text_fields_run _ _ _ Erun) as (_ & Htext & Hget). split_and!; [done| |].
    + split_and!; [done|done|]. intros k v Hv. specialize (Htext k). unfold jget in Htext.
      rewrite Hv in Htext. apply Htext, Hl. by rewrite Hv.
    + intros k. rewrite Hget. case_decide as Hk; rewrite Hl in Hk.
      * destruct (Hsome k Hk) as (v & -> & ->). done.
      * apply eq_None_not_Some in Hk. by rewrite Hk.
Qed.

(** Every parser refuses with a 400. *)
Definition refuses {A} (p : parsed A) : Prop := ∀ r, p = inl r → refusal r.
Lemma refuses_refuse {A} reason : refuses (@refuse A reason).
Proof. intros r [= <-]. by eexists. Qed.
Lemma refuses_inr {A} (x : A) : refuses (inr x : parsed A).
Proof. by intros r [=]. Qed.
Lemma refuses_bind {A B} (p : parsed A) (f : A → parsed B) :
  refuses p → (∀ x, refuses (f x)) → refuses (p ≫= f).
Proof. intros Hp Hf. unfold mbind, parsed_bind. destruct p; [|apply Hf]. intros r [= <-]. by apply Hp. Qed.
Lemma refuses_strings body required optional : refuses (_parse_string_body body required optional).
Proof.
  intros r Hr. pose proof (string_body_spec body required optional) as Hspec. rewrite Hr in Hspec.
  apply Hspec.
Qed.
Create HintDb refuses.
#[export] Hint Resolve refuses_refuse refuses_inr refuses_strings : refuses.
Ltac refuses :=
  repeat first
    [ progress auto with refuses
    | apply refuses_bind; [|intros ?]
    | match goal with |- refuses (match ?x with _ => _ end) => destruct x end ].
Lemma refuses_object body : refuses (body_object body).
Proof. unfold body_object. refuses. Qed.
Lemma refuses_missing m required : refuses (refuse_missing m required).
Proof. unfold refuse_missing. refuses. Qed.
Lemma refuses_extra m allowed : refuses (refuse_extra m allowed).
Proof. unfold refuse_extra. refuses. Qed.
Lemma refuses_text field v : refuses (text_field field v).
Proof. unfold text_field. refuses. Qed.
Lemma refuses_optional field suffix v : refuses (optional_text field suffix v).
Proof. unfold optional_text. refuses. Qed.
Lemma refuses_texts field v : refuses (texts_field field v).
Proof. unfold texts_field. refuses. Qed.
Lemma refuses_positive field v : refuses (positive_field field v).
Proof. unfold positive_field. refuses. Qed.
Lemma refuses_mapM {X Y} (f : X → parsed Y) l : (∀ x, refuses (f x)) → refuses (mapM f l).
Proof. intros Hf. induction l as [|x l IH]; cbn [mapM]; [apply refuses_inr|].
  apply refuses_bind; [done|]. intros y. apply refuses_bind; [done|]. intros k. apply refuses_inr.
Qed.
Lemma refuses_query set_order query_string allowed :
  refuses (query_params set_order query_string allowed).
Proof.
  unfold query_params. refuses. apply refuses_mapM. intros key. unfold single_param. refuses.
Qed.
#[export] Hint Resolve refuses_query : refuses.
#[export] Hint Resolve refuses_object refuses_missing refuses_extra refuses_text refuses_optional
  refuses_texts refuses_positive : refuses.
