(* ===== verification/PyUrl.v ===== *)
(** * URLs ([urllib.parse])

    What the clients of the service use of it: quoting, query strings, and the
    split of an endpoint.  A query string written here is read back by the
    service's [parse_qs]. *)
From S2P Require Import Prelude PyStr PyDict Sha256 Json Http.

(** ** Quoting *)

(** [_ALWAYS_SAFE] *)
Definition unreserved (c : ascii) : bool :=
  char_between "A" "Z" c || char_between "a" "z" c || char_between "0" "9" c
  || existsb (Ascii.eqb c) ["_"; "."; "-"; "~"]%char.
Definition hex_upper (n : Z) : ascii := char_of (if n <? 10 then 48 + n else 55 + n).
Definition percent (c : ascii) : string :=
  String "%" (String (hex_upper (byte_of c / 16)) (String (hex_upper (byte_of c mod 16)) "")).
(** [quote(s, safe="")] and, for each space, [quote_plus]. *)
Fixpoint quote (s : string) : string :=
  match s with
  | EmptyString => ""
  | String c s' => (if unreserved c then String c "" else percent c) ^+ quote s'
  end.
Fixpoint quote_plus (s : string) : string :=
  match s with
  | EmptyString => ""
  | String c s' =>
      (if unreserved c then String c "" else if Ascii.eqb c " " then "+" else percent c) ^+ quote_plus s'
  end.
Definition urlencode (values : dict string string) : string :=
  join "&" (map (λ kv, quote_plus kv.1 ^+ "=" ^+ quote_plus kv.2) values).

(** ** Endpoints: [urlsplit] of an ASCII text *)

Definition scheme_char (c : ascii) : bool :=
  char_between "A" "Z" c || char_between "a" "z" c || char_between "0" "9" c
  || existsb (Ascii.eqb c) ["+"; "-"; "."]%char.
Definition is_alpha (c : ascii) : bool := char_between "A" "Z" c || char_between "a" "z" c.
Fixpoint url_lower (s : string) : string :=
  match s with
  | EmptyString => ""
  | String a s' => String (if char_between "A" "Z" a then char_of (byte_of a + 32) else a) (url_lower s')
  end.
Fixpoint upto (stop : ascii → bool) (s : string) : string :=
  match s with
  | EmptyString => ""
  | String c s' => if stop c then "" else String c (upto stop s')
  end.
Fixpoint without_chars (drop : ascii → bool) (s : string) : string :=
  match s with
  | EmptyString => ""
  | String c s' => if drop c then without_chars drop s' else String c (without_chars drop s')
  end.
Fixpoint skip_while (p : ascii → bool) (s : string) : string :=
  match s with
  | EmptyString => ""
  | String c s' => if p c then skip_while p s' else s
  end.
(** [s.rpartition(c)[2]] *)
Fixpoint after_last (c : ascii) (s : string) : string :=
  match s with
  | EmptyString => ""
  | String a s' => if contains c s' then after_last c s' else if Ascii.eqb a c then s' else s
  end.
(** [s.rpartition("@")[0]] *)
Definition userinfo (netloc : string) : string := if contains "@" netloc then rsplit_head "@" netloc else "".

Record SplitResult := mkSplitResult {
  sr_scheme : string;
  sr_netloc : string
}.
Section endpoint.
(** Whether brackets in a network location stand around an IP address. *)
Context (bracketed_netloc : string → bool).
Definition split_scheme (url : string) : string * string :=
  let '(head, sep, rest) := partition ":" url in
  match head with
  | String a _ =>
      if negb (sep == "") && is_alpha a && all_chars scheme_char head then (url_lower head, rest)
      else ("", url)
  | EmptyString => ("", url)
  end.
Definition urlsplit_endpoint (url : string) : result SplitResult :=
  let url := skip_while (λ c, byte_of c <=? 32) url in
  let url := without_chars (λ c, existsb (Ascii.eqb c) ["009"; "010"; "013"]%char) url in
  let '(scheme, url) := split_scheme url in
  if startswith url "//" then
    let netloc := upto (λ c, existsb (Ascii.eqb c) ["/"; "?"; "#"]%char) (removeprefix url "//") in
    if negb (Bool.eqb (contains "[" netloc) (contains "]" netloc))
    then Raise (ValueError "Invalid IPv6 URL")
    else
      if contains "[" netloc && negb (bracketed_netloc netloc)
      then Raise (ValueError "Invalid IPv6 URL")
      else Ok (mkSplitResult scheme netloc)
  else Ok (mkSplitResult scheme "").
End endpoint.
(** [_hostinfo]: the host and the port, as written. *)
Definition hostinfo (r : SplitResult) : string * option string :=
  let info := if contains "@" (sr_netloc r) then after_last "@" (sr_netloc r) else sr_netloc r in
  let '(before, open, bracketed) := partition "[" info in
  let '(hostname, port) :=
    if negb (open == "") then
      let '(hostname, _, port) := partition "]" bracketed in (hostname, (partition ":" port).2)
    else let '(hostname, _, port) := partition ":" info in (hostname, port) in
  (hostname, if port == "" then None else Some port).
Definition hostname (r : SplitResult) : option string :=
  let name := (hostinfo r).1 in
  if name == "" then None
  else let '(name, sep, zone) := partition "%" name in Some (url_lower name ^+ sep ^+ zone).
Definition port_digits (s : string) : Z :=
  foldl (λ n d, n * 10 + (d - 48)) 0 (bytes_of s).
Definition port (r : SplitResult) : result (option Z) :=
  match (hostinfo r).2 with
  | None => Ok None
  | Some port =>
      if negb (all_chars (char_between "0" "9") port) then Raise (ValueError "Port could not be cast")
      else if 65535 <? port_digits port then Raise (ValueError "Port out of range 0-65535")
      else Ok (Some (port_digits port))
  end.
(** [_userinfo] *)
Definition username (r : SplitResult) : option string :=
  if contains "@" (sr_netloc r) then Some (partition ":" (userinfo (sr_netloc r))).1.1 else None.

Example endpoint_example :
  let r := urlsplit_endpoint (λ _, true) "HTTPS://user:pw@Vinctor.Example:8443/base?x" in
  (r ≫= λ r, Ok (sr_scheme r, hostname r, username r)) = Ok ("https", Some "vinctor.example", Some "user") ∧
  (r ≫= port) = Ok (Some 8443).
Proof. by split. Qed.
Example urlencode_example :
  urlencode [("agent_id", "a b&c"); ("limit", "20"); ("q", string_of [195; 169])] =
  "agent_id=a+b%26c&limit=20&q=%C3%A9".
Proof. by vm_compute. Qed.

(** ** Reading back *)

Lemma hex_upper_digit n : 0 ≤ n < 16 → hex_digit (hex_upper n) = Some n.
Proof.
  intros Hn. unfold hex_upper. assert (Hz : n = Z.of_nat (Z.to_nat n)) by lia. rewrite Hz.
  assert (Hk : (Z.to_nat n < 16)%nat) by lia. revert Hk. generalize (Z.to_nat n). intros k Hk.
  do 16 (destruct k as [|k]; [reflexivity|]). lia.
Qed.
Lemma byte_range c : 0 ≤ byte_of c < 256.
Proof. unfold byte_of. pose proof (N_ascii_bounded c). lia. Qed.
Lemma char_byte c : char_of (byte_of c) = c.
Proof. unfold byte_of, char_of. by rewrite N2Z.id, ascii_N_embedding. Qed.
Lemma percent_decodes c s :
  unquote_to_bytes (percent c ^+ s) = String c (unquote_to_bytes s).
Proof.
  unfold percent. rewrite !app_cons, app_empty_l. cbn [unquote_to_bytes]. rewrite Ascii.eqb_refl.
  pose proof (byte_range c) as Hb.
  rewrite !hex_upper_digit by (Z.to_euclidean_division_equations; lia).
  replace (16 * (byte_of c / 16) + byte_of c mod 16) with (byte_of c) by (Z.to_euclidean_division_equations; lia).
  by rewrite char_byte.
Qed.
Lemma plain_decodes c s : Ascii.eqb c "%" = false →
  unquote_to_bytes (String c s) = String c (unquote_to_bytes s).
Proof. intros Hc. cbn [unquote_to_bytes]. destruct s as [|b [|d s]]; [done|done|]. by rewrite Hc. Qed.
(** The characters a quoted text is made of. *)
Definition quoted_char (c : ascii) : bool := unreserved c || Ascii.eqb c "%" || Ascii.eqb c "+".
Lemma hex_upper_unreserved n : 0 ≤ n < 16 → unreserved (hex_upper n) = true.
Proof.
  intros Hn. assert (Hz : n = Z.of_nat (Z.to_nat n)) by lia. rewrite Hz.
  assert (Hk : (Z.to_nat n < 16)%nat) by lia. revert Hk. generalize (Z.to_nat n). intros k Hk.
  do 16 (destruct k as [|k]; [reflexivity|]). lia.
Qed.
Lemma percent_quoted c : all_chars quoted_char (percent c) = true.
Proof.
  unfold percent. pose proof (byte_range c) as Hb. cbn [all_chars]. unfold quoted_char.
  rewrite !hex_upper_unreserved by (Z.to_euclidean_division_equations; lia). done.
Qed.
Lemma quote_plus_chars s : all_chars quoted_char (quote_plus s) = true.
Proof.
  induction s as [|c s IH]; [done|]. cbn [quote_plus]. rewrite all_chars_app, IH, andb_true_r.
  destruct (unreserved c) eqn:E; [cbn; unfold quoted_char; by rewrite E|].
  destruct (Ascii.eqb c " "); [done|]. apply percent_quoted.
Qed.
Lemma quoted_not c s : quoted_char c = false → contains c (quote_plus s) = false.
Proof. intros Hc. by apply (all_chars_contains quoted_char); [apply quote_plus_chars|]. Qed.

Lemma unreserved_not c d : unreserved c = true → unreserved d = false → Ascii.eqb c d = false.
Proof. intros Hc Hd. apply Ascii.eqb_neq. intros ->. congruence. Qed.
Lemma quote_plus_bytes s : unquote_to_bytes (plus_to_space (quote_plus s)) = s.
Proof.
  assert (Happ : ∀ a b, plus_to_space (a ^+ b) = plus_to_space a ^+ plus_to_space b).
  { induction a as [|x a IH]; intros b; [done|]. rewrite app_cons. cbn [plus_to_space]. by rewrite IH, app_cons. }
  assert (Hhex : ∀ n, 0 ≤ n < 16 → Ascii.eqb (hex_upper n) "+" = false).
  { intros n Hn. apply unreserved_not; [by apply hex_upper_unreserved|done]. }
  assert (Hpct : ∀ c, plus_to_space (percent c) = percent c).
  { intros c. unfold percent. pose proof (byte_range c). cbn [plus_to_space].
    rewrite !Hhex by (Z.to_euclidean_division_equations; lia). done. }
  induction s as [|c s IH]; [done|]. cbn [quote_plus]. rewrite Happ.
  destruct (unreserved c) eqn:E.
  - cbn [plus_to_space]. rewrite (unreserved_not c "+") by done. rewrite app_cons, app_empty_l.
    rewrite plain_decodes by by apply unreserved_not. by rewrite IH.
  - destruct (Ascii.eqb_spec c " ") as [->|_].
    + change (plus_to_space "+") with " ". rewrite app_cons, app_empty_l, plain_decodes by done. by rewrite IH.
    + by rewrite Hpct, percent_decodes, IH.
Qed.
Lemma quote_plus_ascii s : all_chars (λ c, byte_of c <? 128) (plus_to_space (quote_plus s)) = true.
Proof.
  pose proof (quote_plus_chars s) as Hs. induction (quote_plus s) as [|c t IH]; [done|].
  cbn [all_chars plus_to_space] in *. apply andb_true_iff in Hs as [Hc Ht]. rewrite (IH Ht), andb_true_r.
  destruct (Ascii.eqb c "+"); [done|]. revert Hc. clear. by destruct c as [[] [] [] [] [] [] [] []].
Qed.
Lemma unquote_runs_ascii run s : all_chars (λ c, byte_of c <? 128) s = true →
  unquote_runs run s = decode_replace (unquote_to_bytes (run ^+ s)).
Proof.
  revert run. induction s as [|c s IH]; intros run Hs; [by rewrite app_empty_r|].
  cbn [all_chars unquote_runs] in *. apply andb_true_iff in Hs as [-> Hs]. rewrite IH by done.
  by rewrite app_assoc_str, app_cons, app_empty_l.
Qed.
(** UTF-8 is decoded to itself. *)
Lemma decode_replace1 cp s : scalar cp →
  decode_replace (utf8_encode1 cp ^+ s) = utf8_encode1 cp ^+ decode_replace s.
Proof.
  intros Hcp. assert (H0 : 0 ≤ cp < 1114112) by (unfold scalar in Hcp; lia). unfold scalar in Hcp.
  unfold utf8_encode1. destruct (Z.ltb_spec cp 128); [|destruct (Z.ltb_spec cp 2048);
    [|destruct (Z.ltb_spec cp 65536)]]; cbn [string_of]; rewrite !app_cons, !app_empty_l;
    cbn [decode_replace]; unfold byte_between, second_lo, second_hi;
    rewrite !byte_char by (Z.to_euclidean_division_equations; lia);
    repeat match goal with
    | |- context [?a <? ?b] => destruct (Z.ltb_spec a b);
        try (exfalso; Z.to_euclidean_division_equations; lia)
    | |- context [?a =? ?b] => destruct (Z.eqb_spec a b);
        try (exfalso; Z.to_euclidean_division_equations; lia)
    | |- context [?a <=? ?b] => destruct (Z.leb_spec a b);
        try (exfalso; Z.to_euclidean_division_equations; lia)
    end; cbn [orb andb negb]; try done.
Qed.
Lemma decode_replace_text s : is_text s → decode_replace s = s.
Proof.
  intros (cps & Hcps & ->). induction Hcps as [|cp cps Hcp _ IH]; [done|]. simpl.
  by rewrite decode_replace1, IH.
Qed.
Lemma unquote_quote_plus s : is_text s → unquote_plus (quote_plus s) = s.
Proof.
  intros Hs. unfold unquote_plus. rewrite unquote_runs_ascii by apply quote_plus_ascii.
  rewrite app_empty_l, quote_plus_bytes. by apply decode_replace_text.
Qed.

(** What a client writes in a query string the service reads. *)
Lemma parse_qs_urlencode values : NoDup (map fst values) →
  Forall (λ kv, is_text kv.1 ∧ is_text kv.2) values →
  parse_qs (urlencode values) = map (λ kv, (kv.1, [kv.2])) values.
Proof.
  intros Hnd Htext. unfold parse_qs, urlencode.
  set (piece := λ kv : string * string, quote_plus kv.1 ^+ "=" ^+ quote_plus kv.2).
  destruct values as [|kv values]; [done|].
  rewrite split_join; [|done|].
  2: { apply List.Forall_map, Forall_true. intros [k v]. unfold piece. cbn.
       rewrite !contains_app, !quoted_not by done. done. }
  match goal with |- foldl ?f _ _ = _ => set (step := f) end.
  assert (Hgen : ∀ l (d : dict string (list string)), NoDup (dkeys d ++ map fst l) →
    Forall (λ kv, is_text kv.1 ∧ is_text kv.2) l →
    foldl step d (map piece l) = d ++ map (λ kv, (kv.1, [kv.2])) l); [|by rewrite (Hgen (kv :: values) [])].
  clear. intros l. induction l as [|[k v] l IH]; intros d Hnd Hl; [by rewrite app_nil_r|].
  apply Forall_cons in Hl as [[Hk Hv] Hl]. cbn [map foldl]. unfold step at 2.
  assert (Hne : (piece (k, v) == "") = false).
  { apply String.eqb_neq. unfold piece. cbn [fst snd]. intros E. apply app_eq_empty in E as [_ E]. done. }
  rewrite Hne. unfold piece at 1. cbn [fst snd]. rewrite app_cons, app_empty_l.
  rewrite partition_found by by apply quoted_not. rewrite !unquote_quote_plus by done.
  assert (Hnew : dget k d = None).
  { apply dget_None. intros Hin. apply NoDup_app in Hnd as (_ & Hdis & _). apply (Hdis k Hin). by left. }
  rewrite Hnew. cbn [from_option id app].
  assert (Hset : dset k [v] d = d ++ [(k, [v])]) by by apply dset_fresh.
  rewrite Hset, IH; [by rewrite <-app_assoc| |done].
  unfold dkeys. rewrite fmap_app. cbn. by rewrite <-app_assoc.
Qed.
