(* ===== verification/V1Http.v ===== *)
(** * The enforcement endpoints ([src/vinctor_service/v1_http.py])

    Each handler authenticates the caller by its key, parses the body and calls
    the service.  [V1Service] is what the handlers call (the protocols of the
    source); the instance at the end of the definitions is the service of
    [Service.v]. *)
From S2P Require Import Prelude PyStr PyDict PyTime Scope Models Registry Enforce CoreAudit.
From S2P Require Import Sha256 Pop ServiceModels Repositories AuditWriter World V1Enforce Simulate.
From S2P Require Import Grants GrantRequests SubjectTokens AutoApproval Service Json Http.

Definition DEFAULT_SUBJECT_TOKEN_TTL_SECONDS : Z := 300.
Definition DEFAULT_SUBJECT_TOKEN_MAX_TTL_SECONDS : Z := 3600.

Class V1Service (S : Type) := {
  v1s_enforce : V1EnforceRequest → Z → M S V1EnforceResponse;
  v1s_observe : V1ObserveRequest → Z → M S V1ObserveResponse;
  v1s_simulate : V1SimulateRequest → Z → M S V1SimulateResponse;
  v1s_delegated_enforce : V1DelegatedEnforceRequest → Z → option string → Z → M S V1EnforceResponse;
  v1s_mint_subject_token : MintRequest → Z → M S SubjectTokenMintResult;
  v1s_record_auth_failure : string → Z → M S unit
}.

(** ** Bodies *)

Definition _parse_enforce_body (body : json) : parsed (dict string string) :=
  _parse_string_body body ["grant_ref"; "action"; "resource"] [].
Definition _parse_delegated_enforce_body (body : json) : parsed (dict string string) :=
  _parse_string_body body ["workspace_id"; "agent_id"; "grant_ref"; "action"; "resource"] [].
Definition _parse_observe_body (body : json) : parsed (dict string string) :=
  m ← body_object body;
  match jget "classification" m with
  | JStr c =>
      if c == "mapped"
      then _parse_string_body body ["classification"; "action"; "resource"] ["outcome"]
      else if c == "unmapped" then _parse_string_body body ["classification"] ["outcome"]
      else refuse "classification must be mapped or unmapped"
  | _ => refuse "classification must be mapped or unmapped"
  end.

Record ParsedTokenMintBody := mkParsedTokenMintBody {
  pm_grant_ref : string;
  pm_audience : string;
  pm_ttl_seconds : Z;
  pm_bound_action : option string;
  pm_bound_resource : option string;
  pm_pop : bool
}.
Definition parse_v1_token_mint_body (body : json) (max_ttl : Z) : parsed ParsedTokenMintBody :=
  m ← body_object body;
  _ ← refuse_extra m ["grant_ref"; "audience"; "ttl_seconds"; "action"; "resource"; "pop"];
  grant_ref ← text_field "grant_ref" (jget "grant_ref" m);
  audience ← text_field "audience" (jget "audience" m);
  ttl ← positive_field "ttl_seconds"
    (default (JInt DEFAULT_SUBJECT_TOKEN_TTL_SECONDS) (dget "ttl_seconds" m));
  _ ← (if max_ttl <? ttl then refuse ("ttl_seconds exceeds maximum " ^+ pretty max_ttl) else inr tt);
  bound_action ← optional_text "action" "" (jget "action" m);
  bound_resource ← optional_text "resource" "" (jget "resource" m);
  _ ← (if negb (Bool.eqb (bool_decide (bound_action = None)) (bool_decide (bound_resource = None)))
       then refuse "action and resource must be set together" else inr tt);
  pop ← match default (JBool false) (dget "pop" m) with
        | JBool b => inr b
        | _ => refuse "pop must be a boolean"
        end;
  inr (mkParsedTokenMintBody grant_ref audience ttl bound_action bound_resource pop).

(** ** Responses *)

(** The decision, the coarse reason codes and the event id: nothing else. *)
Definition _http_response_from_enforce (response : V1EnforceResponse) : V1HttpResponse :=
  match rs_decision response with
  | Some permit =>
      mkV1HttpResponse (rs_status_code response)
        [("decision", JStr "permit"); ("audit_event_id", jopt (rs_audit_event_id response))]
  | Some deny =>
      mkV1HttpResponse (rs_status_code response)
        [("decision", JStr "deny"); ("error", jopt (rs_error response));
         ("reason", jopt (rs_reason response)); ("audit_event_id", jopt (rs_audit_event_id response))]
  | None =>
      _error (rs_status_code response) (str_or_else (rs_error response) "service_unavailable")
        (str_or_else (rs_reason response) "no decision was recorded")
  end.
Definition observe_response (response : V1ObserveResponse) : V1HttpResponse :=
  if vor_status_code response =? 200
  then mkV1HttpResponse 200
    [("status", JStr "recorded"); ("audit_event_id", jopt (vor_audit_event_id response))]
  else _error (vor_status_code response) (str_or_else (vor_error response) "service_unavailable")
    (str_or_else (vor_reason response) "observation was not recorded").
Definition simulate_response (response : V1SimulateResponse) : V1HttpResponse :=
  match vsr_would_decision response with
  | Some d =>
      mkV1HttpResponse (vsr_status_code response)
        [("status", JStr "simulated"); ("would_decision", JStr (decision_str d));
         ("error", jopt (vsr_error response)); ("reason", jopt (vsr_reason response));
         ("audit_event_id", jopt (vsr_audit_event_id response))]
  | None =>
      _error (vsr_status_code response) (str_or_else (vsr_error response) "service_unavailable")
        (str_or_else (vsr_reason response) "simulation was not recorded")
  end.
Definition mint_response (minted : SubjectTokenMintResult) : result V1HttpResponse :=
  if negb (mt_status minted == "minted")
  then Ok (_error 403 "forbidden" "subject token could not be issued")
  else
    match mt_token minted, mt_token_id minted, mt_expires_at minted with
    | Some token, Some token_id, Some expires_at =>
        Ok (mkV1HttpResponse 201
          ([("token", JStr token); ("token_id", JStr token_id);
            ("expires_at", JStr (isoformat expires_at))]
           ++ match mt_pop_secret minted with
              | Some secret => [("pop_secret", JStr secret)]
              | None => []
              end))
    | _, _, _ => Raise AssertionError
    end.

(** ** Handlers *)
Section handlers.
Context {S : Type} `{V1Service S}.

(** The first half of every handler: a caller without a valid key is recorded
    and refused before the body is looked at. *)
Definition authenticated {I} (header label surface : string) (headers : dict string string)
    (keys : Keyring S I) (now : Z) (k : I → M S V1HttpResponse) : M S V1HttpResponse :=
  identity ← header_identity header headers keys now;
  match identity with
  | None =>
      _ ← v1s_record_auth_failure surface now;
      mret (_error 401 "authentication_required" ("valid " ^+ label ^+ " header is required"))
  | Some identity => k identity
  end.
(** [parsed = parse(body); if isinstance(parsed, V1HttpResponse): return parsed] *)
Definition with_parsed {A} (p : parsed A) (k : A → M S V1HttpResponse) : M S V1HttpResponse :=
  match p with inl response => mret response | inr x => k x end.

Definition handle_v1_enforce_http (headers : dict string string) (body : json)
    (agents : Keyring S AgentIdentity) (now : Z) : M S V1HttpResponse :=
  authenticated "x-agent-key" "X-Agent-Key" "enforce" headers agents now (λ identity,
  with_parsed (_parse_enforce_body body) (λ parsed,
    grant_ref ← lift (ditem parsed "grant_ref");
    action ← lift (ditem parsed "action");
    resource ← lift (ditem parsed "resource");
    response ← v1s_enforce
      (mkV1EnforceRequest (ai_workspace_id identity) (ai_agent_id identity) grant_ref action resource
         (dget "x-vinctor-boundary-id" (normalized headers))) now;
    mret (_http_response_from_enforce response))).

Definition handle_v1_observe_http (headers : dict string string) (body : json)
    (agents : Keyring S AgentIdentity) (now : Z) : M S V1HttpResponse :=
  authenticated "x-agent-key" "X-Agent-Key" "observe" headers agents now (λ identity,
  with_parsed (_parse_observe_body body) (λ parsed,
    classification ← lift (ditem parsed "classification");
    response ← v1s_observe
      (mkV1ObserveRequest (ai_workspace_id identity) (ai_agent_id identity) classification
         (dget "action" parsed) (dget "resource" parsed)
         (dget "x-vinctor-boundary-id" (normalized headers)) (dget "outcome" parsed)) now;
    mret (observe_response response))).

Definition handle_v1_simulate_http (headers : dict string string) (body : json)
    (agents : Keyring S AgentIdentity) (now : Z) : M S V1HttpResponse :=
  authenticated "x-agent-key" "X-Agent-Key" "simulate" headers agents now (λ identity,
  with_parsed (_parse_enforce_body body) (λ parsed,
    grant_ref ← lift (ditem parsed "grant_ref");
    action ← lift (ditem parsed "action");
    resource ← lift (ditem parsed "resource");
    response ← v1s_simulate
      (mkV1SimulateRequest (ai_workspace_id identity) (ai_agent_id identity) grant_ref action resource
         (dget "x-vinctor-boundary-id" (normalized headers))) now;
    mret (simulate_response response))).

(** The trusted workspace is the one of the PEP's key; the workspace and agent of
    the request are what the caller asserts. *)
Definition handle_v1_delegated_enforce_http (headers : dict string string) (body : json)
    (peps : Keyring S PepIdentity) (now pop_skew_seconds : Z) : M S V1HttpResponse :=
  authenticated "x-pep-key" "X-PEP-Key" "delegated" headers peps now (λ identity,
  with_parsed (_parse_delegated_enforce_body body) (λ parsed,
    workspace_id ← lift (ditem parsed "workspace_id");
    agent_id ← lift (ditem parsed "agent_id");
    grant_ref ← lift (ditem parsed "grant_ref");
    action ← lift (ditem parsed "action");
    resource ← lift (ditem parsed "resource");
    response ← v1s_delegated_enforce
      (mkV1DelegatedEnforceRequest (pi_pep_id identity) workspace_id agent_id grant_ref action
         resource (dget "x-vinctor-boundary-id" (normalized headers))
         (dget "x-subject-token" (normalized headers))
         (dget "x-subject-token-proof" (normalized headers)))
      now (Some (pi_workspace_id identity)) pop_skew_seconds;
    mret (_http_response_from_enforce response))).

Definition mint_v1_token_http_result (parsed : ParsedTokenMintBody) (identity : AgentIdentity)
    (now : Z) : M S (V1HttpResponse * SubjectTokenMintResult) :=
  minted ← v1s_mint_subject_token
    (mkMintRequest (ai_workspace_id identity) (ai_agent_id identity) (pm_grant_ref parsed)
       (pm_audience parsed) (pm_ttl_seconds parsed) (pm_bound_action parsed)
       (pm_bound_resource parsed) (pm_pop parsed)) now;
  response ← lift (mint_response minted);
  mret (response, minted).
Definition handle_v1_tokens_http (headers : dict string string) (body : json)
    (agents : Keyring S AgentIdentity) (now max_ttl : Z) : M S V1HttpResponse :=
  authenticated "x-agent-key" "X-Agent-Key" "tokens" headers agents now (λ identity,
  with_parsed (parse_v1_token_mint_body body max_ttl) (λ parsed,
    '(response, _) ← mint_v1_token_http_result parsed identity now;
    mret response)).
End handlers.

(** ** The service in memory *)
Section service.
Context {G A : Type} `{GrantLifecycle G} `{AuditWriter A} (int_unicode : string → result Z).
#[global] Instance v1_service : V1Service (World G A) := {|
  v1s_enforce := svc_enforce;
  v1s_observe := svc_observe;
  v1s_simulate := svc_simulate;
  v1s_delegated_enforce := svc_delegated_enforce int_unicode;
  v1s_mint_subject_token := λ request now, mint_subject_token request now nullcontext;
  v1s_record_auth_failure := record_auth_failure
|}.
End service.

(** ** Specification *)

Lemma run_case {S A B} (m : M S A) (f : A → M S B) s r s' :
  (m ≫= f) s = (r, s') →
  (∃ a s1, m s = (Ok a, s1) ∧ f a s1 = (r, s')) ∨ ∃ e, m s = (Raise e, s') ∧ r = Raise e.
Proof.
  unfold mbind, M_bind. destruct (m s) as [[a|e] s1]; [|intros [= <- <-]]; eauto 10.
Qed.

Section inversions.
Context {S : Type} `{V1Service S}.
Lemma authenticated_inv {I} header label surface headers (keys : Keyring S I) now k s resp s' :
  steady keys → authenticated header label surface headers keys now k s = (Ok resp, s') →
  (header_identity header headers keys now s = (Ok None, s) ∧
   v1s_record_auth_failure surface now s = (Ok tt, s') ∧
   resp = _error 401 "authentication_required" ("valid " ^+ label ^+ " header is required")) ∨
  ∃ identity, header_identity header headers keys now s = (Ok (Some identity), s) ∧
    k identity s = (Ok resp, s').
Proof.
  intros Hk. unfold authenticated. rewrite bind_Ok_inv. intros (o & s1 & Hid & Hrun).
  pose proof (header_identity_steady header headers keys now s Hk) as Hs. rewrite Hid in Hs.
  cbn in Hs. subst s1. destruct o as [identity|]; [right; by exists identity|left].
  apply bind_Ok_inv in Hrun as ([] & s2 & Hr & [= <- <-]). done.
Qed.
Lemma with_parsed_inv {A} (p : parsed A) (k : A → M S V1HttpResponse) s resp s' :
  with_parsed p k s = (Ok resp, s') →
  (p = inl resp ∧ s' = s) ∨ ∃ x, p = inr x ∧ k x s = (Ok resp, s').
Proof. destruct p as [r|x]; [intros [= <- <-]; by left|right; by exists x]. Qed.
End inversions.

Lemma ditem_Ok {V} (d : dict string V) k (s : V) : dget k d = Some s → ditem d k = Ok s.
Proof. unfold ditem. by intros ->. Qed.

(** The string a body holds under a name. *)
Definition text_at (body : json) (field s : string) : Prop :=
  ∃ m, body = JObj m ∧ dget field m = Some (JStr s) ∧ s ≠ "".
Lemma parsed_text body required optional p k :
  _parse_string_body body required optional = inr p → k ∈ required →
  ∃ s, ditem p k = Ok s ∧ text_at body k s.
Proof.
  intros Hp Hk. pose proof (string_body_spec body required optional) as Hspec. rewrite Hp in Hspec.
  destruct Hspec as (m & -> & (_ & Hreq & Htext) & Hget). destruct (Hreq k Hk) as [v Hv].
  destruct (Htext k v Hv) as [s Hs]. exists s. split; [apply ditem_Ok; by rewrite Hget, Hv|].
  exists m. split; [done|]. unfold as_text in Hs. destruct v as [| | |t| |]; try done.
  destruct (String.eqb_spec t ""); [done|]. by injection Hs as ->.
Qed.

Section facts.
Context {G A : Type} `{HG : GrantLifecycleOk G} `{HA : AuditWriterOk A}.
Context (int_unicode : string → result Z).
Implicit Types (w : World G A).
#[local] Existing Instance v1_service.

(** The request an enforce call stands for: whose key it is, and what its body
    asks for. *)
Definition asks (headers : dict string string) (body : json) (identity : AgentIdentity)
    (request : V1EnforceRequest) : Prop :=
  v1_workspace_id request = ai_workspace_id identity ∧ v1_agent_id request = ai_agent_id identity ∧
  text_at body "grant_ref" (v1_grant_ref request) ∧ text_at body "action" (v1_action request) ∧
  text_at body "resource" (v1_resource request) ∧
  v1_boundary_id request = dget "x-vinctor-boundary-id" (normalized headers).

Lemma enforce_http_run headers body agents identity now w :
  header_identity "x-agent-key" headers agents now w = (Ok (Some identity), w) →
  (∃ r, _parse_enforce_body body = inl r ∧
     handle_v1_enforce_http (H := v1_service int_unicode) headers body agents now w = (Ok r, w)) ∨
  ∃ p request, _parse_enforce_body body = inr p ∧ asks headers body identity request ∧
    (ditem p "grant_ref", ditem p "action", ditem p "resource",
     mkV1EnforceRequest (ai_workspace_id identity) (ai_agent_id identity) (v1_grant_ref request)
       (v1_action request) (v1_resource request) (dget "x-vinctor-boundary-id" (normalized headers)))
    = (Ok (v1_grant_ref request), Ok (v1_action request), Ok (v1_resource request), request) ∧
    ∀ resp w',
      handle_v1_enforce_http (H := v1_service int_unicode) headers body agents now w = (Ok resp, w') →
      ∃ response, svc_enforce request now w = (Ok response, w') ∧
        resp = _http_response_from_enforce response.
Proof.
  intros Hid. unfold handle_v1_enforce_http, authenticated. rewrite (bind_run _ _ _ _ _ Hid).
  destruct (_parse_enforce_body body) as [r|p] eqn:Hp; [left; by exists r|right].
  unfold _parse_enforce_body in Hp.
  destruct (parsed_text _ _ _ _ "grant_ref" Hp) as (ref & Eref & Href); [set_solver|].
  destruct (parsed_text _ _ _ _ "action" Hp) as (action & Eaction & Haction); [set_solver|].
  destruct (parsed_text _ _ _ _ "resource" Hp) as (resource & Eresource & Hresource); [set_solver|].
  exists p, (mkV1EnforceRequest (ai_workspace_id identity) (ai_agent_id identity) ref action resource
    (dget "x-vinctor-boundary-id" (normalized headers))).
  split; [done|]. split; [by split_and!|]. split; [by rewrite Eref, Eaction, Eresource|].
  intros resp w'. cbn [with_parsed]. rewrite Eref, Eaction, Eresource, !lift_Ok_bind.
  rewrite bind_Ok_inv. intros (response & w1 & Hsvc & [= <- <-]). by exists response.
Qed.
Lemma enforce_http_inv headers body agents now w resp w' :
  steady agents →
  handle_v1_enforce_http (H := v1_service int_unicode) headers body agents now w = (Ok resp, w') →
  (header_identity "x-agent-key" headers agents now w = (Ok None, w) ∧
   record_auth_failure "enforce" now w = (Ok tt, w') ∧
   resp = _error 401 "authentication_required" "valid X-Agent-Key header is required") ∨
  ∃ identity, header_identity "x-agent-key" headers agents now w = (Ok (Some identity), w) ∧
    ((_parse_enforce_body body = inl resp ∧ refusal resp ∧ w' = w) ∨
     ∃ request response, asks headers body identity request ∧
       svc_enforce request now w = (Ok response, w') ∧ resp = _http_response_from_enforce response).
Proof.
  intros Hk Hrun. pose proof Hrun as Hrun'. unfold handle_v1_enforce_http in Hrun'.
  apply authenticated_inv in Hrun' as [(Hid & Hr & ->)|(identity & Hid & _)]; [by left|right|done].
  exists identity. split; [done|].
  destruct (enforce_http_run headers body agents identity now w Hid)
    as [(r & Hp & Hr)|(p & request & Hp & Hasks & _ & Hinv)].
  - left. rewrite Hr in Hrun. injection Hrun as <- <-. split_and!; [done| |done].
    by apply (refuses_strings _ _ _ _ Hp).
  - right. destruct (Hinv _ _ Hrun) as (response & Hsvc & ->). by exists request, response.
Qed.

(** What recording failed authentications may leave behind: at most [n] events of
    that type, which belong to no workspace, and the throttle's count. *)
Definition failure_recorded (n : nat) w w' : Prop :=
  w_grants w' = w_grants w ∧ w_bounds w' = w_bounds w ∧ w_requests w' = w_requests w ∧
  w_rules w' = w_rules w ∧ w_tokens w' = w_tokens w ∧ w_settings w' = w_settings w ∧
  w_registry w' = w_registry w ∧ w_pop w' = w_pop w ∧
  ∃ l, log w' = log w ++ l ∧ (length l ≤ n)%nat ∧
    Forall (λ e, e_event_type e = EVENT_AUTH_FAILED ∧ e_workspace_id e = "") l.
Lemma emit_run surface created count first last w :
  ∃ w', _emit surface created count first last w = (Ok tt, w') ∧ failure_recorded 1 w w'.
Proof.
  unfold _emit. rewrite (bind_run _ _ _ _ _ (new_event_id_run _)).
  set (e := auth_failed_event _ _ _ _ _ _).
  destruct (record_rejection_run e (w_audit w)) as (b & a & Hr & Hlog).
  rewrite (bind_run _ _ _ _ _ (zoom_run w_audit set_audit _ (drew w) _ _ Hr)).
  eexists. split; [done|]. split_and!; [done..|]. exists (if b : bool then [e] else []).
  split_and!; [change (aw_log a = log w ++ (if b then [e] else [])); rewrite Hlog;
    destruct b; [done|by rewrite app_nil_r]|destruct b; cbn; lia|].
  destruct b; [|constructor]. constructor; [by split|constructor].
Qed.
Lemma failure_recorded_trans m n w1 w2 w3 :
  failure_recorded m w1 w2 → failure_recorded n w2 w3 → failure_recorded (m + n) w1 w3.
Proof.
  intros (?&?&?&?&?&?&?&?&l1&E1&Hn1&F1) (?&?&?&?&?&?&?&?&l2&E2&Hn2&F2). split_and!; [congruence..|].
  exists (l1 ++ l2). rewrite E2, E1, app_assoc, length_app. split_and!; [done|lia|by apply Forall_app].
Qed.
Lemma failure_recorded_le m n w w' : (m ≤ n)%nat → failure_recorded m w w' → failure_recorded n w w'.
Proof.
  intros Hn (?&?&?&?&?&?&?&?&l&El&Hl&F). split_and!; try done. exists l. split_and!; [done|lia|done].
Qed.
Lemma record_auth_failure_run surface now w :
  ∃ w', record_auth_failure surface now w = (Ok tt, w') ∧ failure_recorded 2 w w'.
Proof.
  unfold record_auth_failure.
  destruct (throttle_step surface now (w_throttle w)) as [r t] eqn:Et.
  assert (∃ step, r = Ok step) as [step ->].
  { unfold throttle_step in Et. repeat case_match; simplify_eq; by eexists. }
  rewrite (bind_run _ _ _ _ _ (zoom_run w_throttle set_throttle _ w _ _ Et)).
  assert (Hstart : failure_recorded 0 w (set_throttle t w)).
  { split_and!; [done..|]. exists []. rewrite app_nil_r. by split_and!. }
  destruct step as [closed|]; [|eexists; split; [done|]; apply (failure_recorded_le 0); [lia|done]].
  destruct (emit_run surface now 1 now now (set_throttle t w)) as (w1 & Hr1 & Hw1).
  destruct closed as [win|].
  - destruct (emit_run surface (win_last_seen win) (win_count win) (win_start win) (win_last_seen win)
      (set_throttle t w)) as (w2 & Hr2 & Hw2).
    rewrite (bind_run _ _ _ _ _ Hr2).
    destruct (emit_run surface now 1 now now w2) as (w3 & Hr3 & Hw3). exists w3. split; [exact Hr3|].
    apply (failure_recorded_trans 0 2 w _ _ Hstart). by apply (failure_recorded_trans 1 1 _ w2).
  - exists w1. split; [exact Hr1|]. apply (failure_recorded_le 1); [lia|].
    by apply (failure_recorded_trans 0 1 _ _ _ Hstart).
Qed.

(** C16: A caller without a valid key learns nothing and moves nothing.  On each of
    the five endpoints, whatever the body, it is answered 401 with one and the same
    body, which names the header that is missing and depends on nothing else: not
    on the body it sent, nor on any state of the service.  What it leaves behind
    is at most two events of the authentication-failure record, which belong to no
    workspace: grants, bounds, requests, rules, tokens, settings, boundaries and
    the replay cache are as they were. *)
Theorem v1_unauthenticated headers body agents peps now skew max_ttl w :
  let refused header (h : M (World G A) V1HttpResponse) := ∃ w', failure_recorded 2 w w' ∧
    h w = (Ok (mkV1HttpResponse 401 [("error", JStr "authentication_required");
                 ("reason", JStr ("valid " ^+ header ^+ " header is required"))]), w') in
  (header_identity "x-agent-key" headers agents now w = (Ok None, w) →
   refused "X-Agent-Key" (handle_v1_enforce_http (H := v1_service int_unicode) headers body agents now) ∧
   refused "X-Agent-Key" (handle_v1_observe_http (H := v1_service int_unicode) headers body agents now) ∧
   refused "X-Agent-Key" (handle_v1_simulate_http (H := v1_service int_unicode) headers body agents now) ∧
   refused "X-Agent-Key" (handle_v1_tokens_http (H := v1_service int_unicode) headers body agents now max_ttl)) ∧
  (header_identity "x-pep-key" headers peps now w = (Ok None, w) →
   refused "X-PEP-Key" (handle_v1_delegated_enforce_http (H := v1_service int_unicode) headers body peps now skew)).
Proof.
  cbv zeta.
  assert (Hrefuse : ∀ I header label surface (keys : Keyring (World G A) I) k,
    header_identity header headers keys now w = (Ok None, w) →
    ∃ w', failure_recorded 2 w w' ∧
      authenticated (H := v1_service int_unicode) header label surface headers keys now k w
      = (Ok (_error 401 "authentication_required" ("valid " ^+ label ^+ " header is required")), w')).
  { intros I header label surface keys k Hid. unfold authenticated.
    rewrite (bind_run _ _ _ _ _ Hid). destruct (record_auth_failure_run surface now w) as (w' & Hr & Hw').
    exists w'. split; [exact Hw'|].
    cbn [v1s_record_auth_failure v1_service]. by rewrite (bind_run _ _ _ _ _ Hr). }
  split; [intros Hid; split_and!|intros Hid]; by apply Hrefuse.
Qed.

(** C1: Soundness of a permit at the door.  A body that says "permit" is answered
    to a caller whose key resolves to a workspace and an agent, for a body whose
    grant reference, action and resource are non-empty strings; the grant of that
    reference is that agent's in that workspace, active, not expired and
    well-formed, and one of its scopes covers the action on the resource; exactly
    one event was written, a permit of that workspace and agent, and the answer is a
    200 that names it and nothing else. *)
Theorem http_permit_sound headers body agents now w resp w' :
  wf w → steady agents →
  handle_v1_enforce_http (H := v1_service int_unicode) headers body agents now w = (Ok resp, w') →
  dget "decision" (hr_body resp) = Some (JStr "permit") →
  ∃ identity grant_ref action resource g event,
    header_identity "x-agent-key" headers agents now w = (Ok (Some identity), w) ∧
    text_at body "grant_ref" grant_ref ∧ text_at body "action" action ∧
    text_at body "resource" resource ∧
    grants w !! grant_ref = Some g ∧ g_workspace_id g = ai_workspace_id identity ∧
    g_agent_id g = ai_agent_id identity ∧ g_status g = "active" ∧
    (∀ t, g_expires_at g = Some t → now < t) ∧ scopes_valid g ∧
    (∃ s, s ∈ g_scopes g ∧ scope_covers s action resource = true) ∧
    log w' = log w ++ [event] ∧ e_decision event = permit ∧
    e_workspace_id event = ai_workspace_id identity ∧ e_agent_id event = ai_agent_id identity ∧
    resp = mkV1HttpResponse 200 [("decision", JStr "permit"); ("audit_event_id", JStr (e_event_id event))].
Proof.
  intros Hw Hk Hrun Hp.
  destruct (enforce_http_inv _ _ _ _ _ _ _ Hk Hrun) as
    [(_ & _ & ->)|(identity & Hid & [(_ & [reason ->] & _)|(request & response & Hasks & Hsvc & ->)])];
    [done..|].
  destruct Hasks as (Hws & Hag & Href & Haction & Hresource & _).
    unfold svc_enforce in Hsvc.
    destruct (enforce_v1_outcome _ _ _ _ _ _ _ Hw Hsvc) as [(Hn & _)|(g & rb & Hg & [Hgw Hga] & _ & Hd)].
    { unfold _http_response_from_enforce in Hp. by rewrite Hn in Hp. }
    destruct Hd as (Hval & id & Hlog & ->).
    unfold _response_from_decision in Hp |- *.
    destruct (d_decision (evaluate_enforce (v1_input request g now (Some (own_registry w)) rb))) eqn:Ed;
      [|done]. pose proof Ed as Hd. apply permit_iff in Hd as (_ & _ & Hst & Hu & Hs & Hcov).
    destruct (evaluate_enforce_discloses (v1_input request g now (Some (own_registry w)) rb)) as (_&Ha&Hwk&_).
    eexists identity, _, _, _, g, _. split_and!; try done; try exact Hlog; cbn in *; congruence.
Qed.

(** ** Minting *)

(** What a body that parses asks for. *)
Lemma token_body_spec body max_ttl p :
  parse_v1_token_mint_body body max_ttl = inr p →
  text_at body "grant_ref" (pm_grant_ref p) ∧ text_at body "audience" (pm_audience p) ∧
  0 < pm_ttl_seconds p ≤ max_ttl ∧ (pm_bound_action p = None ↔ pm_bound_resource p = None).
Proof.
  unfold parse_v1_token_mint_body. destruct body as [| | | | |m]; try done.
  assert (Htext : ∀ k s, text_field k (jget k m) = inr s → text_at (JObj m) k s).
  { intros k s. unfold text_field, jget. destruct (dget k m) as [v|] eqn:Hv; [|done].
    cbn. destruct v as [| | |t| |]; try done. cbn.
    destruct (String.eqb_spec t ""); [done|]. intros [= <-]. by exists m. }
  unfold mbind, parsed_bind. cbn [body_object].
  destruct (refuse_extra m _) as [|[]]; [done|].
  destruct (text_field "grant_ref" _) as [|ref] eqn:Eref; [done|].
  destruct (text_field "audience" _) as [|aud] eqn:Eaud; [done|].
  destruct (positive_field "ttl_seconds" _) as [|ttl] eqn:Ettl; [done|].
  destruct (Z.ltb_spec max_ttl ttl); [done|].
  destruct (optional_text "action" _ _) as [|action]; [done|].
  destruct (optional_text "resource" _ _) as [|resource]; [done|].
  destruct (Bool.eqb _ _) eqn:Eb; [cbn [negb]|done]. apply Bool.eqb_prop in Eb.
  destruct (default (JBool false) (dget "pop" m)); try done. intros [= <-]. cbn.
  assert (Hpos : 0 < ttl).
  { unfold positive_field in Ettl. destruct (default _ (dget "ttl_seconds" m)); try done.
    destruct (Z.leb_spec z 0); [done|]. by injection Ettl as <-. }
  split; [by apply Htext|]. split; [by apply Htext|]. split; [done|]. split; intros ->.
  - rewrite bool_decide_true in Eb by done. by apply eq_sym, bool_decide_eq_true in Eb.
  - rewrite (bool_decide_true (None = None)) in Eb by done. by apply bool_decide_eq_true in Eb.
Qed.
Lemma refuses_token_body body max_ttl : refuses (parse_v1_token_mint_body body max_ttl).
Proof. unfold parse_v1_token_mint_body. refuses. Qed.
(** The request a mint call stands for. *)
Definition mints (body : json) (identity : AgentIdentity) (max_ttl : Z) (request : MintRequest) : Prop :=
  mi_workspace_id request = ai_workspace_id identity ∧ mi_agent_id request = ai_agent_id identity ∧
  text_at body "grant_ref" (mi_grant_ref request) ∧ text_at body "audience" (mi_audience request) ∧
  0 < mi_ttl_seconds request ≤ max_ttl ∧
  (mi_bound_action request = None ↔ mi_bound_resource request = None).
Lemma tokens_http_run headers body agents identity now max_ttl w :
  header_identity "x-agent-key" headers agents now w = (Ok (Some identity), w) →
  (∃ r, parse_v1_token_mint_body body max_ttl = inl r ∧
     handle_v1_tokens_http (H := v1_service int_unicode) headers body agents now max_ttl w = (Ok r, w)) ∨
  ∃ p request, parse_v1_token_mint_body body max_ttl = inr p ∧ mints body identity max_ttl request ∧
    request = mkMintRequest (ai_workspace_id identity) (ai_agent_id identity) (pm_grant_ref p)
       (pm_audience p) (pm_ttl_seconds p) (pm_bound_action p) (pm_bound_resource p) (pm_pop p) ∧
    ∀ resp w',
      handle_v1_tokens_http (H := v1_service int_unicode) headers body agents now max_ttl w = (Ok resp, w') →
      ∃ minted, mint_subject_token request now nullcontext w = (Ok minted, w') ∧
        mint_response minted = Ok resp.
Proof.
  intros Hid. unfold handle_v1_tokens_http, authenticated. rewrite (bind_run _ _ _ _ _ Hid).
  destruct (parse_v1_token_mint_body body max_ttl) as [r|p] eqn:Ep; [left; by exists r|right].
  destruct (token_body_spec _ _ _ Ep) as (Href & Haud & Httl & Hboth).
  exists p, (mkMintRequest (ai_workspace_id identity) (ai_agent_id identity) (pm_grant_ref p)
    (pm_audience p) (pm_ttl_seconds p) (pm_bound_action p) (pm_bound_resource p) (pm_pop p)).
  split; [done|]. split; [exact (conj eq_refl (conj eq_refl (conj Href (conj Haud (conj Httl Hboth)))))|].
  split; [done|].
  intros resp w' Hrun. cbn [with_parsed] in Hrun. unfold mint_v1_token_http_result in Hrun.
  apply bind_Ok_inv in Hrun as ([resp' minted] & w1 & Hm & [= <- <-]).
  apply bind_Ok_inv in Hm as (minted' & w2 & Hmint & Hm).
  apply bind_Ok_inv in Hm as (r & w3 & [Hresp ->]%lift_run & [= <- <- <-]).
  by exists minted'.
Qed.

(** C18: A minted token is bounded at the door.  A 201 hands out a token only to a
    caller whose key resolves, for a grant of that agent and workspace that is in
    force, active and not expired; the token is for that grant, agent and workspace
    and the audience the body names, and for an action and resource both or neither;
    it never outlives the grant nor lasts longer than the configured maximum; it is
    new, not revoked, and stored under its hash only; no grant changes; and the
    answer gives the token, its id and its expiry. *)
Theorem http_mint_bounded headers body agents now max_ttl w resp w' :
  wf w → steady agents →
  handle_v1_tokens_http (H := v1_service int_unicode) headers body agents now max_ttl w = (Ok resp, w') →
  hr_status_code resp = 201 →
  ∃ identity grant_ref audience g raw t,
    header_identity "x-agent-key" headers agents now w = (Ok (Some identity), w) ∧
    text_at body "grant_ref" grant_ref ∧ text_at body "audience" audience ∧
    (grants w !! grant_ref = Some g ∧ g_workspace_id g = ai_workspace_id identity ∧
     g_agent_id g = ai_agent_id identity ∧ g_status g = "active" ∧ ∀ e, g_expires_at g = Some e → now < e) ∧
    w_tokens w' = mkTokens (dset (_hash_key raw) t (_tokens_by_hash (w_tokens w))) ∧
    tokens_get_by_hash (_hash_key raw) (w_tokens w) = None ∧ grants w' = grants w ∧
    (st_grant_ref t = grant_ref ∧ st_workspace_id t = ai_workspace_id identity ∧
     st_agent_id t = ai_agent_id identity ∧ st_audience t = audience ∧ st_token_hash t = _hash_key raw ∧
     st_issued_at t = now ∧ st_revoked_at t = None ∧
     (is_Some (st_bound_action t) ↔ is_Some (st_bound_resource t))) ∧
    st_expires_at t ≤ now + seconds max_ttl ∧ (∀ e, g_expires_at g = Some e → st_expires_at t ≤ e) ∧
    dget "token" (hr_body resp) = Some (JStr raw) ∧
    dget "token_id" (hr_body resp) = Some (JStr (st_token_id t)) ∧
    dget "expires_at" (hr_body resp) = Some (JStr (isoformat (st_expires_at t))) ∧
    (dget "pop_secret" (hr_body resp) = JStr <$> st_pop_secret t).
Proof.
  intros Hw Hk Hrun Hst. pose proof Hrun as Hrun'. unfold handle_v1_tokens_http in Hrun'.
  apply authenticated_inv in Hrun' as [(_ & _ & ->)|(identity & Hid & _)]; [done| |done].
  destruct (tokens_http_run headers body agents identity now max_ttl w Hid)
    as [(r & Hp & Hr)|(p & request & Hp & Hmints & Hreq & Hinv)].
  { rewrite Hr in Hrun. injection Hrun as -> _.
    destruct (refuses_token_body _ _ _ Hp) as [reason ->]. done. }
  destruct (Hinv _ _ Hrun) as (minted & Hmint & Hresp).
  destruct Hmints as (Hws & Hag & Href & Haud & Httl & _).
  destruct (mint_outcome _ _ _ _ _ _ Hw nullcontext_scoped Hmint)
    as [(g & raw & t & [[Hg Hin] -> Hnew Hstored Htoken Hbind [He1 He2] [_ Hgr] _])|(-> & _)];
    [|by injection Hresp as <-].
  destruct Hin as (Hga & Hgw & Hact & Hun). destruct Htoken as (Htw & Hta & Htg & Htau & Hti & Htr & Hth).
  exists identity, (mi_grant_ref request), (mi_audience request), g, raw, t.
  unfold seconds in *. injection Hresp as <-. split_and!; try done; try congruence; [apply Hbind..|nia|].
  cbn. by destruct (st_pop_secret t).
Qed.

(** ** No grant oracle *)

(** C17: No grant oracle at the door.  From two services with the same audit store
    and name source, whose grants differ in any way but where the grant the body
    names is not the caller's own in either, be it unknown or somebody else's, an
    enforce and a mint call each get the same answer (an unreachable grant store
    aside) and write the same. *)
Theorem http_no_grant_oracle headers body agents identity now max_ttl w1 w2 h r1 w1' r2 w2' :
  wf w1 → wf w2 → steady agents → w_audit w1 = w_audit w2 → w_entropy w1 = w_entropy w2 →
  header_identity "x-agent-key" headers agents now w1 = (Ok (Some identity), w1) →
  header_identity "x-agent-key" headers agents now w2 = (Ok (Some identity), w2) →
  (∀ ref g, text_at body "grant_ref" ref → grants w1 !! ref = Some g ∨ grants w2 !! ref = Some g →
     g_workspace_id g ≠ ai_workspace_id identity ∨ g_agent_id g ≠ ai_agent_id identity) →
  h = handle_v1_enforce_http (H := v1_service int_unicode) headers body agents now ∨
  h = handle_v1_tokens_http (H := v1_service int_unicode) headers body agents now max_ttl →
  h w1 = (Ok r1, w1') → h w2 = (Ok r2, w2') → hr_status_code r1 ≠ 503 → hr_status_code r2 ≠ 503 →
  r1 = r2 ∧ w_audit w1' = w_audit w2' ∧ w_entropy w1' = w_entropy w2'.
Proof.
  intros Hw1 Hw2 Hk Ha He Hid1 Hid2 Hno [-> | ->] E1 E2 Hn1 Hn2.
  - destruct (enforce_http_run headers body agents identity now w1 Hid1)
      as [(r & Hp & Hr)|(p & request & Hp & Hasks & Hreq & Hinv1)];
    destruct (enforce_http_run headers body agents identity now w2 Hid2)
      as [(r' & Hp' & Hr')|(p' & request' & Hp' & _ & Hreq' & Hinv2)]; try congruence.
    { rewrite Hr in E1. rewrite Hr' in E2. assert (r' = r) as -> by congruence.
      injection E1 as <- <-. by injection E2 as <- <-. }
    assert (p' = p) as -> by congruence. injection Hreq as Eg1 Ea1 Er1 Eq1.
    injection Hreq' as Eg2 Ea2 Er2 Eq2.
    assert (request' = request) as -> by (rewrite <- Eq1, <- Eq2; congruence). clear Eq1 Eq2 Hp'.
    destruct (Hinv1 _ _ E1) as (s1 & Hs1 & ->). destruct (Hinv2 _ _ E2) as (s2 & Hs2 & ->).
    destruct Hasks as (Hws & Hag & Href & _).
    assert (Hforeign : ∀ w g, w = w1 ∨ w = w2 → grants w !! v1_grant_ref request = Some g →
      ¬ own_grant request g).
    { intros w g Hor Hg [Hgw Hga]. destruct (Hno _ g Href); [|congruence..].
      destruct Hor as [-> | ->]; auto. }
    unfold svc_enforce in Hs1, Hs2.
    destruct (enforce_foreign_run request now (Some (own_registry w1)) (Some (own_settings w1)) w1 Hw1)
      as [Er|(g1 & a1 & Hrun1 & x1 & Hx1)];
      [intros g; apply Hforeign; by left|rewrite Er in Hs1; injection Hs1 as <- _; done|].
    destruct (enforce_foreign_run request now (Some (own_registry w2)) (Some (own_settings w2)) w2 Hw2)
      as [Er|(g2 & a2 & Hrun2 & x2 & Hx2)];
      [intros g; apply Hforeign; by right|rewrite Er in Hs2; injection Hs2 as <- _; done|].
    rewrite Hrun1 in Hs1. rewrite Hrun2 in Hs2. injection Hs1 as <- <-. injection Hs2 as <- <-.
    unfold next_id in Hx1, Hx2. rewrite Ha, He, Hx2 in Hx1. cbn. split_and!; congruence.
  - destruct (tokens_http_run headers body agents identity now max_ttl w1 Hid1)
      as [(r & Hp & Hr)|(p & request & Hp & Hmints & Hreq & Hinv1)];
    destruct (tokens_http_run headers body agents identity now max_ttl w2 Hid2)
      as [(r' & Hp' & Hr')|(p' & request' & Hp' & _ & Hreq' & Hinv2)]; try congruence.
    { rewrite Hr in E1. rewrite Hr' in E2. assert (r' = r) as -> by congruence.
      injection E1 as <- <-. by injection E2 as <- <-. }
    assert (p' = p) as -> by congruence. rewrite <- Hreq in Hreq'. subst request'. clear Hp'.
    destruct (Hinv1 _ _ E1) as (s1 & Hs1 & Hr1). destruct (Hinv2 _ _ E2) as (s2 & Hs2 & Hr2).
    destruct Hmints as (Hws & Hag & Href & _ & _ & Hboth). clear Hreq.
    assert (Hforeign : ∀ w g, w = w1 ∨ w = w2 → grants w !! mi_grant_ref request = Some g →
      ¬ in_force request g now).
    { intros w g Hor Hg (Hga & Hgw & _). destruct (Hno _ g Href); [|congruence..].
      destruct Hor as [-> | ->]; auto. }
    destruct (mint_foreign_run request now nullcontext w1 Hw1)
      as [(e & w & Er & _)|(g1 & b1 & a1 & Er1 & Hb1)];
      [intros g; apply Hforeign; by left|done|congruence|].
    destruct (mint_foreign_run request now nullcontext w2 Hw2)
      as [(e & w & Er & _)|(g2 & b2 & a2 & Er2 & Hb2)];
      [intros g; apply Hforeign; by right|done|congruence|].
    rewrite Er1 in Hs1. rewrite Er2 in Hs2. injection Hs1 as <- <-. injection Hs2 as <- <-.
    unfold next_id in Hb1, Hb2. rewrite Ha, He, Hb2 in Hb1. cbn. split_and!; congruence.
Qed.

(** C3: An enforcement point stays within its tenant.  Whatever a call to the
    delegated endpoint writes belongs to no workspace (a failed authentication) or
    to the workspace of the key it presents; and it is answered a decision only on
    a body that asserts that very workspace, about a grant of that workspace held
    by the agent the body names. *)
Theorem http_delegated_confined headers body peps now skew w resp w' :
  wf w → steady peps →
  handle_v1_delegated_enforce_http (H := v1_service int_unicode) headers body peps now skew w
    = (Ok resp, w') →
  (∃ l, log w' = log w ++ l ∧ ∀ e, e ∈ l → e_workspace_id e = "" ∨ ∃ identity,
     header_identity "x-pep-key" headers peps now w = (Ok (Some identity), w) ∧
     e_workspace_id e = pi_workspace_id identity) ∧
  (is_Some (dget "decision" (hr_body resp)) → ∃ identity agent_id grant_ref g,
     header_identity "x-pep-key" headers peps now w = (Ok (Some identity), w) ∧
     text_at body "workspace_id" (pi_workspace_id identity) ∧ text_at body "agent_id" agent_id ∧
     text_at body "grant_ref" grant_ref ∧ grants w !! grant_ref = Some g ∧
     g_workspace_id g = pi_workspace_id identity ∧ g_agent_id g = agent_id).
Proof.
  intros Hw Hk. unfold handle_v1_delegated_enforce_http.
  intros [(_ & Hr & ->)|(identity & Hid & Hrun)]%authenticated_inv; [| |done].
  { split; [|by intros []]. destruct (record_auth_failure_run "delegated" now w) as (w1 & Hr1 & Hf).
    cbn [v1s_record_auth_failure v1_service] in Hr. rewrite Hr1 in Hr. injection Hr as ->.
    destruct Hf as (_&_&_&_&_&_&_&_&l&El&_&Hl). exists l. split; [done|]. intros e He. left.
    rewrite Forall_forall in Hl. by apply Hl. }
  apply with_parsed_inv in Hrun as [[Hp ->]|(p & Hp & Hrun)].
  { split; [exists []; rewrite app_nil_r; split; [done|by intros e ?%elem_of_nil]|].
    destruct (refuses_strings _ _ _ _ Hp) as [reason ->]. by intros []. }
  unfold _parse_delegated_enforce_body in Hp.
  destruct (parsed_text _ _ _ _ "workspace_id" Hp) as (ws & Ews & Hws); [set_solver|].
  destruct (parsed_text _ _ _ _ "agent_id" Hp) as (agent & Eagent & Hagent); [set_solver|].
  destruct (parsed_text _ _ _ _ "grant_ref" Hp) as (ref & Eref & Href); [set_solver|].
  destruct (parsed_text _ _ _ _ "action" Hp) as (action & Eaction & _); [set_solver|].
  destruct (parsed_text _ _ _ _ "resource" Hp) as (resource & Eresource & _); [set_solver|].
  rewrite Ews, Eagent, Eref, Eaction, Eresource, !lift_Ok_bind in Hrun.
  apply bind_Ok_inv in Hrun as (response & w1 & Hsvc & [= <- <-]).
  cbn [v1s_delegated_enforce v1_service] in Hsvc. unfold svc_delegated_enforce in Hsvc.
  destruct (delegated_outcome int_unicode _ _ _ _ _ _ _ _ _ _ Hw Hsvc)
    as [(ws0 & Htrust & Hnone & _ & Hlog)|(ws0 & g & t & rb & Hb & _ & (_ & id & Hlog & ->))].
  - split.
    + destruct Hlog as [Hlog|(e & Hlog & _ & _ & He)].
      * exists []. rewrite Hlog, app_nil_r. split; [done|by intros e ?%elem_of_nil].
      * exists [e]. split; [done|]. intros e' ->%list_elem_of_singleton. right. exists identity.
        split; [done|]. destruct Htrust as [[= <-]| ->]; [done|].
        exfalso. apply (f_equal length) in Hlog. rewrite length_app in Hlog. cbn in Hlog. lia.
    + unfold _http_response_from_enforce. rewrite Hnone. by intros [].
  - destruct Hb as [[[= <-] Hne] Has Hg [Hgw Hga] _ _ _]. cbn in *. split.
    + eexists. split; [exact Hlog|]. intros e ->%list_elem_of_singleton. right. exists identity.
      split; [done|]. destruct (evaluate_enforce_discloses (dv_input
        (mkV1DelegatedEnforceRequest (pi_pep_id identity) ws agent ref action resource
           (dget "x-vinctor-boundary-id" (normalized headers)) (dget "x-subject-token" (normalized headers))
           (dget "x-subject-token-proof" (normalized headers))) g now (Some (own_registry w)) rb))
        as (_&_&Hwk&_). cbn in *. congruence.
    + intros _. exists identity, agent, ref, g. split_and!; try done.
      destruct Has as [-> |<-]; [|done]. by destruct Hws as (? & _ & _ & []).
Qed.
End facts.

(** ** Witnesses *)

Definition sample_service : V1Service (World InMemoryGrantRepository InMemoryAuditWriter) :=
  v1_service no_unicode_int.
#[local] Existing Instance sample_service.
Definition sample_agents {S} : Keyring S AgentIdentity :=
  mkKeyring (Some [("aak_a", mkAgentIdentity "ws" "agent"); ("aak_m", mkAgentIdentity "ws" "mallory")])
    None.
Definition sample_peps {S} : Keyring S PepIdentity :=
  mkKeyring (Some [("pep_k", mkPepIdentity "ws" "pep_1")]) None.
Definition sample_workspaces {S} : Keyring S WorkspaceIdentity :=
  mkKeyring (Some [("wsk_1", mkWorkspaceIdentity "ws"); ("wsk_2", mkWorkspaceIdentity "other")]) None.
Lemma fixed_steady {S I} (d : dict string I) : steady (mkKeyring (S := S) (Some d) None).
Proof. intros r [=]. Qed.
Definition enforce_body : json :=
  JObj [("grant_ref", JStr "grt_1"); ("action", JStr "read"); ("resource", JStr "repo/docs/a")].
Definition mint_body : json := JObj [("grant_ref", JStr "grt_1"); ("audience", JStr "pep_1")].
Definition delegated_body : json :=
  JObj [("workspace_id", JStr "ws"); ("agent_id", JStr "agent"); ("grant_ref", JStr "grt_1");
        ("action", JStr "read"); ("resource", JStr "repo/docs/a")].

Lemma v1_unauthenticated_witness :
  ∃ w', failure_recorded 2 own_world w' ∧
    handle_v1_enforce_http [("X-Agent-Key", "aak_unknown")] enforce_body sample_agents 5 own_world
    = (Ok (_error 401 "authentication_required" "valid X-Agent-Key header is required"), w').
Proof.
  exact (proj1 (proj1 (v1_unauthenticated no_unicode_int [("X-Agent-Key", "aak_unknown")] enforce_body
    sample_agents sample_peps 5 30 3600 own_world) eq_refl)).
Defined.
Definition http_enforce (key : string) (w : World InMemoryGrantRepository InMemoryAuditWriter) :=
  handle_v1_enforce_http [("X-AGENT-KEY", key)] enforce_body sample_agents 5 w.
Lemma http_permit_sound_witness :
  ∃ identity grant_ref g, header_identity "x-agent-key" [("X-AGENT-KEY", "aak_a")] sample_agents 5 own_world
      = (Ok (Some identity), own_world) ∧ text_at enforce_body "grant_ref" grant_ref ∧
    grants own_world !! grant_ref = Some g ∧ g_agent_id g = ai_agent_id identity ∧
    dget "decision" (hr_body (result_or (mkV1HttpResponse 0 []) (http_enforce "aak_a" own_world).1)) =
      Some (JStr "permit").
Proof.
  set (run := http_enforce "aak_a" own_world).
  assert (Hrun : run = (Ok (mkV1HttpResponse 200 [("decision", JStr "permit"); ("audit_event_id", JStr "evt_n0")]),
    run.2)) by (by vm_compute).
  destruct (http_permit_sound no_unicode_int _ _ _ _ _ _ _ (own_world_wf []) (fixed_steady _) Hrun eq_refl)
    as (identity & ref & action & resource & g & event & Hid & Href & _ & _ & Hg & _ & Hag & _).
  exists identity, ref, g. split_and!; [exact Hid|exact Href|exact Hg|exact Hag|by vm_compute].
Defined.
Definition http_mint (w : World InMemoryGrantRepository InMemoryAuditWriter) :=
  handle_v1_tokens_http [("x-agent-key", "aak_a")] mint_body sample_agents 5 3600 w.
Lemma http_mint_bounded_witness :
  ∃ resp t, http_mint own_world = (Ok resp, (http_mint own_world).2) ∧ hr_status_code resp = 201 ∧
    st_expires_at t ≤ 5 + seconds 3600 ∧ st_audience t = "pep_1" ∧
    dget "token_id" (hr_body resp) = Some (JStr (st_token_id t)).
Proof.
  set (run := http_mint own_world).
  assert (Hr : match run.1 with Ok r => hr_status_code r = 201 | Raise _ => False end) by (by vm_compute).
  destruct run as [[resp|e] w'] eqn:Hrun; [|exfalso; exact Hr]. cbn in Hr.
  destruct (http_mint_bounded no_unicode_int _ _ _ _ _ _ _ _ (own_world_wf []) (fixed_steady _) Hrun Hr)
    as (identity & ref & aud & g & raw & t & _ & _ & (m & Hm & Haud & _) & _ & _ & _ & _ & (_ & _ & _ & Hau & _)
        & Hexp & _ & _ & Hid & _).
  exists resp, t. split_and!; [done|exact Hr|exact Hexp| |exact Hid].
  injection Hm as <-. vm_compute in Haud. congruence.
Defined.
Lemma http_no_grant_oracle_witness :
  w_audit (http_enforce "aak_m" (sample_world [] [])).2 = w_audit (http_enforce "aak_m" own_world).2.
Proof.
  set (r := mkV1HttpResponse 403 [("error", JStr "forbidden"); ("reason", JStr _GRANT_FORBIDDEN_MESSAGE)]).
  assert (E1 : http_enforce "aak_m" (sample_world [] []) =
    (Ok r, (http_enforce "aak_m" (sample_world [] [])).2)) by (by vm_compute).
  assert (E2 : http_enforce "aak_m" own_world = (Ok r, (http_enforce "aak_m" own_world).2)) by (by vm_compute).
  refine (proj1 (proj2 (http_no_grant_oracle no_unicode_int [("X-AGENT-KEY", "aak_m")] enforce_body
    sample_agents (mkAgentIdentity "ws" "mallory") 5 3600 (sample_world [] []) own_world _ r _ r _
    empty_world_wf (own_world_wf []) (fixed_steady _) eq_refl eq_refl eq_refl eq_refl _ (or_introl eq_refl)
    E1 E2 _ _))); [|discriminate|discriminate].
  intros ref g (m & Hm & Href & _) [Hg|Hg]; [by vm_compute in Hg|]. right.
  injection Hm as <-. vm_compute in Href. injection Href as <-. vm_compute in Hg. injection Hg as <-.
  by vm_compute.
Defined.
Lemma http_delegated_confined_witness :
  ∃ identity agent_id, pi_workspace_id identity = "ws" ∧
    text_at delegated_body "workspace_id" (pi_workspace_id identity) ∧
    text_at delegated_body "agent_id" agent_id.
Proof.
  set (run := handle_v1_delegated_enforce_http [("x-pep-key", "pep_k")] delegated_body sample_peps 5 30 own_world).
  assert (Hr : match run.1 with Ok r => is_Some (dget "decision" (hr_body r)) | Raise _ => False end)
    by (vm_compute; by eexists).
  destruct run as [[resp|e] w'] eqn:Hrun; [|exfalso; exact Hr].
  destruct (proj2 (http_delegated_confined no_unicode_int _ _ _ _ _ _ _ _ (own_world_wf []) (fixed_steady _)
    Hrun) Hr) as (identity & agent & ref & g & Hid & Hws & Hag & _).
  exists identity, agent. split; [|by split]. by injection Hid as <-.
Defined.
