(* ===== verification/BoundaryHttp.v ===== *)
(** * The boundary endpoints ([src/vinctor_service/boundary_http.py])

    Administration of a workspace's boundaries by the holder of its key.  The
    routing of every administrative handler has the same shape: authenticate,
    match the path, check the method, call the service within the workspace of
    the key. *)
From S2P Require Import Prelude PyStr PyDict PyTime Scope Models Registry World Json Http.

Class BoundaryAdminService (S : Type) := {
  bas_register_boundary : BoundaryRegistrationInput → Z → option string → M S Boundary;
  bas_list_boundaries : string → M S (list Boundary);
  bas_get_boundary : string → string → M S (option Boundary);
  bas_disable_boundary : string → string → Z → option string → M S (option Boundary);
  bas_enable_boundary : string → string → Z → option string → M S (option Boundary)
}.

Record ParsedBoundaryCreateBody := mkParsedBoundaryCreateBody {
  pb_name : string;
  pb_runtime : string;
  pb_boundary_type : string;
  pb_mode : string
}.
Definition parse_v1_boundary_create_body (body : json) : parsed ParsedBoundaryCreateBody :=
  p ← _parse_string_body body ["name"; "runtime"; "boundary_type"; "mode"] [];
  let field k := default "" (dget k p) in
  if negb (field "mode" == "fail_closed") then refuse "boundary mode must be fail_closed"
  else inr (mkParsedBoundaryCreateBody (field "name") (field "runtime") (field "boundary_type")
              "fail_closed").

Definition _boundary_body (boundary : Boundary) : dict string json :=
  [("boundary_id", JStr (b_boundary_id boundary)); ("name", JStr (b_name boundary));
   ("runtime", JStr (b_runtime boundary)); ("boundary_type", JStr (b_boundary_type boundary));
   ("mode", JStr (b_mode boundary)); ("status", JStr (b_status boundary))].

Definition workspace_required : V1HttpResponse :=
  _error 401 "authentication_required" "valid X-Workspace-Key header is required".
Definition route_not_found : V1HttpResponse := _error 404 "not_found" "route not found".
Definition method_not_allowed (reason : string) : V1HttpResponse :=
  _error 405 "method_not_allowed" reason.
(** [f"workspace:{identity.workspace_id}"] *)
Definition principal_of (identity : WorkspaceIdentity) : string :=
  "workspace:" ^+ wi_workspace_id identity.

Section handlers.
Context {S : Type}.

Definition _workspace_identity (headers : dict string string) (keys : Keyring S WorkspaceIdentity)
    (now : Z) : M S (option WorkspaceIdentity) := header_identity "x-workspace-key" headers keys now.
Definition for_workspace (headers : dict string string) (keys : Keyring S WorkspaceIdentity) (now : Z)
    (k : WorkspaceIdentity → M S V1HttpResponse) : M S V1HttpResponse :=
  identity ← _workspace_identity headers keys now;
  match identity with
  | None => mret workspace_required
  | Some identity => k identity
  end.
(** [try: m; except ValueError as error: return _error(400, ..., str(error))] *)
Definition value_error_as_400 (m : M S V1HttpResponse) : M S V1HttpResponse :=
  try_except m (λ e, match e with
                     | ValueError msg => mret (_error 400 "invalid_request" msg)
                     | e => raise e
                     end).
Definition respond_or_404 {A} (code reason : string) (body : A → dict string json) (found : option A) :
    V1HttpResponse :=
  match found with
  | None => _error 404 code reason
  | Some x => mkV1HttpResponse 200 (body x)
  end.

Context `{BoundaryAdminService S}.
Definition create_v1_boundary_response (parsed : ParsedBoundaryCreateBody)
    (identity : WorkspaceIdentity) (now : Z) : M S V1HttpResponse :=
  value_error_as_400 (
    boundary ← bas_register_boundary
      {| br_workspace_id := wi_workspace_id identity; br_name := pb_name parsed;
         br_runtime := pb_runtime parsed; br_boundary_type := pb_boundary_type parsed;
         br_mode := pb_mode parsed; br_status := "active" |} now (Some (principal_of identity));
    mret (mkV1HttpResponse 201 (_boundary_body boundary))).
Definition _create_boundary (body : json) (identity : WorkspaceIdentity) (now : Z) :
    M S V1HttpResponse :=
  match parse_v1_boundary_create_body body with
  | inl response => mret response
  | inr parsed => create_v1_boundary_response parsed identity now
  end.
Definition _set_boundary_status (boundary_id action : string) (identity : WorkspaceIdentity) (now : Z) :
    M S V1HttpResponse :=
  boundary ← (if action == "disable" then bas_disable_boundary else bas_enable_boundary)
    boundary_id (wi_workspace_id identity) now (Some (principal_of identity));
  mret (respond_or_404 "boundary_not_found" "boundary was not found" _boundary_body boundary).

Definition handle_v1_boundaries_http (method path : string) (headers : dict string string) (body : json)
    (keys : Keyring S WorkspaceIdentity) (now : Z) : M S V1HttpResponse :=
  for_workspace headers keys now (λ identity,
  if path == "/v1/boundaries" then
    if method == "POST" then _create_boundary body identity now
    else if method == "GET" then
      boundaries ← bas_list_boundaries (wi_workspace_id identity);
      mret (mkV1HttpResponse 200
        [("boundaries", JList (map (λ b, JObj (_boundary_body b)) boundaries))])
    else mret (method_not_allowed "GET or POST is required for /v1/boundaries")
  else if startswith path "/v1/boundaries/" then
    match split "/" (removeprefix path "/v1/boundaries/") with
    | [boundary_id] =>
        if boundary_id == "" then mret route_not_found
        else if negb (method == "GET")
        then mret (method_not_allowed "GET is required for /v1/boundaries/{id}")
        else
          boundary ← bas_get_boundary boundary_id (wi_workspace_id identity);
          mret (respond_or_404 "boundary_not_found" "boundary was not found" _boundary_body boundary)
    | [boundary_id; action] =>
        if negb (boundary_id == "") && ((action == "disable") || (action == "enable")) then
          if negb (method == "POST")
          then mret (method_not_allowed ("POST is required for /v1/boundaries/{id}/" ^+ action))
          else _set_boundary_status boundary_id action identity now
        else mret route_not_found
    | _ => mret route_not_found
    end
  else mret route_not_found).
End handlers.

(** The registry of the service in memory. *)
Section service.
Context {G A : Type}.
(** The id is drawn once the registration is accepted. *)
Definition svc_register_boundary (registration : BoundaryRegistrationInput) (now : Z)
    (principal : option string) : M (World G A) Boundary := λ w,
  match on_registry (register_boundary registration (Some now) None principal now
                       ("bnd_" ^+ next_id w 12)) w with
  | (Ok boundary, w') => (Ok boundary, drew w')
  | (Raise e, w') => (Raise e, w')
  end.
#[global] Instance boundary_service : BoundaryAdminService (World G A) := {|
  bas_register_boundary := svc_register_boundary;
  bas_list_boundaries := λ workspace_id,
    gets (λ w, registry_list_for_workspace workspace_id (w_registry w));
  bas_get_boundary := λ boundary_id workspace_id,
    on_registry (get_boundary_for_workspace boundary_id workspace_id);
  bas_disable_boundary := λ boundary_id workspace_id now principal,
    on_registry (disable_boundary boundary_id workspace_id (Some now) principal now);
  bas_enable_boundary := λ boundary_id workspace_id now principal,
    on_registry (enable_boundary boundary_id workspace_id (Some now) principal now)
|}.
End service.
