(* ===== verification/GrantHttp.v ===== *)
(** * The grant endpoints ([src/vinctor_service/grant_http.py],
      [grant_issue_http.py], [grant_http_responses.py])

    Issuance, listing, lookup and revocation of grants with a workspace key.
    [set_order] is the order in which a set of strings iterates. *)
From S2P Require Import Prelude PyStr PyDict PyTime Scope Models ServiceModels World Repositories.
From S2P Require Import AuditWriter Grants Json Http BoundaryHttp.

Class GrantLifecycleService (S : Type) := {
  gls_issue_grant : GrantIssueRequest → Z → M S GrantIssueResult;
  gls_lookup_grant : string → string → M S (option Grant);
  gls_list_grants : string → option string → option string → M S (list Grant);
  gls_revoke_grant : string → string → Z → M S (option (Grant * string))
}.

(** ** Responses *)

Definition grant_body (grant : Grant) : dict string json :=
  [("grant_id", JStr (g_grant_id grant)); ("grant_ref", JStr (g_grant_ref grant));
   ("workspace_id", JStr (g_workspace_id grant)); ("agent_id", JStr (g_agent_id grant));
   ("scopes", jstrs (g_scopes grant)); ("status", JStr (g_status grant));
   ("expires_at", jtime (g_expires_at grant))].
Definition error_response (status_code : Z) (error reason : string) (detail : option string) :
    V1HttpResponse :=
  mkV1HttpResponse status_code
    ([("error", JStr error); ("reason", JStr reason)]
     ++ match detail with Some d => [("detail", JStr d)] | None => [] end).
Definition BAD_GRANT_REQUEST_REASONS : list string :=
  ["invalid_workspace_id"; "invalid_agent_id"; "invalid_ttl"; "ttl_exceeds_max";
   "missing_requested_scopes"; "invalid_requested_scope"; "invalid_issuable_scope_bound";
   "duplicate_grant_ref"].

(** ** Issuance *)

Record ParsedGrantIssueBody := mkParsedGrantIssueBody {
  pg_agent_id : string;
  pg_scopes : list string;
  pg_ttl_seconds : Z
}.
Definition parse_v1_grant_issue_body (body : json) : parsed ParsedGrantIssueBody :=
  m ← body_object body;
  _ ← refuse_missing m ["agent_id"; "scopes"; "ttl_seconds"];
  _ ← refuse_extra m ["agent_id"; "scopes"; "ttl_seconds"];
  agent_id ← text_field "agent_id" (jget "agent_id" m);
  scopes ← texts_field "scopes" (jget "scopes" m);
  ttl_seconds ← positive_field "ttl_seconds" (jget "ttl_seconds" m);
  inr (mkParsedGrantIssueBody agent_id scopes ttl_seconds).

Record ParsedGrantListFilters := mkParsedGrantListFilters {
  pl_agent_id : option string;
  pl_status : option string
}.
Section filters.
Context (set_order : list string → list string).
Definition _parse_list_filters (query_string : string) : parsed ParsedGrantListFilters :=
  values ← query_params set_order query_string ["agent_id"; "status"];
  inr (mkParsedGrantListFilters (default None (dget "agent_id" values))
         (default None (dget "status" values))).

Section handlers.
Context {S : Type} `{GrantLifecycleService S}.
Definition issue_v1_grant_response (parsed : ParsedGrantIssueBody) (identity : WorkspaceIdentity)
    (now : Z) : M S V1HttpResponse :=
  issued ← gls_issue_grant
    (mkGrantIssueRequest (wi_workspace_id identity) (pg_agent_id parsed) (pg_scopes parsed)
       (pg_ttl_seconds parsed) None None) now;
  if gir_status issued == "rejected" then
    mret (error_response
      (if existsb (String.eqb (gir_reason issued)) BAD_GRANT_REQUEST_REASONS then 400 else 403)
      (gir_reason issued) (gir_reason issued) (gir_detail issued))
  else
    match gir_grant issued with
    | None => mret (error_response 503 "service_unavailable" "grant issuance failed" None)
    | Some grant =>
        mret (mkV1HttpResponse 201
          (dmerge (grant_body grant) [("audit_event_id", jopt (gir_audit_event_id issued))]))
    end.
Definition _issue_grant (body : json) (identity : WorkspaceIdentity) (now : Z) : M S V1HttpResponse :=
  match parse_v1_grant_issue_body body with
  | inl response => mret response
  | inr parsed => issue_v1_grant_response parsed identity now
  end.

Definition handle_v1_grants_http (method path : string) (headers : dict string string) (body : json)
    (query_string : string) (keys : Keyring S WorkspaceIdentity) (now : Z) : M S V1HttpResponse :=
  for_workspace headers keys now (λ identity,
  if path == "/v1/grants" then
    if method == "GET" then
      match _parse_list_filters query_string with
      | inl response => mret response
      | inr filters =>
          grants ← gls_list_grants (wi_workspace_id identity) (pl_agent_id filters) (pl_status filters);
          mret (mkV1HttpResponse 200 [("grants", JList (map (λ g, JObj (grant_body g)) grants))])
      end
    else if negb (method == "POST")
    then mret (method_not_allowed "GET or POST is required for /v1/grants")
    else _issue_grant body identity now
  else if startswith path "/v1/grants/" then
    match split "/" (removeprefix path "/v1/grants/") with
    | [grant_ref] =>
        if grant_ref == "" then mret route_not_found
        else if negb (method == "GET")
        then mret (method_not_allowed "GET is required for /v1/grants/{grant_ref}")
        else
          grant ← gls_lookup_grant grant_ref (wi_workspace_id identity);
          mret (respond_or_404 "grant_not_found" "grant was not found" grant_body grant)
    | [grant_ref; action] =>
        if negb (grant_ref == "") && (action == "revoke") then
          if negb (method == "POST")
          then mret (method_not_allowed "POST is required for /v1/grants/{grant_ref}/revoke")
          else
            revoked ← gls_revoke_grant grant_ref (wi_workspace_id identity) now;
            mret (respond_or_404 "grant_not_found" "grant was not found"
              (λ '(grant, audit_event_id),
                 dmerge (grant_body grant) [("audit_event_id", JStr audit_event_id)]) revoked)
        else mret route_not_found
    | _ => mret route_not_found
    end
  else mret route_not_found).
End handlers.
End filters.

Section service.
Context {G A : Type} `{GrantLifecycle G} `{AuditWriter A}.
#[global] Instance grant_service : GrantLifecycleService (World G A) := {|
  gls_issue_grant := issue_grant;
  gls_lookup_grant := lookup_grant;
  gls_list_grants := list_grants;
  gls_revoke_grant := revoke_grant
|}.
End service.
