(* ===== verification/RequestHttp.v ===== *)
(** * The grant-request endpoints ([src/vinctor_service/grant_request_http.py])

    Agents ask for grants; the holder of the workspace key reads the queue and
    decides.  An agent sees the requests that concern it, without who decided.
    [set_order] is the order in which a set of strings iterates. *)
From S2P Require Import Prelude PyStr PyDict PyTime Scope Models ServiceModels Repositories.
From S2P Require Import AuditWriter World Grants GrantRequests AutoApproval Service Json Http.
From S2P Require Import BoundaryHttp GrantHttp.

Class GrantRequestService (S : Type) := {
  grs_create_grant_request : GrantRequestCreateRequest → Z → M S GrantRequestCreateResult;
  grs_lookup_grant_request : string → string → M S (option GrantRequest);
  grs_list_grant_requests : string → M S (list GrantRequest);
  grs_approve_grant_request : string → string → string → option string → Z →
    M S GrantRequestDecisionResult;
  grs_reject_grant_request : string → string → string → option string → Z →
    M S GrantRequestDecisionResult;
  grs_auto_approve_grant_request : string → string → string → Z → M S GrantRequestDecisionResult;
  grs_evaluate_auto_approval : GrantRequest → M S AutoApprovalEvaluationResult
}.

(** ** Bodies *)

Record ParsedCreateRequestBody := mkParsedCreateRequestBody {
  pc_scopes : list string;
  pc_ttl_seconds : Z;
  pc_reason : string;
  pc_metadata : dict string (option string)
}.
Definition pc_field (p : ParsedCreateRequestBody) (field : string) : option string :=
  default None (dget field (pc_metadata p)).
Definition CREATE_OPTIONAL_FIELDS : list string :=
  ["task_id"; "session_id"; "boundary_id"; "requester_runtime"; "repo"; "worktree"].
Definition _optional_body_string (m : mapping) (field_name : string) : parsed (option string) :=
  optional_text field_name " when provided" (jget field_name m).
Definition _parse_create_body (set_order : list string → list string) (body : json) :
    parsed ParsedCreateRequestBody :=
  m ← body_object body;
  _ ← refuse_missing m ["scopes"; "ttl_seconds"; "reason"];
  _ ← refuse_extra m (["scopes"; "ttl_seconds"; "reason"] ++ CREATE_OPTIONAL_FIELDS);
  scopes ← texts_field "scopes" (jget "scopes" m);
  ttl_seconds ← positive_field "ttl_seconds" (jget "ttl_seconds" m);
  reason ← text_field "reason" (jget "reason" m);
  metadata ← mapM (λ field, v ← _optional_body_string m field; inr (field, v))
               (set_order CREATE_OPTIONAL_FIELDS);
  inr (mkParsedCreateRequestBody scopes ttl_seconds reason metadata).
(** An absent body is an absent reason. *)
Definition parse_v1_grant_request_decision_body (body : json) : parsed (option string) :=
  match body with
  | JNull => inr None
  | _ =>
      m ← body_object body;
      _ ← refuse_extra m ["decision_reason"];
      optional_text "decision_reason" " when provided" (jget "decision_reason" m)
  end.
Definition parse_v1_grant_request_auto_approve_body (body : json) : parsed unit :=
  match body with JNull => inr tt | _ => refuse "auto-approve request body must be empty" end.

(** ** Responses *)

(** The body the agents see, and the one the workspace sees: it adds who decided. *)
Definition _agent_grant_request_body (request : GrantRequest) : dict string json :=
  [("request_id", JStr (gq_request_id request)); ("workspace_id", JStr (gq_workspace_id request));
   ("requester_agent_id", JStr (gq_requester_agent_id request));
   ("target_agent_id", JStr (gq_target_agent_id request));
   ("requested_scopes", jstrs (gq_requested_scopes request));
   ("requested_ttl_seconds", JInt (gq_requested_ttl_seconds request));
   ("reason", JStr (gq_reason request)); ("status", JStr (gq_status request));
   ("created_at", JStr (isoformat (gq_created_at request)));
   ("decided_at", jtime (gq_decided_at request));
   ("decision_reason", jopt (gq_decision_reason request));
   ("issued_grant_ref", jopt (gq_issued_grant_ref request));
   ("task_id", jopt (gq_task_id request)); ("session_id", jopt (gq_session_id request));
   ("boundary_id", jopt (gq_boundary_id request));
   ("requester_runtime", jopt (gq_requester_runtime request));
   ("repo", jopt (gq_repo request)); ("worktree", jopt (gq_worktree request))].
Definition _grant_request_body (request : GrantRequest) : dict string json :=
  [("request_id", JStr (gq_request_id request)); ("workspace_id", JStr (gq_workspace_id request));
   ("requester_agent_id", JStr (gq_requester_agent_id request));
   ("target_agent_id", JStr (gq_target_agent_id request));
   ("requested_scopes", jstrs (gq_requested_scopes request));
   ("requested_ttl_seconds", JInt (gq_requested_ttl_seconds request));
   ("reason", JStr (gq_reason request)); ("status", JStr (gq_status request));
   ("created_at", JStr (isoformat (gq_created_at request)));
   ("decided_at", jtime (gq_decided_at request)); ("decided_by", jopt (gq_decided_by request));
   ("decision_reason", jopt (gq_decision_reason request));
   ("issued_grant_ref", jopt (gq_issued_grant_ref request));
   ("task_id", jopt (gq_task_id request)); ("session_id", jopt (gq_session_id request));
   ("boundary_id", jopt (gq_boundary_id request));
   ("requester_runtime", jopt (gq_requester_runtime request));
   ("repo", jopt (gq_repo request)); ("worktree", jopt (gq_worktree request))].
Definition _agent_can_view_request (identity : AgentIdentity) (request : GrantRequest) : bool :=
  (gq_workspace_id request == ai_workspace_id identity)
  && ((ai_agent_id identity == gq_requester_agent_id request)
      || (ai_agent_id identity == gq_target_agent_id request)).

Definition _ISSUABLE_BOUNDS_REASONS : list string :=
  ["scope_outside_issuable_bounds"; "ttl_exceeds_issuable_max"; "issuable_bounds_not_found"].
Definition _decision_failure_status (reason : string) : Z :=
  if reason == "grant_request_not_found" then 404
  else if reason == "grant_request_not_pending" then 409
  else if existsb (String.eqb reason) _ISSUABLE_BOUNDS_REASONS then 403
  else if existsb (String.eqb reason) BAD_GRANT_REQUEST_REASONS then 400
  else 403.
Definition request_not_found : V1HttpResponse :=
  _error 404 "grant_request_not_found" "grant request was not found".

(** ** Handlers *)
Section handlers.
Context (set_order : list string → list string).
Context {S : Type} `{GrantRequestService S}.

Definition _routing_hint (request : GrantRequest) : M S (string * string) :=
  if negb (gq_status request == "pending") then mret ("pending_review", "grant_request_not_pending")
  else
    evaluation ← grs_evaluate_auto_approval request;
    if aer_decision evaluation == "would_approve"
    then mret ("auto_approval_available", aer_reason evaluation)
    else mret ("manual_review_required", aer_reason evaluation).
Definition _routing_hint_body (request : GrantRequest) : M S (dict string json) :=
  '(hint, reason) ← _routing_hint request;
  mret [("routing_hint", JStr hint); ("routing_reason", JStr reason)].
Definition _queue_reason (request : GrantRequest) : M S (option string) :=
  if gq_status request == "pending"
  then '(_, reason) ← _routing_hint request; mret (Some reason)
  else mret (gq_decision_reason request).
Definition _workspace_grant_request_body (request : GrantRequest) : M S (dict string json) :=
  hint ← _routing_hint_body request;
  queue_reason ← _queue_reason request;
  mret (dmerge (dmerge (_grant_request_body request) hint) [("queue_reason", jopt queue_reason)]).

Definition _create_grant_request (body : json) (identity : AgentIdentity) (now : Z) :
    M S V1HttpResponse :=
  match _parse_create_body set_order body with
  | inl response => mret response
  | inr parsed =>
      created ← grs_create_grant_request
        {| gc_workspace_id := ai_workspace_id identity;
           gc_requester_agent_id := ai_agent_id identity;
           gc_requested_scopes := pc_scopes parsed;
           gc_requested_ttl_seconds := pc_ttl_seconds parsed; gc_reason := pc_reason parsed;
           gc_target_agent_id := None; gc_request_id := None;
           gc_task_id := pc_field parsed "task_id"; gc_session_id := pc_field parsed "session_id";
           gc_boundary_id := pc_field parsed "boundary_id";
           gc_requester_runtime := pc_field parsed "requester_runtime";
           gc_repo := pc_field parsed "repo"; gc_worktree := pc_field parsed "worktree" |} now;
      if gcr_status created == "rejected"
      then mret (_error 400 (gcr_reason created) (gcr_reason created))
      else
        match gcr_request created with
        | None => mret (_error 503 "service_unavailable" "grant request creation failed")
        | Some request =>
            hint ← _routing_hint_body request;
            mret (mkV1HttpResponse 201
              (dmerge (dmerge (_grant_request_body request) hint)
                 [("audit_event_id", jopt (gcr_audit_event_id created))]))
        end
  end.

(** The body of a decision, with the grant it issued. *)
Definition decision_body (request : GrantRequest) (decision : GrantRequestDecisionResult)
    (more : dict string json) : dict string json :=
  let body := dmerge (_grant_request_body request)
    (("audit_event_id", jopt (gdr_audit_event_id decision)) :: more) in
  match gdr_grant decision with
  | Some grant => dset "grant" (JObj (grant_body grant)) body
  | None => body
  end.
Definition auto_approve_v1_grant_request_response (request_id : string) (identity : WorkspaceIdentity)
    (now : Z) : M S V1HttpResponse :=
  decision ← grs_auto_approve_grant_request request_id (wi_workspace_id identity)
    (principal_of identity) now;
  if gdr_status decision == "failed" then
    if existsb (String.eqb (gdr_reason decision))
         ["no_matching_rule"; "scope_outside_rule"; "ttl_exceeds_rule"]
    then
      match gdr_request decision with
      | None => mret (_error 503 "service_unavailable" "auto-approval failed")
      | Some request =>
          hint ← _routing_hint_body request;
          mret (mkV1HttpResponse 200
            (dmerge (dmerge (_grant_request_body request) hint)
               [("auto_approval", JObj [("decision", JStr "would_not_approve");
                                        ("reason", JStr (gdr_reason decision))])]))
      end
    else mret (_error (_decision_failure_status (gdr_reason decision)) (gdr_reason decision)
                 (gdr_reason decision))
  else
    match gdr_request decision with
    | None => mret (_error 503 "service_unavailable" "auto-approval failed")
    | Some request =>
        mret (mkV1HttpResponse 200 (decision_body request decision
          [("auto_approval", JObj [("decision", JStr "approved"); ("reason", JStr (gdr_reason decision));
                                   ("rule_id", jopt (gdr_auto_approval_rule_id decision))])]))
    end.
Definition decide_v1_grant_request_response (request_id action : string) (identity : WorkspaceIdentity)
    (decision_reason : option string) (now : Z) : M S V1HttpResponse :=
  decision ← (if action == "approve" then grs_approve_grant_request else grs_reject_grant_request)
    request_id (wi_workspace_id identity) (principal_of identity) decision_reason now;
  if gdr_status decision == "failed"
  then mret (_error (_decision_failure_status (gdr_reason decision)) (gdr_reason decision)
               (gdr_reason decision))
  else
    match gdr_request decision with
    | None => mret (_error 503 "service_unavailable" "grant request decision failed")
    | Some request => mret (mkV1HttpResponse 200 (decision_body request decision []))
    end.

Definition get_grant_request (request_id : string) (viewer : WorkspaceIdentity + AgentIdentity) :
    M S V1HttpResponse :=
  request ← grs_lookup_grant_request request_id
    match viewer with inl w => wi_workspace_id w | inr a => ai_workspace_id a end;
  match request with
  | None => mret request_not_found
  | Some request =>
      match viewer with
      | inl _ => body ← _workspace_grant_request_body request; mret (mkV1HttpResponse 200 body)
      | inr agent =>
          if negb (_agent_can_view_request agent request) then mret request_not_found
          else mret (mkV1HttpResponse 200 (_agent_grant_request_body request))
      end
  end.
Definition decide_route (request_id action method : string) (body : json)
    (viewer : WorkspaceIdentity + AgentIdentity) (now : Z) : M S V1HttpResponse :=
  match viewer with
  | inr _ => mret workspace_required
  | inl identity =>
      if negb (method == "POST")
      then mret (method_not_allowed ("POST is required for /v1/grant-requests/{request_id}/" ^+ action))
      else if action == "auto-approve" then
        match parse_v1_grant_request_auto_approve_body body with
        | inl response => mret response
        | inr _ => auto_approve_v1_grant_request_response request_id identity now
        end
      else
        match parse_v1_grant_request_decision_body body with
        | inl response => mret response
        | inr reason => decide_v1_grant_request_response request_id action identity reason now
        end
  end.

(** Who asks: the holder of the workspace key or else an agent. *)
Definition viewer_of (headers : dict string string) (workspaces : Keyring S WorkspaceIdentity)
    (agents : Keyring S AgentIdentity) (now : Z) : M S (option (WorkspaceIdentity + AgentIdentity)) :=
  workspace_identity ← _workspace_identity headers workspaces now;
  match workspace_identity with
  | Some identity => mret (Some (inl identity))
  | None =>
      agent_identity ← header_identity "x-agent-key" headers agents now;
      mret (inr <$> agent_identity)
  end.

Definition handle_v1_grant_requests_http (method path : string) (headers : dict string string)
    (body : json) (workspaces : Keyring S WorkspaceIdentity) (agents : Keyring S AgentIdentity)
    (now : Z) : M S V1HttpResponse :=
  if path == "/v1/grant-requests" then
    if method == "POST" then
      agent_identity ← header_identity "x-agent-key" headers agents now;
      match agent_identity with
      | None => mret (_error 401 "authentication_required" "valid X-Agent-Key header is required")
      | Some identity => _create_grant_request body identity now
      end
    else
      for_workspace headers workspaces now (λ identity,
      if method == "GET" then
        requests ← grs_list_grant_requests (wi_workspace_id identity);
        bodies ← mapM _workspace_grant_request_body requests;
        mret (mkV1HttpResponse 200 [("grant_requests", JList (map JObj bodies))])
      else mret (method_not_allowed "GET or POST is required for /v1/grant-requests"))
  else if startswith path "/v1/grant-requests/" then
    viewer ← viewer_of headers workspaces agents now;
    match viewer with
    | None => mret (_error 401 "authentication_required"
                      "valid X-Workspace-Key or X-Agent-Key header is required")
    | Some viewer =>
        match split "/" (removeprefix path "/v1/grant-requests/") with
        | [request_id] =>
            if request_id == "" then mret route_not_found
            else if negb (method == "GET")
            then mret (method_not_allowed "GET is required for /v1/grant-requests/{request_id}")
            else get_grant_request request_id viewer
        | [request_id; action] =>
            if negb (request_id == "")
               && ((action == "approve") || (action == "reject") || (action == "auto-approve"))
            then decide_route request_id action method body viewer now
            else mret route_not_found
        | _ => mret route_not_found
        end
    end
  else mret route_not_found.
End handlers.

Section service.
Context {G A : Type} `{GrantLifecycle G} `{AuditWriter A}.
#[global] Instance request_service : GrantRequestService (World G A) := {|
  grs_create_grant_request := create_grant_request;
  grs_lookup_grant_request := λ id ws, gets (lookup_grant_request id ws);
  grs_list_grant_requests := λ ws, gets (list_grant_requests ws);
  grs_approve_grant_request := svc_approve_grant_request;
  grs_reject_grant_request := reject_grant_request;
  grs_auto_approve_grant_request := auto_approve_grant_request;
  grs_evaluate_auto_approval := λ request, gets (λ w, evaluate_auto_approval request (w_rules w))
|}.
End service.

(** * The auto-approval endpoints ([src/vinctor_service/auto_approval_http.py])

    Creation, listing and disabling of a workspace's auto-approval rules with its
    key.  [new_rule_id] draws [_new_id("apr")]. *)

Class AutoApprovalAdminService (S : Type) := {
  aas_create_auto_approval_rule : AutoApprovalRule → M S AutoApprovalRule;
  aas_list_auto_approval_rules : string → M S (list AutoApprovalRule);
  aas_disable_auto_approval_rule : string → string → string → Z → M S (option AutoApprovalRule)
}.

Record ParsedCreateRuleBody := mkParsedCreateRuleBody {
  pu_name : string;
  pu_target_agent_id : string;
  pu_allowed_scopes : list string;
  pu_max_ttl_seconds : Z
}.
Definition RULE_BODY_FIELDS : list string :=
  ["name"; "target_agent_id"; "allowed_scopes"; "max_ttl_seconds"].
Definition parse_v1_auto_approval_rule_create_body (body : json) : parsed ParsedCreateRuleBody :=
  m ← body_object body;
  _ ← refuse_missing m RULE_BODY_FIELDS;
  _ ← refuse_extra m RULE_BODY_FIELDS;
  name ← text_field "name" (jget "name" m);
  target_agent_id ← text_field "target_agent_id" (jget "target_agent_id" m);
  allowed_scopes ← texts_field "allowed_scopes" (jget "allowed_scopes" m);
  max_ttl_seconds ← positive_field "max_ttl_seconds" (jget "max_ttl_seconds" m);
  inr (mkParsedCreateRuleBody name target_agent_id allowed_scopes max_ttl_seconds).

Definition _rule_body (rule : AutoApprovalRule) : dict string json :=
  [("rule_id", JStr (aar_rule_id rule)); ("workspace_id", JStr (aar_workspace_id rule));
   ("name", JStr (aar_name rule)); ("target_agent_id", JStr (aar_target_agent_id rule));
   ("allowed_scopes", jstrs (aar_allowed_scopes rule));
   ("max_ttl_seconds", JInt (aar_max_ttl_seconds rule)); ("status", JStr (aar_status rule));
   ("created_by", JStr (aar_created_by rule));
   ("created_at", JStr (isoformat (aar_created_at rule)));
   ("updated_by", jopt (aar_updated_by rule)); ("updated_at", jtime (aar_updated_at rule))].

Section handlers.
Context {S : Type} `{AutoApprovalAdminService S} (new_rule_id : M S string).

Definition create_v1_auto_approval_rule_response (parsed : ParsedCreateRuleBody)
    (identity : WorkspaceIdentity) (now : Z) : M S V1HttpResponse :=
  value_error_as_400 (
    rule_id ← new_rule_id;
    rule ← aas_create_auto_approval_rule
      (mkAutoApprovalRule rule_id (wi_workspace_id identity) (pu_name parsed)
         (pu_target_agent_id parsed) (pu_allowed_scopes parsed) (pu_max_ttl_seconds parsed) "active"
         (principal_of identity) now None None);
    mret (mkV1HttpResponse 201 (_rule_body rule))).
Definition _create_rule (body : json) (identity : WorkspaceIdentity) (now : Z) : M S V1HttpResponse :=
  match parse_v1_auto_approval_rule_create_body body with
  | inl response => mret response
  | inr parsed => create_v1_auto_approval_rule_response parsed identity now
  end.

Definition handle_v1_auto_approval_rules_http (method path : string) (headers : dict string string)
    (body : json) (keys : Keyring S WorkspaceIdentity) (now : Z) : M S V1HttpResponse :=
  for_workspace headers keys now (λ identity,
  if path == "/v1/auto-approval-rules" then
    if method == "POST" then _create_rule body identity now
    else if method == "GET" then
      rules ← aas_list_auto_approval_rules (wi_workspace_id identity);
      mret (mkV1HttpResponse 200
        [("auto_approval_rules", JList (map (λ r, JObj (_rule_body r)) rules))])
    else mret (method_not_allowed "GET or POST is required for /v1/auto-approval-rules")
  else if startswith path "/v1/auto-approval-rules/" then
    match split "/" (removeprefix path "/v1/auto-approval-rules/") with
    | [rule_id; action] =>
        if negb (rule_id == "") && (action == "disable") then
          if negb (method == "POST")
          then mret (method_not_allowed
            "POST is required for /v1/auto-approval-rules/{rule_id}/disable")
          else
            disabled ← aas_disable_auto_approval_rule rule_id (wi_workspace_id identity)
              (principal_of identity) now;
            mret (respond_or_404 "auto_approval_rule_not_found" "auto-approval rule was not found"
              _rule_body disabled)
        else mret route_not_found
    | _ => mret route_not_found
    end
  else mret route_not_found).
End handlers.

Section service.
Context {G A : Type}.
#[global] Instance rule_service : AutoApprovalAdminService (World G A) := {|
  aas_create_auto_approval_rule := λ rule, on_rules (create_auto_approval_rule rule);
  aas_list_auto_approval_rules := λ ws, gets (λ w, list_auto_approval_rules ws (w_rules w));
  aas_disable_auto_approval_rule := λ id ws by_ now,
    on_rules (disable_auto_approval_rule id ws by_ now)
|}.
End service.
