(* ===== verification/AuditHttp.v ===== *)
(** * The audit endpoints ([src/vinctor_service/audit_http.py])

    Reading the audit trail of a workspace with its key or an auditor's, in full
    or by pages, and the service operator's view of failed authentications.
    [set_order] is the order in which a set of strings iterates, [int_unicode]
    what [int] gives on a string with non-ASCII characters. *)
From S2P Require Import Prelude PyStr PyDict PyTime Scope Models Enforce CoreAudit Sha256 Pop.
From S2P Require Import World AuditWriter V1Enforce AuditQuery Json Http BoundaryHttp.

Class AuditReadService (S : Type) := {
  ars_get_audit_event : string → M S (option AuditEvent);
  ars_list_filtered : string → AuditFilter → option string → option string → option Z →
    M S (list AuditEvent);
  ars_audit_event_sequences : string → list string → M S (dict string Z)
}.
Class AuthFailureReadService (S : Type) := {
  afs_list_auth_failures : Z → M S (list AuditEvent)
}.

(** ** White space at the ends: [s.strip()] *)

Fixpoint lstrip (s : string) : string :=
  match s with
  | EmptyString => ""
  | String a s1 =>
      if space1 a then lstrip s1
      else match s1 with
           | EmptyString => s
           | String b s2 =>
               if space2 a b then lstrip s2
               else match s2 with
                    | EmptyString => s
                    | String c s3 => if space3 a b c then lstrip s3 else s
                    end
           end
  end.
Fixpoint rstrip (s : string) : string :=
  if is_blank s then ""
  else match s with EmptyString => "" | String a s' => String a (rstrip s') end.
Definition strip (s : string) : string := rstrip (lstrip s).

(** ** The query *)

Record AuditEventFilters := mkAuditEventFilters {
  ef_filter : AuditFilter;
  ef_paginate : bool;
  ef_snapshot_event_id : option string;
  ef_before_event_id : option string;
  ef_limit : Z
}.
Definition AUDIT_PARAMS : list string :=
  ["agent_id"; "event_class"; "event_type"; "grant_ref"; "boundary_id"; "request_id"; "reason_code";
   "enforcing_principal"; "subject_token_verified"; "page"; "snapshot_event_id"; "before_event_id";
   "limit"].

Section query.
Context (set_order : list string → list string) (int_unicode : string → result Z).

Definition parse_limit (value : option string) : parsed Z :=
  match value with
  | None => inr 20
  | Some s =>
      match py_int int_unicode s with
      | Raise _ => refuse "limit must be a positive integer"
      | Ok limit =>
          if (limit <=? 0) || (100 <? limit) then refuse "limit must be between 1 and 100" else inr limit
      end
  end.
Definition parse_verified (value : option string) : parsed (option bool) :=
  match value with
  | None => inr None
  | Some s =>
      let normalized := lower (strip s) in
      if normalized == "true" then inr (Some true)
      else if normalized == "false" then inr (Some false)
      else refuse "subject_token_verified must be true or false"
  end.
Definition _parse_filters (query_string : string) : parsed AuditEventFilters :=
  values ← query_params set_order query_string AUDIT_PARAMS;
  let value k := default None (dget k values) in
  limit ← parse_limit (value "limit");
  let paginate := bool_decide (value "page" = Some "true") in
  _ ← (if bool_decide (is_Some (value "page")) && negb paginate then refuse "page must be true" else inr tt);
  _ ← (if negb paginate && (bool_decide (is_Some (value "snapshot_event_id"))
                            || bool_decide (is_Some (value "before_event_id")))
       then refuse "snapshot_event_id and before_event_id require page=true" else inr tt);
  _ ← (if bool_decide (is_Some (value "before_event_id"))
          && bool_decide (value "snapshot_event_id" = None)
       then refuse "invalid cursor" else inr tt);
  verified ← parse_verified (value "subject_token_verified");
  _ ← match validate_audit_event_class (value "event_class") with
      | Raise (ValueError msg) => refuse msg
      | _ => inr tt
      end;
  inr (mkAuditEventFilters
    (mkAuditFilter (value "event_class") (value "event_type") (value "grant_ref")
       (value "boundary_id") (value "agent_id") (value "request_id") (value "reason_code")
       (value "enforcing_principal") verified)
    paginate (value "snapshot_event_id") (value "before_event_id") limit).

(** ** Responses *)

Definition _audit_event_body (event : AuditEvent) : dict string json :=
  [("event_id", JStr (e_event_id event)); ("event_type", JStr (e_event_type event));
   ("decision", JStr (decision_str (e_decision event))); ("reason", JStr (e_reason event));
   ("workspace_id", JStr (e_workspace_id event)); ("agent_id", JStr (e_agent_id event));
   ("grant_id", JStr (e_grant_id event)); ("grant_ref", JStr (e_grant_ref event));
   ("action", JStr (e_action event)); ("resource", JStr (e_resource event));
   ("scope_attempted", JStr (e_scope_attempted event));
   ("scope_matched", jopt (e_scope_matched event)); ("boundary_id", jopt (e_boundary_id event));
   ("runtime", jopt (e_runtime event)); ("boundary_type", jopt (e_boundary_type event));
   ("created_at", JStr (isoformat (e_created_at event)));
   ("enforcing_principal", jopt (e_enforcing_principal event));
   ("reason_code", jopt (e_reason_code event));
   ("occurrence_count", match e_occurrence_count event with Some n => JInt n | None => JNull end);
   ("first_seen_at", jtime (e_first_seen_at event)); ("last_seen_at", jtime (e_last_seen_at event));
   ("subject_token_verified", JBool (e_subject_token_verified event));
   ("token_id", jopt (e_token_id event)); ("event_class", JStr (e_event_class event))].
Definition events_response (events : list AuditEvent) : V1HttpResponse :=
  mkV1HttpResponse 200 [("audit_events", JList (map (λ e, JObj (_audit_event_body e)) events))].
Definition page_response (page : AuditPage) : V1HttpResponse :=
  mkV1HttpResponse 200
    [("audit_events", JList (map (λ es,
        JObj (dmerge (_audit_event_body es.1) [("sequence", JInt es.2)])) (pg_events page)));
     ("page", JObj [("snapshot_event_id", jopt (pg_snapshot_event_id page));
                    ("next_before_event_id", jopt (pg_next_before_event_id page))])].

(** ** Handlers *)
Section handlers.
Context {S : Type} `{AuditReadService S}.

(** The workspace key, when one is given, decides alone. *)
Definition _audit_identity (headers : dict string string) (workspaces auditors : Keyring S WorkspaceIdentity)
    (now : Z) : M S (option WorkspaceIdentity) :=
  match dget "x-workspace-key" (normalized headers) with
  | Some workspace_key => resolve_identity workspaces workspace_key now
  | None => header_identity "x-auditor-key" headers auditors now
  end.
Definition invalid_cursor : V1HttpResponse := _error 400 "invalid_request" "invalid cursor".
(** [None] where the service refuses the cursor. *)
Definition read_events (filters : AuditEventFilters) (ws : string) : M S (option (list AuditEvent)) :=
  try_except
    (events ← ars_list_filtered ws (ef_filter filters)
       (if ef_paginate filters then ef_snapshot_event_id filters else None)
       (if ef_paginate filters then ef_before_event_id filters else None)
       (Some (if ef_paginate filters then ef_limit filters + 1 else ef_limit filters));
     mret (Some events))
    (λ e, if decide (e = InvalidAuditCursorError) then mret None else raise e).
Definition list_audit_events (query_string : string) (identity : WorkspaceIdentity) :
    M S V1HttpResponse :=
  match _parse_filters query_string with
  | inl response => mret response
  | inr filters =>
      found ← read_events filters (wi_workspace_id identity);
      match found with
      | None => mret invalid_cursor
      | Some events =>
          if ef_paginate filters then
            sequences ← ars_audit_event_sequences (wi_workspace_id identity)
              (map e_event_id (page_events (ef_limit filters) events));
            page ← lift (page_of (ef_limit filters) (ef_snapshot_event_id filters) events sequences);
            mret (page_response page)
          else mret (events_response events)
      end
  end.
Definition handle_v1_audit_events_http (method path query_string : string)
    (headers : dict string string) (workspaces auditors : Keyring S WorkspaceIdentity) (now : Z) :
    M S V1HttpResponse :=
  identity ← _audit_identity headers workspaces auditors now;
  match identity with
  | None => mret (_error 401 "authentication_required"
                    "valid X-Workspace-Key or X-Auditor-Key header is required")
  | Some identity =>
      if path == "/v1/audit-events" then
        if negb (method == "GET")
        then mret (method_not_allowed "GET is required for /v1/audit-events")
        else list_audit_events query_string identity
      else if startswith path "/v1/audit-events/" then
        let event_id := removeprefix path "/v1/audit-events/" in
        if (event_id == "") || contains "/" event_id then mret route_not_found
        else if negb (method == "GET")
        then mret (method_not_allowed "GET is required for /v1/audit-events/{event_id}")
        else
          event ← ars_get_audit_event event_id;
          mret match event with
               | Some e =>
                   if negb (e_workspace_id e == wi_workspace_id identity)
                   then _error 404 "audit_event_not_found" "audit event was not found"
                   else mkV1HttpResponse 200 (_audit_event_body e)
               | None => _error 404 "audit_event_not_found" "audit event was not found"
               end
      else mret route_not_found
  end.

(** The keys of the service operators: a fixed set, or a resolver. *)
Definition operator_known (keys : list string) (resolver : option (string → Z → M S bool))
    (raw_key : option string) (now : Z) : M S bool :=
  match raw_key with
  | None => mret false
  | Some key =>
      match resolver with
      | Some resolver => resolver key now
      | None => mret (existsb (String.eqb key) keys)
      end
  end.
Definition handle_v1_service_auth_failures_http `{AuthFailureReadService S}
    (method path query_string : string) (headers : dict string string) (operator_keys : list string)
    (operator_resolver : option (string → Z → M S bool)) (now : Z) : M S V1HttpResponse :=
  authenticated ← operator_known operator_keys operator_resolver
    (dget "x-service-operator-key" (normalized headers)) now;
  if negb authenticated
  then mret (_error 401 "authentication_required" "valid X-Service-Operator-Key header is required")
  else if negb (path == "/v1/service/audit/auth-failures") then mret route_not_found
  else if negb (method == "GET") then mret (method_not_allowed "GET is required")
  else
    let params := parse_qs query_string in
    match extra_fields params ["limit"] with
    | _ :: _ => mret (_error 400 "invalid_request" "only limit is supported")
    | [] =>
        match py_int int_unicode (default "20" (head (default ["20"] (dget "limit" params)))) with
        | Raise _ => mret (_error 400 "invalid_request" "limit must be an integer")
        | Ok limit =>
            if (limit <=? 0) || (200 <? limit)
            then mret (_error 400 "invalid_request" "limit must be between 1 and 200")
            else
              events ← afs_list_auth_failures limit;
              mret (mkV1HttpResponse 200
                [("auth_failures", JList (map (λ e, JObj (_audit_event_body e)) events))])
        end
    end.
End handlers.
End query.

(** The audit log of the service in memory. *)
Section service.
Context {G A : Type} `{GrantLifecycle G} `{AuditWriterOk A}.
#[global] Instance audit_service : AuditReadService (World G A) := {|
  ars_get_audit_event := λ id, gets (λ w, get_audit_event id (log w));
  ars_list_filtered := λ ws f snapshot before limit w,
    (list_filtered ws f snapshot before limit (log w), w);
  ars_audit_event_sequences := λ ws ids, gets (λ w, audit_event_sequences ws ids (log w))
|}.
End service.
