(* ===== verification/IdemCrypto.v ===== *)
(** * Idempotent requests: values, fingerprints and encryption
      ([src/vinctor_service/idempotency_models.py], [idempotency_crypto.py],
      [idempotency_keyring.py])

    What a mutation sent with an [Idempotency-Key] header is identified by, and
    how its response is sealed for replay.  Byte strings are [string]s, as texts
    are (in UTF-8).  AES-GCM belongs to the [cryptography] package: it is a
    parameter, of which only that decryption inverts encryption and the length
    of a tag are relied on.  Bodies with floats, which the server never builds a
    fingerprint from, are refused here. *)
From S2P Require Import Prelude PyStr PyDict Models Sha256 Pop Json.

(** ** Exceptions *)
Definition IdempotencyFingerprintError : pyexc := ValueError "invalid idempotency request fingerprint".
Definition IdempotencyCipherUnavailableError : pyexc := ValueError "idempotency cipher unavailable".
Definition IdempotencyKeyringConfigError : pyexc := ValueError "invalid idempotency key configuration".
Definition IdempotencyConflict : pyexc := ServiceError "IdempotencyConflict".
Definition AmbiguousCommitError : pyexc := ServiceError "AmbiguousCommitError".
Definition IdempotencyResultUnavailable : pyexc := ServiceError "IdempotencyResultUnavailable".
Definition IdempotencyWriteUnavailable : pyexc := ServiceError "IdempotencyWriteUnavailable".

(** ** Values *)
Record IdempotencyKeyVersion := mkIdempotencyKeyVersion {
  kv_version : string;
  kv_material : string;
  kv_commitment : string
}.
Record RequestFingerprintInput := mkRequestFingerprintInput {
  fp_method : string;
  fp_path : string;
  fp_authenticated_workspace_id : string;
  fp_authenticated_principal : string;
  fp_operation : string;
  fp_request_body : string
}.
Record ResponseAadInput := mkResponseAadInput {
  aad_format_version : Z;
  aad_workspace_id : string;
  aad_principal : string;
  aad_operation : string;
  aad_key_hash : string;
  aad_request_fingerprint : string;
  aad_status_code : Z;
  aad_content_type : string;
  aad_cipher_key_version : string;
  aad_created_at_epoch : Z;
  aad_expires_at_epoch : Z
}.
Record EncryptedResponseEnvelope := mkEncryptedResponseEnvelope {
  env_format_version : Z;
  env_version : string;
  env_nonce : string;
  env_ciphertext : string
}.
Record IdempotencyInvocation := mkIdempotencyInvocation {
  inv_workspace_id : string;
  inv_principal : string;
  inv_operation : string;
  inv_key_hash : string;
  inv_request_fingerprint : string;
  inv_max_terminal_ttl_seconds : Z
}.
Definition result_identity (i : IdempotencyInvocation) : string * string * string * string :=
  (inv_workspace_id i, inv_principal i, inv_operation i, inv_key_hash i).
Definition reservation_owner_identity (i : IdempotencyInvocation) :
    string * string * string * string * string := (result_identity i, inv_request_fingerprint i).
Record HttpResponseObservation := mkHttpResponseObservation {
  ob_error_code : option string;
  ob_decision : option string
}.
Record PreSerializedHttpResponse := mkPreSerializedHttpResponse {
  ps_status_code : Z;
  ps_content_type : string;
  ps_body : string;
  ps_observation : HttpResponseObservation
}.
Record CacheableTerminalOutcome := mkCacheableTerminalOutcome {
  co_response : PreSerializedHttpResponse;
  co_replay_not_after_epoch : option Z
}.
Record CryptoReservation := mkCryptoReservation {
  cr_version : string;
  cr_slot : Z;
  cr_nonce : string;
  cr_reserved_at_epoch : Z
}.
Definition ledger_identity (r : CryptoReservation) : string * Z * string * Z :=
  (cr_version r, cr_slot r, cr_nonce r, cr_reserved_at_epoch r).
Record IdempotencyKeyVersionState := mkIdempotencyKeyVersionState {
  vs_version : string;
  vs_reserved_encryption_slots : Z;
  vs_first_seen_epoch : Z;
  vs_soft_limit_reported_epoch : option Z;
  vs_write_disabled_epoch : option Z;
  vs_write_disabled_reason : option string;
  vs_drain_completed_epoch : option Z;
  vs_retired_epoch : option Z
}.
(** [IdempotencyLookupResult] *)
Inductive IdempotencyLookupResult :=
  | IdempotencyReplayCandidate (response : PreSerializedHttpResponse)
  | IdempotencyProceedToReservation.

(** ** Encodings *)

Definition sha256_digest (data : string) : string := string_of (sha256 data).
(** [len(value).to_bytes(4, "big") + value] *)
Definition _length_prefix (value : string) : result string := length_prefixed value.
(** [value.to_bytes(8, "big", signed=True)] *)
Definition _int64 (value : Z) : result string :=
  if (-9223372036854775808 <=? value) && (value <? 9223372036854775808)
  then Ok (string_of (be_bytes 8 (value mod 18446744073709551616)))
  else Raise (OverflowError "int too big to convert").

(** [json.dumps(v, sort_keys=True, separators=(",", ":"))] *)
Definition compact_field (m : string * string) : string := json_string m.1 ^+ ":" ^+ m.2.
Fixpoint compact_dumps (v : json) : string :=
  match v with
  | JNull => "null"
  | JBool true => "true"
  | JBool false => "false"
  | JInt z => pretty z
  | JStr s => json_string s
  | JList l => "[" ^+ join "," (map compact_dumps l) ^+ "]"
  | JObj d =>
      let members := map (λ kv, (kv.1, compact_dumps kv.2)) d in
      "{" ^+ join "," (map compact_field (in_key_order true members)) ^+ "}"
  end.

(** Whether [bytes.decode("utf-8")] succeeds: the bytes are those of some scalars. *)
Definition is_scalar (cp : Z) : bool :=
  ((0 <=? cp) && (cp <? 55296)) || ((57344 <=? cp) && (cp <? 1114112)).
Definition utf8_ok (s : string) : bool :=
  forallb is_scalar (utf8_decode s) && (utf8_encode (utf8_decode s) == s).

(** ** Fingerprints *)

Definition FINGERPRINT_DOMAIN : string := "vinctor:idempotency-fingerprint:v1".
Definition RESPONSE_AAD_DOMAIN : string := "vinctor:idempotency-response-aad:v1".
Definition ENVELOPE_AAD_DOMAIN : string := "vinctor:idempotency-envelope:v1".
Definition ENVELOPE_FORMAT_VERSION : Z := 1.
Definition AES_256_KEY_BYTES : nat := 32.
Definition GCM_NONCE_BYTES : nat := 12.
Definition GCM_TAG_BYTES : nat := 16.

Definition canonicalize_request_body (raw_body : string) : result string :=
  if raw_body == "" then Ok ""
  else if negb (utf8_ok raw_body) then Raise IdempotencyFingerprintError
  else match loads raw_body with
       | Ok parsed => Ok (compact_dumps parsed)
       | Raise _ => Raise IdempotencyFingerprintError
       end.
Definition _encode_length_prefixed (domain : string) (fields : list string) : result string :=
  encoded ← canonical_parts fields; Ok (domain ^+ encoded).
Definition encode_fingerprint_fields (fields : list string) : result string :=
  _encode_length_prefixed FINGERPRINT_DOMAIN fields.
Definition build_request_fingerprint (request : RequestFingerprintInput) : result string :=
  canonical_body ← canonicalize_request_body (fp_request_body request);
  encoded ← encode_fingerprint_fields
    [fp_method request; fp_path request; fp_authenticated_workspace_id request;
     fp_authenticated_principal request; fp_operation request; canonical_body];
  Ok (sha256_digest encoded).

(** ** Sealed responses *)

Fixpoint concat_results (parts : list (result string)) : result string :=
  match parts with
  | [] => Ok ""
  | p :: parts' => b ← p; out ← concat_results parts'; Ok (b ^+ out)
  end.
(** [except OverflowError: raise IdempotencyCipherUnavailableError] *)
Definition overflow_as (e' : pyexc) {A} (m : result A) : result A :=
  match m with Raise (OverflowError _) => Raise e' | m => m end.
Definition build_response_aad (m : ResponseAadInput) : result string :=
  if negb (String.length (aad_key_hash m) =? 32)%nat
     || negb (String.length (aad_request_fingerprint m) =? 32)%nat
  then Raise IdempotencyCipherUnavailableError
  else overflow_as IdempotencyCipherUnavailableError (concat_results
    [Ok RESPONSE_AAD_DOMAIN; _int64 (aad_format_version m); _length_prefix (aad_workspace_id m);
     _length_prefix (aad_principal m); _length_prefix (aad_operation m);
     _length_prefix (aad_key_hash m); _length_prefix (aad_request_fingerprint m);
     _int64 (aad_status_code m); _length_prefix (aad_content_type m);
     _length_prefix (aad_cipher_key_version m); _int64 (aad_created_at_epoch m);
     _int64 (aad_expires_at_epoch m)]).
Definition _envelope_aad (format_version : Z) (version aad : string) : result string :=
  concat_results [Ok ENVELOPE_AAD_DOMAIN; _int64 format_version; _length_prefix version;
                  _length_prefix aad].
Definition _require_aes256_key (key : string) : result unit :=
  if negb (String.length key =? AES_256_KEY_BYTES)%nat then Raise IdempotencyCipherUnavailableError
  else Ok tt.

(** [AESGCM(key).encrypt(nonce, data, aad)] and [.decrypt]. *)
Class AesGcm := {
  aesgcm_encrypt (key nonce data aad : string) : result string;
  aesgcm_decrypt (key nonce data aad : string) : result string
}.
Definition InvalidTag : pyexc := ServiceError "InvalidTag".
(** What is relied on: authenticated data comes back, followed by a tag. *)
Class AesGcmOk `{AesGcm} := {
  aesgcm_inverts key nonce data aad sealed :
    aesgcm_encrypt key nonce data aad = Ok sealed →
    aesgcm_decrypt key nonce sealed aad = Ok data ∧
    String.length sealed = (String.length data + GCM_TAG_BYTES)%nat
}.

Section sealed.
Context `{AesGcm}.
Definition cipher_errors {A} (m : result A) : result A :=
  match m with
  | Raise (OverflowError _) | Raise (ValueError _) => Raise IdempotencyCipherUnavailableError
  | m => m
  end.
Definition _encrypt_with_nonce (key version nonce plaintext aad : string) :
    result EncryptedResponseEnvelope :=
  _ ← _require_aes256_key key;
  if (version == "") || negb (String.length nonce =? GCM_NONCE_BYTES)%nat
  then Raise IdempotencyCipherUnavailableError
  else
    ciphertext ← cipher_errors (
      envelope_aad ← _envelope_aad ENVELOPE_FORMAT_VERSION version aad;
      aesgcm_encrypt key nonce plaintext envelope_aad);
    Ok (mkEncryptedResponseEnvelope ENVELOPE_FORMAT_VERSION version nonce ciphertext).
Definition encrypt_reserved_response (key : IdempotencyKeyVersion) (reservation : CryptoReservation)
    (plaintext aad : string) : result EncryptedResponseEnvelope :=
  if negb (kv_version key == cr_version reservation) then Raise IdempotencyCipherUnavailableError
  else _encrypt_with_nonce (kv_material key) (kv_version key) (cr_nonce reservation) plaintext aad.
Definition decrypt_response (keys : dict string string) (envelope : EncryptedResponseEnvelope)
    (aad : string) : result string :=
  if negb (env_format_version envelope =? ENVELOPE_FORMAT_VERSION) || (env_version envelope == "")
     || negb (String.length (env_nonce envelope) =? GCM_NONCE_BYTES)%nat
     || (String.length (env_ciphertext envelope) <? GCM_TAG_BYTES)%nat
  then Raise IdempotencyCipherUnavailableError
  else
    match dget (env_version envelope) keys with
    | None => Raise IdempotencyCipherUnavailableError
    | Some key =>
        _ ← _require_aes256_key key;
        match
          envelope_aad ← _envelope_aad (env_format_version envelope) (env_version envelope) aad;
          aesgcm_decrypt key (env_nonce envelope) (env_ciphertext envelope) envelope_aad
        with
        | Raise e =>
            if decide (e = InvalidTag) then Raise IdempotencyCipherUnavailableError
            else cipher_errors (Raise e)
        | Ok plaintext => Ok plaintext
        end
    end.
End sealed.
