(* ===== verification/McpClient.v ===== *)
(** * The MCP server: what it may show and how it asks
      ([src/vinctor_mcp_server/output_policy.py], [config.py], [service_client.py])

    The allow-lists of fields, the configuration, and the client of the HTTP
    service.  The connection is a parameter: [exchange] sends a request and gives
    the status and the bytes of the answer.  Answers are read by [loads], to which
    a text with a float, which the service does not write, is no JSON. *)
From S2P Require Import Prelude PyStr PyDict PyTime Models CoreAudit Sha256 Json.
From S2P Require Import Pop Http AuditHttp IdemCrypto PyUrl.

(** ** Output policy *)

Inductive OutputMode := safe | diagnostic.
Definition STATUS_FIELDS : list string := ["status"; "service"; "mode"].
Definition BOUNDARY_FIELDS : list string :=
  ["boundary_id"; "name"; "runtime"; "boundary_type"; "mode"; "status"].
Definition GRANT_SAFE_FIELDS : list string :=
  ["grant_id"; "grant_ref"; "workspace_id"; "agent_id"; "status"; "expires_at"].
Definition GRANT_DIAGNOSTIC_FIELDS : list string := ["scopes"].
Definition AUDIT_EVENT_SAFE_FIELDS : list string :=
  ["event_id"; "event_type"; "event_class"; "decision"; "reason"; "workspace_id"; "agent_id"; "grant_id";
   "grant_ref"; "action"; "resource"; "boundary_id"; "runtime"; "boundary_type"; "created_at"; "sequence";
   "subject_token_verified"; "enforcing_principal"; "reason_code"; "occurrence_count"; "first_seen_at";
   "last_seen_at"].
Definition AUDIT_EVENT_DIAGNOSTIC_FIELDS : list string := ["scope_attempted"; "scope_matched"; "token_id"].
Definition GRANT_REQUEST_SAFE_FIELDS : list string :=
  ["request_id"; "workspace_id"; "requester_agent_id"; "target_agent_id"; "requested_ttl_seconds"; "reason";
   "status"; "created_at"; "decided_at"; "decision_reason"; "issued_grant_ref"; "boundary_id";
   "requester_runtime"; "routing_hint"; "routing_reason"; "queue_reason"].
Definition GRANT_REQUEST_DIAGNOSTIC_FIELDS : list string := ["requested_scopes"].
Definition AUTO_APPROVAL_RULE_SAFE_FIELDS : list string :=
  ["rule_id"; "workspace_id"; "name"; "target_agent_id"; "max_ttl_seconds"; "status"; "created_by";
   "created_at"; "updated_by"; "updated_at"].
Definition AUTO_APPROVAL_RULE_DIAGNOSTIC_FIELDS : list string := ["allowed_scopes"].
Definition AUTO_APPROVAL_EVALUATION_FIELDS : list string := ["decision"; "reason"; "rule_id"].
Definition LIST_OF_STRING_FIELDS : list string := ["allowed_scopes"; "requested_scopes"; "scopes"].
Definition INTEGER_FIELDS : list string :=
  ["max_ttl_seconds"; "occurrence_count"; "requested_ttl_seconds"; "sequence"].
Definition BOOLEAN_FIELDS : list string := ["subject_token_verified"].

Definition fields_for_mode (safe_fields diagnostic_fields : list string) (mode : OutputMode) : list string :=
  match mode with diagnostic => safe_fields ++ diagnostic_fields | safe => safe_fields end.

Definition is_jstr (v : json) : bool := match v with JStr _ => true | _ => false end.
(** [None] is [_DROP]. *)
Definition _allowlisted_value (field : string) (value : json) : option json :=
  if existsb (String.eqb field) LIST_OF_STRING_FIELDS then
    match value with JList l => Some (JList (List.filter is_jstr l)) | _ => None end
  else if existsb (String.eqb field) INTEGER_FIELDS then
    match value with JInt z => Some (JInt z) | _ => None end
  else if existsb (String.eqb field) BOOLEAN_FIELDS then
    match value with JBool b => Some (JBool b) | _ => None end
  else match value with JNull => Some JNull | JStr s => Some (JStr s) | _ => None end.
Definition allow_field (data allowed : mapping) (field : string) : mapping :=
  match dget field data with
  | None => allowed
  | Some value =>
      match _allowlisted_value field value with
      | Some filtered => dset field filtered allowed
      | None => allowed
      end
  end.
Definition allowlist_object (data : mapping) (fields : list string) : mapping :=
  foldl (allow_field data) [] fields.

(** ** Configuration *)

Record VinctorMcpConfig := mkVinctorMcpConfig {
  mc_endpoint : string;
  mc_workspace_key : string;
  mc_service_operator_key : option string;
  mc_timeout : Z;
  mc_output_mode : OutputMode;
  mc_write_enabled : bool
}.
Section config.
Context (int_unicode : string → result Z).
Definition _parse_timeout (value : string) : result Z :=
  match py_int int_unicode value with
  | Raise _ => Raise (ValueError "VINCTOR_MCP_TIMEOUT must be a positive integer")
  | Ok timeout =>
      if timeout <=? 0 then Raise (ValueError "VINCTOR_MCP_TIMEOUT must be a positive integer") else Ok timeout
  end.
Definition _parse_truthy (value : string) : bool :=
  existsb (String.eqb (lower (strip value))) ["1"; "true"].
Definition _parse_output_mode (value : string) : result OutputMode :=
  if value == "safe" then Ok safe
  else if value == "diagnostic" then Ok diagnostic
  else Raise (ValueError "VINCTOR_MCP_OUTPUT_MODE must be safe or diagnostic").
Definition load_config (values : dict string string) : result VinctorMcpConfig :=
  let service_operator_key := str_or (dget "VINCTOR_MCP_SERVICE_OPERATOR_KEY" values) None in
  match str_or (dget "VINCTOR_MCP_ENDPOINT" values) None with
  | None => Raise (ValueError "VINCTOR_MCP_ENDPOINT is required")
  | Some endpoint =>
      match str_or (dget "VINCTOR_MCP_WORKSPACE_KEY" values) None with
      | None => Raise (ValueError "VINCTOR_MCP_WORKSPACE_KEY is required")
      | Some workspace_key =>
          timeout ← _parse_timeout (default "5" (dget "VINCTOR_MCP_TIMEOUT" values));
          output_mode ← _parse_output_mode (default "safe" (dget "VINCTOR_MCP_OUTPUT_MODE" values));
          Ok (mkVinctorMcpConfig endpoint workspace_key service_operator_key timeout output_mode
                (_parse_truthy (default "" (dget "VINCTOR_MCP_WRITE" values))))
      end
  end.
End config.

(** ** The client *)

Record WireRequest := mkWireRequest {
  wr_method : string;
  wr_path : string;
  wr_body : option string;
  wr_headers : dict string string
}.
(** [connection_factory(host, port, timeout)], over TLS or not. *)
Record VinctorServiceClient := mkVinctorServiceClient {
  cl_scheme : string;
  cl_host : string;
  cl_port : Z;
  cl_workspace_key : string;
  cl_service_operator_key : option string;
  cl_timeout : Z
}.
Class Transport (S : Type) := exchange : VinctorServiceClient → WireRequest → M S (Z * string).

Definition VinctorServiceClientError (msg : string) : pyexc := ServiceError ("VinctorServiceClientError: " ^+ msg).
Definition new_client (bracketed_netloc : string → bool) (endpoint workspace_key : string)
    (service_operator_key : option string) (timeout : Z) : result VinctorServiceClient :=
  parsed ← urlsplit_endpoint bracketed_netloc endpoint;
  match existsb (String.eqb (sr_scheme parsed)) ["http"; "https"], hostname parsed with
  | true, Some host =>
      explicit ← port parsed;
      let port := match explicit with
                  | Some p => if p =? 0 then if sr_scheme parsed == "https" then 443 else 80 else p
                  | None => if sr_scheme parsed == "https" then 443 else 80
                  end in
      Ok (mkVinctorServiceClient (sr_scheme parsed) host port workspace_key service_operator_key timeout)
  | _, _ => Raise (ValueError "endpoint must be an http(s) URL with a host")
  end.

Definition _path_part (value : string) : result string :=
  if value == "" then Raise (ValueError "path value must be non-empty") else Ok (quote value).
Definition _query (values : dict string (option string)) : string :=
  urlencode (omap (λ kv, v ← kv.2; Some (kv.1, v)) values).
Definition _decision_body (reason : option string) : option json :=
  match str_or reason None with
  | None => None
  | Some reason => Some (JObj [("decision_reason", JStr reason)])
  end.

Section client.
Context {S : Type} `{!Transport S}.
(** [str] of a list or an object. *)
Context (repr : json → string).
Context (client : VinctorServiceClient).
Definition py_str (v : json) : string :=
  match v with
  | JStr s => s
  | JInt z => pretty z
  | JBool b => if b then "True" else "False"
  | JNull => "None"
  | v => repr v
  end.
Definition request_headers (workspace_auth service_operator_auth : bool) (body : option json) : dict string string :=
  let headers := if workspace_auth then [("X-Workspace-Key", cl_workspace_key client)] else [] in
  let headers := match service_operator_auth, cl_service_operator_key client with
                 | true, Some key => dset "X-Service-Operator-Key" key headers
                 | _, _ => headers
                 end in
  match body with Some _ => dset "Content-Type" "application/json" headers | None => headers end.
Definition response_object (status : Z) (text : string) : result mapping :=
  if negb (utf8_ok text) then Raise (ValueError "invalid UTF-8")
  else
    match (if text == "" then Ok (JObj []) else loads text) with
    | Raise _ => Raise (VinctorServiceClientError "service returned non-JSON response")
    | Ok (JObj response_body) =>
        if 400 <=? status then
          let error := py_str (default (JStr "request_failed") (dget "error" response_body)) in
          let reason := py_str (default (JStr error) (dget "reason" response_body)) in
          Raise (VinctorServiceClientError (pretty status ^+ " " ^+ error ^+ ": " ^+ reason))
        else Ok response_body
    | Ok _ => Raise (VinctorServiceClientError "service returned non-object JSON response")
    end.
Definition _request_json (method path : string) (workspace_auth service_operator_auth : bool)
    (body : option json) : M S mapping :=
  '(status, text) ← exchange client (mkWireRequest method path (dumps false <$> body)
                       (request_headers workspace_auth service_operator_auth body));
  lift (response_object status text).
(** A request with the workspace key, on a path that ends with a quoted part. *)
Definition ask (method path : string) (body : option json) : M S mapping :=
  _request_json method path true false body.
Definition ask_part (method prefix part suffix : string) (body : option json) : M S mapping :=
  part ← lift (_path_part part); ask method (prefix ^+ part ^+ suffix) body.

Definition cl_status : M S mapping := _request_json "GET" "/healthz" false false None.
Definition cl_list_boundaries : M S mapping := ask "GET" "/v1/boundaries" None.
Definition cl_get_boundary (boundary_id : string) : M S mapping :=
  ask_part "GET" "/v1/boundaries/" boundary_id "" None.
Definition cl_create_boundary (name runtime boundary_type mode : string) : M S mapping :=
  ask "POST" "/v1/boundaries" (Some (JObj [("name", JStr name); ("runtime", JStr runtime);
    ("boundary_type", JStr boundary_type); ("mode", JStr mode)])).
Definition cl_enable_boundary (boundary_id : string) : M S mapping :=
  ask_part "POST" "/v1/boundaries/" boundary_id "/enable" None.
Definition cl_disable_boundary (boundary_id : string) : M S mapping :=
  ask_part "POST" "/v1/boundaries/" boundary_id "/disable" None.
Definition cl_get_grant (grant_ref : string) : M S mapping := ask_part "GET" "/v1/grants/" grant_ref "" None.
Definition cl_list_grants (agent_id status : option string) : M S mapping :=
  let query := _query [("agent_id", agent_id); ("status", status)] in
  ask "GET" ("/v1/grants" ^+ (if query == "" then "" else "?" ^+ query)) None.

Record AuditQueryArgs := mkAuditQueryArgs {
  aq_limit : Z;
  aq_event_class : option string;
  aq_event_type : option string;
  aq_grant_ref : option string;
  aq_boundary_id : option string;
  aq_request_id : option string;
  aq_agent_id : option string;
  aq_reason_code : option string;
  aq_enforcing_principal : option string;
  aq_subject_token_verified : option bool;
  aq_paginate : bool;
  aq_snapshot_event_id : option string;
  aq_before_event_id : option string
}.
Definition audit_query_values (a : AuditQueryArgs) : dict string (option string) :=
  [("agent_id", aq_agent_id a); ("event_class", aq_event_class a); ("event_type", aq_event_type a);
   ("grant_ref", aq_grant_ref a); ("boundary_id", aq_boundary_id a); ("request_id", aq_request_id a);
   ("reason_code", aq_reason_code a); ("enforcing_principal", aq_enforcing_principal a);
   ("page", if aq_paginate a then Some "true" else None); ("snapshot_event_id", aq_snapshot_event_id a);
   ("before_event_id", aq_before_event_id a);
   ("subject_token_verified", (λ b : bool, if b then "true" else "false") <$> aq_subject_token_verified a);
   ("limit", Some (pretty (aq_limit a)))].
Definition cl_list_audit_events (a : AuditQueryArgs) : M S mapping :=
  _ ← lift (validate_audit_event_class (aq_event_class a));
  ask "GET" ("/v1/audit-events?" ^+ _query (audit_query_values a)) None.
Definition cl_get_audit_event (event_id : string) : M S mapping :=
  ask_part "GET" "/v1/audit-events/" event_id "" None.
Definition cl_list_grant_requests : M S mapping := ask "GET" "/v1/grant-requests" None.
Definition cl_get_grant_request (request_id : string) : M S mapping :=
  ask_part "GET" "/v1/grant-requests/" request_id "" None.
Definition cl_list_auto_approval_rules : M S mapping := ask "GET" "/v1/auto-approval-rules" None.
Definition cl_list_service_auth_failures (limit : Z) : M S mapping :=
  _request_json "GET" ("/v1/service/audit/auth-failures?" ^+ _query [("limit", Some (pretty limit))])
    false true None.
Definition cl_approve_grant_request (request_id : string) (reason : option string) : M S mapping :=
  ask_part "POST" "/v1/grant-requests/" request_id "/approve" (_decision_body reason).
Definition cl_reject_grant_request (request_id : string) (reason : option string) : M S mapping :=
  ask_part "POST" "/v1/grant-requests/" request_id "/reject" (_decision_body reason).
Definition cl_auto_approve_grant_request (request_id : string) : M S mapping :=
  ask_part "POST" "/v1/grant-requests/" request_id "/auto-approve" None.
Definition cl_revoke_grant (grant_ref : string) : M S mapping :=
  ask_part "POST" "/v1/grants/" grant_ref "/revoke" None.
Definition cl_issue_grant (agent_id : string) (scopes : list string) (ttl_seconds : Z) : M S mapping :=
  ask "POST" "/v1/grants" (Some (JObj [("agent_id", JStr agent_id); ("scopes", jstrs scopes);
    ("ttl_seconds", JInt ttl_seconds)])).
Definition cl_create_auto_approval_rule (name target_agent_id : string) (allowed_scopes : list string)
    (max_ttl_seconds : Z) : M S mapping :=
  ask "POST" "/v1/auto-approval-rules" (Some (JObj [("name", JStr name);
    ("target_agent_id", JStr target_agent_id); ("allowed_scopes", jstrs allowed_scopes);
    ("max_ttl_seconds", JInt max_ttl_seconds)])).
Definition cl_disable_auto_approval_rule (rule_id : string) : M S mapping :=
  ask_part "POST" "/v1/auto-approval-rules/" rule_id "/disable" None.
End client.

(** ** The allow-list *)

(** A mapping shows nothing but some fields, each with a value its kind allows. *)
Definition shows_only (fields : list string) (m : mapping) : Prop :=
  ∀ k v, dget k m = Some v → k ∈ fields ∧ _allowlisted_value k v = Some v.
Lemma filter_strings_id l : List.filter is_jstr (List.filter is_jstr l) = List.filter is_jstr l.
Proof. induction l as [|v l IH]; [done|]. cbn. destruct (is_jstr v) eqn:E; [|done]. cbn. by rewrite E, IH. Qed.
Lemma allowlisted_value_idem field v w :
  _allowlisted_value field v = Some w → _allowlisted_value field w = Some w.
Proof.
  unfold _allowlisted_value. destruct (existsb _ LIST_OF_STRING_FIELDS).
  { destruct v; try done. intros [= <-]. by rewrite filter_strings_id. }
  destruct (existsb _ INTEGER_FIELDS); [by destruct v; intros [= <-]|].
  destruct (existsb _ BOOLEAN_FIELDS); by destruct v; intros [= <-].
Qed.
Lemma allowlist_shows data fields : shows_only fields (allowlist_object data fields).
Proof.
  unfold allowlist_object. assert (Hgen : ∀ l acc, (∀ f, f ∈ l → f ∈ fields) → shows_only fields acc →
    shows_only fields (foldl (allow_field data) acc l)).
  { induction l as [|f l IH]; intros acc Hl Hacc; [done|]. cbn [foldl].
    apply IH; [intros g Hg; apply Hl; by right|]. unfold allow_field.
    destruct (dget f data) as [v|]; [|done]. destruct (_allowlisted_value f v) as [w|] eqn:E; [|done].
    intros k u. rewrite dget_dset. case_decide as Hk; [|apply Hacc].
    intros [= <-]. subst k. split; [apply Hl; by left|]. by eapply allowlisted_value_idem. }
  by apply Hgen.
Qed.
(** What is kept of a field. *)
Lemma allowlist_get data fields k : NoDup fields →
  dget k (allowlist_object data fields) =
    if decide (k ∈ fields) then v ← dget k data; _allowlisted_value k v else None.
Proof.
  unfold allowlist_object. assert (Hgen : ∀ l acc, NoDup l → (∀ f, f ∈ l → dget f acc = None) →
    dget k (foldl (allow_field data) acc l) =
    if decide (k ∈ l) then v ← dget k data; _allowlisted_value k v else dget k acc).
  { induction l as [|f l IH]; intros acc Hnd Hacc; [by rewrite decide_False by apply not_elem_of_nil|].
    apply NoDup_cons in Hnd as [Hf Hnd]. cbn [foldl]. rewrite IH; [|done|].
    - destruct (decide (k ∈ l)) as [Hk|Hk].
      + by rewrite decide_True by by right.
      + destruct (decide (k = f)) as [->|Hne].
        * rewrite decide_True by by left. unfold allow_field.
          destruct (dget f data) as [v|]; cbn; [|apply Hacc; by left].
          destruct (_allowlisted_value f v); [by rewrite dget_dset_eq|apply Hacc; by left].
        * rewrite decide_False by (rewrite elem_of_cons; tauto). unfold allow_field.
          destruct (dget f data) as [v|]; [|done]. destruct (_allowlisted_value f v); [|done].
          by rewrite dget_dset_ne by congruence.
    - intros g Hg. unfold allow_field. destruct (dget f data) as [v|]; [|apply Hacc; by right].
      destruct (_allowlisted_value f v); [|apply Hacc; by right].
      rewrite dget_dset_ne by congruence. apply Hacc. by right. }
  intros Hnd. by rewrite Hgen.
Qed.
