(* ===== verification/McpTools.v ===== *)
(** * The tools of the MCP server ([src/vinctor_mcp_server/tools.py], [server.py])

    What a model can call: the read-only tools, proved against the interface of
    the client ([ReadOnlyVinctorClient]), the write tools, registered when the
    configuration asks for them, and the reports, which walk the pages of the audit
    trail.  Moments are read by [fromisoformat], with their offset. *)
From S2P Require Import Prelude PyStr PyDict PyTime Scope Models CoreAudit Sha256 Json.
From S2P Require Import Http PyUrl McpClient.

(** ** The clients *)

Class ReadOnlyVinctorClient (S : Type) := {
  rc_status : M S mapping;
  rc_list_boundaries : M S mapping;
  rc_get_boundary : string → M S mapping;
  rc_get_grant : string → M S mapping;
  rc_list_grants : option string → option string → M S mapping;
  rc_list_audit_events : AuditQueryArgs → M S mapping;
  rc_get_audit_event : string → M S mapping;
  rc_list_grant_requests : M S mapping;
  rc_get_grant_request : string → M S mapping;
  rc_list_auto_approval_rules : M S mapping;
  rc_list_service_auth_failures : Z → M S mapping
}.
Class WriteVinctorClient (S : Type) := {
  wc_approve_grant_request : string → option string → M S mapping;
  wc_reject_grant_request : string → option string → M S mapping;
  wc_auto_approve_grant_request : string → M S mapping;
  wc_revoke_grant : string → M S mapping;
  wc_issue_grant : string → list string → Z → M S mapping;
  wc_create_boundary : string → string → string → string → M S mapping;
  wc_enable_boundary : string → M S mapping;
  wc_disable_boundary : string → M S mapping;
  wc_create_auto_approval_rule : string → string → list string → Z → M S mapping;
  wc_disable_auto_approval_rule : string → M S mapping
}.
(** [datetime.now(UTC)] *)
Class UtcClock (S : Type) := utc_now : M S Z.

(** ** Reports: the events of a page *)

Definition _AuditPaginationError (msg : string) : pyexc := ServiceError ("_AuditPaginationError: " ^+ msg).
Definition _GRANT_LIFECYCLE_EVENT_TYPES : list string := ["grant_issued"; "grant_revoked"].

Record _AuditReportEvent := mkAuditReportEvent {
  re_payload : mapping;
  re_event_id : string;
  re_event_type : string;
  re_event_class : string;
  re_decision : string;
  re_workspace_id : string;
  re_agent_id : string;
  re_grant_id : string;
  re_grant_ref : string;
  re_boundary_id : option string;
  re_created_at : Z;
  re_sequence : Z
}.
Record _AuditReportPage := mkAuditReportPage {
  rp_events : list _AuditReportEvent;
  rp_snapshot_event_id : option string;
  rp_next_before_event_id : option string
}.
Definition invalid_events : pyexc := _AuditPaginationError "service returned invalid audit events".
Definition _required_audit_string (event : mapping) (field : string) (nonempty : bool) : result string :=
  match jget field event with
  | JStr value => if nonempty && (value == "") then Raise invalid_events else Ok value
  | _ => Raise invalid_events
  end.
Definition one_of (allowed : list string) (value : string) : result unit :=
  if existsb (String.eqb value) allowed then Ok tt else Raise invalid_events.
Definition _parse_audit_report_event (fields : list string) (raw_event : json) : result _AuditReportEvent :=
  match raw_event with
  | JObj event =>
      event_id ← _required_audit_string event "event_id" true;
      event_type ← _required_audit_string event "event_type" true;
      event_class ← _required_audit_string event "event_class" true;
      _ ← one_of ["control"; "decision"] event_class;
      decision ← _required_audit_string event "decision" true;
      _ ← one_of ["permit"; "deny"] decision;
      workspace_id ← _required_audit_string event "workspace_id" false;
      agent_id ← _required_audit_string event "agent_id" false;
      grant_id ← _required_audit_string event "grant_id" false;
      grant_ref ← _required_audit_string event "grant_ref" false;
      boundary_id ← match jget "boundary_id" event with
                    | JNull => Ok None
                    | JStr s => Ok (Some s)
                    | _ => Raise invalid_events
                    end;
      created_at_text ← _required_audit_string event "created_at" true;
      created_at ← match fromisoformat created_at_text with
                   | Ok t => Ok t
                   | Raise _ => Raise invalid_events
                   end;
      sequence ← match jget "sequence" event with
                 | JInt n => if n <? 1 then Raise invalid_events else Ok n
                 | _ => Raise invalid_events
                 end;
      Ok (mkAuditReportEvent (allowlist_object event fields) event_id event_type event_class decision
            workspace_id agent_id grant_id grant_ref boundary_id created_at sequence)
  | _ => Raise invalid_events
  end.
Definition _parse_audit_cursor (value : json) : result (option string) :=
  match value with
  | JNull => Ok None
  | JStr s => if s == "" then Raise (_AuditPaginationError "service returned an invalid audit page cursor")
              else Ok (Some s)
  | _ => Raise (_AuditPaginationError "service returned an invalid audit page cursor")
  end.
Definition no_metadata : pyexc := _AuditPaginationError "service omitted audit pagination metadata".
Definition _parse_audit_report_page (body : mapping) (fields : list string) : result _AuditReportPage :=
  match dget "audit_events" body with
  | Some (JList raw_events) =>
      events ← mapM (_parse_audit_report_event fields) raw_events;
      match dget "page" body with
      | Some (JObj page) =>
          match dget "snapshot_event_id" page, dget "next_before_event_id" page with
          | Some snapshot, Some next_before =>
              snapshot_event_id ← _parse_audit_cursor snapshot;
              next_before_event_id ← _parse_audit_cursor next_before;
              Ok (mkAuditReportPage events snapshot_event_id next_before_event_id)
          | _, _ => Raise no_metadata
          end
      | _ => Raise no_metadata
      end
  | _ => Raise invalid_events
  end.

(** ** Merging two timelines *)

(** [==] of two values: objects whatever their order, [True] equal to [1]. *)
Definition int_of (v : json) : option Z :=
  match v with JInt z => Some z | JBool b => Some (if b then 1 else 0) | _ => None end.
Fixpoint py_equal (a b : json) {struct a} : bool :=
  match a, b with
  | JNull, JNull => true
  | JStr s, JStr t => s == t
  | JList l, JList k =>
      (fix items l k := match l, k with
       | [], [] => true
       | x :: l', y :: k' => py_equal x y && items l' k'
       | _, _ => false
       end) l k
  | JObj d, JObj e =>
      (length d =? length e)%nat
      && (fix members d := match d with
          | [] => true
          | (key, x) :: d' => match dget key e with Some y => py_equal x y | None => false end && members d'
          end) d
  | _, _ => match int_of a, int_of b with Some x, Some y => x =? y | _, _ => false end
  end.
Definition same_event (a b : _AuditReportEvent) : bool :=
  py_equal (JObj (re_payload a)) (JObj (re_payload b))
  && (re_event_id a == re_event_id b) && (re_event_type a == re_event_type b)
  && (re_event_class a == re_event_class b) && (re_decision a == re_decision b)
  && (re_workspace_id a == re_workspace_id b) && (re_agent_id a == re_agent_id b)
  && (re_grant_id a == re_grant_id b) && (re_grant_ref a == re_grant_ref b)
  && bool_decide (re_boundary_id a = re_boundary_id b) && (re_created_at a =? re_created_at b)
  && (re_sequence a =? re_sequence b).
Definition inconsistent_chronology : pyexc :=
  _AuditPaginationError "service returned inconsistent audit chronology".
Definition merge_event (state : dict string _AuditReportEvent * dict Z string) (event : _AuditReportEvent) :
    result (dict string _AuditReportEvent * dict Z string) :=
  let '(events_by_id, event_ids_by_sequence) := state in
  if match dget (re_event_id event) events_by_id with
     | Some existing => negb (same_event existing event)
     | None => false
     end
  then Raise (_AuditPaginationError "service returned inconsistent overlapping audit events")
  else if match dget (re_sequence event) event_ids_by_sequence with
          | Some event_id => negb (event_id == re_event_id event)
          | None => false
          end
  then Raise inconsistent_chronology
  else Ok (dset (re_event_id event) event events_by_id,
           dset (re_sequence event) (re_event_id event) event_ids_by_sequence).
Fixpoint merge_from (state : dict string _AuditReportEvent * dict Z string) (events : list _AuditReportEvent) :
    result (dict string _AuditReportEvent * dict Z string) :=
  match events with
  | [] => Ok state
  | event :: events' => state ← merge_event state event; merge_from state events'
  end.
Definition sequence_leb (a b : _AuditReportEvent) : bool := re_sequence a <=? re_sequence b.
Definition _merge_audit_event_streams (streams : list (list _AuditReportEvent)) : result (list _AuditReportEvent) :=
  merged ← merge_from ([], []) (concat streams);
  Ok (py_sorted sequence_leb (dvalues merged.1)).

(** ** Explanations *)

Definition is_text_of (wanted : string) (v : json) : bool := match v with JStr s => s == wanted | _ => false end.
Definition explanations : dict string string :=
  [("action_denied", "Vinctor denied the request because the issued grant did not permit the requested action/resource.");
   ("boundary_inactive", "Vinctor denied the request because the boundary is disabled.");
   ("boundary_not_found", "Vinctor denied the request because the boundary was not found.");
   ("grant_expired", "Vinctor denied the request because the grant has expired.");
   ("grant_revoked", "Vinctor denied the request because the grant has been revoked.");
   ("invalid_action", "Vinctor denied the request because the action was invalid.");
   ("invalid_resource", "Vinctor denied the request because the resource was invalid.");
   ("invalid_grant_scope", "Vinctor denied the request because the grant scope was invalid.");
   ("no_applicable_grant", "Vinctor denied the request because no applicable issued grant matched.")].
Definition _denial_explanation (event : mapping) : string :=
  if negb (is_text_of "deny" (jget "decision" event)) then "This audit event is not a denial."
  else
    match jget "reason" event with
    | JStr reason =>
        default ("Vinctor denied the request with reason code " ^+ reason ^+ ".") (dget reason explanations)
    | _ => "Vinctor denied the request."
    end.
Definition is_none (v : json) : bool := match v with JNull => true | _ => false end.
Definition _missing_scope (event : mapping) : json :=
  if negb (is_text_of "deny" (jget "decision" event)) || negb (is_none (jget "scope_matched" event)) then JNull
  else match jget "scope_attempted" event with JStr s => JStr s | _ => JNull end.
Definition _clamp_audit_limit (limit : Z) : Z := Z.max 1 (Z.min limit 100).
Definition _clamp_auth_failure_limit (limit : Z) : Z := Z.max 1 (Z.min limit 200).

(** [body.get(field, [])], when it is a list; what of it are objects. *)
Definition items_of (field : string) (body : mapping) : list json :=
  match dget field body with Some (JList l) => l | _ => [] end.
Definition object_of (v : json) : option mapping := match v with JObj d => Some d | _ => None end.
Definition shaped (fields : list string) (l : list json) : json :=
  JList (map (λ d, JObj (allowlist_object d fields)) (omap object_of l)).
Definition payloads (events : list _AuditReportEvent) : json := JList (map (λ e, JObj (re_payload e)) events).
Definition strings_of (v : json) : option (list string) :=
  match v with
  | JList l => mapM (λ v, match v with JStr s => Some s | _ => None end) l
  | _ => None
  end.

(** ** The read-only tools *)

Section read_only.
Context {S : Type} `{!ReadOnlyVinctorClient S, !UtcClock S}.
Context (mode : OutputMode).
Definition _grant_fields : list string := fields_for_mode GRANT_SAFE_FIELDS GRANT_DIAGNOSTIC_FIELDS mode.
Definition _audit_fields : list string :=
  fields_for_mode AUDIT_EVENT_SAFE_FIELDS AUDIT_EVENT_DIAGNOSTIC_FIELDS mode.
Definition _grant_request_fields : list string :=
  fields_for_mode GRANT_REQUEST_SAFE_FIELDS GRANT_REQUEST_DIAGNOSTIC_FIELDS mode.
Definition _auto_approval_rule_fields : list string :=
  fields_for_mode AUTO_APPROVAL_RULE_SAFE_FIELDS AUTO_APPROVAL_RULE_DIAGNOSTIC_FIELDS mode.

Definition tool_status : M S mapping := body ← rc_status; mret (allowlist_object body STATUS_FIELDS).
Definition tool_list_boundaries : M S mapping :=
  body ← rc_list_boundaries; mret [("boundaries", shaped BOUNDARY_FIELDS (items_of "boundaries" body))].
Definition tool_get_boundary (boundary_id : string) : M S mapping :=
  body ← rc_get_boundary boundary_id; mret (allowlist_object body BOUNDARY_FIELDS).
Definition tool_get_grant (grant_ref : string) : M S mapping :=
  body ← rc_get_grant grant_ref; mret (allowlist_object body _grant_fields).
Definition tool_list_grants (agent_id status : option string) : M S mapping :=
  body ← rc_list_grants agent_id status; mret [("grants", shaped _grant_fields (items_of "grants" body))].
Definition tool_list_audit_events (args : AuditQueryArgs) : M S mapping :=
  _ ← lift (validate_audit_event_class (aq_event_class args));
  body ← rc_list_audit_events (mkAuditQueryArgs (_clamp_audit_limit (aq_limit args)) (aq_event_class args)
           (aq_event_type args) (aq_grant_ref args) (aq_boundary_id args) (aq_request_id args)
           (aq_agent_id args) (aq_reason_code args) (aq_enforcing_principal args)
           (aq_subject_token_verified args) false None None);
  mret [("audit_events", shaped _audit_fields (items_of "audit_events" body))].
Definition tool_get_audit_event (event_id : string) : M S mapping :=
  body ← rc_get_audit_event event_id; mret (allowlist_object body _audit_fields).
Definition tool_list_grant_requests (status : option string) : M S mapping :=
  body ← rc_list_grant_requests;
  let requests := omap object_of (items_of "grant_requests" body) in
  let requests := match status with
                  | Some status => List.filter (λ request, is_text_of status (jget "status" request)) requests
                  | None => requests
                  end in
  mret [("grant_requests", JList (map (λ d, JObj (allowlist_object d _grant_request_fields)) requests))].
Definition tool_get_grant_request (request_id : string) : M S mapping :=
  body ← rc_get_grant_request request_id; mret (allowlist_object body _grant_request_fields).
Definition tool_list_auto_approval_rules : M S mapping :=
  body ← rc_list_auto_approval_rules;
  mret [("auto_approval_rules", shaped _auto_approval_rule_fields (items_of "auto_approval_rules" body))].
Definition tool_list_service_auth_failures (limit : Z) : M S mapping :=
  body ← rc_list_service_auth_failures (_clamp_auth_failure_limit limit);
  mret [("auth_failures", shaped _audit_fields (items_of "auth_failures" body))].

Definition _active_unexpired_grant (grant : mapping) : M S bool :=
  if negb (is_text_of "active" (jget "status" grant)) then mret false
  else
    match jget "expires_at" grant with
    | JNull => mret true
    | JStr expires_at =>
        match fromisoformat expires_at with
        | Raise _ => mret false
        | Ok expiry => now ← utc_now; mret (now <? expiry)
        end
    | _ => mret false
    end.
Definition allowing (action resource : string) (grant : mapping) : M S (list string) :=
  active ← _active_unexpired_grant grant;
  if negb active then mret []
  else
    mret match strings_of (jget "scopes" grant), jget "grant_ref" grant with
         | Some scopes, JStr grant_ref =>
             if bool_decide (is_Some (match_scope scopes action resource)) then [grant_ref] else []
         | _, _ => []
         end.
Definition _would_be_allowed_by (event : mapping) : M S (list string) :=
  match mode with
  | safe => mret []
  | diagnostic =>
      if negb (is_text_of "deny" (jget "decision" event)) then mret []
      else
        match jget "action" event, jget "resource" event with
        | JStr action, JStr resource =>
            let agent_id := match jget "agent_id" event with JStr s => Some s | _ => None end in
            grants ← tool_list_grants agent_id (Some "active");
            allowed_by ← mapM (allowing action resource) (omap object_of (items_of "grants" grants));
            mret (concat allowed_by)
        | _, _ => mret []
        end
  end.
Definition explain_denial (event_id : string) : M S mapping :=
  event ← tool_get_audit_event event_id;
  let body := [("event_id", jget "event_id" event); ("decision", jget "decision" event);
               ("reason", jget "reason" event); ("action", jget "action" event);
               ("resource", jget "resource" event); ("boundary_id", jget "boundary_id" event);
               ("grant_ref", jget "grant_ref" event); ("explanation", JStr (_denial_explanation event))] in
  match mode with
  | safe => mret body
  | diagnostic =>
      allowed_by ← _would_be_allowed_by event;
      mret (body ++ [("scope_attempted", jget "scope_attempted" event);
                     ("scope_matched", jget "scope_matched" event);
                     ("missing_scope", _missing_scope event); ("would_be_allowed_by", jstrs allowed_by)])
  end.

(** The ids of a page, none of which was seen before. *)
Fixpoint unseen (seen : list string) (page : list _AuditReportEvent) : result (list string) :=
  match page with
  | [] => Ok seen
  | event :: page' =>
      if existsb (String.eqb (re_event_id event)) seen
      then Raise (_AuditPaginationError "service returned a duplicate audit event")
      else unseen (re_event_id event :: seen) page'
  end.
Definition incoherent_snapshot : pyexc :=
  _AuditPaginationError "service returned an incoherent audit snapshot cursor".
Definition coherent_snapshot (snapshot raw_snapshot : option string) (page : list _AuditReportEvent) :
    result (option string) :=
  match snapshot with
  | None =>
      match last page with
      | None => if bool_decide (is_Some raw_snapshot) then Raise incoherent_snapshot else Ok raw_snapshot
      | Some event =>
          if negb (bool_decide (raw_snapshot = Some (re_event_id event))) then Raise incoherent_snapshot
          else Ok raw_snapshot
      end
  | Some _ =>
      if negb (bool_decide (raw_snapshot = snapshot))
      then Raise (_AuditPaginationError "service changed the audit snapshot cursor")
      else Ok snapshot
  end.
Definition invalid_page_cursor : pyexc := _AuditPaginationError "service returned an invalid audit page cursor".
Definition report_query (grant_ref boundary_id request_id snapshot before : option string) : AuditQueryArgs :=
  mkAuditQueryArgs 100 None None grant_ref boundary_id request_id None None None None true snapshot before.
(** The pages, newest first.  [fuel] bounds how many are asked for. *)
Fixpoint collect_pages (fuel : nat) (grant_ref boundary_id request_id : option string)
    (snapshot before : option string) (seen_cursors seen_event_ids : list string) :
    M S (list (list _AuditReportEvent)) :=
  match fuel with
  | O => raise (RuntimeError "out of fuel")
  | Datatypes.S fuel =>
      body ← rc_list_audit_events (report_query grant_ref boundary_id request_id snapshot before);
      page ← lift (_parse_audit_report_page body _audit_fields);
      let page_events := rp_events page in
      if bool_decide (is_Some before) && bool_decide (page_events = [])
      then raise (_AuditPaginationError "service returned an empty audit continuation page")
      else
        seen_event_ids ← lift (unseen seen_event_ids page_events);
        snapshot ← lift (coherent_snapshot snapshot (rp_snapshot_event_id page) page_events);
        match rp_next_before_event_id page with
        | None => mret [page_events]
        | Some next_before =>
            match snapshot, page_events with
            | Some _, event :: _ =>
                if existsb (String.eqb next_before) seen_cursors || negb (re_event_id event == next_before)
                then raise invalid_page_cursor
                else
                  older ← collect_pages fuel grant_ref boundary_id request_id snapshot (Some next_before)
                            (next_before :: seen_cursors) seen_event_ids;
                  mret (page_events :: older)
            | _, _ => raise invalid_page_cursor
            end
        end
  end.
Fixpoint chronological (events : list _AuditReportEvent) : bool :=
  match events with
  | previous :: (current :: _) as rest => (re_sequence previous <? re_sequence current) && chronological rest
  | _ => true
  end.
Definition _complete_audit_events (fuel : nat) (grant_ref boundary_id request_id : option string) :
    M S (list _AuditReportEvent) :=
  pages ← collect_pages fuel grant_ref boundary_id request_id None None [] [];
  let complete := concat (rev pages) in
  if negb (chronological complete) then raise inconsistent_chronology else mret complete.

Definition is_lifecycle (event : _AuditReportEvent) : bool :=
  existsb (String.eqb (re_event_type event)) _GRANT_LIFECYCLE_EVENT_TYPES.
Definition grant_report (fuel : nat) (grant_ref : string) : M S mapping :=
  grant ← tool_get_grant grant_ref;
  events ← _complete_audit_events fuel (Some grant_ref) None None;
  mret [("grant", JObj grant); ("lifecycle", payloads (List.filter is_lifecycle events));
        ("usage", payloads (List.filter (λ e, negb (is_lifecycle e)) events))].
Definition how_many (p : _AuditReportEvent → bool) (events : list _AuditReportEvent) : json :=
  JInt (Z.of_nat (length (List.filter p events))).
Definition boundary_report (fuel : nat) (boundary_id : string) : M S mapping :=
  boundary ← tool_get_boundary boundary_id;
  events ← _complete_audit_events fuel None (Some boundary_id) None;
  let decision_events := List.filter (λ e, re_event_class e == "decision") events in
  let control_events := List.filter (λ e, re_event_class e == "control") events in
  mret [("boundary", JObj boundary);
        ("activity", JObj [("permit", how_many (λ e, re_decision e == "permit") decision_events);
                           ("deny", how_many (λ e, re_decision e == "deny") decision_events)]);
        ("control_changes", JObj [("count", how_many (λ _, true) control_events);
                                  ("timeline", payloads control_events)]);
        ("recent", payloads events)].
Definition grant_request_report (fuel : nat) (request_id : string) : M S mapping :=
  request ← tool_get_grant_request request_id;
  timeline ← _complete_audit_events fuel None None (Some request_id);
  match as_text (jget "issued_grant_ref" request) with
  | None => mret [("grant_request", JObj request); ("timeline", payloads timeline)]
  | Some grant_ref =>
      grant ← tool_get_grant grant_ref;
      grant_events ← _complete_audit_events fuel (Some grant_ref) None None;
      merged ← lift (_merge_audit_event_streams [timeline; grant_events]);
      mret [("grant_request", JObj request); ("timeline", payloads merged); ("grant", JObj grant)]
  end.
End read_only.
