(* ===== verification/McpServer.v ===== *)
(** * The MCP server ([src/vinctor_mcp_server/tools.py], [server.py])

    The write tools, the registration of the tools, and the server made of a
    configuration.  The theorem: a server whose configuration does not ask for
    write tools only reads, whatever is called with whatever arguments, and shows
    nothing but the fields of its mode. *)
From S2P Require Import Prelude PyStr PyDict PyTime Scope Models CoreAudit Sha256 Json.
From S2P Require Import Http AuditHttp PyUrl McpClient McpTools.

(** ** The write tools *)

Section write.
Context {S : Type} `{!WriteVinctorClient S}.
Context (mode : OutputMode).
Definition with_audit_id (body shaped : mapping) : mapping :=
  dset "audit_event_id" (jget "audit_event_id" body) shaped.
Definition _shape_decision (body : mapping) : mapping :=
  let shaped := with_audit_id body (allowlist_object body (_grant_request_fields mode)) in
  match dget "grant" body with
  | Some (JObj grant) => dset "grant" (JObj (allowlist_object grant (_grant_fields mode))) shaped
  | _ => shaped
  end.
Definition tool_approve_grant_request (request_id : string) (reason : option string) : M S mapping :=
  body ← wc_approve_grant_request request_id reason; mret (_shape_decision body).
Definition tool_reject_grant_request (request_id : string) (reason : option string) : M S mapping :=
  body ← wc_reject_grant_request request_id reason; mret (_shape_decision body).
Definition tool_auto_approve_grant_request (request_id : string) : M S mapping :=
  body ← wc_auto_approve_grant_request request_id;
  let shaped := _shape_decision body in
  mret match dget "auto_approval" body with
       | Some (JObj evaluation) =>
           dset "auto_approval" (JObj (allowlist_object evaluation AUTO_APPROVAL_EVALUATION_FIELDS)) shaped
       | _ => shaped
       end.
Definition tool_revoke_grant (grant_ref : string) : M S mapping :=
  body ← wc_revoke_grant grant_ref; mret (with_audit_id body (allowlist_object body (_grant_fields mode))).
Definition tool_issue_grant (agent_id : string) (scopes : list string) (ttl_seconds : Z) : M S mapping :=
  body ← wc_issue_grant agent_id scopes ttl_seconds;
  mret (with_audit_id body (allowlist_object body (_grant_fields mode))).
Definition tool_create_boundary (name runtime boundary_type boundary_mode : string) : M S mapping :=
  body ← wc_create_boundary name runtime boundary_type boundary_mode; mret (allowlist_object body BOUNDARY_FIELDS).
Definition tool_enable_boundary (boundary_id : string) : M S mapping :=
  body ← wc_enable_boundary boundary_id; mret (allowlist_object body BOUNDARY_FIELDS).
Definition tool_disable_boundary (boundary_id : string) : M S mapping :=
  body ← wc_disable_boundary boundary_id; mret (allowlist_object body BOUNDARY_FIELDS).
Definition tool_create_auto_approval_rule (name target_agent_id : string) (allowed_scopes : list string)
    (max_ttl_seconds : Z) : M S mapping :=
  body ← wc_create_auto_approval_rule name target_agent_id allowed_scopes max_ttl_seconds;
  mret (allowlist_object body (_auto_approval_rule_fields mode)).
Definition tool_disable_auto_approval_rule (rule_id : string) : M S mapping :=
  body ← wc_disable_auto_approval_rule rule_id;
  mret (allowlist_object body (_auto_approval_rule_fields mode)).
End write.

(** ** Registration *)

(** What a tool takes. *)
Inductive Handler (S : Type) :=
  | Nullary (f : M S mapping)
  | OfText (f : string → M S mapping)
  | OfOptional (f : option string → M S mapping)
  | OfFilters (f : option string → option string → M S mapping)
  | OfLimit (f : Z → M S mapping)
  | OfQuery (f : AuditQueryArgs → M S mapping)
  | OfDecision (f : string → option string → M S mapping)
  | OfGrant (f : string → list string → Z → M S mapping)
  | OfBoundary (f : string → string → string → string → M S mapping)
  | OfRule (f : string → string → list string → Z → M S mapping).
Arguments Nullary {S}. Arguments OfText {S}. Arguments OfOptional {S}. Arguments OfFilters {S}.
Arguments OfLimit {S}. Arguments OfQuery {S}. Arguments OfDecision {S}. Arguments OfGrant {S}.
Arguments OfBoundary {S}. Arguments OfRule {S}.
Record Tool (S : Type) := mkTool {
  t_name : string;
  t_description : string;
  t_handler : Handler S
}.
Arguments mkTool {S}. Arguments t_name {S}. Arguments t_description {S}. Arguments t_handler {S}.
(** A call of a tool with some arguments. *)
Inductive calls {S} : Handler S → M S mapping → Prop :=
  | call_nullary f : calls (Nullary f) f
  | call_text f x : calls (OfText f) (f x)
  | call_optional f x : calls (OfOptional f) (f x)
  | call_filters f x y : calls (OfFilters f) (f x y)
  | call_limit f n : calls (OfLimit f) (f n)
  | call_query f q : calls (OfQuery f) (f q)
  | call_decision f x y : calls (OfDecision f) (f x y)
  | call_grant f x l n : calls (OfGrant f) (f x l n)
  | call_boundary f x y z w : calls (OfBoundary f) (f x y z w)
  | call_rule f x y l n : calls (OfRule f) (f x y l n).

Section register.
Context {S : Type} `{!ReadOnlyVinctorClient S, !WriteVinctorClient S, !UtcClock S}.
(** [fuel] bounds the pages of a report. *)
Context (fuel : nat) (mode : OutputMode).
Definition register_read_only_tools : list (Tool S) :=
  [mkTool "vinctor_status"
      ("Read-only Vinctor service status. Output is model-visible and limited to safe status fields.")
      (Nullary tool_status);
   mkTool "vinctor_list_boundaries"
      ("Read-only list of Vinctor runtime boundaries. Does not call /v1/enforce.")
      (Nullary tool_list_boundaries);
   mkTool "vinctor_get_boundary"
      ("Read-only Vinctor boundary lookup by boundary_id. Does not execute actions.")
      (OfText tool_get_boundary);
   mkTool "vinctor_get_grant"
      ("Read-only Vinctor grant lookup by grant_ref. Does not issue or revoke grants.")
      (OfText (tool_get_grant mode));
   mkTool "vinctor_list_grants"
      ("Read-only workspace grant lookup with optional agent_id and status filters. Does not issue " ^+
       "or revoke grants.")
      (OfFilters (tool_list_grants mode));
   mkTool "vinctor_list_audit_events"
      ("Read-only Vinctor audit lookup with safe filters, including event_class (control or " ^+
       "decision). Uses a 1..100 cap on limit. Output is model-visible and omits raw payloads, " ^+
       "prompts, commands, keys, hashes, and service internals.")
      (OfQuery (tool_list_audit_events mode));
   mkTool "vinctor_get_audit_event"
      ("Read-only Vinctor audit event lookup by event_id. Output uses an allowlist.")
      (OfText (tool_get_audit_event mode));
   mkTool "vinctor_list_grant_requests"
      ("Read-only workspace grant request queue lookup with an optional status filter. Does not " ^+
       "approve, reject, auto-approve, issue, or revoke grants.")
      (OfOptional (tool_list_grant_requests mode));
   mkTool "vinctor_get_grant_request"
      ("Read-only grant request lookup by request_id. Does not decide the request.")
      (OfText (tool_get_grant_request mode));
   mkTool "vinctor_list_auto_approval_rules"
      ("Read-only auto-approval rule lookup. Does not create, disable, or evaluate rules.")
      (Nullary (tool_list_auto_approval_rules mode));
   mkTool "vinctor_list_service_auth_failures"
      ("Read-only global authentication-failure audit lookup using the dedicated service-operator " ^+
       "credential. Uses a 1..200 cap on limit; output is allowlist-shaped and omits credentials and " ^+
       "raw payloads.")
      (OfLimit (tool_list_service_auth_failures mode));
   mkTool "vinctor_explain_denial"
      ("Explain a denied Vinctor audit event from service reason codes. Does not call /v1/enforce.")
      (OfText (explain_denial mode));
   mkTool "vinctor_grant_report"
      ("Inspect a grant's authorization state: returns the grant (status, expiry) plus its audit " ^+
       "timeline partitioned into lifecycle (issued/revoked) and usage (enforcement decisions). " ^+
       "Read-only; output is allowlist-shaped and omits raw keys, hashes, and service internals.")
      (OfText (grant_report mode fuel));
   mkTool "vinctor_boundary_report"
      ("Inspect a boundary's authorization activity: returns the boundary plus a permit/deny summary " ^+
       "of agent decisions, a separate control-mutation timeline (registration/status changes), and " ^+
       "recent audit events for it. Read-only; output is allowlist-shaped and omits raw keys, " ^+
       "hashes, and service internals.")
      (OfText (boundary_report mode fuel));
   mkTool "vinctor_grant_request_report"
      ("Inspect a grant request and its correlated audit timeline, including the issued grant and " ^+
       "grant audit events when present. Read-only; output is allowlist-shaped and omits raw keys, " ^+
       "hashes, and service internals.")
      (OfText (grant_request_report mode fuel))].
Definition register_write_tools : list (Tool S) :=
  [mkTool "vinctor_approve_grant_request"
      ("Operator write action: approve a pending grant request by request_id via the workspace-key " ^+
       "authorized operator endpoint. The service authenticates, audits the decision (returns " ^+
       "audit_event_id), and prevents execution agents from approving their own requests. Output is " ^+
       "allowlist-shaped and omits raw keys, hashes, and service internals.")
      (OfDecision (tool_approve_grant_request mode));
   mkTool "vinctor_reject_grant_request"
      ("Operator write action: reject a pending grant request by request_id via the workspace-key " ^+
       "authorized operator endpoint. The service authenticates, audits the decision (returns " ^+
       "audit_event_id), and prevents execution agents from deciding their own requests. Output is " ^+
       "allowlist-shaped and omits raw keys, hashes, and service internals.")
      (OfDecision (tool_reject_grant_request mode));
   mkTool "vinctor_auto_approve_grant_request"
      ("Operator write action: evaluate and auto-approve a pending grant request by request_id via " ^+
       "active workspace rules. The service authenticates, enforces rule and issuable-scope bounds, " ^+
       "and audits successful issuance. Output is allowlist-shaped.")
      (OfText (tool_auto_approve_grant_request mode));
   mkTool "vinctor_revoke_grant"
      ("Operator write action: revoke an active grant by grant_ref via the workspace-key authorized " ^+
       "operator endpoint. The service authenticates and audits the revocation (returns " ^+
       "audit_event_id); the MCP server issues nothing. Output is allowlist-shaped and omits raw " ^+
       "keys, hashes, and service internals.")
      (OfText (tool_revoke_grant mode));
   mkTool "vinctor_issue_grant"
      ("Operator write action: issue a grant for an agent (agent_id, scopes, ttl_seconds) via the " ^+
       "workspace-key authorized operator endpoint. The service authenticates, enforces the " ^+
       "workspace's issuable-scope bounds and max TTL, and audits the issuance (returns " ^+
       "audit_event_id); the MCP server mints nothing. Output is allowlist-shaped and omits raw " ^+
       "keys, hashes, and service internals.")
      (OfGrant (tool_issue_grant mode));
   mkTool "vinctor_create_boundary"
      ("Operator write action: create a runtime boundary via the workspace-key authorized endpoint. " ^+
       "Output is allowlist-shaped.")
      (OfBoundary tool_create_boundary);
   mkTool "vinctor_enable_boundary"
      ("Operator write action: enable a boundary by boundary_id via the workspace-key authorized " ^+
       "endpoint. Output is allowlist-shaped.")
      (OfText tool_enable_boundary);
   mkTool "vinctor_disable_boundary"
      ("Operator write action: disable a boundary by boundary_id via the workspace-key authorized " ^+
       "endpoint. Output is allowlist-shaped.")
      (OfText tool_disable_boundary);
   mkTool "vinctor_create_auto_approval_rule"
      ("Operator write action: create an auto-approval rule via the workspace-key authorized " ^+
       "endpoint. Output is allowlist-shaped and scope detail follows the configured output mode.")
      (OfRule (tool_create_auto_approval_rule mode));
   mkTool "vinctor_disable_auto_approval_rule"
      ("Operator write action: disable an auto-approval rule by rule_id via the workspace-key " ^+
       "authorized endpoint. Output is allowlist-shaped.")
      (OfText (tool_disable_auto_approval_rule mode))].
End register.

(** ** The client behind the tools *)

Section instances.
Context {S : Type} `{!Transport S} (repr : json → string) (client : VinctorServiceClient).
Definition reading_client : ReadOnlyVinctorClient S := {|
  rc_status := cl_status repr client;
  rc_list_boundaries := cl_list_boundaries repr client;
  rc_get_boundary := cl_get_boundary repr client;
  rc_get_grant := cl_get_grant repr client;
  rc_list_grants := cl_list_grants repr client;
  rc_list_audit_events := cl_list_audit_events repr client;
  rc_get_audit_event := cl_get_audit_event repr client;
  rc_list_grant_requests := cl_list_grant_requests repr client;
  rc_get_grant_request := cl_get_grant_request repr client;
  rc_list_auto_approval_rules := cl_list_auto_approval_rules repr client;
  rc_list_service_auth_failures := cl_list_service_auth_failures repr client
|}.
Definition writing_client : WriteVinctorClient S := {|
  wc_approve_grant_request := cl_approve_grant_request repr client;
  wc_reject_grant_request := cl_reject_grant_request repr client;
  wc_auto_approve_grant_request := cl_auto_approve_grant_request repr client;
  wc_revoke_grant := cl_revoke_grant repr client;
  wc_issue_grant := cl_issue_grant repr client;
  wc_create_boundary := cl_create_boundary repr client;
  wc_enable_boundary := cl_enable_boundary repr client;
  wc_disable_boundary := cl_disable_boundary repr client;
  wc_create_auto_approval_rule := cl_create_auto_approval_rule repr client;
  wc_disable_auto_approval_rule := cl_disable_auto_approval_rule repr client
|}.
End instances.

Definition create_stdio_server {S} `{!Transport S, !UtcClock S} (int_unicode : string → result Z)
    (bracketed_netloc : string → bool) (repr : json → string) (fuel : nat) (env : dict string string) :
    result (list (Tool S)) :=
  config ← load_config int_unicode env;
  client ← new_client bracketed_netloc (mc_endpoint config) (mc_workspace_key config)
             (mc_service_operator_key config) (mc_timeout config);
  let _ := reading_client repr client in
  let _ := writing_client repr client in
  Ok (register_read_only_tools fuel (mc_output_mode config)
      ++ (if mc_write_enabled config then register_write_tools (mc_output_mode config) else [])).

(** ** Specification *)

Definition structure : list string :=
  ["boundaries"; "grants"; "audit_events"; "grant_requests"; "auto_approval_rules"; "auth_failures";
   "explanation"; "grant"; "lifecycle"; "usage"; "boundary"; "activity"; "permit"; "deny";
   "control_changes"; "count"; "timeline"; "recent"; "grant_request"].
Definition visible (mode : OutputMode) : list string :=
  structure ++ STATUS_FIELDS ++ BOUNDARY_FIELDS ++ GRANT_SAFE_FIELDS ++ AUDIT_EVENT_SAFE_FIELDS
  ++ GRANT_REQUEST_SAFE_FIELDS ++ AUTO_APPROVAL_RULE_SAFE_FIELDS
  ++ match mode with
     | safe => []
     | diagnostic => GRANT_DIAGNOSTIC_FIELDS ++ AUDIT_EVENT_DIAGNOSTIC_FIELDS ++ GRANT_REQUEST_DIAGNOSTIC_FIELDS
                     ++ AUTO_APPROVAL_RULE_DIAGNOSTIC_FIELDS ++ ["missing_scope"; "would_be_allowed_by"]
     end.
(** Whether every field of every object in a value is one of [fields]. *)
Fixpoint only_fields (fields : list string) (v : json) : bool :=
  match v with
  | JList l => forallb (only_fields fields) l
  | JObj d => forallb (λ kv, existsb (String.eqb kv.1) fields && only_fields fields kv.2) d
  | _ => true
  end.
(** A request that asks to read, with the keys it may carry. *)
Definition reads (workspace_key : string) (service_operator_key : option string) (rq : WireRequest) : Prop :=
  wr_method rq = "GET" ∧ wr_body rq = None ∧ startswith (wr_path rq) "/v1/enforce" = false ∧
  (wr_headers rq = [] ∨ wr_headers rq = [("X-Workspace-Key", workspace_key)] ∨
   ∃ key, service_operator_key = Some key ∧ wr_headers rq = [("X-Service-Operator-Key", key)] ∧
     startswith (wr_path rq) "/v1/service/audit/auth-failures?" = true).

(** ** What operations keep and give *)

Definition yields {S A} (Q : A → Prop) (m : M S A) : Prop := ∀ s a s', m s = (Ok a, s') → Q a.
Lemma yields_ret {S A} (Q : A → Prop) (a : A) : Q a → yields (S:=S) Q (mret a).
Proof. by intros Ha s b s' [= <- _]. Qed.
Lemma yields_raise {S A} (Q : A → Prop) e : yields (S:=S) Q (raise e).
Proof. by intros s b s'. Qed.
Lemma yields_lift {S A} (Q : A → Prop) r : (∀ a, r = Ok a → Q a) → yields (S:=S) Q (lift r).
Proof. intros Hr s a s' [-> _]%lift_run. by apply Hr. Qed.
Lemma yields_bind {S A B} (P : A → Prop) (Q : B → Prop) (m : M S A) (f : A → M S B) :
  yields P m → (∀ a, P a → yields Q (f a)) → yields Q (m ≫= f).
Proof. intros Hm Hf s b s' (a & s1 & Ha & Hb)%bind_Ok_inv. eapply Hf; [by eapply Hm|done]. Qed.
Lemma yields_any {S A B} (Q : B → Prop) (m : M S A) (f : A → M S B) :
  (∀ a, yields Q (f a)) → yields Q (m ≫= f).
Proof. intros Hf. by apply (yields_bind (λ _, True)). Qed.

(** What is confined to the fields a mode shows. *)
Definition confined (mode : OutputMode) (m : mapping) : Prop := only_fields (visible mode) (JObj m) = true.
Lemma only_fields_scalar fields k v : _allowlisted_value k v = Some v → only_fields fields v = true.
Proof.
  unfold _allowlisted_value. destruct (existsb _ LIST_OF_STRING_FIELDS).
  { destruct v as [| | | |l|]; try done. intros [= E]. cbn. rewrite <-E. apply forallb_forall.
    intros x [_ Hx]%filter_In. by destruct x. }
  destruct (existsb _ INTEGER_FIELDS); [by destruct v|]. destruct (existsb _ BOOLEAN_FIELDS); by destruct v.
Qed.
Lemma allowlist_wf data fields : dict_wf (allowlist_object data fields).
Proof.
  unfold allowlist_object. assert (Hgen : ∀ acc, dict_wf acc → dict_wf (foldl (allow_field data) acc fields)).
  { induction fields as [|f l IH]; intros acc Hacc; [done|]. cbn [foldl]. apply IH. unfold allow_field.
    destruct (dget f data); [|done]. destruct (_allowlisted_value _ _); [|done]. by apply dset_wf. }
  apply Hgen. constructor.
Qed.
Lemma allowlist_confined mode data fields :
  (∀ f, f ∈ fields → existsb (String.eqb f) (visible mode) = true) → confined mode (allowlist_object data fields).
Proof.
  intros Hf. unfold confined. cbn [only_fields]. apply forallb_forall. intros [k v] Hin.
  apply list_elem_of_In, dget_elem_iff in Hin; [|apply allowlist_wf].
  apply allowlist_shows in Hin as [Hk Hv]. cbn [fst snd]. rewrite (Hf k Hk). by apply (only_fields_scalar _ k).
Qed.
(** The lists of fields of the tools are among those shown. *)
Definition shown (mode : OutputMode) (fields : list string) : Prop :=
  forallb (λ f, existsb (String.eqb f) (visible mode)) fields = true.
Lemma shown_confined mode fields data : shown mode fields → confined mode (allowlist_object data fields).
Proof.
  intros Hs. apply allowlist_confined. intros f Hin. unfold shown in Hs. rewrite forallb_forall in Hs.
  by apply Hs, list_elem_of_In.
Qed.
Lemma shaped_confined mode fields l : shown mode fields → only_fields (visible mode) (shaped fields l) = true.
Proof.
  intros Hs. unfold shaped. cbn [only_fields]. apply forallb_forall. intros v (d & <- & _)%in_map_iff.
  by apply shown_confined.
Qed.
Lemma confined_get mode m k : confined mode m → only_fields (visible mode) (jget k m) = true.
Proof.
  unfold confined, jget. cbn [only_fields]. rewrite forallb_forall. intros Hm.
  destruct (dget k m) as [v|] eqn:E; [|done]. cbn. apply dget_elem in E. apply list_elem_of_In in E.
  specialize (Hm _ E). by apply andb_true_iff in Hm as [_ Hv].
Qed.
Definition payload_confined (mode : OutputMode) (e : _AuditReportEvent) : Prop := confined mode (re_payload e).
Lemma payloads_confined mode events : Forall (payload_confined mode) events →
  only_fields (visible mode) (payloads events) = true.
Proof.
  intros Hev. unfold payloads. cbn [only_fields]. apply forallb_forall. intros v (e & <- & He)%in_map_iff.
  rewrite Forall_forall in Hev. by apply Hev, list_elem_of_In.
Qed.
Lemma payloads_filtered mode p events : Forall (payload_confined mode) events →
  only_fields (visible mode) (payloads (List.filter p events)) = true.
Proof.
  intros Hev. apply payloads_confined. rewrite Forall_forall in Hev |- *. intros e He. apply Hev.
  by apply list_elem_of_In, filter_In in He as [He%list_elem_of_In _].
Qed.

(** ** The read-only tools, against the interface of the client *)

(** Every operation of a client keeps [R]. *)
Record ReadingOk {S} (R : S → S → Prop) `{!ReadOnlyVinctorClient S, !UtcClock S} : Prop := {
  rk_status : keeps R rc_status;
  rk_list_boundaries : keeps R rc_list_boundaries;
  rk_get_boundary x : keeps R (rc_get_boundary x);
  rk_get_grant x : keeps R (rc_get_grant x);
  rk_list_grants x y : keeps R (rc_list_grants x y);
  rk_list_audit_events q : keeps R (rc_list_audit_events q);
  rk_get_audit_event x : keeps R (rc_get_audit_event x);
  rk_list_grant_requests : keeps R rc_list_grant_requests;
  rk_get_grant_request x : keeps R (rc_get_grant_request x);
  rk_list_auto_approval_rules : keeps R rc_list_auto_approval_rules;
  rk_list_service_auth_failures n : keeps R (rc_list_service_auth_failures n);
  rk_utc_now : keeps R utc_now
}.
#[export] Hint Resolve rk_status rk_list_boundaries rk_get_boundary rk_get_grant rk_list_grants
  rk_list_audit_events rk_get_audit_event rk_list_grant_requests rk_get_grant_request
  rk_list_auto_approval_rules rk_list_service_auth_failures rk_utc_now : keeps.

(** Follow an operation through its binds and branches. *)
Ltac keeping :=
  repeat first
    [ progress (cbv zeta)
    | apply keeps_ret; exact _ | apply keeps_raise; exact _ | apply keeps_lift; exact _
    | solve [eauto with keeps]
    | apply keeps_bind; [exact _| |intros ?]
    | apply keeps_mapM; [exact _|intros ? _]
    | match goal with |- keeps _ (match ?x with _ => _ end) => destruct x end
    | match goal with |- keeps _ (if ?x then _ else _) => destruct x end ].

Section tools.
Context {S : Type} `{!ReadOnlyVinctorClient S, !UtcClock S}.
Section kept.
Context (R : S → S → Prop) `{!PreOrder R} (HR : ReadingOk R).
Lemma keeps_collect mode fuel g b r snapshot before cursors ids :
  keeps R (collect_pages mode fuel g b r snapshot before cursors ids).
Proof.
  revert snapshot before cursors ids.
  induction fuel as [|fuel IH]; intros snapshot before cursors ids; cbn [collect_pages]; [keeping|].
  keeping; apply IH.
Qed.
Lemma keeps_complete mode fuel g b r : keeps R (_complete_audit_events mode fuel g b r).
Proof. unfold _complete_audit_events. apply keeps_bind; [exact _|apply keeps_collect|intros pages]. keeping. Qed.
Lemma keeps_get_grant mode g : keeps R (tool_get_grant mode g).
Proof. unfold tool_get_grant. keeping. Qed.
Lemma keeps_allowed mode event : keeps R (_would_be_allowed_by mode event).
Proof. unfold _would_be_allowed_by, tool_list_grants, allowing, _active_unexpired_grant. keeping. Qed.
#[local] Hint Resolve keeps_complete keeps_get_grant keeps_allowed : keeps.
Lemma keeps_read_only mode fuel tool call : tool ∈ register_read_only_tools fuel mode →
  calls (t_handler tool) call → keeps R call.
Proof.
  intros Hin Hcall. unfold register_read_only_tools in Hin.
  repeat (apply elem_of_cons in Hin as [->|Hin]); [..|by apply elem_of_nil in Hin];
    cbn [t_handler] in Hcall; inversion Hcall; subst; clear Hcall;
    unfold tool_status, tool_list_boundaries, tool_get_boundary, tool_list_grants, tool_list_audit_events, tool_get_audit_event,
      tool_list_grant_requests, tool_get_grant_request, tool_list_auto_approval_rules, tool_list_service_auth_failures,
      explain_denial, tool_get_audit_event, grant_report, boundary_report, grant_request_report,
      tool_get_boundary, tool_get_grant_request;
    keeping.
Qed.
End kept.

(** *** What the tools show *)

Lemma shown_fields mode :
  shown mode STATUS_FIELDS ∧ shown mode BOUNDARY_FIELDS ∧ shown mode (_grant_fields mode) ∧
  shown mode (_audit_fields mode) ∧ shown mode (_grant_request_fields mode) ∧
  shown mode (_auto_approval_rule_fields mode).
Proof. by destruct mode. Qed.
Ltac shows := match goal with |- shown ?m _ => destruct (shown_fields m) as (?&?&?&?&?&?); assumption end.
Lemma confined_cons mode k v m : existsb (String.eqb k) (visible mode) = true →
  only_fields (visible mode) v = true → confined mode m → confined mode ((k, v) :: m).
Proof. unfold confined. cbn [only_fields forallb fst snd]. by intros -> -> ->. Qed.
Lemma parsed_event_confined mode raw event :
  _parse_audit_report_event (_audit_fields mode) raw = Ok event → payload_confined mode event.
Proof.
  unfold _parse_audit_report_event. destruct raw as [| | | | |d]; try done. intros H.
  repeat (apply result_bind_inv in H as (? & _ & H)). injection H as <-. apply shown_confined. shows.
Qed.
Lemma parsed_page_confined mode body page :
  _parse_audit_report_page body (_audit_fields mode) = Ok page → Forall (payload_confined mode) (rp_events page).
Proof.
  unfold _parse_audit_report_page. destruct (dget "audit_events" body) as [[| | | |raw|]|]; try done.
  intros H. apply result_bind_inv in H as (events & Hev & H).
  destruct (dget "page" body) as [[| | | | |d]|]; try done.
  destruct (dget "snapshot_event_id" d); [|done]. destruct (dget "next_before_event_id" d); [|done].
  apply result_bind_inv in H as (sn & _ & H). apply result_bind_inv in H as (nb & _ & H). injection H as <-.
  cbn [rp_events]. clear d sn nb. revert events Hev. induction raw as [|v raw IH]; intros events Hev; cbn [mapM] in Hev.
  { injection Hev as <-. constructor. }
  apply result_bind_inv in Hev as (e & He & Hev). apply result_bind_inv in Hev as (es & Hes & Hret).
  injection Hret as <-. constructor; [by eapply parsed_event_confined|by apply IH].
Qed.
Lemma collected_confined mode fuel g b r snapshot before cursors ids :
  yields (Forall (Forall (payload_confined mode))) (collect_pages mode fuel g b r snapshot before cursors ids).
Proof.
  revert snapshot before cursors ids. induction fuel as [|fuel IH]; intros; cbn [collect_pages]; [apply yields_raise|].
  apply yields_any. intros body. eapply yields_bind; [apply yields_lift; intros page; exact (parsed_page_confined mode body page)|].
  cbv beta zeta. intros page Hpage. destruct (_ && _); [apply yields_raise|].
  apply yields_any. intros seen. apply yields_any. intros sn.
  destruct (rp_next_before_event_id page) as [nb|]; [|apply yields_ret; by repeat constructor].
  destruct sn as [s|]; [|apply yields_raise]. destruct (rp_events page) as [|e es]; [apply yields_raise|].
  destruct (_ || _); [apply yields_raise|]. eapply yields_bind; [apply IH|]. intros older Ho.
  apply yields_ret. by constructor.
Qed.
Lemma complete_confined mode fuel g b r :
  yields (Forall (payload_confined mode)) (_complete_audit_events mode fuel g b r).
Proof.
  unfold _complete_audit_events. eapply yields_bind; [apply collected_confined|]. intros pages Hp. cbv beta zeta.
  destruct (negb _); [apply yields_raise|]. apply yields_ret. apply Forall_concat. by apply Forall_rev.
Qed.
Lemma merged_confined mode streams events : Forall (Forall (payload_confined mode)) streams →
  _merge_audit_event_streams streams = Ok events → Forall (payload_confined mode) events.
Proof.
  intros Hs%Forall_concat H. unfold _merge_audit_event_streams in H. apply result_bind_inv in H as (st & Hst & H).
  injection H as <-. rewrite py_sorted_perm. revert Hs Hst. generalize (concat streams). intros l.
  assert (Hgen : ∀ st0, Forall (payload_confined mode) (dvalues st0.1) → Forall (payload_confined mode) l →
    merge_from st0 l = Ok st → Forall (payload_confined mode) (dvalues st.1)); [|intros; by eapply (Hgen ([], []))].
  induction l as [|e l IH]; intros st0 H0 Hl H; cbn [merge_from] in H; [by injection H as <-|].
  apply Forall_cons in Hl as [He Hl]. apply result_bind_inv in H as (st1 & H1 & H). apply (IH st1); [|done..].
  unfold merge_event in H1. destruct st0 as [d q]. 
  do 2 (match type of H1 with (if ?c then _ else _) = _ => destruct c end; [done|]). injection H1 as <-. cbn [fst] in *.
  rewrite Forall_forall in H0 |- *. intros x (kv & -> & Hx)%list_elem_of_fmap.
  apply dset_elem in Hx as [->|Hx]; [done|]. apply H0. by apply (list_elem_of_fmap_2 snd).
Qed.
Lemma strings_confined mode l : only_fields (visible mode) (jstrs l) = true.
Proof. cbn. apply forallb_forall. by intros v (s & <- & _)%in_map_iff. Qed.
Lemma missing_scope_confined mode event : only_fields (visible mode) (_missing_scope event) = true.
Proof. unfold _missing_scope. destruct (_ || _); [done|]. by destruct (jget _ event). Qed.
Ltac confine :=
  repeat first
    [ apply confined_cons; [by first [reflexivity|match goal with m : OutputMode |- _ => destruct m end]| |]
    | reflexivity
    | apply shaped_confined; shows
    | apply strings_confined
    | apply missing_scope_confined
    | by apply confined_get
    | by apply payloads_confined
    | by apply payloads_filtered
    | apply shown_confined; shows
    | assumption ].
Lemma get_grant_confined mode g : yields (confined mode) (tool_get_grant mode g).
Proof. apply yields_any. intros body. apply yields_ret, shown_confined. shows. Qed.
Lemma get_event_confined mode i : yields (confined mode) (tool_get_audit_event mode i).
Proof. apply yields_any. intros body. apply yields_ret, shown_confined. shows. Qed.
Lemma explain_confined mode i : yields (confined mode) (explain_denial mode i).
Proof.
  eapply yields_bind; [apply get_event_confined|]. intros event He. cbv zeta.
  destruct mode; [apply yields_ret; confine|]. apply yields_any. intros allowed. apply yields_ret. cbn [app].
  confine.
Qed.
Lemma boundary_confined mode x : yields (confined mode) (tool_get_boundary x).
Proof. apply yields_any. intros body. apply yields_ret, shown_confined. shows. Qed.
Lemma request_confined mode x : yields (confined mode) (tool_get_grant_request mode x).
Proof. apply yields_any. intros body. apply yields_ret, shown_confined. shows. Qed.
Lemma reports_confined mode fuel x :
  yields (confined mode) (grant_report mode fuel x) ∧ yields (confined mode) (boundary_report mode fuel x) ∧
  yields (confined mode) (grant_request_report mode fuel x).
Proof.
  split_and!.
  - eapply yields_bind; [apply get_grant_confined|]. intros grant Hg.
    eapply yields_bind; [apply complete_confined|]. intros events Hev. apply yields_ret. confine.
  - eapply yields_bind; [apply (boundary_confined mode)|]. intros boundary Hb.
    eapply yields_bind; [apply complete_confined|]. intros events Hev. cbv zeta. apply yields_ret. confine.
  - eapply yields_bind; [apply request_confined|]. intros request Hr.
    eapply yields_bind; [apply complete_confined|]. intros timeline Ht.
    destruct (as_text _) as [g|]; [|apply yields_ret; confine].
    eapply yields_bind; [apply get_grant_confined|]. intros grant Hg.
    eapply yields_bind; [apply complete_confined|]. intros events Hev.
    eapply yields_bind; [apply yields_lift; intros merged Hm; eapply merged_confined, Hm; by repeat constructor|].
    intros merged Hm. apply yields_ret. confine.
Qed.
Lemma requests_confined mode (l : list mapping) :
  only_fields (visible mode) (JList (map (λ d, JObj (allowlist_object d (_grant_request_fields mode))) l)) = true.
Proof. cbn [only_fields]. apply forallb_forall. intros v (d & <- & _)%in_map_iff. apply shown_confined. shows. Qed.
Lemma read_only_confined mode fuel tool call : tool ∈ register_read_only_tools fuel mode →
  calls (t_handler tool) call → yields (confined mode) call.
Proof.
  intros Hin Hcall. unfold register_read_only_tools in Hin.
  repeat (apply elem_of_cons in Hin as [->|Hin]); [..|by apply elem_of_nil in Hin];
    cbn [t_handler] in Hcall; inversion Hcall; subst; clear Hcall;
    first [apply explain_confined|apply reports_confined
      |repeat (apply yields_any; intros ?); apply yields_ret; first
        [apply shown_confined; shows
        |apply confined_cons; [by destruct mode|apply shaped_confined; shows|reflexivity]
        |apply confined_cons; [by destruct mode|apply requests_confined|reflexivity]]].
Qed.
End tools.

(** ** The server *)

Section server.
Context {S : Type} `{!Transport S, !UtcClock S} (R : S → S → Prop) `{!PreOrder R}.
Context (repr : json → string) (client : VinctorServiceClient).
Context (Hreads : ∀ rq, reads (cl_workspace_key client) (cl_service_operator_key client) rq →
  keeps R (exchange client rq)) (Hclock : keeps R utc_now).

Lemma keeps_request method path workspace_auth operator_auth body :
  reads (cl_workspace_key client) (cl_service_operator_key client)
    (mkWireRequest method path (dumps false <$> body) (request_headers client workspace_auth operator_auth body)) →
  keeps R (_request_json repr client method path workspace_auth operator_auth body).
Proof.
  intros Hrd. unfold _request_json. apply keeps_bind; [exact _|by apply Hreads|]. intros [st text].
  apply keeps_lift; exact _.
Qed.
Lemma keeps_ask path : startswith path "/v1/enforce" = false → keeps R (ask repr client "GET" path None).
Proof. intros Hp. apply keeps_request. split_and!; [done|done|done|]. right. by left. Qed.
Lemma keeps_ask_part prefix x suffix :
  (∀ part, startswith (prefix ^+ part ^+ suffix) "/v1/enforce" = false) →
  keeps R (ask_part repr client "GET" prefix x suffix None).
Proof. intros Hp. apply keeps_lift_bind; [exact _|]. intros part _. by apply keeps_ask. Qed.
Lemma client_reading : ReadingOk (ReadOnlyVinctorClient0 := reading_client repr client) R.
Proof.
  constructor; cbn; intros; try (by apply keeps_ask_part); try (by apply keeps_ask); [| | |done].
  - apply keeps_request. split_and!; [done|done|done|by left].
  - apply keeps_lift_bind; [exact _|]. intros _ _. by apply keeps_ask.
  - unfold cl_list_service_auth_failures. apply keeps_request. split_and!; [done|done|done|].
    unfold request_headers. destruct (cl_service_operator_key client) as [key|]; [|by left].
    right. right. by exists key.
Qed.
End server.

(** C27: An MCP server is read-only unless it is configured to write.  Unless the
    variable VINCTOR_MCP_WRITE is 1 or true, whatever tool is called, with whatever
    arguments and whatever the service answers, the server sends the service
    nothing but GET requests without a body, never to the enforcement endpoint,
    which carry the configured workspace key or none, the operator's key going
    only to the endpoint of authentication failures: what such requests keep of
    the world, every call keeps.  And what a call returns shows no field, at any
    depth, but those of the configured mode: in the safe mode no scopes, requested,
    allowed, attempted or matched, and no token. *)
Theorem mcp_reads_only {S} `{!Transport S, !UtcClock S} int_unicode bracketed_netloc repr fuel env tools mode
    (R : S → S → Prop) `{!PreOrder R} :
  create_stdio_server int_unicode bracketed_netloc repr fuel env = Ok tools →
  _parse_truthy (default "" (dget "VINCTOR_MCP_WRITE" env)) = false →
  _parse_output_mode (default "safe" (dget "VINCTOR_MCP_OUTPUT_MODE" env)) = Ok mode →
  keeps R utc_now →
  (∀ client rq key, dget "VINCTOR_MCP_WORKSPACE_KEY" env = Some key →
     reads key (str_or (dget "VINCTOR_MCP_SERVICE_OPERATOR_KEY" env) None) rq → keeps R (exchange client rq)) →
  ∀ tool call, tool ∈ tools → calls (t_handler tool) call → keeps R call ∧ yields (confined mode) call.
Proof.
  intros Hserver Hwrite Hmode Hclock Hreads. unfold create_stdio_server in Hserver.
  apply result_bind_inv in Hserver as (config & Hconfig & Hserver).
  apply result_bind_inv in Hserver as (client & Hclient & Hserver).
  assert (Hc : mc_write_enabled config = false ∧ mc_output_mode config = mode ∧
    mc_service_operator_key config = str_or (dget "VINCTOR_MCP_SERVICE_OPERATOR_KEY" env) None ∧
    dget "VINCTOR_MCP_WORKSPACE_KEY" env = Some (mc_workspace_key config)).
  { unfold load_config in Hconfig. destruct (str_or (dget "VINCTOR_MCP_ENDPOINT" env) None); [|done].
    destruct (dget "VINCTOR_MCP_WORKSPACE_KEY" env) as [key|]; [|done]. cbn [str_or] in Hconfig.
    destruct (key == ""); [done|]. apply result_bind_inv in Hconfig as (timeout & _ & Hconfig).
    rewrite Hmode in Hconfig. by injection Hconfig as <-. }
  destruct Hc as (Hw & Hm & Hop & Hkey).
  assert (Hk : cl_workspace_key client = mc_workspace_key config ∧
    cl_service_operator_key client = mc_service_operator_key config).
  { unfold new_client in Hclient. apply result_bind_inv in Hclient as (parsed & _ & Hclient).
    destruct (existsb _ _); [|done]. destruct (hostname parsed); [|done].
    apply result_bind_inv in Hclient as (explicit & _ & Hclient). by injection Hclient as <-. }
  destruct Hk as [Hk1 Hk2]. cbv zeta in Hserver. rewrite Hw, app_nil_r, Hm in Hserver. injection Hserver as <-.
  intros tool call Hin Hcall. split; [|by eapply read_only_confined].
  refine (keeps_read_only R _ mode fuel tool call Hin Hcall). apply client_reading; [done| |done].
  intros rq Hrq. apply (Hreads _ _ _ Hkey). by rewrite Hk1, Hk2, Hop in Hrq.
Qed.

Module Demo.
(** A service that records what it is asked. *)
Definition trace : Type := list WireRequest.
#[local] Instance recorder : Transport trace := λ _ rq s, (Ok (200, "{}"), s ++ [rq]).
#[local] Instance clock : UtcClock trace := gets (λ _, 0).
Definition env : dict string string :=
  [("VINCTOR_MCP_ENDPOINT", "http://127.0.0.1:8765"); ("VINCTOR_MCP_WORKSPACE_KEY", "wk");
   ("VINCTOR_MCP_SERVICE_OPERATOR_KEY", "ok"); ("VINCTOR_MCP_WRITE", "0")].
Definition only_read (s s' : trace) : Prop := ∃ l, s' = s ++ l ∧ Forall (reads "wk" (Some "ok")) l.
#[local] Instance only_read_preorder : PreOrder only_read.
Proof.
  split; [intros s; exists []; by rewrite app_nil_r|]. intros s s' t (l & -> & Hl) (k & -> & Hk).
  exists (l ++ k). split; [by rewrite app_assoc|by apply Forall_app].
Qed.
Definition server : result (list (Tool trace)) :=
  create_stdio_server (λ _, Raise (ValueError "")) (λ _, true) (λ _, "") 10 env.
Definition tools : list (Tool trace) := match server with Ok l => l | Raise _ => [] end.
End Demo.
#[local] Existing Instances Demo.recorder Demo.clock Demo.only_read_preorder.
Lemma mcp_reads_only_witness : Demo.server = Ok Demo.tools ∧ length Demo.tools = 15%nat ∧
  ∀ tool call, tool ∈ Demo.tools → calls (t_handler tool) call →
    Demo.only_read [] (call []).2 ∧ yields (confined safe) call.
Proof.
  split; [reflexivity|]. split; [reflexivity|]. intros tool call Hin Hcall.
  destruct (mcp_reads_only (λ _, Raise (ValueError "")) (λ _, true) (λ _, "") 10 Demo.env Demo.tools safe Demo.only_read
    eq_refl eq_refl eq_refl) with (tool := tool) (call := call) as [Hk Hy]; [..|by split].
  - intros s. exists []. by rewrite app_nil_r.
  - intros client rq key [= <-] Hrq s. exists [rq]. split; [done|]. by constructor.
  - exact Hin.
  - exact Hcall.
Defined.
