(* ===== verification/IdemStorage.v ===== *)
(** * Idempotent requests: keyring and stored results
      ([src/vinctor_service/idempotency_keyring.py], [idempotency_storage.py],
      the evaluation of [idempotency_readiness.py])

    The keys results are sealed with, how they are configured and when a service
    may start with them; the plaintext of a sealed response and what a stored
    result means to a request that finds it. *)
From S2P Require Import Prelude PyStr PyDict Models Sha256 Pop Json IdemCrypto.

(** ** Keyring *)

Definition KEYRING_ENV : string := "VINCTOR_IDEMPOTENCY_KEYRING_JSON".
Definition ACTIVE_VERSION_ENV : string := "VINCTOR_IDEMPOTENCY_ACTIVE_KEY_VERSION".
Definition KEY_COMMITMENT_DOMAIN : string := "vinctor.idempotency.key-commitment.v1" ^+ string_of [0].

Record IdempotencyKeyRegistration := mkIdempotencyKeyRegistration {
  kg_version : string;
  kg_commitment : string
}.
Record IdempotencyKeyring := mkIdempotencyKeyring {
  _active_key : IdempotencyKeyVersion;
  _decryption_keys : list IdempotencyKeyVersion
}.
Definition active_version (k : IdempotencyKeyring) : string := kv_version (_active_key k).
Definition version_labels (k : IdempotencyKeyring) : list string := map kv_version (_decryption_keys k).
Definition registrations (k : IdempotencyKeyring) : list IdempotencyKeyRegistration :=
  map (λ key, mkIdempotencyKeyRegistration (kv_version key) (kv_commitment key)) (_decryption_keys k).
Definition decryption_key (version : string) (k : IdempotencyKeyring) : option IdempotencyKeyVersion :=
  List.find (λ key, kv_version key == version) (_decryption_keys k).

(** [key_commitment(material)] *)
Definition key_commitment (material : string) : string :=
  sha256_digest (KEY_COMMITMENT_DOMAIN ^+ material).

(** [_VERSION_LABEL.fullmatch(raw)] *)
Definition alnum (c : ascii) : bool :=
  char_between "A" "Z" c || char_between "a" "z" c || char_between "0" "9" c.
Definition _parse_version_label (raw : string) : result string :=
  match raw with
  | String c rest =>
      if alnum c && all_chars (λ c, alnum c || Ascii.eqb c "." || Ascii.eqb c "_" || Ascii.eqb c "-") rest
         && (String.length rest <=? 63)%nat
      then Ok raw else Raise IdempotencyKeyringConfigError
  | EmptyString => Raise IdempotencyKeyringConfigError
  end.

(** [base64.b64decode(encoded, validate=True)] on ASCII text. *)
Definition b64_digit (c : ascii) : option Z :=
  let n := byte_of c in
  if char_between "A" "Z" c then Some (n - 65)
  else if char_between "a" "z" c then Some (n - 71)
  else if char_between "0" "9" c then Some (n + 4)
  else if Ascii.eqb c "+" then Some 62
  else if Ascii.eqb c "/" then Some 63
  else None.
Fixpoint b64decode (s : string) : option (list Z) :=
  match s with
  | EmptyString => Some []
  | String a (String b (String c (String d rest))) =>
      x ← b64_digit a; y ← b64_digit b;
      match b64_digit c, b64_digit d with
      | Some z, Some t =>
          l ← b64decode rest;
          Some (x * 4 + y / 16 :: y mod 16 * 16 + z / 4 :: z mod 4 * 64 + t :: l)
      | Some z, None =>
          if Ascii.eqb d "=" && (rest == "") then Some [x * 4 + y / 16; y mod 16 * 16 + z / 4] else None
      | None, _ =>
          if Ascii.eqb c "=" && Ascii.eqb d "=" && (rest == "") then Some [x * 4 + y / 16] else None
      end
  | _ => None
  end.
Definition ascii_isspace (c : ascii) : bool :=
  let n := byte_of c in ((9 <=? n) && (n <=? 13)) || ((28 <=? n) && (n <=? 32)).
Definition _parse_key_version (label encoded : string) : result IdempotencyKeyVersion :=
  version ← _parse_version_label label;
  if negb (isascii encoded) || negb (all_chars (λ c, negb (ascii_isspace c)) encoded)
  then Raise IdempotencyKeyringConfigError
  else
    match b64decode encoded with
    | None => Raise IdempotencyKeyringConfigError
    | Some bytes =>
        if negb (length bytes =? AES_256_KEY_BYTES)%nat then Raise IdempotencyKeyringConfigError
        else let material := string_of bytes in
             Ok (mkIdempotencyKeyVersion version material (key_commitment material))
    end.

(** An object of strings with distinct labels; anything else is refused, by the
    reader or by [_parse_object_pairs]. *)
Fixpoint read_pairs (fuel : nat) (acc : list (string * string)) (s : string) :
    option (list (string * string) * string) :=
  match fuel with
  | O => None
  | S fuel =>
      match s with
      | EmptyString => None
      | String q s1 =>
          if negb (Ascii.eqb q dquote) then None
          else
            '(label, s2) ← scan_string s1;
            match skip_ws s2 with
            | EmptyString => None
            | String colon s3 =>
                if negb (Ascii.eqb colon ":") then None
                else
                  match skip_ws s3 with
                  | EmptyString => None
                  | String q' s4 =>
                      if negb (Ascii.eqb q' dquote) then None
                      else
                        '(encoded, s5) ← scan_string s4;
                        if existsb (String.eqb label) (map fst acc) then None
                        else
                          let acc := acc ++ [(label, encoded)] in
                          match skip_ws s5 with
                          | EmptyString => None
                          | String e s6 =>
                              if Ascii.eqb e "}" then Some (acc, s6)
                              else if Ascii.eqb e "," then read_pairs fuel acc (skip_ws s6)
                              else None
                          end
                  end
            end
      end
  end.
Definition _parse_keyring_json (raw : string) : result (list (string * string)) :=
  match skip_ws raw with
  | EmptyString => Raise IdempotencyKeyringConfigError
  | String o s =>
      if negb (Ascii.eqb o "{") then Raise IdempotencyKeyringConfigError
      else
        match (match skip_ws s with
               | EmptyString => None
               | String e rest =>
                   if Ascii.eqb e "}" then Some ([], rest)
                   else read_pairs (String.length s) [] (String e rest)
               end) with
        | Some (pairs, rest) =>
            if skip_ws rest == "" then Ok pairs else Raise IdempotencyKeyringConfigError
        | None => Raise IdempotencyKeyringConfigError
        end
  end.

Definition version_leb (a b : IdempotencyKeyVersion) : bool := String.leb (kv_version a) (kv_version b).
Definition load_idempotency_keyring (env : dict string string) : result (option IdempotencyKeyring) :=
  match dget KEYRING_ENV env, dget ACTIVE_VERSION_ENV env with
  | None, None => Ok None
  | Some raw, Some raw_active =>
      pairs ← _parse_keyring_json raw;
      active ← _parse_version_label raw_active;
      parsed ← mapM (λ p, _parse_key_version p.1 p.2) pairs;
      let versions := py_sorted version_leb parsed in
      if bool_decide (versions = []) then Raise IdempotencyKeyringConfigError
      else if negb (bool_decide (NoDup (map kv_material versions)))
      then Raise IdempotencyKeyringConfigError
      else
        match List.find (λ key, kv_version key == active) versions with
        | None => Raise IdempotencyKeyringConfigError
        | Some active_key => Ok (Some (mkIdempotencyKeyring active_key versions))
        end
  | _, _ => Raise IdempotencyKeyringConfigError
  end.

Definition validate_startup_compatibility (keyring : option IdempotencyKeyring)
    (registry : list IdempotencyKeyRegistration) (unexpired_result_versions : list string) : result bool :=
  match keyring with
  | None =>
      if negb (bool_decide (unexpired_result_versions = [])) then Raise IdempotencyKeyringConfigError
      else Ok true
  | Some keyring =>
      if existsb (λ v, negb (existsb (String.eqb v) (version_labels keyring))) unexpired_result_versions
      then Raise IdempotencyKeyringConfigError
      else if existsb (λ registration, existsb (λ version,
             negb (Bool.eqb (kg_version registration == kv_version version)
                            (kg_commitment registration == kv_commitment version)))
           (_decryption_keys keyring)) registry
      then Raise IdempotencyKeyringConfigError
      else Ok true
  end.

(** ** Readiness *)

Record KeyVersionReadinessState := mkKeyVersionReadinessState {
  ks_version : string;
  ks_write_disabled : bool;
  ks_retired : bool;
  ks_reserved_encryption_slots : Z;
  ks_nonce_count : Z
}.
Definition idempotency_readiness (configured_versions unexpired_versions : list string)
    (active_version : option string) (key_versions : list KeyVersionReadinessState)
    (allow_active_write_disabled : bool) : bool :=
  let member v l := existsb (String.eqb v) l in
  if negb (forallb (λ v, member v configured_versions) unexpired_versions) then false
  else if existsb (λ s, negb (ks_reserved_encryption_slots s =? ks_nonce_count s)
                        || negb ((0 <=? ks_reserved_encryption_slots s)
                                 && (ks_reserved_encryption_slots s <=? 2 ^ 24))) key_versions
  then false
  else if bool_decide (configured_versions = [])
  then bool_decide (unexpired_versions = []) && bool_decide (active_version = None)
  else
    match active_version with
    | None => false
    | Some active_version =>
        if negb (member active_version configured_versions) then false
        else
          let states := foldl (λ d s, dset (ks_version s) s d) [] key_versions in
          if negb (bool_decide (key_versions = [])) && negb (din active_version states) then false
          else if existsb (λ v, match dget v states with Some s => ks_retired s | None => false end)
                    unexpired_versions
          then false
          else
            match dget active_version states with
            | None => true
            | Some active =>
                negb (ks_retired active) && (allow_active_write_disabled || negb (ks_write_disabled active))
            end
    end.

(** ** Stored results *)

Definition JSON_CONTENT_TYPE : string := "application/json".
Definition RESPONSE_PLAINTEXT_DOMAIN : string := "vinctor:idempotency-response-plaintext:v1".
Definition SOFT_SLOT_LIMIT : Z := 2 ^ 23.
Definition HARD_SLOT_LIMIT : Z := 2 ^ 24.
Definition NONCE_BYTES : nat := 12.
Definition LENGTH_PREFIX_BYTES : nat := 4.

Record CompletedResultRecord := mkCompletedResultRecord {
  rec_request_fingerprint : string;
  rec_format_version : Z;
  rec_status_code : Z;
  rec_cipher_key_version : string;
  rec_response_nonce : string;
  rec_response_ciphertext : string;
  rec_created_at_epoch : Z;
  rec_expires_at_epoch : Z
}.

Definition _encode_optional_text (value : option string) : result string :=
  match value with
  | None => Ok (string_of [0])
  | Some v => p ← _length_prefix v; Ok (string_of [1] ^+ p)
  end.
Definition encode_response_plaintext (response : PreSerializedHttpResponse) : result string :=
  concat_results
    [Ok RESPONSE_PLAINTEXT_DOMAIN; _length_prefix (ps_body response);
     _encode_optional_text (ob_error_code (ps_observation response));
     _encode_optional_text (ob_decision (ps_observation response))].

Definition terminal_expiry_epoch (invocation : IdempotencyInvocation) (now_epoch : Z)
    (replay_not_after_epoch : option Z) : Z :=
  let ttl_seconds := if inv_max_terminal_ttl_seconds invocation <=? 0 then 86400
                     else inv_max_terminal_ttl_seconds invocation in
  let expires_at_epoch := now_epoch + Z.min ttl_seconds 86400 in
  match replay_not_after_epoch with
  | Some t => Z.min expires_at_epoch t
  | None => expires_at_epoch
  end.

Definition _read_length_prefixed (payload : string) (offset : nat) : result (string * nat) :=
  let length_end := (offset + LENGTH_PREFIX_BYTES)%nat in
  if (String.length payload <? length_end)%nat then Raise IdempotencyResultUnavailable
  else
    let value_end := (length_end + Z.to_nat (from_be (bytes_of
                       (String.substring offset LENGTH_PREFIX_BYTES payload))))%nat in
    if (String.length payload <? value_end)%nat then Raise IdempotencyResultUnavailable
    else Ok (String.substring length_end (value_end - length_end) payload, value_end).
Definition _read_optional_text (payload : string) (offset : nat) : result (option string * nat) :=
  match String.get offset payload with
  | None => Raise IdempotencyResultUnavailable
  | Some flag =>
      if byte_of flag =? 0 then Ok (None, S offset)
      else if byte_of flag =? 1 then
        '(encoded, next_offset) ← _read_length_prefixed payload (S offset);
        if utf8_ok encoded then Ok (Some encoded, next_offset) else Raise IdempotencyResultUnavailable
      else Raise IdempotencyResultUnavailable
  end.
Definition _decode_response_plaintext (status_code : Z) (plaintext : string) :
    result PreSerializedHttpResponse :=
  if negb (startswith plaintext RESPONSE_PLAINTEXT_DOMAIN) then Raise IdempotencyResultUnavailable
  else
    '(body, offset) ← _read_length_prefixed plaintext (String.length RESPONSE_PLAINTEXT_DOMAIN);
    '(error_code, offset) ← _read_optional_text plaintext offset;
    '(decision, offset) ← _read_optional_text plaintext offset;
    if negb (offset =? String.length plaintext)%nat then Raise IdempotencyResultUnavailable
    else Ok (mkPreSerializedHttpResponse status_code JSON_CONTENT_TYPE body
               (mkHttpResponseObservation error_code decision)).

Definition require_invocation (i : IdempotencyInvocation) : result unit :=
  if (inv_workspace_id i == "") || (inv_principal i == "") || (inv_operation i == "")
     || negb (String.length (inv_key_hash i) =? 32)%nat
     || negb (String.length (inv_request_fingerprint i) =? 32)%nat
  then Raise IdempotencyWriteUnavailable else Ok tt.

(** The authenticated data of a stored result. *)
Definition record_aad (i : IdempotencyInvocation) (r : CompletedResultRecord) : ResponseAadInput :=
  mkResponseAadInput (rec_format_version r) (inv_workspace_id i) (inv_principal i) (inv_operation i)
    (inv_key_hash i) (rec_request_fingerprint r) (rec_status_code r) JSON_CONTENT_TYPE
    (rec_cipher_key_version r) (rec_created_at_epoch r) (rec_expires_at_epoch r).

Section results.
Context `{AesGcm}.
(** [except (OverflowError, TypeError, ValueError): raise IdempotencyResultUnavailable] *)
Definition result_errors {A} (m : result A) : result A :=
  match m with
  | Raise (OverflowError _) | Raise (TypeError _) | Raise (ValueError _) => Raise IdempotencyResultUnavailable
  | m => m
  end.
Definition authenticate_completed_result (i : IdempotencyInvocation) (r : CompletedResultRecord)
    (keyring : option IdempotencyKeyring) : result string :=
  _ ← require_invocation i;
  match keyring with
  | None => Raise IdempotencyResultUnavailable
  | Some keyring =>
      match decryption_key (rec_cipher_key_version r) keyring with
      | None => Raise IdempotencyResultUnavailable
      | Some key =>
          result_errors (
            aad ← build_response_aad (record_aad i r);
            decrypt_response [(rec_cipher_key_version r, kv_material key)]
              (mkEncryptedResponseEnvelope (rec_format_version r) (rec_cipher_key_version r)
                 (rec_response_nonce r) (rec_response_ciphertext r)) aad)
      end
  end.
Definition classify_completed_result (i : IdempotencyInvocation) (r : option CompletedResultRecord)
    (keyring : option IdempotencyKeyring) (now_epoch : Z) : result IdempotencyLookupResult :=
  _ ← require_invocation i;
  match r with
  | None => Ok IdempotencyProceedToReservation
  | Some r =>
      plaintext ← authenticate_completed_result i r keyring;
      if rec_expires_at_epoch r <=? now_epoch then Ok IdempotencyProceedToReservation
      else if negb (rec_request_fingerprint r == inv_request_fingerprint i)
      then Raise IdempotencyConflict
      else
        response ← _decode_response_plaintext (rec_status_code r) plaintext;
        Ok (IdempotencyReplayCandidate response)
  end.
End results.
