(* ===== verification/IdemRows.v ===== *)
(** * The idempotency tables ([src/vinctor_service/sqlite.py], the schema)

    The rows of the three tables idempotent requests use, with the constraints
    the schema puts on them: a row that breaks one is not stored. *)
From S2P Require Import Prelude PyStr PyDict IdemStorage.

(** [idempotency_cipher_key_versions] *)
Record key_version_row := mkKeyVersionRow {
  kvr_version_label : string;
  kvr_key_commitment : string;
  kvr_reserved_encryption_slots : Z;
  kvr_first_seen_epoch : Z;
  kvr_soft_limit_reported_epoch : option Z;
  kvr_write_disabled_epoch : option Z;
  kvr_write_disabled_reason : option string;
  kvr_drain_completed_epoch : option Z;
  kvr_retired_epoch : option Z
}.
(** [idempotency_cipher_nonces] *)
Record cipher_nonce_row := mkCipherNonceRow {
  cnr_cipher_key_version : string;
  cnr_slot : Z;
  cnr_nonce : string;
  cnr_reserved_at_epoch : Z;
  cnr_owner : string * string * string * string * string;
  cnr_claimed_at_epoch : option Z
}.
(** [idempotency_results] *)
Record result_row := mkResultRow {
  rrw_identity : string * string * string * string;
  rrw_record : CompletedResultRecord
}.
Record IdemDb := mkIdemDb {
  i_versions : list key_version_row;
  i_nonces : list cipher_nonce_row;
  i_results : list result_row
}.
Definition empty_idem : IdemDb := mkIdemDb [] [] [].
Definition set_versions l (db : IdemDb) : IdemDb := mkIdemDb l (i_nonces db) (i_results db).
Definition set_nonces l (db : IdemDb) : IdemDb := mkIdemDb (i_versions db) l (i_results db).
Definition set_results l (db : IdemDb) : IdemDb := mkIdemDb (i_versions db) (i_nonces db) l.

(** ** The CHECK constraints *)

(** [o IS NULL OR p o] *)
Definition null_or {A} (p : A → bool) (o : option A) : bool :=
  match o with Some x => p x | None => true end.
Definition label_ok (label : string) : bool := is_ok (_parse_version_label label).
Definition key_version_check (r : key_version_row) : bool :=
  label_ok (kvr_version_label r)
  && (String.length (kvr_key_commitment r) =? 32)%nat
  && (0 <=? kvr_reserved_encryption_slots r) && (kvr_reserved_encryption_slots r <=? 16777216)
  && (0 <=? kvr_first_seen_epoch r)
  && null_or (λ t, kvr_first_seen_epoch r <=? t) (kvr_soft_limit_reported_epoch r)
  && null_or (λ t, kvr_first_seen_epoch r <=? t) (kvr_write_disabled_epoch r)
  && match kvr_write_disabled_epoch r, kvr_write_disabled_reason r with
     | None, None => true
     | Some _, Some reason => existsb (String.eqb reason) ["rotation"; "hard_limit"; "nonce_collision"]
     | _, _ => false
     end
  && null_or (λ t, match kvr_write_disabled_epoch r with Some d => d <=? t | None => false end)
       (kvr_drain_completed_epoch r)
  && null_or (λ t, match kvr_drain_completed_epoch r with Some d => d <=? t | None => false end)
       (kvr_retired_epoch r).
Definition owner_check (o : string * string * string * string * string) : bool :=
  let '(workspace_id, principal, operation, key_hash, request_fingerprint) := o in
  negb (workspace_id == "") && negb (principal == "") && negb (operation == "")
  && (String.length key_hash =? 32)%nat && (String.length request_fingerprint =? 32)%nat.
Definition cipher_nonce_check (r : cipher_nonce_row) : bool :=
  (1 <=? cnr_slot r) && (cnr_slot r <=? 16777216)
  && (String.length (cnr_nonce r) =? 12)%nat
  && (0 <=? cnr_reserved_at_epoch r)
  && owner_check (cnr_owner r)
  && null_or (λ t, cnr_reserved_at_epoch r <=? t) (cnr_claimed_at_epoch r).
Definition result_check (r : result_row) : bool :=
  let rec := rrw_record r in
  owner_check (rrw_identity r, rec_request_fingerprint rec)
  && (rec_format_version rec =? 1)
  && (200 <=? rec_status_code rec) && (rec_status_code rec <=? 499)
  && (String.length (rec_response_nonce rec) =? 12)%nat
  && (16 <=? String.length (rec_response_ciphertext rec))%nat
  && (0 <=? rec_created_at_epoch rec)
  && (rec_created_at_epoch rec <? rec_expires_at_epoch rec).

(** ** Keys *)

Definition version_row_of (version : string) (db : IdemDb) : option key_version_row :=
  List.find (λ r, kvr_version_label r == version) (i_versions db).
Definition same_nonce (version nonce : string) (r : cipher_nonce_row) : bool :=
  (cnr_cipher_key_version r == version) && (cnr_nonce r == nonce).
Definition same_slot (version : string) (slot : Z) (r : cipher_nonce_row) : bool :=
  (cnr_cipher_key_version r == version) && (cnr_slot r =? slot).
Definition uses_nonce (version nonce : string) (r : result_row) : bool :=
  (rec_cipher_key_version (rrw_record r) == version) && (rec_response_nonce (rrw_record r) == nonce).
Definition of_identity (identity : string * string * string * string) (r : result_row) : bool :=
  bool_decide (rrw_identity r = identity).

(** ** The statements that insert *)

Definition constraint_failed : pyexc := StorageError "constraint failed".

Definition insert_key_version (r : key_version_row) (db : IdemDb) : result (unit * IdemDb) :=
  if negb (key_version_check r)
     || existsb (λ x, (kvr_version_label x == kvr_version_label r)
                      || (kvr_key_commitment x == kvr_key_commitment r)) (i_versions db)
  then Raise constraint_failed
  else Ok (tt, set_versions (i_versions db ++ [r]) db).
(** [INSERT OR IGNORE]: how many rows were stored.  IGNORE does not cover the
    foreign key. *)
Definition insert_or_ignore_nonce (r : cipher_nonce_row) (db : IdemDb) : result (Z * IdemDb) :=
  if negb (cipher_nonce_check r)
     || existsb (λ x, same_nonce (cnr_cipher_key_version r) (cnr_nonce r) x
                      || same_slot (cnr_cipher_key_version r) (cnr_slot r) x) (i_nonces db)
  then Ok (0, db)
  else
    match version_row_of (cnr_cipher_key_version r) db with
    | None => Raise constraint_failed
    | Some _ => Ok (1, set_nonces (i_nonces db ++ [r]) db)
    end.
Definition insert_result (r : result_row) (db : IdemDb) : result (unit * IdemDb) :=
  if negb (result_check r)
     || existsb (λ x, of_identity (rrw_identity r) x
                      || uses_nonce (rec_cipher_key_version (rrw_record r))
                           (rec_response_nonce (rrw_record r)) x) (i_results db)
     || bool_decide (version_row_of (rec_cipher_key_version (rrw_record r)) db = None)
  then Raise constraint_failed
  else Ok (tt, set_results (i_results db ++ [r]) db).
