(* ===== verification/IdemLock.v ===== *)
(** * The locks of idempotent writers
      ([src/vinctor_service/idempotency_lifecycle_lock.py])

    A service that seals responses under a key version holds a shared lock on a
    file named after the version for as long as it lives; whoever drains or
    retires the version takes the lock exclusively.  The operating system is a
    state: files, open file descriptions, their locks, and which of the coming
    system calls fail.  The lock of the registry file, taken and given back within
    one operation, makes the operation one step. *)
From S2P Require Import Prelude PyStr PyDict Sha256 IdemCrypto IdemStorage.

(** ** The operating system *)

Definition OSError : pyexc := ServiceError "OSError".
(** A subclass of [OSError]. *)
Definition BlockingIOError : pyexc := ServiceError "BlockingIOError".
Definition is_os_error (e : pyexc) : bool := bool_decide (e = OSError) || bool_decide (e = BlockingIOError).

(** Where the system finds what a path names, once the working directory and the
    links on the way are followed.  Locks are on files: two paths that lead to one
    file contend for the same lock, and only they do. *)
Class OsPaths := os_find : string → string.

(** An open file description, of the file that is at [hd_path]. *)
Record Handle := mkHandle { hd_id : Z; hd_path : string }.
#[global] Instance handle_eq_dec : EqDecision Handle.
Proof. solve_decision. Defined.
Record Flock := mkFlock { fl_handle : Handle; fl_exclusive : bool }.
Record Os := mkOs {
  os_files : dict string string;
  os_open : list Handle;
  os_flocks : list Flock;
  os_next : Z;
  (** Whether each coming system call fails. *)
  os_faults : list bool
}.

Definition syscall : M Os unit := λ s,
  (if default false (head (os_faults s)) then Raise OSError else Ok tt,
   mkOs (os_files s) (os_open s) (os_flocks s) (os_next s) (tail (os_faults s))).
(** [os.open(path, O_RDWR | O_CREAT)] *)
Definition file_open `{OsPaths} (path : string) : M Os Handle :=
  _ ← syscall;
  h ← gets (λ s, mkHandle (os_next s) (os_find path));
  _ ← modify (λ s, mkOs (if din (os_find path) (os_files s) then os_files s else dset (os_find path) "" (os_files s))
    (h :: os_open s) (os_flocks s) (os_next s + 1) (os_faults s));
  mret h.
Definition file_read (h : Handle) : M Os string :=
  _ ← syscall; gets (λ s, default "" (dget (hd_path h) (os_files s))).
(** Written to an empty file. *)
Definition file_write (h : Handle) (data : string) : M Os unit :=
  _ ← syscall;
  modify (λ s, mkOs (dset (hd_path h) data (os_files s)) (os_open s) (os_flocks s) (os_next s) (os_faults s)).
Definition fsync (h : Handle) : M Os unit := syscall.
Definition locks_of (h : Handle) (l : Flock) : bool := bool_decide (fl_handle l = h).
Definition unlocked (h : Handle) (s : Os) : Os :=
  mkOs (os_files s) (os_open s) (List.filter (λ l, negb (locks_of h l)) (os_flocks s)) (os_next s) (os_faults s).
(** Whether a lock of another description on the same file stands in the way. *)
Definition in_the_way (h : Handle) (exclusive : bool) (l : Flock) : bool :=
  (hd_path (fl_handle l) == hd_path h) && negb (locks_of h l) && (exclusive || fl_exclusive l).
(** [fcntl.flock(h, LOCK_SH | LOCK_NB)], [fcntl.flock(h, LOCK_EX | LOCK_NB)] *)
Definition flock (h : Handle) (exclusive : bool) : M Os unit :=
  _ ← syscall;
  blocked ← gets (λ s, existsb (in_the_way h exclusive) (os_flocks s));
  if blocked : bool then raise BlockingIOError
  else modify (λ s, let s := unlocked h s in
    mkOs (os_files s) (os_open s) (mkFlock h exclusive :: os_flocks s) (os_next s) (os_faults s)).
(** [fcntl.flock(h, LOCK_UN)] *)
Definition funlock (h : Handle) : M Os unit := _ ← syscall; modify (unlocked h).
(** The description is gone, with its locks, even when closing it fails; closing
    it again does nothing. *)
Definition file_close (h : Handle) : M Os unit :=
  opened ← gets (λ s, bool_decide (h ∈ os_open s));
  if opened : bool then
    _ ← modify (λ s, let s := unlocked h s in
      mkOs (os_files s) (List.filter (λ x, negb (bool_decide (x = h))) (os_open s)) (os_flocks s)
        (os_next s) (os_faults s));
    syscall
  else mret tt.

(** [try: m  except OSError: raise e'] *)
Definition os_error_as {X} (e' : pyexc) (m : M Os X) : M Os X :=
  try_except m (λ e, if is_os_error e then raise e' else raise e).
(** ** Attestations *)

Definition IdempotencyLifecycleUnavailable : pyexc := ServiceError "IdempotencyLifecycleUnavailable".
Definition IdempotencyLifecycleActiveWriters : pyexc := ServiceError "IdempotencyLifecycleActiveWriters".
Definition _IDENTITY_DOMAIN : string := "vinctor.idempotency.writer-lock.identity.v1" ^+ string_of [0].
Definition _CARRIER_DOMAIN : string := "vinctor.idempotency.writer-lock.carrier.v1" ^+ string_of [0].

Record SQLiteWriterAttestation := mkSQLiteWriterAttestation {
  sa_identity : string;
  sa_path : string;
  sa_registry_path : string
}.
Section attestation.
(** [unicodedata.normalize("NFC", _)] *)
Context (nfc : string → string).

Definition _version_lock_identity (version : string) : result string :=
  framed ← _length_prefix (nfc version);
  Ok (sha256_digest (_IDENTITY_DOMAIN ^+ framed)).
Definition _version_lock_carrier (version : string) : result string :=
  identity ← _version_lock_identity version;
  Ok (sha256_hex (_CARRIER_DOMAIN ^+ identity)).
Definition new_attestation (database version : string) : result SQLiteWriterAttestation :=
  let base := database ^+ ".idempotency-writers" in
  identity ← _version_lock_identity version;
  carrier ← _version_lock_carrier version;
  Ok (mkSQLiteWriterAttestation (hex (bytes_of identity)) (base ^+ "." ^+ carrier ^+ ".lock")
        (base ^+ ".registry.lock")).
End attestation.

(** ** Locking *)
Section locking.
Context `{OsPaths}.

(** The file that carries the lock, its content checked: [carrier] is the file
    when it was opened. *)
Definition identify (a : SQLiteWriterAttestation) (carrier : Handle) : M Os Handle :=
  existing ← file_read carrier;
  if negb (existing == "") && negb (existing == sa_identity a) then
    _ ← file_close carrier;
    raise IdempotencyLifecycleUnavailable
  else
    _ ← (if existing == "" then _ ← file_write carrier (sa_identity a); fsync carrier else mret tt);
    mret carrier.
Definition carrier_of (a : SQLiteWriterAttestation) : M Os (result Handle * option Handle) :=
  opened ← outcome (os_error_as IdempotencyLifecycleUnavailable (_ ← syscall; file_open (sa_path a)));
  match opened with
  | Raise e => mret (Raise e, None)
  | Ok carrier =>
      r ← outcome (try_except (identify a carrier) (λ e,
        if is_os_error e then _ ← file_close carrier; raise IdempotencyLifecycleUnavailable else raise e));
      mret (r, Some carrier)
  end.
Definition close_opened (carrier : option Handle) : M Os unit :=
  match carrier with Some h => file_close h | None => mret tt end.
Definition _open_verified_carrier (a : SQLiteWriterAttestation) : M Os Handle :=
  registry_fd ← os_error_as IdempotencyLifecycleUnavailable (_ ← syscall; file_open (sa_registry_path a));
  '(r, carrier) ← carrier_of a;
  _ ← try_except (_ ← funlock registry_fd; file_close registry_fd)
        (λ e, if is_os_error e then _ ← close_opened carrier; raise IdempotencyLifecycleUnavailable else raise e);
  lift r.

(** An opened carrier, locked: shared by a writer, exclusive by a guard. *)
Definition acquire (a : SQLiteWriterAttestation) (exclusive : bool) : M Os Handle :=
  stream ← _open_verified_carrier a;
  _ ← try_except (flock stream exclusive) (λ e,
    if decide (e = BlockingIOError) then _ ← file_close stream; raise IdempotencyLifecycleActiveWriters
    else if decide (e = OSError) then _ ← file_close stream; raise IdempotencyLifecycleUnavailable
    else raise e);
  mret stream.

(** What an attestation holds, beside the system: [_writer_file]. *)
Record Attesting := mkAttesting { at_os : Os; at_writer_file : option Handle }.
Definition on_os {X} (m : M Os X) : M Attesting X := λ s,
  let '(r, os) := m (at_os s) in (r, mkAttesting os (at_writer_file s)).
Definition set_writer_file (h : option Handle) : M Attesting unit := modify (λ s, mkAttesting (at_os s) h).

Definition register (a : SQLiteWriterAttestation) : M Attesting unit :=
  writer_file ← gets at_writer_file;
  match writer_file with
  | Some _ => mret tt
  | None => stream ← on_os (acquire a false); set_writer_file (Some stream)
  end.
Definition _acquire_exclusive (a : SQLiteWriterAttestation) : M Attesting Handle :=
  writer_file ← gets at_writer_file;
  match writer_file with
  | Some _ => raise IdempotencyLifecycleActiveWriters
  | None => on_os (acquire a true)
  end.
Definition _release_exclusive (stream : Handle) : M Os unit :=
  os_error_as IdempotencyLifecycleUnavailable (file_close stream).
Definition attestation_close : M Attesting unit :=
  writer_file ← gets at_writer_file;
  match writer_file with
  | None => mret tt
  | Some stream =>
      _ ← set_writer_file None;
      on_os (try_except (_ ← funlock stream; file_close stream)
        (λ e, if is_os_error e then _ ← outcome (file_close stream); raise IdempotencyLifecycleUnavailable
              else raise e))
  end.

(** [PRAGMA database_list]: names and files; a database in memory has no file. *)
Definition registered_for_connection (nfc : string → string) (database_list : list (string * string))
    (version : string) : M Attesting (option SQLiteWriterAttestation) :=
  match List.find (λ row, row.1 == "main") database_list with
  | None => raise (RuntimeError "SQLite main database is unavailable")
  | Some (_, database) =>
      if database == "" then mret None
      else
        attestation ← lift (new_attestation nfc database version);
        _ ← register attestation;
        mret (Some attestation)
  end.
End locking.
