(* ===== verification/TenantHttp.v ===== *)
(** * Tenant isolation of the administrative endpoints

    What a call made with a key of one workspace may change and may show.
    [serves ws P Q m]: run from a well-keyed state that satisfies [P], the
    operation [m] leaves everything of the other workspaces as it was, writes
    events of [ws] only, and what it returns satisfies [Q], also when it raises
    half-way.  The rules compose it over the operations of the service and the
    handlers. *)
From S2P Require Import Prelude PyStr PyDict PyTime Scope Models Registry Enforce CoreAudit Sha256.
From S2P Require Import Pop ServiceModels Repositories AuditWriter World V1Enforce Simulate Grants.
From S2P Require Import GrantRequests SubjectTokens AutoApproval AuditQuery Service Json Http V1Http.
From S2P Require Import BoundaryHttp GrantHttp RequestHttp AuditHttp.

(** ** The rules *)
Section serves.
Context {G A : Type} `{HG : GrantLifecycleOk G} `{HA : AuditWriterOk A}.
Implicit Types (w : World G A).

(** Every entity is filed under its own id. *)
Record keyed w : Prop := {
  ky_grants : wf w;
  ky_requests id q : request_of w id = Some q → gq_request_id q = id;
  ky_rules id x : get_rule id (w_rules w) = Some x → aar_rule_id x = id;
  ky_boundaries id b : registry_get id (w_registry w) = Some b → b_boundary_id b = id
}.
(** What the other workspaces have is what they had, and what was written is [ws]'s. *)
Record tenant_only (ws : string) w w' : Prop := {
  to_grants ref g : g_workspace_id g ≠ ws → grants w' !! ref = Some g ↔ grants w !! ref = Some g;
  to_requests id q : gq_workspace_id q ≠ ws → request_of w' id = Some q ↔ request_of w id = Some q;
  to_rules id x : aar_workspace_id x ≠ ws →
    get_rule id (w_rules w') = Some x ↔ get_rule id (w_rules w) = Some x;
  to_boundaries id b : b_workspace_id b ≠ ws →
    registry_get id (w_registry w') = Some b ↔ registry_get id (w_registry w) = Some b;
  to_rest : w_bounds w' = w_bounds w ∧ w_tokens w' = w_tokens w ∧ w_settings w' = w_settings w ∧
    w_pop w' = w_pop w ∧ w_throttle w' = w_throttle w;
  to_names : en_source (w_entropy w') = en_source (w_entropy w) ∧
    (en_drawn (w_entropy w) ≤ en_drawn (w_entropy w'))%nat;
  to_log : ∃ l, log w' = log w ++ l ∧ ∀ e, e ∈ l → e_workspace_id e = ws
}.
#[export] Instance tenant_only_preorder ws : PreOrder (tenant_only ws).
Proof.
  split.
  - intros w. constructor; try done. exists []. rewrite app_nil_r. split; [done|by intros e ?%elem_of_nil].
  - intros w1 w2 w3 [G1 Q1 R1 B1 (?&?&?&?&?) [] (l1 & E1 & F1)] [G2 Q2 R2 B2 (?&?&?&?&?) [] (l2 & E2 & F2)].
    constructor.
    + intros ref g Hg. by rewrite G2, G1.
    + intros id q Hq. by rewrite Q2, Q1.
    + intros id x Hx. by rewrite R2, R1.
    + intros id b Hb. by rewrite B2, B1.
    + split_and!; congruence.
    + split; [congruence|lia].
    + exists (l1 ++ l2). rewrite E2, E1, app_assoc. split; [done|].
      intros e [?|?]%elem_of_app; auto.
Qed.

Definition post {X} (Q : X → Prop) (r : result X) : Prop :=
  match r with Ok x => Q x | Raise _ => True end.
Definition serves (ws : string) (P : World G A → Prop) {X} (Q : X → Prop) (m : M (World G A) X) : Prop :=
  ∀ w r w', keyed w → P w → m w = (r, w') → keyed w' ∧ tenant_only ws w w' ∧ post Q r.
(** What no operation within the workspace undoes. *)
Class Stable (ws : string) (P : World G A → Prop) :=
  stable w w' : tenant_only ws w w' → P w → P w'.
#[export] Instance stable_and ws P1 P2 : Stable ws P1 → Stable ws P2 → Stable ws (λ w, P1 w ∧ P2 w).
Proof. intros H1 H2 w w' Ht [??]. split; [by eapply H1|by eapply H2]. Qed.
#[export] Instance stable_pure ws (Q : Prop) : Stable ws (λ _, Q).
Proof. by intros w w' _. Qed.

(** No other workspace has a request, or a boundary, by that id. *)
Definition free ws (id : string) w : Prop := ∀ q, request_of w id = Some q → gq_workspace_id q = ws.
#[export] Instance free_stable ws id : Stable ws (free ws id).
Proof.
  intros w w' Ht Hf q Hq. destruct (decide (gq_workspace_id q = ws)) as [|Hne]; [done|].
  apply Hf. by apply (to_requests _ _ _ Ht id q Hne).
Qed.
(** The names still to be drawn are none that another workspace's boundary has. *)
Definition names_fresh ws w : Prop := ∀ n b, (en_drawn (w_entropy w) ≤ n)%nat →
  registry_get ("bnd_" ^+ en_source (w_entropy w) 12 n) (w_registry w) = Some b → b_workspace_id b = ws.
#[export] Instance names_fresh_stable ws : Stable ws (names_fresh ws).
Proof.
  intros w w' Ht Hf n b Hn Hb. destruct (decide (b_workspace_id b = ws)) as [|Hne]; [done|].
  destruct (to_names _ _ _ Ht) as [Hs Hd]. rewrite Hs in Hb. apply (Hf n); [lia|].
  by apply (to_boundaries _ _ _ Ht _ b Hne).
Qed.

Section rules.
Context (ws : string) (P : World G A → Prop) `{HP : !Stable ws P}.
Lemma serves_ret {X} (Q : X → Prop) x : Q x → serves ws P Q (mret x).
Proof. intros Hx w r w' Hk Hw [= <- <-]. by split_and!. Qed.
Lemma serves_raise {X} (Q : X → Prop) e : serves ws P Q (raise e).
Proof. intros w r w' Hk Hw [= <- <-]. by split_and!. Qed.
Lemma serves_lift {X} (Q : X → Prop) (o : result X) : post Q o → serves ws P Q (lift o).
Proof. intros Ho w r w' Hk Hw [= <- <-]. by split_and!. Qed.
Lemma serves_lift_any {X} (o : result X) : serves ws P (λ _, True) (lift o).
Proof. apply serves_lift. by destruct o. Qed.
Lemma serves_gets {X} (Q : X → Prop) (f : World G A → X) :
  (∀ w, keyed w → P w → Q (f w)) → serves ws P Q (gets f).
Proof. intros Hf w r w' Hk Hw [= <- <-]. split_and!; [done..|by apply Hf]. Qed.
Lemma serves_bind {X Y} (Q : X → Prop) (R : Y → Prop) (m : M (World G A) X) f :
  serves ws P Q m → (∀ x, Q x → serves ws P R (f x)) → serves ws P R (m ≫= f).
Proof.
  intros Hm Hf w r w' Hk Hw Hrun. unfold mbind, M_bind in Hrun.
  destruct (m w) as [[x|e] w1] eqn:E; destruct (Hm _ _ _ Hk Hw E) as (Hk1 & Ht1 & Hx).
  - destruct (Hf x Hx w1 r w' Hk1 (stable _ _ Ht1 Hw) Hrun) as (Hk2 & Ht2 & Hr).
    split_and!; [done|by etrans|done].
  - injection Hrun as <- <-. by split_and!.
Qed.
(** Reading something, and what is then known of the state. *)
Lemma serves_learn {X Y} (K : X → World G A → Prop) `{!∀ x, Stable ws (K x)} (R : Y → Prop)
    (F : World G A → X) f :
  (∀ w, keyed w → P w → K (F w) w) → (∀ x, serves ws (λ w, P w ∧ K x w) R (f x)) →
  serves ws P R (gets F ≫= f).
Proof. intros HK Hf w r w' Hk Hw Hrun. exact (Hf (F w) w r w' Hk (conj Hw (HK w Hk Hw)) Hrun). Qed.
Lemma serves_weaken {X} (P' : World G A → Prop) (Q : X → Prop) (m : M (World G A) X) :
  (∀ w, P w → P' w) → serves ws P' Q m → serves ws P Q m.
Proof. intros HPP Hm w r w' Hk Hw. apply Hm; auto. Qed.
Lemma serves_mono {X} (Q R : X → Prop) (m : M (World G A) X) :
  (∀ x, Q x → R x) → serves ws P Q m → serves ws P R m.
Proof.
  intros HQR Hm w r w' Hk Hw Hrun. destruct (Hm _ _ _ Hk Hw Hrun) as (? & ? & Hr).
  split_and!; [done..|]. destruct r; [by apply HQR|done].
Qed.
Lemma serves_try {X} (Q : X → Prop) (m : M (World G A) X) h :
  serves ws P Q m → (∀ e, serves ws P Q (h e)) → serves ws P Q (try_except m h).
Proof.
  intros Hm Hh w r w' Hk Hw Hrun. unfold try_except in Hrun.
  destruct (m w) as [[x|e] w1] eqn:E; destruct (Hm _ _ _ Hk Hw E) as (Hk1 & Ht1 & Hx).
  - injection Hrun as <- <-. by split_and!.
  - destruct (Hh e w1 r w' Hk1 (stable _ _ Ht1 Hw) Hrun) as (Hk2 & Ht2 & Hr).
    split_and!; [done|by etrans|done].
Qed.
Lemma serves_mapM {X Y} (Q : Y → Prop) (f : X → M (World G A) Y) l :
  (∀ x, x ∈ l → serves ws P Q (f x)) → serves ws P (Forall Q) (mapM f l).
Proof.
  induction l as [|x l IH]; intros Hf; cbn [mapM]; [apply serves_ret; constructor|].
  apply (serves_bind Q); [apply Hf; by left|]. intros y Hy.
  apply (serves_bind (Forall Q)); [apply IH; intros z Hz; apply Hf; by right|]. intros k Hk.
  apply serves_ret. by constructor.
Qed.

(** *** The operations of the parts *)

(** A step that leaves the entities alone. *)
Lemma serves_quiet {X} (Q : X → Prop) (m : M (World G A) X) :
  (∀ w r w', keyed w → m w = (r, w') → post Q r ∧ wf w' ∧ grants w' = grants w ∧
     w_requests w' = w_requests w ∧ w_rules w' = w_rules w ∧ w_registry w' = w_registry w ∧
     w_bounds w' = w_bounds w ∧ w_tokens w' = w_tokens w ∧ w_settings w' = w_settings w ∧
     w_pop w' = w_pop w ∧ w_throttle w' = w_throttle w ∧
     (en_source (w_entropy w') = en_source (w_entropy w) ∧
      (en_drawn (w_entropy w) ≤ en_drawn (w_entropy w'))%nat) ∧
     ∃ l, log w' = log w ++ l ∧ ∀ e, e ∈ l → e_workspace_id e = ws) → serves ws P Q m.
Proof.
  intros Hm w r w' Hk _ Hrun.
  destruct (Hm _ _ _ Hk Hrun) as (Hr & Hwf & Hg & Hq & Hru & Hb & ? & ? & ? & ? & ? & ? & Hl).
  split; [|split; [|done]].
  - destruct Hk as [_ Kq Kr Kb]. constructor; [done| | |]; unfold request_of in *; by rewrite ?Hq, ?Hru, ?Hb.
  - constructor; unfold request_of; rewrite ?Hg, ?Hq, ?Hru, ?Hb; by try done.
Qed.
Ltac quiet := split_and!; try done; try (exists []; rewrite app_nil_r; split; [done|by intros ? ?%elem_of_nil]).
Lemma serves_draw n : serves ws P (λ _, True) (on_entropy (G := G) (A := A) (token_urlsafe n)).
Proof.
  apply serves_quiet. intros w r w' Hk [= <- <-]. split; [done|]. destruct Hk as [Hwf _ _ _]. quiet.
  cbn. lia.
Qed.
Lemma serves_write e : e_workspace_id e = ws → serves ws P (λ _, True) (on_audit (G := G) (A := A) (aw_write e)).
Proof.
  intros He. apply serves_quiet. intros w r w' Hk Hrun.
  destruct (write_audit_run e w) as (r1 & a & Hr & Hlog). rewrite Hr in Hrun. injection Hrun as <- <-.
  split; [by destruct r1|]. destruct Hk as [Hwf _ _ _]. split_and!; try done.
  exists (match r1 with Ok _ => [e] | Raise _ => [] end). change (log (set_audit a w)) with (aw_log a).
  rewrite Hlog. destruct r1; [split; [done|by intros e' ->%list_elem_of_singleton]|].
  rewrite app_nil_r. split; [done|by intros e' ?%elem_of_nil].
Qed.
Lemma serves_rejection e : e_workspace_id e = ws →
  serves ws P (λ _, True) (on_audit (G := G) (A := A) (record_rejection e)).
Proof.
  intros He. apply serves_quiet. intros w r w' Hk Hrun.
  destruct (record_rejection_run e (w_audit w)) as (b & a & Hr & Hlog).
  unfold on_audit, zoom in Hrun. rewrite Hr in Hrun. injection Hrun as <- <-.
  split; [done|]. destruct Hk as [Hwf _ _ _]. split_and!; try done.
  exists (if b : bool then [e] else []). change (log (set_audit a w)) with (aw_log a). rewrite Hlog.
  destruct b; [split; [done|by intros e' ->%list_elem_of_singleton]|].
  rewrite app_nil_r. split; [done|by intros e' ?%elem_of_nil].
Qed.
Lemma serves_get ref : serves ws P (λ _, True) (on_grants (G := G) (A := A) (gr_get_by_ref ref)).
Proof.
  apply serves_quiet. intros w r w' Hk Hrun. unfold on_grants, zoom in Hrun.
  destruct (gr_get_by_ref ref (w_grants w)) as [o g'] eqn:E. injection Hrun as <- <-.
  destruct Hk as [Hwf _ _ _]. destruct (gr_get_ok ref _ _ _ Hwf E) as (Hwf' & Hv & _).
  split; [by destruct o|]. quiet.
Qed.
Lemma serves_list agent status :
  serves ws P (λ l, ∀ g, g ∈ l → g_workspace_id g = ws)
    (on_grants (G := G) (A := A) (gr_list_grants_for_workspace ws agent status)).
Proof.
  apply serves_quiet. intros w r w' Hk Hrun. unfold on_grants, zoom in Hrun.
  destruct (gr_list_grants_for_workspace ws agent status (w_grants w)) as [o g'] eqn:E. injection Hrun as <- <-.
  destruct Hk as [Hwf _ _ _]. destruct (gr_list_ok ws agent status _ _ _ Hwf E) as (Hwf' & Hv & Ho).
  split; [|quiet]. destruct o as [l|]; [|done]. intros g Hg. by apply (Ho l eq_refl) in Hg as (_ & ? & _).
Qed.

(** A grant of [ws] written where no other workspace had one. *)
Lemma tenant_grant w w' ref g :
  grants w' = <[ref := g]> (grants w) → g_workspace_id g = ws →
  (∀ g0, grants w !! ref = Some g0 → g_workspace_id g0 = ws) →
  w_requests w' = w_requests w → w_rules w' = w_rules w → w_registry w' = w_registry w →
  w_bounds w' = w_bounds w → w_tokens w' = w_tokens w → w_settings w' = w_settings w →
  w_pop w' = w_pop w → w_throttle w' = w_throttle w → w_entropy w' = w_entropy w → log w' = log w →
  tenant_only ws w w'.
Proof.
  intros Hv Hg Hold Hq Hru Hb ? ? ? ? ? Hen Hl. constructor; unfold request_of; rewrite ?Hq, ?Hru, ?Hb; try done.
  - intros ref' x Hx. rewrite Hv. destruct (decide (ref' = ref)) as [->|Hne].
    + rewrite lookup_insert_eq. split; [intros [= <-]; done|]. intros Hx0. by destruct (Hx (Hold _ Hx0)).
    + by rewrite lookup_insert_ne.
  - by rewrite Hen.
  - exists []. rewrite app_nil_r. split; [done|by intros e ?%elem_of_nil].
Qed.
Lemma keyed_grants w g' : keyed w → gr_wf g' → keyed (set_grants g' w).
Proof. by intros [_ Kq Kr Kb] Hwf. Qed.
Lemma serves_insert g : g_workspace_id g = ws →
  serves ws P (λ _, True) (on_grants (G := G) (A := A) (gr_insert g)).
Proof.
  intros Hg w r w' Hk _ Hrun. unfold on_grants, zoom in Hrun.
  destruct (gr_insert g (w_grants w)) as [o g'] eqn:E. injection Hrun as <- <-.
  destruct (gr_insert_ok g _ _ _ (ky_grants _ Hk) E) as (Hwf & Hv & _).
  split; [by apply keyed_grants|]. split; [|by destruct o]. destruct o as [[]|e].
  - destruct Hv as [Hn Hv]. apply (tenant_grant _ _ (g_grant_ref g) g); try done.
    intros g0 Hg0. unfold grants in Hg0. congruence.
  - constructor; try done; [intros ref x _; unfold grants; cbn; by rewrite Hv|].
    exists []. rewrite app_nil_r. split; [done|by intros e' ?%elem_of_nil].
Qed.
Lemma serves_revoke ref :
  serves ws P (λ o, ∀ g, o = Some g → g_workspace_id g = ws) (on_grants (G := G) (A := A) (gr_revoke ref ws)).
Proof.
  intros w r w' Hk _ Hrun. unfold on_grants, zoom in Hrun.
  destruct (gr_revoke ref ws (w_grants w)) as [o g'] eqn:E. injection Hrun as <- <-.
  destruct (gr_revoke_ok ref ws _ _ _ (ky_grants _ Hk) E) as (Hwf & Hv).
  split; [by apply keyed_grants|]. assert (Hsame : gr_view g' = gr_view (w_grants w) →
    tenant_only ws w (set_grants g' w)).
  { intros Hs. constructor; try done; [intros ref' x _; unfold grants; cbn; by rewrite Hs|].
    exists []. rewrite app_nil_r. split; [done|by intros e' ?%elem_of_nil]. }
  destruct o as [[x|]|e].
  - destruct Hv as (x0 & Hx0 & Hws & -> & Hv). split.
    + apply (tenant_grant _ _ ref (revoked x0)); try done. intros g0 Hg0. unfold grants in Hg0. congruence.
    + by intros g [= <-].
  - split; [by apply Hsame, Hv|done].
  - split; [by apply Hsame|done].
Qed.

(** *** Requests *)
Lemma tenant_request w id q :
  gq_workspace_id q = ws → free ws id w →
  tenant_only ws w (set_requests (mkRequests (dset id q (_requests_by_id (w_requests w)))) w).
Proof.
  intros Hq Hf. constructor; try done.
  - intros id' x Hx. unfold request_of, get_request. cbn. rewrite dget_dset. case_decide as Hid; [|done].
    subst id'. split; [intros [= <-]; done|]. intros Hx0. by destruct (Hx (Hf x Hx0)).
  - exists []. rewrite app_nil_r. split; [done|by intros e ?%elem_of_nil].
Qed.
Lemma keyed_request w q :
  keyed w → keyed (set_requests (mkRequests (dset (gq_request_id q) q (_requests_by_id (w_requests w)))) w).
Proof.
  intros [Kg Kq Kr Kb]. constructor; try done. intros id x. unfold request_of, get_request. cbn.
  rewrite dget_dset. case_decide; [by intros [= <-]|apply Kq].
Qed.
Lemma serves_insert_request q :
  gq_workspace_id q = ws → serves ws P (λ _, True) (on_requests (G := G) (A := A) (insert_request q)).
Proof.
  intros Hq w r w' Hk _ Hrun. unfold on_requests, zoom, insert_request in Hrun.
  destruct (din _ _) eqn:Ed; injection Hrun as <- <-.
  - assert (Hid : set_requests (w_requests w) w = w) by (by destruct w). rewrite Hid. by split_and!.
  - split; [by apply keyed_request|]. split; [|done]. apply tenant_request; [done|].
    intros x Hx. apply din_false in Ed. unfold request_of, get_request in Hx. congruence.
Qed.
Lemma serves_write_request (decide : bool) q :
  gq_workspace_id q = ws → (∀ w, P w → free ws (gq_request_id q) w) →
  serves ws P (λ _, True) (on_requests (G := G) (A := A)
    (if decide then decide_request q else (_ ← update_request q; mret true))).
Proof.
  intros Hq Hf w r w' Hk Hw Hrun. unfold on_requests, zoom in Hrun.
  assert (Hid : set_requests (w_requests w) w = w) by (by destruct w).
  assert (Hset : keyed (set_requests (mkRequests (dset (gq_request_id q) q (_requests_by_id (w_requests w)))) w) ∧
    tenant_only ws w (set_requests (mkRequests (dset (gq_request_id q) q (_requests_by_id (w_requests w)))) w)).
  { split; [by apply keyed_request|apply tenant_request; auto]. }
  destruct Hset as [Hset1 Hset2].
  destruct decide.
  - unfold decide_request in Hrun. destruct (dget _ _) as [x|]; [destruct (negb _)|];
      injection Hrun as <- <-; rewrite ?Hid; by split_and!.
  - unfold mbind, M_bind, update_request in Hrun. destruct (negb _); injection Hrun as <- <-;
      rewrite ?Hid; by split_and!.
Qed.

(** *** Rules and boundaries *)

Lemma tenant_rule w id x :
  aar_workspace_id x = ws → (∀ y, get_rule id (w_rules w) = Some y → aar_workspace_id y = ws) →
  tenant_only ws w (set_rules (mkRules (dset id x (_rules_by_id (w_rules w)))) w).
Proof.
  intros Hx Hf. constructor; try done.
  - intros id' y Hy. unfold get_rule. cbn. rewrite dget_dset. case_decide as Hid; [|done].
    subst id'. split; [intros [= <-]; done|]. intros Hy0. by destruct (Hy (Hf y Hy0)).
  - exists []. rewrite app_nil_r. split; [done|by intros e ?%elem_of_nil].
Qed.
Lemma keyed_rule w x :
  keyed w → keyed (set_rules (mkRules (dset (aar_rule_id x) x (_rules_by_id (w_rules w)))) w).
Proof.
  intros [Kg Kq Kr Kb]. constructor; try done. intros id y. unfold get_rule. cbn.
  rewrite dget_dset. case_decide; [by intros [= <-]|apply Kr].
Qed.
Lemma set_rules_id w : set_rules (w_rules w) w = w.
Proof. by destruct w. Qed.
Lemma serves_create_rule rule : aar_workspace_id rule = ws →
  serves ws P (λ x, aar_workspace_id x = ws) (on_rules (G := G) (A := A) (create_auto_approval_rule rule)).
Proof.
  intros Hr w r w' Hk _ Hrun. unfold on_rules, zoom, create_auto_approval_rule, mbind, M_bind, lift, add_rule in Hrun.
  destruct (_validate_rule rule); [|injection Hrun as <- <-; rewrite set_rules_id; by split_and!].
  destruct (din _ _) eqn:Ed; injection Hrun as <- <-; [rewrite set_rules_id; by split_and!|].
  split_and!; [by apply keyed_rule| |done]. apply tenant_rule; [done|].
  intros y Hy. apply din_false in Ed. unfold get_rule in Hy. congruence.
Qed.
Lemma serves_disable_rule id by_ now :
  serves ws P (λ o, ∀ x, o = Some x → aar_workspace_id x = ws)
    (on_rules (G := G) (A := A) (disable_auto_approval_rule id ws by_ now)).
Proof.
  intros w r w' Hk _ Hrun. unfold on_rules, zoom, disable_auto_approval_rule in Hrun.
  rewrite (bind_run _ _ _ (get_rule id (w_rules w)) (w_rules w)) in Hrun by done.
  destruct (get_rule id (w_rules w)) as [x|] eqn:Ex;
    [|injection Hrun as <- <-; rewrite set_rules_id; by split_and!].
  destruct (String.eqb_spec (aar_workspace_id x) ws) as [Hx|];
    [|injection Hrun as <- <-; rewrite set_rules_id; by split_and!].
  unfold mbind, M_bind, update_rule in Hrun. cbn [negb] in Hrun.
  destruct (negb _); injection Hrun as <- <-; [rewrite set_rules_id; by split_and!|].
  pose proof (ky_rules _ Hk id x Ex) as Hid. cbn [aar_disable aar_rule_id].
  split_and!; [by apply (keyed_rule w (aar_disable x by_ now))| |by intros y [= <-]].
  apply tenant_rule; [done|]. intros y Hy. rewrite Hid in Hy. congruence.
Qed.

Lemma tenant_boundary w b :
  b_workspace_id b = ws →
  (∀ b0, registry_get (b_boundary_id b) (w_registry w) = Some b0 → b_workspace_id b0 = ws) →
  keyed w → let w' := set_registry (registry_add b (w_registry w)).2 w in keyed w' ∧ tenant_only ws w w'.
Proof.
  intros Hb Hf [Kg Kq Kr Kb]. split; constructor; try done.
  - intros id b'. unfold registry_get. cbn. rewrite dget_dset. case_decide; [by intros [= <-]|apply Kb].
  - intros id b' Hb'. unfold registry_get. cbn. rewrite dget_dset. case_decide as Hid; [|done].
    subst id. split; [intros [= <-]; done|]. intros Hb0. by destruct (Hb' (Hf b' Hb0)).
  - exists []. rewrite app_nil_r. split; [done|by intros e ?%elem_of_nil].
Qed.
Lemma set_registry_id w : set_registry (w_registry w) w = w.
Proof. by destruct w. Qed.
Lemma serves_rewrite_boundary id (f : Boundary → Boundary) (m : M BoundaryRegistry (option Boundary)) :
  (∀ b, b_boundary_id (f b) = b_boundary_id b ∧ b_workspace_id (f b) = b_workspace_id b) →
  (∀ r, m r = match registry_get id r with
     | Some b => if b_workspace_id b == ws
                 then (Ok (Some (f b)), (registry_add (f b) r).2) else (Ok None, r)
     | None => (Ok None, r)
     end) →
  serves ws P (λ o, ∀ b, o = Some b → b_workspace_id b = ws) (on_registry (G := G) (A := A) m).
Proof.
  intros Hf Hm w r w' Hk _ Hrun. unfold on_registry, zoom in Hrun. rewrite Hm in Hrun.
  destruct (registry_get id (w_registry w)) as [b|] eqn:Eb;
    [|injection Hrun as <- <-; rewrite set_registry_id; by split_and!].
  destruct (String.eqb_spec (b_workspace_id b) ws) as [Hb|];
    [|injection Hrun as <- <-; rewrite set_registry_id; by split_and!].
  injection Hrun as <- <-. destruct (Hf b) as [Hid Hws]. destruct (tenant_boundary w (f b)) as [? ?];
    [congruence| |done|].
  - intros b0 Hb0. rewrite Hid, (ky_boundaries _ Hk id b Eb), Eb in Hb0. congruence.
  - split_and!; [done..|]. intros b' [= <-]. congruence.
Qed.
Lemma own_boundary_run id (r : BoundaryRegistry) : get_boundary_for_workspace id ws r =
  (Ok match registry_get id r with
      | Some b => if negb (b_workspace_id b == ws) then None else Some b
      | None => None
      end, r).
Proof. done. Qed.
Lemma serves_set_boundary (enable : bool) id now principal clock :
  serves ws P (λ o, ∀ b, o = Some b → b_workspace_id b = ws)
    (on_registry (G := G) (A := A) ((if enable then enable_boundary else disable_boundary)
       id ws now principal clock)).
Proof.
  apply (serves_rewrite_boundary id (λ b, if enable
    then if b_status b == "active" then b else with_status b "active" (obj_or now clock)
    else with_status b "disabled" (obj_or now clock))).
  - intros b. destruct enable; [destruct (b_status b == "active")|]; by split.
  - intros r. destruct enable; unfold enable_boundary, disable_boundary;
      rewrite (bind_run _ _ _ _ _ (own_boundary_run id r));
      destruct (registry_get id r) as [b|]; try done; destruct (b_workspace_id b == ws); try done.
    cbn [negb]. by destruct (b_status b == "active").
Qed.
Lemma serves_get_boundary id :
  serves ws P (λ o, ∀ b, o = Some b → b_workspace_id b = ws)
    (on_registry (G := G) (A := A) (get_boundary_for_workspace id ws)).
Proof.
  intros w r w' Hk _ Hrun. unfold on_registry, zoom in Hrun.
  rewrite own_boundary_run in Hrun. injection Hrun as <- <-. rewrite set_registry_id. split_and!; [done..|].
  intros b. destruct (registry_get id (w_registry w)) as [b0|]; [|done].
  destruct (String.eqb_spec (b_workspace_id b0) ws); [by intros [= <-]|done].
Qed.
Lemma serves_register reg now principal :
  br_workspace_id reg = ws → (∀ w, P w → names_fresh ws w) →
  serves ws P (λ b, b_workspace_id b = ws) (svc_register_boundary (G := G) (A := A) reg now principal).
Proof.
  intros Hreg Hf w r w' Hk Hw Hrun. unfold svc_register_boundary, on_registry, zoom, register_boundary in Hrun.
  destruct (negb (br_mode reg == _)); [injection Hrun as <- <-; rewrite set_registry_id; by split_and!|].
  destruct (negb (_ || _)); [injection Hrun as <- <-; rewrite set_registry_id; by split_and!|].
  rewrite (bind_run _ _ _ (existsb (λ b, b_name b == br_name reg)
    (registry_list_for_workspace (br_workspace_id reg) (w_registry w))) (w_registry w)) in Hrun by done.
  destruct (existsb _ _); [injection Hrun as <- <-; rewrite set_registry_id; by split_and!|].
  cbv zeta in Hrun. unfold dispatch_add in Hrun. cbn in Hrun. injection Hrun as <- <-.
  match goal with |- context [dset _ ?b _] => destruct (tenant_boundary w b) as [Hk1 Ht1]; [done| |done|] end.
  - intros b0 Hb0. by apply (Hf w Hw (en_drawn (w_entropy w)) b0).
  - split_and!; [by destruct Hk1; constructor| |done]. etrans; [exact Ht1|].
    constructor; try done; [split; [done|cbn; lia]|].
    exists []. rewrite app_nil_r. split; [done|by intros e ?%elem_of_nil].
Qed.
End rules.

End serves.

(** ** The operations of the service *)

(** The workspace of what is written. *)
Ltac ours := first [done|eassumption|cbn; congruence|cbn; by eauto].
Create HintDb serves discriminated.
#[export] Hint Constants Opaque : serves.
#[export] Hint Extern 3 (Stable _ _) => typeclasses eauto : serves.
#[export] Hint Resolve serves_draw serves_get serves_list serves_revoke : serves.
#[export] Hint Extern 1 (serves _ _ _ (on_audit (aw_write _))) =>
  apply serves_write; ours : serves.
#[export] Hint Extern 1 (serves _ _ _ (on_audit (record_rejection _))) =>
  apply serves_rejection; ours : serves.
#[export] Hint Extern 1 (serves _ _ _ (on_grants (gr_insert _))) =>
  apply serves_insert; ours : serves.
#[export] Hint Extern 2 (serves _ _ _ (gets _)) =>
  apply (serves_gets _ _ (λ _, True)); done : serves.
#[export] Hint Extern 2 (serves _ _ _ (lift _)) =>
  apply serves_lift_any : serves.

(** Peel an operation into the operations of its parts. *)
Ltac served_step :=
  match goal with
  | |- serves _ _ _ (mret _) => apply serves_ret
  | |- serves _ _ _ (raise _) => apply serves_raise
  | |- serves _ _ _ (match ?x with _ => _ end) => destruct x eqn:?
  | |- serves _ _ _ (try_except _ _ ≫= _) =>
      apply (serves_bind _ _ (λ _, True)); [apply serves_try; [typeclasses eauto| |intros ?]|intros ? _]
  | |- serves _ _ _ (_ ≫= _) => eapply serves_bind; [typeclasses eauto|solve [eauto with serves]|intros ? ?]
  | |- serves _ _ _ (let _ := _ in _) => intros ?
  | |- serves _ _ _ _ => progress cbv beta zeta
  end.
Ltac served := repeat served_step.

Section operations.
Context {G A : Type} `{HG : GrantLifecycleOk G} `{HA : AuditWriterOk A}.
Implicit Types (w : World G A).
Context (ws : string) (P : World G A → Prop) `{HP : !Stable ws P}.
Lemma serves_new_event_id : serves ws P (λ _, True) (new_event_id (G := G) (A := A)).
Proof. unfold new_event_id. by served. Qed.
Lemma serves_new_id prefix : serves ws P (λ _, True) (_new_id (G := G) (A := A) prefix).
Proof. unfold _new_id. by served. Qed.
#[local] Hint Resolve serves_new_event_id serves_new_id : serves.
Lemma serves_given_or_new given prefix :
  serves ws P (λ _, True) (given_or_new (G := G) (A := A) given prefix).
Proof. unfold given_or_new. served; eauto with serves. Qed.
#[local] Hint Resolve serves_given_or_new : serves.

Lemma serves_record_issue request code now : gi_workspace_id request = ws →
  serves ws P (λ _, True) (_record_issue_rejection (G := G) (A := A) request code now).
Proof. intros Hws. unfold _record_issue_rejection. by served. Qed.
#[local] Hint Resolve serves_record_issue : serves.
Definition grant_in (ws : string) (o : option Grant) : Prop := ∀ g, o = Some g → g_workspace_id g = ws.
Lemma serves_issue_accepted request ttl now : gi_workspace_id request = ws →
  serves ws P (λ r, grant_in ws (gir_grant r)) (issue_accepted (G := G) (A := A) request ttl now).
Proof.
  intros Hws. unfold issue_accepted. served; try done.
  by intros g [= <-].
Qed.
Lemma serves_issue request now : gi_workspace_id request = ws →
  serves ws P (λ r, grant_in ws (gir_grant r)) (issue_grant (G := G) (A := A) request now).
Proof. intros Hws. unfold issue_grant. served; try done; by apply serves_issue_accepted. Qed.
Lemma serves_lookup_grant ref :
  serves ws P (grant_in ws) (lookup_grant (G := G) (A := A) ref ws).
Proof.
  unfold lookup_grant. served. intros g. destruct x as [g0|]; [|done].
  destruct (String.eqb_spec (g_workspace_id g0) ws); [by intros [= <-]|done].
Qed.
Lemma serves_revoke_grant ref now :
  serves ws P (λ o, ∀ g id, o = Some (g, id) → g_workspace_id g = ws)
    (revoke_grant (G := G) (A := A) ref ws now).
Proof. unfold revoke_grant. served; try done. intros g' id [= <- <-]. auto. Qed.
#[local] Hint Extern 1 (serves _ _ _ (issue_grant _ _)) => eapply serves_issue; [typeclasses eauto|ours] : serves.

(** What a lookup in the workspace finds, and that it stays there. *)
Definition found_request (id : string) (o : option GrantRequest) w : Prop :=
  ∀ q, o = Some q → gq_workspace_id q = ws ∧ gq_request_id q = id ∧ free ws (gq_request_id q) w.
#[local] Instance found_request_stable id o : Stable ws (found_request id o).
Proof. intros w w' Ht Hf q Hq. destruct (Hf q Hq) as (? & ? & ?). split_and!; [done..|by eapply free_stable]. Qed.
Lemma lookup_found id w : keyed w → found_request id (lookup_grant_request id ws w) w.
Proof.
  intros Hk q. unfold lookup_grant_request. destruct (get_request id (w_requests w)) as [q0|] eqn:Eq; [|done].
  destruct (String.eqb_spec (gq_workspace_id q0) ws) as [Hq|]; [|done]. intros [= <-].
  pose proof (ky_requests _ Hk id q0 Eq) as Hid. split_and!; [done..|]. rewrite Hid.
  intros q Hq1. unfold request_of in Hq1. congruence.
Qed.
Definition request_in (o : option GrantRequest) : Prop := ∀ q, o = Some q → gq_workspace_id q = ws.
Definition decided_in (r : GrantRequestDecisionResult) : Prop :=
  request_in (gdr_request r) ∧ grant_in ws (gdr_grant r).

Lemma serves_create_request request now : gc_workspace_id request = ws →
  serves ws P (λ r, request_in (gcr_request r)) (create_grant_request (G := G) (A := A) request now).
Proof.
  intros Hws. unfold create_grant_request. served; try done; [|by intros q [= <-]].
  eapply serves_bind; [typeclasses eauto|by apply serves_insert_request|]. intros ? _. by apply serves_ret.
Qed.
Lemma serves_claim q : gq_workspace_id q = ws → (∀ w, P w → free ws (gq_request_id q) w) →
  serves ws P (λ _, True) (on_requests (G := G) (A := A) (decide_request q)).
Proof. intros Hq Hf. by apply (serves_write_request ws P true q Hq Hf). Qed.
Lemma serves_release q : gq_workspace_id q = ws → (∀ w, P w → free ws (gq_request_id q) w) →
  serves ws P (λ _, True) (on_requests (G := G) (A := A) (update_request q)).
Proof.
  intros Hq Hf w r w' Hk Hw Hrun. unfold on_requests, zoom in Hrun.
  destruct (update_request q (w_requests w)) as [o s] eqn:E. injection Hrun as <- <-.
  destruct (serves_write_request ws P false q Hq Hf w
    (match o with Ok _ => Ok true | Raise e => Raise e end) (set_requests s w) Hk Hw) as (? & ? & ?);
    [|by split_and!; [..|destruct o]].
  unfold on_requests, zoom, mbind, M_bind. rewrite E. by destruct o.
Qed.


(** The continuation of a lookup, given what is known of its answer. *)
Lemma serves_looked_up {X} (R : X → Prop) id f :
  serves ws P R (f None) →
  (∀ q, gq_workspace_id q = ws → gq_request_id q = id →
     serves ws (λ w, P w ∧ free ws (gq_request_id q) w) R (f (Some q))) →
  serves ws P R (gets (lookup_grant_request (G := G) (A := A) id ws) ≫= f).
Proof.
  intros Hnone Hsome w r w' Hk Hw Hrun. rewrite (bind_run _ _ w (lookup_grant_request id ws w) w) in Hrun by done.
  pose proof (lookup_found id w Hk) as Hf. destruct (lookup_grant_request id ws w) as [q|]; [|by eapply Hnone].
  destruct (Hf q eq_refl) as (Hq & Hid & Hfree). by eapply (Hsome q Hq Hid).
Qed.
End operations.
#[export] Hint Resolve serves_new_event_id serves_new_id serves_given_or_new serves_record_issue : serves.
#[export] Hint Extern 1 (serves _ _ _ (issue_grant _ _)) => eapply serves_issue; [typeclasses eauto|ours] : serves.
#[export] Hint Extern 1 (serves _ _ _ (on_requests (decide_request _))) =>
  apply serves_claim; [ours|by intros ? []] : serves.
#[export] Hint Extern 1 (serves _ _ _ (on_requests (update_request _))) =>
  apply serves_release; [ours|by intros ? []] : serves.

Lemma evaluate_request request rules : aer_request (evaluate_auto_approval request rules) = request.
Proof.
  unfold evaluate_auto_approval. destruct (negb _); [done|]. generalize false at 1 as s, false at 1 as t.
  induction (list_rules_for_workspace _ rules) as [|x l IH]; intros s t; cbn [evaluate_rules].
  - by destruct t, s.
  - destruct (_ || _); [apply IH|]. destruct (negb _); [apply IH|]. by destruct (_ <? _); [apply IH|].
Qed.
Section decisions.
Context {G A : Type} `{HG : GrantLifecycleOk G} `{HA : AuditWriterOk A}.
Context (ws : string) (P : World G A → Prop) `{HP : !Stable ws P}.
Lemma serves_reject id by_ reason now :
  serves ws P (decided_in ws) (reject_grant_request (G := G) (A := A) id ws by_ reason now).
Proof.
  unfold reject_grant_request. apply serves_looked_up; [by served|]. intros q Hq Hid.
  served; try done. by split; [intros ? [= <-]|].
Qed.
Lemma serves_approve id by_ reason now et ar aa :
  serves ws P (decided_in ws) (approve_grant_request (G := G) (A := A) id ws by_ reason now et ar aa).
Proof.
  unfold approve_grant_request. apply serves_looked_up; [by served|]. intros q Hq Hid.
  served; try done. split; [by intros ? [= <-]|]. intros ? [= <-]. auto.
Qed.
Lemma serves_auto_approve id by_ now :
  serves ws P (decided_in ws) (auto_approve_grant_request (G := G) (A := A) id ws by_ now).
Proof.
  unfold auto_approve_grant_request. apply serves_looked_up; [by served|]. intros q Hq Hid.
  apply (serves_bind _ _ (λ e, aer_request e = q)); [apply serves_gets; intros; apply evaluate_request|].
  intros e He. rewrite Hq. served; try (by split; [intros ? [= <-]; rewrite He|]).
  eapply serves_bind; [typeclasses eauto|apply serves_weaken with P; [by intros ? []|apply serves_approve]|].
  intros d [Hd1 Hd2]. apply serves_ret. split; [|done]. cbn. intros q0. destruct (gdr_request d); [|by intros [= <-]].
  intros [= <-]. by apply Hd1.
Qed.
End decisions.

(** * Tenant isolation of the administrative endpoints, end to end

    Every call of an administrative endpoint is made for one workspace, that of
    the key it carries: the call leaves every other workspace as it was and its
    answer names no other workspace. *)

(** ** What an answer names *)

(** Every ["workspace_id"] of the value, at any depth, is [ws]. *)
Fixpoint names_only (ws : string) (v : json) : bool :=
  match v with
  | JList l => forallb (names_only ws) l
  | JObj d =>
      forallb (λ kv, (negb (kv.1 == "workspace_id")
                      || match kv.2 with JStr s => s == ws | _ => false end)
                     && names_only ws kv.2) d
  | _ => true
  end.
Definition told (ws : string) (resp : V1HttpResponse) : Prop :=
  names_only ws (JObj (hr_body resp)) = true.
Definition field_ok (ws : string) (kv : string * json) : Prop :=
  (kv.1 = "workspace_id" → kv.2 = JStr ws) ∧ names_only ws kv.2 = true.

Section told.
Context (ws : string).
Lemma names_only_obj d : names_only ws (JObj d) = true ↔ ∀ kv, kv ∈ d → field_ok ws kv.
Proof.
  cbn [names_only]. rewrite forallb_forall. split; intros Hall kv Hkv.
  - apply list_elem_of_In, Hall in Hkv. apply andb_true_iff in Hkv as [Hn Hk]. split; [|done].
    intros E. apply String.eqb_eq in E. rewrite E in Hn. cbn [negb orb] in Hn. destruct kv.2; try done.
    by apply String.eqb_eq in Hn as ->.
  - apply list_elem_of_In, Hall in Hkv as [Hn Hk]. rewrite Hk, andb_true_r.
    destruct (String.eqb_spec kv.1 "workspace_id") as [E|]; [|done]. rewrite (Hn E). cbn.
    by apply String.eqb_eq.
Qed.
Lemma names_only_list {X} (f : X → json) l :
  (∀ x, x ∈ l → names_only ws (f x) = true) → names_only ws (JList (map f l)) = true.
Proof.
  intros Hf. cbn [names_only]. apply forallb_forall. intros v (x & <- & Hx)%in_map_iff.
  by apply Hf, list_elem_of_In.
Qed.
Lemma names_only_strs l : names_only ws (jstrs l) = true.
Proof. by apply names_only_list. Qed.
Lemma names_only_opt o : names_only ws (jopt o) = true.
Proof. by destruct o. Qed.
Lemma names_only_time o : names_only ws (jtime o) = true.
Proof. by destruct o. Qed.
Lemma names_only_merge a b :
  names_only ws (JObj a) = true → names_only ws (JObj b) = true → names_only ws (JObj (dmerge a b)) = true.
Proof.
  unfold dmerge. revert a. induction b as [|[k v] b IH]; intros a Ha Hb; [done|]. cbn [foldl].
  rewrite names_only_obj in Hb. apply IH.
  - rewrite names_only_obj in Ha |- *. intros kv [->|?]%dset_elem; [|by apply Ha].
    apply (Hb (k, v)). by left.
  - apply names_only_obj. intros kv Hkv. apply Hb. by right.
Qed.
Lemma names_only_set k v d :
  field_ok ws (k, v) → names_only ws (JObj d) = true → names_only ws (JObj (dset k v d)) = true.
Proof.
  intros Hkv Hd. rewrite names_only_obj in Hd |- *. intros kv [->|?]%dset_elem; [done|by apply Hd].
Qed.
Lemma told_merge code a b :
  told ws (mkV1HttpResponse code a) → names_only ws (JObj b) = true →
  told ws (mkV1HttpResponse code (dmerge a b)).
Proof. apply names_only_merge. Qed.
Lemma told_error code error reason : told ws (_error code error reason).
Proof. done. Qed.
Lemma told_detail code error reason detail : told ws (error_response code error reason detail).
Proof. by destruct detail. Qed.

(** Field by field. *)
Ltac told_fields := cbn [names_only forallb fst snd]; cbn [String.eqb Ascii.eqb Bool.eqb negb orb andb];
  rewrite ?names_only_strs, ?names_only_opt, ?names_only_time, ?andb_true_r; try done;
  try by apply String.eqb_eq.
Lemma told_grant g : g_workspace_id g = ws → names_only ws (JObj (grant_body g)) = true.
Proof. intros Hg. unfold grant_body. told_fields. Qed.
Lemma told_boundary b : names_only ws (JObj (_boundary_body b)) = true.
Proof. done. Qed.
Lemma told_rule x : aar_workspace_id x = ws → names_only ws (JObj (_rule_body x)) = true.
Proof. intros Hx. unfold _rule_body. told_fields. Qed.
Lemma told_request q : gq_workspace_id q = ws → names_only ws (JObj (_grant_request_body q)) = true.
Proof. intros Hq. unfold _grant_request_body. told_fields. Qed.
Lemma told_agent_request q : gq_workspace_id q = ws → names_only ws (JObj (_agent_grant_request_body q)) = true.
Proof. intros Hq. unfold _agent_grant_request_body. told_fields. Qed.
Lemma told_event e : e_workspace_id e = ws → names_only ws (JObj (_audit_event_body e)) = true.
Proof. intros He. unfold _audit_event_body. destruct (e_occurrence_count e); told_fields. Qed.
End told.

(** ** The parsers refuse with a 400 *)
Lemma refuses_boundary_body body : refuses (parse_v1_boundary_create_body body).
Proof. unfold parse_v1_boundary_create_body. refuses. Qed.
Lemma refuses_list_filters set_order query_string : refuses (_parse_list_filters set_order query_string).
Proof. unfold _parse_list_filters. refuses. Qed.
Lemma refuses_issue_body body : refuses (parse_v1_grant_issue_body body).
Proof. unfold parse_v1_grant_issue_body. refuses. Qed.
Lemma refuses_rule_body body : refuses (parse_v1_auto_approval_rule_create_body body).
Proof. unfold parse_v1_auto_approval_rule_create_body. refuses. Qed.
Lemma refuses_create_body set_order body : refuses (_parse_create_body set_order body).
Proof.
  unfold _parse_create_body. refuses. apply refuses_mapM. intros field. unfold _optional_body_string. refuses.
Qed.
Lemma refuses_auto_approve_body body : refuses (parse_v1_grant_request_auto_approve_body body).
Proof. unfold parse_v1_grant_request_auto_approve_body. refuses. Qed.
Lemma refuses_decision_body body : refuses (parse_v1_grant_request_decision_body body).
Proof. unfold parse_v1_grant_request_decision_body. refuses. Qed.
Lemma refuses_filters set_order int_unicode query_string :
  refuses (_parse_filters set_order int_unicode query_string).
Proof. unfold _parse_filters, parse_limit, parse_verified. refuses. Qed.
#[export] Hint Resolve refuses_boundary_body refuses_list_filters refuses_issue_body refuses_rule_body
  refuses_create_body refuses_auto_approve_body refuses_decision_body refuses_filters : refuses.

(** ** The handlers *)
Section handlers.
Context {G A : Type} `{HG : GrantLifecycleOk G} `{HA : AuditWriterOk A}.
Implicit Types (w : World G A).
Section workspace.
Context (ws : string) (P : World G A → Prop) `{HP : !Stable ws P}.
Context (identity : WorkspaceIdentity) (Hid : wi_workspace_id identity = ws).
Abbreviation answers m := (serves ws P (told ws) (m : M (World G A) V1HttpResponse)).

Lemma answers_value_error m : answers m → answers (value_error_as_400 m).
Proof. intros Hm. apply serves_try; [done..|]. intros e. destruct e; first [by apply serves_ret|by apply serves_raise]. Qed.
Lemma answers_parsed {X} (p : parsed X) k :
  refuses p → (∀ x, answers (k x)) → answers match p with inl r => mret r | inr x => k x end.
Proof.
  intros Hp Hk. destruct p as [r|x]; [|apply Hk]. apply serves_ret. by destruct (Hp r eq_refl) as [reason ->].
Qed.
Lemma told_found {X} (body : X → dict string json) code reason o :
  (∀ x, o = Some x → names_only ws (JObj (body x)) = true) →
  told ws (respond_or_404 code reason body o).
Proof. intros Hb. destruct o as [x|]; [by apply Hb|done]. Qed.
Lemma told_listed {X} (body : X → dict string json) (key : string) l :
  key ≠ "workspace_id" → (∀ x, x ∈ l → names_only ws (JObj (body x)) = true) →
  told ws (mkV1HttpResponse 200 [(key, JList (map (λ x, JObj (body x)) l))]).
Proof.
  intros Hk Hb. unfold told. apply names_only_obj. intros kv ->%list_elem_of_singleton.
  split; [done|]. by apply names_only_list.
Qed.
End workspace.

(** Nothing is done and nothing is told, or all of it is for the workspace of the
    caller. *)
Definition confined (who : M (World G A) (option string)) (P : string → World G A → Prop)
    (m : M (World G A) V1HttpResponse) : Prop :=
  ∀ w r w', keyed w → (∀ ws, P ws w) → m w = (r, w') →
    (w' = w ∧ post (λ resp, ∀ ws, told ws resp) r) ∨
    ∃ ws, who w = (Ok (Some ws), w) ∧ keyed w' ∧ tenant_only ws w w' ∧ post (told ws) r.
Definition workspace_caller {I} (ws_of : I → string) (m : M (World G A) (option I)) :
    M (World G A) (option string) := o ← m; mret (ws_of <$> o).
Definition identifies {I} (m : M (World G A) (option I)) : Prop := ∀ w, (m w).2 = w.
Lemma identifies_header {I} header headers (keys : Keyring (World G A) I) now :
  steady keys → identifies (header_identity header headers keys now).
Proof. intros Hk w. by apply header_identity_steady. Qed.
(** What is done once the caller is known. *)
Lemma confined_known {I} (ws_of : I → string) (who : M (World G A) (option I)) P
    (k : option I → M (World G A) V1HttpResponse) :
  identifies who →
  (∃ resp, k None = mret resp ∧ ∀ ws, told ws resp) →
  (∀ i, serves (ws_of i) (P (ws_of i)) (told (ws_of i)) (k (Some i))) →
  confined (workspace_caller ws_of who) P (who ≫= k).
Proof.
  intros Hwho (resp & Hnone & Htold) Hsome w r w' Hk Hw Hrun. pose proof (Hwho w) as Hsame.
  unfold workspace_caller, mbind, M_bind in *. destruct (who w) as [[[i|]|e] w1]; cbn in Hsame; subst w1.
  - right. exists (ws_of i). split; [done|]. by apply (Hsome i).
  - left. rewrite Hnone in Hrun. by injection Hrun as <- <-.
  - left. by injection Hrun as <- <-.
Qed.

(** Go on with the operation [serves_op] is about. *)
Ltac by_op serves_op := eapply serves_bind; [typeclasses eauto|apply serves_op; first [done|typeclasses eauto]|].
Ltac reads := apply (serves_bind _ _ (λ _, True)); [by apply serves_gets|intros ? _].
Ltac told_simple :=
  match goal with
  | |- told _ (mkV1HttpResponse _ _) => fail
  | |- told _ _ => first [done|apply told_error|apply told_detail]
  | |- True => exact I
  end.
Ltac answered :=
  repeat first [apply answers_parsed; [solve [auto with refuses]|intros ?] | served_step]; try told_simple.
Context (headers : dict string string) (workspaces : Keyring (World G A) WorkspaceIdentity).
Context (Hworkspaces : steady workspaces) (now : Z).
Abbreviation by_workspace :=
  (workspace_caller wi_workspace_id (_workspace_identity headers workspaces now)).
Lemma confined_workspace P k :
  (∀ i, serves (wi_workspace_id i) (P (wi_workspace_id i)) (told (wi_workspace_id i)) (k i)) →
  confined by_workspace P (for_workspace headers workspaces now k).
Proof.
  intros Hk. apply confined_known; [by apply identifies_header|by exists workspace_required|done].
Qed.

Lemma confined_boundaries method path body :
  confined by_workspace names_fresh
    (handle_v1_boundaries_http method path headers body workspaces now).
Proof.
  apply confined_workspace. intros i. answered.
  - unfold _create_boundary, create_v1_boundary_response. answered.
    apply answers_value_error; [typeclasses eauto|]. by_op serves_register. intros b _. apply serves_ret, told_boundary.
  - reads. by answered; apply told_listed.
  - by_op serves_get_boundary. intros o _. answered. by apply told_found.
  - unfold _set_boundary_status. eapply serves_bind; [typeclasses eauto| |].
    + destruct (s0 == "disable"); [apply (serves_set_boundary _ _ false)|apply (serves_set_boundary _ _ true)].
    + intros o _. answered. by apply told_found.
Qed.
Definition anything (ws : string) w : Prop := True.
Lemma confined_grants set_order method path body query_string :
  confined by_workspace anything
    (handle_v1_grants_http set_order method path headers body query_string workspaces now).
Proof.
  apply confined_workspace. intros i. answered.
  - by_op serves_list. intros l Hl. answered. apply told_listed; [done|]. intros g Hg. by apply told_grant, Hl.
  - unfold _issue_grant, issue_v1_grant_response. answered. by_op serves_issue. intros r Hr. answered.
    apply told_merge; [by apply told_grant, Hr|]. apply names_only_obj. intros kv ->%list_elem_of_singleton.
    split; [done|apply names_only_opt].
  - by_op serves_lookup_grant. intros o Ho. answered. apply told_found. intros g Hg. by apply told_grant, Ho.
  - by_op serves_revoke_grant. intros o Ho. answered. apply told_found. intros [g id] Hg.
    apply names_only_merge; [by eapply told_grant, Ho|done].
Qed.

Lemma serves_rules ws P : serves ws P (λ l, ∀ x : AutoApprovalRule, x ∈ l → aar_workspace_id x = ws)
  (gets (λ w, list_auto_approval_rules ws (w_rules w))).
Proof.
  apply serves_gets. intros w _ _ x. unfold list_auto_approval_rules, list_rules_for_workspace.
  rewrite list_elem_of_In, filter_In. by intros [_ ?%String.eqb_eq].
Qed.
Lemma confined_rules method path body :
  confined by_workspace anything
    (handle_v1_auto_approval_rules_http (_new_id "apr") method path headers body workspaces now).
Proof.
  apply confined_workspace. intros i. unfold _create_rule, create_v1_auto_approval_rule_response. answered.
  - apply answers_value_error; [typeclasses eauto|]. eapply serves_bind; [typeclasses eauto|by apply serves_new_id|].
    intros id _. by_op serves_create_rule. intros y Hy. by apply serves_ret, told_rule.
  - by_op serves_rules. intros l Hl. answered. apply told_listed; [done|]. intros x Hx. by apply told_rule, Hl.
  - by_op serves_disable_rule. intros o Ho. answered. apply told_found. intros x Hx. by apply told_rule, Ho.
Qed.

(** *** Requests *)
Section requests.
Context (ws : string) (P : World G A → Prop) `{HP : !Stable ws P}.
Lemma serves_hint request : serves ws P (λ _, True) (_routing_hint request).
Proof. unfold _routing_hint. answered. reads. by answered. Qed.
Lemma serves_hint_body request :
  serves ws P (λ d, names_only ws (JObj d) = true) (_routing_hint_body request).
Proof.
  unfold _routing_hint_body. by_op serves_hint. intros [hint reason] _. by apply serves_ret.
Qed.
Lemma serves_queue_reason request : serves ws P (λ _, True) (_queue_reason request).
Proof. unfold _queue_reason. answered. by_op serves_hint. intros [hint reason] _. by apply serves_ret. Qed.
Lemma serves_workspace_body request : gq_workspace_id request = ws →
  serves ws P (λ d, names_only ws (JObj d) = true) (_workspace_grant_request_body request).
Proof.
  intros Hq. unfold _workspace_grant_request_body. by_op serves_hint_body. intros hint Hhint.
  by_op serves_queue_reason. intros reason _. apply serves_ret. repeat apply names_only_merge;
    [by apply told_request|done|by destruct reason].
Qed.
Lemma told_decision code q d more : gq_workspace_id q = ws → decided_in ws d →
  names_only ws (JObj (("audit_event_id", jopt (gdr_audit_event_id d)) :: more)) = true →
  told ws (mkV1HttpResponse code (decision_body q d more)).
Proof.
  intros Hq [_ Hg] Hmore. unfold told. cbn [hr_body]. unfold decision_body. assert (Hbody : names_only ws (JObj (dmerge (_grant_request_body q)
    (("audit_event_id", jopt (gdr_audit_event_id d)) :: more))) = true).
  { apply names_only_merge; [by apply told_request|done]. }
  destruct (gdr_grant d) as [g|]; [|done]. apply names_only_set; [|done]. split; [done|].
  by apply told_grant, Hg.
Qed.

Lemma answers_create set_order body identity :
  ai_workspace_id identity = ws →
  serves ws P (told ws) (_create_grant_request (S := World G A) set_order body identity now).
Proof.
  intros Hi. unfold _create_grant_request. answered. by_op serves_create_request. intros r Hr. answered.
  by_op serves_hint_body. intros hint Hhint. apply serves_ret.
  repeat apply told_merge; [by apply told_request, Hr|done|by destruct (gcr_audit_event_id r)].
Qed.
Lemma answers_auto_approve request_id identity :
  wi_workspace_id identity = ws →
  serves ws P (told ws) (auto_approve_v1_grant_request_response (S := World G A) request_id identity now).
Proof.
  intros Hi. unfold auto_approve_v1_grant_request_response. rewrite Hi.
  by_op serves_auto_approve. intros d Hd. answered.
  - by_op serves_hint_body. intros hint Hhint. apply serves_ret.
    repeat apply told_merge; [by apply told_request, Hd|done|done].
  - apply told_decision; [by apply Hd|done|].
    by destruct (gdr_audit_event_id d), (gdr_auto_approval_rule_id d).
Qed.
Lemma answers_decide request_id action identity reason :
  wi_workspace_id identity = ws →
  serves ws P (told ws) (decide_v1_grant_request_response (S := World G A) request_id action identity reason now).
Proof.
  intros Hi. unfold decide_v1_grant_request_response. rewrite Hi.
  apply (serves_bind _ _ (decided_in ws)).
  - destruct (action == "approve"); cbn [grs_approve_grant_request grs_reject_grant_request request_service].
    + unfold svc_approve_grant_request. apply serves_approve; typeclasses eauto.
    + apply serves_reject; typeclasses eauto.
  - intros d Hd. answered. apply told_decision; [by apply Hd|done|by destruct (gdr_audit_event_id d)].
Qed.
Definition viewer_workspace (viewer : WorkspaceIdentity + AgentIdentity) : string :=
  match viewer with inl w => wi_workspace_id w | inr a => ai_workspace_id a end.
Lemma answers_get request_id viewer : viewer_workspace viewer = ws →
  serves ws P (told ws) (get_grant_request (S := World G A) request_id viewer).
Proof.
  intros Hv. unfold get_grant_request. replace (match viewer with inl _ => _ | inr _ => _ end) with ws by done.
  apply serves_looked_up; [by answered|]. intros q Hq Hid.
  apply serves_weaken with P; [by intros ? []|]. destruct viewer; answered.
  - by_op serves_workspace_body. intros d Hd. by apply serves_ret.
  - by apply told_agent_request.
Qed.
Lemma answers_decide_route request_id action method body viewer : viewer_workspace viewer = ws →
  serves ws P (told ws) (decide_route (S := World G A) request_id action method body viewer now).
Proof.
  intros Hv. unfold decide_route. destruct viewer; answered; [by apply answers_auto_approve|by apply answers_decide].
Qed.
End requests.

(** Whose key a call about requests carries. *)
Definition requester (method path : string) (agents : Keyring (World G A) AgentIdentity) :
    M (World G A) (option string) :=
  if path == "/v1/grant-requests" then
    if method == "POST"
    then workspace_caller ai_workspace_id (header_identity "x-agent-key" headers agents now)
    else by_workspace
  else workspace_caller viewer_workspace (viewer_of headers workspaces agents now).
Lemma identifies_viewer agents : steady agents → identifies (viewer_of headers workspaces agents now).
Proof.
  intros Hagents w. pose proof (identifies_header "x-workspace-key" headers workspaces now Hworkspaces w) as H1.
  pose proof (identifies_header "x-agent-key" headers agents now Hagents w) as H2.
  unfold viewer_of, _workspace_identity, mbind, M_bind.
  destruct (header_identity "x-workspace-key" _ _ _ w) as [[[i|]|e] w1]; cbn in H1; subst w1; try done.
  by destruct (header_identity "x-agent-key" _ _ _ w) as [[o|e] w1].
Qed.
Lemma confined_requests set_order method path body agents :
  steady agents →
  confined (requester method path agents) anything
    (handle_v1_grant_requests_http set_order method path headers body workspaces agents now).
Proof.
  intros Hagents. unfold handle_v1_grant_requests_http, requester.
  destruct (path == "/v1/grant-requests"); [destruct (method == "POST")|destruct (startswith _ _)].
  - apply confined_known; [by apply identifies_header|eexists; split; [done|done]|].
    intros i. by apply answers_create; [typeclasses eauto|].
  - apply confined_workspace. intros i. answered.
    apply (serves_bind _ _ (λ l, ∀ q, q ∈ l → gq_workspace_id q = wi_workspace_id i)).
    { apply serves_gets. intros w _ _ q. unfold list_grant_requests, list_requests_for_workspace.
      rewrite list_elem_of_In, filter_In. by intros [_ ?%String.eqb_eq]. }
    intros l Hl. apply (serves_bind _ _ (Forall (λ d, names_only (wi_workspace_id i) (JObj d) = true))).
    { apply serves_mapM; [typeclasses eauto|]. intros q Hq. by apply serves_workspace_body; [typeclasses eauto|apply Hl]. }
    intros bodies Hb. apply serves_ret. rewrite Forall_forall in Hb.
    unfold told. apply names_only_obj. intros kv ->%list_elem_of_singleton. split; [done|].
    by apply names_only_list.
  - apply confined_known; [by apply identifies_viewer|eexists; split; [done|done]|].
    intros viewer. answered; [by apply answers_get|by apply answers_decide_route].
  - intros w r w' _ _ [= <- <-]. left. by split.
Qed.

(** *** The audit trail *)

Definition auditor_caller (auditors : Keyring (World G A) WorkspaceIdentity) : M (World G A) (option string) :=
  workspace_caller wi_workspace_id (_audit_identity headers workspaces auditors now).
Lemma identifies_auditor auditors : steady auditors → identifies (_audit_identity headers workspaces auditors now).
Proof.
  intros Ha w. unfold _audit_identity. destruct (dget "x-workspace-key" _) as [key|]; [|by apply header_identity_steady].
  unfold resolve_identity. destruct (kr_resolver workspaces) as [f|] eqn:Ef; [by apply Hworkspaces|done].
Qed.
Definition events_of (ws : string) (l : list AuditEvent) : Prop := ∀ e, e ∈ l → e_workspace_id e = ws.
Lemma serves_filtered ws P f snapshot before limit :
  serves ws P (events_of ws) (ars_list_filtered (S := World G A) ws f snapshot before limit).
Proof.
  intros w r w' Hk Hw [= <- <-]. split_and!; [done..|]. destruct (list_filtered _ _ _ _ _ _) as [l|] eqn:El; [|done].
  intros e He. by apply (list_filtered_scoped _ _ _ _ _ _ _ El).
Qed.
Lemma with_sequences_fst sequences l bodies :
  mapM (with_sequence sequences) l = Ok bodies → map fst bodies = l.
Proof.
  revert bodies. induction l as [|e l IH]; intros bodies; cbn [mapM]; [by intros [= <-]|].
  unfold mbind, result_bind, with_sequence at 1. destruct (dget _ sequences) as [n|]; [|done].
  destruct (mapM (with_sequence sequences) l) as [k|]; [|done]. intros [= <-]. cbn. by rewrite IH.
Qed.
Lemma page_events_of ws limit found : events_of ws found → events_of ws (page_events limit found).
Proof.
  unfold page_events. destruct (page_has_more limit found); [|done]. intros Hf e He. apply Hf.
  unfold slice_from in He. destruct (_ <? 0);
    match type of He with _ ∈ drop ?k _ => rewrite <-(take_drop k found) end; apply elem_of_app; by right.
Qed.
Definition told_page_of (ws : string) (page : AuditPage) : Prop := told ws (page_response page).
Lemma told_page ws limit snapshot found sequences page :
  events_of ws found → page_of limit snapshot found sequences = Ok page → told ws (page_response page).
Proof.
  intros Hf%(page_events_of ws limit). unfold page_of. revert Hf. generalize (page_events limit found) as l. intros l Hf.
  unfold mbind, result_bind. destruct (mapM (with_sequence sequences) l) as [bodies|] eqn:Em; [|done]. intros [= <-].
  apply with_sequences_fst in Em. unfold told, page_response. apply names_only_obj. cbn [hr_body pg_events].
  intros kv [->|[->|?%elem_of_nil]%elem_of_cons]%elem_of_cons; [split; [done|]|split; [done|]|done].
  - apply names_only_list. intros es Hes. apply names_only_merge; [|done]. apply told_event, Hf. rewrite <-Em.
    apply list_elem_of_fmap. by exists es.
  - cbn. by rewrite !names_only_opt.
Qed.
Lemma confined_audit set_order int_unicode method path query_string auditors :
  steady auditors →
  confined (auditor_caller auditors) anything
    (handle_v1_audit_events_http set_order int_unicode method path query_string headers workspaces auditors now).
Proof.
  intros Ha. apply confined_known; [by apply identifies_auditor|eexists; split; [done|done]|].
  intros i. unfold list_audit_events. answered.
  - apply (serves_bind _ _ (λ o, ∀ l, o = Some l → events_of (wi_workspace_id i) l)).
    + unfold read_events. apply serves_try; [typeclasses eauto| |].
      * by_op serves_filtered. intros l Hl. apply serves_ret. by intros ? [= <-].
      * intros e. destruct (decide _); [by apply serves_ret|apply serves_raise].
    + intros [l|] Hl; answered.
      * reads. eapply serves_bind; [typeclasses eauto|apply (serves_lift _ _ (told_page_of (wi_workspace_id i)))|].
        { destruct (page_of _ _ _ _) as [page|] eqn:Ep; [|done]. by eapply told_page; [apply Hl|]. }
        intros page Hp. by apply serves_ret.
      * unfold events_response. apply told_listed; [done|]. intros e He. by apply told_event, (Hl l eq_refl).
  - reads. apply serves_ret. destruct x as [e|]; [|told_simple].
    destruct (String.eqb_spec (e_workspace_id e) (wi_workspace_id i)) as [He|]; cbn [negb]; [|told_simple].
    by apply told_event.
Qed.
End handlers.

(** ** The administrative endpoints together *)

Inductive AdminCall :=
  | BoundariesCall (method path : string) (body : json)
  | GrantsCall (method path query_string : string) (body : json)
  | RequestsCall (method path : string) (body : json)
  | RulesCall (method path : string) (body : json)
  | AuditEventsCall (method path query_string : string).

Section calls.
Context (set_order : list string → list string) (int_unicode : string → result Z).
Context {G A : Type} `{HG : GrantLifecycleOk G} `{HA : AuditWriterOk A}.
Context (headers : dict string string) (now : Z).
Context (workspaces auditors : Keyring (World G A) WorkspaceIdentity) (agents : Keyring (World G A) AgentIdentity).
Implicit Types (w : World G A).

Definition admin_call (call : AdminCall) : M (World G A) V1HttpResponse :=
  match call with
  | BoundariesCall method path body => handle_v1_boundaries_http method path headers body workspaces now
  | GrantsCall method path query_string body =>
      handle_v1_grants_http set_order method path headers body query_string workspaces now
  | RequestsCall method path body =>
      handle_v1_grant_requests_http set_order method path headers body workspaces agents now
  | RulesCall method path body =>
      handle_v1_auto_approval_rules_http (_new_id "apr") method path headers body workspaces now
  | AuditEventsCall method path query_string =>
      handle_v1_audit_events_http set_order int_unicode method path query_string headers workspaces auditors now
  end.
(** The workspace of the key a call carries. *)
Definition caller_of (call : AdminCall) : M (World G A) (option string) :=
  match call with
  | RequestsCall method path _ => requester headers workspaces now method path agents
  | AuditEventsCall _ _ _ => auditor_caller headers workspaces now auditors
  | _ => workspace_caller wi_workspace_id (_workspace_identity headers workspaces now)
  end.
Lemma svc_wf_keyed w : svc_wf w → keyed w.
Proof.
  intros [Hg [_ Hq] [_ Hr] _ [_ [Hb _]]]. constructor; [done| | |].
  - intros id q Hget. by apply (Hq id q).
  - intros id x Hget. by apply (Hr id x).
  - intros id b Hget. apply Hb. cbn. by rewrite dict_map_lookup.
Qed.

(** C2: Tenants are isolated at the administrative endpoints, whatever the call,
    its headers and its body: a call either leaves the service as it is, and its
    answer names no workspace, or it carries a key of one workspace and then
    every grant, request, rule and boundary of the others is there as before and
    no other has come up, every event it wrote is that workspace's, the issuable
    bounds, tokens, settings and the replay cache are untouched, and every
    workspace id in its answer is that one; also where the call raises half-way. *)
Theorem http_tenant_isolation call w r w' :
  svc_wf w → steady workspaces → steady auditors → steady agents →
  (∀ n, (en_drawn (w_entropy w) ≤ n)%nat →
     registry_get ("bnd_" ^+ en_source (w_entropy w) 12 n) (w_registry w) = None) →
  admin_call call w = (r, w') →
  (w' = w ∧ ∀ resp ws, r = Ok resp → told ws resp) ∨
  ∃ ws, caller_of call w = (Ok (Some ws), w) ∧ tenant_only ws w w' ∧ ∀ resp, r = Ok resp → told ws resp.
Proof.
  intros Hwf Hws Hau Hag Hfresh Hrun.
  assert (Hc : ∃ P, (∀ ws, P ws w) ∧ confined (caller_of call) P (admin_call call)).
  { destruct call; [exists names_fresh|exists anything..]; (split; [try done|]).
    - intros ws n b Hn Hb. by rewrite Hfresh in Hb.
    - by apply confined_boundaries.
    - by apply confined_grants.
    - by apply confined_requests.
    - by apply confined_rules.
    - by apply confined_audit. }
  destruct Hc as (P & HP & Hc).
  destruct (Hc w r w' (svc_wf_keyed _ Hwf) HP Hrun) as [[-> Hr]|(ws & Hid & _ & Ht & Hr)]; [left|right].
  - split; [done|]. by intros resp ws ->.
  - exists ws. split_and!; [done..|]. by intros resp ->.
Qed.
End calls.

(** ** Witness *)

(** The other workspace's key does not reach the request. *)
Definition foreign_approval := admin_call (λ l, l) no_unicode_int [("X-Workspace-Key", "wsk_2")] 5
  sample_workspaces sample_workspaces sample_agents
  (RequestsCall "POST" "/v1/grant-requests/grq_1/approve" JNull) (asking_world "read:repo/docs/b").
Lemma http_tenant_isolation_witness :
  foreign_approval.1 = Ok (_error 404 "grant_request_not_found" "grant_request_not_found") ∧
  ∀ q, gq_workspace_id q = "ws" →
    request_of foreign_approval.2 "grq_1" = Some q ↔ request_of (asking_world "read:repo/docs/b") "grq_1" = Some q.
Proof.
  split; [by vm_compute|]. intros q Hq.
  destruct (http_tenant_isolation (λ l, l) no_unicode_int [("X-Workspace-Key", "wsk_2")] 5
    sample_workspaces sample_workspaces sample_agents
    (RequestsCall "POST" "/v1/grant-requests/grq_1/approve" JNull) (asking_world "read:repo/docs/b")
    foreign_approval.1 foreign_approval.2 (asking_svc_wf _) (fixed_steady _) (fixed_steady _) (fixed_steady _)
    (λ _ _, eq_refl) (surjective_pairing _)) as [[E _]|(ws & Hcaller & Ht & _)].
  - by rewrite E.
  - apply (to_requests _ _ _ Ht). vm_compute in Hcaller. injection Hcaller as <-. by rewrite Hq.
Defined.
