(* ===== verification/SqlTxn.v ===== *)
(** * SQLite transaction scopes ([src/vinctor_service/sqlite_txn.py] and the
      write scopes of [src/vinctor_service/sqlite.py])

    A serialized connection: the data its statements see, the committed data
    while a transaction is open, the deferral scopes that hold the audit
    emissions of open transactions, and the sink they go to.  [BEGIN IMMEDIATE]
    and [COMMIT] may fail; a failed COMMIT leaves the transaction open, as SQLite
    does, or it took effect and only its acknowledgement was lost.  One thread is modelled: the connection's
    re-entrant lock makes every scope run by one thread at a time. *)
From S2P Require Import Prelude.

Record Conn (D E L : Type) := mkConn {
  c_db : D;
  c_saved : option D;
  (** [_deferral.scopes], the innermost first. *)
  c_scopes : list (list E);
  (** The emissions handed to the sink ([_run_fail_open]), in order. *)
  c_sink : list E;
  (** Whether each coming BEGIN or COMMIT fails and, where it matters, whether a
      failed COMMIT took effect. *)
  c_busy : list bool;
  (** What the process keeps outside the database. *)
  c_local : L
}.
Arguments mkConn {D E L}. Arguments c_db {D E L}. Arguments c_saved {D E L}.
Arguments c_scopes {D E L}. Arguments c_sink {D E L}. Arguments c_busy {D E L}.
Arguments c_local {D E L}.

Section txn.
Context {D E L : Type}.
Abbreviation C := (Conn D E L).

Definition in_transaction (c : C) : bool := bool_decide (is_Some (c_saved c)).
(** What another connection reads. *)
Definition committed (c : C) : D := default (c_db c) (c_saved c).

Definition set_db (db : D) (c : C) : C :=
  mkConn db (c_saved c) (c_scopes c) (c_sink c) (c_busy c) (c_local c).
Definition set_saved (saved : option D) (c : C) : C :=
  mkConn (c_db c) saved (c_scopes c) (c_sink c) (c_busy c) (c_local c).
Definition set_scopes (scopes : list (list E)) (c : C) : C :=
  mkConn (c_db c) (c_saved c) scopes (c_sink c) (c_busy c) (c_local c).
Definition set_sink (sink : list E) (c : C) : C :=
  mkConn (c_db c) (c_saved c) (c_scopes c) sink (c_busy c) (c_local c).

Definition set_local (local : L) (c : C) : C :=
  mkConn (c_db c) (c_saved c) (c_scopes c) (c_sink c) (c_busy c) local.
(** An operation on the process's own state: no rollback undoes it. *)
Definition on_local {X} (m : M L X) : M C X := λ c,
  let '(r, local) := m (c_local c) in (r, set_local local c).

Definition locked : pyexc := StorageError "database is locked".
(** Whether this lock attempt finds the database busy. *)
Definition busy : M C bool := λ c,
  (Ok (default false (head (c_busy c))),
   mkConn (c_db c) (c_saved c) (c_scopes c) (c_sink c) (tail (c_busy c)) (c_local c)).

Definition begin_immediate : M C unit :=
  open ← gets in_transaction;
  if open : bool then raise (StorageError "cannot start a transaction within a transaction")
  else
    blocked ← busy;
    if blocked : bool then raise locked else modify (λ c, set_saved (Some (c_db c)) c).
Definition commit : M C unit :=
  open ← gets in_transaction;
  if open : bool then
    blocked ← busy;
    if blocked : bool then raise locked else modify (set_saved None)
  else mret tt.
Definition rollback : M C unit := modify (λ c, set_saved None (set_db (committed c) c)).

(** A statement that only reads. *)
Definition query {X} (f : D → X) : M C X := gets (λ c, f (c_db c)).
(** A writing statement opens a transaction when none is open (the driver's
    deferred-transaction mode); it has no effect when it raises. *)
Definition execute {X} (statement : D → result (X * D)) : M C X := λ c,
  let c := if in_transaction c then c else set_saved (Some (c_db c)) c in
  match statement (c_db c) with
  | Ok (x, db) => (Ok x, set_db db c)
  | Raise e => (Raise e, c)
  end.

(** [BEGIN IMMEDIATE; try: m; commit  except: rollback; raise] *)
Definition transaction {X} (m : M C X) : M C X :=
  _ ← begin_immediate;
  try_except (x ← m; _ ← commit; mret x) (λ e, _ ← rollback; raise e).
Definition _write_scope {X} (m : M C X) : M C X :=
  open ← gets in_transaction;
  if open : bool then m else transaction m.

(** The emissions of the scope run when it ends normally, and are dropped when
    it does not. *)
Definition atomic_write_deferral {X} (m : M C X) : M C X := λ c,
  match m (set_scopes ([] :: c_scopes c) c) with
  | (Ok x, c') =>
      let scope := default [] (head (c_scopes c')) in
      (Ok x, set_sink (c_sink c' ++ scope) (set_scopes (tail (c_scopes c')) c'))
  | (Raise e, c') => (Raise e, set_scopes (tail (c_scopes c')) c')
  end.
Definition emit_or_defer (emission : E) : M C unit := modify (λ c,
  match c_scopes c with
  | scope :: outer => set_scopes ((scope ++ [emission]) :: outer) c
  | [] => set_sink (c_sink c ++ [emission]) c
  end).
Definition _atomic_write {X} (m : M C X) : M C X :=
  open ← gets in_transaction;
  if open : bool then m else atomic_write_deferral (transaction m).

(** The same scopes for a caller that tells a failed COMMIT from a failed body: the
    exception of the COMMIT leaves as [on_commit] of it.  Nothing tells the caller
    whether such a COMMIT took effect, its acknowledgement being lost, or not. *)
Definition commit_unsure (on_commit : pyexc → pyexc) : M C unit :=
  try_except commit (λ e,
    took_effect ← busy;
    if took_effect : bool then _ ← modify (set_saved None); raise (on_commit e) else raise (on_commit e)).
Definition transaction_or {X} (on_commit : pyexc → pyexc) (m : M C X) : M C X :=
  _ ← begin_immediate;
  try_except (x ← m; _ ← commit_unsure on_commit; mret x) (λ e, _ ← rollback; raise e).
Definition atomic_write_or {X} (on_commit : pyexc → pyexc) (m : M C X) : M C X :=
  open ← gets in_transaction;
  if open : bool then m else atomic_write_deferral (transaction_or on_commit m).

(** ** Bodies of scopes

    A body is disciplined when, run in an open transaction, it neither ends the
    transaction nor emits anything: its emissions wait in the current scope.
    Everything built from statements, emissions and nested scopes is. *)
Definition inside (c c' : C) : Prop := ∀ saved,
  c_saved c = Some saved →
  c_saved c' = Some saved ∧
  match c_scopes c with
  | scope :: outer => (∃ added, c_scopes c' = (scope ++ added) :: outer) ∧ c_sink c' = c_sink c
  | [] => True
  end.

#[global] Instance inside_preorder : PreOrder inside.
Proof.
  split.
  - intros c saved Hs. split; [done|]. destruct (c_scopes c) as [|scope outer]; [done|].
    split; [|done]. exists []. by rewrite app_nil_r.
  - intros c1 c2 c3 H12 H23 saved Hs. destruct (H12 saved Hs) as [Hs2 Hsc12].
    destruct (H23 saved Hs2) as [Hs3 Hsc23]. split; [done|].
    destruct (c_scopes c1) as [|scope outer]; [done|].
    destruct Hsc12 as [[a Ha] Hk]. rewrite Ha in Hsc23. destruct Hsc23 as [[b Hb] Hk'].
    split; [|congruence]. exists (a ++ b). by rewrite app_assoc.
Qed.

Lemma inside_query {X} (f : D → X) : keeps inside (query f).
Proof. apply keeps_gets, _. Qed.
Lemma inside_execute {X} (st : D → result (X * D)) : keeps inside (execute st).
Proof.
  intros c saved Hs. unfold execute, in_transaction. rewrite Hs.
  assert (Hscope : match c_scopes c with
    | scope :: outer => (∃ added, c_scopes c = (scope ++ added) :: outer) ∧ c_sink c = c_sink c
    | [] => True
    end).
  { destruct (c_scopes c) as [|scope outer]; [done|]. split; [|done]. exists [].
    by rewrite app_nil_r. }
  rewrite bool_decide_true by done. by destruct (st (c_db c)) as [[x db]|e].
Qed.
Lemma inside_local {X} (m : M L X) : keeps inside (on_local m).
Proof.
  intros c saved Hs. unfold on_local. destruct (m (c_local c)) as [r local]. split; [done|].
  cbn. destruct (c_scopes c) as [|scope outer]; [done|]. split; [|done]. exists [].
  by rewrite app_nil_r.
Qed.
Lemma inside_emit e : keeps inside (emit_or_defer e).
Proof.
  intros c saved Hs. unfold emit_or_defer, modify. simpl.
  destruct (c_scopes c) as [|scope outer]; simpl; [done|]. split; [done|]. split; [|done].
  by exists [e].
Qed.
Lemma inside_nested {X} (m m' : M C X) : keeps inside m →
  keeps inside (open ← gets in_transaction; if open : bool then m else m').
Proof.
  intros Hm c. unfold mbind, M_bind, gets. destruct (in_transaction c) eqn:Ho; [apply Hm|].
  intros saved Hs. unfold in_transaction in Ho. by rewrite Hs in Ho.
Qed.
Lemma inside_write_scope {X} (m : M C X) : keeps inside m → keeps inside (_write_scope m).
Proof. apply inside_nested. Qed.
Lemma inside_atomic_write {X} (m : M C X) : keeps inside m → keeps inside (_atomic_write m).
Proof. apply inside_nested. Qed.

(** ** What a scope guarantees *)

(** No transaction and no deferral is open. *)
Definition idle (c : C) : Prop := c_saved c = None ∧ c_scopes c = [].

(** A scope from an idle connection: it commits what the body did, or changes
    nothing. *)
Lemma transaction_outcome {X} (m : M C X) c r c' :
  keeps inside m → c_saved c = None → transaction m c = (r, c') →
  c_saved c' = None ∧
  match r with
  | Ok x => ∃ c0 c1, c_db c0 = c_db c ∧ c_saved c0 = Some (c_db c) ∧ c_scopes c0 = c_scopes c ∧
      c_sink c0 = c_sink c ∧ c_local c0 = c_local c ∧ m c0 = (Ok x, c1) ∧ c_db c' = c_db c1 ∧
      c_scopes c' = c_scopes c1 ∧ c_sink c' = c_sink c1 ∧ c_local c' = c_local c1
  | Raise _ => c_db c' = c_db c ∧
      match c_scopes c with
      | scope :: outer => (∃ added, c_scopes c' = (scope ++ added) :: outer) ∧ c_sink c' = c_sink c
      | [] => True
      end
  end.
Proof.
  intros Hm Hs. unfold transaction, begin_immediate, commit, rollback, busy, gets, modify, raise,
    try_except, mret, M_ret, mbind, M_bind, in_transaction. rewrite Hs.
  rewrite bool_decide_false by (by intros [? ?]).
  destruct (default false (head (c_busy c))).
  { intros [= <- <-]. split; [done|]. split; [done|]. cbn.
    destruct (c_scopes c) as [|scope outer]; [done|]. split; [|done]. exists [].
    by rewrite app_nil_r. }
  set (c0 := set_saved _ _). assert (Hs0 : c_saved c0 = Some (c_db c)) by done.
  pose proof (Hm c0 _ Hs0) as Hin. destruct (m c0) as [[x|e] c1] eqn:Hrun; cbn [snd] in Hin;
    destruct Hin as [Hs1 Hsc1].
  - rewrite Hs1. rewrite bool_decide_true by done.
    destruct (default false (head (c_busy c1))).
    + intros [= <- <-]. split; [done|]. unfold committed. cbn. rewrite ?Hs1. split; [done|exact Hsc1].
    + intros [= <- <-]. split; [done|]. exists c0, c1. done.
  - intros [= <- <-]. split; [done|]. unfold committed. cbn. rewrite ?Hs1.
    split; [done|exact Hsc1].
Qed.

(** A transaction from no transaction, without supposing anything of its body but
    that it does not end the transaction itself: nothing happened, or the body ran,
    and what it did is there if the transaction returned, and perhaps if its COMMIT
    raised [unsure]. *)
Definition transacted {X} (unsure : pyexc → Prop) (m : M C X) (c : C) (r : result X) (c' : C) : Prop :=
  (c_db c' = c_db c ∧ c_saved c' = None ∧ c_scopes c' = c_scopes c ∧ c_sink c' = c_sink c ∧
   c_local c' = c_local c ∧ ∃ e, r = Raise e) ∨
  ∃ c0, c_db c0 = c_db c ∧ c_saved c0 = Some (c_db c) ∧ c_scopes c0 = c_scopes c ∧ c_sink c0 = c_sink c ∧
    c_local c0 = c_local c ∧
    (c_saved (m c0).2 = Some (c_db c) →
     c_saved c' = None ∧ c_scopes c' = c_scopes (m c0).2 ∧ c_sink c' = c_sink (m c0).2 ∧
     c_local c' = c_local (m c0).2 ∧
     match r with
     | Ok x => (m c0).1 = Ok x ∧ c_db c' = c_db (m c0).2
     | Raise e => c_db c' = c_db c ∨ unsure e ∧ (∃ x, (m c0).1 = Ok x) ∧ c_db c' = c_db (m c0).2
     end).
Lemma transaction_cases {X} (m : M C X) c r c' : c_saved c = None → transaction m c = (r, c') →
  transacted (λ _, False) m c r c'.
Proof.
  intros Hs. unfold transaction, begin_immediate, commit, rollback, busy, gets, modify, raise,
    try_except, mret, M_ret, mbind, M_bind, in_transaction. rewrite Hs.
  rewrite bool_decide_false by (by intros [? ?]).
  destruct (default false (head (c_busy c))).
  { intros [= <- <-]. left. split_and!; try done. by eexists. }
  set (c0 := set_saved _ _). intros Hrun. right. exists c0. split_and!; try done. intros Hs1.
  destruct (m c0) as [[x|e] c1] eqn:Hm; cbn [fst snd] in *.
  - rewrite Hs1, bool_decide_true in Hrun by done.
    destruct (default false (head (c_busy c1))); injection Hrun as <- <-; unfold committed; cbn;
      rewrite ?Hs1; cbn; split_and!; auto.
  - injection Hrun as <- <-. unfold committed. cbn. rewrite Hs1. cbn. split_and!; auto.
Qed.
Lemma transaction_or_cases {X} f (m : M C X) c r c' : c_saved c = None → transaction_or f m c = (r, c') →
  transacted (eq (f locked)) m c r c'.
Proof.
  intros Hs. unfold transaction_or, commit_unsure, begin_immediate, commit, rollback, busy, gets, modify, raise,
    try_except, mret, M_ret, mbind, M_bind, in_transaction. rewrite Hs.
  rewrite bool_decide_false by (by intros [? ?]).
  destruct (default false (head (c_busy c))).
  { intros [= <- <-]. left. split_and!; try done. by eexists. }
  set (c0 := set_saved _ _). intros Hrun. right. exists c0. split_and!; try done. intros Hs1.
  destruct (m c0) as [[x|e] c1] eqn:Hm; cbn [fst snd] in *.
  - rewrite Hs1, bool_decide_true in Hrun by done.
    destruct (default false (head (c_busy c1))).
    + cbn in Hrun. destruct (default false (head (tail (c_busy c1)))); injection Hrun as <- <-; unfold committed; cbn;
        rewrite ?Hs1; cbn; split_and!; eauto 10.
    + injection Hrun as <- <-. by rewrite ?Hs1.
  - injection Hrun as <- <-. unfold committed. cbn. rewrite Hs1. cbn. split_and!; auto.
Qed.

(** The same with the emissions of the transaction deferred. *)
Lemma deferred_cases {X} unsure (t m : M C X) c r c' : idle c →
  (∀ c0 r0 c1, c_saved c0 = None → t c0 = (r0, c1) → transacted unsure m c0 r0 c1) → keeps inside m →
  atomic_write_deferral t c = (r, c') →
  idle c' ∧
  ((∃ e, r = Raise e ∧ c_db c' = c_db c ∧ c_sink c' = c_sink c) ∨
   ∃ c0 x c1 emitted, c_db c0 = c_db c ∧ c_saved c0 = Some (c_db c) ∧ c_scopes c0 = [[]] ∧
     c_local c0 = c_local c ∧ m c0 = (Ok x, c1) ∧ c_db c' = c_db c1 ∧ c_scopes c1 = [emitted] ∧ c_local c' = c_local c1 ∧
     match r with
     | Ok y => y = x ∧ c_sink c' = c_sink c ++ emitted
     | Raise e => unsure e ∧ c_sink c' = c_sink c
     end).
Proof.
  intros [Hs Hsc] Ht Hm. unfold atomic_write_deferral. set (cs := set_scopes _ c).
  destruct (t cs) as [r1 c1] eqn:Hrun.
  destruct (Ht cs r1 c1 Hs Hrun) as [(Hdb & Hs' & Hsc' & Hk & Hl & e & ->)|(c0 & Hdb & Hs0 & Hsc0 & Hk0 & Hl0 & Hout)].
  - intros [= <- <-]. split; [split; [done|cbn; by rewrite Hsc']|]. left. by exists e.
  - pose proof (Hm c0 _ Hs0) as [Hs1 Hin]. specialize (Hout Hs1). destruct (m c0) as [r2 c2] eqn:Hbody.
    cbn [fst snd] in *. rewrite Hsc0 in Hin. subst cs. cbn in Hin, Hsc0. rewrite Hsc in Hin, Hsc0.
    destruct Hin as [[added Ha] Hk2]. cbn in Ha. destruct Hout as (Hs' & Hsc' & Hk' & Hl' & Hr).
    rewrite Ha in Hsc'. rewrite Hk2, Hk0 in Hk'. cbn in Hk'.
    destruct r1 as [y|e]; intros [= <- <-]; (split; [split; [done|cbn; by rewrite Hsc']|]).
    + destruct Hr as [-> Hdb']. right. exists c0, y, c2, added. split_and!; try done; cbn; rewrite Hsc'; cbn; congruence.
    + destruct Hr as [Hdb'|(Hu & [x ->] & Hdb')]; [left; by exists e|]. right. exists c0, x, c2, added.
      split_and!; try done.
Qed.
Lemma atomic_write_or_local {X} f (m : M C X) c r c' :
  keeps inside m → idle c → atomic_write_or f m c = (r, c') →
  idle c' ∧
  ((∃ e, r = Raise e ∧ c_db c' = c_db c ∧ c_sink c' = c_sink c) ∨
   ∃ c0 x c1 emitted, c_db c0 = c_db c ∧ c_saved c0 = Some (c_db c) ∧ c_scopes c0 = [[]] ∧
     c_local c0 = c_local c ∧ m c0 = (Ok x, c1) ∧ c_db c' = c_db c1 ∧ c_scopes c1 = [emitted] ∧ c_local c' = c_local c1 ∧
     match r with
     | Ok y => y = x ∧ c_sink c' = c_sink c ++ emitted
     | Raise e => f locked = e ∧ c_sink c' = c_sink c
     end).
Proof.
  intros Hm Hi. unfold atomic_write_or, gets, mbind, M_bind, in_transaction. rewrite (proj1 Hi).
  rewrite bool_decide_false by (by intros [? ?]). apply deferred_cases; [done|by apply transaction_or_cases|done].
Qed.

(** An atomic write: in terms of the run of its body. *)
Lemma atomic_write_local {X} (m : M C X) c r c' :
  keeps inside m → idle c → _atomic_write m c = (r, c') →
  idle c' ∧
  match r with
  | Ok x => ∃ c0 c1 emitted, c_db c0 = c_db c ∧ c_saved c0 = Some (c_db c) ∧ c_scopes c0 = [[]] ∧
      c_local c0 = c_local c ∧ m c0 = (Ok x, c1) ∧ c_db c' = c_db c1 ∧
      c_scopes c1 = [emitted] ∧ c_sink c' = c_sink c ++ emitted ∧ c_local c' = c_local c1
  | Raise _ => c_db c' = c_db c ∧ c_sink c' = c_sink c
  end.
Proof.
  intros Hm [Hs Hsc]. unfold _atomic_write, gets, mbind, M_bind, in_transaction. rewrite Hs.
  rewrite bool_decide_false by (by intros [? ?]). unfold atomic_write_deferral.
  set (cs := set_scopes _ c). destruct (transaction m cs) as [r1 c1] eqn:Ht.
  pose proof (transaction_outcome m cs r1 c1 Hm Hs Ht) as [Hs1 Hout].
  destruct r1 as [x|e]; intros [= <- <-].
  - destruct Hout as (c0 & c2 & Hdb & Hs0 & Hsc0 & Hk0 & Hl0 & Hrun & Hdb2 & Hsc2 & Hk2 & Hl2).
    pose proof (Hm c0 _ Hs0) as [_ Hin]. rewrite Hrun, Hsc0 in Hin. subst cs. cbn in Hin, Hk0, Hsc0, Hl0, Hs0, Hdb.
    rewrite Hsc in *. destruct Hin as [[added Ha] Hk]. cbn in Ha.
    split; [by split; [done|cbn; rewrite Hsc2, Ha]|].
    exists c0, c2, added. split_and!; try done.
    cbn. by rewrite Hsc2, Ha, Hk2, Hk, Hk0.
  - subst cs. cbn in Hout. destruct Hout as [Hdb [[added Ha] Hk]]. rewrite Hsc in Ha.
    split; [by split; [done|cbn; rewrite Ha]|]. done.
Qed.

Lemma atomic_write_outcome {X} (m : M C X) c r c' :
  keeps inside m → idle c → _atomic_write m c = (r, c') →
  idle c' ∧
  match r with
  | Ok x => ∃ c0 c1 emitted, c_db c0 = c_db c ∧ c_saved c0 = Some (c_db c) ∧ c_scopes c0 = [[]] ∧
      c_local c0 = c_local c ∧ m c0 = (Ok x, c1) ∧ c_db c' = c_db c1 ∧
      c_scopes c1 = [emitted] ∧ c_sink c' = c_sink c ++ emitted
  | Raise _ => c_db c' = c_db c ∧ c_sink c' = c_sink c
  end.
Proof.
  intros Hm Hi Hrun. destruct (atomic_write_local m c r c' Hm Hi Hrun) as [Hi' Hout]. split; [done|].
  destruct r; [|done]. destruct Hout as (c0 & c1 & emitted & Hout). exists c0, c1, emitted. by split_and!; apply Hout.
Qed.

(** An atomic write is all or nothing, commit failures included: it either
    returns, having committed everything its body did and only then handed the
    body's emissions, in order, to the sink, or raises with the data, the sink
    and the scopes exactly as they were. *)
Theorem atomic_write_all_or_nothing {X} (m : M C X) c r c' :
  keeps inside m → idle c → _atomic_write m c = (r, c') →
  idle c' ∧
  match r with
  | Ok x => ∃ c0 c1 emitted, c_db c0 = c_db c ∧ m c0 = (Ok x, c1) ∧ c_db c' = c_db c1 ∧
      c_scopes c1 = [emitted] ∧ c_sink c' = c_sink c ++ emitted
  | Raise _ => c_db c' = c_db c ∧ c_sink c' = c_sink c
  end.
Proof.
  intros Hm Hi Hrun. destruct (atomic_write_outcome m c r c' Hm Hi Hrun) as [Hi' Hout].
  split; [done|]. destruct r; [|done]. destruct Hout as (c0 & c1 & emitted & ? & _ & _ & _ & ?).
  eauto.
Qed.

(** What only the process's own state bears on survives every scope. *)
Section local.
Context (R : L → L → Prop) `{!PreOrder R}.
Definition locally (c c' : C) : Prop := R (c_local c) (c_local c').
#[global] Instance locally_preorder : PreOrder locally.
Proof. split; [intros c; unfold locally; reflexivity|]. intros c1 c2 c3 H1 H2. unfold locally in *. by etrans. Qed.
Lemma locally_same c c' : c_local c' = c_local c → locally c c'.
Proof. unfold locally. by intros ->. Qed.
Lemma locally_execute {X} (st : D → result (X * D)) : keeps locally (execute st).
Proof.
  intros c. apply locally_same. unfold execute.
  destruct (in_transaction c); by destruct (st _) as [[x db]|e].
Qed.
Lemma locally_emit e : keeps locally (emit_or_defer e).
Proof. intros c. apply locally_same. unfold emit_or_defer, modify. by destruct (c_scopes c). Qed.
Lemma locally_on_local {X} (m : M L X) : keeps R m → keeps locally (on_local m).
Proof.
  intros Hm c. unfold locally, on_local. specialize (Hm (c_local c)).
  by destruct (m (c_local c)) as [r l].
Qed.
Lemma locally_modify (f : C → C) : (∀ c, c_local (f c) = c_local c) → keeps locally (modify f).
Proof. intros Hf. apply keeps_modify. intros c. by apply locally_same. Qed.
Lemma locally_busy : keeps locally busy.
Proof. intros c. by apply locally_same. Qed.
Ltac locally_parts :=
  repeat first [apply keeps_bind; [apply _| |intros ?] | apply keeps_try; [| |intros ?] |
    apply keeps_if | apply keeps_raise, _ | apply keeps_gets, _ | apply keeps_ret, _ | assumption |
    apply locally_busy | apply locally_modify; by intros | apply _].
Lemma locally_transaction {X} (m : M C X) : keeps locally m → keeps locally (transaction m).
Proof. intros Hm. unfold transaction, begin_immediate, commit, rollback. locally_parts. Qed.
Lemma locally_transaction_or {X} f (m : M C X) : keeps locally m → keeps locally (transaction_or f m).
Proof. intros Hm. unfold transaction_or, commit_unsure, begin_immediate, commit, rollback. locally_parts. Qed.
Lemma locally_deferral {X} (m : M C X) : keeps locally m → keeps locally (atomic_write_deferral m).
Proof.
  intros Hm c. unfold atomic_write_deferral. set (c0 := set_scopes _ c). pose proof (Hm c0) as Ht.
  destruct (m c0) as [[x|e] c1]; exact Ht.
Qed.
Lemma locally_atomic_write {X} (m : M C X) : keeps locally m → keeps locally (_atomic_write m).
Proof.
  intros Hm. unfold _atomic_write. apply keeps_bind; [apply _|apply keeps_gets, _|].
  intros [|]; [done|]. by apply locally_deferral, locally_transaction.
Qed.
Lemma locally_atomic_write_or {X} f (m : M C X) : keeps locally m → keeps locally (atomic_write_or f m).
Proof.
  intros Hm. unfold atomic_write_or. apply keeps_bind; [apply _|apply keeps_gets, _|].
  intros [|]; [done|]. by apply locally_deferral, locally_transaction_or.
Qed.
Lemma locally_write_scope {X} (m : M C X) : keeps locally m → keeps locally (_write_scope m).
Proof.
  intros Hm. unfold _write_scope. apply keeps_bind; [apply _|apply keeps_gets, _|].
  intros [|]; [done|]. by apply locally_transaction.
Qed.
End local.

(** A nested scope joins the open transaction: it is its body, so nothing is
    committed and nothing emitted until the outermost scope ends. *)
Lemma nested_scope_joins {X} (m : M C X) c : c_saved c ≠ None →
  _atomic_write m c = m c ∧ _write_scope m c = m c.
Proof.
  intros Hs. unfold _atomic_write, _write_scope, gets, mbind, M_bind, in_transaction.
  rewrite bool_decide_true by (by apply not_eq_None_Some). done.
Qed.

(** ** Single writes

    [single_write m Q]: [m] makes one change, [Q], to the data, or raises and
    changes nothing, whether or not a transaction is open around it. *)
Definition single_write {X} (m : M C X) (Q : D → X → D → Prop) : Prop :=
  keeps inside m ∧ ∀ c r c', m c = (r, c') →
    match r with Ok x => Q (c_db c) x (c_db c') | Raise _ => c_db c' = c_db c end.

Lemma single_write_execute {X} (st : D → result (X * D)) :
  single_write (execute st) (λ db x db', st db = Ok (x, db')).
Proof.
  split; [apply inside_execute|]. intros c r c'. unfold execute.
  set (c0 := if in_transaction c then c else _).
  assert (Hdb : c_db c0 = c_db c) by (subst c0; by destruct (in_transaction c)). rewrite <- Hdb.
  destruct (st (c_db c0)) as [[x db]|e] eqn:Hst; intros [= <- <-]; done.
Qed.
Lemma single_write_lift {X Y} (o : result Y) (f : Y → M C X) Q :
  (∀ y, o = Ok y → single_write (f y) Q) → single_write (lift o ≫= f) Q.
Proof.
  intros Hf. destruct o as [y|e].
  - destruct (Hf y eq_refl) as [Hk Hw]. split; [|exact Hw].
    intros c. apply Hk.
  - split; [apply keeps_raise, _|]. by intros c r c' [= <- <-].
Qed.
Lemma single_write_raise {X} e Q : single_write (raise (A:=X) e) Q.
Proof. split; [apply keeps_raise, _|]. by intros c r c' [= <- <-]. Qed.
Lemma single_write_weaken {X} (m : M C X) (Q Q' : D → X → D → Prop) :
  single_write m Q → (∀ db x db', Q db x db' → Q' db x db') → single_write m Q'.
Proof.
  intros [Hk Hw] HQ. split; [done|]. intros c r c' Hrun. specialize (Hw c r c' Hrun).
  destruct r; [by apply HQ|done].
Qed.
Lemma single_write_scope {X} (m : M C X) Q : single_write m Q → single_write (_write_scope m) Q.
Proof.
  intros [Hk Hw]. split; [by apply inside_write_scope|]. intros c r c'.
  unfold _write_scope, mbind, M_bind, gets.
  destruct (in_transaction c) eqn:Ho; [apply Hw|]. intros Ht.
  assert (Hs : c_saved c = None) by (unfold in_transaction in Ho; by destruct (c_saved c)).
  destruct (transaction_outcome m c r c' Hk Hs Ht) as [_ Hout]. destruct r as [x|e]; [|by apply Hout].
  destruct Hout as (c0 & c1 & Hdb & _ & _ & _ & _ & Hrun & Hdb' & _). specialize (Hw _ _ _ Hrun).
  cbn in Hw. by rewrite Hdb in Hw; rewrite Hdb'.
Qed.
(** Work after the write that leaves the data alone. *)
Lemma single_write_then {X Y} (m : M C X) (f : X → M C Y) Q :
  single_write m (λ db x db', ∀ y, Q db y db') →
  (∀ x, keeps inside (f x) ∧ ∀ c, (∃ y, (f x c).1 = Ok y) ∧ c_db (f x c).2 = c_db c) →
  single_write (m ≫= f) Q.
Proof.
  intros [Hk Hw] Hf. split; [apply keeps_bind; [apply _|done|intros x; apply Hf]|].
  intros c r c'. unfold mbind, M_bind. destruct (m c) as [[x|e] c1] eqn:Hm.
  - specialize (Hw _ _ _ Hm). cbn in Hw. destruct (proj2 (Hf x) c1) as [[y Hy] Hdb].
    destruct (f x c1) as [r1 c2]. cbn in Hy, Hdb. intros [= <- <-]. subst r1. by rewrite Hdb.
  - intros [= <- <-]. exact (Hw _ _ _ Hm).
Qed.
(** ** Operations as functions of the data

    [runs m f]: run in any scope, [m] answers what [f] answers on the data and
    leaves the data [f] leaves; it does not touch the database's availability. *)
Definition runs {X} (m : M C X) (f : D → result X * D) : Prop :=
  keeps inside m ∧ ∀ c r c', m c = (r, c') →
    f (c_db c) = (r, c_db c') ∧ c_busy c' = c_busy c.
(** No coming BEGIN or COMMIT finds the database busy. *)
Definition available (c : C) : Prop := Forall (λ b, b = false) (c_busy c).

Lemma available_head c : available c → default false (head (c_busy c)) = false.
Proof. unfold available. destruct (c_busy c); [done|]. by intros [-> _]%Forall_cons. Qed.

Lemma runs_ret {X} (x : X) : runs (mret x) (λ db, (Ok x, db)).
Proof. split; [apply keeps_ret, _|]. by intros c r c' [= <- <-]. Qed.
Lemma runs_lift {X} (o : result X) : runs (lift o) (λ db, (o, db)).
Proof. split; [apply keeps_lift, _|]. by intros c r c' [= <- <-]. Qed.
Lemma runs_query {X} (f : D → X) : runs (query f) (λ db, (Ok (f db), db)).
Proof. split; [apply inside_query|]. by intros c r c' [= <- <-]. Qed.
Lemma runs_execute {X} (st : D → result (X * D)) : runs (execute st)
  (λ db, match st db with Ok (x, db') => (Ok x, db') | Raise e => (Raise e, db) end).
Proof.
  split; [apply inside_execute|]. intros c r c'. unfold execute.
  set (c0 := if in_transaction c then c else _).
  assert (Hc0 : c_db c0 = c_db c ∧ c_busy c0 = c_busy c) by (subst c0; by destruct (in_transaction c)).
  destruct Hc0 as [<- <-]. destruct (st (c_db c0)) as [[x db]|e]; by intros [= <- <-].
Qed.
Lemma runs_bind {X Y} (m : M C X) (k : X → M C Y) f g :
  runs m f → (∀ x, runs (k x) (g x)) →
  runs (m ≫= k) (λ db, match f db with (Ok x, db') => g x db' | (Raise e, db') => (Raise e, db') end).
Proof.
  intros [Hk Hm] Hg. split; [apply keeps_bind; [apply _|done|intros x; apply Hg]|].
  intros c r c'. unfold mbind, M_bind. destruct (m c) as [[x|e] c1] eqn:Hrun.
  - destruct (Hm _ _ _ Hrun) as [-> Hb]. intros Hrun'.
    destruct (proj2 (Hg x) _ _ _ Hrun') as [-> Hb']. split; [done|congruence].
  - intros [= <- <-]. by destruct (Hm _ _ _ Hrun) as [-> Hb].
Qed.
Lemma runs_try {X} (m : M C X) (h : pyexc → M C X) f g :
  runs m f → (∀ e, runs (h e) (g e)) →
  runs (try_except m h) (λ db, match f db with (Ok x, db') => (Ok x, db') | (Raise e, db') => g e db' end).
Proof.
  intros [Hk Hm] Hg. split; [apply keeps_try; [apply _|done|intros x; apply Hg]|].
  intros c r c'. unfold try_except. destruct (m c) as [[x|e] c1] eqn:Hrun.
  - intros [= <- <-]. by destruct (Hm _ _ _ Hrun) as [-> Hb].
  - destruct (Hm _ _ _ Hrun) as [-> Hb]. intros Hrun'.
    destruct (proj2 (Hg e) _ _ _ Hrun') as [-> Hb']. split; [done|congruence].
Qed.
Lemma runs_ext {X} (m : M C X) f g : runs m f → (∀ db, f db = g db) → runs m g.
Proof.
  intros [Hk Hm] He. split; [done|]. intros c r c' Hrun. rewrite <- He. by apply Hm.
Qed.

Lemma runs_raise {X} e : runs (raise (A:=X) e) (λ db, (Raise e, db)).
Proof. split; [apply keeps_raise, _|]. by intros c r c' [= <- <-]. Qed.
Lemma runs_if {X} (b : bool) (m1 m2 : M C X) f g :
  runs m1 f → runs m2 g → runs (if b then m1 else m2) (λ db, if b then f db else g db).
Proof. by destruct b. Qed.
Lemma runs_option {X Y} (o : option Y) (k : Y → M C X) (m : M C X) f g :
  (∀ y, runs (k y) (f y)) → runs m g →
  runs (match o with Some y => k y | None => m end)
    (λ db, match o with Some y => f y db | None => g db end).
Proof. by destruct o. Qed.

(** What a write scope makes of such a body: its answer and its data, or, when a
    lock attempt fails, nothing.  Only inside an open transaction does a raise
    leave the statements before it in place, for that transaction to undo. *)
Lemma write_scope_runs {X} (m : M C X) f c r c' : runs m f → _write_scope m c = (r, c') →
  (c_saved c = None → c_saved c' = None) ∧
  match r with
  | Ok x => f (c_db c) = (Ok x, c_db c')
  | Raise e => (available c → ∃ db, f (c_db c) = (Raise e, db)) ∧
      (c_db c' = c_db c ∨ c_saved c ≠ None ∧ f (c_db c) = (Raise e, c_db c'))
  end.
Proof.
  intros [Hk Hm]. unfold _write_scope, gets, mbind, M_bind, in_transaction.
  destruct (c_saved c) as [saved|] eqn:Hs.
  { rewrite bool_decide_true by done. intros Hrun. destruct (Hm _ _ _ Hrun) as [Hf _].
    split; [done|]. destruct r; [done|]. split; [by eexists|by right]. }
  rewrite bool_decide_false by (by intros [? ?]).
  unfold transaction, begin_immediate, commit, rollback, busy, gets, modify, raise,
    try_except, mret, M_ret, mbind, M_bind, in_transaction. rewrite Hs.
  rewrite bool_decide_false by (by intros [? ?]).
  destruct (default false (head (c_busy c))) eqn:Hb.
  { intros [= <- <-]. split; [done|]. split; [|by left]. intros Ha.
    by rewrite (available_head _ Ha) in Hb. }
  set (c0 := set_saved _ _). assert (Hs0 : c_saved c0 = Some (c_db c)) by done.
  pose proof (Hk c0 _ Hs0) as Hin. destruct (m c0) as [[x|e] c1] eqn:Hrun; cbn [snd] in Hin;
    destruct Hin as [Hs1 _]; destruct (Hm _ _ _ Hrun) as [Hf Hb1];
    change (c_db c0) with (c_db c) in Hf.
  - rewrite Hs1, bool_decide_true, Hb1 by done.
    destruct (default false (head (c_busy c0))) eqn:Hb2; cbv beta iota.
    + intros [= <- <-]. split; [done|]. split; [|left; unfold committed; cbn; by rewrite Hs1].
      intros Ha. assert (Ha0 : available c0) by exact (Forall_tail _ _ Ha).
      by rewrite (available_head _ Ha0) in Hb2.
    + by intros [= <- <-].
  - intros [= <- <-]. split; [done|]. split; [by eexists|]. left. unfold committed. cbn. by rewrite Hs1.
Qed.
End txn.

#[export] Hint Resolve inside_local inside_query inside_execute inside_emit inside_write_scope
  inside_atomic_write : keeps.

Create HintDb runs discriminated.
#[export] Hint Resolve runs_ret runs_lift runs_query runs_execute runs_bind runs_try runs_raise
  runs_if runs_option : runs.

Lemma atomic_write_all_or_nothing_witness :
  let c := mkConn 3%nat None [] [1%nat] [] tt in
  let m := (_ ← execute (λ n, Ok (tt, S n)); emit_or_defer 5%nat) in
  let c' := (_atomic_write m c).2 in
  idle c' ∧ c_db c' = 4%nat ∧ c_sink c' = [1%nat; 5%nat].
Proof.
  set (c := mkConn 3%nat None [] [1%nat] [] tt).
  set (m := (_ ← execute (λ n, Ok (tt, S n)); emit_or_defer 5%nat) : M _ unit). cbv zeta.
  assert (Hm : keeps inside m).
  { apply keeps_bind; [apply _|apply inside_execute|intros []; apply inside_emit]. }
  destruct (atomic_write_all_or_nothing m c _ _ Hm ltac:(done) eq_refl) as [Hi _].
  split; [exact Hi|]. split; reflexivity.
Defined.
