(* ===== verification/SqlRows.v ===== *)
(** * Rows of the SQLite tables ([src/vinctor_service/sqlite.py])

    How each record is stored and read back: scope lists as JSON text, instants
    as ISO 8601 text, and the rest as it is.  Binding a value may raise: an
    integer outside 64 bits is refused by the driver, and a string that is not
    UTF-8 or an instant outside the datetime range, which no Python [str] or
    [datetime] is, is refused here at the same place. *)
From S2P Require Import Prelude PyStr PyDict PyTime Models ServiceModels Sha256 Json.
From S2P Require Import AuditJson.

(** ** Binding values *)

Definition scalar_b (cp : Z) : bool :=
  ((0 <=? cp) && (cp <? 55296)) || ((57344 <=? cp) && (cp <? 1114112)).
Definition valid_text (s : string) : bool :=
  forallb scalar_b (utf8_decode s) && (utf8_encode (utf8_decode s) == s).
Lemma valid_text_ok s : valid_text s = true → is_text s.
Proof.
  unfold valid_text. rewrite andb_true_iff, forallb_elem, String.eqb_eq. intros [Hs <-].
  exists (utf8_decode s). split; [|done]. apply Forall_forall. intros cp Hcp.
  specialize (Hs cp Hcp). unfold scalar_b in Hs. unfold scalar. lia.
Qed.

Definition bind_strings (l : list string) : result string :=
  if forallb valid_text l then Ok (json_strings l)
  else Raise (ValueError "surrogates not allowed").
Definition bind_datetime (t : Z) : result string :=
  if (DATETIME_MIN <=? t) && (t <=? DATETIME_MAX) then Ok (isoformat t)
  else Raise (ValueError "year is out of range").
(** [_datetime_to_storage] *)
Definition _datetime_to_storage (value : option Z) : result (option string) :=
  match value with Some t => s ← bind_datetime t; Ok (Some s) | None => Ok None end.
(** [_datetime_from_storage] *)
Definition _datetime_from_storage (value : option string) : result (option Z) :=
  match value with Some s => t ← fromisoformat s; Ok (Some t) | None => Ok None end.
Definition bind_int (z : Z) : result Z :=
  if (-9223372036854775808 <=? z) && (z <=? 9223372036854775807) then Ok z
  else Raise (OverflowError "Python int too large to convert to SQLite INTEGER").
Definition bind_opt_int (o : option Z) : result (option Z) :=
  match o with Some z => z ← bind_int z; Ok (Some z) | None => Ok None end.

Lemma bind_strings_read l s : bind_strings l = Ok s → read_strings s = Ok l.
Proof.
  unfold bind_strings. destruct (forallb valid_text l) eqn:Hl; [|done]. intros [= <-].
  apply read_json_strings. apply Forall_forall. intros x Hx. apply valid_text_ok.
  by apply (proj1 (forallb_elem _ _) Hl).
Qed.
Lemma bind_datetime_read t s : bind_datetime t = Ok s → fromisoformat s = Ok t.
Proof.
  unfold bind_datetime. destruct (_ && _) eqn:Ht; [|done]. intros [= <-].
  apply fromisoformat_isoformat. lia.
Qed.
Lemma datetime_storage_read o s :
  _datetime_to_storage o = Ok s → _datetime_from_storage s = Ok o.
Proof.
  destruct o as [t|]; cbn; [|by intros [= <-]].
  destruct (bind_datetime t) as [x|e] eqn:Ht; [|done]. intros [= <-]. cbn.
  by rewrite (bind_datetime_read _ _ Ht).
Qed.
Lemma bind_int_same z z' : bind_int z = Ok z' → z' = z.
Proof. unfold bind_int. destruct (_ && _); [|done]. by intros [= <-]. Qed.
Lemma bind_opt_int_same o o' : bind_opt_int o = Ok o' → o' = o.
Proof.
  destruct o as [z|]; cbn; [|by intros [= <-]].
  destruct (bind_int z) as [z'|] eqn:Hz; [|done]. intros [= <-]. by rewrite (bind_int_same _ _ Hz).
Qed.

(** Peel the bindings of a row's values off a hypothesis. *)
Ltac bound_values :=
  repeat match goal with
  | H : (?r ≫= ?f) = Ok _ |- _ =>
      let E := fresh "Hbind" in
      destruct r eqn:E; [change (f _ = Ok _) with (f _ = Ok _) in H; cbn [mbind result_bind] in H|done]
  | H : bind_strings _ = Ok _ |- _ => apply bind_strings_read in H
  | H : bind_datetime _ = Ok _ |- _ => apply bind_datetime_read in H
  | H : _datetime_to_storage _ = Ok _ |- _ => apply datetime_storage_read in H
  | H : bind_int _ = Ok _ |- _ => apply bind_int_same in H; subst
  | H : bind_opt_int _ = Ok _ |- _ => apply bind_opt_int_same in H; subst
  | H : Ok _ = Ok _ |- _ => injection H as <-
  end.

(** ** Grants *)

Record grant_row := mkGrantRow {
  grw_grant_id : string;
  grw_grant_ref : string;
  grw_workspace_id : string;
  grw_agent_id : string;
  grw_scopes_json : string;
  grw_status : string;
  grw_expires_at : option string
}.
Definition grant_values (grant : Grant) : result grant_row :=
  scopes ← bind_strings (g_scopes grant);
  expires_at ← _datetime_to_storage (g_expires_at grant);
  Ok (mkGrantRow (g_grant_id grant) (g_grant_ref grant) (g_workspace_id grant)
        (g_agent_id grant) scopes (g_status grant) expires_at).
Definition _grant_from_row (row : grant_row) : result Grant :=
  expires_at ← _datetime_from_storage (grw_expires_at row);
  scopes ← read_strings (grw_scopes_json row);
  Ok (mkGrant (grw_grant_id row) (grw_grant_ref row) (grw_workspace_id row) (grw_agent_id row)
        scopes (grw_status row) expires_at).
Lemma grant_row_round_trip g row : grant_values g = Ok row → _grant_from_row row = Ok g.
Proof.
  unfold grant_values, _grant_from_row. intros Hv. bound_values. cbn.
  rewrite Hbind0. cbn. rewrite Hbind. by destruct g.
Qed.

(** ** Boundaries *)

Record boundary_row := mkBoundaryRow {
  brw_boundary_id : string;
  brw_workspace_id : string;
  brw_name : string;
  brw_runtime : string;
  brw_boundary_type : string;
  brw_mode : string;
  brw_status : string;
  brw_created_at : string;
  brw_updated_at : string
}.
Definition boundary_values (b : Boundary) : result boundary_row :=
  created_at ← bind_datetime (b_created_at b);
  updated_at ← bind_datetime (b_updated_at b);
  Ok (mkBoundaryRow (b_boundary_id b) (b_workspace_id b) (b_name b) (b_runtime b)
        (b_boundary_type b) (b_mode b) (b_status b) created_at updated_at).
Definition _boundary_from_row (row : boundary_row) : result Boundary :=
  created_at ← fromisoformat (brw_created_at row);
  updated_at ← fromisoformat (brw_updated_at row);
  Ok (mkBoundary (brw_boundary_id row) (brw_workspace_id row) (brw_name row) (brw_runtime row)
        (brw_boundary_type row) (brw_mode row) (brw_status row) created_at updated_at).
Lemma boundary_row_round_trip b row : boundary_values b = Ok row → _boundary_from_row row = Ok b.
Proof.
  unfold boundary_values, _boundary_from_row. intros Hv. bound_values. cbn.
  rewrite Hbind. cbn. rewrite Hbind0. by destruct b.
Qed.

(** ** Grant requests *)

Record request_row := mkRequestRow {
  rqw_request_id : string;
  rqw_workspace_id : string;
  rqw_requester_agent_id : string;
  rqw_target_agent_id : string;
  rqw_requested_scopes_json : string;
  rqw_requested_ttl_seconds : Z;
  rqw_reason : string;
  rqw_status : string;
  rqw_created_at : string;
  rqw_decided_at : option string;
  rqw_decided_by : option string;
  rqw_decision_reason : option string;
  rqw_issued_grant_ref : option string;
  rqw_task_id : option string;
  rqw_session_id : option string;
  rqw_boundary_id : option string;
  rqw_requester_runtime : option string;
  rqw_repo : option string;
  rqw_worktree : option string
}.
Definition _grant_request_values (q : GrantRequest) : result request_row :=
  scopes ← bind_strings (gq_requested_scopes q);
  ttl ← bind_int (gq_requested_ttl_seconds q);
  created_at ← bind_datetime (gq_created_at q);
  decided_at ← _datetime_to_storage (gq_decided_at q);
  Ok (mkRequestRow (gq_request_id q) (gq_workspace_id q) (gq_requester_agent_id q)
        (gq_target_agent_id q) scopes ttl (gq_reason q) (gq_status q) created_at decided_at
        (gq_decided_by q) (gq_decision_reason q) (gq_issued_grant_ref q) (gq_task_id q)
        (gq_session_id q) (gq_boundary_id q) (gq_requester_runtime q) (gq_repo q) (gq_worktree q)).
Definition _grant_request_from_row (row : request_row) : result GrantRequest :=
  scopes ← read_strings (rqw_requested_scopes_json row);
  created_at ← fromisoformat (rqw_created_at row);
  decided_at ← _datetime_from_storage (rqw_decided_at row);
  Ok (mkGrantRequest (rqw_request_id row) (rqw_workspace_id row) (rqw_requester_agent_id row)
        (rqw_target_agent_id row) scopes (rqw_requested_ttl_seconds row) (rqw_reason row)
        (rqw_status row) created_at decided_at (rqw_decided_by row) (rqw_decision_reason row)
        (rqw_issued_grant_ref row) (rqw_task_id row) (rqw_session_id row) (rqw_boundary_id row)
        (rqw_requester_runtime row) (rqw_repo row) (rqw_worktree row)).
Lemma request_row_round_trip q row :
  _grant_request_values q = Ok row → _grant_request_from_row row = Ok q.
Proof.
  unfold _grant_request_values, _grant_request_from_row. intros Hv. bound_values. cbn.
  rewrite Hbind. cbn. rewrite Hbind1. cbn. rewrite Hbind2. by destruct q.
Qed.

(** ** Subject tokens *)

Record token_row := mkTokenRow {
  tkw_token_id : string;
  tkw_token_hash : string;
  tkw_workspace_id : string;
  tkw_agent_id : string;
  tkw_grant_ref : string;
  tkw_audience : string;
  tkw_issued_at : string;
  tkw_expires_at : string;
  tkw_created_by : string;
  tkw_revoked_at : option string;
  tkw_bound_action : option string;
  tkw_bound_resource : option string;
  tkw_pop_secret : option string
}.
Definition token_values (t : SubjectToken) : result token_row :=
  issued_at ← bind_datetime (st_issued_at t);
  expires_at ← bind_datetime (st_expires_at t);
  revoked_at ← _datetime_to_storage (st_revoked_at t);
  Ok (mkTokenRow (st_token_id t) (st_token_hash t) (st_workspace_id t) (st_agent_id t)
        (st_grant_ref t) (st_audience t) issued_at expires_at (st_created_by t) revoked_at
        (st_bound_action t) (st_bound_resource t) (st_pop_secret t)).
(** The proof secret is read only where a verification needs it. *)
Definition _subject_token_from_row (with_secret : bool) (row : token_row) : result SubjectToken :=
  issued_at ← fromisoformat (tkw_issued_at row);
  expires_at ← fromisoformat (tkw_expires_at row);
  revoked_at ← _datetime_from_storage (tkw_revoked_at row);
  Ok (mkSubjectToken (tkw_token_id row) (tkw_token_hash row) (tkw_workspace_id row)
        (tkw_agent_id row) (tkw_grant_ref row) (tkw_audience row) issued_at expires_at
        (tkw_created_by row) revoked_at (tkw_bound_action row) (tkw_bound_resource row)
        (if with_secret then tkw_pop_secret row else None)).
Lemma token_row_round_trip t row :
  token_values t = Ok row → _subject_token_from_row true row = Ok t.
Proof.
  unfold token_values, _subject_token_from_row. intros Hv. bound_values. cbn.
  rewrite Hbind. cbn. rewrite Hbind0. cbn. rewrite Hbind1. by destruct t.
Qed.

(** ** Auto-approval rules *)

Record rule_row := mkRuleRow {
  rlw_rule_id : string;
  rlw_workspace_id : string;
  rlw_name : string;
  rlw_target_agent_id : string;
  rlw_allowed_scopes_json : string;
  rlw_max_ttl_seconds : Z;
  rlw_status : string;
  rlw_created_by : string;
  rlw_created_at : string;
  rlw_updated_by : option string;
  rlw_updated_at : option string
}.
Definition _auto_approval_rule_values (r : AutoApprovalRule) : result rule_row :=
  scopes ← bind_strings (aar_allowed_scopes r);
  ttl ← bind_int (aar_max_ttl_seconds r);
  created_at ← bind_datetime (aar_created_at r);
  updated_at ← _datetime_to_storage (aar_updated_at r);
  Ok (mkRuleRow (aar_rule_id r) (aar_workspace_id r) (aar_name r) (aar_target_agent_id r) scopes
        ttl (aar_status r) (aar_created_by r) created_at (aar_updated_by r) updated_at).
Definition _auto_approval_rule_from_row (row : rule_row) : result AutoApprovalRule :=
  scopes ← read_strings (rlw_allowed_scopes_json row);
  created_at ← fromisoformat (rlw_created_at row);
  updated_at ← _datetime_from_storage (rlw_updated_at row);
  Ok (mkAutoApprovalRule (rlw_rule_id row) (rlw_workspace_id row) (rlw_name row)
        (rlw_target_agent_id row) scopes (rlw_max_ttl_seconds row) (rlw_status row)
        (rlw_created_by row) created_at (rlw_updated_by row) updated_at).
Lemma rule_row_round_trip r row :
  _auto_approval_rule_values r = Ok row → _auto_approval_rule_from_row row = Ok r.
Proof.
  unfold _auto_approval_rule_values, _auto_approval_rule_from_row. intros Hv. bound_values. cbn.
  rewrite Hbind. cbn. rewrite Hbind1. cbn. rewrite Hbind2. by destruct r.
Qed.

(** ** The other rows *)

Record bounds_row := mkBoundsRow {
  bdw_workspace_id : string;
  bdw_agent_id : string;
  bdw_scopes_json : string;
  bdw_max_ttl_seconds : option Z;
  bdw_updated_at : string
}.
Record settings_row := mkSettingsRow {
  stw_workspace_id : string;
  stw_agent_id : string;
  stw_require_boundary : bool;
  stw_require_boundary_set : bool;
  stw_require_subject_token : bool;
  stw_require_subject_token_set : bool;
  stw_require_pop : bool;
  stw_require_pop_set : bool;
  stw_updated_at : string
}.
Record key_row := mkKeyRow {
  kyw_key_id : string;
  kyw_key_type : string;
  kyw_workspace_id : string;
  kyw_agent_id : option string;
  kyw_key_hash : string;
  kyw_key_prefix : string;
  kyw_status : string;
  kyw_created_at : string;
  kyw_last_used_at : option string;
  kyw_revoked_at : option string
}.
Record nonce_row := mkNonceRow { nnw_token_id : string; nnw_nonce : string; nnw_ts : Z }.

Lemma mapM_elem {A B} (f : A → result B) l k : mapM f l = Ok k →
  ∀ y, y ∈ k ↔ ∃ x, x ∈ l ∧ f x = Ok y.
Proof.
  revert k. induction l as [|x l IH]; intros k; cbn [mapM].
  - intros [= <-] y. split; [by intros ?%elem_of_nil|]. by intros (? & ?%elem_of_nil & _).
  - destruct (f x) as [b|] eqn:Hf; [|done]. change (Ok b ≫= ?g) with (g b). cbv beta.
    destruct (mapM f l) as [bs|] eqn:Hm; [|done]. change (Ok bs ≫= ?g) with (g bs). cbv beta.
    intros [= <-] y. rewrite elem_of_cons, (IH _ eq_refl). split.
    + intros [->|(z & Hz & Hy)]; [exists x; split; [left|done]|exists z; split; [by right|done]].
    + intros (z & [->|Hz]%elem_of_cons & Hy); [left; congruence|right; by exists z].
Qed.

(** ** Tables as dictionaries

    A table whose rows are the encodings of [l], with [key] as its primary key,
    and the dictionary that holds [l] under the same keys. *)
Section tables.
Context {V R : Type} (key : V → string) (row_key : R → string) (values : V → result R).
Context (values_key : ∀ v row, values v = Ok row → row_key row = key v).

Definition indexed (l : list V) : dict string V := map (λ v, (key v, v)) l.
Definition encodes (rows : list R) (l : list V) : Prop := Forall2 (λ row v, values v = Ok row) rows l.

Lemma indexed_wf l : dict_wf (indexed l) ↔ NoDup (map key l).
Proof. unfold dict_wf, dkeys, indexed. rewrite map_map. done. Qed.
Lemma dget_indexed l k v : dget k (indexed l) = Some v → key v = k ∧ v ∈ l.
Proof.
  intros Hg%dget_elem. unfold indexed in Hg.
  apply list_elem_of_In, in_map_iff in Hg as (x & Hx & Hin). injection Hx as <- <-.
  split; [done|]. by apply list_elem_of_In.
Qed.
(** [SELECT ... WHERE key = ?] *)
Lemma select_encodes rows l k : encodes rows l →
  match List.find (λ row, row_key row == k) rows with
  | Some row => ∃ v, dget k (indexed l) = Some v ∧ values v = Ok row
  | None => dget k (indexed l) = None
  end.
Proof.
  induction 1 as [|row v rows l Hv _ IH]; [done|]. cbn [List.find indexed map dget].
  rewrite (values_key _ _ Hv). destruct (String.eqb_spec (key v) k) as [->|Hne].
  - exists v. by rewrite decide_True by done.
  - by rewrite decide_False by done.
Qed.
Lemma encodes_elem rows l row : encodes rows l → row ∈ rows → ∃ v, v ∈ l ∧ values v = Ok row.
Proof.
  intros He Hin. apply list_elem_of_lookup in Hin as [i Hi].
  destruct (Forall2_lookup_l _ _ _ _ _ He Hi) as (v & Hv & Hvr).
  exists v. split; [by eapply list_elem_of_lookup_2|done].
Qed.
Lemma encodes_elem_r rows l v : encodes rows l → v ∈ l → ∃ row, row ∈ rows ∧ values v = Ok row.
Proof.
  intros He Hin. apply list_elem_of_lookup in Hin as [i Hi].
  destruct (Forall2_lookup_r _ _ _ _ _ He Hi) as (row & Hrow & Hvr).
  exists row. split; [by eapply list_elem_of_lookup_2|done].
Qed.
(** [INSERT] of a new key *)
Lemma insert_encodes rows l row v : encodes rows l → values v = Ok row →
  dget (key v) (indexed l) = None →
  encodes (rows ++ [row]) (l ++ [v]) ∧ indexed (l ++ [v]) = dset (key v) v (indexed l).
Proof.
  intros He Hv Hnone. split; [by apply Forall2_app; [|repeat constructor]|].
  rewrite dset_fresh by done. unfold indexed. by rewrite map_app.
Qed.
(** [UPDATE ... WHERE key = ?] of every column *)
Definition replaced (v : V) (l : list V) : list V := map (λ x, if key x == key v then v else x) l.
Lemma update_encodes rows l row v : encodes rows l → values v = Ok row →
  encodes (map (λ r, if row_key r == key v then row else r) rows) (replaced v l).
Proof.
  intros He Hv. induction He as [|r x rows l Hx _ IH]; [constructor|]. cbn [map replaced].
  constructor; [|exact IH]. rewrite (values_key _ _ Hx). by destruct (key x == key v).
Qed.
Lemma indexed_replaced l v x : NoDup (map key l) → dget (key v) (indexed l) = Some x →
  indexed (replaced v l) = dset (key v) v (indexed l).
Proof.
  induction l as [|y l IH]; [done|]. cbn [map]. intros [Hy Hnd]%NoDup_cons Hg.
  cbn [indexed replaced map dget dset] in *. destruct (String.eqb_spec (key y) (key v)) as [He|Hne].
  - rewrite decide_True by done. f_equal.
    rewrite He in Hy. clear -Hy. unfold replaced, indexed. rewrite map_map.
    apply map_ext_in. intros z Hz. destruct (String.eqb_spec (key z) (key v)) as [Hz'|]; [|done].
    exfalso. apply Hy. rewrite <- Hz'. by apply list_elem_of_In, in_map.
  - rewrite decide_False in Hg by done. rewrite decide_False by done. f_equal. by apply IH.
Qed.
Lemma replaced_keys l v : map key (replaced v l) = map key l.
Proof.
  unfold replaced. rewrite map_map. apply map_ext. intros x.
  by destruct (String.eqb_spec (key x) (key v)) as [->|].
Qed.
Lemma insert_keys l v : NoDup (map key l) → dget (key v) (indexed l) = None →
  NoDup (map key (l ++ [v])).
Proof.
  rewrite <- !indexed_wf. intros Hnd Hnone. unfold indexed. rewrite map_app.
  fold (indexed l). change (indexed l ++ map _ [v]) with (indexed l ++ [(key v, v)]).
  rewrite <- dset_fresh by done. by apply dset_wf.
Qed.
End tables.
