(* ===== verification/SqlStore.v ===== *)
(** * The SQLite repositories ([src/vinctor_service/sqlite.py])

    One serialized connection over the tables of the database.  Each repository
    method is its statements, in the scope the source gives it; the theorems
    show that the repositories keep the promises the service relies on, and
    refine the in-memory ones, whatever transaction is open and whenever a
    commit fails. *)
From S2P Require Import Prelude PyStr PyDict PyTime Models ServiceModels Repositories AuditWriter.
From S2P Require Import Enforce CoreAudit Sha256 Pop World AuditJson Json AuditChain.
From S2P Require Import IdemRows SqlTxn SqlRows.

(** ** The database *)

Record version_row := mkVersionRow {
  vrw_workspace_id : string;
  vrw_version : Z;
  vrw_action : string;
  vrw_source_version : option Z;
  vrw_snapshot_json : string;
  vrw_applied_by : string;
  vrw_created_at : string
}.
Record Db := mkDb {
  d_grants : list grant_row;
  d_audit : list audit_row;
  d_boundaries : list boundary_row;
  d_bounds : list bounds_row;
  d_requests : list request_row;
  d_rules : list rule_row;
  d_tokens : list token_row;
  d_settings : list settings_row;
  d_nonces : list nonce_row;
  d_versions : list version_row;
  d_keys : list key_row;
  d_idem : IdemDb
}.
Definition empty_db : Db := mkDb [] [] [] [] [] [] [] [] [] [] [] empty_idem.

(** A table of the database. *)
Record table (T : Type) := mkTable { t_get : Db → T; t_set : T → Db → Db }.
Arguments mkTable {T}. Arguments t_get {T}. Arguments t_set {T}.
Definition grants_table := mkTable d_grants (λ t db,
  mkDb t (d_audit db) (d_boundaries db) (d_bounds db) (d_requests db) (d_rules db) (d_tokens db)
    (d_settings db) (d_nonces db) (d_versions db) (d_keys db) (d_idem db)).
Definition audit_table := mkTable d_audit (λ t db,
  mkDb (d_grants db) t (d_boundaries db) (d_bounds db) (d_requests db) (d_rules db) (d_tokens db)
    (d_settings db) (d_nonces db) (d_versions db) (d_keys db) (d_idem db)).
Definition boundaries_table := mkTable d_boundaries (λ t db,
  mkDb (d_grants db) (d_audit db) t (d_bounds db) (d_requests db) (d_rules db) (d_tokens db)
    (d_settings db) (d_nonces db) (d_versions db) (d_keys db) (d_idem db)).
Definition bounds_table := mkTable d_bounds (λ t db,
  mkDb (d_grants db) (d_audit db) (d_boundaries db) t (d_requests db) (d_rules db) (d_tokens db)
    (d_settings db) (d_nonces db) (d_versions db) (d_keys db) (d_idem db)).
Definition requests_table := mkTable d_requests (λ t db,
  mkDb (d_grants db) (d_audit db) (d_boundaries db) (d_bounds db) t (d_rules db) (d_tokens db)
    (d_settings db) (d_nonces db) (d_versions db) (d_keys db) (d_idem db)).
Definition rules_table := mkTable d_rules (λ t db,
  mkDb (d_grants db) (d_audit db) (d_boundaries db) (d_bounds db) (d_requests db) t (d_tokens db)
    (d_settings db) (d_nonces db) (d_versions db) (d_keys db) (d_idem db)).
Definition tokens_table := mkTable d_tokens (λ t db,
  mkDb (d_grants db) (d_audit db) (d_boundaries db) (d_bounds db) (d_requests db) (d_rules db) t
    (d_settings db) (d_nonces db) (d_versions db) (d_keys db) (d_idem db)).
Definition settings_table := mkTable d_settings (λ t db,
  mkDb (d_grants db) (d_audit db) (d_boundaries db) (d_bounds db) (d_requests db) (d_rules db)
    (d_tokens db) t (d_nonces db) (d_versions db) (d_keys db) (d_idem db)).
Definition nonces_table := mkTable d_nonces (λ t db,
  mkDb (d_grants db) (d_audit db) (d_boundaries db) (d_bounds db) (d_requests db) (d_rules db)
    (d_tokens db) (d_settings db) t (d_versions db) (d_keys db) (d_idem db)).
Definition versions_table := mkTable d_versions (λ t db,
  mkDb (d_grants db) (d_audit db) (d_boundaries db) (d_bounds db) (d_requests db) (d_rules db)
    (d_tokens db) (d_settings db) (d_nonces db) t (d_keys db) (d_idem db)).
Definition keys_table := mkTable d_keys (λ t db,
  mkDb (d_grants db) (d_audit db) (d_boundaries db) (d_bounds db) (d_requests db) (d_rules db)
    (d_tokens db) (d_settings db) (d_nonces db) (d_versions db) t (d_idem db)).

Definition idem_table := mkTable d_idem (λ t db,
  mkDb (d_grants db) (d_audit db) (d_boundaries db) (d_bounds db) (d_requests db) (d_rules db)
    (d_tokens db) (d_settings db) (d_nonces db) (d_versions db) (d_keys db) t).

(** The process's own state: the control auditor's suppression depth, the event a
    composite operation has set, the source of random names, and what the
    database's clock reads ([strftime('%s', 'now')]), reading by reading. *)
Record Clock := mkClock { ck_source : nat → Z; ck_read : nat }.
Record Local := mkLocal {
  l_depth : nat;
  l_pending : option AuditEvent;
  l_entropy : Entropy;
  l_clock : Clock
}.
Definition l_tick (l : Local) : Local :=
  mkLocal (l_depth l) (l_pending l) (l_entropy l) (mkClock (ck_source (l_clock l)) (S (ck_read (l_clock l)))).
(** [secrets.token_urlsafe] *)
Definition l_set_entropy (e : Entropy) (l : Local) : Local := mkLocal (l_depth l) (l_pending l) e (l_clock l).
(** A chain head on its way to the anchor: sequence number, hash, instant. *)
Definition anchor_head : Type := Z * string * string.
Definition Store : Type := Conn Db anchor_head Local.

Definition draw (nbytes : nat) : M Store string := on_local (zoom l_entropy l_set_entropy (token_urlsafe nbytes)).
Definition select {T X} (t : table T) (f : T → X) : M Store X := query (λ db, f (t_get t db)).
(** A statement on one table. *)
Definition statement {T X} (t : table T) (st : T → result (X * T)) : M Store X :=
  execute (λ db, '(x, rows) ← st (t_get t db); Ok (x, t_set t rows db)).
Definition integrity_error (column : string) : pyexc :=
  StorageError ("UNIQUE constraint failed: " ^+ column).

(** ** Grants *)

Definition sql_get_by_ref (grant_ref : string) : M Store (option Grant) :=
  row ← select grants_table (List.find (λ row, grw_grant_ref row == grant_ref));
  match row with
  | None => mret None
  | Some row => grant ← lift (_grant_from_row row); mret (Some grant)
  end.
Definition sql_list_grants_for_workspace (workspace_id : string)
    (agent_id status : option string) : M Store (list Grant) :=
  rows ← select grants_table (λ rows,
    py_sorted (λ x y, String.leb (grw_grant_id x) (grw_grant_id y))
      (List.filter (λ row,
        (grw_workspace_id row == workspace_id)
        && match agent_id with Some a => grw_agent_id row == a | None => true end
        && match status with Some s => grw_status row == s | None => true end) rows));
  lift (mapM _grant_from_row rows).
Definition insert_grant (grant : Grant) : M Store unit :=
  existing ← select grants_table (List.find (λ row, grw_grant_ref row == g_grant_ref grant));
  match existing with
  | Some _ => raise (ValueError ("duplicate grant_ref: " ^+ g_grant_ref grant))
  | None =>
      _write_scope (
        row ← lift (grant_values grant);
        statement grants_table (λ rows,
          if existsb (λ r, grw_grant_id r == g_grant_id grant) rows
          then Raise (integrity_error "grants.grant_id")
          else if existsb (λ r, grw_grant_ref r == g_grant_ref grant) rows
          then Raise (integrity_error "grants.grant_ref")
          else Ok (tt, rows ++ [row])))
  end.
Definition grw_revoked (row : grant_row) : grant_row :=
  mkGrantRow (grw_grant_id row) (grw_grant_ref row) (grw_workspace_id row) (grw_agent_id row)
    (grw_scopes_json row) "revoked" (grw_expires_at row).
Definition sql_revoke (grant_ref workspace_id : string) : M Store (option Grant) :=
  grant ← sql_get_by_ref grant_ref;
  match grant with
  | None => mret None
  | Some grant =>
      if negb (g_workspace_id grant == workspace_id) then mret None
      else if g_status grant == "revoked" then mret (Some grant)
      else
        _ ← _write_scope (statement grants_table (λ rows, Ok (tt,
              map (λ row, if (grw_grant_ref row == grant_ref)
                             && (grw_workspace_id row == workspace_id)
                          then grw_revoked row else row) rows)));
        revoked ← sql_get_by_ref grant_ref;
        match revoked with
        | None => raise (RuntimeError ("grant disappeared during revocation: " ^+ grant_ref))
        | Some revoked => mret (Some revoked)
        end
  end.
#[export] Instance SQLiteGrantRepository : GrantLifecycle Store := {|
  gr_get_by_ref := sql_get_by_ref;
  gr_list_grants_for_workspace := sql_list_grants_for_workspace;
  gr_insert := insert_grant;
  gr_revoke := sql_revoke
|}.

(** ** Audit events *)

(** The instants and strings of an event, as Python values. *)
Definition event_bindable (e : AuditEvent) : bool :=
  forallb (λ kv, valid_text kv.1 && match kv.2 with VStr s => valid_text s | _ => true end)
    (to_dict e)
  && forallb (λ t, (DATETIME_MIN <=? t) && (t <=? DATETIME_MAX))
       (e_created_at e :: option_list (e_first_seen_at e) ++ option_list (e_last_seen_at e)).
Definition write_event (event : AuditEvent) : M Store anchor_head :=
  if event_bindable event
  then statement audit_table (λ rows,
         match _write_event event rows with
         | (Ok written, rows') => Ok (written, rows')
         | (Raise e, _) => Raise e
         end)
  else raise (ValueError "surrogates not allowed").
Definition sql_audit_write (event : AuditEvent) : M Store unit :=
  written ← _write_scope (write_event event);
  emit_or_defer written.
(** A savepoint: what is done in it stays, or is undone as a whole.  Without an
    open transaction its release is a commit.  (Discarding it is retried and its
    failures are ignored by the source; it succeeds here.) *)
Definition savepoint {X} (m : M Store X) : M Store X := λ c,
  if in_transaction c then
    match m c with
    | (Ok x, c') => (Ok x, c')
    | (Raise e, c') => (Raise e, set_db (c_db c) c')
    end
  else
    match (x ← m; _ ← commit; mret x) (set_saved (Some (c_db c)) c) with
    | (Ok x, c') => (Ok x, c')
    | (Raise e, c') => (Raise e, set_saved None (set_db (c_db c) c'))
    end.
Definition _write_best_effort_in_savepoint (event : AuditEvent) : M Store bool :=
  try_except (written ← savepoint (write_event event); _ ← emit_or_defer written; mret true)
    (λ _, mret false).
Definition sql_write_best_effort (event : AuditEvent) : M Store bool :=
  try_except
    (open ← gets in_transaction;
     if open : bool then _write_best_effort_in_savepoint event
     else atomic_write_deferral (_write_best_effort_in_savepoint event))
    (λ _, mret false).
#[export] Instance SQLiteAuditWriter : AuditWriter Store := {|
  aw_write := sql_audit_write;
  aw_write_best_effort := Some sql_write_best_effort
|}.

(** ** Grant requests *)

Definition sql_get_request (request_id : string) : M Store (option GrantRequest) :=
  row ← select requests_table (List.find (λ row, rqw_request_id row == request_id));
  match row with
  | None => mret None
  | Some row => request ← lift (_grant_request_from_row row); mret (Some request)
  end.
Definition sql_insert_request (request : GrantRequest) : M Store unit :=
  existing ← sql_get_request (gq_request_id request);
  match existing with
  | Some _ => raise (ValueError ("duplicate grant request_id: " ^+ gq_request_id request))
  | None =>
      _write_scope (
        row ← lift (_grant_request_values request);
        statement requests_table (λ rows,
          if existsb (λ r, rqw_request_id r == gq_request_id request) rows
          then Raise (integrity_error "grant_requests.request_id")
          else Ok (tt, rows ++ [row])))
  end.
Definition sql_update_request (request : GrantRequest) : M Store unit :=
  existing ← sql_get_request (gq_request_id request);
  match existing with
  | None => raise (ValueError ("unknown grant request_id: " ^+ gq_request_id request))
  | Some _ =>
      _write_scope (
        row ← lift (_grant_request_values request);
        statement requests_table (λ rows, Ok (tt,
          map (λ r, if rqw_request_id r == gq_request_id request then row else r) rows)))
  end.
(** [ORDER BY a, b] on text columns. *)
Definition order_by {R} (a b : R → string) (x y : R) : bool :=
  if a x == a y then String.leb (b x) (b y) else String.leb (a x) (a y).
Definition sql_list_requests_for_workspace (workspace_id : string) : M Store (list GrantRequest) :=
  rows ← select requests_table (λ rows,
    py_sorted (order_by rqw_created_at rqw_request_id)
      (List.filter (λ row, rqw_workspace_id row == workspace_id) rows));
  lift (mapM _grant_request_from_row rows).
(** The columns a decision sets. *)
Definition rqw_decided (row : request_row) (status : string)
    (decided_at decided_by decision_reason issued_grant_ref : option string) : request_row :=
  mkRequestRow (rqw_request_id row) (rqw_workspace_id row) (rqw_requester_agent_id row)
    (rqw_target_agent_id row) (rqw_requested_scopes_json row) (rqw_requested_ttl_seconds row)
    (rqw_reason row) status (rqw_created_at row) decided_at decided_by decision_reason
    issued_grant_ref (rqw_task_id row) (rqw_session_id row) (rqw_boundary_id row)
    (rqw_requester_runtime row) (rqw_repo row) (rqw_worktree row).
(** [UPDATE ... WHERE request_id = ? AND status = 'pending'], and its row count. *)
Definition sql_decide_request (request : GrantRequest) : M Store bool :=
  _write_scope (
    decided_at ← lift (_datetime_to_storage (gq_decided_at request));
    statement requests_table (λ rows,
      let hit row := (rqw_request_id row == gq_request_id request)
                     && (rqw_status row == "pending") in
      Ok (length (List.filter hit rows) =? 1,
          map (λ row, if hit row
                      then rqw_decided row (gq_status request) decided_at (gq_decided_by request)
                             (gq_decision_reason request) (gq_issued_grant_ref request)
                      else row) rows))%nat).

(** ** Subject tokens *)

Definition sql_get_by_hash (token_hash : string) : M Store (option SubjectToken) :=
  row ← select tokens_table (List.find (λ row, tkw_token_hash row == token_hash));
  match row with
  | None => mret None
  | Some row => token ← lift (_subject_token_from_row true row); mret (Some token)
  end.
Definition sql_get_by_id (token_id : string) : M Store (option SubjectToken) :=
  row ← select tokens_table (List.find (λ row, tkw_token_id row == token_id));
  match row with
  | None => mret None
  | Some row => token ← lift (_subject_token_from_row false row); mret (Some token)
  end.
Definition sql_insert_token (token : SubjectToken) : M Store unit :=
  existing ← sql_get_by_hash (st_token_hash token);
  match existing with
  | Some _ => raise (ValueError ("duplicate subject token_hash: " ^+ st_token_hash token))
  | None =>
      _write_scope (
        row ← lift (token_values token);
        statement tokens_table (λ rows,
          if existsb (λ r, tkw_token_id r == st_token_id token) rows
          then Raise (integrity_error "subject_tokens.token_id")
          else if existsb (λ r, tkw_token_hash r == st_token_hash token) rows
          then Raise (integrity_error "subject_tokens.token_hash")
          else Ok (tt, rows ++ [row])))
  end.
Definition tkw_revoked (row : token_row) (revoked_at : string) : token_row :=
  mkTokenRow (tkw_token_id row) (tkw_token_hash row) (tkw_workspace_id row) (tkw_agent_id row)
    (tkw_grant_ref row) (tkw_audience row) (tkw_issued_at row) (tkw_expires_at row)
    (tkw_created_by row) (Some revoked_at) (tkw_bound_action row) (tkw_bound_resource row)
    (tkw_pop_secret row).
Definition sql_revoke_token (token_id : string) (now : Z) : M Store bool :=
  _write_scope (
    revoked_at ← lift (bind_datetime now);
    statement tokens_table (λ rows,
      let hit row := tkw_token_id row == token_id in
      Ok (negb (length (List.filter hit rows) =? 0)%nat,
          map (λ row, if hit row then tkw_revoked row revoked_at else row) rows))).
Definition sql_list_subject_tokens (workspace_id : string) : M Store (list SubjectToken) :=
  rows ← select tokens_table (λ rows,
    py_sorted (λ x y, String.leb (tkw_issued_at x) (tkw_issued_at y))
      (List.filter (λ row, tkw_workspace_id row == workspace_id) rows));
  lift (mapM (_subject_token_from_row false) rows).

(** ** Replay nonces ([SQLiteReplayStore]) *)

Definition sql_check_and_record (max max_per_token : Z) (token_id nonce : string)
    (ts now_unix skew : Z) : M Store bool :=
  let cutoff := now_unix - skew in
  let same row := (nnw_token_id row == token_id) && (nnw_nonce row == nonce) in
  _write_scope (
    bound ← lift (bind_int cutoff);
    _ ← statement nonces_table (λ rows, Ok (tt, List.filter (λ row, negb (nnw_ts row <? bound)) rows));
    row ← select nonces_table (List.find same);
    match row with
    | Some _ => mret false
    | None =>
        per_token ← select nonces_table (λ rows,
          Z.of_nat (length (List.filter (λ row, nnw_token_id row == token_id) rows)));
        if max_per_token <=? per_token then mret false
        else
          count ← select nonces_table (λ rows, Z.of_nat (length rows));
          if max <=? count then mret false
          else
            ts ← lift (bind_int ts);
            try_except
              (_ ← statement nonces_table (λ rows,
                 if existsb same rows then Raise (integrity_error "pop_replay_nonces")
                 else Ok (tt, rows ++ [mkNonceRow token_id nonce ts]));
               mret true)
              (λ _, mret false)
    end).

(** ** Statements *)

Lemma select_run {T X} (t : table T) (f : T → X) (c : Store) :
  select t f c = (Ok (f (t_get t (c_db c))), c).
Proof. done. Qed.
Lemma statement_write {T X} (t : table T) (st : T → result (X * T)) :
  single_write (statement t st) (λ db x db', ∃ rows, st (t_get t db) = Ok (x, rows) ∧
    db' = t_set t rows db).
Proof.
  eapply single_write_weaken; [apply single_write_execute|]. cbn. intros db x db'.
  destruct (st (t_get t db)) as [[y rows]|e]; [|done]. intros [= <- <-]. eauto.
Qed.

(** ** The grants keep their promise *)

Definition grants_of (rows : list grant_row) : gmap string Grant :=
  dict_map (omap (λ row, match _grant_from_row row with
                         | Ok g => Some (grw_grant_ref row, g)
                         | Raise _ => None
                         end) rows).
Definition grants_encoded (c : Store) (l : list Grant) : Prop :=
  encodes grant_values (d_grants (c_db c)) l ∧ NoDup (map g_grant_ref l).
Definition grants_ok (c : Store) : Prop := ∃ l, grants_encoded c l.

Lemma grant_values_key g row : grant_values g = Ok row → grw_grant_ref row = g_grant_ref g.
Proof. unfold grant_values. intros Hv. by bound_values. Qed.
Lemma grants_of_encoded c l : grants_encoded c l →
  grants_of (d_grants (c_db c)) = dict_map (indexed g_grant_ref l).
Proof.
  intros [He _]. unfold grants_of. f_equal. induction He as [|row g rows l Hg _ IH]; [done|].
  cbn [omap list_omap]. rewrite (grant_row_round_trip _ _ Hg), (grant_values_key _ _ Hg).
  cbn [indexed map]. f_equal. exact IH.
Qed.
Lemma grants_lookup c l ref : grants_encoded c l →
  grants_of (d_grants (c_db c)) !! ref = dget ref (indexed g_grant_ref l).
Proof. intros He. by rewrite (grants_of_encoded _ _ He), dict_map_lookup. Qed.
Lemma sql_get_by_ref_run c l ref : grants_encoded c l →
  sql_get_by_ref ref c = (Ok (dget ref (indexed g_grant_ref l)), c).
Proof.
  intros [He _]. unfold sql_get_by_ref. rewrite (bind_run _ _ _ _ _ (select_run _ _ _)). cbn.
  pose proof (select_encodes _ _ _ grant_values_key _ _ ref He) as Hsel.
  destruct (List.find _ _) as [row|].
  - destruct Hsel as (g & -> & Hg). by rewrite (grant_row_round_trip _ _ Hg).
  - by rewrite Hsel.
Qed.
Lemma insert_grant_write g db0 : single_write
  (row ← lift (grant_values g);
   statement grants_table (λ rows,
     if existsb (λ r, grw_grant_id r == g_grant_id g) rows
     then Raise (integrity_error "grants.grant_id")
     else if existsb (λ r, grw_grant_ref r == g_grant_ref g) rows
     then Raise (integrity_error "grants.grant_ref")
     else Ok (tt, rows ++ [row])))
  (λ db _ db', ∃ row, grant_values g = Ok row ∧ db' = t_set grants_table (d_grants db ++ [row]) db
     ∧ (d_grants db = d_grants db0 → existsb (λ r, grw_grant_ref r == g_grant_ref g) (d_grants db0) = false)).
Proof.
  apply single_write_lift. intros row Hrow. eapply single_write_weaken; [apply statement_write|].
  cbn. intros db [] db' (rows & Hst & ->). destruct (existsb _ (d_grants db)); [done|].
  destruct (existsb (λ r, grw_grant_ref r == g_grant_ref g) (d_grants db)) eqn:Href; [done|].
  injection Hst as <-. exists row. split_and!; [done|done|]. by intros <-.
Qed.
Lemma revoked_values g row : grant_values g = Ok row →
  grant_values (revoked g) = Ok (grw_revoked row).
Proof.
  unfold grant_values, revoked, grw_revoked. cbn [g_scopes g_expires_at g_grant_id g_grant_ref
    g_workspace_id g_agent_id g_status].
  destruct (bind_strings (g_scopes g)); [|done]. cbn.
  destruct (_datetime_to_storage (g_expires_at g)); [|done]. cbn. by intros [= <-].
Qed.
(** The UPDATE of a revocation, on the rows and on what they encode. *)
Lemma revoke_rows rows l ref ws : encodes grant_values rows l →
  encodes grant_values
    (map (λ row, if (grw_grant_ref row == ref) && (grw_workspace_id row == ws)
                 then grw_revoked row else row) rows)
    (map (λ g, if (g_grant_ref g == ref) && (g_workspace_id g == ws) then revoked g else g) l).
Proof.
  intros He. unfold encodes. rewrite Forall2_fmap. eapply Forall2_impl; [exact He|].
  intros row g Hg. rewrite (grant_values_key _ _ Hg).
  assert (grw_workspace_id row = g_workspace_id g) as ->
    by (unfold grant_values in Hg; by bound_values).
  destruct (_ && _); [by apply revoked_values|done].
Qed.
Lemma indexed_revoked l ref ws g : NoDup (map g_grant_ref l) →
  dget ref (indexed g_grant_ref l) = Some g → g_workspace_id g = ws →
  indexed g_grant_ref (map (λ x, if (g_grant_ref x == ref) && (g_workspace_id x == ws)
                                 then revoked x else x) l) =
  dset ref (revoked g) (indexed g_grant_ref l).
Proof.
  intros Hnd Hg Hws. pose proof (dget_indexed _ _ _ _ Hg) as [Href Hin].
  rewrite <- Href in Hg |- *.
  etrans; [|exact (indexed_replaced g_grant_ref l (revoked g) g Hnd Hg)].
  unfold replaced. f_equal. apply map_ext_in. intros x Hx%list_elem_of_In.
  change (g_grant_ref (revoked g)) with (g_grant_ref g).
  destruct (String.eqb_spec (g_grant_ref x) (g_grant_ref g)) as [Hxg|]; [|done].
  assert (x = g) as ->; [|by rewrite Hws, String.eqb_refl].
  assert (Hgx : dget (g_grant_ref g) (indexed g_grant_ref l) = Some x).
  { apply dget_elem_iff; [by apply indexed_wf|]. rewrite <- Hxg. unfold indexed.
    apply list_elem_of_fmap. by exists x. }
  congruence.
Qed.

(** The write of a revocation and the read after it. *)
Lemma sql_revoke_write c l ref ws g r c' :
  grants_encoded c l → dget ref (indexed g_grant_ref l) = Some g → g_workspace_id g = ws →
  (_ ← _write_scope (statement grants_table (λ rows, Ok (tt,
         map (λ row, if (grw_grant_ref row == ref) && (grw_workspace_id row == ws)
                     then grw_revoked row else row) rows)));
   found ← sql_get_by_ref ref;
   match found with
   | None => raise (RuntimeError ("grant disappeared during revocation: " ^+ ref))
   | Some found => mret (Some found)
   end) c = (r, c') →
  match r with
  | Ok o => o = Some (revoked g) ∧ grants_encoded c'
      (map (λ x, if (g_grant_ref x == ref) && (g_workspace_id x == ws) then revoked x else x) l)
  | Raise _ => c_db c' = c_db c
  end.
Proof.
  intros [He Hnd] Hg Hws. set (scope := _write_scope _). set (l' := map _ l).
  assert (Hnd' : NoDup (map g_grant_ref l')).
  { subst l'. rewrite map_map. erewrite map_ext; [exact Hnd|]. intros x. by destruct (_ && _). }
  destruct (scope c) as [[[]|e] c1] eqn:Hscope.
  - assert (He1 : grants_encoded c1 l').
    { split; [|done]. subst scope.
      apply (single_write_scope _ _ (statement_write _ _)) in Hscope.
      destruct Hscope as (rows & [= <-] & ->). by apply revoke_rows. }
    rewrite (bind_run _ _ _ _ _ Hscope), (bind_run _ _ _ _ _ (sql_get_by_ref_run _ _ ref He1)).
    subst l'. rewrite (indexed_revoked l ref ws g) by done. rewrite dget_dset_eq.
    intros [= <- <-]. done.
  - unfold mbind at 1, M_bind. rewrite Hscope. intros [= <- <-]. subst scope.
    exact (proj2 (single_write_scope _ _ (statement_write _ _)) _ _ _ Hscope).
Qed.

#[export] Program Instance sql_grants_ok : GrantLifecycleOk Store := {|
  gr_wf := grants_ok;
  gr_view := λ c, grants_of (d_grants (c_db c))
|}.
Next Obligation.
  intros c ref x [l He]. rewrite (grants_lookup _ _ _ He). intros Hg. by apply dget_indexed in Hg as [Hg _].
Qed.
Next Obligation.
  intros ref c r c' [l He]. cbn. rewrite (sql_get_by_ref_run _ _ _ He). intros [= <- <-].
  split_and!; [by exists l|done|]. intros o [= <-]. by rewrite (grants_lookup _ _ _ He).
Qed.
Next Obligation.
  intros ws agent status c r c' [l [He Hnd]] Hrun. cbn in Hrun. unfold sql_list_grants_for_workspace in Hrun.
  rewrite (bind_run _ _ _ _ _ (select_run _ _ _)) in Hrun. unfold lift in Hrun. injection Hrun as <- <-.
  split_and!; [by exists l|done|]. intros got Hgot x.
  rewrite (mapM_elem _ _ _ Hgot). rewrite (grants_of_encoded c l) by done.
  setoid_rewrite dict_map_lookup.
  assert (Hx : (∃ ref, dget ref (indexed g_grant_ref l) = Some x) ↔ x ∈ l).
  { split; [intros [ref Hg]; by apply dget_indexed in Hg as [_ Hg]|]. intros Hin. exists (g_grant_ref x).
    apply dget_elem_iff; [by apply indexed_wf|]. unfold indexed. apply list_elem_of_fmap. eauto. }
  rewrite Hx. clear Hx. setoid_rewrite py_sorted_perm.
  setoid_rewrite list_elem_of_In. setoid_rewrite filter_In. setoid_rewrite <- list_elem_of_In.
  setoid_rewrite andb_true_iff. setoid_rewrite andb_true_iff. setoid_rewrite String.eqb_eq.
  split.
  - intros (row & (Hin & (Hws & Ha) & Hs) & Hrow).
    destruct (encodes_elem _ _ _ _ He Hin) as (g & Hg & Hv).
    rewrite (grant_row_round_trip _ _ Hv) in Hrow. injection Hrow as <-.
    unfold grant_values in Hv. bound_values. cbn in Hws, Ha, Hs.
    split_and!; [done|done| |].
    + intros ag ->. by apply String.eqb_eq.
    + intros st ->. by apply String.eqb_eq.
  - intros (Hin & Hws & Ha & Hs).
    destruct (encodes_elem_r _ _ _ _ He Hin) as (row & Hrow & Hv). exists row.
    split; [|by apply grant_row_round_trip]. unfold grant_values in Hv. bound_values. cbn.
    split_and!; [done|done| |].
    + destruct agent as [ag|]; [|done]. apply String.eqb_eq. by apply Ha.
    + destruct status as [st|]; [|done]. apply String.eqb_eq. by apply Hs.
Qed.
Next Obligation.
  intros g c r c' [l He] Hrun. cbn in Hrun. unfold insert_grant in Hrun.
  rewrite (bind_run _ _ _ _ _ (select_run _ _ _)) in Hrun. cbv beta in Hrun.
  pose proof (select_encodes _ _ _ grant_values_key _ _ (g_grant_ref g) (proj1 He)) as Hsel.
  cbn [t_get grants_table] in Hrun.
  assert (Hsame : c_db c' = c_db c → grants_ok c' ∧ grants_of (d_grants (c_db c')) = grants_of (d_grants (c_db c))).
  { intros Hdb. split; [exists l; unfold grants_encoded; by rewrite Hdb|by rewrite Hdb]. }
  destruct (List.find _ _) as [row|] eqn:Hfind.
  - injection Hrun as <- <-. destruct Hsel as (x & Hx & _).
    destruct (Hsame eq_refl) as [Hok Hview]. split; [done|]. split; [done|].
    intros _. by eexists.
  - pose proof (proj2 (single_write_scope _ _ (insert_grant_write g (c_db c))) _ _ _ Hrun) as Hw.
    assert (Hnone : dget (g_grant_ref g) (indexed g_grant_ref l) = None) by exact Hsel.
    rewrite (grants_lookup _ _ _ He), Hnone. destruct r as [[]|e].
    + destruct Hw as (row & Hrow & Hdb & _).
      destruct (insert_encodes _ _ _ _ _ _ (proj1 He) Hrow Hnone) as [He' Hidx].
      assert (Henc : grants_encoded c' (l ++ [g])).
      { split; [by rewrite Hdb|]. apply insert_keys; [apply He|done]. }
      split; [by exists (l ++ [g])|]. split; [|by intros [? ?]]. split; [done|].
      rewrite (grants_of_encoded _ _ Henc), (grants_of_encoded _ _ He), Hidx. apply dict_map_dset.
    + destruct (Hsame Hw) as [Hok Hview]. split; [done|]. split; [done|]. by intros [? ?].
Qed.
Next Obligation.
  intros ref ws c r c' [l He] Hrun. cbn in Hrun. unfold sql_revoke in Hrun.
  rewrite (bind_run _ _ _ _ _ (sql_get_by_ref_run _ _ ref He)) in Hrun.
  rewrite (grants_lookup _ _ _ He).
  assert (Hsame : c_db c' = c_db c → grants_ok c' ∧ grants_of (d_grants (c_db c')) = grants_of (d_grants (c_db c))).
  { intros Hdb. split; [exists l; unfold grants_encoded; by rewrite Hdb|by rewrite Hdb]. }
  destruct (dget ref (indexed g_grant_ref l)) as [g|] eqn:Hg.
  2: { injection Hrun as <- <-. destruct (Hsame eq_refl) as [Hok Hview]. by split_and!. }
  destruct (String.eqb_spec (g_workspace_id g) ws) as [Hws|Hws]; cbn [negb] in Hrun.
  2: { injection Hrun as <- <-. destruct (Hsame eq_refl) as [Hok Hview]. split_and!; [done|done|].
       by intros x [= <-]. }
  destruct (String.eqb_spec (g_status g) "revoked") as [Hst|Hst].
  { injection Hrun as <- <-. destruct (Hsame eq_refl) as [Hok Hview]. split; [done|].
    exists g. split_and!; [done|done|destruct g; cbn in *; by subst|].
    symmetry. apply insert_id. by rewrite (grants_lookup _ _ _ He). }
  apply (sql_revoke_write c l ref ws g r c' He Hg Hws) in Hrun.
  destruct r as [o|e].
  - destruct Hrun as (-> & Henc). split; [by eexists|]. exists g.
    split_and!; [done|done|done|].
    rewrite (grants_of_encoded _ _ Henc), (grants_of_encoded _ _ He).
    rewrite (indexed_revoked l ref ws g) by (done || apply He). apply dict_map_dset.
  - by apply Hsame.
Qed.

(** A connection just opened on a database. *)
Definition opened (db : Db) : Store :=
  mkConn db None [] [] [] (mkLocal 0 None (mkEntropy (λ bytes n, "drawn-" ^+ pretty n) 0)
    (mkClock (λ n, Z.of_nat n) 0)).
Lemma opened_idle db : idle (opened db).
Proof. by split. Qed.
