(* ===== verification/StorageOps.v ===== *)
(** * Operations on whole databases ([src/vinctor_service/storage_ops.py])

    Backing a database up, resetting it and restoring it from a snapshot.  A
    database is a main file with the sidecars (write-ahead log, shared memory,
    rollback journal) SQLite binds to it by name.  The disk is a directory over
    files: what a process sees, what is on stable storage, and the changes of the
    directory that are not, of which a loss of power keeps any part.  The lock
    that keeps other processes of the service away is taken before the
    destination is touched, so that no one else changes its files meanwhile. *)
From S2P Require Import Prelude PyStr PyDict Models Sha256 Pop Json AuditJson AuditChain.
From S2P Require Import SqlTxn SqlRows SqlStore.

(** ** Files *)

(** What a database holds: its tables, and the versions of its schema if it says. *)
Record image := mkImage { im_db : Db; im_versions : option (list Z) }.
Definition blank : image := mkImage empty_db None.
Inductive file :=
  (** The pages of a main file, which say what it holds, if they can be read. *)
  | MainFile (stamp : nat) (holds : option image)
  (** A sidecar that has pages to replay over the main file with that stamp, or to
      put back into it: over other pages they make nonsense. *)
  | Sidecar (over : nat) (result : option image)
  (** A sidecar with nothing to replay; any other file. *)
  | Bare.
Inductive dir_change :=
  | Link (name : string) (inode : nat)
  | Unlink (name : string)
  | Rename (source target : string).
Record Disk := mkDisk {
  dk_names : gmap string nat;
  dk_files : gmap nat file;
  (** On stable storage: the directory, and the content of files. *)
  dk_stable : gmap string nat;
  dk_durable : gmap nat file;
  (** The changes of the directory that are not there yet, in order. *)
  dk_pending : list dir_change;
  dk_next : nat
}.
Definition apply_change (names : gmap string nat) (c : dir_change) : gmap string nat :=
  match c with
  | Link name inode => <[name := inode]> names
  | Unlink name => delete name names
  | Rename source target =>
      match names !! source with
      | Some inode => <[target := inode]> (delete source names)
      | None => names
      end
  end.

(** [_sqlite_sidecars(db_path)] *)
Definition _sqlite_sidecars (db_path : string) : list string :=
  [db_path ^+ "-wal"; db_path ^+ "-shm"; db_path ^+ "-journal"].
(** What SQLite finds when it opens a database: a hot sidecar is replayed first. *)
Definition replay (main : nat * option image) (sidecar : option file) : nat * option image :=
  match sidecar with
  | Some (Sidecar over result) => (main.1, if (over =? main.1)%nat then result else None)
  | _ => main
  end.
Definition found (names : gmap string nat) (files : gmap nat file) (name : string) : option file :=
  inode ← names !! name; files !! inode.
(** No database; one that cannot be read; what it holds. *)
Definition contents (names : gmap string nat) (files : gmap nat file) (db_path : string) : option (option image) :=
  match found names files db_path with
  | Some (MainFile stamp holds) =>
      Some (foldl replay (stamp, holds) (map (found names files) (_sqlite_sidecars db_path))).2
  | Some _ => Some None
  | None => None
  end.
Definition holds_now (db_path : string) (d : Disk) : option (option image) := contents (dk_names d) (dk_files d) db_path.

(** ** Calls *)

Record Kit := mkKit {
  k_disk : Disk;
  (** The disks there have been, at every moment so far. *)
  k_trace : list Disk;
  (** Whether each coming call fails. *)
  k_faults : list bool;
  (** Whether directories can be flushed on this platform. *)
  k_dir_sync : bool;
  k_stderr : list string
}.
Definition OSError : pyexc := ServiceError "OSError".
Definition OperationalError : pyexc := ServiceError "sqlite3.OperationalError".
Definition DatabaseError : pyexc := ServiceError "sqlite3.DatabaseError".
Definition FileNotFoundError (msg : string) : pyexc := ServiceError ("FileNotFoundError: " ^+ msg).
Definition FileExistsError (msg : string) : pyexc := ServiceError ("FileExistsError: " ^+ msg).
Definition write_stderr (line : string) : M Kit unit := modify (λ k,
  mkKit (k_disk k) (k_trace k) (k_faults k) (k_dir_sync k) (k_stderr k ++ [line])).
(** A call that may fail, raising [e]. *)
Definition may_fail (e : pyexc) : M Kit unit := λ k,
  (if default false (head (k_faults k)) then Raise e else Ok tt,
   mkKit (k_disk k) (k_trace k) (tail (k_faults k)) (k_dir_sync k) (k_stderr k)).
(** The disk changes. *)
Definition on_disk (f : Disk → Disk) : M Kit unit := modify (λ k,
  mkKit (f (k_disk k)) (k_trace k ++ [f (k_disk k)]) (k_faults k) (k_dir_sync k) (k_stderr k)).
Definition change_dir (c : dir_change) (d : Disk) : Disk :=
  mkDisk (apply_change (dk_names d) c) (dk_files d) (dk_stable d) (dk_durable d) (dk_pending d ++ [c]) (dk_next d).
Definition set_file (inode : nat) (f : file) (d : Disk) : Disk :=
  mkDisk (dk_names d) (<[inode := f]> (dk_files d)) (dk_stable d) (dk_durable d) (dk_pending d) (dk_next d).
Definition flush_file (inode : nat) (d : Disk) : Disk :=
  mkDisk (dk_names d) (dk_files d) (dk_stable d)
    (match dk_files d !! inode with Some f => <[inode := f]> (dk_durable d) | None => dk_durable d end)
    (dk_pending d) (dk_next d).
Definition flush_dir (d : Disk) : Disk :=
  mkDisk (dk_names d) (dk_files d) (foldl apply_change (dk_stable d) (dk_pending d)) (dk_durable d) [] (dk_next d).

(** A new file; a new number for the pages of a main file. *)
Definition renumbered (d : Disk) : Disk :=
  mkDisk (dk_names d) (dk_files d) (dk_stable d) (dk_durable d) (dk_pending d) (S (dk_next d)).
Definition create (name : string) (f : file) (d : Disk) : Disk :=
  change_dir (Link name (dk_next d)) (renumbered (set_file (dk_next d) f d)).

Definition path_exists (name : string) : M Kit bool := gets (λ k, bool_decide (is_Some (dk_names (k_disk k) !! name))).
(** [Path(name).unlink(missing_ok=True)] *)
Definition unlink (name : string) : M Kit unit :=
  there ← path_exists name;
  if there : bool then _ ← may_fail OSError; on_disk (change_dir (Unlink name)) else mret tt.
(** [tempfile.mkstemp(...)], closed. *)
Definition mkstemp (name : string) : M Kit unit :=
  _ ← may_fail OSError;
  on_disk (λ d, create name (MainFile (dk_next d) (Some blank)) d).
Definition fsync_file (name : string) : M Kit unit :=
  _ ← may_fail OSError;
  on_disk (λ d, match dk_names d !! name with Some inode => flush_file inode d | None => d end).
(** [os.replace(source, target)] *)
Definition os_replace (source target : string) : M Kit unit :=
  _ ← may_fail OSError; on_disk (change_dir (Rename source target)).
Definition _fsync_dir : M Kit unit :=
  works ← gets k_dir_sync; if works : bool then on_disk flush_dir else mret tt.

(** ** SQLite *)

(** Reading a database through a connection. *)
Definition sqlite_read (name : string) : M Kit image :=
  _ ← may_fail OperationalError;
  found ← gets (λ k, holds_now name (k_disk k));
  match found with
  | Some (Some i) => mret i
  | Some None => raise DatabaseError
  | None => raise OperationalError
  end.
(** A connection to a path where there is nothing makes the file when it writes. *)
Definition sqlite_create (name : string) : M Kit unit :=
  _ ← may_fail OperationalError;
  on_disk (λ d, create name (MainFile (dk_next d) (Some blank)) d).
(** Writing a whole database: into the main file, or, through a connection in WAL
    mode, into its log. *)
Definition write_main (name : string) (i : image) : M Kit unit :=
  _ ← may_fail OperationalError;
  on_disk (λ d, match dk_names d !! name with
    | Some inode => renumbered (set_file inode (MainFile (dk_next d) (Some i)) d)
    | None => d
    end).
Definition write_log (name : string) (i : image) : M Kit unit :=
  _ ← may_fail OperationalError;
  on_disk (λ d, match (inode ← dk_names d !! name; dk_files d !! inode) with
    | Some (MainFile stamp _) => create (name ^+ "-wal") (Sidecar stamp (Some i)) d
    | _ => d
    end).
(** [PRAGMA wal_checkpoint(TRUNCATE)] on a connection of its own: what the sidecars
    hold goes into the main file, synchronised, and nothing is left in them.
    Whether another connection kept it from doing so. *)
Definition empty_file (d : Disk) (name : string) : Disk :=
  match dk_names d !! name with
  | Some inode => flush_file inode (set_file inode Bare d)
  | None => d
  end.
Definition checkpointed (name : string) (i : image) (d : Disk) : Disk :=
  match dk_names d !! name with
  | Some inode =>
      foldl empty_file (flush_file inode (renumbered (set_file inode (MainFile (dk_next d) (Some i)) d)))
        (_sqlite_sidecars name)
  | None => d
  end.
Definition wal_checkpoint (name : string) : M Kit bool :=
  i ← sqlite_read name;
  busy ← λ k, (Ok (default false (head (k_faults k))),
    mkKit (k_disk k) (k_trace k) (tail (k_faults k)) (k_dir_sync k) (k_stderr k));
  if busy : bool then mret true else _ ← on_disk (checkpointed name i); mret false.

(** [raise] when the versions cannot be read: the table is missing. *)
Definition get_sqlite_schema_versions (i : image) : result (list Z) :=
  match im_versions i with Some versions => Ok versions | None => Raise OperationalError end.

(** ** The operations *)

Definition _unlink_sqlite_sidecars (db_path : string) : M Kit unit := for_each unlink (_sqlite_sidecars db_path).
Definition _checkpoint_sqlite_wal (db_path : string) : M Kit unit :=
  busy ← wal_checkpoint db_path;
  if busy : bool then raise (RuntimeError "SQLite WAL checkpoint remained busy")
  else _unlink_sqlite_sidecars db_path.
Fixpoint any_exists (names : list string) : M Kit bool :=
  match names with
  | [] => mret false
  | name :: names => found ← path_exists name; if found : bool then mret true else any_exists names
  end.
Definition _neutralize_replaced_sidecars (db_path : string) : M Kit unit :=
  hot ← any_exists (_sqlite_sidecars db_path);
  if negb hot then mret tt
  else
    found ← path_exists db_path;
    if negb found then _unlink_sqlite_sidecars db_path
    else try_except (_checkpoint_sqlite_wal db_path) (λ e,
      if decide (e = DatabaseError) then _unlink_sqlite_sidecars db_path else raise e).

(** The lock beside the database (of a path, not of [:memory:] or a URI): refused
    while a connection is open. *)
Definition exclusive_sqlite_database_lease {X} (db_path : string) (m : M Kit X) : M Kit X :=
  _ ← may_fail OSError;
  _ ← on_disk (λ d, match dk_names d !! (db_path ^+ ".vinctor.lock") with
    | Some _ => d
    | None => create (db_path ^+ ".vinctor.lock") Bare d
    end);
  _ ← may_fail (RuntimeError "SQLite database is in use");
  try_finally m (may_fail OSError).

(** [tmp_path]: the name [mkstemp] finds. *)
Definition _atomic_replace_sqlite (tmp_path db_path : string) (build : M Kit (list Z)) : M Kit (list Z) :=
  _ ← may_fail OSError;
  _ ← mkstemp tmp_path;
  try_except
    (versions ← build;
     _ ← _checkpoint_sqlite_wal tmp_path;
     _ ← fsync_file tmp_path;
     _ ← exclusive_sqlite_database_lease db_path (
       _ ← _neutralize_replaced_sidecars db_path;
       _ ← _fsync_dir;
       _ ← os_replace tmp_path db_path;
       _fsync_dir);
     mret versions)
    (λ e,
      _ ← _unlink_sqlite_sidecars tmp_path;
      _ ← unlink tmp_path;
      raise e).

Definition storage_op_line (op at_ : string) (head_seq : option Z) (head_hash : option string) : string :=
  json_dumps [("kind", VStr "storage_op"); ("op", VStr op); ("at", VStr at_);
              ("head_seq", match head_seq with Some n => VInt n | None => VNone end);
              ("head_hash", opt_str head_hash)].

(** A missing database and an empty chain have the genesis head. *)
Definition no_head : Z * string := (0, GENESIS_PREV_HASH).
Definition read_audit_chain_head (db_path : string) : M Kit (Z * string) :=
  found ← path_exists db_path;
  if negb found then mret no_head
  else
    i ← sqlite_read db_path;
    match chain_head (d_audit (im_db i)) with
    | (Some seq, Some hash) => mret (seq, hash)
    | _ => mret no_head
    end.
(** [read_schema_versions]: [None] when they cannot be read. *)
Definition read_schema_versions (db_path : string) : M Kit (option (list Z)) :=
  found ← path_exists db_path;
  if negb found then mret None
  else
    try_except (i ← sqlite_read db_path; versions ← lift (get_sqlite_schema_versions i); mret (Some versions))
      (λ e, if decide (e = DatabaseError) then mret None
            else if decide (e = OperationalError) then mret None else raise e).

Record BackupResult := mkBackupResult {
  bk_db_path : string;
  bk_output_path : string;
  bk_bytes : Z;
  bk_schema_versions : list Z
}.
Record StorageResult := mkStorageResult {
  so_db_path : string;
  so_input_path : option string;
  so_schema_versions : list Z
}.
Section operations.
(** The anchor the operation is announced to, and the size of a file. *)
Context (emit_storage_op : string → string → option Z → option string → M Kit unit).
Context (st_size : file → Z).

Definition _emit_storage_op_trace (op at_ db_path : string) : M Kit unit :=
  head_of ← try_except (head_read ← read_audit_chain_head db_path; mret (Some head_read))
    (λ _, _ ← write_stderr ("vinctor: storage-op head read failed (" ^+ op ^+ ")"); mret None);
  let head_seq := fst <$> head_of in
  let head_hash := snd <$> head_of in
  _ ← write_stderr ("vinctor: storage-op trace " ^+ storage_op_line op at_ head_seq head_hash);
  try_except (emit_storage_op op at_ head_seq head_hash)
    (λ _, write_stderr ("vinctor: storage-op anchor emit raised (" ^+ op ^+ ")")).

Definition backup_sqlite (db_path output_path at_ : string) (force : bool) : M Kit BackupResult :=
  _ ← _emit_storage_op_trace "backup" at_ db_path;
  found ← path_exists db_path;
  if negb found then raise (FileNotFoundError ("database not found: " ^+ db_path))
  else
    occupied ← path_exists output_path;
    _ ← (if negb occupied then mret tt
         else if negb force then raise (FileExistsError
                ("backup output already exists: " ^+ output_path ^+ "; pass --force to overwrite"))
         else unlink output_path);
    _ ← _unlink_sqlite_sidecars output_path;
    _ ← may_fail OSError;
    i ← sqlite_read db_path;
    _ ← sqlite_create output_path;
    _ ← write_main output_path i;
    versions ← lift (get_sqlite_schema_versions i);
    bytes ← gets (λ k, default 0 (st_size <$> (inode ← dk_names (k_disk k) !! output_path; dk_files (k_disk k) !! inode)));
    mret (mkBackupResult db_path output_path bytes versions).

Definition SQLITE_SCHEMA_VERSION_MAX : Z := 18.
Definition all_versions : list Z := map Z.of_nat (seq 1 18).
Definition initialized : image := mkImage empty_db (Some all_versions).
(** A service is opened on the new file, which makes its schema. *)
Definition reset_sqlite (db_path tmp_path at_ : string) : M Kit StorageResult :=
  _ ← _emit_storage_op_trace "reset" at_ db_path;
  versions ← _atomic_replace_sqlite tmp_path db_path (
    _ ← write_log tmp_path initialized;
    i ← sqlite_read tmp_path;
    lift (get_sqlite_schema_versions i));
  mret (mkStorageResult db_path None versions).

(** A copy of the snapshot, verified before it may replace anything. *)
Definition copy_verified (input_path tmp_path : string) : M Kit (list Z) :=
  i ← sqlite_read input_path;
  _ ← write_main tmp_path i;
  copied ← sqlite_read tmp_path;
  restored_versions ← lift (get_sqlite_schema_versions copied);
  chain ← lift (verify_chain (d_audit (im_db copied)));
  if bool_decide (restored_versions = []) then raise (ValueError "restored snapshot has no schema metadata")
  else if negb (cv_ok chain) then raise (ValueError ("restored snapshot has a broken audit chain at seq "
    ^+ match cv_break_seq chain with Some n => pretty n | None => "None" end))
  else mret restored_versions.
Definition restore_sqlite (db_path input_path tmp_path at_ : string) : M Kit StorageResult :=
  _ ← _emit_storage_op_trace "restore" at_ db_path;
  found ← path_exists input_path;
  if negb found then raise (FileNotFoundError ("backup input not found: " ^+ input_path))
  else
    versions ← read_schema_versions input_path;
    match versions with
    | None => raise (ValueError ("input is not a valid Vinctor SQLite snapshot: " ^+ input_path))
    | Some _ =>
        swapped_versions ← _atomic_replace_sqlite tmp_path db_path (copy_verified input_path tmp_path);
        mret (mkStorageResult db_path (Some input_path) swapped_versions)
    end.
End operations.

(** ** What survives

    [view d]: what may be found afterwards, if the process is stopped at the moment
    the disk is [d], or, where directories can be flushed, if the power is lost. *)
Section survival.
Context (db tmp : string) (d0 : Disk) (sync : bool) (new : image → Prop).

Definition view (d : Disk) (names : gmap string nat) (files : gmap nat file) : Prop :=
  (names = dk_names d ∧ files = dk_files d) ∨
  (sync = true ∧ ∃ kept, sublist kept (dk_pending d) ∧ names = foldl apply_change (dk_stable d) kept ∧
     ∀ i, dk_files d !! i = dk_durable d !! i → files !! i = dk_files d !! i).
(** The database there was, or a new one, with nothing of the other beside it. *)
Definition survives (names : gmap string nat) (files : gmap nat file) : Prop :=
  (∃ i, new i ∧ contents names files db = Some (Some i)) ∨
  (names !! db = dk_names d0 !! db ∧
   (holds_now db d0 ≠ Some None → contents names files db = holds_now db d0)).
Definition safe (d : Disk) : Prop := ∀ names files, view d names files → survives names files.

Definition touches (c : dir_change) : list string :=
  match c with Link name _ | Unlink name => [name] | Rename source target => [source; target] end.
Definition fixed_name (d : Disk) (name : string) (v : option nat) : Prop :=
  dk_names d !! name = v ∧
  (sync = true → dk_stable d !! name = v ∧ ∀ c, c ∈ dk_pending d → name ∉ touches c).
(** The name may have been unlinked. *)
Definition fading_name (d : Disk) (name : string) (v : option nat) : Prop :=
  (dk_names d !! name = v ∨ dk_names d !! name = None) ∧
  (sync = true → (dk_stable d !! name = v ∨ dk_stable d !! name = None) ∧
     ∀ c, c ∈ dk_pending d → name ∈ touches c → c = Unlink name).
Definition fixed_file (d : Disk) (inode : nat) (f : option file) : Prop :=
  dk_files d !! inode = f ∧ (sync = true → dk_durable d !! inode = f).

Lemma untouched_change names c name : name ∉ touches c → apply_change names c !! name = names !! name.
Proof.
  destruct c as [n i|n|s t]; cbn; rewrite ?not_elem_of_cons; intros Hn.
  - rewrite lookup_insert_ne; [done|]. naive_solver.
  - rewrite lookup_delete_ne; [done|]. naive_solver.
  - destruct (names !! s); [|done]. rewrite lookup_insert_ne, lookup_delete_ne; naive_solver.
Qed.
Lemma untouched_changes names cs name : (∀ c, c ∈ cs → name ∉ touches c) →
  foldl apply_change names cs !! name = names !! name.
Proof.
  revert names. induction cs as [|c cs IH]; intros names Hcs; [done|]. cbn.
  rewrite IH by (intros c' Hc'; apply Hcs; by right). apply untouched_change, Hcs. by left.
Qed.
Lemma fading_changes names cs name v : names !! name = v ∨ names !! name = None →
  (∀ c, c ∈ cs → name ∈ touches c → c = Unlink name) →
  foldl apply_change names cs !! name = v ∨ foldl apply_change names cs !! name = None.
Proof.
  revert names. induction cs as [|c cs IH]; intros names Hn Hcs; [done|]. cbn.
  apply IH; [|intros c' Hc'; apply Hcs; by right].
  destruct (decide (name ∈ touches c)) as [Ht|Ht].
  - rewrite (Hcs c) by (done || by left). right. cbn. apply lookup_delete_eq.
  - by rewrite untouched_change.
Qed.
Lemma view_fixed d name v names files : fixed_name d name v → view d names files → names !! name = v.
Proof.
  intros [Hn Hs] [[-> _]|(Hsync & kept & Hsub & -> & _)]; [done|]. destruct (Hs Hsync) as [<- Hp].
  apply untouched_changes. intros c Hc. apply Hp. by eapply elem_of_sublist.
Qed.
Lemma view_fading d name v names files : fading_name d name v → view d names files →
  names !! name = v ∨ names !! name = None.
Proof.
  intros [Hn Hs] [[-> _]|(Hsync & kept & Hsub & -> & _)]; [done|]. destruct (Hs Hsync) as [Hst Hp].
  apply fading_changes; [done|]. intros c Hc. apply Hp. by eapply elem_of_sublist.
Qed.
Lemma view_file d inode f names files : fixed_file d inode f → view d names files → files !! inode = f.
Proof.
  intros [Hf Hs] [[_ ->]|(Hsync & kept & _ & _ & Hfiles)]; [done|]. rewrite Hfiles; [done|].
  by rewrite Hf, Hs.
Qed.
Lemma contents_ext names files names' files' path :
  (∀ n, n ∈ path :: _sqlite_sidecars path → found names files n = found names' files' n) →
  contents names files path = contents names' files' path.
Proof.
  intros Hf. unfold contents. rewrite (Hf path) by by left.
  assert (E : map (found names files) (_sqlite_sidecars path) = map (found names' files') (_sqlite_sidecars path)).
  { apply map_ext_in. intros n Hn. apply Hf. right. by apply list_elem_of_In. }
  by rewrite E.
Qed.
(** A main file whose sidecars have nothing to replay. *)
Lemma contents_main names files path stamp holds :
  found names files path = Some (MainFile stamp holds) →
  (∀ n, n ∈ _sqlite_sidecars path → ∀ over result, found names files n ≠ Some (Sidecar over result)) →
  contents names files path = Some holds.
Proof.
  intros Hm Hs. unfold contents. rewrite Hm. f_equal.
  assert (E : ∀ l, (∀ n, n ∈ l → ∀ over result, found names files n ≠ Some (Sidecar over result)) →
    foldl replay (stamp, holds) (map (found names files) l) = (stamp, holds)).
  { intros l. induction l as [|n l IH]; intros Hl; [done|]. cbn.
    assert (En : replay (stamp, holds) (found names files n) = (stamp, holds)).
    { unfold replay. destruct (found names files n) as [[]|] eqn:Ef; try done. by apply Hl in Ef; [|left]. }
    rewrite En. apply IH. intros n' Hn'. apply Hl. by right. }
  by rewrite E.
Qed.
Lemma contents_none names files path : names !! path = None → contents names files path = None.
Proof. intros Hn. unfold contents, found. by rewrite Hn. Qed.

(** *** Changes of the disk *)

Lemma untouched_fixed d c n v : n ∉ touches c → fixed_name d n v → fixed_name (change_dir c d) n v.
Proof.
  intros Hn [Hv Hs]. split; cbn; [by rewrite untouched_change|]. intros Hsync.
  destruct (Hs Hsync) as [Hst Hp]. split; [done|]. intros c'. rewrite elem_of_app, list_elem_of_singleton.
  intros [?| ->]; auto.
Qed.
Lemma untouched_fading d c n v : n ∉ touches c → fading_name d n v → fading_name (change_dir c d) n v.
Proof.
  intros Hn [Hv Hs]. split; cbn; [by rewrite untouched_change|]. intros Hsync.
  destruct (Hs Hsync) as [Hst Hp]. split; [done|]. intros c'. rewrite elem_of_app, list_elem_of_singleton.
  intros [?| ->]; [auto|done].
Qed.
Lemma fading_unlink d n n' v : fading_name d n v → fading_name (change_dir (Unlink n') d) n v.
Proof.
  intros Hf. destruct (decide (n = n')) as [<-|Hn].
  - destruct Hf as [_ Hs]. split; cbn; [right; apply lookup_delete_eq|]. intros Hsync.
    destruct (Hs Hsync) as [Hst Hp]. split; [done|]. intros c'. rewrite elem_of_app, list_elem_of_singleton.
    intros [?| ->]; auto.
  - apply untouched_fading; [|done]. cbn. by rewrite list_elem_of_singleton.
Qed.
Lemma fixed_fading d n v : fixed_name d n v → fading_name d n v.
Proof.
  intros [Hn Hs]. split; [by left|]. intros Hsync. destruct (Hs Hsync) as [Hst Hp]. split; [by left|].
  intros c Hc Ht. by apply Hp in Hc.
Qed.
Lemma flush_fixed d n v : fixed_name d n v → fixed_name (flush_dir d) n v.
Proof.
  intros [Hn Hs]. split; [done|]. intros Hsync. destruct (Hs Hsync) as [<- Hp]. cbn. split.
  - by apply untouched_changes.
  - intros c Hc. by apply elem_of_nil in Hc.
Qed.
Lemma flush_fading d n v : fading_name d n v → fading_name (flush_dir d) n v.
Proof.
  intros [Hn Hs]. split; [done|]. intros Hsync. destruct (Hs Hsync) as [Hst Hp]. cbn. split.
  - by apply fading_changes.
  - intros c Hc. by apply elem_of_nil in Hc.
Qed.
Lemma set_other d i j f g : i ≠ j → fixed_file d i f → fixed_file (set_file j g d) i f.
Proof. intros Hij [Hf Hs]. split; [|done]. cbn. by rewrite lookup_insert_ne. Qed.
Lemma flush_file_fixed d i j f : fixed_file d i f → fixed_file (flush_file j d) i f.
Proof.
  intros [Hf Hs]. split; [done|]. intros Hsync. cbn. destruct (dk_files d !! j) eqn:Ej; [|auto].
  destruct (decide (i = j)) as [<-|Hij]; [by rewrite lookup_insert_eq, <-Ej|].
  rewrite lookup_insert_ne by done. auto.
Qed.
Lemma set_flush d j g : fixed_file (flush_file j (set_file j g d)) j (Some g).
Proof. split; cbn; by rewrite !lookup_insert_eq. Qed.

(** The same directory: only files change. *)
Definition same_dir (d d' : Disk) : Prop :=
  dk_names d' = dk_names d ∧ dk_stable d' = dk_stable d ∧ dk_pending d' = dk_pending d ∧ (dk_next d ≤ dk_next d')%nat.
Lemma same_fixed d d' n v : same_dir d d' → fixed_name d n v → fixed_name d' n v.
Proof. unfold fixed_name. by intros (-> & -> & -> & _). Qed.
Lemma same_fading d d' n v : same_dir d d' → fading_name d n v → fading_name d' n v.
Proof. unfold fading_name. by intros (-> & -> & -> & _). Qed.

Lemma empty_file_dir name d : same_dir d (empty_file d name).
Proof. unfold empty_file, same_dir. by destruct (dk_names d !! name). Qed.
Lemma empty_file_other d name i f : dk_names d !! name ≠ Some i → fixed_file d i f → fixed_file (empty_file d name) i f.
Proof.
  unfold empty_file. destruct (dk_names d !! name) as [j|]; [|done]. intros Hij Hf.
  apply flush_file_fixed, set_other; congruence.
Qed.
Lemma empty_file_bare d name i : dk_names d !! name = Some i → fixed_file (empty_file d name) i (Some Bare).
Proof. unfold empty_file. intros ->. apply set_flush. Qed.
Lemma empty_files_dir l d : same_dir d (foldl empty_file d l).
Proof.
  revert d. induction l as [|n l IH]; intros d; [by repeat split|]. cbn.
  destruct (empty_file_dir n d) as (E1 & E2 & E3 & E4). destruct (IH (empty_file d n)) as (F1 & F2 & F3 & F4).
  repeat split; try congruence. lia.
Qed.
Lemma empty_files_other l d i f : (∀ n, n ∈ l → dk_names d !! n ≠ Some i) →
  fixed_file d i f → fixed_file (foldl empty_file d l) i f.
Proof.
  revert d. induction l as [|n l IH]; intros d Hl Hf; [done|]. cbn. apply IH.
  - intros n' Hn'. destruct (empty_file_dir n d) as [-> _]. apply Hl. by right.
  - apply empty_file_other; [|done]. apply Hl. by left.
Qed.
Lemma empty_files_bare l d i : (∃ n, n ∈ l ∧ dk_names d !! n = Some i) →
  fixed_file (foldl empty_file d l) i (Some Bare).
Proof.
  revert d. induction l as [|n l IH]; intros d (n' & Hn' & Hi); [by apply elem_of_nil in Hn'|]. cbn.
  destruct (decide (Exists (λ m, dk_names (empty_file d n) !! m = Some i) l)) as [He|He].
  - apply IH. by apply Exists_exists in He.
  - apply empty_files_other.
    + intros m Hm E. apply He, Exists_exists. by exists m.
    + apply empty_file_bare. apply elem_of_cons in Hn' as [->|Hn']; [done|]. destruct He.
      apply Exists_exists. exists n'. split; [done|]. by destruct (empty_file_dir n d) as [-> _].
Qed.
Lemma checkpointed_dir p i d : same_dir d (checkpointed p i d).
Proof.
  unfold checkpointed. destruct (dk_names d !! p); [|by repeat split].
  destruct (empty_files_dir (_sqlite_sidecars p) (flush_file n (renumbered (set_file n (MainFile (dk_next d) (Some i)) d))))
    as (E1 & E2 & E3 & E4).
  cbn in *. repeat split; try done. lia.
Qed.
(** The sidecars are other files. *)
Lemma checkpointed_main p i d m : dk_names d !! p = Some m →
  (∀ s, s ∈ _sqlite_sidecars p → dk_names d !! s ≠ Some m) →
  fixed_file (checkpointed p i d) m (Some (MainFile (dk_next d) (Some i))).
Proof.
  unfold checkpointed. intros -> Hs. apply empty_files_other; [done|]. apply set_flush.
Qed.
Lemma checkpointed_sidecar p i d s j : is_Some (dk_names d !! p) → s ∈ _sqlite_sidecars p → dk_names d !! s = Some j →
  fixed_file (checkpointed p i d) j (Some Bare).
Proof. unfold checkpointed. intros [m ->] Hs Hj. apply empty_files_bare. by exists s. Qed.
Lemma checkpointed_other p i d j f : (∀ n, n ∈ p :: _sqlite_sidecars p → dk_names d !! n ≠ Some j) →
  fixed_file d j f → fixed_file (checkpointed p i d) j f.
Proof.
  unfold checkpointed. intros Hn Hf. destruct (dk_names d !! p) as [m|] eqn:Em; [|done].
  apply empty_files_other.
  - intros n Hin. apply Hn. by right.
  - apply flush_file_fixed. apply (set_other d j m f (MainFile (dk_next d) (Some i))); [|done].
    intros <-. apply (Hn p); [by left|done].
Qed.

(** *** Phases of a replacement *)

Record sound (d : Disk) : Prop := mkSound {
  sd_coherent : sync = true → foldl apply_change (dk_stable d) (dk_pending d) = dk_names d;
  sd_below : ∀ n i, dk_names d !! n = Some i → (i < dk_next d)%nat;
  sd_inj : ∀ n n' i, dk_names d !! n = Some i → dk_names d !! n' = Some i → n = n'
}.
Lemma coherent_change d c : (sync = true → foldl apply_change (dk_stable d) (dk_pending d) = dk_names d) →
  sync = true → foldl apply_change (dk_stable (change_dir c d)) (dk_pending (change_dir c d)) = dk_names (change_dir c d).
Proof. intros Hc Hs. cbn. by rewrite foldl_app, Hc. Qed.
Lemma sound_same d d' : same_dir d d' → sound d → sound d'.
Proof.
  intros (En & Es & Ep & Hle) [Hc Hb Hi]. split; rewrite ?En, ?Es, ?Ep; [done| |done].
  intros n i Hn. specialize (Hb n i Hn). lia.
Qed.
Lemma sound_unlink d n : sound d → sound (change_dir (Unlink n) d).
Proof.
  intros [Hc Hb Hi]. split; [by apply coherent_change| |]; cbn.
  - intros n' i [_ Hn]%lookup_delete_Some. by eapply Hb.
  - intros n1 n2 i [_ H1]%lookup_delete_Some [_ H2]%lookup_delete_Some. by eapply Hi.
Qed.
Lemma sound_create d n f : sound d → sound (create n f d).
Proof.
  intros [Hc Hb Hi]. split; [by apply coherent_change| |]; cbn.
  - intros n' i [[_ <-]|[_ Hn]]%lookup_insert_Some; [lia|]. apply Hb in Hn. lia.
  - intros n1 n2 i [[<- <-]|[H1 E1]]%lookup_insert_Some [[<- E]|[H2 E2]]%lookup_insert_Some; [done| | |by eapply Hi].
    + apply Hb in E2. lia.
    + subst. apply Hb in E1. lia.
Qed.
Lemma sound_flush d : sound d → sound (flush_dir d).
Proof. intros [Hc Hb Hi]. split; [by apply Hc|done|done]. Qed.

Definition family (path : string) : list string := path :: _sqlite_sidecars path.
Definition lock : string := db ^+ ".vinctor.lock".
(** Nothing is under way; the names of the copy are free, and different from the
    database's. *)
Record quiet : Prop := mkQuiet {
  qu_sound : sound d0;
  qu_pending : dk_pending d0 = [];
  qu_durable : dk_durable d0 = dk_files d0;
  qu_free : ∀ n, n ∈ family tmp → dk_names d0 !! n = None;
  qu_apart : NoDup (family tmp ++ lock :: family db)
}.
Context (Hq : quiet).

Lemma apart n : n ∈ family tmp → n ≠ lock ∧ n ∉ family db.
Proof.
  intros Hn. pose proof (qu_apart Hq) as Ha. apply NoDup_app in Ha as (_ & Ha & _).
  apply Ha, not_elem_of_cons in Hn. done.
Qed.
Lemma lock_apart : lock ∉ family db.
Proof. pose proof (qu_apart Hq) as Ha. apply NoDup_app in Ha as (_ & _ & Ha). by apply NoDup_cons in Ha as [? _]. Qed.

Definition young (d : Disk) : Prop :=
  ∀ n i, n ∈ family tmp → dk_names d !! n = Some i → (dk_next d0 ≤ i)%nat.
Definition old_files (d : Disk) : Prop := ∀ i, (i < dk_next d0)%nat → fixed_file d i (dk_files d0 !! i).
(** Only the copy changes. *)
Record before (d : Disk) : Prop := mkBefore {
  bf_sound : sound d;
  bf_next : (dk_next d0 ≤ dk_next d)%nat;
  bf_names : ∀ n, n ∉ family tmp → fixed_name d n (dk_names d0 !! n);
  bf_files : old_files d;
  bf_young : young d
}.
(** The database's own names stand as they were. *)
Record untouched (d : Disk) : Prop := mkUntouched {
  un_sound : sound d;
  un_next : (dk_next d0 ≤ dk_next d)%nat;
  un_names : ∀ n, n ∈ family db → fixed_name d n (dk_names d0 !! n);
  un_files : old_files d;
  un_young : young d
}.
(** The database without its sidecars is what it was with them: there was none, it
    could not be read, or all of it is in the main file. *)
Definition spared (d : Disk) : Prop :=
  dk_names d0 !! db = None ∨ holds_now db d0 = Some None ∨
  ∃ m stamp h, dk_names d0 !! db = Some m ∧ holds_now db d0 = Some h ∧ fixed_file d m (Some (MainFile stamp h)) ∧
    ∀ s j, s ∈ _sqlite_sidecars db → dk_names d0 !! s = Some j → fixed_file d j (Some Bare).
Definition kept (d : Disk) : Prop :=
  (old_files d ∧ ∀ s, s ∈ _sqlite_sidecars db → fixed_name d s (dk_names d0 !! s)) ∨ spared d.
(** Its sidecars are being removed. *)
Record during (K : Disk → Prop) (d : Disk) : Prop := mkDuring {
  du_sound : sound d;
  du_next : (dk_next d0 ≤ dk_next d)%nat;
  du_db : fixed_name d db (dk_names d0 !! db);
  du_side : ∀ s, s ∈ _sqlite_sidecars db → fading_name d s (dk_names d0 !! s);
  du_young : young d;
  du_old : K d
}.
(** The copy is complete, and all of it in one file on stable storage. *)
Definition ready (i : image) (d : Disk) : Prop := ∃ t stamp,
  dk_names d !! tmp = Some t ∧ (dk_next d0 ≤ t)%nat ∧ fixed_file d t (Some (MainFile stamp (Some i))) ∧
  ∀ s, s ∈ _sqlite_sidecars tmp → dk_names d !! s = None.
Definition clear (d : Disk) : Prop := ∀ s, s ∈ _sqlite_sidecars db → dk_names d !! s = None.
(** The copy is the database. *)
Record stands (i : image) (d : Disk) : Prop := mkStands {
  st_main : ∃ t stamp, dk_names d !! db = Some t ∧ fixed_file d t (Some (MainFile stamp (Some i)));
  st_clear : clear d;
  st_coherent : sync = true → foldl apply_change (dk_stable d) (dk_pending d) = dk_names d
}.
Record swapped (i : image) (d : Disk) : Prop := mkSwapped {
  sw_free : ∀ n, n ∈ family tmp → dk_names d !! n = None;
  sw_safe : safe d;
  sw_stands : stands i d
}.
Definition settled (i : image) (d : Disk) : Prop := swapped i d ∧ (sync = true → dk_pending d = []).

Lemma start : before d0.
Proof.
  destruct Hq as [Hs Hp Hd Hf _]. split; [done|lia| | |].
  - intros n _. split; [done|]. intros Hsync. rewrite Hp. split.
    + pose proof (sd_coherent _ Hs Hsync) as Hc. rewrite Hp in Hc. by rewrite <-Hc.
    + intros c Hc. by apply elem_of_nil in Hc.
  - intros i _. split; [done|]. by rewrite Hd.
  - intros n i Hn. by rewrite Hf.
Qed.
Lemma before_untouched d : before d → untouched d.
Proof.
  intros [Hs Hn Hnames Hf Hy]. split; try done. intros n Hin. apply Hnames. intros Ht. by apply apart in Ht as [_ ?].
Qed.
Lemma untouched_during d : untouched d → during kept d.
Proof.
  intros [Hs Hn Hnames Hf Hy]. split; try done.
  - apply Hnames. by left.
  - intros s Hin. apply fixed_fading, Hnames. by right.
  - left. split; [done|]. intros s Hin. apply Hnames. by right.
Qed.
Lemma spared_during d : during spared d → during kept d.
Proof. intros [Hs Hn Hd Hside Hy Ho]. split; try done. by right. Qed.

Lemma old_found d names files n : old_files d → view d names files → names !! n = dk_names d0 !! n →
  found names files n = found (dk_names d0) (dk_files d0) n.
Proof.
  intros Hf Hv Hn. unfold found. rewrite Hn. destruct (dk_names d0 !! n) as [i|] eqn:Ei; [|done]. cbn.
  apply (view_file d i _ names files); [|done]. apply Hf. by apply (sd_below _ (qu_sound Hq)) in Ei.
Qed.
(** What is kept is found where the main file's name is the old one. *)
Lemma kept_survives d names files : kept d → view d names files → names !! db = dk_names d0 !! db →
  (∀ s, s ∈ _sqlite_sidecars db → names !! s = dk_names d0 !! s ∨ names !! s = None) → survives names files.
Proof.
  intros Hk Hv Hdb Hs. right. split; [done|]. intros Hread. destruct Hk as [[Hf Hn]|[Hk|[Hk|Hk]]].
  - apply contents_ext. intros n Hin. apply (old_found d); [done|done|].
    apply elem_of_cons in Hin as [->|Hin]; [done|]. by apply (view_fixed d n _ names files (Hn n Hin)).
  - rewrite (contents_none names) by congruence. symmetry. by apply contents_none.
  - done.
  - destruct Hk as (m & stamp & h & Hm & -> & Hmain & Hside).
    apply (contents_main _ _ _ stamp).
    + unfold found. rewrite Hdb, Hm. cbn. by apply (view_file d m _ names files).
    + intros s Hin over result. unfold found. destruct (Hs s Hin) as [->| ->]; [|done].
      destruct (dk_names d0 !! s) as [j|] eqn:Ej; [|done]. cbn.
      by rewrite (view_file d j _ names files (Hside s j Hin Ej)).
Qed.
Lemma during_safe d : during kept d → safe d.
Proof.
  intros [Hs Hn Hdb Hside Hy Hk] names files Hv. apply (kept_survives d); [done|done| |].
  - by apply (view_fixed d db _ names files).
  - intros s Hin. by apply (view_fading d s _ names files (Hside s Hin)).
Qed.
Lemma before_safe d : before d → safe d.
Proof. intros Hb. by apply during_safe, untouched_during, before_untouched. Qed.

(** The copy changes. *)
Lemma before_same d d' : same_dir d d' →
  (∀ i f, (i < dk_next d0)%nat → fixed_file d i f → fixed_file d' i f) → before d → before d'.
Proof.
  intros Hd Hf' [Hs Hn Hnames Hf Hy]. destruct Hd as (En & Es & Ep & Hle). split.
  - by eapply sound_same.
  - lia.
  - intros n Hin. by apply (same_fixed d); [|apply Hnames].
  - intros i Hi. apply Hf'; [done|]. by apply Hf.
  - unfold young. by rewrite En.
Qed.
Lemma before_create d n f : n ∈ family tmp → before d → before (create n f d).
Proof.
  intros Hin [Hs Hn Hnames Hf Hy]. split.
  - by apply sound_create.
  - cbn. lia.
  - intros n' Hin'. apply untouched_fixed; [|by apply Hnames]. cbn. rewrite list_elem_of_singleton. by intros ->.
  - intros i Hi. apply (set_other d i (dk_next d)); [lia|]. by apply Hf.
  - intros n' i Hin'. cbn. intros [[_ <-]|[_ E]]%lookup_insert_Some; [done|]. by eapply Hy.
Qed.
Lemma before_unlink d n : n ∈ family tmp → before d → before (change_dir (Unlink n) d).
Proof.
  intros Hin [Hs Hn Hnames Hf Hy]. split; [by apply sound_unlink|done| |done|].
  - intros n' Hin'. apply untouched_fixed; [|by apply Hnames]. cbn. rewrite list_elem_of_singleton. by intros ->.
  - intros n' i Hin'. cbn. intros [_ E]%lookup_delete_Some. by eapply Hy.
Qed.

(** The destination changes. *)
Lemma now_view d : view d (dk_names d) (dk_files d).
Proof. by left. Qed.
Lemma untouched_holds d : untouched d → holds_now db d = holds_now db d0.
Proof.
  intros [_ _ Hnames Hf _]. apply contents_ext. intros n Hin. apply (old_found d); [done|apply now_view|].
  by apply Hnames.
Qed.
Lemma untouched_lock d : untouched d → untouched (create lock Bare d).
Proof.
  intros [Hs Hn Hnames Hf Hy]. split.
  - by apply sound_create.
  - cbn. lia.
  - intros n Hin. apply untouched_fixed; [|by apply Hnames]. cbn. rewrite list_elem_of_singleton. intros ->.
    by apply lock_apart.
  - intros i Hi. apply (set_other d i (dk_next d)); [lia|]. by apply Hf.
  - intros n i Hin. cbn. intros [[<- _]|[_ E]]%lookup_insert_Some; [by apply apart in Hin as [? _]|]. by eapply Hy.
Qed.
Lemma ready_lock i d : sound d → ready i d → ready i (create lock Bare d).
Proof.
  intros Hs (t & stamp & Ht & Hle & Hf & Hside). exists t, stamp. repeat split.
  - cbn. rewrite lookup_insert_ne; [done|]. intros E. by destruct (apart tmp ltac:(by left)) as [[] _].
  - done.
  - cbn. rewrite lookup_insert_ne; [apply Hf|]. apply (sd_below _ Hs) in Ht. lia.
  - apply Hf.
  - intros s Hin. cbn. rewrite lookup_insert_ne; [by apply Hside|]. intros E. by destruct (apart s ltac:(by right)) as [[] _].
Qed.
Lemma spared_unlink d n : n ∈ _sqlite_sidecars db → during spared d → during spared (change_dir (Unlink n) d).
Proof.
  intros Hin [Hs Hn Hdb Hside Hy Hk]. split; [by apply sound_unlink|done| | | |done].
  - apply untouched_fixed; [|done]. cbn. rewrite list_elem_of_singleton. intros <-.
    pose proof (qu_apart Hq) as Ha. apply NoDup_app in Ha as (_ & _ & [_ [Ha _]%NoDup_cons]%NoDup_cons). done.
  - intros s Hs'. by apply fading_unlink, Hside.
  - intros n' i Hin'. cbn. intros [_ E]%lookup_delete_Some. by eapply Hy.
Qed.
Lemma ready_unlink i d n : n ∉ family tmp → ready i d → ready i (change_dir (Unlink n) d).
Proof.
  intros Hin (t & stamp & Ht & Hle & Hf & Hside). exists t, stamp. repeat split; [|done|apply Hf|apply Hf|].
  - cbn. rewrite lookup_delete_ne; [done|]. intros ->. apply Hin. by left.
  - intros s Hs. cbn. rewrite lookup_delete_ne; [by apply Hside|]. intros ->. apply Hin. by right.
Qed.
Lemma during_cleanup d n : n ∈ family tmp → during kept d → during kept (change_dir (Unlink n) d).
Proof.
  intros Hin [Hs Hn Hdb Hside Hy Hk].
  assert (Hno : ∀ m, m ∈ family db → m ∉ touches (Unlink n)).
  { intros m Hm. cbn. rewrite list_elem_of_singleton. intros ->. by apply apart in Hin as [_ ?]. }
  split; [by apply sound_unlink|done| | | |].
  - apply untouched_fixed; [apply Hno; by left|done].
  - intros s Hs'. apply untouched_fading; [apply Hno; by right|by apply Hside].
  - intros n' i Hin'. cbn. intros [_ E]%lookup_delete_Some. by eapply Hy.
  - destruct Hk as [[Hf Hside']|Hk]; [left|by right]. split; [done|]. intros s Hs'.
    apply untouched_fixed; [apply Hno; by right|by apply Hside'].
Qed.
Lemma flush_during d : during kept d → during kept (flush_dir d).
Proof.
  intros [Hs Hn Hdb Hside Hy Hk]. split; [by apply sound_flush|done|by apply flush_fixed| |done|].
  - intros s Hin. by apply flush_fading, Hside.
  - destruct Hk as [[Hf Hside']|Hk]; [left|by right]. split; [done|]. intros s Hin. by apply flush_fixed, Hside'.
Qed.
Lemma db_other s : s ∈ _sqlite_sidecars db → s ≠ db.
Proof.
  intros Hin ->. pose proof (qu_apart Hq) as Ha. apply NoDup_app in Ha as (_ & _ & [_ [Ha _]%NoDup_cons]%NoDup_cons). done.
Qed.
Lemma spared_checkpoint d h : untouched d → holds_now db d = Some (Some h) → during spared (checkpointed db h d).
Proof.
  intros Hu Hh. pose proof (untouched_holds d Hu) as Eh. destruct Hu as [Hs Hn Hnames Hf Hy].
  pose proof (checkpointed_dir db h d) as Hd.
  assert (Hm : is_Some (dk_names d !! db)).
  { destruct (dk_names d !! db) eqn:E; [done|]. unfold holds_now in Hh. by rewrite contents_none in Hh. }
  destruct Hm as [m Hm]. split.
  - by eapply sound_same.
  - destruct Hd as (_ & _ & _ & Hle). lia.
  - apply (same_fixed d); [done|]. apply Hnames. by left.
  - intros s Hin. apply (same_fading d); [done|]. apply fixed_fading, Hnames. by right.
  - unfold young. destruct Hd as [-> _]. done.
  - right. right. exists m, (dk_next d), (Some h). rewrite <-Eh.
    assert (Hapart : ∀ s, s ∈ _sqlite_sidecars db → dk_names d !! s ≠ Some m).
    { intros s Hin E. by apply (db_other s Hin), (sd_inj _ Hs s db m). }
    split; [by rewrite <-Hm; symmetry; apply Hnames; left|]. split; [done|]. split.
    + split; [by apply checkpointed_main|]. intros Hsync. by apply (checkpointed_main db h d m Hm).
    + intros s j Hin Hj. assert (Ej : dk_names d !! s = Some j) by (rewrite <-Hj; apply Hnames; by right).
      split; [|intros Hsync]; by apply (checkpointed_sidecar db h d s j).
Qed.
Lemma ready_checkpoint i d h : untouched d → ready i d → ready i (checkpointed db h d).
Proof.
  intros Hu (t & stamp & Ht & Hle & Hf & Hside). destruct (checkpointed_dir db h d) as (En & _).
  exists t, stamp. rewrite En. split; [done|]. split; [done|]. split; [|done].
  apply checkpointed_other; [|done]. intros n Hin E. destruct (un_names _ Hu n Hin) as [E' _]. rewrite E in E'.
  symmetry in E'. apply (sd_below _ (qu_sound Hq)) in E'. lia.
Qed.

Lemma rename_swaps i d : new i → during kept d → ready i d → clear d → (sync = true → dk_pending d = []) →
  swapped i (change_dir (Rename tmp db) d).
Proof.
  intros Hi Hdu (t & stamp & Ht & _ & Hf & Hside) Hc Hp.
  assert (Hdb : ∀ n, n ∈ family tmp → n ≠ db) by (intros n Hin ->; apply (apart db Hin); by left).
  assert (Etmp : tmp ≠ db) by (apply Hdb; by left).
  assert (Hfree : ∀ n, n ∈ family tmp → dk_names (change_dir (Rename tmp db) d) !! n = None).
  { intros n Hin. cbn. rewrite Ht, lookup_insert_ne by (symmetry; by apply Hdb).
    apply elem_of_cons in Hin as [->|Hin]; [apply lookup_delete_eq|].
    destruct (decide (tmp = n)) as [<-|En]; [apply lookup_delete_eq|].
    rewrite lookup_delete_ne by done. by apply Hside. }
  assert (Hclear : clear (change_dir (Rename tmp db) d)).
  { intros s Hin. cbn. rewrite Ht, lookup_insert_ne by (symmetry; by apply db_other).
    destruct (decide (tmp = s)) as [<-|En]; [apply lookup_delete_eq|]. rewrite lookup_delete_ne by done. by apply Hc. }
  assert (Hnew : ∀ names files, names = dk_names (change_dir (Rename tmp db) d) →
    files !! t = Some (MainFile stamp (Some i)) → survives names files).
  { intros names files -> Hft. left. exists i. split; [done|]. apply (contents_main _ _ _ stamp).
    - unfold found. cbn. rewrite Ht, lookup_insert_eq. done.
    - intros s Hin. unfold found. by rewrite Hclear. }
  pose proof (sd_coherent _ (du_sound _ _ Hdu)) as Hco.
  split; [done| |split; [|done|]].
  - intros names files [[-> ->]|(Hsync & l & Hsub & -> & Hfiles)]; [apply Hnew; [done|apply Hf]|].
    assert (Hft : files !! t = Some (MainFile stamp (Some i))).
    { destruct Hf as [Hf Hf']. rewrite Hfiles; [done|]. cbn. by rewrite Hf, Hf'. }
    specialize (Hp Hsync). specialize (Hco Hsync). rewrite Hp in Hco. cbn in Hsub, Hco. rewrite Hp in Hsub. cbn in *.
    inversion Hsub as [|? ? ? Hnil|? ? ? Hnil]; subst; inversion Hnil; subst; cbn.
    + apply Hnew; [cbn; by rewrite Hco|done].
    + apply (kept_survives d); [apply Hdu| | |].
      * right. split; [done|]. exists []. rewrite Hp. done.
      * rewrite Hco. apply Hdu.
      * intros s Hin. right. rewrite Hco. by apply Hc.
  - exists t, stamp. split; [|apply Hf]. cbn. by rewrite Ht, lookup_insert_eq.
  - by apply coherent_change.
Qed.
Lemma stands_view i d names files : stands i d → (sync = true → dk_pending d = []) → view d names files →
  contents names files db = Some (Some i).
Proof.
  intros [(t & stamp & Ht & Hf) Hc Hco] Hp Hv.
  assert (En : names = dk_names d).
  { destruct Hv as [[-> _]|(Hsync & l & Hsub & -> & _)]; [done|]. rewrite <-Hco by done. rewrite Hp in * by done.
    by apply sublist_nil_r in Hsub as ->. }
  apply (contents_main _ _ _ stamp).
  - unfold found. rewrite En, Ht. cbn. by apply (view_file d t _ names files).
  - intros s Hin. unfold found. by rewrite En, Hc.
Qed.
Lemma swapped_flush i d : new i → sync = true → swapped i d → settled i (flush_dir d).
Proof.
  intros Hi Hsync [Hfree Hs Hst].
  assert (Hst' : stands i (flush_dir d)).
  { destruct Hst as [Hm Hc Hco]. split; [done|done|]. intros _. by apply Hco. }
  split; [|done]. split; [done| |done]. intros names files Hv. left. exists i. split; [done|].
  by apply (stands_view i (flush_dir d)).
Qed.

(** *** Assertions

    Every disk there has been is safe, and the one there is satisfies [Φ]. *)
Definition on (Φ : Disk → Prop) (k : Kit) : Prop :=
  (∀ d, d ∈ k_trace k → safe d) ∧ Φ (k_disk k) ∧ k_dir_sync k = sync.
Implicit Types Φ Ψ E : Disk → Prop.
Lemma on_mono Φ Ψ : (∀ d, Φ d → Ψ d) → ∀ k, on Φ k → on Ψ k.
Proof. intros H k (Ht & Hd & Hs). repeat split; auto. Qed.
Lemma triple_on_disk f Φ Ψ R : (∀ d, Φ d → Ψ (f d)) → (∀ d, Ψ d → safe d) → triple (on Φ) (on_disk f) (λ _, on Ψ) R.
Proof.
  intros Hf Hsafe k (Ht & Hd & Hs). cbn. repeat split; cbn; auto. intros d.
  rewrite elem_of_app, list_elem_of_singleton. intros [?| ->]; auto.
Qed.
Lemma triple_may_fail e Φ E : (∀ d, Φ d → E d) → triple (on Φ) (may_fail e) (λ _, on Φ) (on E).
Proof.
  intros HE k Hk. unfold may_fail. destruct (default false (head (k_faults k))); [|exact Hk].
  exact (on_mono _ _ HE k Hk).
Qed.
Lemma triple_exists_path n Φ R : triple (on Φ) (path_exists n)
  (λ b, on (λ d, Φ d ∧ b = bool_decide (is_Some (dk_names d !! n)))) R.
Proof. by intros k (Ht & Hd & Hs). Qed.
Lemma triple_read n Φ E : (∀ d, Φ d → E d) →
  triple (on Φ) (sqlite_read n) (λ i, on (λ d, Φ d ∧ holds_now n d = Some (Some i))) (on E).
Proof.
  intros HE. eapply triple_bind; [by apply triple_may_fail|]. intros _ k (Ht & Hd & Hs).
  unfold mbind, M_bind, gets. destruct (holds_now n (k_disk k)) as [[i|]|] eqn:Eh; repeat split; auto.
Qed.
Lemma triple_unlink n Φ Ψ E : (∀ d, Φ d → is_Some (dk_names d !! n) → Ψ (change_dir (Unlink n) d)) →
  (∀ d, Φ d → dk_names d !! n = None → Ψ d) → (∀ d, Ψ d → safe d) → (∀ d, Φ d → E d) →
  triple (on Φ) (unlink n) (λ _, on Ψ) (on E).
Proof.
  intros Hthere Hnot Hsafe HE. eapply triple_bind; [apply (triple_exists_path n Φ (on E))|]. intros b.
  destruct b.
  - eapply triple_bind; [apply triple_may_fail; naive_solver|]. intros ?. apply triple_on_disk; [|done].
    intros d [Hd Hb%eq_sym%bool_decide_eq_true]. auto.
  - apply triple_ret. apply on_mono. intros d [Hd Hb%eq_sym%bool_decide_eq_false].
    apply Hnot; [done|]. by apply eq_None_not_Some.
Qed.
Lemma triple_unlink_all l Φ E : (∀ d, Φ d → safe d) → (∀ d, Φ d → E d) →
  (∀ n d, n ∈ l → Φ d → is_Some (dk_names d !! n) → Φ (change_dir (Unlink n) d)) →
  triple (on Φ) (for_each unlink l) (λ _, on (λ d, Φ d ∧ ∀ n, n ∈ l → dk_names d !! n = None)) (on E).
Proof.
  revert Φ. induction l as [|m l IH]; intros Φ Hsafe HE Hun; cbn [for_each].
  - apply triple_ret, on_mono. intros d Hd. split; [done|]. intros n Hn. by apply elem_of_nil in Hn.
  - apply (triple_bind _ _ (λ _, on (λ d, Φ d ∧ dk_names d !! m = None))).
    + apply triple_unlink; [|done|naive_solver|done]. intros d Hd Hm. split; [apply Hun; [by left|done|done]|].
      apply lookup_delete_eq.
    + intros _. eapply triple_weaken; [apply (IH (λ d, Φ d ∧ dk_names d !! m = None))| | |].
      * naive_solver.
      * intros d [Hd _]. by apply HE.
      * intros n d Hn [Hd Hm] Hin. split; [apply Hun; [by right|done|done]|]. cbn.
        apply lookup_delete_None. by right.
      * done.
      * intros ? k. apply on_mono. intros d [[Hd Hm] Hl]. split; [done|]. intros n [->|Hn]%elem_of_cons; auto.
      * done.
Qed.
Lemma triple_any_exists l Φ R : triple (on Φ) (any_exists l)
  (λ b, on (λ d, Φ d ∧ (b = false → ∀ n, n ∈ l → dk_names d !! n = None))) R.
Proof.
  induction l as [|m l IH]; cbn [any_exists].
  - apply triple_ret, on_mono. intros d Hd. split; [done|]. intros _ n Hn. by apply elem_of_nil in Hn.
  - intros k Hk. specialize (IH k Hk). unfold mbind, M_bind, path_exists, gets.
    destruct (bool_decide_reflect (is_Some (dk_names (k_disk k) !! m))) as [Hm|Hm].
    + revert Hk. apply on_mono. by intros d Hd.
    + destruct (any_exists l k) as [[b|e] k'] eqn:Ea; [|done].
      assert (k' = k) as ->.
      { clear -Ea. revert Ea. induction l as [|n l IH]; cbn; [by intros [= _ ->]|].
        unfold mbind, M_bind, path_exists, gets. by case_bool_decide; [intros [= _ ->]|]. }
      revert IH. intros (Ht & [Hd Hl] & Hs). repeat split; [done|done| |done]. intros Hb n [->|Hn]%elem_of_cons; [|auto].
      by apply eq_None_not_Some.
Qed.
Lemma triple_wal_checkpoint p Φ Ψ E : (∀ d, Φ d → E d) → (∀ d, Ψ d → safe d) →
  (∀ d i, Φ d → holds_now p d = Some (Some i) → Ψ (checkpointed p i d)) →
  triple (on Φ) (wal_checkpoint p) (λ busy : bool, on (if busy then Φ else Ψ)) (on E).
Proof.
  intros HE Hsafe Hc. eapply triple_bind; [by apply triple_read|]. intros i.
  apply (triple_bind _ _ (λ _, on (λ d, Φ d ∧ holds_now p d = Some (Some i)))); [by intros k Hk|].
  intros [|]; [apply triple_ret, on_mono; naive_solver|].
  apply (triple_bind _ _ (λ _, on Ψ)); [apply triple_on_disk; naive_solver|]. intros _. by apply triple_ret.
Qed.
Lemma triple_except {X} (P : Kit → Prop) (m : M Kit X) h Q (R : pyexc → Kit → Prop) R' :
  (∀ k, P k → match m k with (Ok x, k') => Q x k' | (Raise e, k') => R e k' end) →
  (∀ e, triple (R e) (h e) Q R') → triple P (try_except m h) Q R'.
Proof.
  intros Hm Hh k Hk. specialize (Hm k Hk). unfold try_except. destruct (m k) as [[x|e] k1]; [done|]. by apply Hh.
Qed.

(** *** The replacement *)

Definition in_copy (i : image) (d : Disk) : Prop := ∃ t stamp,
  dk_names d !! tmp = Some t ∧ (dk_next d0 ≤ t)%nat ∧ fixed_file d t (Some (MainFile stamp (Some i))).
Lemma own_name path : NoDup (family path) → path ∉ _sqlite_sidecars path.
Proof. by intros [? _]%NoDup_cons. Qed.
Lemma tmp_names : NoDup (family tmp).
Proof. pose proof (qu_apart Hq) as Ha. by apply NoDup_app in Ha as [? _]. Qed.
Lemma copy_checkpointed i d : before d → holds_now tmp d = Some (Some i) →
  before (checkpointed tmp i d) ∧ in_copy i (checkpointed tmp i d).
Proof.
  intros Hb Hh. pose proof (checkpointed_dir tmp i d) as Hd.
  assert (Hm : is_Some (dk_names d !! tmp)).
  { destruct (dk_names d !! tmp) eqn:E; [done|]. unfold holds_now in Hh. by rewrite contents_none in Hh. }
  destruct Hm as [m Hm]. split.
  - apply (before_same d); [done| |done]. intros j f Hj. apply checkpointed_other. intros n Hin E.
    apply (bf_young _ Hb) in E; [lia|done].
  - exists m, (dk_next d). destruct Hd as [-> _]. split; [done|]. split; [by apply (bf_young _ Hb tmp); [left|]|].
    apply checkpointed_main; [done|]. intros s Hin E.
    assert (s = tmp) as -> by by apply (sd_inj _ (bf_sound _ Hb) s tmp m). by apply (own_name tmp tmp_names).
Qed.
Lemma triple_checkpoint_copy i :
  triple (on (λ d, before d ∧ holds_now tmp d = Some (Some i))) (_checkpoint_sqlite_wal tmp)
    (λ _, on (λ d, before d ∧ ready i d)) (on before).
Proof.
  eapply triple_bind.
  { apply (triple_wal_checkpoint tmp _ (λ d, before d ∧ in_copy i d)); [naive_solver| |].
    - intros d [Hd _]. by apply before_safe.
    - intros d i' [Hd Hi] Hi'. rewrite Hi in Hi'. injection Hi' as <-. by apply copy_checkpointed. }
  intros [|]; [apply triple_raise, on_mono; naive_solver|].
  eapply triple_weaken; [apply (triple_unlink_all _ (λ d, before d ∧ in_copy i d) before)|done| |done].
  - intros d [Hd _]. by apply before_safe.
  - naive_solver.
  - intros n d Hn [Hd (t & st & Ht & Hle & Hf)] _. split; [by apply before_unlink; [right|]|].
    exists t, st. split; [|done]. cbn. rewrite lookup_delete_ne; [done|]. intros ->. by apply (own_name tmp tmp_names).
  - intros ? k. apply on_mono. intros d [[Hd (t & st & Ht & Hle & Hf)] Hn]. split; [done|]. by exists t, st.
Qed.

Lemma unlink_error l k e k' : for_each unlink l k = (Raise e, k') → e = OSError.
Proof.
  revert k. induction l as [|n l IH]; intros k; cbn [for_each]; [done|].
  intros [Hu|(? & k1 & _ & Hl)]%bind_Raise_inv; [|by eapply IH]. revert Hu.
  unfold unlink, path_exists, gets, mbind, M_bind. case_bool_decide; [|done]. unfold may_fail.
  by destruct (default _ _); [intros [= <- _]|].
Qed.
(** What says that a database cannot be read comes from reading it. *)
Lemma checkpoint_error p Φ k k' : on Φ k → _checkpoint_sqlite_wal p k = (Raise DatabaseError, k') →
  on (λ d, Φ d ∧ holds_now p d = Some None) k'.
Proof.
  intros (Ht & Hd & Hs). unfold _checkpoint_sqlite_wal, wal_checkpoint, sqlite_read, may_fail, gets, mbind, M_bind.
  destruct (default false (head (k_faults k))); cbn; [done|].
  destruct (holds_now p (k_disk k)) as [[i|]|] eqn:Eh; cbn; [|by intros [= <-]|done].
  destruct (default _ _); cbn; [done|]. by intros ?%(unlink_error (_sqlite_sidecars p)).
Qed.

Definition clearing (i : image) (d : Disk) : Prop := during kept d ∧ ready i d ∧ clear d.
Lemma sidecar_apart n : n ∈ _sqlite_sidecars db → n ∉ family tmp.
Proof. intros Hn Ht. apply apart in Ht as [_ []]. by right. Qed.
Lemma triple_clear i : triple (on (λ d, during spared d ∧ ready i d)) (_unlink_sqlite_sidecars db)
  (λ _, on (clearing i)) (on (during kept)).
Proof.
  eapply triple_weaken; [apply (triple_unlink_all _ (λ d, during spared d ∧ ready i d) (during kept))|done| |done].
  - intros d [Hd _]. by apply during_safe, spared_during.
  - intros d [Hd _]. by apply spared_during.
  - intros n d Hn [Hd Hr] _. split; [by apply spared_unlink|]. by apply ready_unlink; [apply sidecar_apart|].
  - intros ? k. apply on_mono. intros d [[Hd Hr] Hn]. split; [by apply spared_during|done].
Qed.
Lemma untouched_spared d : untouched d → spared d → during spared d.
Proof. intros Hu Hs. destruct (untouched_during d Hu). by split. Qed.
Lemma triple_neutralize i : triple (on (λ d, untouched d ∧ ready i d)) (_neutralize_replaced_sidecars db)
  (λ _, on (clearing i)) (on (during kept)).
Proof.
  assert (Hun : ∀ d, untouched d ∧ ready i d → during kept d) by (intros d [Hd _]; by apply untouched_during).
  eapply triple_bind; [apply triple_any_exists|]. intros hot. destruct hot; cbn [negb].
  2: { apply triple_ret, on_mono. intros d [Hd Hn]. split; [by apply Hun|]. split; [apply Hd|]. intros n. by apply Hn. }
  eapply triple_bind; [apply triple_exists_path|]. intros there. destruct there; cbn [negb].
  2: { eapply triple_weaken; [apply (triple_clear i)| |done|done]. apply on_mono.
       intros d [[[Hu Hr] _] Hb%eq_sym%bool_decide_eq_false]. split; [|done]. apply untouched_spared; [done|]. left.
       destruct (un_names _ Hu db) as [<- _]; [by left|]. by apply eq_None_not_Some. }
  apply (triple_except _ _ _ _ (λ e, on (λ d, if decide (e = DatabaseError)
    then (untouched d ∧ ready i d) ∧ holds_now db d = Some None else during kept d))).
  - intros k Hk. apply (on_mono _ (λ d, untouched d ∧ ready i d)) in Hk; [|naive_solver].
    assert (Hc : triple (on (λ d, untouched d ∧ ready i d)) (_checkpoint_sqlite_wal db) (λ _, on (clearing i))
      (on (during kept))).
    { eapply triple_bind; [apply (triple_wal_checkpoint db _ (λ d, during spared d ∧ ready i d)); [done| |]|].
      - intros d [Hd _]. by apply during_safe, spared_during.
      - intros d h [Hu Hr] Hh. split; [by apply spared_checkpoint|by apply ready_checkpoint].
      - intros [|]; [by apply triple_raise, on_mono|apply triple_clear]. }
    specialize (Hc k Hk). destruct (_checkpoint_sqlite_wal db k) as [[x|e] k'] eqn:Ec; [done|].
    destruct (decide (e = DatabaseError)) as [->|He]; [|done]. by eapply checkpoint_error.
  - intros e. destruct (decide (e = DatabaseError)) as [->|He]; [|by apply triple_raise].
    eapply triple_weaken; [apply (triple_clear i)| |done|done]. apply on_mono. intros d [[Hu Hr] Hn]. split; [|done].
    apply untouched_spared; [done|]. right. left. by rewrite <-(untouched_holds d).
Qed.

Lemma triple_on_ex {A X} (φ : A → Prop) (Φ : A → Disk → Prop) (m : M Kit X) Q R :
  (∀ a, φ a → triple (on (Φ a)) m Q R) → triple (on (λ d, ∃ a, φ a ∧ Φ a d)) m Q R.
Proof. intros Hm k (Ht & (a & Ha & Hd) & Hs). by apply (Hm a Ha). Qed.
Lemma triple_on_assume {X} (φ : Prop) Φ (m : M Kit X) Q R : (∀ d, Φ d → φ) →
  (φ → triple (on Φ) m Q R) → triple (on Φ) m Q R.
Proof. intros Hφ Hm k Hk. apply Hm; [|done]. by eapply Hφ, Hk. Qed.
Lemma triple_lease {X} (m : M Kit X) Φ Ψ (Q : X → Disk → Prop) E :
  (∀ d, Φ d → E d) → (∀ d, Ψ d → safe d ∧ E d) → (∀ x d, Q x d → E d) →
  (∀ d, Φ d → Ψ d ∧ Ψ (create lock Bare d)) →
  triple (on Ψ) m (λ x, on (Q x)) (on E) →
  triple (on Φ) (exclusive_sqlite_database_lease db m) (λ x, on (Q x)) (on E).
Proof.
  intros HE HΨ HQ Hlock Hm. eapply triple_bind; [by apply triple_may_fail|]. intros ?.
  apply (triple_bind _ _ (λ _, on Ψ)).
  { apply triple_on_disk; [|naive_solver]. intros d Hd. destruct (Hlock d Hd) as [H1 H2]. unfold lock in H2.
    by destruct (dk_names d !! (db ^+ ".vinctor.lock")). }
  intros ?. eapply triple_bind; [apply triple_may_fail; naive_solver|]. intros ?.
  eapply triple_finally; [exact Hm| |].
  - intros y. apply triple_may_fail. apply HQ.
  - by apply triple_may_fail.
Qed.
(** However it ends: the old database, or the new one. *)
Definition ended (d : Disk) : Prop := during kept d ∨ ∃ i, new i ∧ swapped i d.
Lemma ended_safe d : ended d → safe d.
Proof. intros [Hd|(i & _ & Hd)]; [by apply during_safe|apply Hd]. Qed.
Lemma triple_fsync_dir Φ Ψ R : (∀ d, Φ d → sync = false → Ψ d) → (∀ d, Φ d → sync = true → Ψ (flush_dir d)) →
  (∀ d, Ψ d → safe d) → triple (on Φ) _fsync_dir (λ _, on Ψ) R.
Proof.
  intros Hno Hyes Hsafe k (Ht & Hd & Hs). unfold _fsync_dir, gets, mbind, M_bind.
  destruct (k_dir_sync k) eqn:Es.
  - apply (triple_on_disk flush_dir Φ Ψ (λ _, False)); [auto|done|]. split; [done|]. split; [done|]. congruence.
  - split; [done|]. split; [by apply Hno|]. cbn. congruence.
Qed.
Lemma triple_swap i : new i → triple (on (λ d, untouched d ∧ ready i d))
  (_ ← _neutralize_replaced_sidecars db; _ ← _fsync_dir; _ ← os_replace tmp db; _fsync_dir)
  (λ _, on (settled i)) (on ended).
Proof.
  intros Hi. eapply triple_bind.
  { eapply triple_weaken; [apply (triple_neutralize i)|done|done|]. apply on_mono. by left. }
  intros ?. apply (triple_bind _ _ (λ _, on (λ d, clearing i d ∧ (sync = true → dk_pending d = [])))).
  { apply triple_fsync_dir.
    - intros d Hd Hs. split; [done|]. by rewrite Hs.
    - intros d (Hd & Hr & Hc) _. split; [|done]. split; [by apply flush_during|done].
    - intros d [[Hd _] _]. by apply during_safe. }
  intros ?. apply (triple_bind _ _ (λ _, on (swapped i))).
  { eapply triple_bind; [apply triple_may_fail; intros d [[Hd _] _]; by left|]. intros ?.
    apply triple_on_disk; [|by intros d Hd; apply Hd]. intros d [(Hd & Hr & Hc) Hp]. by apply rename_swaps. }
  intros ?. apply triple_fsync_dir.
  - intros d Hd Hs. split; [done|]. by rewrite Hs.
  - intros d Hd Hs. by apply swapped_flush.
  - intros d Hd. apply Hd.
Qed.
Lemma triple_cleanup {X} e (Q : X → Kit → Prop) :
  triple (on ended) (_ ← _unlink_sqlite_sidecars tmp; _ ← unlink tmp; raise e) Q (on safe).
Proof.
  assert (Hend : ∀ n d, n ∈ family tmp → ended d → is_Some (dk_names d !! n) → ended (change_dir (Unlink n) d)).
  { intros n d Hn [Hd|(i & _ & Hd)] Hs; [left; by apply during_cleanup|].
    rewrite (sw_free _ _ Hd n Hn) in Hs. by apply is_Some_None in Hs. }
  apply (triple_bind _ _ (λ _, on ended)).
  { eapply triple_weaken; [apply (triple_unlink_all _ ended safe)|done| |done].
    - apply ended_safe.
    - apply ended_safe.
    - intros n d Hn. apply Hend. by right.
    - intros ? k. apply on_mono. by intros d [Hd _]. }
  intros ?. apply (triple_bind _ _ (λ _, on ended)).
  { apply triple_unlink; [|done|apply ended_safe|apply ended_safe]. intros d. apply Hend. by left. }
  intros ?. apply triple_raise, on_mono, ended_safe.
Qed.
Definition copy_free (d : Disk) : Prop := before d ∧ ∀ n, n ∈ family tmp → dk_names d !! n = None.
Definition copy_made (d : Disk) : Prop := before d ∧
  (∃ t stamp holds, dk_names d !! tmp = Some t ∧ dk_files d !! t = Some (MainFile stamp holds)) ∧
  ∀ s, s ∈ _sqlite_sidecars tmp → dk_names d !! s = None.
Definition copy_holds (i : image) (d : Disk) : Prop := before d ∧ holds_now tmp d = Some (Some i).
Definition built (versions : list Z) (i : image) : Prop := new i ∧ im_versions i = Some versions.
Lemma triple_replace build :
  triple (on copy_made) build (λ versions, on (λ d, ∃ i, built versions i ∧ copy_holds i d)) (on before) →
  triple (on copy_free) (_atomic_replace_sqlite tmp db build)
    (λ versions, on (λ d, ∃ i, built versions i ∧ settled i d)) (on safe).
Proof.
  intros Hbuild.
  assert (Hbe : ∀ d, before d → ended d) by (intros d Hd; left; by apply untouched_during, before_untouched).
  eapply triple_bind; [apply triple_may_fail; intros d [Hd _]; by apply before_safe|]. intros ?.
  apply (triple_bind _ _ (λ _, on copy_made)).
  { eapply triple_bind; [apply triple_may_fail; intros d [Hd _]; by apply before_safe|]. intros ?.
    apply triple_on_disk; [|intros d [Hd _]; by apply before_safe]. intros d [Hd Hn].
    split; [by apply before_create; [left|]|]. split.
    - exists (dk_next d), (dk_next d), (Some blank). cbn. by rewrite !lookup_insert_eq.
    - intros s Hs. cbn. rewrite lookup_insert_ne; [apply Hn; by right|]. intros <-. by apply (own_name tmp tmp_names). }
  intros ?. eapply triple_try; [|intros e; apply triple_cleanup].
  eapply triple_bind; [eapply triple_weaken; [exact Hbuild|done|done|by apply on_mono]|].
  intros versions. cbn. apply triple_on_ex. intros i Hi.
  eapply triple_bind; [eapply triple_weaken; [apply (triple_checkpoint_copy i)|done|done|by apply on_mono]|].
  intros ?. apply (triple_bind _ _ (λ _, on (λ d, before d ∧ ready i d))).
  { eapply triple_bind; [apply triple_may_fail; intros d [Hd _]; by apply Hbe|]. intros ?.
    apply triple_on_disk; [|intros d [Hd _]; by apply before_safe]. intros d [Hd Hr].
    destruct (dk_names d !! tmp) as [t|] eqn:Et; [|done]. split.
    - apply (before_same d); [done| |done]. intros j f _. apply flush_file_fixed.
    - destruct Hr as (t' & stamp & Ht & Hle & Hf & Hs). exists t', stamp. split; [done|]. split; [done|].
      split; [by apply flush_file_fixed|done]. }
  intros ?. apply (triple_bind _ _ (λ _, on (settled i))).
  { apply (triple_lease _ _ (λ d, untouched d ∧ ready i d) (λ _, settled i)).
    - intros d [Hd _]. by apply Hbe.
    - intros d [Hd _]. apply untouched_during in Hd. split; [by apply during_safe|by left].
    - intros _ d [Hd _]. right. exists i. split; [apply Hi|done].
    - intros d [Hd Hr]. apply before_untouched in Hd. split; [done|]. split; [by apply untouched_lock|].
      by apply ready_lock; [apply Hd|].
    - apply triple_swap, Hi. }
  intros ?. apply triple_ret, on_mono. intros d Hd. by exists i.
Qed.

Lemma before_holds p d : (∀ n, n ∈ family p → n ∉ family tmp) → before d → holds_now p d = holds_now p d0.
Proof.
  intros Hp Hd. apply contents_ext. intros n Hin. apply (old_found d); [apply Hd|apply now_view|].
  by apply (bf_names _ Hd n), Hp.
Qed.
Lemma copy_written i d : copy_made d →
  copy_holds i (match dk_names d !! tmp with
    | Some inode => renumbered (set_file inode (MainFile (dk_next d) (Some i)) d)
    | None => d
    end).
Proof.
  intros (Hd & (t & stamp & h & Ht & Hf) & Hs). rewrite Ht. split.
  - apply (before_same d); [repeat split; cbn; lia| |done]. intros j f Hj. apply (set_other d j t f).
    apply (bf_young _ Hd) in Ht; [lia|by left].
  - apply (contents_main _ _ _ (dk_next d)); unfold found; cbn.
    + by rewrite Ht; cbn; rewrite lookup_insert_eq.
    + intros s Hin. by rewrite Hs.
Qed.
(** What a connection in WAL mode wrote is in the log, for the pages of the file. *)
Lemma copy_logged i d : copy_made d →
  copy_holds i (match (inode ← dk_names d !! tmp; dk_files d !! inode) with
    | Some (MainFile stamp _) => create (tmp ^+ "-wal") (Sidecar stamp (Some i)) d
    | _ => d
    end).
Proof.
  intros (Hd & (t & stamp & h & Ht & Hf) & Hs). rewrite Ht. cbn. rewrite Hf. split.
  - apply before_create; [right; by left|done].
  - pose proof tmp_names as Hnd. apply NoDup_cons in Hnd as [Hmain [Hwal _]%NoDup_cons].
    assert (Et : dk_names d !! tmp ≠ Some (dk_next d)).
    { rewrite Ht. intros [= ->]. apply (sd_below _ (bf_sound _ Hd)) in Ht. lia. }
    assert (En : ∀ n, n ∈ [tmp; tmp ^+ "-shm"; tmp ^+ "-journal"] → n ≠ tmp ^+ "-wal") by set_solver.
    unfold holds_now, contents, found. cbn [map _sqlite_sidecars foldl create change_dir apply_change renumbered set_file
      dk_names dk_files].
    rewrite lookup_insert_eq, !lookup_insert_ne by (apply not_eq_sym, En; set_solver).
    rewrite Ht, !Hs by set_solver. cbn. rewrite lookup_insert_eq, lookup_insert_ne by congruence.
    rewrite Hf. cbn. by rewrite Nat.eqb_refl.
Qed.

Lemma triple_versions path Φ E : (∀ d, Φ d → E d) → triple (on Φ) (read_schema_versions path) (λ _, on Φ) (on E).
Proof.
  intros HE. eapply triple_bind; [apply triple_exists_path|]. intros b. destruct b; cbn [negb].
  - apply (triple_try _ _ _ _ (on Φ)).
    + eapply triple_bind; [apply triple_read; naive_solver|]. intros i.
      apply (triple_bind _ _ (λ _, on Φ)); [|intros ?; by apply triple_ret].
      apply triple_lift; [intros ? k _|]; apply on_mono; naive_solver.
    + intros e. destruct (decide _); [by apply triple_ret|]. destruct (decide _); [by apply triple_ret|].
      by apply triple_raise, on_mono.
  - apply triple_ret, on_mono. naive_solver.
Qed.

Context (emit_storage_op : string → string → option Z → option string → M Kit unit).
(** The anchor is elsewhere: it leaves the directory alone. *)
Context (anchored : ∀ op at_ head_seq head_hash k, let k' := (emit_storage_op op at_ head_seq head_hash k).2 in
  k_disk k' = k_disk k ∧ k_trace k' = k_trace k ∧ k_dir_sync k' = k_dir_sync k).

Lemma triple_trace op at_ path Φ : triple (on Φ) (_emit_storage_op_trace emit_storage_op op at_ path) (λ _, on Φ) (on Φ).
Proof.
  assert (Hw : ∀ line, triple (on Φ) (write_stderr line) (λ _, on Φ) (on Φ)) by by intros line k Hk.
  apply (triple_bind _ _ (λ _, on Φ)).
  { apply (triple_try _ _ _ _ (on Φ)).
    - apply (triple_bind _ _ (λ _, on Φ)); [|intros ?; by apply triple_ret].
      eapply triple_bind; [apply triple_exists_path|]. intros b. destruct b; cbn [negb].
      + eapply triple_bind; [apply triple_read; naive_solver|]. intros i.
        destruct (chain_head _) as [[seq|] [hash|]]; apply triple_ret, on_mono; naive_solver.
      + apply triple_ret, on_mono. naive_solver.
    - intros e. eapply triple_bind; [apply Hw|]. intros ?. by apply triple_ret. }
  intros head_of. eapply triple_bind; [apply Hw|]. intros ?.
  apply (triple_try _ _ _ _ (on Φ)); [|intros e; apply Hw].
  intros k (Ht & Hd & Hs). pose proof (anchored op at_ (fst <$> head_of) (snd <$> head_of) k) as (E1 & E2 & E3).
  destruct (emit_storage_op _ _ _ _ k) as [[[]|e] k']; cbn in *; unfold on; by rewrite E1, E2, E3.
Qed.
End survival.

(** ** What the operations promise *)

(** A snapshot that may replace a database: it says the versions of its schema, and
    its audit chain is intact. *)
Definition verified (i : image) : Prop :=
  (∃ versions, im_versions i = Some versions ∧ versions ≠ []) ∧
  ∃ chain, verify_chain (d_audit (im_db i)) = Ok chain ∧ cv_ok chain = true.
Definition snapshot (input_path : string) (d0 : Disk) (i : image) : Prop :=
  holds_now input_path d0 = Some (Some i) ∧ verified i.
Definition leaves_disk (emit : string → string → option Z → option string → M Kit unit) : Prop :=
  ∀ op at_ head_seq head_hash k, let k' := (emit op at_ head_seq head_hash k).2 in
    k_disk k' = k_disk k ∧ k_trace k' = k_trace k ∧ k_dir_sync k' = k_dir_sync k.

Section promises.
Context (emit_storage_op : string → string → option Z → option string → M Kit unit)
  (anchored : leaves_disk emit_storage_op).
Context (db tmp : string).

Lemma triple_copy_verified input d0 sync : quiet db tmp d0 sync → (∀ n, n ∈ family input → n ∉ family tmp) →
  triple (on db d0 sync (snapshot input d0) (copy_made tmp d0 sync)) (copy_verified input tmp)
    (λ versions, on db d0 sync (snapshot input d0)
       (λ d, ∃ i, built (snapshot input d0) versions i ∧ copy_holds tmp d0 sync i d))
    (on db d0 sync (snapshot input d0) (before tmp d0 sync)).
Proof.
  intros Hq Hin. eapply triple_bind; [apply triple_read; intros d Hd; apply Hd|]. intros i.
  apply (triple_on_assume _ _ _ _ (holds_now input d0 = Some (Some i))).
  { intros d [Hd Hi]. rewrite <-Hi. symmetry. eapply before_holds; [done|done|apply Hd]. }
  intros Hi. apply (triple_bind _ _ (λ _, on db d0 sync (snapshot input d0) (copy_holds tmp d0 sync i))).
  { eapply triple_bind; [apply triple_may_fail; intros d [Hd _]; apply Hd|]. intros ?.
    apply triple_on_disk.
    - intros d [Hd _]. by eapply copy_written.
    - intros d [Hd _]. by eapply before_safe. }
  intros ?. eapply triple_bind; [apply triple_read; intros d Hd; apply Hd|]. intros copied.
  apply (triple_on_assume _ _ _ _ (copied = i)).
  { intros d [[_ Hd] Hc]. rewrite Hd in Hc. by injection Hc. }
  intros ->. set (Φ := on _ _ _ _ _).
  assert (HΦ : ∀ k, Φ k → on db d0 sync (snapshot input d0) (before tmp d0 sync) k).
  { apply on_mono. intros d [Hd _]. apply Hd. }
  apply (triple_bind _ _ (λ versions k, Φ k ∧ im_versions i = Some versions)).
  { apply triple_lift; [|done]. intros versions k. unfold get_sqlite_schema_versions.
    by destruct (im_versions i); intros [= ->]. }
  intros versions. apply triple_pure. intros Hv.
  apply (triple_bind _ _ (λ chain k, Φ k ∧ verify_chain (d_audit (im_db i)) = Ok chain)).
  { by apply triple_lift. }
  intros chain. apply triple_pure. intros Hchain.
  case_bool_decide as Hne; [by apply triple_raise|].
  destruct (cv_ok chain) eqn:Eok; cbn [negb]; [|by apply triple_raise].
  apply triple_ret, on_mono. intros d [Hd _]. exists i. split; [|done]. split; [|done]. split; [done|].
  split; [by exists versions|by exists chain].
Qed.

(** A replacement that ended. *)
Definition replaced (d0 : Disk) (sync : bool) (new : image → Prop) (versions : list Z) (d : Disk) : Prop :=
  ∃ i, new i ∧ im_versions i = Some versions ∧ ∀ names files, view sync d names files → contents names files db = Some (Some i).
Lemma settled_replaced d0 sync new versions d :
  (∃ i, built new versions i ∧ settled db tmp d0 sync new i d) → replaced d0 sync new versions d.
Proof.
  intros (i & [Hn Hv] & [Hsw Hp]). exists i. split; [done|]. split; [done|]. intros names files.
  apply (stands_view db sync i d names files); [apply Hsw|done].
Qed.
Lemma copy_free_start d0 sync : quiet db tmp d0 sync → copy_free tmp d0 sync d0.
Proof. intros Hq. split; [by eapply start|apply Hq]. Qed.
Lemma replaced_safe d0 sync new versions d : replaced d0 sync new versions d → safe db d0 sync new d.
Proof. intros (i & Hi & _ & Hd) names files Hv. left. exists i. split; [done|]. by apply Hd. Qed.

Lemma triple_restore input at_ d0 sync : quiet db tmp d0 sync → (∀ n, n ∈ family input → n ∉ family tmp) →
  triple (on db d0 sync (snapshot input d0) (copy_free tmp d0 sync))
    (restore_sqlite emit_storage_op db input tmp at_)
    (λ r, on db d0 sync (snapshot input d0) (replaced d0 sync (snapshot input d0) (so_schema_versions r)))
    (on db d0 sync (snapshot input d0) (safe db d0 sync (snapshot input d0))).
Proof.
  intros Hq Hin.
  assert (Hsafe : ∀ d, copy_free tmp d0 sync d → safe db d0 sync (snapshot input d0) d).
  { intros d [Hd _]. by eapply before_safe. }
  eapply triple_bind.
  { eapply triple_weaken; [apply (triple_trace db d0 sync (snapshot input d0) _ anchored _ _ _ (copy_free tmp d0 sync))|done|done|by apply on_mono]. }
  intros ?. eapply triple_bind; [apply triple_exists_path|]. intros b. destruct b; cbn [negb].
  2: { apply triple_raise, on_mono. naive_solver. }
  eapply triple_bind; [apply triple_versions; naive_solver|]. intros [versions|]; [|apply triple_raise, on_mono; naive_solver].
  eapply triple_bind.
  { eapply triple_weaken; [apply (triple_replace db tmp d0 sync (snapshot input d0) Hq), triple_copy_verified; done| |done|done].
    apply on_mono. naive_solver. }
  intros swapped_versions. apply triple_ret, on_mono, settled_replaced.
Qed.
Lemma triple_reset at_ d0 sync : quiet db tmp d0 sync →
  triple (on db d0 sync (eq initialized) (copy_free tmp d0 sync)) (reset_sqlite emit_storage_op db tmp at_)
    (λ r, on db d0 sync (eq initialized) (replaced d0 sync (eq initialized) (so_schema_versions r)))
    (on db d0 sync (eq initialized) (safe db d0 sync (eq initialized))).
Proof.
  intros Hq. eapply triple_bind.
  { eapply triple_weaken; [apply (triple_trace db d0 sync (eq initialized) _ anchored _ _ _ (copy_free tmp d0 sync))|done|done|]. apply on_mono. intros d [Hd _]. by eapply before_safe. }
  intros ?. eapply triple_bind; [|intros versions; apply triple_ret, on_mono, settled_replaced].
  eapply triple_weaken; [apply (triple_replace db tmp d0 sync (eq initialized) Hq)|done|done|done].
  apply (triple_bind _ _ (λ _, on db d0 sync (eq initialized) (copy_holds tmp d0 sync initialized))).
  { eapply triple_bind; [apply triple_may_fail; intros d Hd; apply Hd|]. intros ?. apply triple_on_disk.
    - intros d Hd. by apply (copy_logged db tmp d0 sync (eq initialized)).
    - intros d [Hd _]. by eapply before_safe. }
  intros ?. eapply triple_bind; [apply triple_read; intros d Hd; apply Hd|]. intros i.
  apply (triple_on_assume _ _ _ _ (i = initialized)).
  { intros d [[_ Hd] Hc]. rewrite Hd in Hc. by injection Hc. }
  intros ->. apply triple_lift.
  - intros versions k [= <-]. apply on_mono. intros d [Hd _]. by exists initialized.
  - apply on_mono. intros d [Hd _]. apply Hd.
Qed.
End promises.

(** The replacement that [out] is the end of, begun with [k] and with the versions of
    a database of [new]'s: stopped at any moment it leaves the database there was or
    a new one whole, and it reports a success only when the new one is there to stay. *)
Definition survived (db : string) (new : image → Prop) (k : Kit) (out : result StorageResult * Kit) : Prop :=
  (∀ d, d ∈ k_trace out.2 → safe db (k_disk k) (k_dir_sync k) new d) ∧
  match out.1 with
  | Ok r => replaced db (k_disk k) (k_dir_sync k) new (so_schema_versions r) (k_disk out.2)
  | Raise _ => safe db (k_disk k) (k_dir_sync k) new (k_disk out.2)
  end.
Lemma triple_survived db tmp new k (m : M Kit StorageResult) : k_trace k = [] → quiet db tmp (k_disk k) (k_dir_sync k) →
  triple (on db (k_disk k) (k_dir_sync k) new (copy_free tmp (k_disk k) (k_dir_sync k))) m
    (λ r, on db (k_disk k) (k_dir_sync k) new (replaced db (k_disk k) (k_dir_sync k) new (so_schema_versions r)))
    (on db (k_disk k) (k_dir_sync k) new (safe db (k_disk k) (k_dir_sync k) new)) →
  survived db new k (m k).
Proof.
  intros Ht Hq Hm. specialize (Hm k).
  assert (Hstart : on db (k_disk k) (k_dir_sync k) new (copy_free tmp (k_disk k) (k_dir_sync k)) k).
  { split; [rewrite Ht; intros d Hd; by apply elem_of_nil in Hd|]. split; [by eapply copy_free_start|done]. }
  unfold survived. destruct (m k) as [[r|e] k']; cbn; split; apply Hm, Hstart.
Qed.
(** Replacing a database loses nothing, whenever it is stopped.  Restoring a
    snapshot over a database, and resetting one, leave at every moment of the
    call, however its calls of the system and of SQLite fail, a disk on which the
    name of the database is either the database there was with what it held, its
    write-ahead log included, or a complete new one: the snapshot's content, whose
    schema says its versions and whose audit chain verifies, or the initialised
    empty database; never a new main file beside an old sidecar, which SQLite would
    replay into it.  That holds if the process stops there, and, on a platform where
    directories are flushed, if the power fails there, whatever part of the changes
    of the directory and of the unflushed files reaches the disk.  A call that
    returns reports the versions of the new database, which is then there whatever
    happens; one that raises leaves the one or the other.  The temporary name is free
    and unrelated to the others, as [mkstemp] makes it, and nothing is under way on
    the disk when the call begins, where no two names are one file. *)
Theorem replacement_survives emit_storage_op db tmp at_ k : leaves_disk emit_storage_op → k_trace k = [] →
  quiet db tmp (k_disk k) (k_dir_sync k) →
  survived db (eq initialized) k (reset_sqlite emit_storage_op db tmp at_ k) ∧
  ∀ input, (∀ n, n ∈ family input → n ∉ family tmp) →
    survived db (snapshot input (k_disk k)) k (restore_sqlite emit_storage_op db input tmp at_ k).
Proof.
  intros Ha Ht Hq. split; [|intros input Hin]; apply (triple_survived db tmp); [done|done| |done|done|].
  - by apply triple_reset.
  - by apply triple_restore.
Qed.

(** A database whose last commit is still in its log, and a snapshot of another. *)
Definition before_commit : image := mkImage empty_db (Some [17]).
Definition crashed : Disk :=
  let files := {[ 0%nat := MainFile 0 (Some blank); 1%nat := Sidecar 0 (Some before_commit); 2%nat := MainFile 2 (Some initialized) ]} in
  let names := {[ "v.db" := 0%nat; "v.db-wal" := 1%nat; "snapshot" := 2%nat ]} in
  mkDisk names files names files [] 3.
Definition no_anchor (op at_ : string) (head_seq : option Z) (head_hash : option string) : M Kit unit := mret tt.
Definition kit (faults : list bool) : Kit := mkKit crashed [] faults true [].
Definition tmp_name : string := ".v.db.x.tmp".
Lemma crashed_quiet : quiet "v.db" tmp_name crashed true.
Proof.
  split; [split|done|done| |].
  - done.
  - intros n i. cbn. rewrite !lookup_insert_Some, lookup_singleton_Some. naive_solver lia.
  - intros n n' i. cbn. rewrite !lookup_insert_Some, !lookup_singleton_Some. naive_solver.
  - intros n Hn. cbn in Hn. set_unfold in Hn. destruct_or!; subst; done.
  - by apply (bool_decide_unpack _).
Qed.
(** One restore that succeeds, and one whose rename fails. *)
Definition restored (faults : list bool) : result (list Z) * option (option image) :=
  let '(r, k) := restore_sqlite no_anchor "v.db" "snapshot" tmp_name "" (kit faults) in
  (match r with Ok o => Ok (so_schema_versions o) | Raise e => Raise e end, holds_now "v.db" (k_disk k)).
Example restored_or_not :
  restored [] = (Ok all_versions, Some (Some initialized)) ∧
  restored (repeat false 15 ++ [true]) = (Raise OSError, Some (Some before_commit)).
Proof. split; vm_compute; reflexivity. Qed.
Lemma replacement_survives_witness :
  survived "v.db" (eq initialized) (kit []) (reset_sqlite no_anchor "v.db" tmp_name "" (kit [])) ∧
  survived "v.db" (snapshot "snapshot" crashed) (kit []) (restore_sqlite no_anchor "v.db" "snapshot" tmp_name "" (kit [])).
Proof.
  assert (Ha : leaves_disk no_anchor) by done.
  destruct (replacement_survives no_anchor "v.db" tmp_name "" (kit []) Ha eq_refl crashed_quiet) as [Hr Hs].
  split; [exact Hr|]. apply Hs. intros n Hn. cbn in Hn |- *. set_solver.
Defined.
