(* ===== verification/IdemHttp.v ===== *)
(** * Idempotent requests over HTTP ([src/vinctor_service/idempotency_http.py])

    The [Idempotency-Key] header, the response that is stored for replay, and how
    a mutation is run under a key: the executor is the service's, when it has
    one. *)
From S2P Require Import Prelude PyStr PyDict Models Sha256 Json Http IdemCrypto IdemStorage.

Definition _MAX_TERMINAL_TTL_SECONDS : Z := 86400.
Definition InvalidIdempotencyKey : pyexc := ValueError "invalid idempotency key".

Record AuthenticatedIdempotencyScope := mkAuthenticatedIdempotencyScope {
  is_workspace_id : string;
  is_principal : string
}.
Record HttpIdempotencyRequest := mkHttpIdempotencyRequest {
  hi_fingerprint_input : RequestFingerprintInput;
  hi_raw_key_headers : list string
}.

(** [_KEY_PATTERN.fullmatch(raw_key)] *)
Definition key_char (c : ascii) : bool :=
  alnum c || Ascii.eqb c "." || Ascii.eqb c "_" || Ascii.eqb c "~" || Ascii.eqb c "-".
Definition _KEY_PATTERN (raw_key : string) : bool :=
  all_chars key_char raw_key && (1 <=? String.length raw_key)%nat && (String.length raw_key <=? 128)%nat.
(** The hash of the key, when the header is given. *)
Definition parse_idempotency_key (raw_values : option (list string)) : result (option string) :=
  match raw_values with
  | None => Ok None
  | Some [raw_key] =>
      if negb (isascii raw_key) || negb (_KEY_PATTERN raw_key) then Raise InvalidIdempotencyKey
      else Ok (Some (sha256_digest raw_key))
  | Some _ => Raise InvalidIdempotencyKey
  end.

Definition text_or_none (o : option json) : option string :=
  match o with Some (JStr s) => Some s | _ => None end.
Definition encode_json_response (response : V1HttpResponse) : PreSerializedHttpResponse :=
  mkPreSerializedHttpResponse (hr_status_code response) JSON_CONTENT_TYPE
    (dumps true (JObj (hr_body response)))
    (mkHttpResponseObservation (text_or_none (dget "error" (hr_body response)))
       (text_or_none (dget "decision" (hr_body response)))).
Definition cacheable_json_outcome (response : V1HttpResponse) (replay_not_after_epoch : option Z) :
    CacheableTerminalOutcome :=
  mkCacheableTerminalOutcome (encode_json_response response) replay_not_after_epoch.
Definition _coarse_error (code : string) (status_code : Z) : PreSerializedHttpResponse :=
  encode_json_response (mkV1HttpResponse status_code [("error", JStr code); ("reason", JStr code)]).
Definition invalid_key_response : PreSerializedHttpResponse := _coarse_error "invalid_idempotency_key" 400.
Definition unavailable_response : PreSerializedHttpResponse := _coarse_error "idempotency_unavailable" 503.

Section execute.
Context {S : Type}.
(** [IdempotentHttpMutationService.execute_idempotent] *)
Abbreviation Executor :=
  (IdempotencyInvocation → M S CacheableTerminalOutcome → M S PreSerializedHttpResponse).
Definition http_invocation (request : RequestFingerprintInput) (key_hash request_fingerprint : string) :
    IdempotencyInvocation :=
  mkIdempotencyInvocation (fp_authenticated_workspace_id request) (fp_authenticated_principal request)
    (fp_operation request) key_hash request_fingerprint _MAX_TERMINAL_TTL_SECONDS.
Definition executor_errors (m : M S PreSerializedHttpResponse) : M S PreSerializedHttpResponse :=
  try_except m (λ e,
    if decide (e = IdempotencyConflict) then mret (_coarse_error "idempotency_key_conflict" 409)
    else if bool_decide (e ∈ [AmbiguousCommitError; IdempotencyCipherUnavailableError;
                              IdempotencyResultUnavailable; IdempotencyWriteUnavailable])
    then mret unavailable_response
    else raise e).
Definition execute_idempotent_http (service : option Executor) (request : HttpIdempotencyRequest)
    (mutation : M S CacheableTerminalOutcome) : M S PreSerializedHttpResponse :=
  match build_request_fingerprint (hi_fingerprint_input request) with
  | Raise e => if decide (e = IdempotencyFingerprintError) then mret unavailable_response else raise e
  | Ok request_fingerprint =>
      match parse_idempotency_key (Some (hi_raw_key_headers request)) with
      | Raise e => if decide (e = InvalidIdempotencyKey) then mret invalid_key_response else raise e
      | Ok None => raise AssertionError
      | Ok (Some key_hash) =>
          match service with
          | None => mret unavailable_response
          | Some execute_idempotent =>
              executor_errors (execute_idempotent
                (http_invocation (hi_fingerprint_input request) key_hash request_fingerprint) mutation)
          end
      end
  end.
End execute.
