(* ===== verification/Oidc.v ===== *)
(** * Single sign-on ([src/vinctor_service/oidc.py])

    Which principal the claims of a verified token make.  Verifying the token
    (PyJWT) is a parameter: it gives the claims, or none. *)
From S2P Require Import Prelude PyStr PyDict Models Json Http AuditHttp.

Definition _ASYMMETRIC_ALGORITHMS : list string :=
  ["RS256"; "RS384"; "RS512"; "PS256"; "PS384"; "PS512"; "ES256"; "ES384"; "ES512"; "EdDSA"].

Record OidcConfig := mkOidcConfig {
  oc_issuer : string;
  oc_audience : string;
  oc_jwks_url : string;
  oc_groups_claim : string;
  oc_workspace_claim : string;
  oc_operator_group : string;
  oc_auditor_group : string;
  oc_service_operator_group : string;
  oc_algorithms : list string;
  oc_allowed_workspace_ids : list string
}.
Definition required_fields (c : OidcConfig) : list (string * string) :=
  [("issuer", oc_issuer c); ("audience", oc_audience c); ("jwks_url", oc_jwks_url c);
   ("groups_claim", oc_groups_claim c); ("workspace_claim", oc_workspace_claim c);
   ("operator_group", oc_operator_group c); ("auditor_group", oc_auditor_group c);
   ("service_operator_group", oc_service_operator_group c)].
(** [OidcConfig.__post_init__] *)
Definition oidc_config_check (c : OidcConfig) : result OidcConfig :=
  match List.find (λ f, strip f.2 == "") (required_fields c) with
  | Some (name, _) => Raise (ValueError ("OIDC " ^+ name ^+ " is required"))
  | None =>
      if bool_decide (oc_algorithms c = [])
         || existsb (λ a, negb (existsb (String.eqb a) _ASYMMETRIC_ALGORITHMS)) (oc_algorithms c)
      then Raise (ValueError "OIDC algorithms must be supported asymmetric algorithms")
      else if existsb (λ w, (w == "") || negb (strip w == w)) (oc_allowed_workspace_ids c)
      then Raise (ValueError "OIDC allowed workspace ids must be non-empty and trimmed")
      else Ok c
  end.

Record OidcPrincipal := mkOidcPrincipal {
  op_subject : string;
  op_workspace_id : option string;
  op_roles : list string
}.

Definition given (env : dict string string) (name : string) : bool :=
  match dget name env with Some v => negb (v == "") | None => false end.
Definition listed (raw : string) : list string :=
  List.filter (λ v, negb (v == "")) (map strip (split "," raw)).
Definition load_oidc_config (env : dict string string) : result (option OidcConfig) :=
  let core_names := ["VINCTOR_OIDC_ISSUER"; "VINCTOR_OIDC_AUDIENCE"; "VINCTOR_OIDC_JWKS_URL"] in
  let env_get name d := default d (dget name env) in
  if negb (existsb (given env) core_names) then Ok None
  else
    match List.filter (λ name, negb (given env name)) core_names with
    | [] =>
        c ← oidc_config_check (mkOidcConfig (env_get "VINCTOR_OIDC_ISSUER" "")
              (env_get "VINCTOR_OIDC_AUDIENCE" "") (env_get "VINCTOR_OIDC_JWKS_URL" "")
              (env_get "VINCTOR_OIDC_GROUPS_CLAIM" "groups")
              (env_get "VINCTOR_OIDC_WORKSPACE_CLAIM" "vinctor_workspace_id")
              (env_get "VINCTOR_OIDC_OPERATOR_GROUP" "vinctor-operator")
              (env_get "VINCTOR_OIDC_AUDITOR_GROUP" "vinctor-auditor")
              (env_get "VINCTOR_OIDC_SERVICE_OPERATOR_GROUP" "vinctor-service-operator")
              (listed (env_get "VINCTOR_OIDC_ALGORITHMS" "RS256"))
              (listed (env_get "VINCTOR_OIDC_ALLOWED_WORKSPACE_IDS" "")));
        Ok (Some c)
    | missing => Raise (ValueError ("OIDC configuration requires " ^+ join ", " missing))
    end.

Definition member (x : string) (l : list string) : bool := existsb (String.eqb x) l.
(** A workspace claim: absent or null, a non-empty text, or anything else. *)
Definition workspace_claim (v : json) : option (option string) :=
  match v with
  | JNull => Some None
  | JStr w => if w == "" then None else Some (Some w)
  | _ => None
  end.
(** The list, when all its items are texts. *)
Definition str_list (l : list json) : option (list string) :=
  mapM (λ v, match v with JStr s => Some s | _ => None end) l.
Definition role_of (holds : bool) (role : string) : list string := if holds then [role] else [].
Definition principal_from_claims (config : OidcConfig) (claims : mapping) : option OidcPrincipal :=
  subject ← match dget "sub" claims with Some (JStr s) => if s == "" then None else Some s | _ => None end;
  groups ← match default (JList []) (dget (oc_groups_claim config) claims) with
           | JList l => str_list l
           | _ => None
           end;
  claimed ← workspace_claim (jget (oc_workspace_claim config) claims);
  workspace_id ← (if member (oc_operator_group config) groups || member (oc_auditor_group config) groups
    then match claimed with
         | Some w => if member w (oc_allowed_workspace_ids config) then Some (Some w) else None
         | None => None
         end
    else Some None);
  let in_workspace group := bool_decide (is_Some workspace_id) && member group groups in
  Some (mkOidcPrincipal subject workspace_id
    (role_of (in_workspace (oc_operator_group config)) "operator"
     ++ role_of (in_workspace (oc_auditor_group config)) "auditor"
     ++ role_of (member (oc_service_operator_group config) groups) "service_operator")).

Section verifier.
(** [jwt.decode] with the key set of the issuer: the claims of a valid token. *)
Context (jwt_decode : OidcConfig → string → option mapping).
(** [PyJwtOidcTokenVerifier.verify] *)
Definition verify (config : OidcConfig) (token : string) : option OidcPrincipal :=
  claims ← jwt_decode config token;
  principal_from_claims config claims.
End verifier.

(** ** What a principal may be *)

Lemma member_elem x l : member x l = true ↔ x ∈ l.
Proof.
  unfold member. rewrite existsb_exists. split.
  - intros (y & Hy & E). apply String.eqb_eq in E as ->. by apply list_elem_of_In.
  - intros Hx. exists x. split; [by apply list_elem_of_In|apply String.eqb_refl].
Qed.
Lemma role_elem b role x : x ∈ role_of b role ↔ b = true ∧ x = role.
Proof.
  destruct b; cbn; [rewrite list_elem_of_singleton; naive_solver|].
  split; [by intros ?%elem_of_nil|by intros [? _]].
Qed.

(** The groups the claims name. *)
Definition in_group (config : OidcConfig) (claims : mapping) (group : string) : Prop :=
  ∃ l groups, default (JList []) (dget (oc_groups_claim config) claims) = JList l ∧
    str_list l = Some groups ∧ group ∈ groups.

(** A token of the identity provider makes an operator or an auditor only of
    a workspace the service was told to allow: the workspace of a principal is the
    one its claims name and one of the configured ones, a principal has the
    operator's or the auditor's role exactly when it has a workspace and its claims
    name the configured group, and the service operator's exactly when they name
    that group; it has no other role. *)
Theorem oidc_principal_allowed config claims p : principal_from_claims config claims = Some p →
  (∀ w, op_workspace_id p = Some w →
     w ∈ oc_allowed_workspace_ids config ∧ jget (oc_workspace_claim config) claims = JStr w) ∧
  ("operator" ∈ op_roles p ↔
     is_Some (op_workspace_id p) ∧ in_group config claims (oc_operator_group config)) ∧
  ("auditor" ∈ op_roles p ↔
     is_Some (op_workspace_id p) ∧ in_group config claims (oc_auditor_group config)) ∧
  ("service_operator" ∈ op_roles p ↔ in_group config claims (oc_service_operator_group config)) ∧
  (∀ role, role ∈ op_roles p → role = "operator" ∨ role = "auditor" ∨ role = "service_operator").
Proof.
  unfold principal_from_claims. intros Hp.
  apply bind_Some in Hp as (subject & _ & Hp). apply bind_Some in Hp as (groups & Hg & Hp).
  apply bind_Some in Hp as (claimed & Hc & Hp). apply bind_Some in Hp as (ws & Hw & Hp).
  injection Hp as <-. cbn [op_workspace_id op_roles].
  assert (Hgroup : ∀ g, in_group config claims g ↔ member g groups = true).
  { intros g. rewrite member_elem. unfold in_group. destruct (default _ _) as [| | | |l|] eqn:E; try done.
    split; [|intros Hin; by exists l, groups]. by intros (l' & groups' & [= <-] & Hl & Hin); simplify_eq. }
  assert (Hsome : ∀ w, ws = Some w → w ∈ oc_allowed_workspace_ids config ∧ jget (oc_workspace_claim config) claims = JStr w).
  { intros w ->. destruct (_ || _); [|done]. destruct claimed as [w'|]; [|done].
    destruct (member w' _) eqn:Hm; [|done]. injection Hw as ->. split; [by apply member_elem|].
    unfold workspace_claim in Hc. destruct (jget _ claims) as [| | |s| |]; try done.
    destruct (s == ""); [done|]. by injection Hc as ->. }
  split; [exact Hsome|]. rewrite !elem_of_app, !role_elem, !andb_true_iff, !bool_decide_eq_true, !Hgroup.
  split_and!; [naive_solver..|]. intros role. rewrite !elem_of_app, !role_elem. naive_solver.
Qed.
Definition sample_config : OidcConfig :=
  mkOidcConfig "https://idp" "vinctor" "https://idp/keys" "groups" "vinctor_workspace_id" "vinctor-operator"
    "vinctor-auditor" "vinctor-service-operator" ["RS256"] ["ws1"].
Definition sample_claims (ws : string) : mapping :=
  [("sub", JStr "alice"); ("groups", JList [JStr "vinctor-operator"; JStr "other"]);
   ("vinctor_workspace_id", JStr ws)].
Lemma oidc_principal_allowed_witness :
  principal_from_claims sample_config (sample_claims "ws2") = None ∧
  ∃ p, principal_from_claims sample_config (sample_claims "ws1") = Some p ∧
    op_roles p = ["operator"] ∧ "ws1" ∈ oc_allowed_workspace_ids sample_config.
Proof.
  split; [by vm_compute|].
  destruct (principal_from_claims sample_config (sample_claims "ws1")) as [p|] eqn:E; [|by vm_compute in E].
  exists p. pose proof (oidc_principal_allowed _ _ _ E) as (Hw & _).
  assert (p = mkOidcPrincipal "alice" (Some "ws1") ["operator"]) as Hp.
  { vm_compute in E. by injection E as <-. }
  subst p. split; [done|]. split; [done|]. by apply (Hw "ws1").
Defined.
