(* ===== verification/Metrics.v ===== *)
(** * Metrics ([src/vinctor_service/metrics.py])

    Counters and duration histograms.  A duration is a whole number of
    nanoseconds, and so are the bounds of the buckets; how a total prints is a
    parameter. *)
From S2P Require Import Prelude PyStr PyDict Models.

(** The bounds, with the label they are rendered with. *)
Definition _DEFAULT_BUCKETS : list (Z * string) :=
  [(5000000, "0.005"); (10000000, "0.01"); (25000000, "0.025"); (50000000, "0.05"); (100000000, "0.1");
   (250000000, "0.25"); (500000000, "0.5"); (1000000000, "1"); (2500000000, "2.5"); (5000000000, "5");
   (10000000000, "10")].

Definition labels : Type := list (string * string).
Definition label_key : Type := string * labels.
Record Histogram := mkHistogram {
  hg_buckets : list Z;
  hg_sum : Z;
  hg_count : Z
}.
Record Metrics := mkMetrics {
  _counters : dict label_key Z;
  _histograms : dict label_key Histogram
}.
Definition new_metrics : Metrics := mkMetrics [] [].

Definition sorted_labels (l : labels) : labels := py_sorted (λ x y, String.leb x.1 y.1) l.
Definition increment (name : string) (amount : Z) (l : labels) (m : Metrics) : Metrics :=
  let key := (name, sorted_labels l) in
  mkMetrics (dset key (default 0 (dget key (_counters m)) + amount) (_counters m)) (_histograms m).
(** The first bucket whose bound the value does not exceed. *)
Fixpoint bump (value : Z) (bounds : list (Z * string)) (counts : list Z) : list Z :=
  match bounds, counts with
  | (bound, _) :: bounds', n :: counts' =>
      if value <=? bound then n + 1 :: counts' else n :: bump value bounds' counts'
  | _, _ => counts
  end.
Definition observe (name : string) (value : Z) (l : labels) (m : Metrics) : Metrics :=
  let key := (name, sorted_labels l) in
  let state := default (mkHistogram (map (λ _, 0) _DEFAULT_BUCKETS) 0 0) (dget key (_histograms m)) in
  mkMetrics (_counters m) (dset key
    (mkHistogram (bump value _DEFAULT_BUCKETS (hg_buckets state)) (hg_sum state + value) (hg_count state + 1))
    (_histograms m)).

(** ** Rendering *)

Definition newline : string := String "010" "".

Definition quoted (v : string) : string := String "034" (v ^+ String "034" "").
Definition _render_labels (l : labels) : string :=
  match l with
  | [] => ""
  | _ => "{" ^+ join "," (map (λ kv, kv.1 ^+ "=" ^+ quoted kv.2) l) ^+ "}"
  end.
(** The order of tuples of pairs. *)
Fixpoint labels_leb (a b : labels) : bool :=
  match a, b with
  | [], _ => true
  | _ :: _, [] => false
  | (k, v) :: a', (k', v') :: b' =>
      if negb (k == k') then String.leb k k'
      else if negb (v == v') then String.leb v v'
      else labels_leb a' b'
  end.
Definition key_leb (a b : label_key) : bool :=
  if a.1 == b.1 then labels_leb a.2 b.2 else String.leb a.1 b.1.
(** The type line of a name, before its first sample. *)
Definition type_line (kind name : string) (seen : list string) : list string :=
  if existsb (String.eqb name) seen then [] else ["# TYPE " ^+ name ^+ " " ^+ kind].
Fixpoint render_counters (seen : list string) (items : list (label_key * Z)) : list string * list string :=
  match items with
  | [] => ([], seen)
  | ((name, l), value) :: items' =>
      let '(lines, seen') := render_counters (name :: seen) items' in
      (type_line "counter" name seen ++ (name ^+ _render_labels l ^+ " " ^+ pretty value) :: lines, seen')
  end.
Fixpoint bucket_lines (name : string) (l : labels) (cumulative : Z) (bounds : list (Z * string))
    (counts : list Z) : list string :=
  match bounds, counts with
  | (_, le) :: bounds', n :: counts' =>
      (name ^+ "_bucket" ^+ _render_labels (l ++ [("le", le)]) ^+ " " ^+ pretty (cumulative + n))
      :: bucket_lines name l (cumulative + n) bounds' counts'
  | _, _ => []
  end.
Section render.
Context (show_total : Z → string).
Fixpoint render_histograms (seen : list string) (items : list (label_key * Histogram)) : list string :=
  match items with
  | [] => []
  | ((name, l), h) :: items' =>
      type_line "histogram" name seen
      ++ bucket_lines name l 0 _DEFAULT_BUCKETS (hg_buckets h)
      ++ [name ^+ "_bucket" ^+ _render_labels (l ++ [("le", "+Inf")]) ^+ " " ^+ pretty (hg_count h);
          name ^+ "_sum" ^+ _render_labels l ^+ " " ^+ show_total (hg_sum h);
          name ^+ "_count" ^+ _render_labels l ^+ " " ^+ pretty (hg_count h)]
      ++ render_histograms (name :: seen) items'
  end.
Definition by_key {V} (x y : label_key * V) : bool := key_leb x.1 y.1.
Definition render (m : Metrics) : string :=
  let '(lines, seen) := render_counters [] (py_sorted by_key (_counters m)) in
  join newline (lines ++ render_histograms seen (py_sorted by_key (_histograms m))) ^+ newline.
End render.

(** ** What the counts mean *)

(** A histogram counts each observation once: in one bucket, or in none when it
    exceeds the last bound. *)
Definition histogram_ok (h : Histogram) : Prop :=
  length (hg_buckets h) = length _DEFAULT_BUCKETS ∧ Forall (Z.le 0) (hg_buckets h) ∧
  foldr Z.add 0 (hg_buckets h) ≤ hg_count h.
Definition metrics_ok (m : Metrics) : Prop := Forall (λ kv, histogram_ok kv.2) (_histograms m).
Lemma bump_counts value bounds counts : Forall (Z.le 0) counts →
  length (bump value bounds counts) = length counts ∧ Forall (Z.le 0) (bump value bounds counts) ∧
  foldr Z.add 0 (bump value bounds counts) ≤ foldr Z.add 0 counts + 1.
Proof.
  revert counts. induction bounds as [|[b l] bounds IH]; intros counts Hc; [by destruct counts; cbn; split_and!; try lia|].
  destruct Hc as [|n counts Hn Hc]; [cbn; split_and!; [done|constructor|lia]|]. cbn.
  destruct (value <=? b); cbn.
  - split_and!; [done|constructor; [lia|done]|lia].
  - destruct (IH counts Hc) as (Hl & Hf & Hs). split_and!; [by rewrite Hl|by constructor|lia].
Qed.
Lemma observe_ok name value l m : metrics_ok m → metrics_ok (observe name value l m).
Proof.
  intros Hm. unfold metrics_ok, observe. cbn. set (key := (name, sorted_labels l)).
  set (state := default _ (dget key (_histograms m))).
  assert (Hst : histogram_ok state).
  { unfold state. destruct (dget key (_histograms m)) as [h|] eqn:Hget.
    - cbn. assert (Hin : (key, h) ∈ _histograms m).
      { clear Hm. induction (_histograms m) as [|[k v] d IH]; [done|]. cbn in Hget. case_decide.
        - injection Hget as <-. subst. by left.
        - right. auto. }
      by eapply (proj1 (Forall_forall _ _) Hm (key, h)).
    - cbn. split_and!; [done|by repeat constructor|done]. }
  destruct Hst as (Hl & Hf & Hs). destruct (bump_counts value _DEFAULT_BUCKETS _ Hf) as (Hl' & Hf' & Hs').
  assert (Hnew : histogram_ok (mkHistogram (bump value _DEFAULT_BUCKETS (hg_buckets state)) (hg_sum state + value)
    (hg_count state + 1))).
  { refine (conj (eq_trans Hl' Hl) (conj Hf' _)). cbn [hg_buckets hg_count]. lia. }
  clearbody state. clear -Hm Hnew. unfold metrics_ok in Hm. induction Hm as [|[k v] d Hk Hd IH]; cbn [dset].
  - constructor; [exact Hnew|constructor].
  - case_decide; constructor; [exact Hnew|exact Hd|exact Hk|exact IH].
Qed.
