(* ===== verification/Readiness.v ===== *)
(** * Liveness and readiness responses ([src/vinctor_service/health_checks.py])

    [/healthz] is answered from nothing but the method; [/readyz] asks the
    readiness check, a failure of which is "unavailable". *)
From S2P Require Import Prelude PyStr PyDict Models Json Http.

Definition health_response (method service_mode : string) : V1HttpResponse :=
  if negb (method == "GET") then _error 405 "method_not_allowed" "GET is required for /healthz"
  else mkV1HttpResponse 200
    [("status", JStr "ok"); ("service", JStr "vinctor-service"); ("mode", JStr service_mode)].
Definition readiness_response {S} (method : string) (readiness_check : M S bool) : M S V1HttpResponse :=
  if negb (method == "GET") then mret (_error 405 "method_not_allowed" "GET is required for /readyz")
  else
    ready ← try_except readiness_check (λ _, mret false);
    mret (mkV1HttpResponse (if ready : bool then 200 else 503)
      [("status", JStr (if ready : bool then "ready" else "unavailable"));
       ("service", JStr "vinctor-service")]).

(** * The bounded readiness probe ([src/vinctor_service/health_checks.py])

    [BoundedBackendProbe] runs a backend check on a worker thread, so that a
    check that never returns cannot hold [/readyz] open.  Its threads (the
    callers, the workers, the reclaimer and the one that closes it) interleave:
    the state is what they share and where each of them is, a critical section
    of the probe's lock is one step, and so is each access to an [Event] outside
    it.  What the backend answers, and when, is the scheduler's choice, as is
    whether a thread can be started.  Times are nanoseconds of one clock. *)

(** ** Configuration *)

Definition MAX_ABANDONED_READINESS_WORKERS : nat := 4.
Definition READINESS_PROBE_TIMEOUT_SECONDS : Z := 2000000000.
(** What [float] gives: a number of seconds, an infinity or NaN. *)
Inductive pyfloat := Finite (nanoseconds : Z) | NotFinite.
Definition resolve_readiness_timeout_seconds (float : string → result pyfloat) (env : dict string string) : Z :=
  match dget "VINCTOR_READINESS_PROBE_TIMEOUT_SECONDS" env with
  | None => READINESS_PROBE_TIMEOUT_SECONDS
  | Some raw =>
      match float raw with
      | Ok (Finite value) => if value <=? 0 then READINESS_PROBE_TIMEOUT_SECONDS else value
      | Ok NotFinite | Raise _ => READINESS_PROBE_TIMEOUT_SECONDS
      end
  end.

(** ** State *)

Record _Probe := mkProbe {
  pr_deadline : Z;
  pr_finished : bool;
  pr_ready : bool
}.
(** Where a worker is in [_serve]. *)
Inductive WorkerAt :=
  | AtTop
  | Parked
  | Woken
  | Cleared
  | Locking
  | Holding (probe : option nat)
  | Checking (probe : nat)
  | Checked (probe : nat) (ready dies : bool)
  | Publishing (probe : nat) (ready dies : bool)
  | Finishing (probe : nat) (dies : bool)
  | Leaving
  | Gone.
Record _Worker := mkWorker {
  wk_requested : bool;
  wk_idle : bool;
  wk_abandoned : bool;
  wk_counted : bool;
  wk_at : WorkerAt
}.
(** A worker's thread ends with the release of its slot: after it the thread runs
    nothing more, and the worker is no longer recorded. *)
Definition is_alive (x : _Worker) : bool := match wk_at x with Gone => false | _ => true end.
(** Where the reclaimer is in [_reclaim_loop]. *)
Inductive ReclaimerAt := RLoop | RWaiting | RWoken | RLocking | RCancelling | RSleeping | RGone.

(** The attributes of the object: probes, workers and reclaimers are named by
    their number, in the order of their creation. *)
Record BoundedBackendProbe := mkBackendProbe {
  bp_probes : list _Probe;
  bp_workers : list _Worker;
  bp_reclaimers : list ReclaimerAt;
  bp_probe : option nat;
  bp_worker : option nat;
  bp_reclaimer : option nat;
  bp_abandoned : nat;
  bp_abandoned_limit_hits : nat;
  bp_limit_reported : bool;
  bp_closed : bool;
  bp_reclaim : bool;
  bp_stopped : bool;
  bp_pending_report : option nat
}.
Definition new_backend_probe : BoundedBackendProbe :=
  mkBackendProbe [] [] [] None None None 0 0 false false false false None.

Definition set_probes v b := mkBackendProbe v (bp_workers b) (bp_reclaimers b) (bp_probe b) (bp_worker b)
  (bp_reclaimer b) (bp_abandoned b) (bp_abandoned_limit_hits b) (bp_limit_reported b) (bp_closed b) (bp_reclaim b)
  (bp_stopped b) (bp_pending_report b).
Definition set_workers v b := mkBackendProbe (bp_probes b) v (bp_reclaimers b) (bp_probe b) (bp_worker b)
  (bp_reclaimer b) (bp_abandoned b) (bp_abandoned_limit_hits b) (bp_limit_reported b) (bp_closed b) (bp_reclaim b)
  (bp_stopped b) (bp_pending_report b).
Definition set_reclaimers v r b := mkBackendProbe (bp_probes b) (bp_workers b) v (bp_probe b) (bp_worker b)
  r (bp_abandoned b) (bp_abandoned_limit_hits b) (bp_limit_reported b) (bp_closed b) (bp_reclaim b)
  (bp_stopped b) (bp_pending_report b).
Definition set_probe v b := mkBackendProbe (bp_probes b) (bp_workers b) (bp_reclaimers b) v (bp_worker b)
  (bp_reclaimer b) (bp_abandoned b) (bp_abandoned_limit_hits b) (bp_limit_reported b) (bp_closed b) (bp_reclaim b)
  (bp_stopped b) (bp_pending_report b).
Definition set_worker v b := mkBackendProbe (bp_probes b) (bp_workers b) (bp_reclaimers b) (bp_probe b) v
  (bp_reclaimer b) (bp_abandoned b) (bp_abandoned_limit_hits b) (bp_limit_reported b) (bp_closed b) (bp_reclaim b)
  (bp_stopped b) (bp_pending_report b).
Definition set_abandoned v b := mkBackendProbe (bp_probes b) (bp_workers b) (bp_reclaimers b) (bp_probe b)
  (bp_worker b) (bp_reclaimer b) v (bp_abandoned_limit_hits b) (bp_limit_reported b) (bp_closed b) (bp_reclaim b)
  (bp_stopped b) (bp_pending_report b).
Definition set_limit hits reported b := mkBackendProbe (bp_probes b) (bp_workers b) (bp_reclaimers b) (bp_probe b)
  (bp_worker b) (bp_reclaimer b) (bp_abandoned b) hits reported (bp_closed b) (bp_reclaim b)
  (bp_stopped b) (bp_pending_report b).
Definition set_reclaim v b := mkBackendProbe (bp_probes b) (bp_workers b) (bp_reclaimers b) (bp_probe b)
  (bp_worker b) (bp_reclaimer b) (bp_abandoned b) (bp_abandoned_limit_hits b) (bp_limit_reported b) (bp_closed b) v
  (bp_stopped b) (bp_pending_report b).
Definition set_stopped v b := mkBackendProbe (bp_probes b) (bp_workers b) (bp_reclaimers b) (bp_probe b)
  (bp_worker b) (bp_reclaimer b) (bp_abandoned b) (bp_abandoned_limit_hits b) (bp_limit_reported b) (bp_closed b)
  (bp_reclaim b) v (bp_pending_report b).
Definition set_pending_report v b := mkBackendProbe (bp_probes b) (bp_workers b) (bp_reclaimers b) (bp_probe b)
  (bp_worker b) (bp_reclaimer b) (bp_abandoned b) (bp_abandoned_limit_hits b) (bp_limit_reported b) (bp_closed b)
  (bp_reclaim b) (bp_stopped b) v.
Definition set_closed b := mkBackendProbe (bp_probes b) (bp_workers b) (bp_reclaimers b) (bp_probe b)
  None None (bp_abandoned b) (bp_abandoned_limit_hits b) (bp_limit_reported b) true
  (bp_reclaim b) (bp_stopped b) (bp_pending_report b).

Definition on_worker (w : nat) (f : _Worker → _Worker) (b : BoundedBackendProbe) : BoundedBackendProbe :=
  set_workers (alter f w (bp_workers b)) b.
Definition move (at_ : WorkerAt) (x : _Worker) : _Worker :=
  mkWorker (wk_requested x) (wk_idle x) (wk_abandoned x) (wk_counted x) at_.
Definition request (v : bool) (x : _Worker) : _Worker :=
  mkWorker v (wk_idle x) (wk_abandoned x) (wk_counted x) (wk_at x).
Definition idles (v : bool) (x : _Worker) : _Worker :=
  mkWorker (wk_requested x) v (wk_abandoned x) (wk_counted x) (wk_at x).
Definition abandon (x : _Worker) : _Worker :=
  mkWorker (wk_requested x) (wk_idle x) true (wk_counted x) (wk_at x).
Definition count_as (v : bool) (x : _Worker) : _Worker :=
  mkWorker (wk_requested x) (wk_idle x) (wk_abandoned x) v (wk_at x).
Definition new_worker : _Worker := mkWorker false false false false AtTop.

Section sections.
Context (timeout_seconds : Z) (max_abandoned_workers : nat) (has_cancel : bool).

(** ** The critical sections

    [started] and [reclaimer_started] say whether [Thread.start] succeeds. *)

Definition _start_worker (started : bool) (b : BoundedBackendProbe) : option nat * BoundedBackendProbe :=
  if started then
    let w := length (bp_workers b) in
    (Some w, set_limit (bp_abandoned_limit_hits b) false (set_worker (Some w)
               (set_workers (bp_workers b ++ [new_worker]) b)))
  else (None, b).
Definition reclaimer_alive (b : BoundedBackendProbe) : bool :=
  match r ← bp_reclaimer b; bp_reclaimers b !! r with
  | None | Some RGone => false
  | Some _ => true
  end.
Definition _wake_reclaimer (started : bool) (b : BoundedBackendProbe) : BoundedBackendProbe :=
  if negb has_cancel || bp_closed b then b
  else
    let b := set_reclaim true b in
    if reclaimer_alive b then b
    else if started then set_reclaimers (bp_reclaimers b ++ [RLoop]) (Some (length (bp_reclaimers b))) b
    else b.
Definition _report_limit (b : BoundedBackendProbe) : option nat * BoundedBackendProbe :=
  if bp_limit_reported b then (None, b)
  else (Some (bp_abandoned b), set_limit (bp_abandoned_limit_hits b) true b).
Definition _servicing_worker (started reclaimer_started : bool) (b : BoundedBackendProbe) :
    option nat * BoundedBackendProbe :=
  match w ← bp_worker b; x ← bp_workers b !! w; Some (w, x) with
  | None => _start_worker started b
  | Some (w, x) =>
      if wk_idle x then (Some w, b)
      else if is_alive x && (max_abandoned_workers <=? bp_abandoned b)%nat then
        let '(report, b) := _report_limit (set_limit (S (bp_abandoned_limit_hits b)) (bp_limit_reported b) b) in
        (None, _wake_reclaimer reclaimer_started (set_pending_report report b))
      else
        let b := on_worker w (λ x, request true (abandon x)) (set_worker None b) in
        let b := if is_alive x
                 then _wake_reclaimer reclaimer_started
                        (on_worker w (count_as true) (set_abandoned (S (bp_abandoned b)) b))
                 else b in
        _start_worker started b
  end.
Definition live_probe (now : Z) (b : BoundedBackendProbe) : option nat :=
  p ← bp_probe b; probe ← bp_probes b !! p;
  if pr_finished probe || (pr_deadline probe <=? now) then None else Some p.
(** The locked part of [__call__]: the probe to wait for, if any, and the line to
    report on standard error. *)
Definition call_section (now : Z) (started reclaimer_started : bool) (b : BoundedBackendProbe) :
    option nat * option nat * BoundedBackendProbe :=
  if bp_closed b then (None, None, b)
  else
    match live_probe now b with
    | Some p => (Some p, None, b)
    | None =>
        let '(worker, b) := _servicing_worker started reclaimer_started b in
        let report := bp_pending_report b in
        let b := set_pending_report None b in
        match worker with
        | None => (None, report, b)
        | Some w =>
            let p := length (bp_probes b) in
            (Some p, report,
             on_worker w (request true) (set_probe (Some p)
               (set_probes (bp_probes b ++ [mkProbe (now + timeout_seconds) false false]) b)))
        end
    end.
Definition _release_worker (w : nat) (b : BoundedBackendProbe) : BoundedBackendProbe :=
  let counted := match bp_workers b !! w with Some x => wk_counted x | None => false end in
  let b := if counted
           then set_limit (bp_abandoned_limit_hits b) false
                  (set_abandoned (pred (bp_abandoned b)) (on_worker w (count_as false) b))
           else b in
  if bool_decide (bp_worker b = Some w) then set_worker None b else b.

(** ** The threads *)

(** A caller of the probe, with the time of its call. *)
Inductive CallerAt := Waiting (probe : nat) | Answered (answer : bool).
(** Where the thread that closes the probe is, with the worker it found. *)
Inductive CloserAt := CStop (worker : option nat) | CReclaim (worker : option nat) | CAbandon (worker : nat)
  | CRequest (worker : nat) | CDone.

(** What is recorded besides: the checks that were started, with the time, and
    those that returned, with what they returned. *)
Record System := mkSystem {
  sy_backend_probe : BoundedBackendProbe;
  sy_now : Z;
  sy_callers : list (Z * CallerAt);
  sy_closers : list CloserAt;
  sy_started : list (nat * Z);
  sy_results : list (nat * bool);
  sy_reports : list nat
}.
Definition new_system (now : Z) : System := mkSystem new_backend_probe now [] [] [] [] [].
Definition with_bp (b : BoundedBackendProbe) (s : System) : System :=
  mkSystem b (sy_now s) (sy_callers s) (sy_closers s) (sy_started s) (sy_results s) (sy_reports s).
Definition set_caller (c : nat) (v : Z * CallerAt) (s : System) : System :=
  mkSystem (sy_backend_probe s) (sy_now s) (<[c := v]> (sy_callers s)) (sy_closers s) (sy_started s) (sy_results s)
    (sy_reports s).
Definition set_closer (c : nat) (v : CloserAt) (s : System) : System :=
  mkSystem (sy_backend_probe s) (sy_now s) (sy_callers s) (<[c := v]> (sy_closers s)) (sy_started s) (sy_results s)
    (sy_reports s).
Definition log_start (p : nat) (s : System) : System :=
  mkSystem (sy_backend_probe s) (sy_now s) (sy_callers s) (sy_closers s) (sy_started s ++ [(p, sy_now s)])
    (sy_results s) (sy_reports s).
Definition log_result (p : nat) (ready : bool) (s : System) : System :=
  mkSystem (sy_backend_probe s) (sy_now s) (sy_callers s) (sy_closers s) (sy_started s)
    (sy_results s ++ [(p, ready)]) (sy_reports s).

(** [__call__]: the section, then the wait. *)
Definition call (started reclaimer_started : bool) (s : System) : System :=
  let '(probe, report, b) := call_section (sy_now s) started reclaimer_started (sy_backend_probe s) in
  mkSystem b (sy_now s)
    (sy_callers s ++ [(sy_now s, match probe with Some p => Waiting p | None => Answered false end)])
    (sy_closers s) (sy_started s) (sy_results s)
    (sy_reports s ++ match report with Some n => [n] | None => [] end).
Definition probe_of (p : nat) (s : System) : option _Probe := bp_probes (sy_backend_probe s) !! p.
Definition worker_of (w : nat) (s : System) : option _Worker := bp_workers (sy_backend_probe s) !! w.
Definition wait (c : nat) (s : System) : option System :=
  match sy_callers s !! c with
  | Some (called, Waiting p) =>
      probe ← probe_of p s;
      if pr_finished probe then Some (set_caller c (called, Answered (pr_ready probe)) s)
      else if pr_deadline probe <=? sy_now s then Some (set_caller c (called, Answered false) s)
      else None
  | _ => None
  end.

(** What the check does when it comes back. *)
Inductive Reply := Returns (ready : bool) | RaisesException | RaisesBaseException.
Definition reply_ready (r : Reply) : bool := match r with Returns ready => ready | _ => false end.
Definition reply_dies (r : Reply) : bool := match r with RaisesBaseException => true | _ => false end.
(** A step of [_serve]: [None] when the worker is blocked or gone. *)
Definition serve_step (w : nat) (reply : Reply) (s : System) : option System :=
  let b := sy_backend_probe s in
  let goes f := with_bp (on_worker w f b) s in
  x ← worker_of w s;
  match wk_at x with
  | AtTop => Some (goes (λ x, move Parked (idles true x)))
  | Parked => if wk_requested x then Some (goes (move Woken)) else None
  | Woken => Some (goes (λ x, move Cleared (request false x)))
  | Cleared => Some (goes (λ x, move Locking (idles false x)))
  | Locking =>
      Some (goes (move (if bp_closed b || wk_abandoned x then Leaving else Holding (bp_probe b))))
  | Holding None => Some (goes (move AtTop))
  | Holding (Some p) =>
      probe ← probe_of p s;
      Some (if pr_finished probe then goes (move AtTop) else log_start p (goes (move (Checking p))))
  | Checking p => Some (log_result p (reply_ready reply) (goes (move (Checked p (reply_ready reply) (reply_dies reply)))))
  | Checked p ready dies => Some (goes (λ x, move (Publishing p ready dies) (idles true x)))
  | Publishing p ready dies =>
      Some (with_bp (set_probes (alter (λ q, mkProbe (pr_deadline q) (pr_finished q) ready) p (bp_probes b))
                       (on_worker w (move (Finishing p dies)) b)) s)
  | Finishing p dies =>
      Some (with_bp (set_probes (alter (λ q, mkProbe (pr_deadline q) true (pr_ready q)) p (bp_probes b))
                       (on_worker w (move (if dies then Leaving else AtTop)) b)) s)
  | Leaving => Some (with_bp (on_worker w (move Gone) (_release_worker w b)) s)
  | Gone => None
  end.

(** A step of [_reclaim_loop]; cancelling changes nothing here: what it makes the
    backend do is the check's reply. *)
Definition reclaim_step (r : nat) (s : System) : option System :=
  let b := sy_backend_probe s in
  let goes at_ b := Some (with_bp (set_reclaimers (<[r := at_]> (bp_reclaimers b)) (bp_reclaimer b) b) s) in
  at_ ← bp_reclaimers b !! r;
  match at_ with
  | RLoop => goes (if bp_stopped b then RGone else RWaiting) b
  | RWaiting => if bp_reclaim b then goes RWoken b else None
  | RWoken => goes (if bp_stopped b then RGone else RLocking) b
  | RLocking => if (bp_abandoned b =? 0)%nat then goes RLoop (set_reclaim false b) else goes RCancelling b
  | RCancelling => goes RSleeping b
  | RSleeping => goes RLoop b
  | RGone => None
  end.

(** [close]: the section, then what the closing thread does; the joins it ends
    with change nothing. *)
Definition close (s : System) : System :=
  let b := sy_backend_probe s in
  if bp_closed b then s
  else mkSystem (set_closed b) (sy_now s) (sy_callers s) (sy_closers s ++ [CStop (bp_worker b)]) (sy_started s)
         (sy_results s) (sy_reports s).
Definition close_step (c : nat) (s : System) : option System :=
  let b := sy_backend_probe s in
  at_ ← sy_closers s !! c;
  match at_ with
  | CStop worker => Some (set_closer c (CReclaim worker) (with_bp (set_stopped true b) s))
  | CReclaim worker =>
      Some (set_closer c (match worker with Some w => CAbandon w | None => CDone end)
              (with_bp (set_reclaim true b) s))
  | CAbandon w => Some (set_closer c (CRequest w) (with_bp (on_worker w abandon b) s))
  | CRequest w => Some (set_closer c CDone (with_bp (on_worker w (request true) b) s))
  | CDone => None
  end.
Definition tick (d : Z) (s : System) : System :=
  mkSystem (sy_backend_probe s) (sy_now s + d) (sy_callers s) (sy_closers s) (sy_started s) (sy_results s)
    (sy_reports s).

Inductive probe_step : System → System → Prop :=
  | step_call started reclaimer_started s : probe_step s (call started reclaimer_started s)
  | step_wait c s s' : wait c s = Some s' → probe_step s s'
  | step_serve w reply s s' : serve_step w reply s = Some s' → probe_step s s'
  | step_reclaim r s s' : reclaim_step r s = Some s' → probe_step s s'
  | step_close s : probe_step s (close s)
  | step_closing c s s' : close_step c s = Some s' → probe_step s s'
  | step_tick d s : 0 <= d → probe_step s (tick d s).
End sections.
