(* ===== verification/ReadinessSafe.v ===== *)
(** * What the readiness probe guarantees

    In every state its threads can reach, however they interleave and whatever
    the backend does: the workers are bounded, no check is started twice, a
    caller's wait is bounded, and a positive answer is a recent positive answer
    of the backend. *)
From S2P Require Import Prelude PyDict Readiness.

(** ** Lists of threads *)

Definition counted_in (l : list _Worker) : nat := length (List.filter wk_counted l).
#[local] Arguments counted_in : simpl never.
Lemma lookup_alter_inv {A} (f : A → A) w (l : list A) v (y : A) : alter f w l !! v = Some y →
  (v ≠ w ∧ l !! v = Some y) ∨ (v = w ∧ ∃ x, l !! w = Some x ∧ y = f x).
Proof.
  destruct (decide (v = w)) as [->|Hne].
  - rewrite list_lookup_alter_eq. intros (x & Hx & ->)%fmap_Some. right. eauto.
  - rewrite list_lookup_alter_ne by done. auto.
Qed.
Lemma lookup_snoc_inv {A} (l : list A) v (x y : A) : (l ++ [x]) !! v = Some y → l !! v = Some y ∨ (v = length l ∧ y = x).
Proof.
  intros [Hv|[Hv Hy]]%lookup_app_Some; [by left|]. right.
  destruct (v - length l)%nat as [|n] eqn:E; [|done]. injection Hy as ->. split; [lia|done].
Qed.
Lemma counted_alter f w l x : l !! w = Some x →
  (counted_in (alter f w l) + Nat.b2n (wk_counted x) = counted_in l + Nat.b2n (wk_counted (f x)))%nat.
Proof.
  unfold counted_in. revert w. induction l as [|y l IH]; intros [|w] Hx; [done..| |].
  - injection Hx as ->. cbn. destruct (wk_counted x), (wk_counted (f x)); cbn; lia.
  - specialize (IH w Hx). cbn. destruct (wk_counted y); cbn in *; lia.
Qed.
Lemma counted_snoc l x : counted_in (l ++ [x]) = (counted_in l + Nat.b2n (wk_counted x))%nat.
Proof. unfold counted_in. rewrite List.filter_app, length_app. cbn. by destruct (wk_counted x). Qed.
Lemma alter_same {A} (f : A → A) w (l : list A) : (∀ x, l !! w = Some x → f x = x) → alter f w l = l.
Proof.
  intros Hf. apply list_eq. intros v. destruct (decide (v = w)) as [->|Hne].
  - rewrite list_lookup_alter_eq. destruct (l !! w) as [x|]; [|done]. cbn. by rewrite Hf.
  - by rewrite list_lookup_alter_ne.
Qed.
Lemma alter_twice {A} (f g : A → A) w (l : list A) : alter g w (alter f w l) = alter (λ x, g (f x)) w l.
Proof.
  apply list_eq. intros v. destruct (decide (v = w)) as [->|Hne].
  - rewrite !list_lookup_alter_eq. by destruct (l !! w).
  - by rewrite !list_lookup_alter_ne.
Qed.
Lemma counted_same f w l : (∀ x, l !! w = Some x → wk_counted (f x) = wk_counted x) →
  counted_in (alter f w l) = counted_in l.
Proof.
  intros Hf. destruct (l !! w) as [x|] eqn:Hx.
  - pose proof (counted_alter f w l x Hx) as Hc. rewrite (Hf x eq_refl) in Hc. lia.
  - by rewrite alter_same by (intros y Hy; congruence).
Qed.

Section safe.
Context (timeout_seconds : Z) (max_abandoned_workers : nat) (has_cancel : bool).
Abbreviation workers b := (bp_workers b).

(** ** The workers

    A worker that has not gone is counted as abandoned, or is the recorded one, or
    is the one the closing thread found. *)
Definition uncounted (x : _Worker) : Prop := is_alive x = true ∧ wk_counted x = false.
Record workers_ok (b : BoundedBackendProbe) : Prop := {
  wo_count : bp_abandoned b = counted_in (workers b);
  wo_cap : (bp_abandoned b ≤ max_abandoned_workers)%nat;
  wo_counted w x : workers b !! w = Some x → wk_counted x = true → wk_abandoned x = true ∧ is_alive x = true;
  wo_recorded w : bp_worker b = Some w → bp_closed b = false ∧
    ∃ x, workers b !! w = Some x ∧ uncounted x ∧ wk_abandoned x = false;
  wo_live w x : bp_closed b = false → workers b !! w = Some x → uncounted x → bp_worker b = Some w;
  wo_one w w' x x' : workers b !! w = Some x → workers b !! w' = Some x' → uncounted x → uncounted x' → w = w'
}.

(** Only these attributes matter to it. *)
Lemma workers_ok_ext b b' : workers_ok b → workers b' = workers b → bp_worker b' = bp_worker b →
  bp_abandoned b' = bp_abandoned b → bp_closed b' = bp_closed b → workers_ok b'.
Proof.
  intros [Hc Hm Hk Hr Hl Ho] Ew Er Ea Ecl.
  split; rewrite ?Ew, ?Er, ?Ea, ?Ecl; eauto.
Qed.
Lemma workers_ok_move f w b : workers_ok b →
  (∀ x, workers b !! w = Some x → wk_counted (f x) = wk_counted x ∧ is_alive (f x) = is_alive x ∧
     (wk_abandoned (f x) = wk_abandoned x ∨ wk_abandoned (f x) = true ∧ bp_closed b = true)) →
  workers_ok (on_worker w f b).
Proof.
  intros [Hc Hm Hk Hr Hl Ho] Hf.
  assert (Hun : ∀ v y, workers (on_worker w f b) !! v = Some y → ∃ x, workers b !! v = Some x ∧
    wk_counted y = wk_counted x ∧ is_alive y = is_alive x ∧
    (wk_abandoned y = wk_abandoned x ∨ wk_abandoned y = true ∧ bp_closed b = true)).
  { intros v y [[_ Hv]|(-> & x & Hx & ->)]%lookup_alter_inv; [exists y; auto|]. exists x. split; [done|by apply Hf]. }
  split; cbn.
  - by rewrite counted_same by (intros x Hx; by apply Hf).
  - done.
  - intros v y (x & Hx & Ec & Ea & Eb)%Hun Hy. rewrite Ec in Hy. destruct (Hk v x Hx Hy) as [Hb Halive].
    rewrite Ea. split; [destruct Eb as [->|[-> _]]; done|done].
  - intros v (Hcl & x & Hx & [Hu1 Hu2] & Hb)%Hr. split; [done|].
    destruct (workers (on_worker w f b) !! v) as [y|] eqn:Hy.
    + exists y. split; [done|]. destruct (Hun v y Hy) as (x' & Hx' & Ec & Ea & Eb).
      rewrite Hx' in Hx. injection Hx as ->. unfold uncounted. rewrite Ec, Ea.
      destruct Eb as [->|[_ Hbad]]; [done|congruence].
    + exfalso. apply lookup_ge_None in Hy. cbn in Hy. rewrite length_alter in Hy. apply lookup_lt_Some in Hx. lia.
  - intros v y Hcl (x & Hx & Ec & Ea & _)%Hun [Hu1 Hu2]. apply (Hl v x Hcl Hx). split; congruence.
  - intros v v' y y' (x & Hx & Ec & Ea & _)%Hun (x' & Hx' & Ec' & Ea' & _)%Hun [Hu1 Hu2] [Hu1' Hu2'].
    apply (Ho v v' x x' Hx Hx'); split; congruence.
Qed.
Lemma workers_ok_started b : workers_ok b → bp_worker b = None → bp_closed b = false →
  workers_ok (set_worker (Some (length (workers b))) (set_workers (workers b ++ [new_worker]) b)).
Proof.
  intros [Hc Hm Hk Hr Hl Ho] Hnone Hcl.
  assert (Hold : ∀ v x, workers b !! v = Some x → ¬ uncounted x).
  { intros v x Hx Hu. by rewrite (Hl v x Hcl Hx Hu) in Hnone. }
  split; cbn.
  - rewrite counted_snoc. cbn. lia.
  - done.
  - intros v x [Hx|[_ ->]]%lookup_snoc_inv; [by apply (Hk v x)|done].
  - intros v [= <-]. split; [done|]. exists new_worker. rewrite list_lookup_middle by done. done.
  - intros v x _ [Hx|[-> _]]%lookup_snoc_inv Hu; [by destruct (Hold v x Hx)|done].
  - intros v v' x x' [Hx|[-> _]]%lookup_snoc_inv [Hx'|[-> _]]%lookup_snoc_inv Hu Hu'; [..|done].
    all: first [by destruct (Hold _ _ Hx) | by destruct (Hold _ _ Hx')].
Qed.
(** The recorded worker is abandoned, counted. *)
Lemma workers_ok_abandoned w x b : workers_ok b → bp_worker b = Some w → workers b !! w = Some x →
  (bp_abandoned b < max_abandoned_workers)%nat →
  workers_ok (on_worker w (λ x, count_as true (request true (abandon x)))
                (set_abandoned (S (bp_abandoned b)) (set_worker None b))).
Proof.
  intros [Hc Hm Hk Hr Hl Ho] Hw Hx Hlt. destruct (Hr w Hw) as (Hcl & x0 & Hx0 & [Hu1 Hu2] & Hb).
  rewrite Hx in Hx0. injection Hx0 as <-.
  assert (Hold : ∀ v y, v ≠ w → workers b !! v = Some y → ¬ uncounted y).
  { intros v y Hne Hy Hu. apply Hne. apply (Ho v w y x Hy Hx Hu). done. }
  split; cbn.
  - pose proof (counted_alter (λ x, count_as true (request true (abandon x))) w (workers b) x Hx) as Hca.
    rewrite Hu2 in Hca. cbn in Hca. lia.
  - lia.
  - intros v y [[Hne Hy]|(-> & x' & Hx' & ->)]%lookup_alter_inv Hyc; [by apply (Hk v y)|].
    split; [done|]. rewrite Hx in Hx'. by injection Hx' as <-.
  - done.
  - intros v y _ [[Hne Hy]|(-> & x' & Hx' & ->)]%lookup_alter_inv Hu; [by destruct (Hold v y Hne Hy)|by destruct Hu].
  - intros v v' y y' [[Hne Hy]|(-> & x' & Hx' & ->)]%lookup_alter_inv _ Hu; [by destruct (Hold v y Hne Hy)|by destruct Hu].
Qed.
Lemma workers_ok_closed b : workers_ok b → workers_ok (set_closed b).
Proof. intros [Hc Hm Hk Hr Hl Ho]. split; cbn; eauto; done. Qed.
(** A worker that leaves gives its slot back. *)
Lemma workers_ok_released w x b : workers_ok b → workers b !! w = Some x → is_alive x = true →
  workers_ok (on_worker w (move Gone) (_release_worker w b)).
Proof.
  intros [Hc Hm Hk Hr Hl Ho] Hx Halive.
  set (b' := on_worker w (move Gone) (_release_worker w b)).
  assert (Hws : workers b' = alter (λ x, count_as false (move Gone x)) w (workers b)).
  { unfold b', _release_worker. rewrite Hx. destruct (wk_counted x) eqn:Hxc; case_bool_decide; cbn.
    all: rewrite ?alter_twice; apply list_alter_ext; [|done]; intros y Hy; try done.
    all: rewrite Hx in Hy; injection Hy as <-; unfold count_as, move; cbn; by rewrite Hxc. }
  assert (Hwk : bp_worker b' = if decide (bp_worker b = Some w) then None else bp_worker b).
  { unfold b', _release_worker. rewrite Hx. destruct (wk_counted x); repeat case_decide; by case_bool_decide. }
  assert (Hcl : bp_closed b' = bp_closed b).
  { unfold b', _release_worker. rewrite Hx. destruct (wk_counted x); by case_bool_decide. }
  assert (Hab : bp_abandoned b' = (bp_abandoned b - Nat.b2n (wk_counted x))%nat).
  { unfold b', _release_worker. rewrite Hx. destruct (wk_counted x); case_bool_decide; cbn; lia. }
  assert (Hold : ∀ v y, workers b' !! v = Some y → (v ≠ w ∧ workers b !! v = Some y) ∨
    (v = w ∧ wk_counted y = false ∧ is_alive y = false)).
  { rewrite Hws. intros v y [[Hne Hy]|(-> & z & _ & ->)]%lookup_alter_inv; [by left|by right]. }
  clearbody b'. split.
  - rewrite Hws, Hab. pose proof (counted_alter (λ x, count_as false (move Gone x)) w (workers b) x Hx) as Hca.
    cbn in Hca. lia.
  - lia.
  - intros v y [[Hne Hy]|(_ & Hy & _)]%Hold Hyc; [by apply (Hk v y)|congruence].
  - rewrite Hwk. destruct (decide (bp_worker b = Some w)) as [|Hne]; [done|]. intros v Hv.
    destruct (Hr v Hv) as (Hcl' & y & Hy & Hu). rewrite Hcl. split; [done|]. exists y. split; [|done].
    rewrite Hws, list_lookup_alter_ne by (intros ->; congruence). done.
  - rewrite Hcl. intros v y Hcl' [[Hne Hy]|(_ & _ & Hdead)]%Hold Hu; [|by destruct Hu; congruence].
    rewrite Hwk. pose proof (Hl v y Hcl' Hy Hu) as Hv. destruct (decide (bp_worker b = Some w)); congruence.
  - intros v v' y y' [[Hne Hy]|(_ & _ & Hdead)]%Hold [[Hne' Hy']|(_ & _ & Hdead')]%Hold Hu Hu'.
    + by apply (Ho v v' y y').
    + destruct Hu'. congruence.
    + destruct Hu. congruence.
    + destruct Hu. congruence.
Qed.

(** ** The critical sections *)

(** Where each worker is. *)
Definition at_of (b : BoundedBackendProbe) (w : nat) : option WorkerAt := wk_at <$> workers b !! w.
(** The worker stays where it is, or it is a new one. *)
Definition stays_at (b b' : BoundedBackendProbe) : Prop :=
  ∀ w, at_of b' w = at_of b w ∨ (at_of b w = None ∧ at_of b' w = Some AtTop).
Lemma at_of_on_worker f w b v : at_of (on_worker w f b) v =
  if decide (v = w) then (λ x, wk_at (f x)) <$> workers b !! w else at_of b v.
Proof.
  unfold at_of, on_worker. cbn. destruct (decide (v = w)) as [->|Hne].
  - rewrite list_lookup_alter_eq. by destruct (workers b !! w).
  - by rewrite list_lookup_alter_ne.
Qed.
Lemma at_of_same f w b v : (∀ x, wk_at (f x) = wk_at x) → at_of (on_worker w f b) v = at_of b v.
Proof.
  intros Hf. rewrite at_of_on_worker. case_decide as Hv; [subst v|done].
  unfold at_of. destruct (workers b !! w); [|done]. cbn. by rewrite Hf.
Qed.

(** What waking the reclaimer leaves alone, and that it wakes it. *)
Lemma wake_reclaimer_frame started b : let b' := _wake_reclaimer has_cancel started b in
  workers b' = workers b ∧ bp_worker b' = bp_worker b ∧ bp_abandoned b' = bp_abandoned b ∧
  bp_closed b' = bp_closed b ∧ bp_probes b' = bp_probes b ∧ bp_probe b' = bp_probe b ∧
  (bp_reclaim b = true → bp_reclaim b' = true) ∧
  (has_cancel = true → bp_closed b = false → bp_reclaim b' = true).
Proof.
  unfold _wake_reclaimer. destruct has_cancel, (bp_closed b) eqn:Hc; cbn; try by repeat split.
  destruct (reclaimer_alive _); [by repeat split|]. destruct started; by repeat split.
Qed.
(** The reclaimer is awake while there is anything to reclaim. *)
Definition awake (b : BoundedBackendProbe) : Prop :=
  has_cancel = true → bp_closed b = false → (0 < bp_abandoned b)%nat → bp_reclaim b = true.

Record served (b b' : BoundedBackendProbe) (worker : option nat) : Prop := {
  sv_workers : workers_ok b';
  sv_awake : awake b';
  sv_stays : stays_at b b';
  sv_probes : bp_probes b' = bp_probes b;
  sv_probe : bp_probe b' = bp_probe b;
  sv_closed : bp_closed b' = bp_closed b;
  sv_worker : worker = None → bp_worker b' = bp_worker b ∨ bp_worker b' = None
}.
Lemma start_worker_served started b worker b' b0 : workers_ok b → awake b → bp_worker b = None → bp_closed b = false →
  stays_at b0 b → bp_probes b = bp_probes b0 → bp_probe b = bp_probe b0 → bp_closed b = bp_closed b0 →
  _start_worker started b = (worker, b') → served b0 b' worker.
Proof.
  unfold _start_worker. intros Hok Haw Hn Hcl Hst Hp Hpr Hc0. destruct started; intros [= <- <-].
  - pose proof (workers_ok_started b Hok Hn Hcl) as Hs. split; cbn; try done.
    + by apply (workers_ok_ext _ _ Hs).
    + intros v. destruct (Hst v) as [E|[E1 E2]].
      * unfold at_of in *. cbn. destruct (decide (v = length (workers b))) as [->|Hne].
        -- right. rewrite (lookup_ge_None_2 (workers b)) in E by done. rewrite <- E.
           by rewrite list_lookup_middle.
        -- left. rewrite <- E. destruct (decide (v < length (workers b))%nat).
           ++ by rewrite lookup_app_l.
           ++ rewrite !lookup_ge_None_2; [done|lia|]. rewrite length_app. cbn. lia.
      * right. split; [done|]. unfold at_of in *. cbn. rewrite lookup_app_l; [done|].
        apply (lookup_lt_is_Some (workers b)). destruct (workers b !! v); [eauto|done].
  - split; try done. by right.
Qed.
Lemma servicing_worker_served started rstarted b worker b' : workers_ok b → awake b → bp_closed b = false →
  _servicing_worker max_abandoned_workers has_cancel started rstarted b = (worker, b') → served b b' worker.
Proof.
  intros Hok Haw Hcl. unfold _servicing_worker.
  destruct (bp_worker b) as [w|] eqn:Hw.
  2: { cbn. intros Hs. apply (start_worker_served started b worker b' b); try done. intros v. by left. }
  destruct (wo_recorded b Hok w Hw) as (_ & x & Hx & [Halive Hcount] & Hab). cbn. rewrite Hx. cbn.
  destruct (wk_idle x); [intros [= <- <-]; split; try done; by left|]. rewrite Halive. cbn [andb].
  destruct (Nat.leb_spec max_abandoned_workers (bp_abandoned b)) as [Hmax|Hmax].
  - unfold _report_limit. set (b1 := set_limit _ _ b).
    assert (Hdone : ∀ report b2, (if bp_limit_reported b1 then (None, b1)
        else (Some (bp_abandoned b1), set_limit (bp_abandoned_limit_hits b1) true b1)) = (report, b2) →
      served b (_wake_reclaimer has_cancel rstarted (set_pending_report report b2)) None).
    { intros report b2 Hrep.
      assert (E : workers b2 = workers b ∧ bp_worker b2 = bp_worker b ∧ bp_abandoned b2 = bp_abandoned b ∧
        bp_closed b2 = bp_closed b ∧ bp_probes b2 = bp_probes b ∧ bp_probe b2 = bp_probe b ∧ bp_reclaim b2 = bp_reclaim b).
      { destruct (bp_limit_reported b1); injection Hrep as <- <-; by repeat split. }
      destruct E as (E1 & E2 & E3 & E4 & E5 & E6 & E7).
      destruct (wake_reclaimer_frame rstarted (set_pending_report report b2)) as (F1 & F2 & F3 & F4 & F5 & F6 & F7 & F8).
      cbn in *. split.
      - apply (workers_ok_ext b); congruence.
      - intros Hhc Hc' Hpos. apply F7. rewrite E7. apply Haw; congruence.
      - intros v. left. unfold at_of. by rewrite F1, E1.
      - congruence.
      - congruence.
      - congruence.
      - left. congruence. }
    destruct (if bp_limit_reported b1 then _ else _) as [report b2] eqn:Hrep.
    intros [= <- <-]. by apply Hdone.
  - set (b1 := set_abandoned _ _). set (b2 := on_worker w (count_as true) b1).
    destruct (wake_reclaimer_frame rstarted b2) as (F1 & F2 & F3 & F4 & F5 & F6 & F7 & F8).
    set (b3 := _wake_reclaimer has_cancel rstarted b2) in *. intros Hs.
    assert (E1 : workers b2 = workers (on_worker w (λ x, count_as true (request true (abandon x)))
                (set_abandoned (S (bp_abandoned b)) (set_worker None b)))).
    { cbn. apply alter_twice. }
    assert (Hok3 : workers_ok b3).
    { apply (workers_ok_ext _ _ (workers_ok_abandoned w x b Hok Hw Hx Hmax)); [by rewrite F1, E1|..]; cbn in *; congruence. }
    apply (start_worker_served started b3 worker b' b Hok3); try done.
    + intros Hhc _ _. by apply F8.
    + by rewrite F4.
    + intros v. left. unfold at_of. rewrite F1, E1. by apply (at_of_same (λ x, count_as true (request true (abandon x)))).
Qed.

(** The section of a call gives no probe, the live one, or a new one. *)
Inductive called (now : Z) (b b' : BoundedBackendProbe) : option nat → Prop :=
  | called_none : bp_probes b' = bp_probes b → bp_probe b' = bp_probe b →
      (bp_worker b' = bp_worker b ∨ bp_worker b' = None) → called now b b' None
  | called_live p : live_probe now b = Some p → b' = b → called now b b' (Some p)
  | called_new : bp_probes b' = bp_probes b ++ [mkProbe (now + timeout_seconds) false false] →
      bp_probe b' = Some (length (bp_probes b)) → called now b b' (Some (length (bp_probes b))).
Lemma call_section_spec now started rstarted b probe report b' : workers_ok b → awake b →
  call_section timeout_seconds max_abandoned_workers has_cancel now started rstarted b = (probe, report, b') →
  workers_ok b' ∧ awake b' ∧ stays_at b b' ∧ bp_closed b' = bp_closed b ∧ called now b b' probe.
Proof.
  intros Hok Haw. unfold call_section.
  assert (Hsame : stays_at b b) by (intros v; by left).
  destruct (bp_closed b) eqn:Hcl; [intros [= <- _ <-]; split_and!; try done; constructor; auto|].
  destruct (live_probe now b) as [p|] eqn:Hlive; [intros [= <- _ <-]; split_and!; try done; by constructor|].
  destruct (_servicing_worker _ _ _ _ _) as [worker b1] eqn:Hs.
  destruct (servicing_worker_served _ _ _ _ _ Hok Haw Hcl Hs) as [Hok1 Haw1 Hst Hp Hpr Hc1 Hwk].
  rewrite Hcl in Hc1. destruct worker as [w|]; intros [= <- _ <-].
  - split; [|split; [|split; [|split]]].
    + apply workers_ok_move; [by apply (workers_ok_ext _ _ Hok1)|]. cbn. intros x _. by auto.
    + done.
    + intros v. destruct (Hst v) as [E|[E1 E2]]; [left|right].
      * rewrite <- E. rewrite at_of_same by done. done.
      * split; [done|]. rewrite at_of_same by done. done.
    + done.
    + cbn. rewrite !Hp. by apply called_new.
  - split; [|split; [|split; [|split]]]; try done; [by apply (workers_ok_ext _ _ Hok1)|].
    constructor; cbn; auto.
Qed.

(** ** Probes and checks *)

(** The probe a worker has taken, the one it has started to check, and the one
    it knows the backend answered for. *)
Definition holds (a : WorkerAt) : option nat :=
  match a with
  | Holding o => o
  | Checking p | Checked p _ _ | Publishing p _ _ | Finishing p _ => Some p
  | _ => None
  end.
Definition checks (a : WorkerAt) : option nat := match a with Holding _ => None | a => holds a end.
Definition answered (a : WorkerAt) : option nat :=
  match a with Checked p true _ | Publishing p true _ => Some p | _ => None end.
Definition finished (b : BoundedBackendProbe) (p : nat) : Prop :=
  ∃ q, bp_probes b !! p = Some q ∧ pr_finished q = true.

Record checks_ok (b : BoundedBackendProbe) (now : Z) (started : list (nat * Z)) (results : list (nat * bool)) :
    Prop := {
  ck_probe p : bp_probe b = Some p → (p < length (bp_probes b))%nat;
  ck_holds w a p : at_of b w = Some a → holds a = Some p → (p < length (bp_probes b))%nat;
  ck_holder w a p : bp_closed b = false → bp_probe b = Some p → at_of b w = Some a → holds a = Some p →
    bp_worker b = Some w ∨ bp_worker b = None;
  ck_unique w w' a a' p : at_of b w = Some a → at_of b w' = Some a' → holds a = Some p → holds a' = Some p → w = w';
  ck_started p : p ∈ map fst started → finished b p ∨ ∃ w a, at_of b w = Some a ∧ checks a = Some p;
  ck_checks w a p : at_of b w = Some a → checks a = Some p → p ∈ map fst started;
  ck_once : NoDup (map fst started);
  ck_results p r : (p, r) ∈ results → p ∈ map fst started;
  ck_answered w a p : at_of b w = Some a → answered a = Some p → (p, true) ∈ results;
  ck_ready p q : bp_probes b !! p = Some q → pr_ready q = true → (p, true) ∈ results;
  ck_when p t : (p, t) ∈ started → t <= now ∧ ∃ q, bp_probes b !! p = Some q ∧ pr_deadline q - timeout_seconds <= t;
  ck_deadline p q : bp_probes b !! p = Some q → pr_deadline q <= now + timeout_seconds
}.
Lemma checks_holds a p : checks a = Some p → holds a = Some p.
Proof. by destruct a. Qed.
Lemma answered_checks a p : answered a = Some p → checks a = Some p.
Proof. destruct a as [| | | | | |?|? [] ?|? [] ?|? ?| |]; done. Qed.

(** Steps that move no worker's probe: workers that appear are at the top. *)
Lemma checks_ok_frame b b' now now' started results : checks_ok b now started results → now <= now' →
  stays_at b b' → bp_probes b' = bp_probes b → bp_probe b' = bp_probe b →
  (bp_closed b' = false → bp_closed b = false) → (bp_worker b' = bp_worker b ∨ bp_worker b' = None) →
  checks_ok b' now' started results.
Proof.
  intros Hck Hnow Hst Hp Hpr Hcl Hwk.
  assert (Hat : ∀ w a p, at_of b' w = Some a → holds a = Some p → at_of b w = Some a).
  { intros w a p Ha Hh. destruct (Hst w) as [<-|[_ E]]; [done|]. rewrite E in Ha. by injection Ha as <-. }
  assert (Hkeep : ∀ w a, at_of b w = Some a → at_of b' w = Some a).
  { intros w a Ha. destruct (Hst w) as [->|[E _]]; congruence. }
  destruct Hck. split; rewrite ?Hp, ?Hpr; try done.
  - eauto.
  - intros w a p Hc Hb Ha Hh. destruct (ck_holder0 w a p (Hcl Hc) Hb (Hat w a p Ha Hh) Hh); destruct Hwk as [->| ->]; auto.
  - eauto.
  - intros p Hs. destruct (ck_started0 p Hs) as [Hf|(w & a & Ha & Hr)]; [left|right; eauto].
    unfold finished in *. by rewrite Hp.
  - intros w a p Ha Hr. eauto using checks_holds.
  - intros w a p Ha Hr. eauto using checks_holds, answered_checks.
  - intros p t Hs. destruct (ck_when0 p t Hs) as (? & ?). split; [lia|done].
  - intros p q Hq. specialize (ck_deadline0 p q Hq). lia.
Qed.
(** A call that makes a new probe. *)
Lemma checks_ok_new b b' now started results : 0 <= timeout_seconds → checks_ok b now started results → stays_at b b' →
  bp_probes b' = bp_probes b ++ [mkProbe (now + timeout_seconds) false false] →
  bp_probe b' = Some (length (bp_probes b)) → checks_ok b' now started results.
Proof.
  intros Htime Hck Hst Hp Hpr.
  assert (Hat : ∀ w a p, at_of b' w = Some a → holds a = Some p → at_of b w = Some a).
  { intros w a p Ha Hh. destruct (Hst w) as [<-|[_ E]]; [done|]. rewrite E in Ha. by injection Ha as <-. }
  assert (Hkeep : ∀ w a, at_of b w = Some a → at_of b' w = Some a).
  { intros w a Ha. destruct (Hst w) as [->|[E _]]; congruence. }
  destruct Hck. split; rewrite ?Hp, ?Hpr; try done.
  - intros p [= <-]. rewrite length_app. cbn. lia.
  - intros w a p Ha Hh. specialize (ck_holds0 w a p (Hat w a p Ha Hh) Hh). rewrite length_app. lia.
  - intros w a p _ [= <-] Ha Hh. specialize (ck_holds0 w a _ (Hat w a _ Ha Hh) Hh). lia.
  - eauto.
  - intros p Hs. destruct (ck_started0 p Hs) as [(q & Hq & Hf)|(w & a & Ha & Hr)]; [left|right; eauto].
    exists q. split; [|done]. rewrite Hp. by apply lookup_app_l_Some.
  - intros w a p Ha Hr. eauto using checks_holds.
  - intros w a p Ha Hr. eauto using checks_holds, answered_checks.
  - intros p q [Hq|[_ ->]]%lookup_snoc_inv Hr; [eauto|done].
  - intros p t Hs. destruct (ck_when0 p t Hs) as (? & q & Hq & ?). split; [done|]. exists q.
    split; [by apply lookup_app_l_Some|done].
  - intros p q [Hq|[_ ->]]%lookup_snoc_inv; [eauto|]. cbn. lia.
Qed.

(** One worker moves from [a] to [a']: it keeps its probe, drops it, or takes the
    current one. *)
Section moved.
Context (b b' : BoundedBackendProbe) (now : Z) (started : list (nat * Z)) (results results' : list (nat * bool)).
Context (w : nat) (a a' : WorkerAt).
Context (Hck : checks_ok b now started results).
Context (Ha : at_of b w = Some a) (Ha' : at_of b' w = Some a').
Context (Hothers : ∀ v, v ≠ w → at_of b' v = at_of b v).
Context (Hprobe : bp_probe b' = bp_probe b) (Hclosed : bp_closed b' = bp_closed b).
Context (Hworker : bp_worker b' = bp_worker b ∨ bp_worker b' = None).
Context (Hprobes : ∀ p, match bp_probes b' !! p, bp_probes b !! p with
  | None, None => True
  | Some q', Some q => pr_deadline q' = pr_deadline q ∧ (pr_finished q = true → pr_finished q' = true) ∧
      (pr_ready q' = true → pr_ready q = true ∨ (p, true) ∈ results')
  | _, _ => False
  end).
Context (Hresults : ∀ p r, (p, r) ∈ results → (p, r) ∈ results').
Context (Hresults' : ∀ p r, (p, r) ∈ results' → (p, r) ∈ results ∨ p ∈ map fst started).
Context (Hholds : ∀ p, holds a' = Some p → holds a = Some p ∨
  bp_closed b = false ∧ bp_probe b = Some p ∧ bp_worker b = Some w).
Context (Hchecks : ∀ p, checks a' = Some p → checks a = Some p).
Context (Hdropped : ∀ p, checks a = Some p → checks a' = Some p ∨ finished b' p).
Context (Hanswered : ∀ p, answered a' = Some p → (p, true) ∈ results').

Lemma moved_length p : (p < length (bp_probes b))%nat ↔ (p < length (bp_probes b'))%nat.
Proof.
  rewrite <- !lookup_lt_is_Some. specialize (Hprobes p).
  destruct (bp_probes b' !! p), (bp_probes b !! p); try done; split; by intros [? ?].
Qed.
Lemma moved_at v x : at_of b' v = Some x → (v ≠ w ∧ at_of b v = Some x) ∨ (v = w ∧ x = a').
Proof.
  intros Hx. destruct (decide (v = w)) as [->|Hne]; [right; split; congruence|left]. by rewrite <- Hothers.
Qed.
Lemma moved_holds v x p : at_of b' v = Some x → holds x = Some p →
  (∃ x0, at_of b v = Some x0 ∧ holds x0 = Some p) ∨
  (v = w ∧ bp_closed b = false ∧ bp_probe b = Some p ∧ bp_worker b = Some w).
Proof.
  intros [[Hne Hx]|[-> ->]]%moved_at Hh; [left; eauto|]. destruct (Hholds p Hh) as [Hh'|Hh']; [left; eauto|by right].
Qed.
Lemma checks_ok_moved : checks_ok b' now started results'.
Proof.
  destruct Hck. split.
  - intros p Hp. apply moved_length. apply ck_probe0. congruence.
  - intros v x p Hx Hh. apply moved_length. destruct (moved_holds v x p Hx Hh) as [(x0 & Hx0 & Hh0)|(_ & _ & Hp & _)]; eauto.
  - intros v x p Hc Hp Hx Hh. rewrite Hclosed in Hc. rewrite Hprobe in Hp.
    destruct (moved_holds v x p Hx Hh) as [(x0 & Hx0 & Hh0)|(-> & _ & _ & Hw)].
    + destruct (ck_holder0 v x0 p Hc Hp Hx0 Hh0), Hworker as [->| ->]; auto.
    + destruct Hworker as [->| ->]; auto.
  - intros v v' x x' p Hx Hx' Hh Hh'.
    destruct (moved_holds v x p Hx Hh) as [(x0 & Hx0 & Hh0)|(-> & Hc & Hp & Hw)];
      destruct (moved_holds v' x' p Hx' Hh') as [(x1 & Hx1 & Hh1)|(-> & Hc1 & Hp1 & Hw1)]; [eauto|..|done].
    + destruct (ck_holder0 v x0 p Hc1 Hp1 Hx0 Hh0); congruence.
    + destruct (ck_holder0 v' x1 p Hc Hp Hx1 Hh1); congruence.
  - intros p Hs. destruct (ck_started0 p Hs) as [(q & Hq & Hf)|(v & x & Hx & Hr)].
    + left. specialize (Hprobes p). rewrite Hq in Hprobes. unfold finished.
      destruct (bp_probes b' !! p) as [q'|]; [|done]. exists q'. split; [done|]. by apply Hprobes.
    + destruct (decide (v = w)) as [->|Hne]; [|right; exists v, x; by rewrite Hothers].
      rewrite Ha in Hx. injection Hx as <-. destruct (Hdropped p Hr); [right; eauto|by left].
  - intros v x p [[Hne Hx]|[-> ->]]%moved_at Hr; eauto.
  - done.
  - intros p r [Hr|Hr]%Hresults'; eauto.
  - intros v x p [[Hne Hx]|[-> ->]]%moved_at Hr; eauto.
  - intros p q Hq Hr. specialize (Hprobes p). rewrite Hq in Hprobes. destruct (bp_probes b !! p) as [q0|] eqn:Hq0; [|done].
    destruct Hprobes as (_ & _ & Hready). destruct (Hready Hr); eauto.
  - intros p t Hs. destruct (ck_when0 p t Hs) as (? & q & Hq & ?). split; [done|].
    specialize (Hprobes p). rewrite Hq in Hprobes. destruct (bp_probes b' !! p) as [q'|]; [|done].
    exists q'. split; [done|]. destruct Hprobes as [-> _]. done.
  - intros p q Hq. specialize (Hprobes p). rewrite Hq in Hprobes. destruct (bp_probes b !! p) as [q0|] eqn:Hq0; [|done].
    destruct Hprobes as [-> _]. eauto.
Qed.
End moved.
Lemma probes_same b b' (results : list (nat * bool)) : bp_probes b' = bp_probes b → ∀ p,
  match bp_probes b' !! p, bp_probes b !! p with
  | None, None => True
  | Some q', Some q => pr_deadline q' = pr_deadline q ∧ (pr_finished q = true → pr_finished q' = true) ∧
      (pr_ready q' = true → pr_ready q = true ∨ (p, true) ∈ results)
  | _, _ => False
  end.
Proof. intros -> p. destruct (bp_probes b !! p); auto. Qed.

(** A check starts. *)
Lemma checks_ok_checking b now started results w p q : checks_ok b now started results →
  at_of b w = Some (Holding (Some p)) → bp_probes b !! p = Some q → pr_finished q = false →
  checks_ok (on_worker w (move (Checking p)) b) now (started ++ [(p, now)]) results.
Proof.
  intros Hck Ha Hq Hf. set (b' := on_worker _ _ b).
  assert (Hat : ∀ v, at_of b' v = if decide (v = w) then Some (Checking p) else at_of b v).
  { intros v. unfold b'. rewrite at_of_on_worker. case_decide; [|done]. unfold at_of in Ha. by destruct (workers b !! w). }
  assert (Hold : ∀ v x n, at_of b' v = Some x → holds x = Some n → ∃ x0, at_of b v = Some x0 ∧ holds x0 = Some n).
  { intros v x n. rewrite Hat. case_decide as Hv; [|eauto]. intros [= <-] [= <-]. subst v. eauto. }
  assert (Hnew : p ∉ map fst started).
  { intros Hs. destruct (ck_started _ _ _ _ Hck p Hs) as [(q' & Hq' & Hf')|(v & x & Hx & Hr)]; [congruence|].
    pose proof (ck_unique _ _ _ _ Hck v w x _ p Hx Ha (checks_holds _ _ Hr) eq_refl) as ->.
    rewrite Ha in Hx. by injection Hx as <-. }
  destruct Hck. split; try done.
  - intros v x n Hx Hh. destruct (Hold v x n Hx Hh) as (x0 & Hx0 & Hh0). eauto.
  - intros v x n Hc Hp Hx Hh. destruct (Hold v x n Hx Hh) as (x0 & Hx0 & Hh0). eauto.
  - intros v v' x x' n Hx Hx' Hh Hh'. destruct (Hold v x n Hx Hh) as (x0 & Hx0 & Hh0).
    destruct (Hold v' x' n Hx' Hh') as (x1 & Hx1 & Hh1). eauto.
  - intros n. rewrite map_app, elem_of_app. cbn. intros [Hs|Hs%list_elem_of_singleton].
    + destruct (ck_started0 n Hs) as [Hfin|(v & x & Hx & Hr)]; [by left|right]. exists v, x. split; [|done].
      rewrite Hat. case_decide as Hv; [|done]. subst v. rewrite Ha in Hx. by injection Hx as <-.
    + subst n. right. exists w, (Checking p). rewrite Hat. by rewrite decide_True.
  - intros v x n. rewrite Hat, map_app, elem_of_app. cbn. case_decide as Hv.
    + intros [= <-] [= <-]. right. by apply list_elem_of_singleton.
    + intros Hx Hr. left. eauto.
  - rewrite map_app. apply NoDup_app. split_and!; [done| |by apply NoDup_singleton].
    intros n Hn Hn'%list_elem_of_singleton. cbn in Hn'. by subst n.
  - intros n r Hr. rewrite map_app, elem_of_app. left. eauto.
  - intros v x n. rewrite Hat. case_decide; [by intros [= <-]|eauto].
  - intros n t [Hs|[= -> ->]%list_elem_of_singleton]%elem_of_app; [eauto|]. split; [lia|]. exists q.
    split; [done|]. specialize (ck_deadline0 p q Hq). lia.
Qed.

(** ** The invariant of the threads *)
Context (Htimeout : 0 < timeout_seconds).
Abbreviation bp s := (sy_backend_probe s).
Abbreviation call := (call timeout_seconds max_abandoned_workers has_cancel).
Abbreviation probe_step := (probe_step timeout_seconds max_abandoned_workers has_cancel).

Record safe (s : System) : Prop := {
  sf_workers : workers_ok (bp s);
  sf_awake : awake (bp s);
  sf_checks : checks_ok (bp s) (sy_now s) (sy_started s) (sy_results s);
  sf_waiting c t p : sy_callers s !! c = Some (t, Waiting p) → t <= sy_now s ∧
    ∃ q, probe_of p s = Some q ∧ t < pr_deadline q ∧ pr_deadline q <= t + timeout_seconds;
  sf_answered c t : sy_callers s !! c = Some (t, Answered true) → ∃ p t', (p, t') ∈ sy_started s ∧
    (p, true) ∈ sy_results s ∧ t - timeout_seconds < t' ∧ t' <= sy_now s;
  sf_closing c a : sy_closers s !! c = Some a → bp_closed (bp s) = true
}.
Lemma new_system_safe now : safe (new_system now).
Proof.
  split; cbn; try done.
  - split; cbn; try done. lia.
  - intros _ _ Hpos. cbn in Hpos. lia.
  - split; cbn; try done; try (by intros ? Hin; apply elem_of_nil in Hin); try (by intros ? ? Hin; apply elem_of_nil in Hin).
    constructor.
Qed.
(** Steps that leave the callers and the closers where they are. *)
Lemma safe_bp s b' now' started' results' reports' :
  safe s → workers_ok b' → awake b' → checks_ok b' now' started' results' → sy_now s <= now' →
  (∀ p q, probe_of p s = Some q → ∃ q', bp_probes b' !! p = Some q' ∧ pr_deadline q' = pr_deadline q) →
  (∀ x, x ∈ sy_started s → x ∈ started') → (∀ x, x ∈ sy_results s → x ∈ results') →
  (bp_closed (bp s) = true → bp_closed b' = true) →
  safe (mkSystem b' now' (sy_callers s) (sy_closers s) started' results' reports').
Proof.
  intros [Hw Haw Hck Hwait Hans Hcl] Hw' Haw' Hck' Hnow Hp Hst Hre Hclosed. split; cbn; try done.
  - intros c t p Hc. destruct (Hwait c t p Hc) as (Ht & q & Hq & Hd). split; [lia|].
    destruct (Hp p q Hq) as (q' & Hq' & E). exists q'. unfold probe_of. cbn. by rewrite E.
  - intros c t Hc. destruct (Hans c t Hc) as (p & t' & Hs & Hr & Ht & Ht'). exists p, t'.
    split_and!; [by apply Hst|by apply Hre|done|lia].
  - intros c a Hc. apply Hclosed. by apply (Hcl c a).
Qed.
Lemma caller_safe s c t v : safe s → is_Some (sy_callers s !! c) →
  (∀ p, v = Waiting p → t <= sy_now s ∧ ∃ q, probe_of p s = Some q ∧ t < pr_deadline q ∧ pr_deadline q <= t + timeout_seconds) →
  (v = Answered true → ∃ p t', (p, t') ∈ sy_started s ∧ (p, true) ∈ sy_results s ∧ t - timeout_seconds < t' ∧ t' <= sy_now s) →
  safe (set_caller c (t, v) s).
Proof.
  intros [Hw Haw Hck Hwait Hans Hcl] Hc Hv Hv'. split; cbn; try done.
  - intros c' t' p. destruct (decide (c' = c)) as [->|Hne].
    + rewrite list_lookup_insert_eq by (by apply lookup_lt_is_Some). intros [= <- ->]. by apply Hv.
    + rewrite list_lookup_insert_ne by done. apply Hwait.
  - intros c' t'. destruct (decide (c' = c)) as [->|Hne].
    + rewrite list_lookup_insert_eq by (by apply lookup_lt_is_Some). intros [= <- ->]. by apply Hv'.
    + rewrite list_lookup_insert_ne by done. apply Hans.
Qed.

Lemma call_safe started rstarted s : safe s → safe (call started rstarted s).
Proof.
  intros Hs. unfold Readiness.call. destruct (call_section _ _ _ _ _ _ _) as [[probe report] b'] eqn:Hcs.
  destruct (call_section_spec _ _ _ _ _ _ _ (sf_workers s Hs) (sf_awake s Hs) Hcs) as (Hw' & Haw' & Hst & Hcl & Hcase).
  set (reports' := sy_reports s ++ _).
  assert (Hmid : checks_ok b' (sy_now s) (sy_started s) (sy_results s) ∧
    (∀ p q, probe_of p s = Some q → bp_probes b' !! p = Some q) ∧
    (∀ p, probe = Some p → ∃ q, bp_probes b' !! p = Some q ∧ sy_now s < pr_deadline q ∧
       pr_deadline q <= sy_now s + timeout_seconds)).
  { pose proof (sf_checks s Hs) as Hck. inversion Hcase as [Hp Hpr Hwk|p Hlive ->|Hp Hpr]; subst.
    - split_and!; [|by intros p q; rewrite Hp|done].
      apply (checks_ok_frame (bp s) b' (sy_now s)); try done; try lia; by rewrite Hcl.
    - split_and!; [done|done|]. intros p' [= <-]. unfold live_probe in Hlive.
      destruct (bp_probe (bp s)) as [p0|]; [|done]. cbn in Hlive.
      destruct (bp_probes (bp s) !! p0) as [q|] eqn:Hq; [|done]. cbn in Hlive.
      destruct (pr_finished q); [done|]. destruct (Z.leb_spec (pr_deadline q) (sy_now s)); [done|].
      injection Hlive as ->. exists q. split_and!; [done|lia|]. by apply (ck_deadline _ _ _ _ Hck p).
    - split_and!; [apply (checks_ok_new (bp s)); try done; lia| |].
      + intros p q Hq. rewrite Hp. by apply lookup_app_l_Some.
      + intros p [= <-]. rewrite Hp, list_lookup_middle by done. eexists. split; [done|]. cbn. lia. }
  destruct Hmid as (Hck' & Hkept & Hnew).
  assert (Hs' : safe (mkSystem b' (sy_now s) (sy_callers s) (sy_closers s) (sy_started s) (sy_results s) reports')).
  { apply safe_bp; try done; [|by rewrite Hcl]. intros p q Hq. exists q. split; [by apply Hkept|done]. }
  destruct Hs' as [? ? ? Hwait Hans Hclo]. split; cbn in *; try done.
  - intros c t p [Hc|[_ E]]%lookup_snoc_inv; [by apply (Hwait c)|]. injection E as -> E.
    destruct probe as [p'|]; [|done]. injection E as ->. split; [lia|]. unfold probe_of. cbn. by apply Hnew.
  - intros c t [Hc|[_ E]]%lookup_snoc_inv; [by apply (Hans c)|]. injection E as -> E. by destruct probe.
Qed.
Lemma wait_safe c s s' : safe s → wait c s = Some s' → safe s'.
Proof.
  intros Hs. unfold wait. destruct (sy_callers s !! c) as [[t [p|]]|] eqn:Hc; try done.
  destruct (sf_waiting s Hs c t p Hc) as (Ht & q & Hq & Hd & Hd'). rewrite Hq. cbn.
  destruct (pr_finished q).
  - intros [= <-]. apply caller_safe; [done|by eexists|done|]. intros [= Hr].
    pose proof (sf_checks s Hs) as Hck. pose proof (ck_ready _ _ _ _ Hck p q Hq Hr) as Hres.
    pose proof (ck_results _ _ _ _ Hck p true Hres) as Hst. apply list_elem_of_fmap in Hst as ([p' t'] & E & Hst).
    cbn in E. subst p'. destruct (ck_when _ _ _ _ Hck p t' Hst) as (Hle & q' & Hq' & Hd'').
    unfold probe_of in Hq. rewrite Hq in Hq'. injection Hq' as <-. exists p, t'. split_and!; try done. lia.
  - destruct (_ <=? _); [|done]. intros [= <-]. by apply caller_safe.
Qed.

(** A step of a worker that only moves it. *)
Lemma goes_safe s w f x a' results' : safe s → worker_of w s = Some x →
  wk_counted (f x) = wk_counted x → is_alive (f x) = is_alive x → wk_abandoned (f x) = wk_abandoned x →
  wk_at (f x) = a' → (∀ y, y ∈ sy_results s → y ∈ results') →
  (∀ p r, (p, r) ∈ results' → (p, r) ∈ sy_results s ∨ p ∈ map fst (sy_started s)) →
  (∀ p, holds a' = Some p → holds (wk_at x) = Some p ∨
     bp_closed (bp s) = false ∧ bp_probe (bp s) = Some p ∧ bp_worker (bp s) = Some w) →
  (∀ p, checks a' = Some p → checks (wk_at x) = Some p) → (∀ p, checks (wk_at x) = Some p → checks a' = Some p) →
  (∀ p, answered a' = Some p → (p, true) ∈ results') →
  safe (mkSystem (on_worker w f (bp s)) (sy_now s) (sy_callers s) (sy_closers s) (sy_started s) results' (sy_reports s)).
Proof.
  intros Hs Hx Hc Hl Hb Ha Hres Hres' Hh Hch Hch' Hans. unfold worker_of in Hx.
  apply safe_bp; try done; [|by apply (sf_awake s Hs)| |by eauto].
  - apply workers_ok_move; [apply (sf_workers s Hs)|]. intros y Hy. rewrite Hx in Hy. injection Hy as <-. auto.
  - assert (Hat : at_of (bp s) w = Some (wk_at x)) by (unfold at_of; by rewrite Hx).
    apply (checks_ok_moved (bp s) _ (sy_now s) (sy_started s) (sy_results s) results' w (wk_at x) a'); eauto.
    + apply (sf_checks s Hs).
    + rewrite at_of_on_worker, decide_True by done. rewrite Hx. cbn. by rewrite Ha.
    + intros v Hne. by rewrite at_of_on_worker, decide_False.
    + by apply probes_same.
Qed.
(** A step that publishes what it knows of its probe. *)
Lemma publishes_safe s w x a' p (g : _Probe → _Probe) : safe s → worker_of w s = Some x → checks (wk_at x) = Some p →
  is_alive (move a' x) = is_alive x → (∀ n, holds a' = Some n → n = p) → (∀ n, checks a' = Some n → n = p) →
  answered a' = None →
  (∀ q, pr_deadline (g q) = pr_deadline q ∧ (pr_finished q = true → pr_finished (g q) = true) ∧
        (pr_ready (g q) = true → pr_ready q = true ∨ (p, true) ∈ sy_results s)) →
  (checks a' = Some p ∨ ∀ q, pr_finished (g q) = true) →
  safe (with_bp (set_probes (alter g p (bp_probes (bp s))) (on_worker w (move a') (bp s))) s).
Proof.
  intros Hs Hx Hp Hl Hh Hc Hn Hg Hend. unfold worker_of in Hx.
  assert (Hat : at_of (bp s) w = Some (wk_at x)) by (unfold at_of; by rewrite Hx).
  pose proof (sf_checks s Hs) as Hck. pose proof (checks_holds _ _ Hp) as Hp'.
  assert (Hq : is_Some (bp_probes (bp s) !! p)).
  { apply lookup_lt_is_Some. by apply (ck_holds _ _ _ _ Hck w _ p Hat). }
  destruct Hq as [q Hq].
  apply safe_bp; try done; [|by apply (sf_awake s Hs)| |].
  - apply (workers_ok_ext (on_worker w (move a') (bp s))); try done.
    apply workers_ok_move; [apply (sf_workers s Hs)|]. intros y Hy. rewrite Hx in Hy. injection Hy as <-. auto.
  - apply (checks_ok_moved (bp s) _ (sy_now s) (sy_started s) (sy_results s) _ w (wk_at x) a'); eauto.
    + change (at_of (on_worker w (move a') (bp s)) w = Some a').
      rewrite at_of_on_worker, decide_True by done. by rewrite Hx.
    + intros v Hne. change (at_of (on_worker w (move a') (bp s)) v = at_of (bp s) v).
      by rewrite at_of_on_worker, decide_False.
    + intros n. cbn. destruct (decide (n = p)) as [->|Hne].
      * rewrite list_lookup_alter_eq, Hq. cbn. apply Hg.
      * rewrite list_lookup_alter_ne by done. destruct (bp_probes (bp s) !! n); auto.
    + intros n Hn'. left. by rewrite (Hh n Hn').
    + intros n Hn'. by rewrite (Hc n Hn').
    + intros n Hn'. rewrite Hp in Hn'. injection Hn' as <-. destruct Hend as [He|He]; [by left|right].
      exists (g q). cbn. rewrite list_lookup_alter_eq, Hq. done.
    + intros n. rewrite Hn. done.
  - intros n q' Hq'. unfold probe_of in Hq'. cbn. destruct (decide (n = p)) as [->|Hne].
    + rewrite list_lookup_alter_eq, Hq'. exists (g q'). split; [done|]. apply Hg.
    + rewrite list_lookup_alter_ne by done. eauto.
Qed.
Lemma leaves_safe s w x : safe s → worker_of w s = Some x → wk_at x = Leaving →
  safe (with_bp (on_worker w (move Gone) (_release_worker w (bp s))) s).
Proof.
  intros Hs Hx Ha. unfold worker_of in Hx.
  assert (Halive : is_alive x = true) by (unfold is_alive; by rewrite Ha).
  assert (Hat : at_of (bp s) w = Some Leaving) by (unfold at_of; rewrite Hx; cbn; by rewrite Ha).
  set (b' := on_worker w (move Gone) (_release_worker w (bp s))).
  assert (Hsame : bp_probes b' = bp_probes (bp s) ∧ bp_probe b' = bp_probe (bp s) ∧ bp_closed b' = bp_closed (bp s) ∧
    bp_reclaim b' = bp_reclaim (bp s) ∧ (bp_worker b' = bp_worker (bp s) ∨ bp_worker b' = None) ∧
    (bp_abandoned b' ≤ bp_abandoned (bp s))%nat ∧
    ∀ v, at_of b' v = if decide (v = w) then Some Gone else at_of (bp s) v).
  { unfold b', _release_worker. rewrite Hx.
    assert (Hw : ∀ b, (∀ v, at_of b v = at_of (bp s) v) → ∀ v,
      at_of (on_worker w (move Gone) b) v = if decide (v = w) then Some Gone else at_of (bp s) v).
    { intros b Hb v. rewrite at_of_on_worker. case_decide as Hv; [|by apply Hb].
      specialize (Hb w). rewrite Hat in Hb. unfold at_of in Hb. by destruct (workers b !! w). }
    destruct (wk_counted x); case_bool_decide as Hr; cbn; split_and!; auto; try lia.
    all: apply Hw; intros v; try done; by apply at_of_same. }
  destruct Hsame as (Ep & Epr & Ec & Er & Ew & Eab & Eat).
  apply safe_bp; try done.
  - apply (workers_ok_released w x _ (sf_workers s Hs) Hx Halive).
  - intros Hhc Hcl Hpos. rewrite Er. apply (sf_awake s Hs Hhc); [congruence|lia].
  - apply (checks_ok_moved (bp s) b' (sy_now s) (sy_started s) (sy_results s) _ w Leaving Gone); eauto.
    + apply (sf_checks s Hs).
    + by rewrite Eat, decide_True.
    + intros v Hne. by rewrite Eat, decide_False.
    + by apply probes_same.
    + done.
  - intros p q Hq. exists q. by rewrite Ep.
  - by rewrite Ec.
Qed.

#[local] Ltac goes s w x Hs Hx Ha :=
  refine (goes_safe s w _ x _ _ Hs Hx _ _ _ eq_refl _ _ _ _ _ _); cbn; unfold is_alive; rewrite ?Ha; auto; try done.
Lemma serve_safe w reply s s' : safe s → serve_step w reply s = Some s' → safe s'.
Proof.
  intros Hs. unfold serve_step. destruct (worker_of w s) as [x|] eqn:Hx; [|done]. cbn.
  pose proof (sf_checks s Hs) as Hck.
  assert (Hat : at_of (bp s) w = Some (wk_at x)) by (unfold at_of, worker_of in *; by rewrite Hx).
  destruct (wk_at x) as [| | | | |[p|]|p|p r d|p r d|p d| |] eqn:Ha; try done.
  - intros [= <-]. goes s w x Hs Hx Ha.
  - destruct (wk_requested x); [|done]. intros [= <-]. goes s w x Hs Hx Ha.
  - intros [= <-]. goes s w x Hs Hx Ha.
  - intros [= <-]. goes s w x Hs Hx Ha.
  - intros [= <-]. destruct (bp_closed (bp s) || wk_abandoned x) eqn:Hgo.
    + goes s w x Hs Hx Ha.
    + apply orb_false_iff in Hgo as [Hcl Hab].
      assert (Hrec : bp_worker (bp s) = Some w).
      { apply (wo_live (bp s) (sf_workers s Hs) w x Hcl Hx). split; [by unfold is_alive; rewrite Ha|].
        destruct (wk_counted x) eqn:Hc; [|done].
        destruct (wo_counted (bp s) (sf_workers s Hs) w x Hx Hc) as [Hbad _]. congruence. }
      goes s w x Hs Hx Ha.
  - destruct (probe_of p s) as [q|] eqn:Hq; [|done]. cbn. intros [= <-]. destruct (pr_finished q) eqn:Hf.
    + goes s w x Hs Hx Ha.
    + refine (safe_bp s _ _ _ _ _ Hs _ _ (checks_ok_checking _ _ _ _ w p q Hck Hat Hq Hf) _ _ _ _ _);
        try done; [|exact (sf_awake s Hs)|by eauto|].
      * apply workers_ok_move; [apply (sf_workers s Hs)|]. intros y Hy. unfold worker_of in Hx. rewrite Hx in Hy.
        injection Hy as <-. unfold is_alive. rewrite Ha. auto.
      * intros y Hy. cbn. apply elem_of_app. by left.
  - intros [= <-]. goes s w x Hs Hx Ha.
  - intros [= <-]. assert (Hst : p ∈ map fst (sy_started s)) by (apply (ck_checks _ _ _ _ Hck w _ p Hat); done).
    goes s w x Hs Hx Ha.
    + intros y Hy. apply elem_of_app. by left.
    + intros n b [Hn|[= -> ->]%list_elem_of_singleton]%elem_of_app; auto.
    + cbn. intros n Hn. apply elem_of_app. right. apply list_elem_of_singleton. by destruct (reply_ready reply); [injection Hn as ->|].
  - intros [= <-]. goes s w x Hs Hx Ha.
    + intros n Hn. apply (ck_answered _ _ _ _ Hck w _ n Hat). done.
  - intros [= <-]. apply (publishes_safe s w x (Finishing p d) p); try done; try by rewrite Ha.
    + by unfold is_alive; rewrite Ha.
    + by intros n [= <-].
    + by intros n [= <-].
    + intros q. cbn. split_and!; auto. intros ->. right. by apply (ck_answered _ _ _ _ Hck w _ p Hat).
    + by left.
  - intros [= <-]. apply (publishes_safe s w x _ p); try done; try by rewrite Ha.
    + unfold is_alive. rewrite Ha. by destruct d.
    + by destruct d.
    + by destruct d.
    + by destruct d.
    + intros q. cbn. auto.
    + by right.
  - intros [= <-]. by apply (leaves_safe s w x).
Qed.
Lemma reclaim_safe r s s' : safe s → reclaim_step r s = Some s' → safe s'.
Proof.
  intros Hs Hstep.
  assert (Hsame : ∃ b, s' = with_bp b s ∧ workers b = workers (bp s) ∧ bp_worker b = bp_worker (bp s) ∧
    bp_abandoned b = bp_abandoned (bp s) ∧ bp_closed b = bp_closed (bp s) ∧ bp_probes b = bp_probes (bp s) ∧
    bp_probe b = bp_probe (bp s) ∧ (bp_reclaim b = bp_reclaim (bp s) ∨ bp_abandoned b = 0%nat)).
  { unfold reclaim_step in Hstep. destruct (bp_reclaimers (bp s) !! r) as [a|]; [|done]. cbn in Hstep.
    destruct a; try done;
      repeat match type of Hstep with (if ?c then _ else _) = _ => destruct c eqn:E; [try apply Nat.eqb_eq in E|try done] end;
      injection Hstep as <-; eexists; (split; [done|]); cbn; split_and!; auto. }
  destruct Hsame as (b & -> & E1 & E2 & E3 & E4 & E5 & E6 & E7). apply safe_bp; try done.
  - apply (workers_ok_ext _ b (sf_workers s Hs)); congruence.
  - intros Hhc Hcl Hpos. destruct E7 as [->|E]; [apply (sf_awake s Hs); congruence|lia].
  - apply (checks_ok_frame (bp s) b (sy_now s)); try done; [apply (sf_checks s Hs)| |congruence|by left].
    intros v. left. unfold at_of. by rewrite E1.
  - intros p q Hq. exists q. by rewrite E5.
  - by rewrite E4.
Qed.
Lemma close_safe s : safe s → safe (close s).
Proof.
  intros Hs. unfold close. destruct (bp_closed (bp s)) eqn:Hcl; [done|].
  assert (Hb : safe (with_bp (set_closed (bp s)) s)).
  { apply safe_bp; try done; [by apply workers_ok_closed, (sf_workers s Hs)| |by eauto].
    apply (checks_ok_frame (bp s) _ (sy_now s)); try done; [apply (sf_checks s Hs)| |by right]. intros v. by left. }
  destruct Hb as [? ? ? ? ? Hc]. split; try done.
Qed.
Lemma closing_safe c s s' : safe s → close_step c s = Some s' → safe s'.
Proof.
  intros Hs Hstep. unfold close_step in Hstep. destruct (sy_closers s !! c) as [a|] eqn:Hc; [|done].
  pose proof (sf_closing s Hs c a Hc) as Hcl. cbn in Hstep.
  assert (Hgo : ∀ f w v, (∀ x, wk_counted (f x) = wk_counted x ∧ is_alive (f x) = is_alive x ∧ wk_at (f x) = wk_at x ∧
      (wk_abandoned (f x) = wk_abandoned x ∨ wk_abandoned (f x) = true)) →
    safe (set_closer c v (with_bp (on_worker w f (bp s)) s))).
  { intros f w v Hf.
    assert (Hb : safe (with_bp (on_worker w f (bp s)) s)).
    { apply safe_bp; try done; [|by apply (sf_awake s Hs)| |by eauto].
      - apply workers_ok_move; [apply (sf_workers s Hs)|]. intros x _. destruct (Hf x) as (? & ? & _ & [?|?]); auto.
      - apply (checks_ok_frame (bp s) _ (sy_now s)); try done; [apply (sf_checks s Hs)| |by left].
        intros u. left. apply at_of_same. intros x. by destruct (Hf x) as (_ & _ & ? & _). }
    destruct Hb. split; try done. }
  assert (Hflag : ∀ b v, workers_ok b → (awake b) → bp_closed b = true → workers b = workers (bp s) → bp_probes b = bp_probes (bp s) →
    bp_probe b = bp_probe (bp s) → bp_worker b = bp_worker (bp s) → safe (set_closer c v (with_bp b s))).
  { intros b v Hw Haw Hb E1 E2 E3 E4.
    assert (Hb' : safe (with_bp b s)).
    { apply safe_bp; try done.
      - apply (checks_ok_frame (bp s) _ (sy_now s)); try done; [apply (sf_checks s Hs)| |congruence|by left].
        intros u. left. unfold at_of. by rewrite E1.
      - intros p q Hq. exists q. by rewrite E2. }
    destruct Hb'. split; try done. }
  destruct a; try done; injection Hstep as <-.
  - apply Hflag; try done; [by apply (workers_ok_ext _ _ (sf_workers s Hs))|by apply (sf_awake s Hs)].
  - apply Hflag; try done; by apply (workers_ok_ext _ _ (sf_workers s Hs)).
  - apply Hgo. intros x. cbn. auto.
  - apply Hgo. intros x. cbn. auto.
Qed.
Lemma tick_safe d s : 0 <= d → safe s → safe (tick d s).
Proof.
  intros Hd Hs. apply safe_bp; try done.
  - apply (sf_workers s Hs).
  - apply (sf_awake s Hs).
  - apply (checks_ok_frame (bp s) _ (sy_now s)); try done; [apply (sf_checks s Hs)|lia| |by left]. intros v. by left.
  - cbn. lia.
  - eauto.
Qed.
Lemma steps_safe s s' : safe s → rtc probe_step s s' → safe s'.
Proof.
  intros Hs Hsteps. induction Hsteps as [s|s s1 s2 Hstep _ IH]; [done|]. apply IH.
  destruct Hstep; eauto using call_safe, wait_safe, serve_safe, reclaim_safe, close_safe, closing_safe, tick_safe.
Qed.

(** ** Theorems *)

Lemma filter_at_most_one {A} (f : A → bool) (l : list A) :
  (∀ i j x y, l !! i = Some x → l !! j = Some y → f x = true → f y = true → i = j) → (length (List.filter f l) ≤ 1)%nat.
Proof.
  induction l as [|x l IH]; intros Hone; [cbn; lia|]. cbn. destruct (f x) eqn:Hx.
  - assert (Hnil : List.filter f l = []); [|rewrite Hnil; cbn; lia].
    destruct (List.filter f l) as [|y l'] eqn:E; [done|]. assert (Hy : In y (List.filter f l)) by (rewrite E; by left).
    apply List.filter_In in Hy as [Hin Hy]. apply list_elem_of_In, list_elem_of_lookup in Hin as [j Hj].
    by discriminate (Hone 0%nat (S j) x y eq_refl Hj Hx Hy).
  - apply IH. intros i j y z Hi Hj Hy Hz. apply (f_equal pred (Hone (S i) (S j) y z Hi Hj Hy Hz)).
Qed.
Lemma alive_bound b : workers_ok b → (length (List.filter is_alive (workers b)) ≤ S (bp_abandoned b))%nat.
Proof.
  intros Hok. rewrite (wo_count b Hok).
  pose proof (filter_at_most_one (λ x, is_alive x && negb (wk_counted x)) (workers b)) as Hone.
  assert (Hsum : ∀ l, (length (List.filter is_alive l) ≤
    counted_in l + length (List.filter (λ x, is_alive x && negb (wk_counted x)) l))%nat).
  { intros l. unfold counted_in. induction l as [|x l IH]; cbn; [lia|].
    destruct (is_alive x), (wk_counted x); cbn; lia. }
  specialize (Hsum (workers b)). enough (length (List.filter (λ x, is_alive x && negb (wk_counted x)) (workers b)) ≤ 1)%nat by lia.
  apply Hone. intros i j x y Hx Hy [Hx1 Hx2%negb_true_iff]%andb_true_iff [Hy1 Hy2%negb_true_iff]%andb_true_iff.
  by apply (wo_one b Hok i j x y).
Qed.
Definition reachable (s : System) : Prop := ∃ now, rtc probe_step (new_system now) s.
Lemma reachable_safe s : reachable s → safe s.
Proof. intros [now Hs]. apply (steps_safe _ _ (new_system_safe now) Hs). Qed.

(** C25: A store that never answers costs a bounded number of threads: however many probes are made and however the
    threads interleave, at most one worker more than the configured number of abandoned ones has not left its loop, the count of
    abandoned workers is exact and within its cap, and no probe is ever checked twice, so that a flood of probes never
    has more checks running than there are workers. While a call is abandoned the reclaimer's wake-up is not lost. *)
Theorem probe_workers_bounded s : reachable s →
  (length (List.filter is_alive (workers (bp s))) ≤ S max_abandoned_workers)%nat ∧
  bp_abandoned (bp s) = counted_in (workers (bp s)) ∧ (bp_abandoned (bp s) ≤ max_abandoned_workers)%nat ∧
  NoDup (map fst (sy_started s)) ∧ awake (bp s).
Proof.
  intros Hs%reachable_safe. pose proof (alive_bound _ (sf_workers s Hs)). pose proof (wo_cap _ (sf_workers s Hs)).
  split_and!; [lia|apply (wo_count _ (sf_workers s Hs))|done|apply (ck_once _ _ _ _ (sf_checks s Hs))|apply (sf_awake s Hs)].
Qed.
(** C26: Readiness is never claimed without the store: a caller that is answered yes is answered by a check of the
    backend that returned true and was started within the timeout before the call, or during it; and it fails closed in
    time, since once the timeout has passed a caller that still waits is answered, whatever the worker is doing. *)
Theorem probe_answer_sound s c t a : reachable s → sy_callers s !! c = Some (t, a) →
  (a = Answered true → ∃ p t', (p, t') ∈ sy_started s ∧ (p, true) ∈ sy_results s ∧
     t - timeout_seconds < t' ∧ t' <= sy_now s) ∧
  (∀ p, a = Waiting p → t + timeout_seconds <= sy_now s → ∃ answer, wait c s = Some (set_caller c (t, Answered answer) s)).
Proof.
  intros Hs%reachable_safe Hc. split; [intros ->; by apply (sf_answered s Hs c t)|]. intros p -> Hlate.
  destruct (sf_waiting s Hs c t p Hc) as (_ & q & Hq & _ & Hd). unfold wait. rewrite Hc, Hq. cbn.
  destruct (pr_finished q); [by eexists|]. rewrite (proj2 (Z.leb_le _ _)) by lia. by eexists.
Qed.
End safe.

(** ** Witnesses *)

(** One call, a check that returns true, the answer. *)
Definition serves (w : nat) (replies : list Reply) (s : System) : System :=
  foldl (λ s reply, default s (serve_step w reply s)) s replies.
Definition healthy_run : System :=
  default (new_system 0) (wait 0 (serves 0 (replicate 10 (Returns true)) (call 5 1 true true true (new_system 0)))).
Definition wedged_run : System :=
  call 5 1 true true true (tick 6 (serves 0 (replicate 6 (Returns true)) (call 5 1 true true true (new_system 0)))).
Lemma serves_steps timeout cap cancel w replies s : rtc (probe_step timeout cap cancel) s (serves w replies s).
Proof.
  revert s. induction replies as [|reply replies IH]; intros s; [done|]. cbn.
  destruct (serve_step w reply s) as [s1|] eqn:Hs; cbn; [|apply IH]. eapply rtc_l; [|apply IH]. by eapply step_serve.
Qed.
Lemma healthy_reachable : reachable 5 1 true healthy_run.
Proof.
  exists 0. eapply rtc_l; [apply (step_call _ _ _ true true)|]. etrans; [apply (serves_steps _ _ _ 0 (replicate 10 (Returns true)))|].
  apply rtc_once. apply (step_wait 5 1 true 0). vm_compute. reflexivity.
Qed.
Lemma wedged_reachable : reachable 5 1 true wedged_run.
Proof.
  exists 0. eapply rtc_l; [apply (step_call _ _ _ true true)|]. etrans; [apply (serves_steps _ _ _ 0 (replicate 6 (Returns true)))|].
  eapply rtc_l; [by apply (step_tick _ _ _ 6)|]. apply rtc_once. apply (step_call _ _ _ true true).
Qed.
Lemma probe_workers_bounded_witness :
  bp_abandoned (sy_backend_probe wedged_run) = 1%nat ∧ length (bp_workers (sy_backend_probe wedged_run)) = 2%nat ∧
  (length (List.filter is_alive (bp_workers (sy_backend_probe wedged_run))) ≤ 2)%nat.
Proof.
  split; [done|]. split; [done|]. by destruct (probe_workers_bounded 5 1 true eq_refl wedged_run wedged_reachable) as [? _].
Defined.
Lemma probe_answer_sound_witness :
  sy_callers healthy_run !! 0%nat = Some (0, Answered true) ∧
  ∃ p t, (p, t) ∈ sy_started healthy_run ∧ (p, true) ∈ sy_results healthy_run ∧ 0 - 5 < t ∧ t <= sy_now healthy_run.
Proof.
  split; [done|]. destruct (probe_answer_sound 5 1 true eq_refl healthy_run 0 0 (Answered true) healthy_reachable eq_refl) as [Hyes _].
  by apply Hyes.
Defined.
