(* ===== verification/ReadinessLive.v ===== *)
(** * The readiness probe recovers

    From every state the probe can reach before it is closed, there is a way back
    to a positive answer that waits for no wedged check: once the store answers
    again, nothing that happened before, wedged calls within the cap, dead workers,
    failed thread starts, keeps readiness down. *)
From S2P Require Import Prelude PyDict Readiness ReadinessSafe.

Section live.
Context (timeout_seconds : Z) (max_abandoned_workers : nat) (has_cancel : bool) (Htimeout : 0 < timeout_seconds).
Abbreviation bp s := (sy_backend_probe s).
Abbreviation steps := (rtc (probe_step timeout_seconds max_abandoned_workers has_cancel)).
Abbreviation safe := (safe timeout_seconds max_abandoned_workers has_cancel).
Abbreviation call := (call timeout_seconds max_abandoned_workers has_cancel).

(** ** What a worker says of itself

    A parked worker is idle, one that is at a check is not, and, until the probe is
    closed, an abandoned one that has not yet seen it is called to the lock. *)
Definition at_check (a : WorkerAt) : bool :=
  match a with Locking | Holding _ | Checking _ | Checked _ _ _ => true | _ => false end.
Definition called_back (a : WorkerAt) : bool :=
  match a with Cleared | Locking | Leaving | Gone => false | _ => true end.
Definition fit (closed : bool) (x : _Worker) : Prop :=
  (wk_at x = Parked → wk_idle x = true) ∧ (at_check (wk_at x) = true → wk_idle x = false) ∧
  (closed = false → wk_abandoned x = true → called_back (wk_at x) = true → wk_requested x = true).
Definition fits (b : BoundedBackendProbe) : Prop := ∀ w x, bp_workers b !! w = Some x → fit (bp_closed b) x.
Lemma fits_on_worker f w b : fits b → (∀ x, bp_workers b !! w = Some x → fit (bp_closed b) x → fit (bp_closed b) (f x)) →
  fits (on_worker w f b).
Proof. intros Hb Hf v y [[_ Hy]|(-> & x & Hx & ->)]%lookup_alter_inv; [by apply (Hb v y)|apply Hf; [done|by apply (Hb w x)]]. Qed.
Lemma fits_ext b b' : fits b → bp_workers b' = bp_workers b → bp_closed b' = bp_closed b → fits b'.
Proof. intros Hb E1 E2 w x. rewrite E1, E2. apply Hb. Qed.
Lemma fit_request closed x : fit closed x → fit closed (request true x).
Proof. by intros (H1 & H2 & H3). Qed.
Lemma fit_closed x closed : fit closed x → fit true x.
Proof. by intros (H1 & H2 & H3). Qed.
Lemma fits_start started b w b' : fits b → _start_worker started b = (w, b') → fits b'.
Proof.
  intros Hb. unfold _start_worker. destruct started; intros [= <- <-]; [|done].
  intros v x [Hx|[_ ->]]%lookup_snoc_inv; [by apply (Hb v x)|done].
Qed.
Lemma fits_wake started b : fits b → fits (_wake_reclaimer has_cancel started b).
Proof. intros Hb. destruct (wake_reclaimer_frame has_cancel started b) as (E1 & _ & _ & E2 & _). by apply (fits_ext b). Qed.
Lemma fits_servicing started rstarted b w b' : fits b →
  _servicing_worker max_abandoned_workers has_cancel started rstarted b = (w, b') → fits b'.
Proof.
  intros Hb. unfold _servicing_worker. destruct (w0 ← bp_worker b; _) as [[w0 x]|]; [|by apply fits_start].
  destruct (wk_idle x); [by intros [= <- <-]|]. destruct (_ && _).
  - unfold _report_limit. destruct (bp_limit_reported _); intros [= <- <-]; apply fits_wake; by apply (fits_ext b).
  - apply fits_start. assert (Hb1 : fits (on_worker w0 (λ x, request true (abandon x)) (set_worker None b))).
    { apply fits_on_worker; [by apply (fits_ext b)|]. by intros y _ (H1 & H2 & H3). }
    destruct (is_alive x); [|done]. apply fits_wake, fits_on_worker; [by apply (fits_ext _ _ Hb1)|]. by intros y _ (H1 & H2 & H3).
Qed.
Lemma fits_call started rstarted s : fits (bp s) → fits (bp (call started rstarted s)).
Proof.
  intros Hb. unfold Readiness.call, call_section. destruct (bp_closed (bp s)); [done|].
  destruct (live_probe _ _); [done|]. destruct (_servicing_worker _ _ _ _ _) as [[w|] b1] eqn:Hs; cbn.
  - pose proof (fits_servicing _ _ _ _ _ Hb Hs) as Hb1. apply fits_on_worker; [by apply (fits_ext b1)|]. intros x _. apply fit_request.
  - apply (fits_ext b1); [|done..]. by apply (fits_servicing _ _ _ _ _ Hb Hs).
Qed.
#[local] Ltac fit_move Ha Hgo := apply Hgo; [done|done|]; unfold fit; rewrite Ha; intros (F1 & F2 & F3); cbn in *; split_and!; try done; auto.
Lemma fits_serve w reply s s' : fits (bp s) → serve_step w reply s = Some s' → fits (bp s').
Proof.
  intros Hb. unfold serve_step. destruct (worker_of w s) as [x|] eqn:Hx; [|done]. cbn.
  assert (Hgo : ∀ f b, bp_workers b = bp_workers (bp s) → bp_closed b = bp_closed (bp s) →
    (fit (bp_closed (bp s)) x → fit (bp_closed (bp s)) (f x)) → fits (on_worker w f b)).
  { intros f b E1 E2 Hf. apply fits_on_worker; [by apply (fits_ext (bp s))|]. rewrite E1, E2. intros y Hy. unfold worker_of in Hx.
    rewrite Hx in Hy. by injection Hy as <-. }
  destruct (wk_at x) as [| | | | |[p|]|p|p r d|p r d|p d| |] eqn:Ha; try done.
  2: destruct (wk_requested x); [|done].
  all: try (intros [= <-]; by fit_move Ha Hgo).
  - intros [= <-]. destruct (bp_closed (bp s)) eqn:Hcl, (wk_abandoned x) eqn:Hab; cbn; apply Hgo; try done; unfold fit; rewrite Ha;
      intros (F1 & F2 & F3); cbn in *; split_and!; try done; auto; congruence.
  - destruct (probe_of p s); [|done]. cbn. intros [= <-]. destruct (pr_finished _); by fit_move Ha Hgo.
  - intros [= <-]. apply (fits_ext (on_worker w (move (if d then Leaving else AtTop)) (bp s))); [|done..]. by destruct d; fit_move Ha Hgo.
  - intros [= <-]. cbn. apply fits_on_worker; [|by intros y _].
    assert (E : ∀ b, fits b → fits (if bool_decide (bp_worker b = Some w) then set_worker None b else b)).
    { intros b Hf. case_bool_decide; [|done]. by apply (fits_ext b). }
    unfold _release_worker. apply E. destruct (match _ with Some _ => _ | None => _ end); [|done].
    apply (fits_ext (on_worker w (count_as false) (bp s))); [|done..]. by apply fits_on_worker.
Qed.
Lemma fits_step s s' : safe s → fits (bp s) →
  probe_step timeout_seconds max_abandoned_workers has_cancel s s' → fits (bp s').
Proof.
  intros Hsafe Hb Hstep. destruct Hstep as [? ? s|c s s' Hw|w reply s s' Hw|r s s' Hr|s|c s s' Hc|d s Hd]; try done.
  - by apply fits_call.
  - unfold wait in Hw. destruct (sy_callers s !! c) as [[? []]|]; try done. destruct (probe_of _ _); [|done]. cbn in Hw.
    repeat (destruct (pr_finished _) || destruct (_ <=? _)); try done; by injection Hw as <-.
  - by apply (fits_serve w reply s).
  - unfold reclaim_step in Hr. destruct (bp_reclaimers (bp s) !! r) as [a|]; [|done]. cbn in Hr.
    destruct a; try done; repeat match type of Hr with (if ?c then _ else _) = _ => destruct c end; try done;
      injection Hr as <-; by apply (fits_ext (bp s)).
  - unfold close. destruct (bp_closed (bp s)) eqn:Hcl; [done|]. intros w x Hx. by apply (fit_closed x (bp_closed (bp s))), (Hb w).
  - unfold close_step in Hc. destruct (sy_closers s !! c) as [a|] eqn:Ha; [|done].
    pose proof (sf_closing _ _ _ _ Hsafe c a Ha) as Hcl. destruct a; try done; injection Hc as <-; try (by apply (fits_ext (bp s)));
      cbn; (apply fits_on_worker; [done|]); intros x _; rewrite Hcl; by intros (H1 & H2 & H3).
Qed.
Lemma steps_fits s s' : safe s → fits (bp s) → steps s s' → fits (bp s').
Proof.
  intros Hs Hb Hst. induction Hst as [|s s1 s2 Hstep _ IH]; [done|]. apply IH; [|by apply (fits_step s)].
  by apply (steps_safe _ _ _ Htimeout s); [|apply rtc_once].
Qed.

(** ** A worker comes to rest

    Left to itself, with a check that fails, a worker comes back to where it
    waits, or leaves. *)
Definition rank (a : WorkerAt) : nat :=
  match a with
  | Gone | Parked => 0 | AtTop | Leaving => 1 | Finishing _ _ => 2 | Publishing _ _ _ => 3 | Checked _ _ _ => 4
  | Checking _ => 5 | Holding _ => 6 | Locking => 7 | Cleared => 8 | Woken => 9
  end.
Definition measure (x : _Worker) : nat :=
  match wk_at x with Woken => 9 | a => rank a + (if wk_requested x then 20 else 0) end.
Definition at_rest (x : _Worker) : Prop := wk_at x = Gone ∨ wk_at x = Parked ∧ wk_requested x = false.
(** What the steps of a worker leave alone. *)
Record alongside (s s' : System) : Prop := {
  al_now : sy_now s' = sy_now s;
  al_callers : sy_callers s' = sy_callers s;
  al_closed : bp_closed (bp s') = bp_closed (bp s);
  al_probe : bp_probe (bp s') = bp_probe (bp s);
  al_worker : bp_worker (bp s') = bp_worker (bp s) ∨ bp_worker (bp s') = None
}.
Lemma alongside_refl s : alongside s s.
Proof. split; auto. Qed.
Lemma alongside_trans s1 s2 s3 : alongside s1 s2 → alongside s2 s3 → alongside s1 s3.
Proof. intros [? ? ? ? [?|?]] [? ? ? ? [?|?]]; split; try congruence; [left|right..]; congruence. Qed.
Lemma serve_alongside w reply s s' : serve_step w reply s = Some s' → alongside s s'.
Proof.
  unfold serve_step. destruct (worker_of w s) as [x|]; [|done]. cbn.
  destruct (wk_at x) as [| | | | |[p|]|p|p r d|p r d|p d| |]; try done; try (intros [= <-]; split; auto; done).
  - destruct (wk_requested x); [|done]. intros [= <-]. split; auto.
  - destruct (probe_of p s); [|done]. cbn. intros [= <-]. destruct (pr_finished _); split; auto.
  - intros [= <-]. unfold _release_worker. destruct (match _ with Some _ => _ | None => _ end);
      case_bool_decide; split; cbn; auto.
Qed.
Lemma serve_others w reply s s' v : serve_step w reply s = Some s' → v ≠ w → worker_of v s' = worker_of v s.
Proof.
  unfold serve_step. destruct (worker_of w s) as [x|]; [|done]. cbn. intros Hst Hne.
  assert (Hgo : ∀ f b, bp_workers b = bp_workers (bp s) → bp_workers (on_worker w f b) !! v = worker_of v s).
  { intros f b E. cbn. rewrite list_lookup_alter_ne by done. by rewrite E. }
  destruct (wk_at x) as [| | | | |[p|]|p|p r d|p r d|p d| |]; try done; try (injection Hst as <-; by apply Hgo).
  - destruct (wk_requested x); [|done]. injection Hst as <-. by apply Hgo.
  - destruct (probe_of p s); [|done]. cbn in Hst. injection Hst as <-. destruct (pr_finished _); by apply Hgo.
  - injection Hst as <-. unfold worker_of. cbn. rewrite list_lookup_alter_ne by done. unfold _release_worker.
    destruct (match _ with Some _ => _ | None => _ end); case_bool_decide; cbn; rewrite ?list_lookup_alter_ne by done; done.
Qed.
Lemma worker_goes w f x s : worker_of w s = Some x → worker_of w (with_bp (on_worker w f (bp s)) s) = Some (f x).
Proof. unfold worker_of. cbn. intros Hx. rewrite list_lookup_alter_eq. unfold lookup in *. by rewrite Hx. Qed.
Lemma worker_alter w f x s : worker_of w s = Some x → alter f w (bp_workers (bp s)) !! w = Some (f x).
Proof. apply (worker_goes w f x s). Qed.
Lemma serve_advances w x s : safe s → worker_of w s = Some x → at_rest x ∨
  ∃ s' x', serve_step w RaisesException s = Some s' ∧ worker_of w s' = Some x' ∧ (measure x' < measure x)%nat.
Proof.
  intros Hs Hx. unfold serve_step. rewrite Hx. cbn.
  assert (Hprobe : ∀ p, holds (wk_at x) = Some p → is_Some (probe_of p s)).
  { intros p Hp. apply lookup_lt_is_Some. apply (ck_holds _ _ _ _ _ (sf_checks _ _ _ _ Hs) w (wk_at x) p); [|done].
    unfold at_of. unfold worker_of in Hx. by rewrite Hx. }
  assert (Hgo : ∀ f s', s' = with_bp (on_worker w f (bp s)) s → (measure (f x) < measure x)%nat →
    ∃ s1 x', Some s' = Some s1 ∧ worker_of w s1 = Some x' ∧ (measure x' < measure x)%nat).
  { intros f s' -> Hm. exists (with_bp (on_worker w f (bp s)) s), (f x). split_and!; [done|by apply worker_goes|done]. }
  unfold at_rest, measure in *.
  destruct (wk_at x) as [| | | | |[p|]|p|p r d|p r d|p d| |] eqn:Ha.
  2: { destruct (wk_requested x) eqn:Hr; [right|left; auto]. eapply Hgo; [done|]. cbn. lia. }
  12: by left; left.
  all: right; try (eapply Hgo; [reflexivity|]; cbn; destruct (wk_requested x); cbn; lia).
  - eapply Hgo; [reflexivity|]. destruct (_ || _); cbn; lia.
  - destruct (Hprobe p eq_refl) as [q Hq]. rewrite Hq. cbn. destruct (pr_finished q).
    + eapply Hgo; [reflexivity|]. cbn. lia.
    + eexists _, (move (Checking p) x). split; [reflexivity|]. split; [by apply (worker_alter w _ x s)|]. cbn. lia.
  - eexists _, _. split; [reflexivity|]. split; [by apply (worker_alter w _ x s)|]. cbn. lia.
  - eexists _, _. split; [reflexivity|]. split; [by apply (worker_alter w _ x s)|]. cbn. lia.
  - eexists _, _. split; [reflexivity|]. split; [by apply (worker_alter w _ x s)|]. destruct d; cbn; lia.
  - assert (Hrel : ∃ x', worker_of w (with_bp (_release_worker w (bp s)) s) = Some x' ∧ wk_requested x' = wk_requested x).
    { unfold _release_worker, worker_of in *. rewrite Hx. destruct (wk_counted x); case_bool_decide; cbn; eauto;
        eexists; (split; [apply (worker_alter w _ x s), Hx|done]). }
    destruct Hrel as (x' & Hx' & Hr). eexists _, (move Gone x'). split; [reflexivity|].
    split; [by apply (worker_goes w _ x' (with_bp (_release_worker w (bp s)) s))|]. cbn. rewrite Hr. lia.
Qed.
(** *** Without the wedged

    A step that leaves these workers where they are: their calls do not return. *)
Section wedged.
Context (wedged : list nat).
Definition sparing (s s' : System) : Prop :=
  probe_step timeout_seconds max_abandoned_workers has_cancel s s' ∧ ∀ w, w ∈ wedged → at_of (bp s') w = at_of (bp s) w.
Abbreviation spared := (rtc sparing).
Lemma spared_steps s s' : spared s s' → steps s s'.
Proof. intros Hst. induction Hst as [|s s1 s2 [Hstep _] _ IH]; [done|]. by eapply rtc_l. Qed.
Lemma spared_at s s' w : spared s s' → w ∈ wedged → at_of (bp s') w = at_of (bp s) w.
Proof. intros Hst Hw. induction Hst as [|s s1 s2 [_ Hat] _ IH]; [done|]. by rewrite IH, Hat. Qed.
Lemma serve_spares w reply s s' : w ∉ wedged → serve_step w reply s = Some s' → sparing s s'.
Proof.
  intros Hw Hst. split; [by eapply step_serve|]. intros v Hv. unfold at_of.
  pose proof (serve_others w reply s s' v Hst) as E. unfold worker_of in E. rewrite E; [done|]. by intros ->.
Qed.
Lemma comes_to_rest w x s : w ∉ wedged → safe s → worker_of w s = Some x →
  ∃ s' x', spared s s' ∧ alongside s s' ∧ worker_of w s' = Some x' ∧ at_rest x' ∧ ∀ v, v ≠ w → worker_of v s' = worker_of v s.
Proof.
  intros Hfree.
  remember (measure x) as n eqn:Hn. revert s x Hn. induction (lt_wf n) as [n _ IH]. intros s x -> Hs Hx.
  destruct (serve_advances w x s Hs Hx) as [Hrest|(s1 & x1 & Hstep & Hx1 & Hm)].
  { exists s, x. split_and!; [done|apply alongside_refl|done|done|done]. }
  destruct (IH (measure x1) Hm s1 x1 eq_refl (serve_safe _ _ _ _ _ _ _ Hs Hstep) Hx1) as (s2 & x2 & Hst & Hal & Hx2 & Hr & Ho).
  exists s2, x2. split_and!; try done.
  - eapply rtc_l; [by eapply serve_spares|done].
  - eapply alongside_trans; [by eapply serve_alongside|done].
  - intros v Hv. rewrite Ho by done. by eapply serve_others.
Qed.
(** All but the wedged ones come to rest. *)
Lemma all_come_to_rest n s : safe s → ∃ s', spared s s' ∧ alongside s s' ∧
  (∀ v, v ∈ wedged ∨ (n ≤ v)%nat → worker_of v s' = worker_of v s) ∧
  ∀ v x, (v < n)%nat → v ∉ wedged → worker_of v s' = Some x → at_rest x.
Proof.
  intros Hs. induction n as [|n (s1 & Hst & Hal & Hsame & Hrest)].
  { exists s. split_and!; [done|apply alongside_refl|done|lia]. }
  destruct (decide (n ∈ wedged)) as [Hin|Hfree].
  { exists s1. split_and!; [done|done| |].
    - intros v [?|?]; apply Hsame; [by left|right; lia].
    - intros v x Hv Hw. apply Hrest; [|done]. destruct (decide (v = n)) as [->|]; [done|lia]. }
  destruct (worker_of n s1) as [x|] eqn:Hx.
  2: { exists s1. split_and!; [done|done| |].
    - intros v [?|?]; apply Hsame; [by left|right; lia].
    - intros v x Hv Hw Hvx. destruct (decide (v = n)) as [->|]; [congruence|]. apply (Hrest v); [lia|done|done]. }
  destruct (comes_to_rest n x s1 Hfree) as (s2 & x2 & Hst2 & Hal2 & Hx2 & Hr2 & Ho2); [|done|].
  { by apply (steps_safe _ _ _ Htimeout s), spared_steps. }
  exists s2. split_and!; [by etrans|by eapply alongside_trans| |].
  - intros v Hv. rewrite Ho2; [apply Hsame; destruct Hv; [by left|right; lia]|]. intros ->. destruct Hv; [done|lia].
  - intros v y Hv Hw Hy. destruct (decide (v = n)) as [->|Hne]; [congruence|]. rewrite Ho2 in Hy by done.
    apply (Hrest v); [lia|done|done].
Qed.

(** ** A requested worker serves its probe *)

Definition track (p : nat) (q : _Probe) (x : _Worker) : Prop :=
  match wk_at x with
  | AtTop | Parked => wk_requested x = true
  | Woken | Cleared | Locking => True
  | Holding o => o = Some p
  | Checking n => n = p
  | Checked n ready dies | Publishing n ready dies => n = p ∧ ready = true ∧ dies = false
  | Finishing n dies => n = p ∧ dies = false ∧ pr_ready q = true
  | Leaving | Gone => False
  end.
Record on_track (p w : nat) (q : _Probe) (x : _Worker) (s : System) : Prop := {
  ot_closed : bp_closed (bp s) = false;
  ot_probe : bp_probe (bp s) = Some p;
  ot_worker : worker_of w s = Some x;
  ot_abandoned : wk_abandoned x = false;
  ot_of : probe_of p s = Some q;
  ot_unfinished : pr_finished q = false;
  ot_track : track p q x
}.
Lemma probe_alter p g q s : probe_of p s = Some q → alter g p (bp_probes (bp s)) !! p = Some (g q).
Proof. unfold probe_of. intros Hq. by rewrite list_lookup_alter_eq, Hq. Qed.
Lemma track_advances p w q x s : on_track p w q x s → ∃ s' x' q', serve_step w (Returns true) s = Some s' ∧
  (pr_finished q' = true ∧ pr_ready q' = true ∧ probe_of p s' = Some q' ∨
   on_track p w q' x' s' ∧ (measure x' < measure x)%nat).
Proof.
  intros [Hcl Hp Hx Hab Hq Hf Ht]. unfold serve_step. rewrite Hx. cbn.
  assert (Hgo : ∀ f, wk_abandoned (f x) = false → track p q (f x) → (measure (f x) < measure x)%nat →
    ∃ s' x' q', Some (with_bp (on_worker w f (bp s)) s) = Some s' ∧
      (pr_finished q' = true ∧ pr_ready q' = true ∧ probe_of p s' = Some q' ∨
       on_track p w q' x' s' ∧ (measure x' < measure x)%nat)).
  { intros f Hf1 Hf2 Hf3. eexists _, (f x), q. split; [done|]. right. split; [|done]. split; try done.
    by apply worker_goes. }
  unfold track, measure in *. rewrite Hab, Hcl, Hp in *. cbn in *.
  destruct (wk_at x) as [| | | | |o|n|n r d|n r d|n d| |] eqn:Ha; try done.
  - apply Hgo; cbn; rewrite ?Ht; try done; lia.
  - rewrite Ht. eexists _, (move Woken x), q. split; [reflexivity|].
    right. split; [|cbn; rewrite ?Ht; lia]. split; try done. by apply (worker_alter w _ x s).
  - apply Hgo; cbn; rewrite ?Ht; try done; lia.
  - apply Hgo; cbn; try done; destruct (wk_requested x); lia.
  - apply (Hgo (move (Holding (Some p)))); cbn; try done; destruct (wk_requested x); lia.
  - subst o. rewrite Hq. cbn. rewrite Hf. eexists _, (move (Checking p) x), q. split; [reflexivity|].
    right. split; [|cbn; destruct (wk_requested x); lia]. split; try done. by apply (worker_alter w _ x s).
  - subst n. eexists _, (move (Checked p true false) x), q. split; [reflexivity|].
    right. split; [|cbn; destruct (wk_requested x); lia]. split; try done. by apply (worker_alter w _ x s).
  - destruct Ht as (-> & -> & ->). apply (Hgo (λ x, move (Publishing p true false) (idles true x))); cbn; try done.
    destruct (wk_requested x); lia.
  - destruct Ht as (-> & -> & ->).
    eexists _, (move (Finishing p false) x), (mkProbe (pr_deadline q) (pr_finished q) true). split; [reflexivity|].
    right. split; [|cbn; destruct (wk_requested x); lia]. split; try done.
    + by apply (worker_alter w _ x s).
    + by apply (probe_alter p (λ q, mkProbe (pr_deadline q) (pr_finished q) true)).
  - destruct Ht as (-> & -> & Hready). eexists _, x, (mkProbe (pr_deadline q) true (pr_ready q)). split; [reflexivity|].
    left. split_and!; [done|done|]. by apply (probe_alter p (λ q, mkProbe (pr_deadline q) true (pr_ready q))).
Qed.
Lemma track_serves p w q x s : w ∉ wedged → on_track p w q x s → ∃ s' q', spared s s' ∧ alongside s s' ∧ probe_of p s' = Some q' ∧
  pr_finished q' = true ∧ pr_ready q' = true.
Proof.
  intros Hfree. remember (measure x) as n eqn:Hn. revert s x q Hn. induction (lt_wf n) as [n _ IH]. intros s x q -> Ht.
  destruct (track_advances p w q x s Ht) as (s1 & x1 & q1 & Hstep & [(Hf & Hr & Hq)|[Ht1 Hm]]).
  - exists s1, q1. split_and!; try done; [|by eapply serve_alongside]. apply rtc_once. by eapply serve_spares.
  - destruct (IH (measure x1) Hm s1 x1 q1 eq_refl Ht1) as (s2 & q2 & Hst & Hal & Hrest). exists s2, q2.
    split_and!; try apply Hrest.
    + eapply rtc_l; [by eapply serve_spares|done].
    + eapply alongside_trans; [by eapply serve_alongside|done].
Qed.

(** ** A call finds a worker *)

(** Of the workers that are counted as abandoned, none but wedged ones is left. *)
Lemma counted_within (l : list _Worker) (K : list nat) :
  (∀ v x, l !! v = Some x → wk_counted x = true → v ∈ K) → (counted_in l ≤ length K)%nat.
Proof.
  revert K. induction l as [|x l IH] using rev_ind; intros K HK; [cbn; lia|]. rewrite counted_snoc.
  destruct (wk_counted x) eqn:Hx; cbn [Nat.b2n].
  - assert (Hin : length l ∈ K) by (apply (HK _ x); [by apply list_lookup_middle|done]).
    pose proof (IH (filter (λ v, v ≠ length l) K)) as Hle.
    assert (Hlt : (length (filter (λ v, v ≠ length l) K) < length K)%nat).
    { apply (length_filter_lt (λ v, v ≠ length l) K (length l)); [done|auto]. }
    assert (counted_in l ≤ length (filter (λ v, v ≠ length l) K))%nat; [|lia].
    apply Hle. intros v y Hy Hc. apply list_elem_of_filter. split; [|apply (HK v y); [by apply lookup_app_l_Some|done]].
    intros ->. apply lookup_lt_Some in Hy. lia.
  - assert (counted_in l ≤ length K)%nat; [|lia]. apply IH. intros v y Hy. apply HK. by apply lookup_app_l_Some.
Qed.
(** Where a worker can be had: there is none, an idle one, or one that can be replaced. *)
Definition replaceable (s : System) (w : nat) : Prop :=
  (∃ x, worker_of w s = Some x ∧ wk_idle x = false ∧ is_alive x = true) ∧ (bp_abandoned (bp s) < max_abandoned_workers)%nat.
Definition available (s : System) : Prop :=
  match bp_worker (bp s) with
  | None => True
  | Some w => ((w ∉ wedged) ∧ ∃ x, worker_of w s = Some x ∧ wk_at x = Parked ∧ wk_idle x = true) ∨ replaceable s w
  end.
Definition held_up (s : System) : Prop := ∀ w, w ∈ wedged → ∃ p, at_of (bp s) w = Some (Checking p).
Lemma becomes_available s : (length wedged ≤ max_abandoned_workers)%nat → held_up s → safe s → fits (bp s) → bp_closed (bp s) = false →
  ∃ s', spared s s' ∧ alongside s s' ∧ available s'.
Proof.
  intros Hcap Hheld Hs Hfit Hcl. destruct (all_come_to_rest (length (bp_workers (bp s))) s Hs) as (s' & Hst & Hal & Hsame & Hrest).
  pose proof (spared_steps _ _ Hst) as Hst'. pose proof (steps_safe _ _ _ Htimeout _ _ Hs Hst') as Hs'.
  pose proof (steps_fits s s' Hs Hfit Hst') as Hfit'. rewrite <-(al_closed _ _ Hal) in Hcl. exists s'. split_and!; try done.
  unfold available. destruct (bp_worker (bp s')) as [w|] eqn:Hw; [|done].
  assert (Hrest' : ∀ v x, v ∉ wedged → worker_of v s' = Some x → at_rest x).
  { intros v x Hv Hx. apply (Hrest v); [|done|done]. destruct (decide (v < length (bp_workers (bp s)))%nat); [done|].
    rewrite (Hsame v) in Hx by (right; lia). by apply lookup_lt_Some in Hx. }
  destruct (wo_recorded _ _ (sf_workers _ _ _ _ Hs') w Hw) as (_ & x & Hx & [Halive Hcount] & Hab).
  destruct (decide (w ∈ wedged)) as [Hin|Hfree]; [right|left].
  - split.
    + exists x. split; [done|]. split; [|done]. destruct (Hfit' w x Hx) as (_ & H2 & _). apply H2.
      destruct (Hheld w Hin) as [p Hp]. rewrite <-(spared_at s s' w Hst Hin) in Hp. unfold at_of in Hp. rewrite Hx in Hp.
      cbn in Hp. by injection Hp as ->.
    + rewrite (wo_count _ _ (sf_workers _ _ _ _ Hs')).
      assert (Hlt : (length (filter (λ v, v ≠ w) wedged) < length wedged)%nat) by (apply (length_filter_lt _ _ w); [done|auto]).
      assert (counted_in (bp_workers (bp s')) ≤ length (filter (λ v, v ≠ w) wedged))%nat; [|lia].
      apply counted_within. intros v y Hy Hc. destruct (wo_counted _ _ (sf_workers _ _ _ _ Hs') v y Hy Hc) as [Hya Hyl].
      apply list_elem_of_filter. split; [intros ->; congruence|]. destruct (decide (v ∈ wedged)) as [|Hv]; [done|exfalso].
      destruct (Hrest' v y Hv Hy) as [Hg|[Hp Hr]]; [by unfold is_alive in Hyl; rewrite Hg in Hyl|].
      destruct (Hfit' v y Hy) as (_ & _ & H3). rewrite Hp in H3. by rewrite H3 in Hr.
  - split; [done|]. exists x. split; [done|]. destruct (Hrest' w x Hfree Hx) as [Hg|[Hp _]]; [by unfold is_alive in Halive; rewrite Hg in Halive|].
    split; [done|]. by apply (Hfit' w x).
Qed.
Lemma started_on_track s b w b' : _start_worker true b = (Some w, b') → bp_closed b = false →
  let p := length (bp_probes b') in
  let q := mkProbe (sy_now s + timeout_seconds) false false in
  w = length (bp_workers b) ∧ ∀ callers closers started results reports now,
  on_track p w q (request true new_worker)
    (mkSystem (on_worker w (request true) (set_probe (Some p) (set_probes (bp_probes b' ++ [q]) (set_pending_report None b'))))
       now callers closers started results reports).
Proof.
  intros [= <- <-] Hcl. split; [done|]. intros. split; cbn; try done.
  - unfold worker_of. cbn. by rewrite list_lookup_alter_eq, list_lookup_middle.
  - unfold probe_of. cbn. by rewrite list_lookup_middle.
Qed.
Lemma call_stays_at started rstarted s : safe s → stays_at (bp s) (bp (call started rstarted s)).
Proof.
  intros Hs. unfold Readiness.call. destruct (call_section _ _ _ _ _ _ _) as [[probe report] b'] eqn:Hcs.
  by destruct (call_section_spec _ _ _ _ _ _ _ _ _ _ (sf_workers _ _ _ _ Hs) (sf_awake _ _ _ _ Hs) Hcs) as (_ & _ & Hst & _).
Qed.
Lemma call_on_track s : held_up s → safe s → bp_closed (bp s) = false → available s → live_probe (sy_now s) (bp s) = None →
  ∃ p w q x, on_track p w q x (call true true s) ∧ (w ∉ wedged) ∧ sy_callers (call true true s) = sy_callers s ++ [(sy_now s, Waiting p)].
Proof.
  intros Hheld Hs Hcl Hav Hlive. unfold Readiness.call, call_section. rewrite Hcl, Hlive.
  assert (Hnew : length (bp_workers (bp s)) ∉ wedged).
  { intros Hin. destruct (Hheld _ Hin) as [p Hp]. unfold at_of in Hp. by rewrite (lookup_ge_None_2 (bp_workers (bp s))) in Hp by done. }
  unfold available in Hav. unfold _servicing_worker. destruct (bp_worker (bp s)) as [w|] eqn:Hw; cbn [mbind option_bind].
  2: { destruct (started_on_track s (bp s) _ _ eq_refl Hcl) as [_ Ht]. do 4 eexists. split; [apply Ht|done]. }
  destruct Hav as [(Hfree & x & Hx & Hat & Hidle)|[(x & Hx & Hidle & Halive) Hroom]]; unfold worker_of in Hx; rewrite Hx; cbn [mbind option_bind]; rewrite Hidle.
  - destruct (wo_recorded _ _ (sf_workers _ _ _ _ Hs) w Hw) as (_ & y & Hy & _ & Hab). rewrite Hx in Hy. injection Hy as <-.
    exists (length (bp_probes (bp s))), w, (mkProbe (sy_now s + timeout_seconds) false false), (request true x). split; [|done].
    split; cbn; try done.
    + unfold worker_of. cbn. by rewrite list_lookup_alter_eq, Hx.
    + unfold probe_of. cbn. by rewrite list_lookup_middle.
    + unfold track. cbn. by rewrite Hat.
  - rewrite Halive, (proj2 (Nat.leb_gt _ _) Hroom). cbn [andb].
    set (b1 := on_worker w (count_as true) _).
    destruct (wake_reclaimer_frame has_cancel true b1) as (E1 & _ & _ & E4 & _).
    assert (Hlen : length (bp_workers (_wake_reclaimer has_cancel true b1)) = length (bp_workers (bp s))).
    { rewrite E1. cbn. by rewrite !length_alter. }
    assert (Hcl1 : bp_closed (_wake_reclaimer has_cancel true b1) = false) by by rewrite E4.
    set (b2 := _wake_reclaimer has_cancel true b1) in *. clearbody b2.
    destruct (started_on_track s b2 _ _ eq_refl Hcl1) as [_ Ht]. do 4 eexists. split; [apply Ht|]. by rewrite Hlen.
Qed.
End wedged.

(** C24: No fault latches readiness. From every state the probe reaches while it is open, let any workers, no more than the cap on
    abandoned ones, be wedged in a check that never returns: without a step of theirs a new call is answered yes
    within a timeout, once the store answers the others: the call that finds the recorded worker wedged abandons and replaces
    it, and the abandoned ones whose check did return give their place up. *)
Theorem probe_recovers s wedged : reachable timeout_seconds max_abandoned_workers has_cancel s → bp_closed (bp s) = false →
  (length wedged ≤ max_abandoned_workers)%nat → held_up wedged s →
  ∃ s' t, rtc (sparing wedged) s s' ∧ last (sy_callers s') = Some (t, Answered true) ∧ sy_now s <= t <= sy_now s + timeout_seconds.
Proof.
  intros Hreach Hcl Hcap Hheld. pose proof (reachable_safe _ _ _ Htimeout s Hreach) as Hs.
  assert (Hfit : fits (bp s)).
  { destruct Hreach as [now Hr]. apply (steps_fits (new_system now)); [by apply new_system_safe|done|done]. }
  destruct (becomes_available wedged s Hcap Hheld Hs Hfit Hcl) as (s1 & Hst1 & Hal1 & Hav1).
  pose proof (steps_safe _ _ _ Htimeout _ _ Hs (spared_steps _ _ _ Hst1)) as Hs1.
  set (d := match bp_probe (bp s1) ≫= λ p, probe_of p s1 with Some q => Z.max 0 (pr_deadline q - sy_now s1) | None => 0 end).
  set (s2 := tick d s1).
  assert (Hd : 0 <= d <= timeout_seconds).
  { unfold d. destruct (_ ≫= _) as [q|] eqn:Hq; [|lia]. destruct (bp_probe (bp s1)) as [p|]; [|done]. cbn in Hq.
    pose proof (ck_deadline _ _ _ _ _ (sf_checks _ _ _ _ Hs1) p q Hq). lia. }
  assert (Hlive : live_probe (sy_now s2) (bp s2) = None).
  { unfold live_probe. cbn. unfold d, probe_of. destruct (bp_probe (bp s1)) as [p|]; [|done]. cbn.
    destruct (bp_probes (bp s1) !! p) as [q|]; [|done]. cbn. rewrite (proj2 (Z.leb_le _ _)) by lia. by rewrite orb_true_r. }
  assert (Hheld2 : held_up wedged s2).
  { intros w Hw. destruct (Hheld w Hw) as [p Hp]. exists p. rewrite <-Hp. by apply (spared_at wedged s s1). }
  destruct (call_on_track wedged s2) as (p & w & q & x & Ht & Hfree & Hc); try done.
  { apply tick_safe; [lia|done]. }
  { cbn. by rewrite (al_closed _ _ Hal1). }
  destruct (track_serves wedged p w q x _ Hfree Ht) as (s3 & q3 & Hst3 & Hal3 & Hq3 & Hf3 & Hr3).
  set (c := length (sy_callers s2)).
  assert (Hcall : sy_callers s3 !! c = Some (sy_now s2, Waiting p)).
  { rewrite (al_callers _ _ Hal3), Hc. by rewrite list_lookup_middle. }
  exists (set_caller c (sy_now s2, Answered true) s3), (sy_now s2). split_and!.
  - etrans; [exact Hst1|]. eapply rtc_l; [split; [apply (step_tick _ _ _ d), Hd|done]|].
    eapply rtc_l; [split; [apply (step_call _ _ _ true true)|]|].
    { intros v Hv. destruct (Hheld2 v Hv) as [n Hn]. destruct (call_stays_at true true s2 (tick_safe _ _ _ d s1 (proj1 Hd) Hs1) v) as [?|[E _]]; [done|].
      congruence. }
    etrans; [exact Hst3|]. apply rtc_once. split; [|done]. apply (step_wait _ _ _ c). unfold wait. rewrite Hcall, Hq3. cbn. by rewrite Hf3, Hr3.
  - cbn. rewrite (al_callers _ _ Hal3), Hc. rewrite insert_app_r_alt by done. rewrite Nat.sub_diag. cbn. by rewrite last_snoc.
  - cbn. rewrite (al_now _ _ Hal1). lia.
  - cbn. rewrite (al_now _ _ Hal1). lia.
Qed.
End live.

(** The first call's check never returns. *)
Definition stuck_run : System := serves 0 (replicate 6 (Returns true)) (call 5 1 true true true (new_system 0)).
Lemma stuck_reachable : reachable 5 1 true stuck_run.
Proof. exists 0. eapply rtc_l; [apply (step_call _ _ _ true true)|]. apply (serves_steps _ _ _ 0 (replicate 6 (Returns true))). Qed.
Lemma probe_recovers_witness :
  bp_worker (sy_backend_probe stuck_run) = Some 0%nat ∧
  ∃ s' t, rtc (sparing 5 1 true [0%nat]) stuck_run s' ∧ last (sy_callers s') = Some (t, Answered true) ∧ 0 <= t <= 5.
Proof.
  split; [done|]. apply (probe_recovers 5 1 true eq_refl stuck_run [0%nat] stuck_reachable eq_refl (le_n 1)).
  intros w ->%list_elem_of_singleton. exists 0%nat. done.
Defined.
