(* ===== verification/HttpServer.v ===== *)
(** * The HTTP server ([src/vinctor_service/local_http.py])

    How a request is gated, routed, authenticated, run under its idempotency key
    when it has one, answered and observed.  The service is any state with the
    operations the handlers call; the sockets, the threads and the clocks are
    not modelled: a request carries what was received and what the clocks read.
    A request's target is an absolute path, as origin servers receive it.  The
    body is read as [json.loads] reads it, a float as an empty object, which the
    handlers refuse alike. *)
From S2P Require Import Prelude PyStr PyDict PyTime Models ServiceModels Sha256 Pop World Json.
From S2P Require Import V1Enforce Grants SubjectTokens AutoApproval Service Ratelimit Http V1Http BoundaryHttp GrantHttp.
From S2P Require Import RequestHttp AuditHttp IdemCrypto IdemStorage IdemHttp Oidc Metrics Readiness.

(** ** Requests and responses *)

Record Request := mkRequest {
  rq_method : string;
  (** The request target. *)
  rq_path : string;
  (** The header lines, in order. *)
  rq_headers : list (string * string);
  (** What can be read from the connection after the headers. *)
  rq_stream : string;
  rq_peer : string;
  (** [time.time()], and the duration of the request. *)
  rq_time : Z;
  rq_elapsed : Z
}.
Record Sent := mkSent {
  sn_response : PreSerializedHttpResponse;
  sn_headers : list (string * string)
}.
(** [headers.get_all(name)], [headers.get(name)] *)
Definition get_all (name : string) (rq : Request) : list string :=
  map snd (List.filter (λ kv, lower kv.1 == lower name) (rq_headers rq)).
Definition get_header (name : string) (rq : Request) : option string := head (get_all name rq).
(** [dict(headers.items())] *)
Definition headers_dict (rq : Request) : dict string string :=
  foldl (λ d kv, dset kv.1 kv.2 d) [] (rq_headers rq).

(** [urlsplit] of a target that is an absolute path. *)
Fixpoint up_to (stop : ascii → bool) (s : string) : string * string :=
  match s with
  | EmptyString => ("", "")
  | String c s' => if stop c then ("", s) else let '(h, t) := up_to stop s' in (String c h, t)
  end.
Definition urlsplit (target : string) : string * string :=
  let url := (up_to (Ascii.eqb "#") target).1 in
  let '(path, query) := up_to (Ascii.eqb "?") url in
  (path, match query with String _ q => q | EmptyString => "" end).
Definition path_of (rq : Request) : string := (urlsplit (rq_path rq)).1.
Definition query_of (rq : Request) : string := (urlsplit (rq_path rq)).2.

Definition DATABASE_FREE_PATHS : list string := ["/healthz"; "/metrics"; "/readyz"].
Definition _needs_database (raw_path : string) : bool :=
  negb (existsb (String.eqb (urlsplit raw_path).1) DATABASE_FREE_PATHS).
Definition RATE_LIMIT_EXEMPT_PATHS : list string := ["/healthz"].
Definition MAX_BODY_BYTES : Z := 64 * 1024.

(** ** Bodies *)

(** The lexical structure of a text: strings are skipped, a number with a
    fraction or an exponent, and the constants [NaN] and [Infinity], are floats. *)
Fixpoint take_string (s : string) : string * string :=
  match s with
  | EmptyString => ("", "")
  | String c s' =>
      if Ascii.eqb c dquote then (String c "", s')
      else if Ascii.eqb c backslash then
        match s' with
        | String d s'' => let '(h, t) := take_string s'' in (String c (String d h), t)
        | EmptyString => (String c "", "")
        end
      else let '(h, t) := take_string s' in (String c h, t)
  end.
Definition is_digit (c : ascii) : bool := char_between "0" "9" c.
Definition digits (s : string) : string * string := up_to (λ c, negb (is_digit c)) s.
Definition take_int (s : string) : option (string * string) :=
  let '(sign, s1) := match s with
                     | String c s' => if Ascii.eqb c "-" then ("-", s') else ("", s)
                     | EmptyString => ("", s)
                     end in
  match s1 with
  | String c s' =>
      if Ascii.eqb c "0" then Some (sign ^+ "0", s')
      else if is_digit c then let '(h, t) := digits s1 in Some (sign ^+ h, t)
      else None
  | EmptyString => None
  end.
Definition take_fraction (s : string) : option (string * string) :=
  match s with
  | String c s' =>
      if Ascii.eqb c "." then
        match digits s' with ("", _) => None | (h, t) => Some (String c h, t) end
      else None
  | EmptyString => None
  end.
Definition take_exponent (s : string) : option (string * string) :=
  match s with
  | String c s' =>
      if Ascii.eqb c "e" || Ascii.eqb c "E" then
        let '(sign, s2) := match s' with
                           | String d s'' => if Ascii.eqb d "-" || Ascii.eqb d "+"
                                             then (String d "", s'') else ("", s')
                           | EmptyString => ("", s')
                           end in
        match digits s2 with ("", _) => None | (h, t) => Some (String c (sign ^+ h), t) end
      else None
  | EmptyString => None
  end.
(** What stands for the number at the start, and the rest. *)
Definition take_number (s : string) : option (string * string) :=
  '(whole, s1) ← take_int s;
  let '(fractional, s2) := match take_fraction s1 with Some (_, t) => (true, t) | None => (false, s1) end in
  let '(exponential, s3) := match take_exponent s2 with Some (_, t) => (true, t) | None => (false, s2) end in
  Some (if fractional || exponential then "{}" else whole, s3).
Definition take_constant (s : string) : option string :=
  if startswith s "NaN" then Some (removeprefix s "NaN")
  else if startswith s "Infinity" then Some (removeprefix s "Infinity")
  else if startswith s "-Infinity" then Some (removeprefix s "-Infinity")
  else None.
Fixpoint floats_as_objects (fuel : nat) (s : string) : string :=
  match fuel, s with
  | O, _ | _, EmptyString => ""
  | S fuel, String c s' =>
      if Ascii.eqb c dquote then let '(h, t) := take_string s' in String c (h ^+ floats_as_objects fuel t)
      else
        match take_number s with
        | Some (text, rest) => text ^+ floats_as_objects fuel rest
        | None =>
            match take_constant s with
            | Some rest => "{}" ^+ floats_as_objects fuel rest
            | None => String c (floats_as_objects fuel s')
            end
        end
  end.
Definition json_loads_bytes (raw_body : string) : result json :=
  if negb (utf8_ok raw_body) then Raise (ValueError "invalid UTF-8")
  else loads (floats_as_objects (String.length raw_body) raw_body).
Example json_loads_bytes_floats :
  let q := String dquote "" in
  json_loads_bytes ("{" ^+ q ^+ "a" ^+ q ^+ ": [1.5, -2e3, 7, NaN, " ^+ q ^+ "1.5" ^+ q ^+ "]}") =
    Ok (JObj [("a", JList [JObj []; JObj []; JInt 7; JObj []; JStr "1.5"])]).
Proof. vm_compute. reflexivity. Qed.

Section settings.
Context (int_unicode : string → result Z).
Definition payload_too_large : V1HttpResponse :=
  _error 413 "payload_too_large" ("request body must not exceed " ^+ pretty MAX_BODY_BYTES ^+ " bytes").
(** [rfile.read(n)] gives the first [n] bytes. *)
Definition _read_json_body (rq : Request) : parsed json :=
  match py_int int_unicode (str_or_else (get_header "Content-Length" rq) "0") with
  | Raise _ => inl (_error 400 "invalid_request" "Content-Length must be an integer")
  | Ok length =>
      if length <? 0 then inl (_error 400 "invalid_request" "Content-Length must not be negative")
      else if MAX_BODY_BYTES <? length then inl payload_too_large
      else
        match json_loads_bytes (String.substring 0 (Z.to_nat (Z.min length MAX_BODY_BYTES)) (rq_stream rq)) with
        | Ok body => inr body
        | Raise _ => inl (_error 400 "invalid_json" "request body must be valid JSON")
        end
  end.
Definition _read_optional_json_body (rq : Request) : parsed json :=
  match get_header "Content-Length" rq with
  | None => inr JNull
  | Some length_header => if length_header == "0" then inr JNull else _read_json_body rq
  end.

(** ** Configuration read from the environment *)

Definition _resolve_pop_skew_seconds (env : dict string string) : Z :=
  match dget "VINCTOR_SUBJECT_TOKEN_POP_SKEW_SECONDS" env with
  | None => DEFAULT_SUBJECT_TOKEN_POP_SKEW_SECONDS
  | Some raw => match py_int int_unicode raw with Ok n => n | Raise _ => DEFAULT_SUBJECT_TOKEN_POP_SKEW_SECONDS end
  end.
Definition _resolve_rate_limit (env : dict string string) : option Z :=
  raw ← dget "VINCTOR_RATE_LIMIT_PER_MINUTE" env;
  match py_int int_unicode raw with
  | Ok value => if 0 <? value then Some value else None
  | Raise _ => None
  end.
Definition token_max_ttl (env : dict string string) : result Z :=
  match dget "VINCTOR_SUBJECT_TOKEN_MAX_TTL_SECONDS" env with
  | None => Ok DEFAULT_SUBJECT_TOKEN_MAX_TTL_SECONDS
  | Some raw => py_int int_unicode raw
  end.
End settings.

(** ** Headers and routes *)

(** A bearer token stands for the key of the header, when no key is given. *)
Definition local_headers : list string :=
  ["x-workspace-key"; "x-auditor-key"; "x-service-operator-key"; "x-agent-key"].
Definition _authorization_headers (rq : Request) (target_header : string) : dict string string :=
  let headers := headers_dict rq in
  if existsb (λ h, din h (normalized headers)) local_headers then headers
  else
    let '(scheme, separator, token) := partition " " (default "" (dget "authorization" (normalized headers))) in
    if (lower scheme == "bearer") && negb (separator == "") && negb (token == "") && negb (contains " " token)
    then dset target_header token headers else headers.
Definition _grant_request_idempotency_operation (method path : string) : option string :=
  if negb (method == "POST") then None
  else if negb (startswith path "/v1/grant-requests/") then None
  else
    match split "/" (removeprefix path "/v1/grant-requests/") with
    | [request_id; action] =>
        if request_id == "" then None
        else dget action [("approve", "grant_request.approve.v1"); ("reject", "grant_request.reject.v1");
                          ("auto-approve", "grant_request.auto_approve.v1")]
    | _ => None
    end.

Definition _EXACT_ROUTES : list string :=
  ["/healthz"; "/readyz"; "/metrics"; "/v1/enforce/delegated"; "/v1/enforce"; "/v1/observe"; "/v1/tokens";
   "/v1/service/audit/auth-failures"].
Definition _COLLECTION_ROUTES : list string :=
  ["/v1/boundaries"; "/v1/auto-approval-rules"; "/v1/grant-requests"; "/v1/grants"; "/v1/audit-events"].
Fixpoint collection_label (path : string) (collections : list string) : string :=
  match collections with
  | [] => "other"
  | collection :: collections' =>
      if path == collection then collection
      else if startswith path (collection ^+ "/") then collection ^+ "/:id"
      else collection_label path collections'
  end.
Definition _route_label (path : string) : string :=
  if existsb (String.eqb path) _EXACT_ROUTES then path else collection_label path _COLLECTION_ROUTES.

(** ** Sending *)

Definition _send_pre_serialized (response : PreSerializedHttpResponse) : Sent :=
  mkSent response [("Content-Type", ps_content_type response);
                   ("Content-Length", pretty (Z.of_nat (String.length (ps_body response))))].
Definition _send_json (response : V1HttpResponse) : Sent :=
  _send_pre_serialized (encode_json_response response).
Definition _send_rate_limited : Sent :=
  let payload := dumps true (JObj [("error", JStr "rate_limited")]) in
  mkSent (mkPreSerializedHttpResponse 429 "application/json" payload
            (mkHttpResponseObservation (Some "rate_limited") None))
    [("Content-Type", "application/json"); ("Content-Length", pretty (Z.of_nat (String.length payload)));
     ("Retry-After", "60")].
Definition _send_text (status : Z) (body content_type : string) : Sent :=
  mkSent (mkPreSerializedHttpResponse status content_type body (mkHttpResponseObservation None None))
    [("Content-Type", content_type); ("Content-Length", pretty (Z.of_nat (String.length body)))].

(** ** The handler of a server *)
Section handler.
Context {S : Type} `{V1Service S} `{BoundaryAdminService S} `{GrantLifecycleService S}.
Context `{GrantRequestService S} `{AutoApprovalAdminService S} `{AuditReadService S} `{AuthFailureReadService S}.
Context (int_unicode : string → result Z) (set_order : list string → list string).
Context (new_rule_id : M S string).

(** What [create_v1_http_handler] closes over. *)
Record Options := mkOptions {
  so_agents : Keyring S AgentIdentity;
  so_workspaces : Keyring S WorkspaceIdentity;
  so_auditors : Keyring S WorkspaceIdentity;
  so_peps : Keyring S PepIdentity;
  so_operator_keys : list string;
  so_operator_resolver : option (string → Z → M S bool);
  so_oidc : option (string → option OidcPrincipal);
  so_now : M S Z;
  so_service_mode : string;
  so_readiness : option (M S bool);
  (** [service.execute_idempotent], when the service has it. *)
  so_execute : option (IdempotencyInvocation → M S CacheableTerminalOutcome → M S PreSerializedHttpResponse);
  so_env : dict string string
}.
Context (options : Options).

Definition oidc_principal (raw_key : string) : option OidcPrincipal :=
  token_verifier ← so_oidc options; token_verifier raw_key.
Definition workspace_of_role (roles : list string) (principal : option OidcPrincipal) : option WorkspaceIdentity :=
  principal ← principal;
  workspace_id ← op_workspace_id principal;
  if existsb (λ role, Oidc.member role (op_roles principal)) roles
  then Some (mkWorkspaceIdentity workspace_id) else None.
Definition resolve_workspace_identity (raw_key : string) (used_at : Z) : M S (option WorkspaceIdentity) :=
  identity ← resolve_identity (so_workspaces options) raw_key used_at;
  match identity with
  | Some identity => mret (Some identity)
  | None => mret (workspace_of_role ["operator"] (oidc_principal raw_key))
  end.
Definition resolve_auditor_identity (raw_key : string) (used_at : Z) : M S (option WorkspaceIdentity) :=
  identity ← resolve_identity (so_auditors options) raw_key used_at;
  match identity with
  | Some identity => mret (Some identity)
  | None => mret (workspace_of_role ["operator"; "auditor"] (oidc_principal raw_key))
  end.
Definition resolve_service_operator (raw_key : string) (used_at : Z) : M S bool :=
  authenticated ← match so_operator_resolver options with
                  | Some resolver => resolver raw_key used_at
                  | None => mret (existsb (String.eqb raw_key) (so_operator_keys options))
                  end;
  if authenticated : bool then mret true
  else mret match oidc_principal raw_key with
            | Some principal => Oidc.member "service_operator" (op_roles principal)
            | None => false
            end.
(** The keys the handlers are given. *)
Definition workspace_keyring : Keyring S WorkspaceIdentity :=
  mkKeyring (kr_identities (so_workspaces options)) (Some resolve_workspace_identity).
Definition auditor_keyring : Keyring S WorkspaceIdentity :=
  mkKeyring (kr_identities (so_auditors options)) (Some resolve_auditor_identity).

Definition workspace_idempotency_scope (headers : dict string string) (request_now : Z) :
    M S (option AuthenticatedIdempotencyScope) :=
  identity ← header_identity "x-workspace-key" headers workspace_keyring request_now;
  mret match identity with
       | None => None
       | Some identity => Some (mkAuthenticatedIdempotencyScope (wi_workspace_id identity)
                                  ("workspace:" ^+ wi_workspace_id identity))
       end.
Definition agent_idempotency_scope (headers : dict string string) (request_now : Z) :
    M S (option AuthenticatedIdempotencyScope) :=
  identity ← header_identity "x-agent-key" headers (so_agents options) request_now;
  mret match identity with
       | None => None
       | Some identity => Some (mkAuthenticatedIdempotencyScope (ai_workspace_id identity)
                                  ("agent:" ^+ ai_agent_id identity))
       end.

(** What a request is answered with. *)
Abbreviation Answer := (M S PreSerializedHttpResponse).
Definition send (m : M S V1HttpResponse) : Answer := response ← m; mret (encode_json_response response).
Definition sent (response : V1HttpResponse) : Answer := mret (encode_json_response response).
Definition _send_idempotent_mutation (request : HttpIdempotencyRequest)
    (mutation : M S CacheableTerminalOutcome) : Answer :=
  execute_idempotent_http (so_execute options) request mutation.
Definition cacheable (m : M S V1HttpResponse) : M S CacheableTerminalOutcome :=
  response ← m; mret (cacheable_json_outcome response None).
(** The fingerprint of a mutation: its route, its principal and its parsed body. *)
Definition mutation_request (path : string) (scope : AuthenticatedIdempotencyScope) (operation : string)
    (request_body : string) (key_headers : list string) : HttpIdempotencyRequest :=
  mkHttpIdempotencyRequest
    (mkRequestFingerprintInput "POST" path (is_workspace_id scope) (is_principal scope) operation request_body)
    key_headers.
Definition post_required (path : string) : V1HttpResponse :=
  method_not_allowed ("POST is required for " ^+ path).
(** [parsed = _read_json_body(handler); if isinstance(parsed, V1HttpResponse): ...] *)
Definition with_body {A} (body : parsed A) (k : A → Answer) : Answer :=
  match body with inl response => sent response | inr body => k body end.

Definition _handle_health_request (method : string) : V1HttpResponse :=
  health_response method (so_service_mode options).
Definition _handle_readiness_request (method : string) : Answer :=
  send (readiness_response method (default (mret true) (so_readiness options))).
Definition _handle_enforce_request (rq : Request) (method : string) : Answer :=
  if negb (method == "POST") then sent (post_required "/v1/enforce")
  else with_body (_read_json_body int_unicode rq) (λ body,
    now ← so_now options;
    send (handle_v1_enforce_http (headers_dict rq) body (so_agents options) now)).
Definition _handle_observe_request (rq : Request) (method : string) : Answer :=
  if negb (method == "POST") then sent (post_required "/v1/observe")
  else with_body (_read_json_body int_unicode rq) (λ body,
    now ← so_now options;
    send (handle_v1_observe_http (headers_dict rq) body (so_agents options) now)).
Definition _handle_simulate_request (rq : Request) (method : string) : Answer :=
  if negb (method == "POST") then sent (post_required "/v1/simulate")
  else with_body (_read_json_body int_unicode rq) (λ body,
    now ← so_now options;
    send (handle_v1_simulate_http (headers_dict rq) body (so_agents options) now)).
Definition _handle_delegated_enforce_request (rq : Request) (method : string) : Answer :=
  if negb (method == "POST") then sent (post_required "/v1/enforce/delegated")
  else with_body (_read_json_body int_unicode rq) (λ body,
    now ← so_now options;
    send (handle_v1_delegated_enforce_http (headers_dict rq) body (so_peps options) now
            (_resolve_pop_skew_seconds int_unicode (so_env options)))).

Definition optional_json (o : option string) : json := match o with Some s => JStr s | None => JNull end.
Definition mint_fingerprint_body (p : ParsedTokenMintBody) : string :=
  compact_dumps (JObj [("grant_ref", JStr (pm_grant_ref p)); ("audience", JStr (pm_audience p));
    ("ttl_seconds", JInt (pm_ttl_seconds p)); ("action", optional_json (pm_bound_action p));
    ("resource", optional_json (pm_bound_resource p)); ("pop", JBool (pm_pop p))]).
(** A token is not replayed once it has expired. *)
Definition mint_outcome (p : ParsedTokenMintBody) (identity : AgentIdentity) (request_now : Z) :
    M S CacheableTerminalOutcome :=
  '(response, minted) ← mint_v1_token_http_result p identity request_now;
  if hr_status_code response =? 201 then
    match mt_expires_at minted with
    | None => raise AssertionError
    | Some expires_at => mret (cacheable_json_outcome response (Some (expires_at / 1000000)))
    end
  else mret (cacheable_json_outcome response None).
Definition _handle_tokens_request (rq : Request) (method : string)
    (idempotency_headers : option (list string)) : Answer :=
  if negb (method == "POST") then sent (post_required "/v1/tokens")
  else with_body (_read_json_body int_unicode rq) (λ body,
    let headers := headers_dict rq in
    request_now ← so_now options;
    max_ttl ← lift (token_max_ttl int_unicode (so_env options));
    let mutate := send (handle_v1_tokens_http headers body (so_agents options) request_now max_ttl) in
    match idempotency_headers with
    | None => mutate
    | Some key_headers =>
        scope ← agent_idempotency_scope headers request_now;
        match scope with
        | None => mutate
        | Some scope =>
            with_body (parse_v1_token_mint_body body max_ttl) (λ parsed_request,
            let identity := mkAgentIdentity (is_workspace_id scope) (removeprefix (is_principal scope) "agent:") in
            _send_idempotent_mutation
              (mutation_request "/v1/tokens" scope "subject_token.mint.v1"
                 (mint_fingerprint_body parsed_request) key_headers)
              (mint_outcome parsed_request identity request_now))
        end
    end).

(** The mutations of a workspace: the body is read on their route only. *)
Definition body_on (here : bool) (rq : Request) : parsed json :=
  if here then _read_json_body int_unicode rq else inr JNull.
Definition boundary_fingerprint_body (p : ParsedBoundaryCreateBody) : string :=
  compact_dumps (JObj [("name", JStr (pb_name p)); ("runtime", JStr (pb_runtime p));
    ("boundary_type", JStr (pb_boundary_type p)); ("mode", JStr (pb_mode p))]).
Definition _handle_boundary_request (rq : Request) (method path : string)
    (idempotency_headers : option (list string)) : Answer :=
  let creates := (method == "POST") && (path == "/v1/boundaries") in
  with_body (body_on creates rq) (λ body,
    let headers := _authorization_headers rq "X-Workspace-Key" in
    request_now ← so_now options;
    let mutate := send (handle_v1_boundaries_http method path headers body workspace_keyring request_now) in
    match idempotency_headers with
    | None => mutate
    | Some key_headers =>
        if negb creates then mutate
        else
          scope ← workspace_idempotency_scope headers request_now;
          match scope with
          | None => mutate
          | Some scope =>
              with_body (parse_v1_boundary_create_body body) (λ parsed_request,
              _send_idempotent_mutation
                (mutation_request path scope "boundary.create.v1"
                   (boundary_fingerprint_body parsed_request) key_headers)
                (cacheable (create_v1_boundary_response parsed_request
                   (mkWorkspaceIdentity (is_workspace_id scope)) request_now)))
          end
    end).
Definition rule_fingerprint_body (p : ParsedCreateRuleBody) : string :=
  compact_dumps (JObj [("name", JStr (pu_name p)); ("target_agent_id", JStr (pu_target_agent_id p));
    ("allowed_scopes", jstrs (pu_allowed_scopes p)); ("max_ttl_seconds", JInt (pu_max_ttl_seconds p))]).
Definition _handle_auto_approval_rule_request (rq : Request) (method path : string)
    (idempotency_headers : option (list string)) : Answer :=
  let creates := (method == "POST") && (path == "/v1/auto-approval-rules") in
  with_body (body_on creates rq) (λ body,
    let headers := _authorization_headers rq "X-Workspace-Key" in
    request_now ← so_now options;
    let mutate := send (handle_v1_auto_approval_rules_http new_rule_id method path headers body
                          workspace_keyring request_now) in
    match idempotency_headers with
    | None => mutate
    | Some key_headers =>
        if negb creates then mutate
        else
          scope ← workspace_idempotency_scope headers request_now;
          match scope with
          | None => mutate
          | Some scope =>
              with_body (parse_v1_auto_approval_rule_create_body body) (λ parsed_request,
              _send_idempotent_mutation
                (mutation_request path scope "auto_approval_rule.create.v1"
                   (rule_fingerprint_body parsed_request) key_headers)
                (cacheable (create_v1_auto_approval_rule_response new_rule_id parsed_request
                   (mkWorkspaceIdentity (is_workspace_id scope)) request_now)))
          end
    end).
Definition grant_fingerprint_body (p : ParsedGrantIssueBody) : string :=
  compact_dumps (JObj [("agent_id", JStr (pg_agent_id p)); ("scopes", jstrs (pg_scopes p));
    ("ttl_seconds", JInt (pg_ttl_seconds p))]).
Definition _handle_grant_request (rq : Request) (method path query_string : string)
    (idempotency_headers : option (list string)) : Answer :=
  let creates := (method == "POST") && (path == "/v1/grants") in
  with_body (body_on creates rq) (λ body,
    let headers := _authorization_headers rq "X-Workspace-Key" in
    request_now ← so_now options;
    let mutate := send (handle_v1_grants_http set_order method path headers body query_string
                          workspace_keyring request_now) in
    match idempotency_headers with
    | None => mutate
    | Some key_headers =>
        if negb creates then mutate
        else
          scope ← workspace_idempotency_scope headers request_now;
          match scope with
          | None => mutate
          | Some scope =>
              with_body (parse_v1_grant_issue_body body) (λ parsed_request,
              _send_idempotent_mutation
                (mutation_request path scope "grant.issue.v1" (grant_fingerprint_body parsed_request) key_headers)
                (cacheable (issue_v1_grant_response parsed_request
                   (mkWorkspaceIdentity (is_workspace_id scope)) request_now)))
          end
    end).
Definition _handle_grant_request_request (rq : Request) (method path : string)
    (idempotency_headers : option (list string)) : Answer :=
  with_body (if method == "POST" then _read_optional_json_body int_unicode rq else inr JNull) (λ body,
    let headers := _authorization_headers rq "X-Workspace-Key" in
    request_now ← so_now options;
    let mutate := send (handle_v1_grant_requests_http set_order method path headers body workspace_keyring
                          (so_agents options) request_now) in
    match idempotency_headers, _grant_request_idempotency_operation method path with
    | Some key_headers, Some operation =>
        scope ← workspace_idempotency_scope headers request_now;
        match scope with
        | None => mutate
        | Some scope =>
            let identity := mkWorkspaceIdentity (is_workspace_id scope) in
            match split "/" (removeprefix path "/v1/grant-requests/") with
            | [request_id; action] =>
                if action == "auto-approve" then
                  with_body (parse_v1_grant_request_auto_approve_body body) (λ _,
                  _send_idempotent_mutation (mutation_request path scope operation "" key_headers)
                    (cacheable (auto_approve_v1_grant_request_response request_id identity request_now)))
                else
                  with_body (parse_v1_grant_request_decision_body body) (λ decision_reason,
                  _send_idempotent_mutation
                    (mutation_request path scope operation
                       (compact_dumps (JObj [("decision_reason", optional_json decision_reason)])) key_headers)
                    (cacheable (decide_v1_grant_request_response request_id
                       (if action == "approve" then "approve" else "reject") identity decision_reason
                       request_now)))
            | _ => raise (ValueError "not enough values to unpack")
            end
        end
    | _, _ => mutate
    end).
Definition _handle_audit_request (rq : Request) (method path query_string : string) : Answer :=
  now ← so_now options;
  send (handle_v1_audit_events_http set_order int_unicode method path query_string
          (_authorization_headers rq "X-Auditor-Key") workspace_keyring auditor_keyring now).
Definition _handle_service_auth_failures_request (rq : Request) (method path query_string : string) : Answer :=
  now ← so_now options;
  send (handle_v1_service_auth_failures_http int_unicode method path query_string
          (_authorization_headers rq "X-Service-Operator-Key") (so_operator_keys options)
          (Some resolve_service_operator) now).

(** ** Routing *)

Definition route (rq : Request) (method : string) (idempotency_headers : option (list string))
    (metrics_text : option string) : M S Sent :=
  let '(path, query) := urlsplit (rq_path rq) in
  let under prefix := (path == prefix) || startswith path (prefix ^+ "/") in
  let json (m : Answer) : M S Sent := response ← m; mret (_send_pre_serialized response) in
  if path == "/healthz" then mret (_send_json (_handle_health_request method))
  else if path == "/readyz" then json (_handle_readiness_request method)
  else if path == "/metrics" then
    mret match metrics_text with
         | None => _send_json (_error 404 "not_found" "route not found")
         | Some text =>
             if negb (method == "GET")
             then _send_json (_error 405 "method_not_allowed" "GET is required for /metrics")
             else _send_text 200 text "text/plain; version=0.0.4"
         end
  else if path == "/v1/enforce/delegated" then json (_handle_delegated_enforce_request rq method)
  else if path == "/v1/enforce" then json (_handle_enforce_request rq method)
  else if path == "/v1/observe" then json (_handle_observe_request rq method)
  else if path == "/v1/simulate" then json (_handle_simulate_request rq method)
  else if path == "/v1/tokens" then json (_handle_tokens_request rq method idempotency_headers)
  else if under "/v1/boundaries" then json (_handle_boundary_request rq method path idempotency_headers)
  else if under "/v1/auto-approval-rules"
  then json (_handle_auto_approval_rule_request rq method path idempotency_headers)
  else if under "/v1/grant-requests"
  then json (_handle_grant_request_request rq method path idempotency_headers)
  else if under "/v1/grants" then json (_handle_grant_request rq method path query idempotency_headers)
  else if under "/v1/audit-events" then json (_handle_audit_request rq method path query)
  else if path == "/v1/service/audit/auth-failures"
  then json (_handle_service_auth_failures_request rq method path query)
  else mret (_send_json (_error 404 "not_found" "route not found")).

(** ** Dispatch *)

(** What the server keeps besides the service: the limiter and the metrics, when
    they are enabled, and the lines of the access log. *)
Record AccessLine := mkAccessLine {
  al_method : string;
  al_path : string;
  al_status : Z;
  al_elapsed : Z;
  al_decision : option string;
  al_error : option string
}.
Record Server := mkServer {
  sv_service : S;
  sv_limiter : option FixedWindowRateLimiter;
  sv_metrics : option Metrics;
  sv_access_log : option (list AccessLine)
}.
Definition set_service (s : S) (sv : Server) : Server :=
  mkServer s (sv_limiter sv) (sv_metrics sv) (sv_access_log sv).
Definition set_limiter (l : option FixedWindowRateLimiter) (sv : Server) : Server :=
  mkServer (sv_service sv) l (sv_metrics sv) (sv_access_log sv).

Context {Address Network : Type}.
Context (ip_address : string → option Address) (str_address : Address → string)
  (in_network : Address → Network → bool) (len : string → nat) (show_total : Z → string).
Context (trusted_proxies : list Network).
(** The connection leased for the request, on a pool of SQLite connections. *)
Context (request_scope : M S Sent → M S Sent).

(** The gate counts the request against its source; it fails open. *)
Definition _check_rate_limit (rq : Request) (method : string) : M Server bool := λ sv,
  match sv_limiter sv with
  | None => (Ok true, sv)
  | Some limiter =>
      if (method == "GET") && existsb (String.eqb (path_of rq)) RATE_LIMIT_EXEMPT_PATHS then (Ok true, sv)
      else
        let forwarded_for := match get_all "X-Forwarded-For" rq with [] => None | values => Some (join "," values) end in
        match resolve_rate_limit_source ip_address str_address in_network strip len (rq_peer rq) forwarded_for
                trusted_proxies with
        | Raise _ => (Ok true, sv)
        | Ok source =>
            let '(answer, limiter) := allow source (rq_time rq) limiter in
            match answer with
            | Ok ok => (Ok ok, set_limiter (Some limiter) sv)
            | Raise _ => (Ok true, sv)
            end
        end
  end.
Definition POOL_ERRORS : list pyexc :=
  [ServiceError "SQLitePoolUnavailable"; ServiceError "PostgresConnectionUnavailable"].
Definition service_unavailable : Sent :=
  _send_json (mkV1HttpResponse 503 [("error", JStr "service_unavailable")]).
Definition idempotency_key_headers (rq : Request) : option (list string) :=
  match get_all "Idempotency-Key" rq with [] => None | values => Some values end.
Definition metrics_text (sv : Server) : option string := render show_total <$> sv_metrics sv.
Definition _handle_request (rq : Request) : M Server Sent := λ sv,
  let handle := route rq (rq_method rq) (idempotency_key_headers rq) (metrics_text sv) in
  let '(answer, s) := (if _needs_database (rq_path rq) then request_scope handle else handle) (sv_service sv) in
  (answer, set_service s sv).
(** [_observe], for the response that was sent. *)
Definition observe_metrics (rq : Request) (sent : Sent) (m : Metrics) : Metrics :=
  let method := rq_method rq in
  let path := _route_label (path_of rq) in
  let status := ps_status_code (sn_response sent) in
  let observation := ps_observation (sn_response sent) in
  let m := increment "vinctor_http_requests_total" 1 [("method", method); ("path", path); ("status", pretty status)] m in
  let m := observe "vinctor_http_request_duration_seconds" (rq_elapsed rq) [("method", method); ("path", path)] m in
  let m := if 400 <=? status
    then increment "vinctor_http_errors_total" 1
           [("method", method); ("path", path); ("status", pretty status);
            ("error", str_or_else (ob_error_code observation) "unknown")] m
    else m in
  match ob_decision observation with
  | Some decision =>
      if (decision == "permit") || (decision == "deny")
      then increment "vinctor_enforce_decisions_total" 1 [("decision", decision)] m else m
  | None => m
  end.
Definition _observe (rq : Request) (sent : Sent) (sv : Server) : Server :=
  let observation := ps_observation (sn_response sent) in
  mkServer (sv_service sv) (sv_limiter sv) (observe_metrics rq sent <$> sv_metrics sv)
    ((λ lines, lines ++ [mkAccessLine (rq_method rq) (_route_label (path_of rq))
                           (ps_status_code (sn_response sent)) (rq_elapsed rq) (ob_decision observation)
                           (ob_error_code observation)]) <$> sv_access_log sv).
(** An exception that escapes closes the connection with nothing sent. *)
Definition _dispatch (rq : Request) : M Server Sent := λ sv,
  let '(answer, sv) := try_except
    (proceed ← _check_rate_limit rq (rq_method rq);
     if negb proceed then mret _send_rate_limited else _handle_request rq)
    (λ e, if bool_decide (e ∈ POOL_ERRORS) then mret service_unavailable else raise e) sv in
  (answer, match answer with Ok sent => _observe rq sent sv | Raise _ => sv end).
End handler.
