(* ===== verification/McpReport.v ===== *)
(** * Reports of the MCP server over the audit endpoint

    The walk of the MCP server's reports, through its HTTP client, the query string
    and the JSON of the answers, against the audit endpoint of the service, whose
    log grows between the requests. *)
From S2P Require Import Prelude PyStr PyDict PyTime Scope Models Enforce CoreAudit Sha256 Pop.
From S2P Require Import World AuditWriter V1Enforce AuditQuery Json Http BoundaryHttp AuditHttp.
From S2P Require Import IdemCrypto IdemHttp PyUrl McpClient McpTools McpServer HttpServer.

(** ** JSON texts are ASCII *)

Lemma join_chars p l : all_chars p ", " = true → Forall (λ s, all_chars p s = true) l →
  all_chars p (join ", " l) = true.
Proof.
  intros Hp. induction 1 as [|x l Hx Hl IH]; [done|]. destruct l as [|y l]; [done|].
  rewrite join_cons by done. by rewrite !all_chars_app, Hx, Hp, IH.
Qed.
Lemma dumps_printable sort v : json_ok v → all_chars printable (dumps sort v) = true.
Proof.
  induction v as [|[]|z|s|l IH|d IH] using json_nested_ind; intros Hok; try done.
  - apply printable_pretty.
  - by apply printable_json_string.
  - cbn [dumps]. rewrite !all_chars_app. cbn [all_chars]. rewrite andb_true_r.
    apply json_ok_list in Hok. rewrite join_chars; [done|done|]. apply List.Forall_map.
    rewrite Forall_forall in IH, Hok |- *. intros x Hx. by apply IH, Hok.
  - cbn [dumps]. rewrite !all_chars_app. cbn [all_chars]. rewrite andb_true_r.
    apply json_ok_obj in Hok as [_ Hok]. rewrite join_chars; [done|done|]. apply List.Forall_map.
    rewrite in_key_order_perm. apply List.Forall_map. rewrite Forall_forall in IH, Hok |- *.
    intros x Hx. destruct (Hok x Hx) as [Hk Hv]. unfold json_field. cbn [fst snd].
    by rewrite !all_chars_app, printable_json_string, IH.
Qed.
Lemma printable_ascii s : all_chars printable s = true → isascii s = true.
Proof.
  unfold isascii. induction s as [|c s IH]; [done|]. cbn [all_chars]. intros [Hc Hs]%andb_true_iff.
  rewrite (IH Hs), andb_true_r. revert Hc. clear. by destruct c as [[] [] [] [] [] [] [] []].
Qed.
Lemma text_utf8 s : is_text s → utf8_ok s = true.
Proof.
  intros (cps & Hcps & ->). unfold utf8_ok. rewrite utf8_decode_encode, eqb_refl, andb_true_r by done.
  apply forallb_forall. intros cp Hcp%list_elem_of_In. rewrite Forall_forall in Hcps.
  specialize (Hcps _ Hcp). unfold scalar in Hcps. unfold is_scalar. lia.
Qed.
Lemma dumps_utf8 sort v : json_ok v → utf8_ok (dumps sort v) = true.
Proof. intros Hok. by apply text_utf8, is_text_ascii, printable_ascii, dumps_printable. Qed.

(** ** Objects as they are written *)

Lemma dget_perm {V} k (d d' : dict string V) : dict_wf d → d ≡ₚ d' → dget k d = dget k d'.
Proof.
  intros Hwf Hp. assert (Hwf' : dict_wf d') by (unfold dict_wf, dkeys in *; by rewrite <-Hp).
  apply option_eq. intros v. by rewrite !dget_elem_iff, Hp.
Qed.
Lemma dget_map {V W} (f : V → W) k (d : dict string V) :
  dget k (map (λ kv, (kv.1, f kv.2)) d) = f <$> dget k d.
Proof. induction d as [|[k' v] d IH]; [done|]. cbn. by case_decide. Qed.
Lemma as_written_get k d : dict_wf d → ∃ d', as_written true (JObj d) = JObj d' ∧ dict_wf d' ∧
  dget k d' = as_written true <$> dget k d.
Proof.
  intros Hwf. eexists. split; [reflexivity|].
  assert (Hwf' : dict_wf (map (λ kv, (kv.1, as_written true kv.2)) d)).
  { unfold dict_wf, dkeys in *. change (NoDup (map fst (map (λ kv, (kv.1, as_written true kv.2)) d))).
    rewrite map_map. exact Hwf. }
  split.
  - unfold dict_wf, dkeys in *. by rewrite (in_key_order_perm true).
  - rewrite <-dget_map. apply dget_perm; [|apply in_key_order_perm].
    unfold dict_wf, dkeys in *. by rewrite (in_key_order_perm true).
Qed.
(** The allow-list looks at the fields, not at their order. *)
Lemma allowlist_ext (d d' : mapping) fields : (∀ k, k ∈ fields → dget k d = dget k d') →
  allowlist_object d fields = allowlist_object d' fields.
Proof.
  unfold allowlist_object. generalize (@nil (string * json)). induction fields as [|f l IH]; intros acc E; [done|].
  cbn [foldl]. unfold allow_field at 2 4. rewrite (E f) by by left. apply IH. intros k Hk. apply E. by right.
Qed.

(** ** The query of a report *)

(** What is read of a query string whose parameters are distinct and not blank. *)
Lemma query_params_urlencode set_order values allowed :
  (∀ l, set_order l ≡ₚ l) → NoDup (map fst values) → NoDup allowed →
  Forall (λ kv, is_text kv.1 ∧ is_text kv.2 ∧ kv.2 ≠ "" ∧ kv.1 ∈ allowed) values →
  ∃ read, query_params set_order (urlencode values) allowed = inr read ∧
    ∀ k, k ∈ allowed → dget k read = Some (dget k values).
Proof.
  intros Hperm Hnd Hallowed Hvalues. unfold query_params.
  assert (Htext : Forall (λ kv, is_text kv.1 ∧ is_text kv.2) values) by (eapply Forall_impl; [exact Hvalues|by intros kv (?&?&_)]).
  rewrite (parse_qs_urlencode values Hnd Htext). set (params := map _ values).
  assert (Hextra : extra_fields params allowed = []).
  { unfold extra_fields. assert (Hf : List.filter (λ k, negb (existsb (String.eqb k) allowed)) (dkeys params) = []);
      [|by rewrite Hf].
    unfold params, dkeys. clear -Hvalues. induction Hvalues as [|kv l (_ & _ & _ & Hk) _ IH]; [done|].
    cbn. assert (E : existsb (String.eqb kv.1) allowed = true); [|by rewrite E].
    apply existsb_exists_elem. exists kv.1. split; [done|apply eqb_refl]. }
  rewrite Hextra. cbn [mbind parsed_bind].
  assert (Hsingle : ∀ k, single_param params k = inr (dget k values)).
  { intros k. unfold single_param, params. rewrite (dget_map (λ v, [v])).
    destruct (dget k values) as [v|] eqn:E; [|done]. cbn. apply dget_elem in E.
    rewrite Forall_forall in Hvalues. destruct (Hvalues _ E) as (_ & _ & Hv & _). cbn in Hv.
    by rewrite (proj2 (String.eqb_neq _ _) Hv). }
  assert (Hmap : ∀ l, mapM (λ key, v ← single_param params key; inr (key, v)) l =
    (inr (map (λ k, (k, dget k values)) l) : parsed (list (string * option string)))).
  { induction l as [|k l IH]; [done|]. cbn [mapM]. rewrite Hsingle. cbn [mbind parsed_bind].
    by rewrite IH. }
  exists (map (λ k, (k, dget k values)) (set_order allowed)). split; [apply Hmap|].
  intros k Hk. rewrite <-(Hperm allowed) in Hk. clear -Hk. revert Hk. generalize (set_order allowed). intros l.
  induction l as [|x l IH]; [by intros ?%elem_of_nil|]. cbn. case_decide as E; [by subst|].
  intros [->|Hk]%elem_of_cons; [done|]. by apply IH.
Qed.

(** Parameters that may be absent. *)
Lemma present_elem kv (values : dict string (option string)) :
  kv ∈ omap (λ kv, v ← kv.2; Some (kv.1, v)) values ↔ (kv.1, Some kv.2) ∈ values.
Proof.
  rewrite list_elem_of_omap. split.
  - intros ([k [v|]] & Hin & E); [|done]. by injection E as <-.
  - intros Hin. exists (kv.1, Some kv.2). split; [done|]. by destruct kv.
Qed.
Lemma present_nodup (values : dict string (option string)) : NoDup (map fst values) →
  NoDup (map fst (omap (λ kv, v ← kv.2; Some (kv.1, v)) values)).
Proof.
  induction values as [|[k [v|]] l IH]; cbn [map fst]; intros Hnd; [constructor| |];
    apply NoDup_cons in Hnd as [Hk Hnd]; [|by apply IH].
  cbn. constructor; [|by apply IH]. intros (kv & -> & Hin)%list_elem_of_fmap. apply Hk.
  apply present_elem in Hin. by apply (list_elem_of_fmap_2 fst) in Hin.
Qed.
Lemma present_get k (values : dict string (option string)) : NoDup (map fst values) →
  dget k (omap (λ kv, v ← kv.2; Some (kv.1, v)) values) = default None (dget k values).
Proof.
  intros Hnd. apply option_eq. intros v. rewrite dget_elem_iff by by apply present_nodup.
  rewrite present_elem. cbn [fst snd]. rewrite <-dget_elem_iff by done.
  destruct (dget k values) as [[w|]|]; cbn; naive_solver.
Qed.

(** A text that may be sent as a parameter. *)
Definition sendable (o : option string) : Prop := match o with Some s => is_text s ∧ s ≠ "" | None => True end.
Definition report_filter (grant_ref boundary_id request_id : option string) : AuditFilter :=
  mkAuditFilter None None grant_ref boundary_id None request_id None None None.
Lemma report_query_parsed set_order int_unicode g b r sn bf :
  (∀ l, set_order l ≡ₚ l) → sendable g → sendable b → sendable r → sendable sn → sendable bf →
  (sn = None → bf = None) →
  _parse_filters set_order int_unicode (_query (audit_query_values (report_query g b r sn bf))) =
    inr (mkAuditEventFilters (report_filter g b r) true sn bf 100).
Proof.
  intros Hperm Hg Hb Hr Hsn Hbf Hcur. unfold _query. set (values := audit_query_values _).
  assert (Hnd : NoDup (map fst values)) by by apply (bool_decide_unpack _).
  assert (Hok : Forall (λ kv, sendable kv.2 ∧ is_text kv.1 ∧ kv.1 ∈ AUDIT_PARAMS) values).
  { unfold values, audit_query_values, report_query. cbn [aq_agent_id aq_event_class aq_event_type aq_grant_ref
      aq_boundary_id aq_request_id aq_reason_code aq_enforcing_principal aq_paginate aq_snapshot_event_id
      aq_before_event_id aq_subject_token_verified aq_limit fmap option_fmap option_map].
    repeat constructor; cbn [fst snd]; try done; try (by apply is_text_ascii); try (by apply (bool_decide_unpack _)). }
  destruct (query_params_urlencode set_order (omap (λ kv, v ← kv.2; Some (kv.1, v)) values) AUDIT_PARAMS Hperm)
    as (read & Hread & Hget); [by apply present_nodup|by apply (bool_decide_unpack _)| |].
  { apply Forall_forall. rewrite Forall_forall in Hok. intros kv Hin%present_elem. destruct (Hok _ Hin) as ((?&?)&?&?). done. }
  unfold _parse_filters. rewrite Hread. cbn [mbind parsed_bind].
  assert (Hval : ∀ k, k ∈ AUDIT_PARAMS → default None (dget k read) = default None (dget k values)).
  { intros k Hk. rewrite Hget, present_get by done. done. }
  rewrite !Hval by by apply (bool_decide_unpack _). clear Hread Hget Hval Hok.
  assert (Hvalues : default None (dget "limit" values) = Some "100" ∧ default None (dget "page" values) = Some "true" ∧
    default None (dget "snapshot_event_id" values) = sn ∧ default None (dget "before_event_id" values) = bf ∧
    default None (dget "subject_token_verified" values) = None ∧ default None (dget "event_class" values) = None ∧
    default None (dget "event_type" values) = None ∧ default None (dget "grant_ref" values) = g ∧
    default None (dget "boundary_id" values) = b ∧ default None (dget "agent_id" values) = None ∧
    default None (dget "request_id" values) = r ∧ default None (dget "reason_code" values) = None ∧
    default None (dget "enforcing_principal" values) = None) by by split_and!.
  destruct Hvalues as (->&->&->&->&->&->&->&->&->&->&->&->&->).
  destruct sn as [s|]; [by destruct bf|]. by rewrite Hcur.
Qed.

(** The target of a request whose path has no query of its own. *)
Lemma up_to_none stop s : all_chars (λ c, negb (stop c)) s = true → up_to stop s = (s, "").
Proof.
  induction s as [|c s IH]; [done|]. cbn [all_chars up_to]. intros [Hc%negb_true_iff Hs]%andb_true_iff.
  by rewrite Hc, IH.
Qed.
Lemma up_to_found stop s c t : all_chars (λ c, negb (stop c)) s = true → stop c = true →
  up_to stop (s ^+ String c t) = (s, String c t).
Proof.
  intros Hs Hc. induction s as [|a s IH]; [rewrite app_empty_l; cbn; by rewrite Hc|]. cbn [all_chars] in Hs.
  apply andb_true_iff in Hs as [Ha%negb_true_iff Hs]. rewrite app_cons. cbn [up_to]. by rewrite Ha, IH.
Qed.
Lemma urlencode_chars stop values : (∀ c, stop c = true → quoted_char c = false ∧ c ≠ "="%char ∧ c ≠ "&"%char) →
  all_chars (λ c, negb (stop c)) (urlencode values) = true.
Proof.
  intros Hstop. assert (Hmono : ∀ s, all_chars quoted_char s = true → all_chars (λ c, negb (stop c)) s = true).
  { induction s as [|c s IH]; [done|]. cbn [all_chars]. intros [Hc Hs]%andb_true_iff. rewrite (IH Hs), andb_true_r.
    destruct (stop c) eqn:E; [|done]. apply Hstop in E as [E _]. congruence. }
  assert (Hq : ∀ s, all_chars (λ c, negb (stop c)) (quote_plus s) = true) by (intros s; apply Hmono, quote_plus_chars).
  assert (Hsep : ∀ c, c = "="%char ∨ c = "&"%char → negb (stop c) = true).
  { intros c Hc. destruct (stop c) eqn:E; [|done]. apply Hstop in E as (_ & ? & ?). tauto. }
  unfold urlencode. induction values as [|kv [|kv' l] IH]; [done| |].
  - cbn [map join]. rewrite !all_chars_app, !Hq. cbn [all_chars]. rewrite Hsep by tauto. done.
  - rewrite map_cons, join_cons by done. rewrite !all_chars_app, IH, !Hq.
    cbn [all_chars]. rewrite !Hsep by tauto. done.
Qed.
Lemma urlsplit_query path values : all_chars (λ c, negb (Ascii.eqb "#" c) && negb (Ascii.eqb "?" c)) path = true →
  urlsplit (path ^+ "?" ^+ urlencode values) = (path, urlencode values).
Proof.
  intros Hpath. assert (Hp : all_chars (λ c, negb (Ascii.eqb "#" c)) path = true ∧
    all_chars (λ c, negb (Ascii.eqb "?" c)) path = true).
  { induction path as [|c p IH]; [done|]. cbn [all_chars] in *. apply andb_true_iff in Hpath as [[H1 H2]%andb_true_iff Hr].
    destruct (IH Hr) as [-> ->]. by rewrite H1, H2. }
  destruct Hp as [Hp1 Hp2]. unfold urlsplit. rewrite (up_to_none (Ascii.eqb "#")); cbn [fst].
  - change ("?" ^+ urlencode values) with (String "?" (urlencode values)). 
    by rewrite up_to_found.
  - rewrite !all_chars_app, Hp1. apply urlencode_chars. intros c Hc. assert (E : c = "#"%char) by (symmetry; by apply Ascii.eqb_eq). by subst c.
Qed.

(** ** The service a report is made of *)

Section report.
Context (set_order : list string → list string) (int_unicode : string → result Z).
Context (Hperm : ∀ l, set_order l ≡ₚ l).
(** The audit log as each request finds it, and the keys of the service. *)
Context (logs : nat → list AuditEvent) (workspaces auditors : Keyring nat WorkspaceIdentity) (now : Z).
#[local] Instance logged : AuditReadService nat := {|
  ars_get_audit_event := λ id, gets (λ k, AuditQuery.get_audit_event id (logs k));
  ars_list_filtered := λ ws f snapshot before limit k,
    (list_filtered ws f snapshot before limit (logs k), k);
  ars_audit_event_sequences := λ ws ids, gets (λ k, audit_event_sequences ws ids (logs k))
|}.
Definition respond (rq : WireRequest) : M nat (Z * string) :=
  let '(path, query) := urlsplit (wr_path rq) in
  response ← handle_v1_audit_events_http set_order int_unicode (wr_method rq) path query (wr_headers rq)
               workspaces auditors now;
  mret (ps_status_code (encode_json_response response), ps_body (encode_json_response response)).
(** Each request finds the next log. *)
Definition served : Transport nat := λ _ rq k, let '(r, k) := respond rq k in (r, S k).

Context (repr : json → string) (client : VinctorServiceClient) (mode : OutputMode) (ws : string).
Context (Hkey : ∀ k, resolve_identity workspaces (cl_workspace_key client) now k = (Ok (Some (mkWorkspaceIdentity ws)), k)).
#[local] Instance reader : ReadOnlyVinctorClient nat := reading_client (Transport0 := served) repr client.

(** An event of a page, as the server writes it. *)
Definition page_body (en : AuditEvent * Z) : mapping :=
  dmerge (_audit_event_body en.1) [("sequence", JInt en.2)].
(** The events of the service that a report can hold: its texts are text, its
    moments are between the years 1 and 9999. *)
Record reportable (e : AuditEvent) : Prop := {
  rb_text : json_ok (JObj (_audit_event_body e));
  rb_id : e_event_id e ≠ "";
  rb_type : e_event_type e ≠ "";
  rb_class : existsb (String.eqb (e_event_class e)) ["control"; "decision"] = true;
  rb_time : DATETIME_MIN ≤ e_created_at e ≤ DATETIME_MAX
}.
(** What a report makes of a numbered event. *)
Definition report_of (en : AuditEvent * Z) : _AuditReportEvent :=
  let e := en.1 in
  mkAuditReportEvent (allowlist_object (page_body en) (_audit_fields mode)) (e_event_id e) (e_event_type e)
    (e_event_class e) (decision_str (e_decision e)) (e_workspace_id e) (e_agent_id e) (e_grant_id e)
    (e_grant_ref e) (e_boundary_id e) (e_created_at e) en.2.

(** The body of an event, with its number, field by field. *)
Lemma body_wf en : dict_wf (page_body en).
Proof. by apply (bool_decide_unpack _). Qed.
Lemma page_body_get en k : dget k (page_body en) =
  if decide (k = "sequence") then Some (JInt en.2) else dget k (_audit_event_body en.1).
Proof.
  unfold page_body, dmerge. cbn [foldl fst snd]. rewrite dget_dset.
  destruct (decide (k = "sequence")) as [->|Hne]; [done|by rewrite decide_False by congruence].
Qed.
Definition plain (v : json) : bool := match v with JList _ | JObj _ => false | _ => true end.
Lemma body_plain en k v : dget k (page_body en) = Some v → as_written true v = v.
Proof.
  intros Hv%dget_elem. assert (Hall : Forall (λ kv, as_written true kv.2 = kv.2) (page_body en)).
  { unfold page_body, dmerge, _audit_event_body, jopt, jtime. cbn [foldl fst snd dset].
    repeat first [constructor|case_match]; done. }
  rewrite Forall_forall in Hall. by specialize (Hall _ Hv).
Qed.
(** Read back, an event is what the report makes of it. *)
Lemma parse_written en d : reportable en.1 → 1 ≤ en.2 → (∀ k, dget k d = dget k (page_body en)) →
  _parse_audit_report_event (_audit_fields mode) (JObj d) = Ok (report_of en).
Proof.
  intros [_ Hid Hty Hcl Ht] Hn Hd. destruct en as [e n]. cbn [fst snd] in *.
  assert (Hg : ∀ k, jget k d = jget k (page_body (e, n))) by (intros k; unfold jget; by rewrite Hd).
  assert (Hstr : ∀ k s (ne : bool), jget k (page_body (e, n)) = JStr s → (ne = true → s ≠ "") →
    _required_audit_string d k ne = Ok s).
  { intros k s ne Hs Hne. unfold _required_audit_string. rewrite Hg, Hs. destruct ne; [|done].
    by rewrite (proj2 (String.eqb_neq _ _) (Hne eq_refl)). }
  unfold _parse_audit_report_event.
  rewrite (Hstr "event_id" (e_event_id e) true) by done. cbn [mbind result_bind].
  rewrite (Hstr "event_type" (e_event_type e) true) by done. cbn [mbind result_bind].
  rewrite (Hstr "event_class" (e_event_class e) true); [|done|intros _ E; by rewrite E in Hcl].
  cbn [mbind result_bind]. assert (Hcls : one_of ["control"; "decision"] (e_event_class e) = Ok tt)
    by (unfold one_of; by rewrite Hcl). rewrite Hcls. cbn [mbind result_bind].
  rewrite (Hstr "decision" (decision_str (e_decision e)) true); [|done|by destruct (e_decision e)].
  cbn [mbind result_bind]. assert (Hdec : one_of ["permit"; "deny"] (decision_str (e_decision e)) = Ok tt)
    by by destruct (e_decision e). rewrite Hdec. cbn [mbind result_bind].
  rewrite (Hstr "workspace_id" (e_workspace_id e) false) by done. cbn [mbind result_bind].
  rewrite (Hstr "agent_id" (e_agent_id e) false) by done. cbn [mbind result_bind].
  rewrite (Hstr "grant_id" (e_grant_id e) false) by done. cbn [mbind result_bind].
  rewrite (Hstr "grant_ref" (e_grant_ref e) false) by done. cbn [mbind result_bind].
  assert (Hb : jget "boundary_id" (page_body (e, n)) = jopt (e_boundary_id e)) by done.
  rewrite (Hg "boundary_id"), Hb.
  assert (Hbo : (match jopt (e_boundary_id e) with JNull => Ok None | JStr s => Ok (Some s)
    | _ => Raise invalid_events end) = Ok (e_boundary_id e)) by by destruct (e_boundary_id e).
  rewrite Hbo. cbn [mbind result_bind].
  rewrite (Hstr "created_at" (isoformat (e_created_at e)) true); [|done|].
  2: { intros _ E. pose proof (fromisoformat_isoformat _ Ht) as Hiso. rewrite E in Hiso. by vm_compute in Hiso. }
  cbn [mbind result_bind]. rewrite fromisoformat_isoformat by done. cbn [mbind result_bind].
  assert (Hs : jget "sequence" (page_body (e, n)) = JInt n) by done.
  rewrite (Hg "sequence"), Hs. rewrite (proj2 (Z.ltb_ge _ _) Hn). cbn [mbind result_bind].
  unfold report_of. cbn [fst snd]. f_equal. f_equal. apply allowlist_ext. intros k _. apply Hd.
Qed.

(** *** One page *)

Lemma page_body_ok en : reportable en.1 → json_ok (JObj (page_body en)).
Proof.
  intros [Hok _ _ _ _]. apply json_ok_obj in Hok as [_ Hok]. apply json_ok_obj. split; [apply body_wf|].
  unfold page_body, dmerge. cbn [foldl fst snd]. rewrite Forall_forall in Hok. apply Forall_forall.
  intros kv [->|Hin]%dset_elem; [|by apply Hok]. split; [by apply is_text_ascii|done].
Qed.
Lemma page_body_written en : ∃ d, as_written true (JObj (page_body en)) = JObj d ∧
  ∀ k, dget k d = dget k (page_body en).
Proof.
  destruct (as_written_get "" (page_body en) (body_wf en)) as (d & Hd & _). exists d. split; [done|]. intros k.
  destruct (as_written_get k (page_body en) (body_wf en)) as (d' & Hd' & _ & Hk).
  rewrite Hd in Hd'. injection Hd' as <-. rewrite Hk. destruct (dget k (page_body en)) as [v|] eqn:E; [|done].
  cbn. f_equal. by eapply body_plain.
Qed.
Definition page_ok (page : AuditPage) : Prop :=
  Forall (λ en, reportable en.1 ∧ 1 ≤ en.2) (pg_events page) ∧
  sendable (pg_snapshot_event_id page) ∧ sendable (pg_next_before_event_id page).
Lemma jopt_ok o : sendable o → json_ok (jopt o).
Proof. destruct o; [by intros []|done]. Qed.
Lemma page_response_ok page : page_ok page → json_ok (JObj (hr_body (page_response page))).
Proof.
  intros (Hev & Hsn & Hnx). unfold page_response. cbn [hr_body]. apply json_ok_obj.
  split; [by apply (bool_decide_unpack _)|]. constructor; [|constructor; [|constructor]]; cbn [fst snd];
    (split; [by apply is_text_ascii|]).
  - apply json_ok_list. apply List.Forall_map. apply Forall_forall. intros en Hin. rewrite Forall_forall in Hev.
    by apply page_body_ok, Hev.
  - apply json_ok_obj. split; [by apply (bool_decide_unpack _)|].
    constructor; [|constructor; [|constructor]]; cbn [fst snd]; (split; [by apply is_text_ascii|by apply jopt_ok]).
Qed.
Lemma cursor_parsed o : sendable o → _parse_audit_cursor (jopt o) = Ok o.
Proof. destruct o as [s|]; [|done]. intros [_ Hs]. cbn. by rewrite (proj2 (String.eqb_neq _ _) Hs). Qed.
Lemma parse_events page : Forall (λ en, reportable en.1 ∧ 1 ≤ en.2) page →
  mapM (_parse_audit_report_event (_audit_fields mode))
    (map (as_written true) (map (λ en, JObj (page_body en)) page)) = Ok (map report_of page).
Proof.
  induction 1 as [|en page [Hr Hn] _ IH]; [done|]. cbn [map mapM].
  destruct (page_body_written en) as (d & -> & Hd). rewrite (parse_written en d Hr Hn Hd).
  cbn [mbind result_bind]. by rewrite IH.
Qed.
(** What is read of the answer is the page. *)
Lemma page_read page : page_ok page → ∃ body,
  response_object repr 200 (ps_body (encode_json_response (page_response page))) = Ok body ∧
  _parse_audit_report_page body (_audit_fields mode) =
    Ok (mkAuditReportPage (map report_of (pg_events page)) (pg_snapshot_event_id page) (pg_next_before_event_id page)).
Proof.
  intros Hok. pose proof (page_response_ok page Hok) as Hj. unfold response_object. cbn [encode_json_response ps_body].
  rewrite dumps_utf8 by done. cbn [negb]. destruct Hok as (Hev & Hsn & Hnx).
  assert (Hne : (dumps true (JObj (hr_body (page_response page))) == "") = false) by done.
  rewrite Hne, loads_dumps by done.
  set (events := JList (map (λ en, JObj (page_body en)) (pg_events page))).
  set (cursors := JObj [("snapshot_event_id", jopt (pg_snapshot_event_id page));
                        ("next_before_event_id", jopt (pg_next_before_event_id page))]).
  exists [("audit_events", as_written true events); ("page", as_written true cursors)]. split; [done|].
  unfold _parse_audit_report_page. change (dget "audit_events" _) with (Some (as_written true events)).
  change (dget "page" _) with (Some (as_written true cursors)). cbn [as_written events cursors].
  rewrite parse_events by done. cbn [mbind result_bind].
  assert (Hjo : ∀ o, as_written true (jopt o) = jopt o) by by intros [].
  cbn [map fst snd]. rewrite !Hjo.
  change (dget "snapshot_event_id" _) with (Some (jopt (pg_snapshot_event_id page))).
  change (dget "next_before_event_id" _) with (Some (jopt (pg_next_before_event_id page))). cbv iota.
  rewrite !cursor_parsed by done. done.
Qed.
(** The endpoint answers with the page of the log. *)
Lemma list_page f sn bf query k page :
  _parse_filters set_order int_unicode query = inr (mkAuditEventFilters f true sn bf 100) →
  audit_page ws f sn bf 100 (logs k) = Ok page →
  AuditHttp.list_audit_events set_order int_unicode query (mkWorkspaceIdentity ws) k = (Ok (page_response page), k).
Proof.
  intros Hparse Hpage. unfold AuditHttp.list_audit_events. rewrite Hparse.
  unfold audit_page in Hpage. apply result_bind_inv in Hpage as (found & Hfound & Hpage).
  assert (Hread : read_events (mkAuditEventFilters f true sn bf 100) ws k = (Ok (Some found), k)).
  { unfold read_events, try_except. cbn. unfold mbind, M_bind. by rewrite Hfound. }
  cbn [wi_workspace_id]. rewrite (bind_run _ _ _ _ _ Hread). cbn [ef_paginate ef_limit ef_snapshot_event_id].
  change (ars_audit_event_sequences ws ?ids) with (gets (λ k, audit_event_sequences ws ids (logs k))).
  unfold mbind, M_bind, gets, lift. by rewrite Hpage.
Qed.
Lemma respond_page g b r sn bf k page :
  sendable g → sendable b → sendable r → sendable sn → sendable bf → (sn = None → bf = None) →
  audit_page ws (report_filter g b r) sn bf 100 (logs k) = Ok page →
  respond (mkWireRequest "GET" ("/v1/audit-events?" ^+ _query (audit_query_values (report_query g b r sn bf)))
             (dumps false <$> None) (request_headers client true false None)) k =
    (Ok (200, ps_body (encode_json_response (page_response page))), k).
Proof.
  intros Hg Hb Hr Hsn Hbf Hcur Hpage. unfold respond. cbn [wr_path wr_method wr_headers].
  pose proof (report_query_parsed set_order int_unicode g b r sn bf Hperm Hg Hb Hr Hsn Hbf Hcur) as Hparse.
  change ("/v1/audit-events?" ^+ _query (audit_query_values (report_query g b r sn bf)))
    with ("/v1/audit-events" ^+ "?" ^+ _query (audit_query_values (report_query g b r sn bf))).
  unfold _query in *. rewrite urlsplit_query by done.
  assert (Hrun : handle_v1_audit_events_http set_order int_unicode "GET" "/v1/audit-events"
    (urlencode (omap (λ kv, v ← kv.2; Some (kv.1, v)) (audit_query_values (report_query g b r sn bf))))
    (request_headers client true false None) workspaces auditors now k = (Ok (page_response page), k)).
  { unfold handle_v1_audit_events_http, _audit_identity.
    change (dget "x-workspace-key" (normalized (request_headers client true false None)))
      with (Some (cl_workspace_key client)). cbv iota.
    rewrite (bind_run _ _ _ _ _ (Hkey k)). by eapply list_page. }
  by rewrite (bind_run _ _ _ _ _ Hrun).
Qed.
Lemma asked g b r sn bf k page :
  sendable g → sendable b → sendable r → sendable sn → sendable bf → (sn = None → bf = None) →
  audit_page ws (report_filter g b r) sn bf 100 (logs k) = Ok page → page_ok page →
  ∃ body, rc_list_audit_events (report_query g b r sn bf) k = (Ok body, S k) ∧
    _parse_audit_report_page body (_audit_fields mode) =
      Ok (mkAuditReportPage (map report_of (pg_events page)) (pg_snapshot_event_id page)
            (pg_next_before_event_id page)).
Proof.
  intros Hg Hb Hr Hsn Hbf Hcur Hpage Hok. destruct (page_read page Hok) as (body & Hread & Hparse).
  exists body. split; [|done]. cbn [rc_list_audit_events reader reading_client]. unfold cl_list_audit_events.
  cbn [aq_event_class report_query]. unfold ask, _request_json, exchange, served.
  pose proof (respond_page g b r sn bf k page Hg Hb Hr Hsn Hbf Hcur Hpage) as Hresp.
  unfold mbind, M_bind, lift at 1. cbn [validate_audit_event_class]. rewrite Hresp. unfold lift. by rewrite Hread.
Qed.

(** *** The walk *)

(** The numbers of the selected events of a log, in order, increase. *)
Lemma numbers_increase (p : AuditEvent → bool) (events : list AuditEvent) off (l : list (AuditEvent * Z)) :
  ids_unique events → map fst l = List.filter p events →
  Forall (λ en, off ≤ en.2 ∧ events !! Z.to_nat (en.2 - off) = Some en.1) l →
  chronological (map report_of l) = true ∧ Forall (λ en, off ≤ en.2) l.
Proof.
  revert off l. induction events as [|e events IH]; intros off l Hu Hl Hat.
  { destruct l; [|done]. by split. }
  unfold ids_unique in *. apply NoDup_cons in Hu as [He Hu]. cbn [List.filter] in Hl.
  assert (Hskip : ∀ l, map fst l = List.filter p events →
    Forall (λ en, off ≤ en.2 ∧ (e :: events) !! Z.to_nat (en.2 - off) = Some en.1) l →
    Forall (λ en, off + 1 ≤ en.2 ∧ events !! Z.to_nat (en.2 - (off + 1)) = Some en.1) l).
  { intros k Hk Hn. rewrite Forall_forall in Hn |- *. intros [x n] Hin. destruct (Hn _ Hin) as [Hle Hx]. cbn [fst snd] in *.
    assert (Hxe : x ∈ events).
    { assert (Hx' : x ∈ map fst k) by (by apply (list_elem_of_fmap_2 fst) in Hin). rewrite Hk in Hx'.
      by apply list_elem_of_In, filter_In in Hx' as [Hx'%list_elem_of_In _]. }
    destruct (Z.to_nat (n - off)) as [|i] eqn:Ei.
    - injection Hx as ->. exfalso. apply He. by apply (list_elem_of_fmap_2 e_event_id).
    - split; [lia|]. replace (Z.to_nat (n - (off + 1))) with i by lia. done. }
  destruct (p e).
  - destruct l as [|[e' n] l]; [done|]. injection Hl as -> Hl. apply Forall_cons in Hat as [[Hle Hn] Hat].
    cbn [fst snd] in *. assert (Hn0 : n = off).
    { destruct (Z.to_nat (n - off)) as [|i] eqn:Ei; [lia|]. exfalso. apply He. cbn in Hn.
      apply list_elem_of_lookup_2 in Hn. by apply (list_elem_of_fmap_2 e_event_id). }
    subst n. destruct (IH (off + 1) l Hu Hl (Hskip l Hl Hat)) as [Hch Hall]. split.
    + destruct l as [|[x m] l]; [done|]. cbn [map chronological] in *. rewrite Hch, andb_true_r.
      apply Forall_cons in Hall as [Hm _]. apply Z.ltb_lt. cbn in *. lia.
    + constructor; [cbn; lia|]. eapply Forall_impl; [exact Hall|]. cbn. lia.
  - destruct (IH (off + 1) l Hu Hl (Hskip l Hl Hat)) as [Hch Hall]. split; [done|].
    eapply Forall_impl; [exact Hall|]. cbn. lia.
Qed.

Context (g b r : option string) (Hg : sendable g) (Hb : sendable b) (Hr : sendable r).
Context (Hgrow : ∀ k, logs k `prefix_of` logs (S k)) (Huniq : ∀ k, ids_unique (logs k)).
Context (Hrep : ∀ k e, e ∈ logs k → reportable e).
#[local] Abbreviation f := (report_filter g b r).
#[local] Abbreviation collect := (collect_pages mode).

Lemma id_sendable k e : e ∈ logs k → sendable (Some (e_event_id e)).
Proof.
  intros He. destruct (Hrep k e He) as [Hok Hid _ _ _]. split; [|done].
  apply json_ok_obj in Hok as [_ Hok]. rewrite Forall_forall in Hok.
  assert (Hin : ("event_id", JStr (e_event_id e)) ∈ _audit_event_body e) by by left.
  by apply (Hok _ Hin).
Qed.
Lemma ids_apart pre post x y : logs 0%nat = pre ++ post → x ∈ pre → y ∈ post → e_event_id x ≠ e_event_id y.
Proof.
  intros H0 Hx Hy E. pose proof (Huniq 0) as Hu. unfold ids_unique in Hu. rewrite H0, fmap_app in Hu.
  apply NoDup_app in Hu as (_ & Hdis & _). apply (Hdis (e_event_id x)).
  - by apply (list_elem_of_fmap_2 e_event_id).
  - rewrite E. by apply (list_elem_of_fmap_2 e_event_id).
Qed.
Lemma selected_ids_nodup pre post : logs 0%nat = pre ++ post → NoDup (e_event_id <$> selected ws f pre).
Proof.
  intros H0. pose proof (Huniq 0) as Hu. unfold ids_unique in Hu. rewrite H0, fmap_app in Hu.
  apply NoDup_app in Hu as (Hu & _ & _). eapply sublist_NoDup; [exact Hu|].
  apply fmap_sublist. unfold selected. clear. induction pre as [|e l IH]; [done|]. cbn.
  destruct (selects ws _ e); by constructor.
Qed.
(** New ids are accepted. *)
Lemma unseen_ok page seen : NoDup (map re_event_id page) → (∀ e, e ∈ page → re_event_id e ∉ seen) →
  unseen seen page = Ok (rev (map re_event_id page) ++ seen).
Proof.
  revert seen. induction page as [|e page IH]; intros seen Hnd Hnew; [done|]. cbn [map] in Hnd.
  apply NoDup_cons in Hnd as [He Hnd]. cbn [unseen].
  assert (E : existsb (String.eqb (re_event_id e)) seen = false).
  { apply existsb_false_elem. intros x Hx. apply String.eqb_neq. intros <-. apply (Hnew e); [by left|done]. }
  rewrite E, IH; [|done|].
  - cbn [map rev]. by rewrite <-app_assoc.
  - intros x Hx. rewrite not_elem_of_cons. split; [|apply Hnew; by right].
    intros E'. apply He. rewrite <-E'. by apply (list_elem_of_fmap_2 re_event_id).
Qed.

Definition page_ids (page : AuditPage) : list string := map (λ en, e_event_id en.1) (pg_events page).
(** One turn of the walk, on a page of new events that agrees with the snapshot. *)
Lemma collect_step fuel sn bf cursors ids k page :
  sendable sn → sendable bf → (sn = None → bf = None) →
  audit_page ws f sn bf 100 (logs k) = Ok page → page_ok page →
  (bf = None ∨ pg_events page ≠ []) →
  NoDup (page_ids page) → (∀ id, id ∈ page_ids page → id ∉ ids) →
  pg_snapshot_event_id page = match sn with Some s => Some s | None => e_event_id <$> last (map fst (pg_events page)) end →
  collect (S fuel) g b r sn bf cursors ids k =
    match pg_next_before_event_id page with
    | None => (Ok [map report_of (pg_events page)], S k)
    | Some nb =>
        match pg_snapshot_event_id page, pg_events page with
        | Some _, en :: _ =>
            if existsb (String.eqb nb) cursors || negb (e_event_id en.1 == nb) then (Raise invalid_page_cursor, S k)
            else (older ← collect fuel g b r (pg_snapshot_event_id page) (Some nb) (nb :: cursors)
                    (rev (page_ids page) ++ ids);
                  mret (map report_of (pg_events page) :: older)) (S k)
        | _, _ => (Raise invalid_page_cursor, S k)
        end
    end.
Proof.
  intros Hsn Hbf Hcur Hpage Hok Hne Hnd Hnew Hsnap.
  destruct (asked g b r sn bf k page Hg Hb Hr Hsn Hbf Hcur Hpage Hok) as (body & Hask & Hparse).
  cbn [collect_pages]. rewrite (bind_run _ _ _ _ _ Hask). unfold mbind at 1, M_bind at 1, lift at 1. rewrite Hparse.
  cbn [rp_events rp_snapshot_event_id rp_next_before_event_id].
  assert (Hids : map re_event_id (map report_of (pg_events page)) = page_ids page) by by rewrite map_map.
  assert (Hempty : bool_decide (is_Some bf) && bool_decide (map report_of (pg_events page) = []) = false).
  { destruct Hne as [->|Hne]; [done|]. rewrite (bool_decide_false (_ = [])); [by rewrite andb_false_r|].
    by destruct (pg_events page). }
  cbv zeta. rewrite Hempty. unfold mbind at 1, M_bind at 1, lift at 1.
  rewrite unseen_ok, Hids; [|by rewrite Hids|].
  2: { intros e (en & -> & Hin)%list_elem_of_fmap. apply Hnew.
       by apply (list_elem_of_fmap_2 (λ en, e_event_id en.1)). }
  unfold mbind at 1, M_bind at 1, lift at 1.
  assert (Hcoh : coherent_snapshot sn (pg_snapshot_event_id page) (map report_of (pg_events page)) =
    Ok (pg_snapshot_event_id page)).
  { rewrite Hsnap. unfold coherent_snapshot. destruct sn as [s|].
    - by rewrite bool_decide_true.
    - change (map ?h ?l) with (h <$> l). rewrite !fmap_last. destruct (last (pg_events page)) as [en|]; [|done]. cbn.
      by rewrite bool_decide_true. }
  rewrite Hcoh. destruct (pg_next_before_event_id page) as [nb|]; [|done].
  destruct (pg_snapshot_event_id page) as [s|]; [|done]. destruct (pg_events page) as [|en page'] eqn:Ep; [done|].
  cbn [map report_of re_event_id]. destruct (_ || _); [done|]. done.
Qed.

Lemma elem_of_rev_list {A} (x : A) l : x ∈ rev l ↔ x ∈ l.
Proof. by rewrite !list_elem_of_In, <-in_rev. Qed.
(** A page whose events are of the log the walk began with is as a report needs it. *)
Lemma page_of_log k bodies sn nx rem rem' :
  (∀ e, e ∈ rem → e ∈ logs 0%nat) → NoDup (e_event_id <$> rem) → rem = rem' ++ map fst bodies →
  Forall (λ en, logs k !! Z.to_nat (en.2 - 1) = Some en.1 ∧ 1 ≤ en.2) bodies →
  (∀ id, sn = Some id ∨ nx = Some id → ∃ e, e ∈ logs 0%nat ∧ id = e_event_id e) →
  page_ok (mkAuditPage bodies sn nx) ∧ NoDup (page_ids (mkAuditPage bodies sn nx)) ∧
  (∀ id, id ∈ page_ids (mkAuditPage bodies sn nx) → ∃ e, e ∈ rem ∧ id = e_event_id e) ∧
  Forall (λ en, logs 0%nat !! Z.to_nat (en.2 - 1) = Some en.1 ∧ 1 ≤ en.2) bodies.
Proof.
  intros Hrem Hnd Hsplit Hall Hcur.
  assert (Hin : ∀ e, e ∈ map fst bodies → e ∈ rem) by (intros e He; rewrite Hsplit; apply elem_of_app; by right).
  assert (Hids : page_ids (mkAuditPage bodies sn nx) = e_event_id <$> map fst bodies).
  { unfold page_ids. cbn [pg_events]. change (?f <$> ?l) with (map f l). by rewrite map_map. }
  assert (Hsend : ∀ o, (∀ id, o = Some id → ∃ e, e ∈ logs 0%nat ∧ id = e_event_id e) → sendable o).
  { intros [id|] Ho; [|done]. destruct (Ho id eq_refl) as (e & He & ->). by eapply id_sendable. }
  split_and!.
  - split_and!; cbn [pg_events pg_snapshot_event_id pg_next_before_event_id].
    + rewrite Forall_forall in Hall |- *. intros en Hen. destruct (Hall en Hen) as [_ Hn]. split; [|done].
      apply (Hrep 0), Hrem, Hin. by apply (list_elem_of_fmap_2 fst).
    + apply Hsend. intros id ->. apply Hcur. by left.
    + apply Hsend. intros id ->. apply Hcur. by right.
  - rewrite Hids. rewrite Hsplit, fmap_app in Hnd. by apply NoDup_app in Hnd as (_ & _ & Hnd).
  - rewrite Hids. intros id (e & -> & He)%list_elem_of_fmap. exists e. split; [by apply Hin|done].
  - apply (bodies_stable logs Hgrow Huniq k); [|done]. intros e He. by apply Hrem, Hin.
Qed.
(** The cursors and ids of a walk are those of events it has passed. *)
Lemma seen_older b2 n3 bodies post' rest cursors ids sn nx :
  map fst bodies = selected ws f post' → (∀ c, c ∈ cursors ++ ids → ∃ e, e ∈ rest ∧ c = e_event_id e) →
  ∀ c, c ∈ (e_event_id b2 :: cursors) ++ rev (page_ids (mkAuditPage ((b2, n3) :: bodies) sn nx)) ++ ids →
    ∃ e, e ∈ b2 :: post' ++ rest ∧ c = e_event_id e.
Proof.
  intros Hbodies Hold c Hc. rewrite <-app_comm_cons, elem_of_cons, !elem_of_app, elem_of_rev_list in Hc.
  assert (Hsome : (∃ e, e ∈ b2 :: post' ∧ c = e_event_id e) ∨ c ∈ cursors ++ ids).
  { rewrite elem_of_app. destruct Hc as [->|[Hc|[Hc|Hc]]]; [|by right; left| |by right; right].
    - left. exists b2. split; [by left|done].
    - left. unfold page_ids in Hc. cbn [pg_events map] in Hc. apply elem_of_cons in Hc as [->|Hc].
      + exists b2. split; [by left|done].
      + apply list_elem_of_fmap in Hc as (en & -> & Hen). exists en.1. split; [|done]. right.
        assert (Hx : en.1 ∈ map fst bodies) by by apply (list_elem_of_fmap_2 fst).
        rewrite Hbodies in Hx. by apply selected_elem in Hx as [Hx _]. }
  destruct Hsome as [(e & He & ->)|Hc'].
  - exists e. split; [|done]. rewrite elem_of_cons, elem_of_app in *. tauto.
  - destruct (Hold c Hc') as (e & He & ->). exists e. split; [|done].
    apply elem_of_cons. right. apply elem_of_app. by right.
Qed.
Lemma collect_from fuel k pre b' post s cursors ids :
  logs 0%nat = pre ++ b' :: post → e_workspace_id b' = ws → e_workspace_id s = ws → s ∈ b' :: post →
  selected ws f pre ≠ [] →
  (∀ c, c ∈ cursors ++ ids → ∃ e, e ∈ b' :: post ∧ c = e_event_id e) →
  (length (selected ws f pre) < fuel)%nat →
  ∃ pages l k', collect fuel g b r (Some (e_event_id s)) (Some (e_event_id b')) cursors ids k = (Ok pages, k') ∧
    concat (rev pages) = map report_of l ∧ map fst l = selected ws f pre ∧
    Forall (λ en, logs 0%nat !! Z.to_nat (en.2 - 1) = Some en.1 ∧ 1 ≤ en.2) l.
Proof.
  revert k pre b' post cursors ids. induction fuel as [|fuel IH]; intros k pre b' post cursors ids H0 Hb' Hs Hin Hne Hold Hfuel; [lia|].
  assert (Hpre : ∀ e, e ∈ selected ws f pre → e ∈ pre ∧ e ∈ logs 0%nat ∧ e_workspace_id e = ws).
  { intros e [He ?]%selected_elem. split_and!; [done| |done]. rewrite H0. apply elem_of_app. by left. }
  destruct (logs_grow logs Hgrow k) as [extra Hk]. pose proof (Huniq k) as Hu.
  assert (Hlk : logs k = pre ++ b' :: post ++ extra) by (by rewrite Hk, H0, <-app_assoc).
  destruct (audit_page_spec ws f (Some (e_event_id s)) (Some (e_event_id b')) 100 (logs k) (selected ws f pre))
    as (bodies & sn & next & Hpage & Hall & -> & Hcase); [done|done| | |].
  { intros e He. destruct (Hpre e He) as (_ & ? & ?). split; [|done]. rewrite Hk. apply elem_of_app. by left. }
  { rewrite Hlk in Hu |- *. apply list_filtered_next; [done..|].
    rewrite elem_of_cons, elem_of_app. apply elem_of_cons in Hin. tauto. }
  assert (Hs0 : s ∈ logs 0%nat) by (rewrite H0; apply elem_of_app; by right).
  assert (Hb0 : b' ∈ logs 0%nat) by (rewrite H0; apply elem_of_app; right; by left).
  assert (Hsplit : ∃ rem', selected ws f pre = rem' ++ map fst bodies ∧
    (∀ id, next = Some id → ∃ e, e ∈ logs 0%nat ∧ id = e_event_id e) ∧ bodies ≠ []).
  { destruct Hcase as [[-> Hfst]|(rem' & b2 & tl & Hrem & Hfst & -> & _)].
    - exists []. split_and!; [done|done|]. intros ->. by rewrite <-Hfst in Hne.
    - exists rem'. split_and!; [by rewrite Hfst| |by intros ->]. intros id [= <-]. exists b2. split; [|done].
      apply Hpre. rewrite Hrem. apply elem_of_app. right. by left. }
  destruct Hsplit as (rem' & Hsplit & Hnext & Hbodies).
  destruct (page_of_log k bodies (Some (e_event_id s)) next (selected ws f pre) rem') as (Hok & Hnd & Hids & Hall0);
    [by intros e (_ & ? & _)%Hpre|by eapply selected_ids_nodup|done|done| |].
  { intros id [[= <-]|Hid]; [by exists s|by apply Hnext]. }
  assert (Hfresh : ∀ c e, c ∈ cursors ++ ids → e ∈ pre → c ≠ e_event_id e).
  { intros c e Hc He E. destruct (Hold c Hc) as (y & Hy & ->). by apply (ids_apart pre (b' :: post) e y). }
  rewrite (collect_step fuel (Some (e_event_id s)) (Some (e_event_id b')) cursors ids k _
    (id_sendable 0 s Hs0) (id_sendable 0 b' Hb0) ltac:(done) Hpage Hok).
  2: by right.
  2: exact Hnd.
  2: { intros id Hid Hin'. destruct (Hids id Hid) as (e & He & ->). apply Hpre in He as (He & _).
       apply (Hfresh (e_event_id e) e); [apply elem_of_app; by right|done|done]. }
  2: done.
  cbn [pg_next_before_event_id pg_snapshot_event_id pg_events].
  destruct Hcase as [[-> Hfst]|(rem2 & b2 & tl & Hrem & Hfst & -> & Hlt)].
  { exists [map report_of bodies], bodies, (S k). split_and!; [done|cbn; by rewrite app_nil_r|done|done]. }
  destruct bodies as [|[b3 n3] bodies]; [done|]. injection Hfst as -> Hfst. cbn [fst].
  rewrite eqb_refl, orb_false_r. assert (Hb2 : b2 ∈ pre).
  { apply Hpre. rewrite Hrem. apply elem_of_app. right. by left. }
  assert (Hcur : existsb (String.eqb (e_event_id b2)) cursors = false).
  { apply existsb_false_elem. intros c Hc. apply String.eqb_neq. intros E.
    apply (Hfresh c b2); [apply elem_of_app; by left|done|done]. }
  rewrite Hcur.
  destruct (selected_split ws f _ _ _ _ Hrem) as (pre' & post' & Hpp & Hpre' & Hpost' & Hb2w).
  destruct (IH (S k) pre' b2 (post' ++ b' :: post) (e_event_id b2 :: cursors)
    (rev (page_ids (mkAuditPage ((b2, n3) :: bodies) (Some (e_event_id s)) (Some (e_event_id b2)))) ++ ids))
    as (pages & l & k' & Hrun & Hcat & Hl & Hln).
  - by rewrite H0, Hpp, <-app_assoc.
  - done.
  - done.
  - apply elem_of_cons. right. apply elem_of_app. by right.
  - rewrite Hpre'. intros ->. cbn in Hlt. lia.
  - apply seen_older; [by rewrite Hfst, Hpost'|done].
  - rewrite Hpre'. lia.
  - exists (map report_of ((b2, n3) :: bodies) :: pages), (l ++ (b2, n3) :: bodies), k'. split_and!.
    + by rewrite (bind_run _ _ _ _ _ Hrun).
    + cbn [rev]. rewrite concat_app, Hcat, map_app. cbn [concat]. by rewrite app_nil_r.
    + rewrite map_app, Hl, Hpre', Hrem. cbn [map fst]. by rewrite Hfst.
    + by apply Forall_app.
Qed.

(** The whole walk. *)
Lemma collect_all fuel : (length (logs 0%nat) < S fuel)%nat →
  ∃ pages l k', collect (S fuel) g b r None None [] [] 0%nat = (Ok pages, k') ∧
    concat (rev pages) = map report_of l ∧ map fst l = selected ws f (logs 0%nat) ∧
    Forall (λ en, logs 0%nat !! Z.to_nat (en.2 - 1) = Some en.1 ∧ 1 ≤ en.2) l.
Proof.
  intros Hfuel.
  destruct (audit_page_spec ws f None None 100 (logs 0%nat) (selected ws f (logs 0%nat)))
      as (bodies & sn & next & Hpage & Hall & Hsn & Hcase); [done|done|by intros e ?%selected_elem|by apply list_filtered_first|].
    assert (Hlog : ∀ e, e ∈ selected ws f (logs 0%nat) → e ∈ logs 0%nat) by by intros e [? _]%selected_elem.
    assert (Hsplit : ∃ rem', selected ws f (logs 0%nat) = rem' ++ map fst bodies ∧
      (∀ id, next = Some id → ∃ e, e ∈ logs 0%nat ∧ id = e_event_id e) ∧
      e_event_id <$> last (selected ws f (logs 0%nat)) = e_event_id <$> last (map fst bodies)).
    { destruct Hcase as [[-> Hfst]|(rem' & b2 & tl & Hrem & Hfst & -> & _)].
      - exists []. by rewrite Hfst.
      - exists rem'. split_and!; [by rewrite Hfst| |].
        + intros id [= <-]. exists b2. split; [|done]. apply Hlog. rewrite Hrem. apply elem_of_app. right. by left.
        + rewrite Hfst, Hrem, last_app. by destruct (last (b2 :: tl)) eqn:E; [|apply last_None in E]. }
    destruct Hsplit as (rem' & Hsplit & Hnext & Hlast). rewrite Hlast in Hsn.
    assert (Hsnap : ∀ id, sn = Some id → ∃ e, e ∈ bodies ∧ id = e_event_id e.1).
    { intros id Hid. rewrite Hsn in Hid. change (map fst bodies) with (fst <$> bodies) in Hid. rewrite fmap_last in Hid.
      destruct (last bodies) as [en|] eqn:E; [|done]. injection Hid as <-. exists en.
      split; [by apply last_Some_elem_of|done]. }
    assert (Hin : ∀ en, en ∈ bodies → en.1 ∈ selected ws f (logs 0%nat)).
    { intros en Hen. rewrite Hsplit. apply elem_of_app. right. by apply (list_elem_of_fmap_2 fst). }
    destruct (page_of_log 0 bodies sn next (selected ws f (logs 0%nat)) rem') as (Hok & Hnd & Hids & Hall0);
      [exact Hlog|apply (selected_ids_nodup _ []); by rewrite app_nil_r|done|done| |].
    { intros id [Hid|Hid]; [|by apply Hnext]. destruct (Hsnap id Hid) as (en & Hen & ->). exists en.1.
      split; [by apply Hlog, Hin|done]. }
    rewrite (collect_step fuel None None [] [] 0 _ I I ltac:(done) Hpage Hok);
      [|by left|exact Hnd|intros; apply not_elem_of_nil|exact Hsn].
    cbn [pg_next_before_event_id pg_snapshot_event_id pg_events].
    destruct Hcase as [[-> Hfst]|(rem2 & b2 & tl & Hrem & Hfst & -> & Hlt)].
    { exists [map report_of bodies], bodies, 1%nat. split_and!; [done|cbn; by rewrite app_nil_r|done|done]. }
    destruct bodies as [|[b3 n3] bodies]; [done|]. injection Hfst as -> Hfst. cbn [map fst] in Hsn, Hsplit.
    destruct sn as [sid|]; [|by rewrite last_cons in Hsn; destruct (last _)].
    destruct (Hsnap sid eq_refl) as ([s0 n0] & Hs0 & ->). cbn [fst existsb orb]. rewrite eqb_refl. cbn [negb].
    destruct (selected_split ws f _ _ _ _ Hrem) as (pre & post & H0 & Hpre & Hpost & Hbw).
    assert (Hs : s0 ∈ b2 :: post ∧ e_workspace_id s0 = ws).
    { split; [|by apply (selected_elem ws f s0 (logs 0%nat)), (Hin (s0, n0))].
      apply elem_of_cons in Hs0 as [[= -> _]|Hs0]; [by left|right].
      assert (Hx : s0 ∈ tl) by (rewrite <-Hfst; by apply (list_elem_of_fmap_2 fst) in Hs0).
      rewrite <-Hpost in Hx. by apply selected_elem in Hx as [Hx _]. }
    destruct (collect_from fuel 1 pre b2 post s0 [e_event_id b2]
      (rev (page_ids (mkAuditPage ((b2, n3) :: bodies) (Some (e_event_id s0)) (Some (e_event_id b2)))) ++ []))
      as (pages & l & k' & Hrun & Hcat & Hl & Hln); [done|done|by apply Hs|by apply Hs| | | |].
    - rewrite Hpre. intros ->. cbn in Hlt. lia.
    - intros c Hc. rewrite <-(app_nil_r post).
      apply (seen_older b2 n3 bodies post [] [] [] (Some (e_event_id s0)) (Some (e_event_id b2))); [by rewrite Hfst|by intros ? ?%elem_of_nil|done].
    - rewrite Hpre. pose proof (filter_length_le (selects ws f) (logs 0%nat)). unfold selected in Hlt. lia.
    - exists (map report_of ((b2, n3) :: bodies) :: pages), (l ++ (b2, n3) :: bodies), k'. split_and!.
      + by rewrite (bind_run _ _ _ _ _ Hrun).
      + cbn [rev]. rewrite concat_app, Hcat, map_app. cbn [concat]. by rewrite app_nil_r.
      + rewrite map_app, Hl, Hpre, Hrem. cbn [map fst]. by rewrite Hfst.
      + by apply Forall_app.
Qed.

(** C39: A report of the MCP server is exact, end to end.  The walk over the pages of
    the audit endpoint, through the client's query strings, the service's parsing of
    them, the key, the filter, the pages cut from the log and their JSON read back,
    ends within as many requests as the log had events and one; whatever is appended
    to the log between the requests, it refuses nothing and returns exactly the
    events of the workspace that the filter selected in the log as the first request
    found it, each once, in order, each with its true position, and of each what the
    mode shows. *)
Theorem mcp_report_complete fuel : (length (logs 0%nat) < fuel)%nat →
  ∃ l k', _complete_audit_events mode fuel g b r 0%nat = (Ok (map report_of l), k') ∧
    map fst l = selected ws (report_filter g b r) (logs 0%nat) ∧
    Forall (λ en, logs 0%nat !! Z.to_nat (en.2 - 1) = Some en.1) l.
Proof.
  intros Hfuel. destruct fuel as [|fuel]; [lia|].
  destruct (collect_all fuel Hfuel) as (pages & l & k' & Hrun & Hcat & Hl & Hln). exists l, k'. split_and!; [|done|].
  - unfold _complete_audit_events. rewrite (bind_run _ _ _ _ _ Hrun). cbv zeta. rewrite Hcat.
    destruct (numbers_increase (selects ws f) (logs 0%nat) 1 l (Huniq 0) Hl) as [Hch _]; [|by rewrite Hch].
    eapply Forall_impl; [exact Hln|]. by intros en [? ?].
  - eapply Forall_impl; [exact Hln|]. by intros en [? ?].
Qed.
End report.

(** ** Witness: two pages of a log that grows by an event at each request *)

Module Log.
Definition event (n : nat) : AuditEvent :=
  sample_event ("e" ^+ pretty n) (if (n mod 3 =? 0)%nat then "other" else "ws").
Definition logs (k : nat) : list AuditEvent := map event (seq 0 (160 + k)).
Definition keys : Keyring nat WorkspaceIdentity := mkKeyring (Some [("wk", mkWorkspaceIdentity "ws")]) None.
Definition client : VinctorServiceClient := mkVinctorServiceClient "http" "localhost" 80 "wk" None 5.
#[local] Instance reading : ReadOnlyVinctorClient nat :=
  reader (λ l, l) (λ _, Raise (ValueError "")) logs keys keys 0 (λ _, "") client.
Definition report : result (list _AuditReportEvent) * nat := _complete_audit_events safe 161 None None None 0%nat.

Lemma logs_prefix k : logs k `prefix_of` logs (S k).
Proof. unfold logs. rewrite Nat.add_succ_r, seq_S, map_app. by eexists. Qed.
Lemma logs_unique k : ids_unique (logs k).
Proof.
  unfold ids_unique, logs. change (NoDup (map e_event_id (map event (seq 0 (160 + k))))). rewrite map_map.
  assert (Hinj : Inj (=) (=) (λ n : nat, "e" ^+ pretty n)).
  { intros x y E. apply (app_inj_l "e") in E. by apply (inj pretty) in E. }
  exact (NoDup_fmap_2 (λ n : nat, "e" ^+ pretty n) _ (NoDup_seq 0 (160 + k))).
Qed.
Lemma pretty_ascii (n : nat) : isascii ("e" ^+ pretty n) = true.
Proof.
  apply printable_ascii. rewrite all_chars_app. change (pretty n) with (pretty (N.of_nat n)).
  destruct n as [|n]; [done|]. exact (printable_pretty (Z.of_nat (S n))).
Qed.
Lemma event_reportable n : reportable (event n).
Proof.
  unfold event. assert (Hws : isascii (if (n mod 3 =? 0)%nat then "other" else "ws") = true) by by case_match.
  revert Hws. generalize (if (n mod 3 =? 0)%nat then "other" else "ws"). intros ws Hws.
  constructor; try done. apply json_ok_obj. split; [by apply (bool_decide_unpack _)|].
  unfold _audit_event_body, sample_event. cbn [e_event_id e_workspace_id].
  repeat (apply Forall_cons_2; [split; [by apply is_text_ascii|]; cbn; first [done|by apply is_text_ascii|by apply is_text_ascii, pretty_ascii]|]).
  constructor.
Qed.
End Log.
Lemma mcp_report_complete_witness : ∃ l k', Log.report = (Ok (map (report_of safe) l), k') ∧
  map fst l = selected "ws" (report_filter None None None) (Log.logs 0) ∧ length (Log.logs 0) = 160%nat.
Proof.
  destruct (mcp_report_complete (λ l, l) (λ _, Raise (ValueError "")) (λ l, reflexivity l) Log.logs Log.keys Log.keys
    0 (λ _, "") Log.client safe "ws" (λ k, eq_refl) None None None I I I Log.logs_prefix Log.logs_unique) with (fuel := 161%nat)
    as (l & k' & Hrun & Hl & _).
  - intros k e (n & -> & _)%list_elem_of_fmap. apply Log.event_reportable.
  - cbn. lia.
  - exists l, k'. split; [exact Hrun|]. split; [exact Hl|reflexivity].
Defined.
