(* ===== verification/SqlPool.v ===== *)
(** * The SQLite connection pool ([src/vinctor_service/sqlite_pool.py],
      [sqlite_pool_admission.py], [sqlite_pool_context.py])

    A pool of request contexts, each with a connection of its own, leased to
    request threads in their order of arrival, lent to readiness probes, rebuilt
    when one is retired.  The threads interleave: the state is what they share
    and where each of them is, and a critical section of the pool's lock is one
    step, as is each operation on a connection outside it.  What a connection
    answers, and whether a new one can be opened, is the scheduler's choice.
    Times are nanoseconds. *)
From S2P Require Import Prelude PyDict.

(** ** State *)

(** A context, by its place in the order of creation; [cx_open] says that its
    service and connection are not closed, [cx_in_transaction] what the
    connection says while it is open. *)
Record SQLiteRequestContext := mkContext {
  cx_generation : nat;
  cx_healthy : bool;
  cx_closed : bool;
  cx_open : bool;
  cx_in_transaction : bool
}.
Definition new_context (generation : nat) : SQLiteRequestContext := mkContext generation true false true false.
Definition condemn (x : SQLiteRequestContext) : SQLiteRequestContext :=
  mkContext (cx_generation x) false true (cx_open x) (cx_in_transaction x).
(** [context.service.close(); context.connection.close()].  Either may raise: the first
    when the lock of the service's lifecycle cannot be given up, and then the
    connection stays open; the second when its lease of the database cannot. *)
Definition dispose (x : SQLiteRequestContext) : SQLiteRequestContext :=
  mkContext (cx_generation x) (cx_healthy x) (cx_closed x) false (cx_in_transaction x).
Definition transact (open : bool) (x : SQLiteRequestContext) : SQLiteRequestContext :=
  mkContext (cx_generation x) (cx_healthy x) (cx_closed x) (cx_open x) open.

Record SQLiteLeaseAdmission := mkAdmission {
  ad_available : list nat;
  ad_waiters : list nat;
  ad_closed : bool;
  ad_accepting : bool;
  ad_epoch : nat
}.
Record SQLiteServicePool := mkPool {
  sp_contexts : list nat;
  sp_admission : SQLiteLeaseAdmission;
  sp_next_generation : nat;
  sp_build_in_flight : bool;
  sp_closed : bool;
  sp_probe_calls : list (Z * nat);
  sp_deferred : list nat
}.

(** What a thread does after [_replenish_once]: it asks for a lease, goes on with
    its request, or is done. *)
Inductive After := ThenAdmit | ThenServe (c : nat) | ThenFinish.
(** Where a request is. *)
Inductive RequestAt :=
  | Replenishing (after : After)
  | Building (generation : nat) (after : After)
  | Discarding (c : nat) (after : After)
  | Admitting
  | Queued (epoch : nat) (deadline : Z) (notified : bool)
  | Serving (c : nat)
  | Quarantining (c : nat)
  | Reclaiming (c : nat)
  | Releasing (c : nat)
  | Retiring (c : nat)
  | Dropping (c : nat)
  | Finished.
(** Where a readiness probe is, with its answer. *)
Inductive ProbeAt :=
  | Asking
  | Probing (c : nat)
  | Returning (c : nat) (ready : bool)
  | Disposing (c : nat) (ready : bool)
  | Answered (ready : bool).

(** All there is: the contexts ever built, the requests and the probes, what each
    closing thread has left to close, the contexts that were interrupted, and those
    whose closing an error cut short, which nothing closes any more. *)
Record PoolSystem := mkPoolSystem {
  ps_pool : SQLiteServicePool;
  ps_heap : list SQLiteRequestContext;
  ps_requests : list RequestAt;
  ps_probes : list ProbeAt;
  ps_closers : list (list nat);
  ps_interrupted : list nat;
  ps_abandoned : list nat;
  ps_now : Z
}.

Section setters.
Definition set_admission a p := mkPool (sp_contexts p) a (sp_next_generation p) (sp_build_in_flight p) (sp_closed p)
  (sp_probe_calls p) (sp_deferred p).
Definition set_contexts l p := mkPool l (sp_admission p) (sp_next_generation p) (sp_build_in_flight p) (sp_closed p)
  (sp_probe_calls p) (sp_deferred p).
Definition set_building b p := mkPool (sp_contexts p) (sp_admission p) (sp_next_generation p) b (sp_closed p)
  (sp_probe_calls p) (sp_deferred p).
Definition set_generation n p := mkPool (sp_contexts p) (sp_admission p) n (sp_build_in_flight p) (sp_closed p)
  (sp_probe_calls p) (sp_deferred p).
Definition set_probes calls deferred p := mkPool (sp_contexts p) (sp_admission p) (sp_next_generation p)
  (sp_build_in_flight p) (sp_closed p) calls deferred.
Definition with_pool p s := mkPoolSystem p (ps_heap s) (ps_requests s) (ps_probes s) (ps_closers s) (ps_interrupted s)
  (ps_abandoned s) (ps_now s).
Definition with_heap h s := mkPoolSystem (ps_pool s) h (ps_requests s) (ps_probes s) (ps_closers s) (ps_interrupted s)
  (ps_abandoned s) (ps_now s).
Definition with_requests l s := mkPoolSystem (ps_pool s) (ps_heap s) l (ps_probes s) (ps_closers s) (ps_interrupted s)
  (ps_abandoned s) (ps_now s).
Definition with_probes l s := mkPoolSystem (ps_pool s) (ps_heap s) (ps_requests s) l (ps_closers s) (ps_interrupted s)
  (ps_abandoned s) (ps_now s).
Definition with_closers l s := mkPoolSystem (ps_pool s) (ps_heap s) (ps_requests s) (ps_probes s) l (ps_interrupted s)
  (ps_abandoned s) (ps_now s).
Definition with_abandoned l s := mkPoolSystem (ps_pool s) (ps_heap s) (ps_requests s) (ps_probes s) (ps_closers s)
  (ps_interrupted s) l (ps_now s).
Definition at_request (t : nat) (at_ : RequestAt) (s : PoolSystem) : PoolSystem :=
  with_requests (<[t := at_]> (ps_requests s)) s.
Definition at_probe (p : nat) (at_ : ProbeAt) (s : PoolSystem) : PoolSystem := with_probes (<[p := at_]> (ps_probes s)) s.
Definition on_context (c : nat) (f : SQLiteRequestContext → SQLiteRequestContext) (s : PoolSystem) : PoolSystem :=
  with_heap (alter f c (ps_heap s)) s.
(** One of them raised, with the connection [closed] or not. *)
Definition dispose_raises (c : nat) (closed : bool) (s : PoolSystem) : PoolSystem :=
  if closed then on_context c dispose s else with_abandoned (ps_abandoned s ++ [c]) s.
Definition on_pool (f : SQLiteServicePool → SQLiteServicePool) (s : PoolSystem) : PoolSystem := with_pool (f (ps_pool s)) s.
Definition on_admission (f : SQLiteLeaseAdmission → SQLiteLeaseAdmission) : PoolSystem → PoolSystem :=
  on_pool (λ p, set_admission (f (sp_admission p)) p).
End setters.

(** ** Admission *)

(** [condition.notify_all()] *)
Definition wake (at_ : RequestAt) : RequestAt :=
  match at_ with Queued epoch deadline _ => Queued epoch deadline true | _ => at_ end.
Definition notify_all (s : PoolSystem) : PoolSystem := with_requests (map wake (ps_requests s)) s.

(** One turn of the loop in [acquire]. *)
Inductive Turn := Refused | Granted (c : nat) | Waits.
Definition turn (t epoch : nat) (late : bool) (a : SQLiteLeaseAdmission) : Turn :=
  if ad_closed a || negb (ad_accepting a) || negb (epoch =? ad_epoch a)%nat then Refused
  else
    match ad_waiters a, ad_available a with
    | w :: _, c :: _ => if (w =? t)%nat then Granted c else if late then Refused else Waits
    | _, _ => if late then Refused else Waits
    end.
Definition enqueue (t : nat) (a : SQLiteLeaseAdmission) : SQLiteLeaseAdmission :=
  mkAdmission (ad_available a) (ad_waiters a ++ [t]) (ad_closed a) (ad_accepting a) (ad_epoch a).
Definition leave (t : nat) (a : SQLiteLeaseAdmission) : SQLiteLeaseAdmission :=
  mkAdmission (ad_available a) (List.filter (λ w, negb (w =? t)%nat) (ad_waiters a)) (ad_closed a) (ad_accepting a) (ad_epoch a).
Definition take_lease (a : SQLiteLeaseAdmission) : SQLiteLeaseAdmission :=
  mkAdmission (tail (ad_available a)) (tail (ad_waiters a)) (ad_closed a) (ad_accepting a) (ad_epoch a).
Definition acquire_turn (t epoch : nat) (deadline : Z) (s : PoolSystem) : PoolSystem :=
  match turn t epoch (deadline <=? ps_now s) (sp_admission (ps_pool s)) with
  | Refused => at_request t Finished (notify_all (on_admission (leave t) s))
  | Granted c => at_request t (Serving c) (notify_all (on_admission take_lease s))
  | Waits => at_request t (Queued epoch deadline false) s
  end.
Definition acquire (timeout : Z) (t : nat) (s : PoolSystem) : PoolSystem :=
  acquire_turn t (ad_epoch (sp_admission (ps_pool s))) (ps_now s + timeout) (notify_all (on_admission (enqueue t) s)).
Definition add_lease (c : nat) (accepting : bool) (a : SQLiteLeaseAdmission) : SQLiteLeaseAdmission :=
  if ad_closed a then a
  else mkAdmission (ad_available a ++ [c]) (ad_waiters a) (ad_closed a) (accepting || ad_accepting a) (ad_epoch a).
Definition release (c : nat) (s : PoolSystem) : PoolSystem := notify_all (on_admission (add_lease c false) s).
Definition publish (c : nat) (s : PoolSystem) : PoolSystem := notify_all (on_admission (add_lease c true) s).
Definition stale (a : SQLiteLeaseAdmission) : SQLiteLeaseAdmission :=
  mkAdmission (ad_available a) (ad_waiters a) (ad_closed a) false (S (ad_epoch a)).
Definition invalidate_waiters (s : PoolSystem) : PoolSystem := notify_all (on_admission stale s).
Definition shut (a : SQLiteLeaseAdmission) : SQLiteLeaseAdmission := mkAdmission [] (ad_waiters a) true false (S (ad_epoch a)).
Definition close_admission (s : PoolSystem) : PoolSystem := notify_all (on_admission shut s).

(** ** The pool *)
Section pool.
Context (size : nat) (lease_timeout : Z).

Definition pool_arguments : result unit :=
  if (size <? 1)%nat then Raise (ValueError "SQLite service pool size must be at least 1")
  else if lease_timeout <=? 0 then Raise (ValueError "SQLite service pool lease timeout must be positive")
  else Ok tt.
Definition new_pool (now : Z) : PoolSystem :=
  mkPoolSystem (mkPool (seq 0 size) (mkAdmission (seq 0 size) [] false true 0) (S size) false false [] [])
    (map (λ n, new_context (S n)) (seq 0 size)) [] [] [] [] [] now.

Definition without (c : nat) (l : list nat) : list nat := List.filter (λ x, negb (x =? c)%nat) l.
Definition member (c : nat) (l : list nat) : bool := existsb (Nat.eqb c) l.
Definition context_of (c : nat) (s : PoolSystem) : option SQLiteRequestContext := ps_heap s !! c.
(** [context.healthy and not context.closed and context in self._contexts] *)
Definition usable (c : nat) (s : PoolSystem) : bool :=
  match context_of c s with
  | Some x => cx_healthy x && negb (cx_closed x) && member c (sp_contexts (ps_pool s))
  | None => false
  end.
(** The context leaves the pool, whose waiters are refused. *)
Definition expel (c : nat) (s : PoolSystem) : PoolSystem :=
  invalidate_waiters
    (on_admission (λ a, mkAdmission (without c (ad_available a)) (ad_waiters a) (ad_closed a) (ad_accepting a) (ad_epoch a))
      (on_pool (λ p, set_contexts (without c (sp_contexts p)) p) (on_context c condemn s))).

(** [_replenish_once]: whether to build, and with which generation. *)
Definition resume (after : After) : RequestAt :=
  match after with ThenAdmit => Admitting | ThenServe c => Serving c | ThenFinish => Finished end.
Definition replenish_begin (t : nat) (after : After) (s : PoolSystem) : PoolSystem :=
  let p := ps_pool s in
  if sp_closed p || sp_build_in_flight p || (size <=? length (sp_contexts p))%nat then at_request t (resume after) s
  else
    at_request t (Building (sp_next_generation p) after)
      (on_pool (λ p, set_generation (S (sp_next_generation p)) (set_building true p)) s).
(** It raised: its caller sees it, but [_retire] suppresses it. *)
Definition resume_raising (after : After) : RequestAt := match after with ThenAdmit => Finished | a => resume a end.
(** [_build_context] raised. *)
Definition build_fails (t : nat) (after : After) (s : PoolSystem) : PoolSystem :=
  at_request t (resume_raising after)
    (invalidate_waiters (on_pool (set_building false) s)).
(** It returned a context, whose transaction is closed. *)
Definition build_succeeds (t generation : nat) (after : After) (s : PoolSystem) : PoolSystem :=
  let c := length (ps_heap s) in
  let s := with_heap (ps_heap s ++ [new_context generation]) (on_pool (set_building false) s) in
  if negb (sp_closed (ps_pool s)) && (length (sp_contexts (ps_pool s)) <? size)%nat
  then at_request t (resume after) (publish c (on_pool (λ p, set_contexts (sp_contexts p ++ [c]) p) s))
  else at_request t (Discarding c after) (on_context c condemn s).

(** ** Requests *)

(** What happens to a request: the build it waits for ends, a request does
    something with its connection, reports an ambiguous commit, or ends, a
    rollback leaves its connection clean or does not, and closing a context raises,
    with its connection closed or not. *)
Inductive Event := Goes | Fails | Uses (in_transaction : bool) | Reports (expected_generation : nat) | Ends
  | CloseRaises (closed : bool).
Definition quarantine_current_context (t c expected_generation : nat) (s : PoolSystem) : PoolSystem :=
  match context_of c s with
  | Some x =>
      if negb (cx_generation x =? expected_generation)%nat || negb (usable c s) then s
      else at_request t (Quarantining c) (expel c s)
  | None => s
  end.
(** [_in_transaction]: a closed connection raises, and counts as dirty. *)
Definition _in_transaction (c : nat) (s : PoolSystem) : bool :=
  match context_of c s with Some x => negb (cx_open x) || cx_in_transaction x | None => true end.
Definition can_roll_back (c : nat) (s : PoolSystem) : bool :=
  match context_of c s with Some x => cx_open x | None => false end.
Definition _reclaim (t c : nat) (rolls_back : bool) (s : PoolSystem) : PoolSystem :=
  if negb (_in_transaction c s) then at_request t (Releasing c) s
  else if rolls_back && can_roll_back c s then at_request t (Releasing c) (on_context c (transact false) s)
  else at_request t (Retiring c) s.
Definition _retire (t c : nat) (s : PoolSystem) : PoolSystem :=
  if match context_of c s with Some x => cx_closed x | None => true end || negb (member c (sp_contexts (ps_pool s)))
  then at_request t Finished s
  else at_request t (Dropping c) (expel c s).
Definition request_step (t : nat) (event : Event) (s : PoolSystem) : option PoolSystem :=
  at_ ← ps_requests s !! t;
  match at_, event with
  | Replenishing after, Goes => Some (replenish_begin t after s)
  | Building generation after, Goes => Some (build_succeeds t generation after s)
  | Building _ after, Fails => Some (build_fails t after s)
  | Discarding c after, Goes => Some (at_request t (resume after) (on_context c dispose s))
  | Discarding c after, CloseRaises closed => Some (at_request t (resume_raising after) (dispose_raises c closed s))
  | Admitting, Goes => Some (acquire lease_timeout t s)
  | Queued epoch deadline notified, Goes =>
      if notified || (deadline <=? ps_now s) then Some (acquire_turn t epoch deadline s) else None
  | Serving c, Uses in_transaction => Some (on_context c (transact in_transaction) s)
  | Serving c, Reports expected_generation => Some (quarantine_current_context t c expected_generation s)
  | Serving c, Ends => Some (at_request t (Reclaiming c) s)
  | Quarantining c, Goes => Some (at_request t (Replenishing (ThenServe c)) (on_context c dispose s))
  | Quarantining c, CloseRaises closed => Some (at_request t (Serving c) (dispose_raises c closed s))
  | Reclaiming c, Goes => Some (_reclaim t c true s)
  | Reclaiming c, Fails => Some (_reclaim t c false s)
  | Releasing c, Goes =>
      Some (at_request t Finished (if negb (sp_closed (ps_pool s)) && usable c s then release c s else s))
  | Retiring c, Goes => Some (_retire t c s)
  | Dropping c, Goes => Some (at_request t (Replenishing ThenFinish) (on_context c dispose s))
  | _, _ => None
  end.
Definition request_scope (s : PoolSystem) : PoolSystem := with_requests (ps_requests s ++ [Replenishing ThenAdmit]) s.

(** ** Readiness probes *)

(** [is_ready] outside a request.  (Inside one it uses the context of the
    request, and changes nothing.) *)
Definition borrow (p : nat) (s : PoolSystem) : PoolSystem :=
  let pool := ps_pool s in
  if sp_closed pool || sp_build_in_flight pool || (length (sp_contexts pool) <? size)%nat
  then at_probe p (Answered false) s
  else
    match ad_available (sp_admission pool) with
    | [] => at_probe p (Answered false) s
    | c :: available =>
        at_probe p (Probing c)
          (on_pool (λ pool, set_probes (sp_probe_calls pool ++ [(ps_now s, c)]) (sp_deferred pool) pool)
            (on_admission (λ a, mkAdmission available (ad_waiters a) (ad_closed a) (ad_accepting a) (ad_epoch a)) s))
    end.
(** What the statements of the check gave: a closed connection raises. *)
Definition check_result (c : nat) (answers : bool) (s : PoolSystem) : bool :=
  match context_of c s with Some x => cx_healthy x && cx_open x && answers | None => false end.
Definition _release_probe_context (p c : nat) (ready : bool) (s : PoolSystem) : PoolSystem :=
  let deferred := member c (sp_deferred (ps_pool s)) in
  let s := on_pool (λ pool, set_probes (List.filter (λ call, negb (call.2 =? c)%nat) (sp_probe_calls pool))
                               (without c (sp_deferred pool)) pool) s in
  if negb (sp_closed (ps_pool s)) && usable c s then at_probe p (Answered ready) (release c s)
  else at_probe p (if deferred then Disposing c ready else Answered ready) s.
Definition probe_step (p : nat) (answers : bool) (s : PoolSystem) : option PoolSystem :=
  at_ ← ps_probes s !! p;
  match at_ with
  | Asking => Some (borrow p s)
  | Probing c => Some (at_probe p (Returning c (check_result c answers s)) s)
  | Returning c ready => Some (_release_probe_context p c ready s)
  | Disposing c ready => Some (at_probe p (Answered ready) (on_context c dispose s))
  | Answered _ => None
  end.
(** Closing what it was to dispose of raised, and the probe failed. *)
Definition probe_close_raises (p : nat) (closed : bool) (s : PoolSystem) : option PoolSystem :=
  match ps_probes s !! p with
  | Some (Disposing c _) => Some (at_probe p (Answered false) (dispose_raises c closed s))
  | _ => None
  end.
Definition is_ready (s : PoolSystem) : PoolSystem := with_probes (ps_probes s ++ [Asking]) s.
Definition interrupt_readiness_probes (older_than : Z) (s : PoolSystem) : PoolSystem :=
  let expired := ps_now s - older_than in
  mkPoolSystem (ps_pool s) (ps_heap s) (ps_requests s) (ps_probes s) (ps_closers s)
    (ps_interrupted s ++ map snd (List.filter (λ call, negb (expired <? call.1)) (sp_probe_calls (ps_pool s))))
    (ps_abandoned s) (ps_now s).

(** ** Closing *)

Definition close (s : PoolSystem) : PoolSystem :=
  let pool := ps_pool s in
  if sp_closed pool then s
  else
    let contexts := sp_contexts pool in
    let borrowed := map snd (sp_probe_calls pool) in
    let s := with_heap (foldr (alter condemn) (ps_heap s) contexts) s in
    let s := close_admission (with_pool (mkPool [] (sp_admission pool) (sp_next_generation pool)
               (sp_build_in_flight pool) true (sp_probe_calls pool) (sp_deferred pool ++ borrowed)) s) in
    with_closers (ps_closers s ++ [List.filter (λ c, negb (member c borrowed)) contexts]) s.
Definition close_step (k : nat) (s : PoolSystem) : option PoolSystem :=
  match ps_closers s !! k with
  | Some (c :: rest) => Some (with_closers (<[k := rest]> (ps_closers s)) (on_context c dispose s))
  | _ => None
  end.
(** [close_export] or a context's closing raised, and the rest stays open. *)
Definition close_raises (k : nat) (closed : bool) (s : PoolSystem) : option PoolSystem :=
  match ps_closers s !! k with
  | Some (c :: rest) =>
      let s := dispose_raises c closed s in
      Some (with_closers (<[k := []]> (ps_closers s)) (with_abandoned (ps_abandoned s ++ rest) s))
  | _ => None
  end.
Definition tick (d : Z) (s : PoolSystem) : PoolSystem :=
  mkPoolSystem (ps_pool s) (ps_heap s) (ps_requests s) (ps_probes s) (ps_closers s) (ps_interrupted s)
    (ps_abandoned s) (ps_now s + d).

Inductive pool_step : PoolSystem → PoolSystem → Prop :=
  | step_arrives s : pool_step s (request_scope s)
  | step_request t event s s' : request_step t event s = Some s' → pool_step s s'
  | step_asks s : pool_step s (is_ready s)
  | step_probe p answers s s' : probe_step p answers s = Some s' → pool_step s s'
  | step_probe_raises p closed s s' : probe_close_raises p closed s = Some s' → pool_step s s'
  | step_interrupts older_than s : pool_step s (interrupt_readiness_probes older_than s)
  | step_close s : pool_step s (close s)
  | step_closing k s s' : close_step k s = Some s' → pool_step s s'
  | step_closing_raises k closed s s' : close_raises k closed s = Some s' → pool_step s s'
  | step_tick d s : 0 <= d → pool_step s (tick d s).
End pool.
