(* ===== verification/SqlPoolSafe.v ===== *)
(** * The connection pool is safe

    The invariant of the pool of [SqlPool.v], and what it says: a connection is
    in one place at a time, what is leased is open and in no transaction, the
    pool stays within its size, and closing pulls no connection from under a probe
    and leaks none, but where closing a context raised. *)
From S2P Require Import Prelude PyDict SqlPool.

(** ** Counting

    How often a context occurs in a list: what the threads hold is the sum of
    what each of them holds. *)
Definition one (c d : nat) : nat := if (c =? d)%nat then 1 else 0.
Fixpoint cnt (c : nat) (l : list nat) : nat := match l with [] => 0 | d :: l' => one c d + cnt c l' end.

Lemma one_refl c : one c c = 1%nat.
Proof. unfold one. by rewrite Nat.eqb_refl. Qed.
Lemma one_ne c d : c ≠ d → one c d = 0%nat.
Proof. unfold one. by intros ->%Nat.eqb_neq. Qed.
Lemma one_le c d : (one c d ≤ 1)%nat.
Proof. unfold one. destruct (_ =? _)%nat; lia. Qed.
Lemma one_eq c d : (0 < one c d)%nat → c = d.
Proof. unfold one. destruct (Nat.eqb_spec c d); [done|lia]. Qed.
Lemma cnt_app c l k : cnt c (l ++ k) = (cnt c l + cnt c k)%nat.
Proof. induction l as [|d l IH]; cbn; [done|]. rewrite IH. lia. Qed.
Lemma cnt_elem c l : c ∈ l ↔ (0 < cnt c l)%nat.
Proof.
  induction l as [|d l IH]; cbn; [split; [by intros ?%elem_of_nil|lia]|]. rewrite elem_of_cons, IH. split.
  - intros [->|Hc]; [rewrite one_refl|]; lia.
  - intros Hc. destruct (decide (c = d)) as [->|Hne]; [by left|right]. rewrite one_ne in Hc; [lia|done].
Qed.
Lemma cnt_without c d l : cnt c (without d l) = if (c =? d)%nat then 0%nat else cnt c l.
Proof.
  unfold without. induction l as [|e l IH]; cbn; [by destruct (_ =? _)%nat|].
  destruct (Nat.eqb_spec e d) as [->|Hne]; cbn; rewrite IH; unfold one.
  - by destruct (c =? d)%nat.
  - destruct (Nat.eqb_spec c d) as [->|]; [|done]. by destruct (Nat.eqb_spec d e) as [->|].
Qed.
Lemma member_cnt c l : member c l = true ↔ (0 < cnt c l)%nat.
Proof. unfold member. rewrite existsb_exists_elem, <- cnt_elem. split; [by intros (d & Hd & ->%Nat.eqb_eq)|intros Hc; exists c; by rewrite Nat.eqb_refl]. Qed.
Lemma length_without c l : (length (without c l) ≤ length l)%nat ∧ ((0 < cnt c l)%nat → (length (without c l) < length l)%nat).
Proof.
  unfold without. induction l as [|d l [IH1 IH2]]; cbn; [lia|]. destruct (Nat.eqb_spec d c) as [->|Hne]; cbn; [lia|].
  rewrite one_ne by done. split; [lia|]. intros Hc. specialize (IH2 Hc). lia.
Qed.

Section counts.
Context {A : Type} (f : A → list nat).
Lemma cnt_flat_at (l : list A) (t : nat) x c : l !! t = Some x → (cnt c (f x) ≤ cnt c (flat_map f l))%nat.
Proof.
  revert t. induction l as [|y l IH]; intros [|t]; cbn; try done; rewrite cnt_app; [intros [= ->]; lia|].
  intros Ht. specialize (IH t Ht). lia.
Qed.
Lemma cnt_flat_insert (l : list A) (t : nat) x y c : l !! t = Some x →
  (cnt c (flat_map f (<[t := y]> l)) + cnt c (f x) = cnt c (flat_map f l) + cnt c (f y))%nat.
Proof.
  revert t. induction l as [|z l IH]; intros [|t]; try done.
  - intros [= ->]. cbn. rewrite !cnt_app. lia.
  - intros Ht. specialize (IH t Ht). change (<[S t:=y]> (z :: l)) with (z :: <[t := y]> l). cbn. rewrite !cnt_app. lia.
Qed.
Lemma cnt_flat_pos (l : list A) c : (0 < cnt c (flat_map f l))%nat → ∃ t x, l !! t = Some x ∧ (0 < cnt c (f x))%nat.
Proof.
  induction l as [|y l IH]; cbn; [lia|]. rewrite cnt_app. intros Hc.
  destruct (decide (0 < cnt c (f y))%nat) as [Hy|Hy]; [by exists 0%nat, y|].
  destruct IH as (t & x & Ht & Hx); [lia|]. by exists (S t), x.
Qed.
Lemma cnt_flat_snoc (l : list A) x c : cnt c (flat_map f (l ++ [x])) = (cnt c (flat_map f l) + cnt c (f x))%nat.
Proof. rewrite flat_map_app, cnt_app. cbn. by rewrite app_nil_r. Qed.
End counts.

(** ** What a thread has *)

Definition after_holds (after : After) : list nat := match after with ThenServe c => [c] | _ => [] end.
Definition request_holds (at_ : RequestAt) : list nat :=
  match at_ with
  | Replenishing after | Building _ after => after_holds after
  | Discarding c after => c :: after_holds after
  | Serving c | Quarantining c | Reclaiming c | Releasing c | Retiring c | Dropping c => [c]
  | Admitting | Queued _ _ _ | Finished => []
  end.
(** What a request is about to dispose of. *)
Definition request_drops (at_ : RequestAt) : list nat :=
  match at_ with Discarding c _ | Quarantining c | Dropping c => [c] | _ => [] end.
(** What it is about to give back. *)
Definition request_returns (at_ : RequestAt) : list nat := match at_ with Releasing c => [c] | _ => [] end.
Definition request_builds (at_ : RequestAt) : list nat := match at_ with Building _ _ => [0%nat] | _ => [] end.
Definition probe_holds (at_ : ProbeAt) : list nat :=
  match at_ with Probing c | Returning c _ | Disposing c _ => [c] | Asking | Answered _ => [] end.
Definition probe_borrows (at_ : ProbeAt) : list nat := match at_ with Probing c | Returning c _ => [c] | _ => [] end.
Definition probe_drops (at_ : ProbeAt) : list nat := match at_ with Disposing c _ => [c] | _ => [] end.


Abbreviation available s := (ad_available (sp_admission (ps_pool s))).
Abbreviation waiters s := (ad_waiters (sp_admission (ps_pool s))).
Abbreviation contexts s := (sp_contexts (ps_pool s)).
Definition requests_with (f : RequestAt → list nat) (c : nat) (l : list RequestAt) : nat := cnt c (flat_map f l).
Definition probes_with (f : ProbeAt → list nat) (c : nat) (l : list ProbeAt) : nat := cnt c (flat_map f l).
#[global] Arguments requests_with : simpl never.
#[global] Arguments probes_with : simpl never.

(** A notification moves nothing. *)
Class Quiet (f : RequestAt → list nat) := quiet x : f (wake x) = f x.
#[export] Instance quiet_holds : Quiet request_holds. Proof. by intros []. Qed.
#[export] Instance quiet_drops : Quiet request_drops. Proof. by intros []. Qed.
#[export] Instance quiet_returns : Quiet request_returns. Proof. by intros []. Qed.
#[export] Instance quiet_builds : Quiet request_builds. Proof. by intros []. Qed.
Lemma requests_wake f `{Quiet f} c l : requests_with f c (map wake l) = requests_with f c l.
Proof. unfold requests_with. induction l as [|x l IH]; cbn; [done|]. by rewrite !cnt_app, IH, (quiet (f := f)). Qed.
Lemma requests_insert_wake f `{Quiet f} c (l : list RequestAt) t y :
  requests_with f c (<[t := y]> (map wake l)) = requests_with f c (<[t := y]> l).
Proof.
  unfold requests_with. revert t. induction l as [|x l IH]; intros [|t]; try done.
  - cbn. rewrite !cnt_app. f_equal. apply (requests_wake f).
  - cbn [map]. change (<[S t:=y]> (?x :: ?l)) with (x :: <[t := y]> l). cbn. rewrite !cnt_app.
    f_equal; [by rewrite (quiet (f := f))|apply IH].
Qed.
Lemma requests_insert f c (l : list RequestAt) t x y : l !! t = Some x →
  (requests_with f c (<[t := y]> l) + cnt c (f x) = requests_with f c l + cnt c (f y))%nat.
Proof. apply cnt_flat_insert. Qed.
Lemma requests_at f c (l : list RequestAt) t x : l !! t = Some x → (cnt c (f x) ≤ requests_with f c l)%nat.
Proof. apply cnt_flat_at. Qed.
Lemma requests_snoc f c l x : requests_with f c (l ++ [x]) = (requests_with f c l + cnt c (f x))%nat.
Proof. apply cnt_flat_snoc. Qed.
Lemma probes_insert f c (l : list ProbeAt) p x y : l !! p = Some x →
  (probes_with f c (<[p := y]> l) + cnt c (f x) = probes_with f c l + cnt c (f y))%nat.
Proof. apply cnt_flat_insert. Qed.
Lemma probes_at f c (l : list ProbeAt) p x : l !! p = Some x → (cnt c (f x) ≤ probes_with f c l)%nat.
Proof. apply cnt_flat_at. Qed.
Lemma probes_snoc f c l x : probes_with f c (l ++ [x]) = (probes_with f c l + cnt c (f x))%nat.
Proof. apply cnt_flat_snoc. Qed.

(** ** The invariant *)
Section invariant.
Context (size : nat) (lease_timeout : Z).
Context (Hsize : (0 < size)%nat).
Abbreviation pool_step := (pool_step size lease_timeout).
Abbreviation request_step := (request_step size lease_timeout).
Implicit Types (s : PoolSystem) (c : nat).

Definition built c (n : nat) : nat := if (c <? n)%nat then 1 else 0.
(** How often a context is available, or held by a thread. *)
Definition holders c s : nat :=
  (cnt c (available s) + requests_with request_holds c (ps_requests s) + probes_with probe_holds c (ps_probes s))%nat.
Abbreviation returning c s := (requests_with request_returns c (ps_requests s)).
Abbreviation dropping c s := (requests_with request_drops c (ps_requests s)).
Abbreviation borrowed c s := (probes_with probe_borrows c (ps_probes s)).
Abbreviation disposing c s := (probes_with probe_drops c (ps_probes s)).
Abbreviation closing c s := (cnt c (List.concat (ps_closers s))).
Abbreviation deferred c s := (cnt c (sp_deferred (ps_pool s))).
Abbreviation abandoned c s := (cnt c (ps_abandoned s)).

Record safe s : Prop := {
  (** A context is in one place. *)
  sf_once c : (holders c s ≤ built c (length (ps_heap s)))%nat;
  sf_contexts c : (cnt c (contexts s) + closing c s + abandoned c s ≤ built c (length (ps_heap s)))%nat;
  sf_available c : (cnt c (available s) ≤ cnt c (contexts s))%nat;
  sf_held c : sp_closed (ps_pool s) = false → (cnt c (contexts s) ≤ holders c s)%nat;
  (** What is to be disposed of, by one thread, has left the pool. *)
  sf_drops c : (cnt c (contexts s) + dropping c s + disposing c s + deferred c s + closing c s + abandoned c s ≤ 1)%nat;
  (** The pool is within its size. *)
  sf_size : (length (contexts s) + Nat.b2n (sp_build_in_flight (ps_pool s)) ≤ size)%nat;
  sf_builds : requests_with request_builds 0 (ps_requests s) = Nat.b2n (sp_build_in_flight (ps_pool s));
  sf_accepting : sp_closed (ps_pool s) = false → ad_accepting (sp_admission (ps_pool s)) = false →
    (length (contexts s) < size)%nat;
  (** The probes are recorded. *)
  sf_calls c : cnt c (map snd (sp_probe_calls (ps_pool s))) = borrowed c s;
  sf_deferred c : (deferred c s ≤ borrowed c s)%nat;
  sf_closing c : (0 < closing c s + abandoned c s)%nat → probes_with probe_holds c (ps_probes s) = 0%nat;
  (** An open pool closes nothing, a closed one has nothing. *)
  sf_closed : ad_closed (sp_admission (ps_pool s)) = sp_closed (ps_pool s) ∧
    if sp_closed (ps_pool s) then contexts s = [] ∧ available s = []
    else ps_closers s = [] ∧ sp_deferred (ps_pool s) = [] ∧ ∀ c, disposing c s = 0%nat;
  (** What the pool has is sound; what is available, or comes back, is in no
      transaction; a probe's connection is open; and what is open is the pool's, or will be
      closed, or an error cut that short. *)
  sf_sound c x : context_of c s = Some x → (0 < cnt c (contexts s))%nat →
    cx_healthy x = true ∧ cx_closed x = false ∧ cx_open x = true;
  sf_clean c x : context_of c s = Some x → (0 < cnt c (available s) + returning c s + borrowed c s)%nat →
    cx_in_transaction x = false;
  sf_open c x : context_of c s = Some x → (0 < borrowed c s)%nat → cx_open x = true;
  sf_accounted c x : context_of c s = Some x → cx_open x = true →
    (0 < cnt c (contexts s) + dropping c s + disposing c s + deferred c s + closing c s + abandoned c s)%nat;
  sf_leaving c x : context_of c s = Some x → (0 < dropping c s + disposing c s + deferred c s + closing c s + abandoned c s)%nat →
    cx_open x = true
}.

(** A thread's part of what is counted. *)
Lemma moves c (l : list RequestAt) t x y : l !! t = Some x →
  (requests_with request_holds c (<[t := y]> l) + cnt c (request_holds x) =
     requests_with request_holds c l + cnt c (request_holds y))%nat ∧
  (requests_with request_drops c (<[t := y]> l) + cnt c (request_drops x) =
     requests_with request_drops c l + cnt c (request_drops y))%nat ∧
  (requests_with request_returns c (<[t := y]> l) + cnt c (request_returns x) =
     requests_with request_returns c l + cnt c (request_returns y))%nat ∧
  (cnt c (request_holds x) ≤ requests_with request_holds c l)%nat ∧
  (cnt c (request_drops x) ≤ requests_with request_drops c l)%nat ∧
  (cnt c (request_returns x) ≤ requests_with request_returns c l)%nat.
Proof. intros Ht. split_and!; by first [apply requests_insert|apply (requests_at _ c l t)]. Qed.
Lemma builds_move (l : list RequestAt) t x y : l !! t = Some x →
  (requests_with request_builds 0 (<[t := y]> l) + cnt 0 (request_builds x) =
     requests_with request_builds 0 l + cnt 0 (request_builds y))%nat.
Proof. apply requests_insert. Qed.
Lemma probe_moves c (l : list ProbeAt) p x y : l !! p = Some x →
  (probes_with probe_holds c (<[p := y]> l) + cnt c (probe_holds x) =
     probes_with probe_holds c l + cnt c (probe_holds y))%nat ∧
  (probes_with probe_borrows c (<[p := y]> l) + cnt c (probe_borrows x) =
     probes_with probe_borrows c l + cnt c (probe_borrows y))%nat ∧
  (probes_with probe_drops c (<[p := y]> l) + cnt c (probe_drops x) =
     probes_with probe_drops c l + cnt c (probe_drops y))%nat ∧
  (cnt c (probe_holds x) ≤ probes_with probe_holds c l)%nat ∧
  (cnt c (probe_borrows x) ≤ probes_with probe_borrows c l)%nat ∧
  (cnt c (probe_drops x) ≤ probes_with probe_drops c l)%nat.
Proof. intros Hp. split_and!; by first [apply probes_insert|apply (probes_at _ c l p)]. Qed.
(** A probe holds what it borrows and what it disposes of. *)
Lemma probe_parts c l :
  probes_with probe_holds c l = (probes_with probe_borrows c l + probes_with probe_drops c l)%nat.
Proof. unfold probes_with. induction l as [|x l IH]; cbn; [done|]. rewrite !cnt_app, IH. destruct x; cbn; lia. Qed.
(** What a request drops or returns, it holds. *)
Lemma request_parts c l :
  (requests_with request_drops c l + requests_with request_returns c l ≤ requests_with request_holds c l)%nat.
Proof. unfold requests_with. induction l as [|x l IH]; cbn; [done|]. rewrite !cnt_app. destruct x; cbn; lia. Qed.

(** The counts of an invariant at a context. *)
Ltac counts Hs c :=
  pose proof (sf_once _ Hs c); pose proof (sf_contexts _ Hs c); pose proof (sf_available _ Hs c);
  pose proof (sf_held _ Hs c); pose proof (sf_drops _ Hs c); pose proof (sf_calls _ Hs c);
  pose proof (sf_deferred _ Hs c); pose proof (sf_closing _ Hs c);
  unfold holders in *.
(** A request that moves on in the same pool. *)
Lemma request_moves_safe s t x y : safe s → ps_requests s !! t = Some x →
  (∀ c, request_drops y = request_drops x ∧ request_builds y = request_builds x ∧
     (cnt c (request_holds y) ≤ cnt c (request_holds x))%nat ∧
     (sp_closed (ps_pool s) = false → (0 < cnt c (contexts s))%nat → cnt c (request_holds y) = cnt c (request_holds x)) ∧
     ∀ z, context_of c s = Some z → (0 < cnt c (request_returns y))%nat → cx_in_transaction z = false) →
  safe (at_request t y s).
Proof.
  intros Hs Ht Hm. split; unfold holders; cbn.
  all: try (apply Hs).
  - intros c. counts Hs c. destruct (moves c _ t x y Ht) as (? & ? & ? & ? & ? & ?). destruct (Hm c) as (? & ? & ? & ? & ?). lia.
  - intros c Hopen. pose proof (sf_held _ Hs c Hopen). unfold holders in *.
    destruct (moves c _ t x y Ht) as (? & ? & ? & ? & ? & ?). destruct (Hm c) as (_ & _ & _ & Heq & _). specialize (Heq Hopen). lia.
  - intros c. counts Hs c. destruct (moves c _ t x y Ht) as (? & ? & ? & ? & ? & ?). destruct (Hm c) as (Hd & ? & ? & ? & ?). rewrite Hd in *. lia.
  - pose proof (builds_move _ t x y Ht). destruct (Hm 0%nat) as (_ & Hb & _). rewrite Hb in *. rewrite <- (sf_builds _ Hs). lia.
  - intros c z Hz Hc. destruct (moves c _ t x y Ht) as (? & ? & ? & ? & ? & ?). destruct (Hm c) as (? & ? & ? & ? & Hclean).
    destruct (decide (0 < cnt c (request_returns y))%nat) as [Hy|Hy]; [by apply Hclean|].
    apply (sf_clean _ Hs c z Hz). lia.
  - intros c z Hz Ho. destruct (moves c _ t x y Ht) as (? & ? & ? & ? & ? & ?). destruct (Hm c) as (Hd & _). rewrite Hd in *.
    pose proof (sf_accounted _ Hs c z Hz Ho). lia.
  - intros c z Hz Hc. destruct (moves c _ t x y Ht) as (? & ? & ? & ? & ? & ?). destruct (Hm c) as (Hd & _). rewrite Hd in *.
    apply (sf_leaving _ Hs c z Hz). lia.
Qed.
Lemma at_notify t y s : wake y = y → at_request t y (notify_all s) = notify_all (at_request t y s).
Proof.
  intros Hy. unfold at_request, notify_all, with_requests. cbn. f_equal. generalize (ps_requests s). intros l.
  revert t. induction l as [|x l IH]; intros [|t]; cbn; try done; [by rewrite Hy|by rewrite IH].
Qed.
Lemma notify_safe s : safe s → safe (notify_all s).
Proof.
  intros Hs. split; unfold holders; cbn; try apply Hs; try intros c; rewrite ?(requests_wake request_holds),
    ?(requests_wake request_drops), ?(requests_wake request_returns), ?(requests_wake request_builds); apply Hs.
Qed.
(** The waiters may change, with nothing else. *)
Lemma waiters_safe f s : safe s →
  (∀ a, ad_available (f a) = ad_available a ∧ ad_closed (f a) = ad_closed a ∧ ad_accepting (f a) = ad_accepting a) →
  safe (on_admission f s).
Proof.
  intros Hs Hf. destruct (Hf (sp_admission (ps_pool s))) as (Ha & Hc & Hac).
  split; unfold holders; cbn; rewrite ?Ha, ?Hc, ?Hac; apply Hs.
Qed.
(** A lease moves from the available ones to a request. *)
Lemma lease_safe f s t x c rest : safe s → ps_requests s !! t = Some x → available s = c :: rest →
  request_holds x = [] → request_drops x = [] → request_returns x = [] → request_builds x = [] →
  (∀ a, ad_available (f a) = tail (ad_available a) ∧ ad_closed (f a) = ad_closed a ∧ ad_accepting (f a) = ad_accepting a) →
  safe (at_request t (Serving c) (on_admission f s)).
Proof.
  intros Hs Ht Hav H1 H2 H3 H4 Hf. destruct (Hf (sp_admission (ps_pool s))) as (Ha & Hc & Hac). rewrite Hav in Ha.
  pose proof (sf_closed _ Hs) as [Hclosed Hrest].
  split; unfold holders; cbn; rewrite ?Ha, ?Hc, ?Hac; cbn.
  all: try (apply Hs).
  - intros d. counts Hs d. destruct (moves d _ t x (Serving c) Ht) as (? & ? & ? & ? & ? & ?). rewrite H1, Hav in *. cbn in *. lia.
  - intros d. counts Hs d. rewrite Hav in *. cbn in *. lia.
  - intros d Hopen. pose proof (sf_held _ Hs d Hopen). unfold holders in *.
    destruct (moves d _ t x (Serving c) Ht) as (? & ? & ? & ? & ? & ?). rewrite H1, Hav in *. cbn in *. lia.
  - intros d. counts Hs d. destruct (moves d _ t x (Serving c) Ht) as (? & ? & ? & ? & ? & ?). rewrite H2 in *. cbn in *. lia.
  - pose proof (builds_move _ t x (Serving c) Ht). rewrite H4 in *. cbn in *. rewrite <- (sf_builds _ Hs). lia.
  - split; [done|]. destruct (sp_closed (ps_pool s)); [|done]. destruct Hrest as [_ He]. by rewrite He in Hav.
  - intros d z Hz Hd. apply (sf_clean _ Hs d z Hz). destruct (moves d _ t x (Serving c) Ht) as (? & ? & ? & ? & ? & ?).
    rewrite H3, Hav in *. cbn in *. lia.
  - intros d z Hz Ho. destruct (moves d _ t x (Serving c) Ht) as (? & ? & ? & ? & ? & ?). rewrite H2 in *. cbn in *.
    pose proof (sf_accounted _ Hs d z Hz Ho). lia.
  - intros d z Hz Hd. destruct (moves d _ t x (Serving c) Ht) as (? & ? & ? & ? & ? & ?). rewrite H2 in *. cbn in *.
    apply (sf_leaving _ Hs d z Hz). lia.
Qed.
Lemma acquire_turn_safe t x epoch deadline s : safe s → ps_requests s !! t = Some x →
  request_holds x = [] → request_drops x = [] → request_returns x = [] → request_builds x = [] →
  safe (acquire_turn t epoch deadline s).
Proof.
  intros Hs Ht H1 H2 H3 H4. unfold acquire_turn, turn.
  set (a := sp_admission (ps_pool s)).
  assert (Hmove : ∀ y s', safe s' → ps_requests s' !! t = Some x → request_holds y = [] → request_drops y = [] →
    request_returns y = [] → request_builds y = [] → safe (at_request t y s')).
  { intros y s' Hs' Ht' E1 E2 E3 E4. apply (request_moves_safe s' t x y Hs' Ht'). intros c.
    rewrite H1, H2, H4, E1, E2, E3, E4. split_and!; try done. cbn. lia. }
  assert (Hleave : safe (at_request t Finished (notify_all (on_admission (leave t) s)))).
  { rewrite at_notify by done. apply notify_safe, Hmove; try done. by apply waiters_safe. }
  assert (Hwait : safe (at_request t (Queued epoch deadline false) s)) by by apply Hmove.
  destruct (_ || _); [done|]. destruct (ad_waiters a) as [|w ws]; [by destruct (_ <=? _)|].
  destruct (ad_available a) as [|c rest] eqn:Hav; [by destruct (_ <=? _)|].
  destruct (w =? t)%nat; [|by destruct (_ <=? _)].
  rewrite at_notify by done. apply notify_safe. by apply (lease_safe take_lease s t x c rest).
Qed.

(** What a change of one context does to the others. *)
Lemma on_context_inv c f d s z : context_of d (on_context c f s) = Some z →
  (d ≠ c ∧ context_of d s = Some z) ∨ (d = c ∧ ∃ y, context_of c s = Some y ∧ z = f y).
Proof.
  unfold context_of. cbn. destruct (decide (d = c)) as [->|Hne].
  - rewrite list_lookup_alter_eq. destruct (ps_heap s !! c) as [y|]; [|done]. intros [= <-]. right. eauto.
  - rewrite list_lookup_alter_ne by done. by left.
Qed.
Lemma still_open s c f d z : safe s → (∀ x, cx_open (f x) = cx_open x) → context_of d (on_context c f s) = Some z →
  (0 < cnt d (contexts s) + dropping d s + disposing d s + deferred d s + closing d s + abandoned d s)%nat → cx_open z = true.
Proof.
  intros Hs Hf Hz Hd.
  assert (Ho : ∀ x, context_of d s = Some x → cx_open x = true).
  { intros x Hx. destruct (decide (0 < cnt d (contexts s))%nat) as [Hin|]; [by apply (sf_sound _ Hs d x)|].
    apply (sf_leaving _ Hs d x Hx). lia. }
  apply on_context_inv in Hz as [[_ Hz]|[-> (y & Hy & ->)]]; [by apply Ho|]. rewrite Hf. by apply Ho.
Qed.
(** A request that holds a context is alone in having it. *)
Lemma sole_holder s t x c : safe s → ps_requests s !! t = Some x → (0 < cnt c (request_holds x))%nat →
  holders c s = 1%nat ∧ built c (length (ps_heap s)) = 1%nat ∧ cnt c (available s) = 0%nat ∧
  probes_with probe_holds c (ps_probes s) = 0%nat ∧ borrowed c s = 0%nat ∧ disposing c s = 0%nat ∧
  dropping c s = cnt c (request_drops x) ∧ returning c s = cnt c (request_returns x).
Proof.
  intros Hs Ht Hx. pose proof (sf_once _ Hs c) as Honce. unfold holders in *.
  destruct (moves c _ t x Finished Ht) as (E1 & E2 & E3 & _). cbn in E1, E2, E3.
  pose proof (request_parts c (<[t := Finished]> (ps_requests s))). pose proof (probe_parts c (ps_probes s)).
  assert (built c (length (ps_heap s)) ≤ 1)%nat by (unfold built; destruct (_ <? _)%nat; lia). lia.
Qed.
Lemma sole s t x c : safe s → ps_requests s !! t = Some x → request_holds x = [c] →
  holders c s = 1%nat ∧ built c (length (ps_heap s)) = 1%nat ∧ cnt c (available s) = 0%nat ∧
  probes_with probe_holds c (ps_probes s) = 0%nat ∧ borrowed c s = 0%nat ∧ disposing c s = 0%nat ∧
  dropping c s = cnt c (request_drops x) ∧ returning c s = cnt c (request_returns x).
Proof. intros Hs Ht Hx. apply (sole_holder s t); [done..|]. rewrite Hx. cbn. rewrite one_refl. lia. Qed.
Lemma length_without_in c l : (0 < cnt c l)%nat → (length (without c l) < length l)%nat.
Proof. apply length_without. Qed.
(** The holder of a context takes it out of the pool. *)
Lemma expel_safe s t x y c : safe s → ps_requests s !! t = Some x → request_holds x = [c] → request_holds y = [c] →
  request_drops x = [] → request_drops y = [c] → request_returns x = [] → request_returns y = [] →
  request_builds x = [] → request_builds y = [] → wake y = y → usable c s = true → safe (at_request t y (expel c s)).
Proof.
  intros Hs Ht Hx Hy Dx Dy Rx Ry Bx By Hw Hu. unfold usable in Hu. destruct (context_of c s) as [cx|] eqn:Hcx; [|done].
  apply andb_true_iff in Hu as [_ Hin%member_cnt].
  unfold expel, invalidate_waiters. rewrite at_notify by done. apply notify_safe.
  pose proof (sf_closed _ Hs) as [Hadm Hclosed].
  destruct (sp_closed (ps_pool s)) eqn:Hopen; [destruct Hclosed as [Hn _]; rewrite Hn in Hin; cbn in Hin; lia|].
  destruct Hclosed as (Hcl & Hde & Hdi). destruct (sole s t x c Hs Ht Hx) as (Hh & Hbu & Hav & Hph & Hbo & Hdis & Hdr & Hre).
  rewrite Dx, Rx in *. pose proof (length_without_in c _ Hin) as Hlen. pose proof (sf_size _ Hs) as Hfit.
  split; unfold holders; cbn; rewrite ?length_alter; try apply Hs.
  - intros d. counts Hs d. destruct (moves d _ t x y Ht) as (? & ? & ? & ? & ? & ?). rewrite Hx, Hy, cnt_without in *.
    destruct (d =? c)%nat; lia.
  - intros d. counts Hs d. rewrite cnt_without. destruct (d =? c)%nat; lia.
  - intros d. counts Hs d. rewrite !cnt_without. destruct (d =? c)%nat; lia.
  - intros d _. pose proof (sf_held _ Hs d Hopen). unfold holders in *. destruct (moves d _ t x y Ht) as (? & ? & ? & ? & ? & ?).
    rewrite Hx, Hy, !cnt_without in *. destruct (d =? c)%nat; lia.
  - intros d. counts Hs d. destruct (moves d _ t x y Ht) as (? & ? & ? & ? & ? & ?). rewrite Dx, Dy, cnt_without in *. cbn in *.
    destruct (Nat.eqb_spec d c) as [->|]; [rewrite one_refl in *|rewrite one_ne in * by done]; lia.
  - lia.
  - pose proof (builds_move _ t x y Ht). rewrite Bx, By in *. cbn in *. rewrite <- (sf_builds _ Hs). lia.
  - lia.
  - rewrite Hopen. by split.
  - intros d z [[Hne Hz]|[-> _]]%on_context_inv Hd; rewrite cnt_without in Hd.
    + apply Nat.eqb_neq in Hne. rewrite Hne in Hd. by apply (sf_sound _ Hs d z).
    + rewrite Nat.eqb_refl in Hd. lia.
  - intros d z Hz Hd. destruct (moves d _ t x y Ht) as (? & ? & ? & ? & ? & ?). rewrite Rx, Ry, cnt_without in *. cbn in *.
    apply on_context_inv in Hz as [[Hne Hz]|[-> _]]; [|rewrite Nat.eqb_refl in Hd; lia].
    apply Nat.eqb_neq in Hne. rewrite Hne in Hd. apply (sf_clean _ Hs d z Hz). lia.
  - intros d z [[Hne Hz]|[-> _]]%on_context_inv Hd; [by apply (sf_open _ Hs d z)|lia].
  - intros d z Hz Ho. destruct (moves d _ t x y Ht) as (? & ? & ? & ? & ? & ?). rewrite Dx, Dy, cnt_without in *. cbn in *.
    apply on_context_inv in Hz as [[Hne Hz]|[-> _]]; [|rewrite one_refl in *; lia].
    pose proof (sf_accounted _ Hs d z Hz Ho). rewrite one_ne in * by done. apply Nat.eqb_neq in Hne. rewrite Hne. lia.
  - intros d z Hz Hd. apply (still_open s c condemn d z); [done..|]. destruct (moves d _ t x y Ht) as (? & ? & ? & ? & ? & ?).
    rewrite Dx, Dy in *. cbn in *. destruct (decide (d = c)) as [->|]; [|rewrite one_ne in * by done]; lia.
Qed.
(** A lease comes back. *)
Lemma release_safe s t c : safe s → ps_requests s !! t = Some (Releasing c) → sp_closed (ps_pool s) = false →
  usable c s = true → safe (at_request t Finished (release c s)).
Proof.
  intros Hs Ht Hopen Hu. unfold usable in Hu. destruct (context_of c s) as [cx|] eqn:Hcx; [|done].
  apply andb_true_iff in Hu as [_ Hin%member_cnt]. unfold release. rewrite at_notify by done. apply notify_safe.
  destruct (sole s t _ c Hs Ht eq_refl) as (Hh & Hbu & Hav & Hph & Hbo & Hdis & Hdr & Hre).
  pose proof (sf_closed _ Hs) as [Hadm Hclosed]. rewrite Hopen in *. cbn in Hdr, Hre. rewrite one_refl in Hre.
  pose proof (sf_contexts _ Hs c) as Hc1.
  split; unfold holders; cbn; unfold add_lease; rewrite ?Hadm; cbn; try apply Hs.
  - intros d. counts Hs d. destruct (moves d _ t _ Finished Ht) as (? & ? & ? & ? & ? & ?). rewrite cnt_app in *. cbn in *. lia.
  - intros d. counts Hs d. rewrite cnt_app. cbn. destruct (decide (d = c)) as [->|]; [rewrite one_refl|rewrite one_ne by done]; lia.
  - intros d _. pose proof (sf_held _ Hs d Hopen). unfold holders in *. destruct (moves d _ t _ Finished Ht) as (? & ? & ? & ? & ? & ?).
    rewrite cnt_app in *. cbn in *. lia.
  - intros d. counts Hs d. destruct (moves d _ t _ Finished Ht) as (? & ? & ? & ? & ? & ?). cbn in *. lia.
  - pose proof (builds_move _ t _ Finished Ht). cbn in *. rewrite <- (sf_builds _ Hs). lia.
  - rewrite Hopen. by split.
  - intros d z Hz Hd. destruct (moves d _ t _ Finished Ht) as (? & ? & ? & ? & ? & ?). rewrite cnt_app in *. cbn in *.
    apply (sf_clean _ Hs d z Hz). lia.
  - intros d z Hz Ho. destruct (moves d _ t _ Finished Ht) as (? & ? & ? & ? & ? & ?). cbn in *.
    pose proof (sf_accounted _ Hs d z Hz Ho). lia.
  - intros d z Hz Hd. destruct (moves d _ t _ Finished Ht) as (? & ? & ? & ? & ? & ?). cbn in *.
    apply (sf_leaving _ Hs d z Hz). lia.
Qed.

(** *** Building *)
Lemma resume_holds after : request_holds (resume after) = after_holds after ∧ request_drops (resume after) = [] ∧
  request_returns (resume after) = [] ∧ request_builds (resume after) = [] ∧ wake (resume after) = resume after.
Proof. by destruct after. Qed.
Lemma resume_raising_holds after : request_holds (resume_raising after) = after_holds after ∧
  request_drops (resume_raising after) = [] ∧ request_returns (resume_raising after) = [] ∧
  request_builds (resume_raising after) = [] ∧ wake (resume_raising after) = resume_raising after.
Proof. by destruct after. Qed.
Lemma replenish_safe s t after : safe s → ps_requests s !! t = Some (Replenishing after) →
  safe (replenish_begin size t after s).
Proof.
  intros Hs Ht. unfold replenish_begin. destruct (resume_holds after) as (Rh & Rd & Rr & Rb & _).
  destruct (_ || _) eqn:Hfull.
  { apply (request_moves_safe s t _ _ Hs Ht). intros c. rewrite Rh, Rd, Rr, Rb. split_and!; try done. cbn. lia. }
  apply orb_false_iff in Hfull as [[Hopen Hidle]%orb_false_iff Hroom%Nat.leb_gt].
  split; unfold holders; cbn; try apply Hs.
  - intros c. counts Hs c. destruct (moves c _ t _ (Building (sp_next_generation (ps_pool s)) after) Ht) as (? & ? & ? & ? & ? & ?).
    cbn in *. lia.
  - intros c _. pose proof (sf_held _ Hs c Hopen). unfold holders in *.
    destruct (moves c _ t _ (Building (sp_next_generation (ps_pool s)) after) Ht) as (? & ? & ? & ? & ? & ?). cbn in *. lia.
  - intros c. counts Hs c. destruct (moves c _ t _ (Building (sp_next_generation (ps_pool s)) after) Ht) as (? & ? & ? & ? & ? & ?).
    cbn in *. lia.
  - lia.
  - pose proof (builds_move _ t _ (Building (sp_next_generation (ps_pool s)) after) Ht). cbn in *.
    pose proof (sf_builds _ Hs) as Hb. rewrite Hidle in Hb. cbn in Hb. lia.
  - intros c z Hz Hc. destruct (moves c _ t _ (Building (sp_next_generation (ps_pool s)) after) Ht) as (? & ? & ? & ? & ? & ?).
    apply (sf_clean _ Hs c z Hz). cbn in *. lia.
  - intros c z Hz Ho. destruct (moves c _ t _ (Building (sp_next_generation (ps_pool s)) after) Ht) as (? & ? & ? & ? & ? & ?).
    pose proof (sf_accounted _ Hs c z Hz Ho). cbn in *. lia.
  - intros c z Hz Hc. destruct (moves c _ t _ (Building (sp_next_generation (ps_pool s)) after) Ht) as (? & ? & ? & ? & ? & ?).
    apply (sf_leaving _ Hs c z Hz). cbn in *. lia.
Qed.
(** A builder is alone, and the pool has room for what it builds. *)
Lemma builder s t generation after : safe s → ps_requests s !! t = Some (Building generation after) →
  sp_build_in_flight (ps_pool s) = true ∧ (length (contexts s) < size)%nat ∧
  requests_with request_builds 0 (ps_requests s) = 1%nat.
Proof.
  intros Hs Ht. pose proof (requests_at request_builds 0 _ t _ Ht) as Hb. cbn in Hb.
  pose proof (sf_builds _ Hs) as E. pose proof (sf_size _ Hs) as F. destruct (sp_build_in_flight (ps_pool s)); cbn in *; [|lia].
  split_and!; [done|lia|lia].
Qed.
Lemma build_fails_safe s t generation after : safe s → ps_requests s !! t = Some (Building generation after) →
  safe (build_fails t after s).
Proof.
  intros Hs Ht. unfold build_fails. destruct (builder s t _ _ Hs Ht) as (Hb & Hroom & Hone).
  destruct (resume_raising_holds after) as (Rh & Rd & Rr & Rb & Rw). set (y := resume_raising after) in *. clearbody y. unfold invalidate_waiters. rewrite at_notify by done. apply notify_safe.
  split; unfold holders; cbn; try apply Hs.
  - intros c. counts Hs c. destruct (moves c _ t _ y Ht) as (? & ? & ? & ? & ? & ?). rewrite Rh in *. cbn in *. lia.
  - intros c Hopen. pose proof (sf_held _ Hs c Hopen). unfold holders in *.
    destruct (moves c _ t _ y Ht) as (? & ? & ? & ? & ? & ?). rewrite Rh in *. cbn in *. lia.
  - intros c. counts Hs c. destruct (moves c _ t _ y Ht) as (? & ? & ? & ? & ? & ?). rewrite Rd in *. cbn in *. lia.
  - lia.
  - pose proof (builds_move _ t _ y Ht). rewrite Rb in *. cbn in *. lia.
  - done.
  - intros c z Hz Hc. destruct (moves c _ t _ y Ht) as (? & ? & ? & ? & ? & ?). apply (sf_clean _ Hs c z Hz). rewrite Rr in *. cbn in *. lia.
  - intros c z Hz Ho. destruct (moves c _ t _ y Ht) as (? & ? & ? & ? & ? & ?). pose proof (sf_accounted _ Hs c z Hz Ho).
    rewrite Rd in *. cbn in *. lia.
  - intros c z Hz Hc. destruct (moves c _ t _ y Ht) as (? & ? & ? & ? & ? & ?). apply (sf_leaving _ Hs c z Hz). rewrite Rd in *. cbn in *. lia.
Qed.
Lemma built_grows d n : built d (S n) = (built d n + one d n)%nat.
Proof. unfold built, one. destruct (Nat.ltb_spec d (S n)), (Nat.ltb_spec d n), (Nat.eqb_spec d n); lia. Qed.
Lemma context_new s x d z : (ps_heap s ++ [x]) !! d = Some z →
  context_of d s = Some z ∨ (d = length (ps_heap s) ∧ z = x).
Proof.
  intros [Hz|[Hd Hz]]%lookup_app_Some; [by left|]. right.
  destruct (d - length (ps_heap s))%nat as [|n] eqn:E; cbn in Hz; [|done]. injection Hz as <-. split; [lia|done].
Qed.
(** The context that was built is new. *)
Lemma fresh_context s : safe s → let c := length (ps_heap s) in
  holders c s = 0%nat ∧ cnt c (contexts s) = 0%nat ∧ cnt c (available s) = 0%nat ∧ returning c s = 0%nat ∧
  dropping c s = 0%nat ∧ borrowed c s = 0%nat ∧ disposing c s = 0%nat ∧ (deferred c s + closing c s + abandoned c s = 0)%nat.
Proof.
  intros Hs c. counts Hs c. pose proof (request_parts c (ps_requests s)). pose proof (probe_parts c (ps_probes s)).
  assert (built c (length (ps_heap s)) = 0)%nat by (unfold built, c; destruct (Nat.ltb_spec (length (ps_heap s)) (length (ps_heap s))); lia).
  split_and!; lia.
Qed.
Lemma build_succeeds_safe s t generation after : safe s → ps_requests s !! t = Some (Building generation after) →
  safe (build_succeeds size t generation after s).
Proof.
  intros Hs Ht. unfold build_succeeds. destruct (builder s t _ _ Hs Ht) as (Hb & Hroom & Hone).
  destruct (resume_holds after) as (Rh & Rd & Rr & Rb & Rw). pose proof (fresh_context s Hs) as Hnew. cbv zeta in Hnew.
  remember (length (ps_heap s)) as c eqn:Hc. destruct Hnew as (Fh & Fc & Fa & Fr & Fd & Fb & Fdi & Fl). unfold holders in Fh.
  pose proof (sf_closed _ Hs) as [Hadm Hclosed]. cbn [ps_pool with_heap on_pool with_pool set_building sp_closed sp_contexts].
  rewrite (proj2 (Nat.ltb_lt _ _) Hroom), andb_true_r.
  destruct (sp_closed (ps_pool s)) eqn:Hopen; cbn [negb].
  - split; unfold holders; cbn; rewrite ?length_alter, ?length_app; cbn; rewrite ?Nat.add_1_r; try apply Hs.
    + intros d. counts Hs d. destruct (moves d _ t _ (Discarding c after) Ht) as (? & ? & ? & ? & ? & ?). cbn in *. rewrite built_grows.
      rewrite <- ?Hc in *. lia.
    + intros d. counts Hs d. rewrite built_grows. rewrite <- ?Hc in *. lia.
    + intros d. by rewrite Hopen.
    + intros d. counts Hs d. destruct (moves d _ t _ (Discarding c after) Ht) as (? & ? & ? & ? & ? & ?). cbn in *.
      destruct (decide (d = c)) as [->|]; [rewrite one_refl in *|rewrite one_ne in * by done]; lia.
    + lia.
    + pose proof (builds_move _ t _ (Discarding c after) Ht). cbn in *. lia.
    + intros d z [[Hne [Hz|[-> _]]%(context_new s (new_context generation))]|[-> _]]%on_context_inv Hd; [by apply (sf_sound _ Hs d z)|done|lia].
    + intros d z Hz Hd. destruct (moves d _ t _ (Discarding c after) Ht) as (? & ? & ? & ? & ? & ?). cbn in *.
      apply on_context_inv in Hz as [[Hne [Hz|[-> _]]%(context_new s (new_context generation))]|[-> _]]; [|done|lia]. apply (sf_clean _ Hs d z Hz). lia.
    + intros d z [[Hne [Hz|[-> _]]%(context_new s (new_context generation))]|[-> _]]%on_context_inv Hd; [by apply (sf_open _ Hs d z)|done|lia].
    + intros d z Hz Ho. destruct (moves d _ t _ (Discarding c after) Ht) as (? & ? & ? & ? & ? & ?). cbn in *.
      apply on_context_inv in Hz as [[Hne [Hz|[-> _]]%(context_new s (new_context generation))]|[-> _]]; [|done|rewrite one_refl in *; lia].
      pose proof (sf_accounted _ Hs d z Hz Ho). lia.
    + intros d z Hz Hd. destruct (moves d _ t _ (Discarding c after) Ht) as (? & ? & ? & ? & ? & ?). cbn in *.
      apply on_context_inv in Hz as [[Hne [Hz|[-> ->]]%(context_new s (new_context generation))]|[-> (u & Hu & ->)]]; [|done|].
      * rewrite one_ne in * by done. apply (sf_leaving _ Hs d z Hz). lia.
      * apply (context_new s (new_context generation)) in Hu as [Hu|[_ ->]]; [|done]. unfold context_of in Hu.
        by rewrite lookup_ge_None_2 in Hu by lia.
  - set (y := resume after) in *. unfold publish. rewrite at_notify by done. apply notify_safe.
    destruct Hclosed as (Hcl & Hde & Hdis).
    split; unfold holders; cbn; unfold add_lease; rewrite ?Hadm; cbn; rewrite ?length_app; cbn; rewrite ?Nat.add_1_r; try apply Hs.
    + intros d. counts Hs d. destruct (moves d _ t _ y Ht) as (? & ? & ? & ? & ? & ?). rewrite Rh in *. cbn in *.
      rewrite built_grows, cnt_app. cbn. rewrite <- ?Hc in *. lia.
    + intros d. counts Hs d. rewrite built_grows, cnt_app. cbn. rewrite <- ?Hc in *. lia.
    + intros d. counts Hs d. rewrite !cnt_app. lia.
    + intros d _. pose proof (sf_held _ Hs d Hopen). unfold holders in *. destruct (moves d _ t _ y Ht) as (? & ? & ? & ? & ? & ?).
      rewrite Rh in *. rewrite !cnt_app. cbn in *. lia.
    + intros d. counts Hs d. destruct (moves d _ t _ y Ht) as (? & ? & ? & ? & ? & ?). rewrite Rd in *. rewrite cnt_app. cbn in *.
      destruct (decide (d = c)) as [->|]; [rewrite one_refl in *|rewrite one_ne in * by done]; lia.
    + lia.
    + pose proof (builds_move _ t _ y Ht). rewrite Rb in *. cbn in *. lia.
    + done.
    + rewrite Hopen. by split.
    + intros d z [Hz|[-> ->]]%(context_new s (new_context generation)) Hd; [|done]. rewrite cnt_app in Hd. cbn in Hd.
      destruct (decide (d = c)) as [->|]; [|rewrite one_ne in Hd by done; apply (sf_sound _ Hs d z Hz); lia].
      unfold context_of in Hz. by rewrite lookup_ge_None_2 in Hz by lia.
    + intros d z [Hz|[-> ->]]%(context_new s (new_context generation)) Hd; [|done]. destruct (moves d _ t _ y Ht) as (? & ? & ? & ? & ? & ?).
      rewrite Rr, cnt_app in *. cbn in *.
      destruct (decide (d = c)) as [->|]; [|rewrite one_ne in Hd by done; apply (sf_clean _ Hs d z Hz); lia].
      unfold context_of in Hz. by rewrite lookup_ge_None_2 in Hz by lia.
    + intros d z [Hz|[-> ->]]%(context_new s (new_context generation)) Hd; [by apply (sf_open _ Hs d z)|done].
    + intros d z Hz Ho. rewrite cnt_app. cbn. apply (context_new s (new_context generation)) in Hz as [Hz|[-> _]]; [|rewrite <- Hc, one_refl; lia].
      destruct (moves d _ t _ y Ht) as (? & ? & ? & ? & ? & ?). rewrite Rd in *. cbn in *.
      pose proof (sf_accounted _ Hs d z Hz Ho). lia.
    + intros d z [Hz|[-> ->]]%(context_new s (new_context generation)) Hd; [|done].
      destruct (moves d _ t _ y Ht) as (? & ? & ? & ? & ? & ?). rewrite Rd in *. cbn in *. apply (sf_leaving _ Hs d z Hz). lia.
Qed.

(** *** Disposing of a context, and using it *)
Lemma drop_safe s t x y c : safe s → ps_requests s !! t = Some x → request_drops x = [c] → request_drops y = [] →
  request_returns y = [] → request_builds x = [] → request_builds y = [] → (0 < cnt c (request_holds x))%nat →
  (∀ d, (cnt d (request_holds y) ≤ cnt d (request_holds x))%nat ∧
     (d ≠ c → cnt d (request_holds y) = cnt d (request_holds x))) →
  safe (at_request t y (on_context c dispose s)).
Proof.
  intros Hs Ht Dx Dy Ry Bx By Hx Hh. destruct (sole_holder s t x c Hs Ht Hx) as (_ & _ & Hav & _ & Hbo & _ & Hdr & _).
  rewrite Dx in Hdr. cbn in Hdr. rewrite one_refl in Hdr. pose proof (sf_drops _ Hs c) as Hno.
  split; unfold holders; cbn; rewrite ?length_alter; try apply Hs.
  - intros d. counts Hs d. destruct (moves d _ t x y Ht) as (? & ? & ? & ? & ? & ?), (Hh d) as [? _]. lia.
  - intros d Hopen. pose proof (sf_held _ Hs d Hopen). unfold holders in *.
    destruct (moves d _ t x y Ht) as (? & ? & ? & ? & ? & ?), (Hh d) as [_ Heq].
    destruct (decide (d = c)) as [->|Hne]; [lia|]. specialize (Heq Hne). lia.
  - intros d. counts Hs d. destruct (moves d _ t x y Ht) as (? & ? & ? & ? & ? & ?). rewrite Dy in *. cbn in *. lia.
  - pose proof (builds_move _ t x y Ht). rewrite Bx, By in *. cbn in *. rewrite <- (sf_builds _ Hs). lia.
  - intros d z [[_ Hz]|[-> _]]%on_context_inv Hd; [by apply (sf_sound _ Hs d z)|lia].
  - intros d z Hz Hd. destruct (moves d _ t x y Ht) as (? & ? & ? & ? & ? & ?). rewrite Ry in *. cbn in *.
    apply on_context_inv in Hz as [[_ Hz]|[-> (u & Hz & ->)]]; [|cbn]; eapply (sf_clean _ Hs); try exact Hz; lia.
  - intros d z [[_ Hz]|[-> _]]%on_context_inv Hd; [by apply (sf_open _ Hs d z)|lia].
  - intros d z [[Hne Hz]|[-> (u & _ & ->)]]%on_context_inv Ho; [|done].
    destruct (moves d _ t x y Ht) as (? & ? & ? & ? & ? & ?). rewrite Dx, Dy in *. cbn in *. rewrite one_ne in * by done.
    pose proof (sf_accounted _ Hs d z Hz Ho). lia.
  - intros d z Hz Hd. destruct (moves d _ t x y Ht) as (? & ? & ? & ? & ? & ?). rewrite Dx, Dy in *. cbn in *.
    apply on_context_inv in Hz as [[Hne Hz]|[-> (u & Hu & ->)]]; [|rewrite one_refl in *; lia].
    rewrite one_ne in * by done. apply (sf_leaving _ Hs d z Hz). lia.
Qed.
(** The same, when closing it raises. *)
Lemma abandon_safe s t x y c : safe s → ps_requests s !! t = Some x → request_drops x = [c] → request_drops y = [] →
  request_returns y = [] → request_builds x = [] → request_builds y = [] → (0 < cnt c (request_holds x))%nat →
  (∀ d, (cnt d (request_holds y) ≤ cnt d (request_holds x))%nat ∧
     (d ≠ c → cnt d (request_holds y) = cnt d (request_holds x))) →
  safe (at_request t y (with_abandoned (ps_abandoned s ++ [c]) s)).
Proof.
  intros Hs Ht Dx Dy Ry Bx By Hx Hh. destruct (sole_holder s t x c Hs Ht Hx) as (_ & Hbu & Hav & Hph & Hbo & _ & Hdr & _).
  rewrite Dx in Hdr. cbn in Hdr. rewrite one_refl in Hdr. pose proof (sf_drops _ Hs c) as Hno.
  assert (E : ∀ d, _) by (intros d; exact (moves d _ t x y Ht)).
  split; unfold holders; cbn; try apply Hs.
  - intros d. counts Hs d. destruct (E d) as (? & ? & ? & ? & ? & ?), (Hh d) as [? _]. lia.
  - intros d. counts Hs d. rewrite cnt_app. cbn. destruct (decide (d = c)) as [->|]; [rewrite one_refl|rewrite one_ne by done]; lia.
  - intros d Hopen. pose proof (sf_held _ Hs d Hopen). unfold holders in *. destruct (E d) as (? & ? & ? & ? & ? & ?), (Hh d) as [_ Heq].
    destruct (decide (d = c)) as [->|Hne]; [lia|]. specialize (Heq Hne). lia.
  - intros d. counts Hs d. destruct (E d) as (? & ? & ? & ? & ? & ?). rewrite Dx, Dy, cnt_app in *. cbn in *. lia.
  - pose proof (builds_move _ t x y Ht). rewrite Bx, By in *. cbn in *. rewrite <- (sf_builds _ Hs). lia.
  - intros d. rewrite cnt_app. cbn. intros Hd. destruct (decide (d = c)) as [->|]; [done|]. rewrite one_ne in Hd by done.
    apply (sf_closing _ Hs d). lia.
  - intros d z Hz Hd. destruct (E d) as (? & ? & ? & ? & ? & ?). rewrite Ry in *. cbn in *. apply (sf_clean _ Hs d z Hz). lia.
  - intros d z Hz Ho. destruct (E d) as (? & ? & ? & ? & ? & ?). rewrite Dx, Dy, cnt_app in *. cbn in *.
    pose proof (sf_accounted _ Hs d z Hz Ho). lia.
  - intros d z Hz Hd. destruct (E d) as (? & ? & ? & ? & ? & ?). rewrite Dx, Dy, cnt_app in *. cbn in *.
    apply (sf_leaving _ Hs d z Hz). lia.
Qed.
Lemma dispose_raises_safe s t x y c closed : safe s → ps_requests s !! t = Some x → request_drops x = [c] → request_drops y = [] →
  request_returns y = [] → request_builds x = [] → request_builds y = [] → (0 < cnt c (request_holds x))%nat →
  (∀ d, (cnt d (request_holds y) ≤ cnt d (request_holds x))%nat ∧
     (d ≠ c → cnt d (request_holds y) = cnt d (request_holds x))) →
  safe (at_request t y (dispose_raises c closed s)).
Proof. destruct closed; [apply drop_safe|apply abandon_safe]. Qed.
Lemma transact_safe s c open : safe s → (cnt c (available s) + returning c s + borrowed c s = 0)%nat →
  safe (on_context c (transact open) s).
Proof.
  intros Hs Hidle. split; unfold holders; cbn; rewrite ?length_alter; try apply Hs.
  - intros d z [[_ Hz]|[-> (u & Hz & ->)]]%on_context_inv Hd; [by apply (sf_sound _ Hs d z)|by apply (sf_sound _ Hs c u)].
  - intros d z [[_ Hz]|[-> _]]%on_context_inv Hd; [by apply (sf_clean _ Hs d z)|lia].
  - intros d z [[_ Hz]|[-> _]]%on_context_inv Hd; [by apply (sf_open _ Hs d z)|lia].
  - intros d z [[_ Hz]|[-> (u & Hz & ->)]]%on_context_inv Ho; [by apply (sf_accounted _ Hs d z)|by apply (sf_accounted _ Hs c u)].
  - intros d z Hz Hd. apply (still_open s c (transact open) d z); [done..|lia].
Qed.
(** A request ends with a context it does not give back: the pool has it no more. *)
Lemma unusable_gone s c x : safe s → context_of c s = Some x → sp_closed (ps_pool s) = true ∨ usable c s = false →
  cnt c (contexts s) = 0%nat.
Proof.
  intros Hs Hx [Hcl|Hu].
  - pose proof (sf_closed _ Hs) as [_ Hc]. rewrite Hcl in Hc. by destruct Hc as [-> _].
  - destruct (decide (0 < cnt c (contexts s))%nat) as [Hin|]; [|lia].
    destruct (sf_sound _ Hs c x Hx Hin) as (H1 & H2 & _). unfold usable in Hu. rewrite Hx, H1, H2 in Hu. cbn in Hu.
    apply member_cnt in Hin. congruence.
Qed.
Lemma context_built s c : (built c (length (ps_heap s)) = 1)%nat → is_Some (context_of c s).
Proof. unfold built, context_of. intros Hb. apply lookup_lt_is_Some. destruct (Nat.ltb_spec c (length (ps_heap s))); [done|lia]. Qed.
Lemma pool_reclaim_safe s t c rolls : safe s → ps_requests s !! t = Some (Reclaiming c) → safe (_reclaim t c rolls s).
Proof.
  intros Hs Ht. destruct (sole s t _ c Hs Ht eq_refl) as (_ & _ & Hav & _ & Hbo & _ & _ & Hre). unfold _reclaim.
  assert (Hmove : ∀ y s', safe s' → ps_requests s' = ps_requests s → request_holds y = [c] → request_drops y = [] →
    request_builds y = [] → (∀ d z, context_of d s' = Some z → (0 < cnt d (request_returns y))%nat → cx_in_transaction z = false) →
    safe (at_request t y s')).
  { intros y s' Hs' E Eh Ed Eb Ec. apply (request_moves_safe s' t (Reclaiming c) y Hs'); [by rewrite E|]. intros d.
    rewrite Eh, Ed, Eb. split_and!; try done. intros z. apply Ec. }
  unfold _in_transaction. destruct (context_of c s) as [x|] eqn:Hx; cbn.
  - destruct (negb _) eqn:Hdirty; [|destruct (_ && _)].
    + apply Hmove; try done. intros d z Hz Hd. cbn in Hd. assert (d = c) as -> by (apply one_eq; lia). rewrite Hx in Hz.
      injection Hz as <-. by apply negb_true_iff, orb_false_iff in Hdirty as [_ ?].
    + apply Hmove; try done; [apply transact_safe; [done|cbn in Hre; lia]|]. intros d z Hz Hd. cbn in Hd.
      assert (d = c) as -> by (apply one_eq; lia). apply on_context_inv in Hz as [[? _]|[_ (u & _ & ->)]]; done.
    + apply Hmove; try done. intros d z _ Hd. cbn in Hd. lia.
  - destruct (_ && _); apply Hmove; try done.
    + apply transact_safe; [done|cbn in Hre; lia].
    + intros d z Hz Hd. cbn in Hd. assert (d = c) as -> by (apply one_eq; lia).
      apply on_context_inv in Hz as [[? _]|[_ (u & _ & ->)]]; done.
    + intros d z _ Hd. cbn in Hd. lia.
Qed.
Lemma retire_safe s t c : safe s → ps_requests s !! t = Some (Retiring c) → safe (_retire t c s).
Proof.
  intros Hs Ht. destruct (sole s t _ c Hs Ht eq_refl) as (_ & Hb & _). destruct (context_built s c Hb) as [x Hx].
  unfold _retire. rewrite Hx. destruct (_ || _) eqn:Hgone.
  - apply (request_moves_safe s t (Retiring c)); [done..|]. intros d. split_and!; try done; [cbn; lia| |cbn; lia].
    intros _ Hin. cbn. destruct (decide (d = c)) as [->|]; [|by rewrite one_ne].
    destruct (sf_sound _ Hs c x Hx Hin) as (_ & H2 & _). apply member_cnt in Hin. rewrite H2, Hin in Hgone. done.
  - apply orb_false_iff in Hgone as [Hc Hm%negb_false_iff]. apply (expel_safe s t (Retiring c) (Dropping c) c); try done.
    unfold usable. rewrite Hx, Hc, Hm. apply member_cnt in Hm. by destruct (sf_sound _ Hs c x Hx Hm) as (-> & _ & _).
Qed.
Lemma request_safe s t event s' : safe s → request_step t event s = Some s' → safe s'.
Proof.
  intros Hs. unfold SqlPool.request_step. destruct (ps_requests s !! t) as [at_|] eqn:Ht; [|done]. cbn.
  destruct at_ as [after|generation after|c after| |epoch deadline notified|c|c|c|c|c|c|], event as [| |b|g| |closed]; try done.
  - intros [= <-]. by apply replenish_safe.
  - intros [= <-]. by apply build_succeeds_safe.
  - intros [= <-]. by apply (build_fails_safe s t generation).
  - intros [= <-]. destruct (resume_holds after) as (Rh & Rd & Rr & Rb & _).
    apply (drop_safe s t (Discarding c after) (resume after) c); try done; rewrite ?Rh; cbn; rewrite ?one_refl; try lia.
    intros d. split; [lia|]. intros Hne. by rewrite one_ne.
  - intros [= <-]. destruct (resume_raising_holds after) as (Rh & Rd & Rr & Rb & _).
    apply (dispose_raises_safe s t (Discarding c after) (resume_raising after) c); try done; rewrite ?Rh; cbn; rewrite ?one_refl; try lia.
    intros d. split; [lia|]. intros Hne. by rewrite one_ne.
  - intros [= <-]. unfold acquire. eapply (acquire_turn_safe t Admitting); try done.
    + apply notify_safe, waiters_safe; [done|]. done.
    + cbn. by rewrite list_lookup_fmap, Ht.
  - destruct (_ || _); [|done]. intros [= <-]. by apply (acquire_turn_safe t (Queued epoch deadline notified)).
  - intros [= <-]. destruct (sole s t _ c Hs Ht eq_refl) as (_ & _ & Hav & _ & Hbo & _ & _ & Hre). apply transact_safe; [done|].
    cbn in Hre. lia.
  - intros [= <-]. unfold quarantine_current_context. destruct (context_of c s) as [x|]; [|done].
    destruct (_ || _) eqn:Hu; [done|]. apply orb_false_iff in Hu as [_ Hu%negb_false_iff].
    by apply (expel_safe s t (Serving c) (Quarantining c) c).
  - intros [= <-]. apply (request_moves_safe s t (Serving c)); [done..|]. intros d. split_and!; try done. intros z _. cbn. lia.
  - intros [= <-]. apply (drop_safe s t (Quarantining c) (Replenishing (ThenServe c)) c); try done. cbn. rewrite one_refl. lia.
  - intros [= <-]. apply (dispose_raises_safe s t (Quarantining c) (Serving c) c); try done. cbn. rewrite one_refl. lia.
  - intros [= <-]. by apply pool_reclaim_safe.
  - intros [= <-]. by apply pool_reclaim_safe.
  - intros [= <-]. destruct (sole s t _ c Hs Ht eq_refl) as (_ & Hb & _). destruct (context_built s c Hb) as [x Hx].
    destruct (_ && _) eqn:Hu; [apply andb_true_iff in Hu as [Ho%negb_true_iff Hu]; by apply release_safe|].
    assert (Hgone : cnt c (contexts s) = 0%nat).
    { apply (unusable_gone s c x Hs Hx). apply andb_false_iff in Hu as [Hu%negb_false_iff|Hu]; auto. }
    apply (request_moves_safe s t (Releasing c)); [done..|]. intros d. split_and!; try done; [cbn; lia| |cbn; lia].
    intros _ Hin. cbn. destruct (decide (d = c)) as [->|]; [lia|by rewrite one_ne].
  - intros [= <-]. by apply retire_safe.
  - intros [= <-]. apply (drop_safe s t (Dropping c) (Replenishing ThenFinish) c); try done; cbn; rewrite ?one_refl; try lia.
    intros d. split; [lia|]. intros Hne. by rewrite one_ne.
Qed.

(** *** Probes *)
Lemma at_probe_notify p y s : at_probe p y (notify_all s) = notify_all (at_probe p y s).
Proof. done. Qed.
(** A probe that moves on, and gives nothing up. *)
Lemma probe_moves_safe s p x y : safe s → ps_probes s !! p = Some x →
  probe_holds y = probe_holds x → probe_borrows y = probe_borrows x → probe_drops y = probe_drops x →
  safe (at_probe p y s).
Proof.
  intros Hs Hp Eh Eb Ed.
  assert (E : ∀ c, probes_with probe_holds c (<[p := y]> (ps_probes s)) = probes_with probe_holds c (ps_probes s) ∧
    probes_with probe_borrows c (<[p := y]> (ps_probes s)) = borrowed c s ∧
    probes_with probe_drops c (<[p := y]> (ps_probes s)) = disposing c s).
  { intros c. destruct (probe_moves c _ p x y Hp) as (? & ? & ? & ? & ? & ?). rewrite Eh, Eb, Ed in *. lia. }
  split; unfold holders; cbn; try apply Hs; try (intros c; destruct (E c) as (E1 & E2 & E3); rewrite ?E1, ?E2, ?E3; apply Hs).
  pose proof (sf_closed _ Hs) as [Hadm Hclosed]. split; [done|]. destruct (sp_closed (ps_pool s)); [done|].
  destruct Hclosed as (? & ? & Hd). split_and!; try done. intros c. by destruct (E c) as (_ & _ & ->).
Qed.
Lemma borrow_safe s p : safe s → ps_probes s !! p = Some Asking → safe (borrow size p s).
Proof.
  intros Hs Hp. unfold borrow. destruct (_ || _) eqn:Hno; [by apply (probe_moves_safe s p Asking)|].
  destruct (available s) as [|c rest] eqn:Hav; [by apply (probe_moves_safe s p Asking)|].
  apply orb_false_iff in Hno as [[Hopen _]%orb_false_iff _].
  pose proof (sf_closed _ Hs) as [Hadm Hclosed]. rewrite Hopen in Hclosed. destruct Hclosed as (Hcl & Hde & Hdi).
  assert (E : ∀ d, _) by (intros d; exact (probe_moves d _ p Asking (Probing c) Hp)). cbn in E.
  split; unfold holders; cbn; try apply Hs.
  - intros d. counts Hs d. destruct (E d) as (? & ? & ? & ? & ? & ?). rewrite Hav in *. cbn in *. lia.
  - intros d. counts Hs d. rewrite Hav in *. cbn in *. lia.
  - intros d _. pose proof (sf_held _ Hs d Hopen). unfold holders in *. destruct (E d) as (? & ? & ? & ? & ? & ?).
    rewrite Hav in *. cbn in *. lia.
  - intros d. counts Hs d. destruct (E d) as (? & ? & ? & ? & ? & ?). lia.
  - intros d. counts Hs d. destruct (E d) as (? & ? & ? & ? & ? & ?). rewrite map_app, cnt_app. cbn. lia.
  - intros d. counts Hs d. destruct (E d) as (? & ? & ? & ? & ? & ?). lia.
  - intros d Hd. destruct (E d) as (? & ? & ? & ? & ? & ?). pose proof (sf_closing _ Hs d Hd). counts Hs d. rewrite Hav in *. cbn in *. lia.
  - rewrite Hopen. split_and!; try done; [by rewrite Hadm, Hopen|]. intros d. destruct (E d) as (? & ? & ? & ? & ? & ?). specialize (Hdi d). lia.
  - intros d z Hz Hd. apply (sf_clean _ Hs d z Hz). destruct (E d) as (? & ? & ? & ? & ? & ?). rewrite Hav. cbn in *. lia.
  - intros d z Hz Hd. destruct (E d) as (? & ? & ? & ? & ? & ?). destruct (decide (d = c)) as [->|Hne].
    + apply (sf_sound _ Hs c z Hz). counts Hs c. rewrite Hav in *. cbn in *. rewrite one_refl in *. lia.
    + rewrite one_ne in * by done. apply (sf_open _ Hs d z Hz). lia.
  - intros d z Hz Ho. destruct (E d) as (? & ? & ? & ? & ? & ?). pose proof (sf_accounted _ Hs d z Hz Ho). lia.
  - intros d z Hz Hd. destruct (E d) as (? & ? & ? & ? & ? & ?). apply (sf_leaving _ Hs d z Hz). lia.
Qed.
Lemma cnt_calls c d (l : list (Z * nat)) :
  cnt c (map snd (List.filter (λ call, negb (call.2 =? d)%nat) l)) = if (c =? d)%nat then 0%nat else cnt c (map snd l).
Proof.
  rewrite <- (cnt_without c d (map snd l)). unfold without. f_equal. induction l as [|[u e] l IH]; cbn; [done|].
  destruct (e =? d)%nat; cbn; by rewrite IH.
Qed.
(** A probe is alone in having the context it borrowed. *)
Lemma sole_probe s p c ready : safe s → ps_probes s !! p = Some (Returning c ready) ∨ ps_probes s !! p = Some (Probing c) →
  cnt c (available s) = 0%nat ∧ requests_with request_holds c (ps_requests s) = 0%nat ∧ dropping c s = 0%nat ∧
  returning c s = 0%nat ∧ borrowed c s = 1%nat ∧ disposing c s = 0%nat ∧ built c (length (ps_heap s)) = 1%nat ∧ (closing c s + abandoned c s = 0)%nat.
Proof.
  intros Hs Hp. counts Hs c. pose proof (probe_parts c (ps_probes s)). pose proof (request_parts c (ps_requests s)).
  assert (built c (length (ps_heap s)) ≤ 1)%nat by (unfold built; destruct (_ <? _)%nat; lia).
  assert (1 ≤ borrowed c s)%nat.
  { destruct Hp as [Hp|Hp]; pose proof (probes_at probe_borrows c _ p _ Hp) as E; cbn in E; rewrite one_refl in E; lia. }
  split_and!; lia.
Qed.
Lemma release_probe_safe s p c ready : safe s → ps_probes s !! p = Some (Returning c ready) →
  safe (_release_probe_context p c ready s).
Proof.
  intros Hs Hp. destruct (sole_probe s p c ready Hs (or_introl Hp)) as (Hav & Hrh & Hdr & Hre & Hbo & Hdi & Hbu & Hcl).
  destruct (context_built s c Hbu) as [x Hx]. pose proof (sf_closed _ Hs) as [Hadm Hclosed]. pose proof (sf_contexts _ Hs c) as Hc1.
  unfold _release_probe_context. cbn [ps_pool on_pool with_pool set_probes sp_closed].
  change (usable c (on_pool ?f s)) with (usable c s).
  destruct (sp_closed (ps_pool s)) eqn:Hopen; cbn [negb andb]; [|destruct (usable c s) eqn:Hu].
  - set (y := if member c (sp_deferred (ps_pool s)) then Disposing c ready else Answered ready).
    assert (E : ∀ d, _) by (intros d; exact (probe_moves d _ p _ y Hp)). cbn in E. destruct Hclosed as [Hnil Hnav].
    assert (Hy : ∀ d, cnt d (probe_borrows y) = 0%nat ∧ cnt d (probe_holds y) = cnt d (probe_drops y) ∧
      cnt d (probe_drops y) = if member c (sp_deferred (ps_pool s)) then one d c else 0%nat).
    { intros d. subst y. destruct (member _ _); cbn; lia. }
    split; unfold holders; cbn; try apply Hs.
    + intros d. counts Hs d. destruct (E d) as (? & ? & ? & ? & ? & ?), (Hy d) as (? & ? & ?). pose proof (one_le d c).
      destruct (member _ _); lia.
    + by rewrite Hopen.
    + intros d. counts Hs d. destruct (E d) as (? & ? & ? & ? & ? & ?), (Hy d) as (? & ? & ?). rewrite Hnil. cbn.
      rewrite cnt_without. destruct (Nat.eqb_spec d c) as [->|]; [rewrite one_refl in *|rewrite one_ne in * by done];
        destruct (member c _) eqn:Hm; try apply member_cnt in Hm; rewrite Hnil in *; cbn in *; lia.
    + intros d. counts Hs d. destruct (E d) as (? & ? & ? & ? & ? & ?), (Hy d) as (? & _ & _). rewrite cnt_calls.
      destruct (Nat.eqb_spec d c) as [->|]; [rewrite one_refl in *|rewrite one_ne in * by done]; lia.
    + intros d. counts Hs d. destruct (E d) as (? & ? & ? & ? & ? & ?), (Hy d) as (? & _ & _). rewrite cnt_without.
      destruct (Nat.eqb_spec d c) as [->|]; [rewrite one_refl in *|rewrite one_ne in * by done]; lia.
    + intros d Hd. pose proof (sf_closing _ Hs d Hd). destruct (E d) as (? & ? & ? & ? & ? & ?), (Hy d) as (? & ? & ?).
      destruct (decide (d = c)) as [->|]; [lia|rewrite one_ne in * by done]. destruct (member _ _); lia.
    + by rewrite Hopen.
    + intros d z Hz Hd. apply (sf_clean _ Hs d z Hz). destruct (E d) as (? & ? & ? & ? & ? & ?), (Hy d) as (? & _ & _). lia.
    + intros d z Hz Hd. apply (sf_open _ Hs d z Hz). destruct (E d) as (? & ? & ? & ? & ? & ?), (Hy d) as (? & _ & _). lia.
    + intros d z Hz Ho. pose proof (sf_accounted _ Hs d z Hz Ho). destruct (E d) as (? & ? & ? & ? & ? & ?), (Hy d) as (? & ? & Hd).
      rewrite cnt_without. destruct (Nat.eqb_spec d c) as [->|]; [|lia].
      rewrite one_refl, Hnil in *. cbn in *. destruct (member c _) eqn:Hm; [lia|].
      assert (deferred c s = 0)%nat; [|lia]. destruct (decide (0 < deferred c s)%nat) as [Hin|]; [|lia].
      apply member_cnt in Hin. congruence.
    + intros d z Hz Hd. destruct (E d) as (? & ? & ? & ? & ? & ?), (Hy d) as (? & ? & Hdd). rewrite cnt_without in Hd.
      destruct (Nat.eqb_spec d c) as [->|]; [apply (sf_open _ Hs c z Hz); lia|]. rewrite one_ne in * by done.
      apply (sf_leaving _ Hs d z Hz). destruct (member _ _); lia.
  - unfold release. rewrite at_probe_notify. apply notify_safe. unfold usable in Hu. rewrite Hx in Hu.
    apply andb_true_iff in Hu as [_ Hin%member_cnt]. destruct Hclosed as (Hnil & Hde & Hnd).
    assert (E : ∀ d, _) by (intros d; exact (probe_moves d _ p _ (Answered ready) Hp)). cbn in E.
    split; unfold holders; cbn; unfold add_lease; rewrite ?Hadm; cbn; try apply Hs.
    + intros d. counts Hs d. destruct (E d) as (? & ? & ? & ? & ? & ?). rewrite cnt_app. cbn. lia.
    + intros d. counts Hs d. rewrite cnt_app. cbn. destruct (decide (d = c)) as [->|]; [rewrite one_refl|rewrite one_ne by done]; lia.
    + intros d _. pose proof (sf_held _ Hs d Hopen). unfold holders in *. destruct (E d) as (? & ? & ? & ? & ? & ?).
      rewrite cnt_app. cbn. lia.
    + intros d. counts Hs d. destruct (E d) as (? & ? & ? & ? & ? & ?). rewrite cnt_without. destruct (_ =? _)%nat; lia.
    + intros d. counts Hs d. destruct (E d) as (? & ? & ? & ? & ? & ?). rewrite cnt_calls.
      destruct (Nat.eqb_spec d c) as [->|]; [rewrite one_refl in *|rewrite one_ne in * by done]; lia.
    + intros d. rewrite Hde. cbn. lia.
    + intros d Hd. pose proof (sf_closing _ Hs d Hd). destruct (E d) as (? & ? & ? & ? & ? & ?). lia.
    + rewrite Hopen, Hde. split_and!; try done. intros d. destruct (E d) as (? & ? & ? & ? & ? & ?). specialize (Hnd d). lia.
    + intros d z Hz Hd. destruct (E d) as (? & ? & ? & ? & ? & ?). rewrite cnt_app in Hd. cbn in Hd.
      apply (sf_clean _ Hs d z Hz). destruct (decide (d = c)) as [->|]; [rewrite one_refl in *|rewrite one_ne in * by done]; lia.
    + intros d z Hz Hd. apply (sf_open _ Hs d z Hz). destruct (E d) as (? & ? & ? & ? & ? & ?). lia.
    + intros d z Hz Ho. pose proof (sf_accounted _ Hs d z Hz Ho). destruct (E d) as (? & ? & ? & ? & ? & ?). rewrite Hde in *. cbn in *. lia.
    + intros d z Hz Hd. destruct (E d) as (? & ? & ? & ? & ? & ?). apply (sf_leaving _ Hs d z Hz). rewrite Hde in *. cbn in *. lia.
  - pose proof (unusable_gone s c x Hs Hx (or_intror Hu)) as Hgone. pose proof (sf_held _ Hs c Hopen).
    destruct Hclosed as (Hnil & Hde & Hnd). pose proof (sf_accounted _ Hs c x Hx (sf_open _ Hs c x Hx ltac:(lia))).
    rewrite Hnil, Hde in *. cbn in *. lia.
Qed.
(** What a probe is to dispose of is its own, in a closed pool. *)
Lemma probe_disposes_safe s p c ready b : safe s → ps_probes s !! p = Some (Disposing c ready) →
  safe (at_probe p (Answered b) (on_context c dispose s)).
Proof.
  intros Hs Hp.
  assert (E : ∀ d, _) by (intros d; exact (probe_moves d _ p _ (Answered b) Hp)). cbn in E.
  assert (Hc : cnt c (contexts s) = 0%nat ∧ borrowed c s = 0%nat ∧ (1 ≤ disposing c s)%nat).
  { counts Hs c. destruct (E c) as (? & ? & ? & ? & ? & ?). pose proof (probe_parts c (ps_probes s)). rewrite one_refl in *.
    assert (built c (length (ps_heap s)) ≤ 1)%nat by (unfold built; destruct (_ <? _)%nat; lia). lia. }
  destruct Hc as (Hc & Hb & Hd). pose proof (sf_closed _ Hs) as [Hadm Hclosed].
  destruct (sp_closed (ps_pool s)) eqn:Hopen; [|destruct Hclosed as (_ & _ & Hn); specialize (Hn c); lia].
  destruct Hclosed as [Hnil Hnav].
  split; unfold holders; cbn; rewrite ?length_alter; try apply Hs.
  - intros d. counts Hs d. destruct (E d) as (? & ? & ? & ? & ? & ?). lia.
  - by rewrite Hopen.
  - intros d. counts Hs d. destruct (E d) as (? & ? & ? & ? & ? & ?). lia.
  - intros d. counts Hs d. destruct (E d) as (? & ? & ? & ? & ? & ?). lia.
  - intros d. counts Hs d. destruct (E d) as (? & ? & ? & ? & ? & ?). lia.
  - intros d Hd'. pose proof (sf_closing _ Hs d Hd'). destruct (E d) as (? & ? & ? & ? & ? & ?). lia.
  - by rewrite Hopen.
  - intros d z [[_ Hz]|[-> _]]%on_context_inv Hd'; [by apply (sf_sound _ Hs d z)|lia].
  - intros d z Hz Hd'. destruct (E d) as (? & ? & ? & ? & ? & ?).
    apply on_context_inv in Hz as [[_ Hz]|[-> (u & Hz & ->)]]; [|cbn]; eapply (sf_clean _ Hs); try exact Hz; lia.
  - intros d z [[_ Hz]|[-> _]]%on_context_inv Hd'; destruct (E d) as (? & ? & ? & ? & ? & ?) || destruct (E c) as (? & ? & ? & ? & ? & ?);
      [apply (sf_open _ Hs d z Hz); lia|lia].
  - intros d z [[Hne Hz]|[-> (u & _ & ->)]]%on_context_inv Ho; [|done]. pose proof (sf_accounted _ Hs d z Hz Ho).
    destruct (E d) as (? & ? & ? & ? & ? & ?). rewrite one_ne in * by done. lia.
  - intros d z Hz Hd'. destruct (E d) as (? & ? & ? & ? & ? & ?). counts Hs d.
    apply on_context_inv in Hz as [[Hne Hz]|[-> (u & Hu & ->)]]; [|rewrite one_refl in *; lia].
    apply (sf_leaving _ Hs d z Hz). lia.
Qed.
Lemma probe_abandons_safe s p c ready b : safe s → ps_probes s !! p = Some (Disposing c ready) →
  safe (at_probe p (Answered b) (with_abandoned (ps_abandoned s ++ [c]) s)).
Proof.
  intros Hs Hp.
  assert (E : ∀ d, _) by (intros d; exact (probe_moves d _ p _ (Answered b) Hp)). cbn in E.
  assert (Hc : cnt c (contexts s) = 0%nat ∧ borrowed c s = 0%nat ∧ (1 ≤ disposing c s)%nat).
  { counts Hs c. destruct (E c) as (? & ? & ? & ? & ? & ?). pose proof (probe_parts c (ps_probes s)). rewrite one_refl in *.
    assert (built c (length (ps_heap s)) ≤ 1)%nat by (unfold built; destruct (_ <? _)%nat; lia). lia. }
  destruct Hc as (Hc & Hb & Hd). pose proof (sf_closed _ Hs) as [Hadm Hclosed].
  destruct (sp_closed (ps_pool s)) eqn:Hopen; [|destruct Hclosed as (_ & _ & Hn); specialize (Hn c); lia].
  destruct Hclosed as [Hnil Hnav].
  assert (Hbu : (built c (length (ps_heap s)) = 1)%nat ∧ probes_with probe_holds c (ps_probes s) = 1%nat).
  { counts Hs c. pose proof (probe_parts c (ps_probes s)).
    assert (built c (length (ps_heap s)) ≤ 1)%nat by (unfold built; destruct (_ <? _)%nat; lia). lia. }
  split; unfold holders; cbn; try apply Hs.
  - intros d. counts Hs d. destruct (E d) as (? & ? & ? & ? & ? & ?). lia.
  - intros d. counts Hs d. rewrite cnt_app. cbn. destruct (decide (d = c)) as [->|]; [rewrite one_refl|rewrite one_ne by done]; lia.
  - by rewrite Hopen.
  - intros d. counts Hs d. destruct (E d) as (? & ? & ? & ? & ? & ?). rewrite cnt_app. cbn. lia.
  - intros d. counts Hs d. destruct (E d) as (? & ? & ? & ? & ? & ?). lia.
  - intros d. counts Hs d. destruct (E d) as (? & ? & ? & ? & ? & ?). lia.
  - intros d. rewrite cnt_app. cbn. intros Hd'. destruct (E d) as (? & ? & ? & ? & ? & ?).
    destruct (decide (d = c)) as [->|]; [rewrite one_refl in *; lia|]. rewrite one_ne in * by done. pose proof (sf_closing _ Hs d). lia.
  - by rewrite Hopen.
  - intros d z Hz Hd'. destruct (E d) as (? & ? & ? & ? & ? & ?). apply (sf_clean _ Hs d z Hz). lia.
  - intros d z Hz Hd'. destruct (E d) as (? & ? & ? & ? & ? & ?). apply (sf_open _ Hs d z Hz). lia.
  - intros d z Hz Ho. pose proof (sf_accounted _ Hs d z Hz Ho). destruct (E d) as (? & ? & ? & ? & ? & ?). rewrite cnt_app. cbn. lia.
  - intros d z Hz Hd'. destruct (E d) as (? & ? & ? & ? & ? & ?). rewrite cnt_app in Hd'. cbn in Hd'. apply (sf_leaving _ Hs d z Hz). lia.
Qed.
Lemma probe_safe s p answers s' : safe s → probe_step size p answers s = Some s' → safe s'.
Proof.
  intros Hs. unfold SqlPool.probe_step. destruct (ps_probes s !! p) as [x|] eqn:Hp; [|done]. cbn.
  destruct x as [|c|c ready|c ready|]; try done; intros [= <-].
  - by apply borrow_safe.
  - by apply (probe_moves_safe s p (Probing c)).
  - by apply release_probe_safe.
  - by apply (probe_disposes_safe s p c ready).
Qed.
Lemma probe_raises_safe s p closed s' : safe s → probe_close_raises p closed s = Some s' → safe s'.
Proof.
  intros Hs. unfold probe_close_raises. destruct (ps_probes s !! p) as [[| | |c ready|]|] eqn:Hp; try done. intros [= <-].
  destruct closed; [by apply (probe_disposes_safe s p c ready)|by apply (probe_abandons_safe s p c ready)].
Qed.

(** *** The rest *)
Lemma arrives_safe s : safe s → safe (request_scope s).
Proof.
  intros Hs. split; unfold holders; cbn; try apply Hs; try intros c; rewrite requests_snoc; cbn; rewrite Nat.add_0_r; apply Hs.
Qed.
Lemma asks_safe s : safe s → safe (is_ready s).
Proof.
  intros Hs. pose proof (sf_closed _ Hs) as [Hadm Hclosed].
  split; unfold holders; cbn; try apply Hs; try (intros c; rewrite ?probes_snoc; cbn; rewrite ?Nat.add_0_r; apply Hs).
  split; [done|]. destruct (sp_closed (ps_pool s)); [done|]. destruct Hclosed as (? & ? & Hd). split_and!; try done.
  intros c. rewrite probes_snoc. cbn. rewrite Nat.add_0_r. apply Hd.
Qed.
Lemma interrupts_safe older s : safe s → safe (interrupt_readiness_probes older s).
Proof. intros Hs. split; apply Hs. Qed.
Lemma pool_tick_safe d s : safe s → safe (tick d s).
Proof. intros Hs. split; apply Hs. Qed.
Lemma condemned_lookup (l : list nat) (h : list SQLiteRequestContext) (d : nat) z : foldr (alter condemn) h l !! d = Some z →
  ∃ y, h !! d = Some y ∧ cx_open z = cx_open y ∧ cx_in_transaction z = cx_in_transaction y.
Proof.
  revert z. induction l as [|c l IH]; intros z; cbn; [by eauto|]. destruct (decide (d = c)) as [->|Hne].
  - rewrite list_lookup_alter_eq. destruct (foldr _ _ _ !! c) as [y|] eqn:Hy; [|done]. intros [= <-]. cbn. by apply IH.
  - rewrite list_lookup_alter_ne by done. apply IH.
Qed.
Lemma length_condemned (l : list nat) h : length (foldr (alter (M := list SQLiteRequestContext) condemn) h l) = length h.
Proof. induction l as [|c l IH]; cbn; [done|]. by rewrite length_alter. Qed.
Lemma cnt_unborrowed c (borrowed l : list nat) :
  cnt c (List.filter (λ x, negb (member x borrowed)) l) = if member c borrowed then 0%nat else cnt c l.
Proof.
  induction l as [|d l IH]; cbn; [by destruct (member c borrowed)|]. destruct (member d borrowed) eqn:Hd; cbn; rewrite IH.
  - destruct (member c borrowed) eqn:Hc; [done|]. rewrite one_ne; [done|]. intros ->. congruence.
  - destruct (member c borrowed) eqn:Hc; [|done]. rewrite one_ne; [done|]. intros ->. congruence.
Qed.
Lemma pool_close_safe s : safe s → safe (close s).
Proof.
  intros Hs. unfold close. destruct (sp_closed (ps_pool s)) eqn:Hopen; [done|].
  pose proof (sf_closed _ Hs) as [Hadm Hclosed]. rewrite Hopen in Hclosed. destruct Hclosed as (Hcl & Hde & Hdi).
  change (with_closers ?l (close_admission ?s')) with (notify_all (with_closers l (on_admission shut s'))). apply notify_safe.
  pose proof (sf_size _ Hs) as Hfit.
  assert (Hb : ∀ d, (0 < borrowed d s)%nat → borrowed d s = 1%nat ∧ dropping d s = 0%nat ∧ abandoned d s = 0%nat).
  { intros d Hd. counts Hs d. pose proof (probe_parts d (ps_probes s)). pose proof (request_parts d (ps_requests s)).
    assert (built d (length (ps_heap s)) ≤ 1)%nat by (unfold built; destruct (_ <? _)%nat; lia). lia. }
  split; unfold holders; cbn; rewrite ?length_condemned, ?Hcl, ?Hde; cbn; rewrite ?app_nil_r; try apply Hs.
  - intros d. counts Hs d. lia.
  - intros d. counts Hs d. rewrite cnt_unborrowed. rewrite Hcl in *. cbn in *. destruct (member d _); lia.
  - intros d. lia.
  - done.
  - intros d. rewrite cnt_unborrowed. counts Hs d. specialize (Hdi d). specialize (Hb d).
    destruct (member d _) eqn:Hm; [apply member_cnt in Hm; lia|].
    assert (cnt d (map snd (sp_probe_calls (ps_pool s))) = 0%nat); [|lia].
    destruct (decide (0 < cnt d (map snd (sp_probe_calls (ps_pool s))))%nat) as [Hin|]; [|lia]. apply member_cnt in Hin. congruence.
  - lia.
  - done.
  - intros d. counts Hs d. lia.
  - intros d. rewrite cnt_unborrowed. counts Hs d. pose proof (probe_parts d (ps_probes s)).
    destruct (member d _) eqn:Hm; [intros Hd; apply (sf_closing _ Hs d); lia|]. intros Hd. assert (borrowed d s = 0)%nat; [|specialize (Hdi d); lia].
    destruct (decide (0 < cnt d (map snd (sp_probe_calls (ps_pool s))))%nat) as [Hin|]; [|lia]. apply member_cnt in Hin. congruence.
  - by split.
  - intros d z _. lia.
  - intros d z (y & Hy & _ & ->)%condemned_lookup Hd. apply (sf_clean _ Hs d y Hy). lia.
  - intros d z (y & Hy & -> & _)%condemned_lookup Hd. by apply (sf_open _ Hs d y Hy).
  - intros d z (y & Hy & -> & _)%condemned_lookup Ho. pose proof (sf_accounted _ Hs d y Hy Ho) as Ha. rewrite Hcl, Hde in Ha.
    cbn in Ha. rewrite cnt_unborrowed. counts Hs d. specialize (Hdi d).
    destruct (member d _) eqn:Hm; [apply member_cnt in Hm|]; lia.
  - intros d z (y & Hy & -> & _)%condemned_lookup. rewrite cnt_unborrowed. intros Hd. counts Hs d.
    destruct (decide (0 < borrowed d s)%nat) as [Hbo|]; [by apply (sf_open _ Hs d y Hy)|].
    destruct (decide (0 < cnt d (contexts s))%nat) as [Hin|]; [by apply (sf_sound _ Hs d y Hy)|].
    apply (sf_leaving _ Hs d y Hy). destruct (member d _); lia.
Qed.
Lemma concat_insert c (l : list (list nat)) k d rest : l !! k = Some (d :: rest) →
  (cnt c (List.concat (<[k := rest]> l)) + one c d = cnt c (List.concat l))%nat.
Proof.
  revert k. induction l as [|x l IH]; intros [|k]; try done.
  - intros [= ->]. cbn. rewrite !cnt_app. lia.
  - intros Hk. specialize (IH k Hk). change (<[S k:=rest]> (x :: l)) with (x :: <[k := rest]> l). cbn. rewrite !cnt_app. lia.
Qed.
Lemma pool_closing_safe s k s' : safe s → close_step k s = Some s' → safe s'.
Proof.
  intros Hs. unfold close_step. destruct (ps_closers s !! k) as [[|c rest]|] eqn:Hk; try done. intros [= <-].
  pose proof (sf_closed _ Hs) as [Hadm Hclosed].
  destruct (sp_closed (ps_pool s)) eqn:Hopen; [|destruct Hclosed as [Hn _]; rewrite Hn in Hk; done]. destruct Hclosed as [Hnil Hnav].
  pose proof (λ d, concat_insert d _ k c rest Hk) as E.
  assert (Hb : borrowed c s = 0%nat ∧ disposing c s = 0%nat).
  { pose proof (sf_closing _ Hs c) as Hc. specialize (E c). rewrite one_refl in E. pose proof (probe_parts c (ps_probes s)).
    rewrite Hc in *; lia. }
  destruct Hb as [Hb Hdi].
  split; unfold holders; cbn; rewrite ?length_alter; try apply Hs.
  - intros d. counts Hs d. specialize (E d). lia.
  - intros d. counts Hs d. specialize (E d). lia.
  - intros d Hd. apply (sf_closing _ Hs d). specialize (E d). lia.
  - by rewrite Hopen.
  - intros d z _. rewrite Hnil. cbn. lia.
  - intros d z Hz Hd. apply on_context_inv in Hz as [[_ Hz]|[-> (u & Hz & ->)]]; [|cbn]; by eapply (sf_clean _ Hs).
  - intros d z [[_ Hz]|[-> _]]%on_context_inv Hd; [by apply (sf_open _ Hs d z)|lia].
  - intros d z [[Hne Hz]|[-> (u & _ & ->)]]%on_context_inv Ho; [|done]. pose proof (sf_accounted _ Hs d z Hz Ho).
    specialize (E d). rewrite one_ne in E by done. lia.
  - intros d z Hz Hd. counts Hs d. specialize (E d).
    apply on_context_inv in Hz as [[Hne Hz]|[-> (u & Hu & ->)]]; [|rewrite one_refl in *; lia].
    rewrite one_ne in * by done. apply (sf_leaving _ Hs d z Hz). lia.
Qed.
Lemma pool_gives_up_safe s k l : safe s → ps_closers s !! k = Some l →
  safe (with_closers (<[k := []]> (ps_closers s)) (with_abandoned (ps_abandoned s ++ l) s)).
Proof.
  intros Hs Hk. pose proof (sf_closed _ Hs) as [Hadm Hclosed].
  destruct (sp_closed (ps_pool s)) eqn:Hopen; [|destruct Hclosed as [Hn _]; rewrite Hn in Hk; done]. destruct Hclosed as [Hnil Hnav].
  assert (E : ∀ d, (cnt d (List.concat (<[k := []]> (ps_closers s))) + cnt d l = closing d s)%nat).
  { intros d. revert Hk. generalize (ps_closers s) as ls. intros ls Hk. revert k Hk. induction ls as [|l' ls IH]; intros [|k] Hk; try done.
    - injection Hk as ->. cbn. rewrite cnt_app. lia.
    - specialize (IH k Hk). change (<[S k:=[]]> (l' :: ls)) with (l' :: <[k := []]> ls). cbn. rewrite !cnt_app. lia. }
  split; unfold holders; cbn; try apply Hs.
  - intros d. counts Hs d. specialize (E d). rewrite cnt_app. lia.
  - intros d. counts Hs d. specialize (E d). rewrite cnt_app. lia.
  - intros d. rewrite cnt_app. intros Hd. apply (sf_closing _ Hs d). specialize (E d). lia.
  - by rewrite Hopen.
  - intros d z Hz Ho. pose proof (sf_accounted _ Hs d z Hz Ho). specialize (E d). rewrite cnt_app. lia.
  - intros d z Hz. rewrite cnt_app. intros Hd. apply (sf_leaving _ Hs d z Hz). specialize (E d). lia.
Qed.
Lemma pool_close_raises_safe s k closed s' : safe s → close_raises k closed s = Some s' → safe s'.
Proof.
  intros Hs. unfold close_raises. destruct (ps_closers s !! k) as [[|c rest]|] eqn:Hk; try done. intros [= <-].
  destruct closed; cbn [dispose_raises].
  - assert (Hstep : close_step k s = Some (with_closers (<[k := rest]> (ps_closers s)) (on_context c dispose s)))
      by by (unfold close_step; rewrite Hk).
    pose proof (pool_closing_safe s k _ Hs Hstep) as Hs'. apply (pool_gives_up_safe _ k rest) in Hs'.
    + cbn in Hs'. by rewrite list_insert_insert_eq in Hs'.
    + cbn. apply list_lookup_insert_eq. by eapply lookup_lt_Some.
  - pose proof (pool_gives_up_safe s k _ Hs Hk) as Hs'. unfold with_abandoned in *. cbn in *. by rewrite <-app_assoc.
Qed.
Lemma step_safe s s' : safe s → pool_step s s' → safe s'.
Proof.
  intros Hs Hstep. destruct Hstep;
    eauto using arrives_safe, request_safe, asks_safe, probe_safe, interrupts_safe, pool_close_safe, pool_closing_safe, pool_tick_safe,
      probe_raises_safe, pool_close_raises_safe.
Qed.
Lemma cnt_seq c n : cnt c (seq 0 n) = if (c <? n)%nat then 1%nat else 0%nat.
Proof.
  induction n as [|n IH]; [done|]. rewrite seq_S, cnt_app, IH. change (cnt c [(0 + n)%nat]) with (one c n + 0)%nat. unfold one.
  destruct (Nat.ltb_spec c n), (Nat.ltb_spec c (S n)), (Nat.eqb_spec c n); lia.
Qed.
Lemma new_pool_safe now : safe (new_pool size now).
Proof.
  split; unfold holders, requests_with, probes_with; cbn; rewrite ?length_map, ?length_seq; try done; try lia.
  - intros c. rewrite cnt_seq. unfold built. lia.
  - intros c. rewrite cnt_seq. unfold built. lia.
  - intros c. rewrite cnt_seq. destruct (_ <? _)%nat; lia.
  - intros c x Hx _. unfold context_of in Hx. cbn in Hx. apply list_lookup_fmap_Some in Hx as (n & -> & _). done.
  - intros c x Hx _. unfold context_of in Hx. cbn in Hx. apply list_lookup_fmap_Some in Hx as (n & -> & _). done.
  - intros c x Hx _. unfold context_of in Hx. cbn in Hx. rewrite cnt_seq. apply lookup_lt_Some in Hx.
    rewrite length_map, length_seq in Hx. apply Nat.ltb_lt in Hx. rewrite Hx. lia.
Qed.
Definition reachable s : Prop := ∃ now, rtc pool_step (new_pool size now) s.
Lemma pool_steps_safe s s' : safe s → rtc pool_step s s' → safe s'.
Proof. intros Hs Hst. induction Hst; eauto using step_safe. Qed.
Lemma pool_reachable_safe s : reachable s → safe s.
Proof. intros [now Hst]. by apply (pool_steps_safe (new_pool size now)), Hst; apply new_pool_safe. Qed.

(** ** Theorems *)

Lemma cnt_flat_two {A} (f : A → list nat) (l : list A) (t u : nat) x y c : l !! t = Some x → l !! u = Some y → t ≠ u →
  (cnt c (f x) + cnt c (f y) ≤ cnt c (flat_map f l))%nat.
Proof.
  revert t u. induction l as [|z l IH]; intros [|t] [|u] Ht Hu Hne; try done; cbn in *; rewrite cnt_app.
  - injection Ht as ->. pose proof (cnt_flat_at f l u y c Hu). lia.
  - injection Hu as ->. pose proof (cnt_flat_at f l t x c Ht). lia.
  - assert (t ≠ u) as Hne' by congruence. specialize (IH t u Ht Hu Hne'). lia.
Qed.
(** The contexts whose statements a sweep of the reclaimer would interrupt now. *)
Definition hit_by (older_than : Z) s : list nat :=
  drop (length (ps_interrupted s)) (ps_interrupted (interrupt_readiness_probes older_than s)).

(** C21: A lease is exclusive and clean: however requests, probes, failed commits, rollbacks, rebuilds and the closing of the
    pool interleave, a connection that serves a request serves no other, is lent to no probe and is not available; what is
    available is open, healthy and in no transaction, so that no request joins the transaction another left open; the
    pool never has more connections than its size; and an interrupt hits only what a probe holds, never a request. *)
Theorem pool_lease_sound s : reachable s →
  (∀ t u x y c, ps_requests s !! t = Some x → ps_requests s !! u = Some y → c ∈ request_holds x → c ∈ request_holds y → t = u) ∧
  (∀ t x c, ps_requests s !! t = Some x → c ∈ request_holds x →
     (c ∉ available s) ∧ (∀ p y, ps_probes s !! p = Some y → ¬ c ∈ probe_holds y) ∧ ∀ older_than, c ∉ hit_by older_than s) ∧
  (∀ c x, c ∈ available s → context_of c s = Some x →
     cx_open x = true ∧ cx_healthy x = true ∧ cx_closed x = false ∧ cx_in_transaction x = false) ∧
  (length (contexts s) ≤ size)%nat.
Proof.
  intros Hs%pool_reachable_safe. split_and!.
  - intros t u x y c Ht Hu Hx%cnt_elem Hy%cnt_elem. destruct (decide (t = u)) as [|Hne]; [done|].
    pose proof (cnt_flat_two request_holds _ t u x y c Ht Hu Hne) as Htwo. pose proof (sf_once _ Hs c) as Honce.
    unfold holders, requests_with in Honce. assert (built c (length (ps_heap s)) ≤ 1)%nat by (unfold built; destruct (_ <? _)%nat; lia). lia.
  - intros t x c Ht Hx%cnt_elem. destruct (sole_holder s t x c Hs Ht Hx) as (_ & _ & Hav & Hpr & Hbo & _).
    split_and!.
    + rewrite cnt_elem. lia.
    + intros p y Hp Hy%cnt_elem. pose proof (probes_at probe_holds c _ p y Hp). lia.
    + intros older. unfold hit_by. cbn. rewrite drop_app_length. rewrite cnt_elem. pose proof (sf_calls _ Hs c) as Hcalls.
      rewrite Hbo in Hcalls. intros Hin%cnt_elem. apply list_elem_of_In, in_map_iff in Hin as (call & <- & Hin).
      apply filter_In in Hin as [Hin _]. assert (Hp : call.2 ∈ map snd (sp_probe_calls (ps_pool s))) by (by apply list_elem_of_In, in_map).
      apply cnt_elem in Hp. lia.
  - intros c x Hin%cnt_elem Hx. pose proof (sf_available _ Hs c). destruct (sf_sound _ Hs c x Hx) as (? & ? & ?); [lia|].
    split_and!; try done. apply (sf_clean _ Hs c x Hx). lia.
  - pose proof (sf_size _ Hs). lia.
Qed.
(** C23: Closing the pool pulls no connection from under a probe, and leaks only what an error makes it leak: a connection
    stays open as long as a readiness probe works on it, although the closing thread cannot wait for it; and once the
    pool is closed and every thread is done with what it had to dispose of, the contexts whose connection is still open
    are exactly the abandoned ones: those whose [service.close()] raised, which a quarantine, a discarded rebuild, a
    probe or the closing thread then leaves open, and those the closing thread had left when something raised.  So none is
    left open where nothing raised.  (What the class means to do, to close them all, it does not do then.) *)
Theorem pool_shutdown_sound s : reachable s →
  (∀ p c ready, ps_probes s !! p = Some (Probing c) ∨ ps_probes s !! p = Some (Returning c ready) →
     ∃ x, context_of c s = Some x ∧ cx_open x = true) ∧
  (sp_closed (ps_pool s) = true → (∀ l, l ∈ ps_closers s → l = []) →
     (∀ p y, ps_probes s !! p = Some y → probe_holds y = []) → (∀ t x, ps_requests s !! t = Some x → request_drops x = []) →
     ∀ c x, context_of c s = Some x → (cx_open x = true ↔ c ∈ ps_abandoned s)).
Proof.
  intros Hs%pool_reachable_safe. split.
  - intros p c ready Hp. destruct (sole_probe s p c ready Hs) as (_ & _ & _ & _ & Hbo & _ & Hbu & _); [tauto|].
    destruct (context_built s c Hbu) as [x Hx]. exists x. split; [done|]. apply (sf_open _ Hs c x Hx). lia.
  - intros Hclosed Hclosers Hprobes Hrequests c x Hx. rewrite cnt_elem.
    split; [intros Ho|intros Ha; apply (sf_leaving _ Hs c x Hx); lia].
    pose proof (sf_accounted _ Hs c x Hx Ho) as Ha. pose proof (sf_closed _ Hs) as [_ Hc]. rewrite Hclosed in Hc. destruct Hc as [Hc _].
    rewrite Hc in Ha. cbn in Ha. pose proof (sf_deferred _ Hs c). pose proof (probe_parts c (ps_probes s)).
    assert (Hp : probes_with probe_holds c (ps_probes s) = 0%nat).
    { destruct (decide (0 < probes_with probe_holds c (ps_probes s))%nat) as [Hpos|]; [|lia].
      destruct (cnt_flat_pos _ _ _ Hpos) as (p & y & Hp & Hy). rewrite (Hprobes p y Hp) in Hy. cbn in Hy. lia. }
    assert (Hr : dropping c s = 0%nat).
    { destruct (decide (0 < dropping c s)%nat) as [Hpos|]; [|lia].
      destruct (cnt_flat_pos _ _ _ Hpos) as (t & y & Ht & Hy). rewrite (Hrequests t y Ht) in Hy. cbn in Hy. lia. }
    assert (Hk : closing c s = 0%nat); [|lia].
    destruct (decide (0 < closing c s)%nat) as [Hpos|]; [|lia]. apply cnt_elem in Hpos.
    apply list_elem_of_In, in_concat in Hpos as (l & Hl & Hin). apply list_elem_of_In in Hl. rewrite (Hclosers l Hl) in Hin. done.
Qed.
End invariant.

(** ** Witnesses *)

(** What a run does, step by step; a step that cannot be taken is passed over. *)
Inductive Op := Arrives | Request (t : nat) (event : Event) | Asks | Probe (p : nat) (answers : bool) | Closes | Closing (k : nat)
  | ClosingRaises (k : nat) (closed : bool) | Ticks (d : nat).
Definition pool_op (size : nat) (timeout : Z) (s : PoolSystem) (op : Op) : PoolSystem :=
  match op with
  | Arrives => request_scope s
  | Request t event => default s (request_step size timeout t event s)
  | Asks => is_ready s
  | Probe p answers => default s (probe_step size p answers s)
  | Closes => close s
  | Closing k => default s (close_step k s)
  | ClosingRaises k closed => default s (close_raises k closed s)
  | Ticks d => tick (Z.of_nat d) s
  end.
Definition run (size : nat) (timeout : Z) (ops : list Op) (s : PoolSystem) : PoolSystem := foldl (pool_op size timeout) s ops.
Lemma run_steps size timeout ops s : rtc (pool_step size timeout) s (run size timeout ops s).
Proof.
  revert s. induction ops as [|op ops IH]; intros s; [done|]. etrans; [|apply IH]. destruct op as [|t event| |p answers| |k|k closed|d]; cbn.
  - apply rtc_once, step_arrives.
  - destruct (request_step _ _ _ _ _) eqn:E; [|done]. apply rtc_once. by eapply step_request.
  - apply rtc_once, step_asks.
  - destruct (probe_step _ _ _ _) eqn:E; [|done]. apply rtc_once. by eapply step_probe.
  - apply rtc_once, step_close.
  - destruct (close_step _ _) eqn:E; [|done]. apply rtc_once. by eapply step_closing.
  - destruct (close_raises _ _ _) eqn:E; [|done]. apply rtc_once. by eapply step_closing_raises.
  - apply rtc_once, step_tick. lia.
Qed.
Lemma run_reachable size timeout ops : reachable size timeout (run size timeout ops (new_pool size 0)).
Proof. exists 0. apply run_steps. Qed.

(** Two connections: a request serves on one, whose commit fails; a probe works on the other. *)
Definition busy_ops : list Op :=
  [Arrives; Request 0 Goes; Request 0 Goes; Request 0 (Uses true); Asks; Probe 0 true; Arrives; Request 1 Goes; Request 1 Goes].
Definition busy_pool : PoolSystem := run 2 10 busy_ops (new_pool 2 0).
Lemma pool_lease_sound_witness :
  ps_requests busy_pool = [Serving 0; Queued 0 10 false] ∧ ps_probes busy_pool = [Probing 1] ∧
  (length (sp_contexts (ps_pool busy_pool)) ≤ 2)%nat ∧ 0%nat ∉ ad_available (sp_admission (ps_pool busy_pool)).
Proof.
  destruct (pool_lease_sound 2 10 ltac:(lia) busy_pool (run_reachable 2 10 busy_ops)) as (_ & Hheld & _ & Hlen).
  split_and!; [vm_compute; reflexivity|vm_compute; reflexivity|exact Hlen|].
  assert (Hserves : ps_requests busy_pool !! 0%nat = Some (Serving 0)) by (vm_compute; reflexivity).
  destruct (Hheld 0%nat (Serving 0) 0%nat Hserves) as [Hfree _]; [left|exact Hfree].
Defined.
(** The pool is closed under them, and everybody finishes. *)
Definition closed_ops : list Op :=
  busy_ops ++ [Closes; Closing 0; Probe 0 true; Probe 0 true; Probe 0 true; Request 1 Goes; Request 0 Ends; Request 0 Goes; Request 0 Goes].
Definition closed_pool : PoolSystem := run 2 10 closed_ops (new_pool 2 0).
(** The same, when closing the service of the first raises. *)
Definition raised_pool : PoolSystem := run 3 10 (busy_ops ++ [Closes; ClosingRaises 0 false]) (new_pool 3 0).
Lemma pool_shutdown_sound_witness :
  sp_deferred (ps_pool (run 2 10 (busy_ops ++ [Closes]) (new_pool 2 0))) = [1%nat] ∧ length (ps_heap closed_pool) = 2%nat ∧
  (∀ c x, context_of c closed_pool = Some x → cx_open x = false) ∧ ps_abandoned raised_pool = [0%nat; 2%nat].
Proof.
  destruct (pool_shutdown_sound 2 10 ltac:(lia) closed_pool (run_reachable 2 10 closed_ops)) as [_ Hdone].
  assert (Hclosers : ps_closers closed_pool = [[]]) by (vm_compute; reflexivity).
  assert (Hprobes : ps_probes closed_pool = [Answered false]) by (vm_compute; reflexivity).
  assert (Hrequests : ps_requests closed_pool = [Finished; Finished]) by (vm_compute; reflexivity).
  assert (Hnone : ps_abandoned closed_pool = []) by (vm_compute; reflexivity).
  split; [vm_compute; reflexivity|]. split; [vm_compute; reflexivity|]. split; [|vm_compute; reflexivity].
  intros c x Hx. apply not_true_iff_false. rewrite (Hdone ltac:(vm_compute; reflexivity)); [|..|exact Hx].
  - rewrite Hnone. by intros ?%elem_of_nil.
  - rewrite Hclosers. intros l Hl. by apply list_elem_of_singleton in Hl.
  - rewrite Hprobes. intros [|p] y Hp; [by injection Hp as <-|done].
  - rewrite Hrequests. intros [|[|t]] y Ht; try (by injection Ht as <-); done.
Defined.
