(* ===== verification/SqlPoolLive.v ===== *)
(** * The connection pool does not stall

    Whoever waits for a lease has to: no wake-up is lost, and from every state
    the pool can be in while it is open a new request can still be served. *)
From S2P Require Import Prelude PyDict SqlPool SqlPoolSafe.

Section live.
Context (size : nat) (lease_timeout : Z).
Context (Hsize : (0 < size)%nat) (Htimeout : 0 < lease_timeout).
Abbreviation pool_step := (pool_step size lease_timeout).
Abbreviation request_step := (request_step size lease_timeout).
Abbreviation safe := (safe size).
Abbreviation admission s := (sp_admission (ps_pool s)).
Implicit Types (s : PoolSystem) (c t : nat).

(** ** The queue *)

Definition queued (at_ : RequestAt) : bool := match at_ with Queued _ _ _ => true | _ => false end.
(** The queue is the requests that wait, and one that sleeps would find nothing
    to do. *)
Record queue_ok s : Prop := {
  qu_once : NoDup (waiters s);
  qu_waiters t : t ∈ waiters s ↔ ∃ x, ps_requests s !! t = Some x ∧ queued x = true;
  qu_asleep t epoch deadline : ps_requests s !! t = Some (Queued epoch deadline false) →
    turn t epoch false (admission s) = Waits
}.
Lemma wake_queued x : queued (wake x) = queued x.
Proof. by destruct x. Qed.
(** After a notification nobody sleeps. *)
Lemma notify_queue s : NoDup (waiters s) → (∀ t, t ∈ waiters s ↔ ∃ x, ps_requests s !! t = Some x ∧ queued x = true) →
  queue_ok (notify_all s).
Proof.
  intros Honce Hw. split; cbn.
  - done.
  - intros t. rewrite Hw, list_lookup_fmap. split.
    + intros (x & Hx & Hq). exists (wake x). by rewrite Hx, wake_queued.
    + intros (y & Hy & Hq). destruct (ps_requests s !! t) as [x|]; [|done]. injection Hy as <-. exists x.
      by rewrite wake_queued in Hq.
  - intros t epoch deadline Hx. rewrite list_lookup_fmap in Hx. destruct (ps_requests s !! t) as [[]|]; done.
Qed.
(** A thread that is not in the queue moves on. *)
Lemma move_queue s t x y : queue_ok s → ps_requests s !! t = Some x → queued x = false → queued y = false →
  queue_ok (at_request t y s).
Proof.
  intros [Honce Hw Ha] Ht Hx Hy. split; cbn; [done|..].
  - intros u. rewrite Hw. destruct (decide (t = u)) as [->|Hne].
    + rewrite list_lookup_insert_eq by by eapply lookup_lt_Some. rewrite Ht.
      split; intros (z & [= <-] & Hz); congruence.
    + by rewrite list_lookup_insert_ne.
  - intros u e d Hu. destruct (decide (t = u)) as [->|Hne].
    + rewrite list_lookup_insert_eq in Hu by by eapply lookup_lt_Some. injection Hu as ->. done.
    + rewrite list_lookup_insert_ne in Hu by done. by eapply Ha.
Qed.
Lemma same_queue s s' : queue_ok s → ps_requests s' = ps_requests s → admission s' = admission s → queue_ok s'.
Proof. intros [Honce Hw Ha] Hr Had. split; intros *; rewrite ?Hr, ?Had; [exact Honce|apply Hw|apply Ha]. Qed.
(** Any change of the admission that leaves the queue alone, with a notification. *)
Lemma notified_queue s s' : queue_ok s → ps_requests s' = ps_requests s → waiters s' = waiters s → queue_ok (notify_all s').
Proof. intros [Honce Hw _] Hr Had. apply notify_queue; rewrite ?Had; [done|]. intros t. by rewrite Hr, Hw. Qed.
(** A thread that moves on after a notification. *)
Lemma move_notified s s' t x y : queue_ok s → ps_requests s' = ps_requests s → waiters s' = waiters s →
  ps_requests s !! t = Some x → queued x = false → queued y = false → queue_ok (at_request t y (notify_all s')).
Proof.
  intros Hs Hr Had Ht Hx Hy. apply (move_queue _ t (wake x)); [by apply (notified_queue s)| |by rewrite wake_queued|done].
  cbn. by rewrite list_lookup_fmap, Hr, Ht.
Qed.
Lemma turn_waits t epoch late a : turn t epoch late a = Waits → late = false.
Proof.
  unfold turn. destruct (_ || _); [done|]. destruct (ad_waiters a); [by destruct late|].
  destruct (ad_available a); [by destruct late|]. destruct (_ =? _)%nat; [done|by destruct late].
Qed.
(** A turn of a thread that is in the queue. *)
Lemma turn_queue s t epoch deadline : NoDup (waiters s) → (t < length (ps_requests s))%nat →
  (∀ u, u ∈ waiters s ↔ u = t ∨ ∃ x, ps_requests s !! u = Some x ∧ queued x = true) →
  (∀ u e d, u ≠ t → ps_requests s !! u = Some (Queued e d false) → turn u e false (admission s) = Waits) →
  queue_ok (acquire_turn t epoch deadline s).
Proof.
  intros Honce Hlt Hw Ha. unfold acquire_turn. destruct (turn t epoch _ (admission s)) as [|c|] eqn:Hturn.
  - rewrite at_notify by done. apply notify_queue; cbn.
    + by apply NoDup_ListNoDup, List.NoDup_filter, NoDup_ListNoDup.
    + intros u. rewrite list_elem_of_In, filter_In, <- list_elem_of_In, Hw, negb_true_iff, Nat.eqb_neq.
      destruct (decide (u = t)) as [->|Hne].
      * rewrite list_lookup_insert_eq by done. split; [by intros [_ ?]|by intros (x & [= <-] & ?)].
      * rewrite list_lookup_insert_ne by done. naive_solver.
  - rewrite at_notify by done. unfold turn in Hturn. destruct (_ || _); [done|].
    destruct (waiters s) as [|w ws] eqn:Hws; [by destruct (_ <=? _)|]. destruct (available s); [by destruct (_ <=? _)|].
    destruct (Nat.eqb_spec w t) as [->|]; [|by destruct (_ <=? _)]. apply NoDup_cons in Honce as [Hnot Honce].
    apply notify_queue; cbn; rewrite Hws; cbn; [done|]. intros u. specialize (Hw u). rewrite elem_of_cons in Hw.
    destruct (decide (u = t)) as [->|Hne].
    + rewrite list_lookup_insert_eq by done. split; [done|by intros (x & [= <-] & ?)].
    + rewrite list_lookup_insert_ne by done. naive_solver.
  - split; cbn; [done|..].
    + intros u. rewrite Hw. destruct (decide (u = t)) as [->|Hne].
      * rewrite list_lookup_insert_eq by done. split; [by eauto|by left].
      * rewrite list_lookup_insert_ne by done. naive_solver.
    + intros u e d Hu. destruct (decide (u = t)) as [->|Hne].
      * rewrite list_lookup_insert_eq in Hu by done. injection Hu as -> ->. pose proof (turn_waits _ _ _ _ Hturn) as Hl.
        by rewrite Hl in Hturn.
      * rewrite list_lookup_insert_ne in Hu by done. by eapply Ha.
Qed.
Lemma queue_request s t event s' : queue_ok s → request_step t event s = Some s' → queue_ok s'.
Proof.
  intros Hs. pose proof Hs as [Honce Hw Ha]. unfold SqlPool.request_step. destruct (ps_requests s !! t) as [at_|] eqn:Ht; [|done]. cbn.
  assert (Hmove : ∀ y s1, ps_requests s1 = ps_requests s → admission s1 = admission s → queued at_ = false → queued y = false →
    queue_ok (at_request t y s1)).
  { intros y s1 Hr Had Hx Hy. apply (move_queue s1 t at_); [by apply (same_queue s)|by rewrite Hr|done|done]. }
  assert (Hnote : ∀ y s1, ps_requests s1 = ps_requests s → waiters s1 = waiters s → queued at_ = false → queued y = false →
    queue_ok (at_request t y (notify_all s1))).
  { intros y s1 Hr Had Hx Hy. by apply (move_notified s s1 t at_). }
  assert (Hresume : ∀ after, queued (resume after) = false) by by intros [].
  assert (Hraise : ∀ after, queued (resume_raising after) = false) by by intros [].
  assert (Hdispose : ∀ c closed, ps_requests (dispose_raises c closed s) = ps_requests s ∧ admission (dispose_raises c closed s) = admission s)
    by by intros c [].
  destruct at_ as [after|generation after|c after| |epoch deadline notified|c|c|c|c|c|c|], event as [| |b|g| |closed]; try done; intros Hst.
  all: try (injection Hst as <-).
  - unfold replenish_begin. destruct (_ || _); by apply Hmove.
  - unfold build_succeeds. destruct (_ && _); [|by apply Hmove]. unfold publish. apply Hnote; try done.
    cbn. unfold add_lease. by destruct (ad_closed _).
  - unfold build_fails. by apply Hnote.
  - by apply Hmove.
  - by apply Hmove; [apply Hdispose..| |].
  - unfold acquire. apply turn_queue; cbn.
    + apply NoDup_app. split_and!; [done| |by apply NoDup_singleton]. intros u Hu ->%list_elem_of_singleton.
      apply Hw in Hu as (x & Hx & Hq). rewrite Ht in Hx. by injection Hx as <-.
    + rewrite length_map. by eapply lookup_lt_Some.
    + intros u. rewrite elem_of_app, list_elem_of_singleton, Hw, list_lookup_fmap. split.
      * intros [(x & Hx & Hq)| ->]; [|by left]. right. exists (wake x). by rewrite Hx, wake_queued.
      * intros [->|(y & Hy & Hq)]; [by right|left]. destruct (ps_requests s !! u) as [x|]; [|done]. injection Hy as <-.
        exists x. by rewrite wake_queued in Hq.
    + intros u e d _ Hu. rewrite list_lookup_fmap in Hu. destruct (ps_requests s !! u) as [[]|]; done.
  - destruct (_ || _); [|done]. injection Hst as <-. apply turn_queue; [done|by eapply lookup_lt_Some| |].
    + intros u. rewrite Hw. split; [by right|]. intros [->|?]; [|done]. by eexists.
    + intros u e d _. apply Ha.
  - by apply (same_queue s).
  - unfold quarantine_current_context. destruct (context_of c s); [|done]. destruct (_ || _); [done|].
    unfold expel, invalidate_waiters. by apply Hnote.
  - by apply Hmove.
  - by apply Hmove.
  - by apply Hmove; [apply Hdispose..| |].
  - unfold _reclaim. destruct (negb _); [by apply Hmove|]. destruct (_ && _); by apply Hmove.
  - unfold _reclaim. destruct (negb _); [by apply Hmove|]. destruct (_ && _); by apply Hmove.
  - destruct (_ && _); [|by apply Hmove]. unfold release. apply Hnote; try done. cbn. unfold add_lease. by destruct (ad_closed _).
  - unfold _retire. destruct (_ || _); [by apply Hmove|]. unfold expel, invalidate_waiters. by apply Hnote.
  - by apply Hmove.
Qed.
Lemma turn_fewer t epoch a c rest : ad_available a = c :: rest → turn t epoch false a = Waits →
  turn t epoch false (mkAdmission rest (ad_waiters a) (ad_closed a) (ad_accepting a) (ad_epoch a)) = Waits.
Proof.
  unfold turn. cbn. intros ->. destruct (_ || _); [done|]. destruct (ad_waiters a) as [|w ws]; [done|].
  destruct (w =? t)%nat; [done|]. by destruct rest.
Qed.
Lemma queue_probe s p answers s' : queue_ok s → probe_step size p answers s = Some s' → queue_ok s'.
Proof.
  intros Hs. unfold SqlPool.probe_step. destruct (ps_probes s !! p) as [[|c|c ready|c ready|]|]; try done; intros [= <-].
  - unfold borrow. destruct (_ || _); [by apply (same_queue s)|].
    destruct (available s) as [|c rest] eqn:Hav; [by apply (same_queue s)|]. destruct Hs as [Honce Hw Ha]. split; cbn; [done|done|]. intros t e d Ht. by apply (turn_fewer _ _ _ c rest), Ha with d.
  - by apply (same_queue s).
  - unfold _release_probe_context. destruct (_ && _); [|by apply (same_queue s)]. unfold release. rewrite at_probe_notify.
    apply (notified_queue s); try done. cbn. unfold add_lease. by destruct (ad_closed _).
  - by apply (same_queue s).
Qed.
Lemma queue_step s s' : queue_ok s → pool_step s s' → queue_ok s'.
Proof.
  intros Hs Hst. destruct Hst as [s|t event s s' Hst|s|p answers s s' Hst|p closed s s' Hst|older s|s|k s s' Hst|k closed s s' Hst|d s Hd];
    try (by eapply queue_request); try (by eapply queue_probe); try (by apply (same_queue s)).
  - destruct Hs as [Honce Hw Ha]. split; cbn; [done|..].
    + intros t. rewrite Hw. split; intros (x & Hx & Hq).
      * exists x. split; [by apply lookup_app_l_Some|done].
      * exists x. apply lookup_app_Some in Hx as [Hx|[_ Hx]]; [done|]. by destruct (t - _)%nat; [injection Hx as <-|].
    + intros t e d [Ht|[_ Ht]]%lookup_app_Some; [by eapply Ha|by destruct (t - _)%nat].
  - unfold probe_close_raises in Hst. destruct (ps_probes s !! p) as [[]|]; try done. injection Hst as <-.
    by destruct closed; apply (same_queue s).
  - unfold close. destruct (sp_closed _); [done|]. apply (same_queue (notify_all
      (on_admission shut (with_pool (mkPool [] (admission s) (sp_next_generation (ps_pool s)) (sp_build_in_flight (ps_pool s)) true
         (sp_probe_calls (ps_pool s)) (sp_deferred (ps_pool s))) s)))); try done.
    by apply (notified_queue s).
  - unfold close_step in Hst. destruct (ps_closers s !! k) as [[|c rest]|]; try done. injection Hst as <-. by apply (same_queue s).
  - unfold close_raises in Hst. destruct (ps_closers s !! k) as [[|c rest]|]; try done. injection Hst as <-.
    by destruct closed; apply (same_queue s).
Qed.
Lemma new_queue now : queue_ok (new_pool size now).
Proof. split; cbn; [by apply NoDup_nil_2| |done]. intros t. split; [by intros ?%elem_of_nil|by intros (x & ? & _)]. Qed.
Lemma reachable_queue s : reachable size lease_timeout s → queue_ok s.
Proof. intros [now Hst]. pose proof (new_queue now) as Hq. induction Hst; eauto using queue_step. Qed.

(** ** A new request can be served *)

Record sane s : Prop := { sn_safe : safe s; sn_queue : queue_ok s; sn_open : sp_closed (ps_pool s) = false }.
Lemma step_sane s s' : sane s → pool_step s s' → sp_closed (ps_pool s') = false → sane s'.
Proof. intros [Hs Hq _] Hst Ho. split; [by eapply step_safe|by eapply queue_step|done]. Qed.
Lemma open_adm s : sane s → ad_closed (admission s) = false.
Proof. intros Hs. destruct (sf_closed _ _ (sn_safe _ Hs)) as [Ha _]. by rewrite Ha, (sn_open _ Hs). Qed.

(** The request at the head of the queue leaves it, at its deadline if not before. *)
Lemma head_leaves s t ws : sane s → waiters s = t :: ws →
  ∃ s', rtc pool_step s s' ∧ sane s' ∧ (length (waiters s') < length (waiters s))%nat.
Proof.
  intros Hs Hw. destruct (proj1 (qu_waiters _ (sn_queue _ Hs) t)) as (x & Hx & Hq); [rewrite Hw; left|].
  destruct x as [| | | |epoch deadline n| | | | | | |]; try done. set (d := Z.max 0 (deadline - ps_now s)).
  set (s1 := tick d s). assert (Hs1 : sane s1) by (apply (step_sane s); [done|by apply step_tick; lia|apply Hs]).
  set (s2 := acquire_turn t epoch deadline s1).
  assert (Hstep : pool_step s1 s2).
  { apply (step_request _ _ t Goes). unfold SqlPool.request_step. cbn. rewrite Hx. cbn.
    rewrite (proj2 (Z.leb_le _ _)) by (unfold d; lia). by rewrite orb_true_r. }
  assert (Hless : sp_closed (ps_pool s2) = false ∧ (length (waiters s2) < length (waiters s))%nat).
  { unfold s2, acquire_turn. destruct (turn t epoch _ _) as [|c|] eqn:Hturn; cbn.
    - split; [apply Hs|]. apply (length_without_in t). rewrite Hw. cbn. rewrite one_refl. lia.
    - split; [apply Hs|]. rewrite Hw. cbn. lia.
    - apply turn_waits in Hturn. unfold s1, d in Hturn. cbn in Hturn. apply Z.leb_gt in Hturn. lia. }
  destruct Hless as [Ho Hl]. exists s2. split_and!; [|by apply (step_sane s1)|done].
  eapply rtc_l; [apply (step_tick _ _ d); lia|]. by apply rtc_once.
Qed.
Lemma drains s : sane s → ∃ s', rtc pool_step s s' ∧ sane s' ∧ waiters s' = [].
Proof.
  remember (length (waiters s)) as n eqn:Hn. revert s Hn. induction (lt_wf n) as [n _ IH]. intros s -> Hs.
  destruct (waiters s) as [|t ws] eqn:Hw; [by exists s|]. destruct (head_leaves s t ws Hs Hw) as (s1 & Hst & Hs1 & Hl).
  rewrite Hw in Hl. destruct (IH _ Hl s1 eq_refl Hs1) as (s2 & Hst2 & Hs2 & Hw2). exists s2. split_and!; [by etrans|done|done].
Qed.
(** A build that is under way ends, and its context is published. *)
Definition calm s : Prop := sane s ∧ waiters s = [] ∧ sp_build_in_flight (ps_pool s) = false.
Lemma built_one s t generation after : sane s → ps_requests s !! t = Some (Building generation after) →
  let s' := build_succeeds size t generation after s in
  request_step t Goes s = Some s' ∧ sp_closed (ps_pool s') = false ∧ sp_build_in_flight (ps_pool s') = false ∧
  waiters s' = waiters s ∧ ad_accepting (admission s') = true ∧ available s' ≠ [] ∧
  ps_requests s' !! t = Some (wake (resume after)) ∧ ad_epoch (admission s') = ad_epoch (admission s).
Proof.
  intros Hs Ht. destruct (builder size Hsize s t _ _ (sn_safe _ Hs) Ht) as (_ & Hroom & _).
  cbv zeta. unfold SqlPool.request_step. rewrite Ht. split; [done|]. unfold build_succeeds.
  cbn [ps_pool with_heap on_pool with_pool set_building sp_closed sp_contexts].
  rewrite (sn_open _ Hs), (proj2 (Nat.ltb_lt _ _) Hroom). cbn. unfold add_lease. rewrite (open_adm _ Hs). cbn.
  split_and!; try done.
  - by apply (sn_open _ Hs).
  - by destruct (available s).
  - rewrite list_lookup_insert_eq by (rewrite length_map; by eapply lookup_lt_Some). by destruct after.
Qed.
Lemma calms s : sane s → ∃ s', rtc pool_step s s' ∧ calm s'.
Proof.
  intros Hs. destruct (drains s Hs) as (s1 & Hst & Hs1 & Hw). destruct (sp_build_in_flight (ps_pool s1)) eqn:Hb; [|by exists s1].
  pose proof (sf_builds _ _ (sn_safe _ Hs1)) as Hbuilds. rewrite Hb in Hbuilds.
  destruct (cnt_flat_pos request_builds (ps_requests s1) 0) as (t & x & Ht & Hx); [unfold requests_with in Hbuilds; cbn in Hbuilds; lia|].
  destruct x; cbn in Hx; try lia. destruct (built_one s1 t _ _ Hs1 Ht) as (Hstep & Ho & Hb' & Hw' & _).
  eexists. split; [etrans; [exact Hst|]; apply rtc_once; by eapply step_request|].
  split; [eapply (step_sane s1); [done|by eapply step_request|done]|]. split; [by rewrite Hw'|done].
Qed.

(** With every context lent, one comes back, or leaves the pool and makes room. *)
Definition ready_or_room s : Prop := ad_accepting (admission s) = true ∧ available s ≠ [] ∨ (length (contexts s) < size)%nat.
Definition frees s : Prop := ∃ s', rtc pool_step s s' ∧ calm s' ∧ ready_or_room s'.
Definition full s c : Prop := calm s ∧ ad_accepting (admission s) = true ∧ (0 < cnt c (contexts s))%nat.
Lemma frees_step s s' : pool_step s s' → frees s' → frees s.
Proof. intros Hst (s2 & Hst2 & Hf). exists s2. split; [by eapply rtc_l|done]. Qed.
Lemma full_move s s' c : full s c → pool_step s s' → sp_closed (ps_pool s') = sp_closed (ps_pool s) →
  admission s' = admission s → contexts s' = contexts s → sp_build_in_flight (ps_pool s') = sp_build_in_flight (ps_pool s) → full s' c.
Proof.
  intros ((Hs & Hw & Hb) & Ha & Hc) Hst E1 E2 E3 E4. split; [split; [|split]|split]; rewrite ?E2, ?E3, ?E4; try done.
  apply (step_sane s); [done|done|]. rewrite E1. apply Hs.
Qed.
Lemma full_context s c : full s c → ∃ x, context_of c s = Some x ∧ cx_healthy x = true ∧ cx_closed x = false ∧ cx_open x = true ∧
  usable c s = true.
Proof.
  intros ((Hs & _) & _ & Hc). pose proof (sf_contexts _ _ (sn_safe _ Hs) c) as Hb.
  destruct (context_built size Hsize s c) as [x Hx]; [unfold built in *; destruct (_ <? _)%nat; lia|]. exists x.
  destruct (sf_sound _ _ (sn_safe _ Hs) c x Hx Hc) as (H1 & H2 & H3). split_and!; try done.
  unfold usable. rewrite Hx, H1, H2. by apply member_cnt.
Qed.
Lemma releasing_frees s t c : full s c → ps_requests s !! t = Some (Releasing c) → frees s.
Proof.
  intros Hf Ht. destruct (full_context s c Hf) as (x & _ & _ & _ & _ & Hu). destruct Hf as ((Hs & Hw & Hb) & Ha & Hc).
  assert (Hst : pool_step s (at_request t Finished (release c s))).
  { apply (step_request _ _ t Goes). unfold SqlPool.request_step. rewrite Ht. cbn. by rewrite (sn_open _ Hs), Hu. }
  exists (at_request t Finished (release c s)). split; [by apply rtc_once|]. pose proof (open_adm _ Hs) as Hadm.
  split; [split; [|split]|]; cbn; unfold add_lease; rewrite ?Hadm; cbn; try done.
  - eapply step_sane; [done|done|apply Hs].
  - left. split; cbn; unfold add_lease; rewrite Hadm; cbn; [done|]. by destruct (available s).
Qed.
Lemma reclaiming_frees s t c : full s c → ps_requests s !! t = Some (Reclaiming c) → frees s.
Proof.
  intros Hf Ht. destruct (full_context s c Hf) as (x & Hx & _ & _ & Ho & _).
  assert (Hlt : (t < length (ps_requests s))%nat) by by eapply lookup_lt_Some.
  assert (Hst : pool_step s (_reclaim t c true s)) by (apply (step_request _ _ t Goes); unfold SqlPool.request_step; by rewrite Ht).
  apply (frees_step _ _ Hst). unfold _reclaim, can_roll_back in *. rewrite Hx, Ho in *. destruct (negb _).
  - eapply (releasing_frees _ t c); [by apply (full_move s)|]. cbn. by rewrite list_lookup_insert_eq.
  - eapply (releasing_frees _ t c); [by apply (full_move s)|]. cbn. by rewrite list_lookup_insert_eq.
Qed.
Lemma serving_frees s t c : full s c → ps_requests s !! t = Some (Serving c) → frees s.
Proof.
  intros Hf Ht. assert (Hlt : (t < length (ps_requests s))%nat) by by eapply lookup_lt_Some.
  assert (Hst : pool_step s (at_request t (Reclaiming c) s)) by (apply (step_request _ _ t Ends); unfold SqlPool.request_step; by rewrite Ht).
  apply (frees_step _ _ Hst), (reclaiming_frees _ t c); [by apply (full_move s)|]. cbn. by rewrite list_lookup_insert_eq.
Qed.
Lemma held_frees s t x c : full s c → (size <= length (contexts s))%nat → ps_requests s !! t = Some x →
  (0 < cnt c (request_holds x))%nat → frees s.
Proof.
  intros Hf Hfull Ht Hx. pose proof Hf as ((Hs & Hw & Hb) & Ha & Hc). assert (Hlt : (t < length (ps_requests s))%nat) by by eapply lookup_lt_Some.
  pose proof (sf_drops _ _ (sn_safe _ Hs) c) as Hd. pose proof (requests_at request_drops c _ t x Ht) as Hdx.
  assert (Hmove : ∀ s', pool_step s s' → sp_closed (ps_pool s') = sp_closed (ps_pool s) → admission s' = admission s →
    contexts s' = contexts s → sp_build_in_flight (ps_pool s') = sp_build_in_flight (ps_pool s) →
    ps_requests s' !! t = Some (Serving c) → frees s').
  { intros s' Hst E1 E2 E3 E4 E5. apply (serving_frees _ t c); [by apply (full_move s)|done]. }
  destruct x as [after|g after|d after| |e dl n|d|d|d|d|d|d|]; cbn in Hx, Hdx; try lia.
  - destruct after as [|d|]; cbn in Hx; try lia. assert (c = d) as <- by (apply one_eq; lia).
    assert (Hst : pool_step s (at_request t (Serving c) s)).
    { apply (step_request _ _ t Goes). unfold SqlPool.request_step. rewrite Ht. cbn. unfold replenish_begin.
      by rewrite (proj2 (Nat.leb_le _ _) Hfull), orb_true_r. }
    apply (frees_step _ _ Hst), Hmove; try done. cbn. by rewrite list_lookup_insert_eq.
  - destruct (builder size Hsize s t _ _ (sn_safe _ Hs) Ht) as (Hbt & _). congruence.
  - destruct after as [|d'|]; cbn in Hx; try lia. assert (c = d') as <- by (apply one_eq; lia).
    assert (Hst : pool_step s (at_request t (Serving c) (on_context d dispose s))).
    { apply (step_request _ _ t Goes). unfold SqlPool.request_step. by rewrite Ht. }
    apply (frees_step _ _ Hst), Hmove; try done. cbn. by rewrite list_lookup_insert_eq.
  - assert (c = d) as <- by (apply one_eq; lia). by apply (serving_frees _ t c).
  - assert (c = d) as <- by (apply one_eq; lia). by apply (reclaiming_frees _ t c).
  - assert (c = d) as <- by (apply one_eq; lia). by apply (releasing_frees _ t c).
  - assert (c = d) as <- by (apply one_eq; lia). destruct (full_context s c Hf) as (x & Hcx & _ & Hcl & _).
    assert (Hst : pool_step s (at_request t (Dropping c) (expel c s))).
    { apply (step_request _ _ t Goes). unfold SqlPool.request_step. rewrite Ht. cbn. unfold _retire. rewrite Hcx, Hcl.
      by rewrite (proj2 (member_cnt c _) Hc). }
    eexists. split; [by apply rtc_once|]. split; [split; [eapply step_sane; [done|done|apply Hs]|done]|].
    right. cbn. pose proof (length_without_in c _ Hc). pose proof (sf_size _ _ (sn_safe _ Hs)). lia.
Qed.
Lemma lent_frees s p y c : full s c → ps_probes s !! p = Some y → (0 < cnt c (probe_holds y))%nat → frees s.
Proof.
  intros Hf Hp Hy. pose proof Hf as ((Hs & Hw & Hb) & Ha & Hc). assert (Hlt : (p < length (ps_probes s))%nat) by by eapply lookup_lt_Some.
  assert (Hreturn : ∀ s' r, full s' c → ps_probes s' !! p = Some (Returning c r) → frees s').
  { intros s' r Hf' Hp'. destruct (full_context s' c Hf') as (x & Hx & H1 & H2 & H3 & Hu). destruct Hf' as ((Hs' & Hw' & Hb') & Ha' & Hc').
    assert (Hst : pool_step s' (_release_probe_context p c r s')) by (apply (step_probe _ _ p true); unfold SqlPool.probe_step; by rewrite Hp').
    pose proof (open_adm _ Hs') as Hadm. exists (_release_probe_context p c r s'). split; [by apply rtc_once|].
    revert Hst. unfold _release_probe_context. cbn [ps_pool on_pool with_pool set_probes sp_closed]. change (usable c (on_pool ?g s')) with (usable c s').
    rewrite (sn_open _ Hs'), Hu. cbn [negb andb]. intros Hst.
    split; [split; [eapply step_sane; [done|done|apply Hs']|split]|left; split]; cbn; unfold add_lease; rewrite ?Hadm; cbn; try done.
    by destruct (available s'). }
  destruct y as [|d|d r|d r|]; cbn in Hy; try lia; assert (c = d) as <- by (apply one_eq; lia).
  - assert (Hst : pool_step s (at_probe p (Returning c (check_result c true s)) s)) by
      (apply (step_probe _ _ p true); unfold SqlPool.probe_step; by rewrite Hp).
    apply (frees_step _ _ Hst), (Hreturn _ (check_result c true s)); [by apply (full_move s)|]. cbn. by rewrite list_lookup_insert_eq.
  - by apply (Hreturn s r).
  - destruct (sf_closed _ _ (sn_safe _ Hs)) as [_ Hcl]. rewrite (sn_open _ Hs) in Hcl. destruct Hcl as (_ & _ & Hd).
    pose proof (probes_at probe_drops c _ p _ Hp) as Hone. cbn in Hone. rewrite one_refl in Hone. specialize (Hd c). lia.
Qed.
Lemma calm_frees s : calm s → frees s.
Proof.
  intros Hcalm. pose proof Hcalm as (Hs & Hw & Hb). destruct (decide (length (contexts s) < size)%nat) as [Hroom|Hfull].
  { exists s. split; [done|]. split; [done|by right]. }
  destruct (ad_accepting (admission s)) eqn:Ha; [|pose proof (sf_accepting _ _ (sn_safe _ Hs) (sn_open _ Hs) Ha); lia].
  destruct (decide (available s = [])) as [Hav|Hav]; [|exists s; split; [done|]; split; [done|by left]].
  destruct (contexts s) as [|c l] eqn:Hl; [cbn in Hfull; lia|].
  assert (Hc : (0 < cnt c (contexts s))%nat) by (rewrite Hl; cbn; rewrite one_refl; lia).
  pose proof (sf_held _ _ (sn_safe _ Hs) c (sn_open _ Hs)) as Hh. unfold holders in Hh. rewrite Hav in Hh. cbn in Hh.
  assert (Hf : full s c) by done. rewrite <- Hl in Hfull.
  destruct (decide (0 < requests_with request_holds c (ps_requests s))%nat) as [Hr|Hr].
  - destruct (cnt_flat_pos _ _ _ Hr) as (t & x & Ht & Hx). apply (held_frees s t x c); try done. lia.
  - destruct (cnt_flat_pos probe_holds (ps_probes s) c) as (p & y & Hp & Hy); [unfold probes_with in Hh; lia|]. by apply (lent_frees s p y c).
Qed.

(** A request that comes to a calm pool is served. *)
Lemma newcomer_served s : calm s → ready_or_room s →
  ∃ s' c, rtc pool_step (request_scope s) s' ∧ ps_requests s' !! length (ps_requests s) = Some (Serving c).
Proof.
  intros (Hs & Hw & Hb) Hready. set (t := length (ps_requests s)). set (s1 := request_scope s).
  assert (Hs1 : sane s1) by (apply (step_sane s); [done|apply step_arrives|apply Hs]).
  assert (Hadmit : ∀ s2, sane s2 → waiters s2 = [] → ad_accepting (admission s2) = true → available s2 ≠ [] →
    ps_requests s2 !! t = Some Admitting → ∃ s' c, rtc pool_step s2 s' ∧ ps_requests s' !! t = Some (Serving c)).
  { intros s2 Hs2 Hw2 Ha2 Hav2 Ht2. destruct (available s2) as [|c rest] eqn:Hav; [done|]. exists (acquire lease_timeout t s2), c.
    split; [apply rtc_once, (step_request _ _ t Goes); unfold SqlPool.request_step; by rewrite Ht2|].
    unfold acquire, acquire_turn, turn. cbn. rewrite (open_adm _ Hs2), Ha2, Nat.eqb_refl, Hw2, Hav. cbn. rewrite Nat.eqb_refl. cbn.
    rewrite list_lookup_insert_eq; [done|]. rewrite !length_map. by eapply lookup_lt_Some. }
  assert (Ht : ps_requests s1 !! t = Some (Replenishing ThenAdmit)) by (unfold s1, t; cbn; by rewrite list_lookup_middle).
  assert (Hlt : (t < length (ps_requests s1))%nat) by by eapply lookup_lt_Some.
  assert (Hst : pool_step s1 (replenish_begin size t ThenAdmit s1)).
  { apply (step_request _ _ t Goes). unfold SqlPool.request_step. by rewrite Ht. }
  revert Hst. unfold replenish_begin. cbn [s1 ps_pool request_scope with_requests]. rewrite (sn_open _ Hs), Hb. cbn [orb].
  destruct (Nat.leb_spec size (length (contexts s))) as [Hfull|Hroom]; intros Hst.
  - destruct Hready as [[Ha Hav]|?]; [|lia]. destruct (Hadmit (at_request t (resume ThenAdmit) s1)) as (s' & c & Hst' & Hc);
      [eapply step_sane; [exact Hs1|exact Hst|apply Hs]|done..|cbn; by rewrite list_lookup_insert_eq|].
    exists s', c. split; [by eapply rtc_l|done].
  - set (s2 := at_request t _ _) in Hst. assert (Hs2 : sane s2) by (eapply step_sane; [exact Hs1|exact Hst|apply Hs]).
    assert (Ht2 : ps_requests s2 !! t = Some (Building (sp_next_generation (ps_pool s)) ThenAdmit)) by (unfold s2; cbn; by rewrite list_lookup_insert_eq).
    destruct (built_one s2 t _ _ Hs2 Ht2) as (Hst3 & Ho3 & Hb3 & Hw3 & Ha3 & Hav3 & Ht3 & _).
    destruct (Hadmit (build_succeeds size t (sp_next_generation (ps_pool s)) ThenAdmit s2)) as (s' & c & Hst' & Hc);
      [eapply step_sane; [exact Hs2|by eapply step_request|done]|by rewrite Hw3|done..|].
    exists s', c. split; [|done]. eapply rtc_l; [exact Hst|]. eapply rtc_l; [by eapply step_request|done].
Qed.

(** C22: The pool does not stall: a request that sleeps in the queue has to, since it is not at the head or nothing is
    available, while the pool is open and accepting, so that no wake-up is ever lost; and no fault latches, since from
    every state the pool reaches while it is open, however many connections failed, were retired, or could not be
    rebuilt, there is a continuation in which a new request is served. *)
Theorem pool_does_not_stall s : reachable size lease_timeout s →
  (∀ t epoch deadline, ps_requests s !! t = Some (Queued epoch deadline false) →
     ad_closed (admission s) = false ∧ ad_accepting (admission s) = true ∧ epoch = ad_epoch (admission s) ∧
     (head (waiters s) ≠ Some t ∨ available s = [])) ∧
  (sp_closed (ps_pool s) = false → ∃ s1 s2 c, rtc pool_step s s1 ∧ rtc pool_step (request_scope s1) s2 ∧
     ps_requests s2 !! length (ps_requests s1) = Some (Serving c)).
Proof.
  intros Hr. pose proof (pool_reachable_safe _ _ Hsize s Hr) as Hsafe. pose proof (reachable_queue s Hr) as Hq. split.
  - intros t epoch deadline Ht. pose proof (qu_asleep _ Hq t epoch deadline Ht) as Hwait. unfold turn in Hwait.
    destruct (_ || _) eqn:Hok; [done|]. apply orb_false_iff in Hok as [[Hcl Hac%negb_false_iff]%orb_false_iff He%negb_false_iff].
    apply Nat.eqb_eq in He. split_and!; try done. destruct (waiters s) as [|w ws]; [by left|]. destruct (available s) as [|c rest]; [by right|].
    left. intros [= ->]. by rewrite Nat.eqb_refl in Hwait.
  - intros Ho. destruct (calms s) as (s1 & Hst1 & Hcalm); [done|]. destruct (calm_frees s1 Hcalm) as (s2 & Hst2 & Hc2 & Hready).
    destruct (newcomer_served s2 Hc2 Hready) as (s3 & c & Hst3 & Hserved). exists s2, s3, c. split_and!; [by etrans|done|done].
Qed.
End live.

(** Every connection is lost, a rebuild has failed, and a request sleeps behind another in the queue. *)
Definition lost_ops : list Op :=
  [Arrives; Request 0 Goes; Request 0 Goes; Request 0 (Uses true); Arrives; Request 1 Goes; Request 1 Goes;
   Request 0 Ends; Request 0 Fails; Request 0 Goes; Request 1 Goes; Request 0 Goes; Request 0 Goes; Request 0 Fails].
Definition lost_pool : PoolSystem := run 1 10 lost_ops (new_pool 1 0).
Lemma pool_does_not_stall_witness :
  sp_contexts (ps_pool lost_pool) = [] ∧ ad_accepting (sp_admission (ps_pool lost_pool)) = false ∧
  ∃ s1 s2 c, rtc (pool_step 1 10) lost_pool s1 ∧ rtc (pool_step 1 10) (request_scope s1) s2 ∧
    ps_requests s2 !! length (ps_requests s1) = Some (Serving c).
Proof.
  split; [vm_compute; reflexivity|]. split; [vm_compute; reflexivity|].
  destruct (pool_does_not_stall 1 10 ltac:(lia) lost_pool (run_reachable 1 10 lost_ops)) as [_ Hserved].
  apply Hserved. vm_compute. reflexivity.
Defined.
