(* ===== verification/ServerGate.v ===== *)
(** * The server's gate, its labels and its bodies

    A request over the limit never reaches the service; the liveness probe is
    never refused; the labels of the metrics are the server's own, whatever is
    requested; a body is read up to its cap. *)
From S2P Require Import Prelude PyStr PyDict PyTime Models ServiceModels Sha256 Pop World Json.
From S2P Require Import V1Enforce Grants SubjectTokens AutoApproval Service Ratelimit Http V1Http BoundaryHttp.
From S2P Require Import GrantHttp RequestHttp AuditHttp IdemCrypto IdemStorage IdemHttp Oidc Metrics.
From S2P Require Import Readiness HttpServer Repositories AuditWriter.

(** ** Bodies *)

(** A body is read up to what its request declares, and never beyond the cap:
    however much its sender goes on sending, what the server makes of the body
    depends on nothing after the declared length or the first 64 KiB, whichever
    comes first, and a request that declares more is refused as too large without
    being read at all. *)
Theorem body_read_bounded int_unicode rq rq' n :
  rq_headers rq' = rq_headers rq →
  py_int int_unicode (str_or_else (get_header "Content-Length" rq) "0") = Ok n →
  String.substring 0 (Z.to_nat (Z.min n MAX_BODY_BYTES)) (rq_stream rq') =
    String.substring 0 (Z.to_nat (Z.min n MAX_BODY_BYTES)) (rq_stream rq) →
  _read_json_body int_unicode rq' = _read_json_body int_unicode rq ∧
  (MAX_BODY_BYTES < n → _read_json_body int_unicode rq = inl payload_too_large).
Proof.
  intros Hh Hn Hs. unfold _read_json_body. unfold get_header, get_all in *. rewrite Hh, Hn.
  destruct (Z.ltb_spec n 0); [split; [done|unfold MAX_BODY_BYTES; lia]|].
  destruct (Z.ltb_spec MAX_BODY_BYTES n); [done|]. rewrite Hs. split; [done|lia].
Qed.
Definition posted (headers : list (string * string)) (stream : string) : Request :=
  mkRequest "POST" "/v1/grants" headers stream "10.0.0.1" 0 1000000.
Lemma body_read_bounded_witness :
  _read_json_body no_unicode_int (posted [("content-length", "65537")] "{}") = inl payload_too_large ∧
  _read_json_body no_unicode_int (posted [("Content-Length", "2")] "{}") = inr (JObj []) ∧
  ∀ more, _read_json_body no_unicode_int (posted [("Content-Length", "2")] ("{}" ^+ more)) =
          _read_json_body no_unicode_int (posted [("Content-Length", "2")] "{}").
Proof.
  split; [|split; [by vm_compute|]].
  - apply (body_read_bounded no_unicode_int (posted [("content-length", "65537")] "{}")
      (posted [("content-length", "65537")] "{}") 65537); by vm_compute.
  - intros more. apply (body_read_bounded no_unicode_int (posted [("Content-Length", "2")] "{}")
      (posted [("Content-Length", "2")] ("{}" ^+ more)) 2); [done|by vm_compute|by destruct more].
Defined.

(** ** Labels *)

(** Every label the server gives a route. *)
Definition ROUTE_LABELS : list string :=
  "other" :: _EXACT_ROUTES ++ _COLLECTION_ROUTES ++ map (λ c, c ^+ "/:id") _COLLECTION_ROUTES.
Lemma route_label_known path : _route_label path ∈ ROUTE_LABELS.
Proof.
  unfold _route_label, ROUTE_LABELS. destruct (existsb (String.eqb path) _EXACT_ROUTES) eqn:E.
  - apply existsb_exists in E as (r & Hr & Heq). apply String.eqb_eq in Heq as ->.
    right. apply elem_of_app. left. by apply list_elem_of_In.
  - clear E. assert (Hall : ∀ l, collection_label path l = "other" ∨
      ∃ c, c ∈ l ∧ (collection_label path l = c ∨ collection_label path l = c ^+ "/:id")).
    { induction l as [|c l IH]; [by left|]. cbn. destruct (path == c).
      - right. exists c. split; [left|by left].
      - destruct (startswith path (c ^+ "/")).
        + right. exists c. split; [left|by right].
        + destruct IH as [IH|(d & Hd & IH)]; [by left|]. right. exists d. split; [by right|done]. }
    destruct (Hall _COLLECTION_ROUTES) as [->|(c & Hc & [->| ->])]; [left|..]; right; apply elem_of_app; right;
      apply elem_of_app; [by left|right; by apply (list_elem_of_fmap_2 (λ c, c ^+ "/:id"))].
Qed.
(** The served route without a label of its own. *)
Example simulate_has_no_label : _route_label "/v1/simulate" = "other".
Proof. reflexivity. Qed.

(** The routes named in metrics and in the access log. *)
Definition key_labelled (key : label_key) : Prop := ∀ v, ("path", v) ∈ key.2 → v ∈ ROUTE_LABELS.
Definition labelled (m : Metrics) : Prop :=
  Forall key_labelled (dkeys (_counters m)) ∧ Forall key_labelled (dkeys (_histograms m)).
Lemma dset_keys {V} (Q : label_key → Prop) k (v : V) d :
  Q k → Forall Q (dkeys d) → Forall Q (dkeys (dset k v d)).
Proof.
  intros Hk. induction d as [|[k' v'] d IH]; cbn; [by repeat constructor|].
  intros [Hk' Hd]%Forall_cons. case_decide; cbn; constructor; auto.
Qed.
Lemma sorted_labelled name l : key_labelled (name, l) → key_labelled (name, sorted_labels l).
Proof. intros Hl v Hv. apply Hl. cbn in *. unfold sorted_labels in Hv. by rewrite py_sorted_perm in Hv. Qed.
Lemma increment_labelled name n l m : key_labelled (name, l) → labelled m → labelled (increment name n l m).
Proof. intros Hl [Hc Hh]. split; [|done]. cbn. apply dset_keys; [by apply sorted_labelled|done]. Qed.
Lemma observe_labelled name n l m : key_labelled (name, l) → labelled m → labelled (observe name n l m).
Proof. intros Hl [Hc Hh]. split; [done|]. cbn. apply dset_keys; [by apply sorted_labelled|done]. Qed.

Section server.
Context {St : Type} `{V1Service St} `{BoundaryAdminService St} `{GrantLifecycleService St}.
Context `{GrantRequestService St} `{AutoApprovalAdminService St} `{AuditReadService St} `{AuthFailureReadService St}.
Context (int_unicode : string → result Z) (set_order : list string → list string) (new_rule_id : M St string).
Context (options : Options (S:=St)) {Address Network : Type}.
Context (ip_address : string → option Address) (str_address : Address → string)
  (in_network : Address → Network → bool) (len : string → nat) (show_total : Z → string).
Context (trusted_proxies : list Network) (request_scope : M St Sent → M St Sent).
Abbreviation dispatch := (_dispatch int_unicode set_order new_rule_id options ip_address str_address in_network
  len show_total trusted_proxies request_scope).
Abbreviation Sv := (Server (S:=St)).

Lemma observe_metrics_labelled rq sent m : labelled m → labelled (observe_metrics rq sent m).
Proof.
  intros Hm. unfold observe_metrics.
  assert (Hpath : ∀ name l, (∀ v, ("path", v) ∈ l → v = _route_label (path_of rq)) → key_labelled (name, l)).
  { intros name l Hl v Hv. rewrite (Hl v Hv). apply route_label_known. }
  assert (Hm1 : labelled (observe "vinctor_http_request_duration_seconds" (rq_elapsed rq)
    [("method", rq_method rq); ("path", _route_label (path_of rq))]
    (increment "vinctor_http_requests_total" 1
       [("method", rq_method rq); ("path", _route_label (path_of rq));
        ("status", pretty (ps_status_code (sn_response sent)))] m))).
  { apply observe_labelled, increment_labelled; [..|done]; apply Hpath; intros v Hv;
      repeat (apply elem_of_cons in Hv as [Hv|Hv]; [by simplify_eq|]); by apply elem_of_nil in Hv. }
  assert (Hm2 : ∀ m', labelled m' → labelled (if 400 <=? ps_status_code (sn_response sent)
    then increment "vinctor_http_errors_total" 1
           [("method", rq_method rq); ("path", _route_label (path_of rq));
            ("status", pretty (ps_status_code (sn_response sent)));
            ("error", str_or_else (ob_error_code (ps_observation (sn_response sent))) "unknown")] m' else m')).
  { intros m' Hm'. destruct (400 <=? _); [|done]. apply increment_labelled; [|done]. apply Hpath. intros v Hv.
    repeat (apply elem_of_cons in Hv as [Hv|Hv]; [by simplify_eq|]). by apply elem_of_nil in Hv. }
  apply Hm2 in Hm1. destruct (ob_decision _) as [decision|]; [|exact Hm1].
  destruct (_ || _); [|exact Hm1]. apply increment_labelled; [|exact Hm1]. intros v Hv.
  apply elem_of_cons in Hv as [Hv|Hv]; [by simplify_eq|]. by apply elem_of_nil in Hv.
Qed.
(** What a request may do to what the server keeps beside the service. *)
Lemma dispatch_observed rq (sv : Sv) :
  (sv_metrics (dispatch rq sv).2 = sv_metrics sv ∧ sv_access_log (dispatch rq sv).2 = sv_access_log sv) ∨
  ∃ sent, (dispatch rq sv).1 = Ok sent ∧
    sv_metrics (dispatch rq sv).2 = observe_metrics rq sent <$> sv_metrics sv ∧
    sv_access_log (dispatch rq sv).2 = (λ lines, lines ++ [mkAccessLine (rq_method rq) (_route_label (path_of rq))
      (ps_status_code (sn_response sent)) (rq_elapsed rq) (ob_decision (ps_observation (sn_response sent)))
      (ob_error_code (ps_observation (sn_response sent)))]) <$> sv_access_log sv.
Proof.
  unfold _dispatch. set (body := try_except _ _).
  assert (Hkept : sv_metrics (body sv).2 = sv_metrics sv ∧ sv_access_log (body sv).2 = sv_access_log sv).
  { unfold body, try_except, mbind, M_bind. unfold _check_rate_limit.
    destruct (sv_limiter sv) as [limiter|].
    2: { cbn. unfold _handle_request. destruct (_ (sv_service sv)) as [[sent|e] s]; cbn; [done|].
         by destruct (bool_decide _). }
    destruct (_ && _); [cbn; unfold _handle_request; destruct (_ (sv_service sv)) as [[sent|e] s]; cbn; [done|];
      by destruct (bool_decide _)|].
    destruct (resolve_rate_limit_source _ _ _ _ _ _ _ _) as [source|e].
    2: { cbn. unfold _handle_request. destruct (_ (sv_service sv)) as [[sent|e'] s]; cbn; [done|].
         by destruct (bool_decide _). }
    destruct (allow source (rq_time rq) limiter) as [[ok|e] l]; [destruct ok; [|done]|]; cbn;
      unfold _handle_request; destruct (_ (sv_service _)) as [[sent|e'] s]; cbn; try done;
      by destruct (bool_decide _). }
  destruct (body sv) as [[sent|e] sv1]; cbn in *; destruct Hkept as [Hm Hl].
  - right. exists sent. by rewrite Hm, Hl.
  - by left.
Qed.
Definition dispatch_all (requests : list Request) (sv : Sv) : Sv :=
  foldl (λ sv rq, (dispatch rq sv).2) sv requests.

(** No request writes a label: whatever paths are requested, with whatever
    identifiers in them, the paths in the metrics and in the access log are the
    route templates of the server, of which there are nineteen, so that requests
    can neither grow the metrics without bound nor have their own text in them. *)
Theorem metrics_labels_fixed requests (sv : Sv) :
  (∀ m, sv_metrics sv = Some m → labelled m) →
  (∀ lines, sv_access_log sv = Some lines → Forall (λ line, al_path line ∈ ROUTE_LABELS) lines) →
  (∀ m, sv_metrics (dispatch_all requests sv) = Some m → labelled m) ∧
  (∀ lines, sv_access_log (dispatch_all requests sv) = Some lines →
     Forall (λ line, al_path line ∈ ROUTE_LABELS) lines).
Proof.
  revert sv. induction requests as [|rq requests IH]; intros sv Hm Hl; [done|]. cbn. apply IH.
  - intros m Hm'. destruct (dispatch_observed rq sv) as [[E _]|(sent & _ & E & _)]; rewrite E in Hm'; [by apply Hm|].
    destruct (sv_metrics sv) as [m0|]; [|done]. injection Hm' as <-. by apply observe_metrics_labelled, Hm.
  - intros lines Hl'. destruct (dispatch_observed rq sv) as [[_ E]|(sent & _ & _ & E)]; rewrite E in Hl'; [by apply Hl|].
    destruct (sv_access_log sv) as [lines0|]; [|done]. injection Hl' as <-. apply Forall_app. split; [by apply Hl|].
    constructor; [apply route_label_known|constructor].
Qed.

(** ** The gate *)

(** Whom the limiter counts the request against. *)
Definition source_of (rq : Request) : result string :=
  resolve_rate_limit_source ip_address str_address in_network strip len (rq_peer rq)
    match get_all "X-Forwarded-For" rq with [] => None | values => Some (join "," values) end trusted_proxies.
Definition exempt (rq : Request) : bool :=
  (rq_method rq == "GET") && existsb (String.eqb (path_of rq)) RATE_LIMIT_EXEMPT_PATHS.

(** C20: Over the limit, a request gets nothing but the refusal: it is answered 429
    with a body that discloses nothing else, and the service is not touched, no
    connection is leased for it and its body is not read; it is observed like any
    other.  The liveness probe alone is answered whatever the limiter says, from
    nothing but the configured mode, without consuming any budget and without
    touching the service either. *)
Theorem gate_protects_service rq (sv : Sv) limiter :
  sv_limiter sv = Some limiter →
  (exempt rq = false → ∀ source l', source_of rq = Ok source → allow source (rq_time rq) limiter = (Ok false, l') →
     dispatch rq sv = (Ok _send_rate_limited, _observe rq _send_rate_limited (set_limiter (Some l') sv))) ∧
  (exempt rq = true →
     let alive := _send_json (health_response "GET" (so_service_mode options)) in
     dispatch rq sv = (Ok alive, _observe rq alive sv)).
Proof.
  intros Hl. split.
  - intros He source l' Hs Ha. unfold _dispatch, try_except, mbind, M_bind, _check_rate_limit. rewrite Hl.
    unfold exempt in He. rewrite He. unfold source_of in Hs. rewrite Hs, Ha. done.
  - intros He. cbv zeta. unfold _dispatch, try_except, mbind, M_bind, _check_rate_limit. rewrite Hl.
    unfold exempt in He. rewrite He. apply andb_true_iff in He as [Hmethod Hpath].
    apply String.eqb_eq in Hmethod. cbn in Hpath. rewrite orb_false_r in Hpath. apply String.eqb_eq in Hpath.
    cbn [negb]. unfold _handle_request, _needs_database, route, path_of in *. rewrite Hmethod.
    destruct (urlsplit (rq_path rq)) as [path query]. cbn in Hpath. subst path. cbn. by destruct sv.
Qed.
End server.

(** ** A concrete server *)
Module SampleServer.
Definition Service : Type := World InMemoryGrantRepository InMemoryAuditWriter.
#[export] Instance service : V1Service Service := sample_service.
(** No authentication failures are listed. *)
#[export] Instance failures : AuthFailureReadService Service := {| afs_list_auth_failures _ := mret [] |}.
(** An executor that keeps no results. *)
Definition run_once (i : IdempotencyInvocation) (m : M Service CacheableTerminalOutcome) :
    M Service PreSerializedHttpResponse := outcome ← m; mret (co_response outcome).
Definition options : Options (S:=Service) :=
  mkOptions sample_agents sample_workspaces sample_workspaces sample_peps [] None None (mret 5) "local" None
    (Some run_once) [].
Definition handle (rq : Request) : M (Server (S:=Service)) Sent :=
  _dispatch no_unicode_int (λ l, l) (_new_id "apr") options Some (λ a, a) (λ _ _ : string, false) String.length
    pretty [] (λ m, m) rq.
Definition full : FixedWindowRateLimiter := mkLimiter 2 60 100 [("10.0.0.1", (0, 2))].
Definition server : Server (S:=Service) := mkServer own_world (Some full) (Some new_metrics) (Some []).
Definition get (path : string) : Request := mkRequest "GET" path [("X-Workspace-Key", "wsk_1")] "" "10.0.0.1" 3 7000000.
End SampleServer.
#[local] Existing Instances SampleServer.service SampleServer.failures.
Lemma gate_protects_service_witness :
  (SampleServer.handle (SampleServer.get "/v1/grants") SampleServer.server).1 = Ok _send_rate_limited ∧
  sv_service (SampleServer.handle (SampleServer.get "/v1/grants") SampleServer.server).2 = own_world ∧
  (SampleServer.handle (SampleServer.get "/healthz") SampleServer.server).1 =
    Ok (_send_json (health_response "GET" "local")).
Proof.
  destruct (gate_protects_service no_unicode_int (λ l, l) (_new_id "apr") SampleServer.options Some (λ a, a)
    (λ _ _ : string, false) String.length pretty [] (λ m, m) (SampleServer.get "/v1/grants") SampleServer.server
    SampleServer.full eq_refl) as [Hover _].
  destruct (gate_protects_service no_unicode_int (λ l, l) (_new_id "apr") SampleServer.options Some (λ a, a)
    (λ _ _ : string, false) String.length pretty [] (λ m, m) (SampleServer.get "/healthz") SampleServer.server
    SampleServer.full eq_refl) as [_ Halive].
  unfold SampleServer.handle. rewrite (Hover eq_refl "10.0.0.1" SampleServer.full eq_refl eq_refl).
  by rewrite (Halive eq_refl).
Defined.
Lemma metrics_labels_fixed_witness :
  ∃ m, sv_metrics (SampleServer.handle (SampleServer.get "/v1/grants/grt_1/../../other") SampleServer.server).2 =
    Some m ∧ labelled m.
Proof.
  pose proof (metrics_labels_fixed no_unicode_int (λ l, l) (_new_id "apr") SampleServer.options Some (λ a, a)
    (λ _ _ : string, false) String.length pretty [] (λ m, m) [SampleServer.get "/v1/grants/grt_1/../../other"]
    SampleServer.server) as Hfixed.
  unfold dispatch_all in Hfixed. cbn [foldl] in Hfixed. fold (SampleServer.handle (SampleServer.get "/v1/grants/grt_1/../../other")) in Hfixed.
  destruct Hfixed as [Hm _].
  - intros m [= <-]. split; constructor.
  - intros lines [= <-]. constructor.
  - destruct (sv_metrics (SampleServer.handle (SampleServer.get "/v1/grants/grt_1/../../other") SampleServer.server).2)
      as [m|] eqn:E; [|vm_compute in E; discriminate].
    exists m. split; [done|]. by apply Hm.
Defined.
