(* ===== verification/ServerIdem.v ===== *)
(** * A mutation under an idempotency key is the mutation

    The routes that accept an [Idempotency-Key] give the executor, under a key,
    exactly what they run without one: the same identity, the same checks of the
    body, the same operation of the service, the same response. *)
From S2P Require Import Prelude PyStr PyDict PyTime Models ServiceModels Sha256 Pop World Json.
From S2P Require Import V1Enforce Grants SubjectTokens AutoApproval Service Ratelimit Http V1Http BoundaryHttp.
From S2P Require Import GrantHttp RequestHttp AuditHttp IdemCrypto IdemStorage IdemHttp Oidc Metrics.
From S2P Require Import Readiness HttpServer Repositories AuditWriter TenantHttp ServerGate.

Section server.
Context {St : Type} `{V1Service St} `{BoundaryAdminService St} `{GrantLifecycleService St}.
Context `{GrantRequestService St} `{AutoApprovalAdminService St} `{AuditReadService St} `{AuthFailureReadService St}.
Context (int_unicode : string → result Z) (set_order : list string → list string) (new_rule_id : M St string).
Context (options : Options (S:=St)).
(** The executor is any: what the one of [IdemExecutor.v] does with the mutation and
    the invocation it is given is the subject of that file's theorems. *)
Context (execute : IdempotencyInvocation → M St CacheableTerminalOutcome → M St PreSerializedHttpResponse).
Context (Hexecute : so_execute options = Some execute).
Context (Hworkspaces : steady (so_workspaces options)) (Hagents : steady (so_agents options)).

Section request.
Context (keys : list string).
(** Whether the route is one that takes a key, and whom the request's own credential
    authenticates there. *)
Context (keyed_route : Prop) (whose : Z → M St (option AuthenticatedIdempotencyScope)).







End request.


End server.

(** ** Witness *)
#[local] Existing Instances SampleServer.service SampleServer.failures.
