(* ===== verification/IdemSqlite.v ===== *)
(** * Idempotent requests on SQLite
      ([src/vinctor_service/idempotency_sqlite.py],
      [idempotency_sqlite_completion.py], [idempotency_sqlite_executor.py],
      [idempotency_sqlite_result_storage.py], the checks at start-up of
      [sqlite.py] and [idempotency_readiness.py])

    The executor runs a mutation once per idempotency key: it looks the key up,
    reserves a nonce, claims it, and then runs the mutation and stores its sealed
    response in one transaction. *)
From S2P Require Import Prelude PyStr PyDict Models Sha256 Pop World Json.
From S2P Require Import IdemCrypto IdemStorage IdemRows SqlTxn SqlRows SqlStore.

(** ** Statements on the tables *)

Definition idem_select {X} (f : IdemDb → X) : M Store X := select idem_table f.
Definition idem_statement {X} (st : IdemDb → result (X * IdemDb)) : M Store X := statement idem_table st.
(** [SELECT CAST(strftime('%s', 'now') AS INTEGER)] *)
Definition read_clock : M Store Z :=
  on_local (λ l, (Ok (ck_source (l_clock l) (ck_read (l_clock l))), l_tick l)).
Definition token_bytes (nbytes : nat) : M Store string := draw nbytes.

(** [except sqlite3.Error: raise e'] *)
Definition storage_error_as {X} (e' : pyexc) (m : M Store X) : M Store X :=
  try_except m (λ e, match e with StorageError _ => raise e' | e => raise e end).
Definition on_row (p : cipher_nonce_row → bool) (f : cipher_nonce_row → cipher_nonce_row)
    (db : IdemDb) : IdemDb := set_nonces (map (λ r, if p r then f r else r) (i_nonces db)) db.
(** An UPDATE of the rows [p] selects: refused when a row breaks a constraint. *)
Definition update_versions (p : key_version_row → bool) (f : key_version_row → key_version_row)
    (db : IdemDb) : result (Z * IdemDb) :=
  if existsb (λ r, p r && negb (key_version_check (f r))) (i_versions db) then Raise constraint_failed
  else Ok (Z.of_nat (length (List.filter p (i_versions db))),
           set_versions (map (λ r, if p r then f r else r) (i_versions db)) db).

(** ** Result storage *)

Definition owns (invocation : IdempotencyInvocation) (reservation : CryptoReservation)
    (r : cipher_nonce_row) : bool :=
  bool_decide ((cnr_cipher_key_version r, cnr_slot r, cnr_nonce r, cnr_reserved_at_epoch r) =
               ledger_identity reservation)
  && bool_decide (cnr_owner r = reservation_owner_identity invocation).
(** The reservation's row joined with its key version. *)
Definition require_sqlite_reservation_authentic (invocation : IdempotencyInvocation)
    (reservation : CryptoReservation) : M Store (option Z) :=
  row ← idem_select (λ db,
    r ← List.find (owns invocation reservation) (i_nonces db);
    v ← version_row_of (cnr_cipher_key_version r) db;
    Some (kvr_write_disabled_epoch v, kvr_retired_epoch v, cnr_claimed_at_epoch r));
  match row with
  | Some (None, None, claimed_at_epoch) => mret claimed_at_epoch
  | _ => raise IdempotencyWriteUnavailable
  end.
Definition sqlite_result_uses_reservation_nonce (reservation : CryptoReservation) : M Store bool :=
  idem_select (λ db, existsb (uses_nonce (cr_version reservation) (cr_nonce reservation)) (i_results db)).
Definition cnr_claim (now_epoch : Z) (r : cipher_nonce_row) : cipher_nonce_row :=
  mkCipherNonceRow (cnr_cipher_key_version r) (cnr_slot r) (cnr_nonce r) (cnr_reserved_at_epoch r)
    (cnr_owner r) (Some now_epoch).
Definition claimable (invocation : IdempotencyInvocation) (reservation : CryptoReservation)
    (db : IdemDb) (r : cipher_nonce_row) : bool :=
  owns invocation reservation r && bool_decide (cnr_claimed_at_epoch r = None)
  && negb (existsb (uses_nonce (cnr_cipher_key_version r) (cnr_nonce r)) (i_results db)).
Definition claim_sqlite_reservation (invocation : IdempotencyInvocation)
    (reservation : CryptoReservation) (now_epoch : Z) : M Store unit :=
  rowcount ← idem_statement (λ db,
    let claims := claimable invocation reservation db in
    if existsb (λ r, claims r && negb (cipher_nonce_check (cnr_claim now_epoch r))) (i_nonces db)
    then Raise constraint_failed
    else Ok (Z.of_nat (length (List.filter claims (i_nonces db))), on_row claims (cnr_claim now_epoch) db));
  if negb (rowcount =? 1) then raise IdempotencyWriteUnavailable else mret tt.
Definition sqlite_database_epoch : M Store Z := read_clock.
Definition stored_result (invocation : IdempotencyInvocation) (db : IdemDb) : option CompletedResultRecord :=
  rrw_record <$> List.find (of_identity (result_identity invocation)) (i_results db).
Definition load_sqlite_result (invocation : IdempotencyInvocation) : M Store (option CompletedResultRecord) :=
  idem_select (stored_result invocation).
Definition delete_sqlite_result (invocation : IdempotencyInvocation) : M Store unit :=
  idem_statement (λ db, Ok (tt, set_results (List.filter
    (λ r, negb (of_identity (result_identity invocation) r)) (i_results db)) db)).
Definition insert_sqlite_result (invocation : IdempotencyInvocation) (outcome : CacheableTerminalOutcome)
    (envelope : EncryptedResponseEnvelope) (now_epoch expires_at_epoch : Z) : M Store unit :=
  idem_statement (insert_result (mkResultRow (result_identity invocation)
    (mkCompletedResultRecord (inv_request_fingerprint invocation) (env_format_version envelope)
       (ps_status_code (co_response outcome)) (env_version envelope) (env_nonce envelope)
       (env_ciphertext envelope) now_epoch expires_at_epoch))).

(** ** The store *)
Section store.
Context `{AesGcm} (keyring : option IdempotencyKeyring).

Definition database_epoch : M Store Z := storage_error_as IdempotencyResultUnavailable read_clock.
Definition lookup (invocation : IdempotencyInvocation) (now_epoch : Z) : M Store IdempotencyLookupResult :=
  row ← idem_select (stored_result invocation);
  lift (classify_completed_result invocation row keyring now_epoch).

(** A failed COMMIT is ambiguous; the connection must not be in a transaction. *)
Definition ambiguous_commit (e : pyexc) : pyexc :=
  match e with StorageError _ => AmbiguousCommitError | e => e end.
Definition _transaction {X} (m : M Store X) : M Store X :=
  open ← gets in_transaction;
  if open : bool then raise IdempotencyWriteUnavailable else transaction_or ambiguous_commit m.

Definition _HardLimitReached : pyexc := ServiceError "_HardLimitReached".
Definition _NonceCollision : pyexc := ServiceError "_NonceCollision".

Definition kvr_state (r : key_version_row) : IdempotencyKeyVersionState :=
  mkIdempotencyKeyVersionState (kvr_version_label r) (kvr_reserved_encryption_slots r)
    (kvr_first_seen_epoch r) (kvr_soft_limit_reported_epoch r) (kvr_write_disabled_epoch r)
    (kvr_write_disabled_reason r) (kvr_drain_completed_epoch r) (kvr_retired_epoch r).
Definition _key_version_state (version : string) : M Store IdempotencyKeyVersionState :=
  row ← idem_select (version_row_of version);
  match row with
  | None => raise IdempotencyWriteUnavailable
  | Some row => mret (kvr_state row)
  end.
Definition kvr_disable (now_epoch : Z) (reason : string) (r : key_version_row) : key_version_row :=
  mkKeyVersionRow (kvr_version_label r) (kvr_key_commitment r) (kvr_reserved_encryption_slots r)
    (kvr_first_seen_epoch r) (kvr_soft_limit_reported_epoch r)
    (Some (default now_epoch (kvr_write_disabled_epoch r)))
    (Some (default reason (kvr_write_disabled_reason r)))
    (kvr_drain_completed_epoch r) (kvr_retired_epoch r).
Definition _write_disable (version reason : string) (now_epoch : Z) : M Store unit :=
  _transaction (
    _ ← idem_statement (update_versions
      (λ r, (kvr_version_label r == version) && bool_decide (kvr_retired_epoch r = None))
      (kvr_disable now_epoch reason));
    mret tt).
Definition write_disable (version reason : string) : M Store unit :=
  now_epoch ← database_epoch;
  storage_error_as IdempotencyWriteUnavailable (_write_disable version reason now_epoch).

Definition kvr_reserve (r : key_version_row) : key_version_row :=
  mkKeyVersionRow (kvr_version_label r) (kvr_key_commitment r) (kvr_reserved_encryption_slots r + 1)
    (kvr_first_seen_epoch r) (kvr_soft_limit_reported_epoch r) (kvr_write_disabled_epoch r)
    (kvr_write_disabled_reason r) (kvr_drain_completed_epoch r) (kvr_retired_epoch r).
Definition kvr_report (now_epoch : Z) (r : key_version_row) : key_version_row :=
  mkKeyVersionRow (kvr_version_label r) (kvr_key_commitment r) (kvr_reserved_encryption_slots r)
    (kvr_first_seen_epoch r) (Some now_epoch) (kvr_write_disabled_epoch r)
    (kvr_write_disabled_reason r) (kvr_drain_completed_epoch r) (kvr_retired_epoch r).
Definition reservable (version : string) (r : key_version_row) : bool :=
  (kvr_version_label r == version) && bool_decide (kvr_write_disabled_epoch r = None)
  && bool_decide (kvr_retired_epoch r = None) && (kvr_reserved_encryption_slots r <? HARD_SLOT_LIMIT).
(** The UPDATE with RETURNING: the slots after it, when it updated a row. *)
Definition reserve_slot (version : string) : M Store (option Z) :=
  idem_statement (λ db,
    '(_, db') ← update_versions (reservable version) kvr_reserve db;
    Ok (r ← List.find (reservable version) (i_versions db); Some (kvr_reserved_encryption_slots r + 1), db')).
Definition reserve_in_transaction (invocation : IdempotencyInvocation) (version : string)
    (now_epoch : Z) : M Store (Z * string) :=
  slots ← reserve_slot version;
  match slots with
  | None =>
      state ← _key_version_state version;
      if (HARD_SLOT_LIMIT <=? vs_reserved_encryption_slots state)
         && bool_decide (vs_write_disabled_epoch state = None)
         && bool_decide (vs_retired_epoch state = None)
      then raise _HardLimitReached else raise IdempotencyWriteUnavailable
  | Some slots =>
      _ ← (if SOFT_SLOT_LIMIT <=? slots
           then _ ← idem_statement (update_versions
                  (λ r, (kvr_version_label r == version)
                        && bool_decide (kvr_soft_limit_reported_epoch r = None)) (kvr_report now_epoch));
                mret tt
           else mret tt);
      nonce ← token_bytes NONCE_BYTES;
      if negb (String.length nonce =? NONCE_BYTES)%nat then raise IdempotencyWriteUnavailable
      else
        inserted ← idem_statement (insert_or_ignore_nonce
          (mkCipherNonceRow version slots nonce now_epoch (reservation_owner_identity invocation) None));
        if negb (inserted =? 1) then raise _NonceCollision else mret (slots, nonce)
  end.
Definition reserve_nonce (invocation : IdempotencyInvocation) (now_epoch : Z) : M Store CryptoReservation :=
  match keyring with
  | None => raise IdempotencyWriteUnavailable
  | Some keyring =>
      let version := active_version keyring in
      '(slots, nonce) ← try_except (_transaction (reserve_in_transaction invocation version now_epoch))
        (λ e,
          if decide (e = _HardLimitReached)
          then _ ← _write_disable version "hard_limit" now_epoch; raise IdempotencyWriteUnavailable
          else if decide (e = _NonceCollision)
          then _ ← _write_disable version "nonce_collision" now_epoch; raise IdempotencyWriteUnavailable
          else match e with
               | StorageError _ => raise IdempotencyWriteUnavailable
               | e => raise e
               end);
      mret (mkCryptoReservation version slots nonce now_epoch)
  end.

(** The row of a registration must carry its commitment. *)
Definition _register_keyring : M Store unit :=
  match keyring with
  | None => mret tt
  | Some keyring =>
      storage_error_as IdempotencyWriteUnavailable (_transaction (for_each (λ registration,
        first_seen ← read_clock;
        _ ← idem_statement (λ db,
          match insert_key_version (mkKeyVersionRow (kg_version registration) (kg_commitment registration)
                  0 first_seen None None None None None) db with
          | Ok x => Ok x
          | Raise _ => Ok (tt, db)
          end);
        row ← idem_select (version_row_of (kg_version registration));
        match row with
        | Some row =>
            if negb (kvr_key_commitment row == kg_commitment registration)
            then raise IdempotencyWriteUnavailable else mret tt
        | None => raise IdempotencyWriteUnavailable
        end) (registrations keyring)))
  end.

(** ** Completion *)

Definition _encrypt_outcome (invocation : IdempotencyInvocation) (reservation : CryptoReservation)
    (outcome : CacheableTerminalOutcome) (now_epoch expires_at_epoch : Z) :
    result EncryptedResponseEnvelope :=
  match keyring with
  | None => Raise IdempotencyWriteUnavailable
  | Some keyring =>
      match decryption_key (cr_version reservation) keyring with
      | None => Raise IdempotencyWriteUnavailable
      | Some key =>
          aad ← build_response_aad (mkResponseAadInput ENVELOPE_FORMAT_VERSION
            (inv_workspace_id invocation) (inv_principal invocation) (inv_operation invocation)
            (inv_key_hash invocation) (inv_request_fingerprint invocation)
            (ps_status_code (co_response outcome)) JSON_CONTENT_TYPE (cr_version reservation)
            now_epoch expires_at_epoch);
          plaintext ← encode_response_plaintext (co_response outcome);
          encrypt_reserved_response key reservation plaintext aad
      end
  end.
Section completion.
Context (invocation : IdempotencyInvocation) (reservation : CryptoReservation).
Context (mutation : M Store CacheableTerminalOutcome).
Definition run_and_store (record : option CompletedResultRecord) (now_epoch : Z) :
    M Store PreSerializedHttpResponse :=
  _ ← match record with Some _ => delete_sqlite_result invocation | None => mret tt end;
  outcome ← mutation;
  let expires_at_epoch := terminal_expiry_epoch invocation now_epoch (co_replay_not_after_epoch outcome) in
  if expires_at_epoch <=? now_epoch then mret (co_response outcome)
  else
    envelope ← lift (_encrypt_outcome invocation reservation outcome now_epoch expires_at_epoch);
    if negb (env_nonce envelope == cr_nonce reservation)
       || negb (env_version envelope == cr_version reservation)
    then raise IdempotencyCipherUnavailableError
    else
      _ ← insert_sqlite_result invocation outcome envelope now_epoch expires_at_epoch;
      mret (co_response outcome).
Definition _complete_in_transaction : M Store PreSerializedHttpResponse :=
  claimed_at_epoch ← require_sqlite_reservation_authentic invocation reservation;
  match claimed_at_epoch with
  | None => raise IdempotencyWriteUnavailable
  | Some _ =>
      now_epoch ← sqlite_database_epoch;
      record ← load_sqlite_result invocation;
      used ← sqlite_result_uses_reservation_nonce reservation;
      if used : bool then raise IdempotencyWriteUnavailable
      else
        classified ← lift (classify_completed_result invocation record keyring now_epoch);
        match classified with
        | IdempotencyReplayCandidate response => mret response
        | IdempotencyProceedToReservation => run_and_store record now_epoch
        end
  end.
(** A failure to begin or in the body is no write; one of the COMMIT is ambiguous. *)
Definition complete_sqlite_result : M Store PreSerializedHttpResponse :=
  storage_error_as IdempotencyWriteUnavailable (atomic_write_or ambiguous_commit _complete_in_transaction).
Definition claim_and_complete_sqlite_result : M Store PreSerializedHttpResponse :=
  found ← try_except (now_epoch ← database_epoch; lookup invocation now_epoch)
    (λ e, if decide (e = IdempotencyResultUnavailable) then raise IdempotencyWriteUnavailable else raise e);
  match found with
  | IdempotencyReplayCandidate response => mret response
  | IdempotencyProceedToReservation =>
      _ ← storage_error_as IdempotencyWriteUnavailable (_transaction (
        now_epoch ← sqlite_database_epoch;
        claim_sqlite_reservation invocation reservation now_epoch));
      complete_sqlite_result
  end.
End completion.
Definition complete := claim_and_complete_sqlite_result.

Definition gc_sqlite_results (limit : Z) : M Store Z :=
  let bounded_limit := Z.max 0 (Z.min limit 100) in
  if bounded_limit =? 0 then mret 0
  else _atomic_write (
    now_epoch ← sqlite_database_epoch;
    rows ← idem_select (λ db, take (Z.to_nat bounded_limit)
      (List.filter (λ r, rec_expires_at_epoch (rrw_record r) <=? now_epoch) (i_results db)));
    _ ← for_each (λ row,
      let '(workspace_id, principal, operation, key_hash) := rrw_identity row in
      let invocation := mkIdempotencyInvocation workspace_id principal operation key_hash
                          (rec_request_fingerprint (rrw_record row)) 86400 in
      classified ← lift (classify_completed_result invocation (Some (rrw_record row)) keyring now_epoch);
      match classified with
      | IdempotencyProceedToReservation => delete_sqlite_result invocation
      | IdempotencyReplayCandidate _ => mret tt
      end) rows;
    mret (Z.of_nat (length rows))).

(** ** The executor *)

(** [reporter]: the ambiguity reporter, when one is bound, and whether it fails. *)
Definition execute_idempotent (reporter : option (M Store unit)) (invocation : IdempotencyInvocation)
    (mutation : M Store CacheableTerminalOutcome) : M Store PreSerializedHttpResponse :=
  try_except
    (now_epoch ← database_epoch;
     found ← lookup invocation now_epoch;
     match found with
     | IdempotencyReplayCandidate response => mret response
     | IdempotencyProceedToReservation =>
         reservation ← reserve_nonce invocation now_epoch;
         complete invocation reservation mutation
     end)
    (λ e,
      if decide (e = AmbiguousCommitError) then
        _ ← match reporter with
            | Some report => try_except report (λ _, raise IdempotencyWriteUnavailable)
            | None => mret tt
            end;
        raise IdempotencyWriteUnavailable
      else raise e).

(** ** Readiness and start-up *)

Definition readiness_state (nonce_counts : key_version_row → Z) (r : key_version_row) :
    KeyVersionReadinessState :=
  mkKeyVersionReadinessState (kvr_version_label r) (bool_decide (is_Some (kvr_write_disabled_epoch r)))
    (bool_decide (is_Some (kvr_retired_epoch r))) (kvr_reserved_encryption_slots r) (nonce_counts r).
Definition nonce_count (version : string) (db : IdemDb) : Z :=
  Z.of_nat (length (List.filter (λ n, cnr_cipher_key_version n == version) (i_nonces db))).
Definition registry_of (db : IdemDb) : list IdempotencyKeyRegistration :=
  map (λ r, mkIdempotencyKeyRegistration (kvr_version_label r) (kvr_key_commitment r)) (i_versions db).
Definition required_versions (db : IdemDb) : list string :=
  map (λ r, rec_cipher_key_version (rrw_record r)) (i_results db).
(** The keyring agrees with the registry, and the active key can write. *)
Definition sqlite_idempotency_ready (exact_nonce_counts : bool) (db : IdemDb) : result bool :=
  _ ← validate_startup_compatibility keyring (registry_of db) (required_versions db);
  Ok (idempotency_readiness
    match keyring with Some k => version_labels k | None => [] end
    (required_versions db) (active_version <$> keyring)
    (map (readiness_state (λ r, if exact_nonce_counts then nonce_count (kvr_version_label r) db
                               else kvr_reserved_encryption_slots r)) (i_versions db)) false).
Definition _register_sqlite_idempotency_keyring (exact_nonce_counts : bool) : M Store unit :=
  try_except (_atomic_write (
    _ ← match keyring with
        | None => mret tt
        | Some keyring => for_each (λ registration,
            first_seen ← read_clock;
            idem_statement (λ db,
              if bool_decide (is_Some (version_row_of (kg_version registration) db)) then Ok (tt, db)
              else insert_key_version (mkKeyVersionRow (kg_version registration)
                     (kg_commitment registration) 0 first_seen None None None None None) db))
            (registrations keyring)
        end;
    ready ← (db ← idem_select id; lift (sqlite_idempotency_ready exact_nonce_counts db));
    if negb ready then raise IdempotencyKeyringConfigError else mret tt))
    (λ e, if decide (e = constraint_failed) then raise IdempotencyKeyringConfigError else raise e).
End store.
