(* ===== verification/IdemLifecycle.v ===== *)
(** * The lifecycle of sealing keys
      ([src/vinctor_service/idempotency_lifecycle.py],
      [idempotency_lifecycle_sqlite.py],
      [idempotency_lifecycle_sqlite_maintenance.py])

    An operator disables a key version for writing, records that its writers are
    gone, and retires it when no response sealed under it may still be replayed.
    The operations act on the database through a connection of their own and take
    the locks of [IdemLock.v]. *)
From S2P Require Import Prelude PyStr PyDict Models Sha256 Pop World Json.
From S2P Require Import IdemCrypto IdemStorage IdemRows SqlTxn SqlRows SqlStore IdemSqlite IdemLock.

Definition IDEMPOTENCY_REMOVAL_WINDOW_SECONDS : Z := 86400 + 300.
Definition _ROTATION_REASON : string := "rotation".
Definition IdempotencyLifecycleRejected (reason : string) : pyexc :=
  ServiceError ("IdempotencyLifecycleRejected: " ^+ reason).
Definition zero_bytes (b : Z) : string := string_of (repeat b 32).
Definition _PROBE_INVOCATION : IdempotencyInvocation :=
  mkIdempotencyInvocation "lifecycle" "operator" "idempotency.lifecycle.probe.v1" (zero_bytes 0)
    (zero_bytes 1) 86400.

Record IdempotencyLifecycleStatus := mkIdempotencyLifecycleStatus {
  ls_version : string;
  ls_commitment_identifier : string;
  ls_reserved_encryption_slots : Z;
  ls_write_disabled_reason : option string;
  ls_write_disabled_epoch : option Z;
  ls_drain_completed_epoch : option Z;
  ls_retired_epoch : option Z;
  ls_local_active_version : string;
  ls_required_historical_versions : list string
}.
Record IdempotencyRetirementRequest := mkIdempotencyRetirementRequest {
  rr_version : string;
  rr_confirm_removal_window : bool
}.
Record SQLiteRetirementUpdate := mkSQLiteRetirementUpdate {
  ru_version : string;
  ru_active_version : string
}.

(** ** What the operations do to the database *)

(** [except sqlite3.Error: raise IdempotencyLifecycleUnavailable] *)
Definition lifecycle_errors {X} (m : M Store X) : M Store X := storage_error_as IdempotencyLifecycleUnavailable m.
Definition of_version (version : string) (r : key_version_row) : bool := kvr_version_label r == version.
Definition kvr_live (r : key_version_row) : bool :=
  bool_decide (kvr_write_disabled_epoch r = None) && bool_decide (kvr_retired_epoch r = None).

Definition kvr_rotate (now_epoch : Z) (reason : string) (r : key_version_row) : key_version_row :=
  mkKeyVersionRow (kvr_version_label r) (kvr_key_commitment r) (kvr_reserved_encryption_slots r)
    (kvr_first_seen_epoch r) (kvr_soft_limit_reported_epoch r) (Some now_epoch) (Some reason)
    (kvr_drain_completed_epoch r) (kvr_retired_epoch r).
Definition disable_version (version reason : string) : M Store unit :=
  lifecycle_errors (_atomic_write (
    now_epoch ← read_clock;
    _ ← idem_statement (update_versions (λ r, of_version version r && kvr_live r) (kvr_rotate now_epoch reason));
    mret tt)).
Definition kvr_drain (now_epoch : Z) (r : key_version_row) : key_version_row :=
  mkKeyVersionRow (kvr_version_label r) (kvr_key_commitment r) (kvr_reserved_encryption_slots r)
    (kvr_first_seen_epoch r) (kvr_soft_limit_reported_epoch r) (kvr_write_disabled_epoch r)
    (kvr_write_disabled_reason r) (Some (default now_epoch (kvr_drain_completed_epoch r))) (kvr_retired_epoch r).
Definition drainable (version : string) (r : key_version_row) : bool :=
  of_version version r && bool_decide (is_Some (kvr_write_disabled_epoch r))
  && bool_decide (kvr_retired_epoch r = None).
Definition record_drain (version : string) : M Store unit :=
  lifecycle_errors (_atomic_write (
    now_epoch ← read_clock;
    _ ← idem_statement (update_versions (drainable version) (kvr_drain now_epoch));
    mret tt)).

Definition kvr_retire (now_epoch : Z) (r : key_version_row) : key_version_row :=
  mkKeyVersionRow (kvr_version_label r) (kvr_key_commitment r) (kvr_reserved_encryption_slots r)
    (kvr_first_seen_epoch r) (kvr_soft_limit_reported_epoch r) (kvr_write_disabled_epoch r)
    (kvr_write_disabled_reason r) (kvr_drain_completed_epoch r) (Some (default now_epoch (kvr_retired_epoch r))).
Definition sealed_under (version : string) (r : result_row) : bool :=
  rec_cipher_key_version (rrw_record r) == version.
Definition retirable (update : SQLiteRetirementUpdate) (now_epoch : Z) (db : IdemDb) (r : key_version_row) : bool :=
  of_version (ru_version update) r
  && bool_decide (is_Some (kvr_write_disabled_epoch r))
  && match kvr_drain_completed_epoch r with
     | Some drained => drained + IDEMPOTENCY_REMOVAL_WINDOW_SECONDS <=? now_epoch
     | None => false
     end
  && negb (existsb (sealed_under (ru_version update)) (i_results db))
  && existsb (λ x, of_version (ru_active_version update) x && kvr_live x) (i_versions db).
Definition parsed_invocation (row : result_row) : IdempotencyInvocation :=
  let '(workspace_id, principal, operation, key_hash) := rrw_identity row in
  mkIdempotencyInvocation workspace_id principal operation key_hash
    (rec_request_fingerprint (rrw_record row)) 86400.

Section backend.
Context `{AesGcm} `{OsPaths} (keyring : IdempotencyKeyring).

(** Whether unexpired results remain. *)
Definition retire_in_transaction (update : SQLiteRetirementUpdate) : M Store bool :=
  now_epoch ← read_clock;
  rows ← idem_select (λ db, List.filter (sealed_under (ru_version update)) (i_results db));
  if existsb (λ row, now_epoch <? rec_expires_at_epoch (rrw_record row)) rows then mret true
  else
    _ ← for_each (λ row,
      _ ← lift (authenticate_completed_result (parsed_invocation row) (rrw_record row) (Some keyring));
      delete_sqlite_result (parsed_invocation row)) rows;
    now_epoch ← read_clock;
    rowcount ← idem_statement (λ db, update_versions (retirable update now_epoch db) (kvr_retire now_epoch) db);
    if negb (rowcount =? 1) then raise IdempotencyLifecycleUnavailable else mret false.
Definition retire_lifecycle_version (update : SQLiteRetirementUpdate) : M Store unit :=
  unexpired_results_remain ← lifecycle_errors (try_except (_atomic_write (retire_in_transaction update))
    (λ e, if decide (e = IdempotencyResultUnavailable) then raise IdempotencyLifecycleUnavailable else raise e));
  if unexpired_results_remain : bool then raise (IdempotencyLifecycleRejected "unexpired_results_remain")
  else mret tt.

(** ** The SQLite backend *)

(** A connection of the operator's process, the system, and the file of the
    backend's own attestation. *)
Record Lifecycle := mkLifecycle { lc_conn : Store; lc_os : Os; lc_writer_file : option Handle }.
Definition on_conn {X} (m : M Store X) : M Lifecycle X := λ s,
  let '(r, conn) := m (lc_conn s) in (r, mkLifecycle conn (lc_os s) (lc_writer_file s)).
Definition on_attestation {X} (m : M Attesting X) : M Lifecycle X := λ s,
  let '(r, att) := m (mkAttesting (lc_os s) (lc_writer_file s)) in
  (r, mkLifecycle (lc_conn s) (at_os att) (at_writer_file att)).
Definition on_system {X} (m : M Os X) : M Lifecycle X := on_attestation (on_os m).
(** An operation of an attestation made for the occasion. *)
Definition on_new_attestation {X} (m : M Attesting X) : M Lifecycle X := λ s,
  let '(r, att) := m (mkAttesting (lc_os s) None) in
  (r, mkLifecycle (lc_conn s) (at_os att) (lc_writer_file s)).

Context (nfc : string → string) (database : string).

(** [open_lifecycle_store], the schema being in place. *)
Definition open_lifecycle_store : M Store unit :=
  try_except (_register_keyring (Some keyring)) (λ e, match e with
    | StorageError _ | RuntimeError _ => raise IdempotencyLifecycleUnavailable
    | e => if decide (e = IdempotencyWriteUnavailable) then raise IdempotencyLifecycleUnavailable else raise e
    end).
(** [with SQLiteWriterAttestation(database, version).exclusive_guard(): m] *)
Definition exclusive_guard {X} (version : string) (m : M Lifecycle X) : M Lifecycle X :=
  attestation ← lift (new_attestation nfc database version);
  stream ← on_new_attestation (_acquire_exclusive attestation);
  try_finally m (on_system (_release_exclusive stream)).

Definition required_historical (db : IdemDb) : list string :=
  py_sorted String.leb (remove_dups (List.filter (λ v, negb (v == active_version keyring)) (required_versions db))).
Definition kvr_status (required : list string) (version : string) (r : key_version_row) :
    IdempotencyLifecycleStatus :=
  mkIdempotencyLifecycleStatus version
    (sha256_hex ("vinctor.idempotency.commitment-id.v1" ^+ string_of [0] ^+ kvr_key_commitment r))
    (kvr_reserved_encryption_slots r) (kvr_write_disabled_reason r) (kvr_write_disabled_epoch r)
    (kvr_drain_completed_epoch r) (kvr_retired_epoch r) (active_version keyring) required.
Definition lifecycle_status (version : string) : M Lifecycle IdempotencyLifecycleStatus :=
  row ← on_conn (idem_select (version_row_of version));
  match row with
  | None => raise (IdempotencyLifecycleRejected "unknown_version")
  | Some row =>
      required ← on_conn (idem_select required_historical);
      mret (kvr_status required version row)
  end.
Definition statuses : M Lifecycle (list IdempotencyLifecycleStatus) :=
  labels ← on_conn (idem_select (λ db, py_sorted String.leb (map kvr_version_label (i_versions db))));
  mapM lifecycle_status labels.
Definition lifecycle_write_disable (version reason : string) : M Lifecycle unit :=
  state ← lifecycle_status version;
  if bool_decide (is_Some (ls_retired_epoch state)) then raise (IdempotencyLifecycleRejected "version_retired")
  else if bool_decide (is_Some (ls_write_disabled_epoch state)) then
    if negb (bool_decide (ls_write_disabled_reason state = Some reason))
    then raise (IdempotencyLifecycleRejected "write_disable_reason_conflict") else mret tt
  else on_conn (disable_version version reason).
Definition drain_guarded (version : string) : M Lifecycle unit :=
  state ← lifecycle_status version;
  if bool_decide (ls_write_disabled_epoch state = None)
  then raise (IdempotencyLifecycleRejected "write_disable_required")
  else if bool_decide (is_Some (ls_retired_epoch state))
  then raise (IdempotencyLifecycleRejected "version_retired")
  else if bool_decide (is_Some (ls_drain_completed_epoch state)) then mret tt
  else on_conn (record_drain version).
Definition complete_drain (version : string) : M Lifecycle unit := exclusive_guard version (drain_guarded version).
Definition _database_epoch : M Lifecycle Z := on_conn database_epoch.
Definition retire_guarded (request : IdempotencyRetirementRequest) : M Lifecycle unit :=
  state ← lifecycle_status (rr_version request);
  if bool_decide (is_Some (ls_retired_epoch state)) then mret tt
  else
    match ls_write_disabled_epoch state, ls_drain_completed_epoch state with
    | Some _, Some drain_completed_epoch =>
        now_epoch ← _database_epoch;
        if now_epoch <? drain_completed_epoch + IDEMPOTENCY_REMOVAL_WINDOW_SECONDS
        then raise (IdempotencyLifecycleRejected "removal_window_not_elapsed")
        else
          active ← lifecycle_status (active_version keyring);
          if bool_decide (is_Some (ls_write_disabled_epoch active))
             || bool_decide (is_Some (ls_retired_epoch active))
          then raise (IdempotencyLifecycleRejected "active_replacement_unavailable")
          else on_conn (retire_lifecycle_version
                 (mkSQLiteRetirementUpdate (rr_version request) (active_version keyring)))
    | _, _ => raise (IdempotencyLifecycleRejected "drain_completion_required")
    end.
Definition lifecycle_retire (request : IdempotencyRetirementRequest) : M Lifecycle unit :=
  exclusive_guard (rr_version request) (retire_guarded request).
Definition lifecycle_reserve_nonce (version : string) : M Lifecycle unit :=
  if negb (version == active_version keyring) then
    state ← lifecycle_status version;
    if bool_decide (is_Some (ls_write_disabled_epoch state)) || bool_decide (is_Some (ls_retired_epoch state))
    then raise (RuntimeError "idempotency write disabled")
    else raise (IdempotencyLifecycleRejected "version_not_active")
  else
    now_epoch ← _database_epoch;
    _ ← on_conn (reserve_nonce (Some keyring) _PROBE_INVOCATION now_epoch);
    mret tt.
Definition register_active_writer (writer_id : string) : M Lifecycle unit :=
  if writer_id == "" then raise (IdempotencyLifecycleRejected "writer_id_required")
  else
    attestation ← lift (new_attestation nfc database (active_version keyring));
    on_attestation (register attestation).
Definition lifecycle_close : M Lifecycle unit := on_attestation attestation_close.

(** ** The controller *)

Definition _require_old_version (version : string) : result unit :=
  if version == "" then Raise (IdempotencyLifecycleRejected "version_required")
  else if version == active_version keyring then Raise (IdempotencyLifecycleRejected "active_version_rejected")
  else Ok tt.
Definition controller_write_disable (version reason : string) : M Lifecycle unit :=
  _ ← lift (_require_old_version version);
  if negb (reason == _ROTATION_REASON) then raise (IdempotencyLifecycleRejected "rotation_reason_required")
  else lifecycle_write_disable version reason.
Definition controller_complete_drain (version : string) (confirm_no_active_writers : bool) : M Lifecycle unit :=
  _ ← lift (_require_old_version version);
  if negb confirm_no_active_writers
  then raise (IdempotencyLifecycleRejected "active_writer_confirmation_required")
  else complete_drain version.
Definition controller_retire (request : IdempotencyRetirementRequest) : M Lifecycle unit :=
  _ ← lift (_require_old_version (rr_version request));
  if negb (rr_confirm_removal_window request)
  then raise (IdempotencyLifecycleRejected "removal_window_confirmation_required")
  else lifecycle_retire request.
End backend.
