(* ===== verification/SqlRefine.v ===== *)
(** * The SQLite repositories refine the in-memory ones

    The grant requests, the subject tokens and the replay nonces: related to an
    in-memory repository that holds the same records, each method answers what
    the in-memory method answers and leaves related states, or raises and leaves
    the data to the enclosing transaction.  With the database available and the
    values bindable, it raises only where the in-memory method does, with the
    same exception. *)
From S2P Require Import Prelude PyStr PyDict PyTime Models ServiceModels Repositories World.
From S2P Require Import SubjectTokens Pop Json SqlTxn SqlRows SqlStore.

(** ** Refinement of one method *)

Section refines.
Context {S : Type} (rel : Db → S → Prop).

Definition refines {A} (pre willing : S → Prop) (agree : A → A → Prop)
    (sql : M Store A) (mem : M S A) : Prop :=
  ∀ c s r c', rel (c_db c) s → pre s → sql c = (r, c') →
  match r with
  | Ok a => ∃ a' s', mem s = (Ok a', s') ∧ agree a a' ∧ rel (c_db c') s'
  | Raise e =>
      (available c → willing s → ∃ s', mem s = (Raise e, s')) ∧
      (c_db c' = c_db c ∨ c_saved c ≠ None)
  end.
(** What a body does to the data, against what the method does. *)
Definition simulates {A} (pre willing : S → Prop) (agree : A → A → Prop)
    (f : Db → result A * Db) (mem : M S A) : Prop :=
  ∀ db s, rel db s → pre s →
  match f db with
  | (Ok a, db') => ∃ a' s', mem s = (Ok a', s') ∧ agree a a' ∧ rel db' s'
  | (Raise e, _) => willing s → ∃ s', mem s = (Raise e, s')
  end.
Definition always (s : S) : Prop := True.

Lemma refines_scope {A} pre willing (agree : A → A → Prop) sql f mem :
  runs sql f → simulates pre willing agree f mem →
  refines pre willing agree (_write_scope sql) mem.
Proof.
  intros Hr Hs c s r c' Hrel Hpre Hrun.
  destruct (write_scope_runs _ _ _ _ _ Hr Hrun) as [_ Hout].
  specialize (Hs _ _ Hrel Hpre). destruct r as [a|e].
  - by rewrite Hout in Hs.
  - destruct Hout as [Hw Hdb]. split.
    + intros Ha Hwill. destruct (Hw Ha) as [db Hf]. rewrite Hf in Hs. by apply Hs.
    + destruct Hdb as [?|[? _]]; [by left|by right].
Qed.
(** A method that only reads. *)
Lemma refines_read {A} pre willing (agree : A → A → Prop) (sql : M Store A) f mem :
  (∀ c, sql c = (f (c_db c), c)) → simulates pre willing agree (λ db, (f db, db)) mem →
  refines pre willing agree sql mem.
Proof.
  intros Hsql Hs c s r c' Hrel Hpre Hrun. rewrite Hsql in Hrun. injection Hrun as <- <-.
  specialize (Hs _ _ Hrel Hpre). cbv beta in Hs. destruct (f (c_db c)) as [a|e]; [exact Hs|].
  split; [intros _; exact Hs|by left].
Qed.
(** A method that first looks something up: [None] goes on, and a record makes it
    raise as the in-memory method does. *)
Lemma refines_absent {A B} pre willing (agree : A → A → Prop) (get : M Store (option B))
    (look : S → option B) (sql : M Store A) mem e :
  (∀ c s, rel (c_db c) s → get c = (Ok (look s), c)) →
  (∀ s b, look s = Some b → mem s = (Raise e, s)) →
  refines (λ s, pre s ∧ look s = None) willing agree sql mem →
  refines pre willing agree (o ← get; match o with Some _ => raise e | None => sql end) mem.
Proof.
  intros Hget Hmem Hsql c s r c' Hrel Hpre Hrun.
  rewrite (bind_run _ _ _ _ _ (Hget _ _ Hrel)) in Hrun.
  destruct (look s) as [b|] eqn:Hl; [|by apply (Hsql c s r c')].
  injection Hrun as <- <-. split; [|by left]. intros _ _. eexists. by apply Hmem with b.
Qed.
Lemma refines_present {A B} pre willing (agree : A → A → Prop) (get : M Store (option B))
    (look : S → option B) (sql : M Store A) mem e :
  (∀ c s, rel (c_db c) s → get c = (Ok (look s), c)) →
  (∀ s, look s = None → mem s = (Raise e, s)) →
  refines (λ s, pre s ∧ is_Some (look s)) willing agree sql mem →
  refines pre willing agree (o ← get; match o with None => raise e | Some _ => sql end) mem.
Proof.
  intros Hget Hmem Hsql c s r c' Hrel Hpre Hrun.
  rewrite (bind_run _ _ _ _ _ (Hget _ _ Hrel)) in Hrun.
  destruct (look s) as [b|] eqn:Hl; [by apply (Hsql c s r c')|].
  injection Hrun as <- <-. split; [|by left]. intros _ _. eexists. by apply Hmem.
Qed.
End refines.

(** A binding, then one statement on a table. *)
Lemma runs_statement {T X Y} (o : result Y) (t : table T) (st : Y → T → result (X * T)) :
  runs (y ← lift o; statement t (st y))
    (λ db, match o with
           | Ok y => match st y (t_get t db) with
                     | Ok (x, rows) => (Ok x, t_set t rows db)
                     | Raise e => (Raise e, db)
                     end
           | Raise e => (Raise e, db)
           end).
Proof.
  eapply runs_ext; [apply runs_bind; [apply runs_lift|intros y; apply runs_execute]|].
  intros db. destruct o as [y|e]; [|done]. cbn. by destruct (st y (t_get t db)) as [[x rows]|e].
Qed.

(** What is listed is in the dictionary. *)
Lemma dget_indexed_elem {V} (key : V → string) l v k :
  v ∈ l → key v = k → dget k (indexed key l) = None → False.
Proof.
  intros Hv <- Hnone%dget_None. apply Hnone. unfold dkeys, indexed.
  change (fst <$> map ?f l) with (map fst (map f l)). rewrite map_map.
  by apply list_elem_of_In, in_map, list_elem_of_In.
Qed.
(** No row has a key that the dictionary does not hold. *)
Lemma encodes_fresh {V R} (key : V → string) (row_key : R → string) values rows l k :
  (∀ v row, values v = Ok row → row_key row = key v) → encodes values rows l →
  dget k (indexed key l) = None → existsb (λ row, row_key row == k) rows = false.
Proof.
  intros Hkey He Hnone. apply existsb_false_elem. intros row Hin.
  destruct (encodes_elem _ _ _ _ He Hin) as (v & Hv & Hr). rewrite (Hkey _ _ Hr).
  apply String.eqb_neq. intros Hk. by destruct (dget_indexed_elem _ _ _ _ Hv Hk Hnone).
Qed.

(** [SELECT ... WHERE ... ORDER BY ...], decoded: the selected records, in the
    order of the query. *)
Lemma encodes_perm {V R} (values : V → result R) rows rows' l :
  encodes values rows l → rows' ≡ₚ rows → ∃ l', l' ≡ₚ l ∧ encodes values rows' l'.
Proof.
  intros He Hp. symmetry in Hp. revert l He. induction Hp as [|r rows rows' _ IH|r1 r2 rows|rs1 rs2 rs3 _ IH1 _ IH2]; intros l He.
  - by exists l.
  - inversion He as [|? v ? l0 Hv He0]; subst. destruct (IH _ He0) as (l' & Hl' & He').
    exists (v :: l'). split; [by constructor|]. by constructor.
  - inversion He as [|? v1 ? l0 Hv1 He0]; subst. inversion He0 as [|? v2 ? l1 Hv2 He1]; subst.
    exists (v2 :: v1 :: l1). split; [constructor|]. by repeat constructor.
  - destruct (IH1 _ He) as (l1 & Hl1 & He1). destruct (IH2 _ He1) as (l2 & Hl2 & He2).
    exists l2. split; [by trans l1|done].
Qed.
Lemma encodes_filter {V R} (values : V → result R) p p' rows l :
  (∀ v row, values v = Ok row → p row = p' v) → encodes values rows l →
  encodes values (List.filter p rows) (List.filter p' l).
Proof.
  intros Hp. induction 1 as [|r v rows l Hv _ IH]; [constructor|]. cbn [List.filter].
  rewrite (Hp _ _ Hv). destruct (p' v); [by constructor|done].
Qed.
Lemma decode_rows {V R W} (values : V → result R) (from_row : R → result W) f rows l :
  (∀ v row, values v = Ok row → from_row row = Ok (f v)) → encodes values rows l →
  mapM from_row rows = Ok (map f l).
Proof.
  intros Hf. induction 1 as [|r v rows l Hv _ IH]; [done|]. cbn [mapM map].
  by rewrite (Hf _ _ Hv), IH.
Qed.
Lemma select_all {V R W} (values : V → result R) (from_row : R → result W) f le p p' rows l :
  (∀ v row, values v = Ok row → from_row row = Ok (f v)) →
  (∀ v row, values v = Ok row → p row = p' v) → encodes values rows l →
  ∃ l', mapM from_row (py_sorted le (List.filter p rows)) = Ok (map f l') ∧
    l' ≡ₚ List.filter p' l.
Proof.
  intros Hf Hp He. destruct (encodes_perm _ _ (py_sorted le (List.filter p rows)) _
    (encodes_filter _ _ _ _ _ Hp He) (py_sorted_perm _ _)) as (l' & Hl' & He').
  exists l'. split; [by eapply decode_rows|done].
Qed.
Lemma dvalues_indexed {V} (key : V → string) l : dvalues (indexed key l) = l.
Proof.
  unfold dvalues, indexed. change (snd <$> map ?f l) with (map snd (map f l)). rewrite map_map.
  apply map_id.
Qed.

(** ** Grant requests *)

Definition requests_rel (db : Db) (s : InMemoryGrantRequestRepository) : Prop :=
  ∃ l, encodes _grant_request_values (d_requests db) l ∧ NoDup (map gq_request_id l) ∧
       s = mkRequests (indexed gq_request_id l).
Definition request_bindable (q : GrantRequest) (_ : InMemoryGrantRequestRepository) : Prop :=
  ∃ row, _grant_request_values q = Ok row.
(** The request [x] with the decision of [q]: what the UPDATE writes. *)
Definition with_decision (x q : GrantRequest) : GrantRequest :=
  {| gq_request_id := gq_request_id x; gq_workspace_id := gq_workspace_id x;
     gq_requester_agent_id := gq_requester_agent_id x; gq_target_agent_id := gq_target_agent_id x;
     gq_requested_scopes := gq_requested_scopes x; gq_requested_ttl_seconds := gq_requested_ttl_seconds x;
     gq_reason := gq_reason x; gq_status := gq_status q; gq_created_at := gq_created_at x;
     gq_decided_at := gq_decided_at q; gq_decided_by := gq_decided_by q;
     gq_decision_reason := gq_decision_reason q; gq_issued_grant_ref := gq_issued_grant_ref q;
     gq_task_id := gq_task_id x; gq_session_id := gq_session_id x; gq_boundary_id := gq_boundary_id x;
     gq_requester_runtime := gq_requester_runtime x; gq_repo := gq_repo x; gq_worktree := gq_worktree x |}.
(** The in-memory method on the stored request with that decision. *)
Definition decide_stored (q : GrantRequest) : M InMemoryGrantRequestRepository bool := λ s,
  match get_request (gq_request_id q) s with
  | Some x => decide_request (with_decision x q) s
  | None => (Ok false, s)
  end.
(** The service decides a request it has read: then it is the method itself. *)
Lemma decide_stored_same q s :
  (∀ x, get_request (gq_request_id q) s = Some x → ∃ status now by_ reason ref, q = gq_decide x status now by_ reason ref) →
  decide_stored q s = decide_request q s.
Proof.
  intros Hq. unfold decide_stored, decide_request, get_request in *.
  destruct (dget (gq_request_id q) (_requests_by_id s)) as [x|] eqn:Hx; [|done].
  destruct (Hq x eq_refl) as (st & now & by_ & reason & ref & ->). cbn in *. by rewrite Hx.
Qed.

Lemma request_values_key q row : _grant_request_values q = Ok row →
  rqw_request_id row = gq_request_id q.
Proof. unfold _grant_request_values. intros Hv. by bound_values. Qed.
Lemma request_values_status q row : _grant_request_values q = Ok row →
  rqw_status row = gq_status q.
Proof. unfold _grant_request_values. intros Hv. by bound_values. Qed.
Lemma sql_get_request_run c s id : requests_rel (c_db c) s →
  sql_get_request id c = (Ok (get_request id s), c).
Proof.
  intros (l & He & _ & ->). unfold sql_get_request. rewrite (bind_run _ _ _ _ _ (select_run _ _ _)).
  pose proof (select_encodes _ _ _ request_values_key _ _ id He) as Hsel. cbn.
  destruct (List.find _ _) as [row|].
  - destruct Hsel as (q & Hq & Hv). unfold get_request. cbn. rewrite Hq.
    by rewrite (request_row_round_trip _ _ Hv).
  - unfold get_request. cbn. by rewrite Hsel.
Qed.

Lemma sql_insert_request_refines q :
  refines requests_rel always (request_bindable q) eq (sql_insert_request q) (insert_request q).
Proof.
  unfold sql_insert_request.
  apply (refines_absent requests_rel _ _ _ _ (get_request (gq_request_id q))).
  { intros c s. apply sql_get_request_run. }
  { intros s b Hb. unfold insert_request. unfold get_request in Hb.
    rewrite (proj2 (din_true _ _)); [done|by rewrite Hb]. }
  eapply refines_scope; [apply runs_statement|]. cbv beta.
  intros db s (l & He & Hnd & ->) [_ Hnone]. unfold get_request in Hnone. cbn in Hnone |- *.
  unfold insert_request. cbn. rewrite (proj2 (din_false _ _) Hnone).
  destruct (_grant_request_values q) as [row|e] eqn:Hv.
  - rewrite (encodes_fresh _ _ _ _ _ _ request_values_key He Hnone).
    destruct (insert_encodes gq_request_id _ _ _ _ _ He Hv Hnone) as [He' Hidx].
    exists tt. eexists. split; [done|]. split; [done|]. exists (l ++ [q]). cbn.
    split_and!; [done|by apply insert_keys|by rewrite Hidx].
  - intros [row Hrow]. congruence.
Qed.
Lemma sql_update_request_refines q :
  refines requests_rel always (request_bindable q) eq (sql_update_request q) (update_request q).
Proof.
  unfold sql_update_request.
  apply (refines_present requests_rel _ _ _ _ (get_request (gq_request_id q))).
  { intros c s. apply sql_get_request_run. }
  { intros s Hb. unfold update_request. unfold get_request in Hb.
    by rewrite (proj2 (din_false _ _)). }
  eapply refines_scope; [apply runs_statement|]. cbv beta.
  intros db s (l & He & Hnd & ->) [_ [x Hx]]. unfold get_request in Hx. cbn in Hx |- *.
  unfold update_request. cbn. rewrite (proj2 (din_true _ _)) by eauto. cbn.
  destruct (_grant_request_values q) as [row|e] eqn:Hv; [|intros [row Hrow]; congruence].
  exists tt. eexists. split; [done|]. split; [done|]. exists (replaced gq_request_id q l). cbn.
  split_and!; [by apply (update_encodes _ _ _ request_values_key)|by rewrite replaced_keys|].
  by rewrite (indexed_replaced _ _ _ _ Hnd Hx).
Qed.

(** The row of a decided request is its row with the decision's columns set. *)
Lemma decided_values x row q : _grant_request_values x = Ok row →
  _grant_request_values (with_decision x q) = (at_ ← _datetime_to_storage (gq_decided_at q);
    Ok (rqw_decided row (gq_status q) at_ (gq_decided_by q) (gq_decision_reason q)
          (gq_issued_grant_ref q))).
Proof.
  unfold _grant_request_values, with_decision. cbn [gq_requested_scopes gq_created_at
    gq_decided_at gq_requested_ttl_seconds gq_request_id gq_workspace_id gq_requester_agent_id
    gq_target_agent_id gq_reason gq_status gq_decided_by gq_decision_reason gq_issued_grant_ref
    gq_task_id gq_session_id gq_boundary_id gq_requester_runtime gq_repo gq_worktree].
  destruct (bind_strings _); [|done]. cbn [mbind result_bind].
  destruct (bind_int _); [|done]. cbn [mbind result_bind].
  destruct (bind_datetime (gq_created_at x)); [|done]. cbn [mbind result_bind].
  destruct (_datetime_to_storage (gq_decided_at x)); [|done]. cbn [mbind result_bind].
  intros [= <-]. by destruct (_datetime_to_storage (gq_decided_at q)).
Qed.
(** ** Updates through the primary key *)

Lemma keyed_value {K V} (key : V → K) l v w :
  NoDup (map key l) → v ∈ l → w ∈ l → key v = key w → v = w.
Proof.
  induction l as [|y l IH]; [by intros _ ?%elem_of_nil|]. cbn [map].
  intros [Hy Hnd]%NoDup_cons.
  assert (Hin : ∀ z, z ∈ l → key z ≠ key y).
  { intros z Hz Hk. apply Hy. rewrite <- Hk. by apply list_elem_of_In, in_map, list_elem_of_In. }
  intros [->|Hv]%elem_of_cons [->|Hw]%elem_of_cons Hk; [done| | |by apply IH].
  - by destruct (Hin w).
  - by destruct (Hin v).
Qed.
Lemma keyed_hits {R} (row_key : R → string) test rows row :
  NoDup (map row_key rows) → row ∈ rows →
  length (List.filter (λ r, (row_key r == row_key row) && test r) rows) =
  if test row then 1%nat else 0%nat.
Proof.
  induction rows as [|r rows IH]; [by intros _ ?%elem_of_nil|]. cbn [map List.filter].
  intros [Hr Hnd]%NoDup_cons [->|Hin]%elem_of_cons.
  - rewrite String.eqb_refl. cbn [andb].
    assert (Hrest : List.filter (λ x, (row_key x == row_key r) && test x) rows = []).
    { clear IH Hnd. induction rows as [|x rows IH]; [done|]. cbn [map List.filter] in *.
      apply not_elem_of_cons in Hr as [Hne Hr]. rewrite (proj2 (String.eqb_neq _ _)) by done.
      by apply IH. }
    by destruct (test r); rewrite Hrest.
  - rewrite (proj2 (String.eqb_neq _ _)); [by apply IH|]. intros Hk. apply Hr. rewrite Hk.
    by apply list_elem_of_In, in_map, list_elem_of_In.
Qed.

Section keyed.
Context {V R : Type} (key : V → string) (row_key : R → string) (values : V → result R).
Context (values_key : ∀ v row, values v = Ok row → row_key row = key v).
Context (rows : list R) (l : list V) (He : encodes values rows l) (Hnd : NoDup (map key l)).

(** The only row with the key of [x] is the row of [x]. *)
Lemma keyed_row x row r : x ∈ l → values x = Ok row → r ∈ rows → row_key r = key x → r = row.
Proof.
  intros Hx Hv Hr Hk. destruct (encodes_elem _ _ _ _ He Hr) as (v & Hvl & Hvr).
  rewrite (values_key _ _ Hvr) in Hk. rewrite (keyed_value _ _ _ _ Hnd Hvl Hx Hk) in Hvr. congruence.
Qed.
Lemma keyed_absent k r : dget k (indexed key l) = None → r ∈ rows → (row_key r == k) = false.
Proof.
  intros Hnone Hr. pose proof (encodes_fresh _ _ _ _ _ _ values_key He Hnone) as Hf.
  by apply (proj1 (existsb_false_elem _ _) Hf).
Qed.
Lemma keyed_miss k test : dget k (indexed key l) = None →
  List.filter (λ r, (row_key r == k) && test r) rows = [].
Proof.
  intros Hnone. rewrite (List.filter_ext_in _ (λ _, false)).
  - generalize rows. intros rs. by induction rs.
  - intros r Hr%list_elem_of_In. by rewrite (keyed_absent _ _ Hnone Hr).
Qed.
Lemma encodes_keys : map row_key rows = map key l.
Proof.
  clear Hnd. induction He as [|r v rs vs Hr Hrs IH]; [done|].
  cbn [map]. by rewrite (values_key _ _ Hr), (IH Hrs).
Qed.
(** A hit on the key and a test of the row, counted and updated. *)
Lemma keyed_count x row test : x ∈ l → values x = Ok row →
  length (List.filter (λ r, (row_key r == key x) && test r) rows) =
  if test row then 1%nat else 0%nat.
Proof.
  intros Hx Hv. destruct (encodes_elem_r _ _ _ _ He Hx) as (row' & Hin & Hv').
  assert (row' = row) as -> by congruence. rewrite <- (values_key _ _ Hv).
  apply keyed_hits; [by rewrite encodes_keys|done].
Qed.
Lemma keyed_update x row test upd x' : x ∈ l → values x = Ok row → key x' = key x →
  test row = true → values x' = Ok (upd row) →
  encodes values (map (λ r, if (row_key r == key x) && test r then upd r else r) rows)
    (replaced key x' l).
Proof.
  intros Hx Hv Hk Ht Hv'.
  replace (map _ rows) with (map (λ r, if row_key r == key x' then upd row else r) rows).
  - by apply (update_encodes _ _ _ values_key).
  - rewrite Hk. apply map_ext_in. intros r Hr%list_elem_of_In.
    destruct (String.eqb_spec (row_key r) (key x)) as [Hkr|]; [|done].
    by rewrite (keyed_row _ _ _ Hx Hv Hr Hkr), Ht.
Qed.
Lemma keyed_untouched k test upd :
  (∀ x row, x ∈ l → values x = Ok row → key x = k → test row = false) →
  map (λ r, if (row_key r == k) && test r then upd r else r) rows = rows.
Proof.
  intros Hmiss. rewrite <- (map_id rows) at 2. apply map_ext_in. intros r Hr%list_elem_of_In.
  destruct (encodes_elem _ _ _ _ He Hr) as (v & Hvl & Hvr). rewrite (values_key _ _ Hvr).
  destruct (String.eqb_spec (key v) k) as [Hk|]; [|done]. by rewrite (Hmiss _ _ Hvl Hvr Hk).
Qed.
End keyed.

Definition decision_bindable (q : GrantRequest) (_ : InMemoryGrantRequestRepository) : Prop :=
  ∃ at_, _datetime_to_storage (gq_decided_at q) = Ok at_.
Lemma sql_decide_request_refines q :
  refines requests_rel always (decision_bindable q) eq (sql_decide_request q) (decide_stored q).
Proof.
  eapply refines_scope; [apply runs_statement|]. cbv beta.
  intros db s (l & He & Hnd & ->) _. unfold decide_stored, get_request. cbn.
  destruct (_datetime_to_storage (gq_decided_at q)) as [at_|e] eqn:Hat.
  2: { intros [at_ Hq]. congruence. }
  pose proof (λ x row, request_values_status x row) as Hstatus.
  destruct (dget (gq_request_id q) (indexed gq_request_id l)) as [x|] eqn:Hx.
  - destruct (dget_indexed _ _ _ _ Hx) as [Hk Hin].
    destruct (encodes_elem_r _ _ _ _ He Hin) as (row & _ & Hv).
    rewrite <- Hk, (keyed_count _ _ _ request_values_key _ _ He Hnd _ _ _ Hin Hv).
    rewrite (Hstatus _ _ Hv). unfold decide_request. cbn [_requests_by_id gq_request_id with_decision].
    rewrite Hk, Hx. destruct (String.eqb_spec (gq_status x) "pending") as [Hp|Hp]; cbn [negb].
    + exists true. eexists. split; [done|]. split; [done|].
      exists (replaced gq_request_id (with_decision x q) l). cbn. rewrite <-Hk in Hx.
      split_and!; [|by rewrite replaced_keys|by rewrite <-Hk, (indexed_replaced _ _ (with_decision x q) _ Hnd Hx)].
      rewrite <-Hk.
      apply (keyed_update _ _ _ request_values_key _ _ He Hnd x row (λ r, rqw_status r == "pending")
        (λ r, rqw_decided r (gq_status q) at_ (gq_decided_by q) (gq_decision_reason q)
           (gq_issued_grant_ref q)) (with_decision x q) Hin Hv eq_refl).
      { cbv beta. rewrite (Hstatus _ _ Hv). by apply String.eqb_eq. }
      by rewrite (decided_values x row q Hv), Hat.
    + exists false. eexists. split; [done|]. split; [done|]. exists l. cbn.
      rewrite (keyed_untouched _ _ _ request_values_key _ _ He); [done|].
      intros y r Hy Hr Hky. rewrite <-Hk in Hky. rewrite (keyed_value _ _ _ _ Hnd Hy Hin Hky) in Hr.
      rewrite (Hstatus _ _ Hr). by apply String.eqb_neq.
  - exists false. eexists. split; [done|]. split; [|exists l].
    + by rewrite (keyed_miss _ _ _ request_values_key _ _ He _ _ Hx).
    + cbn. rewrite (keyed_untouched _ _ _ request_values_key _ _ He); [done|].
      intros y r Hy Hr Hk. by destruct (dget_indexed_elem _ _ _ _ Hy Hk Hx).
Qed.
(** The in-memory compare-and-set: a pending request is decided, and only once. *)
Lemma decide_stored_once db q s b s' : requests_rel db s → decide_stored q s = (Ok b, s') →
  (b = true ↔ ∃ x, get_request (gq_request_id q) s = Some x ∧ gq_status x = "pending") ∧
  (b = true → gq_status q ≠ "pending" → ∀ q2, gq_request_id q2 = gq_request_id q →
     decide_stored q2 s' = (Ok false, s')).
Proof.
  intros (l & _ & _ & ->). unfold decide_stored, decide_request, get_request. cbn.
  destruct (dget (gq_request_id q) (indexed gq_request_id l)) as [x|] eqn:Hx.
  2: { intros [= <- <-]. split; [|done]. split; [done|]. by intros (x & ? & _). }
  destruct (dget_indexed _ _ _ _ Hx) as [Hk _]. rewrite Hk, Hx.
  destruct (String.eqb_spec (gq_status x) "pending") as [Hp|Hp]; cbn [negb]; intros [= <- <-].
  - split; [split; [by exists x|done]|]. intros _ Hq q2 ->. cbn [_requests_by_id]. rewrite dget_dset_eq.
    cbn [gq_request_id gq_status with_decision _requests_by_id]. rewrite Hk, dget_dset_eq.
    cbn [gq_status with_decision]. by rewrite (proj2 (String.eqb_neq _ _) Hq).
  - split; [|done]. split; [done|]. intros (y & [= <-] & Hy). done.
Qed.

(** The records of the workspace, in another order: the in-memory repository lists
    them as they came, the database by the instant they were created. *)
Lemma sql_list_requests_refines ws :
  refines requests_rel always always (λ l l', l ≡ₚ l') (sql_list_requests_for_workspace ws)
    (gets (list_requests_for_workspace ws)).
Proof.
  apply (refines_read _ _ _ _ _ (λ db, mapM _grant_request_from_row
    (py_sorted (order_by rqw_created_at rqw_request_id)
       (List.filter (λ row, rqw_workspace_id row == ws) (d_requests db))))); [done|].
  intros db s (l & He & Hnd & ->) _.
  destruct (select_all _ _grant_request_from_row id (order_by rqw_created_at rqw_request_id)
    (λ row, rqw_workspace_id row == ws) (λ q, gq_workspace_id q == ws) (d_requests db) l
    request_row_round_trip) as (l' & Hrun & Hl').
  { intros q row Hv. unfold _grant_request_values in Hv. by bound_values. }
  { exact He. }
  rewrite map_id in Hrun. rewrite Hrun.
  exists (list_requests_for_workspace ws (mkRequests (indexed gq_request_id l))), (mkRequests (indexed gq_request_id l)).
  split; [done|]. split; [|by exists l].
  unfold list_requests_for_workspace. cbn [_requests_by_id]. by rewrite dvalues_indexed.
Qed.
Lemma sql_get_request_refines id :
  refines requests_rel always always eq (sql_get_request id) (gets (get_request id)).
Proof.
  intros c s r c' Hrel _ Hrun. rewrite (sql_get_request_run _ _ _ Hrel) in Hrun.
  injection Hrun as <- <-. eauto.
Qed.

(** C36: The SQLite grant requests refine the in-memory ones, method by method and
    inside whatever transaction: same answers (a listing has the same records, in
    another order) and same records afterwards, and no raise of their own but for a
    busy database or values the driver cannot bind.  [decide_request], one guarded
    UPDATE of the columns of a decision, is the in-memory method on the stored
    request with that decision, which is the method on the request it is given when
    that was built from the stored one, as the service builds it; it is the
    compare-and-set the approval workflow relies on: it answers yes exactly when
    the request is there and pending, and once it has, with a decision, every
    further decision of the request is answered no and changes no request. *)
Theorem sql_requests_refine q id ws :
  refines requests_rel always (request_bindable q) eq (sql_insert_request q) (insert_request q) ∧
  refines requests_rel always always eq (sql_get_request id) (gets (get_request id)) ∧
  refines requests_rel always always Permutation (sql_list_requests_for_workspace ws)
    (gets (list_requests_for_workspace ws)) ∧
  refines requests_rel always (request_bindable q) eq (sql_update_request q) (update_request q) ∧
  refines requests_rel always (decision_bindable q) eq (sql_decide_request q) (decide_stored q) ∧
  (∀ s, (∀ x, get_request (gq_request_id q) s = Some x →
           ∃ status now by_ reason ref, q = gq_decide x status now by_ reason ref) →
     decide_stored q s = decide_request q s) ∧
  (∀ c s b c', requests_rel (c_db c) s → sql_decide_request q c = (Ok b, c') →
     (b = true ↔ ∃ x, get_request (gq_request_id q) s = Some x ∧ gq_status x = "pending") ∧
     (b = true → gq_status q ≠ "pending" → ∀ q2 b2 c2, gq_request_id q2 = gq_request_id q →
        sql_decide_request q2 c' = (Ok b2, c2) →
        b2 = false ∧ ∃ s', requests_rel (c_db c') s' ∧ requests_rel (c_db c2) s')).
Proof.
  split_and!; [apply sql_insert_request_refines|apply sql_get_request_refines|
    apply sql_list_requests_refines|apply sql_update_request_refines|
    apply sql_decide_request_refines|apply decide_stored_same|].
  intros c s b c' Hrel Hrun.
  pose proof (sql_decide_request_refines q c s _ c' Hrel I Hrun) as (b1 & s' & Hmem & <- & Hrel').
  destruct (decide_stored_once _ q s b s' Hrel Hmem) as [Hb Honce]. split; [exact Hb|].
  intros Ht Hq q2 b2 c2 Hid Hrun2. specialize (Honce Ht Hq q2 Hid).
  pose proof (sql_decide_request_refines q2 c' s' _ c2 Hrel' I Hrun2) as (b3 & s2 & Hmem2 & <- & Hrel2).
  rewrite Honce in Hmem2. injection Hmem2 as <- <-. split; [done|]. by exists s'.
Qed.

(** ** Subject tokens *)

Definition tokens_rel (db : Db) (s : InMemorySubjectTokenRepository) : Prop :=
  ∃ l, encodes token_values (d_tokens db) l ∧ NoDup (map st_token_hash l) ∧
       NoDup (map st_token_id l) ∧ s = mkTokens (indexed st_token_hash l).
(** A token the driver can bind, under an id the table does not have. *)
Definition token_insertable (t : SubjectToken) (s : InMemorySubjectTokenRepository) : Prop :=
  (∃ row, token_values t = Ok row) ∧
  ∀ x, x ∈ dvalues (_tokens_by_hash s) → st_token_id x ≠ st_token_id t.
(** A token as the queries that do not select [pop_secret] read it. *)
Definition without_secret (t : SubjectToken) : SubjectToken :=
  mkSubjectToken (st_token_id t) (st_token_hash t) (st_workspace_id t) (st_agent_id t)
    (st_grant_ref t) (st_audience t) (st_issued_at t) (st_expires_at t) (st_created_by t)
    (st_revoked_at t) (st_bound_action t) (st_bound_resource t) None.

Lemma token_values_hash t row : token_values t = Ok row → tkw_token_hash row = st_token_hash t.
Proof. unfold token_values. intros Hv. by bound_values. Qed.
Lemma token_values_id t row : token_values t = Ok row → tkw_token_id row = st_token_id t.
Proof. unfold token_values. intros Hv. by bound_values. Qed.
Lemma token_row_without_secret t row :
  token_values t = Ok row → _subject_token_from_row false row = Ok (without_secret t).
Proof.
  unfold token_values, _subject_token_from_row. intros Hv. bound_values. cbn.
  rewrite Hbind. cbn. rewrite Hbind0. cbn. by rewrite Hbind1.
Qed.
Lemma token_revoked_values t row now at_ :
  token_values t = Ok row → bind_datetime now = Ok at_ →
  token_values (st_revoke t now) = Ok (tkw_revoked row at_).
Proof.
  unfold token_values, st_revoke, tkw_revoked. cbn [st_issued_at st_expires_at st_revoked_at
    st_token_id st_token_hash st_workspace_id st_agent_id st_grant_ref st_audience st_created_by
    st_bound_action st_bound_resource st_pop_secret _datetime_to_storage].
  intros Hv Hat. destruct (bind_datetime (st_issued_at t)); [|done]. cbn in *.
  destruct (bind_datetime (st_expires_at t)); [|done]. cbn in *.
  destruct (_datetime_to_storage (st_revoked_at t)); [|done]. cbn in *.
  rewrite Hat. cbn. by injection Hv as <-.
Qed.
Lemma sql_get_by_hash_run c s h : tokens_rel (c_db c) s →
  sql_get_by_hash h c = (Ok (tokens_get_by_hash h s), c).
Proof.
  intros (l & He & _ & _ & ->). unfold sql_get_by_hash.
  rewrite (bind_run _ _ _ _ _ (select_run _ _ _)).
  pose proof (select_encodes _ _ _ token_values_hash _ _ h He) as Hsel. cbn.
  destruct (List.find _ _) as [row|].
  - destruct Hsel as (q & Hq & Hv). unfold tokens_get_by_hash. cbn. rewrite Hq.
    by rewrite (token_row_round_trip _ _ Hv).
  - unfold tokens_get_by_hash. cbn. by rewrite Hsel.
Qed.
Lemma sql_insert_token_refines t :
  refines tokens_rel always (token_insertable t) eq (sql_insert_token t) (tokens_insert t).
Proof.
  unfold sql_insert_token.
  apply (refines_absent tokens_rel _ _ _ _ (tokens_get_by_hash (st_token_hash t))).
  { intros c s. apply sql_get_by_hash_run. }
  { intros s b Hb. unfold tokens_insert. unfold tokens_get_by_hash in Hb.
    rewrite (proj2 (din_true _ _)); [done|by rewrite Hb]. }
  eapply refines_scope; [apply runs_statement|]. cbv beta.
  intros db s (l & He & Hnd & Hid & ->) [_ Hnone]. unfold tokens_get_by_hash in Hnone.
  cbn in Hnone |- *. unfold tokens_insert. cbn. rewrite (proj2 (din_false _ _) Hnone).
  destruct (token_values t) as [row|e] eqn:Hv; [|by intros [[row ?] _]; congruence].
  rewrite (encodes_fresh _ _ _ _ _ _ token_values_hash He Hnone).
  destruct (existsb (λ r, tkw_token_id r == st_token_id t) (d_tokens db)) eqn:Hdup.
  { intros [_ Hfresh]. apply existsb_exists_elem in Hdup as (r & Hr & Heq%String.eqb_eq).
    destruct (encodes_elem _ _ _ _ He Hr) as (v & Hvl & Hvr).
    rewrite (token_values_id _ _ Hvr) in Heq. cbn [_tokens_by_hash] in Hfresh. rewrite dvalues_indexed in Hfresh.
    by destruct (Hfresh v). }
  destruct (insert_encodes st_token_hash _ _ _ _ _ He Hv Hnone) as [He' Hidx].
  exists tt. eexists. split; [done|]. split; [done|]. exists (l ++ [t]). cbn.
  split_and!; [done|by apply insert_keys| |by rewrite Hidx].
  apply insert_keys; [done|]. apply dget_None. unfold dkeys, indexed.
  change (fst <$> map ?f l) with (map fst (map f l)). rewrite map_map. cbn.
  intros Hin%list_elem_of_In%in_map_iff. destruct Hin as (v & Hk & Hvl%list_elem_of_In).
  destruct (encodes_elem_r _ _ _ _ He Hvl) as (r & Hr & Hvr).
  apply (proj1 (existsb_false_elem _ _) Hdup) in Hr. rewrite (token_values_id _ _ Hvr) in Hr.
  by apply String.eqb_neq in Hr.
Qed.
Lemma revoke_first_indexed l id now t : NoDup (map st_token_id l) → t ∈ l → st_token_id t = id →
  revoke_first id now (indexed st_token_hash l) =
    Some (indexed st_token_hash (replaced st_token_id (st_revoke t now) l)).
Proof.
  induction l as [|x l IH]; [by intros _ ?%elem_of_nil|]. cbn [map].
  intros [Hx Hnd]%NoDup_cons Hin Ht. cbn [indexed map revoke_first replaced].
  destruct (String.eqb_spec (st_token_id x) id) as [Hk|Hk].
  - apply elem_of_cons in Hin as [->|Hin].
    2: { exfalso. apply Hx. rewrite Hk, <- Ht. by apply list_elem_of_In, in_map, list_elem_of_In. }
    cbn [st_revoke st_token_id]. rewrite String.eqb_refl. do 2 f_equal.
    unfold replaced. rewrite (map_ext_in _ (λ y, y)), map_id; [done|].
    intros y Hy. destruct (String.eqb_spec (st_token_id y) (st_token_id x)) as [Hyx|]; [|done].
    exfalso. apply Hx. rewrite <- Hyx. by apply list_elem_of_In, in_map.
  - apply elem_of_cons in Hin as [->|Hin]; [done|]. fold (indexed st_token_hash l).
    rewrite (IH Hnd Hin Ht). 
    unfold replaced, indexed. cbn. by rewrite !Ht, (proj2 (String.eqb_neq _ _) Hk).
Qed.
Lemma sql_revoke_token_refines id now :
  refines tokens_rel always (λ _, ∃ at_, bind_datetime now = Ok at_) eq
    (sql_revoke_token id now) (tokens_revoke id now).
Proof.
  eapply refines_scope; [apply runs_statement|]. cbv beta.
  intros db s (l & He & Hnd & Hid & ->) _. cbn [t_get tokens_table].
  destruct (bind_datetime now) as [at_|e] eqn:Hat; [|by intros [? ?]]. unfold tokens_revoke.
  cbn [_tokens_by_hash].
  rewrite (List.filter_ext _ (λ r, (tkw_token_id r == id) && true)) by (intros; by rewrite andb_true_r).
  rewrite (map_ext _ (λ r, if (tkw_token_id r == id) && true then tkw_revoked r at_ else r))
    by (intros; by rewrite andb_true_r).
  destruct (dget id (indexed st_token_id l)) as [t|] eqn:Ht.
  - destruct (dget_indexed _ _ _ _ Ht) as [Hk Hin].
    destruct (encodes_elem_r _ _ _ _ He Hin) as (row & _ & Hv).
    rewrite (revoke_first_indexed _ _ _ _ Hid Hin Hk), <- Hk.
    rewrite (keyed_count _ _ _ token_values_id _ _ He Hid _ _ (λ _, true) Hin Hv).
    exists true. eexists. split; [done|]. split; [done|].
    exists (replaced st_token_id (st_revoke t now) l). cbn [d_tokens t_set].
    split_and!; [| |by rewrite replaced_keys|done].
    + apply (keyed_update _ _ _ token_values_id _ _ He Hid t row (λ _, true)
        (λ r, tkw_revoked r at_) (st_revoke t now) Hin Hv eq_refl eq_refl).
      by apply token_revoked_values.
    + unfold replaced. rewrite map_map. erewrite map_ext_in; [exact Hnd|].
      intros x Hx%list_elem_of_In. cbv beta.
      destruct (String.eqb_spec (st_token_id x) (st_token_id (st_revoke t now))) as [Hxt|]; [|done].
      by rewrite (keyed_value _ _ _ _ Hid Hx Hin Hxt).
  - rewrite (keyed_miss _ _ _ token_values_id _ _ He _ (λ _, true) Ht).
    rewrite (keyed_untouched _ _ _ token_values_id _ _ He).
    2: { intros x r Hx _ Hk. by destruct (dget_indexed_elem _ _ _ _ Hx Hk Ht). }
    rewrite (proj2 (revoke_first_none _ _ _)).
    2: { rewrite dvalues_indexed. intros x Hx Hk. by destruct (dget_indexed_elem _ _ _ _ Hx Hk Ht). }
    exists false. eexists. split; [done|]. split; [done|]. by exists l.
Qed.
Lemma sql_get_by_id_refines id :
  refines tokens_rel always always (λ o o', o = without_secret <$> o') (sql_get_by_id id)
    (gets (tokens_get_by_id id)).
Proof.
  intros c s r c' (l & He & Hnd & Hid & ->) _ Hrun. unfold sql_get_by_id in Hrun.
  rewrite (bind_run _ _ _ _ _ (select_run _ _ _)) in Hrun. cbv beta in Hrun.
  pose proof (select_encodes _ _ _ token_values_id _ _ id He) as Hsel. cbn [t_get tokens_table] in Hrun.
  assert (Hfind : ∀ k, List.find (λ t, st_token_id t == k) l = dget k (indexed st_token_id l)).
  { intros k. clear. induction l as [|x l IH]; [done|]. cbn [List.find indexed map dget].
    destruct (String.eqb_spec (st_token_id x) k) as [->|Hne]; [by rewrite decide_True|].
    by rewrite decide_False. }
  assert (Hmem : tokens_get_by_id id (mkTokens (indexed st_token_hash l)) = dget id (indexed st_token_id l)).
  { unfold tokens_get_by_id. cbn [_tokens_by_hash]. by rewrite dvalues_indexed. }
  destruct (List.find (λ row, tkw_token_id row == id) (d_tokens (c_db c))) as [row|] eqn:Hf.
  - destruct Hsel as (t & Ht & Hv). rewrite (token_row_without_secret _ _ Hv) in Hrun.
    injection Hrun as <- <-. exists (Some t), (mkTokens (indexed st_token_hash l)).
    split; [unfold gets; by rewrite Hmem, Ht|]. split; [done|]. by exists l.
  - injection Hrun as <- <-. exists None, (mkTokens (indexed st_token_hash l)).
    split; [unfold gets; by rewrite Hmem, Hsel|]. split; [done|]. by exists l.
Qed.
Lemma sql_list_tokens_refines ws :
  refines tokens_rel always always (λ l l', l ≡ₚ map without_secret l') (sql_list_subject_tokens ws)
    (gets (list_subject_tokens ws)).
Proof.
  apply (refines_read _ _ _ _ _ (λ db, mapM (_subject_token_from_row false)
    (py_sorted (λ x y, String.leb (tkw_issued_at x) (tkw_issued_at y))
       (List.filter (λ row, tkw_workspace_id row == ws) (d_tokens db))))); [done|].
  intros db s (l & He & Hnd & Hid & ->) _.
  destruct (select_all _ (_subject_token_from_row false) without_secret
    (λ x y, String.leb (tkw_issued_at x) (tkw_issued_at y))
    (λ row, tkw_workspace_id row == ws) (λ t, st_workspace_id t == ws) (d_tokens db) l
    token_row_without_secret) as (l' & Hrun & Hl').
  { intros t row Hv. unfold token_values in Hv. by bound_values. }
  { exact He. }
  rewrite Hrun. eexists _, (mkTokens (indexed st_token_hash l)).
  split; [done|]. split; [|by exists l].
  apply Permutation_map. rewrite Hl'. unfold list_subject_tokens.
  rewrite py_sorted_perm. cbn [_tokens_by_hash]. by rewrite dvalues_indexed.
Qed.

(** The SQLite subject tokens refine the in-memory ones.  Reads that do not
    need the proof secret never return it; a token whose id is taken is refused
    by the table's primary key. *)
Theorem sql_tokens_refine t h id ws now :
  refines tokens_rel always (token_insertable t) eq (sql_insert_token t) (tokens_insert t) ∧
  refines tokens_rel always always eq (sql_get_by_hash h) (gets (tokens_get_by_hash h)) ∧
  refines tokens_rel always always (λ o o', o = without_secret <$> o') (sql_get_by_id id)
    (gets (tokens_get_by_id id)) ∧
  refines tokens_rel always always (λ l l', l ≡ₚ map without_secret l')
    (sql_list_subject_tokens ws) (gets (list_subject_tokens ws)) ∧
  refines tokens_rel always (λ _, ∃ at_, bind_datetime now = Ok at_) eq (sql_revoke_token id now)
    (tokens_revoke id now).
Proof.
  split_and!; [apply sql_insert_token_refines| |apply sql_get_by_id_refines|
    apply sql_list_tokens_refines|apply sql_revoke_token_refines].
  intros c s r c' Hrel _ Hrun. rewrite (sql_get_by_hash_run _ _ _ Hrel) in Hrun.
  injection Hrun as <- <-. eauto.
Qed.

(** ** Replay nonces *)

Definition nonce_entry (row : nonce_row) : string * string * Z :=
  (nnw_token_id row, nnw_nonce row, nnw_ts row).
Definition nonces_rel (max max_per_token : Z) (db : Db) (s : PopReplayCache) : Prop :=
  NoDup (dkeys (map nonce_entry (d_nonces db))) ∧
  s = mkPopReplayCache (map nonce_entry (d_nonces db)) max max_per_token.

Lemma nonces_purged rows cutoff :
  map nonce_entry (List.filter (λ row, negb (nnw_ts row <? cutoff)) rows) =
  dpurge (λ _ t, t <? cutoff) (map nonce_entry rows).
Proof.
  unfold dpurge. induction rows as [|row rows IH]; [done|]. cbn.
  destruct (negb (nnw_ts row <? cutoff)); [cbn; by f_equal|done].
Qed.
Lemma nonces_find rows token_id nonce :
  match List.find (λ row, (nnw_token_id row == token_id) && (nnw_nonce row == nonce)) rows with
  | Some row => din (token_id, nonce) (map nonce_entry rows) = true
  | None => din (token_id, nonce) (map nonce_entry rows) = false ∧
      existsb (λ row, (nnw_token_id row == token_id) && (nnw_nonce row == nonce)) rows = false
  end.
Proof.
  induction rows as [|row rows IH]; [done|]. cbn [List.find map existsb].
  unfold din in *. cbn [nonce_entry dget].
  destruct (String.eqb_spec (nnw_token_id row) token_id) as [->|H1]; cbn [andb].
  - destruct (String.eqb_spec (nnw_nonce row) nonce) as [->|H2]; cbn [orb].
    + rewrite decide_True by done. by apply bool_decide_eq_true_2.
    + rewrite decide_False by congruence. exact IH.
  - rewrite decide_False by congruence. exact IH.
Qed.
Lemma nonces_count rows token_id :
  Z.of_nat (length (List.filter (λ row, nnw_token_id row == token_id) rows)) =
  count_token token_id (map nonce_entry rows).
Proof.
  unfold count_token. f_equal. induction rows as [|row rows IH]; [done|]. cbn.
  destruct (nnw_token_id row == token_id); [cbn; by f_equal|done].
Qed.

(** The SQLite replay store refines the in-memory replay cache: the same
    proofs are admitted, the same refused, replays and full tables included, and
    the same nonces stay recorded. *)
Theorem sql_replay_refines max max_per_token token_id nonce ts now_unix skew :
  refines (nonces_rel max max_per_token) always
    (λ _, bind_int (now_unix - skew) = Ok (now_unix - skew) ∧ bind_int ts = Ok ts) eq
    (sql_check_and_record max max_per_token token_id nonce ts now_unix skew)
    (check_and_record token_id nonce ts now_unix skew).
Proof.
  unfold sql_check_and_record. cbv zeta. eapply refines_scope.
  { repeat (eapply runs_bind || apply runs_lift || apply runs_execute || apply runs_query || apply runs_ret
      || (eapply runs_option; intros) || eapply runs_if || (eapply runs_try; intros) || intros ?). }
  cbv beta. intros db s [Hnd ->] _. cbn [t_get nonces_table t_set d_nonces].
  destruct (bind_int (now_unix - skew)) as [bound|e] eqn:Hb; [|by intros [? _]].
  apply bind_int_same in Hb as ->. cbn [mbind result_bind t_set nonces_table t_get d_nonces].
  set (rows := List.filter _ _).
  assert (Hrows : dpurge (λ _ t, t <? now_unix - skew) (map nonce_entry (d_nonces db)) =
    map nonce_entry rows) by (symmetry; apply nonces_purged).
  assert (Hnd' : NoDup (dkeys (map nonce_entry rows))) by (rewrite <- Hrows; by apply dpurge_wf).
  unfold check_and_record. cbn [pc_seen pc_max pc_max_per_token]. rewrite Hrows.
  rewrite <- nonces_count, length_map.
  pose proof (nonces_find rows token_id nonce) as Hfind.
  destruct (List.find _ rows) as [row|].
  { rewrite Hfind. eexists _, _. split; [done|]. by split. }
  destruct Hfind as [Hdin Hfresh]. rewrite Hdin. destruct (max_per_token <=? _).
  { eexists _, _. split; [done|]. by split. }
  destruct (max <=? _).
  { eexists _, _. split; [done|]. by split. }
  destruct (bind_int ts) as [ts'|e] eqn:Ht; [|by intros [_ ?]].
  apply bind_int_same in Ht as ->. cbn [result_bind]. rewrite Hfresh. cbn.
  eexists _, _. split; [done|]. split; [done|].
  assert (Hnew : map nonce_entry (rows ++ [mkNonceRow token_id nonce ts]) =
    dset (token_id, nonce) ts (map nonce_entry rows)).
  { rewrite dset_fresh by by apply din_false. apply map_app. }
  unfold nonces_rel. cbn [d_nonces]. rewrite Hnew. split; [by apply dset_wf|done].
Qed.

(** ** Witness

    A pending request is approved, then rejected: the second decision is refused. *)
Module Deciding.
Definition pending : GrantRequest :=
  mkGrantRequest "req_1" "ws" "agent" "agent" ["read:repo"] 600 "to read" "pending" 100 None None None None
    None None None None None None.
Definition approved : GrantRequest := gq_decide pending "approved" 200 "workspace:ws" None (Some "grt_1").
Definition rejected : GrantRequest := gq_decide pending "rejected" 300 "workspace:ws" (Some "no") None.
Definition empty : Store :=
  mkConn empty_db None [] [] [] (mkLocal 0 None (mkEntropy (λ _ n, "n" ^+ pretty n) 0) (mkClock (λ _, 0) 0)).
Definition start : Store := (sql_insert_request pending empty).2.
Definition decided : Store := (sql_decide_request approved start).2.
Lemma start_rel : requests_rel (c_db start) (mkRequests (indexed gq_request_id [pending])).
Proof.
  exists [pending]. split; [|split; [apply NoDup_singleton|done]].
  assert (E : d_requests (c_db start) = match _grant_request_values pending with Ok row => [row] | Raise _ => [] end).
  { vm_compute. reflexivity. }
  assert (Hok : is_Some (match _grant_request_values pending with Ok row => Some row | Raise _ => None end)).
  { vm_compute. by eexists. }
  rewrite E. destruct (_grant_request_values pending) as [row|e] eqn:Hrow; [|by destruct Hok].
  constructor; [exact Hrow|constructor].
Qed.
End Deciding.
Lemma sql_requests_refine_witness :
  sql_decide_request Deciding.approved Deciding.start = (Ok true, Deciding.decided) ∧
  (sql_decide_request Deciding.rejected Deciding.decided).1 = Ok false ∧
  ∃ s, requests_rel (c_db Deciding.decided) s ∧
    requests_rel (c_db (sql_decide_request Deciding.rejected Deciding.decided).2) s.
Proof.
  assert (E1 : sql_decide_request Deciding.approved Deciding.start = (Ok true, Deciding.decided)).
  { vm_compute. reflexivity. }
  assert (E2 : sql_decide_request Deciding.rejected Deciding.decided =
    (Ok false, (sql_decide_request Deciding.rejected Deciding.decided).2)) by (vm_compute; reflexivity).
  split; [exact E1|]. split; [by rewrite E2|].
  destruct (sql_requests_refine Deciding.approved "req_1" "ws") as (_ & _ & _ & _ & _ & _ & Honce).
  destruct (Honce _ _ _ _ Deciding.start_rel E1) as [_ Hagain].
  exact (proj2 (Hagain eq_refl ltac:(discriminate) Deciding.rejected false _ eq_refl E2)).
Defined.
