(* ===== verification/SqlAudit.v ===== *)
(** * The SQLite audit writer keeps its promise ([SQLiteAuditWriter])

    The log of a connection is the events of its rows in the order of their
    numbers.  A write that returns has appended its event, a write that raises
    has appended nothing, whatever transaction is open, and whatever rows the
    table held. *)
From S2P Require Import Prelude PyStr PyDict PyTime Models AuditWriter CoreAudit AuditJson Json.
From S2P Require Import AuditChain SqlTxn SqlRows SqlStore.

(** The events that can be read back, in order. *)
Definition events_of (rows : list audit_row) : list AuditEvent :=
  omap (λ row, match load_event (r_event_json row) with Ok e => Some e | Raise _ => None end)
    (by_seq rows).

(** ** A new row goes last *)

Lemma insert_sorted_last {A} (leb : A → A → bool) x y l :
  leb y x = true → insert_sorted leb y (l ++ [x]) = insert_sorted leb y l ++ [x].
Proof.
  intros Hyx. induction l as [|z l IH]; cbn; [by rewrite Hyx|].
  destruct (leb y z); [done|]. by rewrite IH.
Qed.
Lemma py_sorted_last {A} (leb : A → A → bool) x l :
  (∀ y, y ∈ l → leb y x = true) → py_sorted leb (l ++ [x]) = py_sorted leb l ++ [x].
Proof.
  induction l as [|y l IH]; intros Hl; [done|].
  change (insert_sorted leb y (py_sorted leb (l ++ [x])) = py_sorted leb (y :: l) ++ [x]). rewrite IH.
  - apply insert_sorted_last, Hl. left.
  - intros z Hz. apply Hl. by right.
Qed.
Lemma sorted_last {A} (leb : A → A → bool) l x :
  (∀ a b c, leb a b = true → leb b c = true → leb a c = true) → (∀ a b, leb a b = true ∨ leb b a = true) →
  last (py_sorted leb l) = Some x → ∀ y, y ∈ l → leb y x = true.
Proof.
  intros Htrans Htotal Hlast y. rewrite <- (py_sorted_perm leb l).
  assert (Hs : StronglySorted (λ a b, leb a b = true) (py_sorted leb l)).
  { apply Sorted_StronglySorted; [intros a b c; apply Htrans|by apply py_sorted_sorted]. }
  revert Hs Hlast. generalize (py_sorted leb l). clear -Htotal. intros l.
  induction l as [|z l IH]; intros Hs Hlast Hin; [by apply elem_of_nil in Hin|].
  apply StronglySorted_inv in Hs as [Hs Hz]. destruct l as [|w l].
  - apply list_elem_of_singleton in Hin as ->. injection Hlast as ->. by destruct (Htotal x x).
  - apply elem_of_cons in Hin as [->|Hin]; [|by apply IH].
    rewrite Forall_forall in Hz. apply Hz. by eapply last_Some_elem_of.
Qed.

(** ** One write *)

Lemma bindable_storable e : event_bindable e = true → event_storable e.
Proof.
  unfold event_bindable. rewrite andb_true_iff, !forallb_elem. intros [Htext Htimes]. split.
  - apply Forall_forall. intros kv Hkv. specialize (Htext kv Hkv). apply andb_true_iff in Htext as [Hk Hv].
    split; [by apply valid_text_ok|]. destruct (kv.2); try done. by apply valid_text_ok.
  - assert (Ht : ∀ t, t ∈ e_created_at e :: option_list (e_first_seen_at e) ++ option_list (e_last_seen_at e) →
      time_ok t) by (intros t Hin; specialize (Htimes t Hin); unfold time_ok; lia).
    split_and!.
    + apply Ht. left.
    + intros t Hs. apply Ht. rewrite Hs. right. apply elem_of_app. left. left.
    + intros t Hs. apply Ht. rewrite Hs. right. apply elem_of_app. right. left.
Qed.
(** The row an accepted write adds. *)
Lemma write_event_row e rows out rows' : _write_event e rows = (Ok out, rows') →
  ∃ row, rows' = rows ++ [row] ∧ r_event_json row = json_dumps (to_dict e) ∧
    ∀ y, y ∈ rows → seq_leb y row = true.
Proof.
  assert (Hlast : ∀ row, last (by_seq rows) = Some row → ∀ y, y ∈ rows → seq_leb y row = true).
  { intros row. apply sorted_last; [|apply seq_leb_total]. intros a b c. unfold seq_leb.
    destruct (r_seq a), (r_seq b), (r_seq c); rewrite ?Z.leb_le; try done; lia. }
  assert (Hnil : last (by_seq rows) = None → rows = []).
  { intros Hn%last_None. apply Permutation_nil_r. pose proof (py_sorted_perm seq_leb rows) as Hp.
    fold (by_seq rows) in Hp. by rewrite Hn in Hp. }
  unfold _write_event, insert_row, mbind, M_bind, gets, mret, M_ret, raise.
  destruct (last (by_seq rows)) as [hd|] eqn:Hhd.
  - destruct (r_seq hd) as [seq|] eqn:Hseq; [|done].
    set (h := row_hash _ _ _). clearbody h. destruct (existsb _ rows); [discriminate|].
    destruct (existsb _ rows); [discriminate|]. intros [= <- <-].
    eexists. split_and!; [reflexivity|reflexivity|]. intros y Hy. specialize (Hlast _ eq_refl _ Hy).
    unfold seq_leb in *. cbn [r_seq]. rewrite Hseq in Hlast. destruct (r_seq y); [lia|done].
  - rewrite (Hnil eq_refl). set (h := row_hash _ _ _). clearbody h. cbn [existsb app].
    intros [= <- <-]. eexists. split_and!; [reflexivity|reflexivity|].
    intros y Hy. by apply elem_of_nil in Hy.
Qed.
Lemma write_event_events e rows out rows' : event_bindable e = true →
  _write_event e rows = (Ok out, rows') → events_of rows' = events_of rows ++ [e].
Proof.
  intros Hb Hw. destruct (write_event_row _ _ _ _ Hw) as (row & -> & Hj & Hle).
  unfold events_of, by_seq. rewrite py_sorted_last by done. rewrite omap_app. cbn.
  destruct (bindable_storable _ Hb) as [Ht Htimes]. by rewrite Hj, load_event_written.
Qed.
Definition appended (e : AuditEvent) (db db' : Db) : Prop :=
  ∃ rows, db' = t_set audit_table rows db ∧ events_of rows = events_of (d_audit db) ++ [e].
Lemma write_event_single e : single_write (write_event e) (λ db _ db', appended e db db').
Proof.
  unfold write_event. destruct (event_bindable e) eqn:Hb; [|apply single_write_raise].
  eapply single_write_weaken; [apply statement_write|]. cbn. intros db out db' (rows & Hst & ->).
  destruct (_write_event e (d_audit db)) as [[written|x] rows1] eqn:Hw; [|done].
  injection Hst as <- <-. exists rows1. split; [done|]. by eapply write_event_events.
Qed.
Lemma appended_events e db db' :
  appended e db db' → events_of (d_audit db') = events_of (d_audit db) ++ [e].
Proof. by intros (rows & -> & ?). Qed.

(** ** Every way to write *)

Lemma emit_db written (c : Store) : (emit_or_defer written c).1 = Ok tt ∧
  c_db (emit_or_defer written c).2 = c_db c.
Proof. unfold emit_or_defer, modify. cbn. by destruct (c_scopes c). Qed.
Lemma deferral_db {X} (m : M Store X) c r c' (P : Db → result X → Db → Prop) :
  (∀ c r c', m c = (r, c') → P (c_db c) r (c_db c')) →
  atomic_write_deferral m c = (r, c') → P (c_db c) r (c_db c').
Proof.
  intros Hm. unfold atomic_write_deferral. destruct (m _) as [[x|e] c1] eqn:Hrun;
    intros [= <- <-]; by apply (Hm _ _ _ Hrun).
Qed.
(** A savepoint keeps all of a single write, or nothing. *)
Lemma savepoint_single {X} (m : M Store X) Q c r c' : single_write m Q → savepoint m c = (r, c') →
  match r with Ok x => Q (c_db c) x (c_db c') | Raise _ => c_db c' = c_db c end.
Proof.
  intros [Hk Hw]. unfold savepoint. destruct (in_transaction c) eqn:Ho.
  - destruct (m c) as [[x|e] c1] eqn:Hrun; intros [= <- <-]; [by apply (Hw _ _ _ Hrun)|done].
  - set (c0 := set_saved _ c). unfold mbind, M_bind. destruct (m c0) as [[x|e] c1] eqn:Hrun.
    + specialize (Hw _ _ _ Hrun). cbn in Hw.
      assert (Hc : ∀ o c2, commit c1 = (o, c2) → c_db c2 = c_db c1).
      { unfold commit, gets, busy, raise, modify, mret, M_ret, mbind, M_bind. intros o c2.
        destruct (in_transaction c1); [|by intros [= <- <-]].
        destruct (default _ _); by intros [= <- <-]. }
      destruct (commit c1) as [[[]|e] c2] eqn:Hcm; cbn; intros [= <- <-]; [|done].
      by rewrite (Hc _ _ eq_refl).
    + by intros [= <- <-].
Qed.
Lemma best_effort_savepoint e c r c' : _write_best_effort_in_savepoint e c = (r, c') →
  events_of (d_audit (c_db c')) =
  match r with Ok true => events_of (d_audit (c_db c)) ++ [e] | _ => events_of (d_audit (c_db c)) end.
Proof.
  unfold _write_best_effort_in_savepoint, try_except, mbind, M_bind.
  destruct (savepoint (write_event e) c) as [[written|x] c1] eqn:Hs;
    pose proof (savepoint_single _ _ _ _ _ (write_event_single e) Hs) as Hw; cbn in Hw.
  - destruct (emit_db written c1) as [Hr Hdb].
    destruct (emit_or_defer written c1) as [ro c2]. cbn in Hr, Hdb. subst ro.
    intros [= <- <-]. rewrite Hdb. by apply appended_events.
  - intros [= <- <-]. by rewrite Hw.
Qed.

(** A write in the middle of a transaction: it appends its event and queues one
    emission, or raises. *)
Lemma sql_audit_write_inside e : keeps inside (sql_audit_write e).
Proof.
  apply keeps_bind; [apply _|apply inside_write_scope, (write_event_single e)|].
  intros written. apply inside_emit.
Qed.
Lemma sql_audit_write_db e c r c' : sql_audit_write e c = (r, c') →
  match r with Ok _ => appended e (c_db c) (c_db c') | Raise _ => c_db c' = c_db c end.
Proof.
  unfold sql_audit_write, mbind, M_bind.
  destruct (_write_scope (write_event e) c) as [[written|x] c1] eqn:Hs;
    pose proof (proj2 (single_write_scope _ _ (write_event_single e)) _ _ _ Hs) as Hw; cbn in Hw.
  - destruct (emit_db written c1) as [Hr Hdb].
    destruct (emit_or_defer written c1) as [ro c2]. cbn in Hr, Hdb. subst ro.
    intros [= <- <-]. by rewrite Hdb.
  - by intros [= <- <-].
Qed.
#[export] Hint Resolve sql_audit_write_inside : keeps.

#[export] Program Instance sqlite_audit_writer_ok : AuditWriterOk Store := {|
  aw_log c := events_of (d_audit (c_db c))
|}.
Next Obligation.
  intros e c r c' Hw%sql_audit_write_db. cbn. destruct r; [by apply appended_events|by rewrite Hw].
Qed.
Next Obligation.
  intros f e c r c' [= <-]. unfold sql_write_best_effort, try_except, gets, mbind, M_bind.
  set (P db (r : result bool) db' := events_of (d_audit db') =
    match r with Ok true => events_of (d_audit db) ++ [e] | _ => events_of (d_audit db) end).
  set (m := if in_transaction c then _write_best_effort_in_savepoint e
            else atomic_write_deferral (_write_best_effort_in_savepoint e)).
  assert (Hrun : ∀ r c', m c = (r, c') → P (c_db c) r (c_db c')).
  { intros r1 c1. subst m. destruct (in_transaction c); [apply best_effort_savepoint|].
    apply deferral_db. intros. by apply best_effort_savepoint. }
  change ((let '(r0, c0) := m c in match r0 with Ok a => (Ok a, c0) | Raise _ => (Ok false, c0) end)
    = (r, c') → P (c_db c) r (c_db c')).
  destruct (m c) as [[b|x] c1]; specialize (Hrun _ _ eq_refl); by intros [= <- <-].
Qed.
