(* ===== verification/SqlQuery.v ===== *)
(** * Queries on the audit table ([SQLiteAuditWriter] of [src/vinctor_service/sqlite.py])

    The filters of the audit trail, pushed down to SQL: the clauses of a WHERE
    are evaluated in order on each row, from the last row to the first, until
    the LIMIT is reached.  [json_extract] is the database's JSON function, whose
    documented behaviour on the texts the writer stores is [JsonExtractOk].  The
    theorems show that the queries answer what the filter in memory answers
    ([AuditQuery.v]), and the audit endpoint with them. *)
From S2P Require Import Prelude PyStr PyDict PyTime Scope Models Enforce CoreAudit AuditJson Json Sha256 Pop.
From S2P Require Import AuditChain World AuditWriter V1Enforce Repositories AuditQuery Http BoundaryHttp.
From S2P Require Import AuditHttp IdemRows SqlTxn SqlRows SqlStore.
From Stdlib Require Import Btauto.

(** ** SQL *)

(** [json_extract(text, path)]; a text that is not JSON is an error. *)
Class JsonExtract := json_extract : string → string → result pyval.
(** On a flat object, the string member that a path names, or NULL. *)
Class JsonExtractOk `{JsonExtract} := json_extract_member d k o :
  dict_wf d → Forall member_text d → dget k d = VStr <$> o →
  json_extract (json_dumps d) ("$." ^+ k) = Ok (opt_str o).

(** [=] on values of these columns: never true of NULL, nor of a text and a number. *)
Definition sql_eq (a b : pyval) : bool :=
  match a, b with
  | VStr s, VStr t => s == t
  | VInt x, VInt y => x =? y
  | _, _ => false
  end.
Definition clause : Type := audit_row → result bool.
(** [c1 AND c2 AND ...] *)
Fixpoint conjunction (clauses : list clause) (row : audit_row) : result bool :=
  match clauses with
  | [] => Ok true
  | c :: clauses' => holds ← c row; if holds : bool then conjunction clauses' row else Ok false
  end.
(** The rows that satisfy a condition, in order, as many as the LIMIT lets. *)
Fixpoint scan (where_ : clause) (limit : option nat) (rows : list audit_row) : result (list audit_row) :=
  match rows with
  | [] => Ok []
  | row :: rows' =>
      if decide (limit = Some 0%nat) then Ok []
      else
        found ← where_ row;
        if found : bool then rest ← scan where_ (pred <$> limit) rows'; Ok (row :: rest)
        else scan where_ limit rows'
  end.
(** A negative LIMIT is no limit. *)
Definition sql_limit (limit : option Z) : option nat :=
  match limit with Some n => if n <? 0 then None else Some (Z.to_nat n) | None => None end.
Definition column_is (name : string) (v : pyval) : clause := λ row, Ok (sql_eq (column name row) v).
Definition seq_at_most (n : Z) : clause := λ row,
  Ok match r_seq row with Some seq => seq <=? n | None => false end.
Definition seq_below (n : Z) : clause := λ row,
  Ok match r_seq row with Some seq => seq <? n | None => false end.
(** [SELECT event_json FROM audit_events WHERE ... ORDER BY seq DESC LIMIT ?], the
    rows turned around and read. *)
Definition select_latest (where_ : clause) (limit : option Z) : M Store (list AuditEvent) :=
  found ← select audit_table (λ rows, scan where_ (sql_limit limit) (rev (by_seq rows)));
  rows ← lift found;
  lift (mapM (λ row, load_event (r_event_json row)) (rev rows)).

(** ** The queries *)
Section queries.
Context `{JsonExtract}.

Definition sql_audit_get (event_id : string) : M Store (option AuditEvent) :=
  found ← select audit_table (AuditChain.get event_id); lift found.
Definition sql_list_all : M Store (list AuditEvent) :=
  found ← select audit_table list_all; lift found.
Definition sql_list_auth_failures (limit : Z) : M Store (list AuditEvent) :=
  bound ← lift (bind_int limit);
  select_latest (conjunction [column_is "workspace_id" (VStr ""); column_is "event_type" (VStr "auth_failed")])
    (Some bound).
(** The number of an event; NULL on a row the migration has not reached. *)
Definition sql_event_sequences (workspace_id : string) (event_ids : list string) :
    M Store (dict string (option Z)) :=
  match event_ids with
  | [] => mret []
  | _ :: _ =>
      select audit_table (foldl (λ d row,
        match column "event_id" row with
        | VStr id =>
            if sql_eq (column "workspace_id" row) (VStr workspace_id) && existsb (String.eqb id) event_ids
            then dset id (r_seq row) d else d
        | _ => d
        end) [])
  end.
(** The number of the event a cursor names; no bound when the number is NULL. *)
Definition cursor_seq (workspace_id : string) (event_id : option string) : M Store (option Z) :=
  match event_id with
  | None => mret None
  | Some id =>
      row ← select audit_table (List.find (λ row,
        sql_eq (column "event_id" row) (VStr id) && sql_eq (column "workspace_id" row) (VStr workspace_id)));
      match row with
      | None => raise InvalidAuditCursorError
      | Some row => mret (r_seq row)
      end
  end.
Definition optional {X} (o : option X) (f : X → clause) : list clause :=
  match o with Some x => [f x] | None => [] end.
Definition text_is (name : string) (s : string) : clause := column_is name (VStr s).
Definition member_is (path s : string) : clause := λ row,
  v ← json_extract (r_event_json row) path; Ok (sql_eq v (VStr s)).
Definition filter_clauses (workspace_id : string) (f : AuditFilter) (snapshot_seq before_seq : option Z) :
    list clause :=
  [text_is "workspace_id" workspace_id]
  ++ optional snapshot_seq seq_at_most
  ++ optional before_seq seq_below
  ++ optional (af_event_class f) (text_is "event_class")
  ++ optional (af_event_type f) (text_is "event_type")
  ++ optional (af_grant_ref f) (text_is "grant_ref")
  ++ optional (af_boundary_id f) (text_is "boundary_id")
  ++ optional (af_agent_id f) (text_is "agent_id")
  ++ optional (af_request_id f) (λ request_id row,
       Ok (sql_eq (column "resource" row) (VStr ("grant_request/" ^+ request_id))
           || sql_eq (column "grant_ref" row) (VStr request_id)))
  ++ optional (af_reason_code f) (member_is "$.reason_code")
  ++ optional (af_enforcing_principal f) (member_is "$.enforcing_principal")
  ++ optional (af_subject_token_verified f) (λ b, column_is "subject_token_verified" (VInt (Z.b2z b))).
Definition sql_list_filtered (workspace_id : string) (f : AuditFilter)
    (snapshot_event_id before_event_id : option string) (limit : option Z) : M Store (list AuditEvent) :=
  _ ← lift (validate_audit_event_class (af_event_class f));
  if bool_decide (is_Some before_event_id) && bool_decide (snapshot_event_id = None)
  then raise InvalidAuditCursorError
  else
    snapshot_seq ← cursor_seq workspace_id snapshot_event_id;
    before_seq ← cursor_seq workspace_id before_event_id;
    if match snapshot_seq, before_seq with
       | Some s, Some b => s <? b
       | _, _ => false
       end
    then raise InvalidAuditCursorError
    else
      bound ← lift (bind_opt_int limit);
      select_latest (conjunction (filter_clauses workspace_id f snapshot_seq before_seq)) bound.

(** What the audit endpoints read: an event whose number is NULL has none. *)
#[export] Instance SQLiteAuditReadService : AuditReadService Store := {|
  ars_get_audit_event := sql_audit_get;
  ars_list_filtered := sql_list_filtered;
  ars_audit_event_sequences := λ ws ids,
    sequences ← sql_event_sequences ws ids;
    mret (omap (λ kv, n ← kv.2; Some (kv.1, n)) sequences)
|}.
#[export] Instance SQLiteAuthFailureReadService : AuthFailureReadService Store := {|
  afs_list_auth_failures := sql_list_auth_failures
|}.
End queries.

(** ** The rows of a log *)

Definition row_of (pe : Z * AuditEvent) (row : audit_row) : Prop :=
  r_seq row = Some pe.1 ∧ r_event_json row = json_dumps (to_dict pe.2) ∧ r_columns row = event_columns pe.2.
Lemma log_rows es : Forall2 row_of (enumerate 1 es) (log_table es).
Proof.
  unfold log_table. generalize 1, GENESIS_PREV_HASH.
  induction es as [|e es IH]; intros n prev; constructor; [done|apply IH].
Qed.
Lemma Forall2_filter_rel {A B} (R : A → B → Prop) (p : A → bool) (q : B → bool) l k :
  Forall2 R l k → (∀ x y, x ∈ l → R x y → q y = p x) → Forall2 R (List.filter p l) (List.filter q k).
Proof.
  induction 1 as [|x y l k Hxy _ IH]; intros Hpq; [constructor|]. cbn.
  rewrite (Hpq x y) by (done || left). assert (IH' : Forall2 R (List.filter p l) (List.filter q k)).
  { apply IH. intros x' y' Hx'. apply Hpq. by right. }
  destruct (p x); [by constructor|done].
Qed.
Lemma find_rel {A B} (R : A → B → Prop) (p : A → bool) (q : B → bool) l k :
  Forall2 R l k → (∀ x y, R x y → q y = p x) →
  match List.find p l, List.find q k with Some x, Some y => R x y | None, None => True | _, _ => False end.
Proof. induction 1 as [|x y l k Hxy _ IH]; intros Hpq; [done|]. cbn. rewrite (Hpq x y Hxy). destruct (p x); [done|by apply IH]. Qed.

Lemma scan_spec (wh : clause) (p : audit_row → bool) limit rows :
  (∀ row, row ∈ rows → wh row = Ok (p row)) →
  scan wh limit rows = Ok (match limit with Some n => take n (List.filter p rows) | None => List.filter p rows end).
Proof.
  revert limit. induction rows as [|row rows IH]; intros limit Hp.
  { cbn. destruct limit as [n|]; [|done]. by rewrite take_nil. }
  cbn. case_decide as Hz; [by subst|]. rewrite (Hp row) by left. cbn.
  assert (IH' := λ l, IH l (λ r Hr, Hp r (list_elem_of_further _ _ _ Hr))).
  destruct (p row); [|apply IH']. rewrite IH'. destruct limit as [[|n]|]; done.
Qed.
Lemma rev_filter {A} (p : A → bool) l : rev (List.filter p l) = List.filter p (rev l).
Proof.
  induction l as [|x l IH]; [done|]. cbn. rewrite List.filter_app. cbn. rewrite <- IH.
  destruct (p x); cbn; [done|by rewrite app_nil_r].
Qed.
Lemma rev_take_rev {A} n (l : list A) : rev (take n (rev l)) = drop (length l - n) l.
Proof. by rewrite firstn_rev, rev_involutive. Qed.

Section equivalence.
Context `{Hje : JsonExtractOk}.

Lemma conjunction_app c1 c2 row b1 b2 :
  conjunction c1 row = Ok b1 → conjunction c2 row = Ok b2 → conjunction (c1 ++ c2) row = Ok (b1 && b2).
Proof.
  revert b1. induction c1 as [|c c1 IH]; intros b1; cbn; [by intros [= <-]|].
  destruct (c row) as [[]|]; [|intros [= <-]; done|done]. intros H1 H2. by apply IH.
Qed.
Lemma optional_holds {X} (o : option X) (g : X → clause) (p : X → bool) row :
  (∀ x, o = Some x → g x row = Ok (p x)) →
  conjunction (optional o g) row = Ok (match o with Some x => p x | None => true end).
Proof. intros Hg. destruct o as [x|]; [|done]. cbn. rewrite (Hg x eq_refl). by destruct (p x). Qed.

Definition in_bounds (s b : option Z) (n : Z) : bool :=
  match s with Some s => n <=? s | None => true end && match b with Some b => n <? b | None => true end.
Lemma rejects_not {A} `{EqDecision A} (o : option A) x :
  negb (rejects o x) = match o with Some y => bool_decide (x = y) | None => true end.
Proof. destruct o; [|done]. apply negb_involutive. Qed.
Lemma rejects_opt_not o x : negb (rejects_opt o x) = match o with Some y => bool_decide (x = Some y) | None => true end.
Proof. destruct o; [|done]. apply negb_involutive. Qed.
Lemma matches_conj e f : _audit_event_matches e f =
  negb (rejects (af_event_class f) (e_event_class e)) && negb (rejects (af_agent_id f) (e_agent_id e))
  && negb (rejects (af_event_type f) (e_event_type e)) && negb (rejects (af_grant_ref f) (e_grant_ref e))
  && negb (rejects_opt (af_boundary_id f) (e_boundary_id e)) && negb (rejects_opt (af_reason_code f) (e_reason_code e))
  && negb (rejects_opt (af_enforcing_principal f) (e_enforcing_principal e))
  && negb (rejects (af_subject_token_verified f) (e_subject_token_verified e))
  && match af_request_id f with
     | None => true
     | Some request_id => (e_resource e == "grant_request/" ^+ request_id) || (e_grant_ref e == request_id)
     end.
Proof. unfold _audit_event_matches. repeat (destruct (rejects _ _) || destruct (rejects_opt _ _); [btauto|cbn [negb andb]]). done. Qed.
Lemma eqb_decide (s t : string) : (s == t) = bool_decide (s = t).
Proof. destruct (String.eqb_spec s t); by case_bool_decide. Qed.
Lemma sql_eq_opt o s : sql_eq (opt_str o) (VStr s) = bool_decide (o = Some s).
Proof.
  destruct o as [x|]; cbn; [|by case_bool_decide]. rewrite eqb_decide. apply bool_decide_ext. split; [by intros ->|by intros [= ->]].
Qed.
Lemma member_is_spec k s pe row o : event_text pe.2 → row_of pe row → dget k (to_dict pe.2) = VStr <$> o →
  member_is ("$." ^+ k) s row = Ok (bool_decide (o = Some s)).
Proof.
  intros Ht (_ & Hj & _) Hk. unfold member_is. rewrite Hj, (Hje _ k o); [|apply to_dict_wf|done|done].
  cbn. by rewrite sql_eq_opt.
Qed.
Lemma clauses_spec ws f s b pe row : event_text pe.2 → row_of pe row →
  conjunction (filter_clauses ws f s b) row = Ok (in_bounds s b pe.1 && selects ws f pe.2).
Proof.
  intros Ht Hrow. pose proof Hrow as (Hseq & Hj & Hcol). pose proof (to_dict_optional_fields pe.2) as (Hep & Hrc & _).
  assert (Hc : ∀ name, column name row = default VNone (dget name (event_columns pe.2))) by (intros; unfold column; by rewrite Hcol).
  assert (Htext : ∀ name x y, column name row = VStr y → text_is name x row = Ok (bool_decide (y = x))).
  { intros name x y Hy. unfold text_is, column_is. rewrite Hy. cbn. by rewrite eqb_decide. }
  unfold filter_clauses, selects, in_bounds. rewrite matches_conj, !rejects_not, !rejects_opt_not. etrans.
  { apply conjunction_app; [|repeat (apply conjunction_app; [apply optional_holds; intros x Hx|]); try (apply optional_holds; intros x Hx)].
    - unfold conjunction. rewrite (Htext _ _ _ (Hc "workspace_id")). cbn. instantiate (1 := bool_decide (e_workspace_id pe.2 = ws)). by case_bool_decide.
    - unfold seq_at_most. rewrite Hseq. reflexivity.
    - unfold seq_below. rewrite Hseq. reflexivity.
    - apply (Htext _ _ _ (Hc "event_class")).
    - apply (Htext _ _ _ (Hc "event_type")).
    - apply (Htext _ _ _ (Hc "grant_ref")).
    - unfold text_is, column_is. rewrite (Hc "boundary_id" : _ = opt_str (e_boundary_id pe.2)), sql_eq_opt. reflexivity.
    - apply (Htext _ _ _ (Hc "agent_id")).
    - rewrite (Hc "resource" : _ = VStr _), (Hc "grant_ref" : _ = VStr _). reflexivity.
    - exact (member_is_spec "reason_code" x pe row _ Ht Hrow Hrc).
    - exact (member_is_spec "enforcing_principal" x pe row _ Ht Hrow Hep).
    - unfold column_is. rewrite (Hc "subject_token_verified" : _ = VInt (Z.b2z _)).
      instantiate (1 := λ x, bool_decide (e_subject_token_verified pe.2 = x)). by destruct (e_subject_token_verified pe.2), x. }
  cbn. rewrite eqb_decide. f_equal. btauto.
Qed.

(** What a query over the table of a log returns. *)
Lemma load_rows pes rows : Forall event_storable pes.*2 → Forall2 row_of pes rows →
  mapM (λ row, load_event (r_event_json row)) rows = Ok pes.*2.
Proof.
  intros Hs Hr. induction Hr as [|pe row pes rows (_ & Hj & _) _ IH]; [done|]. cbn in *.
  apply Forall_cons in Hs as [[Ht Htimes] Hs]. rewrite Hj, load_event_written by done. cbn. by rewrite IH.
Qed.
Lemma enumerate_snd {A} n (l : list A) : (enumerate n l).*2 = l.
Proof. revert n. induction l as [|x l IH]; intros n; [done|]. cbn. by rewrite IH. Qed.
Definition last_few {A} (limit : option Z) (l : list A) : list A :=
  match sql_limit limit with Some n => drop (length l - n) l | None => l end.
Lemma select_latest_log wh p es limit (c : Store) : d_audit (c_db c) = log_table es → Forall event_storable es →
  (∀ pe row, event_text pe.2 → row_of pe row → wh row = Ok (p pe)) →
  select_latest wh limit c = (Ok (last_few limit (map snd (List.filter p (enumerate 1 es)))), c).
Proof.
  intros Hdb Hes Hp. set (q row := match wh row with Ok b => b | Raise _ => false end).
  assert (Hrows : Forall2 row_of (enumerate 1 es) (log_table es)) by apply log_rows.
  assert (Hin : ∀ pe, pe ∈ enumerate 1 es → event_text pe.2).
  { intros pe Hpe. rewrite Forall_forall in Hes. apply Hes. rewrite <- (enumerate_snd 1 es). by apply list_elem_of_fmap_2. }
  assert (Hq : ∀ row, row ∈ rev (log_table es) → wh row = Ok (q row)).
  { intros row Hr. rewrite list_elem_of_In, <- in_rev, <- list_elem_of_In in Hr. apply list_elem_of_lookup in Hr as [i Hi].
    destruct (Forall2_lookup_r _ _ _ _ _ Hrows Hi) as (pe & Hpe & Hrow). unfold q.
    rewrite (Hp pe row); [done| |done]. apply Hin. by eapply list_elem_of_lookup_2. }
  assert (Hf : Forall2 row_of (List.filter p (enumerate 1 es)) (List.filter q (log_table es))).
  { apply (Forall2_filter_rel row_of); [done|]. intros pe row Hpe Hrow. unfold q. by rewrite (Hp pe row) by auto. }
  unfold select_latest. rewrite (bind_run _ _ _ _ _ (select_run _ _ _)). cbn [t_get audit_table].
  rewrite Hdb. change (by_seq (log_table es)) with (by_seq (chain_rows 1 GENESIS_PREV_HASH es)). rewrite chain_rows_sorted.
  rewrite (scan_spec wh q _ _ Hq). cbn [lift mbind M_bind]. unfold M_bind, lift. f_equal.
  assert (Hst : Forall event_storable (List.filter p (enumerate 1 es)).*2).
  { rewrite Forall_fmap, Forall_forall. intros pe Hpe. rewrite list_elem_of_In, filter_In, <- list_elem_of_In in Hpe.
    rewrite Forall_forall in Hes. apply Hes. rewrite <- (enumerate_snd 1 es). apply list_elem_of_fmap_2, Hpe. }
  rewrite <- rev_filter. unfold last_few, mbind. change (@map _ _ (@snd Z AuditEvent)) with (fmap (M := list) (@snd Z AuditEvent)).
  destruct (sql_limit limit) as [n|].
  - rewrite rev_take_rev, <- (Forall2_length _ _ _ Hf), length_fmap, <- fmap_drop. f_equal.
    apply load_rows; [|by apply Forall2_drop]. rewrite fmap_drop. by apply Forall_drop.
  - rewrite rev_involutive. f_equal. by apply load_rows.
Qed.
Lemma latest_last_n {A} limit (l : list A) : match limit with Some n => 0 < n | None => True end → last_few limit l = last_n limit l.
Proof.
  intros Hl. destruct limit as [n|]; [|done]. unfold last_few, last_n, sql_limit. rewrite slice_from_neg by done.
  by rewrite (proj2 (Z.ltb_ge _ _)) by lia.
Qed.
Lemma cursor_seq_log ws id es (c : Store) : d_audit (c_db c) = log_table es →
  cursor_seq ws id c = (cursor_position ws id es, c).
Proof.
  intros Hdb. unfold cursor_seq, cursor_position. destruct id as [id|]; [|done].
  rewrite (bind_run _ _ _ _ _ (select_run _ _ _)). cbn [t_get audit_table]. rewrite Hdb. unfold position_of.
  pose proof (find_rel row_of (λ pe, (e_event_id pe.2 == id) && (e_workspace_id pe.2 == ws))
    (λ row, sql_eq (column "event_id" row) (VStr id) && sql_eq (column "workspace_id" row) (VStr ws)) _ _ (log_rows es)) as Hfind.
  assert (Hmatch : ∀ pe row, row_of pe row →
    sql_eq (column "event_id" row) (VStr id) && sql_eq (column "workspace_id" row) (VStr ws) =
    (e_event_id pe.2 == id) && (e_workspace_id pe.2 == ws)).
  { intros pe row (_ & _ & Hcol). unfold column. by rewrite Hcol. }
  specialize (Hfind Hmatch). destruct (List.find _ (enumerate 1 es)) as [pe|], (List.find _ (log_table es)) as [row|]; try done.
  destruct Hfind as (Hseq & _). unfold mret, M_ret. cbn. by rewrite Hseq.
Qed.
Definition limit_fits (limit : option Z) : Prop :=
  match limit with Some n => 0 < n <= 9223372036854775807 | None => True end.
Lemma limit_bound limit : limit_fits limit → bind_opt_int limit = Ok limit.
Proof. destruct limit as [n|]; [|done]. cbn. intros Hn. unfold bind_int. by rewrite !(proj2 (Z.leb_le _ _)) by lia. Qed.
Lemma enumerate_bound {A} (l : list A) n pe : pe ∈ enumerate n l → n <= pe.1 < n + Z.of_nat (length l).
Proof.
  revert n. induction l as [|x l IH]; intros n Hpe; [by apply elem_of_nil in Hpe|].
  apply elem_of_cons in Hpe as [->|Hpe]; cbn; [lia|]. specialize (IH _ Hpe). lia.
Qed.

(** The audit filter pushed down to SQL answers exactly what the filter in memory answers: over the table of any
    log, whatever the filters, the cursors and the limit, the same events in the same order, and the same refusals of a
    class or a cursor. *)
Lemma sql_filter_equals_memory ws f snapshot before limit es (c : Store) :
  d_audit (c_db c) = log_table es → Forall event_storable es → limit_fits limit →
  sql_list_filtered ws f snapshot before limit c = (list_filtered ws f snapshot before limit es, c).
Proof.
  intros Hdb Hes Hlimit. unfold sql_list_filtered, list_filtered, mbind, M_bind, lift, result_bind.
  destruct (validate_audit_event_class _) as [[]|e]; [|done]. destruct (_ && _); [done|].
  rewrite (cursor_seq_log ws snapshot es c Hdb). destruct (cursor_position ws snapshot es) as [s|e]; [|done].
  rewrite (cursor_seq_log ws before es c Hdb). destruct (cursor_position ws before es) as [b|e]; [|done].
  destruct (match s, b with Some _, Some _ => _ | _, _ => _ end); [done|]. rewrite (limit_bound _ Hlimit). cbv beta iota zeta.
  rewrite (select_latest_log _ (λ pe, in_bounds s b pe.1 && selects ws f pe.2) es); [|done..|].
  - rewrite latest_last_n by (destruct limit; cbn in *; [lia|done]). unfold last_n.
    assert (Hsame : List.filter (λ pe, in_bounds s b pe.1 && selects ws f pe.2) (enumerate 1 es) =
      List.filter (λ pe, (pe.1 <=? default (Z.of_nat (length es)) s) && (pe.1 <? default (Z.of_nat (length es) + 1) b)
        && (e_workspace_id pe.2 == ws) && _audit_event_matches pe.2 f) (enumerate 1 es)).
    { apply List.filter_ext_in. intros pe Hpe. apply list_elem_of_In, enumerate_bound in Hpe. unfold in_bounds, selects.
      rewrite <- !andb_assoc. f_equal; [destruct s|f_equal; destruct b]; cbn; try done; symmetry; lia. }
    by rewrite Hsame.
  - intros pe row Ht Hrow. by apply clauses_spec.
Qed.

(** ** The other queries *)

Definition numbered (d : dict string Z) : dict string (option Z) := map (λ kv, (kv.1, Some kv.2)) d.
Lemma numbered_dset k n d : dset k (Some n) (numbered d) = numbered (dset k n d).
Proof. induction d as [|[k' v] d IH]; [done|]. cbn. case_decide; cbn; [done|]. f_equal. exact IH. Qed.
Lemma numbered_read d : omap (λ kv : string * option Z, n ← kv.2; Some (kv.1, n)) (numbered d) = d.
Proof. induction d as [|[k v] d IH]; [done|]. cbn. f_equal. exact IH. Qed.
Lemma sequences_log ws ids es (c : Store) : d_audit (c_db c) = log_table es →
  sql_event_sequences ws ids c = (Ok (numbered (audit_event_sequences ws ids es)), c).
Proof.
  intros Hdb. unfold sql_event_sequences, audit_event_sequences. destruct ids as [|id ids].
  { unfold mret, M_ret. do 2 f_equal. clear Hdb. generalize 1. induction es as [|e es IH]; intros n; [done|]. cbn.
    rewrite andb_false_r. apply IH. }
  rewrite select_run. cbn [t_get audit_table]. rewrite Hdb. do 2 f_equal. pose proof (log_rows es) as Hrows. revert Hrows.
  generalize (enumerate 1 es), (log_table es). intros pes rows Hrows.
  change (@nil (string * option Z)) with (numbered []). generalize (@nil (string * Z)).
  induction Hrows as [|pe row pes rows (Hseq & _ & Hcol) _ IH]; intros d; [done|]. cbn [foldl].
  assert (Hc : ∀ name, column name row = default VNone (dget name (event_columns pe.2))) by (intros; unfold column; by rewrite Hcol).
  rewrite (Hc "event_id" : _ = VStr _), (Hc "workspace_id" : _ = VStr _), Hseq. cbn [sql_eq].
  destruct (_ && _); [rewrite numbered_dset|]; apply IH.
Qed.
Lemma get_log id es (c : Store) : d_audit (c_db c) = log_table es → Forall event_storable es →
  sql_audit_get id c = (Ok (get_audit_event id es), c).
Proof.
  intros Hdb Hes. unfold sql_audit_get. rewrite (bind_run _ _ _ _ _ (select_run _ _ _)). cbn [t_get audit_table]. rewrite Hdb.
  unfold lift, AuditChain.get, get_audit_event. f_equal.
  pose proof (find_rel row_of (λ pe, e_event_id pe.2 == id) (λ row, py_eq (column "event_id" row) (VStr id)) _ _ (log_rows es)) as Hf.
  assert (Hen : List.find (λ event, e_event_id event == id) es = snd <$> List.find (λ pe, e_event_id pe.2 == id) (enumerate 1 es)).
  { clear. generalize 1. induction es as [|e es IH]; intros n; [done|]. cbn. destruct (e_event_id e == id); [done|apply IH]. }
  rewrite Hen. destruct (List.find _ (enumerate 1 es)) as [pe|] eqn:Hpe, (List.find _ (log_table es)) as [row|];
    try (exfalso; apply Hf; intros ? ? (_ & _ & Hcol); unfold column; by rewrite Hcol); [|done].
  destruct Hf as (_ & Hj & _). { intros ? ? (_ & _ & Hcol). unfold column. by rewrite Hcol. }
  apply find_some in Hpe as [Hpe _]. rewrite Forall_forall in Hes. destruct (Hes pe.2) as [Ht Htimes].
  { rewrite <- (enumerate_snd 1 es). by apply list_elem_of_fmap_2, list_elem_of_In. }
  by rewrite Hj, load_event_written.
Qed.
(** The failures that are shown are the last of the log, oldest first. *)
Lemma auth_failures_log limit es (c : Store) : d_audit (c_db c) = log_table es → Forall event_storable es →
  0 < limit <= 9223372036854775807 → sql_list_auth_failures limit c =
  (Ok (slice_from (- limit) (List.filter (λ e, (e_workspace_id e == "") && (e_event_type e == "auth_failed")) es)), c).
Proof.
  intros Hdb Hes Hl. unfold sql_list_auth_failures, bind_int. rewrite !(proj2 (Z.leb_le _ _)) by lia.
  unfold mbind, M_bind, lift. cbn [andb].
  rewrite (select_latest_log _ (λ pe, (e_workspace_id pe.2 == "") && (e_event_type pe.2 == "auth_failed")) es); [|done..|].
  - rewrite latest_last_n by (cbn; lia). do 3 f_equal. generalize 1. clear.
    induction es as [|e es IH]; intros n; [done|]. cbn. destruct (_ && _); cbn; by rewrite IH.
  - intros pe row _ (_ & _ & Hcol). unfold conjunction, column_is, column. rewrite Hcol.
    change (default VNone (dget "workspace_id" (event_columns pe.2))) with (VStr (e_workspace_id pe.2)).
    change (default VNone (dget "event_type" (event_columns pe.2))) with (VStr (e_event_type pe.2)). cbn.
    by destruct (_ == _), (_ == _).
Qed.

(** ** The audit endpoint

    On SQLite it answers what it answers in memory.  [alike m m']: both read,
    with the same outcome. *)
Section endpoint.
Context {G A : Type} `{GrantLifecycle G} `{AuditWriterOk A}.
Context (es : list AuditEvent) (c : Store) (w : World G A).
Context (Hdb : d_audit (c_db c) = log_table es) (Hes : Forall event_storable es) (Hlog : log w = es).

Definition alike {X} (m : M Store X) (m' : M (World G A) X) : Prop := ∃ r, m c = (r, c) ∧ m' w = (r, w).
Lemma alike_bind {X Y} (m : M Store X) m' (f : X → M Store Y) f' :
  alike m m' → (∀ x, m c = (Ok x, c) → alike (f x) (f' x)) → alike (m ≫= f) (m' ≫= f').
Proof.
  intros (r & Hm & Hm') Hf. unfold alike, mbind, M_bind. rewrite Hm, Hm'. destruct r as [x|e]; [by apply Hf|by exists (Raise e)].
Qed.
Lemma alike_ret {X} (x : X) : alike (mret x) (mret x).
Proof. by exists (Ok x). Qed.
Lemma alike_lift {X} (r : result X) : alike (lift r) (lift r).
Proof. by exists r. Qed.
Lemma alike_try {X} (m : M Store X) m' h h' :
  alike m m' → (∀ e, alike (h e) (h' e)) → alike (try_except m h) (try_except m' h').
Proof. intros (r & Hm & Hm') Hh. unfold try_except, alike. rewrite Hm, Hm'. destruct r as [x|e]; [by exists (Ok x)|apply Hh]. Qed.

Definition same_keys (kS : Keyring Store WorkspaceIdentity) (kW : Keyring (World G A) WorkspaceIdentity) : Prop :=
  ∀ key now, alike (resolve_identity kS key now) (resolve_identity kW key now).
Lemma alike_filtered ws f s b limit : limit_fits limit →
  alike (ars_list_filtered ws f s b limit) (ars_list_filtered ws f s b limit).
Proof.
  intros Hl. exists (list_filtered ws f s b limit es). split; [by apply sql_filter_equals_memory|]. cbn. by rewrite Hlog.
Qed.
Lemma alike_sequences ws ids : alike (ars_audit_event_sequences ws ids) (ars_audit_event_sequences ws ids).
Proof.
  exists (Ok (audit_event_sequences ws ids es)). split; cbn.
  - unfold mbind, M_bind. rewrite (sequences_log ws ids es c Hdb). unfold mret, M_ret. by rewrite numbered_read.
  - unfold gets. by rewrite Hlog.
Qed.
Lemma alike_get id : alike (ars_get_audit_event id) (ars_get_audit_event id).
Proof. exists (Ok (get_audit_event id es)). split; [by apply get_log|]. cbn. unfold gets. by rewrite Hlog. Qed.

Context (set_order : list string → list string) (int_unicode : string → result Z).
Lemma parsed_inv {X Y} (p : parsed X) (f : X → parsed Y) y : p ≫= f = inr y → ∃ x, p = inr x ∧ f x = inr y.
Proof. destruct p as [r|x]; [done|]. by exists x. Qed.
Lemma parse_limit_range value limit : parse_limit int_unicode value = inr limit → 0 < limit <= 100.
Proof.
  unfold parse_limit, refuse. destruct value as [s|]; [|intros E%(inj inr); lia].
  destruct (py_int _ _); [|done]. destruct (_ || _) eqn:Hl; [done|]. intros E%(inj inr). lia.
Qed.
Lemma parsed_limit query filters : _parse_filters set_order int_unicode query = inr filters → 0 < ef_limit filters <= 100.
Proof.
  unfold _parse_filters. intros (values & _ & Hp)%parsed_inv. cbv zeta in Hp. apply parsed_inv in Hp as (limit & Hl & Hp).
  apply parse_limit_range in Hl. repeat (apply parsed_inv in Hp as (? & _ & Hp)). by inversion Hp.
Qed.
Lemma alike_list_events query identity :
  alike (list_audit_events set_order int_unicode query identity) (list_audit_events set_order int_unicode query identity).
Proof.
  unfold list_audit_events. destruct (_parse_filters set_order int_unicode query) as [r|filters] eqn:Hp; [apply alike_ret|].
  apply parsed_limit in Hp. apply alike_bind.
  - apply alike_try.
    + apply alike_bind; [|intros x _; apply alike_ret]. apply alike_filtered. cbn. destruct (ef_paginate filters); lia.
    + intros e. destruct (decide _); [apply alike_ret|by exists (Raise e)].
  - intros [events|] _; [|apply alike_ret]. destruct (ef_paginate filters); [|apply alike_ret].
    apply alike_bind; [apply alike_sequences|]. intros d _. apply alike_bind; [apply alike_lift|]. intros x _. apply alike_ret.
Qed.
(** C38: The audit endpoint answers over SQLite what it answers over the log in memory: for every method, path, query and
    headers, with keys that resolve alike, the response is the same, whether the list, a page of it with its sequence
    numbers, a single event or a refusal, and reading changes nothing. *)
Theorem audit_endpoint_same_on_sqlite method path query headers kS kW aS aW now :
  same_keys kS kW → same_keys aS aW →
  ∃ r, handle_v1_audit_events_http set_order int_unicode method path query headers kS aS now c = (r, c) ∧
       handle_v1_audit_events_http set_order int_unicode method path query headers kW aW now w = (r, w).
Proof.
  intros Hk Ha. apply alike_bind.
  { unfold _audit_identity, header_identity. destruct (dget "x-workspace-key" _); [apply Hk|].
    destruct (dget "x-auditor-key" _); [apply Ha|apply alike_ret]. }
  intros [identity|] _; [|apply alike_ret]. destruct (path == _).
  { destruct (negb _); [apply alike_ret|apply alike_list_events]. }
  destruct (startswith _ _); [|apply alike_ret]. cbv zeta. destruct (_ || _); [apply alike_ret|].
  destruct (negb _); [apply alike_ret|]. apply alike_bind; [apply alike_get|]. intros e _. apply alike_ret.
Qed.
End endpoint.
End equivalence.

(** ** Witnesses *)

(** A JSON function that keeps its promise. *)
Definition extract_member (text path : string) : result pyval :=
  data ← json_loads text; Ok (default VNone (dget (removeprefix path "$.") data)).
Lemma extract_member_ok : JsonExtractOk (H := extract_member).
Proof.
  intros d k o Hd Ht Hk. unfold json_extract, extract_member. rewrite json_loads_dumps by done. cbn.
  replace (removeprefix ("$." ^+ k) "$.") with k by (by destruct k).
  rewrite dget_sorted, Hk by done. by destruct o.
Qed.
Definition sample_filter : AuditFilter := mkAuditFilter None (Some "action_permitted") None None None None None None (Some true).
Definition log_store : Store := opened (t_set audit_table (log_table AuditChain.sample_log) empty_db).
Lemma log_store_table : d_audit (c_db log_store) = log_table AuditChain.sample_log.
Proof. unfold log_store, opened. cbn [c_db t_set audit_table d_audit]. done. Qed.
Lemma sql_filter_equals_memory_witness :
  sql_list_filtered (H := extract_member) "ws_1" sample_filter None None (Some 1) log_store =
    (Ok [AuditChain.log_event "evt_2"], log_store).
Proof.
  assert (Hl : limit_fits (Some 1)) by (cbn; lia).
  pose proof (sql_filter_equals_memory (Hje := extract_member_ok) "ws_1" sample_filter None None (Some 1) AuditChain.sample_log
    log_store log_store_table AuditChain.sample_log_storable Hl) as Hq. rewrite Hq.
  vm_compute (list_filtered _ _ _ _ _ _). done.
Defined.
Definition log_world : World InMemoryGrantRepository InMemoryAuditWriter := set_audit (mkAuditWriter AuditChain.sample_log) own_world.
Lemma log_world_log : log log_world = AuditChain.sample_log.
Proof. done. Qed.
Definition sample_ring (S : Type) : Keyring S WorkspaceIdentity := mkKeyring (Some [("k", mkWorkspaceIdentity "ws_1")]) None.
Lemma audit_endpoint_same_on_sqlite_witness :
  ∃ r, handle_v1_audit_events_http (H := SQLiteAuditReadService (H := extract_member)) id (λ _, Ok 0) "GET"
         "/v1/audit-events" "limit=1" [("X-Workspace-Key", "k")] (sample_ring _) (sample_ring _) 0 log_store = (r, log_store) ∧
       handle_v1_audit_events_http id (λ _, Ok 0) "GET" "/v1/audit-events" "limit=1" [("X-Workspace-Key", "k")]
         (sample_ring _) (sample_ring _) 0 log_world = (r, log_world) ∧ r = Ok (events_response [AuditChain.log_event "evt_2"]).
Proof.
  destruct (audit_endpoint_same_on_sqlite (Hje := extract_member_ok) AuditChain.sample_log log_store log_world log_store_table AuditChain.sample_log_storable
    log_world_log id (λ _, Ok 0) "GET" "/v1/audit-events" "limit=1" [("X-Workspace-Key", "k")] (sample_ring _) (sample_ring _)
    (sample_ring _) (sample_ring _) 0 (λ key now, alike_ret _ _ _) (λ key now, alike_ret _ _ _)) as (r & Hs & Hm).
  exists r. split; [exact Hs|]. split; [exact Hm|]. apply (f_equal fst) in Hm. change (fst (r, log_world)) with r in Hm. rewrite <- Hm. vm_compute. reflexivity.
Defined.
