(* ===== verification/ControlPlane.v ===== *)
(** * The audited control plane ([src/vinctor_service/control_audit.py] and the
      control repositories of [src/vinctor_service/sqlite.py])

    Issuable bounds, enforcement mandates, auto-approval rules and boundaries:
    every change and its control event are one transaction.  A composite
    operation suppresses the events of the changes inside it and records one of
    its own. *)
From S2P Require Import Prelude PyStr PyDict PyTime Models ServiceModels Registry CoreAudit.
From S2P Require Import Repositories AuditWriter World Grants AutoApproval AuditChain Json.
From S2P Require Import SqlTxn SqlRows SqlStore SqlRefine SqlAudit.

Definition EVENT_ENFORCEMENT_SETTING_CHANGED := "enforcement_setting_changed".
Definition EVENT_SCOPE_BOUNDS_SET := "scope_bounds_set".
Definition EVENT_BOUNDARY_REGISTERED := "boundary_registered".
Definition EVENT_BOUNDARY_STATUS_CHANGED := "boundary_status_changed".
Definition EVENT_AUTO_APPROVAL_RULE_CREATED := "auto_approval_rule_created".

(** ** [ControlPlaneAuditor] *)

(** Connections by their identity: the auditor's, and the repository's. *)
Definition require_bound_to (bound conn : option nat) : result unit :=
  match bound, conn with
  | None, _ => Raise (ValueError "control auditor must write through the backend's durable audit writer; a writer without a database connection cannot commit atomically with the control mutation")
  | _, None => Raise (ValueError "control mutation store exposes no connection to verify against; refusing to assume it matches the audit connection")
  | Some b, Some c =>
      if (b =? c)%nat then Ok tt
      else Raise (ValueError "control auditor must write through the SAME connection as the control repository, or the mutation and its audit row cannot commit as one transaction")
  end.

Definition set_depth (depth : nat) (l : Local) : Local := mkLocal depth (l_pending l) (l_entropy l) (l_clock l).
Definition set_pending (pending : option AuditEvent) (l : Local) : Local :=
  mkLocal (l_depth l) pending (l_entropy l) (l_clock l).
Definition control_event_id : M Store string :=
  t ← draw 12; mret ("evt_" ^+ t).
Definition _depth : M Store nat := gets (λ c, l_depth (c_local c)).

Definition record (event : ControlInput) : M Store unit :=
  depth ← _depth;
  if (0 <? depth)%nat then mret tt
  else
    event_id ← control_event_id;
    sql_audit_write (build_control_audit_event event event_id).

(** [PendingControlEvent.set] *)
Definition pending_set (event : ControlInput) : M Store unit :=
  pending ← gets (λ c, l_pending (c_local c));
  match pending with
  | Some _ => raise (RuntimeError "composite control operation event already recorded")
  | None =>
      event_id ← control_event_id;
      on_local (modify (set_pending (Some (build_control_audit_event event event_id))))
  end.

Definition composite {X} (body : M Store X) : M Store X :=
  depth ← _depth;
  if (0 <? depth)%nat then raise (RuntimeError "composite control operations do not nest: the enclosing operation records the ONE control event for everything inside it")
  else
    open ← gets in_transaction;
    if negb open then raise (RuntimeError "a composite control operation requires an open transaction on the audit connection; without one, suppressed inner mutations would commit individually with no audit record")
    else
      _ ← on_local (modify (λ l, set_depth (S depth) (set_pending None l)));
      x ← (λ c, let '(r, c') := body c in (r, set_local (set_depth depth (c_local c')) c'));
      pending ← gets (λ c, l_pending (c_local c));
      match pending with
      | None => raise (RuntimeError "composite control operation finished without recording its control audit event; refusing to commit an un-audited rule change")
      | Some event => _ ← sql_audit_write event; mret x
      end.

(** [INSERT ... ON CONFLICT(key) DO UPDATE], where [hit] is the conflict. *)
Definition upsert {R} (hit : R → bool) (fresh : R) (update : R → R) (rows : list R) : list R :=
  if existsb hit rows then map (λ row, if hit row then update row else row) rows
  else rows ++ [fresh].

(** ** Issuable scope bounds *)

Definition bdw_hit (workspace_id agent_id : string) (row : bounds_row) : bool :=
  (bdw_workspace_id row == workspace_id) && (bdw_agent_id row == agent_id).
Definition sql_get_bounds_with_max_ttl (workspace_id agent_id : string) :
    M Store (option AgentIssuableBounds) :=
  row ← select bounds_table (List.find (bdw_hit workspace_id agent_id));
  match row with
  | None => mret None
  | Some row =>
      scopes ← lift (read_strings (bdw_scopes_json row));
      mret (Some (mkAgentIssuableBounds scopes (bdw_max_ttl_seconds row)))
  end.
Definition sql_get_bounds (workspace_id agent_id : string) : M Store (option (list string)) :=
  row ← select bounds_table (List.find (bdw_hit workspace_id agent_id));
  match row with
  | None => mret None
  | Some row => scopes ← lift (read_strings (bdw_scopes_json row)); mret (Some scopes)
  end.
Definition sql_get_max_ttl_seconds (workspace_id agent_id : string) : M Store (option Z) :=
  row ← select bounds_table (List.find (bdw_hit workspace_id agent_id));
  mret (row ≫= bdw_max_ttl_seconds).
Definition workspace_bounds (workspace_id : string) (rows : list bounds_row) : list bounds_row :=
  py_sorted (λ x y, String.leb (bdw_agent_id x) (bdw_agent_id y))
    (List.filter (λ row, bdw_workspace_id row == workspace_id) rows).
Definition sql_list_bounds_for_workspace (workspace_id : string) :
    M Store (list (string * list string)) :=
  rows ← select bounds_table (workspace_bounds workspace_id);
  lift (mapM (λ row, scopes ← read_strings (bdw_scopes_json row); Ok (bdw_agent_id row, scopes)) rows).

Definition scope_bounds_event (workspace_id agent_id : string) (scopes : list string)
    (max_ttl_seconds : option Z) (clear_max_ttl : bool) (now : Z)
    (enforcing_principal : option string) : ControlInput :=
  {| ci_event_type := EVENT_SCOPE_BOUNDS_SET; ci_workspace_id := workspace_id;
     ci_action := "set_issuable_scope_bounds";
     ci_resource := "issuable_scope_bounds/" ^+ agent_id;
     ci_reason := set_bounds_audit_reason max_ttl_seconds clear_max_ttl; ci_created_at := now;
     ci_agent_id := agent_id; ci_scope_attempted := join " " scopes; ci_boundary_id := None;
     ci_enforcing_principal := enforcing_principal; ci_event_id := None |}.
(** The undeclared cap COALESCEs to the stored one. *)
Definition write_bounds (workspace_id agent_id : string) (scopes : list string)
    (max_ttl_seconds : option Z) (clear_max_ttl : bool) (now : Z) : M Store unit :=
  values ← lift (scopes_json ← bind_strings scopes;
                 max_ttl ← bind_opt_int max_ttl_seconds;
                 updated_at ← bind_datetime now;
                 Ok (mkBoundsRow workspace_id agent_id scopes_json max_ttl updated_at));
  statement bounds_table (λ rows, Ok (tt,
    upsert (bdw_hit workspace_id agent_id) values (λ row,
      mkBoundsRow (bdw_workspace_id row) (bdw_agent_id row) (bdw_scopes_json values)
        (if clear_max_ttl then None
         else match bdw_max_ttl_seconds values with
              | Some ttl => Some ttl
              | None => bdw_max_ttl_seconds row
              end) (bdw_updated_at values)) rows)).
Definition sql_set_bounds (workspace_id agent_id : string) (scopes : list string)
    (max_ttl_seconds : option Z) (clear_max_ttl : bool) (now : Z)
    (enforcing_principal : option string) : M Store unit :=
  _ ← lift (validate_issuable_scope_bounds scopes max_ttl_seconds);
  _ ← lift (validate_clear_max_ttl max_ttl_seconds clear_max_ttl);
  _atomic_write (
    _ ← write_bounds workspace_id agent_id scopes max_ttl_seconds clear_max_ttl now;
    record (scope_bounds_event workspace_id agent_id scopes max_ttl_seconds clear_max_ttl now
      enforcing_principal)).

(** ** Enforcement settings *)

(** The three mandates: a value column and its [_set] column each. *)
Inductive mandate := RequireBoundary | RequireSubjectToken | RequirePop.
Definition mandate_name (m : mandate) : string :=
  match m with
  | RequireBoundary => "require_boundary"
  | RequireSubjectToken => "require_subject_token"
  | RequirePop => "require_pop"
  end.
(** [SELECT require_X ... AND require_X_set = 1], on a row. *)
Definition stw_mandate (m : mandate) (row : settings_row) : option bool :=
  match m with
  | RequireBoundary => if stw_require_boundary_set row then Some (stw_require_boundary row) else None
  | RequireSubjectToken =>
      if stw_require_subject_token_set row then Some (stw_require_subject_token row) else None
  | RequirePop => if stw_require_pop_set row then Some (stw_require_pop row) else None
  end.
Definition stw_hit (workspace_id agent_id : string) (row : settings_row) : bool :=
  (stw_workspace_id row == workspace_id) && (stw_agent_id row == agent_id).
(** [SET require_X = ?, require_X_set = 1, updated_at = ?] *)
Definition stw_update (m : mandate) (value : bool) (updated_at : string) (row : settings_row) :
    settings_row :=
  let '(mkSettingsRow ws ag b bs t ts p ps _) := row in
  match m with
  | RequireBoundary => mkSettingsRow ws ag value true t ts p ps updated_at
  | RequireSubjectToken => mkSettingsRow ws ag b bs value true p ps updated_at
  | RequirePop => mkSettingsRow ws ag b bs t ts value true updated_at
  end.

Section settings.
(** The schema's default of the [require_boundary] column: 1 in a database
    created by this version, 0 in one created before the column's default
    changed. *)
Context (require_boundary_default : bool).

(** A row of defaults. *)
Definition stw_default (workspace_id agent_id updated_at : string) : settings_row :=
  mkSettingsRow workspace_id agent_id require_boundary_default false false false false false
    updated_at.

Definition sql_get_setting (m : mandate) (workspace_id agent_id : string) : M Store (option bool) :=
  select settings_table (λ rows,
    List.find (λ row, stw_hit workspace_id agent_id row && bool_decide (is_Some (stw_mandate m row)))
      rows ≫= stw_mandate m).
Definition sql_get_require_boundary_setting := sql_get_setting RequireBoundary.
Definition sql_get_require_subject_token_setting := sql_get_setting RequireSubjectToken.
Definition sql_get_require_pop_setting := sql_get_setting RequirePop.

(** The agent's setting, else the workspace's, else the default. *)
Definition sql_effective (m : mandate) (default : bool) (workspace_id agent_id : string) :
    M Store bool :=
  agent ← sql_get_setting m workspace_id agent_id;
  match agent with
  | Some agent => mret agent
  | None =>
      ws ← sql_get_setting m workspace_id "";
      mret (match ws with Some ws => ws | None => default end)
  end.
Definition sql_is_boundary_required := sql_effective RequireBoundary require_boundary_default.
Definition sql_is_subject_token_required := sql_effective RequireSubjectToken false.
Definition sql_is_pop_required := sql_effective RequirePop false.
Definition sql_get_require_boundary := sql_is_boundary_required.

Definition boundary_settings (workspace_id : string) (rows : list settings_row) : list settings_row :=
  py_sorted (λ x y, String.leb (stw_agent_id x) (stw_agent_id y))
    (List.filter (λ row, (stw_workspace_id row == workspace_id) && stw_require_boundary_set row) rows).
Definition sql_list_require_boundary (workspace_id : string) : M Store (list (string * bool)) :=
  rows ← select settings_table (boundary_settings workspace_id);
  mret (map (λ row, (stw_agent_id row, stw_require_boundary row)) rows).

Definition setting_event (m : mandate) (value : bool) (workspace_id agent_id : string) (now : Z)
    (enforcing_principal : option string) : ControlInput :=
  {| ci_event_type := EVENT_ENFORCEMENT_SETTING_CHANGED; ci_workspace_id := workspace_id;
     ci_action := "set_" ^+ mandate_name m;
     ci_resource := "enforcement_setting/" ^+ mandate_name m;
     ci_reason := mandate_name m ^+ "=" ^+ (if value then "true" else "false");
     ci_created_at := now; ci_agent_id := agent_id; ci_scope_attempted := "";
     ci_boundary_id := None; ci_enforcing_principal := enforcing_principal; ci_event_id := None |}.
Definition write_setting (m : mandate) (workspace_id agent_id : string) (value : bool) (now : Z) :
    M Store unit :=
  updated_at ← lift (bind_datetime now);
  statement settings_table (λ rows, Ok (tt,
    upsert (stw_hit workspace_id agent_id)
      (stw_update m value updated_at (stw_default workspace_id agent_id updated_at))
      (stw_update m value updated_at) rows)).
Definition sql_set_mandate (m : mandate) (workspace_id agent_id : string) (value : bool) (now : Z)
    (enforcing_principal : option string) : M Store unit :=
  _atomic_write (
    _ ← write_setting m workspace_id agent_id value now;
    record (setting_event m value workspace_id agent_id now enforcing_principal)).
Definition sql_set_require_boundary := sql_set_mandate RequireBoundary.
Definition sql_set_require_subject_token := sql_set_mandate RequireSubjectToken.
Definition sql_set_require_pop := sql_set_mandate RequirePop.
End settings.

(** ** Auto-approval rules *)

Definition sql_get_rule (rule_id : string) : M Store (option AutoApprovalRule) :=
  row ← select rules_table (List.find (λ row, rlw_rule_id row == rule_id));
  match row with
  | None => mret None
  | Some row => rule ← lift (_auto_approval_rule_from_row row); mret (Some rule)
  end.
Definition workspace_rules (workspace_id : string) (rows : list rule_row) : list rule_row :=
  py_sorted (order_by rlw_created_at rlw_rule_id)
    (List.filter (λ row, rlw_workspace_id row == workspace_id) rows).
Definition sql_list_rules_for_workspace (workspace_id : string) : M Store (list AutoApprovalRule) :=
  rows ← select rules_table (workspace_rules workspace_id);
  lift (mapM _auto_approval_rule_from_row rows).

(** [rule.created_by or None] *)
Definition principal_or_none (principal : string) : option string :=
  if principal == "" then None else Some principal.
Definition rule_created_event (rule : AutoApprovalRule) : ControlInput :=
  {| ci_event_type := EVENT_AUTO_APPROVAL_RULE_CREATED; ci_workspace_id := aar_workspace_id rule;
     ci_action := "create_auto_approval_rule";
     ci_resource := "auto_approval_rule/" ^+ aar_rule_id rule;
     ci_reason := "status=" ^+ aar_status rule; ci_created_at := aar_created_at rule;
     ci_agent_id := ""; ci_scope_attempted := ""; ci_boundary_id := None;
     ci_enforcing_principal := principal_or_none (aar_created_by rule); ci_event_id := None |}.
Definition rule_updated_event (prior rule : AutoApprovalRule) : ControlInput :=
  let control := auto_approval_update_control_event prior rule in
  {| ci_event_type := ru_event_type control; ci_workspace_id := aar_workspace_id rule;
     ci_action := ru_action control;
     ci_resource := "auto_approval_rule/" ^+ aar_rule_id rule;
     ci_reason := ru_reason control;
     ci_created_at := obj_or (aar_updated_at rule) (aar_created_at rule);
     ci_agent_id := ""; ci_scope_attempted := ru_scope_attempted control; ci_boundary_id := None;
     ci_enforcing_principal := aar_updated_by rule ≫= principal_or_none; ci_event_id := None |}.
Definition write_new_rule (rule : AutoApprovalRule) : M Store unit :=
  row ← lift (_auto_approval_rule_values rule);
  statement rules_table (λ rows,
    if existsb (λ r, rlw_rule_id r == aar_rule_id rule) rows
    then Raise (integrity_error "auto_approval_rules.rule_id")
    else Ok (tt, rows ++ [row])).
Definition sql_add_rule (rule : AutoApprovalRule) : M Store unit :=
  existing ← sql_get_rule (aar_rule_id rule);
  match existing with
  | Some _ => raise (ValueError ("duplicate auto-approval rule_id: " ^+ aar_rule_id rule))
  | None => _atomic_write (_ ← write_new_rule rule; record (rule_created_event rule))
  end.
Definition write_rule (rule : AutoApprovalRule) : M Store unit :=
  row ← lift (_auto_approval_rule_values rule);
  statement rules_table (λ rows, Ok (tt,
    map (λ r, if rlw_rule_id r == aar_rule_id rule then row else r) rows)).
Definition sql_update_rule (rule : AutoApprovalRule) : M Store unit :=
  _atomic_write (
    prior ← sql_get_rule (aar_rule_id rule);
    match prior with
    | None => raise (ValueError ("unknown auto-approval rule_id: " ^+ aar_rule_id rule))
    | Some prior => _ ← write_rule rule; record (rule_updated_event prior rule)
    end).

(** ** Boundaries *)

Definition _boundary_control_operation (operation : string) : result (string * string) :=
  if operation == "register" then Ok (EVENT_BOUNDARY_REGISTERED, "register_boundary")
  else if operation == "enable" then Ok (EVENT_BOUNDARY_STATUS_CHANGED, "enable_boundary")
  else if operation == "disable" then Ok (EVENT_BOUNDARY_STATUS_CHANGED, "disable_boundary")
  else Raise (ValueError ("unknown boundary operation: " ^+ operation)).

Definition boundary_event (boundary : Boundary) (event_type action : string)
    (enforcing_principal : string) : ControlInput :=
  {| ci_event_type := event_type; ci_workspace_id := b_workspace_id boundary; ci_action := action;
     ci_resource := "boundary/" ^+ b_boundary_id boundary;
     ci_reason := "status=" ^+ b_status boundary; ci_created_at := b_updated_at boundary;
     ci_agent_id := ""; ci_scope_attempted := ""; ci_boundary_id := Some (b_boundary_id boundary);
     ci_enforcing_principal := Some enforcing_principal; ci_event_id := None |}.
Definition write_boundary (boundary : Boundary) : M Store unit :=
  row ← lift (boundary_values boundary);
  statement boundaries_table (λ rows,
    if existsb (λ r, negb (brw_boundary_id r == b_boundary_id boundary)
                     && (brw_workspace_id r == b_workspace_id boundary)
                     && (brw_name r == b_name boundary)) rows
    then Raise (integrity_error "boundaries.workspace_id, boundaries.name")
    else Ok (tt, upsert (λ r, brw_boundary_id r == b_boundary_id boundary) row (λ _, row) rows)).
Definition sql_add_audited (boundary : Boundary) (operation : string)
    (enforcing_principal : option string) : M Store Boundary :=
  match enforcing_principal ≫= principal_or_none with
  | None => raise (ValueError "enforcing_principal is required for an audited boundary mutation")
  | Some principal =>
      op ← lift (_boundary_control_operation operation);
      _ ← _atomic_write (
        _ ← write_boundary boundary;
        record (boundary_event boundary op.1 op.2 principal));
      mret boundary
  end.
Definition sql_get_boundary (boundary_id : string) : M Store (option Boundary) :=
  row ← select boundaries_table (List.find (λ row, brw_boundary_id row == boundary_id));
  match row with
  | None => mret None
  | Some row => boundary ← lift (_boundary_from_row row); mret (Some boundary)
  end.
Definition sql_list_boundaries (workspace_id : string) : M Store (list Boundary) :=
  rows ← select boundaries_table (λ rows,
    py_sorted (order_by brw_created_at brw_boundary_id)
      (List.filter (λ row, brw_workspace_id row == workspace_id) rows));
  lift (mapM _boundary_from_row rows).
(** [add] without a principal is misuse ([NotImplementedError]). *)
#[export] Instance SQLiteBoundaryRegistry : BoundaryStore Store := {|
  bs_get := sql_get_boundary;
  bs_list_for_workspace := sql_list_boundaries;
  bs_add _ := raise (RuntimeError "SQLiteBoundaryRegistry is audited: use add_audited");
  bs_add_audited := Some sql_add_audited
|}.

(** ** Changes and their events *)

(** One control-plane change, as its repository makes it. *)
Inductive ControlOp :=
  | SetBounds (workspace_id agent_id : string) (scopes : list string)
      (max_ttl_seconds : option Z) (clear_max_ttl : bool) (now : Z) (principal : option string)
  | SetMandate (m : mandate) (workspace_id agent_id : string) (value : bool) (now : Z)
      (principal : option string)
  | AddRule (rule : AutoApprovalRule)
  | UpdateRule (rule : AutoApprovalRule)
  | AddBoundary (boundary : Boundary) (operation : string) (principal : option string).

Section control.
Context (require_boundary_default : bool).

Definition run_control (op : ControlOp) : M Store unit :=
  match op with
  | SetBounds ws ag scopes ttl clear now p => sql_set_bounds ws ag scopes ttl clear now p
  | SetMandate m ws ag value now p => sql_set_mandate require_boundary_default m ws ag value now p
  | AddRule rule => sql_add_rule rule
  | UpdateRule rule => sql_update_rule rule
  | AddBoundary b op p => _ ← sql_add_audited b op p; mret tt
  end.
(** The statement at the heart of a change. *)
Definition control_write (op : ControlOp) : M Store unit :=
  match op with
  | SetBounds ws ag scopes ttl clear now _ => write_bounds ws ag scopes ttl clear now
  | SetMandate m ws ag value now _ => write_setting require_boundary_default m ws ag value now
  | AddRule rule => write_new_rule rule
  | UpdateRule rule => write_rule rule
  | AddBoundary b _ _ => write_boundary b
  end.
(** Whether an event tells of this change: its workspace and who made it. *)
Definition tells_of (op : ControlOp) (event : ControlInput) : Prop :=
  match op with
  | SetBounds ws ag scopes ttl clear now p => event = scope_bounds_event ws ag scopes ttl clear now p
  | SetMandate m ws ag value now p => event = setting_event m value ws ag now p
  | AddRule rule => event = rule_created_event rule
  | UpdateRule rule => ∃ prior, aar_rule_id prior = aar_rule_id rule ∧
      event = rule_updated_event prior rule
  | AddBoundary b operation p => ∃ kind principal, p = Some principal ∧ principal ≠ "" ∧
      _boundary_control_operation operation = Ok kind ∧
      event = boundary_event b kind.1 kind.2 principal
  end.
(** What a statement makes of the data. *)
Definition wrote (m : M Store unit) (db db' : Db) : Prop :=
  ∃ c c', c_db c = db ∧ m c = (Ok tt, c') ∧ c_db c' = db'.

Definition same_depth (l l' : Local) : Prop := l_depth l' = l_depth l.
#[export] Instance same_depth_preorder : PreOrder same_depth.
Proof. split; unfold same_depth; [done|]. intros x y z H1 H2. congruence. Qed.
Definition quiet (c c' : Store) : Prop := c_scopes c' = c_scopes c ∧ c_local c' = c_local c.
#[export] Instance quiet_preorder : PreOrder quiet.
Proof. split; unfold quiet; [done|]. intros x y z [] []. split; congruence. Qed.

(** A statement with the values it binds: one write, which emits nothing. *)
Definition plain_write (m : M Store unit) : Prop :=
  single_write m (λ db _ db', wrote m db db') ∧ keeps quiet m.
Lemma plain_statement {T Y} (o : result Y) (t : table T) (st : Y → T → result (unit * T)) :
  plain_write (y ← lift o; statement t (st y)).
Proof.
  split.
  - destruct (runs_statement o t st) as [Hk Hrun]. split; [done|]. intros c r c' Hm.
    pose proof (proj1 (Hrun _ _ _ Hm)) as Hf. destruct r as [[]|e]; [by exists c, c'|].
    destruct o as [y|e']; [destruct (st y (t_get t (c_db c))) as [[x rows]|e']|]; by simplify_eq.
  - apply keeps_bind; [apply _|apply keeps_lift, _|]. intros y c. unfold statement, execute.
    destruct (in_transaction c); by destruct (st y _) as [[x rows]|e].
Qed.
Lemma control_write_plain op : plain_write (control_write op).
Proof. destruct op; apply plain_statement. Qed.

Lemma control_event_id_run c : ∃ id l, control_event_id c = (Ok id, set_local l c) ∧
  l_depth l = l_depth (c_local c) ∧ l_pending l = l_pending (c_local c).
Proof. eexists _, _. split; [done|]. done. Qed.
(** [record] outside composites and inside them. *)
Lemma record_suppressed event c : (0 < l_depth (c_local c))%nat → record event c = (Ok tt, c).
Proof.
  intros Hd. unfold record, _depth, gets, mbind, M_bind.
  by rewrite (proj2 (Nat.ltb_lt _ _) Hd).
Qed.
Lemma control_event_id_inside : keeps inside control_event_id.
Proof. apply keeps_bind; [apply _|apply inside_local|intros; apply keeps_ret, _]. Qed.
Lemma record_inside event : keeps inside (record event).
Proof.
  unfold record, _depth. apply keeps_bind; [apply _|apply keeps_gets, _|]. intros depth.
  apply keeps_if; [apply keeps_ret, _|].
  apply keeps_bind; [apply _|apply control_event_id_inside|intros; apply sql_audit_write_inside].
Qed.
Lemma sql_audit_write_depth e : keeps (locally same_depth) (sql_audit_write e).
Proof.
  apply keeps_bind; [apply _|apply locally_write_scope; [apply _|]|intros; apply locally_emit, _].
  unfold write_event. apply keeps_if; [apply locally_execute, _|apply keeps_raise, _].
Qed.
Lemma record_depth event : keeps (locally same_depth) (record event).
Proof.
  unfold record, _depth. apply keeps_bind; [apply _|apply keeps_gets, _|]. intros depth.
  apply keeps_if; [apply keeps_ret, _|]. apply keeps_bind; [apply _| |intros; apply sql_audit_write_depth].
  apply keeps_bind; [apply _|by apply locally_on_local|intros; apply keeps_ret, _].
Qed.
(** In an open transaction: one event, one emission waiting for the commit. *)
Lemma sql_audit_write_run e c x c' : c_saved c ≠ None → sql_audit_write e c = (Ok x, c') →
  ∃ h, appended e (c_db c) (c_db c') ∧
    c_scopes c' = match c_scopes c with s :: o => (s ++ [h]) :: o | [] => [] end.
Proof.
  intros Hs Hw. pose proof (sql_audit_write_db e c _ _ Hw) as Ha. cbn in Ha.
  revert Hw. unfold sql_audit_write. rewrite bind_Ok_inv. intros (h & c1 & Hw & Hemit).
  exists h. split; [done|].
  rewrite (proj2 (nested_scope_joins (write_event e) c Hs)) in Hw.
  assert (Hq : c_scopes c1 = c_scopes c).
  { revert Hw. unfold write_event. destruct (event_bindable e); [|done]. unfold statement, execute.
    destruct (in_transaction c); destruct (_write_event e _) as [[o|o] rows]; cbn; by intros [= <- <-]. }
  revert Hemit. unfold emit_or_defer, modify. rewrite <- Hq. intros [= <- <-].
  by destruct (c_scopes c1) eqn:Hc1.
Qed.
(** [record] outside any composite. *)
Lemma record_run event c x c' : c_saved c ≠ None → l_depth (c_local c) = O →
  record event c = (Ok x, c') →
  ∃ id h, appended (build_control_audit_event event id) (c_db c) (c_db c') ∧
    c_scopes c' = match c_scopes c with s :: o => (s ++ [h]) :: o | [] => [] end.
Proof.
  intros Hs Hd. unfold record. rewrite (bind_run _depth _ c (l_depth (c_local c)) c eq_refl), Hd.
  cbn [Nat.ltb Nat.leb].
  destruct (control_event_id_run c) as (id & l & Hid & _). rewrite (bind_run _ _ _ _ _ Hid).
  intros Hw. exists id. by apply (sql_audit_write_run _ (set_local l c) x c').
Qed.
(** [PendingControlEvent.set], the first time. *)
Lemma pending_set_run event c : l_pending (c_local c) = None →
  ∃ id l, pending_set event c = (Ok tt, set_local l c) ∧ l_depth l = l_depth (c_local c) ∧
    l_pending l = Some (build_control_audit_event event id).
Proof.
  intros Hp. unfold pending_set.
  rewrite (bind_run (gets (λ c, l_pending (c_local c))) _ c (l_pending (c_local c)) c eq_refl), Hp.
  destruct (control_event_id_run c) as (id & l & Hid & Hd & _). rewrite (bind_run _ _ _ _ _ Hid).
  exists id. eexists. split; [reflexivity|]. by split.
Qed.

(** ** One change, one event *)

(** The body of a change: outside any composite, a run in an open transaction
    makes the statement of [write] and appends one event that [P] holds of. *)
Definition audited_body {X} (m : M Store X) (write : M Store unit) (P : ControlInput → Prop) : Prop :=
  keeps inside m ∧ keeps (locally same_depth) m ∧
  ∀ c x c', c_saved c ≠ None → l_depth (c_local c) = O → m c = (Ok x, c') →
    ∃ db event id h, wrote write (c_db c) db ∧ P event ∧
      appended (build_control_audit_event event id) db (c_db c') ∧
      c_scopes c' = match c_scopes c with s :: o => (s ++ [h]) :: o | [] => [] end.

Lemma plain_locally m : plain_write m → keeps (locally same_depth) m.
Proof. intros [_ Hq] c. destruct (Hq c) as [_ Hl]. exact (f_equal l_depth Hl). Qed.
Lemma audited_write m event (P : ControlInput → Prop) : plain_write m → P event →
  audited_body (_ ← m; record event) m P.
Proof.
  intros Hm HP. split_and!.
  - apply keeps_bind; [apply _|apply Hm|intros; apply record_inside].
  - apply keeps_bind; [apply _|by apply plain_locally|intros; apply record_depth].
  - intros c x c' Hs Hd. rewrite bind_Ok_inv. intros ([] & c1 & Hw & Hr).
    pose proof (proj2 (proj1 Hm) _ _ _ Hw) as Hwrote. cbn in Hwrote.
    pose proof (proj2 Hm c) as Hq. rewrite Hw in Hq. destruct Hq as [Hsc Hl].
    destruct (c_saved c) as [saved|] eqn:Hsv; [|done].
    pose proof (proj1 (proj1 Hm) c saved Hsv) as [Hs1 _]. rewrite Hw in Hs1. cbn in Hs1, Hsc, Hl.
    destruct (record_run event c1 x c') as (id & h & Ha & Hsc'); [by rewrite Hs1|by rewrite Hl|done|].
    exists (c_db c1), event, id, h. by rewrite Hsc', Hsc.
Qed.
(** Looking something up first. *)
Lemma audited_lookup {X Y} (get : M Store Y) (m : Y → M Store X) write P :
  (∀ c r c', get c = (r, c') → c' = c) →
  (∀ y c c', get c = (Ok y, c') → audited_body (m y) write P) →
  audited_body (y ← get; m y) write P.
Proof.
  intros Hget Hm. split_and!.
  - intros c. unfold mbind, M_bind. destruct (get c) as [[y|e] c1] eqn:Hg; pose proof (Hget _ _ _ Hg) as ->.
    + by apply (Hm _ _ _ Hg).
    + reflexivity.
  - intros c. unfold mbind, M_bind. destruct (get c) as [[y|e] c1] eqn:Hg; pose proof (Hget _ _ _ Hg) as ->.
    + by apply (Hm _ _ _ Hg).
    + reflexivity.
  - intros c x c' Hs Hd. rewrite bind_Ok_inv. intros (y & c1 & Hg & Hr).
    pose proof (Hget _ _ _ Hg) as ->. destruct (Hm _ _ _ Hg) as (_ & _ & Hb).
    exact (Hb c x c' Hs Hd Hr).
Qed.
Lemma audited_raise {X} e write P : audited_body (raise (A:=X) e) write P.
Proof. split_and!; [apply keeps_raise, _|apply keeps_raise, _|]. by intros c x c' _ _ [= ?]. Qed.

(** What such a body makes of an idle connection. *)
Definition audited_outcome (write : M Store unit) (P : ControlInput → Prop) (c : Store)
    (returned : bool) (c' : Store) : Prop :=
  idle c' ∧ l_depth (c_local c') = O ∧
  if returned then
    ∃ db event id h, wrote write (c_db c) db ∧ P event ∧
      appended (build_control_audit_event event id) db (c_db c') ∧ c_sink c' = c_sink c ++ [h]
  else c_db c' = c_db c ∧ c_sink c' = c_sink c.
Lemma audited_atomic {X} (m : M Store X) write P c r c' : audited_body m write P →
  idle c → l_depth (c_local c) = O → _atomic_write m c = (r, c') →
  audited_outcome write P c (is_ok r) c'.
Proof.
  intros (Hin & Hdep & Hm) Hi Hd Hrun.
  pose proof (locally_atomic_write same_depth m Hdep c) as Hl. rewrite Hrun in Hl.
  unfold locally, same_depth in Hl. cbn in Hl.
  destruct (atomic_write_outcome m c r c' Hin Hi Hrun) as [Hi' Hout].
  split; [done|]. split; [congruence|]. destruct r as [x|e]; [|done].
  destruct Hout as (c0 & c1 & emitted & Hdb & Hs & Hsc & Hloc & Hbody & Hdb' & Hsc1 & Hsink).
  destruct (Hm c0 x c1) as (db & event & id & h & Hw & HP & Ha & Hsc'); [by rewrite Hs|by rewrite Hloc|done|].
  exists db, event, id, h. rewrite Hsc, Hsc1 in Hsc'. injection Hsc' as ->.
  rewrite <- Hdb, Hdb'. done.
Qed.

Lemma sql_get_rule_same id c r c' : sql_get_rule id c = (r, c') → c' = c.
Proof.
  unfold sql_get_rule. rewrite (bind_run _ _ _ _ _ (select_run _ _ _)). cbv beta.
  destruct (List.find _ _) as [row|]; [|by intros [= <- <-]].
  unfold lift, mbind, M_bind. destruct (_auto_approval_rule_from_row row); by intros [= <- <-].
Qed.
Lemma sql_get_rule_id id rule c c' : sql_get_rule id c = (Ok (Some rule), c') → aar_rule_id rule = id.
Proof.
  unfold sql_get_rule. rewrite (bind_run _ _ _ _ _ (select_run _ _ _)). cbv beta.
  destruct (List.find _ _) as [row|] eqn:Hf; [|done].
  apply find_some in Hf as [_ Hk%String.eqb_eq]. unfold lift, mbind, M_bind.
  destruct (_auto_approval_rule_from_row row) as [x|e] eqn:Hr; [|done]. intros [= <- <-].
  unfold _auto_approval_rule_from_row in Hr. by bound_values.
Qed.
Lemma not_run op e c : idle c → l_depth (c_local c) = O →
  audited_outcome (control_write op) (tells_of op) c (is_ok (Raise (A:=unit) e)) c.
Proof. by intros Hi Hd. Qed.

Lemma control_change_outcome op c r c' :
  idle c → l_depth (c_local c) = O → run_control op c = (r, c') →
  audited_outcome (control_write op) (tells_of op) c (is_ok r) c'.
Proof.
  intros Hi Hd. destruct op as [ws ag scopes ttl clear now p|m ws ag value now p|rule|rule|b op p];
    cbn [run_control].
  - unfold sql_set_bounds. destruct (validate_issuable_scope_bounds scopes ttl) as [[]|e];
      [|intros [= <- <-]; by apply not_run].
    destruct (validate_clear_max_ttl ttl clear) as [[]|e]; [|intros [= <- <-]; by apply not_run].
    apply (audited_atomic _ _ _ c r c'); [|done|done].
    apply audited_write; [apply plain_statement|done].
  - apply (audited_atomic _ _ _ c r c'); [|done|done].
    apply audited_write; [apply plain_statement|done].
  - unfold sql_add_rule, mbind at 1, M_bind at 1.
    destruct (sql_get_rule (aar_rule_id rule) c) as [[[x|]|e] c1] eqn:Hg;
      pose proof (sql_get_rule_same _ _ _ _ Hg) as ->; try (intros [= <- <-]; by apply not_run).
    apply (audited_atomic _ _ _ c r c'); [|done|done].
    apply audited_write; [apply plain_statement|done].
  - apply (audited_atomic _ _ _ c r c'); [|done|done].
    apply audited_lookup; [apply sql_get_rule_same|]. intros [prior|] c0 c1 Hg; [|apply audited_raise].
    apply audited_write; [apply plain_statement|]. exists prior. split; [|done].
    by apply sql_get_rule_id in Hg.
  - unfold sql_add_audited. destruct (p ≫= principal_or_none) as [principal|] eqn:Hp;
      [|intros [= <- <-]; by apply not_run].
    destruct (_boundary_control_operation op) as [kind|e] eqn:Hk; [|intros [= <- <-]; by apply not_run].
    set (m := _atomic_write (D:=Db) (E:=anchor_head) (L:=Local)
      (_ ← write_boundary b; record (boundary_event b kind.1 kind.2 principal))).
    change (((_ ← (_ ← m; mret b); mret tt) : M Store unit) c = (r, c') →
      audited_outcome (write_boundary b) (tells_of (AddBoundary b op p)) c (is_ok r) c'). intros Hrun.
    assert (Hm : ∃ r1, m c = (r1, c') ∧ is_ok r1 = is_ok r).
    { revert Hrun. unfold lift, mret, M_ret, mbind, M_bind.
      destruct (m c) as [[[]|e] c1]; intros [= <- <-]; eauto. }
    destruct Hm as (r1 & Hm & <-). refine (audited_atomic _ (write_boundary b) _ c r1 c' _ Hi Hd Hm).
    apply audited_write; [apply plain_statement|]. exists kind, principal.
    destruct p as [x|]; [|done]. cbn in Hp. unfold principal_or_none in Hp.
    destruct (String.eqb_spec x "") as [|Hne]; [done|]. injection Hp as <-. done.
Qed.

(** C33: No control-plane change without its event, and no event without its
    change.  Run from an idle connection outside any composite, a change either
    returns, having committed together its statement and exactly one event,
    which names the workspace, what was changed and who changed it, and having
    then handed on one chain head; or it raises, and the database and the sink
    are as they were. *)
Theorem control_change_audited op c r c' :
  idle c → l_depth (c_local c) = O → run_control op c = (r, c') →
  audited_outcome (control_write op) (tells_of op) c (is_ok r) c'.
Proof. apply control_change_outcome. Qed.
End control.

Lemma control_change_audited_witness :
  let op := SetMandate RequirePop "ws" "agent" true 0 (Some "alice") in
  let c := opened empty_db in
  let c' := (run_control false op c).2 in
  is_ok (run_control false op c).1 = true ∧
  audited_outcome (control_write false op) (tells_of op) c true c' ∧ d_settings (c_db c') ≠ [].
Proof.
  cbv zeta. set (op := SetMandate _ _ _ _ _ _). set (c := opened empty_db).
  assert (Hr : is_ok (run_control false op c).1 = true) by (by vm_compute).
  assert (Hne : d_settings (c_db (run_control false op c).2) ≠ []) by (by vm_compute).
  destruct (run_control false op c) as [r c'] eqn:Hrun. cbn [fst snd] in *.
  split; [done|]. split; [|done]. rewrite <- Hr.
  exact (control_change_audited false op c r c' (opened_idle _) eq_refl Hrun).
Defined.
