(* ===== verification/ControlRefine.v ===== *)
(** * What the control repositories promise ([src/vinctor_service/sqlite.py])

    The SQLite boundaries implement the registry's interface, so that what is
    proved of the registry holds of them; the issuable bounds refine the
    in-memory store; the mandates are independent of one another. *)
From S2P Require Import Prelude PyStr PyDict PyTime Models ServiceModels Registry CoreAudit.
From S2P Require Import Repositories AuditWriter World Grants AutoApproval AuditChain Json.
From S2P Require Import SqlTxn SqlRows SqlStore SqlRefine SqlAudit ControlPlane.

(** ** What the statements make of the tables *)

Lemma wrote_statement {T Y} (o : result Y) (t : table T) (st : Y → T → result (unit * T)) db db' :
  wrote (y ← lift o; statement t (st y)) db db' →
  ∃ y rows, o = Ok y ∧ st y (t_get t db) = Ok (tt, rows) ∧ db' = t_set t rows db.
Proof.
  intros (c & c' & <- & Hrun & <-). destruct (runs_statement o t st) as [_ Hr].
  destruct (Hr _ _ _ Hrun) as [Hf _]. destruct o as [y|e]; [|done].
  destruct (st y (t_get t (c_db c))) as [[[] rows]|e] eqn:Hst; [|done].
  exists y, rows. by injection Hf as <-.
Qed.
Lemma upsert_encodes {V R} (key : V → string) (row_key : R → string) values rows l row v :
  (∀ v row, values v = Ok row → row_key row = key v) → encodes values rows l →
  NoDup (map key l) → values v = Ok row →
  ∃ l', encodes values (upsert (λ r, row_key r == key v) row (λ _, row) rows) l' ∧
    NoDup (map key l') ∧ indexed key l' = dset (key v) v (indexed key l).
Proof.
  intros Hkey He Hnd Hv. unfold upsert.
  destruct (dget (key v) (indexed key l)) as [x|] eqn:Hx.
  - assert (Hex : existsb (λ r, row_key r == key v) rows = true).
    { destruct (dget_indexed _ _ _ _ Hx) as [Hk Hin].
      destruct (encodes_elem_r _ _ _ _ He Hin) as (r & Hr & Hvr).
      apply existsb_exists_elem. exists r. split; [done|].
      rewrite (Hkey _ _ Hvr). by apply String.eqb_eq. }
    rewrite Hex. exists (replaced key v l).
    split; [by apply update_encodes|]. split; [by rewrite replaced_keys|].
    by apply (indexed_replaced key l v x).
  - rewrite (encodes_fresh _ _ _ _ _ _ Hkey He Hx). exists (l ++ [v]).
    destruct (insert_encodes key _ _ _ _ _ He Hv Hx) as [He' Hidx].
    split; [done|]. split; [by apply insert_keys|done].
Qed.

(** ** The boundaries keep the registry's promise *)

Definition boundaries_of (rows : list boundary_row) : gmap string Boundary :=
  dict_map (omap (λ row, match _boundary_from_row row with
                         | Ok b => Some (brw_boundary_id row, b)
                         | Raise _ => None
                         end) rows).
Definition boundaries_encoded (db : Db) (l : list Boundary) : Prop :=
  encodes boundary_values (d_boundaries db) l ∧ NoDup (map b_boundary_id l).
Definition boundaries_ok (c : Store) : Prop :=
  idle c ∧ l_depth (c_local c) = O ∧ ∃ l, boundaries_encoded (c_db c) l.

Lemma boundary_values_key b row : boundary_values b = Ok row → brw_boundary_id row = b_boundary_id b.
Proof. unfold boundary_values. intros Hv. by bound_values. Qed.
Lemma boundaries_of_encoded db l : boundaries_encoded db l →
  boundaries_of (d_boundaries db) = dict_map (indexed b_boundary_id l).
Proof.
  intros [He _]. unfold boundaries_of. f_equal. induction He as [|row g rows l Hg _ IH]; [done|].
  cbn [omap list_omap]. rewrite (boundary_row_round_trip _ _ Hg), (boundary_values_key _ _ Hg).
  cbn [indexed map]. f_equal. exact IH.
Qed.
Lemma sql_add_audited_returns b op p c b' c' : sql_add_audited b op p c = (Ok b', c') → b' = b.
Proof.
  unfold sql_add_audited. destruct (p ≫= principal_or_none) as [principal|]; [|done].
  destruct (_boundary_control_operation op) as [kind|e]; [|done].
  change (((_ ← _atomic_write (_ ← write_boundary b; record (boundary_event b kind.1 kind.2 principal));
            mret b) : M Store Boundary) c = (Ok b', c') → b' = b).
  rewrite bind_Ok_inv. by intros ([] & c1 & _ & [= <- <-]).
Qed.
Lemma sql_add_audited_stores b op p :
  stores boundaries_ok (λ c, boundaries_of (d_boundaries (c_db c))) b (sql_add_audited b op p).
Proof.
  intros c r c' (Hi & Hd & l & Hl) Hrun.
  destruct (control_change_outcome true (AddBoundary b op p) c (match r with Ok _ => Ok tt | Raise e => Raise e end) c')
    as (Hi' & Hd' & Hout); [done|done| |].
  { cbn [run_control]. unfold mbind, M_bind. rewrite Hrun. by destruct r. }
  destruct r as [b'|e]; cbn [is_ok] in Hout.
  - destruct Hout as (db & event & id & h & Hw & _ & (rows & Hdb & _) & _).
    destruct (wrote_statement _ _ _ _ _ Hw) as (row & rows' & Hv & Hst & ->).
    destruct (existsb _ _); [done|]. injection Hst as <-.
    destruct (upsert_encodes b_boundary_id brw_boundary_id _ _ _ _ _ boundary_values_key (proj1 Hl)
      (proj2 Hl) Hv) as (l' & He' & Hnd' & Hidx).
    assert (Henc : boundaries_encoded (c_db c') l') by (split; [by rewrite Hdb|done]).
    split; [split_and!; [done|done|by exists l']|]. split.
    + by apply sql_add_audited_returns in Hrun.
    + rewrite (boundaries_of_encoded _ _ Henc), (boundaries_of_encoded _ _ Hl), Hidx.
      apply dict_map_dset.
  - destruct Hout as [Hdb _]. rewrite Hdb. split; [|done]. split_and!; [done|done|].
    exists l. by rewrite Hdb.
Qed.
Lemma sql_get_boundary_run c l id : boundaries_encoded (c_db c) l →
  sql_get_boundary id c = (Ok (dget id (indexed b_boundary_id l)), c).
Proof.
  intros [He _]. unfold sql_get_boundary. rewrite (bind_run _ _ _ _ _ (select_run _ _ _)). cbn.
  pose proof (select_encodes _ _ _ boundary_values_key _ _ id He) as Hsel.
  destruct (List.find _ _) as [row|].
  - destruct Hsel as (g & -> & Hg). by rewrite (boundary_row_round_trip _ _ Hg).
  - by rewrite Hsel.
Qed.

#[export] Program Instance sqlite_boundaries_ok : BoundaryStoreOk Store := {|
  bs_wf := boundaries_ok;
  bs_view c := boundaries_of (d_boundaries (c_db c))
|}.
Next Obligation.
  intros id c (_ & _ & l & Hl). cbn. rewrite (boundaries_of_encoded _ _ Hl), dict_map_lookup.
  by apply sql_get_boundary_run.
Qed.
Next Obligation.
  intros ws c (_ & _ & l & Hl). cbn.
  destruct (select_all _ _boundary_from_row id (order_by brw_created_at brw_boundary_id)
    (λ row, brw_workspace_id row == ws) (λ b, b_workspace_id b == ws) (d_boundaries (c_db c)) l
    boundary_row_round_trip) as (l' & Hrun & Hl').
  { intros b row Hv. unfold boundary_values in Hv. by bound_values. }
  { apply Hl. }
  rewrite map_id in Hrun. exists l'. unfold sql_list_boundaries.
  rewrite (bind_run _ _ _ _ _ (select_run _ _ _)). split.
  { cbv beta. unfold lift. cbn [t_get boundaries_table]. by rewrite Hrun. }
  intros b. rewrite Hl', list_elem_of_In, filter_In, <- list_elem_of_In, String.eqb_eq.
  rewrite (boundaries_of_encoded _ _ Hl). split.
  - intros [Hin Hws]. split; [done|]. exists (b_boundary_id b). rewrite dict_map_lookup.
    destruct (dget (b_boundary_id b) (indexed b_boundary_id l)) as [b'|] eqn:Hg.
    + destruct (dget_indexed _ _ _ _ Hg) as [Hk Hin'].
      by rewrite (keyed_value _ _ _ _ (proj2 Hl) Hin Hin' (eq_sym Hk)).
    + by destruct (dget_indexed_elem _ _ _ _ Hin eq_refl Hg).
  - intros [Hws [id Hid]]. rewrite dict_map_lookup in Hid.
    by destruct (dget_indexed _ _ _ _ Hid) as [_ Hin].
Qed.
Next Obligation. intros b c r c' Hwf [= <- <-]. done. Qed.
Next Obligation. intros b op p f [= <-]. apply sql_add_audited_stores. Qed.

(** ** The issuable bounds refine the in-memory ones *)

Definition bdw_key (row : bounds_row) : string * string := (bdw_workspace_id row, bdw_agent_id row).
Definition bdw_value (row : bounds_row) : result AgentIssuableBounds :=
  scopes ← read_strings (bdw_scopes_json row);
  Ok (mkAgentIssuableBounds scopes (bdw_max_ttl_seconds row)).
Definition bounds_view (rows : list bounds_row) : dict (string * string) (result AgentIssuableBounds) :=
  map (λ row, (bdw_key row, bdw_value row)) rows.
Definition bounds_rel (db : Db) (b : BoundsStore) : Prop :=
  bounds_view (d_bounds db) = map (λ kv, (kv.1, Ok kv.2)) b ∧ dict_wf b.

Lemma bdw_hit_key ws ag row : bdw_hit ws ag row = bool_decide (bdw_key row = (ws, ag)).
Proof.
  unfold bdw_hit, bdw_key. destruct (String.eqb_spec (bdw_workspace_id row) ws) as [->|H1];
    destruct (String.eqb_spec (bdw_agent_id row) ag) as [->|H2]; symmetry; cbn [andb].
  - by apply bool_decide_eq_true.
  - apply bool_decide_eq_false. congruence.
  - apply bool_decide_eq_false. congruence.
  - apply bool_decide_eq_false. congruence.
Qed.
(** An upsert, on the dictionary a table denotes. *)
Lemma upsert_view {K V R} `{!EqDecision K} (key : R → K) (value : R → V) k fresh update rows :
  key fresh = k → (∀ r, key (update r) = key r) → NoDup (map key rows) →
  map (λ r, (key r, value r)) (upsert (λ r, bool_decide (key r = k)) fresh update rows) =
  dset k (match List.find (λ r, bool_decide (key r = k)) rows with
          | Some r => value (update r)
          | None => value fresh
          end) (map (λ r, (key r, value r)) rows).
Proof.
  intros Hf Hu. unfold upsert. induction rows as [|r rows IH]; [by intros _; cbn; rewrite Hf|].
  cbn [map existsb List.find]. intros [Hr Hnd]%NoDup_cons.
  destruct (decide (key r = k)) as [Hk|Hk].
  - rewrite bool_decide_true by done. cbn [orb dset map]. rewrite Hu, decide_True by done.
    rewrite Hk. f_equal.
    rewrite map_map. apply map_ext_in. intros x Hx%list_elem_of_In.
    rewrite bool_decide_false; [done|]. intros Hxk. apply Hr. rewrite Hk, <- Hxk.
    by apply list_elem_of_In, in_map, list_elem_of_In.
  - rewrite bool_decide_false by done. cbn [orb dset]. rewrite decide_False by done.
    rewrite <- (IH Hnd). destruct (existsb _ rows); [|done]. by cbn.
Qed.
Lemma find_view {K V R} `{!EqDecision K} (key : R → K) (value : R → V) k rows :
  dget k (map (λ r, (key r, value r)) rows) =
  value <$> List.find (λ r, bool_decide (key r = k)) rows.
Proof.
  induction rows as [|r rows IH]; [done|]. cbn [map dget List.find]. rewrite IH.
  case_decide; case_bool_decide; done.
Qed.
Lemma upsert_keys {K R} `{!EqDecision K} (key : R → K) k fresh update rows :
  key fresh = k → (∀ r, key (update r) = key r) → NoDup (map key rows) →
  NoDup (map key (upsert (λ r, bool_decide (key r = k)) fresh update rows)).
Proof.
  intros Hf Hu Hnd. pose proof (upsert_view key (λ _, tt) k fresh update rows Hf Hu Hnd) as Hv.
  apply (f_equal (map fst)) in Hv. rewrite map_map in Hv.
  change (NoDup (map (λ r, (key r, tt).1) (upsert (λ r, bool_decide (key r = k)) fresh update rows))).
  rewrite Hv. apply dset_wf. unfold dict_wf, dkeys.
  change (fst <$> map ?f ?l) with (map fst (map f l)). by rewrite map_map.
Qed.
Lemma upsert_ext {R} (hit hit' : R → bool) fresh update rows :
  (∀ r, hit r = hit' r) → upsert hit fresh update rows = upsert hit' fresh update rows.
Proof.
  intros Hh. unfold upsert.
  assert (existsb hit rows = existsb hit' rows) as ->.
  { induction rows as [|r rows IH]; [done|]. cbn. by rewrite Hh, IH. }
  destruct (existsb hit' rows); [|done]. apply map_ext. intros r. by rewrite Hh.
Qed.
Lemma find_ext {R} (hit hit' : R → bool) : (∀ r, hit r = hit' r) →
  ∀ rows, List.find hit rows = List.find hit' rows.
Proof. intros Hh rows. induction rows as [|r rows IH]; [done|]. cbn. by rewrite Hh, IH. Qed.
Lemma filter_sublist {A} (p : A → bool) l : List.filter p l `sublist_of` l.
Proof. induction l as [|x l IH]; [done|]. cbn. destruct (p x); by constructor. Qed.
Lemma find_none_elem {R} (hit : R → bool) rows : (∀ r, r ∈ rows → hit r = false) → List.find hit rows = None.
Proof.
  induction rows as [|r rows IH]; intros Hn; [done|]. cbn. rewrite (Hn r) by left.
  apply IH. intros x Hx. apply Hn. by right.
Qed.
Lemma dset_values {K V W} `{!EqDecision K} (f : V → W) k v (d : dict K V) :
  map (λ kv, (kv.1, f kv.2)) (dset k v d) = dset k (f v) (map (λ kv, (kv.1, f kv.2)) d).
Proof.
  induction d as [|[k' v'] d IH]; [done|]. cbn. case_decide; cbn; [done|]. by rewrite IH.
Qed.
Lemma bounds_find rows b ws ag : bounds_view rows = map (λ kv, (kv.1, Ok kv.2)) b →
  match List.find (bdw_hit ws ag) rows with
  | Some row => ∃ x, dget (ws, ag) b = Some x ∧ bdw_value row = Ok x
  | None => dget (ws, ag) b = None
  end.
Proof.
  revert b. induction rows as [|row rows IH]; intros [|[k x] b] Hv; try done.
  cbn [bounds_view map] in Hv. injection Hv as Hk Hx Hv. cbn [List.find dget].
  rewrite bdw_hit_key. destruct (decide (k = (ws, ag))) as [He|Hne].
  - rewrite bool_decide_true by (by rewrite Hk). by exists x.
  - rewrite bool_decide_false by (by rewrite Hk). by apply IH.
Qed.
Lemma bounds_keys rows b : bounds_view rows = map (λ kv, (kv.1, Ok kv.2)) b →
  map bdw_key rows = dkeys b.
Proof.
  intros Hv. transitivity (map fst (bounds_view rows)).
  - unfold bounds_view. by rewrite map_map.
  - rewrite Hv, map_map. done.
Qed.
Lemma sql_get_bounds_run c b ws ag : bounds_rel (c_db c) b →
  sql_get_bounds_with_max_ttl ws ag c = (Ok (get_bounds_with_max_ttl ws ag b), c).
Proof.
  intros [Hv _]. unfold sql_get_bounds_with_max_ttl.
  rewrite (bind_run _ _ _ _ _ (select_run _ _ _)). cbn [t_get bounds_table].
  pose proof (bounds_find _ _ ws ag Hv) as Hf. unfold get_bounds_with_max_ttl.
  destruct (List.find _ _) as [row|].
  - destruct Hf as (x & -> & Hx). unfold bdw_value in Hx. unfold lift, mbind, M_bind.
    destruct (read_strings (bdw_scopes_json row)) as [scopes|e]; [|done]. by injection Hx as <-.
  - by rewrite Hf.
Qed.

(** What the statement of [set_bounds] leaves. *)
Lemma write_bounds_rel ws ag scopes ttl clear now db db' b :
  validate_clear_max_ttl ttl clear = Ok tt →
  bounds_rel db b → wrote (write_bounds ws ag scopes ttl clear now) db db' →
  bounds_rel db' (dset (ws, ag) (mkAgentIssuableBounds scopes
    (if bool_decide (ttl = None) && negb clear then dget (ws, ag) b ≫= ab_max_ttl_seconds else ttl)) b).
Proof.
  intros Hclear [Hv Hwf] Hw. destruct (wrote_statement _ _ _ _ _ Hw) as (row & rows & Hrow & Hst & ->).
  injection Hst as <-. bound_values. cbn [bdw_scopes_json bdw_max_ttl_seconds bdw_updated_at].
  split; [|by apply dset_wf]. cbn [d_bounds t_set bounds_table t_get].
  pose proof (bounds_find _ _ ws ag Hv) as Hfind.
  pose proof (bounds_keys _ _ Hv) as Hkeys.
  unfold bounds_view in *.
  match goal with |- map _ (upsert _ ?f ?u _) = _ => set (fresh := f); set (update := u) end.
  assert (Hup : upsert (bdw_hit ws ag) fresh update (d_bounds db) =
    upsert (λ r, bool_decide (bdw_key r = (ws, ag))) fresh update (d_bounds db)).
  { apply upsert_ext. intros r. apply bdw_hit_key. }
  rewrite Hup, upsert_view; [|done|by intros []|by rewrite Hkeys].
  rewrite Hv, dset_values. f_equal.
  rewrite <- (find_ext _ _ (bdw_hit_key ws ag)).
  destruct (List.find _ _) as [row0|].
  - destruct Hfind as (x & Hx & Hval). rewrite Hx. subst update fresh.
    unfold bdw_value in *. cbn [bdw_scopes_json bdw_max_ttl_seconds]. rewrite Hbind. cbn.
    destruct (read_strings (bdw_scopes_json row0)) as [scopes0|]; [|done].
    injection Hval as <-. cbn. do 2 f_equal. unfold validate_clear_max_ttl in Hclear.
    destruct ttl as [t|], clear; try done; by rewrite bool_decide_true.
  - rewrite Hfind. subst fresh. unfold bdw_value. cbn [bdw_scopes_json bdw_max_ttl_seconds].
    rewrite Hbind. cbn. do 2 f_equal. destruct (bool_decide (ttl = None) && negb clear) eqn:Hb; [|done].
    by apply andb_true_iff in Hb as [->%bool_decide_eq_true _].
Qed.

(** Setting issuable bounds in the database is setting them in memory: the
    same requests are refused, and a request that returns leaves the bounds the
    in-memory store would hold (the stored cap kept where none is declared,
    dropped only by an explicit clear); one that raises leaves them as they were. *)
Theorem sql_set_bounds_refines ws ag scopes ttl clear now principal c b r c' :
  idle c → l_depth (c_local c) = O → bounds_rel (c_db c) b →
  sql_set_bounds ws ag scopes ttl clear now principal c = (r, c') →
  match r, set_bounds ws ag scopes ttl clear b with
  | Ok _, (Ok _, b') => bounds_rel (c_db c') b' ∧
      ∀ ws' ag', sql_get_bounds_with_max_ttl ws' ag' c' = (Ok (get_bounds_with_max_ttl ws' ag' b'), c')
  | Ok _, (Raise _, _) => False
  | Raise e, (Ok _, _) => c_db c' = c_db c
  | Raise e, (Raise e', _) => e = e' ∧ c_db c' = c_db c
  end.
Proof.
  intros Hi Hd Hb Hrun.
  destruct (control_change_outcome true (SetBounds ws ag scopes ttl clear now principal) c r c' Hi Hd Hrun)
    as (_ & _ & Hout). revert Hrun. unfold sql_set_bounds, set_bounds.
  destruct (validate_issuable_scope_bounds scopes ttl) as [[]|e]; [|by intros [= <- <-]].
  destruct (validate_clear_max_ttl ttl clear) as [[]|e] eqn:Hcl; [|by intros [= <- <-]].
  intros _. cbn [lift mbind M_bind gets modify]. destruct r as [u|e]; cbn [is_ok] in Hout; [|apply Hout].
  destruct Hout as (db & event & id & h & Hw & _ & (rows & Hdb & _) & _).
  pose proof (write_bounds_rel _ _ _ _ _ _ _ _ _ Hcl Hb Hw) as Hrel.
  assert (Hrel' : bounds_rel (c_db c') (dset (ws, ag) (mkAgentIssuableBounds scopes
    (if bool_decide (ttl = None) && negb clear then dget (ws, ag) b ≫= ab_max_ttl_seconds else ttl)) b)).
  { by rewrite Hdb. }
  split; [exact Hrel'|]. intros. by apply sql_get_bounds_run.
Qed.

(** ** The mandates *)

Definition stw_key (row : settings_row) : string * string := (stw_workspace_id row, stw_agent_id row).
Definition settings_view (m : mandate) (rows : list settings_row) :
    dict (string * string) (option bool) := map (λ row, (stw_key row, stw_mandate m row)) rows.
(** What is set for an agent (or, under the empty name, for the workspace). *)
Definition mandate_of (m : mandate) (db : Db) (workspace_id agent_id : string) : option bool :=
  mjoin (dget (workspace_id, agent_id) (settings_view m (d_settings db))).
Definition settings_ok (db : Db) : Prop := NoDup (map stw_key (d_settings db)).
#[export] Instance mandate_eq_dec : EqDecision mandate.
Proof. solve_decision. Defined.

Lemma stw_hit_key ws ag row : stw_hit ws ag row = bool_decide (stw_key row = (ws, ag)).
Proof.
  unfold stw_hit, stw_key. destruct (String.eqb_spec (stw_workspace_id row) ws) as [->|H1];
    destruct (String.eqb_spec (stw_agent_id row) ag) as [->|H2]; symmetry; cbn [andb].
  - by apply bool_decide_eq_true.
  - apply bool_decide_eq_false. congruence.
  - apply bool_decide_eq_false. congruence.
  - apply bool_decide_eq_false. congruence.
Qed.
Lemma sql_get_setting_run m ws ag c : settings_ok (c_db c) →
  sql_get_setting m ws ag c = (Ok (mandate_of m (c_db c) ws ag), c).
Proof.
  intros Hok. unfold sql_get_setting, select, query, gets. do 2 f_equal.
  unfold mandate_of, settings_view, settings_ok in *. cbn [t_get settings_table].
  induction (d_settings (c_db c)) as [|row rows IH]; [done|]. cbn [map List.find dget].
  cbn [map] in Hok. apply NoDup_cons in Hok as [Hnew Hok]. rewrite stw_hit_key.
  destruct (decide (stw_key row = (ws, ag))) as [Hk|Hk].
  - rewrite bool_decide_true by done. cbn [andb]. destruct (stw_mandate m row) as [v|] eqn:Hv.
    + rewrite bool_decide_true by done. exact Hv.
    + rewrite bool_decide_false by (by intros [? ?]).
      rewrite (find_none_elem _ rows); [done|]. intros x Hx. rewrite stw_hit_key.
      rewrite bool_decide_false; [done|]. intros Hkx. apply Hnew. rewrite Hk, <- Hkx.
      by apply list_elem_of_In, in_map, list_elem_of_In.
  - rewrite bool_decide_false by done. by apply IH.
Qed.
(** An upsert of one mandate of one agent, on what every agent has set. *)
Definition rows_mandate (m : mandate) (rows : list settings_row) (workspace_id agent_id : string) :
    option bool := mjoin (dget (workspace_id, agent_id) (settings_view m rows)).
Lemma upsert_mandates def m ws ag v at_ rows : NoDup (map stw_key rows) →
  let rows' := upsert (stw_hit ws ag) (stw_update m v at_ (stw_default def ws ag at_))
                 (stw_update m v at_) rows in
  NoDup (map stw_key rows') ∧
  ∀ m' ws' ag', rows_mandate m' rows' ws' ag' =
    if decide (m' = m ∧ (ws', ag') = (ws, ag)) then Some v else rows_mandate m' rows ws' ag'.
Proof.
  intros Hok. cbv zeta. set (fresh := stw_update m v at_ (stw_default def ws ag at_)).
  rewrite (upsert_ext _ _ fresh _ _ (stw_hit_key ws ag)).
  assert (Hupd : ∀ r, stw_key (stw_update m v at_ r) = stw_key r) by (intros []; by destruct m).
  assert (Hfresh : stw_key fresh = (ws, ag)) by (by destruct m).
  split; [by apply upsert_keys|].
  intros m' ws' ag'. unfold rows_mandate, settings_view.
  rewrite (upsert_view stw_key (stw_mandate m') (ws, ag) fresh (stw_update m v at_) rows
    Hfresh Hupd Hok), dget_dset.
  rewrite find_view. destruct (decide ((ws, ag) = (ws', ag'))) as [He|Hne].
  - injection He as <- <-. destruct (List.find _ _) as [r|]; cbn.
    + destruct (decide (m' = m)) as [->|Hm].
      { rewrite decide_True by done. destruct r. by destruct m. }
      rewrite decide_False by (by intros [? _]). destruct r. by destruct m, m'.
    + destruct (decide (m' = m)) as [->|Hm].
      { rewrite decide_True by done. by destruct m. }
      rewrite decide_False by (by intros [? _]). by destruct m, m'.
  - rewrite decide_False; [done|]. intros [_ He]. congruence.
Qed.
Lemma write_setting_mandates def m ws ag v now db db' : settings_ok db →
  wrote (write_setting def m ws ag v now) db db' →
  settings_ok db' ∧
  ∀ m' ws' ag', mandate_of m' db' ws' ag' =
    if decide (m' = m ∧ (ws', ag') = (ws, ag)) then Some v else mandate_of m' db ws' ag'.
Proof.
  intros Hok Hw. destruct (wrote_statement _ _ _ _ _ Hw) as (at_ & rows & _ & Hst & ->).
  injection Hst as <-. exact (upsert_mandates def m ws ag v at_ _ Hok).
Qed.

(** A mandate set is the mandate set and no other: the statement sets it for
    that agent, and every other mandate of every agent and workspace reads as
    before, an agent's exemptions from the other mandates included. *)
Theorem set_mandate_exact def m ws ag v now principal c r c' :
  idle c → l_depth (c_local c) = O → settings_ok (c_db c) →
  sql_set_mandate def m ws ag v now principal c = (r, c') →
  settings_ok (c_db c') ∧
  ∀ m' ws' ag', sql_get_setting m' ws' ag' c' = (Ok (
    if is_ok r && bool_decide (m' = m ∧ (ws', ag') = (ws, ag)) then Some v
    else mandate_of m' (c_db c) ws' ag'), c').
Proof.
  intros Hi Hd Hok Hrun.
  destruct (control_change_outcome def (SetMandate m ws ag v now principal) c r c' Hi Hd Hrun)
    as (_ & _ & Hout). destruct r as [[]|e]; cbn [is_ok] in Hout.
  - destruct Hout as (db & event & id & h & Hw & _ & (rows & Hdb & _) & _).
    destruct (write_setting_mandates _ _ _ _ _ _ _ _ Hok Hw) as [Hok1 Hm].
    assert (Hok' : settings_ok (c_db c')) by (rewrite Hdb; exact Hok1). split; [done|].
    intros m' ws' ag'. rewrite sql_get_setting_run by done. do 2 f_equal.
    assert (Hsame : mandate_of m' (c_db c') ws' ag' = mandate_of m' db ws' ag') by (by rewrite Hdb).
    rewrite Hsame, Hm. cbn [is_ok andb]. by case_decide; case_bool_decide.
  - destruct Hout as [Hdb _]. rewrite Hdb. split; [done|]. intros m' ws' ag'.
    rewrite sql_get_setting_run by by rewrite Hdb. by rewrite Hdb.
Qed.

Lemma set_mandate_exact_witness :
  let c := opened empty_db in
  let c' := (sql_set_mandate false RequirePop "ws" "agent" false 0 (Some "alice") c).2 in
  settings_ok (c_db c') ∧
  sql_get_setting RequirePop "ws" "agent" c' = (Ok (Some false), c') ∧
  sql_get_setting RequireBoundary "ws" "agent" c' = (Ok None, c').
Proof.
  cbv zeta. set (c := opened empty_db).
  assert (Hr : is_ok (sql_set_mandate false RequirePop "ws" "agent" false 0 (Some "alice") c).1 = true)
    by (by vm_compute).
  destruct (sql_set_mandate false RequirePop "ws" "agent" false 0 (Some "alice") c) as [r c'] eqn:Hrun.
  cbn [fst snd] in *.
  destruct (set_mandate_exact false RequirePop "ws" "agent" false 0 (Some "alice") c r c'
    (opened_idle _) eq_refl (NoDup_nil_2) Hrun) as [Hok Hget].
  rewrite Hr in Hget. split; [exact Hok|].
  split; [exact (Hget RequirePop "ws" "agent")|exact (Hget RequireBoundary "ws" "agent")].
Defined.
Lemma sql_set_bounds_refines_witness :
  let c := opened empty_db in
  let c' := (sql_set_bounds "ws" "agent" ["read:repo/x"] (Some 60) false 0 (Some "alice") c).2 in
  let b' := (set_bounds "ws" "agent" ["read:repo/x"] (Some 60) false []).2 in
  bounds_rel (c_db c') b' ∧
  sql_get_bounds_with_max_ttl "ws" "agent" c' =
    (Ok (Some (mkAgentIssuableBounds ["read:repo/x"] (Some 60))), c').
Proof.
  cbv zeta. set (c := opened empty_db).
  assert (Hr : is_ok (sql_set_bounds "ws" "agent" ["read:repo/x"] (Some 60) false 0 (Some "alice") c).1 = true)
    by (by vm_compute).
  destruct (sql_set_bounds "ws" "agent" ["read:repo/x"] (Some 60) false 0 (Some "alice") c)
    as [r c'] eqn:Hrun. cbn [fst snd] in *.
  destruct r as [x|e]; [|done].
  destruct (sql_set_bounds_refines "ws" "agent" ["read:repo/x"] (Some 60) false 0 (Some "alice") c [] (Ok x) c'
    (opened_idle _) eq_refl (conj eq_refl NoDup_nil_2) Hrun) as [Hrel Hget].
  split; [exact Hrel|exact (Hget "ws" "agent")].
Defined.
