(* ===== verification/SqlWithin.v ===== *)
(** * Statements inside an open transaction

    What an operation does between BEGIN and COMMIT: the transaction and the
    deferral scopes stay open as they are, and the data changes only as its
    statements allow. *)
From S2P Require Import Prelude PyStr PyDict PyTime Scope Models ServiceModels CoreAudit.
From S2P Require Import Sha256 Pop Repositories World Grants AutoApproval AuditChain Json.
From S2P Require Import SqlTxn SqlRows SqlStore SqlRefine SqlAudit ControlPlane ControlRefine.

(** The control auditor's own state: only the source of names has moved. *)
Definition same_control (l l' : Local) : Prop :=
  l_depth l' = l_depth l ∧ l_pending l' = l_pending l.
#[export] Instance same_control_preorder : PreOrder same_control.
Proof. split; [done|]. unfold same_control. intros x y z [] []. split; congruence. Qed.
(** Inside an open transaction, at a composite depth of [guard]: the transaction
    and the deferral scopes stay as they are, and the data changes by [P] only. *)
Definition within_when (guard : nat → Prop) (P : Db → Db → Prop) (c c' : Store) : Prop := ∀ saved,
  c_saved c = Some saved → guard (l_depth (c_local c)) →
  c_saved c' = Some saved ∧ same_control (c_local c) (c_local c') ∧ c_scopes c' = c_scopes c ∧
  P (c_db c) (c_db c').
(** Inside a composite. *)
Abbreviation within := (within_when (Nat.lt 0)).

Section within.
Context (guard : nat → Prop) (P : Db → Db → Prop) `{!PreOrder P}.
#[global] Instance within_preorder : PreOrder (within_when guard P).
Proof.
  split; [by intros c saved|]. intros c1 c2 c3 H12 H23 saved Hs Hd.
  destruct (H12 saved Hs Hd) as (Hs2 & Hl2 & Hsc2 & Ha2).
  destruct (H23 saved Hs2) as (Hs3 & Hl3 & Hsc3 & Ha3); [by rewrite (proj1 Hl2)|].
  split_and!; [congruence|by etrans|congruence|by etrans].
Qed.
Lemma within_statement {T X} (t : table T) (st : T → result (X * T)) :
  (∀ db x rows, st (t_get t db) = Ok (x, rows) → P db (t_set t rows db)) →
  keeps (within_when guard P) (statement t st).
Proof.
  intros Ht c saved Hs Hd. unfold statement, execute, in_transaction. rewrite Hs.
  rewrite bool_decide_true by done.
  destruct (st (t_get t (c_db c))) as [[x rows]|e] eqn:Hst; cbn; split_and!; try done.
  by eapply Ht.
Qed.
Lemma within_atomic_write {X} (m : M Store X) :
  keeps (within_when guard P) m → keeps (within_when guard P) (_atomic_write m).
Proof.
  intros Hm c. unfold _atomic_write, mbind, M_bind, gets.
  destruct (in_transaction c) eqn:Ho; [apply Hm|].
  intros saved Hs. unfold in_transaction in Ho. by rewrite Hs in Ho.
Qed.
Lemma within_write_scope {X} (m : M Store X) :
  keeps (within_when guard P) m → keeps (within_when guard P) (_write_scope m).
Proof.
  intros Hm c. unfold _write_scope, mbind, M_bind, gets.
  destruct (in_transaction c) eqn:Ho; [apply Hm|].
  intros saved Hs. unfold in_transaction in Ho. by rewrite Hs in Ho.
Qed.
Lemma within_record event : keeps (within P) (record event).
Proof. intros c saved Hs Hd. rewrite record_suppressed by done. done. Qed.
Lemma within_draw nbytes : keeps (within_when guard P) (draw nbytes).
Proof. by intros c saved Hs Hd. Qed.
Lemma within_query {X} (f : Db → X) : keeps (within_when guard P) (query f).
Proof. apply keeps_gets, _. Qed.
Lemma within_get_rule id : keeps (within_when guard P) (sql_get_rule id).
Proof. intros c. destruct (sql_get_rule id c) as [r c'] eqn:Hg. by rewrite (sql_get_rule_same _ _ _ _ Hg). Qed.
End within.

(** Everything an operation is made of, down to its statements. *)
Ltac within :=
  repeat first
    [ apply within_record, _ | apply within_get_rule, _ | apply within_atomic_write | apply within_write_scope
    | apply keeps_lift_bind; [apply _|intros ? ?]
    | apply keeps_bind; [apply _| |intros ?] | apply keeps_ret, _ | apply keeps_raise, _
    | apply keeps_gets, _ | apply keeps_lift, _ | apply within_query, _ | apply within_draw, _
    | apply within_statement; [apply _|intros ? ? ? ?]
    | apply keeps_for_each; [apply _|intros ? ?] | apply keeps_mapM; [apply _|intros ? ?]
    | apply keeps_if | progress unfold select
    | match goal with |- keeps _ (match ?x with _ => _ end) => destruct x eqn:? end ].

Lemma inside_statement {T X} (t : table T) (st : T → result (X * T)) : keeps inside (statement t st).
Proof. apply inside_execute. Qed.
Ltac inside :=
  repeat first
    [ apply record_inside | apply sql_audit_write_inside | apply inside_emit | apply inside_atomic_write | apply inside_write_scope
    | apply keeps_bind; [apply _| |intros ?] | apply keeps_ret, _ | apply keeps_raise, _
    | apply keeps_gets, _ | apply keeps_lift, _ | apply inside_query | apply inside_local
    | apply inside_statement
    | apply keeps_for_each; [apply _|intros ? ?] | apply keeps_mapM; [apply _|intros ? ?]
    | apply keeps_if | progress unfold select
    | match goal with |- keeps _ (match ?x with _ => _ end) => destruct x end ].

(** ** Data alone

    The data changes by [P] while the transaction stays open, whatever becomes of
    the emissions. *)
Definition grows (P : Db → Db → Prop) (c c' : Store) : Prop := ∀ saved,
  c_saved c = Some saved → c_saved c' = Some saved ∧ P (c_db c) (c_db c').
Section grows.
Context (P : Db → Db → Prop) `{!PreOrder P}.
#[global] Instance grows_preorder : PreOrder (grows P).
Proof.
  split; [by intros c saved|]. intros c1 c2 c3 H12 H23 saved Hs.
  destruct (H12 saved Hs) as [Hs2 H2]. destruct (H23 saved Hs2) as [Hs3 H3]. split; [done|by etrans].
Qed.
Lemma within_grows {X} (m : M Store X) : keeps (within_when (λ _, True) P) m → keeps (grows P) m.
Proof. intros Hm c saved Hs. destruct (Hm c saved Hs I) as (? & _ & _ & ?). done. Qed.
Lemma grows_record event :
  (∀ db rows, P db (t_set audit_table rows db)) → keeps (grows P) (record event).
Proof.
  intros Haudit. unfold record, _depth, control_event_id, sql_audit_write.
  apply keeps_bind; [apply _|apply keeps_gets, _|]. intros depth.
  apply keeps_if; [apply keeps_ret, _|].
  apply keeps_bind; [apply _|apply within_grows; within|]. intros id.
  apply keeps_bind; [apply _| |].
  - apply within_grows. unfold write_event. within. apply Haudit.
  - intros head c saved Hs. unfold emit_or_defer, modify. by destruct (c_scopes c).
Qed.
(** An operation of an idle connection that commits a change by [P], or none. *)
Definition settles {X} (m : M Store X) : Prop := ∀ c, idle c →
  idle (m c).2 ∧ P (c_db c) (c_db (m c).2).
Lemma settles_bind {X Y} (m : M Store X) (k : X → M Store Y) :
  settles m → (∀ x, settles (k x)) → settles (m ≫= k).
Proof.
  intros Hm Hk c Hi. unfold mbind, M_bind. destruct (Hm c Hi) as [Hi1 H1].
  destruct (m c) as [[x|e] c1]; [|done]. destruct (Hk x c1 Hi1) as [Hi2 H2].
  split; [done|]. by etrans.
Qed.
Lemma settles_same {X} (m : M Store X) :
  (∀ c, c_saved (m c).2 = c_saved c ∧ c_scopes (m c).2 = c_scopes c ∧ c_db (m c).2 = c_db c) →
  settles m.
Proof.
  intros Hm c [Hs Hsc]. destruct (Hm c) as (H1 & H2 & H3). unfold idle. rewrite H1, H2, H3. done.
Qed.
Lemma settles_atomic_write {X} (m : M Store X) :
  keeps inside m → keeps (grows P) m → settles (_atomic_write m).
Proof.
  intros Hin Hm c Hi. destruct (_atomic_write m c) as [r c'] eqn:Hrun.
  destruct (atomic_write_outcome m c r c' Hin Hi Hrun) as [Hi' Hout]. split; [done|]. cbn [snd].
  destruct r as [x|e]; [|by rewrite (proj1 Hout)].
  destruct Hout as (c0 & c1 & em & Hdb & Hs & _ & _ & Hbody & Hdb' & _).
  rewrite Hdb', <- Hdb. pose proof (Hm c0 _ Hs) as Hg. rewrite Hbody in Hg. apply Hg.
Qed.
Lemma settles_write_scope {X} (m : M Store X) :
  keeps (within_when (λ _, True) P) m → settles (_write_scope m).
Proof.
  intros Hm c [Hs Hsc]. unfold _write_scope, transaction, begin_immediate, commit, rollback, busy,
    gets, modify, raise, try_except, mret, M_ret, mbind, M_bind, in_transaction. rewrite Hs.
  rewrite bool_decide_false by (by intros [? ?]).
  rewrite Hs, bool_decide_false by (by intros [? ?]).
  destruct (default false (head (c_busy c))); [by split|].
  set (c0 := set_saved _ _). pose proof (Hm c0 (c_db c) eq_refl I) as Hc.
  destruct (m c0) as [[x|e] c1]; cbn [snd] in Hc; destruct Hc as (Hs1 & _ & Hsc1 & Hp); cbn in Hsc1.
  - rewrite Hs1, bool_decide_true by done. destruct (default false (head (c_busy c1))).
    + unfold committed. cbn. rewrite ?Hs1. split; [split; [done|exact (eq_trans Hsc1 Hsc)]|done].
    + cbn. split; [split; [done|exact (eq_trans Hsc1 Hsc)]|exact Hp].
  - unfold committed. cbn. rewrite ?Hs1. split; [split; [done|exact (eq_trans Hsc1 Hsc)]|done].
Qed.
End grows.
