(* ===== verification/IdemRuns.v ===== *)
(** * Sealed responses come back, and only to the request they were sealed for

    The plaintext of a response reads back; a stored result that was sealed with
    a key of the ring classifies as the response it was sealed from until it
    expires; and the data a result is authenticated with determines whose result
    it is. *)
From S2P Require Import Prelude PyStr PyDict Models Sha256 Pop World Json IdemCrypto IdemStorage.
From S2P Require Import IdemRows SqlTxn SqlRows SqlStore IdemSqlite SqlWithin.

(** ** Reading at an offset *)
Lemma substring_skip (a b : string) n :
  String.substring (String.length a) n (a ^+ b) = String.substring 0 n b.
Proof. induction a as [|c a IH]; [reflexivity|]. exact IH. Qed.
Lemma substring_take (a b : string) : String.substring 0 (String.length a) (a ^+ b) = a.
Proof. induction a as [|c a IH]; [by destruct b|]. simpl. by rewrite IH. Qed.
Lemma substring_at (a b c : string) :
  String.substring (String.length a) (String.length b) (a ^+ b ^+ c) = b.
Proof. rewrite substring_skip. apply substring_take. Qed.
Lemma get_at (a b : string) c : String.get (String.length a) (a ^+ String c b) = Some c.
Proof. induction a as [|d a IH]; [done|]. exact IH. Qed.

Lemma length_prefixed_len v p : length_prefixed v = Ok p →
  String.length p = (4 + String.length v)%nat ∧ ∃ h, p = h ^+ v ∧ String.length h = 4%nat ∧
    from_be (bytes_of h) = Z.of_nat (String.length v).
Proof.
  unfold length_prefixed. destruct (Z.ltb_spec (Z.of_nat (String.length v)) 4294967296); [|done].
  intros E. apply (inj Ok) in E. subst p. set (h := string_of (be_bytes 4 (Z.of_nat (String.length v)))). assert (Hh : String.length h = 4%nat).
  { unfold h. by rewrite length_string_of, length_be_bytes. }
  split; [by rewrite length_app_str, Hh|]. exists h. split_and!; [done..|].
  unfold h. rewrite bytes_string_of by apply be_bytes_range. apply be_bytes_from_be. cbn. lia.
Qed.
Lemma read_prefixed_at pre v p post : length_prefixed v = Ok p →
  _read_length_prefixed (pre ^+ p ^+ post) (String.length pre) =
    Ok (v, (String.length pre + String.length p)%nat).
Proof.
  intros Hp. destruct (length_prefixed_len v p Hp) as (Hlen & h & -> & Hh & Hn).
  unfold _read_length_prefixed, LENGTH_PREFIX_BYTES.
  assert (Hhead : String.substring (String.length pre) 4 (pre ^+ (h ^+ v) ^+ post) = h).
  { rewrite <- Hh, app_assoc_str. apply substring_at. }
  rewrite Hhead, Hn, Nat2Z.id, !length_app_str, Hh.
  destruct (Nat.ltb_spec (String.length pre + (4 + String.length v + String.length post))
    (String.length pre + 4)); [lia|].
  destruct (Nat.ltb_spec (String.length pre + (4 + String.length v + String.length post))
    (String.length pre + 4 + String.length v)); [lia|].
  f_equal. f_equal; [|lia].
  replace (pre ^+ (h ^+ v) ^+ post) with ((pre ^+ h) ^+ v ^+ post) by by rewrite !app_assoc_str.
  replace (String.length pre + 4)%nat with (String.length (pre ^+ h)) by (rewrite length_app_str; lia).
  replace (String.length (pre ^+ h) + String.length v - String.length (pre ^+ h))%nat
    with (String.length v) by lia.
  apply substring_at.
Qed.
Definition text_ok (o : option string) : bool := match o with Some s => utf8_ok s | None => true end.
Lemma read_optional_at pre o p post : text_ok o = true → _encode_optional_text o = Ok p →
  _read_optional_text (pre ^+ p ^+ post) (String.length pre) =
    Ok (o, (String.length pre + String.length p)%nat).
Proof.
  intros Ho. destruct o as [v|]; cbn [_encode_optional_text].
  - unfold _length_prefix, mbind, result_bind. destruct (length_prefixed v) as [q|] eqn:Eq; [|done].
    intros E. apply (inj Ok) in E. subst p. unfold _read_optional_text.
    change (string_of [1] ^+ q) with (String (char_of 1) q). rewrite app_cons, get_at. change (byte_of (char_of 1)) with 1. cbn [Z.eqb].
    replace (pre ^+ String (char_of 1) (q ^+ post)) with ((pre ^+ string_of [1]) ^+ q ^+ post)
      by by rewrite app_assoc_str.
    replace (S (String.length pre)) with (String.length (pre ^+ string_of [1]))
      by (rewrite length_app_str; cbn; lia).
    unfold mbind, result_bind. rewrite (read_prefixed_at _ v q post Eq). rewrite (Ho : utf8_ok v = true).
    rewrite length_app_str. cbn. f_equal. f_equal. lia.
  - intros E. apply (inj Ok) in E. subst p. unfold _read_optional_text.
    change (string_of [0] ^+ post) with (String (char_of 0) post). rewrite get_at.
    change (byte_of (char_of 0)) with 0. cbn. f_equal. f_equal. lia.
Qed.

(** A response the service serializes. *)
Definition response_ok (r : PreSerializedHttpResponse) : Prop :=
  ps_content_type r = JSON_CONTENT_TYPE ∧ text_ok (ob_error_code (ps_observation r)) = true ∧
  text_ok (ob_decision (ps_observation r)) = true.
Lemma plaintext_reads_back r p : response_ok r → encode_response_plaintext r = Ok p →
  _decode_response_plaintext (ps_status_code r) p = Ok r.
Proof.
  destruct r as [status ct body [err dec]]. intros (Hct & Herr & Hdec). cbn in Hct, Herr, Hdec. subst ct.
  unfold encode_response_plaintext. cbn [concat_results ps_body ps_observation ob_error_code ob_decision].
  unfold mbind, result_bind.
  destruct (_length_prefix body) as [b|] eqn:Eb; [|done].
  destruct (_encode_optional_text err) as [x|] eqn:Ex; [|done].
  destruct (_encode_optional_text dec) as [y|] eqn:Ey; [|done]. intros [= <-].
  unfold _decode_response_plaintext. rewrite startswith_app. cbn [negb].
  unfold mbind, result_bind.
  rewrite (read_prefixed_at RESPONSE_PLAINTEXT_DOMAIN body b (x ^+ y ^+ "") Eb). cbv beta iota.
  replace (RESPONSE_PLAINTEXT_DOMAIN ^+ b ^+ x ^+ y ^+ "")
    with ((RESPONSE_PLAINTEXT_DOMAIN ^+ b) ^+ x ^+ (y ^+ "")) by by rewrite !app_assoc_str.
  rewrite <- length_app_str. rewrite (read_optional_at _ err x (y ^+ "") Herr Ex). cbv beta iota.
  replace ((RESPONSE_PLAINTEXT_DOMAIN ^+ b) ^+ x ^+ (y ^+ ""))
    with (((RESPONSE_PLAINTEXT_DOMAIN ^+ b) ^+ x) ^+ y ^+ "") by by rewrite !app_assoc_str.
  rewrite <- length_app_str. rewrite (read_optional_at _ dec y "" Hdec Ey). cbv beta iota.
  rewrite !length_app_str. cbn [String.length]. rewrite Nat.add_0_r, Nat.eqb_refl. done.
Qed.

(** ** What a result is authenticated with *)

Lemma int64_inj v v' p p' r r' : _int64 v = Ok p → _int64 v' = Ok p' → p ^+ r = p' ^+ r' → v = v' ∧ r = r'.
Proof.
  unfold _int64. destruct ((-9223372036854775808 <=? v) && (v <? 9223372036854775808)) eqn:Ev; [|done].
  destruct ((-9223372036854775808 <=? v') && (v' <? 9223372036854775808)) eqn:Ev'; [|done].
  apply andb_true_iff in Ev as [?%Z.leb_le ?%Z.ltb_lt]. apply andb_true_iff in Ev' as [?%Z.leb_le ?%Z.ltb_lt].
  intros Ep Ep' E. apply (inj Ok) in Ep, Ep'. subst p p'.
  apply app_len_inj in E as [Hpre ->]; [|by rewrite !length_string_of, !length_be_bytes]. split; [|done].
  apply (f_equal bytes_of) in Hpre. rewrite !bytes_string_of in Hpre by apply be_bytes_range.
  apply (f_equal from_be) in Hpre.
  pose proof (Z.mod_pos_bound v 18446744073709551616 eq_refl) as Hm.
  pose proof (Z.mod_pos_bound v' 18446744073709551616 eq_refl) as Hm'.
  rewrite !be_bytes_from_be in Hpre by (cbn; lia).
  Z.to_euclidean_division_equations; lia.
Qed.
Lemma concat_cons p parts a : concat_results (p :: parts) = Ok a →
  ∃ b r, p = Ok b ∧ concat_results parts = Ok r ∧ a = b ^+ r.
Proof.
  cbn [concat_results]. unfold mbind, result_bind.
  destruct p as [b|]; [|done]. destruct (concat_results parts) as [r|]; [|done]. intros [= <-]. eauto.
Qed.
(** Two encodings of the same shape that are one text have one value. *)
Lemma int64_step v v' parts parts' a :
  concat_results (_int64 v :: parts) = Ok a → concat_results (_int64 v' :: parts') = Ok a →
  v = v' ∧ ∃ r, concat_results parts = Ok r ∧ concat_results parts' = Ok r.
Proof.
  intros (b & r & Hb & Hr & Ea)%concat_cons (b' & r' & Hb' & Hr' & Ea')%concat_cons.
  destruct (int64_inj v v' b b' r r' Hb Hb') as [-> ->]; [congruence|eauto].
Qed.
Lemma prefixed_step v v' parts parts' a :
  concat_results (_length_prefix v :: parts) = Ok a → concat_results (_length_prefix v' :: parts') = Ok a →
  v = v' ∧ ∃ r, concat_results parts = Ok r ∧ concat_results parts' = Ok r.
Proof.
  intros (b & r & Hb & Hr & Ea)%concat_cons (b' & r' & Hb' & Hr' & Ea')%concat_cons.
  destruct (length_prefixed_inj v v' b r r' Hb b' Hb') as [-> ->]; [congruence|eauto].
Qed.
Lemma domain_step d parts parts' a :
  concat_results (Ok d :: parts) = Ok a → concat_results (Ok d :: parts') = Ok a →
  ∃ r, concat_results parts = Ok r ∧ concat_results parts' = Ok r.
Proof.
  intros (b & r & [= <-] & Hr & Ea)%concat_cons (b' & r' & [= <-] & Hr' & Ea')%concat_cons.
  assert (r' = r) as -> by (eapply app_inj_l; by rewrite <- Ea'). eauto.
Qed.
Lemma overflow_Ok {A} e (m : result A) a : overflow_as e m = Ok a → m = Ok a.
Proof. by destruct m as [|[]]. Qed.
Ltac next_part Hm Hm' := first
  [ destruct (int64_step _ _ _ _ _ Hm Hm') as (? & ? & ? & ?)
  | destruct (prefixed_step _ _ _ _ _ Hm Hm') as (? & ? & ? & ?)
  | destruct (domain_step _ _ _ _ Hm Hm') as (? & ? & ?) ]; clear Hm Hm'.

(** A sealed response is bound to the request it answers: the data it is
    authenticated with is the same for two results only if everything about
    them is, the workspace, the principal, the operation, the key, the request's
    fingerprint, the status, the sealing key and both moments. *)
Theorem response_aad_injective m m' aad :
  build_response_aad m = Ok aad → build_response_aad m' = Ok aad → m = m'.
Proof.
  unfold build_response_aad. destruct (_ || _); [done|]. destruct (_ || _); [done|].
  intros Hm%overflow_Ok Hm'%overflow_Ok. destruct m, m'.
  repeat match goal with
  | Ha : concat_results (_ :: _) = Ok ?a, Hb : concat_results (_ :: _) = Ok ?a |- _ => next_part Ha Hb
  end. simpl in *. by subst.
Qed.
Definition sample_aad : ResponseAadInput :=
  mkResponseAadInput 1 "ws" "workspace:ws" "grant.issue.v1" (sha256_digest "key") (sha256_digest "body")
    201 JSON_CONTENT_TYPE "v1" 100 200.
Lemma response_aad_injective_witness :
  ∃ aad, build_response_aad sample_aad = Ok aad ∧ ∀ m, build_response_aad m = Ok aad → m = sample_aad.
Proof.
  destruct (build_response_aad sample_aad) as [aad|e] eqn:E.
  - exists aad. split; [done|]. intros m Hm. exact (response_aad_injective m sample_aad aad Hm E).
  - exfalso. vm_compute in E. discriminate.
Defined.

(** * Runs of idempotent requests

    What reading the clock and the statements of the idempotency tables do to a
    connection, and the logic the operations are followed with: in an open
    transaction, and from an idle connection, what an operation may do to the
    data. *)

(** ** Runs *)

Definition idem (c : Store) : IdemDb := d_idem (c_db c).
Definition set_idem (t : IdemDb) (c : Store) : Store := set_db (t_set idem_table t (c_db c)) c.
(** The tables but those of idempotent requests. *)
Definition data (c : Store) : Db := t_set idem_table empty_idem (c_db c).
Definition clock_of (c : Store) : Clock := l_clock (c_local c).
(** What the next reading of the database's clock returns. *)
Definition now_of (c : Store) : Z := ck_source (clock_of c) (ck_read (clock_of c)).
Definition tick (c : Store) : Store := set_local (l_tick (c_local c)) c.

(** The clock of the database stays what it is. *)
Definition aged (l l' : Local) : Prop := ck_source (l_clock l') = ck_source (l_clock l).
#[export] Instance aged_preorder : PreOrder aged.
Proof. split; [done|]. unfold aged. intros x y z ? ?. congruence. Qed.

Lemma read_clock_run c : read_clock c = (Ok (now_of c), tick c).
Proof. done. Qed.
Lemma idem_select_run {X} (f : IdemDb → X) c : idem_select f c = (Ok (f (idem c)), c).
Proof. done. Qed.
Lemma idem_statement_run {X} (st : IdemDb → result (X * IdemDb)) c : c_saved c ≠ None →
  idem_statement st c = match st (idem c) with
                        | Ok (x, t) => (Ok x, set_idem t c)
                        | Raise e => (Raise e, c)
                        end.
Proof.
  intros Ho. unfold idem_statement, statement, execute, in_transaction.
  rewrite bool_decide_true by by apply not_eq_None_Some. change (t_get idem_table (c_db c)) with (idem c).
  unfold mbind, result_bind. destruct (st (idem c)) as [[x t]|e]; done.
Qed.
Lemma storage_error_Ok {X} e (m : M Store X) c x c' :
  storage_error_as e m c = (Ok x, c') ↔ m c = (Ok x, c').
Proof.
  unfold storage_error_as, try_except. destruct (m c) as [[y|e'] c1]; [done|].
  split; [|done]. by destruct e'.
Qed.
Lemma storage_error_state {X} e (m : M Store X) c : (storage_error_as e m c).2 = (m c).2.
Proof. unfold storage_error_as, try_except. destruct (m c) as [[y|e'] c1]; [done|]. by destruct e'. Qed.

(** ** Operations by what they may do

    [upholds R L Q m]: from a state that satisfies [L], the operation leads to a
    state related by [R] that satisfies [L] again, and returns a value that
    satisfies [Q] when it returns. *)
Section upholds.
Context {St : Type} (R : St → St → Prop) `{!PreOrder R} (L : St → Prop).
Definition upholds {X} (Q : X → Prop) (m : M St X) : Prop := ∀ s, L s →
  R s (m s).2 ∧ L (m s).2 ∧ match (m s).1 with Ok x => Q x | Raise _ => True end.

Lemma upholds_ret {X} (Q : X → Prop) x : Q x → upholds Q (mret x).
Proof. by intros HQ s Hs. Qed.
Lemma upholds_raise {X} (Q : X → Prop) e : upholds Q (raise e).
Proof. by intros s Hs. Qed.
Lemma upholds_lift {X} (Q : X → Prop) (o : result X) : (∀ x, o = Ok x → Q x) → upholds Q (lift o).
Proof. intros HQ s Hs. split_and!; [done..|]. destruct o; [by apply HQ|done]. Qed.
Lemma upholds_gets {X} (Q : X → Prop) (f : St → X) : (∀ s, L s → Q (f s)) → upholds Q (gets f).
Proof. intros HQ s Hs. split_and!; [done..|]. by apply HQ. Qed.
Lemma upholds_bind {X Y} (Q : X → Prop) (Q' : Y → Prop) m f :
  upholds Q m → (∀ x, Q x → upholds Q' (f x)) → upholds Q' (m ≫= f).
Proof.
  intros Hm Hf s Hs. unfold mbind, M_bind. destruct (Hm s Hs) as (Hr & Hl & HQ).
  destruct (m s) as [[x|e] s1]; cbn in *; [|done]. destruct (Hf x HQ s1 Hl) as (Hr' & Hl' & HQ').
  split_and!; [by etrans|done..].
Qed.
(** From one state. *)
Lemma upholds_after {X Y} (Q : Y → Prop) (m : M St X) f s : R s (m s).2 ∧ L (m s).2 →
  (∀ x, upholds Q (f x)) →
  R s ((m ≫= f) s).2 ∧ L ((m ≫= f) s).2 ∧ match ((m ≫= f) s).1 with Ok y => Q y | Raise _ => True end.
Proof.
  intros [Hr Hl] Hf. unfold mbind, M_bind. destruct (m s) as [[x|e] s1]; cbn in *; [|done].
  destruct (Hf x s1 Hl) as (Hr' & Hl' & HQ'). split_and!; [by etrans|done..].
Qed.
Lemma upholds_try {X} (Q : X → Prop) m h :
  upholds Q m → (∀ e, upholds Q (h e)) → upholds Q (try_except m h).
Proof.
  intros Hm Hh s Hs. unfold try_except. destruct (Hm s Hs) as (Hr & Hl & HQ).
  destruct (m s) as [[x|e] s1]; cbn in *; [done|]. destruct (Hh e s1 Hl) as (Hr' & Hl' & HQ').
  split_and!; [by etrans|done..].
Qed.
Lemma upholds_for_each {X} (f : X → M St unit) l :
  (∀ x, x ∈ l → upholds (λ _, True) (f x)) → upholds (λ _, True) (for_each f l).
Proof.
  induction l as [|x l IH]; intros Hf; cbn [for_each]; [by apply upholds_ret|].
  apply upholds_bind with (λ _, True); [apply Hf; left|]. intros _ _. apply IH. intros y Hy.
  apply Hf. by right.
Qed.
Lemma upholds_any {X} (Q : X → Prop) m : upholds Q m → upholds (λ _, True) m.
Proof. intros Hm s Hs. destruct (Hm s Hs) as (? & ? & _). split_and!; [done..|]. by destruct (m s).1. Qed.
End upholds.

(** A computation that ends at once. *)
Ltac ends := first [apply upholds_ret | apply upholds_raise | apply upholds_lift]; try apply _; try done.

(** ** Operations on the tables and the clock *)
Section tables.
(** What is known of the clock, and what may become of the data. *)
Context (K : Clock → Prop) (P : Db → Db → Prop) `{!PreOrder P}.
Context (K_tick : ∀ k, K k → K (mkClock (ck_source k) (S (ck_read k)))).

Definition stays (c c' : Store) : Prop :=
  P (c_db c) (c_db c') ∧ c_saved c' = c_saved c ∧ c_scopes c' = c_scopes c.
Definition becomes (c c' : Store) : Prop := P (c_db c) (c_db c').
#[global] Instance stays_preorder : PreOrder stays.
Proof.
  split; [done|]. intros c1 c2 c3 (H1 & ? & ?) (H2 & ? & ?). split; [by etrans|split; congruence].
Qed.
#[global] Instance becomes_preorder : PreOrder becomes.
Proof. split; [intros c; unfold becomes; reflexivity|]. unfold becomes. intros c1 c2 c3 ? ?. by etrans. Qed.
(** In an open transaction; from an idle connection. *)
Definition inner {X} (Q : X → Prop) (m : M Store X) : Prop :=
  upholds stays (λ c, c_saved c ≠ None ∧ K (clock_of c)) Q m.
Definition outer {X} (Q : X → Prop) (m : M Store X) : Prop :=
  upholds becomes (λ c, idle c ∧ K (clock_of c)) Q m.

Lemma inner_clock Q : (∀ k, K k → Q (ck_source k (ck_read k))) → inner Q read_clock.
Proof. intros HQ c [Ho Hk]. split; [done|]. split; [|by apply HQ]. split; [done|]. by apply K_tick. Qed.
Lemma outer_clock Q : (∀ k, K k → Q (ck_source k (ck_read k))) → outer Q read_clock.
Proof.
  intros HQ c [Ho Hk]. split; [unfold becomes; reflexivity|]. split; [|by apply HQ].
  split; [done|]. by apply K_tick.
Qed.
Lemma inner_draw n : inner (λ _, True) (token_bytes n).
Proof. intros c [Ho Hk]. by split_and!. Qed.
Lemma inner_select {X} (f : IdemDb → X) : inner (λ _, True) (idem_select f).
Proof. apply upholds_gets; [apply _|done]. Qed.
Lemma outer_select {X} (f : IdemDb → X) : outer (λ _, True) (idem_select f).
Proof. apply upholds_gets; [apply _|done]. Qed.
Lemma inner_statement {X} (st : IdemDb → result (X * IdemDb)) :
  (∀ db x t, st (d_idem db) = Ok (x, t) → P db (t_set idem_table t db)) →
  inner (λ _, True) (idem_statement st).
Proof.
  intros Hst c [Ho Hk]. rewrite idem_statement_run by done.
  destruct (st (idem c)) as [[x t]|e] eqn:Hx; [|done]. split; [|done].
  split; [|done]. by eapply Hst.
Qed.
(** A transaction does what its body does, or nothing. *)
Lemma transacted_stays {X} unsure (Q : X → Prop) (m : M Store X) c r c' :
  inner Q m → c_saved c = None → K (clock_of c) → transacted unsure m c r c' →
  P (c_db c) (c_db c') ∧ c_saved c' = None ∧ c_scopes c' = c_scopes c ∧ K (clock_of c') ∧
  match r with Ok x => Q x | Raise _ => True end.
Proof.
  intros Hm Hs Hk [(Hdb & Hs' & Hsc' & _ & Hl & e & ->)|(c0 & Hdb & Hs0 & Hsc0 & _ & Hl0 & Hout)].
  - unfold clock_of. rewrite Hdb, Hl. by split_and!.
  - assert (Hm0 : c_saved c0 ≠ None ∧ K (clock_of c0)).
    { split; [by rewrite Hs0|]. unfold clock_of. by rewrite Hl0. }
    apply Hm in Hm0. destruct (m c0) as [r1 c2]. cbn [fst snd] in Hm0, Hout.
    destruct Hm0 as ((HP & Hst & Hsc1) & [_ Hk1] & HQ).
    rewrite Hs0 in Hst. destruct (Hout Hst) as (Hs' & Hsc' & _ & Hl' & Hr). rewrite Hdb in HP.
    split; [|split; [done|split; [congruence|split; [unfold clock_of; by rewrite Hl'|]]]].
    + destruct r as [x|e]; [by destruct Hr as [_ ->]|]. by destruct Hr as [->|(_ & _ & ->)].
    + destruct r as [x|e]; [|done]. destruct Hr as [-> _]. exact HQ.
Qed.
Lemma outer_transaction_or {X} f (Q : X → Prop) (m : M Store X) : inner Q m → outer Q (transaction_or f m).
Proof.
  intros Hm c [[Hs Hsc] Hk]. destruct (transaction_or f m c) as [r c'] eqn:Hrun.
  apply transaction_or_cases in Hrun; [|done].
  destruct (transacted_stays _ Q m c r c' Hm Hs Hk Hrun) as (HP & Hs' & Hsc' & Hk' & HQ).
  refine (conj HP (conj (conj (conj Hs' _) Hk') HQ)). exact (eq_trans Hsc' Hsc).
Qed.
Lemma outer_txn {X} (Q : X → Prop) (m : M Store X) : inner Q m → outer Q (_transaction m).
Proof.
  intros Hm c Hc. unfold _transaction, gets, mbind, M_bind, in_transaction.
  rewrite (proj1 (proj1 Hc)). rewrite bool_decide_false by (by intros [? ?]). by apply outer_transaction_or.
Qed.
Lemma outer_atomic_write {X} (Q : X → Prop) (m : M Store X) : inner Q m → outer Q (_atomic_write m).
Proof.
  intros Hm c [[Hs Hsc] Hk]. unfold _atomic_write, gets, mbind, M_bind, in_transaction. rewrite Hs.
  rewrite bool_decide_false by (by intros [? ?]). unfold atomic_write_deferral.
  set (cs := set_scopes _ c). destruct (transaction m cs) as [r c1] eqn:Hrun.
  apply transaction_cases in Hrun; [|done].
  destruct (transacted_stays _ Q m cs r c1 Hm Hs Hk Hrun) as (HP & Hs' & Hsc' & Hk' & HQ).
  assert (Hsc1 : tail (c_scopes c1) = []) by (rewrite Hsc'; exact Hsc).
  destruct r as [x|e]; exact (conj HP (conj (conj (conj Hs' Hsc1) Hk') HQ)).
Qed.
End tables.

(** A transaction has done what its body has when it returns: what a body that
    raises did is undone. *)
Lemma outer_commits K P `{!PreOrder P} {X} (Q : X → Prop) (m : M Store X) :
  inner K (λ _ _, True) Q m →
  (∀ c x c', c_saved c ≠ None → K (clock_of c) → m c = (Ok x, c') → P (c_db c) (c_db c')) →
  outer K P Q (_transaction m).
Proof.
  intros Hm HP c Hc. assert (PreOrder (λ _ _ : Db, True)) by (by repeat split).
  destruct (outer_txn K (λ _ _, True) Q m Hm c Hc) as (_ & HL & HQ). refine (conj _ (conj HL HQ)).
  destruct Hc as [[Hs Hsc] Hk]. unfold becomes, _transaction, gets, mbind, M_bind, in_transaction.
  rewrite Hs, bool_decide_false by (by intros [? ?]).
  change (P (c_db c) (c_db (transaction_or ambiguous_commit m c).2)).
  destruct (transaction_or ambiguous_commit m c) as [r c'] eqn:Hrun. cbn [snd].
  apply transaction_or_cases in Hrun; [|done].
  destruct Hrun as [(-> & _)|(c0 & Hdb & Hs0 & _ & _ & Hl0 & Hout)]; [done|].
  assert (Hm0 : c_saved c0 ≠ None ∧ K (clock_of c0)).
  { split; [by rewrite Hs0|]. unfold clock_of. by rewrite Hl0. }
  pose proof (HP c0) as HP0. destruct (Hm c0 Hm0) as ((_ & Hst & _) & _).
  destruct (m c0) as [r1 c2]. cbn [fst snd] in *. rewrite Hs0 in Hst.
  assert (Hran : ∀ x, r1 = Ok x → P (c_db c) (c_db c2)).
  { intros x ->. rewrite <- Hdb. by apply (HP0 x c2); [apply Hm0..|]. }
  destruct (Hout Hst) as (_ & _ & _ & _ & Hr). destruct r as [x|e].
  - destruct Hr as [Hx ->]. by apply (Hran x).
  - destruct Hr as [->|(_ & [x Hx] & ->)]; [done|]. by apply (Hran x).
Qed.
