(* ===== verification/IdemOnce.v ===== *)
(** * An idempotent mutation runs once

    What the executor guarantees of a mutation sent with an idempotency key: it
    runs at most once, in one transaction with the storing of its sealed
    response, and only when nothing that may be replayed is stored. *)
From S2P Require Import Prelude PyStr PyDict Models Sha256 Pop World Json.
From S2P Require Import IdemCrypto IdemStorage IdemRuns IdemRows SqlTxn SqlRows SqlStore SqlWithin IdemSqlite IdemLifecycle.

(** ** A stored response *)
Section once.
Context `{AesGcmOk} (keyring : option IdempotencyKeyring).
Implicit Types inv : IdempotencyInvocation.

(** [answers inv T resp row]: until [T] the row answers the request with [resp]. *)
Definition answers inv (T : Z) (resp : PreSerializedHttpResponse) (record : CompletedResultRecord) : Prop :=
  ∀ now, now < T →
    classify_completed_result inv (Some record) keyring now = Ok (IdempotencyReplayCandidate resp).

Lemma key_found version k key : decryption_key version k = Some key → kv_version key = version.
Proof. unfold decryption_key. intros Hf%find_some. destruct Hf as [_ Hv]. by apply String.eqb_eq. Qed.
(** A response sealed under a reservation of the ring's key opens again. *)
Lemma sealed_answers inv res outcome now expires env :
  require_invocation inv = Ok tt → response_ok (co_response outcome) →
  _encrypt_outcome keyring inv res outcome now expires = Ok env →
  env_nonce env = cr_nonce res →
  answers inv expires (co_response outcome)
    (mkCompletedResultRecord (inv_request_fingerprint inv) (env_format_version env)
       (ps_status_code (co_response outcome)) (env_version env) (env_nonce env) (env_ciphertext env)
       now expires).
Proof.
  intros Hinv Hok Hseal Hnonce t Ht. unfold _encrypt_outcome in Hseal.
  destruct keyring as [ring|] eqn:Hring; [|done].
  destruct (decryption_key (cr_version res) ring) as [key|] eqn:Hkey; [|done].
  apply result_bind_inv in Hseal as (aad & Haad & Hseal).
  apply result_bind_inv in Hseal as (plain & Hplain & Hseal).
  unfold encrypt_reserved_response in Hseal. destruct (kv_version key == cr_version res) eqn:Hv; [|done].
  apply String.eqb_eq in Hv. cbn [negb] in Hseal. unfold _encrypt_with_nonce in Hseal.
  apply result_bind_inv in Hseal as ([] & Hlen & Hseal).
  destruct ((kv_version key == "") || _) eqn:Hguard; [done|].
  apply orb_false_iff in Hguard as [Hempty Hn]. apply result_bind_inv in Hseal as (sealed & Hsealed & Henv).
  apply (inj Ok) in Henv. subst env. cbn [env_nonce env_version env_format_version env_ciphertext] in *.
  destruct (_envelope_aad ENVELOPE_FORMAT_VERSION (kv_version key) aad) as [eaad|e] eqn:He;
    [|by destruct e].
  change (cipher_errors (aesgcm_encrypt (kv_material key) (cr_nonce res) plain eaad) = Ok sealed) in Hsealed.
  destruct (aesgcm_encrypt (kv_material key) (cr_nonce res) plain eaad) as [sealed'|e] eqn:Henc;
    [|by destruct e].
  cbn in Hsealed. apply (inj Ok) in Hsealed. subst sealed'.
  destruct (aesgcm_inverts _ _ _ _ _ Henc) as [Hdec Hslen].
  unfold classify_completed_result. rewrite Hinv. change (mbind (M:=result) ?f (Ok tt)) with (f tt).
  cbv beta iota.
  assert (Hauth : authenticate_completed_result inv
    (mkCompletedResultRecord (inv_request_fingerprint inv) ENVELOPE_FORMAT_VERSION
       (ps_status_code (co_response outcome)) (kv_version key) (cr_nonce res) sealed now expires)
    (Some ring) = Ok plain).
  { unfold authenticate_completed_result. rewrite Hinv. change (mbind (M:=result) ?f (Ok tt)) with (f tt).
    cbv beta iota. cbn [rec_cipher_key_version]. rewrite Hv, Hkey.
    unfold record_aad. cbn [rec_format_version rec_request_fingerprint rec_status_code
      rec_cipher_key_version rec_created_at_epoch rec_expires_at_epoch rec_response_nonce
      rec_response_ciphertext].
    rewrite Haad. change (mbind (M:=result) ?f (Ok aad)) with (f aad). cbv beta.
    unfold decrypt_response. cbn [env_format_version env_version env_nonce env_ciphertext].
    rewrite Z.eqb_refl, <- Hv, Hempty, Hn. cbn [negb orb].
    destruct (Nat.ltb_spec (String.length sealed) GCM_TAG_BYTES); [lia|].
    cbn [dget]. rewrite decide_True by done. rewrite Hlen.
    change (mbind (M:=result) ?f (Ok tt)) with (f tt). cbv beta. rewrite He.
    change (mbind (M:=result) ?f (Ok eaad)) with (f eaad). cbv beta. by rewrite Hdec. }
  rewrite Hauth. change (mbind (M:=result) ?f (Ok plain)) with (f plain). cbv beta.
  cbn [rec_expires_at_epoch rec_request_fingerprint rec_status_code].
  destruct (Z.leb_spec expires t); [lia|]. rewrite String.eqb_refl. cbn [negb].
  by rewrite (plaintext_reads_back _ _ Hok Hplain).
Qed.

(** ** Completing in a transaction *)

Definition stored_under inv (rows : list result_row) : list result_row :=
  List.filter (of_identity (result_identity inv)) rows.
(** A result that is read is the first one of its identity. *)
Lemma stored_head inv db : stored_result inv db = rrw_record <$> head (stored_under inv (i_results db)).
Proof.
  unfold stored_result, stored_under. induction (i_results db) as [|r l IH]; [done|]. cbn.
  by destruct (of_identity (result_identity inv) r).
Qed.
Definition without inv (db : IdemDb) : IdemDb :=
  set_results (List.filter (λ r, negb (of_identity (result_identity inv) r)) (i_results db)) db.
Definition result_of inv (outcome : CacheableTerminalOutcome) (env : EncryptedResponseEnvelope)
    (now expires : Z) : result_row :=
  mkResultRow (result_identity inv)
    (mkCompletedResultRecord (inv_request_fingerprint inv) (env_format_version env)
       (ps_status_code (co_response outcome)) (env_version env) (env_nonce env) (env_ciphertext env)
       now expires).
(** How a mutation's outcome is stored: not at all when it may not be replayed. *)
Definition keeps_result inv (res : CryptoReservation) (now : Z) (outcome : CacheableTerminalOutcome)
    (c c' : Store) : Prop :=
  let expires := terminal_expiry_epoch inv now (co_replay_not_after_epoch outcome) in
  (expires ≤ now ∧ c' = c) ∨
  (now < expires ∧ ∃ env db, _encrypt_outcome keyring inv res outcome now expires = Ok env ∧
     env_nonce env = cr_nonce res ∧ env_version env = cr_version res ∧
     insert_result (result_of inv outcome env now expires) (idem c) = Ok (tt, db) ∧ c' = set_idem db c).

Section completion.
Context inv (res : CryptoReservation) (mutation : M Store CacheableTerminalOutcome).
(** The transaction stays open through the mutation. *)
Context (Hopen : keeps inside mutation).

Lemma set_idem_saved t c : c_saved (set_idem t c) = c_saved c.
Proof. done. Qed.
Lemma mutation_open c x c' : c_saved c ≠ None → mutation c = (x, c') → c_saved c' ≠ None.
Proof.
  intros [saved Hs]%not_eq_None_Some Hm. pose proof (Hopen c saved Hs) as [Hs' _].
  rewrite Hm in Hs'. cbn in Hs'. by rewrite Hs'.
Qed.
Lemma run_and_store_run record now c resp c' : c_saved c ≠ None →
  run_and_store keyring inv res mutation record now c = (Ok resp, c') →
  ∃ c1 outcome c2, c1 = match record with Some _ => set_idem (without inv (idem c)) c | None => c end ∧
    mutation c1 = (Ok outcome, c2) ∧ co_response outcome = resp ∧
    keeps_result inv res now outcome c2 c'.
Proof.
  intros Ho Hrun. unfold run_and_store in Hrun.
  set (c1 := match record with Some _ => set_idem (without inv (idem c)) c | None => c end).
  assert (Hc1 : c_saved c1 ≠ None) by (by destruct record).
  assert (Hdel : (match record with Some _ => delete_sqlite_result inv | None => mret tt end) c = (Ok tt, c1)).
  { destruct record; [|done]. unfold delete_sqlite_result. by rewrite idem_statement_run. }
  rewrite (bind_run _ _ _ _ _ Hdel) in Hrun.
  apply bind_Ok_inv in Hrun as (outcome & c2 & Hm & Hrun). exists c1, outcome, c2.
  assert (Hc2 : c_saved c2 ≠ None) by by eapply mutation_open.
  unfold keeps_result. destruct (Z.leb_spec (terminal_expiry_epoch inv now (co_replay_not_after_epoch outcome)) now).
  - injection Hrun as <- <-. split_and!; [done..|]. by left.
  - apply bind_Ok_inv in Hrun as (env & c3 & [Hseal ->]%lift_run & Hrun).
    destruct (env_nonce env == cr_nonce res) eqn:En; [|done].
    destruct (env_version env == cr_version res) eqn:Ev; [|done]. cbn [negb orb] in Hrun.
    apply bind_Ok_inv in Hrun as ([] & c4 & Hins & Hrun). injection Hrun as <- <-.
    unfold insert_sqlite_result in Hins. rewrite idem_statement_run in Hins by done.
    fold (result_of inv outcome env now (terminal_expiry_epoch inv now (co_replay_not_after_epoch outcome))) in Hins.
    destruct (insert_result _ (idem c2)) as [[[] db]|e] eqn:Hrow; [|done]. injection Hins as <-.
    split_and!; [done..|]. right. split; [done|]. exists env, db.
    split_and!; try done; by apply String.eqb_eq.
Qed.
(** What completion does, when it returns. *)
Lemma complete_run c resp c' : c_saved c ≠ None →
  _complete_in_transaction keyring inv res mutation c = (Ok resp, c') →
  (∃ row v, row ∈ i_nonces (idem c) ∧ owns inv res row = true ∧ cnr_claimed_at_epoch row ≠ None ∧
     version_row_of (cnr_cipher_key_version row) (idem c) = Some v ∧ kvr_live v = true) ∧
  ∃ found, classify_completed_result inv (stored_result inv (idem c)) keyring (now_of c) = Ok found ∧
    match found with
    | IdempotencyReplayCandidate stored => stored = resp ∧ c' = tick c
    | IdempotencyProceedToReservation =>
        existsb (uses_nonce (cr_version res) (cr_nonce res)) (i_results (idem c)) = false ∧
        ∃ c1 outcome c2,
          c1 = match stored_result inv (idem c) with
               | Some _ => set_idem (without inv (idem c)) (tick c)
               | None => tick c
               end ∧
          mutation c1 = (Ok outcome, c2) ∧ co_response outcome = resp ∧
          keeps_result inv res (now_of c) outcome c2 c'
    end.
Proof.
  intros Ho Hrun. unfold _complete_in_transaction in Hrun.
  apply bind_Ok_inv in Hrun as (claimed & c1 & Hauth & Hrun).
  assert (Hrow : c1 = c ∧ ∃ row v, row ∈ i_nonces (idem c) ∧ owns inv res row = true ∧
    claimed = cnr_claimed_at_epoch row ∧ version_row_of (cnr_cipher_key_version row) (idem c) = Some v ∧
    kvr_live v = true).
  { unfold require_sqlite_reservation_authentic in Hauth.
    apply bind_Ok_inv in Hauth as (row & c2 & Hrow & Hauth). rewrite idem_select_run in Hrow.
    injection Hrow as Hrow <-. destruct row as [[[[|] [|]] cl]|]; try done. injection Hauth as <- <-.
    split; [done|]. destruct (List.find (owns inv res) (i_nonces (idem c))) as [n|] eqn:Hn; [|done].
    cbn in Hrow. destruct (version_row_of _ _) as [v|] eqn:Hv; [|done]. injection Hrow as Hd Hr <-.
    apply find_some in Hn as [Hin Ho']. exists n, v. split_and!; [by apply list_elem_of_In|done..|].
    unfold kvr_live. by rewrite !bool_decide_true. }
  destruct Hrow as (-> & row & v & Hin & Hown & -> & Hv & Hlive).
  destruct (cnr_claimed_at_epoch row) as [claimed|] eqn:Hclaimed; [|done].
  split; [exists row, v; by rewrite Hclaimed|].
  rewrite (bind_run _ _ _ _ _ (read_clock_run c)) in Hrun.
  unfold load_sqlite_result in Hrun. rewrite (bind_run _ _ _ _ _ (idem_select_run _ _)) in Hrun.
  unfold sqlite_result_uses_reservation_nonce in Hrun.
  rewrite (bind_run _ _ _ _ _ (idem_select_run _ _)) in Hrun.
  change (idem (tick c)) with (idem c) in Hrun.
  destruct (existsb (uses_nonce (cr_version res) (cr_nonce res)) (i_results (idem c))) eqn:Hused; [done|].
  apply bind_Ok_inv in Hrun as (found & c3 & [Hfound ->]%lift_run & Hrun).
  exists found. split; [done|]. destruct found as [stored|].
  - by injection Hrun as <- <-.
  - split; [done|]. by apply run_and_store_run in Hrun.
Qed.
End completion.

(** ** The parts of an execution *)
Section parts.
Context (K : Clock → Prop) (P : Db → Db → Prop) `{!PreOrder P}.
Context (K_tick : ∀ k, K k → K (mkClock (ck_source k) (S (ck_read k)))).
Abbreviation inner := (inner K P).
Abbreviation outer := (outer K P).
Implicit Types Q : Z → Prop.

Lemma upholds_errors {X} R L (Q : X → Prop) e (m : M Store X) :
  upholds R L Q m → upholds R L Q (storage_error_as e m).
Proof.
  intros Hm c Hc. rewrite storage_error_state. destruct (Hm c Hc) as (HR & HL & HQ).
  refine (conj HR (conj HL _)). unfold storage_error_as, try_except.
  destruct (m c) as [[x|e'] c1]; [done|]. by destruct e'.
Qed.
Lemma outer_epoch Q : (∀ k, K k → Q (ck_source k (ck_read k))) → outer Q database_epoch.
Proof. intros HQ. by apply upholds_errors, outer_clock. Qed.
Lemma outer_lookup inv now : outer (λ _, True) (lookup keyring inv now).
Proof.
  apply upholds_bind with (λ _, True); [apply _|by apply outer_select|]. intros row _.
  ends.
Qed.
Lemma outer_disable version reason now :
  (∀ db n t, update_versions (λ r, (kvr_version_label r == version) && bool_decide (kvr_retired_epoch r = None))
     (kvr_disable now reason) (d_idem db) = Ok (n, t) → P db (t_set idem_table t db)) →
  outer (λ _, True) (_write_disable version reason now).
Proof.
  intros Hup. apply outer_txn; [done|]. apply upholds_bind with (λ _, True); [apply _| |].
  - apply inner_statement; [done|]. exact Hup.
  - intros _ _. ends.
Qed.
Lemma outer_reserve inv now :
  (∀ ring, keyring = Some ring →
    outer (λ _, True) (_transaction (reserve_in_transaction inv (active_version ring) now))) →
  (∀ version reason db n t, update_versions
     (λ r, (kvr_version_label r == version) && bool_decide (kvr_retired_epoch r = None))
     (kvr_disable now reason) (d_idem db) = Ok (n, t) → P db (t_set idem_table t db)) →
  outer (λ _, True) (reserve_nonce keyring inv now).
Proof.
  intros Hres Hdis. unfold reserve_nonce. destruct keyring as [ring|]; [|ends].
  apply upholds_bind with (λ _, True); [apply _| |].
  - apply upholds_try; [apply _|by apply Hres|]. intros e.
    destruct (decide (e = _HardLimitReached)); [|destruct (decide (e = _NonceCollision))].
    1-2: apply upholds_bind with (λ _, True); [apply _|by apply outer_disable, Hdis|];
      intros; ends.
    destruct e; ends.
  - intros [slots nonce] _. ends.
Qed.
Lemma outer_claim inv res :
  (∀ now, inner (λ _, True) (claim_sqlite_reservation inv res now)) →
  outer (λ _, True) (storage_error_as IdempotencyWriteUnavailable (_transaction (
    now_epoch ← sqlite_database_epoch; claim_sqlite_reservation inv res now_epoch))).
Proof.
  intros Hcl. apply upholds_errors, outer_txn; [done|].
  apply upholds_bind with (λ _, True); [apply _|by apply inner_clock|].
  intros now _. apply Hcl.
Qed.

(** Statements on the versions and the nonces leave every result. *)
Section rows.
Context (Hrows : ∀ db t, i_results t = i_results (d_idem db) → P db (t_set idem_table t db)).
Lemma update_results p f db n t : update_versions p f db = Ok (n, t) → i_results t = i_results db.
Proof. unfold update_versions. destruct (existsb _ _); [done|]. by intros [= _ <-]. Qed.
Lemma inner_reserve inv version now : inner (λ _, True) (reserve_in_transaction inv version now).
Proof.
  unfold reserve_in_transaction. apply upholds_bind with (λ _, True); [apply _| |].
  { apply inner_statement; [done|]. intros db x t Hst.
    apply result_bind_inv in Hst as ([n t'] & Hup & [= _ <-]). by eapply Hrows, update_results. }
  intros [slots|] _.
  - apply upholds_bind with (λ _, True); [apply _| |].
    { destruct (_ <=? _); [|ends].
      apply upholds_bind with (λ _, True); [apply _| |intros; ends].
      apply inner_statement; [done|]. intros db x t Hup. by eapply Hrows, update_results. }
    intros _ _. apply upholds_bind with (λ _, True); [apply _|by apply inner_draw|]. intros nonce _.
    destruct (negb _); [ends|].
    apply upholds_bind with (λ _, True); [apply _| |].
    { apply inner_statement; [done|]. intros db n t. unfold insert_or_ignore_nonce.
      destruct (_ || _); [intros [= _ <-]; by apply Hrows|].
      destruct (version_row_of _ _); [|done]. intros [= _ <-]. by apply Hrows. }
    intros n _. destruct (negb _); [ends|].
    ends.
  - apply upholds_bind with (λ _, True); [apply _| |].
    { unfold _key_version_state. apply upholds_bind with (λ _, True); [apply _|by apply inner_select|].
      intros [row|] _; [ends|ends]. }
    intros st _. destruct (_ && _); ends.
Qed.
Lemma inner_claim inv res now : inner (λ _, True) (claim_sqlite_reservation inv res now).
Proof.
  unfold claim_sqlite_reservation. apply upholds_bind with (λ _, True); [apply _| |].
  - apply inner_statement; [done|]. intros db n t. cbv zeta. destruct (existsb _ _); [done|].
    intros [= _ <-]. by apply Hrows.
  - intros n _. destruct (negb _); [ends|ends].
Qed.
End rows.
End parts.

(** ** Exactly once *)

(** The results and the other tables are as they were. *)
Definition same_rows (db db' : Db) : Prop :=
  t_set idem_table empty_idem db' = t_set idem_table empty_idem db ∧
  i_results (d_idem db') = i_results (d_idem db).
#[global] Instance same_rows_preorder : PreOrder same_rows.
Proof. split; [done|]. unfold same_rows. intros x y z [] []. split; congruence. Qed.
Lemma same_rows_idem db t : i_results t = i_results (d_idem db) → same_rows db (t_set idem_table t db).
Proof. done. Qed.
Lemma same_stored inv c c' : same_rows (c_db c) (c_db c') → stored_result inv (idem c') = stored_result inv (idem c).
Proof. intros [_ Hr]. rewrite !stored_head. unfold idem. by rewrite Hr. Qed.

Section execution.
Context inv (reporter : option (M Store unit)) (mutation : M Store CacheableTerminalOutcome).
Context (Hopen : keeps inside mutation).
Context (Hresp : ∀ c outcome c', mutation c = (Ok outcome, c') → response_ok (co_response outcome)).
Context (src : nat → Z).
Let K (k : Clock) : Prop := ck_source k = src.
Abbreviation calm := (outer K same_rows).

(** The stored response was returned, and nothing else happened. *)
Definition replayed (c : Store) (resp : PreSerializedHttpResponse) (c' : Store) : Prop :=
  same_rows (c_db c) (c_db c') ∧ ∃ n,
    classify_completed_result inv (stored_result inv (idem c)) keyring (src n) =
      Ok (IdempotencyReplayCandidate resp).
(** The mutation ran, on the data as they were, with nothing stored that could be
    replayed; what it did was committed, with its response for as long as that may
    be replayed. *)
Definition performed (c : Store) (resp : PreSerializedHttpResponse) (c' : Store) : Prop :=
  ∃ n c0 outcome c1,
    classify_completed_result inv (stored_result inv (idem c)) keyring (src n) =
      Ok IdempotencyProceedToReservation ∧
    data c0 = data c ∧ mutation c0 = (Ok outcome, c1) ∧ co_response outcome = resp ∧ data c' = data c1 ∧
    let expires := terminal_expiry_epoch inv (src n) (co_replay_not_after_epoch outcome) in
    (expires ≤ src n ∧ i_results (idem c') = i_results (idem c1)) ∨
    (src n < expires ∧ ∃ record, answers inv expires resp record ∧
       stored_under inv (i_results (idem c')) = [mkResultRow (result_identity inv) record]).
(** An execution that raises has changed nothing, unless it raises what a COMMIT does
    of which it is not known whether it took effect: then the mutation may have been
    performed. *)
Definition settled (unsure : pyexc) (c : Store) (r : result PreSerializedHttpResponse) (c' : Store) : Prop :=
  idle c' ∧ match r with
            | Ok resp => replayed c resp c' ∨ performed c resp c'
            | Raise e => same_rows (c_db c) (c_db c') ∨ (e = unsure ∧ ∃ resp, performed c resp c')
            end.
Definition settles_to (unsure : pyexc) (m : M Store PreSerializedHttpResponse) : Prop :=
  ∀ c, idle c → K (clock_of c) → settled unsure c (m c).1 (m c).2.

Lemma performed_after c c1 resp c' : same_rows (c_db c) (c_db c1) → performed c1 resp c' → performed c resp c'.
Proof.
  intros Hsame (n & c0 & outcome & c2 & Hcl & Hdata & Hrest).
  exists n, c0, outcome, c2. rewrite (same_stored inv _ _ Hsame) in Hcl.
  split; [done|]. split; [|done]. rewrite Hdata. apply Hsame.
Qed.
Lemma settled_after unsure c c1 r c' : same_rows (c_db c) (c_db c1) → settled unsure c1 r c' → settled unsure c r c'.
Proof.
  intros Hsame [Hi Hr]. split; [done|]. destruct r as [resp|e].
  - destruct Hr as [[Hs Hn]|Hp]; [left|right; by eapply performed_after].
    split; [by etrans|]. by rewrite (same_stored inv _ _ Hsame) in Hn.
  - destruct Hr as [Hs|(-> & resp & Hp)]; [left; by etrans|right]. split; [done|]. exists resp.
    by eapply performed_after.
Qed.
Lemma settles_after unsure {X} (Q : X → Prop) (m : M Store X) f :
  calm Q m → (∀ x, Q x → settles_to unsure (f x)) → settles_to unsure (m ≫= f).
Proof.
  intros Hm Hf c Hi Hk. destruct (Hm c (conj Hi Hk)) as (HR & [Hi1 Hk1] & HQ).
  unfold mbind, M_bind. destruct (m c) as [[x|e] c1]; [|by split; [|left]].
  eapply settled_after; [exact HR|]. by apply Hf.
Qed.
(** What a COMMIT raises is kept apart from the other storage errors. *)
Lemma settles_errors e m : settles_to AmbiguousCommitError m → settles_to AmbiguousCommitError (storage_error_as e m).
Proof.
  intros Hm c Hi Hk. specialize (Hm c Hi Hk). unfold storage_error_as, try_except.
  destruct (m c) as [[x|e'] c1]; [done|]. destruct Hm as [Hi1 [Hs|[-> Hp]]].
  - destruct e'; (split; [exact Hi1|by left]).
  - split; [exact Hi1|by right].
Qed.

Lemma insert_result_stored r db t : insert_result r db = Ok (tt, t) →
  i_results t = i_results db ++ [r] ∧ List.filter (of_identity (rrw_identity r)) (i_results t) = [r].
Proof.
  unfold insert_result. destruct (negb _ || _ || _) eqn:Hg; [done|]. intros [= <-]. split; [done|]. cbn.
  apply orb_false_iff in Hg as [[_ Hg]%orb_false_iff _].
  rewrite List.filter_app. cbn [List.filter]. unfold of_identity at 2. rewrite bool_decide_true by done.
  assert (Hnone : List.filter (of_identity (rrw_identity r)) (i_results db) = []); [|by rewrite Hnone].
  induction (i_results db) as [|x l IH]; [done|]. cbn in Hg |- *.
  apply orb_false_iff in Hg as [[Hx _]%orb_false_iff Hl]. rewrite Hx. auto.
Qed.
Lemma complete_settles res : settles_to AmbiguousCommitError (complete_sqlite_result keyring inv res mutation).
Proof.
  apply settles_errors. intros c Hi Hk. set (body := _complete_in_transaction keyring inv res mutation).
  assert (Hin : keeps inside body).
  { unfold body, _complete_in_transaction, require_sqlite_reservation_authentic, sqlite_database_epoch,
      read_clock, load_sqlite_result, sqlite_result_uses_reservation_nonce, idem_select, run_and_store,
      delete_sqlite_result, insert_sqlite_result, idem_statement.
    repeat first [exact Hopen | progress inside]. }
  destruct (atomic_write_or ambiguous_commit body c) as [r c'] eqn:Hrun.
  destruct (atomic_write_or_local ambiguous_commit body c r c' Hin Hi Hrun)
    as [Hi' [(e & -> & Hdb & _)|(c0 & resp & c1 & emitted & Hdb & Hs0 & _ & Hl0 & Hbody & Hdb' & _ & _ & Hr)]].
  { split; [done|]. left. cbn. by rewrite Hdb. }
  assert (Hdone : replayed c resp c' ∨ performed c resp c').
  2: { split; [done|]. destruct r as [y|e]; [by destruct Hr as [-> _]|].
       destruct Hr as [<- _]. destruct Hdone as [[Hs _]|Hp]; [by left|right]. split; [done|]. by exists resp. }
  assert (Hk0 : now_of c0 = src (ck_read (clock_of c0))).
  { unfold now_of. unfold clock_of in *. rewrite Hl0. by rewrite Hk. }
  assert (Hidem : idem c0 = idem c) by (unfold idem; by rewrite Hdb).
  destruct (complete_run inv res mutation Hopen c0 resp c1) as (_ & found & Hfound & Hend);
    [by rewrite Hs0|done|]. rewrite Hidem, Hk0 in Hfound.
  assert (Hdata : data c' = data c1) by (unfold data; by rewrite Hdb').
  destruct found as [stored|].
  - destruct Hend as [-> ->]. left. split; [|eauto]. rewrite Hdb'. cbn. by rewrite Hdb.
  - destruct Hend as (_ & cm & outcome & c2 & Hcm & Hm & Hresp' & Hkept). right.
    exists (ck_read (clock_of c0)), cm, outcome, c2. rewrite Hk0 in Hkept.
    split; [done|]. split; [subst cm; unfold data; rewrite <- Hdb; by destruct (stored_result inv (idem c0))|].
    split; [done|]. split; [done|].
    destruct Hkept as [[Hexp ->]|(Hexp & env & db & Hseal & Hnonce & _ & Hins & ->)].
    + split; [done|]. left. split; [done|]. unfold idem. by rewrite Hdb'.
    + split; [by rewrite Hdata|]. right. split; [done|].
      destruct (insert_result_stored _ _ _ Hins) as [_ Hone].
      eexists. split; [|unfold idem; rewrite Hdb'; exact Hone]. rewrite <- Hresp'.
      eapply sealed_answers; [|by eapply Hresp|exact Hseal|exact Hnonce].
      clear -Hfound. unfold classify_completed_result in Hfound.
      by destruct (require_invocation inv) as [[]|].
Qed.
Lemma lookup_run now c :
  lookup keyring inv now c = (classify_completed_result inv (stored_result inv (idem c)) keyring now, c).
Proof. done. Qed.
(** Looking a key up, and answering with what is stored. *)
Lemma settles_lookup unsure (f : Z → M Store PreSerializedHttpResponse) : (∀ now, settles_to unsure (f now)) →
  settles_to unsure (now_epoch ← database_epoch;
              found ← lookup keyring inv now_epoch;
              match found with
              | IdempotencyReplayCandidate response => mret response
              | IdempotencyProceedToReservation => f now_epoch
              end).
Proof.
  intros Hf c Hi Hk. set (m := database_epoch ≫= _).
  assert (Hm : m c = match classify_completed_result inv (stored_result inv (idem c)) keyring (now_of c) with
    | Ok (IdempotencyReplayCandidate resp) => (Ok resp, tick c)
    | Ok IdempotencyProceedToReservation => f (now_of c) (tick c)
    | Raise e => (Raise e, tick c)
    end).
  { unfold m, database_epoch, storage_error_as, try_except, mbind, M_bind. rewrite read_clock_run.
    rewrite lookup_run. change (idem (tick c)) with (idem c).
    by destruct (classify_completed_result _ _ _ _) as [[]|]. }
  rewrite Hm. clearbody m. clear m Hm.
  destruct (classify_completed_result inv (stored_result inv (idem c)) keyring (now_of c)) as [[resp|]|e] eqn:Hc.
  - split; [exact Hi|]. left. split; [done|].
    exists (ck_read (clock_of c)). by rewrite <- (Hk : ck_source (clock_of c) = src).
  - eapply settled_after; [|apply Hf; [exact Hi|exact Hk]]. done.
  - split; [exact Hi|by left].
Qed.
Let K_tick k : K k → K (mkClock (ck_source k) (S (ck_read k))).
Proof. done. Qed.

Lemma claim_settles res : settles_to AmbiguousCommitError (claim_and_complete_sqlite_result keyring inv res mutation).
Proof.
  intros c Hi Hk. unfold claim_and_complete_sqlite_result.
  set (rest := λ found : IdempotencyLookupResult, match found with
    | IdempotencyReplayCandidate response => mret response
    | IdempotencyProceedToReservation =>
        _ ← storage_error_as IdempotencyWriteUnavailable (_transaction (
          now_epoch ← sqlite_database_epoch; claim_sqlite_reservation inv res now_epoch));
        complete_sqlite_result keyring inv res mutation
    end).
  assert (Hrest : settles_to AmbiguousCommitError (now_epoch ← database_epoch; found ← lookup keyring inv now_epoch; rest found)).
  { apply settles_lookup. intros _. eapply settles_after; [|intros; apply complete_settles].
    apply outer_claim; [apply _|done|]. intros now. apply inner_claim; [apply _|done]. }
  specialize (Hrest c Hi Hk). set (answer := classify_completed_result inv (stored_result inv (idem c)) keyring (now_of c)).
  assert (Hask : (now_epoch ← database_epoch; lookup keyring inv now_epoch) c = (answer, tick c)).
  { unfold database_epoch, storage_error_as, try_except, mbind, M_bind. by rewrite read_clock_run. }
  assert (Hall : (now_epoch ← database_epoch; found ← lookup keyring inv now_epoch; rest found) c =
    match answer with Ok found => rest found (tick c) | Raise e => (Raise e, tick c) end).
  { unfold database_epoch, storage_error_as, try_except, mbind, M_bind. rewrite read_clock_run.
    rewrite lookup_run. change (idem (tick c)) with (idem c). fold answer. by destruct answer. }
  rewrite Hall in Hrest. clearbody answer. clear Hall.
  change (settled AmbiguousCommitError c ((try_except (now_epoch ← database_epoch; lookup keyring inv now_epoch)
    (λ e, if decide (e = IdempotencyResultUnavailable) then raise IdempotencyWriteUnavailable else raise e)
    ≫= rest) c).1 ((try_except (now_epoch ← database_epoch; lookup keyring inv now_epoch)
    (λ e, if decide (e = IdempotencyResultUnavailable) then raise IdempotencyWriteUnavailable else raise e)
    ≫= rest) c).2).
  set (asked := (now_epoch ← database_epoch; lookup keyring inv now_epoch)) in *.
  unfold mbind, M_bind, try_except. rewrite Hask.
  destruct answer as [found|e]; [exact Hrest|]. destruct (decide _); (split; [exact Hi|by left]).
Qed.
(** The ambiguity reporter touches no row of a result and none of another table. *)
Context (Hreport : match reporter with Some report => settles same_rows report | None => True end).
Lemma performed_then c resp c1 c2 : performed c resp c1 → same_rows (c_db c1) (c_db c2) → performed c resp c2.
Proof.
  intros (n & c0 & outcome & c3 & Hcl & Hdata & Hm & Hr & Hd & Hkept) [Ht Hrows].
  exists n, c0, outcome, c3. unfold data, idem in *. rewrite Ht, Hrows. done.
Qed.
Lemma execute_settles : settles_to IdempotencyWriteUnavailable (execute_idempotent keyring reporter inv mutation).
Proof.
  intros c Hi Hk.
  assert (Hm : settles_to AmbiguousCommitError (now_epoch ← database_epoch; found ← lookup keyring inv now_epoch;
    match found with
    | IdempotencyReplayCandidate response => mret response
    | IdempotencyProceedToReservation =>
        reservation ← reserve_nonce keyring inv now_epoch; complete keyring inv reservation mutation
    end)).
  { apply settles_lookup. intros now. eapply settles_after; [|intros res _; apply claim_settles].
    apply outer_reserve; [apply _|..].
    - intros ring _. apply outer_txn, inner_reserve; [apply _..|done].
    - intros version reason db n t Hup. by eapply same_rows_idem, update_results. }
  specialize (Hm c Hi Hk). unfold execute_idempotent, try_except.
  destruct ((now_epoch ← database_epoch; _) c) as [[resp|e] c1]; [exact Hm|]. destruct Hm as [Hi1 Hs].
  destruct (decide (e = AmbiguousCommitError)) as [->|Hne]; [|by destruct Hs as [Hs|[-> _]]; [split; [|left]|]].
  assert (Hreported : ∀ c2, idle c2 → same_rows (c_db c1) (c_db c2) →
    settled IdempotencyWriteUnavailable c (Raise IdempotencyWriteUnavailable) c2).
  { intros c2 Hi2 Hs2. split; [done|]. destruct Hs as [Hs|(_ & resp & Hp)]; [left; by etrans|right].
    split; [done|]. exists resp. by eapply performed_then. }
  destruct reporter as [report|]; [|by apply Hreported].
  destruct (Hreport c1 Hi1) as [Hi2 Hs2]. unfold mbind, M_bind.
  destruct (report c1) as [[[]|e'] c2]; by apply Hreported.
Qed.
End execution.

(** C5: A mutation sent with an idempotency key runs at most once, and with its
    answer: an execution that returns has either returned the response stored
    under the key, with every result and every other table as it was, or has run
    the mutation once, on the data as they were, when nothing that could be
    replayed was stored, committing what it did together with its sealed response,
    which answers the same request until it expires; an execution that raises
    leaves the results and all other tables as they were, except that a COMMIT
    that raises may have taken effect: then the execution raises that it could not
    write, and the mutation has run, that once, with its response stored for the
    request to be sent again. *)
Theorem execute_once inv reporter mutation c r c' :
  keeps inside mutation →
  (∀ d outcome d', mutation d = (Ok outcome, d') → response_ok (co_response outcome)) →
  match reporter with Some report => settles same_rows report | None => True end →
  idle c → execute_idempotent keyring reporter inv mutation c = (r, c') →
  settled inv mutation (ck_source (clock_of c)) IdempotencyWriteUnavailable c r c'.
Proof.
  intros Hopen Hresp Hreport Hi Hrun.
  pose proof (execute_settles inv reporter mutation Hopen Hresp (ck_source (clock_of c)) Hreport c Hi eq_refl) as Hs.
  by rewrite Hrun in Hs.
Qed.

(** ** Executions of tame mutations *)

(** A mutation as the service runs one: the transaction stays open, the tables of
    idempotent requests and the database's clock are not its business. *)
Record tame (mutation : M Store CacheableTerminalOutcome) : Prop := {
  tame_open : keeps inside mutation;
  tame_idem : ∀ c, c_saved c ≠ None → idem (mutation c).2 = idem c;
  tame_clock : keeps (locally aged) mutation
}.
Lemma aged_read_clock : keeps (locally aged) read_clock.
Proof. by intros c. Qed.

(** Work that has nothing to do with idempotent requests. *)
Definition bystander {X} (m : M Store X) : Prop := ∀ c, idle c →
  idle (m c).2 ∧ idem (m c).2 = idem c ∧ aged (c_local c) (c_local (m c).2).
End once.

(** ** A concrete execution

    A cipher that only appends a tag (all that is relied on), one sealing key, and
    a mutation that stores a grant. *)
Module Sample.
#[export] Instance cipher : AesGcm := {|
  aesgcm_encrypt _ _ data _ := Ok (data ^+ "0123456789abcdef");
  aesgcm_decrypt _ _ data _ := Ok (String.substring 0 (String.length data - 16) data)
|}.
#[export] Instance cipher_ok : AesGcmOk.
Proof.
  split. intros key nonce data aad sealed [= <-]. split; [|apply length_app_str]. cbn.
  rewrite length_app_str. cbn [String.length].
  replace (String.length data + 16 - 16)%nat with (String.length data) by lia. by rewrite substring_take.
Qed.
Definition key : IdempotencyKeyVersion :=
  mkIdempotencyKeyVersion "v1" "0123456789abcdef0123456789abcdef" "0123456789abcdef0123456789abcdef".
Definition ring : option IdempotencyKeyring := Some (mkIdempotencyKeyring key [key]).
Definition invocation : IdempotencyInvocation :=
  mkIdempotencyInvocation "ws" "workspace:ws" "grant.issue.v1" "key-hash-0123456-key-hash-012345"
    "finger-print-123-finger-print-12" 86400.
Definition grant : Grant := mkGrant "g1" "grt_1" "ws" "agent" ["read:repo"] "active" (Some 5000000000).
Definition response : PreSerializedHttpResponse :=
  mkPreSerializedHttpResponse 201 JSON_CONTENT_TYPE "{}" (mkHttpResponseObservation None None).
Definition store (g : Grant) : M Store CacheableTerminalOutcome :=
  _ ← insert_grant g; mret (mkCacheableTerminalOutcome response None).
Definition nonces (bytes n : nat) : string := "nonce-" ^+ pretty (100000 + Z.of_nat n).
Definition start : Store :=
  (_register_keyring ring (mkConn empty_db None [] [] [] (mkLocal 0 None (mkEntropy nonces 0)
    (mkClock (λ n, 100 + Z.of_nat (min n 100)) 0)))).2.
Lemma store_open g : keeps inside (store g).
Proof. unfold store, insert_grant. inside. Qed.
Lemma store_responds g c outcome c' : store g c = (Ok outcome, c') → response_ok (co_response outcome).
Proof. intros Hrun. unfold store in Hrun. apply bind_Ok_inv in Hrun as (x & c1 & _ & Hret). by injection Hret as <- _. Qed.
Lemma store_tame g : tame (store g).
Proof.
  split; [apply store_open|..].
  - intros c Hc. unfold store, insert_grant, mbind at 1, M_bind at 1, mbind at 1, M_bind at 1. rewrite select_run.
    destruct (List.find _ _) as [row|]; [done|].
    pose proof (single_write_scope _ _ (insert_grant_write g (c_db c))) as [_ Hw].
    match goal with |- context [_write_scope ?m c] => destruct (_write_scope m c) as [r c'] eqn:Hrun end.
    specialize (Hw c r c' Hrun). destruct r as [x|e]; unfold idem; cbn; [|by rewrite Hw].
    by destruct Hw as (row & _ & -> & _).
  - unfold store, insert_grant, statement, select, query.
    repeat first [apply (locally_write_scope aged) | apply keeps_bind; [apply _| |intros ?] | apply keeps_ret, _
      | apply keeps_raise, _ | apply keeps_gets, _ | apply keeps_lift, _ | apply (locally_execute aged)
      | match goal with |- keeps _ (match ?x with _ => _ end) => destruct x end].
Qed.
Definition executed (g : Grant) (c : Store) : result PreSerializedHttpResponse * Store :=
  execute_idempotent ring None invocation (store g) c.
End Sample.
#[local] Existing Instances Sample.cipher Sample.cipher_ok.
Lemma execute_once_witness :
  (Sample.executed Sample.grant Sample.start).1 = Ok Sample.response ∧
  settled Sample.ring Sample.invocation (Sample.store Sample.grant) (ck_source (clock_of Sample.start))
    IdempotencyWriteUnavailable Sample.start (Ok Sample.response) (Sample.executed Sample.grant Sample.start).2.
Proof.
  assert (E : (Sample.executed Sample.grant Sample.start).1 = Ok Sample.response) by by vm_compute.
  split; [exact E|].
  apply (execute_once Sample.ring Sample.invocation None (Sample.store Sample.grant) Sample.start).
  - apply Sample.store_open.
  - apply Sample.store_responds.
  - done.
  - by split; vm_compute.
  - rewrite <- E. by apply surjective_pairing.
Defined.

(** The COMMIT of the completion takes effect and its acknowledgement is lost: the
    caller is told that the mutation could not be written; sent again, the request
    is answered as the mutation was, which has run once. *)
Definition unsure_start : Store :=
  mkConn (c_db Sample.start) None [] [] [false; false; false; false; false; true; true] (c_local Sample.start).
Example lost_acknowledgement :
  let '(first, c) := Sample.executed Sample.grant unsure_start in
  let '(second, c') := Sample.executed Sample.grant c in
  first = Raise IdempotencyWriteUnavailable ∧ second = Ok Sample.response ∧
  map rrw_identity (i_results (idem c)) = [result_identity Sample.invocation] ∧
  length (d_grants (c_db c')) = 1%nat.
Proof. by vm_compute. Qed.
