(* ===== verification/IdemChanges.v ===== *)
(** * What happens to the tables of idempotent requests

    The steps by which the processes of a deployment touch the tables: parts of
    executions, collections, start-ups, and the lifecycle of sealing keys, each a
    transaction on a connection of its own.  Every step is a sequence of a few
    changes; what the changes keep, every reachable state has. *)
From S2P Require Import Prelude PyStr PyDict Models Sha256 Pop World Json.
From S2P Require Import IdemCrypto IdemStorage IdemRuns IdemRows SqlTxn SqlRows SqlStore SqlWithin IdemSqlite IdemLifecycle IdemOnce.

Definition nonce_key (n : cipher_nonce_row) : string * string := (cnr_cipher_key_version n, cnr_nonce n).
Definition result_nonce (r : result_row) : string * string :=
  (rec_cipher_key_version (rrw_record r), rec_response_nonce (rrw_record r)).
(** Whom a stored result answers, with the fingerprint of the request. *)
Definition result_owner (r : result_row) : string * string * string * string * string :=
  (rrw_identity r, rec_request_fingerprint (rrw_record r)).
Lemma kept_sublist {A} (p : A → bool) l : sublist (List.filter p l) l.
Proof. induction l as [|x l IH]; [constructor|]. cbn. destruct (p x); by constructor. Qed.

Lemma filter_all {A} (p : A → bool) l : (∀ x, p x = true) → List.filter p l = l.
Proof. intros Hp. induction l as [|x l IH]; [done|]. cbn. by rewrite Hp, IH. Qed.
Lemma filter_twice {A} (p q : A → bool) l : List.filter q (List.filter p l) = List.filter (λ x, p x && q x) l.
Proof. induction l as [|x l IH]; [done|]. cbn. destruct (p x); cbn; [|done]. by rewrite IH. Qed.

(** ** Work with the tables and without them *)
Section working.
Context `{AesGcm} (keyring : option IdempotencyKeyring).
(** What is known of the clock is known of its source; what may become of the data
    concerns the idempotency tables. *)
Context (K : Clock → Prop) (P : Db → Db → Prop) `{!PreOrder P}.
Context (HK : ∀ k k', ck_source k' = ck_source k → K k → K k').
Context (HP : ∀ db db', d_idem db' = d_idem db → P db db').

Lemma outer_bystander {X} (m : M Store X) : bystander m → outer K P (λ _, True) m.
Proof.
  intros Hm c [Hi Hk]. destruct (Hm c Hi) as (Hi' & Hid & Hl).
  refine (conj (HP _ _ Hid) (conj (conj Hi' (HK _ _ Hl Hk)) _)). by destruct (m c).1.
Qed.
(** Completion does what its body does when it returns. *)
Lemma outer_complete inv res mutation : tame mutation →
  (∀ c resp c', c_saved c ≠ None → K (clock_of c) →
     _complete_in_transaction keyring inv res mutation c = (Ok resp, c') → P (c_db c) (c_db c')) →
  outer K P (λ _, True) (complete_sqlite_result keyring inv res mutation).
Proof.
  intros [Hopen Hidem Hclock] Hbody_P. apply upholds_errors. intros c [Hi Hk].
  set (body := _complete_in_transaction keyring inv res mutation).
  assert (Hin : keeps inside body).
  { unfold body, _complete_in_transaction, require_sqlite_reservation_authentic, sqlite_database_epoch,
      read_clock, load_sqlite_result, sqlite_result_uses_reservation_nonce, idem_select, run_and_store,
      delete_sqlite_result, insert_sqlite_result, idem_statement.
    repeat first [exact Hopen | progress inside]. }
  assert (Hag : keeps (locally aged) body).
  { unfold body, _complete_in_transaction, require_sqlite_reservation_authentic, sqlite_database_epoch,
      load_sqlite_result, sqlite_result_uses_reservation_nonce, idem_select, run_and_store,
      delete_sqlite_result, insert_sqlite_result, idem_statement, statement, select, query.
    repeat first [exact Hclock | apply aged_read_clock | apply keeps_bind; [apply _| |intros ?] | apply keeps_ret, _ | apply keeps_raise, _
      | apply keeps_gets, _ | apply keeps_lift, _ | apply locally_execute; apply _ | apply keeps_if
      | match goal with |- keeps _ (match ?x with _ => _ end) => destruct x end]. }
  pose proof (locally_atomic_write_or _ ambiguous_commit body Hag c) as Hl.
  destruct (atomic_write_or ambiguous_commit body c) as [r c'] eqn:Hrun. cbn [snd] in *.
  destruct (atomic_write_or_local ambiguous_commit body c r c' Hin Hi Hrun) as [Hi' Hr'].
  assert (Hk' : K (clock_of c')) by exact (HK _ _ Hl Hk).
  refine (conj _ (conj (conj Hi' Hk') _)); [|by destruct r]. unfold becomes.
  destruct Hr' as [(e & _ & -> & _)|(c0 & resp & c1 & emitted & Hdb & Hs0 & _ & Hl0 & Hbody & -> & _)]; [done|].
  rewrite <-Hdb. apply (Hbody_P c0 resp c1); [by rewrite Hs0| |done]. unfold clock_of. by rewrite Hl0.
Qed.
End working.

(** ** Changes *)

Lemma proceed_expired `{AesGcm} keyring inv record now :
  classify_completed_result inv (Some record) keyring now = Ok IdempotencyProceedToReservation →
  rec_expires_at_epoch record ≤ now.
Proof.
  unfold classify_completed_result. destruct (require_invocation inv) as [[]|]; [|done]. cbn.
  destruct (authenticate_completed_result inv record keyring) as [p|]; [|done]. cbn.
  destruct (Z.leb_spec (rec_expires_at_epoch record) now); [done|].
  destruct (negb _); [done|]. by destruct (_decode_response_plaintext _ _).
Qed.


(** The version as it was, but for marks it did not have; none is retired by it. *)
Record marked (v w : key_version_row) : Prop := {
  mk_label : kvr_version_label w = kvr_version_label v;
  mk_commitment : kvr_key_commitment w = kvr_key_commitment v;
  mk_slots : kvr_reserved_encryption_slots w = kvr_reserved_encryption_slots v;
  mk_disabled : kvr_write_disabled_epoch v ≠ None → kvr_write_disabled_epoch w = kvr_write_disabled_epoch v;
  mk_drained : kvr_drain_completed_epoch v ≠ None → kvr_drain_completed_epoch w = kvr_drain_completed_epoch v;
  mk_retired : kvr_retired_epoch w = kvr_retired_epoch v
}.
Section changes.
(** The readings of the database's clock. *)
Context (E : Z → Prop).
Definition expired (r : result_row) : Prop := ∃ now, E now ∧ rec_expires_at_epoch (rrw_record r) ≤ now.
Inductive change : IdemDb → IdemDb → Prop :=
  | ch_mark p f db : (∀ v, p v = true → marked v (f v)) →
      change db (set_versions (map (λ v, if p v : bool then f v else v) (i_versions db)) db)
  (** A slot of a version that may be written, and the nonce it counts. *)
  | ch_reserve version v n db : List.find (reservable version) (i_versions db) = Some v →
      cnr_cipher_key_version n = version → (∀ x, x ∈ i_nonces db → nonce_key x ≠ nonce_key n) →
      change db (set_nonces (i_nonces db ++ [n]) (set_versions
        (map (λ r, if reservable version r then kvr_reserve r else r) (i_versions db)) db))
  | ch_claim p now db : change db (on_row p (cnr_claim now) db)
  (** A result sealed under a claimed nonce of a version that may be written. *)
  | ch_store r n v db t : insert_result r db = Ok (tt, t) → n ∈ i_nonces db → nonce_key n = result_nonce r →
      cnr_owner n = result_owner r → cnr_claimed_at_epoch n ≠ None →
      version_row_of (cnr_cipher_key_version n) db = Some v → kvr_live v = true → change db t
  (** The results of some identities, of each of which one has expired. *)
  | ch_delete (q : string * string * string * string → bool) db :
      (∀ r, r ∈ i_results db → q (rrw_identity r) = false →
         ∃ r0, r0 ∈ i_results db ∧ rrw_identity r0 = rrw_identity r ∧ expired r0) →
      change db (set_results (List.filter (λ r, q (rrw_identity r)) (i_results db)) db)
  | ch_register r db t : insert_key_version r db = Ok (tt, t) → kvr_reserved_encryption_slots r = 0 →
      kvr_retired_epoch r = None → change db t
  | ch_retire update now db k t :
      update_versions (retirable update now db) (kvr_retire now) db = Ok (k, t) → change db t.
Definition changes : IdemDb → IdemDb → Prop := rtc change.
Definition changed (db db' : Db) : Prop := changes (d_idem db) (d_idem db').
#[global] Instance changed_preorder : PreOrder changed.
Proof. split; [intros db; apply rtc_refl|]. intros x y z Hxy Hyz. unfold changed, changes in *. by etrans. Qed.
Lemma changed_once db t : change (d_idem db) t → changed db (t_set idem_table t db).
Proof. intros Hc. by apply rtc_once. Qed.
Lemma changed_idem db db' : d_idem db' = d_idem db → changed db db'.
Proof. intros Hi. unfold changed. rewrite Hi. apply rtc_refl. Qed.
Lemma update_change p f db n t : (∀ v, p v = true → marked v (f v)) →
  update_versions p f db = Ok (n, t) → change db t.
Proof. intros Hf. unfold update_versions. destruct (existsb _ _); [done|]. intros [= _ <-]. by apply ch_mark. Qed.

(** ** The parts of an execution *)
Definition readings (k : Clock) : Prop := ∀ n, E (ck_source k n).
Lemma readings_tick k : readings k → readings (mkClock (ck_source k) (S (ck_read k))).
Proof. done. Qed.
Lemma readings_source k k' : ck_source k' = ck_source k → readings k → readings k'.
Proof. unfold readings. by intros ->. Qed.
Abbreviation inside_step := (inner readings changed (λ _, True)).
Abbreviation step := (outer readings changed (λ _, True)).

Lemma disable_marks now reason v : marked v (kvr_disable now reason v).
Proof. constructor; try done. unfold kvr_disable. cbn. by destruct (kvr_write_disabled_epoch v). Qed.
Lemma disabled_changed version reason now db n t :
  update_versions (λ r, (kvr_version_label r == version) && bool_decide (kvr_retired_epoch r = None))
    (kvr_disable now reason) (d_idem db) = Ok (n, t) → changed db (t_set idem_table t db).
Proof. intros Hup. eapply changed_once, update_change; [|exact Hup]. intros v _. apply disable_marks. Qed.

(** A reservation that returns has counted its nonce. *)
Lemma reserve_changes inv version now c x c' : c_saved c ≠ None →
  reserve_in_transaction inv version now c = (Ok x, c') → changed (c_db c) (c_db c').
Proof.
  intros Ho Hrun. unfold changed. fold (idem c). fold (idem c'). unfold reserve_in_transaction in Hrun.
  apply bind_Ok_inv in Hrun as (slots & c1 & Hslot & Hrun).
  unfold reserve_slot in Hslot. rewrite idem_statement_run in Hslot by done.
  unfold mbind at 1, result_bind in Hslot.
  destruct (update_versions (reservable version) kvr_reserve (idem c)) as [[k t1]|e] eqn:Hup; [|done].
  injection Hslot as Hslot <-.
  assert (Ht1 : t1 = set_versions (map (λ r, if reservable version r then kvr_reserve r else r) (i_versions (idem c))) (idem c)).
  { unfold update_versions in Hup. destruct (existsb _ _); [done|]. by injection Hup as _ <-. }
  destruct (List.find (reservable version) (i_versions (idem c))) as [v|] eqn:Hfind; cbn in Hslot; subst slots.
  2: { unfold _key_version_state in Hrun. apply bind_Ok_inv in Hrun as (st & c2 & _ & Hrun).
       by destruct (_ && _). }
  apply bind_Ok_inv in Hrun as ([] & c2 & Hsoft & Hrun).
  assert (Hc2 : c_saved c2 ≠ None ∧ ∃ p f, (∀ w, p w = true → marked w (f w)) ∧
    idem c2 = set_versions (map (λ w, if p w : bool then f w else w) (i_versions t1)) t1).
  { destruct (SOFT_SLOT_LIMIT <=? _).
    - apply bind_Ok_inv in Hsoft as (k' & c3 & Hst & Hret). injection Hret as <-.
      rewrite idem_statement_run in Hst by done. unfold update_versions in Hst.
      destruct (existsb _ _); [done|]. injection Hst as _ <-. split; [done|]. eexists _, _. split; [|done]. done.
    - injection Hsoft as <-. split; [done|]. exists (λ _, false), id. split; [done|].
      rewrite map_id. by destruct t1. }
  destruct Hc2 as (Ho2 & p & f & Hf & Hc2).
  apply bind_Ok_inv in Hrun as (nonce & c3 & Hdraw & Hrun).
  assert (Hc3 : c_saved c3 = c_saved c2 ∧ idem c3 = idem c2) by by injection Hdraw as _ <-.
  destruct Hc3 as [Ho3 Hi3]. destruct (negb (String.length nonce =? NONCE_BYTES)%nat); [done|].
  apply bind_Ok_inv in Hrun as (inserted & c4 & Hins & Hrun).
  rewrite idem_statement_run in Hins by by rewrite Ho3. rewrite Hi3 in Hins.
  unfold insert_or_ignore_nonce in Hins. cbn [cnr_cipher_key_version cnr_nonce cnr_slot] in Hins.
  destruct (_ || existsb _ _) eqn:Hg; [by injection Hins as <- <-|].
  apply orb_false_iff in Hg as [_ Hg]. destruct (version_row_of version (idem c2)); [|done].
  injection Hins as <- <-. injection Hrun as _ <-.
  set (n := mkCipherNonceRow _ _ _ _ _ _) in *. change (idem (set_idem ?t c3)) with t.
  assert (Hn2 : i_nonces (idem c2) = i_nonces (idem c)) by by rewrite Hc2, Ht1.
  eapply rtc_l; [apply (ch_reserve version v n (idem c) Hfind eq_refl)|].
  - intros y Hy Hk. rewrite Hn2 in Hg. injection Hk as Hk1 Hk2.
    apply not_true_iff_false in Hg. apply Hg. apply existsb_exists. exists y.
    split; [by apply list_elem_of_In|]. unfold same_nonce. cbn in Hk1, Hk2. by rewrite Hk1, Hk2, !String.eqb_refl.
  - apply rtc_once. rewrite Hc2, Ht1. set (t := set_nonces (i_nonces (idem c) ++ [n]) _).
    exact (ch_mark p f t Hf).
Qed.
Lemma step_reserving keyring inv now : step (reserve_nonce keyring inv now).
Proof.
  apply outer_reserve; [apply _|..].
  - intros ring _. apply outer_commits; [apply _|by apply inner_reserve; [by repeat split|]|].
    intros c x c' Hs _. by apply reserve_changes.
  - intros version reason db n t. apply disabled_changed.
Qed.
Lemma inside_claim inv res now : inside_step (claim_sqlite_reservation inv res now).
Proof.
  unfold claim_sqlite_reservation. apply upholds_bind with (λ _, True); [apply _| |].
  - apply inner_statement; [apply _|]. intros db n t. cbv zeta. destruct (existsb _ _); [done|].
    intros [= _ <-]. apply changed_once, ch_claim.
  - intros n _. destruct (negb _); ends.
Qed.
Definition claim_transaction inv res : M Store unit :=
  storage_error_as IdempotencyWriteUnavailable (_transaction (
    now_epoch ← sqlite_database_epoch; claim_sqlite_reservation inv res now_epoch)).
Lemma step_claiming inv res : step (claim_transaction inv res).
Proof. apply outer_claim; [apply _|done|]. intros t. apply inside_claim. Qed.

(** Completion deletes an expired result of the key, runs the mutation, which has
    nothing to do with the tables, and stores its result. *)
Lemma stored_expired `{AesGcm} keyring inv now db : E now →
  classify_completed_result inv (stored_result inv db) keyring now = Ok IdempotencyProceedToReservation →
  stored_result inv db ≠ None → changes db (without inv db).
Proof.
  intros Hnow Hc Hs. apply rtc_once. unfold without.
  set (q := λ id : string * string * string * string, negb (bool_decide (id = result_identity inv))).
  refine (ch_delete q db _). intros r Hr Hid. unfold q in Hid. apply negb_false_iff, bool_decide_eq_true in Hid.
  unfold stored_result in *. destruct (List.find _ (i_results db)) as [r0|] eqn:Hf; [|done].
  apply find_some in Hf as [Hin Hid0]. apply list_elem_of_In in Hin. unfold of_identity in Hid0.
  apply bool_decide_eq_true in Hid0. exists r0. split_and!; [done|congruence|]. exists now. split; [done|].
  by eapply proceed_expired.
Qed.
Lemma complete_changes `{AesGcm} keyring inv res mutation c resp c' : tame mutation →
  c_saved c ≠ None → readings (clock_of c) →
  _complete_in_transaction keyring inv res mutation c = (Ok resp, c') → changed (c_db c) (c_db c').
Proof.
  intros [Hopen Hidem _] Hs Hk Hrun. unfold changed. fold (idem c) (idem c').
  destruct (complete_run keyring inv res mutation Hopen c resp c' Hs Hrun)
    as ((row & v & Hrow & Hown & Hcl & Hv & Hlive) & found & Hfound & Hend).
  destruct found as [stored|]; [destruct Hend as [_ ->]; apply rtc_refl|].
  destruct Hend as (_ & cm & outcome & c2 & Hcm & Hm & _ & Hkept).
  assert (Hcm0 : c_saved cm ≠ None) by (rewrite Hcm; by destruct (stored_result inv (idem c))).
  pose proof (Hidem cm Hcm0) as Hid. rewrite Hm in Hid. cbn in Hid.
  assert (Hmid : changes (idem c) (idem c2) ∧ i_nonces (idem c2) = i_nonces (idem c) ∧
    i_versions (idem c2) = i_versions (idem c)).
  { rewrite Hid, Hcm. destruct (stored_result inv (idem c)) eqn:Hst; [|split; [apply rtc_refl|done]].
    split; [|done]. eapply stored_expired; [apply Hk|by rewrite Hst|by rewrite Hst]. }
  destruct Hmid as (Hch & Hn2 & Hv2). etrans; [exact Hch|].
  destruct Hkept as [[_ ->]|(_ & env & db & _ & En & Ev & Hins & ->)]; [apply rtc_refl|].
  change (idem (set_idem db c2)) with db. unfold owns in Hown. apply andb_true_iff in Hown as [Hl Ho].
  apply bool_decide_eq_true in Hl, Ho. injection Hl as Hl1 _ Hl3 _. apply rtc_once.
  eapply (ch_store _ row v); [exact Hins|by rewrite Hn2|..|exact Hlive]; try done.
  - unfold nonce_key, result_nonce. cbn. by rewrite Hl1, Hl3, En, Ev.
  - unfold version_row_of in *. by rewrite Hv2.
Qed.
Lemma step_completing `{AesGcm} keyring inv res mutation : tame mutation →
  step (complete_sqlite_result keyring inv res mutation).
Proof.
  intros Htame. apply outer_complete; [apply _|exact readings_source|done|].
  intros c resp c'. by apply complete_changes.
Qed.
Lemma step_executing `{AesGcm} keyring reporter inv mutation : tame mutation →
  match reporter with Some report => bystander report | None => True end →
  step (execute_idempotent keyring reporter inv mutation).
Proof.
  intros Htame Hreport. unfold execute_idempotent.
  assert (Hepoch : step database_epoch) by (apply outer_epoch; [apply _|exact readings_tick|done]).
  apply upholds_try; [apply _| |].
  - apply upholds_bind with (λ _, True); [apply _|exact Hepoch|]. intros now _.
    apply upholds_bind with (λ _, True); [apply _|by apply outer_lookup, _|]. intros [resp|] _; [ends|].
    apply upholds_bind with (λ _, True); [apply _|apply step_reserving|]. intros res _.
    unfold complete, claim_and_complete_sqlite_result. apply upholds_bind with (λ _, True); [apply _| |].
    + apply upholds_try; [apply _| |intros e; destruct (decide _); ends].
      apply upholds_bind with (λ _, True); [apply _|exact Hepoch|]. intros t _. by apply outer_lookup, _.
    + intros [resp|] _; [ends|]. apply upholds_bind with (λ _, True); [apply _|apply step_claiming|].
      intros _ _. by apply step_completing.
  - intros e. destruct (decide _); [|ends].
    apply upholds_bind with (λ _, True); [apply _| |intros; ends].
    destruct reporter as [report|]; [|ends]. apply upholds_try; [apply _| |intros; ends].
    apply outer_bystander; [exact readings_source|exact changed_idem|done].
Qed.

(** ** Collections, retirements, start-ups *)

(** Deleting by identity: the results of the identities [q] refuses are gone. *)
Definition pruned (ids : list (string * string * string * string)) (db db' : Db) : Prop :=
  ∃ q : string * string * string * string → bool,
    d_idem db' = set_results (List.filter (λ r, q (rrw_identity r)) (i_results (d_idem db))) (d_idem db) ∧
    ∀ id, q id = false → id ∈ ids.
#[global] Instance pruned_preorder ids : PreOrder (pruned ids).
Proof.
  split.
  - intros db. exists (λ _, true). split; [|done]. rewrite filter_all by done. by destruct (d_idem db).
  - intros x y z (q & Ey & Hq) (q' & Ez & Hq'). exists (λ id, q id && q' id). split.
    + rewrite Ez, Ey. cbn. by rewrite filter_twice.
    + intros id [Hid|Hid]%andb_false_iff; auto.
Qed.
Lemma pruned_changed rows db db' : pruned (map rrw_identity rows) db db' →
  (∀ r, r ∈ rows → r ∈ i_results (d_idem db) ∧ expired r) → changed db db'.
Proof.
  intros (q & Eq & Hq) Hrows. unfold changed. rewrite Eq. apply rtc_once, ch_delete.
  intros r _ (r0 & Hid & Hr0)%Hq%list_elem_of_fmap. exists r0. destruct (Hrows r0 Hr0). by split_and!.
Qed.
Lemma inner_delete ids inv : result_identity inv ∈ ids →
  inner readings (pruned ids) (λ _, True) (delete_sqlite_result inv).
Proof.
  intros Hid. apply inner_statement; [apply _|]. intros db [] t [= <-].
  exists (λ id, negb (bool_decide (id = result_identity inv))). split; [done|].
  intros id Hd%negb_false_iff%bool_decide_eq_true. by subst.
Qed.
(** From a state that holds the rows to delete. *)
Lemma pruning_step {X} (rows : list result_row) (m : M Store X) c :
  inner readings (pruned (map rrw_identity rows)) (λ _, True) m →
  (∀ r, r ∈ rows → r ∈ i_results (idem c) ∧ expired r) → c_saved c ≠ None ∧ readings (clock_of c) →
  stays changed c (m c).2 ∧ (c_saved (m c).2 ≠ None ∧ readings (clock_of (m c).2)).
Proof.
  intros Hm Hrows Hc. destruct (Hm c Hc) as ((Hp & Hst & Hsc) & HL & _). split; [|done].
  split; [|done]. by eapply pruned_changed.
Qed.
Lemma expired_selected (p : result_row → bool) now (db : IdemDb) r : E now →
  r ∈ List.filter p (i_results db) → (p r = true → rec_expires_at_epoch (rrw_record r) ≤ now) →
  r ∈ i_results db ∧ expired r.
Proof.
  intros Hnow [Hin Hp]%list_elem_of_In%filter_In Hexp. split; [by apply list_elem_of_In|].
  exists now. split; [done|]. by apply Hexp.
Qed.
Lemma step_collecting `{AesGcm} keyring limit : step (gc_sqlite_results keyring limit).
Proof.
  unfold gc_sqlite_results. destruct (_ =? 0); [ends|]. apply outer_atomic_write; [apply _|].
  intros c Hc. set (now := now_of c). assert (Hnow : E now) by apply Hc.
  set (rows := take (Z.to_nat (Z.max 0 (Z.min limit 100)))
    (List.filter (λ r, rec_expires_at_epoch (rrw_record r) <=? now) (i_results (idem c)))).
  match goal with |- stays _ _ (?m c).2 ∧ _ => set (body := m) end.
  assert (Hbody : ∃ rest : M Store Z, body c = rest (tick c) ∧
    inner readings (pruned (map rrw_identity rows)) (λ _, True) rest).
  { eexists. split.
    - unfold body, sqlite_database_epoch.
      by rewrite (bind_run _ _ _ _ _ (read_clock_run c)), (bind_run _ _ _ _ _ (idem_select_run _ _)).
    - cbv beta. fold now. change (idem (tick c)) with (idem c). fold rows.
      apply upholds_bind with (λ _, True); [apply _| |intros; ends].
      apply upholds_for_each; [apply _|]. intros row Hrow.
      assert (Hid : rrw_identity row ∈ map rrw_identity rows) by by apply list_elem_of_fmap_2.
      destruct (rrw_identity row) as [[[ws p] op] k] eqn:Hrid.
      apply upholds_bind with (λ _, True); [apply _|ends|]. intros [resp|] _; [ends|].
      by apply inner_delete. }
  destruct Hbody as (rest & -> & Hrest). clearbody body. clear body.
  destruct (pruning_step rows rest (tick c) Hrest) as [Hst HL]; [|done|].
  - intros r Hr. apply elem_of_take in Hr as (i & Hr & _). apply list_elem_of_lookup_2 in Hr.
    eapply expired_selected; [exact Hnow|exact Hr|]. cbn. lia.
  - refine (conj Hst (conj HL _)). by destruct (rest (tick c)).1.
Qed.

(** Retiring a version deletes its results, when they have all expired. *)
Lemma step_retiring `{AesGcm} keyring update : step (retire_lifecycle_version keyring update).
Proof.
  unfold retire_lifecycle_version, lifecycle_errors.
  apply upholds_bind with (λ _, True); [apply _| |intros [|] _; ends].
  apply upholds_errors, upholds_try; [apply _| |intros e; destruct (decide _); ends].
  apply outer_atomic_write; [apply _|]. intros c Hc. unfold retire_in_transaction.
  rewrite (bind_run _ _ _ _ _ (read_clock_run c)), (bind_run _ _ _ _ _ (idem_select_run _ _)).
  change (idem (tick c)) with (idem c). set (now := now_of c). assert (Hnow : E now) by apply Hc.
  set (rows := List.filter _ (i_results (idem c))). assert (Htick : c_saved (tick c) ≠ None ∧ readings (clock_of (tick c))) by done.
  destruct (existsb _ rows) eqn:Hex; [by split|].
  set (deleting := for_each _ rows). assert (Hdel : inner readings (pruned (map rrw_identity rows)) (λ _, True) deleting).
  { apply upholds_for_each; [apply _|]. intros row Hrow. apply upholds_bind with (λ _, True); [apply _|ends|].
    intros _ _. apply inner_delete. unfold parsed_invocation.
    assert (Hid : rrw_identity row ∈ map rrw_identity rows) by by apply list_elem_of_fmap_2.
    by destruct (rrw_identity row) as [[[ws p] op] k]. }
  destruct (pruning_step rows deleting (tick c) Hdel) as [Hst HL]; [|done|].
  { intros r Hr. eapply expired_selected; [exact Hnow|exact Hr|]. intros _.
    apply not_true_iff_false in Hex. destruct (Z.leb_spec (rec_expires_at_epoch (rrw_record r)) now); [done|].
    exfalso. apply Hex, existsb_exists. exists r. split; [by apply list_elem_of_In|]. by apply Z.ltb_lt. }
  refine (upholds_after (stays changed) (λ c, c_saved c ≠ None ∧ readings (clock_of c)) (λ _, True) deleting _
    (tick c) (conj Hst HL) _). intros _.
  apply upholds_bind with (λ _, True); [apply _|by apply inner_clock; [apply _|..]|]. intros now' _.
  apply upholds_bind with (λ _, True); [apply _| |intros n _; destruct (negb _); ends].
  apply inner_statement; [apply _|]. intros db n t Hup. by eapply changed_once, ch_retire.
Qed.
(** A transaction that marks versions. *)
Lemma step_marking (p : key_version_row → bool) (f : Z → key_version_row → key_version_row) :
  (∀ now v, p v = true → marked v (f now v)) →
  step (lifecycle_errors (_atomic_write (
    now_epoch ← read_clock; _ ← idem_statement (update_versions p (f now_epoch)); mret tt))).
Proof.
  intros Hf. apply upholds_errors, outer_atomic_write; [apply _|].
  apply upholds_bind with (λ _, True); [apply _|by apply inner_clock; [apply _|..]|]. intros now _.
  apply upholds_bind with (λ _, True); [apply _| |intros; ends].
  apply inner_statement; [apply _|]. intros db n t Hup. eapply changed_once, update_change; [|exact Hup]. apply Hf.
Qed.
Lemma step_rotating version reason : step (disable_version version reason).
Proof.
  apply (step_marking _ (λ now, kvr_rotate now reason)). intros now v Hp.
  apply andb_true_iff in Hp as [_ [Hd%bool_decide_eq_true _]%andb_true_iff]. by constructor.
Qed.
Lemma step_draining version : step (record_drain version).
Proof.
  apply (step_marking _ kvr_drain). intros now v _. constructor; try done.
  unfold kvr_drain. cbn. by destruct (kvr_drain_completed_epoch v).
Qed.
Lemma step_disabling version reason : step (write_disable version reason).
Proof.
  apply upholds_bind with (λ _, True); [apply _|apply outer_epoch; [apply _|exact readings_tick|done]|].
  intros now _. apply upholds_errors, outer_disable; [apply _|]. intros db n t. apply disabled_changed.
Qed.
Lemma step_registering keyring : step (_register_keyring keyring).
Proof.
  unfold _register_keyring. destruct keyring as [ring|]; [|ends].
  apply upholds_errors, outer_txn; [apply _|]. apply upholds_for_each; [apply _|]. intros reg _.
  apply upholds_bind with (λ _, True); [apply _|by apply inner_clock; [apply _|..]|]. intros first_seen _.
  apply upholds_bind with (λ _, True); [apply _| |].
  - apply inner_statement; [apply _|]. intros db x t Hst.
    destruct (insert_key_version _ (d_idem db)) as [[[] t']|e] eqn:Hins; injection Hst as _ <-;
      [|by apply changed_idem].
    by eapply changed_once, ch_register; [exact Hins|..].
  - intros _ _. apply upholds_bind with (λ _, True); [apply _|by apply inner_select, _|].
    intros [row|] _; [|ends]. destruct (negb _); ends.
Qed.
Lemma step_starting keyring exact_nonce_counts : step (_register_sqlite_idempotency_keyring keyring exact_nonce_counts).
Proof.
  unfold _register_sqlite_idempotency_keyring.
  apply upholds_try; [apply _| |intros e; destruct (decide _); ends]. apply outer_atomic_write; [apply _|].
  apply upholds_bind with (λ _, True); [apply _| |].
  - destruct keyring as [ring|]; [|ends]. apply upholds_for_each; [apply _|]. intros reg _.
    apply upholds_bind with (λ _, True); [apply _|by apply inner_clock; [apply _|..]|]. intros first_seen _.
    apply inner_statement; [apply _|]. intros db [] t. destruct (bool_decide _).
    + intros [= <-]. by apply changed_idem.
    + intros Hins. by eapply changed_once, ch_register; [exact Hins|..].
  - intros _ _. apply upholds_bind with (λ _, True); [apply _| |intros ready _; destruct (negb ready); ends].
    apply upholds_bind with (λ _, True); [apply _|by apply inner_select, _|]. intros db _. ends.
Qed.
End changes.

(** ** Steps

    What the processes of a deployment do to the database, a transaction at a time:
    each with a keyring of its own. *)
Inductive idem_step `{AesGcm} : Store → Store → Prop :=
  | step_execute keyring reporter inv mutation c : tame mutation →
      match reporter with Some report => bystander report | None => True end →
      idem_step c (execute_idempotent keyring reporter inv mutation c).2
  (** The transactions of an execution, when other processes act in between. *)
  | step_reserve keyring inv now c : idem_step c (reserve_nonce keyring inv now c).2
  | step_claim inv res c : idem_step c (claim_transaction inv res c).2
  | step_complete keyring inv res mutation c : tame mutation →
      idem_step c (complete_sqlite_result keyring inv res mutation c).2
  | step_gc keyring limit c : idem_step c (gc_sqlite_results keyring limit c).2
  | step_disable version reason c : idem_step c (write_disable version reason c).2
  | step_register keyring c : idem_step c (_register_keyring keyring c).2
  | step_start keyring exact_nonce_counts c :
      idem_step c (_register_sqlite_idempotency_keyring keyring exact_nonce_counts c).2
  (** The lifecycle of sealing keys. *)
  | step_rotate version reason c : idem_step c (disable_version version reason c).2
  | step_drain version c : idem_step c (record_drain version c).2
  | step_retire keyring update c : idem_step c (retire_lifecycle_version keyring update c).2
  (** Another connection to the same database goes on. *)
  | step_connection c c' : idle c' → c_db c' = c_db c → aged (c_local c) (c_local c') → idem_step c c'
  (** Anything the service does without the idempotency tables. *)
  | step_other {X} (m : M Store X) c : bystander m → idem_step c (m c).2.

Theorem steps_change `{AesGcm} E c c' : rtc idem_step c c' → idle c → readings E (clock_of c) →
  idle c' ∧ readings E (clock_of c') ∧ changes E (idem c) (idem c').
Proof.
  induction 1 as [c|c c1 c2 Hstep _ IH]; intros Hi Hk; [split_and!; [done..|apply rtc_refl]|].
  assert (Hone : idle c1 ∧ readings E (clock_of c1) ∧ changed E (c_db c) (c_db c1)).
  { assert (Hrun : ∀ X (m : M Store X), outer (readings E) (changed E) (λ _, True) m →
      idle (m c).2 ∧ readings E (clock_of (m c).2) ∧ changed E (c_db c) (c_db (m c).2)).
    { intros X m Hm. by destruct (Hm c (conj Hi Hk)) as (? & [? ?] & _). }
    destruct Hstep; try apply Hrun.
    - by apply step_executing.
    - apply step_reserving.
    - apply step_claiming.
    - by apply step_completing.
    - apply step_collecting.
    - apply step_disabling.
    - apply step_registering.
    - apply step_starting.
    - apply step_rotating.
    - apply step_draining.
    - apply step_retiring.
    - split; [done|]. split; [by eapply readings_source|]. apply changed_idem. congruence.
    - apply outer_bystander; [exact (readings_source E)|exact (changed_idem E)|done]. }
  destruct Hone as (Hi1 & Hk1 & Hh1). destruct (IH Hi1 Hk1) as (Hi2 & Hk2 & Hh2).
  split_and!; [apply Hi2..|done|]. unfold changed, changes, idem in *. by etrans.
Qed.
