(* ===== verification/IdemReplay.v ===== *)
(** * A stored response is replayed

    A key whose response is stored is answered with that response, and nothing
    else happens, whatever other requests are executed in between; with another
    request it is a conflict. *)
From S2P Require Import Prelude PyStr PyDict Models Sha256 Pop World Json.
From S2P Require Import IdemCrypto IdemStorage IdemRuns IdemRows SqlTxn SqlRows SqlStore SqlWithin IdemSqlite IdemOnce IdemChanges.

Section replay.
Context `{AesGcmOk} (keyring : option IdempotencyKeyring).
Implicit Types inv : IdempotencyInvocation.
Abbreviation answers := (answers keyring).

(** A response is held for the request until [T]. *)
Definition held inv (resp : PreSerializedHttpResponse) (T : Z) (db : IdemDb) : Prop :=
  ∃ record, stored_under inv (i_results db) = [mkResultRow (result_identity inv) record] ∧
    answers inv T resp record.
Section replays.
Context (T : Z).
(** The clock never reaches [T]. *)
Definition before (k : Clock) : Prop := ∀ n, ck_source k n < T.
Lemma answers_alive inv resp record now : answers inv T resp record → now < T → now < rec_expires_at_epoch record.
Proof.
  intros Ha Ht. specialize (Ha now Ht). unfold classify_completed_result in Ha.
  destruct (require_invocation inv) as [[]|]; [|done]. cbn in Ha.
  destruct (authenticate_completed_result inv record keyring) as [p|]; [|done]. cbn in Ha.
  by destruct (Z.leb_spec (rec_expires_at_epoch record) now).
Qed.
Lemma under_deleted (q : string * string * string * string → bool) inv l : q (result_identity inv) = true →
  stored_under inv (List.filter (λ r, q (rrw_identity r)) l) = stored_under inv l.
Proof.
  intros Hq. unfold stored_under. rewrite filter_twice. apply filter_ext. intros r. unfold of_identity.
  case_bool_decide as Hr; [by rewrite Hr, Hq|apply andb_false_r].
Qed.
Lemma under_added inv l r : rrw_identity r ≠ result_identity inv → stored_under inv (l ++ [r]) = stored_under inv l.
Proof.
  intros Hne. unfold stored_under. rewrite List.filter_app. cbn. unfold of_identity at 2.
  rewrite bool_decide_false by done. apply app_nil_r.
Qed.
(** Every change keeps a held response. *)
Lemma held_change db db' inv resp : change (λ t, t < T) db db' → held inv resp T db → held inv resp T db'.
Proof.
  intros Hch (record & Hs & Ha). exists record. split; [|done].
  assert (Hin : mkResultRow (result_identity inv) record ∈ i_results db).
  { assert (Hin : List.In (mkResultRow (result_identity inv) record) (stored_under inv (i_results db)))
      by (rewrite Hs; by left). by apply filter_In in Hin as [Hin%list_elem_of_In _]. }
  destruct Hch as [p f db _|version v n db _ _ _|p now db|r n v db t Hins _ _ _ _ _ _|q db Hq|r db t Hins _ _|update now db k t Hup];
    try exact Hs.
  - unfold insert_result in Hins. destruct (negb _ || existsb _ _ || _) eqn:Hg; [done|]. injection Hins as <-.
    apply orb_false_iff in Hg as [[_ Hg]%orb_false_iff _]. change (i_results (set_results ?l _)) with l.
    rewrite under_added; [done|]. intros E.
    apply not_true_iff_false in Hg. apply Hg, existsb_exists. eexists. split; [by apply list_elem_of_In|].
    unfold of_identity. by rewrite bool_decide_true.
  - change (i_results (set_results ?l _)) with l. rewrite under_deleted; [done|]. destruct (q (result_identity inv)) eqn:Hid; [done|].
    destruct (Hq _ Hin Hid) as (r0 & Hr0 & Hr0id & now & Hnow & Hexp).
    assert (Hmem : List.In r0 (stored_under inv (i_results db))).
    { apply filter_In. split; [by apply list_elem_of_In|]. unfold of_identity. by apply bool_decide_eq_true. }
    rewrite Hs in Hmem. destruct Hmem as [<-|[]]. pose proof (answers_alive _ _ _ _ Ha Hnow). cbn in Hexp. lia.
  - unfold insert_key_version in Hins. destruct (_ || _); [done|]. injection Hins as <-. exact Hs.
  - apply update_results in Hup. by rewrite Hup.
Qed.
Lemma steps_held c c' inv resp : rtc idem_step c c' → idle c → before (clock_of c) → held inv resp T (idem c) →
  before (clock_of c') ∧ held inv resp T (idem c').
Proof.
  intros Hsteps Hi Hk Hh. destruct (steps_change (λ t, t < T) c c' Hsteps Hi Hk) as (_ & Hk' & Hch).
  split; [exact Hk'|]. clear -Hh Hch. induction Hch as [|x y z Hxy _ IH]; [done|]. by eapply IH, held_change.
Qed.
(** What an execution finds decides it when it is not to proceed. *)
Lemma execute_found reporter inv mutation c answer :
  classify_completed_result inv (stored_result inv (idem c)) keyring (now_of c) = answer →
  match answer with
  | Ok (IdempotencyReplayCandidate resp) => execute_idempotent keyring reporter inv mutation c = (Ok resp, tick c)
  | Ok IdempotencyProceedToReservation => True
  | Raise e => e ≠ AmbiguousCommitError → execute_idempotent keyring reporter inv mutation c = (Raise e, tick c)
  end.
Proof.
  intros <-. unfold execute_idempotent, database_epoch, storage_error_as, try_except, mbind, M_bind.
  rewrite read_clock_run, lookup_run. change (idem (tick c)) with (idem c).
  destruct (classify_completed_result _ _ _ _) as [[resp|]|e]; [done..|]. intros Hne.
  by destruct (decide (e = AmbiguousCommitError)).
Qed.
Lemma held_stored inv resp db : held inv resp T db →
  ∃ record, stored_result inv db = Some record ∧ answers inv T resp record.
Proof. intros (record & Hs & Ha). exists record. by rewrite stored_head, Hs. Qed.

(** C7: A key that holds a response is answered with it: whatever the processes of
    the deployment have done to the database since - executions of other keys and
    of the same key under any keyring, a transaction at a time, collections of
    expired results, start-ups, disablings, drains and retirements of sealing
    keys, and other work of the service - as long as the clock has not reached
    the moment the response may be replayed until, executing the request again
    returns the same response, and neither runs the mutation it is given nor
    changes anything. *)
Theorem idempotent_replay reporter inv mutation resp c c' :
  idle c → before (clock_of c) → held inv resp T (idem c) → rtc idem_step c c' →
  execute_idempotent keyring reporter inv mutation c' = (Ok resp, tick c').
Proof.
  intros Hi Hk Hheld Hsteps. destruct (steps_held c c' inv resp Hsteps Hi Hk Hheld) as [Hk' Hh].
  destruct (held_stored inv resp (idem c') Hh) as (record & Hs & Ha).
  apply (execute_found reporter inv mutation c' (Ok (IdempotencyReplayCandidate resp))).
  rewrite Hs. apply Ha, Hk'.
Qed.
(** C19: A key is not reused for another request: while it holds a response, a
    request with the same key that is not the one it answers (another body, path
    or method, so another fingerprint) is refused as a conflict, whatever happened
    in between, without running its mutation and without any change. *)
Theorem idempotency_conflict reporter inv inv' mutation resp c c' :
  idle c → before (clock_of c) → held inv resp T (idem c) → rtc idem_step c c' →
  result_identity inv' = result_identity inv →
  inv_request_fingerprint inv' ≠ inv_request_fingerprint inv →
  String.length (inv_request_fingerprint inv') = 32%nat →
  execute_idempotent keyring reporter inv' mutation c' = (Raise IdempotencyConflict, tick c').
Proof.
  intros Hi Hk Hheld Hsteps Hid Hfp Hlen. destruct (steps_held c c' inv resp Hsteps Hi Hk Hheld) as [Hk' Hh].
  destruct (held_stored inv resp (idem c') Hh) as (record & Hs & Ha).
  apply (execute_found reporter inv' mutation c' (Raise IdempotencyConflict)); [|done].
  assert (Hsame : stored_result inv' (idem c') = Some record).
  { rewrite <- Hs, !stored_head. unfold stored_under. by rewrite Hid. }
  rewrite Hsame. specialize (Ha (now_of c') (Hk' _)).
  destruct inv as [ws p op k fp ttl], inv' as [ws' p' op' k' fp' ttl']. cbn in Hid, Hfp, Hlen.
  injection Hid as -> -> -> ->. unfold classify_completed_result, authenticate_completed_result in *.
  unfold require_invocation in *. cbn [inv_workspace_id inv_principal inv_operation inv_key_hash
    inv_request_fingerprint record_aad] in *. rewrite Hlen. cbn [Nat.eqb negb]. rewrite orb_false_r.
  change (32 =? 32)%nat with true. cbn [negb].
  destruct (ws == "") eqn:E1; [done|]. destruct (p == "") eqn:E2; [done|]. destruct (op == "") eqn:E3; [done|].
  destruct (negb (String.length k =? 32)%nat) eqn:E4; [done|].
  destruct (negb (String.length fp =? 32)%nat) eqn:E5; [done|].
  cbn [orb] in *. unfold record_aad in *. cbn in Ha |- *.
  destruct keyring as [ring|]; [|done]. destruct (decryption_key _ ring) as [key|]; [|done].
  match goal with |- context [result_errors ?m] => destruct (result_errors m) as [plain|]; [|done] end.
  destruct (_ <=? now_of c'); [done|].
  destruct (rec_request_fingerprint record == fp) eqn:Ef; [|done]. apply String.eqb_eq in Ef.
  rewrite Ef. destruct (fp == fp') eqn:Ef'; [|done]. by apply String.eqb_eq in Ef'.
Qed.
End replays.
End replay.

#[local] Existing Instances Sample.cipher Sample.cipher_ok.
(** The sample execution, and what it stored. *)
Definition after_sample : Store := (Sample.executed Sample.grant Sample.start).2.
Definition sample_record : CompletedResultRecord := Eval vm_compute in
  default (mkCompletedResultRecord "" 0 0 "" "" "" 0 0) (stored_result Sample.invocation (idem after_sample)).
Lemma sample_held : held Sample.ring Sample.invocation Sample.response 1000 (idem after_sample).
Proof.
  exists sample_record. split; [by vm_compute|]. intros now Hnow.
  assert (Hauth : authenticate_completed_result Sample.invocation sample_record Sample.ring ≫=
    _decode_response_plaintext 201 = Ok Sample.response) by by vm_compute.
  apply result_bind_inv in Hauth as (plain & Hauth & Hdecode). unfold classify_completed_result.
  rewrite Hauth. change (require_invocation Sample.invocation) with (Ok tt). cbn [mbind result_bind].
  change (rec_expires_at_epoch sample_record) with 86504. destruct (Z.leb_spec 86504 now); [lia|].
  change (rec_request_fingerprint sample_record == inv_request_fingerprint Sample.invocation) with true.
  cbn [negb]. change (rec_status_code sample_record) with 201. by rewrite Hdecode.
Qed.
Lemma sample_idle : idle after_sample.
Proof. by split; vm_compute. Qed.
Lemma sample_before : before 1000 (clock_of after_sample).
Proof.
  intros n. change (ck_source (clock_of after_sample) n) with (100 + Z.of_nat (min n 100)). lia.
Qed.
(** A collection, and another execution, come in between. *)
Definition between : Store := (Sample.executed Sample.grant (gc_sqlite_results Sample.ring 10 after_sample).2).2.
Lemma sample_steps : rtc idem_step after_sample between.
Proof.
  eapply rtc_l; [apply (step_gc Sample.ring 10)|]. apply rtc_once. unfold between, Sample.executed.
  apply (step_execute Sample.ring None); [apply Sample.store_tame|done].
Qed.
(** A retry that would store another grant. *)
Definition other_grant : Grant := mkGrant "g2" "grt_2" "ws" "agent" ["read:repo"] "active" None.
Lemma idempotent_replay_witness :
  Sample.executed other_grant between = (Ok Sample.response, tick between).
Proof.
  exact (idempotent_replay Sample.ring 1000 None Sample.invocation (Sample.store other_grant) Sample.response
    after_sample between sample_idle sample_before sample_held sample_steps).
Defined.
Definition other_request : IdempotencyInvocation :=
  mkIdempotencyInvocation "ws" "workspace:ws" "grant.issue.v1" "key-hash-0123456-key-hash-012345"
    "another-print-12another-print-12" 86400.
Lemma idempotency_conflict_witness :
  execute_idempotent Sample.ring None other_request (Sample.store other_grant) between =
    (Raise IdempotencyConflict, tick between).
Proof.
  refine (idempotency_conflict Sample.ring 1000 None Sample.invocation other_request (Sample.store other_grant)
    Sample.response after_sample between sample_idle sample_before sample_held sample_steps _ _ _).
  - reflexivity.
  - discriminate.
  - reflexivity.
Defined.
