(* ===== verification/IdemLedger.v ===== *)
(** * The ledger of nonces

    The nonces of idempotent requests: the registry of sealing keys counts them,
    no nonce is there twice, and a stored result is sealed under a nonce that was
    reserved and claimed for the request it answers. *)
From S2P Require Import Prelude PyStr PyDict Models Sha256 Pop World Json.
From S2P Require Import IdemCrypto IdemStorage IdemRuns IdemRows SqlTxn SqlRows SqlStore SqlRefine SqlWithin IdemSqlite IdemLifecycle IdemOnce IdemChanges.

Section ledger.
Context `{AesGcmOk}.

(** The registry counts the nonces there are; no nonce is there twice; a result is
    sealed under a nonce reserved by, and claimed for, the request it answers, and
    no two under the same. *)
Record ledger (db : IdemDb) : Prop := {
  lg_labels : NoDup (map kvr_version_label (i_versions db));
  lg_versions : ∀ n, n ∈ i_nonces db → ∃ v, v ∈ i_versions db ∧ kvr_version_label v = cnr_cipher_key_version n;
  lg_nonces : NoDup (map nonce_key (i_nonces db));
  lg_counts : ∀ v, v ∈ i_versions db →
    nonce_count (kvr_version_label v) db = kvr_reserved_encryption_slots v ∧
    kvr_reserved_encryption_slots v ≤ HARD_SLOT_LIMIT;
  lg_results : ∀ r, r ∈ i_results db → ∃ n, n ∈ i_nonces db ∧ nonce_key n = result_nonce r ∧
    cnr_owner n = result_owner r ∧ cnr_claimed_at_epoch n ≠ None;
  lg_unique : NoDup (map result_nonce (i_results db));
  lg_identities : NoDup (map rrw_identity (i_results db))
}.
(** Changes of rows that keep what the ledger is about. *)
Lemma ledger_versions db (f : key_version_row → key_version_row) :
  (∀ v, kvr_version_label (f v) = kvr_version_label v ∧
        kvr_reserved_encryption_slots (f v) = kvr_reserved_encryption_slots v) →
  ledger db → ledger (set_versions (map f (i_versions db)) db).
Proof.
  intros Hf [Hl Hv Hn Hc Hr Hu Hi]. constructor; try done; cbn.
  - rewrite map_map. erewrite map_ext; [exact Hl|]. intros v. apply Hf.
  - intros n Hin. destruct (Hv n Hin) as (v & Hvin & Hlab). exists (f v). split; [by apply list_elem_of_fmap_2|].
    by rewrite (proj1 (Hf v)).
  - intros w (v & -> & Hvin)%list_elem_of_fmap. destruct (Hf v) as [-> ->]. by apply Hc.
Qed.
Lemma ledger_deleted db p : ledger db → ledger (set_results (List.filter p (i_results db)) db).
Proof.
  intros [Hl Hv Hn Hc Hr Hu Hi]. pose proof (kept_sublist p (i_results db)) as Hsub.
  constructor; try done; cbn.
  - intros r Hin. apply Hr. by eapply elem_of_sublist.
  - eapply sublist_NoDup; [exact Hu|]. by apply (fmap_sublist result_nonce).
  - eapply sublist_NoDup; [exact Hi|]. by apply (fmap_sublist rrw_identity).
Qed.
Lemma map_if_keys {A B} (key : A → B) p (f : A → A) l : (∀ x, key (f x) = key x) →
  map key (map (λ x, if p x : bool then f x else x) l) = map key l.
Proof. intros Hf. rewrite map_map. apply map_ext. intros x. destruct (p x); [apply Hf|done]. Qed.
(** A reservation counts the nonce it takes. *)
Lemma reserved_ledger db t version v n :
  ledger db → List.find (reservable version) (i_versions db) = Some v →
  i_versions t = map (λ r, if reservable version r then kvr_reserve r else r) (i_versions db) →
  i_nonces t = i_nonces db ++ [n] → i_results t = i_results db → cnr_cipher_key_version n = version →
  (∀ x, x ∈ i_nonces db → nonce_key x ≠ nonce_key n) → ledger t.
Proof.
  intros [Hl Hvs Hn Hc Hr Hu Hi] [Hvin Hv]%find_some Et En Er Hver Hnew.
  apply list_elem_of_In in Hvin. assert (Hlabel : kvr_version_label v = version).
  { unfold reservable in Hv. by bool_prop. }
  assert (Hlab : map kvr_version_label (i_versions t) = map kvr_version_label (i_versions db)).
  { rewrite Et. by apply map_if_keys. }
  constructor.
  - by rewrite Hlab.
  - assert (Hthere : ∀ x, x ∈ i_versions db → ∃ w, w ∈ i_versions t ∧ kvr_version_label w = kvr_version_label x).
    { intros x Hx. exists (if reservable version x then kvr_reserve x else x).
      rewrite Et. split; [|by destruct (reservable version x)].
      by apply (list_elem_of_fmap_2 (λ r, if reservable version r then kvr_reserve r else r)). }
    intros x. rewrite En, elem_of_app, list_elem_of_singleton. intros [Hx| ->].
    + destruct (Hvs x Hx) as (w & Hw & <-). by apply Hthere.
    + destruct (Hthere v Hvin) as (w & Hw & Hw'). exists w. split; [done|]. by rewrite Hw', Hver.
  - rewrite En. rewrite map_app. apply NoDup_app. split_and!; [done| |apply NoDup_singleton].
    intros k (x & -> & Hx)%list_elem_of_fmap Hk. apply list_elem_of_singleton in Hk. by apply (Hnew x Hx).
  - intros w. rewrite Et. intros (x & -> & Hx)%list_elem_of_fmap. destruct (Hc x Hx) as [Hcx Hmx].
    assert (Hcount : ∀ label, nonce_count label t = nonce_count label db + (if version == label then 1 else 0)).
    { intros label. rewrite <- Hver. unfold nonce_count. rewrite En, List.filter_app, length_app. cbn.
      destruct (_ == label); cbn; lia. }
    assert (Hone : kvr_version_label x = version → x = v).
    { intros Hx'. apply (keyed_value kvr_version_label (i_versions db)); try done.
      by rewrite Hx'. }
    rewrite Hcount. destruct (reservable version x) eqn:Hres.
    + assert (Hx' : kvr_version_label x = version ∧ kvr_reserved_encryption_slots x < HARD_SLOT_LIMIT).
      { unfold reservable in Hres. by bool_prop. }
      destruct Hx' as [Hx' Hlt]. cbn. rewrite Hx', String.eqb_refl. rewrite Hx' in Hcx. lia.
    + destruct (version == kvr_version_label x) eqn:Elab; [|by rewrite Z.add_0_r].
      apply String.eqb_eq in Elab. by rewrite (Hone (eq_sym Elab)), Hv in Hres.
  - rewrite Er. intros r Hin. destruct (Hr r Hin) as (x & Hx & Hrest). exists x. split; [|done].
    rewrite En. apply elem_of_app. by left.
  - by rewrite Er.
  - by rewrite Er.
Qed.
(** A claim marks nonces. *)
Lemma ledger_claimed db (p : cipher_nonce_row → bool) now : ledger db → ledger (on_row p (cnr_claim now) db).
Proof.
  intros [Hl Hv Hn Hc Hr Hu Hi]. constructor; try done; cbn.
  - intros n (m & -> & Hm)%list_elem_of_fmap. destruct (Hv m Hm) as (v & Hvin & Hlab).
    exists v. split; [done|]. by destruct (p m).
  - by rewrite (map_if_keys nonce_key).
  - intros v Hvin. destruct (Hc v Hvin) as [<- Hle]. split; [|done]. unfold nonce_count. cbn. f_equal.
    clear. induction (i_nonces db) as [|n l IH]; [done|]. cbn.
    assert (E : cnr_cipher_key_version (if p n then cnr_claim now n else n) = cnr_cipher_key_version n)
      by by destruct (p n).
    rewrite E. destruct (_ == _); cbn; by rewrite IH.
  - intros r Hin. destruct (Hr r Hin) as (n & Hnin & Hk & Ho & Hcl). exists (if p n then cnr_claim now n else n).
    split; [by apply (list_elem_of_fmap_2 (λ r, if p r then cnr_claim now r else r))|].
    by destruct (p n).
Qed.
(** A result is stored under a nonce that is claimed, of no other result. *)
Lemma insert_ledger r n db t : ledger db → insert_result r db = Ok (tt, t) →
  n ∈ i_nonces db → nonce_key n = result_nonce r → cnr_owner n = result_owner r →
  cnr_claimed_at_epoch n ≠ None → ledger t.
Proof.
  intros [Hl Hv Hn Hc Hr Hu Hi] Hins Hnin Hk Ho Hcl. unfold insert_result in Hins.
  destruct (negb _ || _ || _) eqn:Hg; [done|]. injection Hins as <-.
  apply orb_false_iff in Hg as [[_ Hg]%orb_false_iff _].
  assert (Hnew : ∀ x, x ∈ i_results db → rrw_identity x ≠ rrw_identity r ∧ result_nonce x ≠ result_nonce r).
  { intros x Hx. apply not_true_iff_false in Hg. split; intros E; apply Hg, existsb_exists; exists x;
      (split; [by apply list_elem_of_In|]).
    - unfold of_identity. by rewrite bool_decide_true.
    - injection E as E1 E2. unfold uses_nonce. rewrite E1, E2, !String.eqb_refl. by destruct (of_identity _ _). }
  constructor; try done; cbn.
  - intros x. rewrite elem_of_app, list_elem_of_singleton. intros [Hx| ->]; [by apply Hr|]. by exists n.
  - rewrite map_app. apply NoDup_app. split_and!; [done| |apply NoDup_singleton].
    intros k (x & -> & Hx)%list_elem_of_fmap Hk'. apply list_elem_of_singleton in Hk'. by apply (Hnew x Hx).
  - rewrite map_app. apply NoDup_app. split_and!; [done| |apply NoDup_singleton].
    intros k (x & -> & Hx)%list_elem_of_fmap Hk'. apply list_elem_of_singleton in Hk'. by apply (proj1 (Hnew x Hx)).
Qed.
(** A new sealing key has sealed nothing. *)
Lemma register_ledger r db t : kvr_reserved_encryption_slots r = 0 → insert_key_version r db = Ok (tt, t) →
  ledger db → ledger t.
Proof.
  intros Hzero Hins [Hl Hv Hn Hc Hr Hu Hi]. unfold insert_key_version in Hins.
  destruct (negb _ || existsb _ _) eqn:Hg; [done|]. injection Hins as <-. apply orb_false_iff in Hg as [_ Hg].
  assert (Hnew : ∀ x, x ∈ i_versions db → kvr_version_label x ≠ kvr_version_label r).
  { intros x Hx E. apply not_true_iff_false in Hg. apply Hg, existsb_exists. exists x.
    split; [by apply list_elem_of_In|]. by rewrite E, String.eqb_refl. }
  constructor; try done; cbn.
  - rewrite map_app. apply NoDup_app. split_and!; [done| |apply NoDup_singleton].
    intros k (x & -> & Hx)%list_elem_of_fmap Hk'. apply list_elem_of_singleton in Hk'. by apply (Hnew x Hx).
  - intros n Hnin. destruct (Hv n Hnin) as (v & Hvin & Hlab). exists v. split; [|done]. apply elem_of_app. by left.
  - intros x. rewrite elem_of_app, list_elem_of_singleton. intros [Hx| ->]; [by apply Hc|].
    rewrite Hzero. split; [|by vm_compute]. unfold nonce_count. cbn.
    destruct (List.filter _ (i_nonces db)) as [|n l] eqn:Hf; [done|exfalso].
    assert (Hin : List.In n (List.filter (λ n, cnr_cipher_key_version n == kvr_version_label r) (i_nonces db)))
      by (rewrite Hf; by left).
    apply filter_In in Hin as [Hin Hlab]. apply list_elem_of_In in Hin. destruct (Hv n Hin) as (v & Hvin & Hlab').
    apply String.eqb_eq in Hlab. apply (Hnew v Hvin). by rewrite Hlab', Hlab.
Qed.
(** Every change keeps the ledger. *)
Lemma ledger_change E db db' : change E db db' → ledger db → ledger db'.
Proof.
  intros Hch Hlg. destruct Hch as [p f db Hf|version v n db Hfind Hver Hnew|p now db|r n v db t Hins Hn Hk Ho Hcl _ _
    |q db _|r db t Hins Hzero _|update now db k t Hup].
  - apply ledger_versions; [|done]. intros v. destruct (p v) eqn:Hp; [|done]. by destruct (Hf v Hp).
  - by eapply reserved_ledger; [exact Hlg|exact Hfind|..].
  - by apply ledger_claimed.
  - by eapply insert_ledger; [exact Hlg|exact Hins|exact Hn|..].
  - by apply ledger_deleted.
  - by eapply register_ledger; [exact Hzero|exact Hins|].
  - unfold update_versions in Hup. destruct (existsb _ _); [done|]. injection Hup as _ <-.
    apply ledger_versions; [|done]. intros v. by destruct (retirable update now db v).
Qed.

(** C8: The ledger of nonces is exact in every state the service reaches: for each
    sealing key the registry counts exactly the nonces there are, at most 2^24; no
    nonce of a key is ever there twice, a reservation that collides or exceeds the
    limit being undone; and every stored result is sealed under a nonce of the
    ledger that was reserved and claimed for the very request it answers, no two
    results under the same nonce and no two for the same key.  So it is through
    executions, a transaction at a time, whatever they raise and whenever a commit
    fails, collections, start-ups, and the disabling, draining and retirement of
    sealing keys, by any number of processes. *)
Theorem idem_ledger_exact c c' : idle c → ledger (idem c) → rtc idem_step c c' → idle c' ∧ ledger (idem c').
Proof.
  intros Hi Hlg Hsteps. destruct (steps_change (λ _, True) c c' Hsteps Hi (λ _, I)) as (Hi' & _ & Hch).
  split; [done|]. clear -Hlg Hch. induction Hch as [|x y z Hxy _ IH]; [done|]. by eapply IH, ledger_change.
Qed.
End ledger.

#[local] Existing Instances Sample.cipher Sample.cipher_ok.
Lemma empty_ledger : ledger empty_idem.
Proof. constructor; cbn; try apply NoDup_nil_2; by intros x ?%elem_of_nil. Qed.
Definition fresh : Store := mkConn empty_db None [] [] [] (mkLocal 0 None (mkEntropy Sample.nonces 0)
  (mkClock (λ n, 100 + Z.of_nat (min n 100)) 0)).
Definition after_two : Store := (Sample.executed Sample.grant (_register_keyring Sample.ring fresh).2).2.
Lemma idem_ledger_exact_witness : length (i_nonces (idem after_two)) = 1%nat ∧ idle after_two ∧ ledger (idem after_two).
Proof.
  split; [by vm_compute|]. apply (idem_ledger_exact fresh); [by split|exact empty_ledger|].
  eapply rtc_l; [apply (step_register Sample.ring)|]. apply rtc_once. unfold after_two, Sample.executed.
  apply (step_execute Sample.ring None); [apply Sample.store_tame|done].
Defined.
