(* ===== verification/IdemRetire.v ===== *)
(** * What the lifecycle of sealing keys guarantees

    A version disabled for writing seals nothing more; a retired one is needed by
    nothing, so that its key can be taken out of the keyring; a version is drained
    only when no service that writes under it is alive. *)
From S2P Require Import Prelude PyStr PyDict Models Sha256 Pop World Json.
From S2P Require Import IdemCrypto IdemStorage IdemRuns IdemRows IdemLock SqlTxn SqlRows SqlStore SqlRefine SqlWithin.
From S2P Require Import IdemSqlite IdemLifecycle IdemOnce IdemChanges IdemLedger.

(** ** Retired versions *)
Section retired.
Context `{AesGcmOk}.

Definition is_retired (db : IdemDb) (version : string) : bool :=
  existsb (λ v, of_version version v && bool_decide (is_Some (kvr_retired_epoch v))) (i_versions db).
(** The keyring without the keys of the versions that are retired. *)
Definition without_retired (db : IdemDb) (ring : IdempotencyKeyring) : IdempotencyKeyring :=
  mkIdempotencyKeyring (_active_key ring)
    (List.filter (λ k, negb (is_retired db (kv_version k))) (_decryption_keys ring)).
(** A retired version was drained a removal window before, and nothing is stored
    under it. *)
Definition well_retired (db : IdemDb) (v : key_version_row) : Prop := ∀ t, kvr_retired_epoch v = Some t →
  kvr_write_disabled_epoch v ≠ None ∧
  (∃ d, kvr_drain_completed_epoch v = Some d ∧ d + IDEMPOTENCY_REMOVAL_WINDOW_SECONDS ≤ t) ∧
  ∀ r, r ∈ i_results db → rec_cipher_key_version (rrw_record r) ≠ kvr_version_label v.
Definition retired_clean (db : IdemDb) : Prop := ∀ v, v ∈ i_versions db → well_retired db v.

Lemma well_retired_mono db db' v w : well_retired db v →
  (∀ r, r ∈ i_results db' → r ∈ i_results db) →
  kvr_version_label w = kvr_version_label v → kvr_retired_epoch w = kvr_retired_epoch v →
  (kvr_write_disabled_epoch v ≠ None → kvr_write_disabled_epoch w = kvr_write_disabled_epoch v) →
  (kvr_drain_completed_epoch v ≠ None → kvr_drain_completed_epoch w = kvr_drain_completed_epoch v) →
  well_retired db' w.
Proof.
  intros Hv Hres Hl Hr Hd Hdr t. rewrite Hr. intros (Hdis & (d & Hdrain & Hd') & Hno)%Hv. split_and!.
  - by rewrite Hd.
  - exists d. rewrite Hdr; [done|by rewrite Hdrain].
  - rewrite Hl. auto.
Qed.
Lemma retired_change E db db' : change E db db' → ledger db → retired_clean db → retired_clean db'.
Proof.
  intros Hch Hlg Hcl. destruct Hch as [p f db Hf|version v n db Hfind Hver Hnew|p now db
    |r n v db t Hins Hn Hk Ho Hclm Hv Hlive|q db _|r db t Hins Hzero Hret|update now db k t Hup].
  - intros w (v & -> & Hv)%list_elem_of_fmap. specialize (Hcl v Hv).
    destruct (p v) eqn:Hp; [|by eapply well_retired_mono].
    destruct (Hf v Hp). by eapply well_retired_mono.
  - intros w (x & -> & Hx)%list_elem_of_fmap. specialize (Hcl x Hx). by destruct (reservable version x); eapply well_retired_mono.
  - exact Hcl.
  - unfold insert_result in Hins. destruct (negb _ || _ || _); [done|]. injection Hins as <-.
    intros w Hw t0 Ht. destruct (Hcl w Hw t0 Ht) as (Hd & Hdr & Hno). split_and!; [done..|].
    intros x. cbn. rewrite elem_of_app, list_elem_of_singleton. intros [Hx| ->]; [by apply Hno|]. intros E'.
    unfold version_row_of in Hv. apply find_some in Hv as [Hvin Hvl]. apply String.eqb_eq in Hvl.
    injection Hk as Hk1 _. assert (w = v) as ->.
    { apply (keyed_value kvr_version_label (i_versions db)); [apply Hlg|done|by apply list_elem_of_In|congruence]. }
    unfold kvr_live in Hlive. apply andb_true_iff in Hlive as [_ Hlive]. apply bool_decide_eq_true in Hlive. congruence.
  - intros w Hw. refine (well_retired_mono db _ w w (Hcl w Hw) _ eq_refl eq_refl (λ _, eq_refl) (λ _, eq_refl)).
    intros r Hr. apply list_elem_of_In, filter_In in Hr as [Hr _]. by apply list_elem_of_In.
  - unfold insert_key_version in Hins. destruct (_ || _); [done|]. injection Hins as <-.
    intros w. cbn. rewrite elem_of_app, list_elem_of_singleton. intros [Hw| ->]; [by apply Hcl|].
    intros t0. by rewrite Hret.
  - unfold update_versions in Hup. destruct (existsb _ _); [done|]. injection Hup as _ <-.
    intros w (x & -> & Hx)%list_elem_of_fmap. specialize (Hcl x Hx).
    destruct (retirable update now db x) eqn:Hr; [|by eapply well_retired_mono].
    intros t0. cbn. intros [= <-]. destruct (kvr_retired_epoch x) as [t0|] eqn:Hret; [by apply Hcl|].
    unfold retirable in Hr. apply andb_true_iff in Hr as [[[[Hlab Hdis]%andb_true_iff Hdr]%andb_true_iff Hno]%andb_true_iff _].
    apply bool_decide_eq_true in Hdis. split_and!.
    + by apply not_eq_None_Some.
    + destruct (kvr_drain_completed_epoch x) as [d|]; [|done]. exists d. split; [done|]. by apply Z.leb_le.
    + intros r Hin E'. apply negb_true_iff, not_true_iff_false in Hno. apply Hno, existsb_exists. exists r.
      split; [by apply list_elem_of_In|]. unfold sealed_under. apply String.eqb_eq. rewrite E'.
      unfold of_version in Hlab. by apply String.eqb_eq in Hlab.
Qed.
Lemma retired_steps c c' : idle c → ledger (idem c) → retired_clean (idem c) → rtc idem_step c c' →
  ledger (idem c') ∧ retired_clean (idem c').
Proof.
  intros Hi Hlg Hcl Hsteps. destruct (steps_change (λ _, True) c c' Hsteps Hi (λ _, I)) as (_ & _ & Hch).
  clear -Hlg Hcl Hch. induction Hch as [|x y z Hxy _ IH]; [done|].
  apply IH; [by eapply ledger_change|by eapply retired_change].
Qed.

(** ** Taking retired keys out *)

Lemma states_other (l : list KeyVersionReadinessState) k acc : k ∉ map ks_version l →
  dget k (foldl (λ d s, dset (ks_version s) s d) acc l) = dget k acc.
Proof.
  revert acc. induction l as [|s l IH]; intros acc Hk; [done|]. apply not_elem_of_cons in Hk as [Hne Hk].
  cbn. rewrite IH by done. by apply dget_dset_ne.
Qed.
Lemma states_found (l : list KeyVersionReadinessState) s acc : NoDup (map ks_version l) → s ∈ l →
  dget (ks_version s) (foldl (λ d s, dset (ks_version s) s d) acc l) = Some s.
Proof.
  revert acc. induction l as [|x l IH]; intros acc Hnd Hs; [by apply elem_of_nil in Hs|].
  apply NoDup_cons in Hnd as [Hx Hnd]. cbn. apply elem_of_cons in Hs as [->|Hs]; [|by apply IH].
  rewrite states_other by done. apply dget_dset_eq.
Qed.
Lemma required_live db v : retired_clean db → v ∈ required_versions db → is_retired db v = false.
Proof.
  intros Hcl (r & -> & Hr)%list_elem_of_fmap. apply not_true_iff_false. intros (x & Hx & Hv)%existsb_exists.
  apply andb_true_iff in Hv as [Hl Hret]. apply bool_decide_eq_true in Hret as [t Ht].
  apply String.eqb_eq in Hl. apply list_elem_of_In in Hx. by apply (Hcl x Hx t Ht) in Hr.
Qed.
Lemma kept_label db ring v : is_retired db v = false → v ∈ version_labels ring →
  v ∈ version_labels (without_retired db ring).
Proof.
  intros Hr (k & -> & Hk)%list_elem_of_fmap. apply list_elem_of_fmap. exists k. split; [done|].
  apply list_elem_of_In, filter_In. split; [by apply list_elem_of_In|]. by rewrite Hr.
Qed.
Lemma label_elem v l : existsb (String.eqb v) l = true ↔ v ∈ l.
Proof.
  rewrite existsb_exists. split.
  - intros (x & Hx & Hv). apply String.eqb_eq in Hv. subst. by apply list_elem_of_In.
  - intros Hv%list_elem_of_In. exists v. by rewrite String.eqb_refl.
Qed.
Lemma compatible_without db ring b : retired_clean db →
  validate_startup_compatibility (Some ring) (registry_of db) (required_versions db) = Ok b →
  validate_startup_compatibility (Some (without_retired db ring)) (registry_of db) (required_versions db) = Ok b.
Proof.
  intros Hcl. unfold validate_startup_compatibility.
  destruct (existsb _ (required_versions db)) eqn:E1; [done|]. destruct (existsb _ (registry_of db)) eqn:E2; [done|].
  intros <-. match goal with |- (if ?b then _ else _) = _ => destruct b eqn:F1 end; [exfalso|].
  - apply existsb_exists in F1 as (v & Hv & Hno). apply not_true_iff_false in E1. apply E1, existsb_exists.
    exists v. split; [done|]. apply negb_true_iff, not_true_iff_false in Hno. apply negb_true_iff, not_true_iff_false.
    intros Hin%label_elem. apply Hno, label_elem, kept_label; [|done].
    apply required_live; [done|by apply list_elem_of_In].
  - match goal with |- (if ?b then _ else _) = _ => destruct b eqn:F2 end; [exfalso|done].
    apply existsb_exists in F2 as (g & Hg & Hbad). apply existsb_exists in Hbad as (k & Hk & Hbad).
    apply filter_In in Hk as [Hk _]. apply not_true_iff_false in E2. apply E2, existsb_exists. exists g.
    split; [done|]. apply existsb_exists. by exists k.
Qed.
Lemma ready_without counts db ring : ledger db → retired_clean db →
  idempotency_readiness (version_labels ring) (required_versions db) (Some (active_version ring))
    (map (readiness_state counts) (i_versions db)) false = true →
  idempotency_readiness (version_labels (without_retired db ring)) (required_versions db) (Some (active_version ring))
    (map (readiness_state counts) (i_versions db)) false = true.
Proof.
  intros Hlg Hcl. unfold idempotency_readiness.
  destruct (forallb _ (required_versions db)) eqn:Hreq; [|done]. cbn [negb].
  destruct (existsb _ (map _ _)) eqn:Hcounts; [done|].
  destruct (bool_decide (version_labels ring = [])) eqn:Hempty; [by rewrite andb_comm|].
  destruct (existsb (String.eqb (active_version ring)) (version_labels ring)) eqn:Hact; [|done]. cbn [negb].
  match goal with |- context [foldl ?f [] ?l] => set (states := foldl f [] l) end. destruct (_ && negb (din _ states)) eqn:Hin; [done|].
  destruct (existsb _ (required_versions db)) eqn:Hlive; [done|]. intros Hready.
  assert (Hnot : is_retired db (active_version ring) = false).
  { apply not_true_iff_false. intros (v & Hv & Hret)%existsb_exists. apply andb_true_iff in Hret as [Hl Hret].
    apply String.eqb_eq in Hl. apply list_elem_of_In in Hv.
    assert (Hget : dget (active_version ring) states = Some (readiness_state counts v)).
    { rewrite <- Hl. apply (states_found _ (readiness_state counts v)); [|by apply list_elem_of_fmap_2].
      rewrite map_map. apply Hlg. }
    rewrite Hget in Hready. cbn in Hready. by rewrite Hret in Hready. }
  apply label_elem in Hact. apply (kept_label db) in Hact; [|done].
  rewrite (proj2 (forallb_forall _ _)).
  2: { intros v Hv. rewrite forallb_forall in Hreq. apply label_elem, kept_label; [|by apply label_elem, Hreq].
       apply required_live; [done|by apply list_elem_of_In]. }
  cbn [negb]. destruct (bool_decide (version_labels (without_retired db ring) = [])) eqn:Hno.
  { apply bool_decide_eq_true in Hno. rewrite Hno in Hact. by apply elem_of_nil in Hact. }
  apply label_elem in Hact. by rewrite Hact.
Qed.
Lemma key_without db ring v : is_retired db v = false →
  decryption_key v (without_retired db ring) = decryption_key v ring.
Proof.
  intros Hr. unfold decryption_key. cbn. induction (_decryption_keys ring) as [|k l IH]; [done|]. cbn.
  destruct (kv_version k == v) eqn:Hk.
  - apply String.eqb_eq in Hk. rewrite Hk, Hr. cbn. by rewrite Hk, String.eqb_refl.
  - destruct (is_retired db (kv_version k)); cbn; [|rewrite Hk]; exact IH.
Qed.
Lemma classify_without db ring inv now : retired_clean db →
  classify_completed_result inv (stored_result inv db) (Some (without_retired db ring)) now =
  classify_completed_result inv (stored_result inv db) (Some ring) now.
Proof.
  intros Hcl. unfold classify_completed_result, stored_result. destruct (require_invocation inv) as [[]|]; [|done]. cbn.
  destruct (List.find _ (i_results db)) as [r|] eqn:Hf; [|done]. cbn. unfold authenticate_completed_result.
  rewrite key_without; [done|]. apply required_live; [done|]. apply find_some in Hf as [Hin _].
  apply list_elem_of_fmap. exists r. split; [done|by apply list_elem_of_In].
Qed.

(** C9: The key of a retired version can be taken out of the keyring: in every state
    the processes of a deployment reach - requests executed a transaction at a
    time under keyrings of their own, collections, start-ups, disablings, drains
    and retirements, in any order and whenever a commit fails - a service that
    could start with a keyring can start without its retired keys, its active key
    among those it has kept, and every request finds what it found with them: the
    same stored response, conflict, or nothing.  A retired version was disabled,
    and drained at least a day and five minutes before, and nothing is stored
    under it. *)
Theorem retired_keys_removable ring exact_nonce_counts c0 c :
  idle c0 → ledger (idem c0) → retired_clean (idem c0) → rtc idem_step c0 c →
  retired_clean (idem c) ∧
  (sqlite_idempotency_ready (Some ring) exact_nonce_counts (idem c) = Ok true →
   sqlite_idempotency_ready (Some (without_retired (idem c) ring)) exact_nonce_counts (idem c) = Ok true) ∧
  ∀ inv now,
    classify_completed_result inv (stored_result inv (idem c)) (Some (without_retired (idem c) ring)) now =
    classify_completed_result inv (stored_result inv (idem c)) (Some ring) now.
Proof.
  intros Hi Hlg Hcl Hsteps. destruct (retired_steps c0 c Hi Hlg Hcl Hsteps) as [Hlg' Hcl'].
  split; [done|]. split; [|intros; by apply classify_without].
  unfold sqlite_idempotency_ready. intros (b & Hb & Hready)%result_bind_inv.
  rewrite (compatible_without (idem c) ring b Hcl' Hb). injection Hready as Hready.
  apply (f_equal Ok). by apply ready_without.
Qed.

(** ** Versions that may not be written *)

(** The version still has its label, commitment and count, and the marks it had. *)
Record tombstone (v w : key_version_row) : Prop := {
  tb_label : kvr_version_label w = kvr_version_label v;
  tb_commitment : kvr_key_commitment w = kvr_key_commitment v;
  tb_slots : kvr_reserved_encryption_slots w = kvr_reserved_encryption_slots v;
  tb_disabled : kvr_write_disabled_epoch v ≠ None → kvr_write_disabled_epoch w = kvr_write_disabled_epoch v;
  tb_drained : kvr_drain_completed_epoch v ≠ None → kvr_drain_completed_epoch w = kvr_drain_completed_epoch v;
  tb_retired : kvr_retired_epoch v ≠ None → kvr_retired_epoch w = kvr_retired_epoch v
}.
#[export] Instance tombstone_preorder : PreOrder tombstone.
Proof.
  split; [by split|]. intros x y z [] []. split; try congruence.
  - intros Hx. rewrite <- tb_disabled0 by done. apply tb_disabled1. by rewrite tb_disabled0.
  - intros Hx. rewrite <- tb_drained0 by done. apply tb_drained1. by rewrite tb_drained0.
  - intros Hx. rewrite <- tb_retired0 by done. apply tb_retired1. by rewrite tb_retired0.
Qed.
Lemma marked_tombstone v w : marked v w → tombstone v w.
Proof. intros []. by split. Qed.
Lemma tombstone_closed v w : tombstone v w → kvr_live v = false → kvr_live w = false.
Proof.
  intros [_ _ _ Hd _ Hr]. unfold kvr_live. rewrite !andb_false_iff, !bool_decide_eq_false.
  intros [Hv|Hv]; [left; by rewrite Hd|right; by rewrite Hr].
Qed.
(** What the version sealed is what it had: the nonces it has reserved, all still
    there, and at most the results it had. *)
Definition fenced (v : key_version_row) (db0 db : IdemDb) : Prop :=
  (∃ w, w ∈ i_versions db ∧ tombstone v w) ∧
  (∀ key, key.1 = kvr_version_label v →
     (key ∈ map nonce_key (i_nonces db) ↔ key ∈ map nonce_key (i_nonces db0))) ∧
  ∀ r, r ∈ i_results db → rec_cipher_key_version (rrw_record r) = kvr_version_label v → r ∈ i_results db0.
Lemma fenced_versions v db0 db f : fenced v db0 db → (∀ w, w ∈ i_versions db → tombstone v w → tombstone w (f w)) →
  fenced v db0 (set_versions (map f (i_versions db)) db).
Proof.
  intros ((w & Hw & Htb) & Hn & Hr) Hf. split_and!; [|done..]. exists (f w).
  split; [by apply list_elem_of_fmap_2|]. etrans; [exact Htb|]. by apply Hf.
Qed.
Lemma fenced_change E v db0 db db' : kvr_live v = false → change E db db' → ledger db → fenced v db0 db → fenced v db0 db'.
Proof.
  intros Hv Hch Hlg Hf. destruct Hch as [p f db Hp|version x n db Hfind Hver Hnew|p now db
    |r n x db t Hins Hn Hk Ho Hclm Hx Hlive|q db _|r db t Hins Hzero Hret|update now db k t Hup].
  - apply fenced_versions; [done|]. intros w _ _. destruct (p w) eqn:Hpw; [|done]. by apply marked_tombstone, Hp.
  - assert (Hclosed : ∀ w, tombstone v w → reservable version w = false).
    { intros w Hw%tombstone_closed; [|done]. unfold reservable, kvr_live in *. by rewrite <- (andb_assoc (_ == _)), Hw, andb_false_r. }
    destruct Hf as ((w & Hw & Htb) & Hns & Hr). split_and!; [| |done].
    + exists w. split; [|done]. apply list_elem_of_fmap. exists w. by rewrite Hclosed.
    + intros key Hkey. rewrite <- Hns by done. cbn [i_nonces set_nonces]. rewrite map_app, elem_of_app.
      change (map nonce_key [n]) with [nonce_key n]. rewrite list_elem_of_singleton. split; [|by left]. intros [?| ->]; [done|]. exfalso. apply find_some in Hfind as [Hxin Hxr].
      apply list_elem_of_In in Hxin. assert (x = w) as ->.
      { apply (keyed_value kvr_version_label (i_versions db)); [apply Hlg|done..|].
        unfold reservable in Hxr. rewrite (tb_label _ _ Htb). cbn in Hkey. rewrite <- Hkey, Hver. by bool_prop. }
      by rewrite Hclosed in Hxr.
  - destruct Hf as (Hw & Hns & Hr). split_and!; [done| |done]. cbn. by rewrite (map_if_keys nonce_key).
  - pose proof Hins as Hins'. unfold insert_result in Hins. destruct (negb _ || _ || _); [done|]. injection Hins as <-.
    destruct Hf as ((w & Hw & Htb) & Hns & Hr). split_and!; [by exists w|done|].
    intros y. cbn. rewrite elem_of_app, list_elem_of_singleton. intros [Hy| ->] Hy'; [by apply Hr|]. exfalso.
    unfold version_row_of in Hx. apply find_some in Hx as [Hxin Hxl]. apply String.eqb_eq in Hxl.
    injection Hk as Hk1 _. assert (x = w) as ->.
    { apply (keyed_value kvr_version_label (i_versions db)); [apply Hlg|by apply list_elem_of_In|done|].
      rewrite (tb_label _ _ Htb). congruence. }
    by rewrite (tombstone_closed v w) in Hlive.
  - destruct Hf as (Hw & Hns & Hr). split_and!; [done..|]. intros y Hy.
    apply list_elem_of_In, filter_In in Hy as [Hy _]. apply Hr. by apply list_elem_of_In.
  - unfold insert_key_version in Hins. destruct (_ || _); [done|]. injection Hins as <-.
    destruct Hf as ((w & Hw & Htb) & Hns & Hr). split_and!; [|done..]. exists w. split; [|done].
    apply elem_of_app. by left.
  - unfold update_versions in Hup. destruct (existsb _ _); [done|]. injection Hup as _ <-.
    apply fenced_versions; [done|]. intros w _ _. destruct (retirable _ _ _ w); [|done].
    split; try done. unfold kvr_retire. cbn. by destruct (kvr_retired_epoch w).
Qed.

(** C10: A sealing key disabled for writing seals nothing more: from any state the
    processes of a deployment reach, and whatever they do next - requests in the
    middle of their execution included, those that had reserved a nonce under the
    key before it was disabled too - the version keeps its label, its commitment,
    its count of encryptions and the marks of its lifecycle, the nonces reserved
    under it are exactly those there were, and no response is stored under it that
    was not there. *)
Theorem disabled_key_fenced c0 c c' v :
  idle c0 → ledger (idem c0) → rtc idem_step c0 c → rtc idem_step c c' →
  v ∈ i_versions (idem c) → kvr_write_disabled_epoch v ≠ None → fenced v (idem c) (idem c').
Proof.
  intros Hi Hlg Hto Hsteps Hv Hdis.
  destruct (steps_change (λ _, True) c0 c Hto Hi (λ _, I)) as (Hi' & _ & Hch).
  assert (Hlg' : ledger (idem c)) by (clear -Hlg Hch; induction Hch; eauto using ledger_change).
  destruct (steps_change (λ _, True) c c' Hsteps Hi' (λ _, I)) as (_ & _ & Hch').
  assert (Hclosed : kvr_live v = false) by (unfold kvr_live; by rewrite bool_decide_false).
  assert (Hf : fenced v (idem c) (idem c)) by (split_and!; [by exists v|done..]).
  revert Hf. generalize (idem c) at 1 3. intros db0 Hf. clear -Hlg' Hch' Hclosed Hf.
  induction Hch' as [|x y z Hxy _ IH]; [done|]. apply IH; [by eapply ledger_change|by eapply fenced_change].
Qed.
End retired.

(** ** Writers *)

(** The shared locks of [hs] are held, and the descriptions [xs] are others. *)
Definition held_by (hs xs : list Handle) (s : Os) : Prop :=
  (∀ h, h ∈ hs → mkFlock h false ∈ os_flocks s ∧ hd_id h < os_next s) ∧
  ∀ x, x ∈ xs → hd_id x < os_next s ∧ x ∉ hs.
Section system.
Context `{OsPaths}.
Context (hs : list Handle).
(** The operation leaves the locks. *)
Abbreviation safely xs m := (triple (held_by hs xs) m (λ _, held_by hs xs) (held_by hs xs)).

Lemma held_weaken xs xs' s : xs' ⊆ xs → held_by hs xs s → held_by hs xs' s.
Proof. intros Hx [H1 H2]. split; [done|]. intros x ?. by apply H2, Hx. Qed.
Lemma held_none xs s : held_by hs xs s → held_by hs [] s.
Proof. apply held_weaken, list_subseteq_nil. Qed.
Lemma safely_syscall xs : safely xs syscall.
Proof. intros s Hs. unfold syscall. by destruct (default false _). Qed.
Lemma safely_open xs path : triple (held_by hs xs) (file_open path)
  (λ x s, held_by hs (x :: xs) s ∧ hd_path x = os_find path) (held_by hs xs).
Proof.
  intros s Hs. unfold file_open, mbind at 1, M_bind at 1, syscall.
  destruct (default false _); [done|]. cbn. destruct Hs as [H1 H2]. split; [|done]. split.
  - intros h (? & ?)%H1. cbn. split; [done|lia].
  - intros x [->|Hx]%elem_of_cons; cbn.
    + split; [lia|]. intros (_ & Hlt)%H1. cbn in Hlt. lia.
    + destruct (H2 x Hx). split; [lia|done].
Qed.
Lemma safely_read xs h : safely xs (file_read h).
Proof.
  apply triple_bind with (λ _, held_by hs xs); [apply safely_syscall|]. intros _. by intros s Hs.
Qed.
Lemma safely_write xs h data : safely xs (file_write h data).
Proof.
  apply triple_bind with (λ _, held_by hs xs); [apply safely_syscall|]. intros _. by apply triple_modify.
Qed.
Lemma held_unlocked xs x s : x ∈ xs → held_by hs xs s → held_by hs xs (unlocked x s).
Proof.
  intros Hx [H1 H2]. split; [|done]. intros h Hh. destruct (H1 h Hh) as [Hl Hn]. split; [|done].
  apply list_elem_of_In, filter_In. split; [by apply list_elem_of_In|]. unfold locks_of.
  rewrite bool_decide_false; [done|]. cbn. intros ->. by apply (H2 x Hx).
Qed.
Lemma safely_unlock xs x : x ∈ xs → safely xs (funlock x).
Proof.
  intros Hx. apply triple_bind with (λ _, held_by hs xs); [apply safely_syscall|]. intros _.
  apply triple_modify. intros s. by apply held_unlocked.
Qed.
Lemma safely_close xs x : x ∈ xs → safely xs (file_close x).
Proof.
  intros Hx s Hs. unfold file_close, gets, mbind, M_bind. destruct (bool_decide _); [|done].
  apply (safely_syscall xs). by apply held_unlocked.
Qed.
Lemma safely_flock xs x exclusive : x ∈ xs → triple (held_by hs xs) (flock x exclusive)
  (λ _ s, held_by hs xs s ∧ mkFlock x exclusive ∈ os_flocks s) (held_by hs xs).
Proof.
  intros Hx. apply triple_bind with (λ _, held_by hs xs); [apply safely_syscall|]. intros _ s Hs.
  unfold gets, mbind, M_bind. destruct (existsb _ _); [done|]. cbn.
  destruct (held_unlocked xs x s Hx Hs) as [H1 H2]. split; [|by left]. split; [|done].
  intros h (Hl & Hn)%H1. split; [by right|done].
Qed.
(** The lock cannot be taken exclusively. *)
Lemma flock_blocked xs x h : x ∈ xs → h ∈ hs → hd_path h = hd_path x →
  triple (held_by hs xs) (flock x true) (λ _ _, False) (held_by hs xs).
Proof.
  intros Hx Hh Hp. apply triple_bind with (λ _, held_by hs xs); [apply safely_syscall|]. intros _ s Hs.
  unfold gets, mbind, M_bind. destruct (existsb _ _) eqn:Hb; [done|exfalso].
  apply not_true_iff_false in Hb. apply Hb, existsb_exists. destruct Hs as [H1 H2].
  exists (mkFlock h false). split; [by apply list_elem_of_In, H1|]. unfold in_the_way, locks_of. cbn.
  rewrite Hp, String.eqb_refl, bool_decide_false; [done|]. intros ->. by apply (H2 x Hx).
Qed.
Lemma safely_os_error {X} P e (m : M Os X) Q R : triple P m Q R → triple P (os_error_as e m) Q R.
Proof.
  intros Hm. eapply triple_try; [exact Hm|]. intros e'. destruct (is_os_error e'); by apply triple_raise.
Qed.

Lemma identify_same xs a c : c ∈ xs → triple (held_by hs xs) (identify a c)
  (λ x s, x = c ∧ held_by hs xs s) (held_by hs xs).
Proof.
  intros Hc. apply triple_bind with (λ _, held_by hs xs); [apply safely_read|]. intros existing.
  apply triple_if.
  - apply triple_bind with (λ _, held_by hs xs); [by apply safely_close|]. intros _. by apply triple_raise.
  - apply triple_bind with (λ _, held_by hs xs); [|intros _; by apply triple_ret].
    apply triple_if; [|by apply triple_ret].
    apply triple_bind with (λ _, held_by hs xs); [apply safely_write|]. intros _. apply safely_syscall.
Qed.
Definition carried (a : SQLiteWriterAttestation) (r : Handle) (o : result Handle * option Handle) (s : Os) : Prop :=
  match o with
  | (res, Some c) => held_by hs [c; r] s ∧ hd_path c = os_find (sa_path a) ∧ ∀ x, res = Ok x → x = c
  | (res, None) => held_by hs [r] s ∧ ∃ e, res = Raise e
  end.
Lemma carrier_of_carried a r : triple (held_by hs [r]) (carrier_of a) (carried a r) (held_by hs [r]).
Proof.
  apply triple_bind with (λ o s, match o with
    | Ok c => held_by hs [c; r] s ∧ hd_path c = os_find (sa_path a) | Raise _ => held_by hs [r] s end).
  - apply triple_outcome, safely_os_error.
    apply triple_bind with (λ _, held_by hs [r]); [apply safely_syscall|]. intros _. apply safely_open.
  - intros [c|e].
    + apply triple_bind with (λ o s, held_by hs [c; r] s ∧ hd_path c = os_find (sa_path a) ∧ ∀ x, o = Ok x → x = c).
      * intros s [Hs Hp].
        assert (Hin : c ∈ [c; r]) by by left.
        assert (Ht : triple (held_by hs [c; r]) (try_except (identify a c) (λ e,
          if is_os_error e then _ ← file_close c; raise IdempotencyLifecycleUnavailable else raise e))
          (λ x s, x = c ∧ held_by hs [c; r] s) (held_by hs [c; r])).
        { eapply triple_try; [by apply identify_same|]. intros e. apply triple_if; [|by apply triple_raise].
          apply triple_bind with (λ _, held_by hs [c; r]); [by apply safely_close|]. intros _. by apply triple_raise. }
        specialize (Ht s Hs). unfold outcome. destruct (try_except _ _ s) as [[x|e] s1]; cbn.
        -- destruct Ht as [-> Ht]. split_and!; [done..|]. by intros y [= <-].
        -- by split_and!.
      * intros res. by apply triple_ret.
    + apply triple_ret. intros s Hs. split; [done|by exists e].
Qed.
Lemma open_carrier a : triple (held_by hs []) (_open_verified_carrier a)
  (λ x s, held_by hs [x] s ∧ hd_path x = os_find (sa_path a)) (held_by hs []).
Proof.
  apply triple_bind with (λ r, held_by hs [r]).
  { eapply triple_weaken; [apply safely_os_error, triple_bind with (λ _, held_by hs [])|done| |done].
    - apply safely_syscall.
    - intros _. apply safely_open.
    - by intros x s [? _]. }
  intros r. apply triple_bind with (carried a r).
  { eapply triple_weaken; [apply carrier_of_carried|done|done|]. intros s. by apply held_none. }
  intros [res [c|]].
  - apply triple_bind with (λ _, carried a r (res, Some c)).
    + intros s (Hs & Hp & Hres).
      assert (Ht : triple (held_by hs [c; r]) (try_except (_ ← funlock r; file_close r) (λ e,
        if is_os_error e then _ ← close_opened (Some c); raise IdempotencyLifecycleUnavailable else raise e))
        (λ _, held_by hs [c; r]) (held_by hs [c; r])).
      { eapply triple_try.
        - apply triple_bind with (λ _, held_by hs [c; r]); [apply safely_unlock|intros _; apply safely_close]; by right; left.
        - intros e. apply triple_if; [|by apply triple_raise].
          apply triple_bind with (λ _, held_by hs [c; r]); [apply safely_close; by left|]. intros _. by apply triple_raise. }
      specialize (Ht s Hs). destruct (try_except _ _ s) as [[[]|e] s1]; [done|]. by eapply held_none.
    + intros _ s (Hs & Hp & Hres). cbn. destruct res as [x|e].
      * rewrite (Hres x eq_refl). split; [|done]. eapply held_weaken; [|exact Hs]. set_solver.
      * by eapply held_none.
  - apply triple_bind with (λ _, carried a r (res, None)).
    + intros s (Hs & Hres).
      assert (Ht : triple (held_by hs [r]) (try_except (_ ← funlock r; file_close r) (λ e,
        if is_os_error e then _ ← close_opened None; raise IdempotencyLifecycleUnavailable else raise e))
        (λ _, held_by hs [r]) (held_by hs [r])).
      { eapply triple_try.
        - apply triple_bind with (λ _, held_by hs [r]); [apply safely_unlock|intros _; apply safely_close]; by left.
        - intros e. apply triple_if; [|by apply triple_raise].
          apply triple_bind with (λ _, held_by hs [r]); [by apply triple_ret|]. intros _. by apply triple_raise. }
      specialize (Ht s Hs). destruct (try_except _ _ s) as [[[]|e] s1]; [done|]. by eapply held_none.
    + intros _ s (Hs & e & ->). cbn. by eapply held_none.
Qed.
Lemma acquire_safe a exclusive : triple (held_by hs []) (acquire a exclusive)
  (λ x s, held_by hs [x] s ∧ hd_path x = os_find (sa_path a) ∧ mkFlock x exclusive ∈ os_flocks s) (held_by hs []).
Proof.
  apply triple_bind with (λ x s, held_by hs [x] s ∧ hd_path x = os_find (sa_path a)); [apply open_carrier|]. intros x.
  apply triple_bind with (λ _ s, held_by hs [x] s ∧ hd_path x = os_find (sa_path a) ∧ mkFlock x exclusive ∈ os_flocks s);
    [|intros _; by apply triple_ret].
  intros s [Hs Hp].
  assert (Ht : triple (held_by hs [x]) (try_except (flock x exclusive) (λ e,
    if decide (e = BlockingIOError) then _ ← file_close x; raise IdempotencyLifecycleActiveWriters
    else if decide (e = OSError) then _ ← file_close x; raise IdempotencyLifecycleUnavailable else raise e))
    (λ _ s, held_by hs [x] s ∧ mkFlock x exclusive ∈ os_flocks s) (held_by hs [])).
  { eapply triple_try; [apply safely_flock; by left|]. intros e.
    destruct (decide _); [|destruct (decide _)].
    1-2: apply triple_bind with (λ _, held_by hs [x]);
      [eapply triple_weaken; [apply safely_close; by left|done|done|]; intros s'; by apply held_none|];
      intros _; apply triple_raise; intros s'; by apply held_none.
    apply triple_raise. intros s'. by apply held_none. }
  specialize (Ht s Hs). destruct (try_except _ _ s) as [[[]|e] s1]; [|done]. by destruct Ht.
Qed.
(** A shared lock keeps everyone from the exclusive one. *)
Lemma acquire_blocked a h : h ∈ hs → hd_path h = os_find (sa_path a) →
  triple (held_by hs []) (acquire a true) (λ _ _, False) (held_by hs []).
Proof.
  intros Hh Hp. apply triple_bind with (λ x s, held_by hs [x] s ∧ hd_path x = os_find (sa_path a)); [apply open_carrier|]. intros x.
  apply triple_bind with (λ _ _, False); [|by intros _ s]. intros s [Hs Hpx].
  assert (Ht : triple (held_by hs [x]) (try_except (flock x true) (λ e,
    if decide (e = BlockingIOError) then _ ← file_close x; raise IdempotencyLifecycleActiveWriters
    else if decide (e = OSError) then _ ← file_close x; raise IdempotencyLifecycleUnavailable else raise e))
    (λ _ _, False) (held_by hs [])).
  { eapply triple_try; [eapply (flock_blocked [x] x h); [by left|done|congruence]|]. intros e.
    destruct (decide _); [|destruct (decide _)].
    1-2: apply triple_bind with (λ _, held_by hs [x]);
      [eapply triple_weaken; [apply safely_close; by left|done|done|]; intros s'; by apply held_none|];
      intros _; apply triple_raise; intros s'; by apply held_none.
    apply triple_raise. intros s'. by apply held_none. }
  specialize (Ht s Hs). by destruct (try_except _ _ s) as [[[]|e] s1].
Qed.
End system.

(** ** Deployments

    The services that are alive, each with the version it writes under and the file
    whose lock it holds, and the operator's drains and retirements. *)
Record Writer := mkWriter { wr_version : string; wr_file : Handle }.
Record Fleet := mkFleet { ft_os : Os; ft_writers : list Writer }.
Section fleet.
(** [database]: the file, as SQLite reports it to every service.  An operator may
    name it differently each time. *)
Context `{AesGcm} `{OsPaths} (nfc : string → string) (database : string).

Inductive fleet_step : Fleet → Fleet → Prop :=
  | fleet_start version a h os os' writers :
      registered_for_connection nfc [("main", database)] version (mkAttesting os None) =
        (Ok (Some a), mkAttesting os' (Some h)) →
      fleet_step (mkFleet os writers) (mkFleet os' (mkWriter version h :: writers))
  | fleet_start_fails version e os os' file writers :
      registered_for_connection nfc [("main", database)] version (mkAttesting os None) =
        (Raise e, mkAttesting os' file) →
      fleet_step (mkFleet os writers) (mkFleet os' writers)
  | fleet_stop w os writers writers' :
      fleet_step (mkFleet os (writers ++ w :: writers'))
        (mkFleet (at_os (attestation_close (mkAttesting os (Some (wr_file w)))).2) (writers ++ writers'))
  | fleet_drain operator keyring version conn file os writers :
      fleet_step (mkFleet os writers)
        (mkFleet (lc_os (complete_drain keyring nfc operator version (mkLifecycle conn os file)).2) writers)
  | fleet_retire operator keyring request conn file os writers :
      fleet_step (mkFleet os writers)
        (mkFleet (lc_os (lifecycle_retire keyring nfc operator request (mkLifecycle conn os file)).2) writers)
  (** Which system calls will fail. *)
  | fleet_faults os faults writers :
      fleet_step (mkFleet os writers)
        (mkFleet (mkOs (os_files os) (os_open os) (os_flocks os) (os_next os) faults) writers).

(** Every service that is alive holds the lock of its version. *)
Record staffed (f : Fleet) : Prop := {
  sf_held : held_by (map wr_file (ft_writers f)) [] (ft_os f);
  sf_distinct : NoDup (map wr_file (ft_writers f));
  sf_paths : ∀ w, w ∈ ft_writers f →
    ∃ a, new_attestation nfc database (wr_version w) = Ok a ∧ hd_path (wr_file w) = os_find (sa_path a)
}.
Lemma registering_run hs version os : database ≠ "" → held_by hs [] os →
  match registered_for_connection nfc [("main", database)] version (mkAttesting os None) with
  | (Ok None, _) => False
  | (Ok (Some a), at') => new_attestation nfc database version = Ok a ∧
      ∃ h, at_writer_file at' = Some h ∧ hd_path h = os_find (sa_path a) ∧ (h ∉ hs) ∧ held_by (h :: hs) [] (at_os at')
  | (Raise _, at') => held_by hs [] (at_os at')
  end.
Proof.
  intros Hdb Hs. unfold registered_for_connection. cbn [List.find fst snd]. rewrite String.eqb_refl.
  destruct (String.eqb_spec database ""); [done|].
  destruct (new_attestation nfc database version) as [a|e]; [|exact Hs].
  rewrite lift_Ok_bind. unfold register, gets, set_writer_file, modify, on_os, mbind, M_bind. cbn.
  pose proof (acquire_safe hs a false os Hs) as Hacq. destruct (acquire a false os) as [[h|e] os1]; [|exact Hacq].
  cbn. destruct Hacq as ([H1 H2] & Hp & Hl). destruct (H2 h) as [Hn Hh]; [by left|].
  split; [done|]. exists h. split_and!; [done..|]. split; [|by intros x ?%elem_of_nil].
  intros x [->|Hx]%elem_of_cons; [done|by apply H1].
Qed.
Lemma closing_run hs h os : held_by hs [h] os →
  held_by hs [] (at_os (attestation_close (mkAttesting os (Some h))).2).
Proof.
  intros Hs. unfold attestation_close, gets, set_writer_file, modify, on_os, mbind at 1 2, M_bind at 1 2. cbn [at_writer_file at_os].
  assert (Ht : triple (held_by hs [h]) (try_except (_ ← funlock h; file_close h) (λ e,
    if is_os_error e then _ ← outcome (file_close h); raise IdempotencyLifecycleUnavailable else raise e))
    (λ _, held_by hs [h]) (held_by hs [h])).
  { eapply triple_try.
    - apply triple_bind with (λ _, held_by hs [h]); [apply safely_unlock|intros _; apply safely_close]; by left.
    - intros e. apply triple_if; [|by apply triple_raise].
      apply triple_bind with (λ _, held_by hs [h]); [|intros _; by apply triple_raise].
      eapply triple_weaken; [apply triple_outcome, (safely_close hs [h]); by left|done| |exact (λ s x, x)].
      by intros [[]|e'] s. }
  specialize (Ht os Hs). destruct (try_except _ _ os) as [[[]|e] os1]; by eapply held_none.
Qed.

(** The operator's operations, under the lock, leave the system alone. *)
Definition same_os (l l' : Lifecycle) : Prop := lc_os l' = lc_os l.
#[local] Instance same_os_preorder : PreOrder same_os.
Proof. split; [done|]. unfold same_os. intros x y z. congruence. Qed.
Lemma same_os_conn {X} (m : M Store X) : keeps same_os (on_conn m).
Proof. intros l. unfold on_conn. by destruct (m (lc_conn l)). Qed.
Ltac same_os := repeat first [apply same_os_conn | apply keeps_bind; [apply _| |intros ?] | apply keeps_raise, _
  | apply keeps_ret, _ | apply keeps_if | match goal with |- keeps _ (match ?x with _ => _ end) => destruct x end].
Lemma drain_guarded_os keyring version : keeps same_os (drain_guarded keyring version).
Proof. unfold drain_guarded, lifecycle_status. same_os. Qed.
Lemma retire_guarded_os keyring request : keeps same_os (retire_guarded keyring request).
Proof. unfold retire_guarded, lifecycle_status, _database_epoch. same_os. Qed.
Lemma guard_run {X} operator hs version (m : M Lifecycle X) conn os file : keeps same_os m → held_by hs [] os →
  held_by hs [] (lc_os (exclusive_guard nfc operator version m (mkLifecycle conn os file)).2).
Proof.
  intros Hm Hs. unfold exclusive_guard. destruct (new_attestation nfc operator version) as [a|e]; [|exact Hs].
  rewrite lift_Ok_bind. unfold mbind at 1, M_bind at 1. unfold on_new_attestation, _acquire_exclusive, gets, on_os.
  unfold mbind at 1, M_bind at 1. cbn [at_writer_file lc_os].
  pose proof (acquire_safe hs a true os Hs) as Hacq. cbn [at_os].
  destruct (acquire a true os) as [[h|e] os1]; [|exact Hacq]. destruct Hacq as (Hs1 & _).
  unfold try_finally, outcome, mbind, M_bind. cbn [at_os].
  specialize (Hm (mkLifecycle conn os1 file)). unfold same_os in Hm. cbn in Hm.
  destruct (m _) as [r [conn2 os2 file2]]. cbn in Hm. subst os2. cbn [fst snd].
  unfold on_system, on_attestation, on_os, _release_exclusive. cbn [at_os lc_os lc_writer_file].
  pose proof (safely_os_error (held_by hs [h]) IdempotencyLifecycleUnavailable (file_close h)
    (λ _, held_by hs [h]) (held_by hs [h]) (safely_close hs [h] h ltac:(by left)) os1 Hs1) as Hrel.
  destruct (os_error_as _ _ os1) as [[[]|e] os3]; by eapply held_none.
Qed.
Lemma guard_blocked {X} operator hs version (m : M Lifecycle X) conn os file a h : held_by hs [] os →
  new_attestation nfc operator version = Ok a → h ∈ hs → hd_path h = os_find (sa_path a) →
  ∃ e os', exclusive_guard nfc operator version m (mkLifecycle conn os file) = (Raise e, mkLifecycle conn os' file).
Proof.
  intros Hs Ha Hh Hp. unfold exclusive_guard. rewrite Ha, lift_Ok_bind. unfold mbind at 1, M_bind at 1.
  unfold on_new_attestation, _acquire_exclusive, gets, on_os. unfold mbind at 1, M_bind at 1. cbn.
  pose proof (acquire_blocked hs a h Hh Hp os Hs) as Hacq. destruct (acquire a true os) as [[x|e] os1]; [done|].
  by exists e, os1.
Qed.
Context (Hdatabase : database ≠ "").
Lemma step_staffed f f' : fleet_step f f' → staffed f → staffed f'.
Proof.
  intros Hstep [Hh Hd Hp]. destruct Hstep as [version a h os os' ws Hrun|version e os os' file ws Hrun|w os ws ws'
    |operator keyring version conn file os ws|operator keyring request conn file os ws|os faults ws]; cbn [ft_os ft_writers] in *.
  - pose proof (registering_run _ version os Hdatabase Hh) as Hreg. rewrite Hrun in Hreg. cbn in Hreg.
    destruct Hreg as (Ha & x & [= <-] & Hpath & Hnew & Hheld). split; cbn; [done|by apply NoDup_cons|].
    intros y [->|Hy]%elem_of_cons; [by exists a|by apply Hp].
  - pose proof (registering_run _ version os Hdatabase Hh) as Hreg. rewrite Hrun in Hreg. by split.
  - rewrite map_app in Hh, Hd. cbn in Hh, Hd. apply NoDup_app in Hd as (Hd1 & Hd2 & Hd3). apply NoDup_cons in Hd3 as [Hd3 Hd4].
    assert (Hnot : wr_file w ∉ map wr_file (ws ++ ws')).
    { rewrite map_app, elem_of_app. intros [Hw|Hw]; [|done]. apply (Hd2 _ Hw). by left. }
    assert (Hsub : map wr_file (ws ++ ws') ⊆ map wr_file ws ++ wr_file w :: map wr_file ws').
    { rewrite map_app. set_solver. }
    split; cbn.
    + apply closing_run. destruct Hh as [H1 _]. split.
      * intros x Hx. by apply H1, Hsub.
      * intros x ->%list_elem_of_singleton. split; [|done]. apply H1. set_solver.
    + rewrite map_app. apply NoDup_app. split_and!; [done| |done]. intros x Hx Hx'. apply (Hd2 x Hx). by right.
    + intros y Hy. apply Hp. set_solver.
  - split; cbn; [|done..]. apply guard_run; [apply drain_guarded_os|done].
  - split; cbn; [|done..]. apply guard_run; [apply retire_guarded_os|done].
  - by split.
Qed.

(** The operator's path leads to the database itself, and so what is beside the one
    is beside the other: the path may be relative, or pass through links to
    directories, but is not a link to the file. *)
Definition leads_to (operator : string) : Prop := ∀ suffix, os_find (operator ^+ suffix) = os_find (database ^+ suffix).
Lemma same_carrier operator version a : leads_to operator → new_attestation nfc database version = Ok a →
  ∃ b, new_attestation nfc operator version = Ok b ∧ os_find (sa_path b) = os_find (sa_path a).
Proof.
  intros Hop. unfold new_attestation, mbind, result_bind.
  destruct (_version_lock_identity nfc version) as [identity|]; [|done].
  destruct (_version_lock_carrier nfc version) as [carrier|]; [|done]. intros [= <-].
  eexists. split; [done|]. cbn [sa_path]. rewrite !app_assoc_str. apply Hop.
Qed.

(** C11: A version is drained, and retired, only when no service that writes under it
    is alive: whatever services have started, failed to start and stopped, whatever
    drains and retirements were tried, and whichever system calls failed, while a
    service holds its registration for a version both operations raise for it, and
    leave the database as it is.  The operator must name the database by a path
    that leads to it, however written, and not by a link to its file, beside which
    the locks would be others. *)
Theorem drain_waits_for_writers os0 f w operator keyring conn file :
  os_flocks os0 = [] → rtc fleet_step (mkFleet os0 []) f → w ∈ ft_writers f → leads_to operator →
  (∃ e os', complete_drain keyring nfc operator (wr_version w) (mkLifecycle conn (ft_os f) file) =
     (Raise e, mkLifecycle conn os' file)) ∧
  ∀ confirmed, ∃ e os', lifecycle_retire keyring nfc operator
      (mkIdempotencyRetirementRequest (wr_version w) confirmed) (mkLifecycle conn (ft_os f) file) =
    (Raise e, mkLifecycle conn os' file).
Proof.
  intros Hos Hsteps Hw Hop. assert (Hsf : staffed f).
  { assert (H1 : staffed (mkFleet os0 [])).
    { split; cbn; [by split; intros x ?%elem_of_nil|apply NoDup_nil_2|by intros x ?%elem_of_nil]. }
    clear Hw. revert H1. induction Hsteps as [|x y z Hxy _ IH]; [done|]. intros Hx. by eapply IH, step_staffed. }
  destruct Hsf as [Hh _ Hp]. destruct (Hp w Hw) as (a & Ha & Hpath).
  destruct (same_carrier operator _ a Hop Ha) as (b & Hb & Hab). rewrite <-Hab in Hpath.
  assert (Hin : wr_file w ∈ map wr_file (ft_writers f)) by by apply list_elem_of_fmap_2.
  split; [|intros confirmed]; by eapply guard_blocked.
Qed.
End fleet.

(** ** A rotation

    A response is sealed under [v1]; [v2] takes over; [v1] is disabled, drained,
    and retired two days later. *)
#[local] Existing Instances Sample.cipher Sample.cipher_ok.
Module Rotation.
Definition next_key : IdempotencyKeyVersion :=
  mkIdempotencyKeyVersion "v2" "fedcba9876543210fedcba9876543210" "fedcba9876543210fedcba9876543210".
Definition before_rotation : IdempotencyKeyring := mkIdempotencyKeyring Sample.key [Sample.key; next_key].
Definition after_rotation : IdempotencyKeyring := mkIdempotencyKeyring next_key [Sample.key; next_key].
Definition fresh : Store := mkConn empty_db None [] [] [] (mkLocal 0 None (mkEntropy Sample.nonces 0)
  (mkClock (λ n, if (n <? 9)%nat then 100 else 200000) 0)).
Definition registered : Store := (_register_keyring (Some before_rotation) fresh).2.
Definition sealed : Store :=
  (execute_idempotent (Some before_rotation) None Sample.invocation (Sample.store Sample.grant) registered).2.
Definition disabled : Store := (disable_version "v1" "rotation" sealed).2.
(** A request that reaches a service that still writes under [v1]. *)
Definition late : Store :=
  (execute_idempotent (Some before_rotation) None _PROBE_INVOCATION (Sample.store Sample.grant) disabled).2.
Definition drained : Store := (record_drain "v1" late).2.
Definition retired : Store := (retire_lifecycle_version after_rotation (mkSQLiteRetirementUpdate "v1" "v2") drained).2.
Lemma to_sealed : rtc idem_step fresh sealed.
Proof.
  eapply rtc_l; [apply (step_register (Some before_rotation))|]. apply rtc_once. unfold sealed.
  apply (step_execute (Some before_rotation) None); [apply Sample.store_tame|done].
Qed.
Lemma to_late : rtc idem_step disabled late.
Proof.
  apply rtc_once. unfold late. apply (step_execute (Some before_rotation) None); [apply Sample.store_tame|done].
Qed.
Lemma to_retired : rtc idem_step fresh retired.
Proof.
  etrans; [exact to_sealed|]. eapply rtc_l; [exact (step_rotate "v1" "rotation" sealed)|].
  change (disable_version "v1" "rotation" sealed).2 with disabled. etrans; [exact to_late|].
  eapply rtc_l; [exact (step_drain "v1" late)|]. apply rtc_once.
  exact (step_retire after_rotation (mkSQLiteRetirementUpdate "v1" "v2") drained).
Qed.
Lemma fresh_clean : retired_clean (idem fresh).
Proof. by intros v ?%elem_of_nil. Qed.
End Rotation.
Example rotation_marks : map (λ v, (kvr_version_label v, kvr_write_disabled_epoch v, kvr_drain_completed_epoch v,
    kvr_retired_epoch v, kvr_reserved_encryption_slots v)) (i_versions (idem Rotation.retired)) =
  [("v1", Some 100, Some 100, Some 200000, 1); ("v2", None, None, None, 0)].
Proof. vm_compute. reflexivity. Qed.
Definition rotated_versions : list key_version_row := Eval vm_compute in i_versions (idem Rotation.disabled).
Definition rotated_version : key_version_row := Eval vm_compute in
  default (mkKeyVersionRow "" "" 0 0 None None None None None) (head rotated_versions).

Lemma retired_keys_removable_witness :
  map kv_version (_decryption_keys (without_retired (idem Rotation.retired) Rotation.after_rotation)) = ["v2"] ∧
  retired_clean (idem Rotation.retired) ∧
  sqlite_idempotency_ready (Some (without_retired (idem Rotation.retired) Rotation.after_rotation)) true
    (idem Rotation.retired) = Ok true.
Proof.
  split; [vm_compute; reflexivity|].
  destruct (retired_keys_removable Rotation.after_rotation true Rotation.fresh Rotation.retired
    (conj eq_refl eq_refl) empty_ledger Rotation.fresh_clean Rotation.to_retired) as (Hclean & Hready & _).
  split; [exact Hclean|]. apply Hready. vm_compute. reflexivity.
Defined.
Lemma disabled_key_fenced_witness :
  kvr_reserved_encryption_slots rotated_version = 1 ∧
  fenced rotated_version (idem Rotation.disabled) (idem Rotation.late).
Proof.
  split; [reflexivity|].
  apply (disabled_key_fenced Rotation.fresh Rotation.disabled Rotation.late rotated_version).
  - split; reflexivity.
  - exact empty_ledger.
  - eapply rtc_r; [exact Rotation.to_sealed|]. exact (step_rotate "v1" "rotation" Rotation.sealed).
  - exact Rotation.to_late.
  - assert (E : i_versions (idem Rotation.disabled) = rotated_versions) by (vm_compute; reflexivity).
    rewrite E. left.
  - discriminate.
Defined.

(** A service that writes under [v1], and an operator who would drain it. *)
Module Crew.
(** Relative to the working directory [/srv]. *)
#[export] Instance paths : OsPaths := λ path, if startswith path "/" then path else "/srv/" ^+ path.
Definition os0 : Os := mkOs [] [] [] 0 [].
Definition begun : result (option SQLiteWriterAttestation) * Attesting :=
  registered_for_connection id [("main", "/srv/vinctor.sqlite")] "v1" (mkAttesting os0 None).
Definition attestation : SQLiteWriterAttestation := Eval vm_compute in
  match begun.1 with Ok (Some a) => a | _ => mkSQLiteWriterAttestation "" "" "" end.
Definition file : Handle := Eval vm_compute in default (mkHandle 0 "") (at_writer_file begun.2).
Definition os1 : Os := Eval vm_compute in at_os begun.2.
Lemma begun_run : begun = (Ok (Some attestation), mkAttesting os1 (Some file)).
Proof. vm_compute. reflexivity. Qed.
Definition fleet : Fleet := mkFleet os1 [mkWriter "v1" file].
(** The drain with the system as it is, the database named by [operator]. *)
Definition drained (operator : string) (os : Os) : result () * Lifecycle :=
  complete_drain Rotation.after_rotation id operator "v1" (mkLifecycle Rotation.disabled os None).
Definition stopped : Os := at_os (attestation_close (mkAttesting os1 (Some file))).2.
End Crew.
#[local] Existing Instance Crew.paths.
Example drained_when_stopped : (Crew.drained "vinctor.sqlite" Crew.stopped).1 = Ok () ∧
  map kvr_drain_completed_epoch (i_versions (idem (lc_conn (Crew.drained "vinctor.sqlite" Crew.stopped).2))) =
    [Some 100; None].
Proof. vm_compute. split; reflexivity. Qed.
(** Named by a link to its file, the database is drained while the service lives:
    the operator locks a file beside the link. *)
Example drained_by_a_link : (Crew.drained "/home/link.sqlite" Crew.os1).1 = Ok ().
Proof. vm_compute. reflexivity. Qed.
Lemma drain_waits_for_writers_witness :
  ∃ e os', complete_drain Rotation.after_rotation id "vinctor.sqlite" "v1"
    (mkLifecycle Rotation.disabled Crew.os1 None) = (Raise e, mkLifecycle Rotation.disabled os' None).
Proof.
  destruct (drain_waits_for_writers id "/srv/vinctor.sqlite" ltac:(discriminate) Crew.os0 Crew.fleet
    (mkWriter "v1" Crew.file) "vinctor.sqlite" Rotation.after_rotation Rotation.disabled None eq_refl) as [Hdrain _].
  - apply rtc_once. exact (fleet_start id "/srv/vinctor.sqlite" "v1" Crew.attestation Crew.file Crew.os0 Crew.os1 []
      Crew.begun_run).
  - left.
  - intros suffix. reflexivity.
  - exact Hdrain.
Defined.
