(* ===== verification/Keys.v ===== *)
(** * API keys ([src/vinctor_service/keys.py])

    [SQLiteLocalKeyRepository] over the [local_keys] table: keys are stored by
    hash, resolved to an identity by kind, revoked and listed.  [clock] is
    [datetime.now(UTC)], read where a caller gives no instant. *)
From S2P Require Import Prelude PyStr PyDict PyTime Models ServiceModels CoreAudit.
From S2P Require Import Sha256 Pop Repositories World Grants AutoApproval AuditChain Json Http.
From S2P Require Import SqlTxn SqlRows SqlStore SqlRefine SqlAudit ControlPlane ControlRefine SqlWithin.

(** ** Text *)

(** Code points: a continuation byte belongs to the character before it. *)
Definition continuation (c : ascii) : bool := char_between (ascii_of_nat 128) (ascii_of_nat 191) c.
Fixpoint code_points (s : string) : list string :=
  match s with
  | EmptyString => []
  | String c s' =>
      let l := code_points s' in
      match s', l with
      | String d _, x :: l' => if continuation d then String c x :: l' else String c "" :: l
      | _, _ => String c "" :: l
      end
  end.
Definition py_len (s : string) : nat := length (code_points s).
(** [s[:n]] and [s[-n:]], for a positive [n] *)
Definition first_chars (n : nat) (s : string) : string := join "" (take n (code_points s)).
Definition last_chars (n : nat) (s : string) : string :=
  join "" (drop (py_len s - n) (code_points s)).

(** ** Keys *)

Definition WORKSPACE_KEY_PREFIX := "wsk_".
Definition AUDITOR_KEY_PREFIX := "auk_".
Definition SERVICE_OPERATOR_KEY_PREFIX := "sok_".
Definition AGENT_KEY_PREFIX := "aak_".
Definition PEP_KEY_PREFIX := "pep_".
Definition MIN_SEEDED_KEY_SECRET_LENGTH : nat := 32.

Record LocalKeyRecord := mkLocalKeyRecord {
  lk_key_id : string;
  lk_key_type : string;
  lk_workspace_id : string;
  lk_agent_id : option string;
  lk_key_hash : string;
  lk_key_prefix : string;
  lk_status : string;
  lk_created_at : Z;
  lk_last_used_at : option Z;
  lk_revoked_at : option Z
}.
Record CreatedLocalKey := mkCreatedLocalKey { ck_raw_key : string; ck_record : LocalKeyRecord }.

Definition _key_prefix (raw_key : string) : string :=
  let '(prefix, separator, _) := partition "_" raw_key in
  if separator == "" then "" else prefix ^+ separator.
Definition mask_key (raw_key : string) : string :=
  if (py_len raw_key <=? 12)%nat then _key_prefix raw_key ^+ "***"
  else first_chars 8 raw_key ^+ "..." ^+ last_chars 4 raw_key.
Definition _validate_prefix (raw_key expected_prefix : string) : result unit :=
  if negb (startswith raw_key expected_prefix)
  then Raise (ValueError ("key must start with " ^+ expected_prefix)) else Ok tt.
Definition validate_seeded_key (raw_key expected_prefix : string) : result unit :=
  _ ← _validate_prefix raw_key expected_prefix;
  if (py_len (removeprefix raw_key expected_prefix) <? MIN_SEEDED_KEY_SECRET_LENGTH)%nat
  then Raise (ValueError ("seeded key secret must be at least 32 characters")) else Ok tt.
Definition _require_compatible (record : LocalKeyRecord) (key_type workspace_id : string)
    (agent_id : option string) : result unit :=
  if negb (lk_status record == "active") then Raise (ValueError "key is revoked")
  else if negb (lk_key_type record == key_type) || negb (lk_workspace_id record == workspace_id)
          || negb (bool_decide (lk_agent_id record = agent_id))
  then Raise (ValueError "key has incompatible identity") else Ok tt.

Definition _record_from_row (row : key_row) : result LocalKeyRecord :=
  created_at ← fromisoformat (kyw_created_at row);
  last_used_at ← _datetime_from_storage (kyw_last_used_at row);
  revoked_at ← _datetime_from_storage (kyw_revoked_at row);
  Ok (mkLocalKeyRecord (kyw_key_id row) (kyw_key_type row) (kyw_workspace_id row)
        (kyw_agent_id row) (kyw_key_hash row) (kyw_key_prefix row) (kyw_status row)
        created_at last_used_at revoked_at).
Definition read_key (row : option key_row) : M Store (option LocalKeyRecord) :=
  match row with
  | None => mret None
  | Some row => record ← lift (_record_from_row row); mret (Some record)
  end.

Definition sql_new_key (prefix : string) : M Store string := t ← draw 24; mret (prefix ^+ t).
(** [given or _new_key(prefix)] *)
Definition key_or_new (given : option string) (prefix : string) : M Store string :=
  match str_or given None with Some key => mret key | None => sql_new_key prefix end.

(** [_key_write_scope] is a copy of [_write_scope]: join the open transaction, or
    commit alone. *)
Definition _key_write_scope {X} (m : M Store X) : M Store X := _write_scope m.
(** [SQLiteLocalKeyRepository.transaction] *)
Definition key_transaction {X} (m : M Store X) : M Store X :=
  open ← gets in_transaction;
  if open : bool
  then raise (RuntimeError "key rotation cannot run inside an open transaction; it must own its transaction so the plaintext is returned only after commit")
  else atomic_write_deferral (transaction m).

(** The columns an UPDATE sets. *)
Definition kyw_used (row : key_row) (used_at : string) : key_row :=
  mkKeyRow (kyw_key_id row) (kyw_key_type row) (kyw_workspace_id row) (kyw_agent_id row)
    (kyw_key_hash row) (kyw_key_prefix row) (kyw_status row) (kyw_created_at row) (Some used_at)
    (kyw_revoked_at row).
Definition kyw_revoked (row : key_row) (revoked_at : string) : key_row :=
  mkKeyRow (kyw_key_id row) (kyw_key_type row) (kyw_workspace_id row) (kyw_agent_id row)
    (kyw_key_hash row) (kyw_key_prefix row) "revoked" (kyw_created_at row) (kyw_last_used_at row)
    (Some revoked_at).
Definition lk_used (r : LocalKeyRecord) (used_at : Z) : LocalKeyRecord :=
  mkLocalKeyRecord (lk_key_id r) (lk_key_type r) (lk_workspace_id r) (lk_agent_id r) (lk_key_hash r)
    (lk_key_prefix r) (lk_status r) (lk_created_at r) (Some used_at) (lk_revoked_at r).
Definition lk_revoked (r : LocalKeyRecord) (revoked_at : Z) : LocalKeyRecord :=
  mkLocalKeyRecord (lk_key_id r) (lk_key_type r) (lk_workspace_id r) (lk_agent_id r) (lk_key_hash r)
    (lk_key_prefix r) "revoked" (lk_created_at r) (lk_last_used_at r) (Some revoked_at).

Section keys.
Context (clock : Z).

Definition _create_key (key_type workspace_id : string) (agent_id : option string)
    (raw_key : string) (now : option Z) (key_id : option string) : M Store LocalKeyRecord :=
  let timestamp := obj_or now clock in
  id ← key_or_new key_id "lkey_";
  let record := mkLocalKeyRecord id key_type workspace_id agent_id (_hash_key raw_key)
                  (_key_prefix raw_key) "active" timestamp None None in
  _ ← _key_write_scope (
    created_at ← lift (bind_datetime timestamp);
    statement keys_table (λ rows,
      if existsb (λ r, kyw_key_id r == id) rows then Raise (integrity_error "local_keys.key_id")
      else if existsb (λ r, kyw_key_hash r == _hash_key raw_key) rows
      then Raise (integrity_error "local_keys.key_hash")
      else Ok (tt, rows ++ [mkKeyRow id key_type workspace_id agent_id (_hash_key raw_key)
                              (_key_prefix raw_key) "active" created_at None None])));
  mret record.
(** The creation of each kind of key: its prefix, kind, workspace and holder. *)
Definition create_kind (prefix key_type workspace_id : string) (agent_id raw_key : option string)
    (now : option Z) (key_id : option string) : M Store CreatedLocalKey :=
  key ← key_or_new raw_key prefix;
  _ ← lift (_validate_prefix key prefix);
  record ← _create_key key_type workspace_id agent_id key now key_id;
  mret (mkCreatedLocalKey key record).
Definition create_workspace_key (workspace_id : string) :=
  create_kind WORKSPACE_KEY_PREFIX "workspace" workspace_id None.
Definition create_agent_key (workspace_id agent_id : string) :=
  create_kind AGENT_KEY_PREFIX "agent" workspace_id (Some agent_id).
Definition create_auditor_key (workspace_id : string) :=
  create_kind AUDITOR_KEY_PREFIX "auditor" workspace_id None.
Definition create_service_operator_key :=
  create_kind SERVICE_OPERATOR_KEY_PREFIX "service_operator" "*" None.
Definition create_pep_key (workspace_id pep_id : string) :=
  create_kind PEP_KEY_PREFIX "resource_server" workspace_id (Some pep_id).

Definition get_by_raw_key (raw_key : string) (now : option Z) (touch : bool) :
    M Store (option LocalKeyRecord) :=
  row ← select keys_table (List.find (λ row, kyw_key_hash row == _hash_key raw_key));
  record ← read_key row;
  match record with
  | None => mret None
  | Some record =>
      if negb touch || negb (lk_status record == "active") then mret (Some record)
      else
        let used_at := obj_or now clock in
        _ ← _key_write_scope (
          at_ ← lift (bind_datetime used_at);
          statement keys_table (λ rows, Ok (tt,
            map (λ row, if kyw_key_id row == lk_key_id record then kyw_used row at_ else row) rows)));
        mret (Some (lk_used record used_at))
  end.
Definition key_get_by_id (key_id : string) : M Store (option LocalKeyRecord) :=
  row ← select keys_table (List.find (λ row, kyw_key_id row == key_id));
  read_key row.
Definition list_keys_for_workspace (workspace_id : string) : M Store (list LocalKeyRecord) :=
  rows ← select keys_table (λ rows,
    py_sorted (order_by kyw_created_at kyw_key_id)
      (List.filter (λ row, kyw_workspace_id row == workspace_id) rows));
  lift (mapM _record_from_row rows).

(** The active record of a kind behind a raw key, if any. *)
Definition active_of (key_type : string) (record : option LocalKeyRecord) : option LocalKeyRecord :=
  match record with
  | Some r => if (lk_status r == "active") && (lk_key_type r == key_type) then Some r else None
  | None => None
  end.
Definition resolve_workspace_identity (raw_key : string) (now : option Z) :
    M Store (option WorkspaceIdentity) :=
  record ← get_by_raw_key raw_key now true;
  mret ((λ r, mkWorkspaceIdentity (lk_workspace_id r)) <$> active_of "workspace" record).
Definition resolve_auditor_identity (raw_key : string) (now : option Z) :
    M Store (option WorkspaceIdentity) :=
  record ← get_by_raw_key raw_key now true;
  mret ((λ r, mkWorkspaceIdentity (lk_workspace_id r)) <$> active_of "auditor" record).
Definition resolve_service_operator (raw_key : string) (now : option Z) : M Store bool :=
  record ← get_by_raw_key raw_key now true;
  mret (bool_decide (is_Some (active_of "service_operator" record))).
Definition resolve_agent_identity (raw_key : string) (now : option Z) : M Store (option AgentIdentity) :=
  record ← get_by_raw_key raw_key now true;
  mret (r ← active_of "agent" record; agent_id ← lk_agent_id r;
        Some (mkAgentIdentity (lk_workspace_id r) agent_id)).
Definition resolve_pep_identity (raw_key : string) (now : option Z) : M Store (option PepIdentity) :=
  record ← get_by_raw_key raw_key now true;
  mret (r ← active_of "resource_server" record; pep_id ← lk_agent_id r;
        Some (mkPepIdentity (lk_workspace_id r) pep_id)).

Definition revoke_key (key_id : string) (now : option Z) : M Store (option LocalKeyRecord) :=
  record ← key_get_by_id key_id;
  match record with
  | None => mret None
  | Some record =>
      if lk_status record == "revoked" then mret (Some record)
      else
        let revoked_at := obj_or now clock in
        _ ← _key_write_scope (
          at_ ← lift (bind_datetime revoked_at);
          statement keys_table (λ rows, Ok (tt,
            map (λ row, if kyw_key_id row == key_id then kyw_revoked row at_ else row) rows)));
        mret (Some (lk_revoked record revoked_at))
  end.

(** A key seeded from the configuration: kept when it is there and fits. *)
Definition ensure_kind (prefix key_type workspace_id : string) (agent_id : option string)
    (raw_key : string) (now : option Z) : M Store LocalKeyRecord :=
  _ ← lift (validate_seeded_key raw_key prefix);
  existing ← get_by_raw_key raw_key None false;
  match existing with
  | Some existing =>
      _ ← lift (_require_compatible existing key_type workspace_id agent_id); mret existing
  | None =>
      created ← create_kind prefix key_type workspace_id agent_id (Some raw_key) now None;
      mret (ck_record created)
  end.
Definition ensure_workspace_key (workspace_id : string) :=
  ensure_kind WORKSPACE_KEY_PREFIX "workspace" workspace_id None.
Definition ensure_agent_key (workspace_id agent_id : string) :=
  ensure_kind AGENT_KEY_PREFIX "agent" workspace_id (Some agent_id).
Definition ensure_pep_key (workspace_id pep_id : string) :=
  ensure_kind PEP_KEY_PREFIX "resource_server" workspace_id (Some pep_id).
End keys.

Example mask_key_long : mask_key "wsk_0123456789abcdef" = "wsk_0123...cdef".
Proof. reflexivity. Qed.
Example py_len_utf8 : py_len (String (ascii_of_nat 195) (String (ascii_of_nat 169) "t")) = 2%nat.
Proof. reflexivity. Qed.
