(* ===== verification/KeyOps.v ===== *)
(** * Key operations ([src/vinctor_service/key_ops.py])

    Rotation, revocation and creation of keys, each with its one control event;
    what they guarantee of the key table and of the identities it resolves. *)
From S2P Require Import Prelude PyStr PyDict PyTime Models ServiceModels CoreAudit.
From S2P Require Import Sha256 Pop Repositories World Grants AutoApproval AuditChain Json Http.
From S2P Require Import SqlTxn SqlRows SqlStore SqlRefine SqlAudit ControlPlane ControlRefine SqlWithin.
From S2P Require Import Keys.

Definition EVENT_KEY_CREATED := "key_created".
Definition EVENT_KEY_REVOKED := "key_revoked".
Definition EVENT_KEY_ROTATED := "key_rotated".

Record RotationResult := mkRotationResult {
  ro_raw_key : string;
  ro_new_key_id : string;
  ro_revoked_key_ids : list string
}.

(** The metadata shown of a key: everything but its hash. *)
Definition serialize_key_record (record : LocalKeyRecord) : dict string json :=
  let instant o := match o with Some t => JStr (isoformat t) | None => JNull end in
  [("key_id", JStr (lk_key_id record));
   ("key_type", JStr (lk_key_type record));
   ("workspace_id", JStr (lk_workspace_id record));
   ("agent_id", match lk_agent_id record with Some a => JStr a | None => JNull end);
   ("key_prefix", JStr (lk_key_prefix record));
   ("status", JStr (lk_status record));
   ("created_at", JStr (isoformat (lk_created_at record)));
   ("last_used_at", instant (lk_last_used_at record));
   ("revoked_at", instant (lk_revoked_at record))].

Definition rotation_event (action : string) (created : CreatedLocalKey) (revoked : list string)
    (workspace_id : string) (now : Z) (agent_id : string) (enforcing_principal : option string) :
    ControlInput :=
  {| ci_event_type := EVENT_KEY_ROTATED; ci_workspace_id := workspace_id; ci_action := action;
     ci_resource := "key/" ^+ lk_key_type (ck_record created) ^+ "/" ^+ lk_key_id (ck_record created);
     ci_reason := "revoked=" ^+ pretty (Z.of_nat (length revoked));
     ci_created_at := now; ci_agent_id := agent_id; ci_scope_attempted := ""; ci_boundary_id := None;
     ci_enforcing_principal := enforcing_principal; ci_event_id := None |}.
Definition _record_rotation action created revoked workspace_id now agent_id enforcing_principal :
    M Store unit :=
  record (rotation_event action created revoked workspace_id now agent_id enforcing_principal).
Definition key_revoked_event (existing : LocalKeyRecord) (key_id : string) (now : Z)
    (enforcing_principal : option string) : ControlInput :=
  {| ci_event_type := EVENT_KEY_REVOKED; ci_workspace_id := lk_workspace_id existing;
     ci_action := "revoke_key"; ci_resource := "key/" ^+ lk_key_type existing ^+ "/" ^+ key_id;
     ci_reason := "status=revoked"; ci_created_at := now; ci_agent_id := ""; ci_scope_attempted := "";
     ci_boundary_id := None; ci_enforcing_principal := enforcing_principal; ci_event_id := None |}.
Definition key_created_event (created : CreatedLocalKey) (workspace_id pep_id : string) (now : Z)
    (enforcing_principal : option string) : ControlInput :=
  {| ci_event_type := EVENT_KEY_CREATED; ci_workspace_id := workspace_id; ci_action := "create_pep_key";
     ci_resource := "key/" ^+ lk_key_type (ck_record created) ^+ "/" ^+ lk_key_id (ck_record created);
     ci_reason := "status=active"; ci_created_at := now; ci_agent_id := pep_id;
     ci_scope_attempted := ""; ci_boundary_id := None;
     ci_enforcing_principal := enforcing_principal; ci_event_id := None |}.

Section key_ops.
(** [auditor] and [service] are the connections of the auditor and the repository. *)
Context (clock : Z) (auditor service : option nat).

Definition revoke_local_key (key_id : string) (now : Z) (enforcing_principal : option string) :
    M Store (option LocalKeyRecord) :=
  _ ← lift (require_bound_to auditor service);
  key_transaction (
    existing ← key_get_by_id key_id;
    match existing with
    | None => mret None
    | Some existing =>
        if lk_status existing == "revoked" then mret (Some existing)
        else
          record' ← revoke_key clock key_id (Some now);
          _ ← record (key_revoked_event existing key_id now enforcing_principal);
          mret record'
    end).

Definition create_pep_local_key (workspace_id pep_id : string) (now : Z)
    (enforcing_principal : option string) : M Store CreatedLocalKey :=
  _ ← lift (require_bound_to auditor service);
  key_transaction (
    created ← create_pep_key clock workspace_id pep_id None (Some now) None;
    _ ← record (key_created_event created workspace_id pep_id now enforcing_principal);
    mret created).

Definition _revoke_prior (workspace_id new_key_id : string) (keep : LocalKeyRecord → bool) (now : Z) :
    M Store (list string) :=
  records ← list_keys_for_workspace workspace_id;
  mapM (λ record, _ ← revoke_key clock (lk_key_id record) (Some now); mret (lk_key_id record))
    (List.filter (λ record,
       negb ((lk_key_id record == new_key_id) || negb (lk_status record == "active") || negb (keep record)))
     records).
(** The rotation of each kind of key: mint, revoke the predecessors, record. *)
Definition rotate_kind (create : M Store CreatedLocalKey) (action workspace_id agent_id : string)
    (keep : LocalKeyRecord → bool) (now : Z) (enforcing_principal : option string) :
    M Store RotationResult :=
  _ ← lift (require_bound_to auditor service);
  key_transaction (
    created ← create;
    revoked ← _revoke_prior workspace_id (lk_key_id (ck_record created)) keep now;
    _ ← _record_rotation action created revoked workspace_id now agent_id enforcing_principal;
    mret (mkRotationResult (ck_raw_key created) (lk_key_id (ck_record created)) revoked)).
Definition of_kind (key_type : string) (agent_id : option string) (record : LocalKeyRecord) : bool :=
  (lk_key_type record == key_type)
  && match agent_id with Some a => bool_decide (lk_agent_id record = Some a) | None => true end.
Definition rotate_workspace_key (workspace_id : string) (now : Z) (principal : option string) :=
  rotate_kind (create_workspace_key clock workspace_id None (Some now) None) "rotate_workspace_key"
    workspace_id "" (of_kind "workspace" None) now principal.
Definition rotate_auditor_key (workspace_id : string) (now : Z) (principal : option string) :=
  rotate_kind (create_auditor_key clock workspace_id None (Some now) None) "rotate_auditor_key"
    workspace_id "" (of_kind "auditor" None) now principal.
Definition rotate_service_operator_key (now : Z) (principal : option string) :=
  rotate_kind (create_service_operator_key clock None (Some now) None) "rotate_service_operator_key"
    "*" "" (of_kind "service_operator" None) now principal.
Definition rotate_agent_key (workspace_id agent_id : string) (now : Z) (principal : option string) :=
  rotate_kind (create_agent_key clock workspace_id agent_id None (Some now) None) "rotate_agent_key"
    workspace_id agent_id (of_kind "agent" (Some agent_id)) now principal.
Definition rotate_pep_key (workspace_id pep_id : string) (now : Z) (principal : option string) :=
  rotate_kind (create_pep_key clock workspace_id pep_id None (Some now) None) "rotate_pep_key"
    workspace_id pep_id (of_kind "resource_server" (Some pep_id)) now principal.
End key_ops.

(** ** What every operation keeps *)

(** Two keys share neither an id nor a hash. *)
Definition keys_unique (db : Db) : Prop :=
  NoDup (map kyw_key_id (d_keys db)) ∧ NoDup (map kyw_key_hash (d_keys db)).
(** A key's row later: the same key, revoked for good once revoked. *)
Definition key_kept (row row' : key_row) : Prop :=
  kyw_key_id row' = kyw_key_id row ∧ kyw_key_type row' = kyw_key_type row ∧
  kyw_workspace_id row' = kyw_workspace_id row ∧ kyw_agent_id row' = kyw_agent_id row ∧
  kyw_key_hash row' = kyw_key_hash row ∧ kyw_key_prefix row' = kyw_key_prefix row ∧
  kyw_created_at row' = kyw_created_at row ∧
  (kyw_status row' = kyw_status row ∨ kyw_status row' = "revoked").
#[export] Instance key_kept_preorder : PreOrder key_kept.
Proof.
  split; [intros row; split_and!; auto|]. unfold key_kept. intros r1 r2 r3 H12 H23.
  destruct_and!. split_and!; try congruence. destruct_or!; first [left; congruence|right; congruence].
Qed.
Definition keys_advance (db db' : Db) : Prop := keys_unique db →
  keys_unique db' ∧ ∀ row, row ∈ d_keys db → ∃ row', row' ∈ d_keys db' ∧ key_kept row row'.
#[export] Instance keys_advance_preorder : PreOrder keys_advance.
Proof.
  split; [intros db Hu; split; [done|]; intros row Hin; by exists row|].
  intros db1 db2 db3 H12 H23 Hu. destruct (H12 Hu) as [Hu2 Hk2]. destruct (H23 Hu2) as [Hu3 Hk3].
  split; [done|]. intros row Hin. destruct (Hk2 row Hin) as (row2 & Hin2 & Hr2).
  destruct (Hk3 row2 Hin2) as (row3 & Hin3 & Hr3). exists row3. split; [done|by etrans].
Qed.
(** An UPDATE that touches keys as [key_kept] allows, and an INSERT of a new key. *)
Lemma keys_advance_map g db : (∀ row, key_kept row (g row)) →
  keys_advance db (t_set keys_table (map g (d_keys db)) db).
Proof.
  intros Hg [Hid Hh]. split.
  - split; cbn; rewrite map_map; [erewrite (map_ext _ kyw_key_id)|erewrite (map_ext _ kyw_key_hash)];
      try done; intros row; apply (Hg row).
  - intros row Hin. exists (g row). split; [|apply Hg]. cbn. by apply list_elem_of_In, in_map, list_elem_of_In.
Qed.
Lemma fresh_snoc {R} (key : R → string) rows row : NoDup (map key rows) →
  existsb (λ r, key r == key row) rows = false → NoDup (map key (rows ++ [row])).
Proof.
  intros Hnd Hex. rewrite map_app. apply NoDup_app. split_and!; [done| |apply NoDup_singleton].
  intros k Hin ->%list_elem_of_singleton. apply list_elem_of_In, in_map_iff in Hin as (r & Hr & Hin).
  apply (proj1 (existsb_false_elem _ _)) with (x := r) in Hex; [|by apply list_elem_of_In].
  apply String.eqb_neq in Hex. congruence.
Qed.
Lemma keys_advance_snoc row db :
  existsb (λ r, kyw_key_id r == kyw_key_id row) (d_keys db) = false →
  existsb (λ r, kyw_key_hash r == kyw_key_hash row) (d_keys db) = false →
  keys_advance db (t_set keys_table (d_keys db ++ [row]) db).
Proof.
  intros H1 H2 [Hid Hh]. split; [split; by apply fresh_snoc|].
  intros r Hin. exists r. split; [apply elem_of_app; by left|reflexivity].
Qed.
Lemma kept_used at_ row : key_kept row (kyw_used row at_).
Proof. unfold key_kept. cbn. split_and!; auto. Qed.
Lemma kept_revoked at_ row : key_kept row (kyw_revoked row at_).
Proof. unfold key_kept. cbn. split_and!; auto. Qed.
Lemma keys_advance_update g hit db : (∀ row, key_kept row (g row)) →
  keys_advance db (t_set keys_table (map (λ row, if hit row : bool then g row else row) (d_keys db)) db).
Proof. intros Hg. apply keys_advance_map. intros row. destruct (hit row); [apply Hg|reflexivity]. Qed.

(** *** Bodies of transactions *)

Ltac key_body :=
  unfold rotate_kind, create_workspace_key, create_auditor_key, create_service_operator_key,
    create_agent_key, create_pep_key, create_kind, _create_key, key_or_new, sql_new_key,
    _revoke_prior, revoke_key, key_get_by_id, get_by_raw_key, read_key, list_keys_for_workspace,
    _key_write_scope.
Ltac key_statements :=
  intros; simplify_eq/=;
  repeat match goal with H : (if ?b then _ else _) = _ |- _ =>
    destruct b eqn:?; [done|] end; simplify_eq/=;
  first [by apply keys_advance_snoc
        |apply (keys_advance_update (λ r, kyw_used r _)); intros; apply kept_used
        |apply (keys_advance_update (λ r, kyw_revoked r _)); intros; apply kept_revoked].
Section bodies.
Context (clock : Z) (guard : nat → Prop).
Abbreviation body := (keeps (within_when guard keys_advance)).
Lemma create_body prefix key_type ws agent raw now id :
  body (create_kind clock prefix key_type ws agent raw now id).
Proof. key_body. within; key_statements. Qed.
Lemma revoke_body id now : body (revoke_key clock id now).
Proof. key_body. within; key_statements. Qed.
Lemma revoke_prior_body ws id keep now : body (_revoke_prior clock ws id keep now).
Proof. key_body. within; key_statements. Qed.
End bodies.

(** *** Operations of an idle connection *)

Abbreviation key_settles := (settles keys_advance).
Lemma settles_select {T X} (t : table T) (f : T → X) : key_settles (select t f).
Proof. apply (settles_same keys_advance). by intros c. Qed.
Lemma settles_lift {X} (o : result X) : key_settles (lift o).
Proof. apply (settles_same keys_advance). by intros c. Qed.
Lemma settles_ret {X} (x : X) : key_settles (mret x).
Proof. apply (settles_same keys_advance). by intros c. Qed.
Lemma settles_draw n : key_settles (draw n).
Proof. apply (settles_same keys_advance). by intros c. Qed.
Lemma key_transaction_idle {X} (m : M Store X) c : idle c → key_transaction m c = _atomic_write m c.
Proof.
  intros [Hs _]. unfold key_transaction, _atomic_write, gets, mbind, M_bind, in_transaction.
  rewrite Hs. by rewrite bool_decide_false by (by intros [? ?]).
Qed.
Lemma settles_key_transaction {X} (m : M Store X) :
  keeps inside m → keeps (grows keys_advance) m → key_settles (key_transaction m).
Proof.
  intros Hin Hm c Hi. rewrite key_transaction_idle by done. by apply (settles_atomic_write keys_advance).
Qed.
Lemma audit_advance db rows : keys_advance db (t_set audit_table rows db).
Proof. intros Hu. split; [exact Hu|]. intros row Hin. by exists row. Qed.
Ltac key_inside := key_body; unfold _record_rotation, key_get_by_id; inside.
Ltac key_settles :=
  repeat first
    [ apply (settles_write_scope keys_advance); within; key_statements
    | apply settles_select | apply settles_lift | apply settles_ret | apply settles_draw
    | apply (settles_bind keys_advance); [|intros ?]
    | match goal with |- key_settles (match ?x with _ => _ end) => destruct x eqn:? end ].
Section settled.
Context (clock : Z) (auditor service : option nat).
Lemma create_settles prefix key_type ws agent raw now id :
  key_settles (create_kind clock prefix key_type ws agent raw now id).
Proof. key_body. key_settles. Qed.
Lemma get_settles raw now touch : key_settles (get_by_raw_key clock raw now touch).
Proof. key_body. key_settles. Qed.
Lemma revoke_settles id now : key_settles (revoke_key clock id now).
Proof. key_body. key_settles. Qed.
Lemma ensure_settles prefix key_type ws agent raw now :
  key_settles (ensure_kind clock prefix key_type ws agent raw now).
Proof.
  unfold ensure_kind. apply (settles_bind keys_advance); [apply settles_lift|]. intros _.
  apply (settles_bind keys_advance); [apply get_settles|]. intros [existing|].
  - key_settles.
  - apply (settles_bind keys_advance); [apply create_settles|]. intros created. apply settles_ret.
Qed.
Lemma create_inside prefix key_type ws agent raw now id :
  keeps inside (create_kind clock prefix key_type ws agent raw now id).
Proof. key_inside. Qed.
Lemma rotate_settles create action ws agent keep now principal :
  keeps inside create → keeps (within_when (λ _, True) keys_advance) create →
  key_settles (rotate_kind clock auditor service create action ws agent keep now principal).
Proof.
  intros Hin Hbody. unfold rotate_kind. apply (settles_bind keys_advance); [apply settles_lift|]. intros _.
  apply settles_key_transaction; [key_inside; exact Hin|].
  apply keeps_bind; [apply _|by apply within_grows|]. intros created.
  apply keeps_bind; [apply _|apply within_grows, revoke_prior_body|]. intros revoked.
  apply keeps_bind; [apply _|apply grows_record, audit_advance; apply _|]. intros _.
  apply keeps_ret, _.
Qed.
Lemma revoke_local_settles id now principal :
  key_settles (revoke_local_key clock auditor service id now principal).
Proof.
  unfold revoke_local_key. apply (settles_bind keys_advance); [apply settles_lift|]. intros _.
  apply settles_key_transaction; [key_inside|].
  apply keeps_bind; [apply _|apply within_grows; key_body; within|]. intros [existing|];
    [|apply keeps_ret, _].
  apply keeps_if; [apply keeps_ret, _|].
  apply keeps_bind; [apply _|apply within_grows, revoke_body|]. intros revoked.
  apply keeps_bind; [apply _|apply grows_record, audit_advance; apply _|]. intros _.
  apply keeps_ret, _.
Qed.
Lemma create_pep_settles ws pep now principal :
  key_settles (create_pep_local_key clock auditor service ws pep now principal).
Proof.
  unfold create_pep_local_key, create_pep_key. apply (settles_bind keys_advance); [apply settles_lift|]. intros _.
  apply settles_key_transaction; [key_inside|].
  apply keeps_bind; [apply _|apply within_grows, create_body|]. intros created.
  apply keeps_bind; [apply _|apply grows_record, audit_advance; apply _|]. intros _.
  apply keeps_ret, _.
Qed.
End settled.

(** ** Identities *)

(** The kinds under which a raw key is accepted. *)
Definition granted {A B} (r : result A * B) (some : A → bool) : bool :=
  match r.1 with Ok x => some x | Raise _ => false end.
Definition is_given {A} (o : option A) : bool := match o with Some _ => true | None => false end.
Definition admitted_kinds (clock : Z) (raw_key : string) (now : option Z) (c : Store) : list string :=
  (if granted (resolve_workspace_identity clock raw_key now c) is_given then ["workspace"] else [])
  ++ (if granted (resolve_auditor_identity clock raw_key now c) is_given then ["auditor"] else [])
  ++ (if granted (resolve_service_operator clock raw_key now c) id then ["service_operator"] else [])
  ++ (if granted (resolve_agent_identity clock raw_key now c) is_given then ["agent"] else [])
  ++ (if granted (resolve_pep_identity clock raw_key now c) is_given then ["resource_server"] else []).

(** The row behind a raw key. *)
Definition key_row_of (raw_key : string) (db : Db) : option key_row :=
  List.find (λ row, kyw_key_hash row == _hash_key raw_key) (d_keys db).
Definition record_of (row : key_row) (r : LocalKeyRecord) : Prop :=
  lk_key_id r = kyw_key_id row ∧ lk_key_type r = kyw_key_type row ∧
  lk_workspace_id r = kyw_workspace_id row ∧ lk_agent_id r = kyw_agent_id row ∧
  lk_status r = kyw_status row.
Lemma record_from_row_of row r : _record_from_row row = Ok r → record_of row r.
Proof. unfold _record_from_row. intros Hr. bound_values. done. Qed.
Lemma get_by_raw_key_found clock raw now touch c r c' :
  get_by_raw_key clock raw now touch c = (Ok (Some r), c') →
  ∃ row, key_row_of raw (c_db c) = Some row ∧ record_of row r.
Proof.
  unfold get_by_raw_key, key_row_of. rewrite (bind_run _ _ _ _ _ (select_run _ _ _)). cbv beta.
  cbn [t_get keys_table]. destruct (List.find _ _) as [row|]; [|done].
  rewrite bind_Ok_inv. intros (record & c1 & Hread & Hrest). exists row. split; [done|].
  unfold read_key in Hread. apply bind_Ok_inv in Hread as (x & c2 & Hx & [= <- <-]).
  assert (Hrec : record_of row x).
  { apply record_from_row_of. unfold lift in Hx. by injection Hx. }
  cbv beta iota in Hrest. destruct (_ || _); [by injection Hrest as <- _|].
  apply bind_Ok_inv in Hrest as (u & c3 & _ & Hret). by injection Hret as <- _.
Qed.
Lemma admitted_kinds_row clock raw now c :
  admitted_kinds clock raw now c = [] ∨
  ∃ row, key_row_of raw (c_db c) = Some row ∧ kyw_status row = "active" ∧
    admitted_kinds clock raw now c = [kyw_key_type row].
Proof.
  unfold admitted_kinds, resolve_workspace_identity, resolve_auditor_identity,
    resolve_service_operator, resolve_agent_identity, resolve_pep_identity, granted, mbind, M_bind.
  pose proof (get_by_raw_key_found clock raw now true c) as Hget.
  destruct (get_by_raw_key clock raw now true c) as [[[r|]|e] c']; [|by left|by left].
  destruct (Hget r c' eq_refl) as (row & Hrow & (_ & Ht & _ & Ha & Hs)). cbn [fst].
  destruct r as [kid kt kw ka kh kp ks kc kl kr]. cbn in Ht, Ha, Hs. subst kt ka ks.
  unfold active_of, mret, M_ret. cbn [fst lk_status lk_key_type].
  destruct (String.eqb_spec (kyw_status row) "active") as [Hact|]; [|by left]. cbn [andb].
  destruct (String.eqb_spec (kyw_key_type row) "workspace") as [E|]; [right; exists row; rewrite E; by split_and!|].
  destruct (String.eqb_spec (kyw_key_type row) "auditor") as [E|]; [right; exists row; rewrite E; by split_and!|].
  destruct (String.eqb_spec (kyw_key_type row) "service_operator") as [E|]; [right; exists row; rewrite E; by split_and!|].
  destruct (String.eqb_spec (kyw_key_type row) "agent") as [E|].
  { destruct (kyw_agent_id row); rewrite E; [right; exists row; rewrite E; by split_and!|by left]. }
  destruct (String.eqb_spec (kyw_key_type row) "resource_server") as [E|]; [|by left].
  destruct (kyw_agent_id row); rewrite E; [right; exists row; rewrite E; by split_and!|by left].
Qed.

(** A raw key stands for one kind of principal.  It is accepted under at most
    one of the five kinds (workspace, auditor, service operator, agent, PEP), the
    one its row in the database has, and only while that row is active; an agent
    or PEP identity names the workspace and the holder of the row. *)
Theorem key_resolves_one_kind clock raw now c :
  (admitted_kinds clock raw now c = [] ∨
   ∃ row, row ∈ d_keys (c_db c) ∧ kyw_key_hash row = _hash_key raw ∧ kyw_status row = "active" ∧
     admitted_kinds clock raw now c = [kyw_key_type row]) ∧
  (∀ i c', resolve_agent_identity clock raw now c = (Ok (Some i), c') →
   ∃ row, key_row_of raw (c_db c) = Some row ∧ kyw_key_type row = "agent" ∧
     kyw_workspace_id row = ai_workspace_id i ∧ kyw_agent_id row = Some (ai_agent_id i)) ∧
  (∀ i c', resolve_pep_identity clock raw now c = (Ok (Some i), c') →
   ∃ row, key_row_of raw (c_db c) = Some row ∧ kyw_key_type row = "resource_server" ∧
     kyw_workspace_id row = pi_workspace_id i ∧ kyw_agent_id row = Some (pi_pep_id i)).
Proof.
  split_and!.
  - destruct (admitted_kinds_row clock raw now c) as [|(row & Hrow & Hs & Hk)]; [by left|]. right.
    exists row. apply find_some in Hrow as [Hin Hh%String.eqb_eq].
    split_and!; try done. by apply list_elem_of_In.
  - intros i c'. unfold resolve_agent_identity. rewrite bind_Ok_inv. intros (record & c1 & Hget & Hret).
    destruct record as [r|]; [|done]. apply get_by_raw_key_found in Hget as (row & Hrow & (_ & Ht & Hw & Ha & _)).
    exists row. unfold mret, M_ret, active_of in Hret. destruct (_ && _) eqn:Hk; [|done].
    apply andb_true_iff in Hk as [_ Hk%String.eqb_eq]. cbn in Hret.
    destruct (lk_agent_id r) as [a|] eqn:Hag; [|done]. injection Hret as <- _. cbn.
    split_and!; congruence.
  - intros i c'. unfold resolve_pep_identity. rewrite bind_Ok_inv. intros (record & c1 & Hget & Hret).
    destruct record as [r|]; [|done]. apply get_by_raw_key_found in Hget as (row & Hrow & (_ & Ht & Hw & Ha & _)).
    exists row. unfold mret, M_ret, active_of in Hret. destruct (_ && _) eqn:Hk; [|done].
    apply andb_true_iff in Hk as [_ Hk%String.eqb_eq]. cbn in Hret.
    destruct (lk_agent_id r) as [a|] eqn:Hag; [|done]. injection Hret as <- _. cbn.
    split_and!; congruence.
Qed.

(** ** Revocation is final *)

(** Every operation on keys, run at an instant of the clock. *)
Inductive KeyOp :=
| CreateWorkspaceKey (workspace_id : string) (raw_key : option string) (now : option Z) (key_id : option string)
| CreateAgentKey (workspace_id agent_id : string) (raw_key : option string) (now : option Z) (key_id : option string)
| CreateAuditorKey (workspace_id : string) (raw_key : option string) (now : option Z) (key_id : option string)
| CreateServiceOperatorKey (raw_key : option string) (now : option Z) (key_id : option string)
| CreatePepKey (workspace_id pep_id : string) (raw_key : option string) (now : option Z) (key_id : option string)
| EnsureWorkspaceKey (workspace_id raw_key : string) (now : option Z)
| EnsureAgentKey (workspace_id agent_id raw_key : string) (now : option Z)
| EnsurePepKey (workspace_id pep_id raw_key : string) (now : option Z)
| LookUpKey (raw_key : string) (now : option Z) (touch : bool)
| RevokeKey (key_id : string) (now : option Z)
| RevokeLocalKey (key_id : string) (now : Z) (principal : option string)
| CreatePepLocalKey (workspace_id pep_id : string) (now : Z) (principal : option string)
| RotateWorkspaceKey (workspace_id : string) (now : Z) (principal : option string)
| RotateAuditorKey (workspace_id : string) (now : Z) (principal : option string)
| RotateServiceOperatorKey (now : Z) (principal : option string)
| RotateAgentKey (workspace_id agent_id : string) (now : Z) (principal : option string)
| RotatePepKey (workspace_id pep_id : string) (now : Z) (principal : option string).
Definition ignore {X} (m : M Store X) : M Store unit := _ ← m; mret tt.
Definition run_key_op (auditor service : option nat) (clock : Z) (op : KeyOp) : M Store unit :=
  match op with
  | CreateWorkspaceKey ws raw now id => ignore (create_workspace_key clock ws raw now id)
  | CreateAgentKey ws ag raw now id => ignore (create_agent_key clock ws ag raw now id)
  | CreateAuditorKey ws raw now id => ignore (create_auditor_key clock ws raw now id)
  | CreateServiceOperatorKey raw now id => ignore (create_service_operator_key clock raw now id)
  | CreatePepKey ws pep raw now id => ignore (create_pep_key clock ws pep raw now id)
  | EnsureWorkspaceKey ws raw now => ignore (ensure_workspace_key clock ws raw now)
  | EnsureAgentKey ws ag raw now => ignore (ensure_agent_key clock ws ag raw now)
  | EnsurePepKey ws pep raw now => ignore (ensure_pep_key clock ws pep raw now)
  | LookUpKey raw now touch => ignore (get_by_raw_key clock raw now touch)
  | RevokeKey id now => ignore (revoke_key clock id now)
  | RevokeLocalKey id now p => ignore (revoke_local_key clock auditor service id now p)
  | CreatePepLocalKey ws pep now p => ignore (create_pep_local_key clock auditor service ws pep now p)
  | RotateWorkspaceKey ws now p => ignore (rotate_workspace_key clock auditor service ws now p)
  | RotateAuditorKey ws now p => ignore (rotate_auditor_key clock auditor service ws now p)
  | RotateServiceOperatorKey now p => ignore (rotate_service_operator_key clock auditor service now p)
  | RotateAgentKey ws ag now p => ignore (rotate_agent_key clock auditor service ws ag now p)
  | RotatePepKey ws pep now p => ignore (rotate_pep_key clock auditor service ws pep now p)
  end.
Lemma run_key_op_settles auditor service clock op : key_settles (run_key_op auditor service clock op).
Proof.
  destruct op; (apply (settles_bind keys_advance); [|intros; apply settles_ret]).
  all: unfold rotate_workspace_key, rotate_auditor_key, rotate_service_operator_key,
    rotate_agent_key, rotate_pep_key, create_workspace_key, create_agent_key, create_auditor_key,
    create_service_operator_key, create_pep_key, ensure_workspace_key, ensure_agent_key, ensure_pep_key.
  1-5: apply create_settles.
  1-3: apply ensure_settles.
  1: apply get_settles.
  1: apply revoke_settles.
  1: apply revoke_local_settles.
  1: apply create_pep_settles.
  all: apply rotate_settles; [apply create_inside|apply create_body].
Qed.
(** Operations one after the other, whether or not they raise. *)
Definition run_key_ops (auditor service : option nat) (ops : list (Z * KeyOp)) (c : Store) : Store :=
  fold_left (λ c op, (run_key_op auditor service op.1 op.2 c).2) ops c.
Lemma run_key_ops_advance auditor service ops c : idle c →
  idle (run_key_ops auditor service ops c) ∧
  keys_advance (c_db c) (c_db (run_key_ops auditor service ops c)).
Proof.
  revert c. induction ops as [|[clock op] ops IH]; intros c Hi; [by split|].
  cbn [run_key_ops fold_left fst snd].
  destruct (run_key_op_settles auditor service clock op c Hi) as [Hi1 H1].
  destruct (IH _ Hi1) as [Hi2 H2]. split; [exact Hi2|]. by etrans.
Qed.

(** Revoking a key is final.  Once the row of a raw key is revoked, then
    after any sequence of key operations (creations, seedings, look-ups,
    revocations, rotations, each finishing or failing as it may) the raw key is
    accepted under no kind, and its row is still there, still revoked. *)
Theorem key_revocation_final auditor service ops c raw row :
  idle c → keys_unique (c_db c) →
  row ∈ d_keys (c_db c) → kyw_key_hash row = _hash_key raw → kyw_status row = "revoked" →
  let c' := run_key_ops auditor service ops c in
  (∃ row', key_row_of raw (c_db c') = Some row' ∧ key_kept row row' ∧ kyw_status row' = "revoked") ∧
  ∀ clock now, admitted_kinds clock raw now c' = [].
Proof.
  intros Hi Hu Hin Hh Hs c'. destruct (run_key_ops_advance auditor service ops c Hi) as [_ Hadv].
  destruct (Hadv Hu) as [[_ Huh] Hkept]. destruct (Hkept row Hin) as (row' & Hin' & Hk).
  assert (Hs' : kyw_status row' = "revoked").
  { destruct Hk as (_ & _ & _ & _ & _ & _ & _ & [?|?]); congruence. }
  assert (Hrow : key_row_of raw (c_db c') = Some row').
  { unfold key_row_of. destruct (List.find _ _) as [x|] eqn:Hf.
    - apply find_some in Hf as [Hx Hxh%String.eqb_eq]. f_equal.
      apply (keyed_value kyw_key_hash (d_keys (c_db c'))); [done|by apply list_elem_of_In|done|].
      destruct Hk as (_ & _ & _ & _ & Hhash & _). congruence.
    - exfalso. apply (find_none _ _) with (x := row') in Hf; [|by apply list_elem_of_In].
      apply String.eqb_neq in Hf. apply Hf. destruct Hk as (_ & _ & _ & _ & Hhash & _). congruence. }
  split; [by exists row'|]. intros clock now.
  destruct (admitted_kinds_row clock raw now c') as [|(x & Hx & Hact & _)]; [done|].
  rewrite Hrow in Hx. injection Hx as <-. congruence.
Qed.

(** ** What a rotation does *)

Inductive rotation :=
| OfWorkspace (workspace_id : string)
| OfAuditor (workspace_id : string)
| OfServiceOperator
| OfAgent (workspace_id agent_id : string)
| OfPep (workspace_id pep_id : string).
Definition rotated_kind (rot : rotation) : string :=
  match rot with
  | OfWorkspace _ => "workspace" | OfAuditor _ => "auditor" | OfServiceOperator => "service_operator"
  | OfAgent _ _ => "agent" | OfPep _ _ => "resource_server"
  end.
Definition rotated_workspace (rot : rotation) : string :=
  match rot with
  | OfWorkspace ws | OfAuditor ws | OfAgent ws _ | OfPep ws _ => ws | OfServiceOperator => "*"
  end.
Definition rotated_holder (rot : rotation) : option string :=
  match rot with OfAgent _ a => Some a | OfPep _ p => Some p | _ => None end.
Definition run_rotation (auditor service : option nat) (clock : Z) (rot : rotation) (now : Z)
    (principal : option string) : M Store RotationResult :=
  match rot with
  | OfWorkspace ws => rotate_workspace_key clock auditor service ws now principal
  | OfAuditor ws => rotate_auditor_key clock auditor service ws now principal
  | OfServiceOperator => rotate_service_operator_key clock auditor service now principal
  | OfAgent ws a => rotate_agent_key clock auditor service ws a now principal
  | OfPep ws p => rotate_pep_key clock auditor service ws p now principal
  end.
(** The keys a rotation supersedes. *)
Definition superseded (rot : rotation) (row : key_row) : bool :=
  (kyw_workspace_id row == rotated_workspace rot) && (kyw_status row == "active")
  && (kyw_key_type row == rotated_kind rot)
  && match rotated_holder rot with
     | Some a => bool_decide (kyw_agent_id row = Some a)
     | None => true
     end.

Lemma bind_datetime_text t s : bind_datetime t = Ok s → s = isoformat t.
Proof. unfold bind_datetime. destruct (_ && _); [by intros [= <-]|done]. Qed.
Lemma find_key_id rows row : NoDup (map kyw_key_id rows) → row ∈ rows →
  List.find (λ r, kyw_key_id r == kyw_key_id row) rows = Some row.
Proof.
  intros Hnd Hin. destruct (List.find _ rows) as [x|] eqn:Hf.
  - apply find_some in Hf as [Hx Hxi%String.eqb_eq]. f_equal.
    by apply (keyed_value kyw_key_id rows); [|apply list_elem_of_In| |].
  - exfalso. apply (find_none _ _) with (x := row) in Hf; [|by apply list_elem_of_In].
    by rewrite String.eqb_refl in Hf.
Qed.
Lemma revoke_key_run clock now row c x c' :
  c_saved c ≠ None → NoDup (map kyw_key_id (d_keys (c_db c))) → row ∈ d_keys (c_db c) →
  kyw_status row ≠ "revoked" → revoke_key clock (kyw_key_id row) (Some now) c = (Ok x, c') →
  is_Some x ∧
  c_db c' = t_set keys_table (map (λ r, if kyw_key_id r == kyw_key_id row then kyw_revoked r (isoformat now)
    else r) (d_keys (c_db c))) (c_db c).
Proof.
  intros Hs Hnd Hin Hst. unfold revoke_key, key_get_by_id.
  rewrite bind_Ok_inv. intros (o & c1 & Hget & Hrun). revert Hget.
  rewrite (bind_run _ _ _ _ _ (select_run _ _ _)). cbv beta. cbn [t_get keys_table].
  rewrite (find_key_id _ _ Hnd Hin). unfold read_key. rewrite bind_Ok_inv.
  intros (record & c2 & Hrec & [= <- <-]). unfold lift in Hrec. injection Hrec as Hrec <-.
  destruct (record_from_row_of _ _ Hrec) as (_ & _ & _ & _ & Hstatus).
  cbv beta iota in Hrun. rewrite Hstatus, (proj2 (String.eqb_neq _ _) Hst) in Hrun. cbv zeta in Hrun.
  unfold _key_write_scope in Hrun. apply bind_Ok_inv in Hrun as ([] & c3 & Hw & [= <- <-]).
  rewrite (proj2 (nested_scope_joins _ c Hs)) in Hw.
  apply bind_Ok_inv in Hw as (at_ & c4 & Hat & Hw). unfold lift in Hat. injection Hat as Hat <-.
  apply bind_datetime_text in Hat as ->.
  apply (proj2 (statement_write _ _)) in Hw as (rows & Hw & ->). split; [done|].
  by injection Hw as <-.
Qed.
(** A look-up by id: the row with that id, read back. *)
Lemma key_get_run id c o c' : key_get_by_id id c = (Ok o, c') → c' = c ∧
  match o with
  | None => ∀ row, row ∈ d_keys (c_db c) → kyw_key_id row ≠ id
  | Some r => ∃ row, row ∈ d_keys (c_db c) ∧ kyw_key_id row = id ∧ record_of row r
  end.
Proof.
  unfold key_get_by_id. rewrite (bind_run _ _ _ _ _ (select_run _ _ _)). cbv beta. cbn [t_get keys_table].
  destruct (List.find _ _) as [row|] eqn:Hf; unfold read_key.
  - rewrite bind_Ok_inv. intros (rec & c1 & [Hread ->]%lift_run & [= <- <-]). split; [done|].
    apply find_some in Hf as [Hrow Hid%String.eqb_eq]. exists row.
    split_and!; [by apply list_elem_of_In|done|by apply record_from_row_of].
  - intros [= <- <-]. split; [done|]. intros row Hrow Hid.
    apply (find_none _ _) with (x := row) in Hf; [|by apply list_elem_of_In].
    by apply String.eqb_neq in Hf.
Qed.
Definition retire_ids (now : Z) (ids : list string) (rows : list key_row) : list key_row :=
  map (λ r, if existsb (String.eqb (kyw_key_id r)) ids then kyw_revoked r (isoformat now) else r) rows.
Lemma retire_ids_keys now ids rows : map kyw_key_id (retire_ids now ids rows) = map kyw_key_id rows.
Proof. unfold retire_ids. rewrite map_map. apply map_ext. intros r. by destruct (existsb _ _). Qed.
Lemma retire_ids_cons now id ids rows :
  retire_ids now ids (map (λ r, if kyw_key_id r == id then kyw_revoked r (isoformat now) else r) rows) =
  retire_ids now (id :: ids) rows.
Proof.
  unfold retire_ids. rewrite map_map. apply map_ext. intros r. cbn [existsb].
  destruct (kyw_key_id r == id) eqn:Hid; cbn [orb]; [|done].
  change (kyw_key_id (kyw_revoked r (isoformat now))) with (kyw_key_id r). by destruct (existsb _ _).
Qed.
Lemma revoke_each clock now l c ids c' :
  c_saved c ≠ None → NoDup (map kyw_key_id (d_keys (c_db c))) → NoDup (map lk_key_id l) →
  (∀ r, r ∈ l → ∃ row, row ∈ d_keys (c_db c) ∧ kyw_key_id row = lk_key_id r ∧ kyw_status row ≠ "revoked") →
  mapM (λ record, _ ← revoke_key clock (lk_key_id record) (Some now); mret (lk_key_id record)) l c = (Ok ids, c') →
  ids = map lk_key_id l ∧ c_db c' = t_set keys_table (retire_ids now ids (d_keys (c_db c))) (c_db c).
Proof.
  revert c ids. induction l as [|r l IH]; intros c ids Hs Hnd Hl Hrows; cbn [mapM map].
  - intros [= <- <-]. split; [done|]. unfold retire_ids. cbn [existsb]. rewrite map_id. by destruct (c_db c).
  - rewrite bind_Ok_inv. intros (id & c1 & Hone & Hrest).
    apply bind_Ok_inv in Hone as (o & c2 & Hrev & [= <- <-]).
    apply bind_Ok_inv in Hrest as (ids' & c3 & Hrest & [= <- <-]).
    cbn [map] in Hl. apply NoDup_cons in Hl as [Hr Hl].
    destruct (Hrows r) as (row & Hin & Hid & Hst); [by left|]. rewrite <- Hid in Hrev.
    destruct (c_saved c) as [saved|] eqn:Hsv; [|done].
    pose proof (revoke_body clock (λ _, True) (kyw_key_id row) (Some now) c saved Hsv I) as Hb.
    rewrite Hrev in Hb. cbn [snd] in Hb. destruct Hb as (Hs2 & _).
    assert (Hs' : c_saved c ≠ None) by by rewrite Hsv.
    pose proof (revoke_key_run _ _ _ _ _ _ Hs' Hnd Hin Hst Hrev) as [_ Hdb].
    set (one := map _ (d_keys (c_db c))) in Hdb.
    assert (Hone : d_keys (c_db c2) = one) by by rewrite Hdb.
    assert (Hkeys : map kyw_key_id one = map kyw_key_id (d_keys (c_db c))).
    { subst one. rewrite map_map. apply map_ext. intros x. by destruct (_ == _). }
    destruct (IH c2 ids') as [-> Hdb3]; [by rewrite Hs2|by rewrite Hone, Hkeys|done| |exact Hrest|].
    + intros x Hx. destruct (Hrows x) as (w & Hw & Hwid & Hwst); [by right|].
      exists w. split_and!; [|done|done]. rewrite Hone. subst one. apply list_elem_of_In, in_map_iff.
      exists w. split; [|by apply list_elem_of_In].
      destruct (String.eqb_spec (kyw_key_id w) (kyw_key_id row)) as [He|]; [|done].
      exfalso. apply Hr. apply list_elem_of_In, in_map_iff. exists x.
      split; [congruence|by apply list_elem_of_In].
    + split; [done|]. rewrite Hdb3, Hone. subst one. rewrite Hid, retire_ids_cons.
      by rewrite Hdb.
Qed.
Lemma mapM_map {A B C} (f : A → result B) (g : B → C) (h : A → C) l k :
  (∀ x y, f x = Ok y → g y = h x) → mapM f l = Ok k → map g k = map h l.
Proof.
  intros Hf. revert k. induction l as [|x l IH]; intros k; cbn [mapM map]; [by intros [= <-]|].
  destruct (f x) as [y|] eqn:Hx; [|done]. cbn. destruct (mapM f l) as [k'|]; [|done].
  intros [= <-]. cbn. by rewrite (Hf _ _ Hx), (IH k').
Qed.
(** What a rotation revokes, in a transaction in which the new key is there. *)
Lemma revoke_prior_run clock ws new keep now c ids c' :
  c_saved c ≠ None → NoDup (map kyw_key_id (d_keys (c_db c))) →
  _revoke_prior clock ws new keep now c = (Ok ids, c') →
  c_db c' = t_set keys_table (retire_ids now ids (d_keys (c_db c))) (c_db c) ∧
  ∀ id, id ∈ ids ↔ ∃ row r, row ∈ d_keys (c_db c) ∧ _record_from_row row = Ok r ∧ kyw_key_id row = id ∧
    kyw_workspace_id row = ws ∧ id ≠ new ∧ kyw_status row = "active" ∧ keep r = true.
Proof.
  intros Hs Hnd. unfold _revoke_prior, list_keys_for_workspace.
  rewrite bind_Ok_inv. intros (recs & c1 & Hlist & Hrun). revert Hlist.
  rewrite (bind_run _ _ _ _ _ (select_run _ _ _)). cbv beta. cbn [t_get keys_table].
  set (rows := py_sorted _ _). unfold lift. intros [= Hrecs <-].
  assert (Hin : ∀ row, row ∈ rows ↔ row ∈ d_keys (c_db c) ∧ kyw_workspace_id row = ws).
  { intros row. subst rows. rewrite py_sorted_perm, !list_elem_of_In, filter_In.
    by rewrite String.eqb_eq. }
  assert (Hids : NoDup (map lk_key_id recs)).
  { erewrite (mapM_map _ lk_key_id kyw_key_id); [| |exact Hrecs].
    - subst rows. rewrite py_sorted_perm. eapply sublist_NoDup; [exact Hnd|].
      apply fmap_sublist, filter_sublist.
    - intros x y Hxy. by destruct (record_from_row_of _ _ Hxy). }
  set (sel := List.filter _ recs) in Hrun.
  assert (Hsel : ∀ r, r ∈ sel ↔ r ∈ recs ∧ lk_key_id r ≠ new ∧ lk_status r = "active" ∧ keep r = true).
  { intros r. subst sel. rewrite !list_elem_of_In, filter_In. rewrite negb_true_iff, !orb_false_iff,
      !negb_false_iff, String.eqb_neq, String.eqb_eq. tauto. }
  destruct (revoke_each clock now sel c ids c') as [-> Hdb]; [done|done| | |exact Hrun|].
  - eapply sublist_NoDup; [exact Hids|]. apply fmap_sublist, filter_sublist.
  - intros r (Hr & _ & Ha & _)%Hsel. apply (mapM_elem _ _ _ Hrecs) in Hr as (row & Hrow & Hread).
    apply Hin in Hrow as [Hrow _]. exists row. destruct (record_from_row_of _ _ Hread) as (? & _ & _ & _ & Hst).
    split_and!; [done|done|]. rewrite <- Hst, Ha. discriminate.
  - split; [exact Hdb|]. intros id. rewrite list_elem_of_In, in_map_iff. split.
    + intros (r & <- & (Hr & Hne & Ha & Hk)%list_elem_of_In%Hsel).
      apply (mapM_elem _ _ _ Hrecs) in Hr as (row & (Hrow & Hw)%Hin & Hread). exists row, r.
      destruct (record_from_row_of _ _ Hread) as (Hid & _ & _ & _ & Hst). split_and!; congruence.
    + intros (row & r & Hrow & Hread & <- & Hw & Hne & Ha & Hk).
      destruct (record_from_row_of _ _ Hread) as (Hid & _ & _ & _ & Hst).
      exists r. split; [done|]. apply list_elem_of_In, Hsel. split_and!; [|congruence..].
      apply (mapM_elem _ _ _ Hrecs). exists row. split; [by apply Hin|done].
Qed.
Lemma create_kind_run clock prefix key_type ws agent raw now id c created c' :
  c_saved c ≠ None → create_kind clock prefix key_type ws agent raw now id c = (Ok created, c') →
  ∃ row, c_db c' = t_set keys_table (d_keys (c_db c) ++ [row]) (c_db c) ∧
    kyw_key_id row = lk_key_id (ck_record created) ∧ kyw_key_hash row = _hash_key (ck_raw_key created) ∧
    kyw_key_type row = key_type ∧ kyw_workspace_id row = ws ∧ kyw_agent_id row = agent ∧
    kyw_status row = "active" ∧ lk_key_type (ck_record created) = key_type ∧
    (∀ r, r ∈ d_keys (c_db c) → kyw_key_id r ≠ kyw_key_id row ∧ kyw_key_hash r ≠ kyw_key_hash row).
Proof.
  intros Hs. unfold create_kind, _create_key, _key_write_scope. cbv zeta.
  assert (Hdraw : ∀ o p cx key cy, key_or_new o p cx = (Ok key, cy) →
    c_db cy = c_db cx ∧ c_saved cy = c_saved cx).
  { intros o p cx key cy. unfold key_or_new, sql_new_key. destruct (str_or o None); [by intros [= _ <-]|].
    rewrite bind_Ok_inv. intros (t & cz & Hd & [= _ <-]). unfold draw, on_local in Hd.
    destruct (zoom _ _ _ _) as [? ?]. by injection Hd as _ <-. }
  rewrite bind_Ok_inv. intros (key & c1 & [Hdb1 Hs1]%Hdraw & Hrun). revert Hrun.
  rewrite bind_Ok_inv. intros ([] & c2 & [_ ->]%lift_run & Hrun). revert Hrun.
  rewrite bind_Ok_inv. intros (record & c3 & Hcreate & [= <- <-]). revert Hcreate.
  rewrite bind_Ok_inv. intros (kid & c4 & [Hdb4 Hs4]%Hdraw & Hrun). revert Hrun.
  rewrite bind_Ok_inv. intros ([] & c5 & Hw & [= <- <-]). revert Hw.
  rewrite (proj2 (nested_scope_joins _ c4 ltac:(by rewrite Hs4, Hs1))).
  rewrite bind_Ok_inv. intros (at_ & c6 & [_ ->]%lift_run & Hw).
  apply (proj2 (statement_write _ _)) in Hw as (rows & Hw & ->). cbn [t_get keys_table] in Hw.
  rewrite Hdb4, Hdb1 in *.
  destruct (existsb _ _) eqn:Hid in Hw; [done|]. destruct (existsb _ _) eqn:Hh in Hw; [done|].
  injection Hw as <-. eexists. split; [reflexivity|]. cbn. split_and!; try done.
  intros r Hr. rewrite existsb_false_elem in Hid. rewrite existsb_false_elem in Hh.
  split; apply String.eqb_neq; [by apply Hid|by apply Hh].
Qed.
Lemma rotation_shape auditor service clock rot now principal : ∃ prefix action,
  run_rotation auditor service clock rot now principal =
  rotate_kind clock auditor service
    (create_kind clock prefix (rotated_kind rot) (rotated_workspace rot) (rotated_holder rot) None
       (Some now) None)
    action (rotated_workspace rot) (default "" (rotated_holder rot))
    (of_kind (rotated_kind rot) (rotated_holder rot)) now principal.
Proof.
  destruct rot; [exists WORKSPACE_KEY_PREFIX, "rotate_workspace_key"
    |exists AUDITOR_KEY_PREFIX, "rotate_auditor_key"
    |exists SERVICE_OPERATOR_KEY_PREFIX, "rotate_service_operator_key"
    |exists AGENT_KEY_PREFIX, "rotate_agent_key"
    |exists PEP_KEY_PREFIX, "rotate_pep_key"]; reflexivity.
Qed.
Lemma kept_superseded rot row r : _record_from_row row = Ok r →
  superseded rot row = true ↔ kyw_workspace_id row = rotated_workspace rot ∧
    kyw_status row = "active" ∧ of_kind (rotated_kind rot) (rotated_holder rot) r = true.
Proof.
  intros Hr. destruct (record_from_row_of _ _ Hr) as (_ & Ht & _ & Ha & _).
  unfold superseded, of_kind. rewrite Ht, Ha, !andb_true_iff, !String.eqb_eq. tauto.
Qed.
(** A listing that succeeds reads every row of its workspace. *)
Lemma list_keys_readable ws c recs c' : list_keys_for_workspace ws c = (Ok recs, c') →
  ∀ row, row ∈ d_keys (c_db c) → kyw_workspace_id row = ws → ∃ r, _record_from_row row = Ok r.
Proof.
  unfold list_keys_for_workspace. rewrite (bind_run _ _ _ _ _ (select_run _ _ _)). cbv beta.
  cbn [t_get keys_table]. intros [Hrecs _]%lift_run row Hin Hw.
  assert (Hrow : row ∈ py_sorted (order_by kyw_created_at kyw_key_id)
    (List.filter (λ row, kyw_workspace_id row == ws) (d_keys (c_db c)))).
  { rewrite py_sorted_perm, list_elem_of_In, filter_In. split; [by apply list_elem_of_In|].
    by apply String.eqb_eq. }
  revert Hrecs Hrow. generalize (py_sorted (order_by kyw_created_at kyw_key_id)
    (List.filter (λ row, kyw_workspace_id row == ws) (d_keys (c_db c)))).
  intros l. revert recs. induction l as [|x l IH]; intros recs; cbn [mapM]; [by intros _ ?%elem_of_nil|].
  intros (y & Hy & (k & Hk & _)%result_bind_inv)%result_bind_inv [->|Hl]%elem_of_cons; [by exists y|].
  by eapply IH.
Qed.
(** The new key, and every other key as it was or retired. *)
Definition rotated (rot : rotation) (now : Z) (result : RotationResult) (before after : list key_row) : Prop :=
  ∃ row,
    after = map (λ r, if superseded rot r then kyw_revoked r (isoformat now) else r) before ++ [row] ∧
    kyw_key_id row = ro_new_key_id result ∧ kyw_key_hash row = _hash_key (ro_raw_key result) ∧
    kyw_key_type row = rotated_kind rot ∧ kyw_workspace_id row = rotated_workspace rot ∧
    kyw_agent_id row = rotated_holder rot ∧ kyw_status row = "active" ∧
    ∀ id, id ∈ ro_revoked_key_ids result ↔ ∃ r, r ∈ before ∧ superseded rot r = true ∧ kyw_key_id r = id.
Lemma retire_ids_superseded rot now ids new before :
  (∀ r, r ∈ before → existsb (String.eqb (kyw_key_id r)) ids = superseded rot r) →
  existsb (String.eqb (kyw_key_id new)) ids = false →
  retire_ids now ids (before ++ [new]) =
  map (λ r, if superseded rot r then kyw_revoked r (isoformat now) else r) before ++ [new].
Proof.
  intros Hids Hnew. unfold retire_ids. rewrite map_app. cbn [map]. rewrite Hnew. f_equal.
  apply map_ext_in. intros r Hr. by rewrite Hids by by apply list_elem_of_In.
Qed.
Lemma rotation_keys clock prefix rot now c created c1 ids c2 :
  keys_unique (c_db c) → c_saved c ≠ None →
  create_kind clock prefix (rotated_kind rot) (rotated_workspace rot) (rotated_holder rot) None
    (Some now) None c = (Ok created, c1) → c_saved c1 ≠ None →
  _revoke_prior clock (rotated_workspace rot) (lk_key_id (ck_record created))
    (of_kind (rotated_kind rot) (rotated_holder rot)) now c1 = (Ok ids, c2) →
  ∃ rows, c_db c2 = t_set keys_table rows (c_db c) ∧
    rotated rot now (mkRotationResult (ck_raw_key created) (lk_key_id (ck_record created)) ids)
      (d_keys (c_db c)) rows ∧ lk_key_type (ck_record created) = rotated_kind rot.
Proof.
  intros [Hnd _] Hs Hcreate Hs1 Hrev.
  destruct (create_kind_run _ _ _ _ _ _ _ _ _ _ _ Hs Hcreate) as
    (row & Hdb1 & Hid & Hh & Ht & Hw & Ha & Hst & Hkt & Hfresh).
  assert (Hk1 : d_keys (c_db c1) = d_keys (c_db c) ++ [row]) by by rewrite Hdb1.
  assert (Hnd1 : NoDup (map kyw_key_id (d_keys (c_db c1)))).
  { rewrite Hk1. apply fresh_snoc; [done|]. apply existsb_false_elem. intros r Hr.
    apply String.eqb_neq. by apply Hfresh. }
  destruct (revoke_prior_run _ _ _ _ _ _ _ _ Hs1 Hnd1 Hrev) as [Hdb2 Hids].
  assert (Hread : ∀ r, r ∈ d_keys (c_db c) → kyw_workspace_id r = rotated_workspace rot →
    ∃ rec, _record_from_row r = Ok rec).
  { unfold _revoke_prior in Hrev. apply bind_Ok_inv in Hrev as (recs & c3 & Hlist & _).
    intros r Hr Hrw. apply (list_keys_readable _ _ _ _ Hlist); [|done]. rewrite Hk1.
    apply elem_of_app. by left. }
  assert (Hids' : ∀ id, id ∈ ids ↔ ∃ r, r ∈ d_keys (c_db c) ∧ superseded rot r = true ∧ kyw_key_id r = id).
  { intros id. rewrite Hids. split.
    - intros (r & rec & Hr & Hrec & Hrid & Hrw & Hne & Hact & Hkeep). exists r.
      rewrite Hk1 in Hr. apply elem_of_app in Hr as [Hr| ->%list_elem_of_singleton]; [|congruence].
      split_and!; [done| |done]. by apply (kept_superseded rot r rec Hrec).
    - intros (r & Hr & Hsup & Hrid).
      assert (Hrw : kyw_workspace_id r = rotated_workspace rot).
      { unfold superseded in Hsup. rewrite !andb_true_iff, String.eqb_eq in Hsup. tauto. }
      destruct (Hread r Hr Hrw) as [rec Hrec]. exists r, rec.
      destruct (proj1 (kept_superseded rot r rec Hrec) Hsup) as (_ & Hact & Hkeep).
      split_and!; try done; [rewrite Hk1; apply elem_of_app; by left|].
      destruct (Hfresh r Hr) as [Hne _]. congruence. }
  assert (Hmem : ∀ id, existsb (String.eqb id) ids = true ↔ id ∈ ids).
  { intros id. rewrite existsb_exists. setoid_rewrite String.eqb_eq. rewrite list_elem_of_In. naive_solver. }
  exists (retire_ids now ids (d_keys (c_db c1))). split; [by rewrite Hdb2, Hdb1|]. split; [|done].
  exists row. rewrite Hk1. split; [|by split_and!].
  apply retire_ids_superseded.
  - intros r Hr. apply eq_true_iff_eq. rewrite Hmem, Hids'. split.
    + intros (r' & Hr' & Hsup & Hrid). assert (r' = r) as ->; [|done].
      by apply (keyed_value kyw_key_id (d_keys (c_db c))).
    + intros Hsup. by exists r.
  - apply not_true_is_false. rewrite Hmem, Hids'. intros (r & Hr & _ & Hrid).
    by destruct (Hfresh r Hr).
Qed.

(** The event of a rotation names what was rotated, the new key and who did it. *)
Definition tells_rotation (rot : rotation) (result : RotationResult) (principal : option string)
    (event : ControlInput) : Prop :=
  ci_event_type event = EVENT_KEY_ROTATED ∧ ci_workspace_id event = rotated_workspace rot ∧
  ci_agent_id event = default "" (rotated_holder rot) ∧
  ci_resource event = "key/" ^+ rotated_kind rot ^+ "/" ^+ ro_new_key_id result ∧
  ci_reason event = "revoked=" ^+ pretty (Z.of_nat (length (ro_revoked_key_ids result))) ∧
  ci_enforcing_principal event = principal.
(** A rotation is exact and atomic.  From an idle connection it either raises,
    with the database and the sink untouched, or returns the new raw key only
    after having committed at once: one new active key, stored by the hash of the
    raw key, of the kind, workspace and holder asked for; the revocation of every
    key of that kind, workspace and holder that was active, whose ids it reports,
    and of no other key, every other key being left as it was; and exactly one
    control event, which names the rotation and the principal. *)
Theorem key_rotation_exact auditor service clock rot now principal c r c' :
  idle c → l_depth (c_local c) = O → keys_unique (c_db c) →
  run_rotation auditor service clock rot now principal c = (r, c') →
  idle c' ∧
  match r with
  | Ok result => ∃ rows event id h,
      rotated rot now result (d_keys (c_db c)) rows ∧ tells_rotation rot result principal event ∧
      appended (build_control_audit_event event id) (t_set keys_table rows (c_db c)) (c_db c') ∧
      c_sink c' = c_sink c ++ [h]
  | Raise _ => c_db c' = c_db c ∧ c_sink c' = c_sink c
  end.
Proof.
  intros Hi Hd Hu. destruct (rotation_shape auditor service clock rot now principal) as (prefix & action & ->).
  unfold rotate_kind. destruct (require_bound_to auditor service) as [[]|e]; [|by intros [= <- <-]].
  rewrite (bind_run (lift (Ok tt)) _ c tt c eq_refl). cbv beta.
  rewrite key_transaction_idle by done. set (m := _ ≫= _). intros Hrun.
  assert (Hin : keeps inside m) by (subst m; key_inside).
  destruct (atomic_write_outcome m c r c' Hin Hi Hrun) as [Hi' Hout].
  split; [done|]. destruct r as [result|e]; [|done].
  destruct Hout as (c0 & c1 & emitted & Hdb & Hs & Hsc & Hloc & Hbody & Hdb' & Hsc1 & Hsink).
  apply bind_Ok_inv in Hbody as (created & ca & Hcreate & Hbody).
  apply bind_Ok_inv in Hbody as (ids & cb & Hrev & Hbody).
  apply bind_Ok_inv in Hbody as ([] & cd & Hrec & [= <- <-]).
  pose proof (create_body clock (λ _, True) prefix (rotated_kind rot) (rotated_workspace rot)
    (rotated_holder rot) None (Some now) None c0 _ Hs I) as Hst.
  rewrite Hcreate in Hst. cbn [snd] in Hst. destruct Hst as (Hsa & Hla & Hsca & _).
  pose proof (revoke_prior_body clock (λ _, True) (rotated_workspace rot) (lk_key_id (ck_record created))
    (of_kind (rotated_kind rot) (rotated_holder rot)) now ca _ Hsa I) as Hst.
  rewrite Hrev in Hst. cbn [snd] in Hst. destruct Hst as (Hsb & Hlb & Hscb & _).
  assert (Hu0 : keys_unique (c_db c0)) by by rewrite Hdb.
  destruct (rotation_keys clock prefix rot now c0 created ca ids cb Hu0 ltac:(by rewrite Hs) Hcreate
    ltac:(by rewrite Hsa) Hrev) as (rows & Hdbb & Hrot & Hkt).
  destruct (record_run _ cb _ _ ltac:(by rewrite Hsb) ltac:(by rewrite (proj1 Hlb), (proj1 Hla), Hloc) Hrec)
    as (id & h & Ha & Hscd).
  rewrite Hscb, Hsca, Hsc, Hsc1 in Hscd. injection Hscd as ->.
  eexists rows, _, id, h. rewrite Hdb'. rewrite Hdbb, Hdb in Ha. rewrite Hdb in Hrot.
  split_and!; [exact Hrot| |exact Ha|exact Hsink].
  unfold tells_rotation. cbn. rewrite Hkt. done.
Qed.

(** Revoking a key with its event.  From an idle connection the operation
    raises and changes nothing, or returns.  For an unknown key it returns nothing,
    and for a revoked one its record, having written nothing; otherwise it has
    committed together the revocation of that key alone and one control event that
    names the key, its workspace and the principal. *)
Theorem revoke_local_key_audited auditor service clock id now principal c r c' :
  idle c → l_depth (c_local c) = O → keys_unique (c_db c) →
  revoke_local_key clock auditor service id now principal c = (r, c') →
  idle c' ∧
  match r with
  | Ok None => c_db c' = c_db c ∧ c_sink c' = c_sink c ∧ (∀ row, row ∈ d_keys (c_db c) → kyw_key_id row ≠ id)
  | Ok (Some record) => ∃ row, row ∈ d_keys (c_db c) ∧ kyw_key_id row = id ∧
      if kyw_status row == "revoked" then c_db c' = c_db c ∧ c_sink c' = c_sink c
      else ∃ event eid h,
        ci_event_type event = EVENT_KEY_REVOKED ∧ ci_workspace_id event = kyw_workspace_id row ∧
        ci_resource event = "key/" ^+ kyw_key_type row ^+ "/" ^+ id ∧
        ci_enforcing_principal event = principal ∧
        appended (build_control_audit_event event eid)
          (t_set keys_table (map (λ r, if kyw_key_id r == id then kyw_revoked r (isoformat now) else r)
             (d_keys (c_db c))) (c_db c)) (c_db c') ∧
        c_sink c' = c_sink c ++ [h]
  | Raise _ => c_db c' = c_db c ∧ c_sink c' = c_sink c
  end.
Proof.
  intros Hi Hd [Hu _]. unfold revoke_local_key.
  destruct (require_bound_to auditor service) as [[]|e]; [|by intros [= <- <-]].
  rewrite (bind_run (lift (Ok tt)) _ c tt c eq_refl). cbv beta.
  rewrite key_transaction_idle by done. set (m := _ ≫= _). intros Hrun.
  assert (Hin : keeps inside m) by (subst m; key_inside).
  destruct (atomic_write_outcome m c r c' Hin Hi Hrun) as [Hi' Hout].
  split; [done|]. destruct r as [result|e]; [|done].
  destruct Hout as (c0 & c1 & emitted & Hdb & Hs & Hsc & Hloc & Hbody & Hdb' & Hsc1 & Hsink).
  apply bind_Ok_inv in Hbody as (existing & ca & [-> Hget]%key_get_run & Hbody). rewrite Hdb in Hget.
  assert (Hsame : c_scopes c1 = c_scopes c0 → c_sink c' = c_sink c).
  { intros He. rewrite He, Hsc in Hsc1. injection Hsc1 as <-. by rewrite app_nil_r in Hsink. }
  destruct existing as [rec|]; [|injection Hbody as <- <-; split_and!; [congruence|by apply Hsame|done]].
  destruct Hget as (row & Hrow & Hid & (_ & Hkt & Hkw & _ & Hks)).
  rewrite Hks in Hbody. destruct (kyw_status row == "revoked") eqn:Hrv.
  { injection Hbody as <- <-. exists row. rewrite Hrv. split_and!; [done|done|congruence|by apply Hsame]. }
  apply bind_Ok_inv in Hbody as (o & cb & Hrev & Hbody).
  apply bind_Ok_inv in Hbody as ([] & cd & Hrec & [= <- <-]). subst id.
  pose proof (revoke_body clock (λ _, True) (kyw_key_id row) (Some now) c0 _ Hs I) as Hst.
  rewrite Hrev in Hst. cbn [snd] in Hst. destruct Hst as (Hsb & Hlb & Hscb & _).
  destruct (revoke_key_run clock now row c0 o cb ltac:(by rewrite Hs) ltac:(by rewrite Hdb)
    ltac:(by rewrite Hdb) (proj1 (String.eqb_neq _ _) Hrv) Hrev) as [[record ->] Hdbb].
  destruct (record_run _ cb _ _ ltac:(by rewrite Hsb) ltac:(by rewrite (proj1 Hlb), Hloc) Hrec)
    as (eid & h & Ha & Hscd).
  rewrite Hscb, Hsc, Hsc1 in Hscd. injection Hscd as ->. rewrite Hdbb, Hdb in Ha.
  exists row. rewrite Hrv. split_and!; [done|done|]. eexists _, eid, h. rewrite Hdb'.
  split_and!; [..|exact Ha|exact Hsink]; cbn; congruence.
Qed.

(** ** Samples *)

Definition sample_key (status : string) : key_row :=
  mkKeyRow "lkey_1" "agent" "ws" (Some "agent") (_hash_key "aak_secret") "aak_" status
    "1970-01-01T00:00:00+00:00" None None.
Definition keyed_db (rows : list key_row) : Db := t_set keys_table rows empty_db.
Lemma keyed_unique row : keys_unique (keyed_db [row]).
Proof. split; apply NoDup_singleton. Qed.

Lemma key_revocation_final_witness :
  let c := opened (keyed_db [sample_key "revoked"]) in
  let ops := [(0, LookUpKey "aak_secret" (Some 0) true);
              (0, RotateAgentKey "ws" "agent" 0 (Some "alice"))] in
  admitted_kinds 0 "aak_secret" (Some 0) (run_key_ops (Some 0%nat) (Some 0%nat) ops c) = [].
Proof.
  exact (proj2 (key_revocation_final (Some 0%nat) (Some 0%nat)
    [(0, LookUpKey "aak_secret" (Some 0) true); (0, RotateAgentKey "ws" "agent" 0 (Some "alice"))]
    (opened (keyed_db [sample_key "revoked"])) "aak_secret" (sample_key "revoked")
    (opened_idle _) (keyed_unique _) ltac:(by left) eq_refl eq_refl) 0 (Some 0)).
Defined.
Lemma key_rotation_exact_witness :
  let c := opened (keyed_db [sample_key "active"]) in
  ∃ result c' rows, run_rotation (Some 0%nat) (Some 0%nat) 0 (OfAgent "ws" "agent") 0 (Some "alice") c =
    (Ok result, c') ∧ rotated (OfAgent "ws" "agent") 0 result [sample_key "active"] rows ∧
    ro_revoked_key_ids result = ["lkey_1"].
Proof.
  cbv zeta. set (c := opened _). set (run := run_rotation _ _ _ _ _ _).
  assert (Hr : match (run c).1 with Ok x => ro_revoked_key_ids x = ["lkey_1"] | Raise _ => False end)
    by (by vm_compute).
  destruct (run c) as [[result|e] c'] eqn:Hrun; [|exfalso; exact Hr].
  destruct (key_rotation_exact (Some 0%nat) (Some 0%nat) 0 (OfAgent "ws" "agent") 0 (Some "alice") c
    (Ok result) c' (opened_idle _) eq_refl (keyed_unique _) Hrun) as [_ (rows & _ & _ & _ & Hrot & _)].
  exists result, c', rows. split; [done|]. split; [exact Hrot|exact Hr].
Defined.
Lemma revoke_local_key_audited_witness :
  let c := opened (keyed_db [sample_key "active"]) in
  ∃ record c', revoke_local_key 0 (Some 0%nat) (Some 0%nat) "lkey_1" 0 (Some "alice") c =
    (Ok (Some record), c') ∧ ∃ row h, row ∈ d_keys (c_db c) ∧ c_sink c' = c_sink c ++ [h].
Proof.
  cbv zeta. set (c := opened _). set (run := revoke_local_key _ _ _ _ _ _).
  assert (Hr : match (run c).1 with Ok (Some _) => True | _ => False end) by (by vm_compute).
  destruct (run c) as [[[record|]|e] c'] eqn:Hrun; [|exfalso; exact Hr..]. exists record, c'. split; [done|].
  destruct (revoke_local_key_audited (Some 0%nat) (Some 0%nat) 0 "lkey_1" 0 (Some "alice") c
    (Ok (Some record)) c' (opened_idle _) eq_refl (keyed_unique _) Hrun) as [_ (row & Hin & _ & Hout)].
  apply list_elem_of_singleton in Hin as ->. destruct Hout as (event & eid & h & _ & _ & _ & _ & _ & Hk).
  exists (sample_key "active"), h. split; [by left|exact Hk].
Defined.
