(* ===== verification/PolicyFiles.v ===== *)
(** * Policy files ([src/vinctor_service/policy_files.py])

    A policy document declares the issuable bounds, the auto-approval rules and
    the boundary mandate of a workspace.  Applying one, and rolling back to an
    earlier version, are single transactions with one control event; each
    records a version with a snapshot of the state it leaves.

    A document is what the YAML loader makes of the file: a JSON-like value whose
    mappings have string keys (YAML dates and floats are not modelled; a field
    that holds one is refused like any other value of a wrong type).
    [isdigit_unicode], [int_unicode] and [lower_unicode] are what [str.isdigit],
    [int] and [str.lower] give on a string with non-ASCII characters. *)
From S2P Require Import Prelude PyStr PyDict PyTime Scope Models ServiceModels CoreAudit.
From S2P Require Import Sha256 Pop Repositories World Grants AutoApproval AuditChain Json.
From S2P Require Import SqlTxn SqlRows SqlStore ControlPlane.

Definition EVENT_POLICY_APPLIED := "policy_applied".
Definition EVENT_POLICY_ROLLED_BACK := "policy_rolled_back".

Record PolicyApplyResult := mkPolicyApplyResult {
  pa_workspace_id : string;
  pa_bounds_set : Z;
  pa_rules_created : Z;
  pa_rules_updated : Z;
  pa_policy_version : Z
}.
Record PolicyVersionInfo := mkPolicyVersionInfo {
  pv_workspace_id : string;
  pv_version : Z;
  pv_action : string;
  pv_source_version : option Z;
  pv_applied_by : string;
  pv_created_at : Z
}.
Record PolicyRollbackResult := mkPolicyRollbackResult {
  pr_workspace_id : string;
  pr_restored_version : Z;
  pr_policy_version : Z
}.

(** ** Values of a document *)

(** [mapping[field]] *)
Definition jitem (m : mapping) (field : string) : result json :=
  match dget field m with Some v => Ok v | None => Raise (KeyError field) end.
(** [v == 1]: a bool is an int. *)
Definition is_one (v : json) : bool :=
  match v with JInt z => z =? 1 | JBool b => b | _ => false end.
(** [isinstance(v, int)], and its value. *)
Definition as_int (v : json) : option Z :=
  match v with JInt z => Some z | JBool b => Some (Z.b2z b) | _ => None end.
Definition json_in (v : json) (names : list string) : result bool :=
  match v with
  | JStr s => Ok (existsb (String.eqb s) names)
  | JList _ | JObj _ => Raise (TypeError "unhashable type")
  | _ => Ok false
  end.

Definition _mapping (value : json) (label : string) : result mapping :=
  match value with
  | JObj m => Ok m
  | _ => Raise (ValueError (label ^+ " must be a mapping"))
  end.
(** [sorted(set(mapping) - allowed)[0]] is refused. *)
Definition _reject_extra (m : mapping) (allowed : list string) (label : string) : result unit :=
  match extra_fields m allowed with
  | extra :: _ => Raise (ValueError ("unexpected " ^+ label ^+ " field: " ^+ extra))
  | [] => Ok tt
  end.
Definition _required_string (m : mapping) (field : string) : result string :=
  match jget field m with
  | JStr s => if s == "" then Raise (ValueError (field ^+ " must be a non-empty string")) else Ok s
  | _ => Raise (ValueError (field ^+ " must be a non-empty string"))
  end.
Definition _optional_string (m : mapping) (field : string) : result (option string) :=
  match jget field m with
  | JNull => Ok None
  | JStr s => if s == "" then Raise (ValueError (field ^+ " must be a non-empty string when provided"))
              else Ok (Some s)
  | _ => Raise (ValueError (field ^+ " must be a non-empty string when provided"))
  end.
Definition _required_list (m : mapping) (field : string) : result (list json) :=
  match jget field m with
  | JNull => Ok []
  | JList l => Ok l
  | _ => Raise (ValueError (field ^+ " must be a list"))
  end.
Definition nonempty_string (field : string) (item : json) : result string :=
  match item with
  | JStr s => if s == "" then Raise (ValueError (field ^+ " must contain only non-empty strings"))
              else Ok s
  | _ => Raise (ValueError (field ^+ " must contain only non-empty strings"))
  end.
Definition _required_string_list (m : mapping) (field : string) : result (list string) :=
  match jget field m with
  | JList (x :: l) => mapM (nonempty_string field) (x :: l)
  | _ => Raise (ValueError (field ^+ " must be a non-empty list"))
  end.

Section policy.
Context (isdigit_unicode : string → bool) (int_unicode : string → result Z)
  (lower_unicode : string → string).

(** ** Durations *)

Definition py_isdigit (s : string) : bool :=
  if isascii s then negb (s == "") && all_chars is_digit s else isdigit_unicode s.
Definition duration_unit (suffix : ascii) : option Z :=
  if Ascii.eqb suffix "s" then Some 1
  else if Ascii.eqb suffix "m" then Some 60
  else if Ascii.eqb suffix "h" then Some 3600
  else None.
(** [raw[:-1], raw[-1]] of a string of at least one character. *)
Fixpoint split_last (c : ascii) (s : string) : string * ascii :=
  match s with
  | EmptyString => ("", c)
  | String d s' => let '(init, lst) := split_last d s' in (String c init, lst)
  end.
Definition _duration_string_seconds (raw : string) : result Z :=
  match raw with
  | EmptyString => Raise (KeyError "string index out of range")
  | String c s =>
      let '(number, suffix) := split_last c s in
      match duration_unit suffix with
      | Some unit =>
          if py_isdigit number then n ← py_int int_unicode number; Ok (n * unit)
          else Raise (ValueError ("invalid max_ttl duration: " ^+ raw))
      | None => Raise (ValueError ("invalid max_ttl duration: " ^+ raw))
      end
  end.
Definition positive_seconds (value : json) : result Z :=
  match value with
  | JInt z => if z <=? 0 then Raise (ValueError "max_ttl_seconds must be a positive integer") else Ok z
  | _ => Raise (ValueError "max_ttl_seconds must be a positive integer")
  end.
Definition _duration_seconds (m : mapping) : result Z :=
  match dget "max_ttl_seconds" m with
  | Some value => positive_seconds value
  | None =>
      match jget "max_ttl" m with
      | JStr raw => if raw == "" then Raise (ValueError "rule must set max_ttl or max_ttl_seconds")
                    else _duration_string_seconds raw
      | _ => Raise (ValueError "rule must set max_ttl or max_ttl_seconds")
      end
  end.

(** ** Entries *)

(** An absent cap is preserved, a null one is cleared, a value sets it. *)
Definition _bounds_max_ttl (m : mapping) : result (bool * option Z) :=
  if din "max_ttl" m && din "max_ttl_seconds" m
  then Raise (ValueError "agent_bounds entry must not set both max_ttl and max_ttl_seconds")
  else
    match dget "max_ttl_seconds" m with
    | Some JNull => Ok (true, None)
    | Some value => z ← positive_seconds value; Ok (true, Some z)
    | None =>
        match dget "max_ttl" m with
        | Some JNull => Ok (true, None)
        | Some (JStr raw) =>
            if raw == "" then Raise (ValueError ("invalid max_ttl duration: " ^+ raw))
            else z ← _duration_string_seconds raw; Ok (true, Some z)
        | Some _ => Raise (ValueError "invalid max_ttl duration: not a string")
        | None => Ok (false, None)
        end
    end.
Record ParsedBounds := mkParsedBounds {
  pb_agent_id : string;
  pb_scopes : list string;
  pb_max_ttl_declared : bool;
  pb_max_ttl_seconds : option Z
}.
Definition _parse_bounds_entry (entry : json) : result ParsedBounds :=
  m ← _mapping entry "agent_bounds entry";
  _ ← _reject_extra m ["agent_id"; "scopes"; "max_ttl"; "max_ttl_seconds"] "agent_bounds entry";
  agent_id ← _required_string m "agent_id";
  scopes ← _required_string_list m "scopes";
  ttl ← _bounds_max_ttl m;
  Ok (mkParsedBounds agent_id scopes ttl.1 ttl.2).

Record ParsedRule := mkParsedRule {
  pl_rule_id : option string;
  pl_name : string;
  pl_target_agent_id : string;
  pl_allowed_scopes : list string;
  pl_max_ttl_seconds : Z;
  pl_status : string
}.
Definition RULE_FIELDS : list string :=
  ["rule_id"; "name"; "target_agent_id"; "allowed_scopes"; "max_ttl"; "max_ttl_seconds"; "status"].
Definition _parse_rule_entry (entry : json) : result ParsedRule :=
  m ← _mapping entry "auto_approval_rules entry";
  _ ← _reject_extra m RULE_FIELDS "auto_approval_rules entry";
  if din "max_ttl" m && din "max_ttl_seconds" m
  then Raise (ValueError "rule must not set both max_ttl and max_ttl_seconds")
  else
    let status := default (JStr "active") (dget "status" m) in
    known ← json_in status ["active"; "disabled"];
    match status with
    | JStr status =>
        if negb known then Raise (ValueError "rule status must be active or disabled")
        else
          rule_id ← _optional_string m "rule_id";
          name ← _required_string m "name";
          target_agent_id ← _required_string m "target_agent_id";
          allowed_scopes ← _required_string_list m "allowed_scopes";
          max_ttl_seconds ← _duration_seconds m;
          Ok (mkParsedRule rule_id name target_agent_id allowed_scopes max_ttl_seconds status)
    | _ => Raise (ValueError "rule status must be active or disabled")
    end.

Record ParsedRequireBoundary := mkParsedRequireBoundary {
  pq_workspace : option bool;
  pq_agents : list string
}.
Definition boundary_agent (item : json) : result string :=
  match item with
  | JStr s => if s == "" then Raise (ValueError "require_boundary agents must contain only non-empty strings")
              else Ok s
  | _ => Raise (ValueError "require_boundary agents must contain only non-empty strings")
  end.
Definition _parse_require_boundary (document : mapping) : result ParsedRequireBoundary :=
  match jget "require_boundary" document with
  | JNull => Ok (mkParsedRequireBoundary None [])
  | raw =>
      m ← _mapping raw "require_boundary";
      _ ← _reject_extra m ["workspace"; "agents"] "require_boundary";
      workspace ← match dget "workspace" m with
                  | None => Ok None
                  | Some (JBool b) => Ok (Some b)
                  | Some _ => Raise (ValueError "require_boundary workspace must be a boolean")
                  end;
      agents ← match dget "agents" m with
               | None => Ok []
               | Some (JList l) => mapM boundary_agent l
               | Some _ => Raise (ValueError "require_boundary agents must be a list")
               end;
      Ok (mkParsedRequireBoundary workspace agents)
  end.

(** ** The document *)

Definition POLICY_FIELDS : list string :=
  ["version"; "workspace_id"; "agent_bounds"; "auto_approval_rules"; "require_boundary"].
(** [loaded] is what reading and parsing the file gave. *)
Definition _load_policy_document (loaded : result json) : result mapping :=
  loaded ← loaded;
  match loaded with
  | JObj m =>
      if din "proposed" m
      then Raise (ValueError "this is a proposal document; review and author a policy file")
      else
        match extra_fields m POLICY_FIELDS with
        | extra :: _ => Raise (ValueError ("unexpected policy field: " ^+ extra))
        | [] =>
            if negb (is_one (jget "version" m)) then Raise (ValueError "policy version must be 1")
            else if negb (din "agent_bounds" m || din "auto_approval_rules" m
                          || din "require_boundary" m)
            then Raise (ValueError "policy file must contain agent_bounds, auto_approval_rules, or require_boundary")
            else Ok m
        end
  | _ => Raise (ValueError "policy file must contain a mapping")
  end.

(** [re.sub(r"[^a-z0-9]+", "_", name.lower()).strip("_") or "rule"] *)
Definition slug_char (c : ascii) : bool := char_between "a" "z" c || char_between "0" "9" c.
Fixpoint collapse (pending : bool) (s : string) : string :=
  match s with
  | EmptyString => if pending then "_" else ""
  | String c s' =>
      if slug_char c then (if pending then "_" else "") ^+ String c (collapse false s')
      else collapse true s'
  end.
Definition lower_char (c : ascii) : ascii :=
  if char_between "A" "Z" c then ascii_of_N (N_of_ascii c + 32) else c.
Fixpoint lower_ascii (s : string) : string :=
  match s with EmptyString => "" | String c s' => String (lower_char c) (lower_ascii s') end.
Definition py_lower (s : string) : string :=
  if isascii s then lower_ascii s else lower_unicode s.
(** [.strip("_")], of a string with no two underscores in a row. *)
Definition strip_underscores (s : string) : string :=
  let s := match s with String c s' => if Ascii.eqb c "_" then s' else s | EmptyString => s end in
  match s with
  | EmptyString => s
  | String c s' => let '(init, lst) := split_last c s' in if Ascii.eqb lst "_" then init else s
  end.
Definition _stable_rule_id (workspace_id name target_agent_id : string) (scopes : list string) :
    string :=
  let slug := strip_underscores (collapse false (py_lower name)) in
  let slug := if slug == "" then "rule" else slug in
  let digest := String.substring 0 8 (sha256_hex (join "|" [workspace_id; name; target_agent_id; join "," scopes])) in
  "apr_" ^+ String.substring 0 32 slug ^+ "_" ^+ digest.

Example slug_example :
  strip_underscores (collapse false (lower_ascii "  Docs: Read-Only! ")) = "docs_read_only".
Proof. reflexivity. Qed.

(** ** Snapshots *)

Definition json_opt_str (o : option string) : json := match o with Some s => JStr s | None => JNull end.
Definition json_opt_int (o : option Z) : json := match o with Some z => JInt z | None => JNull end.
Definition bound_entry (row : bounds_row) : result json :=
  scopes ← loads (bdw_scopes_json row);
  Ok (JObj [("agent_id", JStr (bdw_agent_id row)); ("scopes", scopes);
            ("max_ttl_seconds", json_opt_int (bdw_max_ttl_seconds row));
            ("updated_at", JStr (bdw_updated_at row))]).
Definition rule_entry (row : rule_row) : result json :=
  scopes ← loads (rlw_allowed_scopes_json row);
  Ok (JObj [("rule_id", JStr (rlw_rule_id row)); ("name", JStr (rlw_name row));
            ("target_agent_id", JStr (rlw_target_agent_id row)); ("allowed_scopes", scopes);
            ("max_ttl_seconds", JInt (rlw_max_ttl_seconds row)); ("status", JStr (rlw_status row));
            ("created_by", JStr (rlw_created_by row)); ("created_at", JStr (rlw_created_at row));
            ("updated_by", json_opt_str (rlw_updated_by row));
            ("updated_at", json_opt_str (rlw_updated_at row))]).
Definition setting_entry (row : settings_row) : json :=
  JObj [("agent_id", JStr (stw_agent_id row)); ("require_boundary", JBool (stw_require_boundary row));
        ("updated_at", JStr (stw_updated_at row))].
Definition snapshot_of (workspace_id : string) (db : Db) : result json :=
  bounds ← mapM bound_entry (workspace_bounds workspace_id (d_bounds db));
  rules ← mapM rule_entry (workspace_rules workspace_id (d_rules db));
  Ok (JObj [("version", JInt 1); ("agent_bounds", JList bounds); ("auto_approval_rules", JList rules);
            ("require_boundary_settings",
             JList (map setting_entry (boundary_settings workspace_id (d_settings db))))]).
(** Its three queries run in the caller's transaction. *)
Definition _snapshot_policy_state (workspace_id : string) : M Store json :=
  snapshot ← query (snapshot_of workspace_id); lift snapshot.

Definition check (ok : bool) (message : string) : result unit :=
  if ok then Ok tt else Raise (ValueError message).
Definition positive (o : option Z) : bool := match o with Some z => 0 <? z | None => false end.
Definition validate_bound (raw : json) : result unit :=
  entry ← _mapping raw "policy snapshot bound";
  scopes ← _required_string_list entry "scopes";
  let max_ttl := jget "max_ttl_seconds" entry in
  _ ← match max_ttl with
      | JNull => Ok tt
      | _ => check (positive (as_int max_ttl)) "invalid policy snapshot bound max_ttl_seconds"
      end;
  _ ← validate_issuable_scope_bounds scopes (as_int max_ttl);
  _ ← _required_string entry "agent_id";
  _ ← _required_string entry "updated_at";
  Ok tt.
Definition optional_text (entry : mapping) (field : string) : result unit :=
  match jget field entry with JNull => Ok tt | _ => _ ← _required_string entry field; Ok tt end.
Definition validate_rule_entry (raw : json) : result unit :=
  entry ← _mapping raw "policy snapshot rule";
  _ ← mapM (_required_string entry) ["rule_id"; "name"; "target_agent_id"; "created_by"; "created_at"];
  scopes ← _required_string_list entry "allowed_scopes";
  _ ← check (forallb is_valid_grant_scope scopes) "invalid policy snapshot rule scope";
  _ ← check (positive (as_int (jget "max_ttl_seconds" entry)))
        "invalid policy snapshot rule max_ttl_seconds";
  known ← json_in (jget "status" entry) ["active"; "disabled"];
  _ ← check known "invalid policy snapshot rule status";
  _ ← optional_text entry "updated_by";
  optional_text entry "updated_at".
Definition validate_setting (raw : json) : result unit :=
  entry ← _mapping raw "policy snapshot boundary setting";
  _ ← check (match jget "agent_id" entry with JStr _ => true | _ => false end)
        "invalid policy snapshot boundary agent_id";
  _ ← check (match jget "require_boundary" entry with JBool _ => true | _ => false end)
        "invalid policy snapshot require_boundary";
  _ ← _required_string entry "updated_at";
  Ok tt.
Definition _validated_policy_snapshot (value : json) : result mapping :=
  snapshot ← _mapping value "policy snapshot";
  if negb (is_one (jget "version" snapshot))
  then Raise (ValueError "unsupported policy snapshot version")
  else
    bounds ← _required_list snapshot "agent_bounds";
    rules ← _required_list snapshot "auto_approval_rules";
    settings ← _required_list snapshot "require_boundary_settings";
    _ ← mapM validate_bound bounds;
    _ ← mapM validate_rule_entry rules;
    _ ← mapM validate_setting settings;
    Ok snapshot.

(** *** Restoring one *)

(** Binding a value of the snapshot to a TEXT or INTEGER column. *)
Definition bind_text (v : json) : result string :=
  match v with JStr s => Ok s | _ => Raise (StorageError "NOT NULL or unsupported value") end.
Definition bind_opt_text (v : json) : result (option string) :=
  match v with JNull => Ok None | _ => s ← bind_text v; Ok (Some s) end.
Definition bind_number (v : json) : result Z :=
  match as_int v with Some z => bind_int z | None => Raise (StorageError "NOT NULL or unsupported value") end.
Definition bind_opt_number (v : json) : result (option Z) :=
  match v with JNull => Ok None | _ => z ← bind_number v; Ok (Some z) end.
Definition members (v : json) : result (list json) :=
  match v with JList l => Ok l | _ => Raise (TypeError "object is not iterable") end.
Definition json_truthy (v : json) : bool :=
  match v with
  | JNull => false
  | JBool b => b
  | JInt z => negb (z =? 0)
  | JStr s => negb (s == "")
  | JList l => match l with [] => false | _ => true end
  | JObj m => match m with [] => false | _ => true end
  end.
Definition entry_of (v : json) : result mapping :=
  match v with JObj m => Ok m | _ => Raise (TypeError "object is not subscriptable") end.

Definition snapshot_bounds_row (workspace_id : string) (raw : json) : result bounds_row :=
  entry ← entry_of raw;
  agent_id ← jitem entry "agent_id" ≫= bind_text;
  scopes ← jitem entry "scopes";
  max_ttl ← jitem entry "max_ttl_seconds" ≫= bind_opt_number;
  updated_at ← jitem entry "updated_at" ≫= bind_text;
  Ok (mkBoundsRow workspace_id agent_id (dumps false scopes) max_ttl updated_at).
Definition snapshot_rule_row (workspace_id : string) (raw : json) : result rule_row :=
  entry ← entry_of raw;
  rule_id ← jitem entry "rule_id" ≫= bind_text;
  name ← jitem entry "name" ≫= bind_text;
  target_agent_id ← jitem entry "target_agent_id" ≫= bind_text;
  scopes ← jitem entry "allowed_scopes";
  ttl ← jitem entry "max_ttl_seconds" ≫= bind_number;
  status ← jitem entry "status" ≫= bind_text;
  created_by ← jitem entry "created_by" ≫= bind_text;
  created_at ← jitem entry "created_at" ≫= bind_text;
  updated_by ← jitem entry "updated_by" ≫= bind_opt_text;
  updated_at ← jitem entry "updated_at" ≫= bind_opt_text;
  Ok (mkRuleRow rule_id workspace_id name target_agent_id (dumps false scopes) ttl status created_by
        created_at updated_by updated_at).
Definition insert_bounds_row (row : bounds_row) : M Store unit :=
  statement bounds_table (λ rows,
    if existsb (bdw_hit (bdw_workspace_id row) (bdw_agent_id row)) rows
    then Raise (integrity_error "agent_issuable_scope_bounds") else Ok (tt, rows ++ [row])).
Definition insert_rule_row (row : rule_row) : M Store unit :=
  statement rules_table (λ rows,
    if existsb (λ r, rlw_rule_id r == rlw_rule_id row) rows
    then Raise (integrity_error "auto_approval_rules.rule_id") else Ok (tt, rows ++ [row])).
(** Rows that the DELETE of the restore removes: [agents] have a saved setting. *)
Definition dropped_setting (workspace_id : string) (agents : list string) (row : settings_row) : bool :=
  (stw_workspace_id row == workspace_id)
  && negb (existsb (String.eqb (stw_agent_id row)) agents)
  && negb (stw_require_boundary_set row)
  && negb (stw_require_subject_token row)
  && negb (stw_require_pop row).
Definition unset_boundary (updated_at : string) (row : settings_row) : settings_row :=
  let '(mkSettingsRow ws ag b _ t ts p ps _) := row in
  mkSettingsRow ws ag b false t ts p ps updated_at.

Section restore.
Context (require_boundary_default : bool).

Definition _restore_policy_snapshot (workspace_id : string) (snapshot : mapping) (now : Z) :
    M Store unit :=
  _ ← statement bounds_table (λ rows, Ok (tt,
        List.filter (λ row, negb (bdw_workspace_id row == workspace_id)) rows));
  bounds ← lift (jitem snapshot "agent_bounds" ≫= members);
  _ ← for_each (λ raw, row ← lift (snapshot_bounds_row workspace_id raw); insert_bounds_row row) bounds;
  _ ← statement rules_table (λ rows, Ok (tt,
        List.filter (λ row, negb (rlw_workspace_id row == workspace_id)) rows));
  rules ← lift (jitem snapshot "auto_approval_rules" ≫= members);
  _ ← for_each (λ raw, row ← lift (snapshot_rule_row workspace_id raw); insert_rule_row row) rules;
  settings ← lift (jitem snapshot "require_boundary_settings" ≫= members);
  at_ ← lift (bind_datetime now);
  _ ← statement settings_table (λ rows, Ok (tt,
        map (λ row, if stw_workspace_id row == workspace_id then unset_boundary at_ row else row) rows));
  agents ← lift (mapM (λ raw, entry ← entry_of raw; jitem entry "agent_id" ≫= bind_text) settings);
  _ ← statement settings_table (λ rows, Ok (tt,
        List.filter (λ row, negb (dropped_setting workspace_id agents row)) rows));
  for_each (λ raw,
    entry ← lift (entry_of raw);
    agent_id ← lift (jitem entry "agent_id" ≫= bind_text);
    value ← lift (jitem entry "require_boundary");
    let value := json_truthy value in
    statement settings_table (λ rows, Ok (tt,
      upsert (stw_hit workspace_id agent_id)
        (stw_update RequireBoundary value at_
           (stw_default require_boundary_default workspace_id agent_id at_))
        (stw_update RequireBoundary value at_) rows))) settings.

(** ** Versions *)

Definition vrw_hit (workspace_id : string) (version : Z) (row : version_row) : bool :=
  (vrw_workspace_id row == workspace_id) && (vrw_version row =? version).
(** [SELECT COALESCE(MAX(version), 0)] *)
Definition last_version (workspace_id : string) (rows : list version_row) : Z :=
  match List.filter (λ row, vrw_workspace_id row == workspace_id) rows with
  | [] => 0
  | row :: rows' => foldr (λ r m, Z.max (vrw_version r) m) (vrw_version row) rows'
  end.
Definition _insert_policy_version (workspace_id action : string) (source_version : option Z)
    (applied_by : string) (now : Z) : M Store Z :=
  last ← select versions_table (last_version workspace_id);
  let version := last + 1 in
  snapshot ← _snapshot_policy_state workspace_id;
  row ← lift (number ← bind_int version;
              source ← bind_opt_int source_version;
              created_at ← bind_datetime now;
              Ok (mkVersionRow workspace_id number action source (dumps true snapshot) applied_by
                    created_at));
  _ ← statement versions_table (λ rows,
        if existsb (vrw_hit workspace_id version) rows
        then Raise (integrity_error "policy_versions") else Ok (tt, rows ++ [row]));
  mret version.
Definition list_policy_versions (workspace_id : string) : M Store (list PolicyVersionInfo) :=
  rows ← select versions_table (λ rows,
    py_sorted (λ x y, vrw_version x <=? vrw_version y)
      (List.filter (λ row, vrw_workspace_id row == workspace_id) rows));
  lift (mapM (λ row,
    created_at ← fromisoformat (vrw_created_at row);
    Ok (mkPolicyVersionInfo (vrw_workspace_id row) (vrw_version row) (vrw_action row)
          (vrw_source_version row) (vrw_applied_by row) created_at)) rows).

(** ** Applying a document *)

(** [BEGIN IMMEDIATE] up front, everything inside, one commit. *)
Definition _sqlite_apply_transaction {X} (m : M Store X) : M Store X :=
  atomic_write_deferral (transaction m).

Definition sql_upsert_auto_approval_rule (rule : AutoApprovalRule) : M Store string :=
  _ ← lift (_validate_rule rule);
  existing ← sql_get_rule (aar_rule_id rule);
  match existing with
  | None => _ ← sql_add_rule rule; mret "created"
  | Some existing =>
      if negb (aar_workspace_id existing == aar_workspace_id rule)
      then raise (ValueError "auto-approval rule_id belongs to another workspace")
      else _ ← sql_update_rule rule; mret "updated"
  end.

Definition parse_bounds (entry : json) : result ParsedBounds :=
  parsed ← _parse_bounds_entry entry;
  _ ← validate_issuable_scope_bounds (pb_scopes parsed) (pb_max_ttl_seconds parsed);
  Ok parsed.
Definition prepare_rule (workspace_id applied_by : string) (now : Z) (entry : json) :
    M Store AutoApprovalRule :=
  parsed ← lift (_parse_rule_entry entry);
  match List.filter (λ scope, negb (is_valid_grant_scope scope)) (pl_allowed_scopes parsed) with
  | scope :: _ => raise (ValueError ("invalid allowed scope: " ^+ scope))
  | [] =>
      let rule_id := str_or_else (pl_rule_id parsed)
        (_stable_rule_id workspace_id (pl_name parsed) (pl_target_agent_id parsed)
           (pl_allowed_scopes parsed)) in
      existing ← sql_get_rule rule_id;
      mret {| aar_rule_id := rule_id; aar_workspace_id := workspace_id; aar_name := pl_name parsed;
              aar_target_agent_id := pl_target_agent_id parsed;
              aar_allowed_scopes := pl_allowed_scopes parsed;
              aar_max_ttl_seconds := pl_max_ttl_seconds parsed; aar_status := pl_status parsed;
              aar_created_by := match existing with Some x => aar_created_by x | None => applied_by end;
              aar_created_at := match existing with Some x => aar_created_at x | None => now end;
              aar_updated_by := match existing with Some _ => Some applied_by | None => None end;
              aar_updated_at := match existing with Some _ => Some now | None => None end |}
  end.

(** Everything the document says is read and validated before the first write. *)
Definition _apply_policy_document (document : mapping) (workspace_id applied_by : string) (now : Z) :
    M Store PolicyApplyResult :=
  bounds_entries ← lift (_required_list document "agent_bounds");
  parsed_bounds ← lift (mapM parse_bounds bounds_entries);
  rule_entries ← lift (_required_list document "auto_approval_rules");
  prepared_rules ← mapM (prepare_rule workspace_id applied_by now) rule_entries;
  parsed_require_boundary ← lift (_parse_require_boundary document);
  _ ← for_each (λ parsed,
        sql_set_bounds workspace_id (pb_agent_id parsed) (pb_scopes parsed)
          (pb_max_ttl_seconds parsed)
          (pb_max_ttl_declared parsed && bool_decide (pb_max_ttl_seconds parsed = None)) now
          (Some applied_by)) parsed_bounds;
  actions ← mapM sql_upsert_auto_approval_rule prepared_rules;
  _ ← match pq_workspace parsed_require_boundary with
      | Some value => sql_set_require_boundary require_boundary_default workspace_id "" value now
                        (Some applied_by)
      | None => mret tt
      end;
  _ ← for_each (λ agent_id, sql_set_require_boundary require_boundary_default workspace_id agent_id
        true now (Some applied_by)) (pq_agents parsed_require_boundary);
  policy_version ← _insert_policy_version workspace_id "apply" None applied_by now;
  let created := List.filter (λ action, action == "created") actions in
  mret (mkPolicyApplyResult workspace_id (Z.of_nat (length parsed_bounds))
          (Z.of_nat (length created)) (Z.of_nat (length actions - length created)) policy_version).

Definition policy_applied_event (result : PolicyApplyResult) (workspace_id applied_by : string)
    (now : Z) : ControlInput :=
  {| ci_event_type := EVENT_POLICY_APPLIED; ci_workspace_id := workspace_id;
     ci_action := "policy_apply";
     ci_resource := "policy/version/" ^+ pretty (pa_policy_version result);
     ci_reason := "bounds_set=" ^+ pretty (pa_bounds_set result)
       ^+ " rules_created=" ^+ pretty (pa_rules_created result)
       ^+ " rules_updated=" ^+ pretty (pa_rules_updated result);
     ci_created_at := now; ci_agent_id := ""; ci_scope_attempted := ""; ci_boundary_id := None;
     ci_enforcing_principal := Some applied_by; ci_event_id := None |}.
Definition same_workspace (policy_workspace_id : json) (workspace_id : string) : bool :=
  match policy_workspace_id with JNull => true | JStr ws => ws == workspace_id | _ => false end.
(** [auditor] and [service] are the identities of the two connections. *)
Definition apply_policy_file (loaded : result json) (auditor service : option nat)
    (workspace_id applied_by : string) (now : Z) : M Store PolicyApplyResult :=
  document ← lift (_load_policy_document loaded);
  _ ← lift (check (same_workspace (jget "workspace_id" document) workspace_id)
              "policy workspace_id does not match selected workspace");
  _ ← lift (require_bound_to auditor service);
  _sqlite_apply_transaction (composite (
    result ← _apply_policy_document document workspace_id applied_by now;
    _ ← pending_set (policy_applied_event result workspace_id applied_by now);
    mret result)).

(** ** Rolling back *)

Definition policy_rolled_back_event (new_version version : Z) (workspace_id applied_by : string)
    (now : Z) : ControlInput :=
  {| ci_event_type := EVENT_POLICY_ROLLED_BACK; ci_workspace_id := workspace_id;
     ci_action := "policy_rollback"; ci_resource := "policy/version/" ^+ pretty new_version;
     ci_reason := "restored_version=" ^+ pretty version;
     ci_created_at := now; ci_agent_id := ""; ci_scope_attempted := ""; ci_boundary_id := None;
     ci_enforcing_principal := Some applied_by; ci_event_id := None |}.
Definition rollback_policy_version (auditor service : option nat) (workspace_id : string)
    (version : Z) (applied_by : string) (now : Z) : M Store PolicyRollbackResult :=
  _ ← lift (require_bound_to auditor service);
  _sqlite_apply_transaction (
    row ← select versions_table (List.find (vrw_hit workspace_id version));
    match row with
    | None => raise (ValueError ("unknown policy version: " ^+ pretty version))
    | Some row =>
        snapshot ← lift (value ← loads (vrw_snapshot_json row); _validated_policy_snapshot value);
        _ ← _restore_policy_snapshot workspace_id snapshot now;
        new_version ← _insert_policy_version workspace_id "rollback" (Some version) applied_by now;
        _ ← record (policy_rolled_back_event new_version version workspace_id applied_by now);
        mret (mkPolicyRollbackResult workspace_id version new_version)
    end).

(** ** Exporting the policy in force *)

(** [rows] are the pairs [list_require_boundary] gives. *)
Definition require_boundary_block (rows : list (string * bool)) : mapping :=
  let workspace := List.filter (λ r, r.1 == "") rows in
  let agents := py_sorted String.leb
    (map fst (List.filter (λ r, negb (r.1 == "") && r.2) rows)) in
  match last workspace with Some r => [("workspace", JBool r.2)] | None => [] end
  ++ match agents with [] => [] | _ => [("agents", JList (map JStr agents))] end.
Definition rule_document (rule : AutoApprovalRule) : json :=
  JObj [("rule_id", JStr (aar_rule_id rule)); ("name", JStr (aar_name rule));
        ("target_agent_id", JStr (aar_target_agent_id rule));
        ("allowed_scopes", JList (map JStr (aar_allowed_scopes rule)));
        ("max_ttl", JStr (pretty (aar_max_ttl_seconds rule) ^+ "s"));
        ("status", JStr (aar_status rule))].
Definition bounds_document (agent_id : string) (scopes : list string)
    (issuable : option AgentIssuableBounds) : json :=
  JObj ([("agent_id", JStr agent_id); ("scopes", JList (map JStr scopes))]
        ++ match issuable ≫= ab_max_ttl_seconds with
           | Some ttl => [("max_ttl", JStr (pretty ttl ^+ "s"))]
           | None => []
           end).
Definition export_policy_document (workspace_id : string) : M Store mapping :=
  bounds ← sql_list_bounds_for_workspace workspace_id;
  bounds_entries ← mapM (λ '(agent_id, scopes),
    issuable ← sql_get_bounds_with_max_ttl workspace_id agent_id;
    mret (bounds_document agent_id scopes issuable)) bounds;
  rules ← sql_list_rules_for_workspace workspace_id;
  rows ← sql_list_require_boundary workspace_id;
  mret ([("version", JInt 1); ("workspace_id", JStr workspace_id);
         ("agent_bounds", JList bounds_entries);
         ("auto_approval_rules", JList (map rule_document rules))]
        ++ match rows with
           | [] => []
           | _ => [("require_boundary", JObj (require_boundary_block rows))]
           end).
End restore.
End policy.
