(* ===== verification/PolicyApply.v ===== *)
(** * What applying a policy guarantees ([src/vinctor_service/policy_files.py])

    A document is applied whole, with one control event and one version, or not
    at all; it touches one workspace. *)
From S2P Require Import Prelude PyStr PyDict PyTime Scope Models ServiceModels CoreAudit.
From S2P Require Import Sha256 Pop Repositories World Grants AutoApproval AuditChain Json.
From S2P Require Import SqlTxn SqlRows SqlStore SqlRefine SqlAudit ControlPlane ControlRefine.
From S2P Require Import SqlWithin PolicyFiles.

(** ** One workspace's policy *)

Definition others {R} (ws_of : R → string) (ws : string) (rows : list R) : list R :=
  List.filter (λ row, negb (ws_of row == ws)) rows.
(** Nothing but the bounds, rules, settings and versions of the workspace. *)
Definition elsewhere (ws : string) (db db' : Db) : Prop :=
  others bdw_workspace_id ws (d_bounds db') = others bdw_workspace_id ws (d_bounds db) ∧
  others rlw_workspace_id ws (d_rules db') = others rlw_workspace_id ws (d_rules db) ∧
  others stw_workspace_id ws (d_settings db') = others stw_workspace_id ws (d_settings db) ∧
  others vrw_workspace_id ws (d_versions db') = others vrw_workspace_id ws (d_versions db) ∧
  d_audit db' = d_audit db ∧ d_grants db' = d_grants db ∧ d_boundaries db' = d_boundaries db ∧
  d_requests db' = d_requests db ∧ d_tokens db' = d_tokens db ∧ d_nonces db' = d_nonces db ∧
  d_keys db' = d_keys db.
#[export] Instance elsewhere_preorder ws : PreOrder (elsewhere ws).
Proof.
  split; [by intros db; split_and!|]. intros db1 db2 db3 H12 H23. unfold elsewhere in *.
  destruct_and!. split_and!; congruence.
Qed.
Definition confined (ws : string) (db db' : Db) : Prop :=
  NoDup (map rlw_rule_id (d_rules db)) →
  NoDup (map rlw_rule_id (d_rules db')) ∧ elsewhere ws db db'.
#[export] Instance confined_preorder ws : PreOrder (confined ws).
Proof.
  split; [by intros db Hnd|]. intros db1 db2 db3 H12 H23 Hnd.
  destruct (H12 Hnd) as (Hnd2 & ?). destruct (H23 Hnd2) as (Hnd3 & ?). split; [done|by etrans].
Qed.

Lemma others_upsert {R} (ws_of : R → string) ws hit fresh update rows :
  (∀ row, hit row = true → ws_of row = ws) → ws_of fresh = ws →
  (∀ row, ws_of (update row) = ws_of row) →
  others ws_of ws (upsert hit fresh update rows) = others ws_of ws rows.
Proof.
  intros Hhit Hf Hu. unfold upsert, others. destruct (existsb hit rows).
  - induction rows as [|row rows IH]; [done|]. cbn [map List.filter]. rewrite IH.
    destruct (hit row) eqn:Hrow; [|done]. rewrite Hu, (Hhit _ Hrow), String.eqb_refl. done.
  - rewrite List.filter_app. cbn. rewrite Hf, String.eqb_refl. cbn. apply app_nil_r.
Qed.
Lemma others_snoc {R} (ws_of : R → string) ws rows row : ws_of row = ws →
  others ws_of ws (rows ++ [row]) = others ws_of ws rows.
Proof. intros Hr. unfold others. rewrite List.filter_app. cbn. rewrite Hr, String.eqb_refl. apply app_nil_r. Qed.

Section apply.
Context (isdigit_unicode : string → bool) (int_unicode : string → result Z)
  (lower_unicode : string → string) (require_boundary_default : bool).
Abbreviation apply_document := (_apply_policy_document isdigit_unicode int_unicode lower_unicode
  require_boundary_default).

Lemma hit_workspace ws ag row : bdw_hit ws ag row = true → bdw_workspace_id row = ws.
Proof. unfold bdw_hit. intros [? _]%andb_true_iff. by apply String.eqb_eq. Qed.
Lemma hit_settings_workspace ws ag row : stw_hit ws ag row = true → stw_workspace_id row = ws.
Proof. unfold stw_hit. intros [? _]%andb_true_iff. by apply String.eqb_eq. Qed.
Lemma confined_set_bounds ws ag scopes ttl clear now p :
  keeps (within (confined ws)) (sql_set_bounds ws ag scopes ttl clear now p).
Proof.
  unfold sql_set_bounds, write_bounds. within. intros Hnd. bound_values. simplify_eq/=.
  split; [try done|unfold elsewhere; cbn; split_and!]; try done. by apply others_upsert; [apply hit_workspace|..].
Qed.
Lemma confined_set_mandate m ws ag v now p :
  keeps (within (confined ws)) (sql_set_mandate require_boundary_default m ws ag v now p).
Proof.
  unfold sql_set_mandate, write_setting. within. intros Hnd. simplify_eq/=. split; [try done|unfold elsewhere; cbn; split_and!]; try done.
  apply others_upsert; [apply hit_settings_workspace|by destruct m|by intros []; destruct m].
Qed.
Lemma confined_insert_version guard ws action source by_ now :
  keeps (within_when guard (confined ws)) (_insert_policy_version ws action source by_ now).
Proof.
  unfold _insert_policy_version, _snapshot_policy_state. within.
  intros Hnd. bound_values. simplify_eq/=. destruct (existsb _ _); simplify_eq/=.
  split; [try done|unfold elsewhere; cbn; split_and!]; try done. by apply others_snoc.
Qed.
(** The rule of this id, if any, is the workspace's. *)
Definition owned (ws id : string) (db : Db) : Prop :=
  NoDup (map rlw_rule_id (d_rules db)) ∧
  ∀ row, row ∈ d_rules db → rlw_rule_id row = id → rlw_workspace_id row = ws.
Definition confined_owned (ws id : string) (db db' : Db) : Prop :=
  owned ws id db → owned ws id db' ∧ confined ws db db'.
#[export] Instance confined_owned_preorder ws id : PreOrder (confined_owned ws id).
Proof.
  split; [by intros db Ho; split|]. intros db1 db2 db3 H12 H23 Ho.
  destruct (H12 Ho) as [Ho2 Hc2]. destruct (H23 Ho2) as [Ho3 Hc3]. split; [done|by etrans].
Qed.
Lemma rule_row_ids rule row : _auto_approval_rule_values rule = Ok row →
  rlw_rule_id row = aar_rule_id rule ∧ rlw_workspace_id row = aar_workspace_id rule.
Proof. unfold _auto_approval_rule_values. intros Hv. by bound_values. Qed.
Lemma map_keyed_ids (id : string) row rows : rlw_rule_id row = id →
  map rlw_rule_id (map (λ r, if rlw_rule_id r == id then row else r) rows) = map rlw_rule_id rows.
Proof.
  intros Hr. rewrite map_map. apply map_ext. intros r.
  by destruct (String.eqb_spec (rlw_rule_id r) id) as [->|].
Qed.
Lemma sql_get_rule_owned id c x c' : NoDup (map rlw_rule_id (d_rules (c_db c))) →
  sql_get_rule id c = (Ok (Some x), c') →
  ∀ row, row ∈ d_rules (c_db c) → rlw_rule_id row = id → rlw_workspace_id row = aar_workspace_id x.
Proof.
  intros Hnd. unfold sql_get_rule. rewrite (bind_run _ _ _ _ _ (select_run _ _ _)). cbv beta.
  cbn [t_get rules_table]. destruct (List.find _ _) as [r|] eqn:Hf; [|done].
  apply find_some in Hf as [Hin Hk%String.eqb_eq]. unfold lift, mbind, M_bind.
  destruct (_auto_approval_rule_from_row r) as [y|e] eqn:Hr; [|done]. intros [= -> <-] row Hrow Hid.
  assert (row = r) as ->.
  { apply (keyed_value rlw_rule_id (d_rules (c_db c))); [done|done|by apply list_elem_of_In|congruence]. }
  unfold _auto_approval_rule_from_row in Hr. by bound_values.
Qed.
Lemma confined_update rule :
  keeps (within (confined_owned (aar_workspace_id rule) (aar_rule_id rule))) (sql_update_rule rule).
Proof.
  unfold sql_update_rule, write_rule. within. intros [Hnd Hown]. simplify_eq/=.
  match goal with H : _auto_approval_rule_values rule = Ok ?row |- _ =>
    rename row into new; destruct (rule_row_ids rule new H) as [Hid Hws] end.
  assert (Hids := map_keyed_ids (aar_rule_id rule) new (d_rules db) Hid).
  split; [split|]; cbn [d_rules]; [by rewrite Hids| |].
  - intros row Hin%list_elem_of_In Hr. apply in_map_iff in Hin as (r & Hrow & Hin).
    destruct (String.eqb_spec (rlw_rule_id r) (aar_rule_id rule)) as [Heq|Hne]; subst row; [done|].
    by apply Hown; [apply list_elem_of_In|].
  - intros _. cbn [d_rules]. split; [try done|unfold elsewhere; cbn; split_and!]; try done; [by rewrite Hids|]. clear Hids Hnd.
    induction (d_rules db) as [|r rows IH]; [done|]. unfold others in *. cbn [map List.filter].
    rewrite IH by (intros row Hin; apply Hown; by right).
    destruct (String.eqb_spec (rlw_rule_id r) (aar_rule_id rule)) as [Heq|]; [|done].
    rewrite Hws, (Hown r) by (done || left). by rewrite String.eqb_refl.
Qed.
Lemma rule_ids_snoc row rows : NoDup (map rlw_rule_id rows) →
  existsb (λ r, rlw_rule_id r == rlw_rule_id row) rows = false → NoDup (map rlw_rule_id (rows ++ [row])).
Proof.
  intros Hnd Hex. rewrite map_app. apply NoDup_app. split_and!; [done| |apply NoDup_singleton].
  intros id Hin ->%list_elem_of_singleton. apply list_elem_of_In, in_map_iff in Hin as (r & Hr & Hin).
  apply (proj1 (existsb_false_elem _ _)) with (x := r) in Hex; [|by apply list_elem_of_In].
  apply String.eqb_neq in Hex. congruence.
Qed.
Lemma confined_add rule : keeps (within (confined (aar_workspace_id rule))) (sql_add_rule rule).
Proof.
  unfold sql_add_rule, write_new_rule. within. intros Hnd. simplify_eq/=.
  match goal with H : _auto_approval_rule_values rule = Ok ?row |- _ =>
    rename row into new; destruct (rule_row_ids rule new H) as [Hid Hws] end.
  destruct (existsb _ _) eqn:Hex; [done|]. simplify_eq/=.
  split; [|unfold elsewhere; cbn; split_and!; try done; by apply others_snoc].
  apply rule_ids_snoc; [done|by rewrite Hid].
Qed.
Lemma confined_upsert rule :
  keeps (within (confined (aar_workspace_id rule))) (sql_upsert_auto_approval_rule rule).
Proof.
  intros c. unfold sql_upsert_auto_approval_rule, lift, mbind at 1, M_bind at 1.
  destruct (_validate_rule rule) as [[]|e]; [|reflexivity].
  destruct (sql_get_rule (aar_rule_id rule) c) as [[[x|]|e] c1] eqn:Hg;
    pose proof (sql_get_rule_same _ _ _ _ Hg) as ->; unfold mbind at 1, M_bind at 1; rewrite Hg;
    [| |reflexivity].
  - destruct (String.eqb_spec (aar_workspace_id x) (aar_workspace_id rule)) as [Hws|]; [|reflexivity].
    cbn [negb]. assert (Hk : keeps (within (confined_owned (aar_workspace_id rule) (aar_rule_id rule)))
      (_ ← sql_update_rule rule; mret "updated")).
    { apply keeps_bind; [apply _|apply confined_update|intros; apply keeps_ret, _]. }
    intros saved Hs Hd. destruct (Hk c saved Hs Hd) as (Hs' & Hl & Hsc & Hc). split; [try done|unfold elsewhere; cbn; split_and!]; try done.
    intros Hnd. apply Hc; [|done]. split; [done|].
    rewrite <- Hws. by apply (sql_get_rule_owned _ _ _ _ Hnd Hg).
  - assert (Hk : keeps (within (confined (aar_workspace_id rule))) (_ ← sql_add_rule rule; mret "created")).
    { apply keeps_bind; [apply _|apply confined_add|intros; apply keeps_ret, _]. }
    exact (Hk c).
Qed.
Lemma prepared_workspace ws by_ now entry c rule c' :
  prepare_rule isdigit_unicode int_unicode lower_unicode ws by_ now entry c = (Ok rule, c') →
  aar_workspace_id rule = ws.
Proof.
  unfold prepare_rule. rewrite bind_Ok_inv. intros (parsed & c1 & _ & Hr). revert Hr.
  destruct (List.filter _ _) as [|scope scopes]; [|done]. rewrite bind_Ok_inv.
  by intros (existing & c2 & _ & [= <- <-]).
Qed.
Lemma confined_apply document ws by_ now :
  keeps (within (confined ws)) (apply_document document ws by_ now).
Proof.
  unfold _apply_policy_document.
  do 3 (apply keeps_lift_bind; [apply _|intros ? _]).
  apply (keeps_bind_post _ (Forall (λ rule, aar_workspace_id rule = ws))).
  { apply keeps_mapM; [apply _|]. intros entry _. unfold prepare_rule. within. }
  { intros c rules c'. apply mapM_post. intros ? ? ? ?. apply prepared_workspace. }
  intros rules Hrules. apply keeps_lift_bind; [apply _|intros boundary _].
  apply keeps_bind; [apply _| |intros _].
  { apply keeps_for_each; [apply _|]. intros parsed _. apply confined_set_bounds. }
  apply keeps_bind; [apply _| |intros actions].
  { apply keeps_mapM; [apply _|]. intros rule Hin. rewrite Forall_forall in Hrules.
    rewrite <- (Hrules _ Hin). apply confined_upsert. }
  apply keeps_bind; [apply _| |intros _].
  { destruct (pq_workspace boundary); [apply confined_set_mandate|apply keeps_ret, _]. }
  apply keeps_bind; [apply _| |intros _].
  { apply keeps_for_each; [apply _|]. intros agent _. apply confined_set_mandate. }
  apply keeps_bind; [apply _|apply confined_insert_version|intros version; apply keeps_ret, _].
Qed.
End apply.

(** ** Composites *)

Lemma sqlite_apply_transaction_idle {X} (m : M Store X) c :
  idle c → _sqlite_apply_transaction m c = _atomic_write m c.
Proof.
  intros [Hs _]. unfold _sqlite_apply_transaction, _atomic_write, gets, mbind, M_bind, in_transaction.
  rewrite Hs. by rewrite bool_decide_false by (by intros [? ?]).
Qed.
Lemma inside_composite {X} (body : M Store X) : keeps inside body → keeps inside (composite body).
Proof.
  intros Hb. unfold composite, _depth. apply keeps_bind; [apply _|apply keeps_gets, _|]. intros depth.
  apply keeps_if; [apply keeps_raise, _|].
  apply keeps_bind; [apply _|apply keeps_gets, _|]. intros open.
  apply keeps_if; [apply keeps_raise, _|].
  apply keeps_bind; [apply _|apply inside_local|]. intros _.
  apply keeps_bind; [apply _| |].
  - intros c. pose proof (Hb c) as Hin. destruct (body c) as [r c1]. exact Hin.
  - intros x. inside.
Qed.
(** A composite outside any other, in an open transaction. *)
Lemma composite_run {X} (body : M Store X) c :
  l_depth (c_local c) = O → in_transaction c = true →
  composite body c =
    let '(r, c1) := body (set_local (set_depth 1 (set_pending None (c_local c))) c) in
    let c2 := set_local (set_depth 0 (c_local c1)) c1 in
    match r with
    | Raise e => (Raise e, c2)
    | Ok x =>
        match l_pending (c_local c2) with
        | None => (Raise (RuntimeError "composite control operation finished without recording its control audit event; refusing to commit an un-audited rule change"), c2)
        | Some event => (_ ← sql_audit_write event; mret x) c2
        end
    end.
Proof.
  intros Hd Ho. unfold composite, _depth, gets, on_local, modify, mbind, M_bind, raise.
  rewrite Hd. cbn [Nat.ltb Nat.leb]. rewrite Ho. cbn [negb].
  destruct (body _) as [[x|e] c1]; [|done]. cbn [c_local set_local set_depth l_pending].
  by destruct (l_pending (c_local c1)).
Qed.
Lemma composite_depth {X} (body : M Store X) : keeps (locally same_depth) (composite body).
Proof.
  intros c. destruct (l_depth (c_local c)) as [|n] eqn:Hd.
  - destruct (in_transaction c) eqn:Ho.
    + rewrite (composite_run body c Hd Ho). destruct (body _) as [[x|e] c1]; [|exact (eq_sym Hd)].
      cbv zeta. set (c2 := set_local _ c1).
      assert (H2 : l_depth (c_local c2) = l_depth (c_local c)) by (by rewrite Hd).
      destruct (l_pending (c_local c2)) as [event|]; [|exact H2].
      assert (Hk : keeps (locally same_depth) (_ ← sql_audit_write event; mret x)).
      { apply keeps_bind; [apply _|apply sql_audit_write_depth|intros; apply keeps_ret, _]. }
      unfold locally, same_depth. rewrite <- H2. exact (Hk c2).
    + unfold composite, _depth, gets, mbind, M_bind. rewrite Hd. cbn [Nat.ltb Nat.leb].
      rewrite Ho. exact eq_refl.
  - unfold composite, _depth, gets, mbind, M_bind. rewrite Hd. exact eq_refl.
Qed.

(** A composite that sets its event last: everything its body did, and one event. *)
Lemma composite_outcome {X} P (body : M Store X) (event : X → ControlInput) c x c' :
  keeps (within P) body → c_saved c ≠ None → l_depth (c_local c) = O →
  composite (y ← body; _ ← pending_set (event y); mret y) c = (Ok x, c') →
  ∃ c0 c1 id h, c_db c0 = c_db c ∧ c_saved c0 = c_saved c ∧ body c0 = (Ok x, c1) ∧
    P (c_db c) (c_db c1) ∧
    appended (build_control_audit_event (event x) id) (c_db c1) (c_db c') ∧
    c_scopes c' = match c_scopes c with s :: o => (s ++ [h]) :: o | [] => [] end.
Proof.
  intros Hb Hs Hd. rewrite composite_run; [|done|].
  2: { unfold in_transaction. apply bool_decide_eq_true. by apply not_eq_None_Some. }
  set (c0 := set_local _ c). unfold mbind at 1, M_bind at 1.
  destruct (c_saved c) as [saved|] eqn:Hsv; [|done].
  pose proof (Hb c0 saved Hsv ltac:(cbn; lia)) as Hu.
  destruct (body c0) as [[y|e] c1] eqn:Hbody; [|done]. destruct Hu as (Hs1 & Hl1 & Hsc1 & Ha1).
  cbn [snd] in *.
  destruct (pending_set_run (event y) c1) as (id & l & Hset & Hld & Hpend); [by rewrite (proj2 Hl1)|].
  rewrite (bind_run _ _ _ _ _ Hset). unfold mret at 1, M_ret at 1. cbn [c_local set_local].
  set (c2 := set_local (set_depth 0 l) (set_local l c1)).
  change (l_pending (set_depth 0 l)) with (l_pending l). rewrite Hpend.
  unfold mbind, M_bind. destruct (sql_audit_write _ c2) as [[[]|e] c3] eqn:Hw; [|done].
  intros [= -> ->]. destruct (sql_audit_write_run _ c2 _ _ ltac:(cbn; by rewrite Hs1) Hw) as (h & Ha & Hsc).
  exists c0, c1, id, h. split; [try done|unfold elsewhere; cbn; split_and!]; try done. change (c_scopes c2) with (c_scopes c1) in Hsc.
  by rewrite Hsc, Hsc1.
Qed.

(** ** Versions *)

(** The version a policy operation records: the next number of its workspace,
    with the state as it is then. *)
Definition versioned (ws : string) (version : Z) (db : Db) : Prop :=
  ∃ row snapshot, last (d_versions db) = Some row ∧ vrw_workspace_id row = ws ∧
    vrw_version row = version ∧ vrw_snapshot_json row = dumps true snapshot ∧
    snapshot_of ws db = Ok snapshot.
Lemma insert_version_run ws action source by_ now c v c' :
  _insert_policy_version ws action source by_ now c = (Ok v, c') →
  v = last_version ws (d_versions (c_db c)) + 1 ∧ versioned ws v (c_db c') ∧
  ∃ row, c_db c' = t_set versions_table (d_versions (c_db c) ++ [row]) (c_db c).
Proof.
  unfold _insert_policy_version. rewrite (bind_run _ _ _ _ _ (select_run _ _ _)). cbv beta zeta.
  cbn [t_get versions_table]. unfold _snapshot_policy_state.
  destruct (snapshot_of ws (c_db c)) as [snapshot|e] eqn:Hsnap.
  2: { unfold query, gets, lift, mbind, M_bind. by rewrite Hsnap. }
  rewrite (bind_run (x ← query (snapshot_of ws); lift x) _ c snapshot c).
  2: { unfold query, gets, lift, mbind, M_bind. by rewrite Hsnap. }
  set (v0 := _ + 1). rewrite bind_Ok_inv. intros (row & c1 & Hrow & Hrun).
  unfold lift in Hrow. injection Hrow as Hrow <-. bound_values.
  apply bind_Ok_inv in Hrun as ([] & c2 & Hst & Hret). injection Hret as <- <-.
  apply (proj2 (statement_write _ _)) in Hst as (rows & Hst & Hdb). cbn [t_get versions_table] in Hst.
  destruct (existsb _ _); [done|]. injection Hst as <-.
  split; [done|]. rewrite Hdb. split; [|by eexists].
  eexists _, snapshot. cbn. rewrite last_snoc. split_and!; done.
Qed.
Lemma snapshot_appended ws e db db' : appended e db db' → snapshot_of ws db' = snapshot_of ws db.
Proof. by intros (rows & -> & _). Qed.
Lemma versioned_appended ws v e db db' : appended e db db' → versioned ws v db → versioned ws v db'.
Proof.
  intros Ha (row & snapshot & Hl & Hws & Hv & Hj & Hs). exists row, snapshot.
  rewrite (snapshot_appended _ _ _ _ Ha). destruct Ha as (rows & -> & _). done.
Qed.

(** What a policy transaction leaves: one event, one version, one workspace. *)
Definition policy_outcome (ws : string) (event : ControlInput) (version : Z) (c c' : Store) : Prop :=
  ∃ db id h, confined ws (c_db c) db ∧ appended (build_control_audit_event event id) db (c_db c') ∧
    c_sink c' = c_sink c ++ [h] ∧ versioned ws version (c_db c').

Section apply_whole.
Context (isdigit_unicode : string → bool) (int_unicode : string → result Z)
  (lower_unicode : string → string) (require_boundary_default : bool).

Lemma apply_document_version document ws by_ now c x c' :
  _apply_policy_document isdigit_unicode int_unicode lower_unicode require_boundary_default
    document ws by_ now c = (Ok x, c') →
  pa_workspace_id x = ws ∧ versioned ws (pa_policy_version x) (c_db c').
Proof.
  unfold _apply_policy_document. intros Hrun.
  repeat match type of Hrun with
  | (_ ≫= _) _ = (Ok _, _) => apply bind_Ok_inv in Hrun as (? & ? & ? & Hrun)
  end.
  injection Hrun as <- <-. split; [done|]. cbn.
  match goal with H : _insert_policy_version _ _ _ _ _ _ = _ |- _ =>
    by apply insert_version_run in H as (_ & ? & _) end.
Qed.
Lemma apply_inside document ws by_ now :
  keeps inside (_apply_policy_document isdigit_unicode int_unicode lower_unicode
    require_boundary_default document ws by_ now).
Proof.
  unfold _apply_policy_document, prepare_rule, sql_set_bounds, write_bounds,
    sql_upsert_auto_approval_rule, sql_add_rule, sql_update_rule, write_rule, write_new_rule,
    sql_get_rule, sql_set_require_boundary, sql_set_mandate, write_setting, _insert_policy_version,
    _snapshot_policy_state.
  inside.
Qed.

(** C34: A policy is applied whole or not at all.  From an idle connection,
    applying a document either raises, with the database and the sink untouched,
    whatever write or commit failed; or returns, having committed at once every
    change it makes, all of them to the bounds, rules, settings and versions of
    its own workspace; exactly one control event, which reports the result; and
    a version whose snapshot is the state it left. *)
Theorem apply_policy_transactional loaded auditor service ws by_ now c r c' :
  idle c → l_depth (c_local c) = O →
  apply_policy_file isdigit_unicode int_unicode lower_unicode require_boundary_default
    loaded auditor service ws by_ now c = (r, c') →
  idle c' ∧ l_depth (c_local c') = O ∧
  match r with
  | Ok result => policy_outcome ws (policy_applied_event result ws by_ now)
                   (pa_policy_version result) c c'
  | Raise _ => c_db c' = c_db c ∧ c_sink c' = c_sink c
  end.
Proof.
  intros Hi Hd. unfold apply_policy_file, lift, mbind at 1, M_bind at 1.
  destruct (_load_policy_document loaded) as [document|e]; [|by intros [= <- <-]].
  unfold mbind at 1, M_bind at 1. destruct (check _ _) as [[]|e]; [|by intros [= <- <-]].
  unfold mbind at 1, M_bind at 1. destruct (require_bound_to auditor service) as [[]|e];
    [|by intros [= <- <-]].
  rewrite sqlite_apply_transaction_idle by done.
  set (body := _apply_policy_document _ _ _ _ _ _ _ _).
  set (m := composite _). intros Hrun.
  assert (Hin : keeps inside m).
  { apply inside_composite. apply keeps_bind; [apply _|apply apply_inside|]. intros x.
    unfold pending_set, control_event_id. inside. }
  assert (Hl : l_depth (c_local c') = O).
  { pose proof (locally_atomic_write same_depth m (composite_depth _) c) as Hl. rewrite Hrun in Hl.
    unfold locally, same_depth in Hl. cbn in Hl. congruence. }
  destruct (atomic_write_outcome m c r c' Hin Hi Hrun) as [Hi' Hout].
  split; [done|]. split; [done|]. destruct r as [x|e]; [|done].
  destruct Hout as (c0 & c1 & emitted & Hdb & Hs & Hsc & Hloc & Hbody & Hdb' & Hsc1 & Hsink).
  destruct (composite_outcome (confined ws) body
    (λ result, policy_applied_event result ws by_ now) c0 x c1) as (c2 & c3 & id & h & Hdb2 & _ & Hb & Hc & Ha & Hsc');
    [apply confined_apply|by rewrite Hs|by rewrite Hloc|exact Hbody|].
  exists (c_db c3), id, h. rewrite Hsc, Hsc1 in Hsc'. injection Hsc' as ->.
  rewrite Hdb'. split_and!; [by rewrite <- Hdb|done|done|].
  eapply versioned_appended; [exact Ha|]. by apply (apply_document_version _ _ _ _ _ _ _ Hb).
Qed.
End apply_whole.

(** A document with one bound, one rule and one agent under a boundary mandate. *)
Definition sample_policy : json :=
  JObj [("version", JInt 1); ("workspace_id", JStr "ws");
    ("agent_bounds", JList [JObj [("agent_id", JStr "agent"); ("scopes", JList [JStr "read:repo/x"])]]);
    ("auto_approval_rules", JList [JObj [("name", JStr "reads"); ("target_agent_id", JStr "agent");
       ("allowed_scopes", JList [JStr "read:repo/x"]); ("max_ttl", JStr "15m")]]);
    ("require_boundary", JObj [("agents", JList [JStr "agent"])])].
Lemma apply_policy_transactional_witness :
  let apply := apply_policy_file (λ _, false) (λ _, Raise (ValueError "not a number")) (λ s, s) false
    (Ok sample_policy) (Some 0%nat) (Some 0%nat) "ws" "alice" 0 in
  let c := opened empty_db in
  ∃ result c', apply c = (Ok result, c') ∧
    policy_outcome "ws" (policy_applied_event result "ws" "alice" 0) (pa_policy_version result) c c'.
Proof.
  cbv zeta. set (c := opened empty_db). set (apply := apply_policy_file _ _ _ _ _ _ _ _ _ _).
  assert (Hr : is_ok (apply c).1 = true) by (by vm_compute).
  destruct (apply c) as [[result|e] c'] eqn:Hrun; [|done]. exists result, c'. split; [done|].
  exact (proj2 (proj2 (apply_policy_transactional (λ _, false) (λ _, Raise (ValueError "not a number")) (λ s, s) false
    (Ok sample_policy) (Some 0%nat) (Some 0%nat) "ws" "alice" 0 c (Ok result) c' (opened_idle _) eq_refl Hrun))).
Defined.
