(* ===== verification/PolicyRollback.v ===== *)
(** * What rolling a policy back restores ([rollback_policy_version])

    A version's snapshot is JSON text; rolling back to it rebuilds the rows it
    was taken from.  The bounds, the rules and the boundary mandate of the
    workspace are then what they were; its other mandates are kept, but for an
    explicit exemption, which the restore may delete. *)
From S2P Require Import Prelude PyStr PyDict PyTime Scope Models ServiceModels CoreAudit.
From S2P Require Import Sha256 Pop Repositories World Grants AutoApproval AuditChain Json.
From S2P Require Import IdemRows SqlTxn SqlRows SqlStore SqlRefine SqlAudit ControlPlane ControlRefine.
From S2P Require Import SqlWithin PolicyFiles PolicyApply.

(** ** Rows and their entries *)

(** A row whose text is Unicode text and whose scopes are as the writers store
    them. *)
Definition bounds_row_ok (row : bounds_row) : Prop :=
  is_text (bdw_agent_id row) ∧ is_text (bdw_updated_at row) ∧
  (∃ scopes, Forall is_text scopes ∧ bdw_scopes_json row = json_strings scopes) ∧
  bind_opt_int (bdw_max_ttl_seconds row) = Ok (bdw_max_ttl_seconds row).
Definition opt_text (o : option string) : Prop := match o with Some s => is_text s | None => True end.
Definition rule_row_ok (row : rule_row) : Prop :=
  is_text (rlw_rule_id row) ∧ is_text (rlw_name row) ∧ is_text (rlw_target_agent_id row) ∧
  is_text (rlw_status row) ∧ is_text (rlw_created_by row) ∧ is_text (rlw_created_at row) ∧
  opt_text (rlw_updated_by row) ∧ opt_text (rlw_updated_at row) ∧
  (∃ scopes, Forall is_text scopes ∧ rlw_allowed_scopes_json row = json_strings scopes) ∧
  bind_int (rlw_max_ttl_seconds row) = Ok (rlw_max_ttl_seconds row).
Definition setting_row_ok (row : settings_row) : Prop :=
  is_text (stw_agent_id row) ∧ is_text (stw_updated_at row).

Lemma json_ok_strings l : Forall is_text l → json_ok (JList (map JStr l)).
Proof. intros Hl. apply json_ok_list. induction Hl; cbn; by constructor. Qed.
Lemma loads_strings l : Forall is_text l → loads (json_strings l) = Ok (JList (map JStr l)).
Proof.
  intros Hl. unfold json_strings. rewrite loads_dumps by by apply json_ok_strings.
  by rewrite as_written_plain.
Qed.
Lemma as_written_strings l : as_written true (JList (map JStr l)) = JList (map JStr l).
Proof. cbn. f_equal. rewrite map_map. by apply map_ext. Qed.
Lemma json_ok_opt_str o : opt_text o → json_ok (json_opt_str o).
Proof. by destruct o. Qed.
Ltac entry_ok :=
  apply json_ok_obj; split;
  [by apply (bool_decide_unpack _)
  |repeat (apply Forall_cons_2; [split; [by apply is_text_ascii|]|]);
   try by apply Forall_nil_2].
(** Reading a member of an entry, however its members are ordered. *)
Lemma jitem_sorted (d : mapping) field : NoDup (map fst d) →
  jitem (in_key_order true d) field = jitem d field.
Proof.
  intros Hnd. unfold jitem. pose proof (in_key_order_perm true d) as Hp.
  assert (Hnd' : dict_wf (in_key_order true d)).
  { unfold dict_wf, dkeys. rewrite Hp. exact Hnd. }
  assert (dget field (in_key_order true d) = dget field d) as ->; [|done].
  apply option_eq. intros v. rewrite !dget_elem_iff by done. by rewrite Hp.
Qed.
Lemma jitem_here field v (d : mapping) : jitem ((field, v) :: d) field = Ok v.
Proof. unfold jitem. cbn [dget]. by rewrite decide_True. Qed.
Lemma jitem_next k field v (d : mapping) : k ≠ field → jitem ((k, v) :: d) field = jitem d field.
Proof. intros Hne. unfold jitem. cbn [dget]. by rewrite decide_False. Qed.
Ltac read_entry :=
  rewrite ?jitem_sorted by (by apply (bool_decide_unpack _));
  repeat first [rewrite jitem_here | rewrite jitem_next by discriminate].

Lemma bind_opt_number_ttl ttl : bind_opt_int ttl = Ok ttl →
  bind_opt_number (as_written true (json_opt_int ttl)) = Ok ttl.
Proof.
  destruct ttl as [z|]; [|done]. cbn. unfold bind_number, as_int.
  destruct (bind_int z) as [z'|e] eqn:Hz; [|done]. cbn. by intros [= ->].
Qed.
Lemma bind_opt_text_str o : bind_opt_text (as_written true (json_opt_str o)) = Ok o.
Proof. by destruct o. Qed.
(** The entry of a row, as it is read back, is the row. *)
Lemma bound_entry_restores row : bounds_row_ok row →
  ∃ v, bound_entry row = Ok v ∧ json_ok v ∧
    snapshot_bounds_row (bdw_workspace_id row) (as_written true v) = Ok row.
Proof.
  intros (Hag & Hup & (scopes & Hsc & Hj) & Httl). unfold bound_entry. rewrite Hj, loads_strings by done.
  eexists. split; [reflexivity|]. split.
  - entry_ok; try done; [by apply json_ok_strings|by destruct (bdw_max_ttl_seconds row)].
  - change (as_written true (JObj ?d)) with
      (JObj (in_key_order true (map (λ kv, (kv.1, as_written true kv.2)) d))).
    cbn [map fst snd]. rewrite as_written_strings. unfold snapshot_bounds_row, entry_of.
    change (Ok ?x ≫= ?f) with (f x). cbv beta. read_entry.
    cbn [mbind result_bind as_written bind_text]. rewrite bind_opt_number_ttl by done.
    cbn [mbind result_bind]. fold (json_strings scopes). rewrite <- Hj. by destruct row.
Qed.
Lemma rule_entry_restores row : rule_row_ok row →
  ∃ v, rule_entry row = Ok v ∧ json_ok v ∧
    snapshot_rule_row (rlw_workspace_id row) (as_written true v) = Ok row.
Proof.
  intros (? & ? & ? & ? & ? & ? & ? & ? & (scopes & Hsc & Hj) & Httl). unfold rule_entry.
  rewrite Hj, loads_strings by done.
  eexists. split; [reflexivity|]. split.
  - entry_ok; try done; [by apply json_ok_strings|by apply json_ok_opt_str..].
  - change (as_written true (JObj ?d)) with
      (JObj (in_key_order true (map (λ kv, (kv.1, as_written true kv.2)) d))).
    cbn [map fst snd]. rewrite as_written_strings. unfold snapshot_rule_row, entry_of.
    change (Ok ?x ≫= ?f) with (f x). cbv beta. read_entry.
    cbn [mbind result_bind as_written bind_text bind_number as_int]. rewrite Httl.
    cbn [mbind result_bind]. rewrite !bind_opt_text_str. cbn [mbind result_bind].
    fold (json_strings scopes). rewrite <- Hj. by destruct row.
Qed.

(** The agent and the value of a saved setting. *)
Definition setting_of (raw : json) : result (string * bool) :=
  entry ← entry_of raw;
  agent_id ← jitem entry "agent_id" ≫= bind_text;
  value ← jitem entry "require_boundary";
  Ok (agent_id, json_truthy value).
Lemma setting_entry_restores row : setting_row_ok row →
  json_ok (setting_entry row) ∧
  setting_of (as_written true (setting_entry row)) = Ok (stw_agent_id row, stw_require_boundary row).
Proof.
  intros [Hag Hup]. unfold setting_entry. split; [entry_ok; done|].
  change (as_written true (JObj ?d)) with
    (JObj (in_key_order true (map (λ kv, (kv.1, as_written true kv.2)) d))).
  cbn [map fst snd]. unfold setting_of, entry_of.
  change (Ok ?x ≫= ?f) with (f x). cbv beta. by read_entry.
Qed.

(** ** The snapshot of a workspace *)

Definition policy_ok (ws : string) (db : Db) : Prop :=
  Forall bounds_row_ok (workspace_bounds ws (d_bounds db)) ∧
  Forall rule_row_ok (workspace_rules ws (d_rules db)) ∧
  Forall setting_row_ok (boundary_settings ws (d_settings db)).
(** What the entries of a snapshot stand for. *)
Definition restores (ws : string) (m : mapping) (db : Db) : Prop :=
  ∃ bs rs ss,
    jitem m "agent_bounds" = Ok (JList bs) ∧
    jitem m "auto_approval_rules" = Ok (JList rs) ∧
    jitem m "require_boundary_settings" = Ok (JList ss) ∧
    mapM (snapshot_bounds_row ws) bs = Ok (workspace_bounds ws (d_bounds db)) ∧
    mapM (snapshot_rule_row ws) rs = Ok (workspace_rules ws (d_rules db)) ∧
    mapM setting_of ss =
      Ok (map (λ row, (stw_agent_id row, stw_require_boundary row))
            (boundary_settings ws (d_settings db))).

Lemma selected_workspace {R} (ws_of : R → string) le p ws (rows : list R) :
  (∀ r, p r = true → ws_of r = ws) → Forall (λ r, ws_of r = ws) (py_sorted le (List.filter p rows)).
Proof.
  intros Hp. rewrite py_sorted_perm. apply Forall_forall. intros r Hr.
  apply list_elem_of_In, filter_In in Hr as [_ Hr]. by apply Hp.
Qed.
Lemma mapM_entries {R} (entry : R → result json) (from : json → result R) rows :
  Forall (λ r, ∃ v, entry r = Ok v ∧ json_ok v ∧ from (as_written true v) = Ok r) rows →
  ∃ vs, mapM entry rows = Ok vs ∧ Forall json_ok vs ∧ mapM from (map (as_written true) vs) = Ok rows.
Proof.
  induction 1 as [|r rows (v & Hv & Hok & Hf) _ (vs & Hvs & Hoks & Hfs)]; [by exists []|].
  exists (v :: vs). cbn [mapM map]. rewrite Hv, Hf. cbn. rewrite Hvs, Hfs. cbn.
  split_and!; [done|by constructor|done].
Qed.
Lemma snapshot_restores ws db snap : policy_ok ws db → snapshot_of ws db = Ok snap →
  ∃ m, loads (dumps true snap) = Ok (JObj m) ∧ restores ws m db.
Proof.
  intros (Hb & Hr & Hs). unfold snapshot_of.
  destruct (mapM_entries bound_entry (snapshot_bounds_row ws) (workspace_bounds ws (d_bounds db)))
    as (bs & Hbs & Hbok & Hbr).
  { assert (Hws : Forall (λ r, bdw_workspace_id r = ws) (workspace_bounds ws (d_bounds db))).
    { apply selected_workspace. intros r. apply String.eqb_eq. }
    rewrite Forall_forall in *. intros r Hin. rewrite <- (Hws _ Hin). by apply bound_entry_restores, Hb. }
  destruct (mapM_entries rule_entry (snapshot_rule_row ws) (workspace_rules ws (d_rules db)))
    as (rs & Hrs & Hrok & Hrr).
  { assert (Hws : Forall (λ r, rlw_workspace_id r = ws) (workspace_rules ws (d_rules db))).
    { apply selected_workspace. intros r. apply String.eqb_eq. }
    rewrite Forall_forall in *. intros r Hin. rewrite <- (Hws _ Hin). by apply rule_entry_restores, Hr. }
  rewrite Hbs, Hrs. cbn [mbind result_bind]. intros [= <-].
  set (rows := boundary_settings ws (d_settings db)) in *.
  assert (Hsok : Forall json_ok (map setting_entry rows)).
  { apply Forall_fmap. eapply Forall_impl; [exact Hs|]. intros row Hrow. by apply setting_entry_restores. }
  assert (Hsr : mapM setting_of (map (as_written true) (map setting_entry rows)) =
    Ok (map (λ row, (stw_agent_id row, stw_require_boundary row)) rows)).
  { induction Hs as [|row l Hrow _ IH]; [done|]. cbn [map mapM].
    rewrite (proj2 (setting_entry_restores row Hrow)). cbn. rewrite IH; [done|].
    by apply Forall_cons in Hsok as [_ ?]. }
  set (d := [("version", JInt 1); _; _; _]).
  exists (in_key_order true (map (λ kv, (kv.1, as_written true kv.2)) d)). split.
  - rewrite loads_dumps; [done|]. subst d. entry_ok; [done|by apply json_ok_list..].
  - exists (map (as_written true) bs), (map (as_written true) rs), (map (as_written true) (map setting_entry rows)).
    subst d. cbn [map fst snd]. split_and!; try done; by read_entry.
Qed.

(** ** Running the statements of a restore *)

(** A table is a field of the database. *)
Definition table_ok {T} (t : table T) : Prop :=
  (∀ rows db, t_get t (t_set t rows db) = rows) ∧
  (∀ rows rows' db, t_set t rows' (t_set t rows db) = t_set t rows' db) ∧
  (∀ db, t_set t (t_get t db) db = db).
Lemma bounds_table_ok : table_ok bounds_table.
Proof. split_and!; try done. by intros []. Qed.
Lemma rules_table_ok : table_ok rules_table.
Proof. split_and!; try done. by intros []. Qed.
Lemma settings_table_ok : table_ok settings_table.
Proof. split_and!; try done. by intros []. Qed.

Lemma statement_run {T X} (t : table T) (st : T → result (X * T)) c x c' :
  statement t st c = (Ok x, c') →
  ∃ rows, st (t_get t (c_db c)) = Ok (x, rows) ∧ c_db c' = t_set t rows (c_db c).
Proof. intros Hrun. exact (proj2 (statement_write t st) _ _ _ Hrun). Qed.
(** Rows inserted one by one. *)
Lemma insert_each {R} (t : table (list R)) (from : json → result R) (dup : R → list R → bool) e raws c c' :
  table_ok t →
  for_each (λ raw, row ← lift (from raw);
    statement t (λ rows, if dup row rows then Raise (e row) else Ok (tt, rows ++ [row]))) raws c = (Ok tt, c') →
  ∃ rows, mapM from raws = Ok rows ∧ c_db c' = t_set t (t_get t (c_db c) ++ rows) (c_db c).
Proof.
  intros (Hgs & Hss & Hsg). revert c. induction raws as [|raw raws IH]; intros c; cbn [for_each mapM].
  - intros [= <-]. exists []. by rewrite app_nil_r, Hsg.
  - rewrite bind_Ok_inv. intros ([] & c1 & Hraw & Hrest).
    apply bind_Ok_inv in Hraw as (row & c2 & [Hfrom ->]%lift_run & Hst).
    apply statement_run in Hst as (rows & Hst & Hdb). destruct (dup row _); [done|]. injection Hst as <-.
    destruct (IH _ Hrest) as (rows & Hrows & Hdb'). rewrite Hfrom. cbn [mbind result_bind].
    rewrite Hrows. exists (row :: rows). split; [done|]. rewrite Hdb', Hdb, Hgs, Hss.
    by rewrite <- app_assoc.
Qed.
Definition upsert_settings (def : bool) (ws at_ : string) (l : list (string * bool))
    (rows : list settings_row) : list settings_row :=
  fold_left (λ rows av, upsert (stw_hit ws av.1)
    (stw_update RequireBoundary av.2 at_ (stw_default def ws av.1 at_))
    (stw_update RequireBoundary av.2 at_) rows) l rows.
Lemma set_each def ws at_ raws c c' :
  for_each (λ raw,
    entry ← lift (entry_of raw);
    agent_id ← lift (jitem entry "agent_id" ≫= bind_text);
    value ← lift (jitem entry "require_boundary");
    let value := json_truthy value in
    statement settings_table (λ rows, Ok (tt,
      upsert (stw_hit ws agent_id)
        (stw_update RequireBoundary value at_ (stw_default def ws agent_id at_))
        (stw_update RequireBoundary value at_) rows))) raws c = (Ok tt, c') →
  ∃ l, mapM setting_of raws = Ok l ∧
    c_db c' = t_set settings_table (upsert_settings def ws at_ l (d_settings (c_db c))) (c_db c).
Proof.
  destruct settings_table_ok as (Hgs & Hss & Hsg).
  revert c. induction raws as [|raw raws IH]; intros c; cbn [for_each mapM].
  - intros [= <-]. exists []. split; [done|]. cbn. by destruct (c_db c).
  - rewrite bind_Ok_inv. intros ([] & c1 & Hraw & Hrest).
    apply bind_Ok_inv in Hraw as (entry & c2 & [Hent ->]%lift_run & Hraw).
    apply bind_Ok_inv in Hraw as (agent & c2 & [Hag ->]%lift_run & Hraw).
    apply bind_Ok_inv in Hraw as (value & c2 & [Hval ->]%lift_run & Hst). cbv zeta in Hst.
    apply statement_run in Hst as (rows & Hst & Hdb). injection Hst as <-.
    destruct (IH _ Hrest) as (l & Hl & Hdb').
    assert (setting_of raw = Ok (agent, json_truthy value)) as ->.
    { unfold setting_of. rewrite Hent. change (Ok ?x ≫= ?f) with (f x). cbv beta. rewrite Hag.
      change (Ok ?x ≫= ?f) with (f x). cbv beta. by rewrite Hval. }
    cbn [mbind result_bind]. rewrite Hl. exists ((agent, json_truthy value) :: l). split; [done|].
    by rewrite Hdb', Hdb.
Qed.

(** ** The settings after a restore *)

Lemma find_filter {K R} `{!EqDecision K} (key : R → K) (keep : R → bool) k rows :
  NoDup (map key rows) →
  List.find (λ r, bool_decide (key r = k)) (List.filter keep rows) =
  (List.find (λ r, bool_decide (key r = k)) rows ≫= λ r, if keep r then Some r else None).
Proof.
  induction rows as [|r rows IH]; [done|]. cbn [map]. intros [Hr Hnd]%NoDup_cons.
  cbn [List.filter List.find]. destruct (decide (key r = k)) as [Hk|Hk].
  - rewrite bool_decide_true by done. cbn. destruct (keep r).
    + cbn. by rewrite bool_decide_true.
    + apply find_none_elem. intros x Hx. apply bool_decide_false. intros Hxk. apply Hr.
      rewrite Hk, <- Hxk. apply list_elem_of_In, filter_In in Hx as [Hx _]. by apply list_elem_of_In, in_map.
  - rewrite bool_decide_false by done. rewrite <- IH by done. destruct (keep r); [|done].
    cbn. by rewrite bool_decide_false.
Qed.
Lemma find_map {K R} `{!EqDecision K} (key : R → K) (g : R → R) k rows :
  (∀ r, key (g r) = key r) →
  List.find (λ r, bool_decide (key r = k)) (map g rows) =
  g <$> List.find (λ r, bool_decide (key r = k)) rows.
Proof.
  intros Hg. induction rows as [|r rows IH]; [done|]. cbn. rewrite Hg. by case_bool_decide.
Qed.

Lemma rows_mandate_find m rows ws ag :
  rows_mandate m rows ws ag =
  (List.find (λ r, bool_decide (stw_key r = (ws, ag))) rows ≫= stw_mandate m).
Proof. unfold rows_mandate, settings_view. rewrite find_view. by destruct (List.find _ _). Qed.
Lemma upsert_settings_mandates def ws at_ l rows :
  NoDup (map stw_key rows) → NoDup (map fst l) →
  let rows' := upsert_settings def ws at_ l rows in
  NoDup (map stw_key rows') ∧
  ∀ m ws' ag, rows_mandate m rows' ws' ag =
    if decide (m = RequireBoundary ∧ ws' = ws)
    then match dget ag l with Some v => Some v | None => rows_mandate m rows ws' ag end
    else rows_mandate m rows ws' ag.
Proof.
  cbv zeta. revert rows. induction l as [|[a v] l IH]; intros rows Hnd Hl.
  - split; [done|]. intros m ws' ag. cbn. by case_decide.
  - cbn [upsert_settings fold_left fst snd].
    destruct (upsert_mandates def RequireBoundary ws a v at_ rows Hnd) as [Hnd1 Hm1].
    cbn [map fst] in Hl. apply NoDup_cons in Hl as [Ha Hl].
    destruct (IH _ Hnd1 Hl) as [Hnd2 Hm2]. split; [exact Hnd2|]. intros m ws' ag.
    unfold upsert_settings in Hm2. rewrite Hm2, Hm1. clear Hm1 Hm2 IH.
    destruct (decide (m = RequireBoundary ∧ ws' = ws)) as [[-> ->]|Hne].
    + cbn [dget]. destruct (decide (a = ag)) as [->|Hag].
      * rewrite (proj2 (dget_None ag l)) by exact Ha. by rewrite decide_True.
      * destruct (dget ag l); [done|]. rewrite decide_False; [done|]. intros [_ He]. congruence.
    + rewrite decide_False; [done|]. intros [-> He]. apply Hne. split; congruence.
Qed.
(** The settings once the workspace's boundary settings are unset and the rows that
    hold nothing else are deleted. *)
Definition cleared (ws at_ : string) (agents : list string) (rows : list settings_row) :
    list settings_row :=
  List.filter (λ row, negb (dropped_setting ws agents row))
    (map (λ row, if stw_workspace_id row == ws then unset_boundary at_ row else row) rows).
Lemma cleared_mandates ws at_ agents rows : NoDup (map stw_key rows) →
  let rows' := cleared ws at_ agents rows in
  NoDup (map stw_key rows') ∧
  (∀ ag, rows_mandate RequireBoundary rows' ws ag = None) ∧
  ∀ m ws' ag, m ≠ RequireBoundary ∨ ws' ≠ ws →
    rows_mandate m rows' ws' ag = rows_mandate m rows ws' ag ∨
    (ws' = ws ∧ rows_mandate m rows ws' ag = Some false ∧ rows_mandate m rows' ws' ag = None).
Proof.
  intros Hnd. cbv zeta. unfold cleared.
  set (g := λ row, if stw_workspace_id row == ws then unset_boundary at_ row else row).
  assert (Hg : ∀ r, stw_key (g r) = stw_key r) by (intros []; unfold g; cbn; by case_match).
  assert (Hnd' : NoDup (map stw_key (map g rows))).
  { rewrite map_map. by rewrite (map_ext _ stw_key Hg). }
  assert (Hread : ∀ m ws' ag, rows_mandate m (List.filter (λ row, negb (dropped_setting ws agents row))
      (map g rows)) ws' ag =
    (List.find (λ r, bool_decide (stw_key r = (ws', ag))) rows ≫=
      λ r, if negb (dropped_setting ws agents (g r)) then stw_mandate m (g r) else None)).
  { intros m ws' ag. rewrite rows_mandate_find, find_filter, find_map by done.
    destruct (List.find _ rows) as [r|]; [|done]. cbn. by destruct (negb _). }
  split; [|split].
  - eapply sublist_NoDup; [exact Hnd'|]. apply fmap_sublist, filter_sublist.
  - intros ag. rewrite Hread. destruct (List.find _ rows) as [r|] eqn:Hf; [|done]. cbn.
    apply find_some in Hf as [_ Hk]. apply bool_decide_eq_true in Hk. injection Hk as Hws _.
    destruct (negb _); [|done]. unfold g. rewrite Hws, String.eqb_refl. by destruct r.
  - intros m ws' ag Hor. rewrite Hread, rows_mandate_find.
    destruct (List.find _ rows) as [r|] eqn:Hf; [|by left]. cbn.
    apply find_some in Hf as [_ Hk]. apply bool_decide_eq_true in Hk. injection Hk as Hws Hag.
    destruct (decide (ws' = ws)) as [->|Hne].
    + destruct Hor as [Hm|]; [|done]. unfold g. rewrite Hws, String.eqb_refl. unfold dropped_setting.
      destruct r as [w a b bs t ts p ps u], m; cbn in *; try done;
        destruct (w == ws), (existsb _ _), t, ts, p, ps; cbn; auto.
    + left. unfold g, dropped_setting. by rewrite Hws, (proj2 (String.eqb_neq _ _) Hne), Hws,
        (proj2 (String.eqb_neq _ _) Hne).
Qed.

(** ** Running a restore *)

Lemma members_inv v l : members v = Ok l → v = JList l.
Proof. destruct v; by intros [= ->]. Qed.
Lemma saved_agents ss l : mapM setting_of ss = Ok l →
  mapM (λ raw, entry ← entry_of raw; jitem entry "agent_id" ≫= bind_text) ss = Ok (map fst l).
Proof.
  revert l. induction ss as [|raw ss IH]; intros l; cbn [mapM]; [by intros [= <-]|].
  intros (av & Hav & (k & Hk & [= <-])%result_bind_inv)%result_bind_inv. rewrite (IH _ Hk).
  apply result_bind_inv in Hav as (entry & -> & (ag & Hag & (v & _ & [= <-])%result_bind_inv)%result_bind_inv).
  change (Ok ?x ≫= ?f) with (f x). cbv beta. by rewrite Hag.
Qed.
Lemma restore_run def ws m now c x c' :
  _restore_policy_snapshot def ws m now c = (Ok x, c') →
  ∃ bs rs ss bounds rules l at_,
    jitem m "agent_bounds" = Ok (JList bs) ∧ mapM (snapshot_bounds_row ws) bs = Ok bounds ∧
    jitem m "auto_approval_rules" = Ok (JList rs) ∧ mapM (snapshot_rule_row ws) rs = Ok rules ∧
    jitem m "require_boundary_settings" = Ok (JList ss) ∧ mapM setting_of ss = Ok l ∧
    d_bounds (c_db c') = others bdw_workspace_id ws (d_bounds (c_db c)) ++ bounds ∧
    d_rules (c_db c') = others rlw_workspace_id ws (d_rules (c_db c)) ++ rules ∧
    d_settings (c_db c') = upsert_settings def ws at_ l (cleared ws at_ (map fst l) (d_settings (c_db c))).
Proof.
  unfold _restore_policy_snapshot, insert_bounds_row, insert_rule_row.
  rewrite bind_Ok_inv. intros ([] & c1 & (rows1 & [= <-] & H1)%statement_run & Hrun). revert Hrun.
  rewrite bind_Ok_inv. intros (bs & c2 & [Hbs ->]%lift_run & Hrun). revert Hrun.
  rewrite bind_Ok_inv. intros ([] & c3 & Hb & Hrun). revert Hrun.
  apply (insert_each bounds_table _ (λ row, existsb (bdw_hit (bdw_workspace_id row) (bdw_agent_id row)))
    (λ _, integrity_error "agent_issuable_scope_bounds") _ _ _ bounds_table_ok) in Hb as (bounds & Hbm & H3).
  rewrite bind_Ok_inv. intros ([] & c4 & (rows4 & [= <-] & H4)%statement_run & Hrun). revert Hrun.
  rewrite bind_Ok_inv. intros (rs & c5 & [Hrs ->]%lift_run & Hrun). revert Hrun.
  rewrite bind_Ok_inv. intros ([] & c6 & Hr & Hrun). revert Hrun.
  apply (insert_each rules_table _ (λ row, existsb (λ r, rlw_rule_id r == rlw_rule_id row))
    (λ _, integrity_error "auto_approval_rules.rule_id") _ _ _ rules_table_ok) in Hr as (rules & Hrm & H6).
  rewrite bind_Ok_inv. intros (ss & c7 & [Hss ->]%lift_run & Hrun). revert Hrun.
  rewrite bind_Ok_inv. intros (at_ & c8 & [Hat ->]%lift_run & Hrun). revert Hrun.
  rewrite bind_Ok_inv. intros ([] & c9 & (rows9 & [= <-] & H9)%statement_run & Hrun). revert Hrun.
  rewrite bind_Ok_inv. intros (agents & ca & [Hag ->]%lift_run & Hrun). revert Hrun.
  rewrite bind_Ok_inv. intros ([] & cb & (rowsb & [= <-] & Hb')%statement_run & Hrun).
  destruct x. apply set_each in Hrun as (l & Hl & Hdb).
  rewrite (saved_agents _ _ Hl) in Hag. injection Hag as <-.
  exists bs, rs, ss, bounds, rules, l, at_. rewrite Hdb, Hb', H9, H6, H4, H3, H1.
  repeat match goal with H : _ ≫= members = Ok _ |- _ =>
    apply result_bind_inv in H as (? & ? & ->%members_inv) end.
  split_and!; done.
Qed.

(** ** What is restored *)

Lemma order_by_total {R} (a b : R → string) x y :
  order_by a b x y = true ∨ order_by a b y x = true.
Proof.
  unfold order_by. rewrite (String.eqb_sym (a y)). destruct (a x == a y); apply leb_total.
Qed.
(** The rows of a workspace, after they are replaced by those selected before. *)
Lemma selection_restored {R} (le : R → R → bool) (ws_of : R → string) ws rows rows0 :
  (∀ x y, le x y = true ∨ le y x = true) →
  let selected rows := py_sorted le (List.filter (λ row, ws_of row == ws) rows) in
  selected (others ws_of ws rows ++ selected rows0) = selected rows0.
Proof.
  intros Hle selected. subst selected. cbv beta. rewrite List.filter_app.
  assert (List.filter (λ row, ws_of row == ws) (others ws_of ws rows) = []) as ->.
  { unfold others. induction rows as [|r rows IH]; [done|]. cbn.
    destruct (ws_of r == ws) eqn:He; cbn; [done|]. by rewrite He. }
  cbn [app].
  assert (List.filter (λ row, ws_of row == ws) (py_sorted le (List.filter (λ row, ws_of row == ws) rows0)) =
    py_sorted le (List.filter (λ row, ws_of row == ws) rows0)) as ->.
  { assert (Hws : Forall (λ r, ws_of r = ws) (py_sorted le (List.filter (λ row, ws_of row == ws) rows0))).
    { apply selected_workspace. intros r. apply String.eqb_eq. }
    induction Hws as [|r l Hr _ IH]; [done|]. cbn. by rewrite Hr, String.eqb_refl, IH. }
  apply py_sorted_id, py_sorted_sorted, Hle.
Qed.

(** The saved settings, read as the boundary mandates they record. *)
Definition saved_settings (ws : string) (rows : list settings_row) : list (string * bool) :=
  map (λ row, (stw_agent_id row, stw_require_boundary row)) (boundary_settings ws rows).
Lemma saved_settings_mandates ws rows : NoDup (map stw_key rows) →
  NoDup (map fst (saved_settings ws rows)) ∧
  ∀ ag, dget ag (saved_settings ws rows) = rows_mandate RequireBoundary rows ws ag.
Proof.
  intros Hnd.
  set (keep := λ row, (stw_workspace_id row == ws) && stw_require_boundary_set row).
  assert (Hkeys : NoDup (map stw_key (boundary_settings ws rows))).
  { unfold boundary_settings. rewrite py_sorted_perm.
    eapply sublist_NoDup; [exact Hnd|]. apply fmap_sublist, filter_sublist. }
  assert (Hin : ∀ row, row ∈ boundary_settings ws rows ↔ row ∈ rows ∧ keep row = true).
  { intros row. unfold boundary_settings. rewrite py_sorted_perm.
    rewrite !list_elem_of_In. apply filter_In. }
  assert (Hagents : NoDup (map fst (saved_settings ws rows))).
  { unfold saved_settings. rewrite map_map. cbn [fst]. apply (NoDup_fmap_1 (λ ag, (ws, ag))).
    change (NoDup (map (λ ag, (ws, ag)) (map stw_agent_id (boundary_settings ws rows)))).
    rewrite map_map. erewrite map_ext_in; [exact Hkeys|]. intros row Hrow%list_elem_of_In%Hin.
    destruct Hrow as [_ [Hws _]%andb_true_iff]. apply String.eqb_eq in Hws. unfold stw_key. by rewrite Hws. }
  split; [exact Hagents|]. intros ag. apply option_eq. intros v.
  rewrite dget_elem_iff by exact Hagents. unfold saved_settings. rewrite list_elem_of_In, in_map_iff.
  rewrite rows_mandate_find. split.
  - intros (row & [= <- <-] & Hrow%list_elem_of_In%Hin). destruct Hrow as [Hrow Hk].
    apply andb_true_iff in Hk as [Hws Hset]. apply String.eqb_eq in Hws.
    destruct (List.find _ rows) as [r|] eqn:Hf.
    + apply find_some in Hf as [Hr Hrk]. apply bool_decide_eq_true in Hrk.
      assert (r = row) as ->.
      { apply (keyed_value stw_key rows); [done|by apply list_elem_of_In|done|]. unfold stw_key in *. congruence. }
      cbn. by rewrite Hset.
    + exfalso. apply (find_none _ _) with (x := row) in Hf; [|by apply list_elem_of_In].
      apply bool_decide_eq_false in Hf. apply Hf. unfold stw_key. congruence.
  - destruct (List.find _ rows) as [r|] eqn:Hf; [|done]. cbn.
    destruct (stw_require_boundary_set r) eqn:Hset; [|done]. intros [= <-].
    apply find_some in Hf as [Hr Hrk]. apply bool_decide_eq_true in Hrk. injection Hrk as Hws Hag.
    exists r. split; [by rewrite Hag|]. apply list_elem_of_In, Hin. split; [by apply list_elem_of_In|].
    unfold keep. by rewrite Hws, String.eqb_refl, Hset.
Qed.

(** A mandate other than the boundary one, across a restore: the DELETE may take
    an explicit exemption with it. *)
Definition kept_or_exempt (before after : option bool) : Prop :=
  after = before ∨ (before = Some false ∧ after = None).
(** The workspace's policy is that of [db0]. *)
Definition policy_restored (ws : string) (db0 db db' : Db) : Prop :=
  workspace_bounds ws (d_bounds db') = workspace_bounds ws (d_bounds db0) ∧
  workspace_rules ws (d_rules db') = workspace_rules ws (d_rules db0) ∧
  (∀ ag, mandate_of RequireBoundary db' ws ag = mandate_of RequireBoundary db0 ws ag) ∧
  ∀ m ag, m ≠ RequireBoundary → kept_or_exempt (mandate_of m db ws ag) (mandate_of m db' ws ag).
Lemma restore_restores def ws m now c x c' db0 :
  settings_ok (c_db c) → settings_ok db0 → restores ws m db0 →
  _restore_policy_snapshot def ws m now c = (Ok x, c') → policy_restored ws db0 (c_db c) (c_db c').
Proof.
  intros Hok Hok0 (bs & rs & ss & Hbs & Hrs & Hss & Hbm & Hrm & Hsm) Hrun.
  apply restore_run in Hrun as (bs' & rs' & ss' & bounds & rules & l & at_ & Hbs' & Hbm' & Hrs' &
    Hrm' & Hss' & Hsm' & Hb & Hr & Hs).
  rewrite Hbs in Hbs'. rewrite Hrs in Hrs'. rewrite Hss in Hss'.
  injection Hbs' as <-. injection Hrs' as <-. injection Hss' as <-.
  rewrite Hbm in Hbm'. rewrite Hrm in Hrm'. rewrite Hsm in Hsm'.
  injection Hbm' as <-. injection Hrm' as <-. injection Hsm' as <-.
  fold (saved_settings ws (d_settings db0)) in Hs. unfold policy_restored. rewrite Hb, Hr. split_and!.
  - exact (selection_restored (λ x y, String.leb (bdw_agent_id x) (bdw_agent_id y))
      bdw_workspace_id ws _ _ (λ x y, leb_total _ _)).
  - exact (selection_restored (order_by rlw_created_at rlw_rule_id) rlw_workspace_id ws _ _
      (order_by_total _ _)).
  - destruct (saved_settings_mandates ws (d_settings db0) Hok0) as [Hnd Hget].
    destruct (cleared_mandates ws at_ (map fst (saved_settings ws (d_settings db0))) _ Hok)
      as (Hnd1 & Hnone & _).
    destruct (upsert_settings_mandates def ws at_ _ _ Hnd1 Hnd) as [_ Hread].
    intros ag. unfold mandate_of. fold (rows_mandate RequireBoundary (d_settings (c_db c')) ws ag).
    fold (rows_mandate RequireBoundary (d_settings db0) ws ag).
    rewrite Hs, Hread, decide_True, Hget, Hnone by done. by destruct (rows_mandate _ _ _ _).
  - destruct (saved_settings_mandates ws (d_settings db0) Hok0) as [Hnd _].
    destruct (cleared_mandates ws at_ (map fst (saved_settings ws (d_settings db0))) _ Hok)
      as (Hnd1 & _ & Hkept).
    destruct (upsert_settings_mandates def ws at_ _ _ Hnd1 Hnd) as [_ Hread].
    intros k ag Hk. unfold mandate_of. fold (rows_mandate k (d_settings (c_db c')) ws ag).
    fold (rows_mandate k (d_settings (c_db c)) ws ag).
    rewrite Hs, Hread, decide_False by (by intros [? _]).
    destruct (Hkept k ws ag (or_introl Hk)) as [->|(_ & -> & ->)]; [by left|by right].
Qed.
(** Statements on the rows of one workspace. *)
Lemma others_filter {R} (ws_of : R → string) ws (keep : R → bool) rows :
  (∀ r, keep r = false → ws_of r = ws) → others ws_of ws (List.filter keep rows) = others ws_of ws rows.
Proof.
  intros Hk. unfold others. induction rows as [|r rows IH]; [done|]. cbn [List.filter].
  destruct (keep r) eqn:Hr; cbn [List.filter]; rewrite IH; [done|].
  by rewrite (Hk r Hr), String.eqb_refl.
Qed.
Lemma others_map {R} (ws_of : R → string) ws (g : R → R) rows :
  (∀ r, ws_of (g r) = ws_of r) → (∀ r, ws_of r ≠ ws → g r = r) →
  others ws_of ws (map g rows) = others ws_of ws rows.
Proof.
  intros Hws Hg. unfold others. induction rows as [|r rows IH]; [done|]. cbn [map List.filter].
  rewrite Hws, IH. destruct (String.eqb_spec (ws_of r) ws); [done|]. by rewrite Hg.
Qed.
Lemma snapshot_rows_workspace ws raw :
  (∀ row, snapshot_bounds_row ws raw = Ok row → bdw_workspace_id row = ws) ∧
  (∀ row, snapshot_rule_row ws raw = Ok row → rlw_workspace_id row = ws).
Proof.
  split; intros row; unfold snapshot_bounds_row, snapshot_rule_row; intros Hr;
    repeat (apply result_bind_inv in Hr as (? & _ & Hr)); by injection Hr as <-.
Qed.
Lemma restore_steady def ws m now :
  keeps (within_when (λ _, True) (confined ws)) (_restore_policy_snapshot def ws m now).
Proof.
  unfold _restore_policy_snapshot, insert_bounds_row, insert_rule_row. within; intros Hnd; simplify_eq/=.
  all: try match goal with H : (if ?b then _ else _) = _ |- _ =>
    destruct b eqn:Hex; [done|injection H as <- <-] end.
  all: split; [|unfold elsewhere; cbn; split_and!]; try done.
  - apply others_filter. by intros r ?%negb_false_iff%String.eqb_eq.
  - apply others_snoc. by eapply snapshot_rows_workspace.
  - eapply sublist_NoDup; [exact Hnd|]. apply fmap_sublist, filter_sublist.
  - apply others_filter. by intros r ?%negb_false_iff%String.eqb_eq.
  - by apply rule_ids_snoc.
  - apply others_snoc. by eapply snapshot_rows_workspace.
  - apply others_map; intros r.
    + destruct (stw_workspace_id r == ws); [by destruct r|done].
    + intros Hne. by rewrite (proj2 (String.eqb_neq _ _) Hne).
  - apply others_filter. intros r Hr%negb_false_iff. unfold dropped_setting in Hr.
    repeat (apply andb_true_iff in Hr as [Hr _]). by apply String.eqb_eq.
  - apply others_upsert; [apply hit_settings_workspace|done|by intros []].
Qed.

(** ** Rolling back *)

Section rollback.
Context (require_boundary_default : bool).
Abbreviation rollback := (rollback_policy_version require_boundary_default).

(** What a run of the rollback's transaction did. *)
Lemma rollback_run auditor service ws version by_ now c r c' :
  idle c → l_depth (c_local c) = O → rollback auditor service ws version by_ now c = (r, c') →
  idle c' ∧
  match r with
  | Ok result => ∃ row value snapshot c0 c1 c2 db id h,
      List.find (vrw_hit ws version) (d_versions (c_db c)) = Some row ∧
      loads (vrw_snapshot_json row) = Ok value ∧ _validated_policy_snapshot value = Ok snapshot ∧
      c_db c0 = c_db c ∧
      _restore_policy_snapshot require_boundary_default ws snapshot now c0 = (Ok tt, c1) ∧
      _insert_policy_version ws "rollback" (Some version) by_ now c1 = (Ok (pr_policy_version result), c2) ∧
      confined ws (c_db c) (c_db c2) ∧ db = c_db c2 ∧
      appended (build_control_audit_event
        (policy_rolled_back_event (pr_policy_version result) version ws by_ now) id) db (c_db c') ∧
      c_sink c' = c_sink c ++ [h]
  | Raise _ => c_db c' = c_db c ∧ c_sink c' = c_sink c
  end.
Proof.
  intros Hi Hd. unfold rollback_policy_version.
  destruct (require_bound_to auditor service) as [[]|e]; [|by intros [= <- <-]].
  rewrite (bind_run (lift (Ok tt)) _ c tt c eq_refl).
  rewrite sqlite_apply_transaction_idle by done. set (m := _ ≫= _). intros Hrun.
  assert (Hin : keeps inside m).
  { subst m. unfold _restore_policy_snapshot, insert_bounds_row, insert_rule_row,
      _insert_policy_version, _snapshot_policy_state. inside. }
  destruct (atomic_write_outcome m c r c' Hin Hi Hrun) as [Hi' Hout].
  split; [done|]. destruct r as [x|e]; [|done].
  destruct Hout as (c0 & c1 & emitted & Hdb & Hs & Hsc & Hloc & Hbody & Hdb' & Hsc1 & Hsink).
  subst m. rewrite (bind_run _ _ _ _ _ (select_run _ _ _)) in Hbody. cbv beta in Hbody.
  cbn [t_get versions_table] in Hbody. rewrite Hdb in Hbody.
  destruct (List.find _ _) as [row|]; [|done].
  apply bind_Ok_inv in Hbody as (snapshot & ca & [Hv ->]%lift_run & Hbody).
  apply result_bind_inv in Hv as (value & Hvalue & Hsnap).
  apply bind_Ok_inv in Hbody as ([] & cb & Hrest & Hbody).
  apply bind_Ok_inv in Hbody as (v & cc & Hins & Hbody).
  apply bind_Ok_inv in Hbody as ([] & cd & Hrec & [= <- <-]).
  pose proof (restore_steady require_boundary_default ws snapshot now c0 _ Hs I) as Hst.
  rewrite Hrest in Hst. cbn [snd] in Hst. destruct Hst as (Hs1 & Hl1 & Hscb & He1).
  pose proof (confined_insert_version (λ _, True) ws "rollback" (Some version) by_ now cb _ Hs1 I) as Hst.
  rewrite Hins in Hst. cbn [snd] in Hst. destruct Hst as (Hs2 & Hl2 & Hscc & He2).
  destruct (record_run _ cc _ _ ltac:(by rewrite Hs2) ltac:(by rewrite (proj1 Hl2), (proj1 Hl1), Hloc) Hrec)
    as (id & h & Ha & Hscd).
  exists row, value, snapshot, c0, cb, cc, (c_db cc), id, h.
  rewrite Hscc, Hscb, Hsc, Hsc1 in Hscd. injection Hscd as ->.
  rewrite Hdb'. split_and!; try done. rewrite <- Hdb. by etrans.
Qed.

(** A rollback happens whole or not at all.  From an idle connection, it
    either raises, with the database and the sink untouched, whatever statement,
    event or commit failed; or it returns, having committed at once changes that
    are all to the bounds, rules, settings and versions of its own workspace, one
    control event that names the version restored and the new one, and a new
    version whose snapshot is the state it left. *)
Theorem policy_rollback_transactional auditor service ws version by_ now c r c' :
  idle c → l_depth (c_local c) = O → rollback auditor service ws version by_ now c = (r, c') →
  idle c' ∧
  match r with
  | Ok result => policy_outcome ws (policy_rolled_back_event (pr_policy_version result) version ws by_ now)
                   (pr_policy_version result) c c'
  | Raise _ => c_db c' = c_db c ∧ c_sink c' = c_sink c
  end.
Proof.
  intros Hi Hd Hrun. destruct (rollback_run _ _ _ _ _ _ _ _ _ Hi Hd Hrun) as [Hi' Hout].
  split; [done|]. destruct r as [x|e]; [|done].
  destruct Hout as (row & value & snapshot & c0 & c1 & c2 & db & id & h & _ & _ & _ & _ & _ & Hins &
    Hc & -> & Ha & Hsink).
  exists (c_db c2), id, h. split_and!; try done.
  eapply versioned_appended; [exact Ha|]. by apply insert_version_run in Hins as (_ & ? & _).
Qed.

(** C35: Rolling back restores the policy of the version.  When the version asked
    for holds the snapshot of the workspace's policy in an earlier database, then
    after a rollback the workspace's scope bounds and its auto-approval rules
    are, row for row and in the order they are listed, those of that database, and
    every agent's and the workspace's boundary mandate (set or unset, on or off)
    is what it was then.  The subject-token and proof-of-possession mandates stay,
    save that an explicit exemption may become unset. *)
Theorem policy_rollback_restores auditor service ws version by_ now c result c' db0 snapshot row :
  idle c → l_depth (c_local c) = O → settings_ok (c_db c) →
  settings_ok db0 → policy_ok ws db0 → snapshot_of ws db0 = Ok snapshot →
  List.find (vrw_hit ws version) (d_versions (c_db c)) = Some row →
  vrw_snapshot_json row = dumps true snapshot →
  rollback auditor service ws version by_ now c = (Ok result, c') →
  policy_restored ws db0 (c_db c) (c_db c').
Proof.
  intros Hi Hd Hok Hok0 Hpol Hsnap Hrow Hjson Hrun.
  destruct (rollback_run _ _ _ _ _ _ _ _ _ Hi Hd Hrun) as [_
    (row' & value & m & c0 & c1 & c2 & db & id & h & Hrow' & Hval & Hm & Hdb & Hrest & Hins & _ & -> & Ha & _)].
  rewrite Hrow in Hrow'. injection Hrow' as <-. rewrite Hjson in Hval.
  destruct (snapshot_restores ws db0 snapshot Hpol Hsnap) as (m' & Hl & Hr).
  rewrite Hl in Hval. injection Hval as <-.
  assert (m = m') as ->.
  { revert Hm. unfold _validated_policy_snapshot. cbn [_mapping mbind result_bind].
    destruct (negb _); [done|]. intros Hm.
    repeat (apply result_bind_inv in Hm as (? & _ & Hm)). by injection Hm. }
  assert (Hres : policy_restored ws db0 (c_db c) (c_db c1)).
  { rewrite <- Hdb. eapply restore_restores; [by rewrite Hdb|exact Hok0|exact Hr|exact Hrest]. }
  apply insert_version_run in Hins as (_ & _ & row2 & Hdb2).
  destruct Ha as (rows & -> & _). rewrite Hdb2. exact Hres.
Qed.
End rollback.

(** A policy of one bound, one rule and one boundary mandate, and what was done
    to it since: the bound and the rule are gone, the mandate is lifted, and an
    agent is exempted from proof of possession. *)
Definition policy_before : Db :=
  mkDb [] [] [] [mkBoundsRow "ws" "agent" (json_strings ["read:repo/x"]) (Some 60) "1970-01-01T00:00:00+00:00"]
    [] [mkRuleRow "rule" "ws" "reads" "agent" (json_strings ["read:repo/x"]) 60 "active" "alice"
          "1970-01-01T00:00:00+00:00" None None]
    [] [mkSettingsRow "ws" "agent" true true false false false false "1970-01-01T00:00:00+00:00"] [] [] []
    empty_idem.
Definition policy_version : version_row :=
  mkVersionRow "ws" 1 "apply" None
    (match snapshot_of "ws" policy_before with Ok snapshot => dumps true snapshot | Raise _ => "" end)
    "alice" "1970-01-01T00:00:00+00:00".
Definition policy_changed : Db :=
  mkDb [] [] [] [] [] [] []
    [mkSettingsRow "ws" "agent" false true false false false false "1970-01-01T00:00:00+00:00";
     mkSettingsRow "ws" "exempt" false false false false false true "1970-01-01T00:00:00+00:00"]
    [] [policy_version] [] empty_idem.
Lemma policy_before_ok : policy_ok "ws" policy_before.
Proof.
  assert (Hscopes : ∃ scopes, Forall is_text scopes ∧
    json_strings ["read:repo/x"] = json_strings scopes).
  { exists ["read:repo/x"]. split; [|done]. constructor; [by apply is_text_ascii|constructor]. }
  split_and!; (apply Forall_cons_2; [|by apply Forall_nil_2]); repeat split; try done;
    by apply is_text_ascii.
Qed.
Abbreviation sample_rollback := (rollback_policy_version false (Some 0%nat) (Some 0%nat) "ws" 1 "alice" 0).

Lemma policy_rollback_transactional_witness :
  let c := opened policy_changed in
  ∃ result c', sample_rollback c = (Ok result, c') ∧
    policy_outcome "ws" (policy_rolled_back_event (pr_policy_version result) 1 "ws" "alice" 0)
      (pr_policy_version result) c c'.
Proof.
  cbv zeta. set (c := opened policy_changed).
  assert (Hr : is_ok (sample_rollback c).1 = true) by (by vm_compute).
  destruct (sample_rollback c) as [[result|e] c'] eqn:Hrun; [|done]. exists result, c'. split; [done|].
  exact (proj2 (policy_rollback_transactional false (Some 0%nat) (Some 0%nat) "ws" 1 "alice" 0 c (Ok result) c'
    (opened_idle _) eq_refl Hrun)).
Defined.
Lemma policy_rollback_restores_witness :
  let c := opened policy_changed in
  ∃ result c', sample_rollback c = (Ok result, c') ∧
    policy_restored "ws" policy_before policy_changed (c_db c') ∧
    mandate_of RequireBoundary (c_db c') "ws" "agent" = Some true.
Proof.
  cbv zeta. set (c := opened policy_changed).
  assert (Hr : is_ok (sample_rollback c).1 = true) by (by vm_compute).
  destruct (sample_rollback c) as [[result|e] c'] eqn:Hrun; [|done]. exists result, c'. split; [done|].
  destruct (snapshot_of "ws" policy_before) as [snapshot|e] eqn:Hsnap; [|by vm_compute in Hsnap].
  assert (Hres : policy_restored "ws" policy_before policy_changed (c_db c')).
  { apply (policy_rollback_restores false (Some 0%nat) (Some 0%nat) "ws" 1 "alice" 0 c result c'
      policy_before snapshot policy_version); [apply opened_idle|reflexivity|..].
    - by apply (bool_decide_unpack _); vm_compute.
    - by apply (bool_decide_unpack _); vm_compute.
    - exact policy_before_ok.
    - exact Hsnap.
    - reflexivity.
    - unfold policy_version. by rewrite Hsnap.
    - exact Hrun. }
  split; [exact Hres|]. destruct Hres as (_ & _ & Hm & _). rewrite Hm. reflexivity.
Defined.
(** A rollback of the boundary policy can revoke an exemption that is not
    part of it.  Here an agent exempted from proof of possession (the mandate set,
    and set to false) is no longer exempt after the workspace's policy is rolled
    back: the restore deletes the rows in which the subject-token and
    proof-of-possession values are false, whether they are set or not. *)
Theorem rollback_drops_exemption :
  let c := opened policy_changed in
  let '(r, c') := sample_rollback c in
  is_ok r = true ∧
  mandate_of RequirePop (c_db c) "ws" "exempt" = Some false ∧
  mandate_of RequirePop (c_db c') "ws" "exempt" = None.
Proof. by vm_compute. Qed.
